(* ===== verification/_CoqProject ===== *)
-Q . S2P
Prelude.v
CMem.v
Smem.v
SmemHeap.v
SmemApi.v
SmemService.v
CmdDb.v
RpmhRsc.v
RpmhSlots.v
RpmhTcs.v
Rpmh.v
RpmhFlush.v
RpmhBatch.v
RpmhClient.v
RpmhPd.v
Icc.v
IccVotes.v
IccBatch.v
IccCommit.v
IccVoter.v
IccLists.v
IccSystem.v
IccExamples.v
ClkRpmh.v
KernelIdr.v
QrtrNs.v
QrtrRegistry.v
Smp2p.v
Smp2pLink.v
SmemState.v
SmemHandles.v
Smsm.v
SmsmOps.v
SmsmProbe.v
SmsmHost.v
SmsmNet.v
SmsmExamples.v
QmiEncdec.v
QmiWire.v
QmiRoundtrip.v
QrtrRouter.v
QrtrPacket.v
QrtrSocket.v
QrtrFlow.v
QrtrResume.v
QrtrDelivery.v
QrtrDemo.v
QrtrEndpoint.v
QrtrMhi.v
QrtrMhiSafe.v
QrtrMhiDev.v
QrtrTun.v
QrtrHaven.v
HavenFifo.v
HavenLink.v
HavenSafe.v
HavenNet.v
HavenLive.v
HavenCalls.v
HavenProbe.v
HavenExamples.v
GlinkPipe.v
GlinkQueue.v
GlinkState.v
Glink.v
GlinkSmem.v
GlinkLink.v
GlinkSend.v
GlinkRecv.v
GlinkExchange.v
GlinkTalk.v
GlinkSignals.v
GlinkSafe.v
GlinkExamples.v
QrtrGlink.v
QmiInterface.v
QmiTxn.v
QmiCall.v
QmiDiscovery.v
QmiExamples.v
