(* ===== verification/Prelude.v ===== *)
(** * Verification of the SoC messaging and resource voting drivers

    The repository holds the vendor kernel modules of a Qualcomm SM8350 system.  This
    development models the modules by which the processors of the chip find each other,
    share memory, and vote for shared resources, and proves that they do what their
    clients rely on.

    ** The program and its parts

    - [drivers/soc/qcom/smem.c]: the shared memory heap.  A table of contents at the end of
      the region names one partition for each pair of processors and a global one; a
      partition grows a list of uncached items from its start and a list of cached items
      from its end.  Without partitions the items live in a global heap indexed by number.
    - [drivers/soc/qcom/cmd-db.c]: a read-only table, written by the boot loader, that maps
      the name of a resource to its address and auxiliary data.
    - [drivers/soc/qcom/rpmh-rsc.c], [rpmh-internal.h]: the controller of the hardware that
      sends votes.  Requests are written to trigger command sets (TCS); active requests are
      sent at once and completed by an interrupt, sleep and wake requests stay in the
      slots of their TCSes until the hardware needs them.
    - [drivers/soc/qcom/rpmh.c]: the library its clients call.  It keeps the sleep and wake
      votes in a cache, writes active votes through the controller, and flushes the cache
      to the slots before the system sleeps.
    - [drivers/soc/qcom/rpmhpd.c]: the power domains.  Each has a few corners, read from the
      command database; the calls of the domain framework become votes for its resource, which
      it shares with a peer that does not count while the system sleeps.
    - [drivers/clk/qcom/clk-rpmh.c]: clocks that are votes.  Such a clock is on or off, and only
      the votes that change are sent; the clocks of bus clock managers have a rate.
    - [drivers/interconnect/qcom/bcm-voter.c], [icc-rpmh.c], [icc-rpmh.h]: the bandwidth votes of
      the interconnect.  Nodes sum up what their clients ask for in the active, wake and sleep
      state; bus clock managers (BCM) turn the sums of their nodes into votes, which a voter
      sends to the library in batches, one clock domain after the other.
    - [net/qrtr/ns.c], [include/uapi/linux/qrtr_caf.h]: the name service of the message
      router.  Nodes register servers; local clients look for them and are told of changes.
    - [net/qrtr/qrtr.c], [qrtr.h]: the router below it.  Endpoints carry packets to other
      processors, sockets are the local ports; a flow per destination counts the packets that
      were not confirmed and stops a sender at the high watermark.
    - [net/qrtr/haven.c]: a transport below the router, between two virtual machines.  They share
      a region with a queue of bytes in each direction; a packet is written in as many pieces
      as there is room for, and doorbells tell the other machine of data and of room.
    - [net/qrtr/smd.c], [mhi.c], [mhi_dev.c], [tun.c]: four more transports.  The first uses a
      channel of a link; the second is the host's end of a bus to another chip, which takes
      packets and confirms them in order; the third is the other end of such a bus; the last
      hands the packets to a file that a process reads and writes.
    - [drivers/rpmsg/qcom_glink_native.c], [qcom_glink_native.h], [qcom_glink_smem.c]: a link with
      many channels between two processors.  The bytes go through two queues in items of the
      shared memory; a channel is opened and closed by messages with an answer each, data goes
      in fragments into intents, buffers that the receiver has offered, and the interrupt leaves
      what may wait to a worker.
    - [drivers/soc/qcom/smp2p.c]: the point to point link.  Each side publishes named 32-bit
      values in a shared item; the driver turns changed bits into interrupts and handles
      the restart of the other side.
    - [drivers/soc/qcom/smsm.c]: the state machine of the whole chip.  Every system owns one
      word of state bits in shared memory, and a matrix says which system wants an interrupt
      for which bits of which word.
    - [drivers/soc/qcom/smem_state.c]: the registry by which drivers offer such words to
      clients, as counted handles found by a node of the device tree.
    - [drivers/soc/qcom/qmi_encdec.c]: the encoding of the messages services exchange.  A table
      of element descriptors says how a C structure is written as type-length-value blocks.
    - [drivers/soc/qcom/qmi_interface.c]: the client interface.  A handle owns a socket of the
      router; it registers services and lookups with the name service, keeps the list of the
      servers it found, matches responses with transactions by number, and hands decoded
      messages to the handlers of its owner.

    ** Files

    - [Prelude]: error numbers, machine integers, the outcomes [Ok], [Fault] and [Loop],
      the state monad [ST], tactics and generic lemmas.
    - [CMem]: memory as bytes in a mapped window; checked little-endian accesses; the bytes of
      a ring, which the queues of two transports share.
    - [Smem] translates smem.c on the bytes of region 0; [Layout] holds the offsets of its
      structures and [qcom_smem] the handle.  [SmemHeap] holds the invariant [part_wf] of a
      partition, the abstract [heap] and the refinement; [SmemApi] the global heap, the
      probe and the public calls.  [SmemService] is what the manager promises its clients,
      as the classes [SmemService] and [SmemLaws], with the instance for a handle of the
      manager (the global heap, or a partition with no cached items).
    - [CmdDb] translates cmd-db.c and holds its theorems.
    - [RpmhRsc] translates rpmh-rsc.c: [rsc_drv] is the driver with its four groups
      ([tcs_group]), the bitmap of TCSes in use, and the registers as a finite map from
      addresses to values.  [RpmhSlots] holds the slot allocation, [RpmhTcs] the
      registers, the transition system [rsc_step], the interrupt, the probe and the modes.
    - [Rpmh] translates rpmh.c on top of it: [rpmh] adds the cache of votes, the cached
      batches and the request objects.  [RpmhFlush] holds the cache and the flush.
      [RpmhBatch] holds what a batch and a single vote do to the controller and its cache.
    - [RpmhClient] holds the state of a driver that votes ([client]), what pairs of objects that
      vote together have (the class [Voter]), and the invariant [votes_inv] of their votes with
      the changes that keep it.  [RpmhPd] translates rpmhpd.c and [ClkRpmh] clk-rpmh.c; each
      holds its instance of the invariant over the calls and what other clients do ([pd_step],
      [clk_step]), and concrete domains or clocks.
    - [Icc] translates bcm-voter.c and icc-rpmh.c: [icc] holds the nodes, BCMs and voters by
      address, the controllers below them and the command database.  [IccVotes] holds the sums
      and the votes as functions of the requests, [IccBatch] the commands and their payloads,
      [IccCommit] and [IccVoter] the commit, [IccLists] the invariant of the lists and links,
      [IccSystem] the initialisation and any sequence of calls ([icc_reachable]), and
      [IccExamples] a concrete interconnect.
    - [QrtrNs] translates ns.c: [ns] holds the nodes (indexed by number, with an address
      per node object, so that a node is shared), their servers, the lookups and the
      packets sent.  [QrtrRegistry] holds its theorems, about the view [registry].
    - [QrtrRouter] translates the nodes, flows, transmission, reception and endpoints of qrtr.c,
      [QrtrSocket] its socket calls: [router] holds the node and socket objects (an access to a
      freed one is a fault), the trees and lists that refer to them, a trace of what went to the
      transports, and the answers of the rest of the kernel, by kind of call.  [QrtrPacket]
      holds the header, the checks on received data and the checksum, [QrtrFlow] the steps of
      the router ([reach], interleaved where a sender waits) and flow control, [QrtrResume] the
      confirmation between two routers, [QrtrDelivery] forwarding, ports and local messages,
      [QrtrDemo] concrete routers.
    - [QrtrEndpoint] is what a transport sees of the router, as the classes [Endpoint] and
      [EndpointLaws], with the router as an instance of both.
    - [QrtrHaven] translates haven.c: [haven] is one machine with the region as it maps it, the
      device, what refers to the device from outside, and the router behind the class
      [Endpoint].  [HavenFifo] holds a ring of bytes as a queue ([holds]); [HavenLink] two machines
      on one region ([net]), whose senders and readers take the steps [move] in any order, and
      the stream of packets in one direction; [HavenSafe] and [HavenNet] the invariant ([net_ok]),
      [HavenLive] what keeps the link going ([alive], [weight]), [HavenCalls] the loops as runs of
      steps and the packets of the router, [HavenProbe] the set up,
      and [HavenExamples] two concrete machines.
    - [GlinkPipe] translates the queues of qcom_glink_smem.c; the class [GlinkPipe] is the table of
      operations a link calls, and [PipeLaws] what it relies on, which [GlinkQueue] shows of the
      queues.  [GlinkState] holds the data of a link ([qcom_glink]: its channels and intents are
      objects, and an access to a freed one is a fault), [Glink] translates qcom_glink_native.c
      over any pipe, [GlinkSmem] the registration of an edge in shared memory.  [GlinkLink] holds
      what the primitives do, [GlinkSend] and [GlinkRecv] a message at either end,
      [GlinkExchange] both ends together, [GlinkTalk] the exchange of versions, [GlinkSignals] the modem
      lines, [GlinkSafe] the invariant of the interrupt ([link_ok]), and [GlinkExamples] a
      concrete edge.
    - [QrtrMhi] translates mhi.c: [mhi] is the transport with the buffers the bus holds,
      and the objects of the packets with their references.  [QrtrMhiSafe] holds the invariant
      of the references over every order of sends, completions and removals.  [QrtrMhiDev]
      translates mhi_dev.c and holds the states of its two channels, [QrtrTun] translates tun.c
      with its queue of packets.  [QrtrGlink] translates smd.c over the class [Rpmsg], which a link
      of [Glink] is an instance of, joins routers, transports, links and shared memory, and
      follows a packet through all of them.
    - [KernelIdr] holds the identifier tables of the kernel.
    - [Smp2p] translates smp2p.c: [qcom_smp2p] holds the two items and the entries of both
      directions.  [Smp2pLink] holds its theorems.
    - [SmemState] translates smem_state.c, over any state of the drivers; [SmemHandles] holds
      the count of handles as a ledger ([reg_inv]) and the steps of the clients ([served]).
    - [Smsm] translates smsm.c: [soc] is the kernel of one system below the driver, with the
      memory, the driver objects, the interrupt domains and handlers, the interrupts sent
      ([kicks]) and raised ([fired]).  [SmsmOps] holds the layout of the words and what each
      operation does to them, [SmsmProbe] the probe against the laws of the memory manager,
      [SmsmHost] the invariant of one system and the part of memory it may change
      ([host_frame]), [SmsmNet] any number of systems on one memory ([net_step]), and
      [SmsmExamples] a concrete chip with two systems.
    - [QmiEncdec] translates qmi_encdec.c; the structure and the message are two memories.
      [QmiWire] holds the schemas of well-formed tables, the wire format as a function to
      bytes ([wire]) and the encoder's theorem; [QmiRoundtrip] holds the decoder's.
    - [QmiInterface] translates qmi_interface.c: [world] is a handle with its socket layer, the
      objects of its transactions, the memory and the state of its owner.  The socket layer is
      the class [KernelSockets], and what the theorems need of it the class [SocketLaws]; the
      router is an instance of both.  [QmiTxn] holds the steps of a handle ([qstep]) and the
      transactions, [QmiCall] the round trip of a call and the router's instances,
      [QmiDiscovery] the handle together with the name service, [QmiExamples] concrete handles.

    A C function is a Rocq function of the same name.  Loops are named functions after the
    C function they belong to; an early return or a goto is a branch.  An access out of
    the bounds of an array or of the mapped memory is [Fault], so a theorem that gives an
    [Ok] result also says that the code makes no such access.

    ** What is shown

    - Shared memory: allocation in a partition refines the abstract allocator, alone and in
      sequences, keeps items apart, and is undone by lookup; the global heap keeps its
      invariant and has the same round trip; a failing call changes nothing; the probe
      accepts only validated partitions.
    - Command database: lookup by name is the first match in table order; what clients
      read is consistent; the listing visits each entry once.
    - Controller: [find_slots] is the first fit inside one TCS; an active request is
      written completely or not at all; the interrupt completes each finished request
      once; over all interleavings of the operations and the hardware no address is in
      flight twice, and no operation faults; the probe establishes the invariant.
    - Votes: the cache is a finite map whose dirty flag covers every change; a flush
      programs every valid vote in both groups, or reports that they do not fit.
    - Power domains: over any sequence of calls, some of which may fail, the active request a call
      hands the hardware is what a domain and its peer ask for, and a flush programs what the hardware applies when the system
      goes to sleep and wakes; a call that sends votes repairs what a failed one left.
    - Clocks: as long as no call fails, the votes that were sent say on exactly for the states in
      which a clock or its peer is on.
    - Interconnect: a vote is the smallest that covers what every node asks for, or the keepalive's; each BCM gets one command, and the
      last one of each clock domain commits it; after a commit the batches of the library are
      exactly the wake and sleep votes that differ; over any sequence of calls the lists of the
      voters agree with the links of the BCMs.
    - Name service: a packet changes the servers of its sender's node only; registration,
      removal, departure and lookup do what they say and tell exactly the right observers;
      the worker handles every queue.
    - Router: any received data is handled without a fault (but for one short packet) and queued
      where its header says; what one router transmits the next one accepts unchanged; over all
      sequences of operations the flow counters stay within the watermarks, and a flow that
      stops senders is owed a resume packet, which the receiver sends and which resets the
      flow; forwarding, binding, local messages and the checksum do what they say.
    - Machines: after the two probes the link is empty, whatever the region held; from then on,
      over all interleavings of senders and readers in which no reader starts on part of a header, what one machine posts is what the other
      sent, whole and in order; no wake-up is lost, so that every packet arrives; a failed
      probe takes its endpoint back; packets up to the size of the buffer pass.
    - Channels: a pipe in shared memory is a bounded queue of bytes; a message arrives whole,
      once, and in the smallest intent that holds it, and the answer leaves the edge ready for
      the next one; the two sides agree on their features and see each other's modem lines; the
      interrupt handler returns, without a fault, for whatever bytes the other side sent, except
      the messages of intents that are shown to hold it up.
    - Transports: a packet that one router sends over a channel is queued by the other router
      where its header says; over every order of sends, completions and interrupts no packet
      of a bus is touched after it was freed, each has its references, and none is leaked; the
      other end of a bus has its endpoint registered exactly while both channels are connected;
      a process reads the packets of a file whole and in order.
    - Link: exactly the selected edges of changed or pending bits are raised, once; restarts
      are acknowledged; the link opens only between equal versions; outbound writes change
      only their bits.
    - State machine: over any number of systems and any order of probes, removals, changes and
      interrupts, no call touches what was freed or is another system's; a change kicks exactly
      the hosts that subscribed a changed bit, and the next interrupt of a listener raises exactly the selected edges;
      a probe that fails leaves nothing behind.  A state
      exists as long as its owner or a holder has it, and no later.
    - Messages: the encoder writes exactly the wire format of the structure, or says that the
      buffer is too small, and never writes past it; the decoder
      restores the structure from the message.
    - Client interface: a call returns the answer of the service to the arguments of the caller,
      through both handles and the router; transactions have distinct numbers, nobody touches
      one that was given back, and a release wakes every waiter; the servers a handle knows
      are exactly the registered ones it looks for, while servers, clients and nodes come and go.

    Theorems on concrete states, next to these, show where the code does not do what it
    means to: the size computation of smem that wraps, [find_match] at the boundary of a
    TCS and in the last slot, an error that [flush_batch] loses, the request object that
    [rpmh_write_async] leaks, the BCMs of a split clock domain that get no votes, the counts a
    large domain overruns, a power domain that is switched off to a level in place of a corner or has no
    levels at all, and the domains a failed probe leaves, a clock whose votes outlive a failed call, one that
    has no vote for sleep, addresses that are added twice and rates that overflow, a wake vote lowered by a keepalive, a refused request that is not
    ignored, an initialisation that stays failed and data read past its length, the packet
    length the name service does not check, the entry counts smp2p does not check and the
    acknowledgement it loses in a restore; in the router a request for confirmation that is
    lost when padding fails or the port is large, a transmission without an endpoint that
    succeeds, short NEW_SERVER packets and references that error exits keep; between the
    machines a header read before it is complete, a packet of a refused size that is looked at
    without end, an endpoint and a notifier that outlive their device, and a region that is too
    small; on a link messages of intents that stop the interrupt handler and unknown commands
    that stop the link, names that are not ended, not there or too long, channels that are
    freed while the other side's number still leads to them, an intent that is put on a list
    twice, what a failed probe leaves, and a reference nobody gives back; under the router a packet for an unknown port that stops the
    handler of the link, an interrupted send that goes out twice, an endpoint that is taken back
    without having been registered, and a pointer to a device that was freed; in the message encoding a string that overruns the buffer, lengths that keep stale
    bytes, a string only one side accepts and reads past the end of a message; in the state
    machine the default sizes that are never used without partitions, values that are not
    masked, a local number that is not checked, a handler that outlives its domain, and an
    orphaned state that is found again; and in the client interface a waiter that returns
    before the release has let go of its transaction, a null socket that is followed, and a
    server that is replaced in silence.

    ** Bounds, fuel and the environment

    Walks over shared memory get a round for every entry that fits in their range
    ([walk_fuel], [cached_fuel]: an entry has a header of 16 bytes), so the theorems give
    [Ok] and never [Loop].  The loop of [find_slots] gets [slots_fuel] = 5 rounds: a group
    has at most three TCSes and a round is spent on each; [RpmhSlots] shows that it is
    enough.  The loops that wait for the hardware ([send_loop] of [RpmhRsc], [solver_loop],
    [inval_loop], [tx_wait_loop]) take what the rest of the system does in a delay as a
    function of the state, and the number of rounds as fuel; the theorems say how many rounds are used.
    The loops of the encoder and the decoder get [table_rounds] of the table, which the theorems
    show to be enough.  Results of memory allocation, of the remote spinlock, of socket calls
    and of the device tree are inputs.  Constants of headers outside the repository are the
    class [TcsAbi], and the bitmap search of the kernel is the class [BitmapArea] with its documented law;
    [linear_bitmap] is an instance.  The identifier allocator of the kernel is the class [Idr]
    ([linear_idr] is an instance).  The message header of QMI is the class [QmiHeader], and the
    fields the interface reads from it [QmiFields].  The work of a handle gets a number of
    rounds; the call theorem shows that two are enough for one message.  The callbacks of the
    owner of a handle are functions on the whole state; the theorems say what they may touch
    ([owner_calm], [owner_accepts]).

    A commit is shown for domains that fit ([sendable]: the payloads [batches] cuts the list
    into are no larger than the hardware takes, and the arrays hold their 64 commands and nine
    counts; a larger domain is refused by the library or overruns the array, which the examples show); what the active request comes to is a hypothesis,
    since it waits for the hardware.  The largest vote and the word of a command are the class
    [BcmAbi], the sort of the kernel is [ListSort] with its documented law [SortLaws]; every BCM
    belongs to one voter, as the tables of the chips have it.

    The systems of [SmsmNet] map the shared region at the same address.  [mem_inv] asks that the
    sizes the systems read are positive and their product fits, and that items which already
    exist are large enough, which the driver does not check; [env_ok] and [children_ok] say what the
    kernel and the device tree give a probe: fresh objects and domains, negative errors, a local
    number within the sizes, and every entry described once.  The count of a handle is an
    unbounded integer.

    The machines of [HavenLink] see the stores to the region in the order of the code, which its
    barriers ask for.  A step is what a machine does between two looks at the shared words; a
    wait ends with a doorbell or by time.  The code reads the 24 bytes that tell the size of a
    packet without a look whether they are there; the theorems are about runs in which no
    reader starts on a header that is not all in the queue ([cut_short], [whole]), which happens
    only while the sender waits for room inside a header.  Packets have the sizes the router sends, below the limit the reader
    refuses.  The results of the doorbells are
    inputs; [haven_delivers] is for machines whose doorbells get through, since the master never
    raises a failed one again.  Reading gets a round for each byte of a full queue as fuel.

    The resume of a flow is shown while memory for padding is there, for ports below 2^31, and
    the discovery of servers while no server is registered at a port that has one ([fair]): the
    examples show that both fail otherwise.  A schema that is encoded into a buffer of any size
    has no strings inside structures, whose space check is wrong.

    The drivers of domains and clocks take what the hardware does during a call as functions, as the
    library does; the theorems are about the calls that return, and the examples run them.  The
    numbers of the states of a vote are the class [RpmhStates].  The levels of a power domain are
    as the probe leaves them, there is one, and the first is zero ([pd_ok]).

    A link takes the rest of the kernel as the record [glink_world]: what the rpmsg core and the
    owner of a channel do in a callback or a registration, and what the rest of the system does
    to the state while a thread waits, each a function on the state.  The loops of the interrupt
    handler and the worker get [w_rounds] rounds; a round takes at least eight bytes from the
    queue or one of the answers of the kernel about memory, so an eighth of the length, the
    number of these answers and one are enough ([work] of [GlinkSafe]).  [GlinkExchange] is about channels whose owners take the data, with memory
    for everything; [GlinkSafe] has no such condition on the bytes or the memory, but asks that the
    room for the answers is there, since a writer waits without it.  What [ALIGN] leaves between
    two messages is whatever the ring held.  The references of channels, their removal and the
    removal of a link are modelled and run on examples; no theorem covers every order of them,
    since the examples show orders that fail.

    The bus of [QrtrMhi] is a queue: it takes packets in the order of the calls, and completes
    them in that order at any later time; whether it takes one is an input, and so is
    whether a wait is interrupted.

    Integers have the width of the source where they can leave it: the sizes and addresses
    of smem in 64 bits, register values, values and flags in 32 bits.

    ** What is not modelled

    The handlers of nested interrupts (they are recorded, not run), locking and memory
    barriers (each operation runs alone between the points where the source waits), a transport
    that keeps reading a packet after it returned, tracing and log text, driver registration,
    regions other than 0 as bytes, the doorbells and the resource manager of the hypervisor, and
    the other modules of the repository: the bus below [mhi.c] and [mhi_dev.c], the ethernet
    transport of the router, the other users of links and of the library, the tables of the chips
    and the device drivers. *)
From Stdlib Require Export ZArith Lia ZifyBool.
From stdpp Require Export base gmap list numbers fin_maps.

Declare Scope c_scope.
Delimit Scope c_scope with C.
#[global] Open Scope Z_scope.

(** ** Error numbers

    The driver functions return [0] or a negated error number, exactly as the C
    functions do; the numbers are the ones of the Linux errno headers. *)
Definition ENOENT : Z := 2.
Definition EIO : Z := 5.
Definition ENXIO : Z := 6.
Definition EAGAIN : Z := 11.
Definition ENOMEM : Z := 12.
Definition EACCES : Z := 13.
Definition EFAULT : Z := 14.
Definition EBUSY : Z := 16.
Definition EEXIST : Z := 17.
Definition ENODEV : Z := 19.
Definition EINVAL : Z := 22.
Definition ENOSPC : Z := 28.
Definition EPIPE : Z := 32.
Definition ENODATA : Z := 61.
Definition EMSGSIZE : Z := 90.
Definition EPROTOTYPE : Z := 91.
Definition EADDRINUSE : Z := 98.
Definition EADDRNOTAVAIL : Z := 99.
Definition ENETRESET : Z := 102.
Definition ECONNRESET : Z := 104.
Definition ENOTCONN : Z := 107.
Definition ETIMEDOUT : Z := 110.
Definition ECANCELED : Z := 125.
Definition ENOIOCTLCMD : Z := 515.
Definition EPROBE_DEFER : Z := 517.
Definition ETOOSMALL : Z := 525.

(** ** Machine integers

    A [w]-bit unsigned integer is a [Z]; the wrap-around of C's unsigned
    arithmetic is written out with these functions. *)
Definition u8 (x : Z) : Z := x mod 2 ^ 8.
Definition u16 (x : Z) : Z := x mod 2 ^ 16.
Definition u32 (x : Z) : Z := x mod 2 ^ 32.
Definition u64 (x : Z) : Z := x mod 2 ^ 64.

(** Conversion of an unsigned 32-bit value to [int]. *)
Definition s32 (x : Z) : Z :=
  let y := u32 x in if y <? 2 ^ 31 then y else y - 2 ^ 32.

Definition UINT_MAX : Z := 2 ^ 32 - 1.

(** [ALIGN(x, a)] of the kernel on [size_t]: [(x + (a - 1)) & ~(a - 1)]. *)
Definition ALIGN (x a : Z) : Z :=
  Z.land (u64 (x + u64 (a - 1))) (u64 (Z.lnot (u64 (a - 1)))).

(** [BIT(n)] *)
Definition BIT (n : Z) : Z := Z.shiftl 1 n.

(** ** Outcomes

    [Ok a]: the code returned [a].  [Fault]: it dereferenced an address outside
    the mapped memory (or a NULL pointer).  [Loop]: the bound given for a loop
    was used up; the theorems show it is never reached. *)
Inductive res (A : Type) : Type :=
| Ok (a : A)
| Fault
| Loop.
Arguments Ok {A} a.
Arguments Fault {A}.
Arguments Loop {A}.

Definition res_bind {A B} (c : res A) (k : A -> res B) : res B :=
  match c with
  | Ok a => k a
  | Fault => Fault
  | Loop => Loop
  end.

(** State and outcome monad over a state type. *)
Definition ST (S A : Type) : Type := S -> res (A * S).

Definition st_ret {S A} (a : A) : ST S A := fun s => Ok (a, s).

Definition st_bind {S A B} (c : ST S A) (k : A -> ST S B) : ST S B :=
  fun s => match c s with
           | Ok (a, s') => k a s'
           | Fault => Fault
           | Loop => Loop
           end.

Notation "'let!' x ':=' c 'in' k" := (st_bind c (fun x => k))
  (at level 10, x binder, c at level 100, k at level 200) : c_scope.
Notation "c ';;;' k" := (st_bind c (fun _ => k))
  (at level 100, right associativity) : c_scope.

(** ** Automation *)

(** Case analysis on the innermost [if] or [match] of the goal, keeping the
    equation, with the impossible arithmetic cases closed. *)
Ltac case_if :=
  match goal with
  | |- context [if ?b then _ else _] =>
      lazymatch type of b with
      | bool => destruct b eqn:?
      end
  end.

Ltac case_if_in H :=
  match type of H with
  | context [if ?b then _ else _] =>
      lazymatch type of b with
      | bool => destruct b eqn:?
      end
  end.

(** Decide a boolean test from the arithmetic context. *)
Ltac bool_true b := replace b with true by (symmetry; lia).
Ltac bool_false b := replace b with false by (symmetry; lia).

Ltac solve_ifs :=
  repeat match goal with
  | |- context [if ?b then _ else _] =>
      lazymatch type of b with
      | bool => first [ bool_true b | bool_false b ]
      end
  end.

(** Closed arithmetic facts, by evaluation. *)
Ltac concrete :=
  lazymatch goal with
  | |- _ /\ _ => split; concrete
  | |- _ \/ _ => first [left; concrete | right; concrete]
  | |- (_ <= _)%Z => vm_compute; congruence
  | |- (_ < _)%Z => vm_compute; reflexivity
  | |- _ = _ => vm_compute; reflexivity
  | |- _ <> _ => vm_compute; congruence
  end.

Create HintDb csimp.

(** ** Generic lemmas *)
Lemma st_bind_ok {S A B} (c : ST S A) (k : A -> ST S B) s a s' :
  c s = Ok (a, s') -> st_bind c k s = k a s'.
Proof. intros H. unfold st_bind. by rewrite H. Qed.

(** [get] and [put] of the state. *)
Definition st_get {S A} (f : S -> A) : ST S A := fun s => Ok (f s, s).
Definition st_upd {S} (f : S -> S) : ST S unit := fun s => Ok (tt, f s).

(** A computation without state. *)
Definition st_lift {S A} (r : res A) : ST S A :=
  fun s => match r with Ok a => Ok (a, s) | Fault => Fault | Loop => Loop end.

Lemma st_lift_ok {S A} (r : res A) a (s : S) : r = Ok a -> st_lift r s = Ok (a, s).
Proof. by intros ->. Qed.

Lemma filter_all {A} (P : A -> Prop) `{!forall x, Decision (P x)} (l : list A) :
  (forall x, x ∈ l -> P x) -> filter P l = l.
Proof.
  induction l as [|x l IH]; intros HP; [done|]. rewrite filter_cons, decide_True by (apply HP; by left).
  f_equal. apply IH. intros y Hy. apply HP. by right.
Qed.

(** Runs a call and decides a property of its outcome. *)
Lemma run_check {S A} (o : res (A * S)) (P : A -> S -> bool) :
  (match o with Ok (a, s) => P a s | _ => false end) = true -> exists a s, o = Ok (a, s) /\ P a s = true.
Proof. destruct o as [[a s]| |]; [|done..]. eauto. Qed.

Lemma st_bind_get {S A B} (f : S -> A) (k : A -> ST S B) s : st_bind (st_get f) k s = k (f s) s.
Proof. reflexivity. Qed.
Lemma st_bind_upd {S B} (f : S -> S) (k : unit -> ST S B) s : st_bind (st_upd f) k s = k tt (f s).
Proof. reflexivity. Qed.
Lemma st_bind_ret {S A B} (a : A) (k : A -> ST S B) s : st_bind (st_ret a) k s = k a s.
Proof. reflexivity. Qed.
Lemma st_bind_bind {S A B C} (c : ST S A) (f : A -> ST S B) (k : B -> ST S C) s :
  st_bind (st_bind c f) k s = st_bind c (fun a => st_bind (f a) k) s.
Proof. unfold st_bind. by destruct (c s) as [[]| |]. Qed.

(** Runs the reads and updates at the head of a computation. *)
Ltac st_run := repeat first [rewrite st_bind_get | rewrite st_bind_upd | rewrite st_bind_ret
                            | rewrite st_bind_bind].

Lemma st_bind_inv {S A B} (c : ST S A) (k : A -> ST S B) s r :
  st_bind c k s = Ok r -> exists a s', c s = Ok (a, s') /\ k a s' = Ok r.
Proof. unfold st_bind. destruct (c s) as [[a s']| |]; naive_solver. Qed.

Lemma u8_range x : 0 <= u8 x < 2 ^ 8.
Proof. apply Z.mod_pos_bound. lia. Qed.
Lemma u16_range x : 0 <= u16 x < 2 ^ 16.
Proof. apply Z.mod_pos_bound. lia. Qed.
Lemma u32_range x : 0 <= u32 x < 2 ^ 32.
Proof. apply Z.mod_pos_bound. lia. Qed.
Lemma u64_range x : 0 <= u64 x < 2 ^ 64.
Proof. apply Z.mod_pos_bound. lia. Qed.
Lemma u16_id x : 0 <= x < 2 ^ 16 -> u16 x = x.
Proof. apply Z.mod_small. Qed.
Lemma u32_id x : 0 <= x < 2 ^ 32 -> u32 x = x.
Proof. apply Z.mod_small. Qed.
Lemma u64_id x : 0 <= x < 2 ^ 64 -> u64 x = x.
Proof. apply Z.mod_small. Qed.

Lemma s32_id x : 0 <= x < 2 ^ 31 -> s32 x = x.
Proof. intros H. unfold s32. rewrite u32_id by lia. by solve_ifs. Qed.

#[export] Hint Resolve u8_range u16_range u32_range u64_range : csimp.

(** A shifted value and a value below it. *)
Lemma lor_shiftl x p k : 0 <= k -> 0 <= p < 2 ^ k -> Z.lor (Z.shiftl x k) p = x * 2 ^ k + p.
Proof.
  intros Hk Hp. pose proof (Z.add_lor_land (Z.shiftl x k) p) as H.
  assert (Hz : Z.land (Z.shiftl x k) p = 0).
  { apply Z.bits_inj'. intros n Hn. rewrite Z.land_spec, Z.shiftl_spec, Z.bits_0 by lia.
    destruct (decide (n < k)); [by rewrite Z.testbit_neg_r by lia|].
    rewrite <-(Z.mod_small p (2 ^ k)) by lia. by rewrite Z.mod_pow2_bits_high, andb_false_r by lia. }
  rewrite Hz, Z.shiftl_mul_pow2 in H by lia. rewrite Z.shiftl_mul_pow2 by lia. lia.
Qed.

(** Masking off the low bits of a 64-bit value. *)
Lemma land_lnot_ones_u64 y k :
  0 <= k < 64 -> 0 <= y < 2 ^ 64 ->
  Z.land y (u64 (Z.lnot (2 ^ k - 1))) = y - y mod 2 ^ k.
Proof.
  intros Hk Hy. unfold u64. rewrite <-!Z.land_ones by lia.
  replace (2 ^ k - 1) with (Z.ones k) by (rewrite Z.ones_equiv; lia).
  assert (Hsub : y - Z.land y (Z.ones k) = Z.ldiff y (Z.ones k)).
  { rewrite Z.sub_nocarry_ldiff.
    - apply Z.bits_inj'. intros n Hn. rewrite !Z.ldiff_spec, Z.land_spec.
      by destruct (Z.testbit y n), (Z.testbit (Z.ones k) n).
    - apply Z.bits_inj'. intros n Hn. rewrite Z.ldiff_spec, Z.land_spec, Z.bits_0.
      by destruct (Z.testbit y n), (Z.testbit (Z.ones k) n). }
  rewrite Hsub. apply Z.bits_inj'. intros n Hn.
  rewrite Z.ldiff_spec, !Z.land_spec, Z.lnot_spec by lia.
  destruct (decide (n < 64)) as [Hn'|Hn'].
  - rewrite (Z.testbit_ones_nonneg 64 n) by lia.
    replace (n <? 64) with true by lia. by rewrite andb_true_r.
  - replace (Z.testbit y n) with false; [done|].
    symmetry. destruct (decide (y = 0)) as [->|Hy0]; [apply Z.bits_0|].
    apply Z.bits_above_log2; [lia|].
    assert (Z.log2 y < 64) by (apply Z.log2_lt_pow2; lia). lia.
Qed.

(** [ALIGN] with a power of two rounds up to the next multiple. *)
Lemma ALIGN_pow2 x k :
  0 <= k < 63 -> 0 <= x -> x + 2 ^ k <= 2 ^ 64 ->
  ALIGN x (2 ^ k) = (x + (2 ^ k - 1)) - (x + (2 ^ k - 1)) mod 2 ^ k.
Proof.
  intros Hk Hx Hmax. assert (0 < 2 ^ k) by (apply Z.pow_pos_nonneg; lia).
  assert (2 ^ k < 2 ^ 64) by (apply Z.pow_lt_mono_r; lia).
  unfold ALIGN. rewrite (u64_id (2 ^ k - 1)) by lia.
  rewrite (u64_id (x + _)) by lia. apply land_lnot_ones_u64; lia.
Qed.

Lemma ALIGN_8 x :
  0 <= x <= 2 ^ 64 - 8 ->
  ALIGN x 8 = 8 * ((x + 7) / 8).
Proof.
  intros Hx. change 8 with (2 ^ 3) at 1. rewrite ALIGN_pow2 by lia.
  change (2 ^ 3) with 8. rewrite (Z.div_mod (x + (8 - 1)) 8) at 1 by lia.
  replace (x + (8 - 1)) with (x + 7) by lia. lia.
Qed.

Lemma ALIGN_8_bounds x :
  0 <= x <= 2 ^ 64 - 8 -> x <= ALIGN x 8 <= x + 7.
Proof.
  intros Hx. rewrite ALIGN_8 by lia.
  pose proof (Z.div_mod (x + 7) 8 ltac:(lia)).
  pose proof (Z.mod_pos_bound (x + 7) 8 ltac:(lia)). lia.
Qed.

Lemma ALIGN_8_mod x :
  0 <= x <= 2 ^ 64 - 8 -> ALIGN x 8 mod 8 = 0.
Proof. intros Hx. rewrite ALIGN_8 by lia. rewrite Z.mul_comm. apply Z.mod_mul. lia. Qed.
