(* ===== verification/CMem.v ===== *)
(** * Byte-addressed memory

    The drivers read and write structures that other processors see: shared
    memory partitions, the command database.  A memory is one mapped window
    [[m_base, m_base + m_size)] with the bytes stored in it; an access outside
    the window is a [Fault].  Multi-byte fields are little-endian, the byte order
    of the [__le16]/[__le32] fields and of the CPU. *)
From S2P Require Import Prelude.

Record mem := Mem {
  m_base : Z;
  m_size : Z;
  m_bytes : gmap Z Z;
}.

Definition get_byte (m : mem) (a : Z) : Z := u8 (default 0 (m_bytes m !! a)).

Definition set_byte (m : mem) (a v : Z) : mem :=
  {| m_base := m_base m; m_size := m_size m; m_bytes := <[a := u8 v]> (m_bytes m) |}.

(** Little-endian value of the [n] bytes at [a]. *)
Fixpoint le_load (m : mem) (a : Z) (n : nat) : Z :=
  match n with
  | O => 0
  | S n => get_byte m a + 256 * le_load m (a + 1) n
  end.

Fixpoint le_store (m : mem) (a : Z) (n : nat) (v : Z) : mem :=
  match n with
  | O => m
  | S n => le_store (set_byte m a v) (a + 1) n (v / 256)
  end.

Definition in_range (m : mem) (a n : Z) : bool :=
  (m_base m <=? a) && (a + n <=? m_base m + m_size m).

(** The bytes [a, a + n), as [memcmp] and [memcpy] read them. *)
Fixpoint bytes_at (m : mem) (a : Z) (n : nat) : list Z :=
  match n with
  | O => []
  | S n => get_byte m a :: bytes_at m (a + 1) n
  end.

(** The [n] low bytes of a number. *)
Fixpoint le_bytes (n : nat) (v : Z) : list Z :=
  match n with O => [] | S n => u8 v :: le_bytes n (v / 256) end.

(** Bytes written one after the other, as [memcpy] writes them. *)
Fixpoint put_bytes (m : mem) (a : Z) (l : list Z) : mem :=
  match l with
  | [] => m
  | b :: l => put_bytes (set_byte m a b) (a + 1) l
  end.

(** ** Checked accesses *)
Definition load (n : nat) (a : Z) : ST mem Z :=
  fun m => if in_range m a (Z.of_nat n) then Ok (le_load m a n, m) else Fault.

Definition store (n : nat) (a v : Z) : ST mem unit :=
  fun m => if in_range m a (Z.of_nat n) then Ok (tt, le_store m a n v) else Fault.

Definition load_bytes (n : nat) (a : Z) : ST mem (list Z) :=
  fun m => if in_range m a (Z.of_nat n) then Ok (bytes_at m a n, m) else Fault.

Definition store_bytes (a : Z) (l : list Z) : ST mem unit :=
  fun m => if in_range m a (Z.of_nat (length l)) then Ok (tt, put_bytes m a l) else Fault.

Abbreviation load16 := (load 2).
Abbreviation load32 := (load 4).
Abbreviation store16 := (store 2).
Abbreviation store32 := (store 4).
Abbreviation rd16 m a := (le_load m a 2).
Abbreviation rd32 m a := (le_load m a 4).
Abbreviation wr16 m a v := (le_store m a 2 v).
Abbreviation wr32 m a v := (le_store m a 4 v).

(** A memory image: successive writes of [width]-byte values. *)
Definition poke (ws : list (Z * nat * Z)) (m : mem) : mem :=
  foldl (fun m w => le_store m w.1.1 w.1.2 w.2) m ws.

(** Pointer arithmetic on 64-bit addresses. *)
Definition ptr_add (p n : Z) : Z := u64 (p + n).

(** ** Lemmas *)
Lemma get_byte_range m a : 0 <= get_byte m a < 256.
Proof. apply (u8_range _). Qed.

Lemma get_set_byte m a v b :
  get_byte (set_byte m a v) b = if decide (a = b) then u8 v else get_byte m b.
Proof.
  unfold get_byte, set_byte; cbn. rewrite lookup_insert.
  case_decide; cbn; [|done]. unfold u8. apply Z.mod_mod. lia.
Qed.

Lemma le_store_frame n : forall m a v,
  m_base (le_store m a n v) = m_base m /\ m_size (le_store m a n v) = m_size m.
Proof. induction n as [|n IH]; intros; cbn [le_store]; [done|].
  by rewrite !(proj1 (IH _ _ _)), !(proj2 (IH _ _ _)). Qed.

Lemma in_range_store n m a v b k : in_range (le_store m a n v) b k = in_range m b k.
Proof. unfold in_range. destruct (le_store_frame n m a v) as [-> ->]. done. Qed.

Lemma get_byte_store n : forall m a v b,
  b < a \/ a + Z.of_nat n <= b -> get_byte (le_store m a n v) b = get_byte m b.
Proof.
  induction n as [|n IH]; intros m a v b Hb; cbn [le_store]; [done|].
  rewrite IH by lia. rewrite get_set_byte. case_decide; [lia|done].
Qed.

Lemma le_load_range m n : forall a, 0 <= le_load m a n < 2 ^ (8 * Z.of_nat n).
Proof.
  induction n as [|n IH]; intros a; cbn [le_load]; [done|].
  pose proof (get_byte_range m a). specialize (IH (a + 1)).
  replace (8 * Z.of_nat (S n)) with (8 + 8 * Z.of_nat n) by lia.
  rewrite Z.pow_add_r by lia. lia.
Qed.

(** Two memories that agree on the bytes of a field read the same value. *)
Lemma le_load_agree m m' n : forall a,
  (forall b, a <= b < a + Z.of_nat n -> get_byte m b = get_byte m' b) ->
  le_load m a n = le_load m' a n.
Proof.
  induction n as [|n IH]; intros a H; cbn [le_load]; [done|].
  rewrite (H a), (IH (a + 1)); [done| |lia]. intros b Hb. apply H. lia.
Qed.

Lemma bytes_at_agree m m' n : forall a,
  (forall b, a <= b < a + Z.of_nat n -> get_byte m b = get_byte m' b) ->
  bytes_at m a n = bytes_at m' a n.
Proof.
  induction n as [|n IH]; intros a H; cbn [bytes_at]; [done|].
  rewrite (H a), (IH (a + 1)); [done| |lia]. intros b Hb. apply H. lia.
Qed.

Lemma le_load_store_disj m a n v b k :
  b + Z.of_nat k <= a \/ a + Z.of_nat n <= b ->
  le_load (le_store m a n v) b k = le_load m b k.
Proof. intros H. apply le_load_agree. intros c Hc. apply get_byte_store. lia. Qed.

Lemma le_load_store_same n : forall m a v,
  le_load (le_store m a n v) a n = v mod 2 ^ (8 * Z.of_nat n).
Proof.
  induction n as [|n IH]; intros m a v; cbn [le_store le_load].
  { by rewrite Z.mod_1_r. }
  rewrite IH, get_byte_store, get_set_byte, decide_True by (done || lia).
  replace (8 * Z.of_nat (S n)) with (8 + 8 * Z.of_nat n) by lia.
  rewrite Z.pow_add_r by lia. unfold u8.
  rewrite Z.rem_mul_r by (try apply Z.pow_nonzero; lia). done.
Qed.

(** *** Runs of bytes *)
Lemma length_bytes_at m n : forall a, length (bytes_at m a n) = n.
Proof. induction n as [|n IH]; intros a; cbn [bytes_at length]; [done|by rewrite IH]. Qed.

Lemma bytes_at_app m n k : forall a,
  bytes_at m a (n + k) = bytes_at m a n ++ bytes_at m (a + Z.of_nat n) k.
Proof.
  induction n as [|n IH]; intros a; cbn [bytes_at Nat.add app]; [by rewrite Z.add_0_r|].
  rewrite IH. do 3 f_equal. lia.
Qed.

Lemma bytes_at_lookup m n : forall a i, (i < n)%nat ->
  bytes_at m a n !! i = Some (get_byte m (a + Z.of_nat i)).
Proof.
  induction n as [|n IH]; intros a i Hi; [lia|]. cbn [bytes_at]. destruct i as [|i]; cbn.
  - by rewrite Z.add_0_r.
  - rewrite IH by lia. do 2 f_equal. lia.
Qed.

Lemma put_bytes_frame l : forall m a,
  m_base (put_bytes m a l) = m_base m /\ m_size (put_bytes m a l) = m_size m.
Proof. induction l as [|b l IH]; intros m a; cbn [put_bytes]; [done|]. apply (IH (set_byte m a b)). Qed.

Lemma get_put_bytes_out l : forall m a b, b < a \/ a + Z.of_nat (length l) <= b ->
  get_byte (put_bytes m a l) b = get_byte m b.
Proof.
  induction l as [|x l IH]; intros m a b Hb; cbn [put_bytes length] in *; [done|].
  rewrite IH by lia. rewrite get_set_byte. case_decide; [lia|done].
Qed.

Lemma bytes_at_put l : forall m a, Forall (fun b => 0 <= b < 256) l ->
  bytes_at (put_bytes m a l) a (length l) = l.
Proof.
  induction l as [|x l IH]; intros m a Hl; cbn [put_bytes length bytes_at]; [done|].
  apply Forall_cons in Hl as [Hx Hl]. rewrite IH by done. f_equal.
  rewrite get_put_bytes_out by lia. rewrite get_set_byte, decide_True by done.
  unfold u8. apply Z.mod_small. exact Hx.
Qed.

Lemma bytes_at_range m n : forall a, Forall (fun b => 0 <= b < 256) (bytes_at m a n).
Proof.
  induction n as [|n IH]; intros a; cbn [bytes_at]; constructor; [apply get_byte_range|apply IH].
Qed.

Lemma bytes_at_store n : forall m a v k, (k <= n)%nat ->
  bytes_at (le_store m a n v) a k = le_bytes k v.
Proof.
  induction n as [|n IH]; intros m a v k Hk; (destruct k as [|k]; [done|]); [lia|].
  cbn [le_store bytes_at le_bytes]. rewrite IH by lia. f_equal.
  rewrite get_byte_store by lia. by rewrite get_set_byte, decide_True.
Qed.

Lemma length_le_bytes n : forall v, length (le_bytes n v) = n.
Proof. induction n as [|n IH]; intros v; cbn; [done|by rewrite IH]. Qed.

Lemma le_bytes_range n : forall v, Forall (fun b => 0 <= b < 256) (le_bytes n v).
Proof. induction n as [|n IH]; intros v; cbn; constructor; [apply u8_range|apply IH]. Qed.

(** The number that was written is read back. *)
Lemma le_load_bytes n : forall m a v, bytes_at m a n = le_bytes n v -> 0 <= v < 2 ^ (8 * Z.of_nat n) ->
  le_load m a n = v.
Proof.
  induction n as [|n IH]; intros m a v Hb Hv; cbn [le_load].
  { change (8 * Z.of_nat 0) with 0 in Hv. lia. }
  cbn [bytes_at le_bytes] in Hb. injection Hb as H1 H2. rewrite H1.
  replace (8 * Z.of_nat (S n)) with (8 + 8 * Z.of_nat n) in Hv by lia. rewrite Z.pow_add_r in Hv by lia.
  rewrite (IH _ _ (v / 256)); [unfold u8; change (2 ^ 8) with 256; pose proof (Z.div_mod v 256 ltac:(lia)); lia|done|].
  split; [apply Z.div_pos; lia|]. apply Z.div_lt_upper_bound; lia.
Qed.

Lemma bytes_le_load m n : forall a, le_bytes n (le_load m a n) = bytes_at m a n.
Proof.
  induction n as [|n IH]; intros a; cbn [le_load bytes_at le_bytes]; [done|].
  pose proof (get_byte_range m a). f_equal.
  - unfold u8. change (2 ^ 8) with 256. symmetry. apply (Z.mod_unique _ _ (le_load m (a + 1) n)); lia.
  - rewrite <-IH. f_equal. symmetry. apply (Z.div_unique _ _ _ (get_byte m a)); lia.
Qed.

Lemma bytes_at_0 m a : bytes_at m a 0 = [].
Proof. done. Qed.

Lemma le_load_1 m a : le_load m a 1 = get_byte m a.
Proof. cbn [le_load]. lia. Qed.

Lemma get_byte_store_1 m a v : get_byte (le_store m a 1 v) a = u8 v.
Proof. cbn [le_store]. by rewrite get_set_byte, decide_True. Qed.

Lemma store_bytes_ok a l m :
  m_base m <= a -> a + Z.of_nat (length l) <= m_base m + m_size m ->
  store_bytes a l m = Ok (tt, put_bytes m a l).
Proof. intros. unfold store_bytes, in_range. by replace ((_ <=? _) && _) with true by lia. Qed.

Lemma rd16_range m a : 0 <= rd16 m a < 2 ^ 16.
Proof. apply (le_load_range m 2). Qed.
Lemma rd32_range m a : 0 <= rd32 m a < 2 ^ 32.
Proof. apply (le_load_range m 4). Qed.

Lemma rd32_wr32 m a v : rd32 (wr32 m a v) a = u32 v.
Proof. apply (le_load_store_same 4). Qed.
Lemma rd16_wr16 m a v : rd16 (wr16 m a v) a = u16 v.
Proof. apply (le_load_store_same 2). Qed.

Lemma load_ok n a m :
  m_base m <= a -> a + Z.of_nat n <= m_base m + m_size m ->
  load n a m = Ok (le_load m a n, m).
Proof. intros. unfold load, in_range. by replace ((_ <=? _) && _) with true by lia. Qed.

Lemma store_ok n a v m :
  m_base m <= a -> a + Z.of_nat n <= m_base m + m_size m ->
  store n a v m = Ok (tt, le_store m a n v).
Proof. intros. unfold store, in_range. by replace ((_ <=? _) && _) with true by lia. Qed.

Lemma load_bytes_ok n a m :
  m_base m <= a -> a + Z.of_nat n <= m_base m + m_size m ->
  load_bytes n a m = Ok (bytes_at m a n, m).
Proof. intros. unfold load_bytes, in_range. by replace ((_ <=? _) && _) with true by lia. Qed.

Lemma ptr_add_id p n : 0 <= p + n < 2 ^ 64 -> ptr_add p n = p + n.
Proof. apply u64_id. Qed.

(** ** Bytes of a message *)
Fixpoint le_val (l : list Z) : Z := match l with [] => 0 | b :: l => b + 256 * le_val l end.

(** The field of [n] bytes at [off] of received data. *)
Definition field (n : nat) (b : list Z) (off : Z) : res Z :=
  if (0 <=? off) && (off + Z.of_nat n <=? Z.of_nat (length b))
  then Ok (le_val (take n (drop (Z.to_nat off) b))) else Fault.

Lemma le_val_bytes n : forall v, le_val (le_bytes n v) = v mod 2 ^ (8 * Z.of_nat n).
Proof.
  induction n as [|n IH]; intros v; cbn [le_bytes le_val]; [by rewrite Z.mod_1_r|].
  rewrite IH. replace (8 * Z.of_nat (S n)) with (8 + 8 * Z.of_nat n) by lia.
  rewrite Z.pow_add_r by lia. unfold u8. change 256 with (2 ^ 8).
  rewrite (Z.rem_mul_r v (2 ^ 8)) by (try apply Z.pow_nonzero; lia). lia.
Qed.

Lemma le_bytes_val l : Forall (fun b => 0 <= b < 256) l -> le_bytes (length l) (le_val l) = l.
Proof.
  induction 1 as [|b l Hb _ IH]; [done|]. cbn [length le_bytes le_val]. f_equal.
  - unfold u8. change (2 ^ 8) with 256. rewrite Z.mul_comm, Z.mod_add, Z.mod_small by lia. done.
  - rewrite Z.mul_comm, Z.div_add, Z.div_small by lia. exact IH.
Qed.

Lemma le_val_range l : Forall (fun b => 0 <= b < 256) l -> 0 <= le_val l < 2 ^ (8 * Z.of_nat (length l)).
Proof.
  induction 1 as [|b l Hb _ IH]; cbn [le_val length]; [lia|].
  replace (8 * Z.of_nat (S (length l))) with (8 + 8 * Z.of_nat (length l)) by lia.
  rewrite Z.pow_add_r by lia. lia.
Qed.

Lemma field_ok n b off : 0 <= off -> off + Z.of_nat n <= Z.of_nat (length b) ->
  field n b off = Ok (le_val (take n (drop (Z.to_nat off) b))).
Proof. intros. unfold field. by solve_ifs. Qed.

Lemma field_range n b off v : Forall (fun b => 0 <= b < 256) b -> field n b off = Ok v ->
  0 <= v < 2 ^ (8 * Z.of_nat n).
Proof.
  unfold field. intros Hb. case_if; [|done]. intros [= <-].
  assert (Ht : Forall (fun b => 0 <= b < 256) (take n (drop (Z.to_nat off) b))) by (by apply Forall_take, Forall_drop).
  pose proof (le_val_range _ Ht) as Hr. rewrite length_take, length_drop in Hr.
  replace (n `min` (length b - Z.to_nat off))%nat with n in Hr by lia. done.
Qed.

#[global] Arguments le_load : simpl never.
#[global] Arguments le_store : simpl never.
#[global] Arguments bytes_at : simpl never.
#[global] Arguments put_bytes : simpl never.

Create HintDb cmem.
#[export] Hint Rewrite rd32_wr32 rd16_wr16 in_range_store : cmem.

(** Symbolic execution of one checked access whose bounds follow from the
    arithmetic context, and simplification of reads after writes. *)
Ltac mem_frame :=
  repeat match goal with
  | |- context [m_base (le_store ?m ?a ?n ?v)] =>
      rewrite (proj1 (le_store_frame n m a v))
  | |- context [m_size (le_store ?m ?a ?n ?v)] =>
      rewrite (proj2 (le_store_frame n m a v))
  | H : context [m_base (le_store ?m ?a ?n ?v)] |- _ =>
      rewrite (proj1 (le_store_frame n m a v)) in H
  | H : context [m_size (le_store ?m ?a ?n ?v)] |- _ =>
      rewrite (proj2 (le_store_frame n m a v)) in H
  end.

(** The bounds of an access; a component redefines [mem_layout] to unfold the
    offsets of its structures. *)
Ltac mem_layout := idtac.
Ltac mem_side := mem_frame; mem_layout; lia.

Ltac mem_step :=
  first
  [ erewrite st_bind_ok by (apply load_ok; mem_side)
  | erewrite st_bind_ok by (apply store_ok; mem_side)
  | erewrite st_bind_ok by (apply load_bytes_ok; mem_side)
  | erewrite st_bind_ok by reflexivity ].

Ltac mem_simp :=
  repeat first
  [ rewrite rd32_wr32 | rewrite rd16_wr16
  | rewrite le_load_store_disj by mem_side ].

(** ** Bytes of a ring *)
Lemma get_put_bytes l : forall m a c, Forall (fun b => 0 <= b < 256) l ->
  get_byte (put_bytes m a l) c =
    if decide (a <= c < a + Z.of_nat (length l)) then nth (Z.to_nat (c - a)) l 0 else get_byte m c.
Proof.
  induction l as [|x l IH]; intros m a c Hl; unfold put_bytes; fold put_bytes.
  - rewrite decide_False by (cbn; lia). done.
  - apply Forall_cons in Hl as [Hx Hl]. rewrite IH by done. rewrite get_set_byte. cbn [length].
    destruct (decide (a + 1 <= c < a + 1 + Z.of_nat (length l))) as [Hc|Hc].
    + rewrite decide_True by lia. by replace (Z.to_nat (c - a)) with (S (Z.to_nat (c - (a + 1)))) by lia.
    + destruct (decide (a = c)) as [->|Hne].
      * rewrite decide_True by lia. rewrite Z.sub_diag. cbn. unfold u8. apply Z.mod_small. exact Hx.
      * by rewrite decide_False by lia.
Qed.

(** [n] bytes of the ring from position [t] on. *)
Definition ring_bytes (m : mem) (fifo len t : Z) (n : nat) : list Z :=
  (fun i => get_byte m (fifo + (t + Z.of_nat i) mod len)) <$> seq 0 n.

Lemma length_ring_bytes m fifo len t n : length (ring_bytes m fifo len t n) = n.
Proof. unfold ring_bytes. by rewrite length_fmap, length_seq. Qed.

Lemma ring_bytes_lookup m fifo len t n i : (i < n)%nat ->
  ring_bytes m fifo len t n !! i = Some (get_byte m (fifo + (t + Z.of_nat i) mod len)).
Proof.
  intros Hi. unfold ring_bytes. rewrite list_lookup_fmap, lookup_seq_lt by done. done.
Qed.

Lemma ring_bytes_take m fifo len t n k : (k <= n)%nat ->
  take k (ring_bytes m fifo len t n) = ring_bytes m fifo len t k.
Proof.
  intros Hk. unfold ring_bytes. rewrite <-fmap_take, take_seq. by replace (k `min` n)%nat with k by lia.
Qed.

Lemma ring_bytes_drop m fifo len t n k : (k <= n)%nat -> 0 < len ->
  drop k (ring_bytes m fifo len t n) = ring_bytes m fifo len ((t + Z.of_nat k) mod len) (n - k).
Proof.
  intros Hk Hl. apply list_eq. intros i. destruct (decide (i < n - k)%nat) as [Hi|Hi].
  - rewrite lookup_drop, !ring_bytes_lookup by lia. do 3 f_equal. rewrite Zplus_mod_idemp_l. f_equal. lia.
  - rewrite !lookup_ge_None_2; [done|rewrite length_ring_bytes; lia|rewrite length_drop, length_ring_bytes; lia].
Qed.

(** Two runs of bytes make up a run of the ring. *)
Lemma ring_split m fifo len t n : 0 <= t < len -> Z.of_nat n <= len ->
  let k := Z.to_nat (Z.min (Z.of_nat n) (len - t)) in
  bytes_at m (fifo + t) k ++ bytes_at m fifo (n - k) = ring_bytes m fifo len t n.
Proof.
  intros Ht Hn k. assert (Hk : (k <= n)%nat) by lia. apply list_eq. intros i.
  destruct (decide (i < n)%nat) as [Hi|Hi].
  - rewrite ring_bytes_lookup by done. destruct (decide (i < k)%nat) as [Hik|Hik].
    + rewrite lookup_app_l by (rewrite length_bytes_at; done). rewrite bytes_at_lookup by done.
      rewrite Z.mod_small by lia. do 2 f_equal. lia.
    + rewrite lookup_app_r by (rewrite length_bytes_at; lia). rewrite length_bytes_at, bytes_at_lookup by lia.
      do 2 f_equal. replace ((t + Z.of_nat i) mod len) with (t + Z.of_nat i - len); [lia|].
      apply Z.mod_unique with (q := 1); lia.
  - rewrite !lookup_ge_None_2; [done|rewrite length_ring_bytes; lia|rewrite length_app, !length_bytes_at; lia].
Qed.

(** ** Changes of a memory *)

(** Only bytes of [P] changed. *)
Record changed (P : Z -> Prop) (m m' : mem) : Prop := {
  ch_base : m_base m' = m_base m;
  ch_size : m_size m' = m_size m;
  ch_byte c : ~ P c -> get_byte m' c = get_byte m c;
}.

Definition word (a c : Z) : Prop := a <= c < a + 4.

Lemma changed_refl P m : changed P m m.
Proof. done. Qed.

Lemma changed_store P m a v : (forall c, word a c -> P c) -> changed P m (wr32 m a v).
Proof.
  intros HP. destruct (le_store_frame 4 m a v) as [E1 E2]. constructor; [exact E1|exact E2|].
  intros c Hc. apply get_byte_store. unfold word in HP. destruct (decide (a <= c < a + 4)); [naive_solver|lia].
Qed.

Lemma rd32_agree m m' a : (forall c, word a c -> get_byte m' c = get_byte m c) -> rd32 m' a = rd32 m a.
Proof. intros Hm. apply le_load_agree. intros b Hb. apply Hm. unfold word. lia. Qed.

Lemma rd32_changed P m m' a : changed P m m' -> (forall c, word a c -> ~ P c) -> rd32 m' a = rd32 m a.
Proof. intros [_ _ Hm] HP. apply rd32_agree. intros c Hc. apply Hm, HP, Hc. Qed.

(** ** Writing *)
Section put.
Context (m : mem) (fifo len : Z).
Definition run_of (c : Z) : Prop := fifo <= c < fifo + len.

(** The bytes of the ring after [d] was written from position [h] on. *)
Definition ring_put (h : Z) (d : list Z) : mem :=
  let k := Z.to_nat (Z.min (Z.of_nat (length d)) (len - h)) in
  put_bytes (put_bytes m (fifo + h) (take k d)) (fifo) (drop k d).

Lemma ring_put_byte h d c : Forall (fun b => 0 <= b < 256) d -> 0 <= h < len ->
  Z.of_nat (length d) <= len -> 0 <= c < len ->
  get_byte (ring_put h d) (fifo + c) =
    let j := (c - h) mod len in
    if decide (j < Z.of_nat (length d)) then nth (Z.to_nat j) d 0 else get_byte m (fifo + c).
Proof.
  intros Hd Hh Hl Hc. unfold ring_put. set (k := Z.to_nat (Z.min (Z.of_nat (length d)) (len - h))).
  assert (Hk : (k <= length d)%nat) by lia. cbv zeta.
  rewrite get_put_bytes by (by apply Forall_drop). rewrite length_drop.
  rewrite get_put_bytes by (by apply Forall_take). rewrite length_take, Nat.min_l by done.
  destruct (decide (h <= c)) as [Hhc|Hhc].
  - assert (E : (c - h) mod len = c - h) by (apply Z.mod_small; lia). rewrite E.
    rewrite (decide_False (P := fifo <= fifo + c < _)) by lia.
    destruct (decide (c - h < Z.of_nat (length d))) as [Hj|Hj].
    + rewrite decide_True by lia. rewrite !nth_lookup, lookup_take_lt by lia. do 2 f_equal. lia.
    + by rewrite decide_False by lia.
  - assert (E : (c - h) mod len = c - h + len) by (symmetry; apply Z.mod_unique with (q := -1); lia). rewrite E.
    rewrite (decide_False (P := fifo + h <= fifo + c < _)) by lia.
    destruct (decide (c - h + len < Z.of_nat (length d))) as [Hj|Hj].
    + rewrite decide_True by lia. rewrite !nth_lookup, lookup_drop. do 2 f_equal. lia.
    + by rewrite decide_False by lia.
Qed.

Lemma ring_put_changed h d : 0 <= h < len -> Z.of_nat (length d) <= len ->
  changed (run_of) m (ring_put h d).
Proof.
  intros Hh Hl. unfold ring_put. set (k := Z.to_nat _). constructor.
  - by rewrite !(proj1 (put_bytes_frame _ _ _)).
  - by rewrite !(proj2 (put_bytes_frame _ _ _)).
  - intros c Hc. unfold run_of in Hc. rewrite !get_put_bytes_out; [done|..];
      rewrite ?length_take, ?length_drop; lia.
Qed.

(** What the ring holds afterwards. *)
Lemma ring_written q t d : Forall (fun b => 0 <= b < 256) d -> 0 <= t < len ->
  Z.of_nat (length q) + Z.of_nat (length d) <= len -> q = ring_bytes m fifo len t (length q) ->
  q ++ d = ring_bytes (ring_put ((t + Z.of_nat (length q)) mod len) d) fifo len t (length q + length d).
Proof.
  intros Hd Ht Hl Hq. apply list_eq. intros i.
  pose proof (Z.mod_pos_bound (t + Z.of_nat (length q)) len ltac:(lia)) as Hh.
  set (h := (t + Z.of_nat (length q)) mod len) in *.
  destruct (decide (i < length q + length d)%nat) as [Hi|Hi].
  2: { rewrite !lookup_ge_None_2; [done|rewrite length_ring_bytes; lia|rewrite length_app; lia]. }
  rewrite ring_bytes_lookup by done. pose proof (Z.mod_pos_bound (t + Z.of_nat i) len ltac:(lia)) as Hm.
  rewrite ring_put_byte by (done || lia).
  assert (E : ((t + Z.of_nat i) mod len - h) mod len = (Z.of_nat i - Z.of_nat (length q)) mod len).
  { unfold h. rewrite <-Zminus_mod. f_equal. lia. }
  cbv zeta. rewrite E. destruct (decide (i < length q)%nat) as [Hq'|Hq'].
  - assert (E2 : (Z.of_nat i - Z.of_nat (length q)) mod len = Z.of_nat i - Z.of_nat (length q) + len)
      by (symmetry; apply Z.mod_unique with (q := -1); lia).
    rewrite decide_False by lia. rewrite lookup_app_l by done. rewrite Hq at 1. by apply ring_bytes_lookup.
  - rewrite Z.mod_small by lia. rewrite decide_True by lia. rewrite lookup_app_r by lia.
    replace (Z.to_nat (Z.of_nat i - Z.of_nat (length q))) with (i - length q)%nat by lia.
    destruct (lookup_lt_is_Some_2 d (i - length q)%nat ltac:(lia)) as [x Hx].
    rewrite nth_lookup, Hx. done.
Qed.
End put.

(** The bytes of a ring that did not change. *)
Lemma ring_bytes_agree m m' fifo len t n : 0 < len ->
  (forall c, run_of fifo len c -> get_byte m' c = get_byte m c) -> ring_bytes m' fifo len t n = ring_bytes m fifo len t n.
Proof.
  intros Hl Hm. apply list_fmap_ext. intros _ i _. apply Hm. unfold run_of.
  pose proof (Z.mod_pos_bound (t + Z.of_nat i) len Hl). lia.
Qed.
