(* ===== verification/Smem.v ===== *)
(** * The shared memory manager (drivers/soc/qcom/smem.c)

    SMEM is an allocate-only heap shared by the processors of the SoC.  Region 0
    is modelled byte by byte ([CMem.mem]); the handle keeps, as the driver does,
    pointers into that region, and every operation re-reads the headers through
    them. *)
From S2P Require Import Prelude CMem.
Open Scope c_scope.

(** ** Constants and layout *)
Module Layout.
Definition SMEM_MASTER_SBL_VERSION_INDEX : Z := 7.
Definition SMEM_GLOBAL_HEAP_VERSION : Z := 11.
Definition SMEM_GLOBAL_PART_VERSION : Z := 12.
Definition SMEM_ITEM_LAST_FIXED : Z := 8.
Definition SMEM_ITEM_COUNT : Z := 512.
Definition SMEM_HOST_APPS : Z := 0.
Definition SMEM_GLOBAL_HOST : Z := 0xfffe.
Definition SMEM_HOST_COUNT : Z := 14.
Definition SMEM_PRIVATE_CANARY : Z := 0xa5a5.
Definition AUX_BASE_MASK : Z := 0xfffffffc.
Definition SZ_4K : Z := 4096.

Definition SMEM_PTABLE_MAGIC : list Z := [0x24; 0x54; 0x4f; 0x43].
Definition SMEM_PART_MAGIC : list Z := [0x24; 0x50; 0x52; 0x54].
Definition SMEM_INFO_MAGIC : list Z := [0x53; 0x49; 0x49; 0x49].

(** struct smem_global_entry *)
Definition ge_allocated : Z := 0.
Definition ge_offset : Z := 4.
Definition ge_size : Z := 8.
Definition ge_aux_base : Z := 12.
Definition sizeof_global_entry : Z := 16.

(** struct smem_header *)
Definition sh_version : Z := 64.
Definition sh_initialized : Z := 192.
Definition sh_free_offset : Z := 196.
Definition sh_available : Z := 200.
Definition sh_reserved : Z := 204.
Definition sh_toc : Z := 208.

(** struct smem_ptable_entry *)
Definition pe_offset : Z := 0.
Definition pe_size : Z := 4.
Definition pe_host0 : Z := 12.
Definition pe_host1 : Z := 14.
Definition pe_cacheline : Z := 16.
Definition sizeof_ptable_entry : Z := 48.

(** struct smem_ptable *)
Definition pt_version : Z := 4.
Definition pt_num_entries : Z := 8.
Definition pt_entry : Z := 32.

(** struct smem_partition_header *)
Definition ph_host0 : Z := 4.
Definition ph_host1 : Z := 6.
Definition ph_size : Z := 8.
Definition ph_offset_free_uncached : Z := 12.
Definition ph_offset_free_cached : Z := 16.
Definition sizeof_partition_header : Z := 32.

(** struct smem_private_entry *)
Definition en_canary : Z := 0.
Definition en_item : Z := 2.
Definition en_size : Z := 4.
Definition en_padding_data : Z := 8.
Definition en_padding_hdr : Z := 10.
Definition sizeof_private_entry : Z := 16.

(** struct smem_info *)
Definition si_num_items : Z := 16.
End Layout.
Export Layout.

(** ** State *)

(** struct smem_region *)
Record smem_region := Region {
  aux_base : Z;
  virt_base : Z;
  region_size : Z;
}.

(** struct qcom_smem: the pointers to partition table entries are addresses in
    the shared memory; [None] is NULL. *)
Record qcom_smem := QcomSmem {
  global_partition_entry : option Z;
  ptable_entries : list (option Z);
  item_count : Z;
  regions : list smem_region;
}.

(** A pointer result that may be an [ERR_PTR]. *)
Inductive ptr_res :=
| ErrPtr (e : Z)
| Ptr (p : Z).

(** [smem->regions[0].virt_base] and [.size] *)
Definition region0 (smem : qcom_smem) : smem_region :=
  default (Region 0 0 0) (regions smem !! 0%nat).

(** ** Address computations *)
Definition ptable_entry_to_phdr (smem : qcom_smem) (entry : Z) : ST mem Z :=
  let! off := load32 (entry + pe_offset) in
  st_ret (ptr_add (virt_base (region0 smem)) off).

Definition phdr_to_last_uncached_entry (phdr : Z) : ST mem Z :=
  let! off := load32 (phdr + ph_offset_free_uncached) in
  st_ret (ptr_add phdr off).

Definition phdr_to_first_cached_entry (phdr cacheline : Z) : ST mem Z :=
  let! sz := load32 (phdr + ph_size) in
  st_ret (ptr_add phdr (sz - ALIGN sizeof_private_entry cacheline)).

Definition phdr_to_last_cached_entry (phdr : Z) : ST mem Z :=
  let! off := load32 (phdr + ph_offset_free_cached) in
  st_ret (ptr_add phdr off).

Definition phdr_to_first_uncached_entry (phdr : Z) : Z :=
  ptr_add phdr sizeof_partition_header.

Definition uncached_entry_next (e : Z) : ST mem Z :=
  let! pad := load16 (e + en_padding_hdr) in
  let! sz := load32 (e + en_size) in
  st_ret (ptr_add e (sizeof_private_entry + pad + sz)).

Definition cached_entry_next (e cacheline : Z) : ST mem Z :=
  let! sz := load32 (e + en_size) in
  st_ret (ptr_add e (- sz - ALIGN sizeof_private_entry cacheline)).

Definition uncached_entry_to_item (e : Z) : ST mem Z :=
  let! pad := load16 (e + en_padding_hdr) in
  st_ret (ptr_add e (sizeof_private_entry + pad)).

Definition cached_entry_to_item (e : Z) : ST mem Z :=
  let! sz := load32 (e + en_size) in
  st_ret (ptr_add e (- sz)).

(** ** Allocation from a partition *)

(** Result of walking the uncached list of a partition. *)
Inductive walk_res :=
| WBadCanary
| WFound (e : Z)
| WEnd (e : Z).

(** The loop [while (hdr < end)] of the allocation; [fuel] bounds the number of
    iterations. *)
Fixpoint uncached_walk (fuel : nat) (hdr end_ item : Z) : ST mem walk_res :=
  match fuel with
  | O => fun _ => Loop
  | S fuel =>
    if hdr <? end_ then
      let! canary := load16 (hdr + en_canary) in
      if negb (canary =? SMEM_PRIVATE_CANARY) then st_ret WBadCanary else
      let! it := load16 (hdr + en_item) in
      if it =? item then st_ret (WFound hdr) else
      let! hdr' := uncached_entry_next hdr in
      uncached_walk fuel hdr' end_ item
    else st_ret (WEnd hdr)
  end.

(** An entry takes at least 16 bytes and a partition less than 2^32 of them. *)
Definition walk_fuel (start end_ : Z) : nat := S (Z.to_nat ((end_ - start) / 16 + 1)).

Definition qcom_smem_alloc_private (smem : qcom_smem) (entry item size : Z) : ST mem Z :=
  let! phdr := ptable_entry_to_phdr smem entry in
  let! psize := load32 (entry + pe_size) in
  let p_end := ptr_add phdr psize in
  let hdr := phdr_to_first_uncached_entry phdr in
  let! end_ := phdr_to_last_uncached_entry phdr in
  let! cached := phdr_to_last_cached_entry phdr in
  if (end_ >? p_end) || (cached >? p_end) then st_ret (- EINVAL) else
  let! w := uncached_walk (walk_fuel hdr end_) hdr end_ item in
  match w with
  | WBadCanary => st_ret (- EINVAL)
  | WFound _ => st_ret (- EEXIST)
  | WEnd hdr =>
    if hdr >? p_end then st_ret (- EINVAL) else
    let alloc_size := u64 (sizeof_private_entry + ALIGN size 8) in
    if ptr_add hdr alloc_size >? cached then st_ret (- ENOSPC) else
    store16 (hdr + en_canary) SMEM_PRIVATE_CANARY ;;;
    store16 (hdr + en_item) item ;;;
    store32 (hdr + en_size) (ALIGN size 8) ;;;
    let! hsize := load32 (hdr + en_size) in
    store16 (hdr + en_padding_data) (hsize - size) ;;;
    store16 (hdr + en_padding_hdr) 0 ;;;
    let! off := load32 (phdr + ph_offset_free_uncached) in
    store32 (phdr + ph_offset_free_uncached) (u32 (off + alloc_size)) ;;;
    st_ret 0
  end.

(** ** Allocation from the global heap *)
Definition qcom_smem_alloc_global (smem : qcom_smem) (item size : Z) : ST mem Z :=
  let header := virt_base (region0 smem) in
  let entry := header + sh_toc + sizeof_global_entry * item in
  let! allocated := load32 (entry + ge_allocated) in
  if negb (allocated =? 0) then st_ret (- EEXIST) else
  let size := ALIGN size 8 in
  let! available := load32 (header + sh_available) in
  if size >? available then st_ret (- ENOMEM) else
  let! free_offset := load32 (header + sh_free_offset) in
  store32 (entry + ge_offset) free_offset ;;;
  store32 (entry + ge_size) size ;;;
  store32 (entry + ge_allocated) 1 ;;;
  let! fo := load32 (header + sh_free_offset) in
  store32 (header + sh_free_offset) (u32 (fo + size)) ;;;
  let! av := load32 (header + sh_available) in
  store32 (header + sh_available) (u32 (av + u32 (- size))) ;;;
  st_ret 0.

(** ** Lookup *)

(** [*size] when the caller passed a non-NULL [size]; the boolean says whether
    it did. *)
Definition get_res : Type := ptr_res * option Z.

Fixpoint get_global_regions (areas : list smem_region) (entry aux : Z)
    (want_size : bool) : ST mem get_res :=
  match areas with
  | [] => st_ret (ErrPtr (- ENOENT), None)
  | area :: areas =>
    if (aux_base area =? aux) || (aux =? 0) then
      let! e_size := load32 (entry + ge_size) in
      let! entry_offset := load32 (entry + ge_offset) in
      if u64 (e_size + entry_offset) >? region_size area
      then st_ret (ErrPtr (- EINVAL), None)
      else st_ret (Ptr (ptr_add (virt_base area) entry_offset),
                   if want_size then Some e_size else None)
    else get_global_regions areas entry aux want_size
  end.

Definition qcom_smem_get_global (smem : qcom_smem) (item : Z) (want_size : bool)
    : ST mem get_res :=
  let header := virt_base (region0 smem) in
  let entry := header + sh_toc + sizeof_global_entry * item in
  let! allocated := load32 (entry + ge_allocated) in
  if allocated =? 0 then st_ret (ErrPtr (- ENXIO), None) else
  let! aux := load32 (entry + ge_aux_base) in
  get_global_regions (regions smem) entry (Z.land aux AUX_BASE_MASK) want_size.

(** The size check shared by both lists of a partition: [None] is the error
    return. *)
Definition entry_size (e partition_size : Z) (want_size : bool) : ST mem (option (option Z)) :=
  if want_size then
    let! e_size := load32 (e + en_size) in
    let! padding_data := load16 (e + en_padding_data) in
    if (e_size <? partition_size) && (padding_data <? e_size)
    then st_ret (Some (Some (e_size - padding_data)))
    else st_ret None
  else st_ret (Some None).

(** The loop [while (e > end)] over the cached list, which grows downwards.  A
    step that moves [e] moves it by at least one byte, so [cached_fuel] is only
    used up when a step does not move at all. *)
Definition cached_fuel (e end_ : Z) : nat := S (Z.to_nat (e - end_)).

Fixpoint cached_walk (fuel : nat) (e end_ item cacheline : Z) : ST mem walk_res :=
  match fuel with
  | O => fun _ => Loop
  | S fuel =>
    if e >? end_ then
      let! canary := load16 (e + en_canary) in
      if negb (canary =? SMEM_PRIVATE_CANARY) then st_ret WBadCanary else
      let! it := load16 (e + en_item) in
      if it =? item then st_ret (WFound e) else
      let! e' := cached_entry_next e cacheline in
      cached_walk fuel e' end_ item cacheline
    else st_ret (WEnd e)
  end.

Definition qcom_smem_get_private (smem : qcom_smem) (entry item : Z) (want_size : bool)
    : ST mem get_res :=
  let! phdr := ptable_entry_to_phdr smem entry in
  let! partition_size := load32 (entry + pe_size) in
  let p_end := ptr_add phdr partition_size in
  let! cacheline := load32 (entry + pe_cacheline) in
  let e := phdr_to_first_uncached_entry phdr in
  let! end_ := phdr_to_last_uncached_entry phdr in
  if end_ >? p_end then st_ret (ErrPtr (- EINVAL), None) else
  let! w := uncached_walk (walk_fuel e end_) e end_ item in
  match w with
  | WBadCanary => st_ret (ErrPtr (- EINVAL), None)
  | WFound e =>
    let! sz := entry_size e partition_size want_size in
    match sz with
    | None => st_ret (ErrPtr (- EINVAL), None)
    | Some sz =>
      let! item_ptr := uncached_entry_to_item e in
      if item_ptr >? p_end then st_ret (ErrPtr (- EINVAL), sz)
      else st_ret (Ptr item_ptr, sz)
    end
  | WEnd e =>
    if e >? p_end then st_ret (ErrPtr (- EINVAL), None) else
    let! e := phdr_to_first_cached_entry phdr cacheline in
    let! end_ := phdr_to_last_cached_entry phdr in
    if (e <? phdr) || (end_ >? p_end) then st_ret (ErrPtr (- EINVAL), None) else
    let! w := cached_walk (cached_fuel e end_) e end_ item cacheline in
    match w with
    | WBadCanary => st_ret (ErrPtr (- EINVAL), None)
    | WFound e =>
      let! sz := entry_size e partition_size want_size in
      match sz with
      | None => st_ret (ErrPtr (- EINVAL), None)
      | Some sz =>
        let! item_ptr := cached_entry_to_item e in
        if item_ptr <? phdr then st_ret (ErrPtr (- EINVAL), sz)
        else st_ret (Ptr item_ptr, sz)
      end
    | WEnd e =>
      if e <? phdr then st_ret (ErrPtr (- EINVAL), None)
      else st_ret (ErrPtr (- ENOENT), None)
    end
  end.

(** ** Public interface

    [lock_ret] is the result of [hwspin_lock_timeout_irqsave]: 0 when the remote
    spinlock was taken. *)
Definition host_entry (smem : qcom_smem) (host : Z) : option Z :=
  if host <? SMEM_HOST_COUNT then default None (ptable_entries smem !! Z.to_nat host) else None.

Definition qcom_smem_alloc (lock_ret : Z) (__smem : option qcom_smem) (host item size : Z)
    : ST mem Z :=
  match __smem with
  | None => st_ret (- EPROBE_DEFER)
  | Some smem =>
    if item <? SMEM_ITEM_LAST_FIXED then st_ret (- EINVAL) else
    if item >=? item_count smem then st_ret (- EINVAL) else
    if negb (lock_ret =? 0) then st_ret lock_ret else
    match host_entry smem host with
    | Some entry => qcom_smem_alloc_private smem entry item size
    | None =>
      match global_partition_entry smem with
      | Some entry => qcom_smem_alloc_private smem entry item size
      | None => qcom_smem_alloc_global smem item size
      end
    end
  end.

Definition qcom_smem_get (lock_ret : Z) (__smem : option qcom_smem) (host item : Z)
    (want_size : bool) : ST mem get_res :=
  match __smem with
  | None => st_ret (ErrPtr (- EPROBE_DEFER), None)
  | Some smem =>
    if item >=? item_count smem then st_ret (ErrPtr (- EINVAL), None) else
    if negb (lock_ret =? 0) then st_ret (ErrPtr lock_ret, None) else
    match host_entry smem host with
    | Some entry => qcom_smem_get_private smem entry item want_size
    | None =>
      match global_partition_entry smem with
      | Some entry => qcom_smem_get_private smem entry item want_size
      | None => qcom_smem_get_global smem item want_size
      end
    end
  end.

(** Free space of the partition of a table entry, [offset_free_cached] less
    [offset_free_uncached] in 32-bit arithmetic. *)
Definition partition_free_space (smem : qcom_smem) (entry : Z) : ST mem Z :=
  let! phdr := ptable_entry_to_phdr smem entry in
  let! fc := load32 (phdr + ph_offset_free_cached) in
  let! fu := load32 (phdr + ph_offset_free_uncached) in
  let ret := u32 (fc - fu) in
  let! esz := load32 (entry + pe_size) in
  if ret >? esz then st_ret (- EINVAL) else st_ret (s32 ret).

Definition qcom_smem_get_free_space (__smem : option qcom_smem) (host : Z) : ST mem Z :=
  match __smem with
  | None => st_ret (- EPROBE_DEFER)
  | Some smem =>
    match host_entry smem host with
    | Some entry => partition_free_space smem entry
    | None =>
      match global_partition_entry smem with
      | Some entry => partition_free_space smem entry
      | None =>
        let! ret := load32 (virt_base (region0 smem) + sh_available) in
        if ret >? region_size (region0 smem) then st_ret (- EINVAL) else st_ret (s32 ret)
      end
    end
  end.

Fixpoint virt_to_phys_regions (rs : list smem_region) (p : Z) : Z :=
  match rs with
  | [] => 0
  | region :: rs =>
    if p <? virt_base region then virt_to_phys_regions rs p else
    if p <? ptr_add (virt_base region) (region_size region)
    then u64 (aux_base region + u64 (p - virt_base region))
    else virt_to_phys_regions rs p
  end.

Definition qcom_smem_virt_to_phys (smem : qcom_smem) (p : Z) : Z :=
  virt_to_phys_regions (regions smem) p.

(** ** Discovery of the partitions *)
Definition qcom_smem_get_sbl_version (smem : qcom_smem) : ST mem Z :=
  load32 (virt_base (region0 smem) + sh_version + 4 * SMEM_MASTER_SBL_VERSION_INDEX).

Definition qcom_smem_get_ptable (smem : qcom_smem) : ST mem ptr_res :=
  let ptable := ptr_add (virt_base (region0 smem)) (region_size (region0 smem) - SZ_4K) in
  let! magic := load_bytes 4 ptable in
  if negb (bool_decide (magic = SMEM_PTABLE_MAGIC)) then st_ret (ErrPtr (- ENOENT)) else
  let! version := load32 (ptable + pt_version) in
  if negb (version =? 1) then st_ret (ErrPtr (- EINVAL)) else st_ret (Ptr ptable).

Definition qcom_smem_get_item_count (smem : qcom_smem) : ST mem Z :=
  let! pt := qcom_smem_get_ptable smem in
  match pt with
  | ErrPtr _ => st_ret SMEM_ITEM_COUNT
  | Ptr ptable =>
    let! n := load32 (ptable + pt_num_entries) in
    let info := ptable + pt_entry + sizeof_ptable_entry * n in
    let! magic := load_bytes 4 info in
    if negb (bool_decide (magic = SMEM_INFO_MAGIC)) then st_ret SMEM_ITEM_COUNT
    else load16 (info + si_num_items)
  end.

(** [None] is the NULL returned for an invalid header. *)
Definition qcom_smem_partition_header (smem : qcom_smem) (entry host0 host1 : Z)
    : ST mem (option Z) :=
  let! header := ptable_entry_to_phdr smem entry in
  let! magic := load_bytes 4 header in
  if negb (bool_decide (magic = SMEM_PART_MAGIC)) then st_ret None else
  let! h0 := load16 (header + ph_host0) in
  if negb (host0 =? h0) then st_ret None else
  let! h1 := load16 (header + ph_host1) in
  if negb (host1 =? h1) then st_ret None else
  let! size := load32 (header + ph_size) in
  let! esize := load32 (entry + pe_size) in
  if negb (size =? esize) then st_ret None else
  let! fu := load32 (header + ph_offset_free_uncached) in
  if fu >? size then st_ret None else st_ret (Some header).

(** The search loop of the global partition: [n] entries are left from index
    [i]. *)
Fixpoint find_global_entry (n : nat) (ptable i : Z) : ST mem (option Z) :=
  match n with
  | O => st_ret None
  | S n =>
    let entry := ptable + pt_entry + sizeof_ptable_entry * i in
    let! off := load32 (entry + pe_offset) in
    if off =? 0 then find_global_entry n ptable (i + 1) else
    let! sz := load32 (entry + pe_size) in
    if sz =? 0 then find_global_entry n ptable (i + 1) else
    let! h0 := load16 (entry + pe_host0) in
    if negb (h0 =? SMEM_GLOBAL_HOST) then find_global_entry n ptable (i + 1) else
    let! h1 := load16 (entry + pe_host1) in
    if h1 =? SMEM_GLOBAL_HOST then st_ret (Some entry)
    else find_global_entry n ptable (i + 1)
  end.

Definition set_global (smem : qcom_smem) (entry : Z) : qcom_smem :=
  {| global_partition_entry := Some entry; ptable_entries := ptable_entries smem;
     item_count := item_count smem; regions := regions smem |}.

Definition set_item_count (smem : qcom_smem) (n : Z) : qcom_smem :=
  {| global_partition_entry := global_partition_entry smem;
     ptable_entries := ptable_entries smem; item_count := n; regions := regions smem |}.

Definition set_host_entry (smem : qcom_smem) (host entry : Z) : qcom_smem :=
  {| global_partition_entry := global_partition_entry smem;
     ptable_entries := <[Z.to_nat host := Some entry]> (ptable_entries smem);
     item_count := item_count smem; regions := regions smem |}.

Definition qcom_smem_set_global_partition (smem : qcom_smem) : ST mem (Z * qcom_smem) :=
  match global_partition_entry smem with
  | Some _ => st_ret (- EINVAL, smem)
  | None =>
    let! pt := qcom_smem_get_ptable smem in
    match pt with
    | ErrPtr e => st_ret (e, smem)
    | Ptr ptable =>
      let! n := load32 (ptable + pt_num_entries) in
      let! found := find_global_entry (Z.to_nat n) ptable 0 in
      match found with
      | None => st_ret (- EINVAL, smem)
      | Some entry =>
        let! header := qcom_smem_partition_header smem entry SMEM_GLOBAL_HOST SMEM_GLOBAL_HOST in
        match header with
        | None => st_ret (- EINVAL, smem)
        | Some _ => st_ret (0, set_global smem entry)
        end
      end
    end
  end.

Fixpoint enumerate_entries (n : nat) (smem : qcom_smem) (ptable local_host i : Z)
    : ST mem (Z * qcom_smem) :=
  match n with
  | O => st_ret (0, smem)
  | S n =>
    let entry := ptable + pt_entry + sizeof_ptable_entry * i in
    let! off := load32 (entry + pe_offset) in
    if off =? 0 then enumerate_entries n smem ptable local_host (i + 1) else
    let! sz := load32 (entry + pe_size) in
    if sz =? 0 then enumerate_entries n smem ptable local_host (i + 1) else
    let! host0 := load16 (entry + pe_host0) in
    let! host1 := load16 (entry + pe_host1) in
    if negb (host0 =? local_host) && negb (host1 =? local_host)
    then enumerate_entries n smem ptable local_host (i + 1) else
    let remote_host := if host0 =? local_host then host1 else host0 in
    if remote_host >=? SMEM_HOST_COUNT then st_ret (- EINVAL, smem) else
    match host_entry smem remote_host with
    | Some _ => st_ret (- EINVAL, smem)
    | None =>
      let! header := qcom_smem_partition_header smem entry host0 host1 in
      match header with
      | None => st_ret (- EINVAL, smem)
      | Some _ =>
        enumerate_entries n (set_host_entry smem remote_host entry) ptable local_host (i + 1)
      end
    end
  end.

Definition qcom_smem_enumerate_partitions (smem : qcom_smem) (local_host : Z)
    : ST mem (Z * qcom_smem) :=
  let! pt := qcom_smem_get_ptable smem in
  match pt with
  | ErrPtr e => st_ret (e, smem)
  | Ptr ptable =>
    let! n := load32 (ptable + pt_num_entries) in
    enumerate_entries (Z.to_nat n) smem ptable local_host 0
  end.

(** ** Probe and remove *)

(** What the device tree and the kernel answer for one memory region: whether
    the phandle is there, the resource or the error of
    [of_address_to_resource], and the address [devm_ioremap_wc] returned. *)
Record of_region := OfRegion {
  of_phandle : bool;
  of_resource : Z + (Z * Z);
  of_ioremap : option Z;
}.

Definition qcom_smem_map_memory (o : of_region) : Z + smem_region :=
  if negb (of_phandle o) then inl (- EINVAL) else
  match of_resource o with
  | inl ret => inl ret
  | inr (start, size) =>
    match of_ioremap o with
    | None => inl (- ENOMEM)
    | Some base => inr (Region (u32 start) base size)
    end
  end.

(** Answers of the kernel services the probe calls. *)
Record probe_env := ProbeEnv {
  pe_kzalloc_ok : bool;
  pe_memory_region : of_region;
  pe_rpm_msg_ram : option of_region;
  pe_hwlock_id : Z;
  pe_hwlock_ok : bool;
}.

Definition map_regions (env : probe_env) : Z + list smem_region :=
  match qcom_smem_map_memory (pe_memory_region env) with
  | inl ret => inl ret
  | inr r0 =>
    match pe_rpm_msg_ram env with
    | None => inr [r0]
    | Some o =>
      match qcom_smem_map_memory o with
      | inl ret => inl ret
      | inr r1 => inr [r0; r1]
      end
    end
  end.

(** The part of the probe that reads the version and finds the partitions. *)
Definition probe_partitions (smem : qcom_smem) : ST mem (Z * qcom_smem) :=
  let! version := qcom_smem_get_sbl_version smem in
  let! r := (let major := Z.shiftr version 16 in
             if major =? SMEM_GLOBAL_PART_VERSION then
               let! r := qcom_smem_set_global_partition smem in
               if fst r <? 0 then st_ret r else
               let! n := qcom_smem_get_item_count (snd r) in
               st_ret (0, set_item_count (snd r) n)
             else if major =? SMEM_GLOBAL_HEAP_VERSION then
               st_ret (0, set_item_count smem SMEM_ITEM_COUNT)
             else st_ret (- EINVAL, smem)) in
  if fst r <? 0 then st_ret r else
  let! e := qcom_smem_enumerate_partitions (snd r) SMEM_HOST_APPS in
  if (fst e <? 0) && negb (fst e =? - ENOENT) then st_ret e else st_ret (0, snd e).

(** Returns the probe's result and the new value of the global [__smem]. *)
Definition qcom_smem_probe (env : probe_env) (__smem : option qcom_smem)
    : ST mem (Z * option qcom_smem) :=
  if negb (pe_kzalloc_ok env) then st_ret (- ENOMEM, __smem) else
  match map_regions env with
  | inl ret => st_ret (ret, __smem)
  | inr rs =>
    let smem := QcomSmem None (replicate (Z.to_nat SMEM_HOST_COUNT) None) 0 rs in
    let header := virt_base (region0 smem) in
    let! initialized := load32 (header + sh_initialized) in
    if negb (initialized =? 1) then st_ret (- EINVAL, __smem) else
    let! reserved := load32 (header + sh_reserved) in
    if negb (reserved =? 0) then st_ret (- EINVAL, __smem) else
    let! r := probe_partitions smem in
    if fst r <? 0 then st_ret (fst r, __smem) else
    if pe_hwlock_id env <? 0 then st_ret (pe_hwlock_id env, __smem) else
    if negb (pe_hwlock_ok env) then st_ret (- ENXIO, __smem) else
    st_ret (0, Some (snd r))
  end.

(** Forgets the handle. *)
Definition qcom_smem_remove (__smem : option qcom_smem) : option qcom_smem := None.
