(* ===== verification/SmemHeap.v ===== *)
(** * Correctness of the shared memory partitions

    The invariant of a partition ([part_wf]), the abstract heap it stands for
    ([heap_view]) and the refinement of the abstract allocator by
    [qcom_smem_alloc_private] and [qcom_smem_get_private]. *)
From S2P Require Import Prelude CMem Smem.

(** ** Fields of an allocation header *)
Definition e_canary (m : mem) (e : Z) : Z := rd16 m (e + en_canary).
Definition e_item (m : mem) (e : Z) : Z := rd16 m (e + en_item).
Definition e_size (m : mem) (e : Z) : Z := rd32 m (e + en_size).
Definition e_pdata (m : mem) (e : Z) : Z := rd16 m (e + en_padding_data).
Definition e_phdr (m : mem) (e : Z) : Z := rd16 m (e + en_padding_hdr).
Definition e_next (m : mem) (e : Z) : Z := e + (sizeof_private_entry + e_phdr m e + e_size m e).

Ltac layout :=
  unfold en_canary, en_item, en_size, en_padding_data, en_padding_hdr,
    sizeof_private_entry, ph_size, ph_offset_free_uncached, ph_offset_free_cached,
    sizeof_partition_header, pe_offset, pe_size, pe_cacheline in *.
Ltac mem_layout ::= layout.

(** The uncached list: headers from [a] that end exactly at [b]. *)
Inductive uchain (m : mem) : Z -> Z -> list Z -> Prop :=
| uchain_nil a : uchain m a a []
| uchain_cons a b l :
    e_canary m a = SMEM_PRIVATE_CANARY ->
    uchain m (e_next m a) b l ->
    uchain m a b (a :: l).

Lemma e_fields_range m e :
  0 <= e_item m e < 2 ^ 16 /\ 0 <= e_size m e < 2 ^ 32 /\
  0 <= e_pdata m e < 2 ^ 16 /\ 0 <= e_phdr m e < 2 ^ 16.
Proof. repeat split; first [apply rd16_range | apply rd32_range]. Qed.

Lemma e_next_ge m e : e + 16 <= e_next m e.
Proof. pose proof (e_fields_range m e). unfold e_next. layout. lia. Qed.

Lemma uchain_le m a b l : uchain m a b l -> a + 16 * Z.of_nat (length l) <= b.
Proof.
  induction 1 as [a|a b l Hc H IH]; cbn [length]; [lia|].
  pose proof (e_next_ge m a). lia.
Qed.

(** Every header of the chain lies inside it, with its data. *)
Lemma uchain_elem m a b l e :
  uchain m a b l -> e ∈ l -> a <= e /\ e_next m e <= b /\ e_canary m e = SMEM_PRIVATE_CANARY.
Proof.
  induction 1 as [a|a b l Hc H IH]; intros He; [by apply not_elem_of_nil in He|].
  pose proof (uchain_le _ _ _ _ H). pose proof (e_next_ge m a).
  apply elem_of_cons in He as [->|He]; [lia|]. specialize (IH He). lia.
Qed.

(** Memories that agree below [b] have the same chain up to [b]. *)
Definition agree_on (m m' : mem) (lo hi : Z) : Prop :=
  forall c, lo <= c < hi -> get_byte m c = get_byte m' c.

Lemma agree_fields m m' lo hi e :
  agree_on m m' lo hi -> lo <= e -> e + 16 <= hi ->
  e_canary m' e = e_canary m e /\ e_item m' e = e_item m e /\ e_size m' e = e_size m e /\
  e_pdata m' e = e_pdata m e /\ e_phdr m' e = e_phdr m e.
Proof.
  intros H Hlo Hhi. unfold e_canary, e_item, e_size, e_pdata, e_phdr. layout.
  repeat split; symmetry; apply le_load_agree; intros c Hc; apply H; lia.
Qed.

Lemma agree_next m m' lo hi e :
  agree_on m m' lo hi -> lo <= e -> e + 16 <= hi -> e_next m' e = e_next m e.
Proof.
  intros H Hlo Hhi. destruct (agree_fields _ _ _ _ e H Hlo Hhi) as (_&_&Hs&_&Hp).
  unfold e_next. by rewrite Hs, Hp.
Qed.

Lemma uchain_agree m m' lo hi a b l :
  agree_on m m' lo hi -> lo <= a -> b <= hi -> uchain m a b l -> uchain m' a b l.
Proof.
  intros Hag Hlo Hhi H. induction H as [a|a b l Hc H IH]; [constructor|].
  pose proof (uchain_le _ _ _ _ H). pose proof (e_next_ge m a).
  destruct (agree_fields _ _ _ _ a Hag) as (Hcan&_); [lia|lia|].
  constructor; [by rewrite Hcan|].
  rewrite (agree_next _ _ _ _ a Hag) by lia. apply IH; lia.
Qed.

Lemma uchain_snoc m a b l :
  uchain m a b l -> e_canary m b = SMEM_PRIVATE_CANARY ->
  uchain m a (e_next m b) (l ++ [b]).
Proof.
  induction 1 as [a|a b l Hc H IH]; intros Hb; cbn [app]; constructor; auto.
  constructor.
Qed.

(** ** The walk over the uncached list *)
Definition find_item (m : mem) (item : Z) (l : list Z) : option Z :=
  head (filter (fun e => e_item m e = item) l).

Lemma find_item_cons m item e l :
  find_item m item (e :: l) = if e_item m e =? item then Some e else find_item m item l.
Proof.
  unfold find_item. rewrite filter_cons.
  destruct (decide (e_item m e = item)) as [->|Hne]; [by rewrite Z.eqb_refl|].
  by replace (e_item m e =? item) with false by lia.
Qed.

Lemma find_item_Some m item l e :
  find_item m item l = Some e -> e ∈ l /\ e_item m e = item.
Proof.
  induction l as [|x l IH]; [done|]. rewrite find_item_cons, elem_of_cons.
  destruct (e_item m x =? item) eqn:E; intros H; simplify_eq; [lia|].
  destruct (IH H); auto.
Qed.

Lemma find_item_None m item l :
  find_item m item l = None <-> item ∉ (e_item m <$> l).
Proof.
  induction l as [|x l IH]; [split; [intros _; apply not_elem_of_nil|done] |].
  rewrite find_item_cons. cbn [fmap list_fmap]. rewrite not_elem_of_cons.
  destruct (e_item m x =? item) eqn:E; [|rewrite IH; split; intros; intuition lia].
  split; [done|]. intros [? _]; lia.
Qed.

Lemma uncached_walk_spec m item : forall l a b fuel,
  uchain m a b l -> m_base m <= a -> b <= m_base m + m_size m -> 0 <= a -> b < 2 ^ 64 ->
  (length l < fuel)%nat ->
  uncached_walk fuel a b item m =
    Ok (match find_item m item l with Some e => WFound e | None => WEnd b end, m).
Proof.
  induction l as [|e l IH]; intros a b fuel Hch Hlo Hhi Ha Hb Hf;
    destruct fuel as [|fuel]; [lia| |lia|]; cbn [uncached_walk].
  { inversion Hch; subst. by rewrite Z.ltb_irrefl. }
  inversion Hch as [|? ? ? Hcan Hrest]; subst.
  pose proof (uchain_le _ _ _ _ Hrest). pose proof (e_next_ge m e).
  solve_ifs. mem_step. fold (e_canary m e). rewrite Hcan, Z.eqb_refl. cbn [negb].
  mem_step. fold (e_item m e). rewrite find_item_cons.
  destruct (e_item m e =? item) eqn:Eit; [done|].
  unfold uncached_entry_next.
  rewrite (st_bind_ok _ _ m (e_next m e) m).
  - apply IH; cbn [length] in *; try done; lia.
  - mem_step. mem_step. unfold st_ret. fold (e_phdr m e) (e_size m e).
    rewrite ptr_add_id; [done|]. unfold e_next in *. lia.
Qed.

(** ** The invariant of a partition *)
Abbreviation part_size m entry := (rd32 m (entry + pe_size)).
Abbreviation free_uncached m phdr := (rd32 m (phdr + ph_offset_free_uncached)).
Abbreviation free_cached m phdr := (rd32 m (phdr + ph_offset_free_cached)).

Record part_wf (smem : qcom_smem) (m : mem) (entry phdr : Z) (l : list Z) : Prop := {
  pw_base : virt_base (region0 smem) = m_base m;
  pw_low : 0 <= m_base m;
  pw_top : m_base m + m_size m + 2 ^ 33 <= 2 ^ 64;
  pw_entry_lo : m_base m <= entry;
  pw_entry_hi : entry + sizeof_ptable_entry <= m_base m + m_size m;
  pw_phdr : phdr = m_base m + rd32 m (entry + pe_offset);
  pw_end : phdr + part_size m entry <= m_base m + m_size m;
  pw_sep : entry + sizeof_ptable_entry <= phdr \/ phdr + part_size m entry <= entry;
  pw_size : rd32 m (phdr + ph_size) = part_size m entry;
  pw_free : sizeof_partition_header <= free_uncached m phdr <= free_cached m phdr;
  pw_cached : free_cached m phdr <= part_size m entry;
  pw_chain : uchain m (phdr + sizeof_partition_header) (phdr + free_uncached m phdr) l;
  pw_nodup : NoDup (e_item m <$> l);
  pw_pad : Forall (fun e => e_pdata m e <= e_size m e) l;
}.

(** ** The abstract heap *)
Record heap := Heap {
  h_items : list (Z * (Z * Z));   (* item, address of the data, size *)
  h_next : Z;                     (* address of the next header *)
  h_free : Z;                     (* bytes between the two free offsets *)
}.

Definition item_view (m : mem) (e : Z) : Z * (Z * Z) :=
  (e_item m e, (e + (sizeof_private_entry + e_phdr m e), e_size m e - e_pdata m e)).

Definition heap_view (m : mem) (phdr : Z) (l : list Z) : heap :=
  {| h_items := item_view m <$> l;
     h_next := phdr + free_uncached m phdr;
     h_free := free_cached m phdr - free_uncached m phdr |}.

Definition round8 (n : Z) : Z := 8 * ((n + 7) / 8).

(** What an allocation promises. *)
Definition heap_alloc (h : heap) (item size : Z) : Z * heap :=
  if decide (item ∈ (h_items h).*1) then (- EEXIST, h) else
  let need := sizeof_private_entry + round8 size in
  if need >? h_free h then (- ENOSPC, h) else
  (0, {| h_items := h_items h ++ [(item, (h_next h + sizeof_private_entry, size))];
         h_next := h_next h + need;
         h_free := h_free h - need |}).

Lemma round8_bounds n : 0 <= n -> n <= round8 n <= n + 7.
Proof.
  intros Hn. unfold round8. pose proof (Z.div_mod (n + 7) 8 ltac:(lia)).
  pose proof (Z.mod_pos_bound (n + 7) 8 ltac:(lia)). lia.
Qed.

Lemma heap_view_items m phdr l : (h_items (heap_view m phdr l)).*1 = e_item m <$> l.
Proof. cbn. rewrite <-list_fmap_compose. done. Qed.

(** Brings the facts of the invariant into the context. *)
Ltac pw_open W :=
  pose proof (pw_base _ _ _ _ _ W); pose proof (pw_low _ _ _ _ _ W);
  pose proof (pw_top _ _ _ _ _ W); pose proof (pw_entry_lo _ _ _ _ _ W);
  pose proof (pw_entry_hi _ _ _ _ _ W); pose proof (pw_phdr _ _ _ _ _ W);
  pose proof (pw_end _ _ _ _ _ W); pose proof (pw_sep _ _ _ _ _ W);
  pose proof (pw_size _ _ _ _ _ W); pose proof (pw_free _ _ _ _ _ W);
  pose proof (pw_cached _ _ _ _ _ W);
  lazymatch type of W with
  | part_wf _ ?m ?entry ?phdr _ =>
    pose proof (rd32_range m (entry + pe_offset));
    pose proof (rd32_range m (entry + pe_size));
    pose proof (rd32_range m (phdr + ph_offset_free_cached))
  end;
  unfold sizeof_ptable_entry in *.

(** ** Reading the header of a partition *)
Section partition.
Context {smem : qcom_smem} {m : mem} {entry phdr : Z} {l : list Z}.
Hypothesis (W : part_wf smem m entry phdr l).

Lemma phdr_ok : ptable_entry_to_phdr smem entry m = Ok (phdr, m).
Proof.
  pw_open W. unfold ptable_entry_to_phdr. mem_step. unfold st_ret.
  rewrite H, ptr_add_id by (layout; lia). by rewrite <-H4.
Qed.

Lemma last_uncached_ok :
  phdr_to_last_uncached_entry phdr m = Ok (phdr + free_uncached m phdr, m).
Proof.
  pw_open W. unfold phdr_to_last_uncached_entry. mem_step. unfold st_ret.
  by rewrite ptr_add_id by (layout; lia).
Qed.

Lemma last_cached_ok :
  phdr_to_last_cached_entry phdr m = Ok (phdr + free_cached m phdr, m).
Proof.
  pw_open W. unfold phdr_to_last_cached_entry. mem_step. unfold st_ret.
  by rewrite ptr_add_id by (layout; lia).
Qed.

Lemma psize_ok : load32 (entry + pe_size) m = Ok (part_size m entry, m).
Proof. pw_open W. apply load_ok; layout; lia. Qed.

Lemma first_uncached : phdr_to_first_uncached_entry phdr = phdr + sizeof_partition_header.
Proof. pw_open W. apply ptr_add_id. layout. lia. Qed.

Lemma p_end_eq : ptr_add phdr (part_size m entry) = phdr + part_size m entry.
Proof. pw_open W. apply ptr_add_id. layout. lia. Qed.

Lemma walk_ok item :
  let a := phdr + sizeof_partition_header in
  let b := phdr + free_uncached m phdr in
  uncached_walk (walk_fuel a b) a b item m =
    Ok (match find_item m item l with Some e => WFound e | None => WEnd b end, m).
Proof.
  intros a b. pw_open W. pose proof (uchain_le _ _ _ _ (pw_chain _ _ _ _ _ W)) as Hlen.
  apply uncached_walk_spec; subst a b; [apply W|layout; lia..|].
  unfold walk_fuel. apply Nat.lt_succ_r, Nat2Z.inj_le.
  pose proof (Z.div_mod (phdr + free_uncached m phdr - (phdr + sizeof_partition_header)) 16 ltac:(lia)).
  pose proof (Z.mod_pos_bound (phdr + free_uncached m phdr - (phdr + sizeof_partition_header)) 16 ltac:(lia)).
  lia.
Qed.

(** The memory after a successful allocation at [hdr]. *)
Definition alloc_mem (m : mem) (phdr hdr item size : Z) : mem :=
  let m := wr16 m (hdr + en_canary) SMEM_PRIVATE_CANARY in
  let m := wr16 m (hdr + en_item) item in
  let m := wr32 m (hdr + en_size) (ALIGN size 8) in
  let m := wr16 m (hdr + en_padding_data) (rd32 m (hdr + en_size) - size) in
  let m := wr16 m (hdr + en_padding_hdr) 0 in
  wr32 m (phdr + ph_offset_free_uncached)
    (u32 (rd32 m (phdr + ph_offset_free_uncached) + u64 (sizeof_private_entry + ALIGN size 8))).

Lemma alloc_private_exec item size :
  0 <= size <= 2 ^ 32 ->
  let hdr := phdr + free_uncached m phdr in
  qcom_smem_alloc_private smem entry item size m =
    match find_item m item l with
    | Some _ => Ok (- EEXIST, m)
    | None =>
      if sizeof_private_entry + round8 size >? free_cached m phdr - free_uncached m phdr
      then Ok (- ENOSPC, m)
      else Ok (0, alloc_mem m phdr hdr item size)
    end.
Proof.
  intros Hsize hdr. subst hdr. pw_open W. unfold qcom_smem_alloc_private.
  rewrite (st_bind_ok _ _ _ _ _ phdr_ok), (st_bind_ok _ _ _ _ _ psize_ok).
  rewrite (st_bind_ok _ _ _ _ _ last_uncached_ok), (st_bind_ok _ _ _ _ _ last_cached_ok).
  rewrite p_end_eq, first_uncached. solve_ifs.
  rewrite (st_bind_ok _ _ _ _ _ (walk_ok item)).
  destruct (find_item m item l) as [e|]; [done|].
  assert (HA : ALIGN size 8 = round8 size) by (apply ALIGN_8; lia).
  pose proof (round8_bounds size ltac:(lia)).
  solve_ifs. rewrite HA, u64_id, ptr_add_id by (layout; lia).
  destruct (sizeof_private_entry + round8 size >? _) eqn:Efit; solve_ifs; [done|].
  unfold alloc_mem. rewrite HA, (u64_id (_ + round8 size)) by (layout; lia).
  repeat mem_step. done.
Qed.
End partition.

(** ** The allocation preserves the invariant *)
Section alloc_mem.
Context (m : mem) (phdr hdr item size : Z).
Hypothesis (Hhdr : phdr + sizeof_partition_header <= hdr).
Hypothesis (Hsize : 0 <= size <= 2 ^ 32) (Hitem : 0 <= item < 2 ^ 16).
Hypothesis (Hfit : sizeof_private_entry + round8 size <= 2 ^ 32 - 1).
Let m' := alloc_mem m phdr hdr item size.

Lemma alloc_mem_window : m_base m' = m_base m /\ m_size m' = m_size m.
Proof. subst m'. unfold alloc_mem. by mem_frame. Qed.

(** Only the new header and the free offset are written. *)
Lemma alloc_mem_frame c :
  ~ (hdr <= c < hdr + 12) -> ~ (phdr + 12 <= c < phdr + 16) ->
  get_byte m c = get_byte m' c.
Proof.
  intros H1 H2. subst m'. unfold alloc_mem. layout.
  by rewrite !get_byte_store by lia.
Qed.

Lemma alloc_mem_header :
  e_canary m' hdr = SMEM_PRIVATE_CANARY /\ e_item m' hdr = item /\
  e_size m' hdr = round8 size /\ e_pdata m' hdr = round8 size - size /\ e_phdr m' hdr = 0.
Proof.
  pose proof (round8_bounds size ltac:(lia)). layout.
  assert (HA : ALIGN size 8 = round8 size) by (apply ALIGN_8; lia).
  subst m'. unfold alloc_mem, e_canary, e_item, e_size, e_pdata, e_phdr. rewrite HA. layout.
  repeat split; mem_simp; rewrite ?u32_id by lia; rewrite ?u16_id by lia; done.
Qed.

Lemma alloc_mem_free :
  free_uncached m phdr + (sizeof_private_entry + round8 size) < 2 ^ 32 ->
  free_uncached m' phdr = free_uncached m phdr + (sizeof_private_entry + round8 size).
Proof.
  intros Hlt. pose proof (round8_bounds size ltac:(lia)).
  pose proof (rd32_range m (phdr + ph_offset_free_uncached)).
  assert (HA : ALIGN size 8 = round8 size) by (apply ALIGN_8; lia).
  subst m'. unfold alloc_mem. rewrite HA. layout. mem_simp.
  rewrite (u64_id (16 + round8 size)) by lia. rewrite (u32_id (le_load _ _ _ + _)) by lia. by rewrite u32_id by lia.
Qed.
End alloc_mem.

Lemma item_view_agree m m' lo hi l a b :
  agree_on m m' lo hi -> lo <= a -> b <= hi -> uchain m a b l ->
  item_view m' <$> l = item_view m <$> l.
Proof.
  intros Hag Hlo Hhi Hch. apply list_fmap_ext. intros i e He.
  apply list_elem_of_lookup_2 in He. destruct (uchain_elem _ _ _ _ _ Hch He) as (?&?&_).
  pose proof (e_next_ge m e).
  destruct (agree_fields _ _ _ _ e Hag) as (_&Hi&Hs&Hd&Hp); [lia|lia|].
  unfold item_view. by rewrite Hi, Hs, Hd, Hp.
Qed.

Lemma agree_items m m' lo hi l a b :
  agree_on m m' lo hi -> lo <= a -> b <= hi -> uchain m a b l ->
  e_item m' <$> l = e_item m <$> l /\
  (Forall (fun e => e_pdata m e <= e_size m e) l -> Forall (fun e => e_pdata m' e <= e_size m' e) l).
Proof.
  intros Hag Hlo Hhi Hch.
  assert (HF : forall e, e ∈ l -> e_item m' e = e_item m e /\ e_size m' e = e_size m e /\
            e_pdata m' e = e_pdata m e).
  { intros e He. destruct (uchain_elem _ _ _ _ _ Hch He) as (?&?&_). pose proof (e_next_ge m e).
    destruct (agree_fields _ _ _ _ e Hag) as (_&Hi&Hs&Hd&_); [lia|lia|done]. }
  split.
  - apply list_fmap_ext. intros i e He. apply list_elem_of_lookup_2 in He. by apply HF.
  - rewrite !Forall_forall. intros H e He. destruct (HF e He) as (_&->&->). by apply H.
Qed.

Section refinement.
Context {smem : qcom_smem} {m : mem} {entry phdr : Z} {l : list Z}.
Hypothesis (W : part_wf smem m entry phdr l).
Context (item size : Z) (Hitem : 0 <= item < 2 ^ 16) (Hsize : 0 <= size <= 2 ^ 32).
Hypothesis (Hnew : find_item m item l = None).
Hypothesis (Hroom : sizeof_private_entry + round8 size
                      <= free_cached m phdr - free_uncached m phdr).
Let hdr := phdr + free_uncached m phdr.
Let m' := alloc_mem m phdr hdr item size.

Lemma alloc_room : sizeof_private_entry + round8 size <= 2 ^ 32 - 1 /\
  phdr + sizeof_partition_header <= hdr /\
  free_uncached m phdr + (sizeof_private_entry + round8 size) < 2 ^ 32.
Proof.
  pose proof (rd32_range m (phdr + ph_offset_free_cached)).
  pose proof (pw_free _ _ _ _ _ W). subst hdr. layout. lia.
Qed.

Lemma alloc_agree : agree_on m m' (phdr + sizeof_partition_header) hdr.
Proof.
  intros c Hc. apply alloc_mem_frame; layout; lia.
Qed.

(** The table entry and the rest of the partition header keep their values. *)
Lemma alloc_keeps :
  (forall o k, 0 <= o -> o + Z.of_nat k <= sizeof_ptable_entry ->
     le_load m' (entry + o) k = le_load m (entry + o) k) /\
  free_cached m' phdr = free_cached m phdr /\
  rd32 m' (phdr + ph_size) = rd32 m (phdr + ph_size).
Proof.
  destruct alloc_room as (?&?&_). pose proof (pw_sep _ _ _ _ _ W).
  pose proof (pw_cached _ _ _ _ _ W). pose proof (pw_free _ _ _ _ _ W).
  pose proof (round8_bounds size ltac:(lia)).
  unfold sizeof_ptable_entry in *. subst hdr m'. layout.
  repeat split; intros; symmetry; apply le_load_agree; intros c Hc;
    apply alloc_mem_frame; lia.
Qed.

Lemma alloc_wf : part_wf smem m' entry phdr (l ++ [hdr]).
Proof.
  destruct alloc_room as (Hneed&Hh&Hfree). destruct alloc_keeps as (Hent&Hfc&Hsz).
  destruct (alloc_mem_window m phdr hdr item size) as [Hb Hs].
  destruct (alloc_mem_header m phdr hdr item size Hh Hsize Hitem Hneed) as (Hcan&Hit&Hes&Hpd&Hph).
  pose proof (alloc_mem_free m phdr hdr item size Hh Hsize Hneed Hfree) as Hfu.
  pose proof (alloc_agree) as Hag. fold m' in Hb, Hs, Hcan, Hit, Hes, Hpd, Hph, Hfu.
  pose proof (round8_bounds size ltac:(lia)).
  assert (Hoff : rd32 m' (entry + pe_offset) = rd32 m (entry + pe_offset)) by (by apply Hent).
  assert (Hps : part_size m' entry = part_size m entry) by (by apply Hent).
  destruct W as [? ? ? ? ? ? ? ? ? ? ? Hch Hnd Hpad].
  assert (Hch' : uchain m' (phdr + sizeof_partition_header) hdr l)
    by (eapply uchain_agree; [exact Hag|lia|lia|exact Hch]).
  destruct (agree_items m m' _ _ l _ _ Hag (Z.le_refl _) (Z.le_refl _) Hch) as [Hitems Hpads].
  constructor; rewrite ?Hb, ?Hs, ?Hoff, ?Hps, ?Hfc, ?Hsz, ?Hfu; try done; try lia.
  - layout. lia.
  - replace (phdr + (_ + (_ + _))) with (e_next m' hdr).
    + apply uchain_snoc; done.
    + unfold e_next. rewrite Hph, Hes. subst hdr. lia.
  - rewrite fmap_app, Hitems. cbn. rewrite Hit. apply NoDup_app. split; [done|]. split.
    + intros x Hx. rewrite list_elem_of_singleton. intros ->. by apply find_item_None in Hnew.
    + apply NoDup_singleton.
  - apply Forall_app. split; [by apply Hpads|]. apply Forall_singleton. lia.
Qed.

Lemma alloc_view : heap_view m' phdr (l ++ [hdr]) =
  {| h_items := h_items (heap_view m phdr l) ++ [(item, (hdr + sizeof_private_entry, size))];
     h_next := hdr + (sizeof_private_entry + round8 size);
     h_free := h_free (heap_view m phdr l) - (sizeof_private_entry + round8 size) |}.
Proof.
  destruct alloc_room as (Hneed&Hh&Hfree). destruct alloc_keeps as (_&Hfc&_).
  destruct (alloc_mem_header m phdr hdr item size Hh Hsize Hitem Hneed) as (_&Hit&Hes&Hpd&Hph).
  pose proof (alloc_mem_free m phdr hdr item size Hh Hsize Hneed Hfree) as Hfu.
  fold m' in Hit, Hes, Hpd, Hph, Hfu. unfold heap_view. cbn [h_items h_free].
  rewrite Hfu, Hfc, fmap_app.
  rewrite (item_view_agree m m' _ _ l _ _ alloc_agree (Z.le_refl _) (Z.le_refl _) (pw_chain _ _ _ _ _ W)).
  cbn [fmap list_fmap]. unfold item_view at 2. rewrite Hit, Hes, Hpd, Hph.
  f_equal; [|subst hdr; lia|lia]. do 4 f_equal; lia.
Qed.
End refinement.

(** ** The cached list *)

(** Headers of cached items, from the end of the partition downwards; each
    header follows its data and the last one ends at [b]. *)
Inductive cchain (m : mem) (al : Z) : Z -> Z -> list Z -> Prop :=
| cchain_nil b : cchain m al (b - al) b []
| cchain_cons e b l :
    b < e ->
    e_canary m e = SMEM_PRIVATE_CANARY ->
    cchain m al (e - e_size m e - al) b l ->
    cchain m al e b (e :: l).

Definition cached_align (m : mem) (entry : Z) : Z :=
  ALIGN sizeof_private_entry (rd32 m (entry + pe_cacheline)).

Record cached_wf (m : mem) (entry phdr : Z) (l : list Z) : Prop := {
  cw_align : sizeof_private_entry <= cached_align m entry;
  cw_room : cached_align m entry <= free_cached m phdr;
  cw_chain : cchain m (cached_align m entry)
    (phdr + part_size m entry - cached_align m entry) (phdr + free_cached m phdr) l;
  cw_pad : Forall (fun e => e_pdata m e <= e_size m e) l;
}.

Lemma cchain_le m al e b l : 16 <= al -> cchain m al e b l ->
  b - al + 16 * Z.of_nat (length l) <= e.
Proof.
  intros Hal. induction 1 as [b|e b l Hlt Hc H IH]; cbn [length]; [lia|].
  pose proof (e_fields_range m e). lia.
Qed.

Lemma cchain_length m al e b l : 16 <= al -> cchain m al e b l ->
  (length l <= Z.to_nat (e - b))%nat.
Proof.
  intros Hal H. destruct H as [b|e b l Hlt Hc H]; cbn [length]; [lia|].
  pose proof (cchain_le _ _ _ _ _ Hal H). pose proof (e_fields_range m e). lia.
Qed.

Lemma cchain_elem m al e b l x : 16 <= al -> cchain m al e b l -> x ∈ l ->
  b < x <= e /\ b <= x - e_size m x.
Proof.
  intros Hal. induction 1 as [b|e b l Hlt Hc H IH]; intros Hx; [by apply not_elem_of_nil in Hx|].
  pose proof (e_fields_range m e). pose proof (cchain_le _ _ _ _ _ Hal H).
  apply elem_of_cons in Hx as [->|Hx]; [lia|]. specialize (IH Hx). lia.
Qed.

Lemma cchain_agree m m' al lo hi e b l : 16 <= al ->
  agree_on m m' lo hi -> lo <= b -> e + 16 <= hi -> cchain m al e b l ->
  cchain m' al e b l.
Proof.
  intros Hal Hag Hlo Hhi H. induction H as [b|e b l Hlt Hc H IH]; [constructor|].
  pose proof (e_fields_range m e).
  destruct (agree_fields _ _ _ _ e Hag) as (Hcan&_&Hs&_); [lia|lia|].
  constructor; [done|by rewrite Hcan|]. rewrite Hs. apply IH; lia.
Qed.

Lemma cached_walk_spec m item cl : forall l e b fuel,
  let al := ALIGN sizeof_private_entry cl in
  16 <= al -> cchain m al e b l -> m_base m + al <= b -> 0 <= m_base m ->
  e + 16 <= m_base m + m_size m -> m_base m + m_size m <= 2 ^ 64 ->
  (length l < fuel)%nat ->
  cached_walk fuel e b item cl m =
    Ok (match find_item m item l with Some e => WFound e | None => WEnd (b - al) end, m).
Proof.
  induction l as [|x l IH]; intros e b fuel al Hal Hch Hlo Hb0 Hhi Htop Hf;
    destruct fuel as [|fuel]; [lia| |lia|]; cbn [cached_walk].
  { inversion Hch; subst. by solve_ifs. }
  inversion Hch as [|? ? ? Hlt Hcan Hrest]; subst.
  pose proof (cchain_le _ _ _ _ _ Hal Hrest). pose proof (e_fields_range m x).
  solve_ifs. mem_step. fold (e_canary m x). rewrite Hcan, Z.eqb_refl. cbn [negb].
  mem_step. fold (e_item m x). rewrite find_item_cons.
  destruct (e_item m x =? item) eqn:Eit; [done|].
  unfold cached_entry_next. rewrite (st_bind_ok _ _ m (x - e_size m x - al) m).
  - apply IH; cbn [length] in *; try done; lia.
  - mem_step. unfold st_ret. fold (e_size m x). rewrite ptr_add_id by (fold al; lia).
    do 2 f_equal. fold al. lia.
Qed.

Definition cached_view (m : mem) (e : Z) : Z * (Z * Z) :=
  (e_item m e, (e - e_size m e, e_size m e - e_pdata m e)).

(** ** Lookup *)
Definition assoc (item : Z) (xs : list (Z * (Z * Z))) : option (Z * Z) :=
  snd <$> head (filter (fun x => x.1 = item) xs).

(** What a lookup promises: the address and the size of the item; the size of
    an item allocated with size 0 is refused. *)
Definition get_spec (o : option (Z * Z)) (want_size : bool) : get_res :=
  match o with
  | None => (ErrPtr (- ENOENT), None)
  | Some (p, sz) =>
    if want_size && (sz <=? 0) then (ErrPtr (- EINVAL), None)
    else (Ptr p, if want_size then Some sz else None)
  end.

Definition part_items (m : mem) (l lc : list Z) : list (Z * (Z * Z)) :=
  (item_view m <$> l) ++ (cached_view m <$> lc).

Lemma assoc_app item xs ys :
  assoc item (xs ++ ys) = match assoc item xs with Some v => Some v | None => assoc item ys end.
Proof. unfold assoc. rewrite filter_app. by destruct (filter _ xs). Qed.

Lemma assoc_views (view : mem -> Z -> Z * (Z * Z)) m item l :
  (forall e, (view m e).1 = e_item m e) ->
  assoc item (view m <$> l) = (fun e => (view m e).2) <$> find_item m item l.
Proof.
  intros Hv. induction l as [|e l IH]; [done|]. rewrite find_item_cons.
  unfold assoc in *. cbn [fmap list_fmap]. rewrite filter_cons, Hv.
  destruct (decide (e_item m e = item)) as [->|Hne]; [by rewrite Z.eqb_refl|].
  by replace (e_item m e =? item) with false by lia.
Qed.

Lemma entry_size_spec m e psize want :
  m_base m <= e -> e + 16 <= m_base m + m_size m -> e_pdata m e <= e_size m e ->
  e_size m e < psize ->
  entry_size e psize want m =
    Ok (if want && (e_size m e - e_pdata m e <=? 0) then None
        else Some (if want then Some (e_size m e - e_pdata m e) else None), m).
Proof.
  intros. unfold entry_size. destruct want; [|done]. cbn [andb].
  mem_step. mem_step. fold (e_size m e) (e_pdata m e).
  case_if; case_if; try done; lia.
Qed.

Section get.
Context {smem : qcom_smem} {m : mem} {entry phdr : Z} {l lc : list Z}.
Hypothesis (W : part_wf smem m entry phdr l) (C : cached_wf m entry phdr lc).

Lemma cached_align_ge : 16 <= cached_align m entry.
Proof. apply C. Qed.

(** The two ways an entry that was found is returned. *)
Lemma uncached_hit e want : e ∈ l ->
  (let! sz := entry_size e (part_size m entry) want in
   match sz with
   | None => st_ret (ErrPtr (- EINVAL), None)
   | Some sz =>
     let! item_ptr := uncached_entry_to_item e in
     if item_ptr >? phdr + part_size m entry then st_ret (ErrPtr (- EINVAL), sz)
     else st_ret (Ptr item_ptr, sz)
   end)%C m = Ok (get_spec (Some (item_view m e).2) want, m).
Proof.
  intros He. pw_open W. pose proof (pw_pad _ _ _ _ _ W) as Hpad.
  rewrite Forall_forall in Hpad. specialize (Hpad _ He).
  destruct (uchain_elem _ _ _ _ _ (pw_chain _ _ _ _ _ W) He) as (?&Hn&_).
  pose proof (e_fields_range m e). unfold e_next in Hn.
  erewrite st_bind_ok by (apply entry_size_spec; layout; lia).
  cbn [get_spec item_view snd]. case_if; [done|]. unfold uncached_entry_to_item.
  erewrite st_bind_ok by (mem_step; reflexivity). fold (e_phdr m e).
  rewrite ptr_add_id by (layout; lia). by solve_ifs.
Qed.

Lemma cached_hit e want : e ∈ lc ->
  (let! sz := entry_size e (part_size m entry) want in
   match sz with
   | None => st_ret (ErrPtr (- EINVAL), None)
   | Some sz =>
     let! item_ptr := cached_entry_to_item e in
     if item_ptr <? phdr then st_ret (ErrPtr (- EINVAL), sz)
     else st_ret (Ptr item_ptr, sz)
   end)%C m = Ok (get_spec (Some (cached_view m e).2) want, m).
Proof.
  intros He. pw_open W. pose proof (cw_pad _ _ _ _ C) as Hpad. pose proof cached_align_ge as Hal.
  rewrite Forall_forall in Hpad. specialize (Hpad _ He).
  destruct (cchain_elem _ _ _ _ _ _ Hal (cw_chain _ _ _ _ C) He) as (?&?).
  pose proof (e_fields_range m e).
  erewrite st_bind_ok by (apply entry_size_spec; layout; lia).
  cbn [get_spec cached_view snd]. case_if; [done|]. unfold cached_entry_to_item.
  erewrite st_bind_ok by (mem_step; reflexivity). fold (e_size m e).
  rewrite ptr_add_id by (layout; lia).
  replace (e + - e_size m e) with (e - e_size m e) by lia. by solve_ifs.
Qed.

Lemma first_cached_ok :
  phdr_to_first_cached_entry phdr (rd32 m (entry + pe_cacheline)) m =
    Ok (phdr + part_size m entry - cached_align m entry, m).
Proof.
  pw_open W. pose proof cached_align_ge. pose proof (cw_room _ _ _ _ C).
  unfold phdr_to_first_cached_entry. mem_step. fold (cached_align m entry). unfold st_ret.
  rewrite (pw_size _ _ _ _ _ W), ptr_add_id by (layout; lia). do 2 f_equal. lia.
Qed.

Lemma cached_walk_ok item :
  let e := phdr + part_size m entry - cached_align m entry in
  let b := phdr + free_cached m phdr in
  cached_walk (cached_fuel e b) e b item (rd32 m (entry + pe_cacheline)) m =
    Ok (match find_item m item lc with
        | Some e => WFound e | None => WEnd (b - cached_align m entry) end, m).
Proof.
  intros e b. pose proof cached_align_ge as Hal. pose proof (cw_chain _ _ _ _ C) as Hch.
  pose proof (cchain_le _ _ _ _ _ Hal Hch). pose proof (cw_room _ _ _ _ C).
  subst e b. pw_open W. unfold cached_align in *.
  apply cached_walk_spec; try done; unfold cached_fuel; layout; try lia.
  apply Nat.lt_succ_r. by eapply cchain_length.
Qed.

(** The lookup in the two lists is a lookup in the view of the partition. *)
Lemma get_private_exec item want :
  qcom_smem_get_private smem entry item want m =
    Ok (get_spec (assoc item (part_items m l lc)) want, m).
Proof.
  pose proof cached_align_ge. pose proof (cw_room _ _ _ _ C).
  unfold part_items. rewrite assoc_app, !assoc_views by done. unfold qcom_smem_get_private.
  rewrite (st_bind_ok _ _ _ _ _ (phdr_ok W)), (st_bind_ok _ _ _ _ _ (psize_ok W)).
  rewrite (p_end_eq W), (first_uncached W). pw_open W. mem_step.
  rewrite (st_bind_ok _ _ _ _ _ (last_uncached_ok W)). solve_ifs.
  rewrite (st_bind_ok _ _ _ _ _ (walk_ok W item)).
  destruct (find_item m item l) as [e|] eqn:Hf; cbn [fmap option_fmap option_map].
  { apply find_item_Some in Hf as [He _]. by apply uncached_hit. }
  solve_ifs. rewrite (st_bind_ok _ _ _ _ _ first_cached_ok).
  rewrite (st_bind_ok _ _ _ _ _ (last_cached_ok W)). solve_ifs.
  rewrite (st_bind_ok _ _ _ _ _ (cached_walk_ok item)).
  destruct (find_item m item lc) as [e|] eqn:Hf'; cbn [fmap option_fmap option_map].
  { apply find_item_Some in Hf' as [He _]. by apply cached_hit. }
  by solve_ifs.
Qed.
End get.

(** ** Allocation followed by lookup *)
Section roundtrip.
Context {smem : qcom_smem} {m : mem} {entry phdr : Z} {l lc : list Z}.
Hypothesis (W : part_wf smem m entry phdr l) (C : cached_wf m entry phdr lc).
Context (item size : Z) (Hitem : 0 <= item < 2 ^ 16) (Hsize : 0 <= size <= 2 ^ 32).
Hypothesis (Hnew : find_item m item l = None).
Hypothesis (Hroom : sizeof_private_entry + round8 size
                      <= free_cached m phdr - free_uncached m phdr).
Let hdr := phdr + free_uncached m phdr.
Let m' := alloc_mem m phdr hdr item size.

Lemma alloc_agree_cached :
  agree_on m m' (phdr + free_cached m phdr) (phdr + part_size m entry).
Proof.
  pw_open W. pose proof (round8_bounds size ltac:(lia)). intros c Hc.
  apply alloc_mem_frame; subst hdr; layout; lia.
Qed.

Lemma alloc_cached_wf : cached_wf m' entry phdr lc /\ cached_view m' <$> lc = cached_view m <$> lc.
Proof.
  destruct (alloc_keeps W item size Hsize Hroom) as (Hent&Hfc&_).
  fold hdr m' in Hent, Hfc.
  assert (Hal : cached_align m' entry = cached_align m entry)
    by (unfold cached_align; by rewrite (Hent pe_cacheline 4%nat)).
  assert (Hps : part_size m' entry = part_size m entry) by (by apply Hent).
  pose proof alloc_agree_cached as Hag. pose proof (cached_align_ge C) as Hge.
  pose proof (cw_chain _ _ _ _ C) as Hch.
  assert (Hel : forall e, e ∈ lc -> e_item m' e = e_item m e /\ e_size m' e = e_size m e /\
            e_pdata m' e = e_pdata m e).
  { intros e He. destruct (cchain_elem _ _ _ _ _ _ Hge Hch He).
    destruct (agree_fields _ _ _ _ e Hag) as (_&?&?&?&_); [lia|lia|done]. }
  split; [constructor|]; rewrite ?Hal, ?Hps, ?Hfc; try apply C.
  - eapply (cchain_agree m); [exact Hge|exact Hag|lia|lia|exact Hch].
  - pose proof (cw_pad _ _ _ _ C) as Hpad. rewrite Forall_forall in Hpad |- *.
    intros e He. destruct (Hel e He) as (_&->&->). by apply Hpad.
  - apply list_fmap_ext. intros i e He. apply list_elem_of_lookup_2 in He.
    unfold cached_view. by destruct (Hel e He) as (->&->&->).
Qed.

Lemma alloc_part_items :
  part_items m' (l ++ [hdr]) lc =
  (item_view m <$> l) ++ [(item, (hdr + sizeof_private_entry, size))] ++ (cached_view m <$> lc).
Proof.
  pose proof (f_equal h_items (alloc_view W item size Hitem Hsize Hroom)) as Hv.
  cbn [h_items heap_view] in Hv. fold hdr m' in Hv.
  unfold part_items. rewrite Hv, (proj2 alloc_cached_wf). by rewrite <-app_assoc.
Qed.
End roundtrip.

(** *** Theorems *)

Lemma alloc_private_step smem m entry phdr l item size :
  part_wf smem m entry phdr l -> 0 <= item < 2 ^ 16 -> 0 <= size <= 2 ^ 32 ->
  exists r m' l',
    qcom_smem_alloc_private smem entry item size m = Ok (r, m') /\
    part_wf smem m' entry phdr l' /\
    heap_alloc (heap_view m phdr l) item size = (r, heap_view m' phdr l').
Proof.
  intros W Hitem Hsize. rewrite (alloc_private_exec W item size Hsize).
  unfold heap_alloc. rewrite heap_view_items.
  destruct (find_item m item l) as [e|] eqn:Hf.
  { exists (- EEXIST), m, l. rewrite decide_True; [done|].
    apply find_item_Some in Hf as [He <-]. by apply list_elem_of_fmap_2. }
  rewrite decide_False by (by apply find_item_None). cbn [h_free heap_view].
  case_if; [by exists (- ENOSPC), m, l|].
  eexists 0, _, _. split; [done|].
  split; [exact (alloc_wf W item size Hitem Hsize Hf ltac:(lia))|].
  by rewrite (alloc_view W item size Hitem Hsize ltac:(lia)).
Qed.

(** C10: on a well-formed partition [qcom_smem_alloc_private] always returns (no
    access outside the region, no endless walk), keeps the partition well-formed and
    implements the abstract allocator: [-EEXIST] for an item of the uncached list,
    [-ENOSPC] when header and rounded data do not fit below the cached area, and
    otherwise one more item at the next free address, with nothing else changed. *)
Theorem smem_alloc_private_refines smem m entry phdr l item size :
  part_wf smem m entry phdr l -> 0 <= item < 2 ^ 16 -> 0 <= size <= 2 ^ 32 ->
  exists r m' l',
    qcom_smem_alloc_private smem entry item size m = Ok (r, m') /\
    part_wf smem m' entry phdr l' /\
    heap_alloc (heap_view m phdr l) item size = (r, heap_view m' phdr l').
Proof. apply alloc_private_step. Qed.

(** On a well-formed partition the lookup [qcom_smem_get_private] returns, for
    every item, the address and the requested size of the first entry with that number
    in the uncached list, else in the cached list, and [-ENOENT] when there is none; an
    entry of size 0 is reported as [-EINVAL] when the size is asked for.  It never
    faults and the walks end. *)
Theorem smem_get_private_correct smem m entry phdr l lc item want :
  part_wf smem m entry phdr l -> cached_wf m entry phdr lc ->
  qcom_smem_get_private smem entry item want m =
    Ok (get_spec (assoc item (part_items m l lc)) want, m).
Proof. intros W C. exact (get_private_exec W C item want). Qed.

(** C20: an item that was just allocated is found again with exactly the requested
    size, at an address inside the partition, and the allocation changes the lookup of
    no other item. *)
Theorem smem_alloc_get_roundtrip smem m entry phdr l lc item size m' :
  part_wf smem m entry phdr l -> cached_wf m entry phdr lc ->
  0 <= item < 2 ^ 16 -> 0 < size <= 2 ^ 32 ->
  qcom_smem_alloc_private smem entry item size m = Ok (0, m') ->
  (exists p, qcom_smem_get_private smem entry item true m' = Ok ((Ptr p, Some size), m') /\
     phdr + sizeof_partition_header <= p /\ p + size <= phdr + free_cached m phdr) /\
  (forall item' want, item' <> item ->
     exists r, qcom_smem_get_private smem entry item' want m = Ok (r, m) /\
               qcom_smem_get_private smem entry item' want m' = Ok (r, m')).
Proof.
  intros W C Hitem Hsize Hal. pose proof (round8_bounds size ltac:(lia)).
  rewrite (alloc_private_exec W item size ltac:(lia)) in Hal.
  destruct (find_item m item l) eqn:Hf; [done|]. case_if_in Hal; [done|].
  injection Hal as <-.
  pose proof (alloc_wf W item size Hitem ltac:(lia) Hf ltac:(lia)) as W'.
  destruct (alloc_cached_wf W C item size ltac:(lia) ltac:(lia)) as [C' _].
  assert (Hnone : assoc item (item_view m <$> l) = None) by (rewrite assoc_views, Hf; done).
  split.
  - eexists. rewrite (get_private_exec W' C').
    rewrite (alloc_part_items W C item size Hitem ltac:(lia) ltac:(lia)).
    rewrite assoc_app, Hnone. cbn -[sizeof_private_entry]. unfold assoc. rewrite filter_cons_True by done.
    cbn -[sizeof_private_entry]. case_if; [lia|]. split; [done|].
    pw_open W. layout. lia.
  - intros item' want Hne. eexists. split; [exact (get_private_exec W C item' want)|].
    rewrite (get_private_exec W' C').
    rewrite (alloc_part_items W C item size Hitem ltac:(lia) ltac:(lia)).
    unfold part_items. rewrite !assoc_app. unfold assoc at 2. by rewrite filter_cons_False by done.
Qed.

(** ** Disjointness of the items *)
Lemma uchain_order m a b l i j e f :
  uchain m a b l -> (i < j)%nat -> l !! i = Some e -> l !! j = Some f -> e_next m e <= f.
Proof.
  intros H. revert i j. induction H as [a|a b l Hc H IH]; intros i j Hij Hi Hj; [done|].
  destruct j as [|j]; [lia|]. destruct i as [|i]; cbn in Hi, Hj.
  - injection Hi as ->. apply list_elem_of_lookup_2 in Hj.
    by destruct (uchain_elem _ _ _ _ _ H Hj).
  - apply (IH i j); [lia|done..].
Qed.

(** The data areas of two different items of a well-formed partition never
    overlap, and each lies after the partition header and below the free offset. *)
Theorem smem_items_disjoint smem m entry phdr l i j x y :
  part_wf smem m entry phdr l -> i <> j ->
  h_items (heap_view m phdr l) !! i = Some x ->
  h_items (heap_view m phdr l) !! j = Some y ->
  (x.2.1 + x.2.2 <= y.2.1 \/ y.2.1 + y.2.2 <= x.2.1) /\
  phdr + sizeof_partition_header <= x.2.1 /\
  x.2.1 + x.2.2 <= phdr + free_uncached m phdr.
Proof.
  intros W Hij Hx Hy. pose proof (pw_chain _ _ _ _ _ W) as Hch.
  cbn [h_items heap_view] in Hx, Hy. rewrite list_lookup_fmap in Hx, Hy.
  apply fmap_Some in Hx as (e&He&->). apply fmap_Some in Hy as (f&Hf&->).
  pose proof (e_fields_range m e). pose proof (e_fields_range m f). cbn [snd fst item_view].
  destruct (uchain_elem _ _ _ _ e Hch) as (?&?&_); [by eapply list_elem_of_lookup_2|].
  assert (e_next m e <= f \/ e_next m f <= e) as Hord.
  { destruct (decide (i < j)%nat); [left|right];
      [eapply (uchain_order _ _ _ l i j)|eapply (uchain_order _ _ _ l j i)]; eauto; lia. }
  unfold e_next in *. layout. lia.
Qed.

(** ** Sequences of allocations *)
Fixpoint alloc_seq (smem : qcom_smem) (entry : Z) (reqs : list (Z * Z)) : ST mem (list Z) :=
  (match reqs with
   | [] => st_ret []
   | (item, size) :: reqs =>
     let! r := qcom_smem_alloc_private smem entry item size in
     let! rs := alloc_seq smem entry reqs in
     st_ret (r :: rs)
   end)%C.

Fixpoint heap_alloc_seq (h : heap) (reqs : list (Z * Z)) : list Z * heap :=
  match reqs with
  | [] => ([], h)
  | (item, size) :: reqs =>
    let '(r, h) := heap_alloc h item size in
    let '(rs, h) := heap_alloc_seq h reqs in
    (r :: rs, h)
  end.

(** Every sequence of allocations on a well-formed partition behaves like the
    same sequence on the abstract heap and ends in a well-formed partition. *)
Theorem smem_alloc_seq_refines smem entry phdr reqs : forall m l,
  part_wf smem m entry phdr l ->
  Forall (fun q => 0 <= q.1 < 2 ^ 16 /\ 0 <= q.2 <= 2 ^ 32) reqs ->
  exists rs m' l',
    alloc_seq smem entry reqs m = Ok (rs, m') /\
    part_wf smem m' entry phdr l' /\
    heap_alloc_seq (heap_view m phdr l) reqs = (rs, heap_view m' phdr l').
Proof.
  induction reqs as [|[item size] reqs IH]; intros m l W HF; cbn [alloc_seq heap_alloc_seq].
  { by exists [], m, l. }
  inversion HF as [|? ? [Hi Hs] HF']; subst; cbn [fst snd] in *.
  destruct (alloc_private_step smem m entry phdr l item size W Hi Hs) as (r&m1&l1&E1&W1&E2).
  destruct (IH m1 l1 W1 HF') as (rs&m2&l2&E3&W2&E4).
  exists (r :: rs), m2, l2. rewrite E2, E4.
  split; [|done]. by rewrite (st_bind_ok _ _ _ _ _ E1), (st_bind_ok _ _ _ _ _ E3).
Qed.
