(* ===== verification/SmemApi.v ===== *)
(** * The rest of the shared memory manager

    The global heap, the discovery of the partitions at probe time and the public
    entry points. *)
From S2P Require Import Prelude CMem Smem SmemHeap.

(** ** Read-only operations *)
Definition read_only {A} (c : ST mem A) : Prop :=
  forall m a m', c m = Ok (a, m') -> m' = m.

Lemma ro_ret {A} (a : A) : read_only (st_ret a).
Proof. intros m x m' H. by injection H. Qed.

Lemma ro_bind {A B} (c : ST mem A) (k : A -> ST mem B) :
  read_only c -> (forall a, read_only (k a)) -> read_only (st_bind c k).
Proof.
  intros Hc Hk m b m' H. apply st_bind_inv in H as (a&m1&H1&H2).
  apply Hc in H1. subst m1. by apply Hk in H2.
Qed.

Lemma ro_load n a : read_only (load n a).
Proof. intros m x m' H. unfold load in H. case_if_in H; by simplify_eq. Qed.

Lemma ro_load_bytes n a : read_only (load_bytes n a).
Proof. intros m x m' H. unfold load_bytes in H. case_if_in H; by simplify_eq. Qed.

Lemma ro_if {A} (b : bool) (c d : ST mem A) :
  read_only c -> read_only d -> read_only (if b then c else d).
Proof. by destruct b. Qed.

Lemma ro_loop {A} : read_only (fun _ : mem => @Loop (A * mem)).
Proof. intros m x m' H. done. Qed.

Create HintDb readonly.
#[export] Hint Resolve ro_ret ro_bind ro_load ro_load_bytes ro_if ro_loop : readonly.

Ltac ro :=
  repeat first
  [ progress intros | progress cbn beta iota
  | apply ro_ret | apply ro_loop | apply ro_load | apply ro_load_bytes
  | apply ro_bind | apply ro_if
  | solve [auto with readonly]
  | case_match ].

Lemma ro_uncached_walk fuel : forall hdr end_ item, read_only (uncached_walk fuel hdr end_ item).
Proof. induction fuel as [|fuel IH]; cbn [uncached_walk]; unfold uncached_entry_next; ro. Qed.

Lemma ro_partition_header smem entry h0 h1 :
  read_only (qcom_smem_partition_header smem entry h0 h1).
Proof. unfold qcom_smem_partition_header, ptable_entry_to_phdr. ro. Qed.

Lemma ro_get_ptable smem : read_only (qcom_smem_get_ptable smem).
Proof. unfold qcom_smem_get_ptable. ro. Qed.

Lemma ro_find_global n : forall ptable i, read_only (find_global_entry n ptable i).
Proof. induction n as [|n IH]; cbn [find_global_entry]; ro. Qed.

#[export] Hint Resolve ro_uncached_walk ro_partition_header ro_get_ptable ro_find_global : readonly.

Lemma ro_enumerate_entries n : forall smem ptable h i,
  read_only (enumerate_entries n smem ptable h i).
Proof. induction n as [|n IH]; cbn [enumerate_entries]; ro. Qed.

#[export] Hint Resolve ro_enumerate_entries : readonly.

Lemma ro_set_global smem : read_only (qcom_smem_set_global_partition smem).
Proof. unfold qcom_smem_set_global_partition. ro. Qed.

Lemma ro_item_count smem : read_only (qcom_smem_get_item_count smem).
Proof. unfold qcom_smem_get_item_count. ro. Qed.

Lemma ro_enumerate smem h : read_only (qcom_smem_enumerate_partitions smem h).
Proof. unfold qcom_smem_enumerate_partitions. ro. Qed.
#[export] Hint Resolve ro_set_global ro_item_count ro_enumerate : readonly.

Lemma ro_probe_partitions smem : read_only (probe_partitions smem).
Proof. unfold probe_partitions, qcom_smem_get_sbl_version. ro. Qed.
#[export] Hint Resolve ro_probe_partitions : readonly.

Lemma ro_probe env s : read_only (qcom_smem_probe env s).
Proof. unfold qcom_smem_probe. ro. Qed.

(** ** Failing allocations *)
Definition err_read_only (c : ST mem Z) : Prop :=
  forall m r m', c m = Ok (r, m') -> r <> 0 -> m' = m.

Definition returns_0 (c : ST mem Z) : Prop :=
  forall m r m', c m = Ok (r, m') -> r = 0.

Lemma returns_0_ret : returns_0 (st_ret 0).
Proof. intros m r m' H. by injection H. Qed.

Lemma returns_0_bind {A} (c : ST mem A) (k : A -> ST mem Z) :
  (forall a, returns_0 (k a)) -> returns_0 (st_bind c k).
Proof. intros Hk m r m' H. apply st_bind_inv in H as (a&m1&_&H). by eapply Hk. Qed.

Lemma err_ro_ro (c : ST mem Z) : read_only c -> err_read_only c.
Proof. intros H m r m' Hc _. by eapply H. Qed.

Lemma err_ro_0 (c : ST mem Z) : returns_0 c -> err_read_only c.
Proof. intros H m r m' Hc Hr. apply H in Hc. lia. Qed.

Lemma err_ro_bind {A} (c : ST mem A) (k : A -> ST mem Z) :
  read_only c -> (forall a, err_read_only (k a)) -> err_read_only (st_bind c k).
Proof.
  intros Hc Hk m r m' H Hr. apply st_bind_inv in H as (a&m1&H1&H2).
  apply Hc in H1. subst m1. by eapply Hk.
Qed.

Lemma err_ro_if (b : bool) c d :
  err_read_only c -> err_read_only d -> err_read_only (if b then c else d).
Proof. by destruct b. Qed.

(** Reads and tests up to the first store; from there on the result is 0. *)
Ltac err_ro :=
  repeat first
  [ solve [apply err_ro_ro; ro]
  | solve [apply err_ro_0; repeat (apply returns_0_bind; intros); apply returns_0_ret]
  | apply err_ro_if | apply err_ro_bind; [solve [ro]|intros] | case_match | progress intros ].

Lemma alloc_private_err smem entry item size :
  err_read_only (qcom_smem_alloc_private smem entry item size).
Proof.
  unfold qcom_smem_alloc_private, ptable_entry_to_phdr, phdr_to_last_uncached_entry,
    phdr_to_last_cached_entry. err_ro.
Qed.

Lemma alloc_global_err smem item size :
  err_read_only (qcom_smem_alloc_global smem item size).
Proof. unfold qcom_smem_alloc_global. err_ro. Qed.

(** An allocation request that returns an error has not changed a byte of the
    shared memory, whatever the memory holds; and only a request that passed every
    guard of [qcom_smem_alloc] (handle present, item not one of the boot loader's and
    below the item count, remote spinlock taken) can return success. *)
Theorem smem_alloc_guarded lock_ret s host item size m r m' :
  qcom_smem_alloc lock_ret s host item size m = Ok (r, m') ->
  (r <> 0 -> m' = m) /\
  (r = 0 -> exists smem, s = Some smem /\
     SMEM_ITEM_LAST_FIXED <= item < item_count smem /\ lock_ret = 0).
Proof.
  intros H. split.
  - revert m r m' H. change (err_read_only (qcom_smem_alloc lock_ret s host item size)).
    unfold qcom_smem_alloc. destruct s as [smem|]; [|err_ro].
    repeat apply err_ro_if; try (apply err_ro_ro, ro_ret).
    repeat case_match; auto using alloc_private_err, alloc_global_err.
  - intros ->. unfold qcom_smem_alloc in H. destruct s as [smem|]; [|done].
    exists smem. split; [done|]. repeat (case_if_in H; [unfold st_ret in H; simplify_eq; lia|]). lia.
Qed.

(** ** The global heap *)
Definition toc (m : mem) (item : Z) : Z := m_base m + sh_toc + sizeof_global_entry * item.
Definition g_allocated (m : mem) (item : Z) : Z := rd32 m (toc m item + ge_allocated).
Definition g_offset (m : mem) (item : Z) : Z := rd32 m (toc m item + ge_offset).
Definition g_size (m : mem) (item : Z) : Z := rd32 m (toc m item + ge_size).
Definition g_aux (m : mem) (item : Z) : Z := rd32 m (toc m item + ge_aux_base).
Definition g_free (m : mem) : Z := rd32 m (m_base m + sh_free_offset).
Definition g_avail (m : mem) : Z := rd32 m (m_base m + sh_available).

Definition g_valid (item : Z) : Prop := 0 <= item < SMEM_ITEM_COUNT.

(** Two items of the default region do not overlap. *)
Definition g_disjoint (m : mem) (i j : Z) : Prop :=
  g_offset m i + g_size m i <= g_offset m j \/ g_offset m j + g_size m j <= g_offset m i.

Record glob_wf (smem : qcom_smem) (m : mem) : Prop := {
  gw_region : exists a rs, regions smem = Region a (m_base m) (m_size m) :: rs;
  gw_low : 0 <= m_base m /\ m_base m + m_size m <= 2 ^ 64 - 1;
  gw_size : sh_toc + sizeof_global_entry * SMEM_ITEM_COUNT <= m_size m < 2 ^ 32;
  gw_avail : g_free m + g_avail m <= m_size m;
  gw_below : forall i, g_valid i -> g_allocated m i <> 0 -> g_offset m i + g_size m i <= g_free m;
  gw_disj : forall i j, g_valid i -> g_valid j -> i <> j ->
    g_allocated m i <> 0 -> g_allocated m j <> 0 -> g_disjoint m i j;
}.

Ltac glayout :=
  unfold g_allocated, g_offset, g_size, g_aux, g_free, g_avail, g_valid, toc,
    sh_toc, sh_free_offset, sh_available, sizeof_global_entry, SMEM_ITEM_COUNT,
    ge_allocated, ge_offset, ge_size, ge_aux_base in *.

Definition galloc_mem (m : mem) (item size : Z) : mem :=
  let m0 := m in
  let m := wr32 m (toc m0 item + ge_offset) (g_free m0) in
  let m := wr32 m (toc m0 item + ge_size) (round8 size) in
  let m := wr32 m (toc m0 item + ge_allocated) 1 in
  let m := wr32 m (m_base m0 + sh_free_offset) (g_free m0 + round8 size) in
  wr32 m (m_base m0 + sh_available) (g_avail m0 - round8 size).

Lemma region0_eq smem r rs : regions smem = r :: rs -> region0 smem = r.
Proof. unfold region0. by intros ->. Qed.

Lemma galloc_exec smem m item size :
  glob_wf smem m -> g_valid item -> 0 <= size <= 2 ^ 32 ->
  qcom_smem_alloc_global smem item size m =
    if negb (g_allocated m item =? 0) then Ok (- EEXIST, m) else
    if round8 size >? g_avail m then Ok (- ENOMEM, m) else
    Ok (0, galloc_mem m item size).
Proof.
  intros W Hitem Hsize. destruct (gw_region _ _ W) as (a&rs&Hr).
  pose proof (gw_size _ _ W). pose proof (gw_low _ _ W). pose proof (gw_avail _ _ W).
  pose proof (rd32_range m (m_base m + sh_free_offset)) as Rf.
  pose proof (rd32_range m (m_base m + sh_available)) as Ra. fold (g_free m) in Rf. fold (g_avail m) in Ra.
  unfold qcom_smem_alloc_global. rewrite (region0_eq _ _ _ Hr). cbn [virt_base].
  fold (toc m item).
  erewrite st_bind_ok by (apply load_ok; glayout; lia). fold (g_allocated m item).
  case_if; [done|]. assert (HA : ALIGN size 8 = round8 size) by (apply ALIGN_8; lia).
  pose proof (round8_bounds size ltac:(lia)). rewrite HA.
  erewrite st_bind_ok by (apply load_ok; glayout; lia). fold (g_avail m). case_if; [done|].
  do 5 (first [ erewrite st_bind_ok by (apply load_ok; mem_frame; glayout; lia)
              | erewrite st_bind_ok by (apply store_ok; mem_frame; glayout; lia) ]).
  fold (g_free m). rewrite !le_load_store_disj by (glayout; lia). fold (g_free m).
  do 3 (first [ erewrite st_bind_ok by (apply load_ok; mem_frame; glayout; lia)
              | erewrite st_bind_ok by (apply store_ok; mem_frame; glayout; lia) ]).
  rewrite !le_load_store_disj by (glayout; lia). fold (g_avail m).
  unfold galloc_mem, st_ret. rewrite (u32_id (g_free m + _)) by lia. do 3 f_equal.
  unfold u32. rewrite Zplus_mod_idemp_r. apply Z.mod_small. lia.
Qed.

Section galloc.
Context (smem : qcom_smem) (m : mem) (item size : Z).
Hypothesis (W : glob_wf smem m) (Hitem : g_valid item) (Hsize : 0 <= size <= 2 ^ 32).
Hypothesis (Hroom : round8 size <= g_avail m).
Let m' := galloc_mem m item size.

Lemma galloc_window : m_base m' = m_base m /\ m_size m' = m_size m.
Proof. subst m'. unfold galloc_mem. by mem_frame. Qed.

Lemma galloc_toc i : toc m' i = toc m i.
Proof. unfold toc. by rewrite (proj1 galloc_window). Qed.

Lemma galloc_item :
  g_allocated m' item = 1 /\ g_offset m' item = g_free m /\ g_size m' item = round8 size /\
  g_aux m' item = g_aux m item.
Proof.
  pose proof (gw_size _ _ W). pose proof (gw_low _ _ W). pose proof (gw_avail _ _ W).
  pose proof (round8_bounds size ltac:(lia)).
  pose proof (rd32_range m (m_base m + sh_free_offset)) as Rf. fold (g_free m) in Rf.
  unfold g_allocated at 1, g_offset at 1, g_size at 1, g_aux at 1. rewrite galloc_toc.
  subst m'. unfold galloc_mem.
  repeat split; repeat first [rewrite rd32_wr32 | rewrite le_load_store_disj by (glayout; lia)];
    rewrite ?u32_id by (glayout; lia); done.
Qed.

Lemma galloc_other i : g_valid i -> i <> item ->
  g_allocated m' i = g_allocated m i /\ g_offset m' i = g_offset m i /\
  g_size m' i = g_size m i /\ g_aux m' i = g_aux m i.
Proof.
  intros Hi Hne. pose proof (gw_size _ _ W). unfold g_allocated at 1, g_offset at 1, g_size at 1, g_aux at 1.
  rewrite galloc_toc. subst m'. unfold galloc_mem.
  repeat split; by rewrite !le_load_store_disj by (glayout; lia).
Qed.

Lemma galloc_free : g_free m' = g_free m + round8 size /\ g_avail m' = g_avail m - round8 size.
Proof.
  pose proof (gw_size _ _ W). pose proof (gw_avail _ _ W).
  pose proof (round8_bounds size ltac:(lia)).
  pose proof (rd32_range m (m_base m + sh_free_offset)) as Rf. fold (g_free m) in Rf.
  pose proof (rd32_range m (m_base m + sh_available)) as Ra. fold (g_avail m) in Ra.
  unfold g_free at 1, g_avail at 1. rewrite (proj1 galloc_window). subst m'. unfold galloc_mem.
  split; repeat first [rewrite rd32_wr32 | rewrite le_load_store_disj by (glayout; lia)];
    by rewrite ?u32_id by lia.
Qed.

Lemma galloc_wf : glob_wf smem m'.
Proof.
  destruct galloc_window as [Hb Hs]. destruct galloc_item as (Ha&Ho&Hz&_).
  destruct galloc_free as [Hf Hv]. pose proof (round8_bounds size ltac:(lia)).
  destruct W as [W1 W2 W3 W4 W5 W6].
  constructor; rewrite ?Hb, ?Hs, ?Hf, ?Hv; try done; try lia.
  - intros i Hi Hal. destruct (decide (i = item)) as [->|Hne]; [lia|].
    destruct (galloc_other i Hi Hne) as (Ea&->&->&_). rewrite Ea in Hal.
    specialize (W5 i Hi Hal). lia.
  - intros i j Hi Hj Hij Hai Haj. unfold g_disjoint.
    destruct (decide (i = item)) as [->|Hni], (decide (j = item)) as [->|Hnj]; [done|..].
    + destruct (galloc_other j Hj Hnj) as (Ea&->&->&_). rewrite Ea in Haj.
      specialize (W5 j Hj Haj). lia.
    + destruct (galloc_other i Hi Hni) as (Ea&->&->&_). rewrite Ea in Hai.
      specialize (W5 i Hi Hai). lia.
    + destruct (galloc_other i Hi Hni) as (Ea&->&->&_), (galloc_other j Hj Hnj) as (Eb&->&->&_).
      apply W6; congruence.
Qed.

Lemma gget_exec i want : g_valid i ->
  Z.land (g_aux m i) AUX_BASE_MASK = 0 ->
  qcom_smem_get_global smem i want m =
    Ok (if g_allocated m i =? 0 then (ErrPtr (- ENXIO), None)
        else if g_size m i + g_offset m i >? m_size m then (ErrPtr (- EINVAL), None)
        else (Ptr (m_base m + g_offset m i), if want then Some (g_size m i) else None), m).
Proof.
  intros Hi Hx. destruct (gw_region _ _ W) as (a&rs&Hr).
  pose proof (gw_size _ _ W). pose proof (gw_low _ _ W).
  unfold qcom_smem_get_global. rewrite (region0_eq _ _ _ Hr), Hr. cbn [virt_base].
  fold (toc m i). erewrite st_bind_ok by (apply load_ok; glayout; lia). fold (g_allocated m i).
  case_if; [done|]. erewrite st_bind_ok by (apply load_ok; glayout; lia). fold (g_aux m i).
  rewrite Hx. cbn [get_global_regions aux_base virt_base region_size].
  rewrite Z.eqb_refl, orb_true_r.
  erewrite st_bind_ok by (apply load_ok; glayout; lia). fold (g_size m i).
  erewrite st_bind_ok by (apply load_ok; glayout; lia). fold (g_offset m i).
  pose proof (rd32_range m (toc m i + ge_size)) as R1. fold (g_size m i) in R1.
  pose proof (rd32_range m (toc m i + ge_offset)) as R2. fold (g_offset m i) in R2.
  rewrite u64_id by lia. case_if; [done|]. by rewrite ptr_add_id by lia.
Qed.
End galloc.

(** On a well-formed global heap [qcom_smem_alloc_global] returns [-EEXIST] for
    an allocated item, [-ENOMEM] when the rounded size exceeds the available bytes,
    and otherwise places the item at the free offset; the heap stays well-formed (items
    inside the region and pairwise disjoint), the free offset and the available count
    move by the rounded size without wrapping, and no other item changes. *)
Theorem smem_global_alloc_correct smem m item size :
  glob_wf smem m -> g_valid item -> 0 <= size <= 2 ^ 32 ->
  exists r m', qcom_smem_alloc_global smem item size m = Ok (r, m') /\ glob_wf smem m' /\
    ((r = - EEXIST /\ g_allocated m item <> 0 /\ m' = m) \/
     (r = - ENOMEM /\ g_avail m < round8 size /\ m' = m) \/
     (r = 0 /\ g_allocated m item = 0 /\ g_allocated m' item = 1 /\
      g_offset m' item = g_free m /\ g_size m' item = round8 size /\
      g_free m' = g_free m + round8 size /\ g_avail m' = g_avail m - round8 size /\
      forall i, g_valid i -> i <> item ->
        g_allocated m' i = g_allocated m i /\ g_offset m' i = g_offset m i /\
        g_size m' i = g_size m i /\ g_aux m' i = g_aux m i)).
Proof.
  intros W Hi Hs. rewrite (galloc_exec smem) by done.
  case_if; [exists (- EEXIST), m; do 2 (split; [done|]); left; split_and!; [done|lia|done]|].
  case_if; [exists (- ENOMEM), m; do 2 (split; [done|]); right; left; split_and!; [done|lia|done]|].
  eexists 0, _. split; [done|]. split; [apply galloc_wf; first [done|lia]|].
  do 2 right. destruct (galloc_item smem m item size) as (?&?&?&_); [first [done|lia]..|].
  destruct (galloc_free smem m item size) as (?&?); [first [done|lia]..|].
  repeat split; try done; try lia; by destruct (galloc_other smem m item size W Hi i) as (?&?&?&?).
Qed.

(** An item allocated in the global heap is found again at the free offset it was
    placed at, with its size rounded up to 8 bytes, inside region 0. *)
Theorem smem_global_roundtrip smem m item size m' :
  glob_wf smem m -> g_valid item -> 0 <= size <= 2 ^ 32 ->
  Z.land (g_aux m item) AUX_BASE_MASK = 0 ->
  qcom_smem_alloc_global smem item size m = Ok (0, m') ->
  qcom_smem_get_global smem item true m' =
    Ok ((Ptr (m_base m + g_free m), Some (round8 size)), m') /\
  g_free m + round8 size <= m_size m.
Proof.
  intros W Hi Hs Hx Hal. rewrite (galloc_exec smem) in Hal by done.
  case_if_in Hal; [done|]. case_if_in Hal; [done|]. injection Hal as <-.
  pose proof (gw_avail _ _ W).
  destruct (galloc_item smem m item size) as (Ea&Eo&Ez&Ex); [first [done|lia]..|].
  pose proof (galloc_wf smem m item size W Hi Hs ltac:(lia)) as W'.
  rewrite (gget_exec smem _ W' item true Hi) by (by rewrite Ex).
  rewrite Ea, Eo, Ez, (proj1 (galloc_window m item size)), (proj2 (galloc_window m item size)).
  solve_ifs. split; [done|lia].
Qed.

(** ** Discovery of the partitions *)
Definition phdr_of (smem : qcom_smem) (m : mem) (entry : Z) : Z :=
  ptr_add (virt_base (region0 smem)) (rd32 m (entry + pe_offset)).

(** The header the table entry points to is the one the entry describes. *)
Definition valid_part (smem : qcom_smem) (m : mem) (entry h0 h1 : Z) : Prop :=
  let phdr := phdr_of smem m entry in
  bytes_at m phdr 4 = SMEM_PART_MAGIC /\
  rd16 m (phdr + ph_host0) = h0 /\ rd16 m (phdr + ph_host1) = h1 /\
  rd32 m (phdr + ph_size) = rd32 m (entry + pe_size) /\
  rd32 m (phdr + ph_offset_free_uncached) <= rd32 m (entry + pe_size).

(** Every host in the handle has a validated partition shared with [lh]. *)
Definition hosts_ok (smem : qcom_smem) (m : mem) (lh : Z) : Prop :=
  length (ptable_entries smem) = Z.to_nat SMEM_HOST_COUNT /\
  forall h entry, 0 <= h -> host_entry smem h = Some entry ->
    exists h0 h1, ((h0 = lh /\ h1 = h) \/ (h0 = h /\ h1 = lh)) /\
      rd16 m (entry + pe_host0) = h0 /\ rd16 m (entry + pe_host1) = h1 /\
      rd32 m (entry + pe_offset) <> 0 /\ rd32 m (entry + pe_size) <> 0 /\
      valid_part smem m entry h0 h1.

Definition global_ok (smem : qcom_smem) (m : mem) : Prop :=
  forall entry, global_partition_entry smem = Some entry ->
    valid_part smem m entry SMEM_GLOBAL_HOST SMEM_GLOBAL_HOST.

Lemma load_inv n a m v m' : load n a m = Ok (v, m') -> v = le_load m a n /\ m' = m.
Proof. unfold load. case_if; intros; by simplify_eq. Qed.

Lemma load_bytes_inv n a m v m' : load_bytes n a m = Ok (v, m') -> v = bytes_at m a n /\ m' = m.
Proof. unfold load_bytes. case_if; intros; by simplify_eq. Qed.

(** Inversion of a monadic run, one step. *)
Ltac st_inv H :=
  lazymatch type of H with
  | st_bind (load _ _) _ _ = Ok _ =>
      apply st_bind_inv in H as (?&?&[-> ->]%load_inv&H)
  | st_bind (load_bytes _ _) _ _ = Ok _ =>
      apply st_bind_inv in H as (?&?&[-> ->]%load_bytes_inv&H)
  | st_ret _ _ = Ok _ => unfold st_ret in H; simplify_eq
  | (if _ then _ else _) _ = Ok _ => case_if_in H
  end.

Lemma partition_header_valid smem entry h0 h1 m hdr m' :
  qcom_smem_partition_header smem entry h0 h1 m = Ok (Some hdr, m') ->
  valid_part smem m entry h0 h1.
Proof.
  unfold qcom_smem_partition_header, ptable_entry_to_phdr. intros H.
  apply st_bind_inv in H as (p&m1&H1&H). st_inv H1. st_inv H1.
  repeat st_inv H. unfold valid_part, phdr_of. split_and!; try lia.
  eapply bool_decide_eq_true_1. by apply negb_false_iff.
Qed.

Lemma host_entry_set smem rh e h :
  0 <= h -> 0 <= rh < SMEM_HOST_COUNT -> length (ptable_entries smem) = Z.to_nat SMEM_HOST_COUNT ->
  host_entry (set_host_entry smem rh e) h = if h =? rh then Some e else host_entry smem h.
Proof.
  intros Hh Hr Hlen. unfold host_entry, set_host_entry. cbn [ptable_entries].
  unfold SMEM_HOST_COUNT in *. destruct (h =? rh) eqn:E.
  - replace h with rh by lia. solve_ifs. rewrite list_lookup_insert_eq by lia. done.
  - case_if; [|done]. rewrite list_lookup_insert_ne by lia. done.
Qed.

Lemma enumerate_entries_ok n : forall smem ptable lh i m r smem' m',
  hosts_ok smem m lh ->
  enumerate_entries n smem ptable lh i m = Ok ((r, smem'), m') ->
  hosts_ok smem' m lh /\ regions smem' = regions smem /\ item_count smem' = item_count smem /\
  global_partition_entry smem' = global_partition_entry smem.
Proof.
  induction n as [|n IH]; intros smem ptable lh i m r smem' m' Hok H; cbn [enumerate_entries] in H.
  { st_inv H. done. }
  st_inv H. st_inv H; [by apply IH in H|]. st_inv H. st_inv H; [by apply IH in H|].
  st_inv H. st_inv H. st_inv H; [by apply IH in H|]. st_inv H; [by st_inv H|].
  set (entry := ptable + pt_entry + sizeof_ptable_entry * i) in *.
  pose proof (rd16_range m (entry + pe_host0)). pose proof (rd16_range m (entry + pe_host1)).
  destruct (host_entry smem _) eqn:Hfree; [by st_inv H|].
  apply st_bind_inv in H as (hd&m1&Hhd&H). pose proof (ro_partition_header _ _ _ _ _ _ _ Hhd) as ->.
  destruct hd as [hd|]; [|by st_inv H]. apply partition_header_valid in Hhd.
  apply IH in H; [done|]. destruct Hok as [Hlen Hok]. split; [cbn; by rewrite length_insert|].
  intros h e Hh. rewrite host_entry_set by (first [done|case_if; lia]).
  case_if; [|intros He; destruct (Hok h e Hh He) as (h0&h1&?); exists h0, h1; done].
  intros [= <-]. do 2 eexists. split; [|by split_and!; try lia].
  destruct (rd16 m (entry + pe_host0) =? lh) eqn:?; [left|right]; lia.
Qed.

Lemma enumerate_ok smem lh m r smem' m' :
  hosts_ok smem m lh ->
  qcom_smem_enumerate_partitions smem lh m = Ok ((r, smem'), m') ->
  hosts_ok smem' m lh /\ regions smem' = regions smem /\
  global_partition_entry smem' = global_partition_entry smem.
Proof.
  intros Hok H. unfold qcom_smem_enumerate_partitions in H.
  apply st_bind_inv in H as (pt&m1&Hpt&H). pose proof (ro_get_ptable _ _ _ _ Hpt) as ->.
  destruct pt as [e|ptable]; [by st_inv H|]. st_inv H.
  by apply enumerate_entries_ok in H as (?&?&_&?).
Qed.

Lemma set_global_ok smem m r smem' m' :
  global_partition_entry smem = None ->
  qcom_smem_set_global_partition smem m = Ok ((r, smem'), m') ->
  global_ok smem' m /\ regions smem' = regions smem /\
  ptable_entries smem' = ptable_entries smem.
Proof.
  intros Hnone H. unfold qcom_smem_set_global_partition in H. rewrite Hnone in H.
  assert (global_ok smem m) by (intros e He; congruence).
  apply st_bind_inv in H as (pt&m1&Hpt&H). pose proof (ro_get_ptable _ _ _ _ Hpt) as ->.
  destruct pt as [e|ptable]; [by st_inv H|]. st_inv H.
  apply st_bind_inv in H as (fe&m1&Hf&H). pose proof (ro_find_global _ _ _ _ _ _ Hf) as ->.
  destruct fe as [e|]; [|by st_inv H].
  apply st_bind_inv in H as (hd&m1&Hhd&H). pose proof (ro_partition_header _ _ _ _ _ _ _ Hhd) as ->.
  destruct hd as [hd|]; [|by st_inv H]. apply partition_header_valid in Hhd. st_inv H.
  split; [|done]. intros e' [= <-]. done.
Qed.

(** The handle the probe starts from has no partition at all. *)
Lemma hosts_ok_init m rs lh :
  hosts_ok (QcomSmem None (replicate (Z.to_nat SMEM_HOST_COUNT) None) 0 rs) m lh.
Proof.
  split; [done|]. intros h e Hh He. exfalso. unfold host_entry in He. case_if_in He; [|done].
  cbn [ptable_entries] in He. destruct (replicate _ None !! Z.to_nat h) as [x|] eqn:E; [|done].
  apply lookup_replicate in E as [-> _]. done.
Qed.

Lemma hosts_ok_ext smem smem' m lh :
  regions smem' = regions smem -> ptable_entries smem' = ptable_entries smem ->
  hosts_ok smem m lh -> hosts_ok smem' m lh.
Proof.
  intros Hr Hp. unfold hosts_ok, host_entry, valid_part, phdr_of, region0. by rewrite Hr, Hp.
Qed.

Lemma global_ok_ext smem smem' m :
  regions smem' = regions smem -> global_partition_entry smem' = global_partition_entry smem ->
  global_ok smem m -> global_ok smem' m.
Proof. intros Hr Hg. unfold global_ok, valid_part, phdr_of, region0. by rewrite Hr, Hg. Qed.

Lemma probe_partitions_ok smem m r smem' m' :
  global_partition_entry smem = None -> hosts_ok smem m SMEM_HOST_APPS ->
  probe_partitions smem m = Ok ((r, smem'), m') -> 0 <= r ->
  r = 0 /\ hosts_ok smem' m SMEM_HOST_APPS /\ global_ok smem' m.
Proof.
  intros Hnone Hok H Hr. unfold probe_partitions, qcom_smem_get_sbl_version in H. st_inv H.
  apply st_bind_inv in H as ([r1 s1]&m1&H1&H). cbn [fst snd] in H.
  assert (r1 < 0 \/ (hosts_ok s1 m SMEM_HOST_APPS /\ global_ok s1 m /\ m1 = m)) as Hs1.
  { cbv zeta in H1. st_inv H1; [|st_inv H1].
    - apply st_bind_inv in H1 as ([r2 s2]&m2&H2&H1). pose proof (ro_set_global _ _ _ _ H2) as ->.
      apply set_global_ok in H2 as (Hg&Hreg&Hpt); [|done]. cbn [fst snd] in H1.
      st_inv H1; [st_inv H1; lia|]. apply st_bind_inv in H1 as (k&m3&H3&H1).
      pose proof (ro_item_count _ _ _ _ H3) as ->. st_inv H1. right. split_and!; [|done..].
      by apply (hosts_ok_ext smem).
    - st_inv H1. right. split_and!; [done| |done]. intros e He. cbn in He. congruence.
    - st_inv H1. left. unfold EINVAL. lia. }
  st_inv H; [st_inv H; lia|]. destruct Hs1 as [?|(Hh&Hg&->)]; [lia|].
  apply st_bind_inv in H as ([r2 s2]&m2&H2&H). cbn [fst snd] in H.
  apply enumerate_ok in H2 as (Hh2&Hreg&Hgl); [|done].
  st_inv H; st_inv H; [lia|]. split_and!; [done|done|by apply (global_ok_ext s1)].
Qed.

(** The error numbers of the device-tree lookups are negative. *)
Definition env_ok (env : probe_env) : Prop :=
  (forall e, of_resource (pe_memory_region env) = inl e -> e < 0) /\
  (forall o e, pe_rpm_msg_ram env = Some o -> of_resource o = inl e -> e < 0).

Lemma map_regions_err env e : env_ok env -> map_regions env = inl e -> e < 0.
Proof.
  intros [H1 H2]. unfold map_regions, qcom_smem_map_memory, EINVAL, ENOMEM.
  repeat case_match; intros; simplify_eq; naive_solver lia.
Qed.

(** The probe only reads the shared memory; when it fails the global handle is
    what it was, and when it returns 0 the new handle refers only to partitions whose
    header was validated: magic, both host numbers, size equal to the table entry's and
    free offset inside the partition, at most one per remote host, the pair of hosts
    being the application processor and that host. *)
Theorem smem_probe_validates env s m r s' m' :
  env_ok env -> qcom_smem_probe env s m = Ok ((r, s'), m') ->
  m' = m /\ (r <> 0 -> s' = s) /\
  (r = 0 -> exists smem, s' = Some smem /\ hosts_ok smem m SMEM_HOST_APPS /\ global_ok smem m).
Proof.
  intros He H. split; [by apply ro_probe in H|]. unfold qcom_smem_probe in H.
  st_inv H; [by st_inv H|]. destruct (map_regions env) as [e|rs] eqn:Hm.
  { apply map_regions_err in Hm; [|done]. st_inv H. split; [done|lia]. }
  st_inv H. st_inv H; [by st_inv H|]. st_inv H. st_inv H; [by st_inv H|].
  apply st_bind_inv in H as ([r1 s1]&m1&H1&H). cbn [fst snd] in H.
  st_inv H; [st_inv H; split; [done|lia]|]. apply probe_partitions_ok in H1 as (->&?&?);
    [|done|apply hosts_ok_init|lia].
  st_inv H; [st_inv H; split; [done|lia]|]. st_inv H; [by st_inv H|]. st_inv H.
  split; [done|]. eauto.
Qed.

(** ** Requests near the top of the size type *)

(** The size check of [qcom_smem_alloc_private] is made after the rounded size
    was added to the header size and to the header address in 64-bit arithmetic: a
    request of 2^64 - 8 bytes for a new item passes it on every partition with 16 free
    bytes, reserves 8 bytes for a 16-byte header and records a data size of
    2^32 - 8. *)
Theorem smem_alloc_huge_size_accepted smem m entry phdr l item :
  part_wf smem m entry phdr l -> 0 <= item < 2 ^ 16 -> item ∉ (e_item m <$> l) ->
  16 <= free_cached m phdr - free_uncached m phdr ->
  exists m', qcom_smem_alloc_private smem entry item (2 ^ 64 - 8) m = Ok (0, m') /\
    free_uncached m' phdr = free_uncached m phdr + 8 /\
    e_size m' (phdr + free_uncached m phdr) = 2 ^ 32 - 8.
Proof.
  intros W Hitem Hnew Hroom. apply find_item_None in Hnew. pw_open W.
  pose proof (rd32_range m (phdr + ph_offset_free_uncached)).
  unfold qcom_smem_alloc_private.
  rewrite (st_bind_ok _ _ _ _ _ (phdr_ok W)), (st_bind_ok _ _ _ _ _ (psize_ok W)).
  rewrite (st_bind_ok _ _ _ _ _ (last_uncached_ok W)), (st_bind_ok _ _ _ _ _ (last_cached_ok W)).
  rewrite (p_end_eq W), (first_uncached W). solve_ifs.
  rewrite (st_bind_ok _ _ _ _ _ (walk_ok W item)), Hnew. solve_ifs.
  change (ALIGN (2 ^ 64 - 8) 8) with (2 ^ 64 - 8).
  change (u64 (sizeof_private_entry + (2 ^ 64 - 8))) with 8. rewrite ptr_add_id by (layout; lia).
  solve_ifs. repeat mem_step. eexists. split; [reflexivity|].
  unfold e_size. split; mem_simp; [|done].
  rewrite (u32_id (le_load _ _ _ + _)) by (layout; lia). by rewrite u32_id by (layout; lia).
Qed.

(** ** Witnesses: a concrete region *)
Module Demo.
(** One partition of 256 bytes at offset 64 with one cached item (number 77, 27
    bytes), its table entry at offset 384. *)
Definition base : Z := 0x10000.
Definition entry : Z := base + 0x180.
Definition phdr : Z := base + 0x40.
Definition m : mem := poke
  [ (entry + pe_offset, 4%nat, 0x40); (entry + pe_size, 4%nat, 256);
    (entry + pe_host1, 2%nat, 1); (entry + pe_cacheline, 4%nat, 32);
    (phdr, 4%nat, 0x54525024); (phdr + ph_host1, 2%nat, 1); (phdr + ph_size, 4%nat, 256);
    (phdr + ph_offset_free_uncached, 4%nat, 32); (phdr + ph_offset_free_cached, 4%nat, 192);
    (phdr + 224 + en_canary, 2%nat, SMEM_PRIVATE_CANARY); (phdr + 224 + en_item, 2%nat, 77);
    (phdr + 224 + en_size, 4%nat, 32); (phdr + 224 + en_padding_data, 2%nat, 5) ]
  (Mem base 0x200 ∅).
Definition smem : qcom_smem :=
  QcomSmem None (None :: Some entry :: replicate 12 None) 512 [Region 0x86000000 base 0x200].

Lemma wf : part_wf smem m entry phdr [].
Proof.
  constructor; try concrete.
  - replace (phdr + free_uncached m phdr) with (phdr + sizeof_partition_header) by concrete.
    constructor.
  - apply NoDup_nil_2.
  - constructor.
Qed.

Lemma cwf : cached_wf m entry phdr [phdr + 224].
Proof.
  constructor; try concrete.
  - replace (phdr + part_size m entry - cached_align m entry) with (phdr + 224) by concrete.
    constructor; [concrete..|].
    replace (phdr + 224 - e_size m (phdr + 224) - cached_align m entry)
      with (phdr + free_cached m phdr - cached_align m entry) by concrete.
    constructor.
  - constructor; [concrete|constructor].
Qed.

(** The same partition after two allocations. *)
Definition m1 : mem := alloc_mem m phdr (phdr + free_uncached m phdr) 10 20.
Definition m2 : mem := alloc_mem m1 phdr (phdr + free_uncached m1 phdr) 11 8.

Lemma wf2 : part_wf smem m2 entry phdr [phdr + free_uncached m phdr; phdr + free_uncached m1 phdr].
Proof.
  assert (W1 : part_wf smem m1 entry phdr [phdr + free_uncached m phdr]).
  { apply (alloc_wf wf 10 20); [lia|lia|done|concrete]. }
  apply (alloc_wf W1 11 8); [lia|lia|concrete|concrete].
Qed.

(** A global heap with no item yet. *)
Definition gm : mem := poke
  [ (base + sh_free_offset, 4%nat, 8400); (base + sh_available, 4%nat, 816) ] (Mem base 9216 ∅).
Definition gsmem : qcom_smem := QcomSmem None (replicate 14 None) 512 [Region 0x86000000 base 9216].

Lemma le_load_empty b z n : forall a, le_load (Mem b z ∅) a n = 0.
Proof. induction n as [|n IH]; intros a; [done|].
  change (le_load (Mem b z ∅) a (S n)) with (get_byte (Mem b z ∅) a + 256 * le_load (Mem b z ∅) (a + 1) n).
  by rewrite IH. Qed.

Lemma gwf : glob_wf gsmem gm.
Proof.
  assert (Hz : forall i, g_valid i -> g_allocated gm i = 0).
  { intros i Hi. unfold g_allocated. change (toc gm i) with (base + sh_toc + 16 * i).
    unfold gm, poke. cbn [foldl fst snd]. glayout.
    rewrite !le_load_store_disj by lia. apply le_load_empty. }
  constructor; try concrete.
  - by exists 0x86000000, [].
  - intros i Hi Ha. by rewrite Hz in Ha.
  - intros i j Hi Hj Hij Ha. by rewrite Hz in Ha.
Qed.

(** A region with a partition table of two entries, one of them the global
    partition. *)
Definition pt : Z := base + 4096.
Definition pm : mem := poke
  [ (base + sh_initialized, 4%nat, 1); (base + sh_version + 28, 4%nat, 0xc0000);
    (pt, 4%nat, 0x434f5424); (pt + pt_version, 4%nat, 1); (pt + pt_num_entries, 4%nat, 2);
    (pt + 32 + pe_offset, 4%nat, 512); (pt + 32 + pe_size, 4%nat, 256);
    (pt + 32 + pe_host0, 2%nat, 0xfffe); (pt + 32 + pe_host1, 2%nat, 0xfffe);
    (pt + 80 + pe_offset, 4%nat, 1024); (pt + 80 + pe_size, 4%nat, 256);
    (pt + 80 + pe_host1, 2%nat, 3);
    (base + 512, 4%nat, 0x54525024); (base + 512 + ph_host0, 2%nat, 0xfffe);
    (base + 512 + ph_host1, 2%nat, 0xfffe); (base + 512 + ph_size, 4%nat, 256);
    (base + 512 + ph_offset_free_uncached, 4%nat, 32);
    (base + 1024, 4%nat, 0x54525024); (base + 1024 + ph_host1, 2%nat, 3);
    (base + 1024 + ph_size, 4%nat, 256); (base + 1024 + ph_offset_free_uncached, 4%nat, 32) ]
  (Mem base 8192 ∅).
Definition env : probe_env :=
  ProbeEnv true (OfRegion true (inr (0x86000000, 8192)) (Some base)) None 3 true.
Definition psmem : qcom_smem :=
  QcomSmem (Some (pt + 32)) (<[3%nat := Some (pt + 80)]> (replicate 14 None)) 512
    [Region 0x86000000 base 8192].

Lemma probe_run : qcom_smem_probe env None pm = Ok ((0, Some psmem), pm).
Proof. vm_compute. reflexivity. Qed.
End Demo.

Lemma smem_alloc_private_refines_witness :
  heap_alloc (heap_view Demo.m Demo.phdr []) 10 20 =
    (0, {| h_items := [(10, (Demo.phdr + 48, 20))]; h_next := Demo.phdr + 72; h_free := 120 |}) /\
  exists r m' l',
    qcom_smem_alloc_private Demo.smem Demo.entry 10 20 Demo.m = Ok (r, m') /\
    part_wf Demo.smem m' Demo.entry Demo.phdr l' /\
    heap_alloc (heap_view Demo.m Demo.phdr []) 10 20 = (r, heap_view m' Demo.phdr l').
Proof.
  split; [vm_compute; reflexivity|].
  apply smem_alloc_private_refines; [exact Demo.wf|lia|lia].
Defined.

Lemma smem_get_private_correct_witness :
  qcom_smem_get_private Demo.smem Demo.entry 77 true Demo.m =
    Ok ((Ptr (Demo.phdr + 192), Some 27), Demo.m).
Proof.
  rewrite (smem_get_private_correct Demo.smem Demo.m Demo.entry Demo.phdr [] [Demo.phdr + 224]
             77 true Demo.wf Demo.cwf).
  vm_compute; reflexivity.
Defined.

Lemma smem_alloc_get_roundtrip_witness :
  exists m' p, qcom_smem_alloc_private Demo.smem Demo.entry 10 20 Demo.m = Ok (0, m') /\
    qcom_smem_get_private Demo.smem Demo.entry 10 true m' = Ok ((Ptr p, Some 20), m').
Proof.
  destruct (qcom_smem_alloc_private Demo.smem Demo.entry 10 20 Demo.m) as [[r m']| |] eqn:E;
    [|vm_compute in E; discriminate..].
  assert (r = 0) as -> by (vm_compute in E; congruence).
  destruct (smem_alloc_get_roundtrip Demo.smem Demo.m Demo.entry Demo.phdr [] [Demo.phdr + 224]
              10 20 m' Demo.wf Demo.cwf ltac:(lia) ltac:(lia) E) as [(p&Hp&_) _].
  exists m', p. exact (conj eq_refl Hp).
Defined.

Lemma smem_alloc_seq_refines_witness :
  exists rs m' l',
    alloc_seq Demo.smem Demo.entry [(10, 20); (11, 8); (10, 4); (12, 100)] Demo.m = Ok (rs, m') /\
    part_wf Demo.smem m' Demo.entry Demo.phdr l' /\
    heap_alloc_seq (heap_view Demo.m Demo.phdr []) [(10, 20); (11, 8); (10, 4); (12, 100)]
      = (rs, heap_view m' Demo.phdr l') /\ rs = [0; 0; - EEXIST; - ENOSPC].
Proof.
  destruct (smem_alloc_seq_refines Demo.smem Demo.entry Demo.phdr
              [(10, 20); (11, 8); (10, 4); (12, 100)] Demo.m [] Demo.wf) as (rs&m'&l'&E&W&V).
  { repeat constructor; cbn; lia. }
  exists rs, m', l'. split_and!; [done..|].
  transitivity (fst (heap_alloc_seq (heap_view Demo.m Demo.phdr [])
    [(10, 20); (11, 8); (10, 4); (12, 100)])); [by rewrite V|vm_compute; reflexivity].
Defined.

Lemma smem_alloc_huge_size_accepted_witness :
  exists m', qcom_smem_alloc_private Demo.smem Demo.entry 10 (2 ^ 64 - 8) Demo.m = Ok (0, m') /\
    free_uncached m' Demo.phdr = 40 /\ e_size m' (Demo.phdr + 32) = 2 ^ 32 - 8.
Proof.
  apply (smem_alloc_huge_size_accepted Demo.smem Demo.m Demo.entry Demo.phdr [] 10 Demo.wf);
    [lia|apply not_elem_of_nil|vm_compute; congruence].
Defined.

Lemma smem_items_disjoint_witness :
  (Demo.phdr + 48 + 20 <= Demo.phdr + 88 \/ Demo.phdr + 88 + 8 <= Demo.phdr + 48) /\
  Demo.phdr + sizeof_partition_header <= Demo.phdr + 48 /\
  Demo.phdr + 48 + 20 <= Demo.phdr + free_uncached Demo.m2 Demo.phdr.
Proof.
  apply (smem_items_disjoint Demo.smem Demo.m2 Demo.entry Demo.phdr _ 0 1
           (10, (Demo.phdr + 48, 20)) (11, (Demo.phdr + 88, 8)) Demo.wf2);
    [lia|vm_compute; reflexivity|vm_compute; reflexivity].
Defined.

Lemma smem_alloc_guarded_witness :
  exists m', qcom_smem_alloc 0 (Some Demo.smem) 1 10 20 Demo.m = Ok (0, m') /\
    exists smem, Some Demo.smem = Some smem /\
    SMEM_ITEM_LAST_FIXED <= 10 < item_count smem /\ 0 = 0.
Proof.
  destruct (qcom_smem_alloc 0 (Some Demo.smem) 1 10 20 Demo.m) as [[r m']| |] eqn:E;
    [|vm_compute in E; discriminate..].
  assert (r = 0) as -> by (vm_compute in E; congruence).
  exists m'. split; [reflexivity|]. exact (proj2 (smem_alloc_guarded _ _ _ _ _ _ _ _ E) eq_refl).
Defined.

Lemma smem_global_alloc_correct_witness :
  exists r m', qcom_smem_alloc_global Demo.gsmem 20 30 Demo.gm = Ok (r, m') /\
    glob_wf Demo.gsmem m' /\ r = 0 /\ g_size m' 20 = 32.
Proof.
  destruct (smem_global_alloc_correct Demo.gsmem Demo.gm 20 30 Demo.gwf) as (r&m'&E&W&H);
    [split; vm_compute; congruence|lia|].
  exists r, m'. split_and!; [done|done|..]; vm_compute in E; injection E as <- <-; vm_compute; reflexivity.
Defined.

Lemma smem_global_roundtrip_witness :
  exists m', qcom_smem_alloc_global Demo.gsmem 20 30 Demo.gm = Ok (0, m') /\
    qcom_smem_get_global Demo.gsmem 20 true m' = Ok ((Ptr (Demo.base + 8400), Some 32), m').
Proof.
  destruct (qcom_smem_alloc_global Demo.gsmem 20 30 Demo.gm) as [[r m']| |] eqn:E;
    [|vm_compute in E; discriminate..].
  assert (r = 0) as -> by (vm_compute in E; congruence).
  exists m'. split; [done|].
  apply (smem_global_roundtrip Demo.gsmem Demo.gm 20 30 m' Demo.gwf);
    [split; vm_compute; congruence|lia|vm_compute; reflexivity|exact E].
Defined.

Lemma smem_probe_validates_witness :
  exists smem, Some Demo.psmem = Some smem /\ hosts_ok smem Demo.pm SMEM_HOST_APPS /\
    global_ok smem Demo.pm.
Proof.
  apply (smem_probe_validates Demo.env None Demo.pm 0 (Some Demo.psmem) Demo.pm);
    [split; intros; discriminate|exact Demo.probe_run|reflexivity].
Defined.
