(* ===== verification/SmemService.v ===== *)
(** * What the shared memory manager promises to its clients

    A client of smem.c allocates an item by number, asks for its address and then reads
    and writes the bytes of it.  The class [SmemLaws] says what it may rely on, in terms of
    the items the memory holds; the global heap and a partition are its two instances. *)
From S2P Require Import Prelude CMem Smem SmemHeap SmemApi.

(** [-1] as an unsigned host number. *)
Definition QCOM_SMEM_HOST_ANY : Z := 2 ^ 32 - 1.

(** The items of a memory: number, address and size. *)
Abbreviation items := (gmap Z (Z * Z)).

Class SmemService (smem : qcom_smem) := {
  holds : mem -> items -> Prop;
  missing : Z;    (* what a lookup of an absent item returns *)
}.

Class SmemLaws (smem : qcom_smem) {SV : SmemService smem} : Prop := {
  (** Items lie in the window, above the null pointer, and apart from each other. *)
  sv_window m I : holds m I -> 0 <= m_base m /\ m_base m + m_size m < 2 ^ 64;
  sv_inside m I i p sz : holds m I -> I !! i = Some (p, sz) ->
    m_base m <= p /\ 0 < p /\ 0 <= sz < 2 ^ 32 /\ p + sz <= m_base m + m_size m;
  sv_apart m I i j p sz q sz' : holds m I -> i <> j ->
    I !! i = Some (p, sz) -> I !! j = Some (q, sz') -> p + sz <= q \/ q + sz' <= p;
  (** An allocation adds one item that is large enough, or changes nothing. *)
  sv_alloc m I item size : holds m I ->
    SMEM_ITEM_LAST_FIXED <= item < item_count smem -> 0 < size <= 2 ^ 32 ->
    exists r m', qcom_smem_alloc 0 (Some smem) QCOM_SMEM_HOST_ANY item size m = Ok (r, m') /\
      ((r = - EEXIST /\ is_Some (I !! item) /\ m' = m) \/
       (r < 0 /\ r <> - EEXIST /\ I !! item = None /\ m' = m) \/
       (r = 0 /\ I !! item = None /\ m_base m' = m_base m /\ m_size m' = m_size m /\
        (exists p sz, size <= sz /\ holds m' (<[item := (p, sz)]> I)) /\
        forall i q sz, I !! i = Some (q, sz) -> agree_on m m' q (q + sz)));
  (** A lookup finds exactly the items. *)
  sv_get m I item : holds m I -> 0 <= item < item_count smem ->
    qcom_smem_get 0 (Some smem) QCOM_SMEM_HOST_ANY item false m =
      Ok (match I !! item with
          | Some (p, _) => (Ptr p, None)
          | None => (ErrPtr missing, None)
          end, m);
  sv_get_size m I item : holds m I -> 0 <= item < item_count smem ->
    qcom_smem_get 0 (Some smem) QCOM_SMEM_HOST_ANY item true m =
      Ok (match I !! item with
          | Some (p, sz) => if sz <=? 0 then (ErrPtr (- EINVAL), None) else (Ptr p, Some sz)
          | None => (ErrPtr missing, None)
          end, m);
  (** A client writes the bytes of an item. *)
  sv_write m I i p sz a v : holds m I -> I !! i = Some (p, sz) ->
    p <= a -> a + 4 <= p + sz -> holds (wr32 m a v) I;
}.

(** The public calls reach the global partition, or the global heap. *)
Lemma alloc_any smem item size m :
  SMEM_ITEM_LAST_FIXED <= item < item_count smem ->
  qcom_smem_alloc 0 (Some smem) QCOM_SMEM_HOST_ANY item size m =
    match global_partition_entry smem with
    | Some entry => qcom_smem_alloc_private smem entry item size m
    | None => qcom_smem_alloc_global smem item size m
    end.
Proof.
  intros H. unfold qcom_smem_alloc, host_entry. solve_ifs.
  change (QCOM_SMEM_HOST_ANY <? SMEM_HOST_COUNT) with false. cbn [negb].
  by destruct (global_partition_entry smem).
Qed.

Lemma get_any smem item want m : item < item_count smem ->
  qcom_smem_get 0 (Some smem) QCOM_SMEM_HOST_ANY item want m =
    match global_partition_entry smem with
    | Some entry => qcom_smem_get_private smem entry item want m
    | None => qcom_smem_get_global smem item want m
    end.
Proof.
  intros H. unfold qcom_smem_get, host_entry. solve_ifs.
  change (QCOM_SMEM_HOST_ANY <? SMEM_HOST_COUNT) with false. cbn [negb].
  by destruct (global_partition_entry smem).
Qed.

(** ** The global heap *)

(** The end of the header and the table of contents. *)
Definition g_data : Z := sh_toc + sizeof_global_entry * SMEM_ITEM_COUNT.

Definition g_item (m : mem) (i : Z) : option (Z * Z) :=
  if (0 <=? i) && (i <? SMEM_ITEM_COUNT) && negb (g_allocated m i =? 0)
  then Some (m_base m + g_offset m i, g_size m i) else None.

(** A heap without auxiliary regions whose items start behind the table; a lookup of a
    size 0 is an answer of the heap that a client cannot use, so there are none. *)
Record glob_holds (smem : qcom_smem) (m : mem) (I : items) : Prop := {
  gh_wf : glob_wf smem m;
  gh_free : g_data <= g_free m;
  gh_data i : g_valid i -> g_allocated m i <> 0 -> g_data <= g_offset m i /\ 0 < g_size m i;
  gh_aux i : g_valid i -> Z.land (g_aux m i) AUX_BASE_MASK = 0;
  gh_items i : I !! i = g_item m i;
}.

Lemma g_item_Some m i p sz : g_item m i = Some (p, sz) ->
  g_valid i /\ g_allocated m i <> 0 /\ p = m_base m + g_offset m i /\ sz = g_size m i.
Proof. unfold g_item, g_valid. case_if; intros; simplify_eq. lia. Qed.

Lemma g_item_in m i : g_valid i ->
  g_item m i = if g_allocated m i =? 0 then None else Some (m_base m + g_offset m i, g_size m i).
Proof. unfold g_valid, g_item. intros. by destruct (g_allocated m i =? 0); solve_ifs. Qed.

(** An allocation in the heap writes the header and the table only. *)
Lemma galloc_bytes smem m item size c : glob_wf smem m -> g_valid item -> m_base m + g_data <= c ->
  get_byte (galloc_mem m item size) c = get_byte m c.
Proof.
  intros W Hv Hc. unfold galloc_mem, g_data in *. cbv zeta. unfold toc, g_valid in *.
  unfold sh_toc, sh_free_offset, sh_available, sizeof_global_entry, SMEM_ITEM_COUNT,
    ge_allocated, ge_offset, ge_size in *.
  do 5 (rewrite get_byte_store by lia). reflexivity.
Qed.

Section glob.
Context (smem : qcom_smem) (m : mem) (I : items).
Hypothesis (G : glob_holds smem m I).

Lemma glob_inside i p sz : I !! i = Some (p, sz) ->
  m_base m + g_data <= p /\ 0 < sz < 2 ^ 32 /\ p + sz <= m_base m + g_free m /\
  p + sz <= m_base m + m_size m.
Proof.
  rewrite (gh_items _ _ _ G). intros (Hv&Ha&->&->)%g_item_Some.
  pose proof (gh_wf _ _ _ G) as W. pose proof (gw_below _ _ W i Hv Ha). pose proof (gw_avail _ _ W).
  destruct (gh_data _ _ _ G i Hv Ha). pose proof (rd32_range m (toc m i + ge_size)) as R.
  pose proof (rd32_range m (m_base m + sh_available)) as R'.
  fold (g_size m i) in R. fold (g_avail m) in R'. lia.
Qed.

Lemma glob_apart i j p sz q sz' : i <> j ->
  I !! i = Some (p, sz) -> I !! j = Some (q, sz') -> p + sz <= q \/ q + sz' <= p.
Proof.
  intros Hij. rewrite !(gh_items _ _ _ G).
  intros (Hv&Ha&->&->)%g_item_Some (Hv'&Ha'&->&->)%g_item_Some.
  pose proof (gw_disj _ _ (gh_wf _ _ _ G) i j Hv Hv' Hij Ha Ha') as Hd. unfold g_disjoint in Hd. lia.
Qed.

Lemma glob_get item want : g_valid item ->
  qcom_smem_get_global smem item want m =
    Ok (match I !! item with
        | Some (p, sz) => (Ptr p, if want then Some sz else None)
        | None => (ErrPtr (- ENXIO), None)
        end, m).
Proof.
  intros Hv. pose proof (gh_wf _ _ _ G) as W.
  rewrite (gget_exec smem m W item want Hv (gh_aux _ _ _ G item Hv)).
  rewrite (gh_items _ _ _ G), (g_item_in m item Hv).
  destruct (g_allocated m item =? 0) eqn:E; [done|].
  pose proof (gw_below _ _ W item Hv ltac:(lia)). pose proof (gw_avail _ _ W).
  pose proof (rd32_range m (m_base m + sh_available)) as R'. fold (g_avail m) in R'.
  by solve_ifs.
Qed.

(** Bytes behind the table are no field of it. *)
Lemma glob_write a v : m_base m + g_data <= a -> glob_holds smem (wr32 m a v) I.
Proof.
  intros Ha.
  assert (E : forall b k, b + Z.of_nat k <= a -> le_load (wr32 m a v) b k = le_load m b k)
    by (intros; apply le_load_store_disj; lia).
  assert (Eb : m_base (wr32 m a v) = m_base m) by (by mem_frame).
  assert (Es : m_size (wr32 m a v) = m_size m) by (by mem_frame).
  assert (Ei : forall i, g_valid i -> g_allocated (wr32 m a v) i = g_allocated m i /\
            g_offset (wr32 m a v) i = g_offset m i /\ g_size (wr32 m a v) i = g_size m i /\
            g_aux (wr32 m a v) i = g_aux m i).
  { intros i Hi. unfold g_data in Ha. glayout. rewrite Eb. repeat split; apply E; lia. }
  assert (Ef : g_free (wr32 m a v) = g_free m /\ g_avail (wr32 m a v) = g_avail m).
  { unfold g_data in Ha. glayout. rewrite Eb. split; apply E; lia. }
  destruct Ef as [Ef Ev]. destruct G as [W Hf Hd Hx HI].
  constructor; rewrite ?Ef; [|done|..].
  - destruct W as [W1 W2 W3 W4 W5 W6]. constructor; rewrite ?Eb, ?Es, ?Ef, ?Ev; try done.
    + intros i Hi. destruct (Ei i Hi) as (->&->&->&_). auto.
    + intros i j Hi Hj Hij. unfold g_disjoint.
      destruct (Ei i Hi) as (->&->&->&_), (Ei j Hj) as (->&->&->&_). by apply W6.
  - intros i Hi. destruct (Ei i Hi) as (->&->&->&_). auto.
  - intros i Hi. destruct (Ei i Hi) as (_&_&_&->). auto.
  - intros i. rewrite HI. destruct (decide (g_valid i)) as [Hi|Hi].
    + rewrite !(g_item_in _ _ Hi), Eb. by destruct (Ei i Hi) as (->&->&->&_).
    + unfold g_item, g_valid in *. by solve_ifs.
Qed.

Lemma glob_alloc item size : g_valid item -> 0 < size <= 2 ^ 32 ->
  exists r m', qcom_smem_alloc_global smem item size m = Ok (r, m') /\
    ((r = - EEXIST /\ is_Some (I !! item) /\ m' = m) \/
     (r < 0 /\ r <> - EEXIST /\ I !! item = None /\ m' = m) \/
     (r = 0 /\ I !! item = None /\ m_base m' = m_base m /\ m_size m' = m_size m /\
      (exists p sz, size <= sz /\ glob_holds smem m' (<[item := (p, sz)]> I)) /\
      forall i q sz, I !! i = Some (q, sz) -> agree_on m m' q (q + sz))).
Proof.
  intros Hv Hs. pose proof (gh_wf _ _ _ G) as W.
  rewrite (galloc_exec smem m item size W Hv ltac:(lia)), (gh_items _ _ _ G), (g_item_in m item Hv).
  destruct (g_allocated m item =? 0) eqn:E; cbn [negb].
  2: { exists (- EEXIST), m. split; [done|]. left. split_and!; [done|by eexists|done]. }
  case_if; [exists (- ENOMEM), m; split; [done|]; right; left; done|].
  exists 0, (galloc_mem m item size). split; [done|]. right. right.
  pose proof (galloc_window m item size) as [Hb Hz].
  do 2 (split; [done|]). split; [exact Hb|]. split; [exact Hz|].
  pose proof (round8_bounds size ltac:(lia)).
  destruct (galloc_item smem m item size W Hv ltac:(lia) ltac:(lia)) as (Ea&Eo&Ez&Ex).
  destruct (galloc_free smem m item size W ltac:(lia) ltac:(lia)) as [Ef _].
  pose proof (gh_free _ _ _ G).
  split.
  - exists (m_base m + g_free m), (round8 size). split; [lia|].
    constructor; rewrite ?Ef; [by apply galloc_wf; [done..|lia|lia]|lia|..].
    + intros i Hi Hai. destruct (decide (i = item)) as [->|Hne]; [lia|].
      destruct (galloc_other smem m item size W Hv i Hi Hne) as (Ea'&->&->&_).
      apply (gh_data _ _ _ G); [done|congruence].
    + intros i Hi. destruct (decide (i = item)) as [->|Hne]; [rewrite Ex; by apply G|].
      destruct (galloc_other smem m item size W Hv i Hi Hne) as (_&_&_&->). by apply G.
    + intros i. destruct (decide (i = item)) as [->|Hne].
      { rewrite lookup_insert_eq, (g_item_in _ _ Hv), Ea, Hb, Eo, Ez. done. }
      rewrite lookup_insert_ne, (gh_items _ _ _ G) by done. destruct (decide (g_valid i)) as [Hi|Hi].
      * rewrite !(g_item_in _ _ Hi), Hb.
        by destruct (galloc_other smem m item size W Hv i Hi Hne) as (->&->&->&_).
      * unfold g_item, g_valid in *. by solve_ifs.
  - intros i q sz Hi c Hc. destruct (glob_inside _ _ _ Hi) as (?&_).
    symmetry. apply (galloc_bytes smem); [exact W|exact Hv|lia].
Qed.
End glob.

(** ** A partition *)

(** The global partition of [entry] with its uncached items, and nothing cached. *)
Record part_holds (smem : qcom_smem) (m : mem) (I : items) (entry phdr : Z) (l : list Z) : Prop := {
  pt_wf : part_wf smem m entry phdr l;
  pt_cached : cached_wf m entry phdr [];
  pt_items i : I !! i = (fun e => (item_view m e).2) <$> find_item m i l;
}.

Lemma uchain_fields m m' a b l :
  (forall e, e ∈ l -> agree_on m m' e (e + 16)) -> uchain m a b l -> uchain m' a b l.
Proof.
  intros Hag H. induction H as [a|a b l Hc H IH]; [constructor|].
  pose proof (Hag a ltac:(by left)) as Ha.
  destruct (agree_fields _ _ _ _ a Ha) as (Hcan&_); [lia|lia|].
  constructor; [by rewrite Hcan|]. rewrite (agree_next _ _ _ _ a Ha) by lia.
  apply IH. intros e He. apply Hag. by right.
Qed.

Lemma cchain_nil_mem m m' al e b : cchain m al e b [] -> cchain m' al e b [].
Proof. inversion 1. constructor. Qed.

(** Headers that are left alone keep the items. *)
Lemma headers_items m m' l : (forall e, e ∈ l -> agree_on m m' e (e + 16)) ->
  (e_item m' <$> l = e_item m <$> l) /\
  (forall i, (fun e => (item_view m' e).2) <$> find_item m' i l
             = (fun e => (item_view m e).2) <$> find_item m i l) /\
  (Forall (fun e => e_pdata m e <= e_size m e) l -> Forall (fun e => e_pdata m' e <= e_size m' e) l).
Proof.
  induction l as [|x l IH]; intros Hag; [done|].
  destruct (agree_fields _ _ _ _ x (Hag x ltac:(by left))) as (_&Hi&Hs&Hd&Hp); [lia|lia|].
  destruct IH as (I1&I2&I3); [intros e He; apply Hag; by right|].
  split_and!.
  - cbn [fmap list_fmap]. by rewrite Hi, I1.
  - intros i. rewrite !find_item_cons, Hi. case_if; [|apply I2].
    cbn [fmap option_fmap option_map]. unfold item_view. cbn [snd]. by rewrite Hs, Hd, Hp.
  - rewrite !Forall_cons, Hs, Hd. intuition.
Qed.

Section part.
Context {smem : qcom_smem} {m : mem} {I : items} {entry phdr : Z} {l : list Z}.
Hypothesis (P : part_holds smem m I entry phdr l).

Lemma part_item i p sz : I !! i = Some (p, sz) -> exists e, e ∈ l /\ e_item m e = i /\
  p = e + (sizeof_private_entry + e_phdr m e) /\ sz = e_size m e - e_pdata m e /\
  phdr + sizeof_partition_header <= e /\ e_next m e <= phdr + free_uncached m phdr /\
  e_pdata m e <= e_size m e.
Proof.
  rewrite (pt_items _ _ _ _ _ _ P). intros (e&Hf&[= -> ->])%fmap_Some.
  apply find_item_Some in Hf as [He Hi]. exists e.
  destruct (uchain_elem _ _ _ _ _ (pw_chain _ _ _ _ _ (pt_wf _ _ _ _ _ _ P)) He) as (?&?&_).
  pose proof (pw_pad _ _ _ _ _ (pt_wf _ _ _ _ _ _ P)) as Hpad. rewrite Forall_forall in Hpad.
  split_and!; auto.
Qed.

Lemma part_inside i p sz : I !! i = Some (p, sz) ->
  phdr + sizeof_partition_header + 16 <= p /\ 0 <= sz < 2 ^ 32 /\
  p + sz <= phdr + free_uncached m phdr /\ p + sz <= m_base m + m_size m.
Proof.
  intros (e&He&_&->&->&Hlo&Hhi&Hp)%part_item. pose proof (e_fields_range m e).
  pose proof (pt_wf _ _ _ _ _ _ P) as W. pw_open W. unfold e_next in Hhi. layout. lia.
Qed.

(** Two headers of the list are ordered, with the data of the first between them. *)
Lemma part_order e f : e ∈ l -> f ∈ l -> e <> f -> e_next m e <= f \/ e_next m f <= e.
Proof.
  intros [i Hi]%list_elem_of_lookup [j Hj]%list_elem_of_lookup Hne.
  pose proof (pw_chain _ _ _ _ _ (pt_wf _ _ _ _ _ _ P)) as Hch.
  destruct (Nat.lt_trichotomy i j) as [?|[->|?]]; [left|congruence|right];
    by eapply uchain_order.
Qed.

Lemma part_apart i j p sz q sz' : i <> j ->
  I !! i = Some (p, sz) -> I !! j = Some (q, sz') -> p + sz <= q \/ q + sz' <= p.
Proof.
  intros Hij (e&He&Ei&->&->&_&_&Hp)%part_item (f&Hf&Ej&->&->&_&_&Hp')%part_item.
  pose proof (e_fields_range m e). pose proof (e_fields_range m f).
  destruct (part_order e f He Hf ltac:(congruence)) as [Ho|Ho]; unfold e_next in Ho; layout; lia.
Qed.

Lemma part_get item want :
  qcom_smem_get_private smem entry item want m = Ok (get_spec (I !! item) want, m).
Proof.
  rewrite (get_private_exec (pt_wf _ _ _ _ _ _ P) (pt_cached _ _ _ _ _ _ P)), (pt_items _ _ _ _ _ _ P).
  unfold part_items. by rewrite app_nil_r, (assoc_views item_view).
Qed.

(** A write to the data of an item touches no header of the list, neither the header of the
    partition nor its entry in the table. *)
Lemma part_write_frame i p sz a v : I !! i = Some (p, sz) -> p <= a -> a + 4 <= p + sz ->
  (forall f, f ∈ l -> agree_on m (wr32 m a v) f (f + 16)) /\
  (forall o k, 0 <= o -> o + Z.of_nat k <= sizeof_partition_header ->
     le_load (wr32 m a v) (phdr + o) k = le_load m (phdr + o) k) /\
  (forall o k, 0 <= o -> o + Z.of_nat k <= sizeof_ptable_entry ->
     le_load (wr32 m a v) (entry + o) k = le_load m (entry + o) k).
Proof.
  intros (e&He&_&->&->&Hlo&Hhi&Hp)%part_item Ha Hz.
  pose proof (e_fields_range m e). pose proof (pt_wf _ _ _ _ _ _ P) as W. pw_open W.
  unfold e_next in Hhi. layout. split_and!.
  - intros f Hf c Hc. symmetry. apply get_byte_store. destruct (decide (e = f)) as [<-|Hne]; [lia|].
    pose proof (e_fields_range m f).
    destruct (part_order e f He Hf Hne) as [Ho|Ho]; unfold e_next in Ho; layout; lia.
  - intros. apply le_load_store_disj. lia.
  - intros. apply le_load_store_disj. lia.
Qed.

Lemma part_write i p sz a v : I !! i = Some (p, sz) -> p <= a -> a + 4 <= p + sz ->
  part_holds smem (wr32 m a v) I entry phdr l.
Proof.
  intros Hi Ha Hz. destruct (part_write_frame _ _ _ a v Hi Ha Hz) as (Hag&Hhd&Hent).
  destruct (headers_items _ _ _ Hag) as (E1&E2&E3).
  assert (Hps : part_size (wr32 m a v) entry = part_size m entry) by (by apply Hent).
  assert (Hal : cached_align (wr32 m a v) entry = cached_align m entry)
    by (unfold cached_align; by rewrite (Hent pe_cacheline 4%nat)).
  assert (Hfu : free_uncached (wr32 m a v) phdr = free_uncached m phdr) by (by apply Hhd).
  assert (Hfc : free_cached (wr32 m a v) phdr = free_cached m phdr) by (by apply Hhd).
  destruct P as [W C HI]. constructor.
  - destruct W as [W1 W2 W3 W4 W5 W6 W7 W8 W9 W10 W11 Hch Hnd Hpad].
    constructor; mem_frame; rewrite ?Hfu, ?Hfc, ?Hps; try done.
    + by rewrite (Hent pe_offset 4%nat).
    + by rewrite (Hhd ph_size 4%nat).
    + by apply (uchain_fields m).
    + by rewrite E1.
    + by apply E3.
  - destruct C as [C1 C2 C3 C4]. constructor; rewrite ?Hal, ?Hfc, ?Hps; try done.
    by apply (cchain_nil_mem m).
  - intros j. by rewrite HI, E2.
Qed.

Lemma part_alloc item size : 0 <= item < 2 ^ 16 -> 0 < size <= 2 ^ 32 ->
  exists r m', qcom_smem_alloc_private smem entry item size m = Ok (r, m') /\
    ((r = - EEXIST /\ is_Some (I !! item) /\ m' = m) \/
     (r < 0 /\ r <> - EEXIST /\ I !! item = None /\ m' = m) \/
     (r = 0 /\ I !! item = None /\ m_base m' = m_base m /\ m_size m' = m_size m /\
      (exists p sz l', size <= sz /\ part_holds smem m' (<[item := (p, sz)]> I) entry phdr l') /\
      forall i q sz, I !! i = Some (q, sz) -> agree_on m m' q (q + sz))).
Proof.
  intros Hv Hs. pose proof (pt_wf _ _ _ _ _ _ P) as W. pose proof (pt_cached _ _ _ _ _ _ P) as C.
  rewrite (alloc_private_exec W item size ltac:(lia)), (pt_items _ _ _ _ _ _ P).
  destruct (find_item m item l) as [e|] eqn:Hf; cbn [fmap option_fmap option_map].
  { exists (- EEXIST), m. split; [done|]. left. split_and!; [done|by eexists|done]. }
  case_if; [exists (- ENOSPC), m; split; [done|]; right; left; done|].
  set (hdr := phdr + free_uncached m phdr).
  exists 0, (alloc_mem m phdr hdr item size). split; [done|]. right. right.
  destruct (alloc_mem_window m phdr hdr item size) as [Hb Hz].
  do 2 (split; [done|]). split; [exact Hb|]. split; [exact Hz|]. split.
  - exists (hdr + sizeof_private_entry), size, (l ++ [hdr]). split; [lia|].
    constructor.
    + exact (alloc_wf W item size Hv ltac:(lia) Hf ltac:(lia)).
    + exact (proj1 (alloc_cached_wf W C item size ltac:(lia) ltac:(lia))).
    + intros i. pose proof (alloc_part_items W C item size Hv ltac:(lia) ltac:(lia)) as HI.
      fold hdr in HI. unfold part_items in HI. cbn [fmap list_fmap] in HI. rewrite !app_nil_r in HI.
      rewrite <-(assoc_views item_view) by done. rewrite HI, assoc_app, (assoc_views item_view) by done.
      destruct (decide (i = item)) as [->|Hne].
      * rewrite lookup_insert_eq, Hf. cbn [fmap option_fmap option_map]. unfold assoc.
        by rewrite filter_cons_True.
      * rewrite lookup_insert_ne, (pt_items _ _ _ _ _ _ P) by done.
        destruct (find_item m i l); [done|]. unfold assoc. by rewrite filter_cons_False by (cbn; congruence).
  - intros i q sz Hi c Hc. destruct (part_inside _ _ _ Hi) as (?&?&?&_).
    apply alloc_mem_frame; subst hdr; layout; lia.
Qed.
End part.

(** ** The manager keeps the promise *)
#[export] Instance smem_service (smem : qcom_smem) : SmemService smem := {
  holds m I :=
    match global_partition_entry smem with
    | None => glob_holds smem m I /\ item_count smem <= SMEM_ITEM_COUNT
    | Some entry => (exists phdr l, part_holds smem m I entry phdr l) /\ item_count smem <= 2 ^ 16
    end;
  missing :=
    match global_partition_entry smem with None => - ENXIO | Some _ => - ENOENT end;
}.

#[export] Instance smem_laws (smem : qcom_smem) : SmemLaws smem.
Proof.
  constructor; unfold holds, missing, smem_service; intros m I;
    destruct (global_partition_entry smem) as [entry|] eqn:Hg.
  - intros [(phdr&l&P) _]. pose proof (pt_wf _ _ _ _ _ _ P) as W. pw_open W. lia.
  - intros [G _]. pose proof (gw_low _ _ (gh_wf _ _ _ G)). lia.
  - intros i p sz [(phdr&l&P) _] Hi. destruct (part_inside P _ _ _ Hi) as (?&?&?&?).
    pose proof (pt_wf _ _ _ _ _ _ P) as W. pw_open W. layout. lia.
  - intros i p sz [G _] Hi. destruct (glob_inside _ _ _ G _ _ _ Hi) as (?&?&?&?).
    pose proof (gw_low _ _ (gh_wf _ _ _ G)). unfold g_data in *. glayout. lia.
  - intros i j p sz q sz' [(phdr&l&P) _]. by apply (part_apart P).
  - intros i j p sz q sz' [G _]. by apply (glob_apart _ _ _ G).
  - intros item size [(phdr&l&P) Hc] Hi Hs. rewrite alloc_any, Hg by done.
    unfold SMEM_ITEM_LAST_FIXED in Hi.
    destruct (part_alloc P item size ltac:(lia) Hs) as (r&m'&E&Hr). exists r, m'. split; [exact E|].
    destruct Hr as [Hr|[Hr|(?&?&?&?&(p&sz&l'&?&?)&?)]]; [by left|by right; left|right; right].
    split_and!; try done. exists p, sz. eauto.
  - intros item size [G Hc] Hi Hs. rewrite alloc_any, Hg by done.
    unfold SMEM_ITEM_LAST_FIXED in Hi.
    destruct (glob_alloc _ _ _ G item size ltac:(unfold g_valid; lia) Hs) as (r&m'&E&Hr).
    exists r, m'. split; [exact E|].
    destruct Hr as [Hr|[Hr|(?&?&?&?&(p&sz&?&?)&?)]]; [by left|by right; left|right; right].
    split_and!; try done. exists p, sz. eauto.
  - intros item [(phdr&l&P) Hc] Hi. rewrite get_any, Hg, (part_get P) by lia.
    by destruct (I !! item) as [[]|].
  - intros item [G Hc] Hi. rewrite get_any, Hg by lia.
    rewrite (glob_get _ _ _ G) by (unfold g_valid; lia). by destruct (I !! item) as [[]|].
  - intros item [(phdr&l&P) Hc] Hi. rewrite get_any, Hg, (part_get P) by lia.
    by destruct (I !! item) as [[]|].
  - intros item [G Hc] Hi. rewrite get_any, Hg by lia.
    rewrite (glob_get _ _ _ G) by (unfold g_valid; lia).
    destruct (I !! item) as [[p sz]|] eqn:E; [|done].
    destruct (glob_inside _ _ _ G _ _ _ E) as (_&?&_). by solve_ifs.
  - intros i p sz a v [(phdr&l&P) Hc] Hi Ha Hz. split; [|done].
    exists phdr, l. by apply (part_write P i p sz).
  - intros i p sz a v [G Hc] Hi Ha Hz. split; [|done].
    destruct (glob_inside _ _ _ G _ _ _ Hi) as (?&?&_). apply glob_write; [done|lia].
Qed.
