(* ===== verification/CmdDb.v ===== *)
(** * The command database (drivers/soc/qcom/cmd-db.c)

    A read-only table in memory that maps the name of a shared resource to its
    address and auxiliary data.  The handle is the address of the mapped header,
    NULL ([None]) until the probe succeeded. *)
From S2P Require Import Prelude CMem.
Open Scope c_scope.

(** ** Layout *)
Definition MAX_SLV_ID : Z := 8.
Definition SLAVE_ID_MASK : Z := 0x7.
Definition SLAVE_ID_SHIFT : Z := 16.
Definition CMD_DB_STANDALONE_MASK : Z := BIT 0.
Definition CMD_DB_MAGIC : list Z := [0xdb; 0x30; 0x03; 0x0c].
Definition CMD_DB_HW_INVALID : Z := 0.

(** struct entry_header *)
Definition eh_id : Z := 0.
Definition eh_addr : Z := 16.
Definition eh_len : Z := 20.
Definition eh_offset : Z := 22.
Definition sizeof_entry_header : Z := 24.

(** struct rsc_hdr *)
Definition rh_slv_id : Z := 0.
Definition rh_header_offset : Z := 2.
Definition rh_data_offset : Z := 4.
Definition rh_cnt : Z := 6.
Definition sizeof_rsc_hdr : Z := 16.

(** struct cmd_db_header *)
Definition db_magic : Z := 4.
Definition db_header : Z := 8.
Definition db_reserved : Z := 140.
Definition db_data : Z := 144.

(** [&cmd_db_header->header[i]] *)
Definition rsc_hdr_at (db i : Z) : Z := db + db_header + sizeof_rsc_hdr * i.

(** ** Operations *)
Definition cmd_db_magic_matches (header : Z) : ST mem bool :=
  let! magic := load_bytes 4 (header + db_magic) in
  st_ret (bool_decide (magic = CMD_DB_MAGIC)).

Definition rsc_to_entry_header (db hdr : Z) : ST mem Z :=
  let! offset := load16 (hdr + rh_header_offset) in
  st_ret (db + db_data + offset).

Definition rsc_offset (db hdr ent : Z) : ST mem Z :=
  let! offset := load16 (hdr + rh_data_offset) in
  let! loffset := load16 (ent + eh_offset) in
  st_ret (db + db_data + offset + loffset).

Definition cmd_db_ready (cmd_db_header : option Z) : ST mem Z :=
  match cmd_db_header with
  | None => st_ret (- EPROBE_DEFER)
  | Some db =>
    let! ok := cmd_db_magic_matches db in
    if negb ok then st_ret (- EINVAL) else st_ret 0
  end.

(** [strncpy(query, id, 8)]: the first 8 characters, padded with zeros. *)
Definition strncpy8 (id : list Z) : list Z := take 8 (id ++ replicate 8 0).

(** The inner loop over [n] entry headers from [ent]. *)
Fixpoint find_entry (n : nat) (ent : Z) (query : list Z) : ST mem (option Z) :=
  match n with
  | O => st_ret None
  | S n =>
    let! id := load_bytes 8 (ent + eh_id) in
    if bool_decide (id = query) then st_ret (Some ent)
    else find_entry n (ent + sizeof_entry_header) query
  end.

(** The outer loop over the resource headers from index [i]; [n] are left. *)
Fixpoint find_slave (n : nat) (db i : Z) (query : list Z) : ST mem (option (Z * Z)) :=
  match n with
  | O => st_ret None
  | S n =>
    let hdr := rsc_hdr_at db i in
    let! slv_id := load16 (hdr + rh_slv_id) in
    if slv_id =? 0 then st_ret None else
    let! ent := rsc_to_entry_header db hdr in
    let! cnt := load16 (hdr + rh_cnt) in
    let! found := find_entry (Z.to_nat cnt) ent query in
    match found with
    | Some ent => st_ret (Some (ent, hdr))
    | None => find_slave n db (i + 1) query
    end
  end.

(** [inl err], or the entry header and the resource header found.  [id] is the
    string without its terminating zero. *)
Definition cmd_db_get_header (cmd_db_header : option Z) (id : list Z) : ST mem (Z + Z * Z) :=
  let! ret := cmd_db_ready cmd_db_header in
  if negb (ret =? 0) then st_ret (inl ret) else
  match cmd_db_header with
  | None => st_ret (inl (- EPROBE_DEFER))
  | Some db =>
    let! found := find_slave (Z.to_nat MAX_SLV_ID) db 0 (strncpy8 id) in
    match found with
    | Some r => st_ret (inr r)
    | None => st_ret (inl (- ENODEV))
    end
  end.

Definition cmd_db_read_addr (cmd_db_header : option Z) (id : list Z) : ST mem Z :=
  let! r := cmd_db_get_header cmd_db_header id in
  match r with
  | inl _ => st_ret 0
  | inr (ent, _) => load32 (ent + eh_addr)
  end.

(** [inl err], or the address of the data and its length. *)
Definition cmd_db_read_aux_data (cmd_db_header : option Z) (id : list Z) : ST mem (Z + Z * Z) :=
  let! r := cmd_db_get_header cmd_db_header id in
  match r, cmd_db_header with
  | inr (ent, hdr), Some db =>
    let! len := load16 (ent + eh_len) in
    let! p := rsc_offset db hdr ent in
    st_ret (inr (p, len))
  | inr _, None => fun _ => Fault
  | inl ret, _ => st_ret (inl ret)
  end.

Definition slave_id_of_addr (addr : Z) : Z := Z.land (Z.shiftr addr SLAVE_ID_SHIFT) SLAVE_ID_MASK.

Definition cmd_db_read_slave_id (cmd_db_header : option Z) (id : list Z) : ST mem Z :=
  let! r := cmd_db_get_header cmd_db_header id in
  match r with
  | inl _ => st_ret CMD_DB_HW_INVALID
  | inr (ent, _) =>
    let! addr := load32 (ent + eh_addr) in
    st_ret (slave_id_of_addr addr)
  end.

(** The [reserved] word is read whatever [cmd_db_ready] returned. *)
Definition cmd_db_is_standalone (cmd_db_header : option Z) : ST mem bool :=
  let! ret := cmd_db_ready cmd_db_header in
  match cmd_db_header with
  | None => fun _ => Fault
  | Some db =>
    let! reserved := load32 (db + db_reserved) in
    let standalone := Z.land reserved CMD_DB_STANDALONE_MASK in
    st_ret ((ret =? 0) && negb (standalone =? 0))
  end.

(** ** The debugfs listing *)

(** The loop of [cmd_db_start]: the slave index and the entry index in it. *)
Fixpoint start_loop (n : nat) (db slv_idx pos total : Z) : ST mem (option (Z * Z)) :=
  match n with
  | O => st_ret None
  | S n =>
    let! cnt := load16 (rsc_hdr_at db slv_idx + rh_cnt) in
    if cnt =? 0 then start_loop n db (slv_idx + 1) pos total else
    let ent_idx := s32 (pos - total) in
    if ent_idx <? cnt then st_ret (Some (slv_idx, ent_idx))
    else start_loop n db (slv_idx + 1) pos (total + cnt)
  end.

Definition cmd_db_start (db pos : Z) : ST mem (option Z) :=
  let! r := start_loop (Z.to_nat MAX_SLV_ID) db 0 pos 0 in
  match r with
  | None => st_ret None
  | Some (slv_idx, ent_idx) =>
    let! off := load16 (rsc_hdr_at db slv_idx + rh_header_offset) in
    st_ret (Some (db + db_data + off + sizeof_entry_header * ent_idx))
  end.

(** Returns the entry and the new position. *)
Definition cmd_db_next (db pos : Z) : ST mem (option Z * Z) :=
  let! v := cmd_db_start db (pos + 1) in
  st_ret (v, pos + 1).

(** What [cmd_db_seq_show] prints. *)
Inductive show_out :=
| OutHeader (addr : Z) (id : list Z)
| OutAux (bytes : list Z)
| OutNewline.

(** Index of the first resource header with the slave id. *)
Fixpoint find_slv_id (n : nat) (db k slv_id : Z) : ST mem (option Z) :=
  match n with
  | O => st_ret None
  | S n =>
    let! id := load16 (rsc_hdr_at db k + rh_slv_id) in
    if id =? slv_id then st_ret (Some k) else find_slv_id n db (k + 1) slv_id
  end.

Definition cmd_db_seq_show (db : Z) (v : option Z) : ST mem (Z * list show_out) :=
  match v with
  | None => st_ret (0, [])
  | Some eh =>
    let! id := load_bytes 8 (eh + eh_id) in
    let! addr := load32 (eh + eh_addr) in
    let! len := load16 (eh + eh_len) in
    let! offset := load16 (eh + eh_offset) in
    if len =? 0 then st_ret (0, [OutHeader addr id; OutNewline]) else
    let! k := find_slv_id (Z.to_nat MAX_SLV_ID) db 0 (slave_id_of_addr addr) in
    match k with
    | None => st_ret (- EINVAL, [OutHeader addr id])
    | Some k =>
      let! doff := load16 (rsc_hdr_at db k + rh_data_offset) in
      let! aux := load_bytes (Z.to_nat (Z.min len 32)) (db + db_data + doff + offset) in
      st_ret (0, [OutHeader addr id; OutAux aux; OutNewline])
    end
  end.

(** ** Probe

    [rmem] is whether the reserved memory was found and [map] what [memremap]
    returned; the result is the return value and the new [cmd_db_header]. *)
Definition cmd_db_dev_probe (rmem : bool) (map : option Z) (cmd_db_header : option Z)
    : ST mem (Z * option Z) :=
  if negb rmem then st_ret (- EINVAL, cmd_db_header) else
  match map with
  | None => st_ret (- ENOMEM, None)
  | Some db =>
    let! ok := cmd_db_magic_matches db in
    if negb ok then st_ret (- EINVAL, Some db) else
    let! _ := cmd_db_is_standalone (Some db) in
    st_ret (0, Some db)
  end.

(** ** The table as a list *)
Definition slv_id (m : mem) (db i : Z) : Z := rd16 m (rsc_hdr_at db i + rh_slv_id).
Definition slv_cnt (m : mem) (db i : Z) : nat := Z.to_nat (rd16 m (rsc_hdr_at db i + rh_cnt)).
Definition slv_first (m : mem) (db i : Z) : Z :=
  db + db_data + rd16 m (rsc_hdr_at db i + rh_header_offset).

(** Entry headers from [ent], with the resource header they belong to. *)
Fixpoint entries_from (n : nat) (ent hdr : Z) : list (Z * Z) :=
  match n with
  | O => []
  | S n => (ent, hdr) :: entries_from n (ent + sizeof_entry_header) hdr
  end.

Definition slave_entries (m : mem) (db i : Z) : list (Z * Z) :=
  entries_from (slv_cnt m db i) (slv_first m db i) (rsc_hdr_at db i).

(** The entries a lookup sees: it stops at the first unused slave. *)
Fixpoint lookup_entries (n : nat) (m : mem) (db i : Z) : list (Z * Z) :=
  match n with
  | O => []
  | S n => if slv_id m db i =? 0 then []
           else slave_entries m db i ++ lookup_entries n m db (i + 1)
  end.

(** The entries the debugfs listing sees. *)
Fixpoint listed_entries (n : nat) (m : mem) (db i : Z) : list (Z * Z) :=
  match n with
  | O => []
  | S n => slave_entries m db i ++ listed_entries n m db (i + 1)
  end.

(** The header and every entry header lie in the mapped window. *)
Record db_wf (m : mem) (db : Z) : Prop := {
  dw_lo : m_base m <= db;
  dw_hi : db + db_data <= m_base m + m_size m;
  dw_magic : bytes_at m (db + db_magic) 4 = CMD_DB_MAGIC;
  dw_entries : forall i, 0 <= i < MAX_SLV_ID ->
    slv_first m db i + sizeof_entry_header * Z.of_nat (slv_cnt m db i) <= m_base m + m_size m;
}.

Ltac db_layout :=
  unfold rsc_hdr_at, db_magic, db_header, db_reserved, db_data, sizeof_rsc_hdr, rh_slv_id,
    rh_header_offset, rh_data_offset, rh_cnt, eh_id, eh_addr, eh_len, eh_offset,
    sizeof_entry_header, MAX_SLV_ID in *.
Ltac mem_layout ::= db_layout.

Definition matches (m : mem) (query : list Z) (e : Z * Z) : Prop :=
  bytes_at m (e.1 + eh_id) 8 = query.

#[export] Instance matches_dec m query e : Decision (matches m query e).
Proof. unfold matches. apply _. Defined.

Definition first_match (m : mem) (query : list Z) (l : list (Z * Z)) : option (Z * Z) :=
  head (filter (matches m query) l).

Lemma first_match_app m q l k :
  first_match m q (l ++ k) =
    match first_match m q l with Some e => Some e | None => first_match m q k end.
Proof. unfold first_match. rewrite filter_app. by destruct (filter _ l). Qed.

Lemma find_entry_spec m q hdr : forall n ent,
  m_base m <= ent -> ent + sizeof_entry_header * Z.of_nat n <= m_base m + m_size m ->
  find_entry n ent q m = Ok (fst <$> first_match m q (entries_from n ent hdr), m).
Proof.
  induction n as [|n IH]; intros ent Hlo Hhi; cbn [find_entry entries_from]; [done|].
  mem_step. unfold first_match. rewrite filter_cons.
  case_bool_decide as Hq.
  - by rewrite decide_True by done.
  - rewrite decide_False by done. apply IH; db_layout; lia.
Qed.

Lemma first_match_hdr m q n hdr : forall ent e,
  first_match m q (entries_from n ent hdr) = Some e -> e.2 = hdr.
Proof.
  induction n as [|n IH]; intros ent e; [done|]. unfold first_match. cbn [entries_from].
  rewrite filter_cons. case_decide; [by intros [= <-]|apply IH].
Qed.

Lemma slv_first_ge m db i : db + db_data <= slv_first m db i.
Proof. pose proof (rd16_range m (rsc_hdr_at db i + rh_header_offset)). unfold slv_first. lia. Qed.

Lemma find_slave_spec m db q : db_wf m db -> forall n i,
  0 <= i -> i + Z.of_nat n <= MAX_SLV_ID ->
  find_slave n db i q m = Ok (first_match m q (lookup_entries n m db i), m).
Proof.
  intros W. pose proof (dw_lo _ _ W). pose proof (dw_hi _ _ W).
  induction n as [|n IH]; intros i Hi Hn; cbn [find_slave lookup_entries]; [done|].
  mem_step. fold (slv_id m db i). case_if; [done|].
  unfold rsc_to_entry_header. erewrite st_bind_ok by (mem_step; reflexivity).
  fold (slv_first m db i). mem_step. fold (slv_cnt m db i).
  pose proof (slv_first_ge m db i). pose proof (dw_entries _ _ W i ltac:(lia)).
  erewrite st_bind_ok by (apply (find_entry_spec m q (rsc_hdr_at db i)); db_layout; lia).
  rewrite first_match_app. fold (slave_entries m db i).
  destruct (first_match m q (slave_entries m db i)) as [[e h]|] eqn:Hf; cbn [fmap option_fmap option_map].
  - apply first_match_hdr in Hf. cbn in Hf. by subst h.
  - apply IH; lia.
Qed.

Lemma length_entries_from n ent hdr : length (entries_from n ent hdr) = n.
Proof. revert ent. induction n as [|n IH]; intros ent; cbn; [done|]. by rewrite IH. Qed.

Lemma lookup_entries_from hdr k : forall n ent, (k < n)%nat ->
  entries_from n ent hdr !! k = Some (ent + sizeof_entry_header * Z.of_nat k, hdr).
Proof.
  induction k as [|k IH]; intros [|n] ent Hk; [lia| |lia|]; cbn [entries_from lookup list_lookup].
  - do 2 f_equal. lia.
  - etransitivity; [apply (IH n); lia|]. do 2 f_equal. lia.
Qed.

Lemma start_loop_spec m db pos : db_wf m db -> forall n i total,
  0 <= i -> i + Z.of_nat n <= MAX_SLV_ID -> 0 <= total <= pos -> pos < 2 ^ 31 ->
  exists r, start_loop n db i pos total m = Ok (r, m) /\
    match r with
    | None => listed_entries n m db i !! Z.to_nat (pos - total) = None
    | Some (s, e) => 0 <= s < MAX_SLV_ID /\
        listed_entries n m db i !! Z.to_nat (pos - total) =
          Some (slv_first m db s + sizeof_entry_header * e, rsc_hdr_at db s)
    end.
Proof.
  intros W. pose proof (dw_lo _ _ W). pose proof (dw_hi _ _ W).
  induction n as [|n IH]; intros i total Hi Hn Ht Hp; cbn [start_loop listed_entries].
  { by exists None. }
  mem_step. pose proof (rd16_range m (rsc_hdr_at db i + rh_cnt)) as Hc.
  assert (Hlen : length (slave_entries m db i) = slv_cnt m db i) by apply length_entries_from.
  unfold slv_cnt in Hlen. case_if.
  - destruct (IH (i + 1) total ltac:(lia) ltac:(lia) Ht Hp) as (r&E&Hr). exists r. split; [done|].
    rewrite (nil_length_inv (slave_entries m db i)) by lia. done.
  - rewrite s32_id by lia. case_if.
    + eexists. split; [reflexivity|]. split; [lia|]. rewrite lookup_app_l by lia.
      unfold slave_entries. rewrite lookup_entries_from by (unfold slv_cnt; lia).
      do 2 f_equal. rewrite Z2Nat.id by lia. done.
    + destruct (IH (i + 1) (total + rd16 m (rsc_hdr_at db i + rh_cnt))) as (r&E&Hr);
        [lia..|]. exists r. split; [done|].
      rewrite lookup_app_r by lia. rewrite Hlen.
      replace (Z.to_nat (pos - total) - Z.to_nat (rd16 m (rsc_hdr_at db i + rh_cnt)))%nat
        with (Z.to_nat (pos - (total + rd16 m (rsc_hdr_at db i + rh_cnt)))) by lia.
      done.
Qed.

Lemma cmd_db_start_spec m db pos :
  db_wf m db -> 0 <= pos < 2 ^ 31 ->
  cmd_db_start db pos m = Ok (fst <$> listed_entries 8 m db 0 !! Z.to_nat pos, m).
Proof.
  intros W Hp. pose proof (dw_lo _ _ W). pose proof (dw_hi _ _ W).
  destruct (start_loop_spec m db pos W 8 0 0) as (r&E&Hr); [lia|done|lia|lia|].
  unfold cmd_db_start. change (Z.to_nat MAX_SLV_ID) with 8%nat.
  rewrite (st_bind_ok _ _ _ _ _ E). rewrite Z.sub_0_r in Hr.
  destruct r as [[s e]|]; [|by rewrite Hr]. destruct Hr as [Hs ->]. mem_step. done.
Qed.

Lemma cmd_db_ready_ok m db : db_wf m db -> cmd_db_ready (Some db) m = Ok (0, m).
Proof.
  intros W. pose proof (dw_lo _ _ W). pose proof (dw_hi _ _ W).
  unfold cmd_db_ready, cmd_db_magic_matches. erewrite st_bind_ok by (mem_step; reflexivity).
  by rewrite (dw_magic _ _ W), bool_decide_eq_true_2.
Qed.

Lemma get_header_spec m db id : db_wf m db ->
  cmd_db_get_header (Some db) id m =
    Ok (match first_match m (strncpy8 id) (lookup_entries 8 m db 0) with
        | Some r => inr r | None => inl (- ENODEV) end, m).
Proof.
  intros W. unfold cmd_db_get_header. rewrite (st_bind_ok _ _ _ _ _ (cmd_db_ready_ok m db W)).
  cbn [negb Z.eqb]. change (Z.to_nat MAX_SLV_ID) with 8%nat.
  erewrite st_bind_ok by (apply find_slave_spec; [done|lia|done]). by case_match.
Qed.

Lemma entries_from_in n hdr e : forall ent,
  e ∈ entries_from n ent hdr -> ent <= e.1 /\ e.1 + 24 <= ent + 24 * Z.of_nat n.
Proof.
  induction n as [|n IH]; intros ent He; cbn [entries_from] in He; [by apply not_elem_of_nil in He|].
  apply elem_of_cons in He as [->|He]; [cbn; lia|]. apply IH in He. unfold sizeof_entry_header in He. lia.
Qed.

Lemma lookup_entries_in m db e : db_wf m db -> forall n i,
  0 <= i -> i + Z.of_nat n <= MAX_SLV_ID -> e ∈ lookup_entries n m db i ->
  db + db_data <= e.1 /\ e.1 + sizeof_entry_header <= m_base m + m_size m.
Proof.
  intros W. induction n as [|n IH]; intros i Hi Hn He; cbn [lookup_entries] in He;
    [by apply not_elem_of_nil in He|].
  case_if_in He; [by apply not_elem_of_nil in He|].
  apply elem_of_app in He as [He|He]; [|apply (IH (i + 1)); [lia..|done]].
  apply entries_from_in in He. pose proof (slv_first_ge m db i).
  pose proof (dw_entries _ _ W i ltac:(lia)). unfold sizeof_entry_header in *. lia.
Qed.

Lemma first_match_in m q l e : first_match m q l = Some e -> e ∈ l /\ matches m q e.
Proof.
  unfold first_match. intros H.
  destruct (filter (matches m q) l) as [|x k] eqn:E; [done|]. injection H as ->.
  assert (e ∈ filter (matches m q) l) as He by (rewrite E; constructor).
  apply list_elem_of_filter in He as [? ?]. done.
Qed.

(** *** Theorems *)

(** On a mapped, well-formed database [cmd_db_get_header] returns the first entry
    header, in table order up to the first unused slave, whose 8-byte id equals the name
    cut or padded to 8 bytes, together with its resource header, and [-ENODEV] exactly
    when there is none; no access leaves the mapping. *)
Theorem cmd_db_get_header_correct m db id :
  db_wf m db ->
  cmd_db_get_header (Some db) id m =
    Ok (match first_match m (strncpy8 id) (lookup_entries 8 m db 0) with
        | Some r => inr r | None => inl (- ENODEV) end, m).
Proof. apply get_header_spec. Qed.

(** The address and the slave id a driver reads for a resource come from the same
    entry: when the name is in the database, [cmd_db_read_addr] returns the address word
    of the entry and [cmd_db_read_slave_id] its bits 16 to 18, a value below 8; when it
    is not, both return 0. *)
Theorem cmd_db_read_consistent m db id :
  db_wf m db ->
  match first_match m (strncpy8 id) (lookup_entries 8 m db 0) with
  | Some (ent, _) =>
      let addr := rd32 m (ent + eh_addr) in
      cmd_db_read_addr (Some db) id m = Ok (addr, m) /\
      cmd_db_read_slave_id (Some db) id m = Ok ((addr / 2 ^ 16) mod 8, m)
  | None =>
      cmd_db_read_addr (Some db) id m = Ok (0, m) /\
      cmd_db_read_slave_id (Some db) id m = Ok (CMD_DB_HW_INVALID, m)
  end.
Proof.
  intros W. pose proof (dw_lo _ _ W). unfold cmd_db_read_addr, cmd_db_read_slave_id.
  rewrite !(st_bind_ok _ _ _ _ _ (get_header_spec m db id W)).
  destruct (first_match _ _ _) as [[ent hdr]|] eqn:Hf; [|done].
  apply first_match_in in Hf as [Hin _].
  apply (lookup_entries_in m db (ent, hdr) W) in Hin; [|lia|done]. cbn [fst] in Hin.
  cbv zeta. split; [apply load_ok; db_layout; lia|]. mem_step. unfold st_ret, slave_id_of_addr.
  do 2 f_equal. unfold SLAVE_ID_MASK, SLAVE_ID_SHIFT. change 7 with (Z.ones 3).
  rewrite Z.land_ones by lia. by rewrite Z.shiftr_div_pow2 by lia.
Qed.

(** The debugfs iterator visits every entry of the eight slaves exactly once and in
    table order: position [pos] yields the [pos]-th entry of the concatenated slaves,
    [cmd_db_next] advances by one, and the walk ends (NULL) exactly at the number of
    entries. *)
Theorem cmd_db_iterates_all m db pos :
  db_wf m db -> 0 <= pos < 2 ^ 31 - 1 ->
  cmd_db_start db pos m = Ok (fst <$> listed_entries 8 m db 0 !! Z.to_nat pos, m) /\
  cmd_db_next db pos m =
    Ok ((fst <$> listed_entries 8 m db 0 !! S (Z.to_nat pos), pos + 1), m).
Proof.
  intros W Hp. split; [by apply cmd_db_start_spec; [|lia]|].
  unfold cmd_db_next. erewrite st_bind_ok by (apply cmd_db_start_spec; [done|lia]).
  unfold st_ret. by replace (Z.to_nat (pos + 1)) with (S (Z.to_nat pos)) by lia.
Qed.

(** [cmd_db_is_standalone] reads the header word even when the database is not
    ready: before the probe, with the handle still NULL, the call faults instead of
    returning false. *)
Theorem cmd_db_is_standalone_null m : cmd_db_is_standalone None m = Fault.
Proof. reflexivity. Qed.

(** ** Witnesses *)
Module Demo.
(** Slaves 4 and 5 with two and one entries. *)
Definition db : Z := 0x1000.
Definition m : mem := poke
  [ (db + db_magic, 4%nat, 0x0c0330db);
    (rsc_hdr_at db 0 + rh_slv_id, 2%nat, 4); (rsc_hdr_at db 0 + rh_cnt, 2%nat, 2);
    (rsc_hdr_at db 1 + rh_slv_id, 2%nat, 5); (rsc_hdr_at db 1 + rh_cnt, 2%nat, 1);
    (rsc_hdr_at db 1 + rh_header_offset, 2%nat, 48);
    (db + db_data, 4%nat, 0x61); (db + db_data + eh_addr, 4%nat, 0x40100);
    (db + db_data + 24, 4%nat, 0x62); (db + db_data + 24 + eh_addr, 4%nat, 0x40200);
    (db + db_data + 48, 4%nat, 0x63); (db + db_data + 48 + eh_addr, 4%nat, 0x50300) ]
  (Mem db 512 ∅).

Lemma db_is_wf : db_wf m db.
Proof.
  constructor; [concrete..|]. intros i Hi.
  assert (HF : Forall (fun i => slv_first m db i + sizeof_entry_header * Z.of_nat (slv_cnt m db i)
                                 <= m_base m + m_size m) [0; 1; 2; 3; 4; 5; 6; 7]).
  { repeat constructor; concrete. }
  rewrite Forall_forall in HF. apply HF. rewrite !elem_of_cons. unfold MAX_SLV_ID in Hi. lia.
Qed.
End Demo.

Lemma cmd_db_get_header_correct_witness :
  cmd_db_get_header (Some Demo.db) [0x62] Demo.m =
    Ok (inr (Demo.db + db_data + 24, rsc_hdr_at Demo.db 0), Demo.m).
Proof. rewrite (cmd_db_get_header_correct _ _ _ Demo.db_is_wf). vm_compute; reflexivity. Defined.

Lemma cmd_db_read_consistent_witness :
  cmd_db_read_slave_id (Some Demo.db) [0x63] Demo.m = Ok (5, Demo.m).
Proof.
  pose proof (cmd_db_read_consistent Demo.m Demo.db [0x63] Demo.db_is_wf) as H.
  vm_compute in H. vm_compute. apply H.
Defined.

Lemma cmd_db_iterates_all_witness :
  cmd_db_start Demo.db 2 Demo.m = Ok (Some (Demo.db + db_data + 48), Demo.m) /\
  cmd_db_next Demo.db 2 Demo.m = Ok ((None, 3), Demo.m).
Proof. exact (cmd_db_iterates_all Demo.m Demo.db 2 Demo.db_is_wf ltac:(lia)). Defined.
