(* ===== verification/RpmhRsc.v ===== *)
(** * The RSC controller driver (drivers/soc/qcom/rpmh-rsc.c)

    Requests for shared resources are written into the trigger command sets (TCS)
    of the resource state coordinator.  The state is the driver's [rsc_drv] with
    its four groups of TCSes, and the register file: a register holds the last
    value written to it, by the driver or by the hardware. *)
From S2P Require Import Prelude.
Open Scope c_scope.

(** ** Requests *)

(** The vote a request is for; [RPMH_OTHER_STATE] is any other value of the
    enumeration, which the code rejects. *)
Inductive rpmh_state :=
| RPMH_SLEEP_STATE
| RPMH_WAKE_ONLY_STATE
| RPMH_ACTIVE_ONLY_STATE
| RPMH_OTHER_STATE.

#[export] Instance rpmh_state_eq_dec : EqDecision rpmh_state.
Proof. solve_decision. Defined.

Definition state_is (a b : rpmh_state) : bool := bool_decide (a = b).

Record tcs_cmd := Cmd {
  addr : Z;
  data : Z;
  wait : bool;
}.

(** [req_id] identifies the request object; [num_cmds] is the length of [cmds]. *)
Record tcs_request := Req {
  req_id : Z;
  state : rpmh_state;
  wait_for_compl : bool;
  cmds : list tcs_cmd;
}.

Definition num_cmds (msg : tcs_request) : Z := Z.of_nat (length (cmds msg)).

(** ** Groups of TCSes *)
Inductive tcs_type := SLEEP_TCS | WAKE_TCS | ACTIVE_TCS | CONTROL_TCS.

#[export] Instance tcs_type_eq_dec : EqDecision tcs_type.
Proof. solve_decision. Defined.

(** What the driver takes from headers outside the repository: the largest
    payload of a request and the numbers of the TCS types in the device tree. *)
Class TcsAbi := {
  MAX_RPMH_PAYLOAD : Z;
  type_code : tcs_type -> Z;
  type_code_range : forall t, 0 <= type_code t < 4;
  type_code_inj : forall t u, type_code t = type_code u -> t = u;
  max_payload_range : 0 < MAX_RPMH_PAYLOAD <= 16;
}.

Definition TCS_TYPE_NR : Z := 4.
Definition MAX_CMDS_PER_TCS : Z := 16.
Definition MAX_TCS_PER_TYPE : Z := 3.
Definition MAX_TCS_SLOTS : Z := MAX_CMDS_PER_TCS * MAX_TCS_PER_TYPE.

(** struct tcs_group; [g_drv] is whether the back pointer is set, the bitmap of
    occupied slots is the set of its bits. *)
Record tcs_group := Group {
  g_drv : bool;
  g_mask : Z;
  g_offset : Z;
  g_num_tcs : Z;
  g_ncpt : Z;
  g_req : list (option tcs_request);
  g_cmd_cache : list Z;
  g_slots : gset Z;
}.

Definition empty_group : tcs_group := Group false 0 0 0 0 [None; None; None] [] ∅.

Definition set_slots (g : tcs_group) (cache : list Z) (slots : gset Z) : tcs_group :=
  Group (g_drv g) (g_mask g) (g_offset g) (g_num_tcs g) (g_ncpt g) (g_req g) cache slots.

Definition set_req (g : tcs_group) (req : list (option tcs_request)) : tcs_group :=
  Group (g_drv g) (g_mask g) (g_offset g) (g_num_tcs g) (g_ncpt g) req (g_cmd_cache g) (g_slots g).

(** struct rsc_drv.  [d_done] records the calls of [rpmh_tx_done]: the request
    and the error it was completed with. *)
Record rsc_drv := Rsc {
  d_base : Z;
  d_tcs_base : Z;
  d_in_solver_mode : bool;
  d_num_tcs : Z;
  d_sleep : tcs_group;
  d_wake : tcs_group;
  d_active : tcs_group;
  d_control : tcs_group;
  d_in_use : gset Z;
  d_regs : gmap Z Z;
  d_done : list (Z * Z);
}.

Definition set_regs (d : rsc_drv) (r : gmap Z Z) : rsc_drv :=
  Rsc (d_base d) (d_tcs_base d) (d_in_solver_mode d) (d_num_tcs d) (d_sleep d) (d_wake d)
    (d_active d) (d_control d) (d_in_use d) r (d_done d).
Definition set_in_use (d : rsc_drv) (u : gset Z) : rsc_drv :=
  Rsc (d_base d) (d_tcs_base d) (d_in_solver_mode d) (d_num_tcs d) (d_sleep d) (d_wake d)
    (d_active d) (d_control d) u (d_regs d) (d_done d).
Definition set_solver (d : rsc_drv) (b : bool) : rsc_drv :=
  Rsc (d_base d) (d_tcs_base d) b (d_num_tcs d) (d_sleep d) (d_wake d)
    (d_active d) (d_control d) (d_in_use d) (d_regs d) (d_done d).
Definition set_num_tcs (d : rsc_drv) (n : Z) : rsc_drv :=
  Rsc (d_base d) (d_tcs_base d) (d_in_solver_mode d) n (d_sleep d) (d_wake d)
    (d_active d) (d_control d) (d_in_use d) (d_regs d) (d_done d).
Definition add_done (d : rsc_drv) (c : Z * Z) : rsc_drv :=
  Rsc (d_base d) (d_tcs_base d) (d_in_solver_mode d) (d_num_tcs d) (d_sleep d) (d_wake d)
    (d_active d) (d_control d) (d_in_use d) (d_regs d) (d_done d ++ [c]).

Definition get_tcs_of_type (d : rsc_drv) (t : tcs_type) : tcs_group :=
  match t with
  | SLEEP_TCS => d_sleep d
  | WAKE_TCS => d_wake d
  | ACTIVE_TCS => d_active d
  | CONTROL_TCS => d_control d
  end.

Definition set_tcs (d : rsc_drv) (t : tcs_type) (g : tcs_group) : rsc_drv :=
  Rsc (d_base d) (d_tcs_base d) (d_in_solver_mode d) (d_num_tcs d)
    (if decide (t = SLEEP_TCS) then g else d_sleep d)
    (if decide (t = WAKE_TCS) then g else d_wake d)
    (if decide (t = ACTIVE_TCS) then g else d_active d)
    (if decide (t = CONTROL_TCS) then g else d_control d)
    (d_in_use d) (d_regs d) (d_done d).

(** ** Registers *)
Definition RSC_DRV_TCS_OFFSET : Z := 672.
Definition RSC_DRV_CMD_OFFSET : Z := 20.
Definition DRV_PRNT_CHLD_CONFIG : Z := 0x0C.
Definition DRV_NUM_TCS_MASK : Z := 0x3F.
Definition DRV_NUM_TCS_SHIFT : Z := 6.
Definition DRV_NCPT_MASK : Z := 0x1F.
Definition DRV_NCPT_SHIFT : Z := 27.
Definition RSC_DRV_IRQ_ENABLE : Z := 0x00.
Definition RSC_DRV_IRQ_STATUS : Z := 0x04.
Definition RSC_DRV_IRQ_CLEAR : Z := 0x08.
Definition RSC_DRV_CMD_WAIT_FOR_CMPL : Z := 0x10.
Definition RSC_DRV_CONTROL : Z := 0x14.
Definition RSC_DRV_STATUS : Z := 0x18.
Definition RSC_DRV_CMD_ENABLE : Z := 0x1C.
Definition RSC_DRV_CMD_MSGID : Z := 0x30.
Definition RSC_DRV_CMD_ADDR : Z := 0x34.
Definition RSC_DRV_CMD_DATA : Z := 0x38.
Definition RSC_DRV_CMD_STATUS : Z := 0x3C.
Definition TCS_AMC_MODE_ENABLE : Z := BIT 16.
Definition TCS_AMC_MODE_TRIGGER : Z := BIT 24.
Definition CMD_MSGID_LEN : Z := 8.
Definition CMD_MSGID_RESP_REQ : Z := BIT 8.
Definition CMD_MSGID_WRITE : Z := BIT 16.
Definition CMD_STATUS_ISSUED : Z := BIT 8.
Definition CMD_STATUS_COMPL : Z := BIT 16.
Definition RSC_PDC_DATA_SIZE : Z := 2.
Definition RSC_PDC_DRV_DATA : Z := 0x38.
Definition RSC_PDC_DATA_OFFSET : Z := 0x08.

Definition readl (d : rsc_drv) (a : Z) : Z := default 0 (d_regs d !! a).
Definition writel (d : rsc_drv) (a v : Z) : rsc_drv := set_regs d (<[a := u32 v]> (d_regs d)).

Definition tcs_reg (d : rsc_drv) (reg tcs_id cmd_id : Z) : Z :=
  d_tcs_base d + reg + RSC_DRV_TCS_OFFSET * tcs_id + RSC_DRV_CMD_OFFSET * cmd_id.

Definition read_tcs_reg (d : rsc_drv) (reg tcs_id cmd_id : Z) : Z :=
  readl d (tcs_reg d reg tcs_id cmd_id).

Definition write_tcs_cmd (d : rsc_drv) (reg tcs_id cmd_id v : Z) : rsc_drv :=
  writel d (tcs_reg d reg tcs_id cmd_id) v.

Definition write_tcs_reg (d : rsc_drv) (reg tcs_id v : Z) : rsc_drv :=
  writel d (tcs_reg d reg tcs_id 0) v.

(** Writes and polls until the value reads back; the register file returns it at
    the first read. *)
Definition write_tcs_reg_sync (reg tcs_id v : Z) : ST rsc_drv unit :=
  fun d => let d := write_tcs_reg d reg tcs_id v in
           if u32 v =? readl d (tcs_reg d reg tcs_id 0) then Ok (tt, d) else Loop.

Definition tcs_is_free (d : rsc_drv) (tcs_id : Z) : bool := bool_decide (tcs_id ∉ d_in_use d).

(** ** Invalidation of the sleep and wake sets *)
Fixpoint invalidate_loop (n : nat) (m : Z) : ST rsc_drv Z :=
  match n with
  | O => st_ret 0
  | S n =>
    let! free := st_get (fun d => tcs_is_free d m) in
    if negb free then st_ret (- EAGAIN) else
    write_tcs_reg_sync RSC_DRV_CMD_ENABLE m 0 ;;;
    write_tcs_reg_sync RSC_DRV_CMD_WAIT_FOR_CMPL m 0 ;;;
    invalidate_loop n (m + 1)
  end.

Definition tcs_invalidate (t : tcs_type) : ST rsc_drv Z :=
  let! tcs := st_get (fun d => get_tcs_of_type d t) in
  if bool_decide (g_slots tcs = ∅) then st_ret 0 else
  let! ret := invalidate_loop (Z.to_nat (g_num_tcs tcs)) (g_offset tcs) in
  if negb (ret =? 0) then st_ret ret else
  st_upd (fun d => set_tcs d t (set_slots (get_tcs_of_type d t)
                                  (g_cmd_cache (get_tcs_of_type d t)) ∅)) ;;;
  st_ret 0.

Definition rpmh_rsc_invalidate : ST rsc_drv Z :=
  let! ret := tcs_invalidate SLEEP_TCS in
  if ret =? 0 then tcs_invalidate WAKE_TCS else st_ret ret.

(** The group for a request, or an error. *)
Definition get_tcs_for_msg (msg : tcs_request) : ST rsc_drv (Z + tcs_type) :=
  match state msg with
  | RPMH_ACTIVE_ONLY_STATE =>
    let! n := st_get (fun d => g_num_tcs (d_active d)) in
    if negb (n =? 0) then st_ret (inr ACTIVE_TCS) else
    let! w := st_get (fun d => g_num_tcs (d_wake d)) in
    if w =? 0 then st_ret (inr WAKE_TCS) else
    let! ret := rpmh_rsc_invalidate in
    if negb (ret =? 0) then st_ret (inl ret) else st_ret (inr WAKE_TCS)
  | RPMH_WAKE_ONLY_STATE => st_ret (inr WAKE_TCS)
  | RPMH_SLEEP_STATE => st_ret (inr SLEEP_TCS)
  | RPMH_OTHER_STATE => st_ret (inl (- EINVAL))
  end.

(** ** Interrupts and completion *)

(** The TCS types in the order of the array [drv->tcs]. *)
Definition tcs_array `{TcsAbi} : list tcs_type :=
  filter (fun t => type_code t = 0) [SLEEP_TCS; WAKE_TCS; ACTIVE_TCS; CONTROL_TCS] ++
  filter (fun t => type_code t = 1) [SLEEP_TCS; WAKE_TCS; ACTIVE_TCS; CONTROL_TCS] ++
  filter (fun t => type_code t = 2) [SLEEP_TCS; WAKE_TCS; ACTIVE_TCS; CONTROL_TCS] ++
  filter (fun t => type_code t = 3) [SLEEP_TCS; WAKE_TCS; ACTIVE_TCS; CONTROL_TCS].

(** The set bits of a word, below [n], in increasing order. *)
Definition set_bits (v n : Z) : list Z :=
  filter (fun i => Z.testbit v i = true) (seqZ 0 n).

Definition BITS_PER_LONG : Z := 64.

(** The group an index belongs to: the first of the array with its bit in the mask. *)
Definition get_tcs_from_index `{TcsAbi} (d : rsc_drv) (tcs_id : Z) : option tcs_type :=
  head (filter (fun t => Z.land (g_mask (get_tcs_of_type d t)) (BIT tcs_id) ≠ 0) tcs_array).

(** The request a TCS was last loaded with; the array access is checked. *)
Definition get_req_from_tcs `{TcsAbi} (d : rsc_drv) (tcs_id : Z) : res (option tcs_request) :=
  match get_tcs_from_index d tcs_id with
  | None => Ok None
  | Some t =>
    let tcs := get_tcs_of_type d t in
    if tcs_id - g_offset tcs <? 0 then Fault else
    match g_req tcs !! Z.to_nat (tcs_id - g_offset tcs) with
    | None => Fault
    | Some r => Ok r
    end
  end.

Definition __tcs_trigger (tcs_id : Z) (trigger : bool) : ST rsc_drv unit :=
  let! enable := st_get (fun d => read_tcs_reg d RSC_DRV_CONTROL tcs_id 0) in
  let enable := Z.ldiff enable TCS_AMC_MODE_TRIGGER in
  write_tcs_reg_sync RSC_DRV_CONTROL tcs_id enable ;;;
  let enable := Z.ldiff enable TCS_AMC_MODE_ENABLE in
  write_tcs_reg_sync RSC_DRV_CONTROL tcs_id enable ;;;
  if trigger then
    let enable := TCS_AMC_MODE_ENABLE in
    write_tcs_reg_sync RSC_DRV_CONTROL tcs_id enable ;;;
    let enable := Z.lor enable TCS_AMC_MODE_TRIGGER in
    st_upd (fun d => write_tcs_reg d RSC_DRV_CONTROL tcs_id enable)
  else st_ret tt.

Definition enable_tcs_irq (d : rsc_drv) (tcs_id : Z) (enable : bool) : rsc_drv :=
  let data := read_tcs_reg d RSC_DRV_IRQ_ENABLE 0 0 in
  let data := if enable then Z.lor data (BIT tcs_id) else Z.ldiff data (BIT tcs_id) in
  write_tcs_reg d RSC_DRV_IRQ_ENABLE 0 data.

(** Whether command [j] of a TCS has not finished as its request requires. *)
Definition cmd_incomplete (d : rsc_drv) (i j : Z) (cmd : tcs_cmd) : bool :=
  let sts := read_tcs_reg d RSC_DRV_CMD_STATUS i j in
  (Z.land sts CMD_STATUS_ISSUED =? 0) || (wait cmd && (Z.land sts CMD_STATUS_COMPL =? 0)).

Fixpoint tx_err (d : rsc_drv) (i j : Z) (l : list tcs_cmd) (err : Z) : Z :=
  match l with
  | [] => err
  | cmd :: l => tx_err d i (j + 1) l (if cmd_incomplete d i j cmd then - EIO else err)
  end.

(** The label [skip] of the handler: reclaims the TCS. *)
Definition tx_reclaim (i : Z) : ST rsc_drv unit :=
  st_upd (fun d => write_tcs_reg d RSC_DRV_CMD_ENABLE i 0) ;;;
  st_upd (fun d => write_tcs_reg d RSC_DRV_IRQ_CLEAR 0 (BIT i)) ;;;
  st_upd (fun d => set_in_use d (d_in_use d ∖ {[i]})).

(** One iteration of the interrupt handler. *)
Definition tx_done_one `{TcsAbi} (i : Z) : ST rsc_drv unit :=
  fun d0 =>
  match get_req_from_tcs d0 i with
  | Fault => Fault
  | Loop => Loop
  | Ok None => tx_reclaim i d0
  | Ok (Some req) =>
    (let err := tx_err d0 i 0 (cmds req) 0 in
     (if g_num_tcs (d_active d0) =? 0 then
        __tcs_trigger i false ;;;
        st_upd (fun d => enable_tcs_irq d i false)
      else st_ret tt) ;;;
     tx_reclaim i ;;;
     st_upd (fun d => add_done d (req_id req, err))) d0
  end.

Fixpoint tx_done_loop `{TcsAbi} (l : list Z) : ST rsc_drv unit :=
  match l with
  | [] => st_ret tt
  | i :: l => tx_done_one i ;;; tx_done_loop l
  end.

Definition tcs_tx_done `{TcsAbi} : ST rsc_drv unit :=
  let! irq_status := st_get (fun d => read_tcs_reg d RSC_DRV_IRQ_STATUS 0 0) in
  tx_done_loop (set_bits irq_status BITS_PER_LONG).

(** ** Sending active requests *)
Definition cmd_hdr (msg : tcs_request) (cmd : tcs_cmd) : Z :=
  let cmd_msgid := Z.lor CMD_MSGID_LEN CMD_MSGID_WRITE in
  let cmd_msgid := Z.lor cmd_msgid (if wait_for_compl msg then CMD_MSGID_RESP_REQ else 0) in
  Z.lor cmd_msgid (if wait cmd then CMD_MSGID_RESP_REQ else 0).

Fixpoint buffer_write_loop (msg : tcs_request) (l : list tcs_cmd) (tcs_id j cmd_enable : Z)
    (d : rsc_drv) : Z * rsc_drv :=
  match l with
  | [] => (cmd_enable, d)
  | cmd :: l =>
    let cmd_enable := u32 (Z.lor cmd_enable (BIT j)) in
    let d := write_tcs_cmd d RSC_DRV_CMD_MSGID tcs_id j (cmd_hdr msg cmd) in
    let d := write_tcs_cmd d RSC_DRV_CMD_ADDR tcs_id j (addr cmd) in
    let d := write_tcs_cmd d RSC_DRV_CMD_DATA tcs_id j (data cmd) in
    buffer_write_loop msg l tcs_id (j + 1) cmd_enable d
  end.

Definition __tcs_buffer_write (d : rsc_drv) (tcs_id cmd_id : Z) (msg : tcs_request) : rsc_drv :=
  let '(cmd_enable, d) := buffer_write_loop msg (cmds msg) tcs_id cmd_id 0 d in
  let cmd_enable := Z.lor cmd_enable (read_tcs_reg d RSC_DRV_CMD_ENABLE tcs_id 0) in
  write_tcs_reg d RSC_DRV_CMD_ENABLE tcs_id cmd_enable.

(** The TCS indices of a group. *)
Definition tcs_ids (g : tcs_group) : list Z := seqZ (g_offset g) (g_num_tcs g).

Definition check_for_req_inflight (d : rsc_drv) (tcs : tcs_group) (msg : tcs_request) : Z :=
  if existsb (fun tcs_id =>
       if tcs_is_free d tcs_id then false else
       let curr_enabled := read_tcs_reg d RSC_DRV_CMD_ENABLE tcs_id 0 in
       existsb (fun j =>
         let a := read_tcs_reg d RSC_DRV_CMD_ADDR tcs_id j in
         existsb (fun cmd => a =? addr cmd) (cmds msg))
         (set_bits curr_enabled MAX_CMDS_PER_TCS))
       (tcs_ids tcs)
  then - EBUSY else 0.

Definition find_free_tcs (d : rsc_drv) (tcs : tcs_group) : Z :=
  match List.find (tcs_is_free d) (tcs_ids tcs) with
  | Some i => i
  | None => - EBUSY
  end.

(** [tcs->req[i] = msg], with the array bound checked. *)
Definition set_req_at (t : tcs_type) (i : Z) (msg : tcs_request) : ST rsc_drv unit :=
  fun d => let g := get_tcs_of_type d t in
           if (0 <=? i) && (i <? Z.of_nat (length (g_req g)))
           then Ok (tt, set_tcs d t (set_req g (<[Z.to_nat i := Some msg]> (g_req g))))
           else Fault.

Definition tcs_write (msg : tcs_request) : ST rsc_drv Z :=
  let! tcs := get_tcs_for_msg msg in
  match tcs with
  | inl err => st_ret err
  | inr t =>
    let! solver := st_get d_in_solver_mode in
    if state_is (state msg) RPMH_ACTIVE_ONLY_STATE && solver then st_ret (- EINVAL) else
    let! ret := st_get (fun d => check_for_req_inflight d (get_tcs_of_type d t) msg) in
    if negb (ret =? 0) then st_ret ret else
    let! tcs_id := st_get (fun d => find_free_tcs d (get_tcs_of_type d t)) in
    if tcs_id <? 0 then st_ret tcs_id else
    let! offset := st_get (fun d => g_offset (get_tcs_of_type d t)) in
    set_req_at t (tcs_id - offset) msg ;;;
    st_upd (fun d => set_in_use d (d_in_use d ∪ {[tcs_id]})) ;;;
    (if state_is (state msg) RPMH_ACTIVE_ONLY_STATE && negb (bool_decide (t = ACTIVE_TCS))
     then st_upd (fun d => enable_tcs_irq d tcs_id true) else st_ret tt) ;;;
    st_upd (fun d => __tcs_buffer_write d tcs_id 0 msg) ;;;
    __tcs_trigger tcs_id true ;;;
    st_ret ret
  end.

(** The payload check both entry points make; a missing request is [None]. *)
Definition payload_ok `{TcsAbi} (msg : option tcs_request) : bool :=
  match msg with
  | None => false
  | Some m => negb (num_cmds m =? 0) && (num_cmds m <=? MAX_RPMH_PAYLOAD)
  end.

(** The retry loop of [rpmh_rsc_send_data]: [env k] is what the hardware, the
    interrupt handler and other threads do to the state during the [k]-th delay. *)
Fixpoint send_loop (fuel : nat) (env : nat -> rsc_drv -> rsc_drv) (k : nat)
    (msg : tcs_request) : ST rsc_drv Z :=
  match fuel with
  | O => fun _ => Loop
  | S fuel =>
    let! ret := tcs_write msg in
    if ret =? - EBUSY then st_upd (env k) ;;; send_loop fuel env (S k) msg
    else st_ret ret
  end.

Definition rpmh_rsc_send_data `{TcsAbi} (fuel : nat) (env : nat -> rsc_drv -> rsc_drv)
    (msg : option tcs_request) : ST rsc_drv Z :=
  match msg with
  | Some m => if payload_ok msg then send_loop fuel env 0 m else st_ret (- EINVAL)
  | None => st_ret (- EINVAL)
  end.

(** ** Caching sleep and wake requests *)

(** [n] slots from [s] are free. *)
Definition area_free (m : gset Z) (s n : Z) : bool :=
  forallb (fun i => bool_decide (i ∉ m)) (seqZ s n).

(** The kernel's search for a run of [nr] zero bits in a bitmap of [size] bits, from
    [start]: the lowest such run, or a value above [size] when there is none. *)
Class BitmapArea := {
  bitmap_find_next_zero_area : gset Z -> Z -> Z -> Z -> Z;
  area_spec : forall m size start nr, 0 <= start -> 0 < nr ->
    let r := bitmap_find_next_zero_area m size start nr in
    (start <= r /\ r + nr <= size /\ area_free m r nr = true /\
     forall r', start <= r' < r -> area_free m r' nr = false) \/
    (size < r /\ forall r', start <= r' -> r' + nr <= size -> area_free m r' nr = false);
}.

Definition bitmap_set (m : gset Z) (start n : Z) : gset Z :=
  m ∪ list_to_set (seqZ start n).

(** [cmd_cache[i]], with the bound checked. *)
Definition cache_at (g : tcs_group) (i : Z) : res Z :=
  if i <? 0 then Fault else
  match g_cmd_cache g !! Z.to_nat i with Some a => Ok a | None => Fault end.

(** The inner loop of [find_match]: whether the cached addresses from [i] on are
    those of the commands. *)
Fixpoint match_seq (g : tcs_group) (i : Z) (l : list tcs_cmd) : res bool :=
  match l with
  | [] => Ok true
  | c :: l => res_bind (cache_at g i) (fun a =>
              if a =? addr c then match_seq g (i + 1) l else Ok false)
  end.

Fixpoint find_match_loop (g : tcs_group) (bits : list Z) (cmd : list tcs_cmd) (len : Z) : res Z :=
  match bits with
  | [] => Ok (- ENODATA)
  | i :: bits =>
    res_bind (cache_at g i) (fun a =>
    match cmd with
    | [] => Fault
    | c0 :: _ =>
      if negb (a =? addr c0) then find_match_loop g bits cmd len else
      if i + len >=? g_num_tcs g * g_ncpt g then Ok (- EINVAL) else
      res_bind (match_seq g i cmd) (fun same => if same then Ok i else Ok (- EINVAL))
    end)
  end.

(** The set bits of the bitmap in increasing order. *)
Definition slot_bits (m : gset Z) (n : Z) : list Z := filter (fun i => i ∈ m) (seqZ 0 n).

Definition find_match (g : tcs_group) (cmd : list tcs_cmd) (len : Z) : res Z :=
  find_match_loop g (slot_bits (g_slots g) MAX_TCS_SLOTS) cmd len.

(** The search for a TCS that holds the full payload; the fuel bounds the number of
    rounds, one for each TCS of the group and the one that fails.  [None] is the early
    return of -ENOMEM. *)
Fixpoint fit_loop `{BitmapArea} (fuel : nat) (g : tcs_group) (i n : Z) : res (option Z) :=
  match fuel with
  | O => Loop
  | S fuel =>
    let slot := bitmap_find_next_zero_area (g_slots g) MAX_TCS_SLOTS i n in
    if slot >=? g_num_tcs g * g_ncpt g then Ok None else
    let i := i + g_ncpt g in
    if slot + n - 1 >=? i then fit_loop fuel g i n else Ok (Some slot)
  end.

(** Copies the addresses over to the slots; every store is checked. *)
Fixpoint cache_store (cache : list Z) (slot : Z) (l : list tcs_cmd) : res (list Z) :=
  match l with
  | [] => Ok cache
  | c :: l =>
    if (0 <=? slot) && (slot <? Z.of_nat (length cache))
    then cache_store (<[Z.to_nat slot := addr c]> cache) (slot + 1) l
    else Fault
  end.

(** The label [copy_data]; a zero [ncpt] is a division by zero. *)
Definition copy_data (g : tcs_group) (msg : tcs_request) (slot : Z)
    : res ((Z + Z * Z) * tcs_group) :=
  let slots := bitmap_set (g_slots g) slot (num_cmds msg) in
  res_bind (cache_store (g_cmd_cache g) slot (cmds msg)) (fun cache =>
  if g_ncpt g =? 0 then Fault else
  let offset := Z.quot slot (g_ncpt g) in
  Ok (inr (offset + g_offset g, Z.rem slot (g_ncpt g)), set_slots g cache slots)).

(** [find_slots]: an error, or the TCS and the command to write from, with the group
    after the update. *)
Definition find_slots `{BitmapArea} (fuel : nat) (g : tcs_group) (msg : tcs_request)
    : res ((Z + Z * Z) * tcs_group) :=
  res_bind (find_match g (cmds msg) (num_cmds msg)) (fun slot =>
  if slot >=? 0 then copy_data g msg slot else
  res_bind (fit_loop fuel g 0 (num_cmds msg)) (fun fit =>
  match fit with
  | None => Ok (inl (- ENOMEM), g)
  | Some slot => copy_data g msg slot
  end)).

(** A group has at most [MAX_TCS_PER_TYPE] TCSes and each round moves on by one of them. *)
Definition slots_fuel : nat := 5.

Definition tcs_ctrl_write `{BitmapArea} (msg : tcs_request) : ST rsc_drv Z :=
  let! tcs := get_tcs_for_msg msg in
  match tcs with
  | inl err => st_ret err
  | inr t =>
    let! r := (fun d => match find_slots slots_fuel (get_tcs_of_type d t) msg with
                        | Ok (r, g) => Ok (r, set_tcs d t g)
                        | Fault => Fault
                        | Loop => Loop
                        end) in
    match r with
    | inl err => st_ret err
    | inr (tcs_id, cmd_id) =>
      st_upd (fun d => __tcs_buffer_write d tcs_id cmd_id msg) ;;; st_ret 0
    end
  end.

Definition rpmh_rsc_write_ctrl_data `{TcsAbi} `{BitmapArea} (msg : option tcs_request)
    : ST rsc_drv Z :=
  match msg with
  | Some m =>
    if negb (payload_ok msg) then st_ret (- EINVAL) else
    if state_is (state m) RPMH_ACTIVE_ONLY_STATE then st_ret (- EINVAL) else
    tcs_ctrl_write m
  | None => st_ret (- EINVAL)
  end.

(** ** Modes of the controller *)
Definition rpmh_rsc_ctrlr_is_idle (d : rsc_drv) : bool :=
  forallb (tcs_is_free d) (tcs_ids (get_tcs_of_type d ACTIVE_TCS)).

(** Spins until every TCS used for active requests is free: [env k] is what the rest
    of the system does between two rounds. *)
Fixpoint solver_loop (fuel : nat) (env : nat -> rsc_drv -> rsc_drv) (k : nat) (t : tcs_type)
    (enable : bool) : ST rsc_drv unit :=
  match fuel with
  | O => fun _ => Loop
  | S fuel =>
    let! idle := st_get (fun d => forallb (tcs_is_free d) (tcs_ids (get_tcs_of_type d t))) in
    if idle then st_upd (fun d => set_solver d enable)
    else st_upd (env k) ;;; solver_loop fuel env (S k) t enable
  end.

Definition rpmh_rsc_mode_solver_set (fuel : nat) (env : nat -> rsc_drv -> rsc_drv)
    (enable : bool) : ST rsc_drv unit :=
  let! n := st_get (fun d => g_num_tcs (get_tcs_of_type d ACTIVE_TCS)) in
  solver_loop fuel env 0 (if n =? 0 then WAKE_TCS else ACTIVE_TCS) enable.

Fixpoint pdc_write_loop (d : rsc_drv) (a : Z) (l : list tcs_cmd) : rsc_drv :=
  match l with
  | [] => d
  | cmd :: l => pdc_write_loop (writel d a (data cmd)) (a + RSC_PDC_DATA_OFFSET) l
  end.

Definition rpmh_rsc_write_pdc_data (msg : option tcs_request) : ST rsc_drv Z :=
  match msg with
  | Some m =>
    let! n := st_get (fun d => g_num_tcs (get_tcs_of_type d CONTROL_TCS)) in
    if negb (num_cmds m =? RSC_PDC_DATA_SIZE) || (n =? 0) then st_ret (- EINVAL) else
    st_upd (fun d => pdc_write_loop d (d_base d + RSC_PDC_DRV_DATA) (cmds m)) ;;;
    st_ret 0
  | None => st_ret (- EINVAL)
  end.

(** ** The report of a timeout *)
Definition ACCL_TYPE (a : Z) : Z := Z.land (Z.shiftr a 16) 0xF.

(** The accelerators whose commands were issued and did not complete. *)
Definition print_tcs_info `{TcsAbi} (d : rsc_drv) (tcs_id accl : Z) : res Z :=
  res_bind (get_req_from_tcs d tcs_id) (fun req =>
  match get_tcs_from_index d tcs_id, req with
  | Some _, Some _ =>
    let cmds_enabled := read_tcs_reg d RSC_DRV_CMD_ENABLE tcs_id 0 in
    if cmds_enabled =? 0 then Ok accl else
    Ok (foldl (fun accl i =>
      let a := read_tcs_reg d RSC_DRV_CMD_ADDR tcs_id i in
      let sts := read_tcs_reg d RSC_DRV_CMD_STATUS tcs_id i in
      if Z.land sts CMD_STATUS_ISSUED =? 0 then accl else
      if Z.land sts CMD_STATUS_COMPL =? 0 then Z.lor accl (BIT (ACCL_TYPE a)) else accl)
      accl (set_bits cmds_enabled MAX_CMDS_PER_TCS))
  | _, _ => Ok accl
  end).

Fixpoint debug_loop `{TcsAbi} (d : rsc_drv) (l : list Z) (busy accl : Z) : res (Z * Z) :=
  match l with
  | [] => Ok (busy, accl)
  | i :: l =>
    if tcs_is_free d i then debug_loop d l busy accl else
    res_bind (print_tcs_info d i accl) (fun accl => debug_loop d l (busy + 1) accl)
  end.

(** What the report ends with. *)
Inductive rsc_report := NoIrqData | NotBusy (accl : Z) | Crash (accl : Z).

Definition rpmh_rsc_debug `{TcsAbi} (d : rsc_drv) (rsc_irq_data : bool) : res rsc_report :=
  res_bind (debug_loop d (seqZ 0 (d_num_tcs d)) 0 0) (fun '(busy, accl) =>
  if negb rsc_irq_data then Ok NoIrqData else
  if negb (busy =? 0) then Ok (Crash accl) else Ok (NotBusy accl)).

(** ** Probing *)

(** What the driver reads of its device: each property is a value or an error, and
    [dt_alloc] is whether the allocation for a group succeeds. *)
Record rsc_device := Device {
  dt_id : Z + Z;
  dt_base : Z + Z;
  dt_tcs_offset : Z + Z;
  dt_count : Z;
  dt_config : Z -> Z + Z;
  dt_alloc : tcs_type -> bool;
  dt_kzalloc : bool;
  dt_irq : Z;
  dt_request_irq : Z;
  dt_populate : Z;
}.

(** The type with a given number. *)
Definition type_of_code `{TcsAbi} (c : Z) : option tcs_type :=
  head (filter (fun t => type_code t = c) [SLEEP_TCS; WAKE_TCS; ACTIVE_TCS; CONTROL_TCS]).

(** The first loop of the configuration: reads and checks the pairs of the table. *)
Fixpoint read_config (dev : rsc_device) (n : nat) (i : Z) : Z + list (Z * Z) :=
  match n with
  | O => inr []
  | S n =>
    match dt_config dev (i * 2) with
    | inl ret => inl ret
    | inr ty =>
      if ty >=? TCS_TYPE_NR then inl (- EINVAL) else
      match dt_config dev (i * 2 + 1) with
      | inl ret => inl ret
      | inr num =>
        if num >? MAX_TCS_PER_TYPE then inl (- EINVAL) else
        match read_config dev n (i + 1) with
        | inl ret => inl ret
        | inr l => inr ((ty, num) :: l)
        end
      end
    end
  end.

(** One round of the second loop: sets a group up at TCS [st]. *)
Definition setup_group `{TcsAbi} (dev : rsc_device) (max_tcs ncpt : Z) (t : tcs_type) (num st : Z)
    (d : rsc_drv) : (Z + Z) * rsc_drv :=
  let tcs := get_tcs_of_type d t in
  if g_drv tcs then (inl (- EINVAL), d) else
  let tcs := Group true (g_mask tcs) (g_offset tcs) num ncpt (g_req tcs) (g_cmd_cache tcs) (g_slots tcs) in
  let d := set_tcs d t tcs in
  if (num =? 0) || bool_decide (t = CONTROL_TCS) then (inr st, d) else
  if (st + num >? max_tcs) || (st + num >=? 8 * 4) then (inl (- EINVAL), d) else
  let tcs := Group true (u32 (Z.shiftl (Z.shiftl 1 num - 1) st)) st num ncpt (g_req tcs)
               (g_cmd_cache tcs) (g_slots tcs) in
  let d := set_tcs d t tcs in
  if bool_decide (t = ACTIVE_TCS) then (inr (st + num), d) else
  if negb (dt_alloc dev t) then (inl (- ENOMEM), d) else
  let tcs := Group true (g_mask tcs) st num ncpt (g_req tcs)
               (replicate (Z.to_nat (num * ncpt)) 0) (g_slots tcs) in
  (inr (st + num), set_tcs d t tcs).

Fixpoint setup_groups `{TcsAbi} (dev : rsc_device) (max_tcs ncpt : Z) (cfg : list (Z * Z)) (st : Z)
    (d : rsc_drv) : (Z + Z) * rsc_drv :=
  match cfg with
  | [] => (inr st, d)
  | (ty, num) :: cfg =>
    match type_of_code ty with
    | None => (inl (- EINVAL), d)
    | Some t =>
      match setup_group dev max_tcs ncpt t num st d with
      | (inl ret, d) => (inl ret, d)
      | (inr st, d) => setup_groups dev max_tcs ncpt cfg st d
      end
    end
  end.

Definition set_bases (d : rsc_drv) (base tcs_base : Z) : rsc_drv :=
  Rsc base tcs_base (d_in_solver_mode d) (d_num_tcs d) (d_sleep d) (d_wake d)
    (d_active d) (d_control d) (d_in_use d) (d_regs d) (d_done d).

(** The number of TCSes of a DRV and of commands in each, in the configuration register. *)
Definition config_max_tcs (config id : Z) : Z :=
  Z.shiftr (Z.land config (u32 (Z.shiftl DRV_NUM_TCS_MASK (DRV_NUM_TCS_SHIFT * id))))
    (DRV_NUM_TCS_SHIFT * id).
Definition config_ncpt (config : Z) : Z :=
  Z.shiftr (Z.land config (u32 (Z.shiftl DRV_NCPT_MASK DRV_NCPT_SHIFT))) DRV_NCPT_SHIFT.

Definition rpmh_probe_tcs_config `{TcsAbi} (dev : rsc_device) (id : Z) (d : rsc_drv)
    : Z * rsc_drv :=
  match dt_base dev with
  | inl err => (err, d)
  | inr base =>
    match dt_tcs_offset dev with
    | inl ret => (ret, set_bases d base (d_tcs_base d))
    | inr offset =>
      let d := set_bases d base (base + offset) in
      let config := readl d (base + DRV_PRNT_CHLD_CONFIG) in
      let max_tcs := config_max_tcs config id in
      let ncpt := config_ncpt config in
      if negb (dt_count dev =? 2 * TCS_TYPE_NR) then (- EINVAL, d) else
      match read_config dev 4 0 with
      | inl ret => (ret, d)
      | inr cfg =>
        match setup_groups dev max_tcs ncpt cfg 0 d with
        | (inl ret, d) => (ret, d)
        | (inr st, d) => (0, set_num_tcs d st)
        end
      end
    end
  end.

(** The zeroed structure, over the registers of the hardware. *)
Definition zero_drv (regs : gmap Z Z) : rsc_drv :=
  Rsc 0 0 false 0 empty_group empty_group empty_group empty_group ∅ regs [].

(** The controllers probed so far: the array [__rsc_drv] has two entries. *)
Definition RSC_DRV_ARRAY : nat := 2.

(** [rpmh_rsc_probe]: [ready] is the answer of [cmd_db_ready].  A third controller is
    stored past the end of the array. *)
Definition rpmh_rsc_probe `{TcsAbi} (ready : Z) (dev : rsc_device) (regs : gmap Z Z)
    (probed : list rsc_drv) : res (Z * list rsc_drv) :=
  if negb (ready =? 0) then Ok (ready, probed) else
  if negb (dt_kzalloc dev) then Ok (- ENOMEM, probed) else
  match dt_id dev with
  | inl ret => Ok (ret, probed)
  | inr id =>
    let '(ret, d) := rpmh_probe_tcs_config dev id (zero_drv regs) in
    if negb (ret =? 0) then Ok (ret, probed) else
    let d := set_in_use (set_solver d false) ∅ in
    if dt_irq dev <? 0 then Ok (dt_irq dev, probed) else
    if negb (dt_request_irq dev =? 0) then Ok (dt_request_irq dev, probed) else
    let d := write_tcs_reg d RSC_DRV_IRQ_ENABLE 0 (g_mask (d_active d)) in
    if (length probed <? RSC_DRV_ARRAY)%nat then Ok (dt_populate dev, probed ++ [d]) else Fault
  end.
