(* ===== verification/RpmhSlots.v ===== *)
(** * Slot allocation in the sleep and wake TCSes

    Properties of [find_slots] and of its parts: a message that is not cached yet goes
    to the first run of free slots inside one TCS, or is refused when there is none; a
    message that is cached keeps its slots; the group stays well formed and no array
    access is out of bounds. *)
From S2P Require Import Prelude RpmhRsc.
From Stdlib Require Import Sorted.
Open Scope c_scope.

(** The number of slots of a group. *)
Definition total (g : tcs_group) : Z := g_num_tcs g * g_ncpt g.

(** A group as the probe leaves it and [find_slots] keeps it. *)
Record group_wf (g : tcs_group) : Prop := {
  wf_num : 0 <= g_num_tcs g <= MAX_TCS_PER_TYPE;
  wf_ncpt : 0 < g_ncpt g <= MAX_CMDS_PER_TCS;
  wf_offset : 0 <= g_offset g;
  wf_cache : Z.of_nat (length (g_cmd_cache g)) = total g;
  wf_slots : forall i, i ∈ g_slots g -> 0 <= i < total g;
}.

(** A message of [n] commands fits at slot [s]: the slots are free, and all in the same
    TCS of the group. *)
Definition fits (g : tcs_group) (s n : Z) : Prop :=
  0 <= s /\ s + n <= total g /\ area_free (g_slots g) s n = true /\
  s / g_ncpt g = (s + n - 1) / g_ncpt g.

(** ** Generic lemmas *)
Lemma area_free_true m s n :
  area_free m s n = true <-> forall i, s <= i < s + n -> i ∉ m.
Proof.
  unfold area_free. rewrite forallb_forall. split.
  - intros H i Hi. specialize (H i). rewrite bool_decide_eq_true in H. apply H.
    apply list_elem_of_In, elem_of_seqZ. lia.
  - intros H i Hi%list_elem_of_In%elem_of_seqZ. apply bool_decide_eq_true, H. lia.
Qed.

Lemma elem_of_bitmap_set m s n i :
  i ∈ bitmap_set m s n <-> i ∈ m \/ s <= i < s + n.
Proof. unfold bitmap_set. rewrite elem_of_union, elem_of_list_to_set, elem_of_seqZ. done. Qed.

Lemma elem_of_slot_bits m n i : i ∈ slot_bits m n <-> i ∈ m /\ 0 <= i < n.
Proof. unfold slot_bits. rewrite list_elem_of_filter, elem_of_seqZ. naive_solver lia. Qed.

Lemma total_max g : group_wf g -> 0 <= total g <= MAX_TCS_SLOTS.
Proof.
  intros [Hn Hc _ _ _]. unfold total, MAX_TCS_SLOTS, MAX_TCS_PER_TYPE, MAX_CMDS_PER_TCS in *. nia.
Qed.

Lemma cache_at_ok g i : group_wf g -> 0 <= i < total g ->
  exists a, cache_at g i = Ok a /\ g_cmd_cache g !! Z.to_nat i = Some a.
Proof.
  intros Hw Hi. unfold cache_at. case_if; [lia|].
  pose proof (wf_cache _ Hw).
  destruct (lookup_lt_is_Some_2 (g_cmd_cache g) (Z.to_nat i)) as [a Ha]; [lia|].
  exists a. by rewrite Ha.
Qed.

Lemma cache_at_inv g i a : cache_at g i = Ok a -> 0 <= i /\ g_cmd_cache g !! Z.to_nat i = Some a.
Proof. unfold cache_at. case_if; [done|]. destruct (_ !! _) eqn:E; [|done]. intros [= ->]. split; [lia|done]. Qed.

(** ** The search for a match *)

(** The commands' addresses are cached from slot [i] on. *)
Definition cached_from (g : tcs_group) (i : Z) (l : list tcs_cmd) : Prop :=
  forall k c, l !! k = Some c -> g_cmd_cache g !! (Z.to_nat i + k)%nat = Some (addr c).

Lemma match_seq_ok g i l : group_wf g -> 0 <= i -> i + Z.of_nat (length l) <= total g ->
  exists b, match_seq g i l = Ok b /\ (b = true <-> cached_from g i l).
Proof.
  intros Hw. revert i. induction l as [|c l IH]; intros i Hi Hl; cbn [match_seq length] in *.
  - exists true. split; [done|]. split; [|done]. intros _ k c Hk. done.
  - destruct (cache_at_ok g i Hw) as (a & Ha & Ha'); [lia|]. rewrite Ha. cbn [res_bind].
    case_if.
    + destruct (IH (i + 1)) as (b & Hb & Hbs); [lia..|]. exists b. split; [done|].
      rewrite Hbs. unfold cached_from. split.
      * intros H [|k] c' Hk; cbn in Hk; [|specialize (H k c' Hk)].
        -- simplify_eq. rewrite Nat.add_0_r, Ha'. f_equal. lia.
        -- rewrite <-H. f_equal. lia.
      * intros H k c' Hk. specialize (H (S k) c' Hk). rewrite <-H. f_equal. lia.
    + exists false. split; [done|]. split; [done|]. intros H. specialize (H 0%nat c eq_refl).
      rewrite Nat.add_0_r, Ha' in H. simplify_eq. lia.
Qed.

(** What [find_match] answers, slot by slot. *)
Inductive match_result (g : tcs_group) (l : list tcs_cmd) (c0 : tcs_cmd) : list Z -> Z -> Prop :=
| mr_none : match_result g l c0 [] (- ENODATA)
| mr_skip i bits a r : g_cmd_cache g !! Z.to_nat i = Some a -> a <> addr c0 ->
    match_result g l c0 bits r -> match_result g l c0 (i :: bits) r
| mr_hit i bits : g_cmd_cache g !! Z.to_nat i = Some (addr c0) -> cached_from g i l ->
    i + Z.of_nat (length l) < total g -> match_result g l c0 (i :: bits) i
| mr_seq_err i bits : g_cmd_cache g !! Z.to_nat i = Some (addr c0) ->
    i + Z.of_nat (length l) >= total g \/ ~ cached_from g i l ->
    match_result g l c0 (i :: bits) (- EINVAL).

Lemma find_match_loop_ok g bits c0 l' : group_wf g ->
  (forall i, i ∈ bits -> 0 <= i < total g) ->
  let l := c0 :: l' in
  exists r, find_match_loop g bits l (Z.of_nat (length l)) = Ok r /\ match_result g l c0 bits r.
Proof.
  intros Hw Hb l. induction bits as [|i bits IH]; cbn [find_match_loop].
  - eexists. split; [reflexivity|constructor].
  - destruct (cache_at_ok g i Hw) as (a & Ha & Ha'); [apply Hb; left|]. rewrite Ha. cbn [res_bind].
    unfold l at 1. case_if.
    + destruct IH as (r & Hr & Hm); [intros; apply Hb; by right|].
      exists r. split; [exact Hr|]. econstructor; [done|lia|done].
    + assert (a = addr c0) as -> by lia. fold (total g). fold l. case_if.
      * eexists. split; [reflexivity|]. apply mr_seq_err; [done|]. left. lia.
      * assert (Hi : 0 <= i < total g) by (apply Hb; left).
        destruct (match_seq_ok g i l Hw) as (b & Hb' & Hbs); [lia..|]. rewrite Hb'. cbn [res_bind].
        destruct b; eexists; (split; [reflexivity|]).
        -- apply mr_hit; [done|by apply Hbs|lia].
        -- apply mr_seq_err; [done|]. right. intros ?%Hbs. done.
Qed.

Lemma find_match_ok g l c0 l' : group_wf g -> l = c0 :: l' ->
  exists r, find_match g l (Z.of_nat (length l)) = Ok r /\
            match_result g l c0 (slot_bits (g_slots g) MAX_TCS_SLOTS) r.
Proof.
  intros Hw ->. apply find_match_loop_ok; [done|].
  intros i [Hi _]%elem_of_slot_bits. by apply Hw.
Qed.

Lemma match_result_hit g l c0 bits r : match_result g l c0 bits r -> 0 <= r ->
  r ∈ bits /\ cached_from g r l /\ r + Z.of_nat (length l) < total g.
Proof.
  induction 1; intros Hr; unfold ENODATA, EINVAL in *; try lia.
  - destruct IHmatch_result as (? & ? & ?); [done|]. split; [by right|done].
  - split; [left|done].
Qed.

Lemma match_result_nodata g l c0 bits r : match_result g l c0 bits r -> r = - ENODATA ->
  (forall i, i ∈ bits -> 0 <= i) ->
  forall i, i ∈ bits -> g_cmd_cache g !! Z.to_nat i <> Some (addr c0).
Proof.
  induction 1 as [|i bits a r Ha Hne Hm IH|i bits Ha Hc Hl|i bits Ha Hs];
    unfold ENODATA, EINVAL in *; intros Hr Hb j Hj; try lia.
  - by apply elem_of_nil in Hj.
  - apply elem_of_cons in Hj as [->|Hj]; [rewrite Ha; congruence|].
    apply IH; [done| |done]. intros; apply Hb; by right.
  - specialize (Hb i). specialize (Hb ltac:(left)). lia.
Qed.

(** ** The search for free slots *)
Section fit.
Context `{BitmapArea} (g : tcs_group) (Hw : group_wf g) (n : Z) (Hn : 0 < n).

(** A fit inside TCS [k]. *)
Lemma fits_tcs s : fits g s n -> let k := s / g_ncpt g in
  0 <= k < g_num_tcs g /\ k * g_ncpt g <= s /\ s + n <= (k + 1) * g_ncpt g.
Proof.
  intros (Hs & Ht & _ & Hk) k. subst k. unfold total in Ht. pose proof (wf_ncpt _ Hw).
  pose proof (Z.div_mod s (g_ncpt g)). pose proof (Z.mod_pos_bound s (g_ncpt g)).
  pose proof (Z.div_mod (s + n - 1) (g_ncpt g)).
  pose proof (Z.mod_pos_bound (s + n - 1) (g_ncpt g)).
  rewrite <-Hk in *. set (q := s / g_ncpt g) in *. nia.
Qed.

Lemma fits_intro s k : 0 <= k -> k * g_ncpt g <= s -> s + n <= (k + 1) * g_ncpt g ->
  s + n <= total g -> area_free (g_slots g) s n = true -> fits g s n /\ s / g_ncpt g = k.
Proof.
  intros Hk Hl Hu Ht Hf. pose proof (wf_ncpt _ Hw).
  assert (s / g_ncpt g = k) as Hq by (symmetry; apply Z.div_unique with (s - k * g_ncpt g); lia).
  assert ((s + n - 1) / g_ncpt g = k) by
    (symmetry; apply Z.div_unique with (s + n - 1 - k * g_ncpt g); lia).
  unfold fits. split_and!; [nia|done|done|lia|done].
Qed.

(** From TCS [k] on, the search returns the first fit, or fails when there is none. *)
Lemma fit_loop_spec fuel k : 0 <= k <= g_num_tcs g -> (Z.to_nat (g_num_tcs g - k) < fuel)%nat ->
  (forall s, fits g s n -> k <= s / g_ncpt g) ->
  (fit_loop fuel g (k * g_ncpt g) n = Ok None /\ forall s, ~ fits g s n) \/
  (exists s, fit_loop fuel g (k * g_ncpt g) n = Ok (Some s) /\ fits g s n /\
             forall s', fits g s' n -> s <= s').
Proof.
  revert k. induction fuel as [|fuel IH]; intros k Hk Hf Hmin; [lia|]. cbn [fit_loop]. cbv zeta.
  pose proof (wf_ncpt _ Hw) as Hc. pose proof (total_max g Hw) as Hmax. fold (total g).
  assert (Hst : 0 <= k * g_ncpt g) by nia.
  pose proof (area_spec (g_slots g) MAX_TCS_SLOTS (k * g_ncpt g) n Hst Hn) as Harea.
  cbv zeta in Harea. generalize dependent (bitmap_find_next_zero_area (g_slots g) MAX_TCS_SLOTS (k * g_ncpt g) n).
  intros slot Harea.
  assert (Hfirst : forall s, fits g s n -> k * g_ncpt g <= s ->
            slot <= s /\ slot + n <= MAX_TCS_SLOTS /\ area_free (g_slots g) slot n = true).
  { intros s (_ & Hs2 & Hs3 & _) Hge.
    destruct Harea as [(_ & ? & ? & Hno)|[_ Hno]].
    - split_and!; [|done|done]. destruct (Z.le_gt_cases slot s) as [|Hlt]; [done|].
      rewrite (Hno s) in Hs3; [done|lia].
    - rewrite (Hno s) in Hs3; [done|lia|lia]. }
  assert (Hlow : k * g_ncpt g <= slot).
  { destruct Harea as [(? & _)|[? _]]; [done|]. unfold total in Hmax. nia. }
  assert (Hge : forall s, fits g s n -> k * g_ncpt g <= s).
  { intros s Hs. pose proof (fits_tcs s Hs) as Ht. pose proof (Hmin s Hs). cbn in Ht. nia. }
  case_if.
  { left. split; [done|]. intros s Hs. destruct (Hfirst s Hs (Hge s Hs)) as (? & _).
    destruct Hs as (_ & ? & _). lia. }
  assert (Hk' : k < g_num_tcs g) by (unfold total in *; nia).
  replace (k * g_ncpt g + g_ncpt g) with ((k + 1) * g_ncpt g) by lia.
  case_if.
  - apply IH; [lia|lia|]. intros s Hs. pose proof (Hmin s Hs).
    destruct (Hfirst s Hs (Hge s Hs)) as (? & _). pose proof (fits_tcs s Hs) as Ht. cbn in Ht.
    destruct (Z.eq_dec (s / g_ncpt g) k) as [Hq|]; [|lia]. rewrite Hq in Ht. lia.
  - right. exists slot. split; [done|].
    assert (Hfree : area_free (g_slots g) slot n = true).
    { destruct Harea as [(_ & _ & ? & _)|[? _]]; [done|]. lia. }
    destruct (fits_intro slot k) as [Hfit _]; [lia|lia|lia|unfold total; nia|done|].
    split; [done|]. intros s' Hs'. by apply Hfirst; [|apply Hge].
Qed.

Lemma fit_ok :
  (fit_loop slots_fuel g 0 n = Ok None /\ forall s, ~ fits g s n) \/
  (exists s, fit_loop slots_fuel g 0 n = Ok (Some s) /\ fits g s n /\
             forall s', fits g s' n -> s <= s').
Proof.
  pose proof (wf_num _ Hw) as Hnum. unfold MAX_TCS_PER_TYPE in Hnum.
  apply (fit_loop_spec slots_fuel 0); [lia|unfold slots_fuel; lia|].
  intros s Hs. apply (fits_tcs s Hs).
Qed.
End fit.

(** ** Copying the addresses *)
Lemma cache_store_ok cache slot l : 0 <= slot -> slot + Z.of_nat (length l) <= Z.of_nat (length cache) ->
  exists cache', cache_store cache slot l = Ok cache' /\ length cache' = length cache /\
    (forall k c, l !! k = Some c -> cache' !! (Z.to_nat slot + k)%nat = Some (addr c)) /\
    (forall j, j < slot \/ slot + Z.of_nat (length l) <= j -> 0 <= j ->
               cache' !! Z.to_nat j = cache !! Z.to_nat j).
Proof.
  revert cache slot. induction l as [|c l IH]; intros cache slot Hs Hl; cbn [cache_store length] in *.
  - exists cache. split_and!; [done|done|done|done].
  - case_if; [|lia].
    destruct (IH (<[Z.to_nat slot:=addr c]> cache) (slot + 1)) as (cache' & Hst & Hlen & Hin & Hout);
      [lia|rewrite length_insert; lia|].
    rewrite length_insert in Hlen. exists cache'. split_and!; [done|done| |].
    + intros [|k] c' Hk; cbn in Hk.
      * simplify_eq. specialize (Hout slot). rewrite Nat.add_0_r, Hout by lia.
        apply list_lookup_insert_eq. lia.
      * rewrite <-(Hin k c' Hk). f_equal. lia.
    + intros j Hj Hj0. rewrite Hout by lia. apply list_lookup_insert_ne. lia.
Qed.

(** What [copy_data] does to the group. *)
Definition placed (g g' : tcs_group) (msg : tcs_request) (s : Z) : Prop :=
  g_offset g' = g_offset g /\ g_num_tcs g' = g_num_tcs g /\ g_ncpt g' = g_ncpt g /\
  g_mask g' = g_mask g /\ g_req g' = g_req g /\
  (forall i, i ∈ g_slots g' <-> i ∈ g_slots g \/ s <= i < s + num_cmds msg) /\
  cached_from g' s (cmds msg) /\
  (forall j, 0 <= j -> j < s \/ s + num_cmds msg <= j ->
             g_cmd_cache g' !! Z.to_nat j = g_cmd_cache g !! Z.to_nat j).

Lemma copy_data_ok g msg s : group_wf g -> 0 <= s -> s + num_cmds msg <= total g ->
  exists g', copy_data g msg s =
               Ok (inr (g_offset g + s / g_ncpt g, s mod g_ncpt g), g') /\
             group_wf g' /\ placed g g' msg s.
Proof.
  intros Hw Hs Ht. unfold copy_data. pose proof (wf_cache _ Hw). pose proof (wf_ncpt _ Hw).
  destruct (cache_store_ok (g_cmd_cache g) s (cmds msg)) as (cache & Hst & Hlen & Hin & Hout);
    [done|unfold num_cmds in *; lia|].
  rewrite Hst. cbn [res_bind]. case_if; [lia|].
  rewrite Z.quot_div_nonneg, Z.rem_mod_nonneg by lia.
  eexists. split; [rewrite (Z.add_comm (s / _)); reflexivity|]. split.
  - destruct Hw. constructor; cbn; try done; unfold total in *; cbn; [lia|].
    intros i [?|?]%elem_of_bitmap_set; [by auto|lia].
  - unfold placed. cbn. split_and!; try done. intros i. apply elem_of_bitmap_set.
    intros j Hj0 Hj. apply Hout; unfold num_cmds in *; lia.
Qed.

(** ** The first match *)
Lemma match_result_first g l c0 bits s : (forall i, i ∈ bits -> 0 <= i) ->
  StronglySorted Z.lt bits -> s ∈ bits ->
  (forall i, i ∈ bits -> i < s -> exists a, g_cmd_cache g !! Z.to_nat i = Some a /\ a <> addr c0) ->
  g_cmd_cache g !! Z.to_nat s = Some (addr c0) -> cached_from g s l ->
  s + Z.of_nat (length l) < total g -> forall r, match_result g l c0 bits r -> r = s.
Proof.
  intros Hpos Hsort Hin Hbefore Ha Hc Ht r Hr. induction Hr as [|i bits a r Hi Hne Hm IH|i bits Hi|i bits Hi Hbad].
  - by apply elem_of_nil in Hin.
  - apply StronglySorted_inv in Hsort as [Hsort _]. apply elem_of_cons in Hin as [->|Hin]; [congruence|].
    apply IH; [intros; apply Hpos; by right|done|done|]. intros; apply Hbefore; [by right|done].
  - apply elem_of_cons in Hin as [->|Hin]; [done|]. apply StronglySorted_inv in Hsort as [_ Hall].
    rewrite Forall_forall in Hall. specialize (Hall s Hin).
    destruct (Hbefore i) as (a & ? & ?); [left|done|congruence].
  - apply elem_of_cons in Hin as [->|Hin]; [destruct Hbad; [lia|done]|].
    apply StronglySorted_inv in Hsort as [_ Hall]. rewrite Forall_forall in Hall. specialize (Hall s Hin).
    destruct (Hbefore i) as (a & ? & ?); [left|done|congruence].
Qed.

Lemma seqZ_sorted s n : StronglySorted Z.lt (seqZ s n).
Proof.
  destruct (Z.lt_ge_cases n 0) as [Hn|Hn]; [rewrite seqZ_nil by lia; constructor|].
  revert s. pattern n. apply natlike_ind; [|clear n Hn|done].
  - intros s. rewrite seqZ_nil by lia. constructor.
  - intros n Hn IH s. rewrite seqZ_cons by lia. rewrite Z.pred_succ. constructor; [apply IH|].
    apply Forall_forall. intros x Hx%elem_of_seqZ. lia.
Qed.

Lemma StronglySorted_filter {A} (R : A -> A -> Prop) (P : A -> Prop) `{forall x, Decision (P x)} l :
  StronglySorted R l -> StronglySorted R (filter P l).
Proof.
  induction 1 as [|x l Hl IH Hall]; [constructor|]. rewrite filter_cons. case_decide; [|done].
  constructor; [done|]. rewrite Forall_forall in *. intros y [_ Hy]%list_elem_of_filter. auto.
Qed.

Lemma match_result_before g l c0 bits r : match_result g l c0 bits r -> StronglySorted Z.lt bits ->
  (forall i, i ∈ bits -> 0 <= i) -> 0 <= r ->
  forall i, i ∈ bits -> i < r -> g_cmd_cache g !! Z.to_nat i <> Some (addr c0).
Proof.
  induction 1 as [|i bits a r Ha Hne Hm IH|i bits Ha Hc Hl|i bits Ha Hs];
    intros Hsort Hpos Hr j Hj Hlt; unfold EINVAL in *; try lia.
  - by apply elem_of_nil in Hj.
  - apply StronglySorted_inv in Hsort as [Hsort _]. apply elem_of_cons in Hj as [->|Hj]; [congruence|].
    apply IH; [done| |done|done|done]. intros; apply Hpos; by right.
  - apply StronglySorted_inv in Hsort as [_ Hall]. rewrite Forall_forall in Hall.
    apply elem_of_cons in Hj as [->|Hj]; [lia|]. specialize (Hall j Hj). lia.
Qed.

(** ** The whole operation *)

(** Where slot [s] is: its TCS and its command. *)
Definition slot_pos (g : tcs_group) (s : Z) : Z * Z :=
  (g_offset g + s / g_ncpt g, s mod g_ncpt g).

(** A cached run of slots the message is matched with. *)
Definition hit (g : tcs_group) (msg : tcs_request) (s : Z) : Prop :=
  s ∈ g_slots g /\ 0 <= s /\ cached_from g s (cmds msg) /\ s + num_cmds msg < total g.

(** The first occupied slot with the first address starts the message's whole sequence. *)
Definition first_hit (g : tcs_group) (msg : tcs_request) (s : Z) : Prop :=
  hit g msg s /\ forall c i, head (cmds msg) = Some c -> i ∈ g_slots g -> i < s ->
    g_cmd_cache g !! Z.to_nat i <> Some (addr c).

(** The match of a message is the first hit, and there is none when the search fails. *)
Lemma find_match_first g msg : group_wf g -> 0 < num_cmds msg ->
  exists m, find_match g (cmds msg) (num_cmds msg) = Ok m /\
    ((0 <= m /\ first_hit g msg m) \/ (m < 0 /\ forall s, ~ first_hit g msg s)).
Proof.
  intros Hw Hn. destruct (cmds msg) as [|c0 l'] eqn:Hc; [unfold num_cmds in Hn; rewrite Hc in Hn; done|].
  destruct (find_match_ok g _ c0 l' Hw Hc) as (m & Hm & Hres). fold (num_cmds msg) in Hm.
  assert (Hsort : StronglySorted Z.lt (slot_bits (g_slots g) MAX_TCS_SLOTS))
    by apply StronglySorted_filter, seqZ_sorted.
  assert (Hpos : forall i, i ∈ slot_bits (g_slots g) MAX_TCS_SLOTS -> 0 <= i)
    by (intros i [_ ?]%elem_of_slot_bits; lia).
  pose proof (total_max g Hw) as Htot.
  assert (Hbit : forall i, i ∈ g_slots g -> i ∈ slot_bits (g_slots g) MAX_TCS_SLOTS)
    by (intros i Hi; apply elem_of_slot_bits; split; [done|]; pose proof (wf_slots _ Hw i Hi); lia).
  exists m. rewrite <-Hc. split; [done|]. destruct (decide (0 <= m)) as [H0|H0]; [left|right].
  - split; [done|]. destruct (match_result_hit _ _ _ _ _ Hres H0) as ((? & ?)%elem_of_slot_bits & ? & ?).
    split; [done|]. intros c i Hh Hi Hlt. rewrite Hc in Hh. cbn in Hh. simplify_eq.
    eapply match_result_before; eauto.
  - split; [lia|]. intros s ((Hs & Hs0 & Hf & Ht) & Hb). apply H0. replace m with s; [done|].
    symmetry. eapply (match_result_first g (cmds msg) c0); eauto.
    + intros i [Hi _]%elem_of_slot_bits Hlt. destruct (cache_at_ok g i Hw) as (a & _ & Ha); [by apply Hw|].
      exists a. split; [done|]. intros ->. eapply Hb; [by rewrite Hc|exact Hi|done|done].
    + specialize (Hf 0%nat c0). rewrite Hc, Nat.add_0_r in Hf. by apply Hf.
Qed.

Lemma fits_in_tcs g s n : group_wf g -> 0 < n -> fits g s n -> s mod g_ncpt g + n <= g_ncpt g.
Proof.
  intros Hw Hn Hf. pose proof (fits_tcs g Hw n Hn s Hf) as Ht. cbv zeta in Ht.
  pose proof (wf_ncpt _ Hw). pose proof (Z.div_mod s (g_ncpt g)). lia.
Qed.

Section find_slots.
Context `{BitmapArea} (g : tcs_group) (Hw : group_wf g).

Lemma find_slots_hit msg s : find_match g (cmds msg) (num_cmds msg) = Ok s -> 0 <= s ->
  s + num_cmds msg <= total g ->
  exists g', find_slots slots_fuel g msg = Ok (inr (slot_pos g s), g') /\ group_wf g' /\
             placed g g' msg s.
Proof.
  intros Hm Hs Ht. unfold find_slots. rewrite Hm. cbn [res_bind]. case_if; [|lia].
  by apply copy_data_ok.
Qed.

Lemma find_slots_fresh msg r : 0 < num_cmds msg ->
  find_match g (cmds msg) (num_cmds msg) = Ok r -> r < 0 ->
  (find_slots slots_fuel g msg = Ok (inl (- ENOMEM), g) /\ forall s, ~ fits g s (num_cmds msg)) \/
  (exists s g', find_slots slots_fuel g msg = Ok (inr (slot_pos g s), g') /\
     fits g s (num_cmds msg) /\ (forall s', fits g s' (num_cmds msg) -> s <= s') /\
     group_wf g' /\ placed g g' msg s).
Proof.
  intros Hn Hm Hr. unfold find_slots. rewrite Hm. cbn [res_bind]. case_if; [lia|].
  destruct (fit_ok g Hw (num_cmds msg) Hn) as [[-> Hno]|(s & -> & Hfit & Hmin)]; cbn [res_bind].
  - by left.
  - right. destruct (copy_data_ok g msg s Hw) as (g' & Hc & ? & ?); [apply Hfit|apply Hfit|].
    by exists s, g'.
Qed.

(** For a well formed group and a message with commands, [find_slots] returns, makes no
    access out of bounds and leaves the group well formed; a message whose whole sequence
    starts at the first occupied slot with its first address gets the slots it has; any
    other message gets the first run of free slots that lies inside one TCS, and is refused
    with -ENOMEM, the group unchanged, exactly when there is none. *)
Theorem find_slots_correct msg : 0 < num_cmds msg ->
  exists r g', find_slots slots_fuel g msg = Ok (r, g') /\ group_wf g' /\
  ((exists s, first_hit g msg s /\ r = inr (slot_pos g s) /\ placed g g' msg s) \/
   ((forall s, ~ first_hit g msg s) /\
    ((exists s, fits g s (num_cmds msg) /\ (forall s', fits g s' (num_cmds msg) -> s <= s') /\
        r = inr (slot_pos g s) /\ (slot_pos g s).2 + num_cmds msg <= g_ncpt g /\
        placed g g' msg s) \/
     ((forall s, ~ fits g s (num_cmds msg)) /\ r = inl (- ENOMEM) /\ g' = g)))).
Proof.
  intros Hn. destruct (find_match_first g msg Hw Hn) as (m & Hm & [[Hpos Hh]|[Hneg Hno]]).
  - destruct (find_slots_hit msg m Hm Hpos) as (g' & ? & ? & ?); [destruct Hh as [(_ & _ & _ & ?) _]; lia|].
    eexists _, g'. split; [done|]. split; [done|]. left. by exists m.
  - destruct (find_slots_fresh msg m Hn Hm Hneg) as [[? ?]|(s & g' & ? & Hf & ? & ? & ?)].
    + eexists _, g. split; [done|]. split; [done|]. right. split; [done|]. by right.
    + eexists _, g'. split; [done|]. split; [done|]. right. split; [done|]. left. exists s.
      split_and!; try done. cbn. by apply fits_in_tcs.
Qed.
End find_slots.

(** ** Sending a message again *)
Lemma placed_again g g' g'' msg s : 0 <= s -> placed g g' msg s -> placed g' g'' msg s ->
  g_drv g'' = g_drv g' -> g'' = g'.
Proof.
  intros Hs (_ & _ & _ & _ & _ & Hsl' & Hin' & _) (H1 & H2 & H3 & H4 & H5 & Hsl & Hin & Hout) Hd.
  assert (g_slots g'' = g_slots g') by (apply set_eq; intros i; rewrite Hsl, Hsl'; tauto).
  assert (g_cmd_cache g'' = g_cmd_cache g') as Hcc.
  { apply list_eq. intros k. destruct (decide (s <= Z.of_nat k < s + num_cmds msg)) as [Hk|Hk].
    - destruct (lookup_lt_is_Some_2 (cmds msg) (k - Z.to_nat s)) as [c Hc];
        [unfold num_cmds in Hk; lia|].
      specialize (Hin _ c Hc). specialize (Hin' _ c Hc).
      replace (Z.to_nat s + (k - Z.to_nat s))%nat with k in * by lia. congruence.
    - specialize (Hout (Z.of_nat k)). rewrite Nat2Z.id in Hout. apply Hout; lia. }
  destruct g', g''; cbn in *; congruence.
Qed.

Lemma find_slots_drv `{BitmapArea} fuel g msg r g' :
  find_slots fuel g msg = Ok (r, g') -> g_drv g' = g_drv g.
Proof.
  unfold find_slots, copy_data. intros Hf.
  repeat (match type of Hf with
          | res_bind ?x _ = _ => destruct x; cbn [res_bind] in Hf; [|done|done]
          | (if ?b then _ else _) = _ => destruct b
          | match ?x with _ => _ end = _ => destruct x
          end); by simplify_eq.
Qed.

Lemma resend_at `{BitmapArea} g msg g' s : group_wf g -> 0 < num_cmds msg ->
  find_match g (cmds msg) (num_cmds msg) = Ok (- ENODATA) ->
  find_slots slots_fuel g msg = Ok (inr (slot_pos g s), g') -> placed g g' msg s ->
  fits g s (num_cmds msg) -> s + num_cmds msg < total g -> group_wf g' ->
  find_slots slots_fuel g' msg = Ok (inr (slot_pos g s), g').
Proof.
  intros Hw Hn Hm Hf Hp Hfit Hlast Hw'.
  destruct (cmds msg) as [|c0 l'] eqn:Hc; [unfold num_cmds in Hn; rewrite Hc in Hn; done|].
  pose proof Hp as (Ho & Hnum & Hnc & _ & _ & Hsl & Hin & Hout). destruct Hfit as (Hs & Hst & Hfree & _).
  pose proof (total_max g Hw). pose proof (total_max g' Hw'). rewrite area_free_true in Hfree.
  assert (Htot : total g' = total g) by (unfold total; congruence).
  assert (Hm' : find_match g' (cmds msg) (num_cmds msg) = Ok s).
  { destruct (find_match_ok g' _ c0 l' Hw' Hc) as (r & Hr & Hres). fold (num_cmds msg) in Hr.
    rewrite Hr. f_equal. destruct (find_match_ok g _ c0 l' Hw Hc) as (r0 & Hr0 & Hres0).
    rewrite Hc in Hr0, Hres0. fold (num_cmds msg) in Hr0. unfold num_cmds in Hm. rewrite Hc in Hm.
    rewrite Hm in Hr0. simplify_eq.
    pose proof (match_result_nodata _ _ _ _ _ Hres0 eq_refl) as Hnone.
    assert (Hs0 : g_cmd_cache g' !! Z.to_nat s = Some (addr c0)).
    { specialize (Hin 0%nat c0). rewrite Hc, Nat.add_0_r in Hin. by apply Hin. }
    eapply (match_result_first g' (cmds msg) c0); [| | | |exact Hs0|exact Hin| |exact Hres].
    - intros i [_ ?]%elem_of_slot_bits. lia.
    - apply StronglySorted_filter, seqZ_sorted.
    - apply elem_of_slot_bits. split; [|unfold num_cmds in *; lia]. apply Hsl. right. lia.
    - intros i [Hi Hi2]%elem_of_slot_bits Hlt. apply Hsl in Hi as [Hi|Hi]; [|lia].
      rewrite (Hout i) by lia. destruct (cache_at_ok g i Hw) as (a & _ & Ha); [by apply Hw|].
      exists a. split; [done|]. intros ->. eapply Hnone; [|by apply elem_of_slot_bits|done].
      intros j [_ ?]%elem_of_slot_bits. lia.
    - rewrite Htot. unfold num_cmds in Hlast. lia. }
  destruct (find_slots_hit g' Hw' msg s Hm' Hs) as (g'' & Hf2 & Hw2 & Hp2); [lia|].
  assert (g'' = g') as -> by (eapply placed_again; eauto using find_slots_drv).
  rewrite Hf2. unfold slot_pos. by rewrite Ho, Hnc.
Qed.

(** A message whose first address is in no occupied slot, once placed by [find_slots]
    before the last slot of the group, is found again: sending it a second time returns the
    same TCS and command and leaves the group as it is. *)
Theorem find_slots_resend `{BitmapArea} g msg p g' : group_wf g -> 0 < num_cmds msg ->
  find_match g (cmds msg) (num_cmds msg) = Ok (- ENODATA) ->
  find_slots slots_fuel g msg = Ok (inr p, g') ->
  (p.1 - g_offset g) * g_ncpt g + p.2 + num_cmds msg < total g ->
  find_slots slots_fuel g' msg = Ok (inr p, g').
Proof.
  intros Hw Hn Hm Hf Hlast.
  destruct (find_slots_fresh g Hw msg _ Hn Hm) as [[Hf' _]|(s & g1 & Hf' & Hfit & _ & Hw' & Hp)];
    [done|congruence|].
  rewrite Hf' in Hf. simplify_eq. unfold slot_pos in Hlast. cbn in Hlast.
  pose proof (wf_ncpt _ Hw). pose proof (Z.div_mod s (g_ncpt g)).
  apply (resend_at g); try done. lia.
Qed.

(** ** A concrete search, and examples *)

(** The lowest run of free bits, tried at every index. *)
Definition linear_area (m : gset Z) (size start nr : Z) : Z :=
  match List.find (fun r => area_free m r nr) (seqZ start (size - nr - start + 1)) with
  | Some r => r
  | None => size + 1
  end.

Lemma find_seqZ_first (f : Z -> bool) s n r : List.find f (seqZ s n) = Some r ->
  s <= r < s + n /\ f r = true /\ forall r', s <= r' < r -> f r' = false.
Proof.
  destruct (Z.lt_ge_cases n 0) as [Hn|Hn]; [by rewrite seqZ_nil by lia|].
  revert s. pattern n. apply natlike_ind; [|clear n Hn|done].
  - intros s. by rewrite seqZ_nil by lia.
  - intros n Hn IH s. rewrite seqZ_cons by lia. rewrite Z.pred_succ. cbn [List.find].
    destruct (f s) eqn:E.
    + intros [= ->]. split; [lia|]. split; [done|]. intros; lia.
    + intros (Hr & Hfr & Hno)%IH. split; [lia|]. split; [done|]. intros r' Hr'.
      destruct (Z.eq_dec r' s) as [->|]; [done|]. apply Hno. lia.
Qed.

#[export] Instance linear_bitmap : BitmapArea.
Proof.
  refine {| bitmap_find_next_zero_area := linear_area |}.
  intros m size start nr Hs Hn r. subst r. unfold linear_area. destruct (List.find _ _) as [r|] eqn:E.
  - left. apply find_seqZ_first in E as (? & ? & ?). split_and!; [lia|lia|done|done].
  - right. split; [lia|]. intros r' Hr Hr'. eapply List.find_none in E; [exact E|].
    apply list_elem_of_In, elem_of_seqZ. lia.
Defined.

Module SlotsDemo.
(** Two TCSes of four commands from TCS 2 on, all free. *)
Definition grp : tcs_group := Group true 12 2 2 4 [None; None; None] (replicate 8 0) ∅.

Definition msg_of (l : list Z) : tcs_request :=
  Req 0 RPMH_SLEEP_STATE false (map (fun a => Cmd a 7 false) l).

(** The group after a sequence of messages. *)
Fixpoint send_all (g : tcs_group) (l : list (list Z)) : res tcs_group :=
  match l with
  | [] => Ok g
  | m :: l => res_bind (find_slots slots_fuel g (msg_of m)) (fun '(_, g) => send_all g l)
  end.

Lemma grp_wf : group_wf grp.
Proof. constructor; cbn; unfold total, MAX_TCS_PER_TYPE, MAX_CMDS_PER_TCS; cbn; try lia.
  intros i Hi. by apply elem_of_empty in Hi. Qed.
End SlotsDemo.

Lemma find_slots_correct_witness : exists g',
  find_slots slots_fuel SlotsDemo.grp (SlotsDemo.msg_of [1; 2; 3]) = Ok (inr (2, 0), g') /\ group_wf g'.
Proof.
  destruct (find_slots_correct SlotsDemo.grp SlotsDemo.grp_wf (SlotsDemo.msg_of [1; 2; 3]))
    as (r & g' & H & Hw & _); [reflexivity|]. exists g'. split; [|exact Hw].
  rewrite H. vm_compute in H. injection H as <- _. reflexivity.
Defined.

Lemma find_slots_resend_witness : exists g',
  find_slots slots_fuel SlotsDemo.grp (SlotsDemo.msg_of [1; 2; 3]) = Ok (inr (2, 0), g') /\
  find_slots slots_fuel g' (SlotsDemo.msg_of [1; 2; 3]) = Ok (inr (2, 0), g').
Proof.
  eexists. split; [vm_compute; reflexivity|].
  eapply (find_slots_resend SlotsDemo.grp (SlotsDemo.msg_of [1; 2; 3]) (2, 0));
    [exact SlotsDemo.grp_wf|reflexivity|vm_compute; reflexivity|vm_compute; reflexivity|reflexivity].
Defined.

(** Matching is not confined to one TCS: after the messages [1;2;3], [4] and [5], a message
    with the addresses 4 and 5 is matched across the boundary of the first TCS, so that its
    second command is written as command 4 of a TCS of four commands. *)
Theorem find_slots_crosses_tcs : exists g g',
  SlotsDemo.send_all SlotsDemo.grp [[1; 2; 3]; [4]; [5]] = Ok g /\ group_wf g /\
  find_slots slots_fuel g (SlotsDemo.msg_of [4; 5]) = Ok (inr (2, 3), g') /\
  ~ 3 + num_cmds (SlotsDemo.msg_of [4; 5]) <= g_ncpt g.
Proof.
  eexists _, _. split; [vm_compute; reflexivity|]. split.
  { constructor; unfold total, MAX_TCS_PER_TYPE, MAX_CMDS_PER_TCS; cbn; try lia. intros i Hi.
    change (i ∈ bitmap_set (bitmap_set (bitmap_set ∅ 0 3) 3 1) 4 1) in Hi.
    rewrite !elem_of_bitmap_set, elem_of_empty in Hi. lia. }
  split; [vm_compute; reflexivity|]. unfold num_cmds. cbn. lia.
Qed.

(** A message cached in the last slots of a group is not found again: the bound of the match
    rejects it, so the same message is placed a second time when there is room and refused
    with -ENOMEM when there is none. *)
Theorem find_slots_last_not_matched : exists g,
  SlotsDemo.send_all SlotsDemo.grp [[1; 2; 3; 4]; [5; 6; 7; 8]] = Ok g /\
  find_match g (cmds (SlotsDemo.msg_of [5; 6; 7; 8])) 4 = Ok (- EINVAL) /\
  find_slots slots_fuel g (SlotsDemo.msg_of [5; 6; 7; 8]) = Ok (inl (- ENOMEM), g).
Proof.
  eexists. split; [vm_compute; reflexivity|]. split; [vm_compute; reflexivity|].
  vm_compute. reflexivity.
Qed.
