(* ===== verification/RpmhTcs.v ===== *)
(** * Active requests: exclusion, completion, register contents

    What the registers hold after a write, that no two TCSes of the active group have a
    command for the same address in flight, and what the interrupt handler completes. *)
From S2P Require Import Prelude RpmhRsc RpmhSlots.
Open Scope c_scope.

(** ** The registers do not overlap *)

(** A register of a TCS with the index of its command: the registers of the TCS itself
    have index 0. *)
Definition reg_ok (r c : Z) : bool :=
  (c =? 0) && ((r =? RSC_DRV_IRQ_ENABLE) || (r =? RSC_DRV_IRQ_STATUS) || (r =? RSC_DRV_IRQ_CLEAR)
     || (r =? RSC_DRV_CMD_WAIT_FOR_CMPL) || (r =? RSC_DRV_CONTROL) || (r =? RSC_DRV_STATUS)
     || (r =? RSC_DRV_CMD_ENABLE))
  || (0 <=? c) && (c <? 31) && ((r =? RSC_DRV_CMD_MSGID) || (r =? RSC_DRV_CMD_ADDR)
     || (r =? RSC_DRV_CMD_DATA) || (r =? RSC_DRV_CMD_STATUS)).

Ltac regs_unfold := unfold RSC_DRV_IRQ_ENABLE, RSC_DRV_IRQ_STATUS, RSC_DRV_IRQ_CLEAR,
  RSC_DRV_CMD_WAIT_FOR_CMPL, RSC_DRV_CONTROL, RSC_DRV_STATUS, RSC_DRV_CMD_ENABLE,
  RSC_DRV_CMD_MSGID, RSC_DRV_CMD_ADDR, RSC_DRV_CMD_DATA, RSC_DRV_CMD_STATUS in *.

Lemma tcs_reg_inj d r t c r' t' c' : reg_ok r c -> reg_ok r' c' ->
  tcs_reg d r t c = tcs_reg d r' t' c' -> r = r' /\ t = t' /\ c = c'.
Proof.
  unfold reg_ok, tcs_reg, RSC_DRV_TCS_OFFSET, RSC_DRV_CMD_OFFSET. regs_unfold.
  intros H1%Is_true_true H2%Is_true_true He.
  assert (0 <= r + 20 * c < 672 /\ 0 <= r' + 20 * c' < 672) as [Hr Hr'] by lia.
  assert (t = t') as -> by lia.
  assert (r + 20 * c = r' + 20 * c') as He' by lia. clear He Hr Hr'. lia.
Qed.

Lemma readl_writel d a v a' : readl (writel d a v) a' = if decide (a = a') then u32 v else readl d a'.
Proof. unfold readl, writel. cbn. case_decide; [subst; by rewrite lookup_insert_eq|by rewrite lookup_insert_ne]. Qed.

Lemma read_write_cmd d r t c v r' t' c' : reg_ok r c -> reg_ok r' c' ->
  read_tcs_reg (write_tcs_cmd d r t c v) r' t' c' =
  if decide (r = r' /\ t = t' /\ c = c') then u32 v else read_tcs_reg d r' t' c'.
Proof.
  intros H1 H2. unfold read_tcs_reg, write_tcs_cmd. rewrite readl_writel.
  change (tcs_reg (writel _ _ _) r' t' c') with (tcs_reg d r' t' c').
  repeat case_decide; [done| | |done].
  - exfalso. by eapply tcs_reg_inj in H.
  - destruct H0 as (-> & -> & ->). done.
Qed.

Lemma read_write_reg d r t v r' t' c' : reg_ok r 0 -> reg_ok r' c' ->
  read_tcs_reg (write_tcs_reg d r t v) r' t' c' =
  if decide (r = r' /\ t = t' /\ 0 = c') then u32 v else read_tcs_reg d r' t' c'.
Proof. apply read_write_cmd. Qed.

Lemma write_tcs_reg_sync_ok r t v d :
  write_tcs_reg_sync r t v d = Ok (tt, write_tcs_reg d r t v).
Proof.
  unfold write_tcs_reg_sync. cbv zeta. unfold write_tcs_reg.
  change (tcs_reg (writel _ _ _) r t 0) with (tcs_reg d r t 0).
  rewrite readl_writel. case_decide; [|done]. by rewrite Z.eqb_refl.
Qed.

(** Two states that differ in registers only. *)
Definition same_rest (d d' : rsc_drv) : Prop := set_regs d ∅ = set_regs d' ∅.

#[export] Instance same_rest_equiv : Equivalence same_rest.
Proof. unfold same_rest. split; [intros d|intros d d'|intros d1 d2 d3]; congruence. Qed.

Lemma same_rest_proj d d' : same_rest d d' ->
  d_in_use d' = d_in_use d /\ d_done d' = d_done d /\ d_tcs_base d' = d_tcs_base d /\
  d_in_solver_mode d' = d_in_solver_mode d /\
  forall t, get_tcs_of_type d' t = get_tcs_of_type d t.
Proof. destruct d, d'. unfold same_rest. cbn. intros [=]. split_and!; subst; try done. Qed.

(** The registers other than those of [P] keep their values. *)
Definition regs_keep (P : Z -> Z -> Z -> Prop) (d d' : rsc_drv) : Prop :=
  forall r t c, reg_ok r c -> ~ P r t c -> read_tcs_reg d' r t c = read_tcs_reg d r t c.

Lemma regs_keep_trans (P Q R : Z -> Z -> Z -> Prop) d1 d2 d3 :
  regs_keep P d1 d2 -> regs_keep Q d2 d3 ->
  (forall r t c, P r t c -> R r t c) -> (forall r t c, Q r t c -> R r t c) -> regs_keep R d1 d3.
Proof. intros H1 H2 HP HQ r t c Hr Hn. rewrite H2, H1; naive_solver. Qed.

Lemma write_reg_keep d r t v (P : Z -> Z -> Z -> Prop) : reg_ok r 0 -> P r t 0 ->
  regs_keep P d (write_tcs_reg d r t v).
Proof.
  intros Hr HP r' t' c' Hr' Hn. rewrite read_write_reg by done.
  case_decide as Hd; [|done]. destruct Hd as (<- & <- & <-). done.
Qed.

(** ** Writing a message *)
Definition bits_of (v lo n : Z) (w : Z) : Prop :=
  forall b, 0 <= b < 32 -> Z.testbit w b = Z.testbit v b || (lo <=? b) && (b <? lo + n).

Lemma u32_testbit v b : 0 <= b < 32 -> Z.testbit (u32 v) b = Z.testbit v b.
Proof. intros Hb. unfold u32. rewrite Z.mod_pow2_bits_low by lia. done. Qed.

Lemma BIT_testbit j b : 0 <= j -> 0 <= b -> Z.testbit (BIT j) b = (j =? b).
Proof.
  intros Hj Hb. unfold BIT. rewrite Z.shiftl_1_l, Z.pow2_bits_eqb by lia. reflexivity.
Qed.

(** Command [c] of TCS [t] holds the command of the message. *)
Definition holds (d : rsc_drv) (t c : Z) (msg : tcs_request) (cmd : tcs_cmd) : Prop :=
  read_tcs_reg d RSC_DRV_CMD_MSGID t c = u32 (cmd_hdr msg cmd) /\
  read_tcs_reg d RSC_DRV_CMD_ADDR t c = u32 (addr cmd) /\
  read_tcs_reg d RSC_DRV_CMD_DATA t c = u32 (data cmd).

(** The registers that hold the [n] commands of TCS [tcs] from [j] on. *)
Definition cmd_window (tcs j n r t c : Z) : Prop :=
  t = tcs /\ j <= c < j + n /\
  (r = RSC_DRV_CMD_MSGID \/ r = RSC_DRV_CMD_ADDR \/ r = RSC_DRV_CMD_DATA).

Lemma reg_ok_cmd r c : r = RSC_DRV_CMD_MSGID \/ r = RSC_DRV_CMD_ADDR \/ r = RSC_DRV_CMD_DATA \/
  r = RSC_DRV_CMD_STATUS -> 0 <= c < 31 -> reg_ok r c.
Proof. intros Hr Hc. apply Is_true_true. unfold reg_ok. regs_unfold. lia. Qed.

Lemma write_cmd3_ok msg cmd tcs j d : 0 <= j < 31 ->
  let d' := write_tcs_cmd (write_tcs_cmd (write_tcs_cmd d RSC_DRV_CMD_MSGID tcs j (cmd_hdr msg cmd))
              RSC_DRV_CMD_ADDR tcs j (addr cmd)) RSC_DRV_CMD_DATA tcs j (data cmd) in
  same_rest d d' /\ holds d' tcs j msg cmd /\ regs_keep (cmd_window tcs j 1) d d'.
Proof.
  intros Hj d'. unfold holds. split_and!; [reflexivity| | | |]; subst d'.
  1-3: rewrite !read_write_cmd by (apply reg_ok_cmd; auto); regs_unfold;
    repeat (case_decide; try done); lia.
  intros r t c Hr Hn. rewrite !read_write_cmd by (auto; apply reg_ok_cmd; auto).
  unfold cmd_window in Hn. repeat (case_decide; [exfalso; apply Hn; intuition lia|]). done.
Qed.

Lemma holds_keep d d' t c msg cmd (P : Z -> Z -> Z -> Prop) : 0 <= c < 31 ->
  (forall r, r = RSC_DRV_CMD_MSGID \/ r = RSC_DRV_CMD_ADDR \/ r = RSC_DRV_CMD_DATA -> ~ P r t c) ->
  regs_keep P d d' -> holds d t c msg cmd -> holds d' t c msg cmd.
Proof.
  intros Hc Hn Hk (H1 & H2 & H3). unfold holds. rewrite !Hk; try apply reg_ok_cmd; auto.
Qed.

Lemma buffer_write_loop_ok msg l tcs : forall j en d, 0 <= j -> j + Z.of_nat (length l) <= 31 ->
  let r := buffer_write_loop msg l tcs j en d in
  same_rest d r.2 /\ bits_of en j (Z.of_nat (length l)) r.1 /\
  regs_keep (cmd_window tcs j (Z.of_nat (length l))) d r.2 /\
  (forall k cmd, l !! k = Some cmd -> holds r.2 tcs (j + Z.of_nat k) msg cmd).
Proof.
  induction l as [|cmd l IH]; intros j en d Hj Hl; cbn [buffer_write_loop length] in *; cbv zeta.
  - split_and!; [reflexivity| |done|done]. intros b Hb. cbn.
    replace (_ && _) with false by lia. by rewrite orb_false_r.
  - destruct (write_cmd3_ok msg cmd tcs j d) as (Hr1 & Hh1 & Hk1); [lia|]. cbv zeta in *.
    set (d1 := write_tcs_cmd _ RSC_DRV_CMD_DATA _ _ _) in *.
    destruct (IH (j + 1) (u32 (Z.lor en (BIT j))) d1) as (Hr & Hb & Hk & Hh); [lia..|].
    cbv zeta in *. set (r := buffer_write_loop _ _ _ _ _ _) in *. clearbody d1 r. split_and!.
    + by transitivity d1.
    + intros b Hbb. rewrite (Hb b Hbb), u32_testbit, Z.lor_spec, BIT_testbit by lia.
      rewrite <-orb_assoc. f_equal. lia.
    + eapply regs_keep_trans; [exact Hk1|exact Hk|unfold cmd_window; intuition lia..].
    + intros [|k] c Hc; cbn in Hc.
      * simplify_eq. rewrite Z.add_0_r. eapply holds_keep; [lia| |exact Hk|done].
        unfold cmd_window. lia.
      * specialize (Hh k c Hc). by replace (j + Z.of_nat (S k)) with (j + 1 + Z.of_nat k) by lia.
Qed.

(** The registers a buffer write touches. *)
Definition msg_window (tcs j n r t c : Z) : Prop :=
  cmd_window tcs j n r t c \/ (r = RSC_DRV_CMD_ENABLE /\ t = tcs /\ c = 0).

Lemma buffer_write_ok d tcs j msg : 0 <= j -> j + num_cmds msg <= 31 ->
  let d' := __tcs_buffer_write d tcs j msg in
  same_rest d d' /\ regs_keep (msg_window tcs j (num_cmds msg)) d d' /\
  (forall k cmd, cmds msg !! k = Some cmd -> holds d' tcs (j + Z.of_nat k) msg cmd) /\
  bits_of (read_tcs_reg d RSC_DRV_CMD_ENABLE tcs 0) j (num_cmds msg)
    (read_tcs_reg d' RSC_DRV_CMD_ENABLE tcs 0).
Proof.
  intros Hj Hn. unfold __tcs_buffer_write.
  destruct (buffer_write_loop_ok msg (cmds msg) tcs j 0 d Hj Hn) as (Hr & Hb & Hk & Hh). cbv zeta in *.
  destruct (buffer_write_loop _ _ _ _ _ _) as [en d1]. cbn [fst snd] in *. cbv zeta.
  fold (num_cmds msg) in *.
  pose proof (write_reg_keep d1 RSC_DRV_CMD_ENABLE tcs
    (Z.lor en (read_tcs_reg d1 RSC_DRV_CMD_ENABLE tcs 0))
    (fun r t c => r = RSC_DRV_CMD_ENABLE /\ t = tcs /\ c = 0) I) as Hen.
  specialize (Hen ltac:(done)). split_and!.
  - by transitivity d1.
  - eapply regs_keep_trans; [exact Hk|exact Hen|unfold msg_window; tauto..].
  - intros k cmd Hc. eapply holds_keep; [| |exact Hen|by apply Hh].
    + apply lookup_lt_Some in Hc. unfold num_cmds in Hn. lia.
    + regs_unfold. lia.
  - intros b Hbb. rewrite read_write_reg by done. case_decide; [|tauto].
    rewrite u32_testbit, Z.lor_spec, (Hb b Hbb), Z.bits_0 by done.
    rewrite Hk; [|done|unfold cmd_window; regs_unfold; lia]. cbn. apply orb_comm.
Qed.

(** ** Triggering and interrupts *)
Lemma trigger_ok i b d : exists d', __tcs_trigger i b d = Ok (tt, d') /\ same_rest d d' /\
  regs_keep (fun r t c => r = RSC_DRV_CONTROL /\ t = i /\ c = 0) d d' /\
  (b = true -> read_tcs_reg d' RSC_DRV_CONTROL i 0 = Z.lor TCS_AMC_MODE_ENABLE TCS_AMC_MODE_TRIGGER).
Proof.
  unfold __tcs_trigger, st_bind, st_get, st_upd, st_ret.
  rewrite write_tcs_reg_sync_ok, write_tcs_reg_sync_ok. destruct b.
  - rewrite write_tcs_reg_sync_ok. eexists. split; [reflexivity|]. split; [reflexivity|]. split.
    + intros r t c Hr Hn. rewrite !read_write_reg by done. repeat (case_decide; [exfalso; apply Hn; lia|]). done.
    + intros _. rewrite read_write_reg by done. case_decide; [reflexivity|tauto].
  - eexists. split; [reflexivity|]. split; [reflexivity|]. split; [|done].
    intros r t c Hr Hn. rewrite !read_write_reg by done. repeat (case_decide; [exfalso; apply Hn; lia|]). done.
Qed.

Lemma enable_irq_ok d i b :
  same_rest d (enable_tcs_irq d i b) /\
  regs_keep (fun r t c => r = RSC_DRV_IRQ_ENABLE /\ t = 0 /\ c = 0) d (enable_tcs_irq d i b).
Proof. split; [reflexivity|]. by apply write_reg_keep. Qed.

(** ** The state of a controller with TCSes for active requests *)

(** An address a TCS has an enabled command for. *)
Definition enabled_addr (d : rsc_drv) (i a : Z) : Prop :=
  exists k, 0 <= k < MAX_CMDS_PER_TCS /\
    Z.testbit (read_tcs_reg d RSC_DRV_CMD_ENABLE i 0) k = true /\
    read_tcs_reg d RSC_DRV_CMD_ADDR i k = a.

Definition in_group (g : tcs_group) (i : Z) : Prop := g_offset g <= i < g_offset g + g_num_tcs g.

Record masks_ok (d : rsc_drv) : Prop := {
  mo_mask : forall t i, 0 <= i -> Z.testbit (g_mask (get_tcs_of_type d t)) i = true ->
               in_group (get_tcs_of_type d t) i;
  mo_req : forall t, g_num_tcs (get_tcs_of_type d t) <= Z.of_nat (length (g_req (get_tcs_of_type d t)));
  mo_len : forall t r, Some r ∈ g_req (get_tcs_of_type d t) -> num_cmds r <= MAX_CMDS_PER_TCS;
}.

Record rsc_wf (d : rsc_drv) : Prop := {
  rw_active : 0 <= g_offset (d_active d) /\ 0 < g_num_tcs (d_active d);
  rw_sleep : group_wf (d_sleep d);
  rw_wake : group_wf (d_wake d);
  rw_apart : forall i, in_group (d_active d) i ->
               ~ in_group (d_sleep d) i /\ ~ in_group (d_wake d) i;
  rw_apart2 : forall i, in_group (d_sleep d) i -> ~ in_group (d_wake d) i;
  rw_masks : masks_ok d;
}.

(** No command is enabled in a free TCS of the active group, and no address is enabled
    in two of them. *)
Record rsc_inv (d : rsc_drv) : Prop := {
  ri_wf : rsc_wf d;
  ri_free : forall i, in_group (d_active d) i -> i ∉ d_in_use d ->
              read_tcs_reg d RSC_DRV_CMD_ENABLE i 0 = 0;
  ri_excl : forall i j a, in_group (d_active d) i -> in_group (d_active d) j -> i <> j ->
              enabled_addr d i a -> ~ enabled_addr d j a;
}.

Lemma elem_of_tcs_ids g i : i ∈ tcs_ids g <-> in_group g i.
Proof. apply elem_of_seqZ. Qed.

Lemma elem_of_set_bits v n i : i ∈ set_bits v n <-> Z.testbit v i = true /\ 0 <= i < n.
Proof. unfold set_bits. rewrite list_elem_of_filter, elem_of_seqZ. naive_solver lia. Qed.

Lemma tcs_is_free_true d i : tcs_is_free d i = true <-> i ∉ d_in_use d.
Proof. apply bool_decide_eq_true. Qed.

Lemma inflight_zero d g msg : check_for_req_inflight d g msg = 0 ->
  forall i a c, in_group g i -> i ∈ d_in_use d -> enabled_addr d i a -> c ∈ cmds msg -> a <> addr c.
Proof.
  unfold check_for_req_inflight. case_if; [done|]. intros _ i a c Hi Hu (k & Hk & Hb & Ha) Hc ->.
  match goal with H : existsb _ _ = false |- _ => apply not_true_iff_false in H; apply H; clear H end.
  apply existsb_exists. exists i. split; [by apply list_elem_of_In, elem_of_tcs_ids|].
  assert (tcs_is_free d i = false) as -> by (apply not_true_iff_false; rewrite tcs_is_free_true; intros Hx; exact (Hx Hu)).
  apply existsb_exists. exists k. split; [apply list_elem_of_In, elem_of_set_bits; done|].
  apply existsb_exists. exists c. split; [by apply list_elem_of_In|]. lia.
Qed.

Lemma inflight_res d g msg : check_for_req_inflight d g msg = 0 \/ check_for_req_inflight d g msg = - EBUSY.
Proof. unfold check_for_req_inflight. case_if; auto. Qed.

(** An address of the request is in flight: a TCS of the active group that is in use has an
    enabled command for it. *)
Definition in_flight (d : rsc_drv) (msg : tcs_request) : Prop :=
  exists i c, in_group (d_active d) i /\ i ∈ d_in_use d /\ c ∈ cmds msg /\ enabled_addr d i (addr c).

Lemma inflight_spec d msg : check_for_req_inflight d (d_active d) msg = - EBUSY <-> in_flight d msg.
Proof.
  split.
  - unfold check_for_req_inflight. destruct (existsb _ _) eqn:Hx; [intros _|done].
    apply existsb_exists in Hx as (i & Hi%list_elem_of_In%elem_of_tcs_ids & Hx).
    destruct (tcs_is_free d i) eqn:Hf; [done|].
    apply existsb_exists in Hx as (j & Hj%list_elem_of_In%elem_of_set_bits & Hx).
    apply existsb_exists in Hx as (c & Hc%list_elem_of_In & Ha%Z.eqb_eq).
    exists i, c. split_and!; [done| |done|exists j; naive_solver].
    destruct (decide (i ∈ d_in_use d)) as [|Hn]; [done|]. apply tcs_is_free_true in Hn. congruence.
  - intros (i & c & Hi & Hu & Hc & Ha). destruct (inflight_res d (d_active d) msg) as [H0|]; [|done].
    by destruct (inflight_zero d _ msg H0 i (addr c) c Hi Hu Ha Hc).
Qed.

Lemma not_inflight_spec d msg : check_for_req_inflight d (d_active d) msg = 0 <-> ~ in_flight d msg.
Proof.
  rewrite <-inflight_spec. destruct (inflight_res d (d_active d) msg) as [->| ->]; unfold EBUSY; naive_solver lia.
Qed.

Lemma find_free_res d g : 0 <= g_offset g ->
  (find_free_tcs d g = - EBUSY /\ forall i, in_group g i -> i ∈ d_in_use d) \/
  (in_group g (find_free_tcs d g) /\ (find_free_tcs d g ∉ d_in_use d) /\ 0 <= find_free_tcs d g).
Proof.
  intros Ho. unfold find_free_tcs. destruct (List.find _ _) as [i|] eqn:E.
  - apply List.find_some in E as [Hi%list_elem_of_In%elem_of_tcs_ids Hf].
    right. rewrite tcs_is_free_true in Hf. unfold in_group in *. split_and!; [lia..|done|lia].
  - left. split; [done|]. intros i Hi. destruct (decide (i ∈ d_in_use d)) as [|Hn]; [done|].
    eapply List.find_none in E; [|apply list_elem_of_In, elem_of_tcs_ids; exact Hi].
    apply tcs_is_free_true in Hn. congruence.
Qed.

(** ** Sending *)

(** A request the entry points let through. *)
Definition msg_ok (msg : tcs_request) : Prop :=
  0 < num_cmds msg <= MAX_CMDS_PER_TCS /\ Forall (fun c => 0 <= addr c < 2 ^ 32) (cmds msg).

(** The state after [msg] is started on TCS [i] of the active group. *)
Record started (d d' : rsc_drv) (msg : tcs_request) (i : Z) : Prop := {
  sd_in_use : d_in_use d' = d_in_use d ∪ {[i]};
  sd_groups : forall t, t <> ACTIVE_TCS -> get_tcs_of_type d' t = get_tcs_of_type d t;
  sd_active : d_active d' = set_req (d_active d)
                (<[Z.to_nat (i - g_offset (d_active d)) := Some msg]> (g_req (d_active d)));
  sd_keep : regs_keep (fun r t c => msg_window i 0 (num_cmds msg) r t c \/
                         (r = RSC_DRV_CONTROL /\ t = i /\ c = 0)) d d';
  sd_holds : forall k cmd, cmds msg !! k = Some cmd -> holds d' i (Z.of_nat k) msg cmd;
  sd_enable : bits_of (read_tcs_reg d RSC_DRV_CMD_ENABLE i 0) 0 (num_cmds msg)
                (read_tcs_reg d' RSC_DRV_CMD_ENABLE i 0);
  sd_trigger : read_tcs_reg d' RSC_DRV_CONTROL i 0 = Z.lor TCS_AMC_MODE_ENABLE TCS_AMC_MODE_TRIGGER;
  sd_solver : d_in_solver_mode d' = d_in_solver_mode d;
  sd_done : d_done d' = d_done d;
}.

Lemma start_ok d msg i : rsc_wf d -> msg_ok msg -> in_group (d_active d) i ->
  exists d', (set_req_at ACTIVE_TCS (i - g_offset (d_active d)) msg ;;;
              st_upd (fun d => set_in_use d (d_in_use d ∪ {[i]})) ;;; st_ret tt ;;;
              st_upd (fun d => __tcs_buffer_write d i 0 msg) ;;;
              __tcs_trigger i true ;;; st_ret 0) d = Ok (0, d') /\ started d d' msg i.
Proof.
  intros Hw [Hn _] Hi. unfold in_group, MAX_CMDS_PER_TCS in *.
  unfold st_bind, st_upd, st_ret, set_req_at. cbn [get_tcs_of_type].
  pose proof (mo_req _ (rw_masks _ Hw) ACTIVE_TCS) as Hr. cbn in Hr. pose proof (rw_active _ Hw).
  case_if; [|lia]. set (d1 := set_in_use _ _).
  destruct (buffer_write_ok d1 i 0 msg) as (Hs & Hk & Hh & Hb); [lia|lia|]. cbv zeta in *.
  set (d2 := __tcs_buffer_write _ _ _ _) in *.
  destruct (trigger_ok i true d2) as (d3 & -> & Hs3 & Hk3 & Ht). exists d3. split; [done|].
  assert (Hrest : same_rest d1 d3) by (by transitivity d2).
  apply same_rest_proj in Hrest as (Hu & Hd & Hbase & Hsm & Hg).
  assert (Hreg : forall r t c, read_tcs_reg d1 r t c = read_tcs_reg d r t c) by reflexivity.
  clearbody d2. constructor.
  - by rewrite Hu.
  - intros t Ht'. rewrite Hg. by destruct t.
  - specialize (Hg ACTIVE_TCS). cbn in Hg. by rewrite Hg.
  - eapply (regs_keep_trans _ _ _ d1); [exact Hk|exact Hk3|auto..].
  - intros k cmd Hc. eapply holds_keep; [| |exact Hk3|by apply (Hh k)].
    + apply lookup_lt_Some in Hc. unfold num_cmds in Hn. lia.
    + regs_unfold. lia.
  - rewrite Hk3; [|done|regs_unfold; lia]. exact Hb.
  - by apply Ht.
  - by rewrite Hsm.
  - by rewrite Hd.
Qed.

(** The behaviour of [tcs_write] on an active request, branch by branch. *)
Lemma tcs_write_cases d msg : rsc_wf d -> msg_ok msg -> state msg = RPMH_ACTIVE_ONLY_STATE ->
  (d_in_solver_mode d = true /\ tcs_write msg d = Ok (- EINVAL, d)) \/
  (d_in_solver_mode d = false /\ check_for_req_inflight d (d_active d) msg = - EBUSY /\
   tcs_write msg d = Ok (- EBUSY, d)) \/
  (d_in_solver_mode d = false /\ check_for_req_inflight d (d_active d) msg = 0 /\
   (forall i, in_group (d_active d) i -> i ∈ d_in_use d) /\ tcs_write msg d = Ok (- EBUSY, d)) \/
  (d_in_solver_mode d = false /\ check_for_req_inflight d (d_active d) msg = 0 /\
   exists i d', in_group (d_active d) i /\ (i ∉ d_in_use d) /\
                tcs_write msg d = Ok (0, d') /\ started d d' msg i).
Proof.
  intros Hw Hm Hst. destruct (rw_active _ Hw) as [Ho Hn].
  unfold tcs_write, get_tcs_for_msg. rewrite Hst. st_run. case_if; [|lia]. st_run.
  destruct (d_in_solver_mode d) eqn:Hsol; [by left|right]. rewrite andb_false_r. st_run.
  cbn [get_tcs_of_type].
  destruct (inflight_res d (d_active d) msg) as [Hc|Hc]; rewrite Hc;
    [right|left; split_and!; reflexivity].
  cbn [Z.eqb negb]. st_run. cbn [get_tcs_of_type].
  destruct (find_free_res d (d_active d) Ho) as [[Hf Hall]|(Hi & Hu & Hpos)].
  - left. rewrite Hf. split_and!; [reflexivity|reflexivity|exact Hall|reflexivity].
  - right. split; [done|]. split; [done|]. set (i := find_free_tcs _ _) in *. clearbody i.
    destruct (start_ok d msg i Hw Hm Hi) as (d' & Hrun & Hs). exists i, d'.
    split; [done|]. split; [done|]. split; [|done]. case_if; [lia|]. exact Hrun.
Qed.

Lemma started_wf d d' msg i : rsc_wf d -> msg_ok msg -> started d d' msg i -> rsc_wf d'.
Proof.
  intros [Ha Hs Hk Hap Hap2 [Hma Hr Hl]] [Hm _] [_ Hg Hact _ _ _ _ _ _].
  pose proof (Hg SLEEP_TCS ltac:(done)) as E1. pose proof (Hg WAKE_TCS ltac:(done)) as E2. cbn in E1, E2.
  constructor; rewrite ?E1, ?E2; try done.
  - by rewrite Hact.
  - intros j. rewrite Hact. apply Hap.
  - constructor.
  { intros t j Hj. destruct (decide (t = ACTIVE_TCS)) as [->|Hne]; [|rewrite Hg by done; auto].
    cbn. rewrite Hact. apply (Hma ACTIVE_TCS j Hj). }
  { intros t. destruct (decide (t = ACTIVE_TCS)) as [->|Hne]; [|rewrite Hg by done; auto].
    cbn. rewrite Hact. cbn. rewrite length_insert. apply (Hr ACTIVE_TCS). }
  intros t r. destruct (decide (t = ACTIVE_TCS)) as [->|Hne]; [|rewrite Hg by done; apply Hl].
  cbn. rewrite Hact. cbn. intros [k Hk']%list_elem_of_lookup_1.
  apply list_lookup_insert_Some in Hk' as [(_ & [= <-] & _)|[_ Hk']]; [apply Hm|].
  apply (Hl ACTIVE_TCS). by eapply list_elem_of_lookup_2.
Qed.

(** ** Exclusion *)

(** The registers that say what TCS [i] has in flight are the same. *)
Definition same_flight (d d' : rsc_drv) (i : Z) : Prop :=
  read_tcs_reg d' RSC_DRV_CMD_ENABLE i 0 = read_tcs_reg d RSC_DRV_CMD_ENABLE i 0 /\
  forall k, 0 <= k < MAX_CMDS_PER_TCS ->
    read_tcs_reg d' RSC_DRV_CMD_ADDR i k = read_tcs_reg d RSC_DRV_CMD_ADDR i k.

Lemma same_flight_keep P d d' i : regs_keep P d d' ->
  (forall r c, r = RSC_DRV_CMD_ENABLE \/ r = RSC_DRV_CMD_ADDR -> ~ P r i c) -> same_flight d d' i.
Proof.
  intros Hk HP. split; [apply Hk; auto; done|].
  intros k Hk'. unfold MAX_CMDS_PER_TCS in Hk'. apply Hk; [apply reg_ok_cmd; [auto|lia]|auto].
Qed.

Lemma same_flight_addr d d' i a : same_flight d d' i -> enabled_addr d' i a -> enabled_addr d i a.
Proof. intros [He Ha] (k & Hk & Hb & Hr). exists k. rewrite <-He, <-Ha by done. done. Qed.

Lemma enabled_none d i a : read_tcs_reg d RSC_DRV_CMD_ENABLE i 0 = 0 -> ~ enabled_addr d i a.
Proof. intros He (k & _ & Hb & _). by rewrite He, Z.bits_0 in Hb. Qed.

Lemma started_addr d d' msg i a : msg_ok msg -> started d d' msg i ->
  read_tcs_reg d RSC_DRV_CMD_ENABLE i 0 = 0 -> enabled_addr d' i a ->
  exists c, c ∈ cmds msg /\ a = addr c.
Proof.
  intros [Hn Hr] Hs He (k & Hk & Hb & <-). unfold MAX_CMDS_PER_TCS in Hk.
  rewrite (sd_enable _ _ _ _ Hs), He, Z.bits_0 in Hb by lia. cbn in Hb.
  destruct (lookup_lt_is_Some_2 (cmds msg) (Z.to_nat k)) as [c Hc]; [unfold num_cmds in Hb; lia|].
  exists c. split; [by eapply list_elem_of_lookup_2|].
  destruct (sd_holds _ _ _ _ Hs _ _ Hc) as (_ & Ha & _). rewrite Z2Nat.id in Ha by lia.
  rewrite Ha. rewrite Forall_forall in Hr. apply u32_id, Hr. by eapply list_elem_of_lookup_2.
Qed.

Lemma started_inv d d' msg i : rsc_inv d -> msg_ok msg ->
  check_for_req_inflight d (d_active d) msg = 0 -> in_group (d_active d) i -> i ∉ d_in_use d ->
  started d d' msg i -> rsc_inv d'.
Proof.
  intros Hinv Hm Hc Hi Hu Hs.
  assert (Hact : forall j, in_group (d_active d') j <-> in_group (d_active d) j)
    by (intros j; by rewrite (sd_active _ _ _ _ Hs)).
  assert (Hsame : forall j, j <> i -> same_flight d d' j).
  { intros j Hj. eapply same_flight_keep; [apply Hs|]. unfold msg_window, cmd_window. regs_unfold. lia. }
  assert (Hother : forall j a, in_group (d_active d) j -> j <> i -> enabled_addr d' j a ->
                     ~ enabled_addr d' i a).
  { intros j a Hj Hne Ha%(same_flight_addr _ _ _ _ (Hsame j Hne)) Hai.
    destruct (started_addr _ _ _ _ _ Hm Hs (ri_free _ Hinv i Hi Hu) Hai) as (c & Hin & ->).
    destruct (decide (j ∈ d_in_use d)) as [Hju|Hju].
    - by eapply (inflight_zero d (d_active d) msg).
    - by eapply enabled_none; [apply (ri_free _ Hinv j)|]. }
  constructor.
  - eapply started_wf; [apply Hinv|done..].
  - intros j Hj%Hact Hju. rewrite (sd_in_use _ _ _ _ Hs) in Hju.
    destruct (Hsame j) as [-> _]; [set_solver|]. apply Hinv; [done|set_solver].
  - intros j k a Hj%Hact Hk%Hact Hjk Ha Hb.
    destruct (decide (j = i)) as [->|Hji]; [by eapply (Hother k)|].
    destruct (decide (k = i)) as [->|Hki]; [by eapply (Hother j)|].
    eapply (ri_excl _ Hinv j k a); eauto using same_flight_addr.
Qed.

(** A step that leaves the active TCSes alone. *)
Lemma quiet_inv d d' : rsc_inv d -> rsc_wf d' -> d_active d' = d_active d ->
  d_in_use d' = d_in_use d -> (forall i, in_group (d_active d) i -> same_flight d d' i) -> rsc_inv d'.
Proof.
  intros Hinv Hw Ha Hu Hs. constructor; [done|rewrite Ha, ?Hu..].
  - intros i Hi Hiu. destruct (Hs i Hi) as [-> _]. by apply Hinv.
  - intros i j a Hi Hj Hne Hai Haj. eapply (ri_excl _ Hinv i j a); eauto using same_flight_addr.
Qed.

(** ** Completion *)

(** Whether a command of the request did not finish. *)
Definition some_incomplete (d : rsc_drv) (i : Z) (l : list tcs_cmd) : bool :=
  existsb (fun p => cmd_incomplete d i p.1 p.2) (zip (seqZ 0 (Z.of_nat (length l))) l).

(** The request TCS [i] completes, and the error. *)
Definition completion `{TcsAbi} (d : rsc_drv) (i : Z) : option (Z * Z) :=
  match get_req_from_tcs d i with
  | Ok (Some req) => Some (req_id req, if some_incomplete d i (cmds req) then - EIO else 0)
  | _ => None
  end.

Lemma tx_err_existsb d i l : forall j e, tx_err d i j l e =
  if existsb (fun p => cmd_incomplete d i p.1 p.2) (zip (seqZ j (Z.of_nat (length l))) l)
  then - EIO else e.
Proof.
  induction l as [|c l IH]; intros j e; cbn [tx_err length].
  - by rewrite zip_with_nil_r.
  - rewrite IH, (seqZ_cons j) by lia. cbn [zip zip_with existsb fst snd].
    replace (Z.pred (Z.of_nat (S (length l)))) with (Z.of_nat (length l)) by lia.
    change (j + 1) with (Z.succ j). by destruct (cmd_incomplete d i j c), (existsb _ _).
Qed.

Lemma tcs_array_elem `{TcsAbi} t : t ∈ tcs_array.
Proof.
  unfold tcs_array. rewrite !elem_of_app, !list_elem_of_filter. pose proof (type_code_range t).
  assert (t ∈ [SLEEP_TCS; WAKE_TCS; ACTIVE_TCS; CONTROL_TCS]) by (destruct t; set_solver).
  assert (type_code t = 0 \/ type_code t = 1 \/ type_code t = 2 \/ type_code t = 3) by lia. tauto.
Qed.

Lemma land_BIT m i : 0 <= i -> Z.land m (BIT i) <> 0 <-> Z.testbit m i = true.
Proof.
  intros Hi. rewrite <-not_false_iff_true. apply not_iff_compat. split.
  - intros Hl. apply (f_equal (fun z => Z.testbit z i)) in Hl.
    rewrite Z.land_spec, BIT_testbit, Z.bits_0, Z.eqb_refl in Hl by lia. by rewrite andb_true_r in Hl.
  - intros Ht. apply Z.bits_inj'. intros b Hb. rewrite Z.land_spec, BIT_testbit, Z.bits_0 by lia.
    destruct (Z.eqb_spec i b) as [<-|]; [by rewrite Ht|by rewrite andb_false_r].
Qed.

Lemma get_tcs_from_index_mask `{TcsAbi} d i t : 0 <= i -> get_tcs_from_index d i = Some t ->
  Z.testbit (g_mask (get_tcs_of_type d t)) i = true.
Proof.
  intros Hi Hg. unfold get_tcs_from_index in Hg.
  assert (Hin : t ∈ filter (fun t => Z.land (g_mask (get_tcs_of_type d t)) (BIT i) ≠ 0) tcs_array).
  { apply head_Some_elem_of in Hg. done. }
  apply list_elem_of_filter in Hin as [Hin _]. by apply land_BIT.
Qed.

Lemma get_req_ok `{TcsAbi} d i : masks_ok d -> 0 <= i -> exists r, get_req_from_tcs d i = Ok r.
Proof.
  intros Hm Hi. unfold get_req_from_tcs. destruct (get_tcs_from_index d i) as [t|] eqn:E; [|by eexists].
  apply get_tcs_from_index_mask in E; [|done]. apply (mo_mask _ Hm) in E; [|done].
  pose proof (mo_req _ Hm t). unfold in_group in E. cbv zeta. case_if; [lia|].
  destruct (lookup_lt_is_Some_2 (g_req (get_tcs_of_type d t)) (Z.to_nat (i - g_offset (get_tcs_of_type d t))))
    as [r ->]; [lia|]. by exists r.
Qed.

(** What one iteration of the handler writes. *)
Definition irq_window (i r t c : Z) : Prop :=
  c = 0 /\ ((r = RSC_DRV_CMD_ENABLE /\ t = i) \/ (r = RSC_DRV_CONTROL /\ t = i) \/
            (r = RSC_DRV_IRQ_CLEAR /\ t = 0) \/ (r = RSC_DRV_IRQ_ENABLE /\ t = 0)).

(** Two states with the same groups. *)
Definition same_groups (d d' : rsc_drv) : Prop :=
  forall t, get_tcs_of_type d' t = get_tcs_of_type d t.

Lemma reclaim_ok i d : exists d', tx_reclaim i d = Ok (tt, d') /\
  d_in_use d' = d_in_use d ∖ {[i]} /\ d_done d' = d_done d /\ same_groups d d' /\
  regs_keep (irq_window i) d d' /\ read_tcs_reg d' RSC_DRV_CMD_ENABLE i 0 = 0.
Proof.
  unfold tx_reclaim. st_run. unfold st_upd. eexists. split; [reflexivity|]. split; [done|].
  split; [done|]. split; [by intros []|]. split.
  - intros r t c Hr Hn. unfold irq_window in Hn.
    match goal with |- read_tcs_reg (set_in_use ?d' _) _ _ _ = _ =>
      change (read_tcs_reg d' r t c = read_tcs_reg d r t c) end.
    rewrite !read_write_reg by done. regs_unfold. repeat (case_decide; [lia|]). done.
  - match goal with |- read_tcs_reg (set_in_use ?d' _) _ _ _ = _ =>
      change (read_tcs_reg d' RSC_DRV_CMD_ENABLE i 0 = 0) end.
    rewrite !read_write_reg by done. regs_unfold. repeat (case_decide; [done || lia|]). lia.
Qed.

Lemma repurposed_ok i d (b : bool) : exists d',
  (if b then __tcs_trigger i false ;;; st_upd (fun d => enable_tcs_irq d i false) else st_ret tt) d
  = Ok (tt, d') /\ same_rest d d' /\ regs_keep (irq_window i) d d'.
Proof.
  destruct b; [|by exists d].
  destruct (trigger_ok i false d) as (d1 & Ht & Hs & Hk & _). unfold st_bind. rewrite Ht.
  destruct (enable_irq_ok d1 i false) as [Hs' Hk']. eexists. split; [reflexivity|].
  split; [by transitivity d1|]. eapply regs_keep_trans; [exact Hk|exact Hk'|unfold irq_window; tauto..].
Qed.

Section completion.
Context `{TcsAbi}.

Lemma tx_done_one_ok d i : masks_ok d -> 0 <= i -> exists d', tx_done_one i d = Ok (tt, d') /\
  d_in_use d' = d_in_use d ∖ {[i]} /\ d_done d' = d_done d ++ option_list (completion d i) /\
  same_groups d d' /\ regs_keep (irq_window i) d d' /\ read_tcs_reg d' RSC_DRV_CMD_ENABLE i 0 = 0.
Proof.
  intros Hm Hi. unfold tx_done_one, completion.
  destruct (get_req_ok d i Hm Hi) as [[req|] Hreq]; rewrite Hreq.
  - cbv zeta. rewrite tx_err_existsb. fold (some_incomplete d i (cmds req)).
    destruct (repurposed_ok i d (g_num_tcs (d_active d) =? 0)) as (d1 & Hr1 & Hs1 & Hk1).
    rewrite (st_bind_ok _ _ _ _ _ Hr1).
    destruct (reclaim_ok i d1) as (d2 & Hr2 & Hu2 & Hd2 & Hg2 & Hk2 & He2).
    rewrite (st_bind_ok _ _ _ _ _ Hr2). unfold st_upd. eexists. split; [reflexivity|].
    apply same_rest_proj in Hs1 as (Hu & Hd & _ & _ & Hg).
    cbn. rewrite Hu2, Hu, Hd2, Hd. split_and!; [done|done| | |done].
    + intros t. transitivity (get_tcs_of_type d2 t); [by destruct t|]. by rewrite Hg2, Hg.
    + eapply (regs_keep_trans _ _ _ d d1); [exact Hk1|exact Hk2|auto..].
  - destruct (reclaim_ok i d) as (d2 & Hr2 & Hu2 & Hd2 & Hg2 & Hk2 & He2).
    exists d2. rewrite Hd2, app_nil_r. done.
Qed.

Lemma masks_ok_groups d d' : same_groups d d' -> masks_ok d -> masks_ok d'.
Proof. intros Hg [H1 H2 H3]. constructor; intros t; rewrite Hg; [apply H1|apply H2|apply H3]. Qed.

Lemma get_req_groups d d' i : same_groups d d' -> get_req_from_tcs d' i = get_req_from_tcs d i.
Proof.
  intros Hg. unfold get_req_from_tcs, get_tcs_from_index.
  rewrite (list_filter_iff _ (fun t => Z.land (g_mask (get_tcs_of_type d t)) (BIT i) ≠ 0) tcs_array)
    by (intros t; by rewrite Hg).
  destruct (head _); [|done]. by rewrite Hg.
Qed.

(** The status of the commands is not written by the driver. *)
Lemma completion_keep d d' i j : masks_ok d -> same_groups d d' -> regs_keep (irq_window i) d d' ->
  completion d' j = completion d j.
Proof.
  intros Hm Hg Hk. unfold completion. rewrite (get_req_groups d d') by done.
  destruct (get_req_from_tcs d j) as [[req|]| |] eqn:E; [|done..].
  assert (Hlen : num_cmds req <= MAX_CMDS_PER_TCS).
  { unfold get_req_from_tcs in E. destruct (get_tcs_from_index d j) as [t|]; [|done]. cbv zeta in E.
    case_if_in E; [done|]. destruct (_ !! _) eqn:El; [|done]. simplify_eq.
    eapply (mo_len _ Hm t). by eapply list_elem_of_lookup_2. }
  enough (some_incomplete d' j (cmds req) = some_incomplete d j (cmds req)) as -> by done.
  unfold some_incomplete. apply eq_true_iff_eq. rewrite !existsb_exists.
  apply exist_proper. intros [k c]. split; (intros [Hin Hc]; split; [done|]); revert Hc;
    apply list_elem_of_In, elem_of_zip_l, elem_of_seqZ in Hin; cbn;
    unfold cmd_incomplete; rewrite Hk; try done;
    unfold irq_window, MAX_CMDS_PER_TCS, num_cmds in *;
    first [apply reg_ok_cmd; [tauto|lia] | regs_unfold; lia].
Qed.

Lemma tx_done_loop_ok l : forall d, masks_ok d -> Forall (fun i => 0 <= i) l -> NoDup l ->
  exists d', tx_done_loop l d = Ok (tt, d') /\
  d_in_use d' = d_in_use d ∖ list_to_set l /\ d_done d' = d_done d ++ omap (completion d) l /\
  same_groups d d' /\ (forall i, i ∈ l -> read_tcs_reg d' RSC_DRV_CMD_ENABLE i 0 = 0) /\
  regs_keep (fun r t c => exists i, i ∈ l /\ irq_window i r t c) d d'.
Proof.
  induction l as [|i l IH]; intros d Hm Hpos Hnd; cbn [tx_done_loop].
  - exists d. cbn. rewrite app_nil_r. split_and!; [done|set_solver|done|done|set_solver|done].
  - apply Forall_cons in Hpos as [Hi Hpos]. apply NoDup_cons in Hnd as [Hni Hnd].
    destruct (tx_done_one_ok d i Hm Hi) as (d1 & Hr1 & Hu1 & Hd1 & Hg1 & Hk1 & He1).
    rewrite (st_bind_ok _ _ _ _ _ Hr1).
    destruct (IH d1 (masks_ok_groups _ _ Hg1 Hm) Hpos Hnd) as (d2 & Hr2 & Hu2 & Hd2 & Hg2 & He2 & Hk2).
    exists d2. split; [done|]. split_and!.
    + rewrite Hu2, Hu1. set_solver.
    + rewrite Hd2, Hd1, <-app_assoc. f_equal. cbn.
      rewrite (list_omap_ext (completion d1) (completion d) l l);
        [by destruct (completion d i)|]. apply Forall2_same_length_lookup_2; [done|].
      intros. simplify_eq. by eapply completion_keep.
    + intros t. by rewrite Hg2, Hg1.
    + intros j [->|Hj]%elem_of_cons; [|by apply He2]. rewrite Hk2; [done|done|].
      intros (j & Hj & _ & [(_ & ->)|Hx]); [done|]. regs_unfold. lia.
    + eapply regs_keep_trans; [exact Hk1|exact Hk2| |].
      * intros r t c Hx. exists i. split; [left|done].
      * intros r t c (j & Hj & Hx). exists j. split; [by right|done].
Qed.

Lemma set_bits_facts v n : Forall (fun i => 0 <= i) (set_bits v n) /\ NoDup (set_bits v n).
Proof.
  split; [|apply NoDup_filter, NoDup_seqZ]. apply Forall_forall.
  intros i [_ Hi]%elem_of_set_bits. lia.
Qed.

(** C35: the interrupt handler returns from every state whose masks describe its groups; it
    frees exactly the TCSes whose bit is set in the status register, disables their
    commands, completes the request of each of them once, in increasing order of TCS, with
    -EIO when one of its commands was not issued or was to be waited for and did not
    complete and with 0 otherwise, and leaves the commands of every other TCS as they are.
    *)
Theorem tcs_tx_done_correct d : masks_ok d ->
  let bits := set_bits (read_tcs_reg d RSC_DRV_IRQ_STATUS 0 0) BITS_PER_LONG in
  exists d', tcs_tx_done d = Ok (tt, d') /\
    d_in_use d' = d_in_use d ∖ list_to_set bits /\
    d_done d' = d_done d ++ omap (completion d) bits /\
    (forall i, i ∈ bits -> read_tcs_reg d' RSC_DRV_CMD_ENABLE i 0 = 0) /\
    (forall i, i ∉ bits -> same_flight d d' i) /\ same_groups d d'.
Proof.
  intros Hm bits. destruct (set_bits_facts (read_tcs_reg d RSC_DRV_IRQ_STATUS 0 0) BITS_PER_LONG).
  destruct (tx_done_loop_ok bits d) as (d' & Hr & Hu & Hd & Hg & He & Hk); [done..|].
  exists d'. split_and!; try done. intros i Hi. eapply same_flight_keep; [exact Hk|].
  intros r c Hrc (j & Hj & _ & [(_ & ->)|Hx]); [done|]. regs_unfold. lia.
Qed.
End completion.

(** ** The sleep and wake groups *)
Definition cached_type (msg : tcs_request) : option tcs_type :=
  match state msg with
  | RPMH_SLEEP_STATE => Some SLEEP_TCS
  | RPMH_WAKE_ONLY_STATE => Some WAKE_TCS
  | _ => None
  end.

Definition same_shape (g g' : tcs_group) : Prop :=
  g_offset g' = g_offset g /\ g_num_tcs g' = g_num_tcs g /\ g_mask g' = g_mask g /\ g_req g' = g_req g.

Lemma get_set_tcs d t g u :
  get_tcs_of_type (set_tcs d t g) u = if decide (t = u) then g else get_tcs_of_type d u.
Proof. destruct t, u; reflexivity. Qed.

Lemma group_wf_of d t : rsc_wf d -> t = SLEEP_TCS \/ t = WAKE_TCS -> group_wf (get_tcs_of_type d t).
Proof. intros Hw [->| ->]; apply Hw. Qed.

Lemma set_tcs_wf d t g : rsc_wf d -> t = SLEEP_TCS \/ t = WAKE_TCS -> group_wf g ->
  same_shape (get_tcs_of_type d t) g -> rsc_wf (set_tcs d t g).
Proof.
  intros Hw Ht Hg (Ho & Hn & Hm & Hr).
  assert (Hin : forall i, in_group g i <-> in_group (get_tcs_of_type d t) i)
    by (intros i; unfold in_group; by rewrite Ho, Hn).
  assert (Hmasks : masks_ok (set_tcs d t g)).
  { destruct (rw_masks _ Hw) as [M1 M2 M3].
    constructor; intros u; rewrite get_set_tcs; case_decide; subst; auto.
    - intros i Hi. rewrite Hm. intros Hb. apply Hin. by apply M1.
    - rewrite Hn, Hr. apply M2.
    - intros r. rewrite Hr. apply M3.
    - apply M3. }
  destruct Hw as [Ha Hs Hk Hap Hap2 _]. destruct Ht as [->| ->]; constructor; cbn; try done.
  1,3: intros i Hi; destruct (Hap i Hi); rewrite Hin; done.
  all: intros i Hi; rewrite Hin in *; by apply Hap2.
Qed.

Lemma same_rest_wf d d' : same_rest d d' -> rsc_wf d -> rsc_wf d'.
Proof.
  intros (_ & _ & _ & _ & Hg)%same_rest_proj [Ha Hs Hk Hap Hap2 Hm].
  pose proof (Hg SLEEP_TCS) as E1. pose proof (Hg WAKE_TCS) as E2. pose proof (Hg ACTIVE_TCS) as E3.
  cbn in E1, E2, E3. constructor; rewrite ?E1, ?E2, ?E3; auto. eapply masks_ok_groups; [exact Hg|done].
Qed.

Lemma slot_in_group g s : group_wf g -> 0 <= s < total g ->
  in_group g (slot_pos g s).1 /\ 0 <= (slot_pos g s).2 < g_ncpt g.
Proof.
  intros Hw Hs. pose proof (wf_ncpt _ Hw). unfold slot_pos, in_group, total in *. cbn.
  pose proof (Z.div_mod s (g_ncpt g)). pose proof (Z.mod_pos_bound s (g_ncpt g)). nia.
Qed.

Lemma placed_shape g g' msg s : placed g g' msg s -> same_shape g g'.
Proof. intros (? & ? & ? & ? & ? & _). done. Qed.

(** What a write to the controller does: an error that changes nothing, or the message
    in the slots chosen by [find_slots]. *)
Definition ctrl_written (d : rsc_drv) (t : tcs_type) (msg : tcs_request) (r : Z) (d' : rsc_drv) : Prop :=
  (r = - ENOMEM /\ d' = set_tcs d t (get_tcs_of_type d t) /\
   forall s, ~ fits (get_tcs_of_type d t) s (num_cmds msg)) \/
  (r = 0 /\ exists s g', 0 <= s /\ s + num_cmds msg <= total (get_tcs_of_type d t) /\
     (hit (get_tcs_of_type d t) msg s \/ fits (get_tcs_of_type d t) s (num_cmds msg)) /\
     group_wf g' /\ placed (get_tcs_of_type d t) g' msg s /\
     let '(i, c) := slot_pos (get_tcs_of_type d t) s in
     d' = __tcs_buffer_write (set_tcs d t g') i c msg).

Lemma ctrl_write_ok `{BitmapArea} d t msg : rsc_wf d -> msg_ok msg -> cached_type msg = Some t ->
  exists r d', tcs_ctrl_write msg d = Ok (r, d') /\ ctrl_written d t msg r d'.
Proof.
  intros Hw [Hn _] Ht. unfold tcs_ctrl_write.
  assert (Hget : get_tcs_for_msg msg d = Ok (inr t, d))
    by (unfold get_tcs_for_msg, cached_type in *; by destruct (state msg); simplify_eq).
  rewrite (st_bind_ok _ _ _ _ _ Hget).
  assert (Hsw : t = SLEEP_TCS \/ t = WAKE_TCS)
    by (unfold cached_type in Ht; destruct (state msg); simplify_eq; auto).
  pose proof (group_wf_of d t Hw Hsw) as Hg. unfold st_bind at 1.
  destruct (cmds msg) as [|c0 l'] eqn:Hc; [unfold num_cmds in Hn; rewrite Hc in Hn; cbn in Hn; lia|].
  destruct (find_match_ok _ _ c0 l' Hg Hc) as (m & Hm & Hres). fold (num_cmds msg) in Hm.
  destruct (decide (0 <= m)) as [Hpos|Hneg].
  - destruct (match_result_hit _ _ _ _ _ Hres Hpos) as ((? & ?)%elem_of_slot_bits & ? & ?).
    fold (num_cmds msg) in *.
    destruct (find_slots_hit _ Hg msg m Hm Hpos) as (g' & Hf & ? & Hp); [lia|]. rewrite Hf.
    eexists _, _. split; [reflexivity|]. right. split; [done|]. exists m, g'. unfold hit.
    split_and!; try done; [lia|]. left. split_and!; [done|lia|done|lia].
  - destruct (find_slots_fresh _ Hg msg m ltac:(lia) Hm ltac:(lia))
      as [[Hf Hno]|(s & g' & Hf & Hfit & _ & ? & Hp)]; rewrite Hf; (eexists _, _; split; [reflexivity|]).
    + left. done.
    + right. split; [done|]. exists s, g'. pose proof Hfit as (? & ? & _).
      split_and!; try done. by right.
Qed.

Lemma ctrl_written_wf d t msg r d' : rsc_wf d -> msg_ok msg -> t = SLEEP_TCS \/ t = WAKE_TCS ->
  ctrl_written d t msg r d' -> rsc_wf d' /\ d_active d' = d_active d /\ d_in_use d' = d_in_use d /\
  d_in_solver_mode d' = d_in_solver_mode d /\
  (forall i, ~ in_group (get_tcs_of_type d t) i -> same_flight d d' i).
Proof.
  intros Hw [Hn _] Ht. unfold MAX_CMDS_PER_TCS in Hn.
  intros [(_ & -> & _)|(_ & s & g' & Hs & Hst & _ & Hg' & Hp & Hd)].
  - split; [apply set_tcs_wf; auto using group_wf_of; done|]. by destruct Ht as [->| ->].
  - pose proof (group_wf_of d t Hw Ht) as Hg.
    destruct (slot_in_group _ s Hg) as [Hin Hc]; [lia|]. destruct (slot_pos _ s) as [i c]. cbn in Hin, Hc.
    pose proof (wf_ncpt _ Hg). unfold MAX_CMDS_PER_TCS in *.
    destruct (buffer_write_ok (set_tcs d t g') i c msg) as (Hsr & Hk & _); [lia..|].
    cbv zeta in *. rewrite <-Hd in *. clear Hd.
    split; [eapply same_rest_wf; [exact Hsr|]; apply set_tcs_wf; eauto using placed_shape|].
    apply same_rest_proj in Hsr as (Hu & _ & _ & Hm & Hga). specialize (Hga ACTIVE_TCS).
    rewrite get_set_tcs in Hga. rewrite decide_False in Hga by (by destruct Ht as [->| ->]).
    cbn in Hga, Hu, Hm. split_and!; [done..|]. intros j Hj.
    eapply (same_flight_keep _ (set_tcs d t g')); [exact Hk|].
    unfold msg_window, cmd_window. intros r' c' _ Hx. apply Hj. by destruct Hx as [(-> & _)|(_ & -> & _)].
Qed.

(** ** Invalidation *)
Definition inval_window (lo n r t c : Z) : Prop :=
  c = 0 /\ lo <= t < lo + n /\ (r = RSC_DRV_CMD_ENABLE \/ r = RSC_DRV_CMD_WAIT_FOR_CMPL).

Lemma invalidate_loop_ok n : forall m d, exists r d', invalidate_loop n m d = Ok (r, d') /\
  same_rest d d' /\ regs_keep (inval_window m (Z.of_nat n)) d d' /\
  ((r = 0 /\ forall i, m <= i < m + Z.of_nat n -> i ∉ d_in_use d /\
      read_tcs_reg d' RSC_DRV_CMD_ENABLE i 0 = 0) \/
   (r = - EAGAIN /\ exists i, m <= i < m + Z.of_nat n /\ i ∈ d_in_use d)).
Proof.
  induction n as [|n IH]; intros m d; cbn [invalidate_loop].
  - eexists _, d. split; [reflexivity|]. split_and!; [done|done|]. left. split; [done|lia].
  - st_run. destruct (tcs_is_free d m) eqn:Hf; cbn [negb].
    + rewrite (st_bind_ok _ _ _ _ _ (write_tcs_reg_sync_ok _ _ _ _)).
      rewrite (st_bind_ok _ _ _ _ _ (write_tcs_reg_sync_ok _ _ _ _)).
      set (d1 := write_tcs_reg (write_tcs_reg _ _ _ _) _ _ _).
      assert (Hs1 : same_rest d d1) by reflexivity.
      assert (Hk1 : regs_keep (inval_window m 1) d d1).
      { intros r t c Hr Hn. subst d1. rewrite !read_write_reg by done. unfold inval_window in Hn.
        repeat (case_decide; [lia|]). done. }
      assert (He1 : read_tcs_reg d1 RSC_DRV_CMD_ENABLE m 0 = 0).
      { subst d1. rewrite !read_write_reg by done. regs_unfold. repeat (case_decide; [done || lia|]). lia. }
      clearbody d1. destruct (IH (m + 1) d1) as (r & d2 & Hr & Hs2 & Hk2 & Hres).
      exists r, d2. split; [exact Hr|]. split; [by transitivity d1|].
      split; [eapply regs_keep_trans; [exact Hk1|exact Hk2|unfold inval_window; lia..]|].
      apply same_rest_proj in Hs1 as (Hu & _). rewrite Hu in Hres. rewrite tcs_is_free_true in Hf.
      destruct Hres as [[-> Hall]|[-> (i & Hi & Hiu)]]; [left|right; split; [done|exists i; split; [lia|done]]].
      split; [done|]. intros i Hi. destruct (Z.eq_dec i m) as [->|]; [|apply Hall; lia].
      split; [done|]. rewrite Hk2; [done|done|]. unfold inval_window. lia.
    + eexists _, d. split; [reflexivity|]. split_and!; [done|done|]. right. split; [done|].
      exists m. split; [lia|]. unfold tcs_is_free in Hf. apply bool_decide_eq_false in Hf.
      destruct (decide (m ∈ d_in_use d)); [done|by destruct Hf].
Qed.

Definition clear_slots (g : tcs_group) : tcs_group := set_slots g (g_cmd_cache g) ∅.

Lemma tcs_invalidate_ok d t : 0 <= g_num_tcs (get_tcs_of_type d t) ->
  exists r d', tcs_invalidate t d = Ok (r, d') /\
  regs_keep (inval_window (g_offset (get_tcs_of_type d t)) (g_num_tcs (get_tcs_of_type d t))) d d' /\
  ((r = 0 /\ same_rest (set_tcs d t (clear_slots (get_tcs_of_type d t))) d' /\
    (g_slots (get_tcs_of_type d t) <> ∅ -> forall i, in_group (get_tcs_of_type d t) i ->
       i ∉ d_in_use d /\ read_tcs_reg d' RSC_DRV_CMD_ENABLE i 0 = 0)) \/
   (r = - EAGAIN /\ same_rest d d' /\ exists i, in_group (get_tcs_of_type d t) i /\ i ∈ d_in_use d)).
Proof.
  intros Hn. unfold tcs_invalidate. st_run. set (g := get_tcs_of_type d t) in *. case_bool_decide as He.
  - eexists _, d. split; [reflexivity|]. split; [done|]. left. split; [done|]. split; [|done].
    unfold clear_slots. rewrite <-He. subst g. unfold same_rest. destruct d, t; cbn; by destruct (_ : tcs_group).
  - destruct (invalidate_loop_ok (Z.to_nat (g_num_tcs g)) (g_offset g) d) as (r & d1 & Hr & Hs & Hk & Hres).
    rewrite (st_bind_ok _ _ _ _ _ Hr). rewrite Z2Nat.id in * by done.
    destruct Hres as [[-> Hall]|[-> Hex]].
    + cbn [Z.eqb negb]. rewrite st_bind_upd. unfold st_ret. eexists _, _. split; [reflexivity|].
      apply same_rest_proj in Hs as Hp. destruct Hp as (_ & _ & _ & _ & Hg). split; [exact Hk|].
      left. split; [done|]. split; [|intros _; exact Hall]. rewrite Hg. subst g.
      unfold same_rest in *. destruct d, d1; cbn in *; simplify_eq. by destruct t.
    + eexists _, _. split; [reflexivity|]. auto.
Qed.

(** What leaves the active TCSes alone. *)
Definition quiet (d d' : rsc_drv) : Prop :=
  rsc_wf d' /\ d_active d' = d_active d /\ d_in_use d' = d_in_use d /\
  forall i, in_group (d_active d) i -> same_flight d d' i.

Lemma quiet_trans d1 d2 d3 : quiet d1 d2 -> quiet d2 d3 -> quiet d1 d3.
Proof.
  intros (Hw & Ha & Hu & Hf) (Hw' & Ha' & Hu' & Hf'). unfold quiet. rewrite Ha', Ha, Hu'. split_and!; auto.
  intros i Hi. destruct (Hf i Hi) as [E1 E2]. rewrite <-Ha in Hi. destruct (Hf' i Hi) as [E3 E4].
  split; [congruence|]. intros k Hk. rewrite E4, E2 by done. done.
Qed.

Lemma apart_of d t i : rsc_wf d -> t = SLEEP_TCS \/ t = WAKE_TCS -> in_group (d_active d) i ->
  ~ in_group (get_tcs_of_type d t) i.
Proof. intros Hw [->| ->] Hi; by apply (rw_apart _ Hw i Hi). Qed.

Lemma clear_slots_wf g : group_wf g -> group_wf (clear_slots g).
Proof. intros [? ? ? ? ?]. by constructor. Qed.

Lemma tcs_invalidate_quiet d t : rsc_wf d -> t = SLEEP_TCS \/ t = WAKE_TCS ->
  exists r d', tcs_invalidate t d = Ok (r, d') /\ quiet d d' /\ (r = 0 \/ r = - EAGAIN) /\
    (r = 0 -> same_groups (set_tcs d t (clear_slots (get_tcs_of_type d t))) d').
Proof.
  intros Hw Ht. pose proof (group_wf_of d t Hw Ht) as Hg.
  destruct (tcs_invalidate_ok d t) as (r & d' & Hr & Hk & Hres); [apply Hg|].
  exists r, d'. split; [done|].
  assert (Hsf : forall i, in_group (d_active d) i -> same_flight d d' i).
  { intros i Hi. eapply same_flight_keep; [exact Hk|]. unfold inval_window. intros r' c _ (_ & Hx & _).
    by apply (apart_of d t i). }
  destruct Hres as [(-> & Hs & _)|(-> & Hs & _)].
  - split; [|split; [by left|intros _; by apply same_rest_proj in Hs as (_ & _ & _ & _ & ?)]].
    split; [eapply same_rest_wf; [exact Hs|]; apply set_tcs_wf; auto using clear_slots_wf; done|].
    apply same_rest_proj in Hs as (Hu & _ & _ & _ & Hgr). specialize (Hgr ACTIVE_TCS).
    rewrite get_set_tcs, decide_False in Hgr by (by destruct Ht as [->| ->]). split_and!; try done.
  - split; [|split; [by right|done]]. split; [by eapply same_rest_wf|].
    apply same_rest_proj in Hs as (Hu & _ & _ & _ & Hgr). specialize (Hgr ACTIVE_TCS). done.
Qed.

Lemma rsc_invalidate_quiet d : rsc_wf d -> exists r d', rpmh_rsc_invalidate d = Ok (r, d') /\
  quiet d d' /\ (r = 0 \/ r = - EAGAIN) /\
  (r = 0 -> d_sleep d' = clear_slots (d_sleep d) /\ d_wake d' = clear_slots (d_wake d)).
Proof.
  intros Hw. unfold rpmh_rsc_invalidate.
  destruct (tcs_invalidate_quiet d SLEEP_TCS) as (r1 & d1 & Hr1 & Hq1 & Hc1 & Hg1); [auto..|].
  rewrite (st_bind_ok _ _ _ _ _ Hr1). destruct Hc1 as [->| ->]; cbn [Z.eqb].
  - destruct (tcs_invalidate_quiet d1 WAKE_TCS) as (r2 & d2 & Hr2 & Hq2 & Hc2 & Hg2); [apply Hq1|auto|].
    exists r2, d2. split; [exact Hr2|]. split; [by eapply quiet_trans|]. split; [done|].
    intros ->. specialize (Hg1 eq_refl). specialize (Hg2 eq_refl).
    pose proof (Hg1 SLEEP_TCS : d_sleep d1 = clear_slots (d_sleep d)) as E1.
    pose proof (Hg1 WAKE_TCS : d_wake d1 = d_wake d) as E2.
    pose proof (Hg2 SLEEP_TCS : d_sleep d2 = d_sleep d1) as E3.
    pose proof (Hg2 WAKE_TCS : d_wake d2 = clear_slots (d_wake d1)) as E4.
    rewrite E3, E1, E4, E2. done.
  - eexists _, d1. split; [reflexivity|]. split; [done|]. split; [by right|done].
Qed.

(** ** The controller as a transition system *)
Lemma set_solver_wf d b : rsc_wf d -> rsc_wf (set_solver d b).
Proof.
  intros [A B C D D2 E]. constructor; [exact A|exact B|exact C|exact D|exact D2|].
  apply (masks_ok_groups d); [by intros []|exact E].
Qed.

Section steps.
Context `{TcsAbi} `{BitmapArea}.

(** The hardware changes the registers it owns, never a command's enable bit or address. *)
Definition hw_step (d d' : rsc_drv) : Prop :=
  same_rest d d' /\ forall i, same_flight d d' i.

Inductive rsc_step (d : rsc_drv) : rsc_drv -> Prop :=
| step_send msg r d' : msg_ok msg -> state msg = RPMH_ACTIVE_ONLY_STATE ->
    tcs_write msg d = Ok (r, d') -> rsc_step d d'
| step_irq d' : tcs_tx_done d = Ok (tt, d') -> rsc_step d d'
| step_hw d' : hw_step d d' -> rsc_step d d'
| step_ctrl msg t r d' : msg_ok msg -> cached_type msg = Some t ->
    rpmh_rsc_write_ctrl_data (Some msg) d = Ok (r, d') -> rsc_step d d'
| step_invalidate r d' : rpmh_rsc_invalidate d = Ok (r, d') -> rsc_step d d'
| step_solver b : rsc_step d (set_solver d b).

Lemma irq_inv d d' : rsc_inv d -> tcs_tx_done d = Ok (tt, d') -> rsc_inv d'.
Proof.
  intros Hinv Hr. pose proof (ri_wf _ Hinv) as Hw.
  destruct (set_bits_facts (read_tcs_reg d RSC_DRV_IRQ_STATUS 0 0) BITS_PER_LONG) as [Hp Hnd].
  destruct (tx_done_loop_ok _ d (rw_masks _ Hw) Hp Hnd) as (d1 & Hr1 & Hu & _ & Hg & He & Hk).
  change (tcs_tx_done d = Ok (tt, d1)) in Hr1. rewrite Hr1 in Hr. simplify_eq.
  set (bits := set_bits _ _) in *.
  assert (Hsf : forall i, i ∉ bits -> same_flight d d' i).
  { intros i Hi. eapply same_flight_keep; [exact Hk|].
    intros r c Hrc (j & Hj & _ & [(_ & ->)|Hx]); [done|]. regs_unfold. lia. }
  pose proof (Hg ACTIVE_TCS) as Ha. pose proof (Hg SLEEP_TCS) as Hs. pose proof (Hg WAKE_TCS) as Hwk.
  cbn in Ha, Hs, Hwk. constructor.
  - destruct Hw. constructor; rewrite ?Ha, ?Hs, ?Hwk; auto. by eapply masks_ok_groups.
  - intros i Hi Hiu. destruct (decide (i ∈ bits)) as [Hb|Hb]; [by apply He|].
    destruct (Hsf i Hb) as [-> _]. rewrite Ha in Hi. apply Hinv; [done|]. rewrite Hu in Hiu. set_solver.
  - rewrite Ha. intros i j a Hi Hj Hij Hai Haj.
    destruct (decide (i ∈ bits)) as [Hb|Hb]; [by eapply enabled_none; [apply (He i Hb)|]|].
    destruct (decide (j ∈ bits)) as [Hb'|Hb']; [by eapply enabled_none; [apply (He j Hb')|]|].
    eapply (ri_excl _ Hinv i j a); eauto using same_flight_addr.
Qed.

Lemma quiet_inv' d d' : rsc_inv d -> quiet d d' -> rsc_inv d'.
Proof. intros Hinv (? & ? & ? & ?). by eapply quiet_inv. Qed.

Lemma write_ctrl_unfold msg t d r : msg_ok msg -> cached_type msg = Some t ->
  rpmh_rsc_write_ctrl_data (Some msg) d = Ok r -> r = (- EINVAL, d) \/ tcs_ctrl_write msg d = Ok r.
Proof.
  intros _ Ht. unfold rpmh_rsc_write_ctrl_data. case_if; [intros [= <-]; by left|].
  unfold cached_type in Ht. destruct (state msg); simplify_eq; cbn; by right.
Qed.

Lemma step_inv d d' : rsc_inv d -> rsc_step d d' -> rsc_inv d'.
Proof.
  intros Hinv Hst. pose proof (ri_wf _ Hinv) as Hw. inversion Hst as
    [msg r d1 Hm Hs Hr|d1 Hr|d1 [Hs Hf]|msg t r d1 Hm Ht Hr|r d1 Hr|b]; subst.
  - destruct (tcs_write_cases d msg Hw Hm Hs) as
      [[_ Hx]|[(_ & _ & Hx)|[(_ & _ & _ & Hx)|(_ & Hc & i & d2 & Hi & Hiu & Hx & Hst')]]];
      rewrite Hx in Hr; simplify_eq; [done..|]. by eapply started_inv.
  - by eapply irq_inv.
  - apply (quiet_inv' d); [done|]. split; [by eapply same_rest_wf|].
    apply same_rest_proj in Hs as (Hu & _ & _ & _ & Hg). specialize (Hg ACTIVE_TCS). split_and!; auto.
  - destruct (write_ctrl_unfold msg t d (r, d') Hm Ht Hr) as [?|Hr']; [by simplify_eq|].
    destruct (ctrl_write_ok d t msg Hw Hm Ht) as (r' & d2 & Hr2 & Hcw). rewrite Hr2 in Hr'. simplify_eq.
    assert (Hsw : t = SLEEP_TCS \/ t = WAKE_TCS)
      by (unfold cached_type in Ht; destruct (state msg); simplify_eq; auto).
    destruct (ctrl_written_wf d t msg r d' Hw Hm Hsw Hcw) as (Hw' & Ha & Hu & _ & Hsf).
    apply (quiet_inv' d); [done|]. split_and!; auto using apart_of.
  - destruct (rsc_invalidate_quiet d Hw) as (r' & d2 & Hr2 & Hq & _). rewrite Hr2 in Hr. simplify_eq.
    by eapply quiet_inv'.
  - apply (quiet_inv' d); [done|]. split_and!; [|done..]. by apply set_solver_wf.
Qed.

(** C2: no address is in flight twice. Whatever the sequence of active requests, completion
    interrupts, hardware steps, cached writes, invalidations and mode changes, from a state
    where it holds, no two TCSes of the active group have an enabled command for the same
    address, and a free TCS has none. *)
Theorem rsc_exclusion d d' : rsc_inv d -> rtc rsc_step d d' ->
  (forall i j a, in_group (d_active d') i -> in_group (d_active d') j -> i <> j ->
     enabled_addr d' i a -> ~ enabled_addr d' j a) /\
  (forall i a, in_group (d_active d') i -> i ∉ d_in_use d' -> ~ enabled_addr d' i a).
Proof.
  intros Hinv Hsteps. assert (Hinv' : rsc_inv d').
  { induction Hsteps as [|d d1 d2 Hst _ IH]; [done|]. eauto using step_inv. }
  split; [apply Hinv'|]. intros i a Hi Hu. by eapply enabled_none, ri_free.
Qed.

(** The operations of the controller return from every reachable state: none of them
    accesses an array out of bounds or spins forever. *)
Theorem rsc_total d d' msg t : rsc_inv d -> rtc rsc_step d d' -> msg_ok msg ->
  (state msg = RPMH_ACTIVE_ONLY_STATE -> exists r d2, tcs_write msg d' = Ok (r, d2)) /\
  (cached_type msg = Some t -> exists r d2, tcs_ctrl_write msg d' = Ok (r, d2)) /\
  (exists d2, tcs_tx_done d' = Ok (tt, d2)) /\
  (exists r d2, rpmh_rsc_invalidate d' = Ok (r, d2)).
Proof.
  intros Hinv Hsteps Hm. assert (Hw : rsc_wf d').
  { apply ri_wf. induction Hsteps as [|d d1 d2 Hst _ IH]; [done|]. eauto using step_inv. }
  split_and!.
  - intros Hs. destruct (tcs_write_cases d' msg Hw Hm Hs) as
      [[_ Hx]|[(_ & _ & Hx)|[(_ & _ & _ & Hx)|(_ & Hc & i & d2 & Hi & Hiu & Hx & Hst')]]]; eauto.
  - intros Ht. destruct (ctrl_write_ok d' t msg Hw Hm Ht) as (r & d2 & Hr & _). eauto.
  - destruct (set_bits_facts (read_tcs_reg d' RSC_DRV_IRQ_STATUS 0 0) BITS_PER_LONG) as [Hp Hnd].
    destruct (tx_done_loop_ok _ d' (rw_masks _ Hw) Hp Hnd) as (d2 & Hr & _). by exists d2.
  - destruct (rsc_invalidate_quiet d' Hw) as (r & d2 & Hr & _). eauto.
Qed.
End steps.

(** C36: an active request to a controller with active TCSes: in solver mode it is refused
    with -EINVAL; when a TCS of the active group that is in use has an enabled command for
    one of its addresses, or no TCS of the group is free, it gets -EBUSY, in each case with
    nothing changed; otherwise it is written to a free TCS, its commands and only they are
    enabled there in addition, the TCS is triggered and marked in use, and nothing else
    changes. *)
Theorem tcs_write_correct d msg : rsc_wf d -> msg_ok msg -> state msg = RPMH_ACTIVE_ONLY_STATE ->
  (d_in_solver_mode d = true /\ tcs_write msg d = Ok (- EINVAL, d)) \/
  (d_in_solver_mode d = false /\ in_flight d msg /\ tcs_write msg d = Ok (- EBUSY, d)) \/
  (d_in_solver_mode d = false /\ ~ in_flight d msg /\
   (forall i, in_group (d_active d) i -> i ∈ d_in_use d) /\ tcs_write msg d = Ok (- EBUSY, d)) \/
  (d_in_solver_mode d = false /\ ~ in_flight d msg /\
   exists i d', in_group (d_active d) i /\ (i ∉ d_in_use d) /\
                tcs_write msg d = Ok (0, d') /\ started d d' msg i).
Proof.
  intros Hw Hm Hs. pose proof (inflight_spec d msg). pose proof (not_inflight_spec d msg).
  pose proof (tcs_write_cases d msg Hw Hm Hs). tauto.
Qed.

(** ** Probing *)
Section probe.
Context `{TcsAbi} (dev : rsc_device) (max_tcs ncpt : Z) (Hncpt : 0 < ncpt <= MAX_CMDS_PER_TCS).

(** A group that has been set up below TCS [st]. *)
Definition group_set (t : tcs_type) (st : Z) (g : tcs_group) : Prop :=
  0 <= g_num_tcs g <= MAX_TCS_PER_TYPE /\ g_ncpt g = ncpt /\ g_slots g = ∅ /\
  g_req g = [None; None; None] /\ 0 <= g_offset g /\
  (t <> CONTROL_TCS -> 0 < g_num_tcs g -> g_offset g + g_num_tcs g <= st) /\
  (t = SLEEP_TCS \/ t = WAKE_TCS -> Z.of_nat (length (g_cmd_cache g)) = g_num_tcs g * ncpt) /\
  (forall i, 0 <= i -> Z.testbit (g_mask g) i = true -> in_group g i).

Record setup_inv (done : list tcs_type) (st : Z) (d : rsc_drv) : Prop := {
  si_nodup : NoDup done;
  si_st : 0 <= st < 32;
  si_drv : forall t, g_drv (get_tcs_of_type d t) = bool_decide (t ∈ done);
  si_set : forall t, t ∈ done -> group_set t st (get_tcs_of_type d t);
  si_unset : forall t, t ∉ done -> get_tcs_of_type d t = empty_group;
  si_apart : forall t u i, t ∈ done -> u ∈ done -> t <> u -> t <> CONTROL_TCS -> u <> CONTROL_TCS ->
    in_group (get_tcs_of_type d t) i -> ~ in_group (get_tcs_of_type d u) i;
}.

Lemma mask_bits num st i : 0 <= num -> 0 <= st -> st + num < 32 -> 0 <= i ->
  Z.testbit (u32 (Z.shiftl (Z.shiftl 1 num - 1) st)) i = true -> st <= i < st + num.
Proof.
  intros Hn Hs Hlt Hi. rewrite Z.shiftl_1_l. unfold u32.
  destruct (Z.lt_ge_cases i 32) as [Hi'|Hi']; [|rewrite Z.mod_pow2_bits_high by lia; done].
  rewrite Z.mod_pow2_bits_low, Z.shiftl_spec by lia.
  replace (2 ^ num - 1) with (Z.ones num) by (rewrite Z.ones_equiv; lia).
  destruct (Z.lt_ge_cases i st) as [|Hge]; [rewrite Z.testbit_neg_r by lia; done|].
  rewrite Z.testbit_ones by lia. lia.
Qed.

(** A group replaced by one that is set up above all the others. *)
Lemma setup_inv_add done st st' t g d : setup_inv done st d -> t ∉ done -> st <= st' < 32 ->
  g_drv g = true -> group_set t st' g ->
  (t <> CONTROL_TCS -> 0 < g_num_tcs g -> st <= g_offset g) ->
  setup_inv (t :: done) st' (set_tcs d t g).
Proof.
  intros [Hnd Hst Hdrv Hset Hun Hap] Hnew Hle Hg Hgs Habove. constructor.
  - by constructor.
  - lia.
  - intros u. rewrite get_set_tcs. case_decide; subst.
    + rewrite Hg, bool_decide_eq_true_2; [done|left].
    + rewrite Hdrv. apply bool_decide_ext. rewrite elem_of_cons. naive_solver.
  - intros u Hu. rewrite get_set_tcs. case_decide; [by subst|].
    apply elem_of_cons in Hu as [->|Hu]; [done|].
    destruct (Hset u Hu) as (? & ? & ? & ? & ? & Hx & ?). unfold group_set. split_and!; try done; try tauto.
    intros Hc Hn. specialize (Hx Hc Hn). lia.
  - intros u Hu. rewrite get_set_tcs. rewrite decide_False by (intros ->; apply Hu; left).
    apply Hun. intros Hin. apply Hu. by right.
  - assert (Hnew' : forall u i, u ∈ done -> u <> CONTROL_TCS -> t <> CONTROL_TCS ->
              in_group (get_tcs_of_type d u) i -> ~ in_group g i).
    { intros u i Hu Hc Hct Hi Hig. destruct (Hset u Hu) as (_ & _ & _ & _ & _ & Hx & _).
      unfold in_group in *. specialize (Hx Hc). specialize (Habove Hct). lia. }
    intros u v i Hu Hv Huv Hcu Hcv. rewrite !get_set_tcs.
    apply elem_of_cons in Hu as [->|Hu], Hv as [->|Hv]; try done.
    + rewrite decide_True by done. rewrite decide_False by done. intros Hi Hi2. by eapply (Hnew' v).
    + rewrite decide_False by done. rewrite decide_True by done. by apply Hnew'.
    + repeat case_decide; subst; try done; naive_solver.
Qed.

Lemma setup_group_inv done st t num d r d' : setup_inv done st d -> 0 <= num <= MAX_TCS_PER_TYPE ->
  setup_group dev max_tcs ncpt t num st d = (inr r, d') ->
  t ∉ done /\ setup_inv (t :: done) r d' /\ g_num_tcs (get_tcs_of_type d' t) = num /\
  forall u, u <> t -> get_tcs_of_type d' u = get_tcs_of_type d u.
Proof.
  intros Hinv Hnum. unfold setup_group. rewrite (si_drv _ _ _ Hinv). case_bool_decide as Hin; [done|].
  rewrite (si_unset _ _ _ Hinv t Hin). cbv zeta. pose proof (si_st _ _ _ Hinv) as Hst.
  cbn [empty_group g_mask g_offset g_req g_cmd_cache g_slots].
  assert (Hget : forall d g, g_num_tcs (get_tcs_of_type (set_tcs d t g) t) = g_num_tcs g)
    by (intros; by rewrite get_set_tcs, decide_True).
  assert (Hoth : forall d g u, u <> t -> get_tcs_of_type (set_tcs d t g) u = get_tcs_of_type d u)
    by (intros; by rewrite get_set_tcs, decide_False).
  intros Hr. split; [done|].
  destruct ((num =? 0) || bool_decide (t = CONTROL_TCS)) eqn:Hz.
  { simplify_eq. rewrite Hget. split; [|by auto]. apply (setup_inv_add done r); [done|done|lia|done| |].
    - unfold group_set. cbn. split_and!; try done; try lia.
      + intros Hc Hn. apply orb_true_iff in Hz as [|Hz%bool_decide_eq_true]; [lia|done].
      + intros Hsw. apply orb_true_iff in Hz as [|Hz%bool_decide_eq_true]; [lia|].
        by destruct Hsw; subst.
      + intros i _. by rewrite Z.bits_0.
    - cbn. intros Hc Hn. apply orb_true_iff in Hz as [|Hz%bool_decide_eq_true]; [lia|done]. }
  apply orb_false_iff in Hz as [Hn0 Hnc%bool_decide_eq_false]. case_if_in Hr; [done|].
  set (g := Group true _ st num ncpt _ _ _) in Hr.
  assert (Hset : forall cache, t = ACTIVE_TCS \/ Z.of_nat (length cache) = num * ncpt ->
    group_set t (st + num) (Group true (u32 (Z.shiftl (Z.shiftl 1 num - 1) st)) st num ncpt
                              [None; None; None] cache ∅)).
  { intros cache Hl. unfold group_set. cbn. split_and!; try done; try lia.
    - intros [-> | ->]; by destruct Hl.
    - intros i Hi Hb. unfold in_group. cbn. apply mask_bits in Hb; lia. }
  assert (Htwice : forall d g1 g2, set_tcs (set_tcs d t g1) t g2 = set_tcs d t g2)
    by (intros []; by destruct t).
  case_bool_decide as Hact; [simplify_eq|case_if_in Hr; [done|simplify_eq]]; rewrite !Htwice, Hget;
    (split; [|by auto]); (eapply setup_inv_add; [done|done|lia|done| |cbn; lia]); apply Hset; [by left|].
  right. rewrite length_replicate, Z2Nat.id; [done|]. nia.
Qed.

Definition config_ok (cfg : list (Z * Z)) : Prop :=
  Forall (fun p => 0 <= p.2 <= MAX_TCS_PER_TYPE) cfg.

Lemma setup_groups_inv cfg : forall done st d r d', config_ok cfg -> setup_inv done st d ->
  setup_groups dev max_tcs ncpt cfg st d = (inr r, d') ->
  exists done', setup_inv done' r d' /\ length done' = (length cfg + length done)%nat.
Proof.
  induction cfg as [|[ty num] cfg IH]; intros done st d r d' Hc Hinv Hr; cbn [setup_groups] in Hr.
  - simplify_eq. by exists done.
  - apply Forall_cons in Hc as [Hn Hc]. destruct (type_of_code ty) as [t|]; [|done].
    destruct (setup_group dev max_tcs ncpt t num st d) as [[e|st1] d1] eqn:E; [done|].
    apply (setup_group_inv done) in E as (_ & Hinv1 & _); [|done|done].
    destruct (IH _ _ _ _ _ Hc Hinv1 Hr) as (done' & Hd & Hl). exists done'. split; [done|].
    cbn in *. lia.
Qed.

Lemma all_types (l : list tcs_type) t : NoDup l -> length l = 4%nat -> t ∈ l.
Proof.
  intros Hnd Hl. assert (l ≡ₚ [SLEEP_TCS; WAKE_TCS; ACTIVE_TCS; CONTROL_TCS]) as ->;
    [|destruct t; set_solver].
  apply submseteq_length_Permutation; [|cbn; lia]. apply NoDup_submseteq; [done|].
  intros x _. destruct x; set_solver.
Qed.

Lemma setup_inv_start regs b1 b2 : setup_inv [] 0 (set_bases (zero_drv regs) b1 b2).
Proof.
  constructor; [apply NoDup_nil_2|lia|by intros []|set_solver|by intros []|set_solver].
Qed.

Lemma setup_inv_wf done st d : setup_inv done st d -> length done = 4%nat ->
  0 < g_num_tcs (d_active d) -> rsc_wf d.
Proof.
  intros [Hnd Hst _ Hset _ Hap] Hl Hact.
  assert (Hall : forall t, t ∈ done) by (intros; by apply all_types).
  assert (Hgw : forall t, t = SLEEP_TCS \/ t = WAKE_TCS -> group_wf (get_tcs_of_type d t)).
  { intros t Ht. destruct (Hset t (Hall t)) as (Hn & Hc & Hs & _ & Ho & _ & Hlen & _).
    constructor; unfold total; rewrite ?Hc, ?Hs; auto. set_solver. }
  constructor.
  - destruct (Hset ACTIVE_TCS (Hall _)) as (_ & _ & _ & _ & Ho & _). done.
  - by apply (Hgw SLEEP_TCS); left.
  - by apply (Hgw WAKE_TCS); right.
  - intros i Hi. split; [by apply (Hap ACTIVE_TCS SLEEP_TCS i)|by apply (Hap ACTIVE_TCS WAKE_TCS i)].
  - intros i Hi. by apply (Hap SLEEP_TCS WAKE_TCS i).
  - constructor; intros t; destruct (Hset t (Hall t)) as (Hn & _ & _ & Hr & _ & _ & _ & Hm); [done| |].
    + rewrite Hr. cbn. unfold MAX_TCS_PER_TYPE in Hn. lia.
    + intros r. rewrite Hr. set_solver.
Qed.
End probe.

(** What the accessors of device properties promise: an error is a negative number, a
    value is not. *)
Record device_ok (dev : rsc_device) : Prop := {
  do_base : forall e, dt_base dev = inl e -> e < 0;
  do_offset : forall e, dt_tcs_offset dev = inl e -> e < 0;
  do_config_err : forall k e, dt_config dev k = inl e -> e < 0;
  do_config : forall k v, dt_config dev k = inr v -> 0 <= v;
}.

Lemma read_config_ok dev : device_ok dev -> forall n i r, read_config dev n i = r ->
  match r with inl e => e < 0 | inr cfg => config_ok cfg /\ length cfg = n end.
Proof.
  intros Hd. induction n as [|n IH]; intros i r <-; cbn [read_config].
  - split; [constructor|done].
  - destruct (dt_config dev (i * 2)) as [e|ty] eqn:Et; [by eapply do_config_err|].
    case_if; [done|]. destruct (dt_config dev (i * 2 + 1)) as [e|num] eqn:En; [by eapply do_config_err|].
    case_if; [done|]. specialize (IH (i + 1) _ eq_refl). destruct (read_config dev n (i + 1)) as [|l]; [done|].
    destruct IH as [Hc Hl]. split; [|cbn; lia]. constructor; [|done].
    cbn. pose proof (do_config _ Hd _ _ En). lia.
Qed.

Lemma setup_groups_err `{TcsAbi} dev max_tcs ncpt cfg : forall st d e d',
  setup_groups dev max_tcs ncpt cfg st d = (inl e, d') -> e < 0.
Proof.
  induction cfg as [|[ty num] cfg IH]; intros st d e d' Hr; cbn [setup_groups] in Hr; [done|].
  destruct (type_of_code ty) as [t|]; [|by simplify_eq].
  destruct (setup_group dev max_tcs ncpt t num st d) as [[e1|st1] d1] eqn:E; [|by eapply IH].
  simplify_eq. unfold setup_group in E. cbv zeta in E.
  repeat (case_if_in E; try (simplify_eq; done)); simplify_eq.
Qed.

(** The state in which the probe leaves the controller. *)
Definition probed (d : rsc_drv) : rsc_drv := set_in_use (set_solver d false) ∅.

Lemma probe_wf `{TcsAbi} dev id regs d base : device_ok dev -> dt_base dev = inr base ->
  rpmh_probe_tcs_config dev id (zero_drv regs) = (0, d) ->
  0 < config_ncpt (default 0 (regs !! (base + DRV_PRNT_CHLD_CONFIG))) <= MAX_CMDS_PER_TCS ->
  0 < g_num_tcs (d_active d) -> rsc_wf (probed d).
Proof.
  intros Hd Hb Hr Hncpt Hact. unfold rpmh_probe_tcs_config in Hr. rewrite Hb in Hr.
  destruct (dt_tcs_offset dev) as [e|off] eqn:Eo;
    [apply (do_offset _ Hd) in Eo; simplify_eq; lia|]. cbv zeta in Hr.
  case_if_in Hr; [done|]. pose proof (read_config_ok dev Hd 4 0 _ eq_refl) as Hc.
  destruct (read_config dev 4 0) as [e|cfg]; [simplify_eq; lia|]. destruct Hc as [Hok Hlen].
  destruct (setup_groups _ _ _ _ _ _) as [[e|st] d1] eqn:Hs;
    [apply setup_groups_err in Hs; simplify_eq; lia|]. simplify_eq.
  eapply setup_groups_inv in Hs as (done & Hinv & Hl); [|exact Hncpt|exact Hok|apply setup_inv_start].
  eapply setup_inv_wf in Hinv; [|exact Hncpt|cbn in Hl; lia|exact Hact].
  destruct Hinv as [A B C D D2 E]. constructor; [exact A|exact B|exact C|exact D|exact D2|].
  apply (masks_ok_groups d1); [by intros []|exact E]. exact Hncpt.
Qed.

(** A probe that succeeds leaves a controller that meets the invariant of the
    transition system: when the configuration register gives between 1 and 16 commands per
    TCS, the device tree gives the active group a TCS and the hardware starts with no
    command enabled, the groups are well formed, the active TCSes belong to no other group,
    every mask names TCSes of its group, and no address is in flight twice. *)
Theorem rsc_probe_establishes `{TcsAbi} dev id regs d base : device_ok dev -> dt_base dev = inr base ->
  rpmh_probe_tcs_config dev id (zero_drv regs) = (0, d) ->
  0 < config_ncpt (default 0 (regs !! (base + DRV_PRNT_CHLD_CONFIG))) <= MAX_CMDS_PER_TCS ->
  0 < g_num_tcs (d_active d) ->
  (forall i, in_group (d_active d) i -> read_tcs_reg d RSC_DRV_CMD_ENABLE i 0 = 0) ->
  rsc_inv (probed d).
Proof.
  intros Hd Hb Hr Hncpt Hact Hen. constructor; [by eapply probe_wf|intros i Hi _; by apply Hen|].
  intros i j a Hi _ _ Ha _. eapply enabled_none; [by apply Hen|exact Ha].
Qed.

(** ** Waiting *)

(** The state the [k]-th attempt of the retry loop starts from, when the attempts before
    it changed nothing. *)
Fixpoint attempt (env : nat -> rsc_drv -> rsc_drv) (k : nat) (d : rsc_drv) : rsc_drv :=
  match k with O => d | S k => env k (attempt env k d) end.

Lemma send_loop_ok env msg r d' : forall n k fuel d, (n < fuel)%nat ->
  (forall j, (k <= j < k + n)%nat -> tcs_write msg (attempt env j d) = Ok (- EBUSY, attempt env j d)) ->
  tcs_write msg (attempt env (k + n) d) = Ok (r, d') -> r <> - EBUSY ->
  send_loop fuel env k msg (attempt env k d) = Ok (r, d').
Proof.
  induction n as [|n IH]; intros k fuel d Hf Hbusy Hr Hne; (destruct fuel as [|fuel]; [lia|]); cbn [send_loop].
  - rewrite Nat.add_0_r in Hr. rewrite (st_bind_ok _ _ _ _ _ Hr). case_if; [lia|done].
  - rewrite (st_bind_ok _ _ _ _ _ (Hbusy k ltac:(lia))). case_if; [|lia]. st_run.
    change (env k (attempt env k d)) with (attempt env (S k) d). apply IH; [lia| | |done].
    + intros j Hj. apply Hbusy. lia.
    + by replace (S k + n)%nat with (k + S n)%nat by lia.
Qed.

(** Sending waits for room and no longer: when the first [n] attempts find the
    controller busy and, after what the rest of the system does during the delays, the next
    one does not, [rpmh_rsc_send_data] returns what that attempt returns, whatever larger
    number of rounds it is allowed. *)
Theorem send_data_waits `{TcsAbi} env msg n fuel d r d' : payload_ok (Some msg) = true ->
  (n < fuel)%nat ->
  (forall j, (j < n)%nat -> tcs_write msg (attempt env j d) = Ok (- EBUSY, attempt env j d)) ->
  tcs_write msg (attempt env n d) = Ok (r, d') -> r <> - EBUSY ->
  rpmh_rsc_send_data fuel env (Some msg) d = Ok (r, d').
Proof.
  intros Hp Hf Hb Hr Hne. unfold rpmh_rsc_send_data. rewrite Hp.
  apply (send_loop_ok env msg r d' n 0); [done| |done|done]. intros j Hj. apply Hb. lia.
Qed.

Lemma solver_loop_inv fuel env t enable : forall k d d',
  solver_loop fuel env k t enable d = Ok (tt, d') ->
  exists d1, (forall i, in_group (get_tcs_of_type d1 t) i -> i ∉ d_in_use d1) /\
             d' = set_solver d1 enable.
Proof.
  induction fuel as [|fuel IH]; intros k d d' Hr; cbn [solver_loop] in Hr; [done|].
  rewrite st_bind_get in Hr. case_if_in Hr.
  - injection Hr as <-. exists d. split; [|done]. intros i Hi.
    match goal with H : forallb _ _ = true |- _ => rewrite forallb_forall in H; rename H into Hall end.
    rewrite <-tcs_is_free_true. by apply Hall, list_elem_of_In, elem_of_tcs_ids.
  - rewrite st_bind_upd in Hr. by eapply IH.
Qed.

(** When the switch to solver mode returns, no TCS used for active requests was in
    flight at that moment, and from then on every active request is refused with -EINVAL and
    changes nothing, until the mode is left. *)
Theorem solver_mode_blocks fuel env d d' msg : rsc_wf d -> (forall k d, rsc_wf d -> rsc_wf (env k d)) ->
  rpmh_rsc_mode_solver_set fuel env true d = Ok (tt, d') -> msg_ok msg ->
  state msg = RPMH_ACTIVE_ONLY_STATE ->
  (forall i, in_group (d_active d') i -> i ∉ d_in_use d') /\ tcs_write msg d' = Ok (- EINVAL, d').
Proof.
  intros Hw Henv Hr Hm Hs. unfold rpmh_rsc_mode_solver_set in Hr. rewrite st_bind_get in Hr.
  pose proof (rw_active _ Hw) as [_ Hn]. cbn [get_tcs_of_type] in Hr.
  rewrite (proj2 (Z.eqb_neq (g_num_tcs (d_active d)) 0)) in Hr by lia.
  assert (Hw' : rsc_wf d').
  { clear Hn. revert d Hw Hr. generalize 0%nat.
    induction fuel as [|fuel IH]; intros k d Hw Hr; cbn [solver_loop] in Hr; [done|].
    rewrite st_bind_get in Hr. case_if_in Hr; [injection Hr as <-; by apply set_solver_wf|].
    rewrite st_bind_upd in Hr. eapply IH; [|exact Hr]. auto. }
  apply solver_loop_inv in Hr as (d1 & Hfree & ->). split; [exact Hfree|].
  destruct (tcs_write_cases _ msg Hw' Hm Hs) as [[_ Hx]|[(Hx & _)|[(Hx & _)|(Hx & _)]]]; done.
Qed.

(** ** A concrete controller *)
Module RscDemo.
Definition code (t : tcs_type) : Z :=
  match t with ACTIVE_TCS => 0 | SLEEP_TCS => 1 | WAKE_TCS => 2 | CONTROL_TCS => 3 end.

Lemma code_range t : 0 <= code t < 4.
Proof. destruct t; cbn; lia. Qed.

Lemma code_inj t u : code t = code u -> t = u.
Proof. by destruct t, u. Qed.

Lemma payload_range : 0 < 16 <= 16.
Proof. lia. Qed.

#[export] Instance abi : TcsAbi := {|
  MAX_RPMH_PAYLOAD := 16; type_code := code; type_code_range := code_range;
  type_code_inj := code_inj; max_payload_range := payload_range
|}.

(** Two active TCSes, three for sleep, three for wake and a control TCS; four commands
  in each. *)
Definition regs : gmap Z Z := {[ 12 := 4 * 2 ^ 27 + 9 ]}.
Definition config : list Z := [0; 2; 1; 3; 2; 3; 3; 1].
Definition dev : rsc_device :=
  Device (inr 0) (inr 0) (inr 256) 8
    (fun k => match config !! Z.to_nat k with Some v => inr v | None => inl (-1) end)
    (fun _ => true) true 5 0 0.
Definition drv : rsc_drv := snd (rpmh_probe_tcs_config dev 0 (zero_drv regs)).

Lemma dev_ok : device_ok dev.
Proof.
  constructor; try done.
  - intros k e. cbn. destruct (_ !! _); intros [=]; lia.
  - intros k v. cbn. destruct (config !! Z.to_nat k) eqn:E; intros [= <-].
    apply list_elem_of_lookup_2 in E. unfold config in E. set_solver by lia.
Qed.

Definition start : rsc_drv := probed drv.

(** Requests of two commands, active and for sleep. *)
Definition act : tcs_request := Req 7 RPMH_ACTIVE_ONLY_STATE true [Cmd 0x30000 1 true; Cmd 0x40000 2 false].
Definition slp : tcs_request := Req 8 RPMH_SLEEP_STATE false [Cmd 0x30000 0 false; Cmd 0x40000 0 false].

Lemma act_ok : msg_ok act.
Proof. split; [unfold num_cmds, MAX_CMDS_PER_TCS; cbn; lia|]. repeat constructor; cbn; lia. Qed.

Definition run {A} (c : ST rsc_drv A) (d : rsc_drv) : rsc_drv :=
  match c d with Ok (_, d') => d' | _ => d end.
End RscDemo.
Import RscDemo.

Lemma rsc_probe_establishes_witness : rsc_inv RscDemo.start.
Proof.
  apply (rsc_probe_establishes RscDemo.dev 0 RscDemo.regs RscDemo.drv 0);
    [exact RscDemo.dev_ok|reflexivity|vm_compute; reflexivity|vm_compute; done|vm_compute; reflexivity|].
  intros i Hi. change (0 <= i < 2) in Hi. assert (i = 0 \/ i = 1) as [->| ->] by lia; vm_compute; reflexivity.
Defined.

Lemma start_inv : rsc_inv RscDemo.start.
Proof.
  constructor.
  - apply (probe_wf RscDemo.dev 0 RscDemo.regs RscDemo.drv 0);
    [exact RscDemo.dev_ok|reflexivity|vm_compute; reflexivity|vm_compute; done|vm_compute; reflexivity].
  - intros i Hi _. change (0 <= i < 2) in Hi.
    assert (i = 0 \/ i = 1) as [->| ->] by lia; vm_compute; reflexivity.
  - intros i j a Hi _ _ Ha _. change (0 <= i < 2) in Hi. eapply enabled_none; [|exact Ha].
    assert (i = 0 \/ i = 1) as [->| ->] by lia; vm_compute; reflexivity.
Qed.

Lemma tcs_write_correct_witness : exists i d', tcs_write RscDemo.act RscDemo.start = Ok (0, d') /\
  started RscDemo.start d' RscDemo.act i.
Proof.
  destruct (tcs_write_correct RscDemo.start RscDemo.act (ri_wf _ start_inv) RscDemo.act_ok eq_refl)
    as [[Hx _]|[(_ & Hx & _)|[(_ & _ & Hx & _)|(_ & _ & i & d' & _ & _ & Hr & Hs)]]].
  - discriminate Hx.
  - destruct Hx as (i & c & _ & Hu & _). by apply elem_of_empty in Hu.
  - specialize (Hx 0 ltac:(split; vm_compute; [discriminate|reflexivity])). by apply elem_of_empty in Hx.
  - exists i, d'. split; [exact Hr|exact Hs].
Defined.

(** One request is in flight on TCS 0 when its interrupt comes. *)
Definition busy_state : rsc_drv :=
  write_tcs_reg (RscDemo.run (tcs_write RscDemo.act) RscDemo.start) RSC_DRV_IRQ_STATUS 0 1.

Lemma busy_masks : masks_ok busy_state.
Proof.
  pose proof (rw_masks _ (ri_wf _ start_inv)) as [M1 M2 M3].
  constructor; intros t.
  - intros i Hi. destruct t; [apply (M1 SLEEP_TCS)|apply (M1 WAKE_TCS)|apply (M1 ACTIVE_TCS)|apply (M1 CONTROL_TCS)]; done.
  - destruct t; vm_compute; discriminate.
  - intros r Hr. destruct t; [apply (M3 SLEEP_TCS r Hr)|apply (M3 WAKE_TCS r Hr)| |apply (M3 CONTROL_TCS r Hr)].
    change (Some r ∈ [Some RscDemo.act; None; None]) in Hr.
    rewrite !elem_of_cons, elem_of_nil in Hr. destruct Hr as [[= ->]|[[=]|[[=]|[]]]]. vm_compute. discriminate.
Qed.

Lemma tcs_tx_done_correct_witness : exists d', tcs_tx_done busy_state = Ok (tt, d') /\
  d_done d' = [(7, - EIO)].
Proof.
  destruct (tcs_tx_done_correct busy_state busy_masks) as (d' & Hr & _ & Hd & _).
  exists d'. split; [exact Hr|]. rewrite Hd. vm_compute. reflexivity.
Defined.

Lemma rsc_exclusion_witness :
  let d' := RscDemo.run (tcs_write RscDemo.act) RscDemo.start in
  enabled_addr d' 0 0x30000 /\ ~ enabled_addr d' 1 0x30000.
Proof.
  intros d'. assert (He : enabled_addr d' 0 0x30000).
  { exists 0. split; [split; [discriminate|reflexivity]|]. split; vm_compute; reflexivity. }
  split; [exact He|]. refine (proj1 (rsc_exclusion RscDemo.start d' start_inv _) 0 1 _ _ _ _ He).
  - eapply rtc_once, (step_send _ RscDemo.act 0); [exact RscDemo.act_ok|reflexivity|vm_compute; reflexivity].
  - split; vm_compute; [discriminate|reflexivity].
  - split; vm_compute; [discriminate|reflexivity].
  - discriminate.
Defined.

Lemma rsc_total_witness : exists r d2, tcs_write RscDemo.act RscDemo.start = Ok (r, d2).
Proof.
  exact (proj1 (rsc_total RscDemo.start RscDemo.start RscDemo.act SLEEP_TCS start_inv (rtc_refl _ _)
                 RscDemo.act_ok) eq_refl).
Defined.

(** A second request for the same addresses waits until the first one completes. *)
Definition complete_first (k : nat) (d : rsc_drv) : rsc_drv :=
  RscDemo.run tcs_tx_done (write_tcs_reg d RSC_DRV_IRQ_STATUS 0 1).

Lemma send_data_waits_witness : exists d',
  rpmh_rsc_send_data 5 complete_first (Some RscDemo.act)
    (RscDemo.run (tcs_write RscDemo.act) RscDemo.start) = Ok (0, d').
Proof.
  eexists. apply (send_data_waits complete_first RscDemo.act 1 5); [reflexivity|lia| | |discriminate].
  - intros [|j] Hj; [vm_compute; reflexivity|lia].
  - vm_compute. reflexivity.
Defined.

Lemma solver_mode_blocks_witness : exists d',
  rpmh_rsc_mode_solver_set 1 (fun _ d => d) true RscDemo.start = Ok (tt, d') /\
  tcs_write RscDemo.act d' = Ok (- EINVAL, d').
Proof.
  eexists. split; [vm_compute; reflexivity|].
  eapply (solver_mode_blocks 1 (fun _ d => d) RscDemo.start);
    [exact (ri_wf _ start_inv)|intros _ d Hd; exact Hd|vm_compute; reflexivity
    |exact RscDemo.act_ok|reflexivity].
Defined.
