(* ===== verification/Rpmh.v ===== *)
(** * The RPMh client library (drivers/soc/qcom/rpmh.c)

    Clients vote for resources; active votes go to the controller at once, sleep and
    wake votes are cached and flushed to the sleep and wake TCSes when the system
    powers down. *)
From S2P Require Import Prelude RpmhRsc.
Open Scope c_scope.

(** ** State *)

(** struct cache_req *)
Record cache_req := CacheReq {
  cr_addr : Z;
  sleep_val : Z;
  wake_val : Z;
}.

(** struct rpmh_request: [rq_completion] is the completion the sender waits for. *)
Record rpmh_request := RpmhReq {
  rq_msg : tcs_request;
  rq_completion : option Z;
  rq_err : Z;
  rq_needs_free : bool;
}.

(** struct rpmh_ctrlr with the controller it is part of ([r_drv]), the request objects
    that are allocated or on a stack ([r_reqs], by address; [r_next] is a fresh
    address), the completions signalled so far, and the answers of the allocator to the
    next allocations, which succeed when the list is exhausted. *)
Record rpmh := Rpmh {
  r_standalone : bool;
  r_cache : list cache_req;
  r_dirty : bool;
  r_batch_cache : list (list tcs_request);
  r_in_solver_mode : bool;
  r_drv : rsc_drv;
  r_reqs : gmap Z rpmh_request;
  r_next : Z;
  r_signalled : list Z;
  r_mem : list bool;
}.

Definition with_cache (r : rpmh) (c : list cache_req) (dirty : bool) : rpmh :=
  Rpmh (r_standalone r) c dirty (r_batch_cache r) (r_in_solver_mode r) (r_drv r) (r_reqs r)
    (r_next r) (r_signalled r) (r_mem r).
Definition with_batch (r : rpmh) (b : list (list tcs_request)) (dirty : bool) : rpmh :=
  Rpmh (r_standalone r) (r_cache r) dirty b (r_in_solver_mode r) (r_drv r) (r_reqs r)
    (r_next r) (r_signalled r) (r_mem r).
Definition with_drv (r : rpmh) (d : rsc_drv) : rpmh :=
  Rpmh (r_standalone r) (r_cache r) (r_dirty r) (r_batch_cache r) (r_in_solver_mode r) d (r_reqs r)
    (r_next r) (r_signalled r) (r_mem r).
Definition with_solver (r : rpmh) (b : bool) : rpmh :=
  Rpmh (r_standalone r) (r_cache r) (r_dirty r) (r_batch_cache r) b (r_drv r) (r_reqs r)
    (r_next r) (r_signalled r) (r_mem r).
Definition with_reqs (r : rpmh) (q : gmap Z rpmh_request) (next : Z) (sig : list Z) : rpmh :=
  Rpmh (r_standalone r) (r_cache r) (r_dirty r) (r_batch_cache r) (r_in_solver_mode r) (r_drv r) q
    next sig (r_mem r).
Definition with_mem (r : rpmh) (m : list bool) : rpmh :=
  Rpmh (r_standalone r) (r_cache r) (r_dirty r) (r_batch_cache r) (r_in_solver_mode r) (r_drv r)
    (r_reqs r) (r_next r) (r_signalled r) m.

(** A computation on the controller. *)
Definition on_drv {A} (c : ST rsc_drv A) : ST rpmh A :=
  fun r => match c (r_drv r) with
           | Ok (a, d) => Ok (a, with_drv r d)
           | Fault => Fault
           | Loop => Loop
           end.

(** The answer of the allocator. *)
Definition kzalloc : ST rpmh bool :=
  fun r => match r_mem r with
           | [] => Ok (true, r)
           | b :: m => Ok (b, with_mem r m)
           end.

(** A request object at a fresh address; the message carries the address. *)
Definition new_req (q : tcs_request) (compl : bool) (needs_free : bool) : ST rpmh tcs_request :=
  fun r => let id := r_next r in
           let m := Req id (state q) (wait_for_compl q) (cmds q) in
           Ok (m, with_reqs r (<[id := RpmhReq m (if compl then Some id else None) 0 needs_free]> (r_reqs r))
                    (id + 1) (r_signalled r)).

Definition free_req (id : Z) : ST rpmh unit :=
  fun r => Ok (tt, with_reqs r (delete id (r_reqs r)) (r_next r) (r_signalled r)).

(** ** Operations *)
Definition check_ctrlr_state (r : rpmh) (st : rpmh_state) : Z :=
  if r_in_solver_mode r && state_is st RPMH_ACTIVE_ONLY_STATE then - EBUSY else 0.

Definition rpmh_mode_solver_set (fuel : nat) (env : nat -> rsc_drv -> rsc_drv) (enable : bool)
    : ST rpmh Z :=
  on_drv (rpmh_rsc_mode_solver_set fuel env enable) ;;;
  st_upd (fun r => with_solver r enable) ;;;
  st_ret 0.

(** Completes a request: an access to an object that is not there is a fault. *)
Definition rpmh_tx_done (id err : Z) : ST rpmh unit :=
  fun r => match r_reqs r !! id with
           | None => Fault
           | Some q =>
             let reqs := if rq_needs_free q then delete id (r_reqs r)
                         else <[id := RpmhReq (rq_msg q) (rq_completion q) err false]> (r_reqs r) in
             let sig := match rq_completion q with
                        | Some c => r_signalled r ++ [c]
                        | None => r_signalled r
                        end in
             Ok (tt, with_reqs r reqs (r_next r) sig)
           end.

(** The calls of [rpmh_tx_done] the interrupt handler made, in order. *)
Fixpoint deliver_loop (l : list (Z * Z)) : ST rpmh unit :=
  match l with
  | [] => st_ret tt
  | (id, err) :: l => rpmh_tx_done id err ;;; deliver_loop l
  end.

Definition clear_done (d : rsc_drv) : rsc_drv :=
  Rsc (d_base d) (d_tcs_base d) (d_in_solver_mode d) (d_num_tcs d) (d_sleep d) (d_wake d)
    (d_active d) (d_control d) (d_in_use d) (d_regs d) [].

Definition deliver : ST rpmh unit :=
  let! l := st_get (fun r => d_done (r_drv r)) in
  on_drv (st_upd clear_done) ;;;
  deliver_loop l.

(** [wait_for_completion_timeout]: the hardware and the interrupt handler act ([w]), the
    requests they complete are signalled; the answer is whether [c] is one of them. *)
Definition wait_for_completion (w : rsc_drv -> rsc_drv) (c : Z) : ST rpmh bool :=
  on_drv (st_upd w) ;;;
  deliver ;;;
  st_get (fun r => bool_decide (c ∈ r_signalled r)).

Definition __find_req (cache : list cache_req) (a : Z) : option (nat * cache_req) :=
  list_find (fun p => cr_addr p = a) cache.

(** The part of [cache_rpm_request] from the label [existing] on: the entry and the
    dirty flag. *)
Definition update_req (st : rpmh_state) (cmd : tcs_cmd) (req : cache_req) (dirty : bool)
    : cache_req * bool :=
  match st with
  | RPMH_ACTIVE_ONLY_STATE =>
    if negb (sleep_val req =? UINT_MAX)
    then (CacheReq (cr_addr req) (sleep_val req) (data cmd), true) else (req, dirty)
  | RPMH_WAKE_ONLY_STATE =>
    if negb (wake_val req =? data cmd)
    then (CacheReq (cr_addr req) (sleep_val req) (data cmd), true) else (req, dirty)
  | RPMH_SLEEP_STATE =>
    if negb (sleep_val req =? data cmd)
    then (CacheReq (cr_addr req) (data cmd) (wake_val req), true) else (req, dirty)
  | RPMH_OTHER_STATE => (req, dirty)
  end.

Definition cache_rpm_request (st : rpmh_state) (cmd : tcs_cmd) : ST rpmh Z :=
  let! found := st_get (fun r => __find_req (r_cache r) (addr cmd)) in
  match found with
  | Some (i, req) =>
    st_upd (fun r => let '(req, dirty) := update_req st cmd req (r_dirty r) in
                     with_cache r (<[i := req]> (r_cache r)) dirty) ;;;
    st_ret 0
  | None =>
    let! ok := kzalloc in
    if negb ok then st_ret (- ENOMEM) else
    let req := CacheReq (addr cmd) UINT_MAX UINT_MAX in
    st_upd (fun r => let '(req, dirty) := update_req st cmd req (r_dirty r) in
                     with_cache r (r_cache r ++ [req]) dirty) ;;;
    st_ret 0
  end.

Fixpoint cache_cmds (st : rpmh_state) (l : list tcs_cmd) : ST rpmh Z :=
  match l with
  | [] => st_ret 0
  | cmd :: l =>
    let! ret := cache_rpm_request st cmd in
    if negb (ret =? 0) then st_ret ret else cache_cmds st l
  end.

Section operations.
Context `{TcsAbi} `{BitmapArea}.
(** [env k] acts during the [k]-th delay of a busy loop, [wenv k] while the [k]-th
  message of an operation is waited for; [irq_data] is whether the interrupt is known
  to the debug report. *)
Context (fuel : nat) (env wenv : nat -> rsc_drv -> rsc_drv) (irq_data : bool).

Definition __rpmh_write (st : rpmh_state) (msg : tcs_request) : ST rpmh Z :=
  let msg := Req (req_id msg) st (wait_for_compl msg) (cmds msg) in
  let! ret := cache_cmds st (cmds msg) in
  if negb (ret =? 0) then st_ret ret else
  if state_is st RPMH_ACTIVE_ONLY_STATE then on_drv (rpmh_rsc_send_data fuel env (Some msg))
  else rpmh_tx_done (req_id msg) 0 ;;; st_ret 0.

(** The payload: the first [n] commands of an array, which must have as many. *)
Definition payload (cmd : list tcs_cmd) (n : Z) : res (list tcs_cmd) :=
  if n <=? Z.of_nat (length cmd) then Ok (take (Z.to_nat n) cmd) else Fault.

Definition __fill_rpmh_msg (st : rpmh_state) (cmd : option (list tcs_cmd)) (n : Z)
    : res (Z + tcs_request) :=
  match cmd with
  | None => Ok (inl (- EINVAL))
  | Some cmd =>
    if (n =? 0) || (n >? MAX_RPMH_PAYLOAD) then Ok (inl (- EINVAL)) else
    res_bind (payload cmd n) (fun l => Ok (inr (Req 0 st false l)))
  end.

Definition rpmh_write_async (st : rpmh_state) (cmd : option (list tcs_cmd)) (n : Z) : ST rpmh Z :=
  let! standalone := st_get r_standalone in
  if standalone then st_ret 0 else
  let! ret := st_get (fun r => check_ctrlr_state r st) in
  if negb (ret =? 0) then st_ret ret else
  let! ok := kzalloc in
  if negb ok then st_ret (- ENOMEM) else
  let! obj := new_req (Req 0 st false []) false true in
  let! f := st_lift (__fill_rpmh_msg st cmd n) in
  match f with
  | inl ret => free_req (req_id obj) ;;; st_ret ret
  | inr m => __rpmh_write st (Req (req_id obj) (state m) (wait_for_compl m) (cmds m))
  end.

(** A timeout is reported, which crashes the system when a TCS is busy. *)
Definition timeout_report : ST rpmh unit :=
  fun r => match rpmh_rsc_debug (r_drv r) irq_data with
           | Ok (Crash _) => Fault
           | Ok _ => Ok (tt, r)
           | Fault => Fault
           | Loop => Loop
           end.

(** The message is on the stack: it is gone when the function returns. *)
Definition rpmh_write (st : rpmh_state) (cmd : option (list tcs_cmd)) (n : Z) : ST rpmh Z :=
  match cmd with
  | None => st_ret (- EINVAL)
  | Some cmd =>
    if (n =? 0) || (n >? MAX_RPMH_PAYLOAD) then st_ret (- EINVAL) else
    let! standalone := st_get r_standalone in
    if standalone then st_ret 0 else
    let! ret := st_get (fun r => check_ctrlr_state r st) in
    if negb (ret =? 0) then st_ret ret else
    let! l := st_lift (payload cmd n) in
    let! msg := new_req (Req 0 st true l) true false in
    let! ret := __rpmh_write st msg in
    if negb (ret =? 0) then free_req (req_id msg) ;;; st_ret ret else
    let! ok := wait_for_completion (wenv 0%nat) (req_id msg) in
    if negb ok then timeout_report ;;; free_req (req_id msg) ;;; st_ret (- ETIMEDOUT) else
    free_req (req_id msg) ;;; st_ret 0
  end.

(** ** Batches *)
Definition cache_batch (req : list tcs_request) : ST rpmh unit :=
  st_upd (fun r => with_batch r (r_batch_cache r ++ [req]) true).

(** The inner loop of [flush_batch]: it stops at the first error. *)
Fixpoint flush_msgs (l : list tcs_request) (ret : Z) : ST rpmh Z :=
  match l with
  | [] => st_ret ret
  | msg :: l =>
    let! ret := on_drv (rpmh_rsc_write_ctrl_data (Some msg)) in
    if negb (ret =? 0) then st_ret ret else flush_msgs l ret
  end.

(** The outer loop goes on with the next batch. *)
Fixpoint flush_batches (l : list (list tcs_request)) (ret : Z) : ST rpmh Z :=
  match l with
  | [] => st_ret ret
  | req :: l =>
    let! ret := flush_msgs req ret in
    flush_batches l ret
  end.

Definition flush_batch : ST rpmh Z :=
  let! b := st_get r_batch_cache in
  flush_batches b 0.

Definition invalidate_batch : ST rpmh unit :=
  st_upd (fun r => with_batch r [] (r_dirty r)).

(** The counts before the terminating zero; an array without one is read past its end. *)
Fixpoint batch_counts (n : list Z) : res (list Z) :=
  match n with
  | [] => Fault
  | x :: n => if x >? 0 then res_bind (batch_counts n) (fun l => Ok (x :: l)) else Ok []
  end.

Fixpoint fill_batch (st : rpmh_state) (cmd : list tcs_cmd) (n : list Z)
    : res (Z + list tcs_request) :=
  match n with
  | [] => Ok (inr [])
  | x :: n =>
    res_bind (__fill_rpmh_msg st (Some cmd) x) (fun f =>
    match f with
    | inl ret => Ok (inl ret)
    | inr m => res_bind (fill_batch st (drop (Z.to_nat x) cmd) n) (fun f =>
               match f with
               | inl ret => Ok (inl ret)
               | inr l => Ok (inr (m :: l))
               end)
    end)
  end.

(** The batch's messages become request objects. *)
Fixpoint new_batch (l : list tcs_request) : ST rpmh (list tcs_request) :=
  match l with
  | [] => st_ret []
  | m :: l =>
    let! m := new_req m true false in
    let! l := new_batch l in
    st_ret (m :: l)
  end.

Fixpoint free_batch (l : list tcs_request) : ST rpmh unit :=
  match l with
  | [] => st_ret tt
  | m :: l => free_req (req_id m) ;;; free_batch l
  end.

(** Sends the messages in order up to the first error: the error and the number sent. *)
Fixpoint send_batch (l : list tcs_request) (i : nat) : ST rpmh (Z * nat) :=
  match l with
  | [] => st_ret (0, i)
  | m :: l =>
    let! ret := on_drv (rpmh_rsc_send_data fuel env (Some m)) in
    if negb (ret =? 0) then st_ret (ret, i) else send_batch l (S i)
  end.

(** Waits for the first [i] messages, the last one first; a timeout stops the system. *)
Fixpoint wait_batch (l : list tcs_request) (i : nat) : ST rpmh unit :=
  match i with
  | O => st_ret tt
  | S i =>
    match l !! i with
    | None => fun _ => Fault
    | Some m =>
      let! ok := wait_for_completion (wenv i) (req_id m) in
      if negb ok then fun _ => Fault else wait_batch l i
    end
  end.

Definition rpmh_write_batch (st : rpmh_state) (cmd : option (list tcs_cmd)) (n : option (list Z))
    : ST rpmh Z :=
  match cmd, n with
  | Some cmd, Some n =>
    let! standalone := st_get r_standalone in
    if standalone then st_ret 0 else
    let! ret := st_get (fun r => check_ctrlr_state r st) in
    if negb (ret =? 0) then st_ret ret else
    let! counts := st_lift (batch_counts n) in
    if bool_decide (counts = []) then st_ret (- EINVAL) else
    let! ok := kzalloc in
    if negb ok then st_ret (- ENOMEM) else
    let! f := st_lift (fill_batch st cmd counts) in
    match f with
    | inl ret => st_ret ret
    | inr msgs =>
      if negb (state_is st RPMH_ACTIVE_ONLY_STATE) then cache_batch msgs ;;; st_ret 0 else
      let! msgs := new_batch msgs in
      let! p := send_batch msgs 0 in
      wait_batch msgs (snd p) ;;;
      free_batch msgs ;;;
      st_ret (fst p)
    end
  | _, _ => st_ret (- EINVAL)
  end.

(** [st0] is the state with number 0, which the message is built with. *)
Definition rpmh_write_pdc_data (st0 : rpmh_state) (cmd : list tcs_cmd) (n : Z) : ST rpmh Z :=
  if (n =? 0) || (n >? MAX_RPMH_PAYLOAD) then st_ret (- EINVAL) else
  let! standalone := st_get r_standalone in
  if standalone then st_ret 0 else
  let! l := st_lift (payload cmd n) in
  on_drv (rpmh_rsc_write_pdc_data (Some (Req 0 st0 false l))).

(** ** Flushing *)
Definition is_req_valid (req : cache_req) : bool :=
  negb (sleep_val req =? UINT_MAX) && negb (wake_val req =? UINT_MAX) &&
  negb (sleep_val req =? wake_val req).

Definition single (st : rpmh_state) (a v : Z) : tcs_request :=
  Req 0 st (state_is st RPMH_WAKE_ONLY_STATE) [Cmd a v false].

Definition send_single (st : rpmh_state) (a v : Z) : ST rpmh Z :=
  on_drv (rpmh_rsc_write_ctrl_data (Some (single st a v))).

Fixpoint flush_cache (l : list cache_req) : ST rpmh Z :=
  match l with
  | [] => st_ret 0
  | p :: l =>
    if negb (is_req_valid p) then flush_cache l else
    let! ret := send_single RPMH_SLEEP_STATE (cr_addr p) (sleep_val p) in
    if negb (ret =? 0) then st_ret ret else
    let! ret := send_single RPMH_WAKE_ONLY_STATE (cr_addr p) (wake_val p) in
    if negb (ret =? 0) then st_ret ret else
    flush_cache l
  end.

(** [do ... while (ret == -EAGAIN)]: [env] acts between two rounds. *)
Fixpoint inval_loop (fuel : nat) (k : nat) : ST rpmh Z :=
  match fuel with
  | O => fun _ => Loop
  | S fuel =>
    let! ret := on_drv rpmh_rsc_invalidate in
    if ret =? - EAGAIN then on_drv (st_upd (env k)) ;;; inval_loop fuel (S k)
    else st_ret ret
  end.

Definition rpmh_flush : ST rpmh Z :=
  let! standalone := st_get r_standalone in
  if standalone then st_ret 0 else
  let! dirty := st_get r_dirty in
  if negb dirty then st_ret 0 else
  let! _ := inval_loop fuel 0 in
  let! ret := flush_batch in
  if negb (ret =? 0) then st_ret ret else
  let! cache := st_get r_cache in
  let! ret := flush_cache cache in
  if negb (ret =? 0) then st_ret ret else
  st_upd (fun r => with_cache r (r_cache r) false) ;;;
  st_ret 0.

Definition rpmh_invalidate : ST rpmh Z :=
  let! standalone := st_get r_standalone in
  if standalone then st_ret 0 else
  invalidate_batch ;;;
  st_upd (fun r => with_cache r (r_cache r) true) ;;;
  inval_loop fuel 0.

Definition rpmh_ctrlr_idle (r : rpmh) : Z :=
  if r_standalone r then 0 else if rpmh_rsc_ctrlr_is_idle (r_drv r) then 1 else 0.
End operations.
