(* ===== verification/RpmhFlush.v ===== *)
(** * Votes: the cache and the flush

    The cache of sleep and wake votes implements a finite map; every change of what a
    flush would write marks it dirty; a flush succeeds exactly when the votes fit, and
    then every valid vote is programmed and enabled in a sleep and in a wake TCS. *)
From S2P Require Import Prelude RpmhRsc RpmhSlots RpmhTcs Rpmh.
Open Scope c_scope.

(** ** The cache as a map *)
Definition votes (c : list cache_req) : gmap Z (Z * Z) :=
  list_to_map (map (fun p => (cr_addr p, (sleep_val p, wake_val p))) c).

Definition no_vote : Z * Z := (UINT_MAX, UINT_MAX).

(** What a request does to the votes for its address. *)
Definition vote_update (st : rpmh_state) (v : Z) (p : Z * Z) : Z * Z :=
  match st with
  | RPMH_SLEEP_STATE => (v, snd p)
  | RPMH_WAKE_ONLY_STATE => (fst p, v)
  | RPMH_ACTIVE_ONLY_STATE => if fst p =? UINT_MAX then p else (fst p, v)
  | RPMH_OTHER_STATE => p
  end.

Definition cache_wf (c : list cache_req) : Prop := NoDup (map cr_addr c).

Definition entry (p : cache_req) : Z * Z := (sleep_val p, wake_val p).

Lemma update_req_spec st cmd req dirty :
  let r := update_req st cmd req dirty in
  cr_addr r.1 = cr_addr req /\ entry r.1 = vote_update st (data cmd) (entry req) /\
  (r.2 = false -> dirty = false /\ r.1 = req).
Proof.
  destruct req as [a s w]. unfold entry. cbn.
  destruct st; cbn; repeat case_if; cbn; split_and!; try done; f_equal; lia.
Qed.

Lemma votes_cons p c : votes (p :: c) = <[cr_addr p := entry p]> (votes c).
Proof. done. Qed.

Lemma votes_none c a : (forall p, p ∈ c -> cr_addr p <> a) -> votes c !! a = None.
Proof.
  induction c as [|p c IH]; intros Hc; [done|]. rewrite votes_cons, lookup_insert_ne; [|by apply Hc; left].
  apply IH. intros q Hq. apply Hc. by right.
Qed.

Lemma votes_insert c i req q : cache_wf c -> c !! i = Some req -> cr_addr q = cr_addr req ->
  votes c !! cr_addr req = Some (entry req) /\
  votes (<[i := q]> c) = <[cr_addr req := entry q]> (votes c) /\ cache_wf (<[i := q]> c).
Proof.
  unfold cache_wf. revert i. induction c as [|p c IH]; intros i Hnd Hi Ha; [done|].
  cbn [map] in Hnd. apply NoDup_cons in Hnd as [Hp Hnd]. destruct i as [|i]; cbn in Hi.
  - simplify_eq. change (<[0%nat := q]> (req :: c)) with (q :: c).
    rewrite !votes_cons, Ha, insert_insert_eq, lookup_insert_eq.
    split_and!; [done|done|]. constructor; [by rewrite Ha|done].
  - destruct (IH i Hnd Hi Ha) as (H1 & H2 & H3).
    assert (cr_addr p <> cr_addr req).
    { intros E. apply Hp. rewrite E. apply list_elem_of_fmap. exists req. split; [done|].
      by eapply list_elem_of_lookup_2. }
    change (<[S i := q]> (p :: c)) with (p :: <[i := q]> c). rewrite !votes_cons, H2.
    split_and!; [by rewrite lookup_insert_ne|by rewrite insert_insert_ne|].
    cbn [map]. constructor; [|done].
    rewrite list_elem_of_fmap. intros (x & Hx & [j Hj]%list_elem_of_lookup_1).
    apply list_lookup_insert_Some in Hj as [(_ & -> & _)|[_ Hj]]; [congruence|].
    apply Hp. rewrite Hx. apply list_elem_of_fmap. exists x. split; [done|]. by eapply list_elem_of_lookup_2.
Qed.

Lemma votes_snoc c q : cache_wf c -> (forall p, p ∈ c -> cr_addr p <> cr_addr q) ->
  votes (c ++ [q]) = <[cr_addr q := entry q]> (votes c) /\ cache_wf (c ++ [q]).
Proof.
  intros Hwf Hnew. split.
  - clear Hwf. induction c as [|p c IH]; [done|]. cbn [app]. rewrite !votes_cons, IH.
    + rewrite insert_insert_ne; [done|]. intros E. apply (Hnew p); [left|done].
    + intros p' Hp'. apply Hnew. by right.
  - unfold cache_wf in *. rewrite map_app. cbn. apply NoDup_app. split_and!; [done| |apply NoDup_singleton].
    intros a (p & -> & Hp)%list_elem_of_fmap Ha%list_elem_of_singleton. by apply (Hnew p).
Qed.

Lemma cache_request_ok st cmd r : cache_wf (r_cache r) ->
  exists ret r', cache_rpm_request st cmd r = Ok (ret, r') /\ cache_wf (r_cache r') /\
  ((ret = 0 /\
    votes (r_cache r') = <[addr cmd := vote_update st (data cmd)
                             (default no_vote (votes (r_cache r) !! addr cmd))]> (votes (r_cache r)) /\
    (r_dirty r' = false -> r_dirty r = false /\
       filter (fun p => is_req_valid p = true) (r_cache r') =
       filter (fun p => is_req_valid p = true) (r_cache r))) \/
   (ret = - ENOMEM /\ votes (r_cache r) !! addr cmd = None /\ head (r_mem r) = Some false /\
    r_cache r' = r_cache r /\ r_dirty r' = r_dirty r)) /\
  (r_mem r = [] -> r_mem r' = []).
Proof.
  intros Hwf. unfold cache_rpm_request, __find_req. st_run.
  destruct (list_find _ (r_cache r)) as [[i req]|] eqn:Hf.
  - apply list_find_Some in Hf as (Hi & Ha & _). st_run.
    pose proof (update_req_spec st cmd req (r_dirty r)) as Hu. destruct (update_req _ _ _ _) as [q dirty].
    cbn in Hu. destruct Hu as (Hq & He & Hd).
    destruct (votes_insert _ i req q Hwf Hi Hq) as (H1 & H2 & H3).
    eexists _, _. split; [reflexivity|]. cbn [with_cache r_cache r_dirty].
    split; [done|]. split; [|done]. left. split; [done|].
    rewrite <-Ha, H1. cbn [default from_option id]. rewrite <-He. split; [done|]. intros Hdf. destruct (Hd Hdf) as [-> ->].
    split; [done|]. by rewrite list_insert_id.
  - assert (Hnew : forall p, p ∈ r_cache r -> cr_addr p <> addr cmd).
    { rewrite list_find_None, Forall_forall in Hf. exact Hf. }
    assert (Hk : exists b r1, kzalloc r = Ok (b, r1) /\ r_cache r1 = r_cache r /\ r_dirty r1 = r_dirty r /\
                   (b = false -> head (r_mem r) = Some false) /\ (r_mem r = [] -> r_mem r1 = [])).
    { unfold kzalloc. destruct (r_mem r) as [|b m] eqn:Em; eexists _, _; (split; [reflexivity|]).
      - by split_and!.
      - split_and!; try done. by intros ->. }
    destruct Hk as (b & r1 & Hk & Hc & Hdr & Hb & Hme). rewrite (st_bind_ok _ _ _ _ _ Hk).
    destruct b; cbn [negb].
    2: { eexists _, r1. split; [reflexivity|]. rewrite Hc. split; [done|]. split; [|done]. right.
         split_and!; auto. by apply votes_none. }
    st_run. rewrite Hc, Hdr.
    pose proof (update_req_spec st cmd (CacheReq (addr cmd) UINT_MAX UINT_MAX) (r_dirty r)) as Hu.
    destruct (update_req _ _ _ _) as [q dirty]. cbn in Hu. destruct Hu as (Hq & He & Hd).
    destruct (votes_snoc (r_cache r) q Hwf) as [Hv Hwf']; [by rewrite Hq|].
    eexists _, _. split; [reflexivity|]. cbn [with_cache r_cache r_dirty].
    split; [done|]. split; [|done]. left. split; [done|].
    rewrite (votes_none _ _ Hnew), Hv, Hq, He. split; [done|]. intros Hdf. destruct (Hd Hdf) as [-> ->].
    split; [done|]. rewrite filter_app. cbn. by rewrite app_nil_r.
Qed.

(** The cache of votes implements a finite map: a cached request returns 0 and updates
    the votes of its address alone, as its state says (an active request updates the wake
    vote only when there is a sleep vote, an address without an entry has no votes), or it
    returns -ENOMEM and leaves the cache alone, but only when the address is new and there
    is no memory for it; an address never gets two entries; and when the dirty flag is not set afterwards it was not set before and the entries a flush
    writes are the same. *)
Theorem cache_request_refines st cmd r : cache_wf (r_cache r) ->
  exists ret r', cache_rpm_request st cmd r = Ok (ret, r') /\ cache_wf (r_cache r') /\
  ((ret = 0 /\
    votes (r_cache r') = <[addr cmd := vote_update st (data cmd)
                             (default no_vote (votes (r_cache r) !! addr cmd))]> (votes (r_cache r)) /\
    (r_dirty r' = false -> r_dirty r = false /\
       filter (fun p => is_req_valid p = true) (r_cache r') =
       filter (fun p => is_req_valid p = true) (r_cache r))) \/
   (ret = - ENOMEM /\ votes (r_cache r) !! addr cmd = None /\ head (r_mem r) = Some false /\
    r_cache r' = r_cache r /\ r_dirty r' = r_dirty r)) /\
  (r_mem r = [] -> r_mem r' = []).
Proof. apply cache_request_ok. Qed.

(** ** Programming single votes *)

(** A vote is programmed: an occupied slot of the group holds the address and the value,
    and its command is enabled. *)
Definition programmed (d : rsc_drv) (t : tcs_type) (a v : Z) : Prop :=
  exists s, s ∈ g_slots (get_tcs_of_type d t) /\
    let '(i, c) := slot_pos (get_tcs_of_type d t) s in
    read_tcs_reg d RSC_DRV_CMD_ADDR i c = a /\ read_tcs_reg d RSC_DRV_CMD_DATA i c = v /\
    Z.testbit (read_tcs_reg d RSC_DRV_CMD_ENABLE i 0) c = true.

(** The group [t] holds exactly the votes [sent]. *)
Record holds_votes (d : rsc_drv) (t : tcs_type) (sent : list (Z * Z)) : Prop := {
  hv_size : size (g_slots (get_tcs_of_type d t)) = length sent;
  hv_cached : forall s a, s ∈ g_slots (get_tcs_of_type d t) ->
    g_cmd_cache (get_tcs_of_type d t) !! Z.to_nat s = Some a -> a ∈ map fst sent;
  hv_prog : forall a v, (a, v) ∈ sent -> programmed d t a v;
}.

Definition capacity (d : rsc_drv) (t : tcs_type) : Z := total (get_tcs_of_type d t).

Lemma fits_one g s : group_wf g -> fits g s 1 <-> 0 <= s < total g /\ s ∉ g_slots g.
Proof.
  intros Hw. unfold fits. rewrite area_free_true. replace (s + 1 - 1) with s by lia. split.
  - intros (? & ? & Hf & _). split; [lia|]. apply Hf. lia.
  - intros [? Hs]. split_and!; [lia|lia| |done]. intros i Hi. by replace i with s by lia.
Qed.

Lemma slots_size g : group_wf g -> Z.of_nat (size (g_slots g)) <= total g /\
  (Z.of_nat (size (g_slots g)) < total g <-> exists s, fits g s 1).
Proof.
  intros Hw. pose proof (total_max g Hw) as [Ht _].
  assert (Hsub : g_slots g ⊆ list_to_set (seqZ 0 (total g))).
  { intros i Hi. apply elem_of_list_to_set, elem_of_seqZ. pose proof (wf_slots _ Hw i Hi). lia. }
  assert (Hsz : size (list_to_set (seqZ 0 (total g)) : gset Z) = Z.to_nat (total g)).
  { rewrite size_list_to_set, length_seqZ by apply NoDup_seqZ. done. }
  pose proof (subseteq_size _ _ Hsub) as Hle. split; [lia|]. split.
  - intros Hlt. destruct (set_choose_or_empty (list_to_set (seqZ 0 (total g)) ∖ g_slots g)) as [[s Hs]|He].
    + exists s. apply fits_one; [done|]. apply elem_of_difference in Hs as [Hs%elem_of_list_to_set%elem_of_seqZ Hn].
      split; [lia|done].
    + assert (size (list_to_set (seqZ 0 (total g)) : gset Z) <= size (g_slots g))%nat; [|lia].
      apply subseteq_size. set_solver.
  - intros [s [Hs Hn]%fits_one]; [|done].
    assert (size (g_slots g) < size (list_to_set (seqZ 0 (total g)) : gset Z))%nat; [|lia].
    apply subset_size. split; [done|]. intros Hx. apply Hn, Hx, elem_of_list_to_set, elem_of_seqZ. lia.
Qed.

Lemma slot_pos_inj g s1 s2 : group_wf g -> slot_pos g s1 = slot_pos g s2 -> s1 = s2.
Proof.
  intros Hw. pose proof (wf_ncpt _ Hw). unfold slot_pos. intros [=].
  rewrite (Z.div_mod s1 (g_ncpt g)), (Z.div_mod s2 (g_ncpt g)) by lia. nia.
Qed.

Lemma programmed_in d t a v : rsc_wf d -> t = SLEEP_TCS \/ t = WAKE_TCS -> programmed d t a v ->
  exists s i c, s ∈ g_slots (get_tcs_of_type d t) /\ slot_pos (get_tcs_of_type d t) s = (i, c) /\
    in_group (get_tcs_of_type d t) i /\ 0 <= c < 16 /\
    read_tcs_reg d RSC_DRV_CMD_ADDR i c = a /\ read_tcs_reg d RSC_DRV_CMD_DATA i c = v /\
    Z.testbit (read_tcs_reg d RSC_DRV_CMD_ENABLE i 0) c = true.
Proof.
  intros Hw Ht (s & Hs & Hp). pose proof (group_wf_of d t Hw Ht) as Hg.
  destruct (slot_in_group _ s Hg) as [Hi Hc]; [by apply Hg|].
  pose proof (wf_ncpt _ Hg) as Hn. unfold MAX_CMDS_PER_TCS in Hn.
  destruct (slot_pos _ s) as [i c] eqn:E. exists s, i, c. cbn in *. split_and!; try done; lia.
Qed.

(** A write of one command at slot [s], seen from another slot. *)
Lemma programmed_keep d d1 i c msg t a v g' : num_cmds msg = 1 -> 0 <= c < 16 ->
  rsc_wf d -> t = SLEEP_TCS \/ t = WAKE_TCS ->
  (forall r t c, read_tcs_reg d1 r t c = read_tcs_reg d r t c) ->
  get_tcs_of_type d1 t = g' -> g_offset g' = g_offset (get_tcs_of_type d t) ->
  g_ncpt g' = g_ncpt (get_tcs_of_type d t) ->
  (forall s, s ∈ g_slots (get_tcs_of_type d t) -> s ∈ g_slots g' /\ slot_pos (get_tcs_of_type d t) s <> (i, c)) ->
  programmed d t a v -> programmed (__tcs_buffer_write d1 i c msg) t a v.
Proof.
  intros Hn Hc Hw Ht Hregs Hg Ho Hnc Hne Hp.
  destruct (programmed_in d t a v Hw Ht Hp) as (s & i1 & c1 & Hs & Hpos & _ & Hc1 & Ha & Hv & Hb).
  destruct (buffer_write_ok d1 i c msg) as (Hsr & Hk & _ & Hen); [lia..|]. cbv zeta in *.
  set (d' := __tcs_buffer_write _ _ _ _) in *. clearbody d'.
  apply same_rest_proj in Hsr as (_ & _ & _ & _ & Hgr). destruct (Hne s Hs) as [Hs' Hneq].
  exists s. rewrite Hgr, Hg. split; [done|].
  replace (slot_pos g' s) with (i1, c1) by (rewrite <-Hpos; unfold slot_pos; by rewrite Ho, Hnc).
  rewrite Hpos in Hneq.
  rewrite !(Hk _ i1 c1), !Hregs;
    [| apply reg_ok_cmd; [tauto|lia] | unfold msg_window, cmd_window; regs_unfold; intros Hx; apply Hneq; f_equal; lia
     | apply reg_ok_cmd; [tauto|lia] | unfold msg_window, cmd_window; regs_unfold; intros Hx; apply Hneq; f_equal; lia].
  split_and!; [done|done|]. destruct (decide (i1 = i)) as [->|Hi].
  - rewrite Hen, Hregs, Hb by lia. done.
  - rewrite Hk, Hregs; [done|done|]. unfold msg_window, cmd_window. regs_unfold. lia.
Qed.

Lemma single_ok st a v : 0 <= a < 2 ^ 32 -> msg_ok (single st a v).
Proof. intros Ha. split; [unfold num_cmds, MAX_CMDS_PER_TCS; cbn; lia|].
  apply Forall_singleton. exact Ha. Qed.

Lemma not_hit d t st a v sent s : rsc_wf d -> t = SLEEP_TCS \/ t = WAKE_TCS -> holds_votes d t sent ->
  a ∉ map fst sent -> ~ hit (get_tcs_of_type d t) (single st a v) s.
Proof.
  intros Hw Ht Hv Ha (Hs & Hpos & Hc & _). apply Ha. eapply (hv_cached _ _ _ Hv s); [done|].
  specialize (Hc 0%nat (Cmd a v false) eq_refl). by rewrite Nat.add_0_r in Hc.
Qed.

(** The state after a vote is written to a free slot of [t]. *)
Section written.
Context (d : rsc_drv) (t : tcs_type) (st : rpmh_state) (a v : Z) (s : Z) (g' : tcs_group).
Context (Hw : rsc_wf d) (Ht : t = SLEEP_TCS \/ t = WAKE_TCS) (Ha : 0 <= a < 2 ^ 32) (Hv : 0 <= v < 2 ^ 32).
Context (Hfit : fits (get_tcs_of_type d t) s 1) (Hg' : group_wf g')
        (Hp : placed (get_tcs_of_type d t) g' (single st a v) s).

Let g := get_tcs_of_type d t.
Let d' := __tcs_buffer_write (set_tcs d t g') (slot_pos g s).1 (slot_pos g s).2 (single st a v).

Lemma written_pos : 0 <= s < total g /\ s ∉ g_slots g /\ in_group g (slot_pos g s).1 /\
  0 <= (slot_pos g s).2 < 16.
Proof.
  pose proof (group_wf_of d t Hw Ht) as Hg. apply (fits_one g s Hg) in Hfit as [Hs Hn].
  destruct (slot_in_group g s Hg Hs). pose proof (wf_ncpt _ Hg). unfold MAX_CMDS_PER_TCS in *.
  fold g in H1. split_and!; try done; lia.
Qed.

Lemma written_group u : get_tcs_of_type d' u = if decide (t = u) then g' else get_tcs_of_type d u.
Proof.
  destruct written_pos as (_ & _ & _ & Hc).
  destruct (buffer_write_ok (set_tcs d t g') (slot_pos g s).1 (slot_pos g s).2 (single st a v))
    as (Hsr & _); [lia|change (num_cmds _) with 1; lia|].
  apply same_rest_proj in Hsr as (_ & _ & _ & _ & Hgr). subst d'. by rewrite Hgr, get_set_tcs.
Qed.

Lemma written_same sent : holds_votes d t sent -> holds_votes d' t (sent ++ [(a, v)]).
Proof.
  intros [Hsize Hcached Hprog]. destruct written_pos as (Hs & Hns & Hi & Hc).
  pose proof Hp as (Ho & _ & Hnc & _ & _ & Hsl & Hin & Hout).
  pose proof (group_wf_of d t Hw Ht) as Hg.
  assert (Hslots : g_slots g' = g_slots g ∪ {[s]}).
  { apply set_eq. intros i. rewrite Hsl. unfold num_cmds. cbn. rewrite elem_of_union, elem_of_singleton.
    fold g. intuition lia. }
  constructor; rewrite ?written_group, ?decide_True by done.
  - rewrite Hslots, size_union by set_solver. rewrite size_singleton, length_app. cbn. fold g in Hsize. lia.
  - intros x b Hx Hb. rewrite map_app. apply elem_of_app. rewrite Hslots in Hx.
    apply elem_of_union in Hx as [Hx|Hx%elem_of_singleton].
    + left. apply (Hcached x b Hx). rewrite <-Hb. symmetry. apply Hout; [by apply Hg|].
      unfold num_cmds. cbn. destruct (Z.lt_trichotomy x s) as [|[->|]]; [lia|done|lia].
    + right. subst x. specialize (Hin 0%nat (Cmd a v false) eq_refl). rewrite Nat.add_0_r in Hin.
      cbn in Hin. rewrite Hin in Hb. simplify_eq. cbn. left.
  - intros b w [Hbw|Hbw%list_elem_of_singleton]%elem_of_app.
    + apply (programmed_keep d _ _ _ _ t b w g'); try done; [by rewrite get_set_tcs, decide_True|..].
      * intros x Hx. rewrite Hslots. split; [by apply elem_of_union_l|]. intros E.
        assert (slot_pos g x = slot_pos g s) as E'; [subst g; rewrite E; by destruct (slot_pos _ s)|].
        apply (slot_pos_inj g) in E'; [by subst|done].
      * by apply Hprog.
    + simplify_eq. exists s. rewrite written_group, decide_True by done.
      split; [rewrite Hslots; apply elem_of_union_r, elem_of_singleton; done|].
      assert (slot_pos g' s = slot_pos g s) as -> by (unfold slot_pos; subst g; by rewrite Ho, Hnc).
      destruct (buffer_write_ok (set_tcs d t g') (slot_pos g s).1 (slot_pos g s).2 (single st a v))
        as (_ & _ & Hh & Hen); [lia|change (num_cmds _) with 1; lia|]. fold d' in Hh, Hen. cbv zeta in *.
      specialize (Hh 0%nat (Cmd a v false) eq_refl). rewrite Z.add_0_r in Hh. destruct Hh as (_ & H1 & H2).
      destruct (slot_pos g s) as [i c]. cbn [fst snd addr data] in *. fold d'.
      rewrite H1, H2, !u32_id by done. split_and!; [done|done|]. rewrite Hen by lia.
      unfold num_cmds. cbn. lia.
Qed.

Lemma written_other u sent : u = SLEEP_TCS \/ u = WAKE_TCS -> u <> t ->
  holds_votes d u sent -> holds_votes d' u sent.
Proof.
  intros Hu Hne [Hsize Hcached Hprog]. destruct written_pos as (_ & _ & Hi & Hc).
  constructor; rewrite ?written_group, ?decide_False by done; [done|done|].
  intros b w Hbw. apply (programmed_keep d _ _ _ _ u b w (get_tcs_of_type d u)); try done;
    [by rewrite get_set_tcs, decide_False| |by apply Hprog].
  intros x Hx. split; [done|]. intros E. destruct (slot_in_group (get_tcs_of_type d u) x) as [Hiu _];
    [by apply group_wf_of|by apply group_wf_of|]. rewrite E in Hiu. cbn in Hiu. subst g.
  destruct Ht as [->| ->], Hu as [->| ->]; try done; by eapply (rw_apart2 _ Hw).
Qed.
End written.

Section flush.
Context `{TcsAbi} `{BitmapArea}.

Lemma write_ctrl_single d st a v t : cached_type (single st a v) = Some t ->
  rpmh_rsc_write_ctrl_data (Some (single st a v)) d = tcs_ctrl_write (single st a v) d.
Proof.
  intros Ht. unfold rpmh_rsc_write_ctrl_data. pose proof max_payload_range.
  assert (payload_ok (Some (single st a v)) = true) as ->
    by (unfold payload_ok; change (num_cmds (single st a v)) with 1; cbn; lia).
  cbn [negb]. unfold cached_type in Ht. cbn in *. by destruct st.
Qed.

(** One vote written to a group: it is refused exactly when the group is full. *)
Lemma single_write d t st a v sent : cached_type (single st a v) = Some t -> rsc_wf d ->
  0 <= a < 2 ^ 32 -> 0 <= v < 2 ^ 32 -> holds_votes d t sent -> a ∉ map fst sent ->
  exists ret d', rpmh_rsc_write_ctrl_data (Some (single st a v)) d = Ok (ret, d') /\ rsc_wf d' /\
    (forall u, capacity d' u = capacity d u) /\
    ((ret = 0 /\ Z.of_nat (length sent) < capacity d t /\ holds_votes d' t (sent ++ [(a, v)]) /\
      forall u sent', u = SLEEP_TCS \/ u = WAKE_TCS -> u <> t ->
        holds_votes d u sent' -> holds_votes d' u sent') \/
     (ret = - ENOMEM /\ Z.of_nat (length sent) = capacity d t)).
Proof.
  intros Ht Hw Ha Hv Hh Hnew. rewrite (write_ctrl_single d st a v t Ht).
  assert (Hsw : t = SLEEP_TCS \/ t = WAKE_TCS)
    by (unfold cached_type in Ht; cbn in Ht; destruct st; simplify_eq; auto).
  pose proof (group_wf_of d t Hw Hsw) as Hg. pose proof (slots_size _ Hg) as [Hle Hex].
  rewrite (hv_size _ _ _ Hh) in Hle, Hex. unfold capacity.
  destruct (ctrl_write_ok d t _ Hw (single_ok st a v Ha) Ht) as (ret & d' & Hr & Hcw).
  exists ret, d'. split; [done|]. split; [apply (ctrl_written_wf d t (single st a v) ret d'); auto using single_ok|].
  destruct Hcw as [(-> & -> & Hno)|(-> & s & g' & Hs & Hst & Hor & Hg' & Hp & Hd)].
  - split; [intros u; rewrite get_set_tcs; by case_decide; subst|]. right. split; [done|].
    destruct (Z.lt_ge_cases (Z.of_nat (length sent)) (total (get_tcs_of_type d t))) as [Hlt|]; [|lia].
    apply Hex in Hlt as [s Hs]. by destruct (Hno s).
  - assert (Hfit : fits (get_tcs_of_type d t) s 1).
    { destruct Hor as [Hhit|Hf]; [|done]. exfalso. by eapply not_hit. }
    assert (d' = __tcs_buffer_write (set_tcs d t g') (slot_pos (get_tcs_of_type d t) s).1
                   (slot_pos (get_tcs_of_type d t) s).2 (single st a v)) as -> by
      (by destruct (slot_pos _ s)). clear Hd.
    split.
    + intros u. erewrite written_group by eauto. case_decide; [|done]. subst u. unfold total.
      destruct Hp as (_ & -> & -> & _). done.
    + left. split; [done|]. split; [apply Hex; by exists s|].
      split; [eapply written_same; eauto|]. intros u sent' Hu Hne Hhu. eapply written_other; eauto.
Qed.

Definition valid_reqs (l : list cache_req) : list cache_req :=
  filter (fun p => is_req_valid p = true) l.
Definition sleep_votes (l : list cache_req) : list (Z * Z) := map (fun p => (cr_addr p, sleep_val p)) l.
Definition wake_votes (l : list cache_req) : list (Z * Z) := map (fun p => (cr_addr p, wake_val p)) l.

(** The fields of a cached request are 32 bits wide. *)
Definition req_u32 (p : cache_req) : Prop :=
  0 <= cr_addr p < 2 ^ 32 /\ 0 <= sleep_val p < 2 ^ 32 /\ 0 <= wake_val p < 2 ^ 32.

Lemma votes_addrs l : map fst (sleep_votes l) = map cr_addr l /\ map fst (wake_votes l) = map cr_addr l.
Proof. unfold sleep_votes, wake_votes. by rewrite !map_map. Qed.

Lemma on_drv_ok {A} (c : ST rsc_drv A) r a d : c (r_drv r) = Ok (a, d) ->
  on_drv c r = Ok (a, with_drv r d).
Proof. intros Hc. unfold on_drv. by rewrite Hc. Qed.

Lemma flush_cache_ok l : forall pre r, rsc_wf (r_drv r) -> Forall req_u32 l ->
  NoDup (map cr_addr (pre ++ l)) ->
  holds_votes (r_drv r) SLEEP_TCS (sleep_votes (valid_reqs pre)) ->
  holds_votes (r_drv r) WAKE_TCS (wake_votes (valid_reqs pre)) ->
  exists ret d', flush_cache l r = Ok (ret, with_drv r d') /\ rsc_wf d' /\
  let n := Z.of_nat (length (valid_reqs (pre ++ l))) in
  ((ret = 0 /\ n <= capacity (r_drv r) SLEEP_TCS /\ n <= capacity (r_drv r) WAKE_TCS /\
    holds_votes d' SLEEP_TCS (sleep_votes (valid_reqs (pre ++ l))) /\
    holds_votes d' WAKE_TCS (wake_votes (valid_reqs (pre ++ l)))) \/
   (ret = - ENOMEM /\ (capacity (r_drv r) SLEEP_TCS < n \/ capacity (r_drv r) WAKE_TCS < n))).
Proof.
  induction l as [|p l IH]; intros pre r Hw Hu Hnd Hs Hk; cbn [flush_cache].
  - rewrite app_nil_r. exists 0, (r_drv r). split; [by destruct r|]. split; [done|]. left.
    pose proof (hv_size _ _ _ Hs) as E1. pose proof (hv_size _ _ _ Hk) as E2.
    pose proof (slots_size _ (rw_sleep _ Hw)) as [H1 _]. pose proof (slots_size _ (rw_wake _ Hw)) as [H2 _].
    unfold sleep_votes, wake_votes in E1, E2. rewrite length_map in E1, E2. unfold capacity. cbn in *.
    split_and!; [done|lia|lia|done|done].
  - apply Forall_cons in Hu as [(Hua & Hus & Huw) Hu].
    replace (pre ++ p :: l) with ((pre ++ [p]) ++ l) in * by (by rewrite <-app_assoc).
    destruct (is_req_valid p) eqn:Hv; cbn [negb].
    + assert (Hvp : valid_reqs (pre ++ [p]) = valid_reqs pre ++ [p]).
      { unfold valid_reqs. rewrite filter_app, filter_cons_True by done. done. }
      assert (Hnew : cr_addr p ∉ map cr_addr (valid_reqs pre)).
      { rewrite !map_app in Hnd. apply NoDup_app in Hnd as (Hnd & _ & _).
        apply NoDup_app in Hnd as (_ & Hdis & _). intros (q & Hq & [_ Hin]%list_elem_of_filter)%list_elem_of_fmap.
        apply (Hdis (cr_addr p)); [|left]. rewrite Hq. by apply list_elem_of_fmap_2. }
      assert (Hn : Z.of_nat (length (valid_reqs pre)) < Z.of_nat (length (valid_reqs ((pre ++ [p]) ++ l)))).
      { unfold valid_reqs at 2. rewrite filter_app, length_app. fold (valid_reqs (pre ++ [p])).
        rewrite Hvp, length_app. cbn. lia. }
      unfold send_single.
      destruct (single_write (r_drv r) SLEEP_TCS RPMH_SLEEP_STATE (cr_addr p) (sleep_val p) _ eq_refl Hw Hua Hus Hs)
        as (ret & d1 & Hr1 & Hw1 & Hc1 & Hres1); [by rewrite (proj1 (votes_addrs _))|].
      rewrite (st_bind_ok _ _ _ _ _ (on_drv_ok _ _ _ _ Hr1)).
      destruct Hres1 as [(-> & Hlt1 & Hs1 & Hoth1)|(-> & Hfull)]; cbn [Z.eqb negb].
      2:{ eexists _, d1. split; [reflexivity|]. split; [done|]. right. split; [done|]. left.
          unfold sleep_votes in Hfull. rewrite length_map in Hfull. lia. }
      destruct (single_write d1 WAKE_TCS RPMH_WAKE_ONLY_STATE (cr_addr p) (wake_val p) _ eq_refl Hw1 Hua Huw
                  (Hoth1 WAKE_TCS _ (or_intror eq_refl) ltac:(done) Hk))
        as (ret & d2 & Hr2 & Hw2 & Hc2 & Hres2); [by rewrite (proj2 (votes_addrs _))|].
      rewrite (st_bind_ok _ _ _ _ _ (on_drv_ok _ (with_drv r d1) _ _ Hr2)).
      destruct Hres2 as [(-> & Hlt2 & Hk2 & Hoth2)|(-> & Hfull)]; cbn [Z.eqb negb].
      2:{ eexists _, d2. split; [reflexivity|]. split; [done|]. right. split; [done|]. right.
          unfold wake_votes in Hfull. rewrite length_map, Hc1 in Hfull. lia. }
      destruct (IH (pre ++ [p]) (with_drv r d2) Hw2 Hu Hnd) as (ret & d3 & Hr3 & Hw3 & Hres3).
      * rewrite Hvp. unfold sleep_votes. rewrite map_app. apply Hoth2; [auto|done|done].
      * rewrite Hvp. unfold wake_votes. rewrite map_app. done.
      * exists ret, d3. split; [exact Hr3|]. split; [done|]. cbn [r_drv with_drv] in Hres3.
        by rewrite !Hc2, !Hc1 in Hres3.
    + assert (Hvp : valid_reqs (pre ++ [p]) = valid_reqs pre).
      { unfold valid_reqs. rewrite filter_app, filter_cons_False by congruence. apply app_nil_r. }
      apply (IH (pre ++ [p]) r); try done; by rewrite Hvp.
Qed.

Lemma clear_holds d t : holds_votes d t [] <-> g_slots (get_tcs_of_type d t) = ∅.
Proof.
  split; [intros [Hs _ _]; by apply size_empty_inv, leibniz_equiv in Hs|].
  intros He. constructor; [by rewrite He|rewrite He; set_solver|set_solver].
Qed.

(** With no sleep or wake TCS in use the invalidation succeeds at once. *)
Lemma rsc_invalidate_free d : rsc_wf d ->
  (forall i, in_group (d_sleep d) i \/ in_group (d_wake d) i -> i ∉ d_in_use d) ->
  exists d', rpmh_rsc_invalidate d = Ok (0, d') /\ rsc_wf d' /\
    d_sleep d' = clear_slots (d_sleep d) /\ d_wake d' = clear_slots (d_wake d).
Proof.
  intros Hw Hfree. destruct (rsc_invalidate_quiet d Hw) as (r & d' & Hr & Hq & Hc & Hgr).
  exists d'. destruct Hc as [->| ->]; [split_and!; [done|apply Hq|by apply Hgr..]|exfalso].
  unfold rpmh_rsc_invalidate in Hr.
  destruct (tcs_invalidate_ok d SLEEP_TCS) as (r1 & d1 & Hr1 & _ & Hc1); [apply Hw|].
  rewrite (st_bind_ok _ _ _ _ _ Hr1) in Hr.
  destruct Hc1 as [(-> & Hs1 & _)|(-> & _ & i & Hi & Hu)]; [|by eapply Hfree; [left|]].
  cbn [Z.eqb] in Hr. apply same_rest_proj in Hs1 as (Hu1 & _ & _ & _ & Hg1).
  pose proof (Hg1 WAKE_TCS : d_wake d1 = d_wake d) as Ewk.
  destruct (tcs_invalidate_ok d1 WAKE_TCS) as (r2 & d2 & Hr2 & _ & Hc2); [cbn; rewrite Ewk; apply (wf_num _ (rw_wake _ Hw))|].
  rewrite Hr2 in Hr. injection Hr as -> _.
  destruct Hc2 as [(Hx & _)|(_ & _ & i & Hi & Hu)]; [done|]. cbn in Hi. rewrite Ewk in Hi.
  rewrite Hu1 in Hu. by eapply Hfree; [right|].
Qed.

(** The outcome of a flush. *)
Lemma flush_outcome fuel env r : r_standalone r = false -> r_dirty r = true ->
  r_batch_cache r = [] -> cache_wf (r_cache r) -> Forall req_u32 (r_cache r) -> rsc_wf (r_drv r) ->
  (forall i, in_group (d_sleep (r_drv r)) i \/ in_group (d_wake (r_drv r)) i -> i ∉ d_in_use (r_drv r)) ->
  let n := Z.of_nat (length (valid_reqs (r_cache r))) in
  exists ret r', rpmh_flush (S fuel) env r = Ok (ret, r') /\ r_cache r' = r_cache r /\
  ((n <= capacity (r_drv r) SLEEP_TCS /\ n <= capacity (r_drv r) WAKE_TCS /\
    ret = 0 /\ r_dirty r' = false /\
    forall p, p ∈ r_cache r -> is_req_valid p = true ->
      programmed (r_drv r') SLEEP_TCS (cr_addr p) (sleep_val p) /\
      programmed (r_drv r') WAKE_TCS (cr_addr p) (wake_val p)) \/
   ((capacity (r_drv r) SLEEP_TCS < n \/ capacity (r_drv r) WAKE_TCS < n) /\
    ret = - ENOMEM /\ r_dirty r' = true)).
Proof.
  intros Hst Hd Hb Hwf Hu Hw Hfree n. unfold rpmh_flush. st_run. rewrite Hst. st_run. rewrite Hd.
  cbn [negb inval_loop]. destruct (rsc_invalidate_free _ Hw Hfree) as (d1 & Hr1 & Hw1 & Es & Ew).
  st_run. rewrite (st_bind_ok _ _ _ _ _ (on_drv_ok _ _ _ _ Hr1)). change (0 =? - EAGAIN) with false.
  cbv iota. st_run. unfold flush_batch. st_run. cbn [r_batch_cache with_drv]. rewrite Hb.
  cbn [flush_batches]. st_run. cbn [Z.eqb negb]. st_run. cbn [r_cache with_drv].
  destruct (flush_cache_ok (r_cache r) [] (with_drv r d1) Hw1 Hu Hwf) as (ret & d2 & Hr2 & Hw2 & Hres).
  { apply clear_holds. cbn. by rewrite Es. }
  { apply clear_holds. cbn. by rewrite Ew. }
  rewrite (st_bind_ok _ _ _ _ _ Hr2). cbn [app] in Hres. fold n in Hres.
  assert (Hcap : forall t, t = SLEEP_TCS \/ t = WAKE_TCS ->
            capacity (r_drv (with_drv r d1)) t = capacity (r_drv r) t).
  { intros t [->| ->]; unfold capacity; cbn; [by rewrite Es|by rewrite Ew]. }
  rewrite !Hcap in Hres by auto.
  destruct Hres as [(-> & Hn1 & Hn2 & Hhs & Hhw)|(-> & Hfull)]; cbn [Z.eqb negb].
  - st_run. eexists _, _. split; [reflexivity|]. split; [done|]. left. split_and!; [done..|].
    intros p Hp Hv. assert (Hin : p ∈ valid_reqs (r_cache r)) by (by apply list_elem_of_filter).
    split; [apply (hv_prog _ _ _ Hhs)|apply (hv_prog _ _ _ Hhw)]; unfold sleep_votes, wake_votes;
      apply list_elem_of_fmap; by exists p.
  - eexists _, _. split; [reflexivity|]. split; [done|]. right. done.
Qed.

(** C1: a flush programs every vote or reports that they do not fit. With no batches cached
    and no sleep or wake TCS in flight, [rpmh_flush] of a dirty cache returns; it returns 0
    exactly when the valid votes are no more than the slots of the sleep and of the wake
    group, and then the cache is clean and each of them is programmed, its command enabled,
    with its sleep value in a sleep TCS and with its wake value in a wake TCS; otherwise it
    returns -ENOMEM and the cache stays dirty. *)
Theorem rpmh_flush_correct fuel env r : r_standalone r = false -> r_dirty r = true ->
  r_batch_cache r = [] -> cache_wf (r_cache r) -> Forall req_u32 (r_cache r) -> rsc_wf (r_drv r) ->
  (forall i, in_group (d_sleep (r_drv r)) i \/ in_group (d_wake (r_drv r)) i -> i ∉ d_in_use (r_drv r)) ->
  let n := Z.of_nat (length (valid_reqs (r_cache r))) in
  exists ret r', rpmh_flush (S fuel) env r = Ok (ret, r') /\ r_cache r' = r_cache r /\
  ((n <= capacity (r_drv r) SLEEP_TCS /\ n <= capacity (r_drv r) WAKE_TCS /\
    ret = 0 /\ r_dirty r' = false /\
    forall p, p ∈ r_cache r -> is_req_valid p = true ->
      programmed (r_drv r') SLEEP_TCS (cr_addr p) (sleep_val p) /\
      programmed (r_drv r') WAKE_TCS (cr_addr p) (wake_val p)) \/
   ((capacity (r_drv r) SLEEP_TCS < n \/ capacity (r_drv r) WAKE_TCS < n) /\
    ret = - ENOMEM /\ r_dirty r' = true)).
Proof. apply flush_outcome. Qed.

(** In solver mode no active vote is accepted: [rpmh_write], [rpmh_write_async] and
    [rpmh_write_batch] with an active state and arguments they do not reject return -EBUSY
    and change nothing. *)
Theorem solver_mode_refuses fuel env wenv irq r cmd n counts : r_standalone r = false ->
  r_in_solver_mode r = true -> 0 < n <= MAX_RPMH_PAYLOAD ->
  rpmh_write fuel env wenv irq RPMH_ACTIVE_ONLY_STATE (Some cmd) n r = Ok (- EBUSY, r) /\
  rpmh_write_async fuel env RPMH_ACTIVE_ONLY_STATE (Some cmd) n r = Ok (- EBUSY, r) /\
  rpmh_write_batch fuel env wenv RPMH_ACTIVE_ONLY_STATE (Some cmd) (Some counts) r = Ok (- EBUSY, r).
Proof.
  intros Hst Hs Hn.
  assert (Hc : check_ctrlr_state r RPMH_ACTIVE_ONLY_STATE = - EBUSY)
    by (unfold check_ctrlr_state; rewrite Hs; done).
  unfold rpmh_write, rpmh_write_async, rpmh_write_batch. split_and!.
  - case_if; [lia|]. st_run. rewrite Hst. st_run. by rewrite Hc.
  - st_run. rewrite Hst. st_run. by rewrite Hc.
  - st_run. rewrite Hst. st_run. by rewrite Hc.
Qed.

(** The votes after a list of commands, in order. *)
Definition votes_after (st : rpmh_state) (l : list tcs_cmd) (m : gmap Z (Z * Z)) : gmap Z (Z * Z) :=
  foldl (fun m c => <[addr c := vote_update st (data c) (default no_vote (m !! addr c))]> m) m l.

Lemma cache_request_rest st cmd r ret r' : cache_rpm_request st cmd r = Ok (ret, r') ->
  r_drv r' = r_drv r /\ r_reqs r' = r_reqs r /\ r_signalled r' = r_signalled r.
Proof.
  unfold cache_rpm_request. rewrite st_bind_get. destruct (__find_req _ _) as [[i req]|].
  - rewrite st_bind_upd. destruct (update_req _ _ _ _). intros [= <- <-]. done.
  - unfold st_bind at 1, kzalloc. destruct (r_mem r) as [|[] m]; cbn [negb];
      [rewrite st_bind_upd; destruct (update_req _ _ _ _)..|]; intros [= <- <-]; done.
Qed.

Lemma cache_cmds_ok st l : forall r, cache_wf (r_cache r) -> exists ret r',
  cache_cmds st l r = Ok (ret, r') /\ cache_wf (r_cache r') /\
  r_drv r' = r_drv r /\ r_reqs r' = r_reqs r /\ r_signalled r' = r_signalled r /\
  (ret = 0 /\ votes (r_cache r') = votes_after st l (votes (r_cache r)) \/
   ret = - ENOMEM /\ r_mem r <> []).
Proof.
  induction l as [|c l IH]; intros r Hwf; cbn [cache_cmds].
  - exists 0, r. split_and!; try done. by left.
  - destruct (cache_request_ok st c r Hwf) as (ret & r1 & Hr1 & Hwf1 & Hres & Hmem).
    destruct (cache_request_rest _ _ _ _ _ Hr1) as (Hd & Hq & Hsig).
    rewrite (st_bind_ok _ _ _ _ _ Hr1). destruct Hres as [(-> & Hv & _)|(-> & _ & Hh & _)]; cbn [Z.eqb negb].
    + destruct (IH r1 Hwf1) as (ret & r2 & Hr2 & Hwf2 & Hd2 & Hq2 & Hs2 & Hres).
      exists ret, r2. rewrite Hd2, Hq2, Hs2, Hd, Hq, Hsig. split_and!; try done.
      rewrite Hv in Hres. destruct Hres as [Hres|[-> Hres]]; [by left|right]. auto.
    + exists (- ENOMEM), r1. split_and!; try done. right. split; [done|]. intros E. by rewrite E in Hh.
Qed.

(** A sleep or wake request that is accepted is cached, not sent: the votes of its
    commands are updated in order, the controller is untouched and the request object is
    completed without an error, its waiter signalled; it is refused with -ENOMEM only when
    an allocation can fail. *)
Theorem rpmh_write_caches fuel env st msg r q : cache_wf (r_cache r) ->
  st = RPMH_SLEEP_STATE \/ st = RPMH_WAKE_ONLY_STATE -> r_reqs r !! req_id msg = Some q ->
  exists ret r', __rpmh_write fuel env st msg r = Ok (ret, r') /\ cache_wf (r_cache r') /\
    r_drv r' = r_drv r /\
    (ret = 0 /\ votes (r_cache r') = votes_after st (cmds msg) (votes (r_cache r)) /\
     (forall c, rq_completion q = Some c -> c ∈ r_signalled r') /\
     (rq_needs_free q = true -> r_reqs r' !! req_id msg = None) \/
     ret = - ENOMEM /\ r_mem r <> []).
Proof.
  intros Hwf Hst Hq. unfold __rpmh_write. cbv zeta. cbn [cmds req_id].
  destruct (cache_cmds_ok st (cmds msg) r Hwf) as (ret & r1 & Hr1 & Hwf1 & Hd & Hqs & Hs & Hres).
  rewrite (st_bind_ok _ _ _ _ _ Hr1). destruct Hres as [[-> Hv]|[-> Hm]]; cbn [Z.eqb negb].
  - assert (state_is st RPMH_ACTIVE_ONLY_STATE = false) as -> by (by destruct Hst as [->| ->]).
    unfold st_bind, rpmh_tx_done. rewrite Hqs, Hq. eexists _, _. split; [reflexivity|].
    split; [exact Hwf1|]. split; [exact Hd|]. left. split; [done|]. split; [exact Hv|]. split.
    + intros c Hc. cbn. rewrite Hc. apply elem_of_app. right. left.
    + intros Hf. cbn. rewrite Hf. apply lookup_delete_eq.
  - exists (- ENOMEM), r1. split_and!; try done. by right.
Qed.

(** After [rpmh_invalidate] with no sleep or wake TCS in flight there are no batches,
    the cache is dirty and no slot of the sleep and wake groups is occupied. *)
Theorem rpmh_invalidate_correct fuel env r : r_standalone r = false -> rsc_wf (r_drv r) ->
  (forall i, in_group (d_sleep (r_drv r)) i \/ in_group (d_wake (r_drv r)) i -> i ∉ d_in_use (r_drv r)) ->
  exists r', rpmh_invalidate (S fuel) env r = Ok (0, r') /\ r_batch_cache r' = [] /\
    r_dirty r' = true /\ r_cache r' = r_cache r /\ rsc_wf (r_drv r') /\
    g_slots (d_sleep (r_drv r')) = ∅ /\ g_slots (d_wake (r_drv r')) = ∅.
Proof.
  intros Hst Hw Hfree. unfold rpmh_invalidate, invalidate_batch. st_run. rewrite Hst. st_run.
  cbn [inval_loop]. destruct (rsc_invalidate_free _ Hw Hfree) as (d1 & Hr1 & Hw1 & Es & Ew).
  set (r1 := with_cache _ _ _).
  rewrite (st_bind_ok _ _ _ _ _ (on_drv_ok _ r1 _ _ Hr1)). change (0 =? - EAGAIN) with false.
  eexists. split; [reflexivity|]. cbn. rewrite Es, Ew. done.
Qed.
End flush.

(** ** Examples *)
Import RscDemo.
Module RpmhDemo.
(** A dirty cache with one valid vote of three, over the controller of [RscDemo]. *)
Definition cache : list cache_req :=
  [CacheReq 0x30000 0 5; CacheReq 0x40000 UINT_MAX 7; CacheReq 0x50000 1 1].
Definition sys : rpmh := Rpmh false cache true [] false RscDemo.start ∅ 0 [] [].

Lemma cache_is_wf : cache_wf cache.
Proof. unfold cache_wf. cbn. repeat constructor; set_solver. Qed.

Lemma cache_u32 : Forall req_u32 cache.
Proof. repeat constructor; cbn; unfold UINT_MAX; lia. Qed.

Lemma nothing_in_use i : in_group (d_sleep (r_drv sys)) i \/ in_group (d_wake (r_drv sys)) i ->
  i ∉ d_in_use (r_drv sys).
Proof. intros _. apply not_elem_of_empty. Qed.

Definition env (k : nat) (d : rsc_drv) : rsc_drv := d.
End RpmhDemo.

Lemma cache_request_refines_witness : exists r',
  cache_rpm_request RPMH_SLEEP_STATE (Cmd 0x40000 2 false) RpmhDemo.sys = Ok (0, r') /\
  votes (r_cache r') = <[0x40000 := (2, 7)]> (votes RpmhDemo.cache).
Proof.
  destruct (cache_request_refines RPMH_SLEEP_STATE (Cmd 0x40000 2 false) RpmhDemo.sys
              RpmhDemo.cache_is_wf) as (ret & r' & Hr & _ & [(-> & Hv & _)|(_ & _ & Hx & _)] & _).
  - exists r'. split; [exact Hr|exact Hv].
  - discriminate.
Defined.

Lemma rpmh_flush_correct_witness : exists r',
  rpmh_flush 1 RpmhDemo.env RpmhDemo.sys = Ok (0, r') /\ r_dirty r' = false /\
  programmed (r_drv r') SLEEP_TCS 0x30000 0 /\ programmed (r_drv r') WAKE_TCS 0x30000 5.
Proof.
  destruct (rpmh_flush_correct 0 RpmhDemo.env RpmhDemo.sys eq_refl eq_refl eq_refl RpmhDemo.cache_is_wf
              RpmhDemo.cache_u32 (ri_wf _ start_inv) RpmhDemo.nothing_in_use)
    as (ret & r' & Hr & _ & [(_ & _ & -> & Hd & Hp)|[[Hx|Hx] _]]).
  - exists r'. split; [exact Hr|]. split; [exact Hd|].
    apply (Hp (CacheReq 0x30000 0 5)); [left|reflexivity].
  - vm_compute in Hx. discriminate.
  - vm_compute in Hx. discriminate.
Defined.

Lemma solver_mode_refuses_witness :
  rpmh_write_async 1 RpmhDemo.env RPMH_ACTIVE_ONLY_STATE (Some [Cmd 1 2 false]) 1
    (with_solver RpmhDemo.sys true) = Ok (- EBUSY, with_solver RpmhDemo.sys true).
Proof.
  apply (solver_mode_refuses 1 RpmhDemo.env RpmhDemo.env true (with_solver RpmhDemo.sys true)
           [Cmd 1 2 false] 1 []); [reflexivity|reflexivity|].
  change MAX_RPMH_PAYLOAD with 16. lia.
Defined.

(** A request object for the messages below. *)
Definition slp_req : rpmh_request := RpmhReq RscDemo.slp (Some 8) 0 false.

Lemma rpmh_write_caches_witness : exists r',
  __rpmh_write 1 RpmhDemo.env RPMH_SLEEP_STATE RscDemo.slp
    (with_reqs RpmhDemo.sys {[8 := slp_req]} 9 []) = Ok (0, r') /\ 8 ∈ r_signalled r'.
Proof.
  destruct (rpmh_write_caches 1 RpmhDemo.env RPMH_SLEEP_STATE RscDemo.slp
              (with_reqs RpmhDemo.sys {[8 := slp_req]} 9 []) slp_req RpmhDemo.cache_is_wf
              (or_introl eq_refl) (lookup_singleton_eq 8 slp_req))
    as (ret & r' & Hr & _ & _ & [(-> & _ & Hs & _)|[_ Hx]]).
  - exists r'. split; [exact Hr|]. apply Hs. reflexivity.
  - destruct Hx. reflexivity.
Defined.

Lemma rpmh_invalidate_correct_witness : exists r',
  rpmh_invalidate 1 RpmhDemo.env RpmhDemo.sys = Ok (0, r') /\ r_dirty r' = true.
Proof.
  destruct (rpmh_invalidate_correct 0 RpmhDemo.env RpmhDemo.sys eq_refl (ri_wf _ start_inv)
              RpmhDemo.nothing_in_use) as (r' & Hr & _ & Hd & _).
  exists r'. split; [exact Hr|exact Hd].
Defined.

(** Two batches for sleep: the message of the first has more commands than a TCS. *)
Definition batches : list (list tcs_request) :=
  [[Req 0 RPMH_SLEEP_STATE false (map (fun a => Cmd a 0 false) [1; 2; 3; 4; 5])];
   [Req 0 RPMH_SLEEP_STATE false [Cmd 9 0 false]]].

(** The error of a batch is lost when a later batch is written: the first of two cached
    batches does not fit and is refused with -ENOMEM, yet the flush returns 0 and marks the
    cache clean, with only the second batch in the sleep TCSes. *)
Theorem flush_batch_masks_error :
  let r := with_batch RpmhDemo.sys batches true in
  (exists d, rpmh_rsc_write_ctrl_data (head (concat batches)) (r_drv r) = Ok (- ENOMEM, d)) /\
  exists r', rpmh_flush 1 RpmhDemo.env (with_cache r [] true) = Ok (0, r') /\ r_dirty r' = false /\
             size (g_slots (d_sleep (r_drv r'))) = 1%nat.
Proof.
  split; [eexists; vm_compute; reflexivity|]. eexists. split; [vm_compute; reflexivity|].
  split; vm_compute; reflexivity.
Qed.

(** An asynchronous request that is refused leaks its object: when there is no memory for
    the cache entry of its command, [rpmh_write_async] returns -ENOMEM with the object still
    allocated, though no TCS holds it and nothing will complete it. *)
Theorem write_async_leaks : exists r',
  rpmh_write_async 1 RpmhDemo.env RPMH_ACTIVE_ONLY_STATE (Some [Cmd 1 2 false]) 1
    (with_mem RpmhDemo.sys [true; false]) = Ok (- ENOMEM, r') /\
  r_reqs r' !! 0 <> None /\ d_in_use (r_drv r') = ∅ /\ d_done (r_drv r') = [].
Proof.
  eexists. split; [vm_compute; reflexivity|]. split_and!; [vm_compute; discriminate|reflexivity|reflexivity].
Qed.
