(* ===== verification/RpmhBatch.v ===== *)
(** * Batches and single votes of the voting library

    [rpmh_write_batch] cuts an array of commands into messages.  Sleep and wake messages are
    cached as they are; active ones leave the cache alone.  What a call for a single command
    does is the same whether it is waited for or not. *)
From S2P Require Import Prelude RpmhRsc RpmhSlots RpmhTcs Rpmh RpmhFlush.
Open Scope c_scope.

(** The messages for commands cut off by counts. *)
Definition messages (st : rpmh_state) (cs : list nat) (l : list tcs_cmd) : list tcs_request :=
  (fun c => Req 0 st false c) <$> reshape cs l.

(** Only the commands that are counted matter. *)
Lemma messages_take st cs : forall l n, (foldr Nat.add 0 cs <= n)%nat -> messages st cs (take n l) = messages st cs l.
Proof.
  unfold messages. induction cs as [|c cs IH]; intros l n Hn; [done|]. cbn [foldr] in Hn. cbn [reshape fmap list_fmap].
  rewrite take_take, skipn_firstn_comm, Nat.min_l by lia. by rewrite IH by lia.
Qed.

(** Every allocation succeeds. *)
Definition mem_plenty (r : rpmh) : Prop := Forall (fun b => b = true) (r_mem r).

(** The votes that wait for the next flush, and what goes with them. *)
Definition same_cache (r r' : rpmh) : Prop :=
  r_standalone r' = r_standalone r /\ r_cache r' = r_cache r /\ r_dirty r' = r_dirty r /\
  r_batch_cache r' = r_batch_cache r /\ r_in_solver_mode r' = r_in_solver_mode r /\
  (mem_plenty r -> mem_plenty r').

#[export] Instance same_cache_refl : Reflexive same_cache.
Proof. intros r. by split_and!. Qed.
#[export] Instance same_cache_trans : Transitive same_cache.
Proof.
  intros r1 r2 r3 (A1&A2&A3&A4&A5&A6) (B1&B2&B3&B4&B5&B6).
  split_and!; [by etrans..|auto].
Qed.

Section batches.
Context `{TcsAbi} `{BitmapArea}.
Context (fuel : nat) (env wenv : nat -> rsc_drv -> rsc_drv).

Lemma batch_counts_ok cs zs : Forall (fun c => 0 < c)%nat cs ->
  batch_counts ((Z.of_nat <$> cs) ++ 0 :: zs) = Ok (Z.of_nat <$> cs).
Proof.
  induction 1 as [|c cs Hc _ IH]; [done|]. cbn [fmap list_fmap app batch_counts].
  replace (Z.of_nat c >? 0) with true by lia. by setoid_rewrite IH.
Qed.

Lemma fill_batch_ok st rest cs : forall l, foldr Nat.add 0%nat cs = length l ->
  Forall (fun c => (0 < c)%nat /\ Z.of_nat c <= MAX_RPMH_PAYLOAD) cs ->
  fill_batch st (l ++ rest) (Z.of_nat <$> cs) = Ok (inr (messages st cs l)).
Proof.
  induction cs as [|c cs IH]; intros l Hsum Hall; cbn [fmap list_fmap fill_batch]; [done|].
  apply Forall_cons in Hall as [[Hc Hm] Hall]. cbn [foldr] in Hsum. unfold __fill_rpmh_msg, payload.
  replace ((Z.of_nat c =? 0) || (Z.of_nat c >? MAX_RPMH_PAYLOAD)) with false by lia.
  rewrite length_app. replace (Z.of_nat c <=? Z.of_nat (length l + length rest)) with true by lia.
  cbn [res_bind]. rewrite Nat2Z.id, drop_app_le, take_app_le by lia.
  rewrite IH; [done|rewrite length_drop; lia|done].
Qed.

Lemma kzalloc_plenty r : mem_plenty r -> exists r', kzalloc r = Ok (true, r') /\ same_cache r r' /\
  r_drv r' = r_drv r.
Proof.
  unfold kzalloc, mem_plenty. destruct (r_mem r) as [|b m] eqn:Hm; intros Hp.
  - by exists r.
  - apply Forall_cons in Hp as [-> Hp]. eexists. by split_and!.
Qed.

(** A batch of sleep or wake votes is cached behind the others. *)
Lemma write_batch_cached st cs zs l rest r : st = RPMH_WAKE_ONLY_STATE \/ st = RPMH_SLEEP_STATE ->
  r_standalone r = false -> mem_plenty r -> cs <> [] -> foldr Nat.add 0%nat cs = length l ->
  Forall (fun c => (0 < c)%nat /\ Z.of_nat c <= MAX_RPMH_PAYLOAD) cs ->
  exists r', rpmh_write_batch fuel env wenv st (Some (l ++ rest)) (Some ((Z.of_nat <$> cs) ++ 0 :: zs)) r = Ok (0, r') /\
    r_batch_cache r' = r_batch_cache r ++ [messages st cs l] /\ r_dirty r' = true /\
    r_standalone r' = false /\ r_cache r' = r_cache r /\ r_in_solver_mode r' = r_in_solver_mode r /\
    mem_plenty r' /\ r_drv r' = r_drv r.
Proof.
  intros Hst Hs Hm Hne Hsum Hall. unfold rpmh_write_batch.
  assert (Ha : state_is st RPMH_ACTIVE_ONLY_STATE = false) by (by destruct Hst as [->| ->]).
  st_run. rewrite Hs. st_run. unfold check_ctrlr_state. rewrite Ha, andb_false_r. cbn [Z.eqb negb].
  erewrite st_bind_ok.
  2: { apply st_lift_ok, batch_counts_ok. eapply Forall_impl; [exact Hall|]. by intros ? []. }
  rewrite bool_decide_eq_false_2 by (by destruct cs).
  destruct (kzalloc_plenty r Hm) as (r1&E1&(C1&C2&C3&C4&C5&C6)&Hd). rewrite (st_bind_ok _ _ _ _ _ E1). cbn [negb].
  erewrite st_bind_ok by (by apply st_lift_ok, fill_batch_ok). cbn [negb].
  unfold cache_batch. rewrite st_bind_upd. eexists. split; [reflexivity|]. cbn.
  rewrite C1, C2, C4, C5, Hs, Hd. split_and!; try done. by apply C6.
Qed.

(** ** Active batches leave the cache alone *)
Lemma same_cache_bind {A B} (c : ST rpmh A) (k : A -> ST rpmh B) :
  (forall r a r', c r = Ok (a, r') -> same_cache r r') ->
  (forall a r b r', k a r = Ok (b, r') -> same_cache r r') ->
  forall r b r', st_bind c k r = Ok (b, r') -> same_cache r r'.
Proof. intros Hc Hk r b r' (a&r1&E1&E2)%st_bind_inv. etrans; eauto. Qed.

Lemma same_cache_drv {A} (c : ST rsc_drv A) r a r' : on_drv c r = Ok (a, r') -> same_cache r r'.
Proof. unfold on_drv. destruct (c (r_drv r)) as [[x d]| |]; [|done..]. intros [= <- <-]. by split_and!. Qed.

Lemma same_cache_ret {A} (a : A) r b r' : st_ret a r = Ok (b, r') -> same_cache r r'.
Proof. by intros [= <- <-]. Qed.

Lemma same_cache_get {A} (f : rpmh -> A) r b r' : st_get f r = Ok (b, r') -> same_cache r r'.
Proof. by intros [= <- <-]. Qed.

Lemma same_cache_new q c f r a r' : new_req q c f r = Ok (a, r') -> same_cache r r'.
Proof. unfold new_req. intros [= <- <-]. by split_and!. Qed.

Lemma same_cache_free id r a r' : free_req id r = Ok (a, r') -> same_cache r r'.
Proof. unfold free_req. intros [= <- <-]. by split_and!. Qed.

Lemma same_cache_done id err r a r' : rpmh_tx_done id err r = Ok (a, r') -> same_cache r r'.
Proof. unfold rpmh_tx_done. destruct (r_reqs r !! id); [|done]. intros [= <- <-]. by split_and!. Qed.

Lemma same_cache_kzalloc r a r' : kzalloc r = Ok (a, r') -> same_cache r r'.
Proof.
  unfold kzalloc. destruct (r_mem r) as [|b m] eqn:Hm; intros [= <- <-]; [done|].
  split_and!; try done. unfold mem_plenty. rewrite Hm. by intros [_ ?]%Forall_cons.
Qed.

Hint Resolve same_cache_ret same_cache_get same_cache_drv same_cache_new same_cache_free same_cache_done : core.

Lemma same_cache_deliver l : forall r a r', deliver_loop l r = Ok (a, r') -> same_cache r r'.
Proof.
  induction l as [|[id err] l IH]; cbn [deliver_loop]; [eauto|].
  apply same_cache_bind; eauto.
Qed.

Lemma same_cache_wait w c r a r' : wait_for_completion w c r = Ok (a, r') -> same_cache r r'.
Proof.
  revert r a r'. unfold wait_for_completion, deliver. apply same_cache_bind; [eauto|intros _].
  apply same_cache_bind; [|eauto]. apply same_cache_bind; [eauto|intros l].
  apply same_cache_bind; [eauto|intros _]. apply same_cache_deliver.
Qed.

Lemma same_cache_new_batch l : forall r a r', new_batch l r = Ok (a, r') -> same_cache r r'.
Proof.
  induction l as [|m l IH]; cbn [new_batch]; [eauto|]. apply same_cache_bind; [eauto|intros m'].
  apply same_cache_bind; eauto.
Qed.

Lemma same_cache_free_batch l : forall r a r', free_batch l r = Ok (a, r') -> same_cache r r'.
Proof. induction l as [|m l IH]; cbn [free_batch]; [eauto|]. apply same_cache_bind; eauto. Qed.

Lemma same_cache_send l : forall i r a r', send_batch fuel env l i r = Ok (a, r') -> same_cache r r'.
Proof.
  induction l as [|m l IH]; intros i; cbn [send_batch]; [eauto|]. apply same_cache_bind; [eauto|intros ret].
  case_if; eauto.
Qed.

Lemma same_cache_wait_batch l i : forall r a r', wait_batch wenv l i r = Ok (a, r') -> same_cache r r'.
Proof.
  induction i as [|i IH]; cbn [wait_batch]; [eauto|]. destruct (l !! i) as [m|]; [|done].
  apply same_cache_bind; [apply same_cache_wait|intros ok]. destruct ok; [exact IH|done].
Qed.

Lemma write_batch_active cmd n r ret r' :
  rpmh_write_batch fuel env wenv RPMH_ACTIVE_ONLY_STATE cmd n r = Ok (ret, r') -> same_cache r r'.
Proof.
  revert r ret r'. unfold rpmh_write_batch. destruct cmd as [cmd|], n as [n|]; eauto.
  apply same_cache_bind; [eauto|intros sa]. destruct sa; [eauto|].
  apply same_cache_bind; [eauto|intros st]. case_if; [eauto|].
  apply same_cache_bind; [|intros counts; case_if; [eauto|]].
  { unfold st_lift. intros r a r'. destruct (batch_counts n); [|done..]. by intros [= <- <-]. }
  apply same_cache_bind; [apply same_cache_kzalloc|intros [|]; cbn [negb]; [|eauto]].
  apply same_cache_bind.
  { unfold st_lift. intros r a r'. destruct (fill_batch _ _ _); [|done..]. by intros [= <- <-]. }
  intros [ret|msgs]; [eauto|]. cbn [state_is negb].
  apply same_cache_bind; [apply same_cache_new_batch|intros ms].
  apply same_cache_bind; [apply same_cache_send|intros p].
  apply same_cache_bind; [apply same_cache_wait_batch|intros _].
  apply same_cache_bind; [apply same_cache_free_batch|eauto].
Qed.

(** ** A single vote *)

(** What a call for one command does: the vote is in the cache, or the cache is as it was and
    the call has failed. *)
Definition voted (st : rpmh_state) (c : tcs_cmd) (ret : Z) (r r' : rpmh) : Prop :=
  r_standalone r' = r_standalone r /\ cache_wf (r_cache r') /\
  (votes (r_cache r') = votes_after st [c] (votes (r_cache r)) \/ ret <> 0 /\ r_cache r' = r_cache r).

Lemma voted_same st c ret r r1 r' ret' : voted st c ret r r1 -> same_cache r1 r' -> (ret <> 0 -> ret' <> 0) ->
  voted st c ret' r r'.
Proof. intros (Hs&Hw&Hv) (S1&S2&_) Hr. unfold voted. rewrite S1, S2. split_and!; [done..|]. destruct Hv as [?|[??]]; [by left|right; auto]. Qed.

Lemma voted_from st c ret r r1 r' : same_cache r r1 -> voted st c ret r1 r' -> voted st c ret r r'.
Proof. intros (S1&S2&_) (Hs&Hw&Hv). unfold voted in *. by rewrite <-S2, <-S1. Qed.

(** A call that ends without having reached the cache. *)
Lemma voted_not st c ret r r' : cache_wf (r_cache r) -> ret <> 0 -> same_cache r r' -> voted st c ret r r'.
Proof. intros Hw Hr (S1&S2&_). unfold voted. rewrite S1, S2. auto. Qed.

Lemma write_voted st m c r ret r' : cmds m = [c] -> cache_wf (r_cache r) ->
  __rpmh_write fuel env st m r = Ok (ret, r') -> voted st c ret r r'.
Proof.
  intros Hm Hw. unfold __rpmh_write. cbv zeta. cbn [cmds req_id]. rewrite Hm. cbn [cache_cmds].
  destruct (cache_request_ok st c r Hw) as (x&r1&E&Hw1&Hx&_).
  assert (Hs : r_standalone r1 = r_standalone r).
  { clear Hx. revert E. unfold cache_rpm_request. rewrite st_bind_get. destruct (__find_req _ _) as [[i q]|].
    - rewrite st_bind_upd. destruct (update_req _ _ _ _). by intros [= _ <-].
    - unfold st_bind at 1, kzalloc. destruct (r_mem r) as [|[] l]; cbn [negb];
        [rewrite st_bind_upd; destruct (update_req _ _ _ _)..|]; by intros [= _ <-]. }
  rewrite st_bind_bind, (st_bind_ok _ _ _ _ _ E). destruct Hx as [(->&Hv&_)|(->&_&_&Hc&_)]; cbn [Z.eqb negb].
  - rewrite st_bind_ret. cbn [Z.eqb negb]. intros Hr. apply (voted_same st c 0 r r1); [by split_and!; [| |left]| |done].
    destruct (state_is st RPMH_ACTIVE_ONLY_STATE); [eauto|].
    revert Hr. apply same_cache_bind; eauto.
  - change (- ENOMEM =? 0) with false. cbn [negb]. rewrite st_bind_ret. intros [= <- <-].
    split_and!; [done..|]. by right.
Qed.

Lemma check_ctrlr_ret st r : let x := check_ctrlr_state r st in x = 0 \/ x = - EBUSY.
Proof. unfold check_ctrlr_state. case_if; auto. Qed.

Lemma one_payload : (1 =? 0) || (1 >? MAX_RPMH_PAYLOAD) = false.
Proof. pose proof max_payload_range. lia. Qed.

Lemma rpmh_write_voted irq st c r ret r' : cache_wf (r_cache r) -> r_standalone r = false ->
  rpmh_write fuel env wenv irq st (Some [c]) 1 r = Ok (ret, r') -> voted st c ret r r'.
Proof.
  intros Hw Hs. unfold rpmh_write. rewrite one_payload. cbv iota.
  rewrite st_bind_get, Hs, st_bind_get. destruct (check_ctrlr_ret st r) as [-> | ->]; cbn [Z.eqb negb].
  2: { intros [= <- <-]. by apply voted_not. }
  rewrite (st_bind_ok _ _ _ [c] r) by done. intros (m&r1&Em&E)%st_bind_inv.
  assert (S1 : same_cache r r1) by by eapply same_cache_new. injection Em as <- <-. cbn [req_id] in E.
  apply (voted_from st c ret r _ r' S1). apply st_bind_inv in E as (x&r2&E2&E).
  apply (write_voted st _ c) in E2; [|done|exact Hw]. apply (voted_same st c x _ r2); [done|..].
  - revert E. case_if; [apply same_cache_bind; eauto|]. apply same_cache_bind; [apply same_cache_wait|intros ok].
    case_if; apply same_cache_bind; eauto; [|intros _; apply same_cache_bind; eauto].
    unfold timeout_report. intros q a q'. destruct (rpmh_rsc_debug _ _) as [[]| |]; (done || by intros [= <- <-]).
  - intros Hx. replace (x =? 0) with false in E by lia. cbn [negb] in E. apply st_bind_inv in E as ([]&r3&_&E). by injection E as <- _.
Qed.

Lemma rpmh_write_async_voted st c r ret r' : cache_wf (r_cache r) -> r_standalone r = false ->
  rpmh_write_async fuel env st (Some [c]) 1 r = Ok (ret, r') -> voted st c ret r r'.
Proof.
  intros Hw Hs. unfold rpmh_write_async. rewrite st_bind_get, Hs, st_bind_get.
  destruct (check_ctrlr_ret st r) as [-> | ->]; cbn [Z.eqb negb].
  2: { intros [= <- <-]. by apply voted_not. }
  intros (ok&r1&E1&E)%st_bind_inv. apply same_cache_kzalloc in E1. destruct ok; cbn [negb] in E.
  2: { injection E as <- <-. by apply voted_not. }
  apply st_bind_inv in E as (m&r2&E2&E). apply same_cache_new in E2 as S2.
  rewrite (st_bind_ok _ _ _ (inr (Req 0 st false [c])) r2) in E by (apply st_lift_ok; unfold __fill_rpmh_msg; by rewrite one_payload).
  apply (voted_from st c ret r r2); [by etrans|]. eapply write_voted; [|..|exact E]; [done|].
  destruct E1 as (_&E1&_), S2 as (_&->&_). by rewrite E1.
Qed.

(** ** An active vote reaches the hardware *)

(** A call that leaves the hardware alone. *)
Definition keeps_drv {A} (c : ST rpmh A) : Prop := forall r a r', c r = Ok (a, r') -> r_drv r' = r_drv r.

Lemma keeps_drv_bind {A B} (c : ST rpmh A) (k : A -> ST rpmh B) : keeps_drv c -> (forall a, keeps_drv (k a)) -> keeps_drv (st_bind c k).
Proof. intros Hc Hk r b r' (a&r1&E1&E2)%st_bind_inv. by rewrite (Hk a _ _ _ E2), (Hc _ _ _ E1). Qed.

Lemma keeps_drv_ret {A} (a : A) : keeps_drv (st_ret a).
Proof. by intros r b r' [= <- <-]. Qed.

Lemma keeps_drv_get {A} (f : rpmh -> A) : keeps_drv (st_get f).
Proof. by intros r b r' [= <- <-]. Qed.

Lemma keeps_drv_new q c f : keeps_drv (new_req q c f).
Proof. by intros r b r' [= <- <-]. Qed.

Lemma keeps_drv_free id : keeps_drv (free_req id).
Proof. by intros r b r' [= <- <-]. Qed.

Lemma keeps_drv_done id err : keeps_drv (rpmh_tx_done id err).
Proof. intros r a r'. unfold rpmh_tx_done. destruct (r_reqs r !! id); [|done]. by intros [= <- <-]. Qed.

Lemma keeps_drv_lift {A} (x : res A) : keeps_drv (st_lift x).
Proof. intros r a r'. unfold st_lift. destruct x; [|done..]. by intros [= <- <-]. Qed.

Lemma keeps_drv_kzalloc : keeps_drv kzalloc.
Proof. intros r a r'. unfold kzalloc. destruct (r_mem r); by intros [= <- <-]. Qed.

Lemma keeps_drv_upd f : (forall r, r_drv (f r) = r_drv r) -> keeps_drv (st_upd f).
Proof. intros Hf r a r' [= <- <-]. apply Hf. Qed.

Lemma keeps_drv_deliver l : keeps_drv (deliver_loop l).
Proof. induction l as [|[id err] l IH]; cbn [deliver_loop]; [apply keeps_drv_ret|]. apply keeps_drv_bind; [apply keeps_drv_done|done]. Qed.

Lemma keeps_drv_cache st c : keeps_drv (cache_rpm_request st c).
Proof.
  unfold cache_rpm_request. apply keeps_drv_bind; [apply keeps_drv_get|]. intros [[i q]|].
  - apply keeps_drv_bind; [|intros ?; apply keeps_drv_ret]. apply keeps_drv_upd. intros r. by destruct (update_req _ _ _ _).
  - apply keeps_drv_bind; [apply keeps_drv_kzalloc|]. intros []; cbn [negb]; [|apply keeps_drv_ret].
    apply keeps_drv_bind; [|intros ?; apply keeps_drv_ret]. apply keeps_drv_upd. intros r. by destruct (update_req _ _ _ _).
Qed.

Lemma keeps_drv_cmds st l : keeps_drv (cache_cmds st l).
Proof.
  induction l as [|c l IH]; cbn [cache_cmds]; [apply keeps_drv_ret|]. apply keeps_drv_bind; [apply keeps_drv_cache|].
  intros ret. case_if; [apply keeps_drv_ret|done].
Qed.

(** The controller in state [d] took an active request whose only command is the vote [v] for the
    address [a]; [d'] is its state then, or after the request was waited for. *)
Definition active_sent (a v : Z) (d d' : rsc_drv) : Prop :=
  exists id wait d2, rpmh_rsc_send_data fuel env (Some (Req id RPMH_ACTIVE_ONLY_STATE wait [Cmd a v false])) d = Ok (0, d2) /\
    d' = if wait then clear_done (wenv 0%nat d2) else d2.

Lemma write_active m r ret r' : __rpmh_write fuel env RPMH_ACTIVE_ONLY_STATE m r = Ok (ret, r') -> ret = 0 ->
  rpmh_rsc_send_data fuel env (Some (Req (req_id m) RPMH_ACTIVE_ONLY_STATE (wait_for_compl m) (cmds m))) (r_drv r) = Ok (0, r_drv r').
Proof.
  intros (x&r1&E1&E)%st_bind_inv ->. pose proof (keeps_drv_cmds _ _ _ _ _ E1) as Hd.
  destruct (x =? 0) eqn:Ex; cbn [negb] in E; [|by injection E as -> _].
  change (state_is RPMH_ACTIVE_ONLY_STATE RPMH_ACTIVE_ONLY_STATE) with true in E. unfold on_drv in E. rewrite <-Hd.
  cbn [req_id cmds] in E. destruct (rpmh_rsc_send_data _ _ _ _) as [[y d2]| |]; [|done..]. by injection E as -> <-.
Qed.

Lemma rpmh_write_active irq a v r ret r' : r_standalone r = false ->
  rpmh_write fuel env wenv irq RPMH_ACTIVE_ONLY_STATE (Some [Cmd a v false]) 1 r = Ok (ret, r') -> ret = 0 ->
  active_sent a v (r_drv r) (r_drv r').
Proof.
  intros Hs E ->. unfold rpmh_write in E. rewrite one_payload in E. cbv iota in E. rewrite st_bind_get, Hs, st_bind_get in E.
  destruct (check_ctrlr_ret RPMH_ACTIVE_ONLY_STATE r) as [Ec|Ec]; rewrite Ec in E; cbn [Z.eqb negb] in E; [|done].
  rewrite (st_bind_ok _ _ _ [Cmd a v false] r) in E by done. apply st_bind_inv in E as (m&r1&Em&E).
  injection Em as <- <-. cbn [req_id] in E. apply st_bind_inv in E as (x&r2&E2&E).
  destruct (x =? 0) eqn:Ex; cbn [negb] in E.
  2: { apply st_bind_inv in E as ([]&r3&_&E). injection E as -> _. done. }
  apply write_active in E2 as Es; [|lia]. cbn [req_id cmds wait_for_compl] in Es.
  exists (r_next r), true, (r_drv r2). split; [exact Es|].
  apply st_bind_inv in E as (ok&r3&E3&E). unfold wait_for_completion in E3.
  apply st_bind_inv in E3 as ([]&r4&E4&E3). injection E4 as <-. apply st_bind_inv in E3 as ([]&r5&E5&E3). injection E3 as _ <-.
  unfold deliver in E5. apply st_bind_inv in E5 as (l&r6&E6&E5). injection E6 as <- <-.
  apply st_bind_inv in E5 as ([]&r7&E7&E5). injection E7 as <-. apply keeps_drv_deliver in E5.
  destruct ok; cbn [negb] in E; [|by apply st_bind_inv in E as ([]&r8&_&([]&r9&_&E)%st_bind_inv)].
  apply st_bind_inv in E as ([]&r8&E8&E). injection E as <-. apply keeps_drv_free in E8. by rewrite E8, E5.
Qed.

Lemma rpmh_write_async_active a v r ret r' : r_standalone r = false ->
  rpmh_write_async fuel env RPMH_ACTIVE_ONLY_STATE (Some [Cmd a v false]) 1 r = Ok (ret, r') -> ret = 0 ->
  active_sent a v (r_drv r) (r_drv r').
Proof.
  intros Hs E ->. unfold rpmh_write_async in E. rewrite st_bind_get, Hs, st_bind_get in E.
  destruct (check_ctrlr_ret RPMH_ACTIVE_ONLY_STATE r) as [Ec|Ec]; rewrite Ec in E; cbn [Z.eqb negb] in E; [|done].
  apply st_bind_inv in E as (ok&r1&E1&E). apply keeps_drv_kzalloc in E1. destruct ok; cbn [negb] in E; [|done].
  apply st_bind_inv in E as (m&r2&E2&E). apply keeps_drv_new in E2.
  rewrite (st_bind_ok _ _ _ (inr (Req 0 RPMH_ACTIVE_ONLY_STATE false [Cmd a v false])) r2) in E
    by (apply st_lift_ok; unfold __fill_rpmh_msg; by rewrite one_payload).
  apply write_active in E as Es; [|done]. cbn [req_id cmds wait_for_compl] in Es.
  exists (req_id m), false, (r_drv r'). split; [|done]. by rewrite <-E1, <-E2.
Qed.

(** Sleep and wake votes only go to the cache. *)
Lemma rpmh_write_async_passive st cmd n : st <> RPMH_ACTIVE_ONLY_STATE -> keeps_drv (rpmh_write_async fuel env st cmd n).
Proof.
  intros Hst. unfold rpmh_write_async. apply keeps_drv_bind; [apply keeps_drv_get|intros []; [apply keeps_drv_ret|]].
  apply keeps_drv_bind; [apply keeps_drv_get|intros x]. case_if; [apply keeps_drv_ret|].
  apply keeps_drv_bind; [apply keeps_drv_kzalloc|intros []; cbn [negb]; [|apply keeps_drv_ret]].
  apply keeps_drv_bind; [apply keeps_drv_new|intros m]. apply keeps_drv_bind; [apply keeps_drv_lift|intros [y|q]].
  - apply keeps_drv_bind; [apply keeps_drv_free|intros ?; apply keeps_drv_ret].
  - unfold __rpmh_write. apply keeps_drv_bind; [apply keeps_drv_cmds|intros y]. case_if; [apply keeps_drv_ret|].
    replace (state_is st RPMH_ACTIVE_ONLY_STATE) with false by (by destruct st).
    apply keeps_drv_bind; [apply keeps_drv_done|intros ?; apply keeps_drv_ret].
Qed.

(** On a well formed controller, which what happens during the delays keeps so, the request that was taken
    is in the registers of a TCS of the active group that was free, and is triggered. *)
Lemma sent_started id wait a v d d2 : rsc_wf d -> (forall k d, rsc_wf d -> rsc_wf (env k d)) -> 0 <= a < 2 ^ 32 ->
  let msg := Req id RPMH_ACTIVE_ONLY_STATE wait [Cmd a v false] in
  rpmh_rsc_send_data fuel env (Some msg) d = Ok (0, d2) ->
  exists d1 i, in_group (d_active d1) i /\ (i ∉ d_in_use d1) /\ started d1 d2 msg i.
Proof.
  intros Hw He Ha msg. assert (Hm : msg_ok msg) by (split; [done|by apply Forall_singleton]).
  assert (Hl : forall n k d, rsc_wf d -> send_loop n env k msg d = Ok (0, d2) ->
    exists d1 i, in_group (d_active d1) i /\ (i ∉ d_in_use d1) /\ started d1 d2 msg i).
  { clear d Hw. induction n as [|n IH]; intros k d Hw E; cbn [send_loop] in E; [done|].
    destruct (tcs_write_cases d msg Hw Hm eq_refl) as [[_ Et]|[(_&_&Et)|[(_&_&_&Et)|(_&_&i&d'&Hi&Hu&Et&Hs)]]];
      rewrite (st_bind_ok _ _ _ _ _ Et) in E.
    - done.
    - apply (IH (S k) (env k d)); [by apply He|exact E].
    - apply (IH (S k) (env k d)); [by apply He|exact E].
    - injection E as <-. by exists d, i. }
  unfold rpmh_rsc_send_data. case_if; [by apply Hl|done].
Qed.

(** The invalidation drops the batches and marks the cache. *)
Lemma invalidate_frame r ret r' : rpmh_invalidate fuel env r = Ok (ret, r') -> r_standalone r = false ->
  same_cache (with_cache (with_batch r [] (r_dirty r)) (r_cache r) true) r'.
Proof.
  unfold rpmh_invalidate, invalidate_batch. st_run. intros Hr Hs. rewrite Hs in Hr.
  rewrite st_bind_upd, st_bind_upd in Hr. revert Hr.
  assert (L : forall n k r ret r', inval_loop env n k r = Ok (ret, r') -> same_cache r r'); [|apply L].
  clear. induction n as [|n IH]; intros k; cbn [inval_loop]; [done|].
  apply same_cache_bind; [eauto|intros x]. case_if; [|eauto]. apply same_cache_bind; eauto.
Qed.
End batches.
