(* ===== verification/RpmhClient.v ===== *)
(** * Clients of the voting library

    A driver that votes keeps objects by address, calls the library for the controllers of its
    devices, reads the command database, and calls a framework of the kernel, whose calls are
    recorded.  Two objects may be peers, which vote for the same resource together; the class
    [Voter] is what such objects have, and [votes_inv] the invariant of a driver whose votes are
    what each pair asks for. *)
From S2P Require Import Prelude CMem RpmhRsc RpmhSlots RpmhTcs Rpmh RpmhFlush RpmhBatch.
Open Scope c_scope.

Record client (O T : Type) := Client {
  cl_objs : gmap Z O;
  cl_ctrlrs : gmap Z rpmh;
  cl_db : mem;
  cl_db_header : option Z;
  cl_calls : list T;
}.
Arguments Client {O T}.
Arguments cl_objs {O T}.
Arguments cl_ctrlrs {O T}.
Arguments cl_db {O T}.
Arguments cl_db_header {O T}.
Arguments cl_calls {O T}.

Section client.
Context {O T : Type}.
Implicit Types s : client O T.

Definition set_objs (f : gmap Z O -> gmap Z O) s : client O T :=
  Client (f (cl_objs s)) (cl_ctrlrs s) (cl_db s) (cl_db_header s) (cl_calls s).
Definition set_ctrlr (d : Z) (r : rpmh) s : client O T :=
  Client (cl_objs s) (<[d := r]> (cl_ctrlrs s)) (cl_db s) (cl_db_header s) (cl_calls s).
Definition called (c : T) : ST (client O T) unit :=
  st_upd (fun s => Client (cl_objs s) (cl_ctrlrs s) (cl_db s) (cl_db_header s) (cl_calls s ++ [c])).

(** An access to an object that is not there is a fault. *)
Definition the_obj (p : Z) : ST (client O T) O :=
  fun s => match cl_objs s !! p with Some x => Ok (x, s) | None => Fault end.
Definition upd_obj (p : Z) (f : O -> O) : ST (client O T) unit :=
  let! x := the_obj p in st_upd (set_objs (<[p := f x]>)).

(** A call of the library follows the pointer to the device. *)
Definition on_ctrlr {A} (d : option Z) (c : ST rpmh A) : ST (client O T) A :=
  fun s => match d with
           | None => Fault
           | Some d => match cl_ctrlrs s !! d with
                       | None => Fault
                       | Some r => match c r with
                                   | Ok (a, r) => Ok (a, set_ctrlr d r s)
                                   | Fault => Fault
                                   | Loop => Loop
                                   end
                       end
           end.

(** The database is only read. *)
Definition on_cmd_db {A} (c : option Z -> ST mem A) : ST (client O T) A :=
  fun s => match c (cl_db_header s) (cl_db s) with
           | Ok (a, _) => Ok (a, s)
           | Fault => Fault
           | Loop => Loop
           end.

(** The sleep and wake votes for an address in the controller of a device. *)
Definition client_votes s (d a : Z) : option (Z * Z) :=
  cl_ctrlrs s !! d ≫= (fun r => votes (r_cache r) !! a).

Definition ctrlr_ok s (d : Z) : Prop :=
  exists r, cl_ctrlrs s !! d = Some r /\ r_standalone r = false /\ cache_wf (r_cache r).

(** No sleep and no wake vote. *)
Definition unvoted s (d a : Z) : Prop := client_votes s d a = None \/ client_votes s d a = Some no_vote.

(** A change that is about one address of one controller. *)
Record vote_frame (d a : Z) s s' : Prop := {
  vf_ok : forall d', ctrlr_ok s d' -> ctrlr_ok s' d';
  vf_votes : forall d' a', (d', a') <> (d, a) -> client_votes s' d' a' = client_votes s d' a';
}.

#[export] Instance vote_frame_refl d a : Reflexive (vote_frame d a).
Proof. by constructor. Qed.
#[export] Instance vote_frame_trans d a : Transitive (vote_frame d a).
Proof. intros s1 s2 s3 [A1 A2] [B1 B2]. constructor; [auto|]. intros d' a' Hn. by rewrite B2, A2. Qed.

(** Changes of the objects alone. *)
Lemma vote_frame_objs d a f s : vote_frame d a s (set_objs f s).
Proof. by constructor. Qed.

Lemma client_votes_set d r s d' a : client_votes (set_ctrlr d r s) d' a = if decide (d = d') then votes (r_cache r) !! a else client_votes s d' a.
Proof. unfold client_votes, set_ctrlr. cbn. rewrite lookup_insert. by case_decide. Qed.

Lemma the_obj_ok p x s : cl_objs s !! p = Some x -> the_obj p s = Ok (x, s).
Proof. intros Hx. unfold the_obj. by rewrite Hx. Qed.

Lemma upd_obj_ok p z f s : cl_objs s !! p = Some z -> upd_obj p f s = Ok (tt, set_objs (<[p := f z]>) s).
Proof. intros Hz. unfold upd_obj, the_obj, st_bind. by rewrite Hz. Qed.

(** One vote, waited for or not. *)
Lemma send_vote `{TcsAbi} `{BitmapArea} fuel env wenv irq (sync : bool) dev a st v s ret s' d : dev = Some d -> ctrlr_ok s d ->
  (if sync then on_ctrlr dev (rpmh_write fuel env wenv irq st (Some [Cmd a v false]) 1)
   else on_ctrlr dev (rpmh_write_async fuel env st (Some [Cmd a v false]) 1)) s = Ok (ret, s') ->
  cl_objs s' = cl_objs s /\ vote_frame d a s s' /\
  (ret = 0 -> client_votes s' d a = Some (vote_update st v (default no_vote (client_votes s d a)))) /\
  (st = RPMH_ACTIVE_ONLY_STATE -> unvoted s d a -> unvoted s' d a).
Proof.
  intros -> (r&Hr&Hs&Hw) E.
  assert (exists r', s' = set_ctrlr d r' s /\ voted st (Cmd a v false) ret r r') as (r'&->&Hs'&Hw'&Hv).
  { destruct sync; unfold on_ctrlr in E; rewrite Hr in E; case_match; try done; case_match; simplify_eq;
      eexists; (split; [reflexivity|]); [by eapply rpmh_write_voted|by eapply rpmh_write_async_voted]. }
  split; [done|]. split; [split|].
  - intros d' (r0&Hr0&Hs0&Hw0). unfold ctrlr_ok. cbn. destruct (decide (d = d')) as [<-|Hn].
    + exists r'. rewrite lookup_insert_eq. split; [done|]. by rewrite Hs'.
    + exists r0. by rewrite lookup_insert_ne.
  - intros d' a' Hn. rewrite client_votes_set. case_decide as Hdd; [subst d'|done]. unfold client_votes. rewrite Hr. cbn.
    destruct Hv as [->|[_ ->]]; [|done]. cbn. rewrite lookup_insert_ne; [done|]. congruence.
  - split.
    + intros ->. rewrite client_votes_set, decide_True by done. destruct Hv as [->|[? _]]; [|done]. cbn. rewrite lookup_insert_eq.
      unfold client_votes. by rewrite Hr.
    + intros -> Hu. unfold unvoted in *. rewrite !client_votes_set, !decide_True by done. unfold client_votes in Hu. rewrite Hr in Hu. cbn in Hu.
      destruct Hv as [->|[_ ->]]; [|done]. right. cbn. rewrite lookup_insert_eq. by destruct Hu as [-> | ->].
Qed.

Lemma on_ctrlr_objs {A} d (c : ST rpmh A) s a s' : on_ctrlr d c s = Ok (a, s') -> cl_objs s' = cl_objs s.
Proof.
  unfold on_ctrlr. destruct d as [d|]; [|done]. destruct (cl_ctrlrs s !! d) as [r|]; [|done].
  destruct (c r) as [[x r']| |]; [|done..]. by intros [= _ <-].
Qed.

(** What the hardware of the controller gets: an active vote, and nothing for sleep and wake votes. *)
Lemma send_active `{TcsAbi} `{BitmapArea} fuel env wenv irq (sync : bool) d a v s ret s' r : cl_ctrlrs s !! d = Some r ->
  r_standalone r = false ->
  (if sync then on_ctrlr (Some d) (rpmh_write fuel env wenv irq RPMH_ACTIVE_ONLY_STATE (Some [Cmd a v false]) 1)
   else on_ctrlr (Some d) (rpmh_write_async fuel env RPMH_ACTIVE_ONLY_STATE (Some [Cmd a v false]) 1)) s = Ok (ret, s') ->
  ret = 0 -> exists r', cl_ctrlrs s' !! d = Some r' /\ active_sent fuel env wenv a v (r_drv r) (r_drv r').
Proof.
  intros Hr Hs E Hret. destruct sync; unfold on_ctrlr in E; rewrite Hr in E; case_match; try done; case_match; simplify_eq;
    eexists; (split; [apply lookup_insert_eq|]); [by eapply rpmh_write_active|by eapply rpmh_write_async_active].
Qed.

Lemma send_passive `{TcsAbi} `{BitmapArea} fuel env d st c s ret s' r : cl_ctrlrs s !! d = Some r -> st <> RPMH_ACTIVE_ONLY_STATE ->
  on_ctrlr (Some d) (rpmh_write_async fuel env st (Some [c]) 1) s = Ok (ret, s') ->
  exists r', cl_ctrlrs s' !! d = Some r' /\ r_drv r' = r_drv r.
Proof.
  intros Hr Hst E. unfold on_ctrlr in E. rewrite Hr in E. destruct (rpmh_write_async _ _ _ _ _ _) as [[x r']| |] eqn:Er; [|done..].
  injection E as _ <-. exists r'. split; [apply lookup_insert_eq|]. by eapply rpmh_write_async_passive.
Qed.

(** ** What the hardware is told *)

(** The state a flush starts from: votes to write, no batches, and no sleep or wake TCS in flight. *)
Record flush_ready (r : rpmh) : Prop := {
  fl_dirty : r_dirty r = true;
  fl_batch : r_batch_cache r = [];
  fl_u32 : Forall req_u32 (r_cache r);
  fl_rsc : rsc_wf (r_drv r);
  fl_free : forall i, in_group (d_sleep (r_drv r)) i \/ in_group (d_wake (r_drv r)) i -> i ∉ d_in_use (r_drv r);
}.

Lemma flush_vote `{TcsAbi} `{BitmapArea} ff fenv r a v w : r_standalone r = false -> cache_wf (r_cache r) -> flush_ready r ->
  votes (r_cache r) !! a = Some (v, w) -> v <> UINT_MAX -> w <> UINT_MAX -> v <> w ->
  exists ret r', rpmh_flush (S ff) fenv r = Ok (ret, r') /\
    (ret = 0 -> programmed (r_drv r') SLEEP_TCS a v /\ programmed (r_drv r') WAKE_TCS a w).
Proof.
  intros Hs Hw [F1 F2 F3 F4 F5] Hv Hsm Hwm Hn.
  destruct (flush_outcome ff fenv r Hs F1 F2 Hw F3 F4 F5) as (ret&r'&E&_&Hr). exists ret, r'. split; [done|]. intros ->.
  destruct Hr as [(_&_&_&_&Hp)|(_&Hr&_)]; [|done].
  apply elem_of_list_to_map_2, list_elem_of_fmap in Hv as (q&Eq&Hq). injection Eq as -> -> ->.
  apply (Hp q Hq). unfold is_req_valid. lia.
Qed.
End client.

(** A controller whose active group may hold other requests. *)
Lemma rsc_wf_groups d0 d : rsc_wf d0 -> d_sleep d = d_sleep d0 -> d_wake d = d_wake d0 -> d_control d = d_control d0 ->
  g_offset (d_active d) = g_offset (d_active d0) -> g_num_tcs (d_active d) = g_num_tcs (d_active d0) ->
  g_mask (d_active d) = g_mask (d_active d0) -> g_num_tcs (d_active d) <= Z.of_nat (length (g_req (d_active d))) ->
  forallb (fun o => match o with Some q => num_cmds q <=? MAX_CMDS_PER_TCS | None => true end) (g_req (d_active d)) = true -> rsc_wf d.
Proof.
  intros [A S W P1 P2 [M1 M2 M3]] Es Ew Ec Eo En Em Hl Hf. unfold in_group in *.
  constructor; unfold in_group; rewrite ?Es, ?Ew, ?Eo, ?En; try done. constructor.
  - intros t i Hi Ht. destruct t; cbn in *; unfold in_group; rewrite ?Es, ?Ew, ?Ec, ?Eo, ?En, ?Em in *;
      [by apply (M1 SLEEP_TCS)|by apply (M1 WAKE_TCS)|by apply (M1 ACTIVE_TCS)|by apply (M1 CONTROL_TCS)].
  - intros t. destruct t; cbn; rewrite ?Es, ?Ew, ?Ec; [apply (M2 SLEEP_TCS)|apply (M2 WAKE_TCS)|done|apply (M2 CONTROL_TCS)].
  - intros t q. destruct t; cbn; rewrite ?Es, ?Ew, ?Ec; [apply (M3 SLEEP_TCS)|apply (M3 WAKE_TCS)| |apply (M3 CONTROL_TCS)].
    rewrite forallb_forall in Hf. intros Hq%list_elem_of_In. specialize (Hf _ Hq). cbn in Hf. lia.
Qed.

(** ** Objects that vote *)

(** A device, a peer and an address. *)
Class Voter (O : Type) := { vo_dev : O -> option Z; vo_peer : O -> option Z; vo_addr : O -> Z }.

Definition wire {O : Type} `{Voter O} (x : O) : option Z * option Z * Z := (vo_dev x, vo_peer x, vo_addr x).

(** Every object has a device; peers have the same address, and nobody else has it. *)
Record pairs_wf {O : Type} `{Voter O} (m : gmap Z O) : Prop := {
  pw_dev : forall p x, m !! p = Some x -> is_Some (vo_dev x);
  pw_peer : forall p x q, m !! p = Some x -> vo_peer x = Some q -> q <> p /\ exists y, m !! q = Some y /\
    vo_peer y = Some p /\ vo_addr y = vo_addr x /\ vo_dev y = vo_dev x;
  pw_apart : forall p x q y, m !! p = Some x -> m !! q = Some y -> p <> q -> vo_addr y = vo_addr x ->
    vo_dev y = vo_dev x -> vo_peer x = Some q;
}.

(** An object with its peer. *)
Definition pair_of {O : Type} `{Voter O} (p : Z) (x : O) : gset Z := {[p]} ∪ match vo_peer x with Some q => {[q]} | None => ∅ end.

Lemma in_pair {O : Type} `{Voter O} p (x : O) k : k ∈ pair_of p x <-> k = p \/ vo_peer x = Some k.
Proof. unfold pair_of. destruct (vo_peer x) as [q|]; set_solver. Qed.

Lemma wire_lookup {O : Type} `{Voter O} (m m' : gmap Z O) p x' : wire <$> m' = wire <$> m -> m' !! p = Some x' ->
  exists x, m !! p = Some x /\ vo_dev x' = vo_dev x /\ vo_peer x' = vo_peer x /\ vo_addr x' = vo_addr x.
Proof.
  intros E Hx. apply (f_equal (fun m => m !! p)) in E. rewrite !lookup_fmap, Hx in E. cbn in E.
  destruct (m !! p) as [x|]; [|done]. cbn in E. exists x. unfold wire in E. split; [done|]. split_and!; congruence.
Qed.

Lemma wire_wf {O : Type} `{Voter O} (m m' : gmap Z O) : wire <$> m' = wire <$> m -> pairs_wf m -> pairs_wf m'.
Proof.
  intros E [W1 W3 W4]. constructor.
  - intros p x' Hx. destruct (wire_lookup m m' p x' E Hx) as (x&Hx0&->&_). by eapply W1.
  - intros p x' q Hx. destruct (wire_lookup m m' p x' E Hx) as (x&Hx0&Ed&->&Ea). intros Hq.
    destruct (W3 p x q Hx0 Hq) as (Hn&y&Hy&Hyp&Hya&Hyd). split; [done|].
    destruct (wire_lookup m' m q y (eq_sym E) Hy) as (y'&Hy'&Ed'&Ep'&Ea'). exists y'. split_and!; congruence.
  - intros p x' q y' Hx Hy Hn. destruct (wire_lookup m m' p x' E Hx) as (x&Hx0&Ed&->&Ea).
    destruct (wire_lookup m m' q y' E Hy) as (y&Hy0&Ed'&_&Ea'). rewrite Ea, Ea', Ed, Ed'. by apply (W4 p x q y).
Qed.

Lemma wire_insert {O : Type} `{Voter O} (m : gmap Z O) p x x' : m !! p = Some x -> wire x' = wire x -> wire <$> <[p := x']> m = wire <$> m.
Proof. intros Hx E. rewrite fmap_insert, E. apply insert_id. by rewrite lookup_fmap, Hx. Qed.

Section pairs.
Context {O T : Type} `{Voter O}.
(** What holds of every object, and of the votes of an object with its peer. *)
Context (ok : O -> Prop) (good : O -> option O -> option (Z * Z) -> Prop).
Implicit Types s : client O T.

Definition peer_obj s (x : O) : option O := vo_peer x ≫= (fun q => cl_objs s !! q).

Definition good_at s (x : O) : Prop :=
  forall d, vo_dev x = Some d -> good x (peer_obj s x) (client_votes s d (vo_addr x)).

(** [out] are the objects whose votes did not all get through. *)
Record votes_inv s (out : gset Z) : Prop := {
  vi_wf : pairs_wf (cl_objs s);
  vi_ctrlr : forall p x d, cl_objs s !! p = Some x -> vo_dev x = Some d -> ctrlr_ok s d;
  vi_ok : forall p x, cl_objs s !! p = Some x -> ok x;
  vi_out : forall p x q, cl_objs s !! p = Some x -> p ∈ out -> vo_peer x = Some q -> q ∈ out;
  vi_alone : forall p x d, cl_objs s !! p = Some x -> vo_dev x = Some d -> vo_peer x = None -> unvoted s d (vo_addr x);
  vi_good : forall p x, cl_objs s !! p = Some x -> p ∉ out -> good_at s x;
}.

(** What others do to the controllers: they vote for other addresses, and flush. *)
Definition others s s' : Prop :=
  cl_objs s' = cl_objs s /\ (forall d, ctrlr_ok s d -> ctrlr_ok s' d) /\
  forall p x d, cl_objs s !! p = Some x -> vo_dev x = Some d -> client_votes s' d (vo_addr x) = client_votes s d (vo_addr x).

Lemma others_inv s s' out : votes_inv s out -> others s s' -> votes_inv s' out.
Proof.
  intros [W C K S A G] (E&Hok&Hv). constructor; rewrite ?E; try done.
  - eauto.
  - intros p x d Hx Hd Hp. unfold unvoted. rewrite (Hv p x d Hx Hd). by eapply A.
  - intros p x Hx Ho d Hd. unfold peer_obj. rewrite E, (Hv p x d Hx Hd). by eapply G.
Qed.

(** A pair changes and nothing else does. *)
Record pair_change (p : Z) (x : O) (d : Z) s s' : Prop := {
  pc_frame : vote_frame d (vo_addr x) s s';
  pc_same : forall k, k ∉ pair_of p x -> cl_objs s' !! k = cl_objs s !! k;
  pc_wire : wire <$> cl_objs s' = wire <$> cl_objs s;
  pc_ok : forall k z, k ∈ pair_of p x -> cl_objs s' !! k = Some z -> ok z;
  pc_alone : vo_peer x = None -> unvoted s d (vo_addr x) -> unvoted s' d (vo_addr x);
}.

Section change.
Context (p : Z) (x : O) (d : Z) (s s' : client O T) (out out' : gset Z).
Context (I : votes_inv s out) (Hx : cl_objs s !! p = Some x) (Hd : vo_dev x = Some d).

(** Both objects of a pair are out, or none. *)
Lemma pair_out : (forall k, k ∈ pair_of p x -> k ∈ out) \/ (forall k, k ∈ pair_of p x -> k ∉ out).
Proof using I Hx.
  destruct (decide (p ∈ out)) as [Hs|Hs]; [left|right]; intros k Hk; rewrite in_pair in Hk.
  - destruct Hk as [->|Hk]; [done|]. by apply (vi_out _ _ I p x k).
  - intros Hks. destruct Hk as [->|Hk]; [done|]. destruct (pw_peer _ (vi_wf _ _ I) p x k Hx Hk) as (_&y&Hy&Hyp&_).
    apply Hs. by apply (vi_out _ _ I k y p).
Qed.

Context (C : pair_change p x d s s').

(** The peer of an object outside of the pair is outside. *)
Lemma outside_peer k z q : cl_objs s !! k = Some z -> k ∉ pair_of p x -> vo_peer z = Some q -> q ∉ pair_of p x.
Proof using I Hx.
  intros Hz Hk Hq. destruct (pw_peer _ (vi_wf _ _ I) k z q Hz Hq) as (Hn&y&Hy&Hyk&_).
  rewrite in_pair. intros [->|Hp].
  - rewrite Hx in Hy. injection Hy as <-. apply Hk. apply in_pair. by right.
  - destruct (pw_peer _ (vi_wf _ _ I) p x q Hx Hp) as (_&y'&Hy'&Hyp&_). apply Hk, in_pair. left. congruence.
Qed.

Lemma outside_good k z : cl_objs s !! k = Some z -> k ∉ pair_of p x -> good_at s z -> good_at s' z.
Proof using I Hx Hd C.
  intros Hz Hk Hg d' Hd'. assert (Hp : peer_obj s' z = peer_obj s z).
  { unfold peer_obj. destruct (vo_peer z) as [q|] eqn:Hq; cbn; [|done]. by rewrite (pc_same _ _ _ _ _ C q) by by eapply outside_peer. }
  assert (Hn : (d', vo_addr z) <> (d, vo_addr x)).
  { intros [= -> Ea]. apply Hk, in_pair. right. apply (pw_apart _ (vi_wf _ _ I) p x k z); try done; [|congruence].
    intros ->. apply Hk, in_pair. by left. }
  rewrite Hp, (vf_votes _ _ _ _ (pc_frame _ _ _ _ _ C) _ _ Hn). by apply Hg.
Qed.

Lemma change_alone k z' e : cl_objs s' !! k = Some z' -> vo_dev z' = Some e -> vo_peer z' = None -> unvoted s' e (vo_addr z').
Proof using I Hx Hd C.
  intros Hz He Hp. destruct (wire_lookup _ _ k z' (pc_wire _ _ _ _ _ C) Hz) as (z&Hz0&Ed&Ep&Ea).
  rewrite Ea. rewrite Ed in He. rewrite Ep in Hp. pose proof (vi_alone _ _ I k z e Hz0 He Hp) as Hu.
  destruct (decide (k = p)) as [->|Hn].
  - rewrite Hx in Hz0. injection Hz0 as <-. assert (e = d) as -> by congruence. by apply (pc_alone _ _ _ _ _ C).
  - unfold unvoted. rewrite (vf_votes _ _ _ _ (pc_frame _ _ _ _ _ C)); [done|]. intros [= -> Eq].
    pose proof (pw_apart _ (vi_wf _ _ I) k z p x Hz0 Hx Hn ltac:(congruence) ltac:(congruence)). congruence.
Qed.

Lemma change_inv : (forall k, k ∉ pair_of p x -> k ∈ out' <-> k ∈ out) ->
  (forall k, k ∈ pair_of p x -> k ∈ out') \/
  (forall k, k ∈ pair_of p x -> k ∉ out') /\ (forall k z, k ∈ pair_of p x -> cl_objs s' !! k = Some z -> good_at s' z) ->
  votes_inv s' out'.
Proof using I Hx Hd C.
  intros Ho Hi. constructor; [by eapply wire_wf; [apply (pc_wire _ _ _ _ _ C)|apply I]| | | |apply change_alone|].
  - intros k z' e Hz He. destruct (wire_lookup _ _ k z' (pc_wire _ _ _ _ _ C) Hz) as (z&Hz0&Ed&_).
    apply (vf_ok _ _ _ _ (pc_frame _ _ _ _ _ C)). apply (vi_ctrlr _ _ I k z e Hz0). congruence.
  - intros k z Hz. destruct (decide (k ∈ pair_of p x)) as [Hk|Hk]; [by apply (pc_ok _ _ _ _ _ C k)|].
    rewrite (pc_same _ _ _ _ _ C k Hk) in Hz. by apply (vi_ok _ _ I k).
  - intros k z' q Hz Hk Hq. destruct (wire_lookup _ _ k z' (pc_wire _ _ _ _ _ C) Hz) as (z&Hz0&_&Ep&_).
    rewrite Ep in Hq. destruct (decide (k ∈ pair_of p x)) as [Hkp|Hkp].
    + destruct Hi as [Hi|[Hi _]]; [|by destruct (Hi k Hkp)]. apply Hi, in_pair. rewrite in_pair in Hkp. destruct Hkp as [->|Hkp].
      * right. congruence.
      * left. destruct (pw_peer _ (vi_wf _ _ I) p x k Hx Hkp) as (_&y&Hy&Hyp&_). congruence.
    + apply Ho; [by eapply outside_peer|]. apply Ho in Hk; [|done]. by eapply (vi_out _ _ I).
  - intros k z Hz Hk. destruct (decide (k ∈ pair_of p x)) as [Hkp|Hkp].
    + destruct Hi as [Hi|[_ Hi]]; [by destruct Hk; apply Hi|by eapply Hi].
    + rewrite (pc_same _ _ _ _ _ C k Hkp) in Hz. apply (outside_good k z Hz Hkp).
      apply (vi_good _ _ I k z Hz). by rewrite <-Ho.
Qed.

(** The votes of the pair after a call that has sent them. *)
Lemma pair_good x' v : cl_objs s' !! p = Some x' -> client_votes s' d (vo_addr x) = v ->
  match vo_peer x with
  | Some q => exists y', cl_objs s' !! q = Some y' /\ good x' (Some y') v /\ good y' (Some x') v
  | None => good x' None v
  end -> forall k z, k ∈ pair_of p x -> cl_objs s' !! k = Some z -> good_at s' z.
Proof using I Hx Hd C.
  intros Hx' Hv Hg k z Hk Hz e He. destruct (wire_lookup _ _ p x' (pc_wire _ _ _ _ _ C) Hx') as (x0&Hx0&Ed&Ep&Ea).
  assert (x0 = x) as -> by congruence. rewrite in_pair in Hk. destruct Hk as [->|Hk].
  - assert (z = x') as -> by congruence. assert (e = d) as -> by congruence. rewrite Ea, Hv. unfold peer_obj. rewrite Ep.
    destruct (vo_peer x) as [q|]; cbn; [|done]. destruct Hg as (y'&->&Hg&_). done.
  - rewrite Hk in Hg. destruct Hg as (y'&Hy'&_&Hg). assert (z = y') as -> by congruence.
    destruct (wire_lookup _ _ k y' (pc_wire _ _ _ _ _ C) Hy') as (y0&Hy0&Edy&Epy&Eay).
    destruct (pw_peer _ (vi_wf _ _ I) p x k Hx Hk) as (_&y&Hy&Hyp&Hya&Hyd). assert (y0 = y) as -> by congruence.
    assert (e = d) as -> by congruence. rewrite Eay, Hya, Hv. unfold peer_obj. rewrite Epy, Hyp. cbn. by rewrite Hx'.
Qed.
End change.

(** A change of one object, or of both. *)
Lemma pair_change_one p x x' d s s' : (forall k z, cl_objs s !! k = Some z -> ok z) ->
  cl_objs s !! p = Some x -> cl_objs s' = <[p := x']> (cl_objs s) -> wire x' = wire x -> ok x' ->
  vote_frame d (vo_addr x) s s' -> (vo_peer x = None -> unvoted s d (vo_addr x) -> unvoted s' d (vo_addr x)) -> pair_change p x d s s'.
Proof.
  intros K Hx E Hw Ho F U. constructor; [done| | | |done].
  - intros k Hk. rewrite E. apply lookup_insert_ne. intros ->. apply Hk, in_pair. by left.
  - rewrite E. by apply (wire_insert _ p x).
  - intros k z _. rewrite E. destruct (decide (k = p)) as [->|Hn]; [rewrite lookup_insert_eq; congruence|].
    rewrite lookup_insert_ne by done. apply K.
Qed.

Lemma pair_change_two p x x' q y y' d s s' : (forall k z, cl_objs s !! k = Some z -> ok z) ->
  cl_objs s !! p = Some x -> vo_peer x = Some q -> q <> p -> cl_objs s !! q = Some y ->
  cl_objs s' = <[q := y']> (<[p := x']> (cl_objs s)) -> wire x' = wire x -> wire y' = wire y -> ok x' -> ok y' ->
  vote_frame d (vo_addr x) s s' -> pair_change p x d s s'.
Proof.
  clear good. intros K Hx Hq Hn Hy E Hwx Hwy Hox Hoy F. constructor; [done| | | |congruence].
  - intros k Hk. rewrite in_pair in Hk. rewrite E, !lookup_insert_ne; [done|..]; intros ->; tauto.
  - rewrite E, (wire_insert _ q y); [|by rewrite lookup_insert_ne|done]. by apply (wire_insert _ p x).
  - intros k z _. rewrite E. destruct (decide (k = q)) as [->|Hkq]; [rewrite lookup_insert_eq; congruence|].
    rewrite lookup_insert_ne by done. destruct (decide (k = p)) as [->|Hkp]; [rewrite lookup_insert_eq; congruence|].
    rewrite lookup_insert_ne by done. apply K.
Qed.

(** A change of one object that sends no vote. *)
Lemma quiet_change p x x' s out : votes_inv s out -> cl_objs s !! p = Some x -> wire x' = wire x -> ok x' ->
  (forall o v, good x o v -> good x' o v) -> (forall z v, good z (Some x) v -> good z (Some x') v) ->
  votes_inv (set_objs (<[p := x']>) s) out.
Proof.
  intros I Hx Hw Hok Hg Hg'. destruct (pw_dev _ (vi_wf _ _ I) p x Hx) as [d Hd]. set (s' := set_objs _ s).
  assert (Hx' : cl_objs s' !! p = Some x') by apply lookup_insert_eq.
  assert (C : pair_change p x d s s').
  { apply (pair_change_one p x x'); try done; apply I. }
  apply (change_inv p x d s s' out out I Hx Hd C); [done|].
  destruct (pair_out p x s out I Hx) as [Hs|Hs]; [by left|right]. split; [done|].
  assert (Hp : p ∉ out) by (apply Hs, in_pair; by left). pose proof (vi_good _ _ I p x Hx Hp d Hd) as G.
  apply (pair_good p x d s s' out I Hx Hd C x' _ Hx' eq_refl). change (client_votes s') with (client_votes s). unfold peer_obj in G.
  destruct (vo_peer x) as [q|] eqn:Hq; cbn in G; [|by apply Hg].
  destruct (pw_peer _ (vi_wf _ _ I) p x q Hx Hq) as (Hn&y&Hy&Hyp&Hya&Hyd). rewrite Hy in G. exists y.
  split; [cbn; by rewrite lookup_insert_ne|]. split; [by apply Hg|]. apply Hg'.
  assert (Hqo : q ∉ out) by (apply Hs, in_pair; by right). pose proof (vi_good _ _ I q y Hy Hqo d ltac:(congruence)) as Gq.
  unfold peer_obj in Gq. rewrite Hyp in Gq. cbn in Gq. by rewrite Hx, Hya in Gq.
Qed.
End pairs.
