(* ===== verification/RpmhPd.v ===== *)
(** * Power domains (drivers/soc/qcom/rpmhpd.c)

    A power domain has a few performance levels (corners).  What its users ask for becomes votes
    of the voting library; a domain and its active-only peer vote for the same resource. *)
From S2P Require Import Prelude CMem CmdDb RpmhRsc RpmhSlots RpmhTcs Rpmh RpmhFlush RpmhBatch RpmhClient.
Open Scope c_scope.

Definition RPMH_ARC_MAX_LEVELS : nat := 16.
Definition CMD_DB_HW_ARC : Z := 3.

(** struct rpmhpd; a pointer is the address of the domain it points to.  [pd_ops] says that the
    callbacks of the generic domain are set. *)
Record rpmhpd := Rpmhpd {
  pd_dev : option Z;
  pd_parent : option Z;
  pd_peer : option Z;
  active_only : bool;
  pd_corner : Z;
  active_corner : Z;
  pd_level : list Z;
  level_count : Z;
  pd_enabled : bool;
  pd_res_name : list Z;
  pd_addr : Z;
  pd_ops : bool;
}.

(** A domain as the driver declares it: the rest is zero. *)
Definition declared (parent peer : option Z) (ao : bool) (name : list Z) : rpmhpd :=
  Rpmhpd None parent peer ao 0 0 (replicate RPMH_ARC_MAX_LEVELS 0) 0 false name 0 false.

Definition set_pd_dev (d : Z) (p : rpmhpd) : rpmhpd :=
  Rpmhpd (Some d) (pd_parent p) (pd_peer p) (active_only p) (pd_corner p) (active_corner p) (pd_level p) (level_count p)
    (pd_enabled p) (pd_res_name p) (pd_addr p) (pd_ops p).
Definition set_pd_corner (c : Z) (p : rpmhpd) : rpmhpd :=
  Rpmhpd (pd_dev p) (pd_parent p) (pd_peer p) (active_only p) c (active_corner p) (pd_level p) (level_count p)
    (pd_enabled p) (pd_res_name p) (pd_addr p) (pd_ops p).
Definition set_active_corner (c : Z) (p : rpmhpd) : rpmhpd :=
  Rpmhpd (pd_dev p) (pd_parent p) (pd_peer p) (active_only p) (pd_corner p) c (pd_level p) (level_count p)
    (pd_enabled p) (pd_res_name p) (pd_addr p) (pd_ops p).
Definition set_levels (l : list Z) (n : Z) (p : rpmhpd) : rpmhpd :=
  Rpmhpd (pd_dev p) (pd_parent p) (pd_peer p) (active_only p) (pd_corner p) (active_corner p) l n
    (pd_enabled p) (pd_res_name p) (pd_addr p) (pd_ops p).
Definition set_pd_enabled (b : bool) (p : rpmhpd) : rpmhpd :=
  Rpmhpd (pd_dev p) (pd_parent p) (pd_peer p) (active_only p) (pd_corner p) (active_corner p) (pd_level p) (level_count p)
    b (pd_res_name p) (pd_addr p) (pd_ops p).
Definition set_pd_addr (a : Z) (p : rpmhpd) : rpmhpd :=
  Rpmhpd (pd_dev p) (pd_parent p) (pd_peer p) (active_only p) (pd_corner p) (active_corner p) (pd_level p) (level_count p)
    (pd_enabled p) (pd_res_name p) a (pd_ops p).
Definition set_pd_ops (p : rpmhpd) : rpmhpd :=
  Rpmhpd (pd_dev p) (pd_parent p) (pd_peer p) (active_only p) (pd_corner p) (active_corner p) (pd_level p) (level_count p)
    (pd_enabled p) (pd_res_name p) (pd_addr p) true.

(** What the driver calls in the framework of the generic domains. *)
Inductive genpd_call :=
| GenpdInit (p : Z)
| GenpdSubdomain (parent p : Z)
| GenpdProvider (domains : list (option Z)).

(** The domains are the objects of the client. *)
Definition domains : Type := client rpmhpd genpd_call.

(** ** Votes *)
Definition to_active_sleep (pd : rpmhpd) (corner : Z) : Z * Z :=
  (corner, if active_only pd then 0 else corner).

(** [for (i = 0; i < pd->level_count; i++) if (level <= pd->level[i]) break;] with the [n] next
    entries; reading past the array is a fault. *)
Fixpoint find_corner (n : nat) (i : Z) (levels : list Z) (level : Z) : res Z :=
  match n with
  | O => Ok i
  | S n => match levels with
           | [] => Fault
           | l :: levels => if level <=? l then Ok i else find_corner n (i + 1) levels level
           end
  end.

Section operations.
Context `{TcsAbi} `{BitmapArea}.
(** What the hardware and the rest of the system do while a vote of a state is sent, or waited for. *)
Context (fuel : nat) (env wenv : rpmh_state -> nat -> rsc_drv -> rsc_drv) (irq_data : bool).

Definition rpmhpd_send_corner (pd : rpmhpd) (st : rpmh_state) (corner : Z) (sync : bool) : ST domains Z :=
  let cmd := Cmd (pd_addr pd) corner false in
  if sync then on_ctrlr (pd_dev pd) (rpmh_write fuel (env st) (wenv st) irq_data st (Some [cmd]) 1)
  else on_ctrlr (pd_dev pd) (rpmh_write_async fuel (env st) st (Some [cmd]) 1).

(** The peer of a domain with its object. *)
Definition the_peer (pd : rpmhpd) : ST domains (option (Z * rpmhpd)) :=
  match pd_peer pd with
  | None => st_ret None
  | Some q => let! x := the_obj q in st_ret (Some (q, x))
  end.

Definition rpmhpd_aggregate_corner (p : Z) (corner : Z) : ST domains Z :=
  let! pd := the_obj p in
  let! peer := the_peer pd in
  let '(this_active, this_sleep) := to_active_sleep pd corner in
  let '(peer_active, peer_sleep) :=
    match peer with
    | Some (_, x) => if pd_enabled x then to_active_sleep x (pd_corner x) else (0, 0)
    | None => (0, 0)
    end in
  let active := Z.max this_active peer_active in
  let! ret := rpmhpd_send_corner pd RPMH_ACTIVE_ONLY_STATE active (active >? active_corner pd) in
  if negb (ret =? 0) then st_ret ret else
  upd_obj p (set_active_corner active) ;;;
  match peer with
  | None => st_ret ret
  | Some (q, _) =>
    upd_obj q (set_active_corner active) ;;;
    let! ret := rpmhpd_send_corner pd RPMH_WAKE_ONLY_STATE active false in
    if negb (ret =? 0) then st_ret ret else
    rpmhpd_send_corner pd RPMH_SLEEP_STATE (Z.max this_sleep peer_sleep) false
  end.

Definition rpmhpd_power_on (p : Z) : ST domains Z :=
  let! pd := the_obj p in
  let! ret := if negb (pd_corner pd =? 0) then rpmhpd_aggregate_corner p (pd_corner pd) else st_ret 0 in
  (if ret =? 0 then upd_obj p (set_pd_enabled true) else st_ret tt) ;;;
  st_ret ret.

Definition rpmhpd_power_off (p : Z) : ST domains Z :=
  let! pd := the_obj p in
  let! ret := rpmhpd_aggregate_corner p (nth 0 (pd_level pd) 0) in
  (if ret =? 0 then upd_obj p (set_pd_enabled false) else st_ret tt) ;;;
  st_ret ret.

(** The index is an [int], and becomes unsigned as a corner. *)
Definition rpmhpd_set_performance_state (p : Z) (level : Z) : ST domains Z :=
  let! pd := the_obj p in
  let! i := st_lift (find_corner (Z.to_nat (level_count pd)) 0 (pd_level pd) level) in
  let i := if i =? level_count pd then i - 1 else i in
  let! ret := if pd_enabled pd then rpmhpd_aggregate_corner p (u32 i) else st_ret 0 in
  if negb (ret =? 0) then st_ret ret else
  upd_obj p (set_pd_corner (u32 i)) ;;;
  st_ret ret.
End operations.

(** ** Set up *)

(** The loop over the auxiliary data from index [i] on, [n] entries are left. *)
Fixpoint level_loop (n : nat) (i : nat) (p buf : Z) : ST domains unit :=
  match n with
  | O => st_ret tt
  | S n =>
    let! v := on_cmd_db (fun _ => load16 (buf + 2 * Z.of_nat i)) in
    upd_obj p (fun x => set_levels (<[i := v]> (pd_level x)) (level_count x) x) ;;;
    if (0 <? Z.of_nat i) && (v =? 0) then upd_obj p (fun x => set_levels (pd_level x) (Z.of_nat i) x)
    else level_loop n (S i) p buf
  end.

Definition rpmhpd_update_level_mapping (p : Z) : ST domains Z :=
  let! pd := the_obj p in
  let! buf := on_cmd_db (fun db => cmd_db_read_aux_data db (pd_res_name pd)) in
  match buf with
  | inl err => st_ret err
  | inr (buf, len) =>
    let n := Z.shiftr len 1 in
    upd_obj p (fun x => set_levels (pd_level x) n x) ;;;
    if n >? Z.of_nat RPMH_ARC_MAX_LEVELS then st_ret (- EINVAL) else
    level_loop (Z.to_nat n) 0 p buf ;;;
    st_ret 0
  end.

(** A round of the first loop of the probe. *)
Definition rpmhpd_probe_one (dev p : Z) : ST domains Z :=
  let! pd := the_obj p in
  upd_obj p (set_pd_dev dev) ;;;
  let! addr := on_cmd_db (fun db => cmd_db_read_addr db (pd_res_name pd)) in
  upd_obj p (set_pd_addr addr) ;;;
  if addr =? 0 then st_ret (- ENODEV) else
  let! ret := on_cmd_db (fun db => cmd_db_read_slave_id db (pd_res_name pd)) in
  if negb (ret =? CMD_DB_HW_ARC) then st_ret (- EINVAL) else
  let! ret := rpmhpd_update_level_mapping p in
  if negb (ret =? 0) then st_ret ret else
  upd_obj p set_pd_ops ;;;
  called (GenpdInit p) ;;;
  st_ret 0.

(** Empty entries of the table are skipped. *)
Fixpoint probe_loop (dev : Z) (l : list (option Z)) : ST domains Z :=
  match l with
  | [] => st_ret 0
  | None :: l => probe_loop dev l
  | Some p :: l =>
    let! ret := rpmhpd_probe_one dev p in
    if negb (ret =? 0) then st_ret ret else probe_loop dev l
  end.

Fixpoint subdomain_loop (l : list (option Z)) : ST domains unit :=
  match l with
  | [] => st_ret tt
  | None :: l => subdomain_loop l
  | Some p :: l =>
    let! pd := the_obj p in
    match pd_parent pd with
    | None => st_ret tt
    | Some q => called (GenpdSubdomain q p)
    end ;;;
    subdomain_loop l
  end.

(** [desc] is the match data with the table, [mem1] and [mem2] say whether there is memory, and
    [provider] is the result of the registration of the provider. *)
Definition rpmhpd_probe (dev : Z) (desc : option (list (option Z))) (mem1 mem2 : bool) (provider : Z) : ST domains Z :=
  match desc with
  | None => st_ret (- EINVAL)
  | Some l =>
    if negb mem1 then st_ret (- ENOMEM) else
    if negb mem2 then st_ret (- ENOMEM) else
    let! ret := probe_loop dev l in
    if negb (ret =? 0) then st_ret ret else
    subdomain_loop l ;;;
    called (GenpdProvider l) ;;;
    st_ret provider
  end.

(** ** What the domains ask for *)

(** What a domain asks for while the system is awake, and while it sleeps. *)
Definition want (x : rpmhpd) : Z := if pd_enabled x then pd_corner x else 0.
Definition sleep_want (x : rpmhpd) : Z := if active_only x then 0 else want x.

Definition wake_corner (x : rpmhpd) (peer : option rpmhpd) : Z := Z.max (want x) (match peer with Some y => want y | None => 0 end).
Definition sleep_corner (x : rpmhpd) (peer : option rpmhpd) : Z :=
  Z.max (sleep_want x) (match peer with Some y => sleep_want y | None => 0 end).

#[export] Instance pd_voter : Voter rpmhpd := {| vo_dev := pd_dev; vo_peer := pd_peer; vo_addr := pd_addr |}.

(** The levels as the probe leaves them, the first of which is zero, and a corner. *)
Record pd_ok (x : rpmhpd) : Prop := {
  po_levels : length (pd_level x) = RPMH_ARC_MAX_LEVELS;
  po_count : 0 < level_count x <= Z.of_nat RPMH_ARC_MAX_LEVELS;
  po_first : nth 0 (pd_level x) 0 = 0;
  po_corner : 0 <= pd_corner x < Z.of_nat RPMH_ARC_MAX_LEVELS;
}.

(** The active vote, and those for sleep and wake if the domain has a peer, are what the two ask for. *)
Definition pd_good (x : rpmhpd) (peer : option rpmhpd) (v : option (Z * Z)) : Prop :=
  active_corner x = wake_corner x peer /\
  (is_Some peer -> v = Some (sleep_corner x peer, wake_corner x peer) \/ v = None /\ wake_corner x peer = 0).

Abbreviation pd_inv := (votes_inv pd_ok pd_good).

Section votes.
Context `{TcsAbi} `{BitmapArea}.
Context (fuel : nat) (env wenv : rpmh_state -> nat -> rsc_drv -> rsc_drv) (irq_data : bool).

Lemma send_spec pd st c sync s ret s' d : pd_dev pd = Some d -> ctrlr_ok s d ->
  rpmhpd_send_corner fuel env wenv irq_data pd st c sync s = Ok (ret, s') ->
  cl_objs s' = cl_objs s /\ vote_frame d (pd_addr pd) s s' /\
  (ret = 0 -> client_votes s' d (pd_addr pd) = Some (vote_update st c (default no_vote (client_votes s d (pd_addr pd))))) /\
  (st = RPMH_ACTIVE_ONLY_STATE -> unvoted s d (pd_addr pd) -> unvoted s' d (pd_addr pd)).
Proof. intros Hd Hc E. exact (send_vote fuel (env st) (wenv st) irq_data sync _ _ _ _ _ _ _ d Hd Hc E). Qed.

(** The corners a domain and its peer have sent. *)
Definition activate (A p : Z) (x : rpmhpd) (peer : option (Z * rpmhpd)) (m : gmap Z rpmhpd) : gmap Z rpmhpd :=
  let m := <[p := set_active_corner A x]> m in
  match peer with None => m | Some (q, y) => <[q := set_active_corner A y]> m end.

Lemma aggregate_spec p c x peer s ret s' d : cl_objs s !! p = Some x -> pd_dev x = Some d -> ctrlr_ok s d -> 0 <= c ->
  match peer with
  | Some (q, y) => pd_peer x = Some q /\ q <> p /\ cl_objs s !! q = Some y /\ 0 <= pd_corner y
  | None => pd_peer x = None
  end ->
  rpmhpd_aggregate_corner fuel env wenv irq_data p c s = Ok (ret, s') ->
  let W := Z.max c (match peer with Some (_, y) => want y | None => 0 end) in
  let S := Z.max (if active_only x then 0 else c) (match peer with Some (_, y) => sleep_want y | None => 0 end) in
  vote_frame d (pd_addr x) s s' /\ (cl_objs s' = cl_objs s \/ cl_objs s' = activate W p x peer (cl_objs s)) /\
  (ret = 0 -> cl_objs s' = activate W p x peer (cl_objs s) /\
     (is_Some peer -> client_votes s' d (pd_addr x) = Some (S, W))) /\
  (peer = None -> unvoted s d (pd_addr x) -> unvoted s' d (pd_addr x)).
Proof.
  intros Hx Hd Hc Hc0 Hp E W S. unfold rpmhpd_aggregate_corner in E.
  rewrite (st_bind_ok _ _ _ x s) in E by (unfold the_obj; by rewrite Hx).
  rewrite (st_bind_ok _ _ _ peer s) in E.
  2: { unfold the_peer. destruct peer as [[q y]|]; [|by rewrite Hp]. destruct Hp as (->&_&Hq&_). unfold st_bind, the_obj. by rewrite Hq. }
  unfold to_active_sleep in E.
  assert (EW : (match peer with Some (_, y) => if pd_enabled y then (pd_corner y, if active_only y then 0 else pd_corner y) else (0, 0)
               | None => (0, 0) end) = (match peer with Some (_, y) => want y | None => 0 end, match peer with Some (_, y) => sleep_want y | None => 0 end)).
  { destruct peer as [[q y]|]; [|done]. unfold sleep_want, want. by destruct (pd_enabled y), (active_only y). }
  rewrite EW in E. fold W in E. fold S in E. clear EW.
  apply st_bind_inv in E as (r1&s1&E1&E). apply (send_spec _ _ _ _ _ _ _ d Hd Hc) in E1 as (P1&F1&V1&U1). specialize (U1 eq_refl).
  destruct (r1 =? 0) eqn:Er1; cbn [negb] in E; [|injection E as <- <-; split; [done|]; split; [by left|split; [lia|done]]].
  assert (r1 = 0) as -> by lia. specialize (V1 eq_refl). clear Er1. unfold upd_obj, the_obj in E. rewrite st_bind_bind in E.
  rewrite (st_bind_ok _ _ _ x s1) in E by by rewrite P1, Hx. rewrite st_bind_upd in E.
  destruct peer as [[q y]|].
  2: { injection E as <- <-. cbn. rewrite P1. split; [etrans; [exact F1|apply vote_frame_objs]|]. split; [auto|]. split; [|done].
    split; [done|]. by intros [? ?]. }
  destruct Hp as (_&Hq&Hy&_). rewrite st_bind_bind in E.
  rewrite (st_bind_ok _ _ _ y (set_objs (<[p:=set_active_corner W x]>) s1)) in E by (cbn; by rewrite P1, lookup_insert_ne, Hy by done).
  rewrite st_bind_upd in E. set (s2 := set_objs _ (set_objs _ s1)) in E.
  assert (P2 : cl_objs s2 = activate W p x (Some (q, y)) (cl_objs s)) by (cbn; by rewrite P1).
  assert (F2 : vote_frame d (pd_addr x) s s2) by (etrans; [exact F1|etrans; apply vote_frame_objs]).
  assert (V2 : client_votes s2 d (pd_addr x) = client_votes s1 d (pd_addr x)) by done. clearbody s2.
  apply st_bind_inv in E as (r3&s3&E3&E). apply (send_spec _ _ _ _ _ _ _ d Hd (vf_ok _ _ _ _ F2 _ Hc)) in E3 as (P3&F3&V3&_).
  assert (F3' : vote_frame d (pd_addr x) s s3) by by etrans.
  destruct (r3 =? 0) eqn:Er3; cbn [negb] in E; [|injection E as <- <-; split; [done|]; split; [right; by rewrite P3|split; [lia|done]]].
  apply (send_spec _ _ _ _ _ _ _ d Hd (vf_ok _ _ _ _ F3' _ Hc)) in E as (P4&F4&V4&_).
  split; [by etrans|]. split; [right; by rewrite P4, P3|]. split; [|done]. intros ->. split; [by rewrite P4, P3|].
  intros _. rewrite V4, V3 by lia. cbn [default vote_update]. done.
Qed.

(** A call that succeeds has handed the hardware the active vote, which is the corner the domain keeps. *)
Lemma aggregate_active p c x s s' d r : cl_objs s !! p = Some x -> pd_dev x = Some d -> pd_peer x <> Some p ->
  cl_ctrlrs s !! d = Some r -> r_standalone r = false ->
  rpmhpd_aggregate_corner fuel env wenv irq_data p c s = Ok (0, s') ->
  exists A r', cl_objs s' !! p = Some (set_active_corner A x) /\ cl_ctrlrs s' !! d = Some r' /\
    active_sent fuel (env RPMH_ACTIVE_ONLY_STATE) (wenv RPMH_ACTIVE_ONLY_STATE) (pd_addr x) A (r_drv r) (r_drv r').
Proof.
  intros Hx Hd Hpp Hr Hsa E. unfold rpmhpd_aggregate_corner in E.
  rewrite (st_bind_ok _ _ _ _ _ (the_obj_ok p x s Hx)) in E. apply st_bind_inv in E as (peer&s0&E0&E).
  assert (s0 = s /\ match peer with Some (q, y) => pd_peer x = Some q /\ cl_objs s !! q = Some y | None => True end) as [-> Hp].
  { unfold the_peer in E0. destruct (pd_peer x) as [q|]; [|by injection E0 as <- <-].
    apply st_bind_inv in E0 as (y&s1&Ey&E0). unfold the_obj in Ey. destruct (cl_objs s !! q) as [y'|] eqn:Hq; [|done].
    injection Ey as <- <-. by injection E0 as <- <-. }
  clear E0. destruct (to_active_sleep x c) as [ta ts]. destruct (match peer with Some _ => _ | None => _ end) as [pa ps]. set (A := Z.max ta pa) in *.
  apply st_bind_inv in E as (r1&s1&E1&E). destruct (r1 =? 0) eqn:Er1; cbn [negb] in E; [|injection E as ->; lia].
  unfold rpmhpd_send_corner in E1. rewrite Hd in E1.
  assert (P1 : cl_objs s1 = cl_objs s).
  { destruct (A >? active_corner x); by apply on_ctrlr_objs in E1. }
  apply (send_active _ _ _ irq_data _ d (pd_addr x) A s r1 s1 r Hr Hsa) in E1 as (r2&Hr2&Hsent); [|lia].
  rewrite (st_bind_ok _ _ _ _ _ (upd_obj_ok p x _ s1 ltac:(by rewrite P1))) in E.
  destruct peer as [[q y]|].
  2: { injection E as _ <-. exists A, r2. split; [apply lookup_insert_eq|]. by split. }
  destruct Hp as [Hq Hy]. assert (Hqp : p <> q) by congruence. set (s2 := set_objs _ s1) in E.
  rewrite (st_bind_ok _ _ _ _ _ (upd_obj_ok q y _ s2 ltac:(cbn; by rewrite lookup_insert_ne, P1))) in E.
  set (s3 := set_objs _ s2) in E. unfold rpmhpd_send_corner in E. rewrite Hd in E.
  assert (H3 : cl_objs s3 !! p = Some (set_active_corner A x)) by (cbn; by rewrite lookup_insert_ne, lookup_insert_eq).
  assert (Hr3 : cl_ctrlrs s3 !! d = Some r2) by done. clearbody s3. apply st_bind_inv in E as (r4&s4&E4&E).
  assert (P4 : cl_objs s4 = cl_objs s3) by by apply on_ctrlr_objs in E4.
  apply (send_passive _ _ _ _ _ _ _ _ _ Hr3) in E4 as (r5&Hr5&D5); [|done].
  destruct (r4 =? 0) eqn:Er4; cbn [negb] in E; [|injection E as ->; lia].
  assert (P5 : cl_objs s' = cl_objs s4) by by apply on_ctrlr_objs in E.
  apply (send_passive _ _ _ _ _ _ _ _ _ Hr5) in E as (r6&Hr6&D6); [|done].
  exists A, r6. rewrite P5, P4, D6, D5. by split_and!.
Qed.
End votes.

(** ** The choice of a corner *)
Lemma find_corner_spec level : forall n i levels, (n <= length levels)%nat -> exists k,
  find_corner n i levels level = Ok (i + Z.of_nat k) /\ (k <= n)%nat /\
  (forall j l, (j < k)%nat -> levels !! j = Some l -> l < level) /\
  (forall l, (k < n)%nat -> levels !! k = Some l -> level <= l).
Proof.
  induction n as [|n IH]; intros i levels Hn; cbn [find_corner].
  - exists 0%nat. split; [f_equal; lia|]. split; [lia|]. split; intros; lia.
  - destruct levels as [|l levels]; cbn in Hn; [lia|]. destruct (level <=? l) eqn:El.
    + exists 0%nat. split; [f_equal; lia|]. split; [lia|]. split; [intros; lia|]. intros l' _ [= <-]. lia.
    + destruct (IH (i + 1) levels) as (k&E&Hk&Hlt&Hge); [lia|]. exists (S k). rewrite E. split; [f_equal; lia|]. split; [lia|]. split.
      * intros [|j] l' Hj; cbn; [intros [= <-]; lia|]. apply Hlt. lia.
      * intros l' Hl. cbn. apply Hge. lia.
Qed.

(** The corner for a level: the first one that is enough, or the last one. *)
Definition corner_for (x : rpmhpd) (level i : Z) : Prop :=
  0 <= i < level_count x /\
  (forall j l, Z.of_nat j < i -> pd_level x !! j = Some l -> l < level) /\
  ((forall l, pd_level x !! Z.to_nat i = Some l -> level <= l) \/ i = level_count x - 1).

(** ** Sequences of calls *)
Inductive pd_op := POn | POff | PSet (level : Z).

Section system.
Context `{TcsAbi} `{BitmapArea}.
Context (fuel : nat) (irq_data : bool).

Definition do_pd_op (env wenv : rpmh_state -> nat -> rsc_drv -> rsc_drv) (o : pd_op) (p : Z) : ST domains Z :=
  match o with
  | POn => rpmhpd_power_on fuel env wenv irq_data p
  | POff => rpmhpd_power_off fuel env wenv irq_data p
  | PSet level => rpmhpd_set_performance_state fuel env wenv irq_data p level
  end.

(** Whether the call sends votes. *)
Definition sends (o : pd_op) (x : rpmhpd) : bool :=
  match o with POn => negb (pd_corner x =? 0) | POff => true | PSet _ => pd_enabled x end.

(** [stale] are the domains for which the last votes did not all get through: a call that fails
    adds its pair, and the next one that sends votes and succeeds takes it out. *)
Inductive pd_step : domains * gset Z -> domains * gset Z -> Prop :=
| step_call env wenv o p x ret s s' stale : cl_objs s !! p = Some x -> do_pd_op env wenv o p s = Ok (ret, s') ->
    pd_step (s, stale) (s', if ret =? 0 then if sends o x then stale ∖ pair_of p x else stale else stale ∪ pair_of p x)
| step_others s s' stale : others s s' -> pd_step (s, stale) (s', stale).

(** Nothing was asked for yet. *)
Definition pds_start (s : domains) : Prop :=
  pairs_wf (cl_objs s) /\ (forall p x d, cl_objs s !! p = Some x -> pd_dev x = Some d -> ctrlr_ok s d) /\
  forall p x, cl_objs s !! p = Some x -> pd_ok x /\ pd_enabled x = false /\ pd_corner x = 0 /\ active_corner x = 0 /\
    forall d, pd_dev x = Some d -> client_votes s d (pd_addr x) = None.

Lemma pd_start_inv s : pds_start s -> pd_inv s ∅.
Proof.
  intros (W&C&Hs). constructor; [done|done| | | |].
  - intros p x Hx. by apply (Hs p x Hx).
  - intros p x q _ Hp. by apply elem_of_empty in Hp.
  - intros p x d Hx Hd _. left. by apply (Hs p x Hx).
  - intros p x Hx _ d Hd. destruct (Hs p x Hx) as (_&En&Ec&Ea&Hv). cbn [vo_addr pd_voter]. rewrite (Hv d Hd).
    assert (Hwk : wake_corner x (peer_obj s x) = 0).
    { unfold wake_corner, peer_obj, want. rewrite En. destruct (vo_peer x) as [q|]; cbn; [|done].
      destruct (cl_objs s !! q) as [y|] eqn:Hy; [|done]. destruct (Hs q y Hy) as (_&->&_). done. }
    split; [congruence|]. auto.
Qed.

(** ** The calls *)
Section call.
Context (p : Z) (x : rpmhpd) (d : Z) (s : domains) (stale : gset Z).
Context (I : pd_inv s stale) (Hx : cl_objs s !! p = Some x) (Hd : pd_dev x = Some d).

(** The peer as the calls find it. *)
Definition is_peer (peer : option (Z * rpmhpd)) : Prop :=
  match peer with
  | Some (q, y) => pd_peer x = Some q /\ q <> p /\ cl_objs s !! q = Some y /\ 0 <= pd_corner y
  | None => pd_peer x = None
  end.

Lemma peer_ex : exists peer, is_peer peer.
Proof using I Hx.
  destruct (pd_peer x) as [q|] eqn:Hq; [|by exists None].
  destruct (pw_peer _ (vi_wf _ _ _ _ I) p x q Hx Hq) as (Hn&y&Hy&_). exists (Some (q, y)). cbn.
  split_and!; try done. apply (vi_ok _ _ _ _ I q y Hy).
Qed.

Lemma activate_lookup W peer k : is_peer peer -> activate W p x peer (cl_objs s) !! k =
  if decide (k ∈ pair_of p x) then set_active_corner W <$> cl_objs s !! k else cl_objs s !! k.
Proof using Hx.
  intros Hp. unfold activate. destruct peer as [[q y]|]; cbn in Hp.
  - destruct Hp as (Hq&Hn&Hy&_). destruct (decide (k = q)) as [->|Hkq].
    + rewrite lookup_insert_eq, decide_True by (apply in_pair; cbn; auto). by rewrite Hy.
    + rewrite lookup_insert_ne by done. destruct (decide (k = p)) as [->|Hkp].
      * rewrite lookup_insert_eq, decide_True by (apply in_pair; cbn; auto). by rewrite Hx.
      * rewrite lookup_insert_ne, decide_False by (try (rewrite in_pair; cbn [vo_peer pd_voter]); intuition congruence). done.
  - destruct (decide (k = p)) as [->|Hkp].
    + rewrite lookup_insert_eq, decide_True by (apply in_pair; cbn; auto). by rewrite Hx.
    + rewrite lookup_insert_ne, decide_False by (try (rewrite in_pair; cbn [vo_peer pd_voter]); intuition congruence). done.
Qed.

Lemma activate_wire W peer : is_peer peer -> wire <$> activate W p x peer (cl_objs s) = wire <$> cl_objs s.
Proof using Hx.
  intros Hp. apply map_eq. intros k. rewrite !lookup_fmap, (activate_lookup W peer k Hp). case_decide; [|done].
  by destruct (cl_objs s !! k).
Qed.

(** A change of the domain itself after the votes were sent, or without sending any. *)
Definition own_change (f : rpmhpd -> rpmhpd) : Prop := forall z,
  wire (f z) = wire z /\ active_corner (f z) = active_corner z /\ active_only (f z) = active_only z /\ (pd_ok z -> pd_ok (f z)).

Lemma pair_change_of s' m f : vote_frame d (pd_addr x) s s' -> (pd_peer x = None -> unvoted s d (pd_addr x) -> unvoted s' d (pd_addr x)) ->
  m = cl_objs s \/ (exists W peer, is_peer peer /\ m = activate W p x peer (cl_objs s)) -> own_change f ->
  (exists z, m !! p = Some z /\ cl_objs s' = <[p := f z]> m) -> pair_change pd_ok p x d s s'.
Proof using I Hx.
  intros F U Hm O (z&Hz&E).
  assert (K : wire <$> m = wire <$> cl_objs s /\ (forall k, k ∉ pair_of p x -> m !! k = cl_objs s !! k) /\
    forall k y, m !! k = Some y -> pd_ok y).
  { destruct Hm as [->|(W&peer&Hp&->)]; [split; [done|]; split; [done|]; apply I|]. split; [by apply activate_wire|]. split.
    - intros k Hk. rewrite (activate_lookup W peer k Hp). by rewrite decide_False.
    - intros k y. rewrite (activate_lookup W peer k Hp). case_decide; [|by apply (vi_ok _ _ _ _ I)].
      destruct (cl_objs s !! k) as [y'|] eqn:Hy; [|done]. cbn. intros [= <-]. by destruct (vi_ok _ _ _ _ I k y' Hy). }
  destruct K as (K1&K2&K3). destruct (O z) as (O1&_&_&O4). constructor; [done| | | |done].
  - intros k Hk. rewrite E, lookup_insert_ne, K2; [done|done|]. intros ->. apply Hk, in_pair. by left.
  - by rewrite E, (wire_insert m p z).
  - intros k y _. rewrite E. destruct (decide (k = p)) as [->|Hn].
    + rewrite lookup_insert_eq. intros [= <-]. by apply O4, (K3 p).
    + rewrite lookup_insert_ne by done. apply K3.
Qed.

Lemma aggregate_inv env wenv c f ret s1 : 0 <= c -> own_change f -> (forall W, want (f (set_active_corner W x)) = c) ->
  rpmhpd_aggregate_corner fuel env wenv irq_data p c s = Ok (ret, s1) ->
  (ret <> 0 -> pd_inv s1 (stale ∪ pair_of p x)) /\
  (ret = 0 -> exists z, cl_objs s1 !! p = Some z /\ pd_inv (set_objs (<[p := f z]>) s1) (stale ∖ pair_of p x)).
Proof using H H0 I Hx Hd.
  intros Hc O Ew E. destruct peer_ex as [peer Hp]. pose proof (vi_ctrlr _ _ _ _ I p x d Hx Hd) as Hok.
  destruct (aggregate_spec fuel env wenv irq_data p c x peer s ret s1 d Hx Hd Hok Hc Hp E) as (F&Hm&Hs&U). clear E.
  set (W := Z.max c _) in *. assert (U' : pd_peer x = None -> unvoted s d (pd_addr x) -> unvoted s1 d (pd_addr x)).
  { intros Hn. apply U. destruct peer as [[q y]|]; [|done]. destruct Hp. congruence. }
  assert (Hm' : cl_objs s1 = cl_objs s \/ exists W peer, is_peer peer /\ cl_objs s1 = activate W p x peer (cl_objs s)).
  { destruct Hm as [Hm|Hm]; [by left|right; eauto]. }
  assert (Hp0 : p ∈ pair_of p x) by (apply in_pair; by left). split.
  - intros Hr. assert (exists z, cl_objs s1 !! p = Some z) as [z Hz].
    { destruct Hm as [->|Hm]; [by eexists|]. rewrite Hm, (activate_lookup W peer p Hp), Hx, decide_True by done. by eexists. }
    apply (change_inv pd_ok pd_good p x d s s1 stale _ I Hx Hd); [|set_solver|left; set_solver].
    apply (pair_change_of s1 (cl_objs s1) id F U' Hm'); [by intros ?|]. exists z. split; [done|]. symmetry. by apply insert_id.
  - intros Hr. destruct (Hs Hr) as [E V]. exists (set_active_corner W x).
    assert (Hz : cl_objs s1 !! p = Some (set_active_corner W x)) by by rewrite E, (activate_lookup W peer p Hp), Hx, decide_True.
    split; [done|]. destruct (O (set_active_corner W x)) as (O1&O2&O3&_). set (x' := f (set_active_corner W x)) in *.
    assert (C : pair_change pd_ok p x d s (set_objs (<[p := x']>) s1)).
    { apply (pair_change_of _ (cl_objs s1) f); [etrans; [exact F|apply vote_frame_objs]|exact U'|exact Hm'|exact O|by eexists]. }
    apply (change_inv pd_ok pd_good p x d s _ stale _ I Hx Hd C); [set_solver|right; split; [set_solver|]].
    apply (pair_good pd_ok pd_good p x d s _ stale I Hx Hd C x' _ (lookup_insert_eq _ _ _) eq_refl).
    change (client_votes (set_objs _ s1)) with (client_votes s1). cbn [vo_peer vo_addr pd_voter].
    assert (Ew' : want x' = c) by apply Ew.
    assert (Es : sleep_want x' = if active_only x then 0 else c) by (unfold sleep_want; by rewrite O3, Ew').
    destruct peer as [[q y]|]; cbn in Hp; [destruct Hp as (Hq&Hn&Hy&_)|]; unfold pd_good, wake_corner, sleep_corner.
    + rewrite Hq. exists (set_active_corner W y). split.
      { cbn. rewrite lookup_insert_ne, E by done. unfold activate. apply lookup_insert_eq. }
      rewrite V, Ew', Es, O2 by eauto. change (want (set_active_corner W y)) with (want y). change (sleep_want (set_active_corner W y)) with (sleep_want y).
      split; [split; [done|]; by left|]. split; [cbn; lia|]. intros _. left. f_equal. f_equal; lia.
    + rewrite Hp, Ew', O2. split; [done|]. by intros [? ?].
Qed.

Lemma pd_quiet_inv f : own_change f -> want (f x) = want x -> pd_inv (set_objs (<[p := f x]>) s) stale.
Proof using I Hx.
  intros O Ew. destruct (O x) as (O1&O2&O3&O4). assert (Es : sleep_want (f x) = sleep_want x) by (unfold sleep_want; by rewrite O3, Ew).
  apply (quiet_change pd_ok pd_good p x (f x) s stale I Hx O1); [apply O4, (vi_ok _ _ _ _ I p x Hx)|..];
    unfold pd_good, wake_corner, sleep_corner; [intros o v|intros z v; cbn]; rewrite Ew, Es, ?O2; [done|].
  intros [G1 G2]. split; [done|]. intros _. by apply G2.
Qed.

(** The corner a call chooses. *)
Lemma choose_corner level : exists k, find_corner (Z.to_nat (level_count x)) 0 (pd_level x) level = Ok k /\
  let i := if k =? level_count x then k - 1 else k in corner_for x level i /\ u32 i = i.
Proof using I Hx.
  destruct (vi_ok _ _ _ _ I p x Hx) as [Hl Hc _ _]. unfold RPMH_ARC_MAX_LEVELS in *.
  destruct (find_corner_spec level (Z.to_nat (level_count x)) 0 (pd_level x)) as (k&E&Hk&Hlt&Hge); [lia|].
  exists (0 + Z.of_nat k). split; [done|]. cbv zeta. unfold corner_for. case_if.
  - assert (Z.of_nat k = level_count x) by lia. split; [split; [lia|split; [|right; lia]]|apply u32_id; lia].
    intros j l Hj. apply Hlt. lia.
  - split; [split; [lia|split; [|left]]|apply u32_id; lia].
    + intros j l Hj. apply Hlt. lia.
    + intros l Hl2. apply Hge; [lia|]. by replace k with (Z.to_nat (0 + Z.of_nat k)) by lia.
Qed.
End call.

Lemma enable_change b : own_change (set_pd_enabled b).
Proof. intros z. split_and!; [done..|]. by intros []. Qed.

Lemma corner_change i : 0 <= i < Z.of_nat RPMH_ARC_MAX_LEVELS -> own_change (set_pd_corner i).
Proof. intros Hi z. split_and!; [done..|]. by intros []. Qed.

(** Every call keeps the invariant. *)
Lemma call_inv env wenv o p x ret s s' stale : pd_inv s stale -> cl_objs s !! p = Some x -> do_pd_op env wenv o p s = Ok (ret, s') ->
  pd_inv s' (if ret =? 0 then if sends o x then stale ∖ pair_of p x else stale else stale ∪ pair_of p x).
Proof.
  intros I Hx E. destruct (pw_dev _ (vi_wf _ _ _ _ I) p x Hx) as [d Hd]. cbn in Hd.
  assert (Et : the_obj p s = Ok (x, s)) by (unfold the_obj; by rewrite Hx).
  assert (Q : forall c f g, own_change f -> (forall W, want (f (set_active_corner W x)) = c) -> 0 <= c ->
    (let! ret := rpmhpd_aggregate_corner fuel env wenv irq_data p c in g ret) s = Ok (ret, s') ->
    (forall r t, g r t = if r =? 0 then (upd_obj p f ;;; st_ret r) t else Ok (r, t)) ->
    pd_inv s' (if ret =? 0 then stale ∖ pair_of p x else stale ∪ pair_of p x)).
  { intros c f g O Ew Hc (r&s1&E1&E2)%st_bind_inv Hg. rewrite Hg in E2.
    destruct (aggregate_inv p x d s stale I Hx Hd env wenv c f r s1 Hc O Ew E1) as [Hf Ho].
    destruct (r =? 0) eqn:Er.
    - destruct (Ho ltac:(lia)) as (z&Hz&I1). rewrite (st_bind_ok _ _ _ _ _ (upd_obj_ok p z f s1 Hz)) in E2. injection E2 as <- <-. by rewrite Er.
    - injection E2 as <- <-. rewrite Er. apply Hf. lia. }
  destruct o as [| |level]; cbn [do_pd_op sends] in *.
  - unfold rpmhpd_power_on in E. rewrite (st_bind_ok _ _ _ _ _ Et) in E. destruct (pd_corner x =? 0) eqn:Ec; cbn [negb] in *.
    + rewrite st_bind_ret in E. cbn [Z.eqb] in E. rewrite (st_bind_ok _ _ _ _ _ (upd_obj_ok p x _ s Hx)) in E. injection E as <- <-. cbn [Z.eqb].
      apply (pd_quiet_inv p x s stale I Hx); [apply enable_change|]. unfold want. cbn [set_pd_enabled pd_enabled pd_corner]. destruct (pd_enabled x); lia.
    + eapply (Q (pd_corner x)); [apply (enable_change true)|done|apply (vi_ok _ _ _ _ I p x Hx)|exact E|]. intros r t. cbv beta. by destruct (r =? 0).
  - unfold rpmhpd_power_off in E. rewrite (st_bind_ok _ _ _ _ _ Et) in E. rewrite (po_first _ (vi_ok _ _ _ _ I p x Hx)) in E. eapply (Q 0); [apply (enable_change false)|done|done|exact E|]. intros r t. cbv beta. by destruct (r =? 0).
  - unfold rpmhpd_set_performance_state in E. rewrite (st_bind_ok _ _ _ _ _ Et) in E.
    destruct (choose_corner p x s stale I Hx level) as (k&Ek&[Hr _]&Eu). rewrite (st_bind_ok _ _ _ _ _ (st_lift_ok _ _ s Ek)) in E. cbv zeta in E.
    set (i := if k =? level_count x then k - 1 else k) in *. rewrite Eu in E.
    assert (Hi : 0 <= i < Z.of_nat RPMH_ARC_MAX_LEVELS) by (pose proof (po_count _ (vi_ok _ _ _ _ I p x Hx)); lia).
    destruct (pd_enabled x) eqn:En.
    + eapply (Q i); [apply (corner_change i Hi)| |apply Hi|exact E|]; [by intros W; unfold want; cbn; rewrite En|]. intros r t. cbv beta. by destruct (r =? 0).
    + rewrite st_bind_ret in E. cbn [Z.eqb negb] in E. rewrite (st_bind_ok _ _ _ _ _ (upd_obj_ok p x _ s Hx)) in E. injection E as <- <-. cbn [Z.eqb].
      apply (pd_quiet_inv p x s stale I Hx); [by apply corner_change|]. unfold want. cbn. by rewrite En.
Qed.

(** The active vote of a call that succeeds. *)
Lemma call_active env wenv o p x d r s s' stale : pd_inv s stale -> cl_objs s !! p = Some x -> pd_dev x = Some d ->
  cl_ctrlrs s !! d = Some r -> do_pd_op env wenv o p s = Ok (0, s') -> sends o x = true ->
  exists x' r', cl_objs s' !! p = Some x' /\ cl_ctrlrs s' !! d = Some r' /\
    active_sent fuel (env RPMH_ACTIVE_ONLY_STATE) (wenv RPMH_ACTIVE_ONLY_STATE) (pd_addr x)
      (wake_corner x' (peer_obj s' x')) (r_drv r) (r_drv r').
Proof.
  intros I Hx Hd Hr E Hs. destruct (vi_ctrlr _ _ _ _ I p x d Hx Hd) as (r0&Hr0&Hsa&_). assert (r0 = r) as -> by congruence.
  pose proof (call_inv env wenv o p x 0 s s' stale I Hx E) as I'. rewrite Hs in I'. cbn [Z.eqb] in I'.
  assert (Hpp : pd_peer x <> Some p) by (intros Hq; by destruct (pw_peer _ (vi_wf _ _ _ _ I) p x p Hx Hq)).
  assert (G : exists x' r', cl_objs s' !! p = Some x' /\ pd_dev x' = Some d /\ cl_ctrlrs s' !! d = Some r' /\
    active_sent fuel (env RPMH_ACTIVE_ONLY_STATE) (wenv RPMH_ACTIVE_ONLY_STATE) (pd_addr x) (active_corner x') (r_drv r) (r_drv r')).
  { clear I'. assert (Et : the_obj p s = Ok (x, s)) by (unfold the_obj; by rewrite Hx).
    assert (Q : forall c f g, (forall z, active_corner (f z) = active_corner z /\ pd_dev (f z) = pd_dev z) ->
      (let! ret := rpmhpd_aggregate_corner fuel env wenv irq_data p c in g ret) s = Ok (0, s') ->
      (forall r t, g r t = if r =? 0 then (upd_obj p f ;;; st_ret r) t else Ok (r, t)) ->
      exists x' r', cl_objs s' !! p = Some x' /\ pd_dev x' = Some d /\ cl_ctrlrs s' !! d = Some r' /\
        active_sent fuel (env RPMH_ACTIVE_ONLY_STATE) (wenv RPMH_ACTIVE_ONLY_STATE) (pd_addr x) (active_corner x') (r_drv r) (r_drv r')).
    { intros c f g Hf (y&s1&E1&E2)%st_bind_inv Hg. rewrite Hg in E2. destruct (y =? 0) eqn:Ey; [|injection E2 as ->; lia].
      assert (y = 0) as -> by lia.
      destruct (aggregate_active fuel env wenv irq_data p c x s s1 d r Hx Hd Hpp Hr Hsa E1) as (A&r'&Hz&Hr'&Ha).
      rewrite (st_bind_ok _ _ _ _ _ (upd_obj_ok p _ f s1 Hz)) in E2. injection E2 as <-.
      destruct (Hf (set_active_corner A x)) as [Hfa Hfd]. exists (f (set_active_corner A x)), r'. rewrite Hfa, Hfd.
      split; [apply lookup_insert_eq|]. by split. }
    destruct o as [| |level]; cbn [do_pd_op sends] in E, Hs.
    - unfold rpmhpd_power_on in E. rewrite (st_bind_ok _ _ _ _ _ Et), Hs in E.
      eapply (Q (pd_corner x) (set_pd_enabled true)); [done|exact E|]. intros y t. cbv beta. by destruct (y =? 0).
    - unfold rpmhpd_power_off in E. rewrite (st_bind_ok _ _ _ _ _ Et) in E.
      eapply (Q _ (set_pd_enabled false)); [done|exact E|]. intros y t. cbv beta. by destruct (y =? 0).
    - unfold rpmhpd_set_performance_state in E. rewrite (st_bind_ok _ _ _ _ _ Et) in E.
      destruct (choose_corner p x s stale I Hx level) as (k&Ek&_). rewrite (st_bind_ok _ _ _ _ _ (st_lift_ok _ _ s Ek)), Hs in E. cbv zeta in E.
      eapply (Q _ (set_pd_corner _)); [done|exact E|]. intros y t. cbv beta. by destruct (y =? 0). }
  destruct G as (x'&r'&Hx'&Hd'&Hr'&Ha). exists x', r'. split; [done|]. split; [done|].
  destruct (vi_good _ _ _ _ I' p x' Hx' ltac:(rewrite not_elem_of_difference; right; apply in_pair; by left) d Hd') as [<- _]. exact Ha.
Qed.

Lemma pd_steps_inv s stale s' stale' : rtc pd_step (s, stale) (s', stale') -> pd_inv s stale -> pd_inv s' stale'.
Proof.
  intros Hr. remember (s, stale) as a. remember (s', stale') as b. revert s stale Heqa. induction Hr as [a|a m b' Hst Hr IH]; intros s stale ->.
  - by injection Heqb as <- <-.
  - intros I. destruct m as [s1 st1]. apply (IH Heqb s1 st1 eq_refl). inversion Hst; subst; [by eapply call_inv|by eapply others_inv].
Qed.

Lemma corners_range (s : domains) stale p x : pd_inv s stale -> cl_objs s !! p = Some x ->
  0 <= sleep_corner x (peer_obj s x) <= wake_corner x (peer_obj s x) /\ wake_corner x (peer_obj s x) < 16.
Proof.
  intros I Hx. assert (Hw : forall q y, cl_objs s !! q = Some y -> 0 <= sleep_want y <= want y /\ want y < 16).
  { intros q y Hy. pose proof (po_corner _ (vi_ok _ _ _ _ I q y Hy)). unfold sleep_want, want, RPMH_ARC_MAX_LEVELS in *. cbn in *.
    destruct (active_only y), (pd_enabled y); lia. }
  unfold wake_corner, sleep_corner, peer_obj. pose proof (Hw p x Hx) as [W S]. destruct (vo_peer x) as [q|]; cbn; [|lia].
  destruct (cl_objs s !! q) as [y|] eqn:Hy; [|lia]. pose proof (Hw q y Hy). lia.
Qed.

(** C3: Over any sequence of calls that switch power domains on and off and set their performance, which may fail, and
    of what the other clients of the library do, from domains with nothing asked for and levels as the probe leaves them
    where the database has some and the first is zero ([pd_ok]; for others switching off votes for a level, or there is no
    corner): a call that succeeds and sends votes hands the hardware one active request, waited for or not, whose only
    command is the highest corner the domain and its peer ask for while they are on, for the address of the domain; on a well formed
    controller it is in the registers of a free TCS of the active group, and triggered.  Unless the last votes for a domain
    and its peer did not get through, the driver's active corner is that highest corner all along, and after a flush of the library
    that succeeds the hardware will apply, when the system sleeps, the highest corner of those that are not active-only, and
    the active corner again when it wakes (nothing is programmed where the two are equal).  A domain without a peer never
    has a sleep or wake vote. *)
Theorem rpmhpd_votes_correct s0 s stale p x d r : pds_start s0 -> rtc pd_step (s0, ∅) (s, stale) ->
  cl_objs s !! p = Some x -> pd_dev x = Some d -> cl_ctrlrs s !! d = Some r ->
  (forall env wenv o s', do_pd_op env wenv o p s = Ok (0, s') -> sends o x = true ->
     exists x' r' id wait d2, cl_objs s' !! p = Some x' /\ cl_ctrlrs s' !! d = Some r' /\
       let env := env RPMH_ACTIVE_ONLY_STATE in
       let msg := Req id RPMH_ACTIVE_ONLY_STATE wait [Cmd (pd_addr x) (wake_corner x' (peer_obj s' x')) false] in
       rpmh_rsc_send_data fuel env (Some msg) (r_drv r) = Ok (0, d2) /\
       r_drv r' = (if wait then clear_done (wenv RPMH_ACTIVE_ONLY_STATE 0%nat d2) else d2) /\
       (rsc_wf (r_drv r) -> (forall k d, rsc_wf d -> rsc_wf (env k d)) -> 0 <= pd_addr x < 2 ^ 32 ->
        exists d1 i, in_group (d_active d1) i /\ (i ∉ d_in_use d1) /\ started d1 d2 msg i)) /\
  (pd_peer x = None -> votes (r_cache r) !! pd_addr x = None \/ votes (r_cache r) !! pd_addr x = Some no_vote) /\
  (p ∉ stale -> active_corner x = wake_corner x (peer_obj s x) /\
    forall ff fenv, is_Some (pd_peer x) -> flush_ready r ->
      sleep_corner x (peer_obj s x) = wake_corner x (peer_obj s x) \/
      exists ret r', rpmh_flush (S ff) fenv r = Ok (ret, r') /\
        (ret = 0 -> programmed (r_drv r') SLEEP_TCS (pd_addr x) (sleep_corner x (peer_obj s x)) /\
                    programmed (r_drv r') WAKE_TCS (pd_addr x) (wake_corner x (peer_obj s x)))).
Proof.
  intros Hs0 Hr Hx Hd Hc. pose proof (pd_steps_inv _ _ _ _ Hr (pd_start_inv s0 Hs0)) as I.
  assert (Ev : forall a, client_votes s d a = votes (r_cache r) !! a) by (intros a; unfold client_votes; by rewrite Hc).
  destruct (vi_ctrlr _ _ _ _ I p x d Hx Hd) as (r0&Hr0&Hsa&Hw). assert (r0 = r) as -> by congruence.
  destruct (corners_range s stale p x I Hx) as [W S]. split; [|split].
  - intros env wenv o s' E Hse. destruct (call_active env wenv o p x d r s s' stale I Hx Hd Hc E Hse) as (x'&r'&Hx'&Hr'&(id&wait&d2&E2&Ed)).
    exists x', r', id, wait, d2. split; [done|]. split; [done|]. cbv zeta. split; [exact E2|]. split; [exact Ed|].
    intros Hwf He Ha. exact (sent_started fuel _ _ _ _ _ _ _ Hwf He Ha E2).
  - intros Hp. pose proof (vi_alone _ _ _ _ I p x d Hx Hd Hp) as Hu. unfold unvoted in Hu. by rewrite Ev in Hu.
  - intros Hst. destruct (vi_good _ _ _ _ I p x Hx Hst d Hd) as [Ha Hv]. split; [done|]. intros ff fenv [q Hq] Hf.
    destruct (decide (sleep_corner x (peer_obj s x) = wake_corner x (peer_obj s x))) as [|Hn]; [by left|right].
    destruct (pw_peer _ (vi_wf _ _ _ _ I) p x q Hx Hq) as (_&y&Hy&_).
    destruct Hv as [Hv|[_ Hv]]; [unfold peer_obj; cbn; rewrite Hq; cbn; by eexists| |lia].
    cbn [vo_addr pd_voter] in Hv. rewrite Ev in Hv. apply flush_vote; try done; unfold UINT_MAX; lia.
Qed.
End system.

(** ** The levels of a domain *)

(** The entries [v] of the database up to the first zero that is not the first entry. *)
Record levels_of (v : Z -> Z) (n : Z) (x : rpmhpd) : Prop := {
  lv_count : 0 <= level_count x <= n;
  lv_levels : forall j, 0 <= j < level_count x -> pd_level x !! Z.to_nat j = Some (v j) /\ (0 < j -> v j <> 0);
  lv_stop : level_count x < n -> 0 < level_count x /\ v (level_count x) = 0;
}.

Lemma level_loop_ok p buf (s0 : domains) n0 : forall n i (s s' : domains) x,
  cl_objs s !! p = Some x -> cl_db s = cl_db s0 -> length (pd_level x) = RPMH_ARC_MAX_LEVELS -> (i + n = n0)%nat -> (n0 <= RPMH_ARC_MAX_LEVELS)%nat ->
  level_count x = Z.of_nat n0 ->
  (forall j, 0 <= j < Z.of_nat i -> pd_level x !! Z.to_nat j = Some (rd16 (cl_db s0) (buf + 2 * j)) /\
     (0 < j -> rd16 (cl_db s0) (buf + 2 * j) <> 0)) ->
  level_loop n i p buf s = Ok (tt, s') ->
  exists x', cl_objs s' = <[p := x']> (cl_objs s) /\ length (pd_level x') = RPMH_ARC_MAX_LEVELS /\
    x' = set_levels (pd_level x') (level_count x') x /\
    levels_of (fun j => rd16 (cl_db s0) (buf + 2 * j)) (Z.of_nat n0) x' /\
    cl_ctrlrs s' = cl_ctrlrs s /\ cl_db s' = cl_db s /\ cl_db_header s' = cl_db_header s /\ cl_calls s' = cl_calls s.
Proof.
  induction n as [|n IH]; intros i s s' x Hx Hdb Hl Hi Hn Hc Hlv E; cbn [level_loop] in E.
  - injection E as <-. exists x. rewrite insert_id by done. split; [done|]. split; [done|]. split; [by destruct x|]. split; [|done].
    constructor; [lia| |lia]. intros j Hj. apply Hlv. lia.
  - apply st_bind_inv in E as (v&s1&E1&E). unfold on_cmd_db, load in E1.
    destruct (in_range _ _ _); [|done]. injection E1 as <- <-.
    rewrite (st_bind_ok _ _ _ _ _ (upd_obj_ok p x _ s Hx)) in E. rewrite Hdb in E. set (v := rd16 _ _) in E.
    set (x1 := set_levels (<[i:=v]> (pd_level x)) (level_count x) x) in E.
    assert (Hx1 : cl_objs (set_objs (<[p:=x1]>) s) !! p = Some x1) by (cbn; by rewrite lookup_insert_eq).
    assert (Hiv : pd_level x1 !! i = Some v) by (cbn; apply list_lookup_insert_eq; lia).
    assert (Hbelow : forall j, (j < i)%nat -> pd_level x1 !! j = pd_level x !! j) by (intros j Hj; cbn; apply list_lookup_insert_ne; lia).
    destruct ((0 <? Z.of_nat i) && (v =? 0)) eqn:Ez.
    + rewrite (upd_obj_ok p x1 _ _ Hx1) in E. injection E as <-. eexists. cbn [cl_objs set_objs]. split; [by rewrite insert_insert_eq|].
      split; [cbn; by rewrite length_insert|]. split; [by destruct x|]. split; [|done]. constructor; cbn [level_count set_levels].
      * lia.
      * intros j Hj. change (pd_level _) with (pd_level x1). rewrite Hbelow by lia. apply Hlv. lia.
      * intros _. split; [lia|]. change (v = 0). lia.
    + destruct (IH (S i) _ s' x1 Hx1) as (x'&E'&Hl'&Ex&Hlv'&R); [done|cbn; by rewrite length_insert|lia|done|done| |done|].
      * intros j Hj. destruct (decide (j = Z.of_nat i)) as [->|Hji]; [|rewrite Hbelow by lia; apply Hlv; lia].
        rewrite Nat2Z.id. split; [done|]. intros Hj0. change (v <> 0). lia.
      * exists x'. split; [rewrite E'; cbn; by rewrite insert_insert_eq|]. split; [done|]. split; [|done]. rewrite Ex. by destruct x.
Qed.

Lemma aux_inv h id m o m' : cmd_db_read_aux_data h id m = Ok (o, m') ->
  match o with inl e => e <> 0 | inr (_, len) => 0 <= len end.
Proof.
  unfold cmd_db_read_aux_data, cmd_db_get_header. rewrite st_bind_bind. intros (ret&m1&_&E)%st_bind_inv.
  destruct (ret =? 0) eqn:Er; cbn [negb] in E.
  2: { rewrite st_bind_ret in E. injection E as <- _. lia. }
  destruct h as [db|]; [|injection E as <- _; done]. rewrite st_bind_bind in E. apply st_bind_inv in E as (f&m2&_&E).
  destruct f as [[ent hdr]|]; rewrite st_bind_ret in E; [|injection E as <- _; done].
  apply st_bind_inv in E as (len&m3&El&E). apply st_bind_inv in E as (b&m4&_&E). injection E as <- _.
  unfold load in El. destruct (in_range _ _ _); [|done]. injection El as <- _. apply rd16_range.
Qed.

(** What the probe makes of a domain: its device, the address of its resource, and the levels the database has for it. *)
Theorem rpmhpd_probe_one_correct dev p x s ret s' : cl_objs s !! p = Some x -> length (pd_level x) = RPMH_ARC_MAX_LEVELS ->
  rpmhpd_probe_one dev p s = Ok (ret, s') -> ret = 0 ->
  exists a buf len m1 m2 m3 x', cmd_db_read_addr (cl_db_header s) (pd_res_name x) (cl_db s) = Ok (a, m1) /\ a <> 0 /\
    cmd_db_read_slave_id (cl_db_header s) (pd_res_name x) (cl_db s) = Ok (CMD_DB_HW_ARC, m2) /\
    cmd_db_read_aux_data (cl_db_header s) (pd_res_name x) (cl_db s) = Ok (inr (buf, len), m3) /\
    cl_objs s' = <[p := x']> (cl_objs s) /\ cl_ctrlrs s' = cl_ctrlrs s /\ cl_calls s' = cl_calls s ++ [GenpdInit p] /\
    pd_dev x' = Some dev /\ pd_addr x' = a /\ pd_peer x' = pd_peer x /\ active_only x' = active_only x /\ pd_ops x' = true /\
    pd_enabled x' = pd_enabled x /\ pd_corner x' = pd_corner x /\ active_corner x' = active_corner x /\
    length (pd_level x') = RPMH_ARC_MAX_LEVELS /\ level_count x' <= Z.of_nat RPMH_ARC_MAX_LEVELS /\
    levels_of (fun j => rd16 (cl_db s) (buf + 2 * j)) (Z.shiftr len 1) x'.
Proof.
  intros Hx Hl E ->. unfold rpmhpd_probe_one in E. rewrite (st_bind_ok _ _ _ x s) in E by (unfold the_obj; by rewrite Hx).
  rewrite (st_bind_ok _ _ _ _ _ (upd_obj_ok p x _ s Hx)) in E. apply st_bind_inv in E as (a&s1&E1&E).
  unfold on_cmd_db in E1. cbn [cl_db_header cl_db set_objs] in E1. destruct (cmd_db_read_addr _ _ _) as [[a0 m1]| |] eqn:Ea; [|done..]. injection E1 as <- <-.
  erewrite st_bind_ok in E by (apply upd_obj_ok; cbn; apply lookup_insert_eq).
  destruct (a0 =? 0) eqn:Ea0; [done|]. apply st_bind_inv in E as (sl&s2&E2&E).
  unfold on_cmd_db in E2. cbn [cl_db_header cl_db set_objs] in E2. destruct (cmd_db_read_slave_id _ _ _) as [[sl0 m2]| |] eqn:Es; [|done..]. injection E2 as <- <-.
  destruct (sl0 =? CMD_DB_HW_ARC) eqn:Esl; cbn [negb] in E; [|done]. assert (sl0 = CMD_DB_HW_ARC) as -> by lia. clear Esl.
  set (x1 := set_pd_addr a0 (set_pd_dev dev x)) in E. set (s2 := set_objs (<[p:=x1]>) _) in E.
  assert (Hx1 : cl_objs s2 !! p = Some x1) by (cbn; apply lookup_insert_eq).
  apply st_bind_inv in E as (r&s3&E3&E). destruct (r =? 0) eqn:Er; cbn [negb] in E; [|injection E as -> <-; done]. assert (r = 0) as -> by lia. clear Er.
  unfold rpmhpd_update_level_mapping in E3. rewrite (st_bind_ok _ _ _ x1 s2) in E3 by (unfold the_obj; by rewrite Hx1).
  apply st_bind_inv in E3 as (b&s4&E4&E3). unfold on_cmd_db in E4. change (cl_db_header s2) with (cl_db_header s) in E4. change (cl_db s2) with (cl_db s) in E4.
  change (pd_res_name x1) with (pd_res_name x) in E4. destruct (cmd_db_read_aux_data _ _ _) as [[b0 m3]| |] eqn:Eb; [|done..]. injection E4 as <- <-.
  destruct b0 as [err|[buf len]]; [injection E3 as -> _; by apply aux_inv in Eb|].
  rewrite (st_bind_ok _ _ _ _ _ (upd_obj_ok p x1 _ s2 Hx1)) in E3. set (n := Z.shiftr len 1) in *. set (x2 := set_levels (pd_level x1) n x1) in E3.
  destruct (n >? Z.of_nat RPMH_ARC_MAX_LEVELS) eqn:En; [done|]. apply st_bind_inv in E3 as ([]&s5&E5&E3). injection E3 as <-.
  assert (Hn : 0 <= n) by (apply Z.shiftr_nonneg; apply (aux_inv _ _ _ _ _ Eb)).
  apply (level_loop_ok p buf s (Z.to_nat n) _ 0 _ _ x2) in E5 as (x3&Ep&El&Ex&Hlv&Ec&Edb&Eh&Eg);
    [|cbn; apply lookup_insert_eq|done|done|done|lia|cbn; lia|intros; lia].
  erewrite st_bind_ok in E by (apply upd_obj_ok; rewrite Ep; apply lookup_insert_eq). injection E as <-.
  exists a0, buf, len, m1, m2, m3, (set_pd_ops x3). rewrite Z2Nat.id in Hlv by done.
  split; [done|]. split; [lia|]. split; [done|]. split; [done|]. cbn [cl_objs cl_ctrlrs cl_calls set_objs].
  split; [rewrite Ep; cbn; by rewrite !insert_insert_eq|]. split; [by rewrite Ec|]. split; [by rewrite Eg|].
  rewrite Ex. cbn. split_and!; try done; [destruct Hlv; lia|]. destruct Hlv. by constructor.
Qed.

(** ** Concrete domains *)
Module PdDemo.
Import RscDemo.

Definition mx : list Z := [0x6d; 0x78; 0x2e; 0x6c; 0x76; 0x6c].
Definition ebi : list Z := [0x65; 0x62; 0x69; 0x2e; 0x6c; 0x76; 0x6c].
Definition db : Z := 0x1000.

(** Two resources of the slave of the corners; the levels of the second one depend on the chip. *)
Definition chip (first len : Z) : mem := poke
  [ (db + db_magic, 4%nat, 0x0c0330db);
    (rsc_hdr_at db 0 + rh_slv_id, 2%nat, 3); (rsc_hdr_at db 0 + rh_cnt, 2%nat, 2); (rsc_hdr_at db 0 + rh_data_offset, 2%nat, 48);
    (db + db_data, 4%nat, 0x6c2e786d); (db + db_data + 4, 4%nat, 0x6c76); (db + db_data + eh_addr, 4%nat, 0x30080);
    (db + db_data + eh_len, 2%nat, 8);
    (db + db_data + 24, 4%nat, 0x2e696265); (db + db_data + 28, 4%nat, 0x6c766c); (db + db_data + 24 + eh_addr, 4%nat, 0x30090);
    (db + db_data + 24 + eh_len, 2%nat, len); (db + db_data + 24 + eh_offset, 2%nat, 8);
    (db + db_data + 50, 2%nat, 16); (db + db_data + 52, 2%nat, 48);
    (db + db_data + 56, 2%nat, first); (db + db_data + 58, 2%nat, 128) ]
  (Mem db 512 ∅).

(** A domain with its active-only peer, and one without. *)
Definition boot (m : mem) : domains :=
  Client {[1 := declared None (Some 2) false mx; 2 := declared None (Some 1) true mx; 3 := declared (Some 1) None false ebi]}
    {[7 := Rpmh false [] false [] false start ∅ 0 [] []]} m (Some db) [].
Definition probe (m : mem) : res (Z * domains) := rpmhpd_probe 7 (Some [Some 1; None; Some 2; Some 3]) true true 0 (boot m).
Definition final (o : res (Z * domains)) (s : domains) : domains := match o with Ok (_, s') => s' | _ => s end.
Definition ready : domains := final (probe (chip 0 4)) (boot (chip 0 4)).

Lemma probe_runs : probe (chip 0 4) = Ok (0, ready) /\ cl_calls ready =
  [GenpdInit 1; GenpdInit 2; GenpdInit 3; GenpdSubdomain 1 3; GenpdProvider [Some 1; None; Some 2; Some 3]].
Proof. split; vm_compute; reflexivity. Qed.

Definition lv (l : list Z) : list Z := l ++ replicate (16 - length l) 0.
Definition pd1 : rpmhpd := Rpmhpd (Some 7) None (Some 2) false 0 0 (lv [0; 16; 48]) 3 false mx 0x30080 true.
Definition pd2 : rpmhpd := Rpmhpd (Some 7) None (Some 1) true 0 0 (lv [0; 16; 48]) 3 false mx 0x30080 true.
Definition pd3 : rpmhpd := Rpmhpd (Some 7) (Some 1) None false 0 0 (lv [0; 128]) 2 false ebi 0x30090 true.

Lemma ready_pds : cl_objs ready = {[1 := pd1; 2 := pd2; 3 := pd3]}.
Proof. vm_compute. reflexivity. Qed.

Lemma ready_cases p x : cl_objs ready !! p = Some x -> p = 1 /\ x = pd1 \/ p = 2 /\ x = pd2 \/ p = 3 /\ x = pd3.
Proof. rewrite ready_pds, !lookup_insert_Some, lookup_singleton_Some. naive_solver. Qed.

Lemma ready_ctrlr : ctrlr_ok ready 7.
Proof. eexists. split; [vm_compute; reflexivity|]. split; [reflexivity|constructor]. Qed.

Lemma ready_start : pds_start ready.
Proof.
  split; [constructor|split].
  - intros p x [[-> ->]|[[-> ->]|[-> ->]]]%ready_cases; by eexists.
  - intros p x q [[-> ->]|[[-> ->]|[-> ->]]]%ready_cases [= <-]; (split; [done|]); rewrite ready_pds; by eexists.
  - intros p x q y [[-> ->]|[[-> ->]|[-> ->]]]%ready_cases [[-> ->]|[[-> ->]|[-> ->]]]%ready_cases; cbn; try done; congruence.
  - intros p x d [[-> ->]|[[-> ->]|[-> ->]]]%ready_cases [= <-]; apply ready_ctrlr.
  - intros p x [[-> ->]|[[-> ->]|[-> ->]]]%ready_cases; (split_and!; [by constructor|done..|]); by intros d [= <-].
Qed.

Definition env (st : rpmh_state) (k : nat) (d : rsc_drv) : rsc_drv := d.
(** The hardware completes the first TCS. *)
Definition complete (st : rpmh_state) (k : nat) (d : rsc_drv) : rsc_drv := run tcs_tx_done (write_tcs_reg d RSC_DRV_IRQ_STATUS 0 1).
Definition call (o : pd_op) (p : Z) (s : domains) : res (Z * domains) := do_pd_op 2 true env complete o p s.

(** The domain wants the second corner and its peer the third. *)
Definition s1 : domains := final (call (PSet 10) 1 ready) ready.
Definition s2 : domains := final (call POn 1 s1) s1.
Definition s3 : domains := final (call (PSet 1000) 2 s2) s2.
Definition s4 : domains := final (call POn 2 s3) s3.

Definition s5 : domains := final (call (PSet 16) 1 s4) s4.

Lemma pd_call_step o p s s' : match call o p s with Ok (ret, t) => (ret =? 0) | _ => false end = true -> s' = final (call o p s) s ->
  is_Some (cl_objs s !! p) -> pd_step 2 true (s, ∅) (s', ∅).
Proof.
  intros E -> [x Hx]. destruct (call o p s) as [[ret t]| |] eqn:Ec; [|done..]. cbn [final].
  pose proof (step_call 2 true env complete o p x ret s t ∅ Hx Ec) as S. rewrite E in S. destruct (sends o x); [|done].
  by replace (∅ ∖ pair_of p x : gset Z) with (∅ : gset Z) in S by set_solver.
Qed.

Lemma pd_demo_steps : rtc (pd_step 2 true) (ready, ∅) (s4, ∅).
Proof.
  apply (rtc_l _ _ (s1, ∅)); [apply (pd_call_step (PSet 10) 1); [vm_compute; reflexivity|reflexivity|rewrite ready_pds; by eexists]|].
  apply (rtc_l _ _ (s2, ∅)); [apply (pd_call_step POn 1); [vm_compute; reflexivity|reflexivity|vm_compute; by eexists]|].
  apply (rtc_l _ _ (s3, ∅)); [apply (pd_call_step (PSet 1000) 2); [vm_compute; reflexivity|reflexivity|vm_compute; by eexists]|].
  apply (rtc_l _ _ (s4, ∅)); [apply (pd_call_step POn 2); [vm_compute; reflexivity|reflexivity|vm_compute; by eexists]|apply rtc_refl].
Qed.

Definition ctrlr4 : rpmh := match cl_ctrlrs s4 !! 7 with Some r => r | None => Rpmh false [] false [] false start ∅ 0 [] [] end.
Definition dom4 : rpmhpd := match cl_objs s4 !! 1 with Some x => x | None => pd1 end.

Lemma demo_ready : flush_ready ctrlr4.
Proof.
  assert (Ei : d_in_use (r_drv ctrlr4) = ∅) by (vm_compute; reflexivity).
  constructor; [vm_compute; reflexivity|vm_compute; reflexivity| | |].
  - vm_compute r_cache. repeat constructor; cbn; unfold UINT_MAX; lia.
  - apply (rsc_wf_groups start); [apply (ri_wf _ start_inv)|vm_compute; reflexivity..| |].
    + vm_compute. discriminate.
    + vm_compute. reflexivity.
  - intros i _. rewrite Ei. apply not_elem_of_empty.
Qed.

Lemma peer4 : pd_peer dom4 = Some 2.
Proof. vm_compute. reflexivity. Qed.

Lemma flush4 : match rpmh_flush 1 (env RPMH_SLEEP_STATE) ctrlr4 with Ok (ret, _) => ret =? 0 | _ => false end = true.
Proof. vm_compute. reflexivity. Qed.

(** The sleep vote is the corner of the first domain, the wake vote that of its active-only peer. *)
Lemma rpmhpd_votes_correct_witness : rtc (pd_step 2 true) (ready, ∅) (s4, ∅) /\ active_corner dom4 = wake_corner dom4 (peer_obj s4 dom4) /\
  exists r', rpmh_flush 1 (env RPMH_SLEEP_STATE) ctrlr4 = Ok (0, r') /\
  programmed (r_drv r') SLEEP_TCS (pd_addr dom4) (sleep_corner dom4 (peer_obj s4 dom4)) /\ programmed (r_drv r') WAKE_TCS (pd_addr dom4) (wake_corner dom4 (peer_obj s4 dom4)) /\
  exists id wait d2, rpmh_rsc_send_data 2 (env RPMH_ACTIVE_ONLY_STATE) (Some (Req id RPMH_ACTIVE_ONLY_STATE wait [Cmd 0x30080 2 false])) (r_drv ctrlr4) = Ok (0, d2).
Proof.
  split; [exact pd_demo_steps|]. destruct (rpmhpd_votes_correct 2 true ready s4 ∅ 1 dom4 7 ctrlr4 ready_start pd_demo_steps) as [Hact [_ Hv]];
    [vm_compute; reflexivity|vm_compute; reflexivity|vm_compute; reflexivity|].
  destruct (Hv (not_elem_of_empty 1)) as [Ha Hf]. split; [exact Ha|].
  destruct (Hf 0%nat (env RPMH_SLEEP_STATE) (ex_intro _ 2 peer4) demo_ready) as [Hs|(ret&r'&E&Hp)].
  - vm_compute in Hs. discriminate Hs.
  - pose proof flush4 as F. rewrite E in F. apply Z.eqb_eq in F. subst ret. exists r'. split; [exact E|]. destruct (Hp eq_refl) as [P1 P2]. split; [exact P1|]. split; [exact P2|].
    destruct (Hact env complete (PSet 16) s5) as (x'&r1&id&wait&d2&Ex&_&E2&_); [vm_compute; reflexivity|vm_compute; reflexivity|].
    assert (Hw : wake_corner x' (peer_obj s5 x') = 2) by (vm_compute in Ex; injection Ex as <-; vm_compute; reflexivity).
    assert (Haddr : pd_addr dom4 = 0x30080) by (vm_compute; reflexivity). rewrite Hw, Haddr in E2. by exists id, wait, d2.
Defined.

(** The corners are the second for sleep, and the third. *)
Lemma corners4 : sleep_corner dom4 (peer_obj s4 dom4) = 1 /\ wake_corner dom4 (peer_obj s4 dom4) = 2 /\ pd_addr dom4 = 0x30080.
Proof. split_and!; vm_compute; reflexivity. Qed.

(** ** What does not work *)

(** A domain whose first level is not zero: switching it off votes for the level as if it were a corner. *)
Lemma power_off_run : exists r s, probe (chip 64 4) = Ok (0, s) /\ call POff 3 s = Ok (0, r) /\
  (active_corner <$> cl_objs r !! 3) = Some 64.
Proof. eexists _, _. split; [vm_compute; reflexivity|]. split; vm_compute; reflexivity. Qed.

(** A domain without levels gets the largest number as its corner, which is no vote to the library. *)
Lemma no_levels_run : exists s r, probe (chip 0 0) = Ok (0, s) /\ call (PSet 1) 3 s = Ok (0, r) /\
  (pd_corner <$> cl_objs r !! 3) = Some UINT_MAX.
Proof. eexists _, _. split; [vm_compute; reflexivity|]. split; vm_compute; reflexivity. Qed.

(** A probe that fails leaves the domains it has handed to the framework; the next one hands them over again. *)
Lemma probe_twice_run : exists s r, rpmhpd_probe 7 (Some [Some 1; Some 4]) true true 0 
    (set_objs (<[4 := declared None None false [0x63; 0x78]]>) (boot (chip 0 4))) = Ok (- ENODEV, s) /\
  rpmhpd_probe 7 (Some [Some 1]) true true 0 s = Ok (0, r) /\ cl_calls r = [GenpdInit 1; GenpdInit 1; GenpdProvider [Some 1]].
Proof. eexists _, _. split; [vm_compute; reflexivity|]. split; vm_compute; reflexivity. Qed.
End PdDemo.
