(* ===== verification/Icc.v ===== *)
(** * Interconnect votes (drivers/interconnect/qcom/bcm-voter.c, icc-rpmh.c)

    A node of the interconnect sums up the bandwidth its clients ask for, in one bucket for
    the active, one for the wake and one for the sleep state.  Nodes belong to bus clock
    managers (BCM).  A voter turns the sums of the nodes of its BCMs into votes, and sends
    them through the voting library, those of one clock domain (VCD) together. *)
From S2P Require Import Prelude CMem CmdDb RpmhRsc Rpmh.
Open Scope c_scope.

Definition QCOM_ICC_BUCKET_AMC : nat := 0.
Definition QCOM_ICC_BUCKET_WAKE : nat := 1.
Definition QCOM_ICC_BUCKET_SLEEP : nat := 2.
Definition QCOM_ICC_NUM_BUCKETS : nat := 3.
Definition QCOM_ICC_TAG_AMC : Z := Z.shiftl 1 (Z.of_nat QCOM_ICC_BUCKET_AMC).
Definition QCOM_ICC_TAG_WAKE : Z := Z.shiftl 1 (Z.of_nat QCOM_ICC_BUCKET_WAKE).
Definition QCOM_ICC_TAG_SLEEP : Z := Z.shiftl 1 (Z.of_nat QCOM_ICC_BUCKET_SLEEP).
Definition QCOM_ICC_TAG_ACTIVE_ONLY : Z := Z.lor QCOM_ICC_TAG_AMC QCOM_ICC_TAG_WAKE.
Definition QCOM_ICC_TAG_ALWAYS : Z := Z.lor (Z.lor QCOM_ICC_TAG_AMC QCOM_ICC_TAG_WAKE) QCOM_ICC_TAG_SLEEP.

Definition MAX_BCMS : nat := 64.
Definition MAX_BCM_PER_NODE : nat := 3.
Definition MAX_VCD : nat := 10.

(** What the voter takes from headers outside the repository: the largest vote and the word of
    a command.  A word within its range says what it was made of. *)
Class BcmAbi := {
  BCM_TCS_CMD_VOTE_MASK : Z;
  BCM_TCS_CMD : bool -> bool -> Z -> Z -> Z;
  vote_mask_range : 0 < BCM_TCS_CMD_VOTE_MASK < 2 ^ 32;
  bcm_cmd_range c v x y : 0 <= x <= BCM_TCS_CMD_VOTE_MASK -> 0 <= y <= BCM_TCS_CMD_VOTE_MASK ->
    0 <= BCM_TCS_CMD c v x y < 2 ^ 32;
  bcm_cmd_inj c v x y c' v' x' y' :
    0 <= x <= BCM_TCS_CMD_VOTE_MASK -> 0 <= y <= BCM_TCS_CMD_VOTE_MASK ->
    0 <= x' <= BCM_TCS_CMD_VOTE_MASK -> 0 <= y' <= BCM_TCS_CMD_VOTE_MASK ->
    BCM_TCS_CMD c v x y = BCM_TCS_CMD c' v' x' y' -> c = c' /\ v = v' /\ x = x' /\ y = y';
}.

(** The sort of the kernel, by a comparison that returns a positive number when its first
    argument goes after the second. *)
Class ListSort := {
  list_sort : forall {A}, (A -> A -> Z) -> list A -> list A;
}.

(** ** Data *)

(** struct qcom_icc_node: one sum and one maximum for each bucket, [nd_bcms] are the first
    [num_bcms] entries of [bcms], [nd_qos] is whether the box of the node is initialized. *)
Record qcom_icc_node := IccNode {
  channels : Z;
  buswidth : Z;
  sum_avg : list Z;
  max_peak : list Z;
  nd_bcms : list Z;
  nd_qos : option bool;
}.

(** struct bcm_db *)
Record bcm_db := BcmDb { unit_ : Z; width : Z; vcd : Z; bd_reserved : Z }.

(** What [list_empty] says of a list entry: entries that were never initialised are zero, so
    they do not point to themselves. *)
Inductive link := Uninit | Unlinked | Linked.
Definition list_empty (l : link) : bool := match l with Unlinked => true | _ => false end.

(** struct qcom_icc_bcm *)
Record qcom_icc_bcm := IccBcm {
  bcm_name : list Z;
  bcm_addr : Z;
  vote_x : list Z;
  vote_y : list Z;
  vote_scale : Z;
  keepalive : bool;
  aux_data : bcm_db;
  bcm_list : link;
  bcm_ws_list : link;
  voter_idx : nat;
  bcm_nodes : list Z;
}.

(** struct bcm_voter; the lists hold BCMs from their heads.  [vt_dev] names the controller
    its device belongs to. *)
Record bcm_voter := BcmVoter {
  vt_dev : Z;
  vt_np : Z;
  commit_list : list Z;
  ws_list : list Z;
  tcs_wait : Z;
  vt_init : bool;
}.

(** The part of struct qcom_icc_provider the operations use; a voter is NULL or an object. *)
Record qcom_icc_provider := IccProvider { qp_voters : list (option Z) }.

(** The objects by address, the list of voters, the controllers below them, the command
    database, and the calls of [set_qos], which program registers. *)
Record icc := Icc {
  icc_nodes : gmap Z qcom_icc_node;
  icc_bcms : gmap Z qcom_icc_bcm;
  icc_voters : gmap Z bcm_voter;
  bcm_voters : list Z;
  ctrlrs : gmap Z rpmh;
  cmd_db : mem;
  cmd_db_header : option Z;
  qos_set : list Z;
}.

Definition set_nodes (f : gmap Z qcom_icc_node -> gmap Z qcom_icc_node) (w : icc) : icc :=
  Icc (f (icc_nodes w)) (icc_bcms w) (icc_voters w) (bcm_voters w) (ctrlrs w) (cmd_db w)
    (cmd_db_header w) (qos_set w).
Definition set_bcms (f : gmap Z qcom_icc_bcm -> gmap Z qcom_icc_bcm) (w : icc) : icc :=
  Icc (icc_nodes w) (f (icc_bcms w)) (icc_voters w) (bcm_voters w) (ctrlrs w) (cmd_db w)
    (cmd_db_header w) (qos_set w).
Definition set_voters (f : gmap Z bcm_voter -> gmap Z bcm_voter) (w : icc) : icc :=
  Icc (icc_nodes w) (icc_bcms w) (f (icc_voters w)) (bcm_voters w) (ctrlrs w) (cmd_db w)
    (cmd_db_header w) (qos_set w).
Definition set_voter_list (l : list Z) (w : icc) : icc :=
  Icc (icc_nodes w) (icc_bcms w) (icc_voters w) l (ctrlrs w) (cmd_db w) (cmd_db_header w) (qos_set w).
Definition set_ctrlr (d : Z) (r : rpmh) (w : icc) : icc :=
  Icc (icc_nodes w) (icc_bcms w) (icc_voters w) (bcm_voters w) (<[d := r]> (ctrlrs w)) (cmd_db w)
    (cmd_db_header w) (qos_set w).
Definition add_qos (n : Z) (w : icc) : icc :=
  Icc (icc_nodes w) (icc_bcms w) (icc_voters w) (bcm_voters w) (ctrlrs w) (cmd_db w)
    (cmd_db_header w) (qos_set w ++ [n]).

(** An access to an object that is not there is a fault. *)
Definition the_node (p : Z) : ST icc qcom_icc_node :=
  fun w => match icc_nodes w !! p with Some n => Ok (n, w) | None => Fault end.
Definition the_bcm (p : Z) : ST icc qcom_icc_bcm :=
  fun w => match icc_bcms w !! p with Some b => Ok (b, w) | None => Fault end.
Definition the_voter (p : Z) : ST icc bcm_voter :=
  fun w => match icc_voters w !! p with Some v => Ok (v, w) | None => Fault end.
Definition put_node (p : Z) (n : qcom_icc_node) : ST icc unit := st_upd (set_nodes (<[p := n]>)).
Definition put_bcm (p : Z) (b : qcom_icc_bcm) : ST icc unit := st_upd (set_bcms (<[p := b]>)).
Definition put_voter (p : Z) (v : bcm_voter) : ST icc unit := st_upd (set_voters (<[p := v]>)).

(** A call of the voting library on the controller of a device. *)
Definition on_rpmh {A} (d : Z) (c : ST rpmh A) : ST icc A :=
  fun w => match ctrlrs w !! d with
           | None => Fault
           | Some r => match c r with
                       | Ok (a, r) => Ok (a, set_ctrlr d r w)
                       | Fault => Fault
                       | Loop => Loop
                       end
           end.

(** A read of the command database. *)
Definition on_db {A} (c : ST mem A) : ST icc A :=
  fun w => match c (cmd_db w) with
           | Ok (a, _) => Ok (a, w)
           | Fault => Fault
           | Loop => Loop
           end.

Definition with_link (b : qcom_icc_bcm) (l : link) : qcom_icc_bcm :=
  IccBcm (bcm_name b) (bcm_addr b) (vote_x b) (vote_y b) (vote_scale b) (keepalive b) (aux_data b)
    l (bcm_ws_list b) (voter_idx b) (bcm_nodes b).
Definition with_ws (b : qcom_icc_bcm) (l : link) : qcom_icc_bcm :=
  IccBcm (bcm_name b) (bcm_addr b) (vote_x b) (vote_y b) (vote_scale b) (keepalive b) (aux_data b)
    (bcm_list b) l (voter_idx b) (bcm_nodes b).
Definition with_votes (b : qcom_icc_bcm) (x y : list Z) : qcom_icc_bcm :=
  IccBcm (bcm_name b) (bcm_addr b) x y (vote_scale b) (keepalive b) (aux_data b)
    (bcm_list b) (bcm_ws_list b) (voter_idx b) (bcm_nodes b).
Definition with_commit (v : bcm_voter) (l : list Z) : bcm_voter :=
  BcmVoter (vt_dev v) (vt_np v) l (ws_list v) (tcs_wait v) (vt_init v).
Definition with_wslist (v : bcm_voter) (l : list Z) : bcm_voter :=
  BcmVoter (vt_dev v) (vt_np v) (commit_list v) l (tcs_wait v) (vt_init v).

(** ** Aggregation *)

(** The sums of a node for a new round. *)
Definition qcom_icc_pre_aggregate (p : Z) : ST icc unit :=
  let! qn := the_node p in
  put_node p (IccNode (channels qn) (buswidth qn) (replicate QCOM_ICC_NUM_BUCKETS 0)
                (replicate QCOM_ICC_NUM_BUCKETS 0) (nd_bcms qn) (nd_qos qn)).

(** The loop over the buckets from [i] on, [n] of them. *)
Fixpoint add_request (n i : nat) (tag avg_bw peak_bw : Z) (qn : qcom_icc_node) : qcom_icc_node :=
  match n with
  | O => qn
  | S n =>
    let qn := if negb (Z.land tag (BIT (Z.of_nat i)) =? 0) then
        IccNode (channels qn) (buswidth qn)
          (alter (fun s => u64 (s + avg_bw)) i (sum_avg qn))
          (alter (fun m => Z.max (u32 m) peak_bw) i (max_peak qn)) (nd_bcms qn) (nd_qos qn)
      else qn in
    add_request n (S i) tag avg_bw peak_bw qn
  end.

(** The links point to themselves or into the list. *)
Definition qcom_icc_bcm_voter_add (voter : option Z) (p : Z) : ST icc unit :=
  match voter with
  | None => st_ret tt
  | Some vp =>
    let! bcm := the_bcm p in
    let! voter := the_voter vp in
    (if list_empty (bcm_list bcm) then
       put_bcm p (with_link bcm Linked) ;;; put_voter vp (with_commit voter (commit_list voter ++ [p]))
     else st_ret tt) ;;;
    let! bcm := the_bcm p in
    let! voter := the_voter vp in
    if list_empty (bcm_ws_list bcm) then
      put_bcm p (with_ws bcm Linked) ;;; put_voter vp (with_wslist voter (ws_list voter ++ [p]))
    else st_ret tt
  end.

Fixpoint add_bcms (qp : qcom_icc_provider) (l : list Z) : ST icc unit :=
  match l with
  | [] => st_ret tt
  | p :: l =>
    let! bcm := the_bcm p in
    match qp_voters qp !! voter_idx bcm with
    | None => fun _ => Fault
    | Some voter => qcom_icc_bcm_voter_add voter p ;;; add_bcms qp l
    end
  end.

(** Returns 0 and the new [agg_avg] and [agg_peak]. *)
Definition qcom_icc_aggregate (qp : qcom_icc_provider) (p tag avg_bw peak_bw agg_avg agg_peak : Z)
    : ST icc (Z * Z * Z) :=
  let! qn := the_node p in
  let tag := if tag =? 0 then QCOM_ICC_TAG_ALWAYS else tag in
  put_node p (add_request QCOM_ICC_NUM_BUCKETS 0 tag avg_bw peak_bw qn) ;;;
  let! qn := the_node p in
  add_bcms qp (nd_bcms qn) ;;;
  st_ret (0, u32 (agg_avg + avg_bw), Z.max agg_peak peak_bw).

(** ** Votes *)

(** [do_div] takes a 32-bit divisor. *)
Definition bcm_div (num base : Z) : res Z :=
  if negb (num =? 0) && (num <? base) then Ok 1 else
  if u32 base =? 0 then Fault else Ok (num / u32 base).

(** The loop over the nodes of a BCM in one bucket: the largest average and peak so far. *)
Fixpoint agg_nodes (l : list Z) (bcm_width : Z) (bucket : nat) (avg peak : Z) : ST icc (Z * Z) :=
  match l with
  | [] => st_ret (avg, peak)
  | p :: l =>
    let! node := the_node p in
    let! temp := st_lift (bcm_div (u64 (nth bucket (sum_avg node) 0 * bcm_width))
                            (u64 (s32 (buswidth node * channels node)))) in
    let avg := Z.max avg temp in
    let! temp := st_lift (bcm_div (u64 (nth bucket (max_peak node) 0 * bcm_width)) (buswidth node)) in
    let peak := Z.max peak temp in
    agg_nodes l bcm_width bucket avg peak
  end.

(** The loop over the buckets from [bucket] on, [n] of them. *)
Fixpoint agg_buckets (n bucket : nat) (p : Z) : ST icc unit :=
  match n with
  | O => st_ret tt
  | S n =>
    let! bcm := the_bcm p in
    let! agg := agg_nodes (bcm_nodes bcm) (width (aux_data bcm)) bucket 0 0 in
    let! x := st_lift (bcm_div (u64 (agg.1 * vote_scale bcm)) (unit_ (aux_data bcm))) in
    let! y := st_lift (bcm_div (u64 (agg.2 * vote_scale bcm)) (unit_ (aux_data bcm))) in
    put_bcm p (with_votes bcm (<[bucket := x]> (vote_x bcm)) (<[bucket := y]> (vote_y bcm))) ;;;
    agg_buckets n (S bucket) p
  end.

(** The votes for the active and the wake bucket set to [v]. *)
Definition keep_votes (v : Z) (l : list Z) : list Z :=
  <[QCOM_ICC_BUCKET_WAKE := v]> (<[QCOM_ICC_BUCKET_AMC := v]> l).

Definition bcm_aggregate (p : Z) (init : bool) : ST icc unit :=
  agg_buckets QCOM_ICC_NUM_BUCKETS 0 p ;;;
  let! bcm := the_bcm p in
  if keepalive bcm then
    if init then put_bcm p (with_votes bcm (keep_votes 16000 (vote_x bcm)) (keep_votes 16000 (vote_y bcm)))
    else if (nth QCOM_ICC_BUCKET_AMC (vote_x bcm) 0 =? 0) && (nth QCOM_ICC_BUCKET_AMC (vote_y bcm) 0 =? 0)
    then put_bcm p (with_votes bcm (keep_votes 1 (vote_x bcm)) (keep_votes 1 (vote_y bcm)))
    else st_ret tt
  else st_ret tt.

Section votes.
Context `{BcmAbi} `{TcsAbi}.

Definition tcs_cmd_gen (x y addr : Z) (commit wait : bool) : tcs_cmd :=
  let valid := negb ((x =? 0) && (y =? 0)) in
  let x := if x >? BCM_TCS_CMD_VOTE_MASK then BCM_TCS_CMD_VOTE_MASK else x in
  let y := if y >? BCM_TCS_CMD_VOTE_MASK then BCM_TCS_CMD_VOTE_MASK else y in
  Cmd addr (BCM_TCS_CMD commit valid x y) wait.

(** The loop of [tcs_list_gen] over the rest of the list: the arrays of commands and counts,
    whose bounds it must keep, and its local variables. *)
Fixpoint list_gen_loop (l : list qcom_icc_bcm) (tcs_wait : Z) (bucket : nat)
    (cmds : list tcs_cmd) (n : list Z) (idx batch : nat) (cur_vcd_size : Z)
    : res (list tcs_cmd * list Z) :=
  match l with
  | [] => Ok (cmds, n)
  | bcm :: l =>
    let commit := match l with
                  | [] => true
                  | next :: _ => negb (vcd (aux_data bcm) =? vcd (aux_data next))
                  end in
    let cur_vcd_size := if commit then 0 else cur_vcd_size + 1 in
    let wait := commit && negb (Z.land tcs_wait (BIT (Z.of_nat bucket)) =? 0) in
    match cmds !! idx, n !! batch with
    | Some _, Some k =>
      let cmds := <[idx := tcs_cmd_gen (nth bucket (vote_x bcm) 0) (nth bucket (vote_y bcm) 0)
                             (bcm_addr bcm) commit wait]> cmds in
      let n := <[batch := k + 1]> n in
      if k + 1 >=? MAX_RPMH_PAYLOAD then
        if commit then list_gen_loop l tcs_wait bucket cmds n (S idx) (S batch) cur_vcd_size else
        match n !! S batch with
        | None => Fault
        | Some _ =>
          list_gen_loop l tcs_wait bucket cmds
            (<[S batch := cur_vcd_size]> (<[batch := cur_vcd_size]> n)) (S idx) (S batch) cur_vcd_size
        end
      else list_gen_loop l tcs_wait bucket cmds n (S idx) batch cur_vcd_size
    | _, _ => Fault
    end
  end.

Definition tcs_list_gen (l : list qcom_icc_bcm) (tcs_wait : Z) (bucket : nat) (cmds : list tcs_cmd)
    : res (list tcs_cmd * list Z) :=
  list_gen_loop l tcs_wait bucket cmds (replicate MAX_VCD 0) 0 0 0.
End votes.

(** ** Voters *)

(** Lowest VCD first. *)
Definition cmp_vcd (a b : qcom_icc_bcm) : Z :=
  if vcd (aux_data a) <? vcd (aux_data b) then -1 else
  if vcd (aux_data a) =? vcd (aux_data b) then 0 else 1.

(** The BCMs of a list, with their addresses. *)
Fixpoint get_bcms (l : list Z) : ST icc (list (Z * qcom_icc_bcm)) :=
  match l with
  | [] => st_ret []
  | p :: l =>
    let! bcm := the_bcm p in
    let! bs := get_bcms l in
    st_ret ((p, bcm) :: bs)
  end.

Fixpoint agg_list (l : list Z) (init : bool) : ST icc unit :=
  match l with
  | [] => st_ret tt
  | p :: l => bcm_aggregate p init ;;; agg_list l init
  end.

(** [list_del_init] on every BCM of the list. *)
Fixpoint unlink_list (l : list Z) : ST icc unit :=
  match l with
  | [] => st_ret tt
  | p :: l =>
    let! bcm := the_bcm p in
    put_bcm p (with_link bcm Unlinked) ;;;
    unlink_list l
  end.

(** The loop that empties the commit list. *)
Definition clear_commit (vp : Z) : ST icc unit :=
  let! voter := the_voter vp in
  unlink_list (commit_list voter) ;;;
  put_voter vp (with_commit voter []).

(** The wake and the sleep votes of a BCM differ. *)
Definition ws_differ (bcm : qcom_icc_bcm) : bool :=
  negb (nth QCOM_ICC_BUCKET_WAKE (vote_x bcm) 0 =? nth QCOM_ICC_BUCKET_SLEEP (vote_x bcm) 0) ||
  negb (nth QCOM_ICC_BUCKET_WAKE (vote_y bcm) 0 =? nth QCOM_ICC_BUCKET_SLEEP (vote_y bcm) 0).

(** The loop over the list of wake and sleep votes. *)
Fixpoint ws_loop (l : list Z) (vp : Z) : ST icc unit :=
  match l with
  | [] => st_ret tt
  | p :: l =>
    let! bcm := the_bcm p in
    let! voter := the_voter vp in
    (if ws_differ bcm then
       put_bcm p (with_link bcm Linked) ;;;
       put_voter vp (with_commit voter (commit_list voter ++ [p]))
     else
       put_bcm p (with_ws bcm Unlinked) ;;;
       put_voter vp (with_wslist voter (filter (fun q => q <> p) (ws_list voter)))) ;;;
    ws_loop l vp
  end.

Section commit.
Context `{TcsAbi} `{BitmapArea} `{BcmAbi} `{ListSort}.
(** What acts during the busy loops and the waits of the voting library. *)
Context (fuel : nat) (env wenv : nat -> rsc_drv -> rsc_drv).

Definition sort_commit (vp : Z) : ST icc unit :=
  let! voter := the_voter vp in
  let! l := get_bcms (commit_list voter) in
  put_voter vp (with_commit voter (fst <$> list_sort (fun a b => cmp_vcd a.2 b.2) l)).

(** The commands for the commit list in a bucket. *)
Definition gen_commit (vp : Z) (bucket : nat) (cmds : list tcs_cmd) : ST icc (list tcs_cmd * list Z) :=
  let! voter := the_voter vp in
  let! l := get_bcms (commit_list voter) in
  st_lift (tcs_list_gen (snd <$> l) (tcs_wait voter) bucket cmds).

(** The active votes: the error to leave with, or the result of the batch and the array of
    commands.  [cmds] is the array as it is on the stack. *)
Definition commit_amc (vp : Z) (cmds : list tcs_cmd) : ST icc (Z + Z * list tcs_cmd) :=
  let! voter := the_voter vp in
  agg_list (commit_list voter) (vt_init voter) ;;;
  sort_commit vp ;;;
  let! r := gen_commit vp QCOM_ICC_BUCKET_AMC cmds in
  if nth 0 r.2 0 =? 0 then st_ret (inl 0) else
  let! ret := on_rpmh (vt_dev voter) (rpmh_invalidate fuel env) in
  if negb (ret =? 0) then st_ret (inl ret) else
  let! ret := on_rpmh (vt_dev voter)
    (rpmh_write_batch fuel env wenv RPMH_ACTIVE_ONLY_STATE (Some r.1) (Some r.2)) in
  if negb (ret =? 0) && negb (ret =? - EBUSY) then st_ret (inl ret) else st_ret (inr (ret, r.1)).

(** One batch of wake or sleep votes. *)
Definition send_bucket (vp : Z) (bucket : nat) (st : rpmh_state) (cmds : list tcs_cmd)
    : ST icc (Z * list tcs_cmd) :=
  let! r := gen_commit vp bucket cmds in
  let! voter := the_voter vp in
  let! ret := on_rpmh (vt_dev voter) (rpmh_write_batch fuel env wenv st (Some r.1) (Some r.2)) in
  st_ret (ret, r.1).

(** The rest of the commit up to the label [out]; [ret] is the result of the active votes. *)
Definition commit_ws (vp : Z) (ret : Z) (cmds : list tcs_cmd) : ST icc Z :=
  clear_commit vp ;;;
  let! voter := the_voter vp in
  ws_loop (ws_list voter) vp ;;;
  let! voter := the_voter vp in
  if bool_decide (commit_list voter = []) then st_ret ret else
  sort_commit vp ;;;
  let! r := send_bucket vp QCOM_ICC_BUCKET_WAKE RPMH_WAKE_ONLY_STATE cmds in
  if negb (r.1 =? 0) then st_ret r.1 else
  let! r := send_bucket vp QCOM_ICC_BUCKET_SLEEP RPMH_SLEEP_STATE r.2 in
  st_ret r.1.

Definition qcom_icc_bcm_voter_commit (voter : option Z) (cmds : list tcs_cmd) : ST icc Z :=
  match voter with
  | None => st_ret 0
  | Some vp =>
    let! r := commit_amc vp cmds in
    let! ret := match r with
                | inl ret => st_ret ret
                | inr (ret, cmds) => commit_ws vp ret cmds
                end in
    clear_commit vp ;;;
    st_ret ret
  end.

(** The core's node: its data and its bandwidths. *)
Record icc_node := IccCoreNode {
  in_provider : qcom_icc_provider;
  in_data : option Z;
  in_avg_bw : Z;
  in_peak_bw : Z;
}.

Fixpoint commit_voters (l : list (option Z)) (cmds : list tcs_cmd) : ST icc unit :=
  match l with
  | [] => st_ret tt
  | v :: l => let! _ := qcom_icc_bcm_voter_commit v cmds in commit_voters l cmds
  end.

(** [clk] is the answer of [clk_bulk_prepare_enable]. *)
Definition qcom_icc_set (src : option icc_node) (dst : icc_node) (clk : Z) (cmds : list tcs_cmd)
    : ST icc Z :=
  let node := default dst src in
  commit_voters (qp_voters (in_provider node)) cmds ;;;
  match in_data node with
  | None => st_ret 0
  | Some p =>
    let! qn := the_node p in
    match nd_qos qn with
    | Some false =>
      if (in_avg_bw node =? 0) && (in_peak_bw node =? 0) then st_ret 0 else
      if negb (clk =? 0) then st_ret clk else
      st_upd (add_qos p) ;;;
      put_node p (IccNode (channels qn) (buswidth qn) (sum_avg qn) (max_peak qn) (nd_bcms qn) (Some true)) ;;;
      st_ret 0
    | _ => st_ret 0
    end
  end.
End commit.

Definition qcom_icc_bcm_voter_clear_init (voter : option Z) : ST icc unit :=
  match voter with
  | None => st_ret tt
  | Some vp =>
    let! v := the_voter vp in
    put_voter vp (BcmVoter (vt_dev v) (vt_np v) (commit_list v) (ws_list v) (tcs_wait v) false)
  end.

(** The first voter of the node, from the head of the list. *)
Fixpoint find_voter (l : list Z) (np : Z) : ST icc (Z + Z) :=
  match l with
  | [] => st_ret (inl (- EPROBE_DEFER))
  | p :: l =>
    let! v := the_voter p in
    if vt_np v =? np then st_ret (inr p) else find_voter l np
  end.

(** [has_node] is whether the device is there and has a node; [idx] the answer of the search
    for the name when there is one, [phandle] the node an index refers to. *)
Definition of_bcm_voter_get (has_node : bool) (idx : option Z) (phandle : Z -> Z) : ST icc (Z + Z) :=
  if negb has_node then st_ret (inl (- ENODEV)) else
  let i := default 0 idx in
  if i <? 0 then st_ret (inl i) else
  let! l := st_get bcm_voters in
  find_voter l (phandle i).

(** [alloc] is the answer of the allocator, [wait] the property qcom,tcs-wait. *)
Definition qcom_icc_bcm_voter_probe (alloc : option Z) (dev np : Z) (wait : option Z) : ST icc Z :=
  match alloc with
  | None => st_ret (- ENOMEM)
  | Some p =>
    put_voter p (BcmVoter dev np [] [] (default QCOM_ICC_TAG_ACTIVE_ONLY wait) true) ;;;
    let! l := st_get bcm_voters in
    st_upd (set_voter_list (l ++ [p])) ;;;
    st_ret 0
  end.

(** The loop over the nodes of a BCM: the array of a node has [MAX_BCM_PER_NODE] places. *)
Fixpoint link_nodes (l : list Z) (p : Z) : ST icc unit :=
  match l with
  | [] => st_ret tt
  | np :: l =>
    let! qn := the_node np in
    if (length (nd_bcms qn) <? MAX_BCM_PER_NODE)%nat then
      put_node np (IccNode (channels qn) (buswidth qn) (sum_avg qn) (max_peak qn)
                     (nd_bcms qn ++ [p]) (nd_qos qn)) ;;;
      link_nodes l p
    else fun _ => Fault
  end.

Definition with_addr (b : qcom_icc_bcm) (a : Z) : qcom_icc_bcm :=
  IccBcm (bcm_name b) a (vote_x b) (vote_y b) (vote_scale b) (keepalive b) (aux_data b)
    (bcm_list b) (bcm_ws_list b) (voter_idx b) (bcm_nodes b).

(** The fields of struct bcm_db at an address of the database. *)
Definition read_bcm_db (data : Z) : ST mem bcm_db :=
  let! u := load 4 data in
  let! w := load 2 (data + 4) in
  let! v := load 1 (data + 6) in
  let! r := load 1 (data + 7) in
  st_ret (BcmDb u w v r).

Definition qcom_icc_bcm_init (p : Z) : ST icc Z :=
  let! bcm := the_bcm p in
  if negb (bcm_addr bcm =? 0) then st_ret 0 else
  let! hdr := st_get cmd_db_header in
  let! addr := on_db (cmd_db_read_addr hdr (bcm_name bcm)) in
  let bcm := with_addr bcm addr in
  put_bcm p bcm ;;;
  if addr =? 0 then st_ret (- EINVAL) else
  let! data := on_db (cmd_db_read_aux_data hdr (bcm_name bcm)) in
  match data with
  | inl ret => st_ret ret
  | inr (data, data_count) =>
    if data_count =? 0 then st_ret (- EINVAL) else
    let! db := on_db (read_bcm_db data) in
    put_bcm p (IccBcm (bcm_name bcm) (bcm_addr bcm) (vote_x bcm) (vote_y bcm)
                 (if vote_scale bcm =? 0 then 1000 else vote_scale bcm) (keepalive bcm) db
                 Unlinked Unlinked (voter_idx bcm) (bcm_nodes bcm)) ;;;
    link_nodes (bcm_nodes bcm) p ;;;
    st_ret 0
  end.
