(* ===== verification/IccVotes.v ===== *)
(** * From requests to votes

    The sums of a node are the requests of its clients by bucket, and the votes of a BCM are a
    function of the sums of its nodes. *)
From S2P Require Import Prelude CMem CmdDb RpmhRsc Rpmh Icc.

(** ** Sums of requests *)

(** A request: the tag, the average and the peak. *)
Record request := Request { rq_tag : Z; rq_avg : Z; rq_peak : Z }.

(** The request counts for bucket [i]; no tag is every bucket. *)
Definition tagged (i : nat) (r : request) : bool :=
  (rq_tag r =? 0) || Z.testbit (rq_tag r) (Z.of_nat i).

Definition total_avg (i : nat) (rs : list request) : Z :=
  foldr Z.add 0 (rq_avg <$> filter (fun r => tagged i r = true) rs).
Definition total_peak (i : nat) (rs : list request) : Z :=
  foldr Z.max 0 (rq_peak <$> filter (fun r => tagged i r = true) rs).

Definition request_ok (r : request) : Prop :=
  0 <= rq_tag r /\ 0 <= rq_avg r < 2 ^ 32 /\ 0 <= rq_peak r < 2 ^ 32.

Definition buckets_of (f : nat -> Z) : list Z := f <$> seq 0 QCOM_ICC_NUM_BUCKETS.

(** The node with the sums of the requests. *)
Definition summed (qn : qcom_icc_node) (rs : list request) : qcom_icc_node :=
  IccNode (channels qn) (buswidth qn) (buckets_of (fun i => u64 (total_avg i rs)))
    (buckets_of (fun i => total_peak i rs)) (nd_bcms qn) (nd_qos qn).

Lemma total_avg_snoc i rs r :
  total_avg i (rs ++ [r]) = total_avg i rs + if tagged i r then rq_avg r else 0.
Proof.
  unfold total_avg. rewrite filter_app, fmap_app, foldr_app, filter_cons, filter_nil.
  assert (G : forall l z, foldr Z.add z l = foldr Z.add 0 l + z).
  { induction l as [|x l IH]; intros z; cbn; [lia|]. rewrite IH. lia. }
  rewrite (G _ (foldr _ _ _)). destruct (tagged i r) eqn:Ht.
  - rewrite decide_True by done. cbn. lia.
  - rewrite decide_False by done. cbn. lia.
Qed.

Lemma total_peak_snoc i rs r : Forall request_ok (rs ++ [r]) ->
  total_peak i (rs ++ [r]) = if tagged i r then Z.max (total_peak i rs) (rq_peak r) else total_peak i rs.
Proof.
  intros [_ Hr%Forall_inv]%Forall_app. destruct Hr as (_&_&Hp).
  unfold total_peak. rewrite filter_app, fmap_app, foldr_app, filter_cons, filter_nil.
  assert (G : forall l z, 0 <= z -> foldr Z.max z l = Z.max (foldr Z.max 0 l) z).
  { induction l as [|x l IH]; intros z Hz; cbn; [lia|]. rewrite IH by done. lia. }
  destruct (tagged i r) eqn:Ht.
  - rewrite decide_True by done. cbn. rewrite G by lia. lia.
  - by rewrite decide_False.
Qed.

Lemma total_peak_range i rs : Forall request_ok rs -> 0 <= total_peak i rs < 2 ^ 32.
Proof.
  unfold total_peak. induction 1 as [|r rs (_&_&Hp) _ IH]; [cbn; lia|].
  rewrite filter_cons. case_decide; cbn; lia.
Qed.

(** The test of a bit in the loop, with the default tag. *)
Lemma tag_bit i r : 0 <= rq_tag r -> (i < QCOM_ICC_NUM_BUCKETS)%nat ->
  negb (Z.land (if rq_tag r =? 0 then QCOM_ICC_TAG_ALWAYS else rq_tag r) (BIT (Z.of_nat i)) =? 0) = tagged i r.
Proof.
  intros Ht Hi. unfold tagged. destruct (rq_tag r =? 0) eqn:E.
  - unfold QCOM_ICC_NUM_BUCKETS in Hi. destruct i as [|[|[|i]]]; [done..|lia].
  - cbn [orb]. unfold BIT. rewrite Z.shiftl_1_l. destruct (Z.testbit (rq_tag r) (Z.of_nat i)) eqn:B; cbn [negb].
    + assert (Hn : Z.land (rq_tag r) (2 ^ Z.of_nat i) <> 0); [|lia]. intros H0.
      apply (f_equal (fun z => Z.testbit z (Z.of_nat i))) in H0.
      rewrite Z.land_spec, B, Z.pow2_bits_true, Z.bits_0 in H0 by lia. done.
    + assert (H0 : Z.land (rq_tag r) (2 ^ Z.of_nat i) = 0); [|lia]. apply Z.bits_inj'. intros n Hn.
      rewrite Z.land_spec, Z.bits_0, Z.pow2_bits_eqb by lia.
      destruct (Z.of_nat i =? n) eqn:En; [|by rewrite andb_false_r].
      replace n with (Z.of_nat i) by lia. by rewrite B.
Qed.

Lemma add_request_summed qn rs r : Forall request_ok (rs ++ [r]) ->
  add_request QCOM_ICC_NUM_BUCKETS 0 (if rq_tag r =? 0 then QCOM_ICC_TAG_ALWAYS else rq_tag r)
    (rq_avg r) (rq_peak r) (summed qn rs) = summed qn (rs ++ [r]).
Proof.
  intros Hr. pose proof Hr as [Hrs (Ht&Ha&Hp)%Forall_inv]%Forall_app.
  set (tag := if rq_tag r =? 0 then QCOM_ICC_TAG_ALWAYS else rq_tag r).
  assert (T : forall i, (i < QCOM_ICC_NUM_BUCKETS)%nat -> negb (Z.land tag (BIT (Z.of_nat i)) =? 0) = tagged i r)
    by (intros; by apply tag_bit).
  assert (A : forall i, u64 (u64 (total_avg i rs) + rq_avg r) = u64 (total_avg i rs + rq_avg r))
    by (intros; unfold u64; by rewrite Zplus_mod_idemp_l).
  assert (Pk : forall i, u32 (total_peak i rs) = total_peak i rs)
    by (intros; apply u32_id, total_peak_range, Hrs).
  unfold QCOM_ICC_NUM_BUCKETS in *. cbn [add_request]. rewrite !T by lia.
  unfold summed, buckets_of, QCOM_ICC_NUM_BUCKETS. cbn [seq fmap list_fmap].
  rewrite !total_avg_snoc, !(total_peak_snoc _ _ _ Hr).
  destruct (tagged 0 r), (tagged 1 r), (tagged 2 r); cbn; by rewrite ?A, ?Pk, ?Z.add_0_r.
Qed.

(** ** Votes *)

(** Rounds down, but not to zero. *)
Definition scaled (num base : Z) : Z := if negb (num =? 0) && (num <? base) then 1 else num / base.

Lemma bcm_div_ok num base : 0 < base < 2 ^ 32 -> bcm_div num base = Ok (scaled num base).
Proof.
  intros Hb. unfold bcm_div, scaled. case_if; [done|]. rewrite u32_id by lia. by solve_ifs.
Qed.

Lemma scaled_nonneg num base : 0 <= num -> 0 < base -> 0 <= scaled num base.
Proof. intros. unfold scaled. case_if; [lia|]. by apply Z.div_pos. Qed.

Lemma scaled_le num base : 0 <= num -> 0 < base -> scaled num base <= num.
Proof.
  intros. unfold scaled. destruct (num =? 0) eqn:E; cbn [negb andb].
  - replace num with 0 by lia. by rewrite Z.div_0_l by lia.
  - case_if; [lia|]. apply Z.div_le_upper_bound; nia.
Qed.

(** Never less than the quotient, and positive when there is anything to vote for. *)
Lemma scaled_ge num base : 0 <= num -> 0 < base -> num / base <= scaled num base.
Proof. intros. unfold scaled. case_if; [|lia]. rewrite Z.div_small; lia. Qed.

Lemma scaled_pos num base : 0 < num -> 0 < base -> 0 < scaled num base.
Proof.
  intros. unfold scaled. case_if; [lia|]. apply Z.div_str_pos. lia.
Qed.

Lemma scaled_mono n1 n2 base : 0 <= n1 <= n2 -> 0 < base -> scaled n1 base <= scaled n2 base.
Proof.
  intros Hn Hb. destruct (decide (n1 = 0)) as [->|].
  - unfold scaled at 1. cbn [Z.eqb negb andb]. rewrite Z.div_0_l by lia. apply scaled_nonneg; lia.
  - pose proof (scaled_pos n2 base). pose proof (scaled_ge n2 base).
    unfold scaled at 1. case_if; [lia|]. assert (n1 / base <= n2 / base) by (apply Z.div_le_mono; lia). lia.
Qed.

Record node_ok (nd : qcom_icc_node) : Prop := {
  no_width : 0 < buswidth nd < 2 ^ 16;
  no_channels : 0 < channels nd < 2 ^ 16;
  no_product : buswidth nd * channels nd < 2 ^ 31;
  no_lengths : length (sum_avg nd) = QCOM_ICC_NUM_BUCKETS /\ length (max_peak nd) = QCOM_ICC_NUM_BUCKETS;
  no_sums : Forall (fun s => 0 <= s) (sum_avg nd) /\ Forall (fun s => 0 <= s) (max_peak nd);
}.

Record bcm_ok (b : qcom_icc_bcm) : Prop := {
  bk_unit : 0 < unit_ (aux_data b) < 2 ^ 32;
  bk_width : 0 <= width (aux_data b) < 2 ^ 16;
  bk_scale : 0 < vote_scale b;
  bk_votes : length (vote_x b) = QCOM_ICC_NUM_BUCKETS /\ length (vote_y b) = QCOM_ICC_NUM_BUCKETS;
}.

(** What a node asks of a BCM of width [w] in bucket [i]. *)
Definition avg_share (w : Z) (i : nat) (nd : qcom_icc_node) : Z :=
  scaled (u64 (nth i (sum_avg nd) 0 * w)) (buswidth nd * channels nd).
Definition peak_share (w : Z) (i : nat) (nd : qcom_icc_node) : Z :=
  scaled (u64 (nth i (max_peak nd) 0 * w)) (buswidth nd).

Definition largest (f : qcom_icc_node -> Z) (nds : list qcom_icc_node) : Z := foldr Z.max 0 (f <$> nds).

Lemma largest_nonneg f nds : 0 <= largest f nds.
Proof. unfold largest. induction nds; cbn; lia. Qed.

Lemma largest_ge f nds nd : nd ∈ nds -> f nd <= largest f nds.
Proof. unfold largest. induction 1; cbn; lia. Qed.

(** The votes of a BCM with these nodes in bucket [i], before a keepalive. *)
Definition raw_x (b : qcom_icc_bcm) (nds : list qcom_icc_node) (i : nat) : Z :=
  scaled (u64 (largest (avg_share (width (aux_data b)) i) nds * vote_scale b)) (unit_ (aux_data b)).
Definition raw_y (b : qcom_icc_bcm) (nds : list qcom_icc_node) (i : nat) : Z :=
  scaled (u64 (largest (peak_share (width (aux_data b)) i) nds * vote_scale b)) (unit_ (aux_data b)).

(** The vote a BCM keeps alive in the active and wake buckets. *)
Definition kept (b : qcom_icc_bcm) (init : bool) (x y : Z) : option Z :=
  if keepalive b then
    if init then Some 16000 else if (x =? 0) && (y =? 0) then Some 1 else None
  else None.

Definition final (b : qcom_icc_bcm) (init : bool) (nds : list qcom_icc_node)
    (raw : qcom_icc_bcm -> list qcom_icc_node -> nat -> Z) (i : nat) : Z :=
  match kept b init (raw_x b nds QCOM_ICC_BUCKET_AMC) (raw_y b nds QCOM_ICC_BUCKET_AMC) with
  | Some v => if bool_decide (i = QCOM_ICC_BUCKET_SLEEP) then raw b nds i else v
  | None => raw b nds i
  end.

(** The BCM with its new votes. *)
Definition voted (b : qcom_icc_bcm) (init : bool) (nds : list qcom_icc_node) : qcom_icc_bcm :=
  with_votes b (buckets_of (final b init nds raw_x)) (buckets_of (final b init nds raw_y)).

(** The nodes of a BCM. *)
Definition nodes_of (w : icc) (b : qcom_icc_bcm) (nds : list qcom_icc_node) : Prop :=
  Forall2 (fun p nd => icc_nodes w !! p = Some nd) (bcm_nodes b) nds /\ Forall node_ok nds.

Lemma the_node_ok p n w : icc_nodes w !! p = Some n -> the_node p w = Ok (n, w).
Proof. unfold the_node. by intros ->. Qed.
Lemma the_bcm_ok p b w : icc_bcms w !! p = Some b -> the_bcm p w = Ok (b, w).
Proof. unfold the_bcm. by intros ->. Qed.
Lemma the_voter_ok p v w : icc_voters w !! p = Some v -> the_voter p w = Ok (v, w).
Proof. unfold the_voter. by intros ->. Qed.

Lemma agg_nodes_exec w bw i : forall l nds avg peak,
  Forall2 (fun p nd => icc_nodes w !! p = Some nd) l nds -> Forall node_ok nds ->
  agg_nodes l bw i avg peak w =
    Ok ((foldl Z.max avg (avg_share bw i <$> nds), foldl Z.max peak (peak_share bw i <$> nds)), w).
Proof.
  induction l as [|p l IH]; intros nds avg peak Hn Hok.
  { by apply Forall2_nil_inv_l in Hn as ->. }
  apply Forall2_cons_inv_l in Hn as (nd&nds'&Hp&Hn&->). apply Forall_cons in Hok as [Hnd Hok]. cbn [agg_nodes].
  rewrite (st_bind_ok _ _ _ _ _ (the_node_ok _ _ _ Hp)).
  pose proof (no_width _ Hnd). pose proof (no_channels _ Hnd). pose proof (no_product _ Hnd).
  rewrite (s32_id (buswidth nd * channels nd)), (u64_id (buswidth nd * channels nd)) by nia.
  erewrite st_bind_ok by (apply st_lift_ok, bcm_div_ok; nia).
  erewrite st_bind_ok by (apply st_lift_ok, bcm_div_ok; lia).
  by rewrite (IH nds').
Qed.

Lemma foldl_max l : forall z, 0 <= z -> foldl Z.max z l = Z.max z (foldr Z.max 0 l).
Proof.
  induction l as [|x l IH]; intros z Hz; cbn; [lia|]. rewrite IH by lia. lia.
Qed.

(** The loop over the buckets. *)
Lemma agg_buckets_exec p nds : forall n i w b, (i + n = QCOM_ICC_NUM_BUCKETS)%nat ->
  icc_bcms w !! p = Some b -> bcm_ok b -> nodes_of w b nds ->
  (forall j, (j < i)%nat -> vote_x b !! j = Some (raw_x b nds j) /\ vote_y b !! j = Some (raw_y b nds j)) ->
  agg_buckets n i p w =
    Ok (tt, set_bcms (<[p := with_votes b (buckets_of (raw_x b nds)) (buckets_of (raw_y b nds))]>) w).
Proof.
  induction n as [|n IH]; intros i w b Hi Hb Hok [Hn Hnd] Hv; cbn [agg_buckets].
  { destruct (bk_votes _ Hok) as [Lx Ly]. replace i with QCOM_ICC_NUM_BUCKETS in Hv by lia.
    assert (E : forall l f, length l = QCOM_ICC_NUM_BUCKETS ->
      (forall j, (j < QCOM_ICC_NUM_BUCKETS)%nat -> l !! j = Some (f j)) -> buckets_of f = l).
    { intros l f Hl Hf. apply list_eq. intros j. unfold buckets_of. rewrite list_lookup_fmap.
      destruct (decide (j < QCOM_ICC_NUM_BUCKETS)%nat) as [Hj|Hj].
      - by rewrite lookup_seq_lt, (Hf j).
      - rewrite lookup_seq_ge, lookup_ge_None_2 by lia. done. }
    rewrite (E (vote_x b)), (E (vote_y b)); [|done|apply Hv|done|apply Hv].
    unfold st_ret. do 2 f_equal. destruct w, b. unfold set_bcms, with_votes. cbn. by rewrite insert_id. }
  rewrite (st_bind_ok _ _ _ _ _ (the_bcm_ok _ _ _ Hb)).
  rewrite (st_bind_ok _ _ _ _ _ (agg_nodes_exec w _ _ _ nds 0 0 Hn Hnd)). cbn [fst snd].
  rewrite !foldl_max, !Z.max_r by (try done; apply (largest_nonneg _ nds)).
  pose proof (bk_unit _ Hok). do 2 (erewrite st_bind_ok by (by apply st_lift_ok, bcm_div_ok)).
  unfold put_bcm. rewrite st_bind_upd.
  set (b' := with_votes b _ _). destruct (bk_votes _ Hok) as [Lx Ly].
  rewrite (IH (S i) _ b'); [|lia|apply lookup_insert_eq| |done|].
  - unfold set_bcms. cbn. by rewrite insert_insert_eq.
  - destruct Hok. constructor; try done. unfold b'. cbn [vote_x vote_y with_votes]. by rewrite !length_insert.
  - intros j Hj. unfold b'. cbn [vote_x vote_y with_votes].
    destruct (decide (j = i)) as [->|Hne].
    + rewrite !list_lookup_insert_eq by lia. done.
    + rewrite !list_lookup_insert_ne by done. apply Hv. lia.
Qed.

Theorem bcm_aggregate_exec p init w b nds : icc_bcms w !! p = Some b -> bcm_ok b -> nodes_of w b nds ->
  bcm_aggregate p init w = Ok (tt, set_bcms (<[p := voted b init nds]>) w).
Proof.
  intros Hb Hok Hn. unfold bcm_aggregate.
  erewrite st_bind_ok by (apply (agg_buckets_exec p nds QCOM_ICC_NUM_BUCKETS 0 w b); try done; lia).
  set (b1 := with_votes _ _ _).
  erewrite st_bind_ok by (apply the_bcm_ok, lookup_insert_eq).
  unfold voted, final, kept. cbn [keepalive with_votes b1 vote_x vote_y].
  destruct (keepalive b); [|done]. destruct init.
  - unfold put_bcm, st_upd, set_bcms. cbn. by rewrite insert_insert_eq.
  - change (nth QCOM_ICC_BUCKET_AMC (buckets_of (raw_x b nds)) 0) with (raw_x b nds QCOM_ICC_BUCKET_AMC).
    change (nth QCOM_ICC_BUCKET_AMC (buckets_of (raw_y b nds)) 0) with (raw_y b nds QCOM_ICC_BUCKET_AMC).
    case_if; [|done]. unfold put_bcm, st_upd, set_bcms. cbn. by rewrite insert_insert_eq.
Qed.

(** ** What the votes promise *)

(** No product leaves 64 bits. *)
Definition no_wrap (b : qcom_icc_bcm) (nds : list qcom_icc_node) (i : nat) : Prop :=
  (forall nd, nd ∈ nds -> nth i (sum_avg nd) 0 * width (aux_data b) < 2 ^ 64 /\
                      nth i (max_peak nd) 0 * width (aux_data b) < 2 ^ 64) /\
  largest (avg_share (width (aux_data b)) i) nds * vote_scale b < 2 ^ 64 /\
  largest (peak_share (width (aux_data b)) i) nds * vote_scale b < 2 ^ 64.

(** A vote [v] covers a sum [s] of a node with divisor [d]: rounded down, and positive when the
    sum is. *)
Definition covers (b : qcom_icc_bcm) (d s v : Z) : Prop :=
  s * width (aux_data b) / d * vote_scale b / unit_ (aux_data b) <= v /\
  (0 < s -> 0 < width (aux_data b) -> 0 < v).

Lemma nth_nonneg i l : Forall (fun s => 0 <= s) l -> 0 <= nth i l 0.
Proof.
  intros Hl. destruct (decide (i < length l)%nat) as [Hi|Hi]; [|rewrite nth_overflow; lia].
  apply (Forall_forall (fun s => 0 <= s) l); [done|]. apply list_elem_of_In. by apply nth_In.
Qed.

Lemma covers_share b d s m : bcm_ok b -> 0 < d -> 0 <= s -> s * width (aux_data b) < 2 ^ 64 ->
  scaled (u64 (s * width (aux_data b))) d <= m -> m * vote_scale b < 2 ^ 64 ->
  covers b d s (scaled (u64 (m * vote_scale b)) (unit_ (aux_data b))).
Proof.
  intros [[Hu _] Hw Hs _] Hd Hs0 Hsw Hm Hms. rewrite u64_id in Hm by nia.
  pose proof (scaled_nonneg (s * width (aux_data b)) d ltac:(nia) Hd).
  pose proof (scaled_ge (s * width (aux_data b)) d ltac:(nia) Hd).
  rewrite u64_id by nia. split.
  - transitivity (m * vote_scale b / unit_ (aux_data b)); [|apply scaled_ge; [nia|done]].
    apply Z.div_le_mono; [done|]. apply Z.mul_le_mono_nonneg_r; lia.
  - intros Hp Hwp. apply scaled_pos; [|done].
    pose proof (scaled_pos (s * width (aux_data b)) d ltac:(nia) Hd). nia.
Qed.

Lemma raw_covers b nds i nd : bcm_ok b -> Forall node_ok nds -> no_wrap b nds i -> nd ∈ nds ->
  covers b (buswidth nd * channels nd) (nth i (sum_avg nd) 0) (raw_x b nds i) /\
  covers b (buswidth nd) (nth i (max_peak nd) 0) (raw_y b nds i).
Proof.
  intros Hb Hn (Hs&Hx&Hy) Hnd. rewrite Forall_forall in Hn. destruct (Hn nd Hnd) as [N1 N2 _ _ [N3 N4]].
  destruct (Hs nd Hnd) as [S1 S2]. split; apply covers_share; try done; try nia.
  - by apply nth_nonneg.
  - by apply (largest_ge (avg_share _ i)).
  - by apply nth_nonneg.
  - by apply (largest_ge (peak_share _ i)).
Qed.

Lemma nth_buckets f i : (i < QCOM_ICC_NUM_BUCKETS)%nat -> nth i (buckets_of f) 0 = f i.
Proof. unfold QCOM_ICC_NUM_BUCKETS. intros. destruct i as [|[|[|i]]]; [done..|lia]. Qed.

Lemma raw_nonneg b nds i : bcm_ok b -> 0 <= raw_x b nds i /\ 0 <= raw_y b nds i.
Proof. intros Hok. destruct (bk_unit _ Hok). split; apply scaled_nonneg; (done || apply u64_range). Qed.

(** No node asks for anything in bucket [i]. *)
Definition unasked (nds : list qcom_icc_node) (i : nat) : Prop :=
  forall nd, nd ∈ nds -> nth i (sum_avg nd) 0 = 0 /\ nth i (max_peak nd) 0 = 0.

Lemma largest_zero f nds : (forall nd, nd ∈ nds -> f nd = 0) -> largest f nds = 0.
Proof.
  intros Hf. unfold largest. induction nds as [|nd nds IH]; [done|]. cbn.
  rewrite Hf, IH by (left || (intros; apply Hf; by right)). done.
Qed.

Lemma raw_unasked b nds i : bcm_ok b -> Forall node_ok nds -> no_wrap b nds i -> 0 < width (aux_data b) ->
  raw_x b nds i = 0 /\ raw_y b nds i = 0 <-> unasked nds i.
Proof.
  intros Hb Hn Hw Hwd. assert (S0 : forall d, 0 < d -> scaled 0 d = 0) by (intros d Hd; unfold scaled; cbn; apply Z.div_0_l; lia).
  destruct (bk_unit _ Hb) as [Hu _]. split.
  - intros [Hx Hy] nd Hnd. destruct (raw_covers b nds i nd Hb Hn Hw Hnd) as [[_ Cx] [_ Cy]].
    rewrite Forall_forall in Hn. destruct (no_sums _ (Hn nd Hnd)) as [N1 N2].
    pose proof (nth_nonneg i _ N1). pose proof (nth_nonneg i _ N2). lia.
  - intros Hz. rewrite Forall_forall in Hn. unfold raw_x, raw_y.
    rewrite !(largest_zero _ nds), Z.mul_0_l; [by rewrite (S0 _ Hu : scaled (u64 0) _ = 0)| |]; intros nd Hnd;
      destruct (Hz nd Hnd) as [Ex Ey]; pose proof (no_width _ (Hn nd Hnd)); pose proof (no_channels _ (Hn nd Hnd)).
    + unfold peak_share. rewrite Ey. apply (S0 _ : _ -> scaled (u64 0) _ = 0). lia.
    + unfold avg_share. rewrite Ex. apply (S0 _ : _ -> scaled (u64 0) _ = 0). nia.
Qed.

(** C29: the aggregation of a BCM returns and changes only its votes.  Where the BCM is not kept
    alive, and always in the sleep bucket, the vote of a bucket is the largest share of its
    nodes, scaled to its unit; without overflow it covers the sum and the maximum of every node,
    rounded down, and it is zero exactly when no node asks for anything.  A BCM that is kept alive
    votes 16000 in the active and the wake bucket while it is initialised; later it votes 1 in
    both of them when its active votes would be zero, also where the nodes ask for more in the
    wake bucket, and otherwise as if it were not kept alive. *)
Theorem bcm_aggregate_correct p init w b nds : icc_bcms w !! p = Some b -> bcm_ok b -> nodes_of w b nds ->
  exists b', bcm_aggregate p init w = Ok (tt, set_bcms (<[p := b']>) w) /\
    b' = with_votes b (vote_x b') (vote_y b') /\
    length (vote_x b') = QCOM_ICC_NUM_BUCKETS /\ length (vote_y b') = QCOM_ICC_NUM_BUCKETS /\
    let idle := raw_x b nds QCOM_ICC_BUCKET_AMC = 0 /\ raw_y b nds QCOM_ICC_BUCKET_AMC = 0 in
    forall i, (i < QCOM_ICC_NUM_BUCKETS)%nat ->
      let x := nth i (vote_x b') 0 in
      let y := nth i (vote_y b') 0 in
      (i = QCOM_ICC_BUCKET_SLEEP \/ keepalive b = false \/ init = false /\ ~ idle ->
         x = raw_x b nds i /\ y = raw_y b nds i) /\
      (i = QCOM_ICC_BUCKET_AMC \/ i = QCOM_ICC_BUCKET_WAKE -> keepalive b = true ->
         (init = true -> x = 16000 /\ y = 16000) /\
         (init = false -> idle -> x = 1 /\ y = 1)) /\
      (no_wrap b nds i -> 0 < width (aux_data b) ->
         (raw_x b nds i = 0 /\ raw_y b nds i = 0 <-> unasked nds i) /\
         forall nd, nd ∈ nds ->
           covers b (buswidth nd * channels nd) (nth i (sum_avg nd) 0) (raw_x b nds i) /\
           covers b (buswidth nd) (nth i (max_peak nd) 0) (raw_y b nds i)).
Proof.
  intros Hb Hok Hn. exists (voted b init nds).
  split_and!; [by apply bcm_aggregate_exec|done|done|done|]. intros idle i Hi x y.
  assert (Hx : x = final b init nds raw_x i) by (unfold x, voted; cbn [vote_x with_votes]; by rewrite nth_buckets).
  assert (Hy : y = final b init nds raw_y i) by (unfold y, voted; cbn [vote_y with_votes]; by rewrite nth_buckets).
  rewrite Hx, Hy. clear x y Hx Hy. unfold final, kept. split_and!.
  - intros [->|[->|[-> Hz]]]; [by case_match|done|].
    destruct (keepalive b); [|done]. case_if; [|done]. destruct Hz. unfold idle. lia.
  - intros Hw ->. rewrite bool_decide_eq_false_2 by (destruct Hw; subst; done). split; [by intros ->|].
    intros -> [-> ->]. done.
  - intros Hw Hwd. pose proof (proj2 Hn). split; [by apply raw_unasked|]. intros nd Hnd. by apply raw_covers.
Qed.
