(* ===== verification/IccBatch.v ===== *)
(** * Commands and payloads of a commit

    [tcs_list_gen] turns a sorted list of BCMs into commands, one for each, and counts them
    off in payloads.  [commands] and [payloads] are the reference for any list, [counts] for
    one whose payloads fill up at the end of a clock domain. *)
From stdpp Require Import sorting.
From S2P Require Import Prelude CMem CmdDb RpmhRsc Rpmh Icc IccVotes.

Section batch.
Context `{BcmAbi} `{TcsAbi}.
Context (tcs_wait : Z) (bucket : nat).

(** ** The reference *)

(** The BCM before this rest of the list is the last one of its clock domain. *)
Definition domain_end (b : qcom_icc_bcm) (l : list qcom_icc_bcm) : bool :=
  match l with [] => true | next :: _ => negb (vcd (aux_data b) =? vcd (aux_data next)) end.

Definition wait_for (commit : bool) : bool := commit && negb (Z.land tcs_wait (BIT (Z.of_nat bucket)) =? 0).

Definition command (b : qcom_icc_bcm) (commit : bool) : tcs_cmd :=
  tcs_cmd_gen (nth bucket (vote_x b) 0) (nth bucket (vote_y b) 0) (bcm_addr b) commit (wait_for commit).

Fixpoint commands (l : list qcom_icc_bcm) : list tcs_cmd :=
  match l with
  | [] => []
  | b :: l => command b (domain_end b l) :: commands l
  end.

(** The payload size, and the number of commands already in the open payload. *)
Definition payload_size : nat := Z.to_nat MAX_RPMH_PAYLOAD.

Lemma payload_size_pos : (0 < payload_size <= 16)%nat.
Proof. unfold payload_size. pose proof max_payload_range. lia. Qed.

(** Every payload that fills up ends with a clock domain; [k] commands are in the open one. *)
Fixpoint aligned (k : nat) (l : list qcom_icc_bcm) : bool :=
  match l with
  | [] => true
  | b :: l => if (S k =? payload_size)%nat then domain_end b l && aligned 0 l else aligned (S k) l
  end.

(** The same on the numbers of the domains alone. *)
Definition vcds (l : list qcom_icc_bcm) : list Z := (fun b => vcd (aux_data b)) <$> l.

Fixpoint aligned_vcds (k : nat) (vs : list Z) : bool :=
  match vs with
  | [] => true
  | v :: vs =>
    if (S k =? payload_size)%nat
    then match vs with [] => true | v' :: _ => negb (v =? v') end && aligned_vcds 0 vs
    else aligned_vcds (S k) vs
  end.

Lemma aligned_vcds_eq l : forall k, aligned k l = aligned_vcds k (vcds l).
Proof.
  induction l as [|b l IH]; intros k; [done|]. cbn [aligned vcds fmap list_fmap aligned_vcds].
  rewrite !IH. case_if; [|done]. by destruct l.
Qed.

(** The sizes of the payloads, when [k] commands are in the open one. *)
Fixpoint counts (k n : nat) : list nat :=
  match n with
  | O => if (k =? 0)%nat then [] else [k]
  | S n => if (S k =? payload_size)%nat then payload_size :: counts 0 n else counts (S k) n
  end.

Lemma length_commands l : length (commands l) = length l.
Proof. induction l; cbn; congruence. Qed.

Lemma counts_sum n : forall k, (k < payload_size)%nat ->
  foldr Nat.add 0%nat (counts k n) = (k + n)%nat /\ Forall (fun c => 0 < c <= payload_size)%nat (counts k n).
Proof.
  pose proof payload_size_pos as HP. induction n as [|n IH]; intros k Hk; cbn [counts].
  - destruct (k =? 0)%nat eqn:E; cbn; (split; [lia|]); repeat constructor; lia.
  - destruct (S k =? payload_size)%nat eqn:E.
    + destruct (IH 0%nat ltac:(lia)) as [IH1 IH2]. cbn [foldr]. rewrite IH1. split; [lia|].
      constructor; [lia|done].
    + destruct (IH (S k) ltac:(lia)) as [IH1 IH2]. rewrite IH1. split; [lia|done].
Qed.

(** The number of payloads. *)
Lemma length_counts n : forall k, (k < payload_size)%nat ->
  (length (counts k n) * payload_size < k + n + payload_size)%nat.
Proof.
  pose proof payload_size_pos as HP. induction n as [|n IH]; intros k Hk; cbn [counts].
  - destruct (k =? 0)%nat eqn:E; cbn; lia.
  - destruct (S k =? payload_size)%nat eqn:E.
    + specialize (IH 0%nat ltac:(lia)). cbn [length]. lia.
    + specialize (IH (S k) ltac:(lia)). lia.
Qed.

(** ** The loop *)

(** Writing [l] over [a] from [i] on. *)
Lemma insert_inserts {A} (a : list A) i x l : (i < length a)%nat ->
  list_inserts (S i) l (<[i := x]> a) = list_inserts i (x :: l) a.
Proof. intros Hi. cbn [list_inserts]. apply list_eq. intros j.
  destruct (decide (j = i)) as [->|Hne].
  - rewrite list_lookup_insert_eq by (by rewrite length_inserts).
    rewrite list_lookup_inserts_lt by lia. by apply list_lookup_insert_eq.
  - rewrite list_lookup_insert_ne by done.
    destruct (decide (S i <= j < S i + length l)%nat) as [Hj|Hj].
    + destruct (decide (j < length a)%nat) as [Hl|Hl].
      * by rewrite !list_lookup_inserts by (rewrite ?length_insert; lia).
      * rewrite !lookup_ge_None_2 by (rewrite ?length_inserts, ?length_insert; lia). done.
    + destruct (decide (j < S i)%nat); [rewrite !list_lookup_inserts_lt by lia|rewrite !list_lookup_inserts_ge by lia];
        by rewrite list_lookup_insert_ne by done.
Qed.

(** The counts, when [k] commands are in the open payload and [c] of them belong to the domain
    that is still open, from the flags of the rest. *)
Fixpoint tally (k c : nat) (fl : list bool) : list nat :=
  match fl with
  | [] => if (k =? 0)%nat then [] else [k]
  | f :: fl =>
    if (S k <? payload_size)%nat then tally (S k) (if f then 0%nat else S c) fl else
    if f then S k :: tally 0 0 fl else S c :: tally (S c) (S c) fl
  end.

Fixpoint flags (l : list qcom_icc_bcm) : list bool :=
  match l with [] => [] | b :: l => domain_end b l :: flags l end.

Lemma length_flags l : length (flags l) = length l.
Proof. induction l; cbn; congruence. Qed.

Lemma tally_pos k c fl : (0 < k)%nat \/ fl <> [] -> (0 < length (tally k c fl))%nat.
Proof.
  revert k c. induction fl as [|f fl IH]; intros k c Hk; cbn [tally].
  - destruct Hk; [|done]. destruct k; [lia|]. cbn. lia.
  - case_if; [apply IH; lia|]. destruct f; cbn [length]; lia.
Qed.

(** Writing the rest of the counts over the count that is open. *)
Lemma tally_over k c fl batch x n : (0 < k)%nat -> (batch < length n)%nat ->
  list_inserts batch (Z.of_nat <$> tally k c fl) (<[batch := x]> n) =
  list_inserts batch (Z.of_nat <$> tally k c fl) n.
Proof.
  intros Hk Hb. pose proof (tally_pos k c fl (or_introl Hk)). destruct (tally k c fl) as [|c' cs]; [cbn in *; lia|].
  cbn [fmap list_fmap]. rewrite <-!insert_inserts by (rewrite ?length_insert; lia).
  by rewrite list_insert_insert_eq.
Qed.

(** The state of the array of counts: [k] in the open place, zeros behind. *)
Definition open_at (n : list Z) (batch k : nat) : Prop :=
  forall j, (batch <= j < length n)%nat -> n !! j = Some (if (j =? batch)%nat then Z.of_nat k else 0).

Lemma open_set n batch k k' : open_at n batch k -> open_at (<[batch := Z.of_nat k']> n) batch k'.
Proof.
  intros Hn j Hj. rewrite length_insert in Hj. destruct (decide (j = batch)) as [->|Hne].
  - rewrite Nat.eqb_refl. apply list_lookup_insert_eq. lia.
  - rewrite list_lookup_insert_ne, Hn by lia.
    by replace (j =? batch)%nat with false by (symmetry; apply Nat.eqb_neq; lia).
Qed.

Lemma open_next n batch k x : open_at n batch k -> open_at (<[batch := x]> n) (S batch) 0.
Proof.
  intros Hn j Hj. rewrite length_insert in Hj. rewrite list_lookup_insert_ne, Hn by lia.
  replace (j =? batch)%nat with false by (symmetry; apply Nat.eqb_neq; lia). by destruct (j =? S batch)%nat.
Qed.

Lemma payload_limit : MAX_RPMH_PAYLOAD = Z.of_nat payload_size.
Proof. unfold payload_size. pose proof max_payload_range. lia. Qed.

(** The loop, for any list: it leaves the array of counts exactly when there are too many. *)
Lemma list_gen_exec l : forall cmds n idx batch k c,
  (idx + length l <= length cmds)%nat -> open_at n batch k ->
  (batch < length n)%nat \/ batch = length n /\ k = 0%nat ->
  list_gen_loop l tcs_wait bucket cmds n idx batch (Z.of_nat c) =
    if (batch + length (tally k c (flags l)) <=? length n)%nat
    then Ok (list_inserts idx (commands l) cmds, list_inserts batch (Z.of_nat <$> tally k c (flags l)) n)
    else Fault.
Proof.
  pose proof payload_size_pos as HP. induction l as [|b l IH]; intros cmds n idx batch k c Hc Hn Hb; cbn [list_gen_loop].
  - cbn [commands list_inserts flags tally]. destruct (k =? 0)%nat eqn:E; cbn [length fmap list_fmap list_inserts].
    + by rewrite (proj2 (Nat.leb_le (batch + 0) (length n))) by lia.
    + rewrite (proj2 (Nat.leb_le (batch + 1) (length n))) by lia. rewrite list_insert_id; [done|].
      rewrite Hn by lia. by rewrite Nat.eqb_refl.
  - cbn [length] in Hc. fold (domain_end b l). cbn [flags].
    destruct (lookup_lt_is_Some_2 cmds idx ltac:(lia)) as [c0 ->].
    destruct Hb as [Hb|[-> ->]].
    2:{ assert (0 < length (tally 0 c (domain_end b l :: flags l)))%nat by (apply tally_pos; by right).
        rewrite lookup_ge_None_2 by lia. by rewrite (proj2 (Nat.leb_gt _ _)) by lia. }
    rewrite (Hn batch) by lia. rewrite Nat.eqb_refl.
    fold (wait_for (domain_end b l)). fold (command b (domain_end b l)).
    cbn [commands tally]. rewrite <-insert_inserts by lia. rewrite payload_limit.
    replace (Z.of_nat k + 1) with (Z.of_nat (S k)) by lia.
    destruct (S k <? payload_size)%nat eqn:E.
    + replace (Z.of_nat (S k) >=? Z.of_nat payload_size) with false by lia.
      replace (if domain_end b l then 0 else Z.of_nat c + 1)
        with (Z.of_nat (if domain_end b l then 0%nat else S c)) by (destruct (domain_end b l); lia).
      rewrite (IH _ _ _ _ (S k)); rewrite ?length_insert; [|lia|by eapply open_set|by left].
      by rewrite tally_over by lia.
    + replace (Z.of_nat (S k) >=? Z.of_nat payload_size) with true by lia. destruct (domain_end b l).
      * rewrite (IH _ _ _ _ 0%nat 0%nat); rewrite ?length_insert; [|lia|by eapply open_next|lia].
        cbn [length fmap list_fmap]. rewrite <-insert_inserts by lia.
        by rewrite <-Nat.add_succ_comm.
      * pose proof (tally_pos (S c) (S c) (flags l) ltac:(lia)) as Hp. cbn [length fmap list_fmap].
        destruct (decide (S batch < length n)%nat) as [Hlt|Hge].
        -- destruct (lookup_lt_is_Some_2 (<[batch := Z.of_nat (S k)]> n) (S batch)) as [z ->]; [by rewrite length_insert|].
           replace (Z.of_nat c + 1) with (Z.of_nat (S c)) by lia. rewrite list_insert_insert_eq.
           rewrite (IH _ _ _ _ (S c)); rewrite ?length_insert; [|lia|eapply open_set, open_next, Hn|by left].
           rewrite tally_over by (rewrite ?length_insert; lia). rewrite <-insert_inserts by lia.
           by rewrite <-Nat.add_succ_comm.
        -- rewrite lookup_ge_None_2 by (rewrite length_insert; lia). by rewrite (proj2 (Nat.leb_gt _ _)) by lia.
Qed.


Lemma list_inserts_0 {A} (l a : list A) : (length l <= length a)%nat ->
  list_inserts 0 l a = l ++ drop (length l) a.
Proof.
  intros Hl. apply list_eq. intros j. destruct (decide (j < length l)%nat) as [Hj|Hj].
  - rewrite list_lookup_inserts by lia. rewrite Nat.sub_0_r. by rewrite lookup_app_l.
  - rewrite list_lookup_inserts_ge, lookup_app_r, lookup_drop by lia. f_equal. lia.
Qed.

(** The counts with the zeros behind them. *)
Definition with_zeros (cs : list nat) : list Z := (Z.of_nat <$> cs) ++ replicate (MAX_VCD - length cs) 0.

Lemma tcs_list_gen_tally l cmds : (length l <= length cmds)%nat ->
  let cs := tally 0 0 (flags l) in
  tcs_list_gen l tcs_wait bucket cmds =
    if (length cs <=? MAX_VCD)%nat then Ok (commands l ++ drop (length l) cmds, with_zeros cs) else Fault.
Proof.
  intros Hc cs. unfold tcs_list_gen. change 0 with (Z.of_nat 0) at 2.
  rewrite (list_gen_exec l cmds _ 0 0 0 0); rewrite ?length_replicate; [|lia| |left; unfold MAX_VCD; lia].
  - cbn [Nat.add]. fold cs. case_if; [|done].
    rewrite !list_inserts_0; rewrite ?length_commands, ?length_fmap, ?length_replicate; [|lia..].
    by rewrite drop_replicate.
  - intros j Hj. rewrite length_replicate in Hj. rewrite lookup_replicate_2 by lia. by destruct (j =? 0)%nat.
Qed.

Lemma with_zeros_last cs : (length cs < MAX_VCD)%nat -> last (with_zeros cs) = Some 0.
Proof.
  intros Hl. unfold with_zeros. destruct (MAX_VCD - length cs)%nat as [|m] eqn:E; [lia|].
  by rewrite replicate_S_end, app_assoc, last_snoc.
Qed.

(** When every payload that fills up ends with a domain nothing is moved to the next one. *)
Lemma tally_counts l : forall k c, (k < payload_size)%nat -> aligned k l = true ->
  tally k c (flags l) = counts k (length l).
Proof.
  induction l as [|b l IH]; intros k c Hk Ha; [done|]. cbn [flags tally length counts]. cbn [aligned] in Ha.
  destruct (S k =? payload_size)%nat eqn:E.
  - apply andb_prop in Ha as [-> Ha]. rewrite (proj2 (Nat.ltb_ge (S k) payload_size)) by lia.
    rewrite IH by (done || lia). f_equal. lia.
  - rewrite (proj2 (Nat.ltb_lt (S k) payload_size)) by lia. apply IH; [lia|done].
Qed.

Definition count_array (n : nat) : list Z := with_zeros (counts 0 n).

Lemma tcs_list_gen_exec l cmds : (length l <= length cmds)%nat ->
  (length l <= (MAX_VCD - 1) * payload_size)%nat -> aligned 0 l = true ->
  tcs_list_gen l tcs_wait bucket cmds =
    Ok (commands l ++ drop (length l) cmds, count_array (length l)) /\
  (length (counts 0 (length l)) < MAX_VCD)%nat.
Proof.
  intros Hc Hl Ha. pose proof payload_size_pos as HP.
  pose proof (length_counts (length l) 0 ltac:(lia)) as Hn. unfold MAX_VCD in *.
  assert (Hlt : (length (counts 0 (length l)) < 10)%nat) by nia. split; [|done].
  rewrite tcs_list_gen_tally, tally_counts by (done || lia). unfold MAX_VCD.
  by rewrite (proj2 (Nat.leb_le _ _)) by lia.
Qed.

(** ** Clock domains and payloads *)

Definition before (a b : qcom_icc_bcm) : Prop := vcd (aux_data a) <= vcd (aux_data b).

(** In a sorted list the flag says that no BCM of the domain follows. *)
Lemma domain_end_spec b l : StronglySorted before (b :: l) ->
  domain_end b l = bool_decide (Forall (fun b' => vcd (aux_data b') <> vcd (aux_data b)) l).
Proof.
  intros [Hs Hb]%StronglySorted_inv. symmetry. destruct l as [|b' l]; [done|]. cbn [domain_end].
  apply StronglySorted_inv in Hs as [_ Hs]. apply Forall_cons in Hb as [Hb _]. unfold before in *.
  case_bool_decide as Hf.
  - apply Forall_cons in Hf as [Hf _]. lia.
  - destruct (vcd (aux_data b) =? vcd (aux_data b')) eqn:E; [done|]. destruct Hf. constructor; [lia|].
    eapply Forall_impl; [exact Hs|]. cbn. intros c Hc. lia.
Qed.

(** Every payload ends with the end of a domain. *)
Lemma payloads_end l : forall k pre, length pre = k -> (k < payload_size)%nat -> aligned k l = true ->
  (l = [] -> k = 0%nat) ->
  Forall (fun p => last p = Some true) (reshape (counts k (length l)) (pre ++ flags l)).
Proof.
  induction l as [|b l IH]; intros k pre Hp Hk Ha Hl; cbn [length counts flags].
  { rewrite (Hl eq_refl). cbn. constructor. }
  cbn [aligned] in Ha. replace (pre ++ domain_end b l :: flags l) with ((pre ++ [domain_end b l]) ++ flags l)
    by (by rewrite <-app_assoc).
  destruct (S k =? payload_size)%nat eqn:E.
  - apply andb_prop in Ha as [Hd Ha]. cbn [reshape]. constructor.
    + rewrite take_app_length' by (rewrite length_app; cbn; lia). rewrite Hd. apply last_snoc.
    + rewrite drop_app_length' by (rewrite length_app; cbn; lia).
      apply (IH 0%nat []); [done|lia|done|done].
  - destruct l as [|b' l].
    + cbn [length counts flags reshape Nat.eqb domain_end]. rewrite app_nil_r. constructor; [|constructor].
      rewrite take_ge by (rewrite length_app; cbn; lia). apply last_snoc.
    + apply IH; [rewrite length_app; cbn; lia|lia|done|done].
Qed.

(** A command is made of the address and the votes of its BCM, cut to the largest vote. *)
Record command_of (b : qcom_icc_bcm) (commit : bool) (c : tcs_cmd) : Prop := {
  cm_addr : addr c = bcm_addr b;
  cm_data : let x := nth bucket (vote_x b) 0 in let y := nth bucket (vote_y b) 0 in
    data c = BCM_TCS_CMD commit (negb ((x =? 0) && (y =? 0)))
               (Z.min x BCM_TCS_CMD_VOTE_MASK) (Z.min y BCM_TCS_CMD_VOTE_MASK);
  cm_wait : wait c = wait_for commit;
}.

Lemma command_spec b commit : command_of b commit (command b commit).
Proof.
  constructor; [done| |done]. cbn. unfold tcs_cmd_gen. cbn [data]. cbv zeta. f_equal.
  - case_if; lia.
  - case_if; lia.
Qed.

Lemma commands_lookup l : forall i b, l !! i = Some b ->
  commands l !! i = Some (command b (domain_end b (drop (S i) l))).
Proof.
  induction l as [|b l IH]; intros i b' Hi; [done|]. destruct i as [|i]; cbn in Hi.
  - simplify_eq. done.
  - exact (IH i b' Hi).
Qed.

(** ** Payloads by domains *)

(** The sizes of the clock domains of a sorted list, in order. *)
Fixpoint sizes (l : list qcom_icc_bcm) : list nat :=
  match l with
  | [] => []
  | b :: l => if domain_end b l then 1%nat :: sizes l else
              match sizes l with [] => [1%nat] | d :: ds => S d :: ds end
  end.

(** The sizes of the payloads for domains of these sizes, when [k] commands are in the open
    one.  A domain that does not fit in what is left moves to the next payload as a whole; the
    count of the payload before it becomes the number of its commands there was room for, in
    place of [k].  One larger than a payload makes a payload of each further command. *)
Fixpoint payloads (k : nat) (ds : list nat) : list nat :=
  match ds with
  | [] => if (k =? 0)%nat then [] else [k]
  | d :: ds =>
    if (k + d <? payload_size)%nat then payloads (k + d) ds else
    if (k + d =? payload_size)%nat then payload_size :: payloads 0 ds else
    (if (k =? 0)%nat then [] else [(payload_size - k)%nat]) ++
    (if (d <? payload_size)%nat then payloads d ds
     else seq payload_size (S d - payload_size) ++ payloads 0 ds)
  end.

(** The flags of a domain of [S r] commands. *)
Definition run (r : nat) : list bool := replicate r false ++ [true].

Lemma run_S r fl : run (S r) ++ fl = false :: run r ++ fl.
Proof. done. Qed.

Lemma flags_sizes l : Forall (fun d => 0 < d)%nat (sizes l) /\
  flags l = concat ((fun d => run (pred d)) <$> sizes l).
Proof.
  induction l as [|b l [IH1 IH2]]; [done|]. cbn [sizes flags]. destruct (domain_end b l) eqn:E.
  - cbn [fmap list_fmap concat pred]. rewrite <-IH2. split; [|done]. constructor; [lia|done].
  - destruct l as [|b' l]; [done|]. assert (Hne : sizes (b' :: l) <> []).
    { cbn [sizes]. destruct (domain_end b' l); [done|]. by destruct (sizes l). }
    destruct (sizes (b' :: l)) as [|d ds]; [done|]. apply Forall_cons in IH1 as [Hd IH1].
    split; [constructor; [lia|done]|]. rewrite IH2. cbn [fmap list_fmap concat pred].
    by destruct d as [|d]; [lia|].
Qed.

(** The rest of a domain that is alone in the open payload. *)
Lemma tally_alone r : forall c fl,
  tally c c (run r ++ fl) =
    if (c + S r <? payload_size)%nat then tally (c + S r) 0 fl else
    seq (Nat.max payload_size (S c)) (S (c + S r) - Nat.max payload_size (S c)) ++ tally 0 0 fl.
Proof.
  induction r as [|r IH]; intros c fl.
  - cbn [run replicate app tally]. destruct (S c <? payload_size)%nat eqn:E.
    + rewrite (proj2 (Nat.ltb_lt (c + 1) payload_size)) by lia. by rewrite Nat.add_1_r.
    + rewrite (proj2 (Nat.ltb_ge (c + 1) payload_size)) by lia.
      replace (Nat.max payload_size (S c)) with (S c) by lia.
      by replace (S (c + 1) - S c)%nat with 1%nat by lia.
  - rewrite run_S. cbn [tally]. rewrite IH. destruct (S c <? payload_size)%nat eqn:E.
    + replace (S c + S r)%nat with (c + S (S r))%nat by lia. case_if; [done|].
      by replace (Nat.max payload_size (S (S c))) with (Nat.max payload_size (S c)) by lia.
    + rewrite !(proj2 (Nat.ltb_ge _ payload_size)) by lia.
      replace (Nat.max payload_size (S c)) with (S c) by lia.
      replace (Nat.max payload_size (S (S c))) with (S (S c)) by lia.
      by replace (S (c + S (S r)) - S c)%nat with (S (S (S c + S r) - S (S c)))%nat by lia.
Qed.

(** The rest of a domain that has [c] commands in the open payload. *)
Lemma tally_run r : forall k c fl, (k < payload_size)%nat ->
  tally k c (run r ++ fl) =
    if (k + S r <? payload_size)%nat then tally (k + S r) 0 fl else
    if (k + S r =? payload_size)%nat then payload_size :: tally 0 0 fl else
    let m := (c + (payload_size - k))%nat in
    m :: tally m m (run (r - (payload_size - k)) ++ fl).
Proof.
  induction r as [|r IH]; intros k c fl Hk.
  - cbn [run replicate app tally]. destruct (S k <? payload_size)%nat eqn:E.
    + rewrite (proj2 (Nat.ltb_lt (k + 1) payload_size)) by lia. by rewrite Nat.add_1_r.
    + rewrite (proj2 (Nat.ltb_ge (k + 1) payload_size)), (proj2 (Nat.eqb_eq (k + 1) payload_size)) by lia.
      f_equal. lia.
  - rewrite run_S. cbn [tally]. destruct (S k <? payload_size)%nat eqn:E.
    + rewrite IH by lia. replace (S k + S r)%nat with (k + S (S r))%nat by lia. cbv zeta.
      case_if; [done|]. case_if; [done|].
      replace (S c + (payload_size - S k))%nat with (c + (payload_size - k))%nat by lia.
      by replace (S r - (payload_size - k))%nat with (r - (payload_size - S k))%nat by lia.
    + rewrite (proj2 (Nat.ltb_ge _ payload_size)), (proj2 (Nat.eqb_neq _ payload_size)) by lia. cbv zeta.
      replace (c + (payload_size - k))%nat with (S c) by lia.
      by replace (S r - (payload_size - k))%nat with r by lia.
Qed.

Lemma tally_payloads ds : Forall (fun d => 0 < d)%nat ds -> forall k, (k < payload_size)%nat ->
  tally k 0 (concat ((fun d => run (pred d)) <$> ds)) = payloads k ds.
Proof.
  induction 1 as [|d ds Hd _ IH]; intros k Hk; [done|].
  cbn [fmap list_fmap concat payloads]. rewrite tally_run by done. destruct d as [|d]; [lia|]. cbn [pred].
  case_if; [apply IH; lia|]. case_if; [by rewrite IH by lia|]. cbv zeta. cbn [Nat.add].
  rewrite tally_alone. replace (payload_size - k + S (d - (payload_size - k)))%nat with (S d) by lia.
  rewrite (IH 0%nat) by lia.
  replace (if (S d <? payload_size)%nat then tally (S d) 0 _ else _) with
    (if (S d <? payload_size)%nat then payloads (S d) ds else
       seq (payload_size `max` S (payload_size - k)) (S (S d) - payload_size `max` S (payload_size - k)) ++ payloads 0 ds)
    by (case_if; [by rewrite IH by lia|done]).
  destruct (k =? 0)%nat eqn:E.
  - replace (payload_size - k)%nat with payload_size by lia. rewrite (proj2 (Nat.ltb_ge (S d) payload_size)) by lia.
    replace (Nat.max payload_size (S payload_size)) with (S payload_size) by lia. cbn [app].
    by replace (S (S d) - payload_size)%nat with (S (S (S d) - S payload_size))%nat by lia.
  - by replace (Nat.max payload_size (S (payload_size - k))) with payload_size by lia.
Qed.

Lemma payloads_tally l : payloads 0 (sizes l) = tally 0 0 (flags l).
Proof.
  destruct (flags_sizes l) as [Hp ->]. pose proof payload_size_pos. symmetry. apply tally_payloads; [done|lia].
Qed.

(** The same from the numbers of the domains alone, in any order. *)
Fixpoint run_lengths (vs : list Z) : list nat :=
  match vs with
  | [] => []
  | v :: vs =>
    if match vs with [] => true | v' :: _ => negb (v =? v') end then 1%nat :: run_lengths vs else
    match run_lengths vs with [] => [1%nat] | d :: ds => S d :: ds end
  end.

Definition batches (vs : list Z) : list nat := payloads 0 (run_lengths (merge_sort Z.le vs)).

Lemma sizes_vcds l : sizes l = run_lengths (vcds l).
Proof. induction l as [|b l IH]; [done|]. cbn [sizes vcds fmap list_fmap run_lengths]. rewrite IH. by destruct l. Qed.

Lemma run_lengths_pos vs : Forall (fun d => 0 < d)%nat (run_lengths vs) /\ (vs <> [] -> run_lengths vs <> []).
Proof.
  induction vs as [|v vs [IH _]]; [done|]. cbn [run_lengths]. case_match; [split; [constructor; [lia|done]|done]|].
  destruct (run_lengths vs) as [|d ds]; [split; [repeat constructor|done]|].
  apply Forall_cons in IH as [_ IH]. split; [constructor; [lia|done]|done].
Qed.

Lemma payloads_pos ds : Forall (fun d => 0 < d)%nat ds -> forall k, (k < payload_size)%nat ->
  Forall (fun c => 0 < c)%nat (payloads k ds) /\ ((0 < k)%nat \/ ds <> [] -> payloads k ds <> []).
Proof.
  pose proof payload_size_pos as HP. induction 1 as [|d ds Hd _ IH]; intros k Hk; cbn [payloads].
  - destruct (k =? 0)%nat eqn:E; (split; [repeat constructor; lia|]); [intros [?|?]; [lia|done]|done].
  - case_if; [destruct (IH (k + d)%nat ltac:(lia)) as [A B]; split; [done|intros _; apply B; lia]|].
    destruct (IH 0%nat ltac:(lia)) as [A _]. case_if; [by split; [constructor; [lia|]|]|].
    case_match eqn:E; cbn [app].
    + replace (d <? payload_size)%nat with false by lia. replace (S d - payload_size)%nat with (S (d - payload_size)) by lia.
      split; [|done]. apply Forall_app. split; [|done]. apply Forall_forall. intros c Hc%elem_of_seq. lia.
    + split; [|done]. constructor; [lia|]. case_if; [apply IH; lia|]. apply Forall_app. split; [|done].
      apply Forall_forall. intros c Hc%elem_of_seq. lia.
Qed.

Lemma batches_pos vs : Forall (fun c => 0 < c)%nat (batches vs) /\ (vs <> [] -> batches vs <> []).
Proof.
  pose proof payload_size_pos. destruct (run_lengths_pos (merge_sort Z.le vs)) as [A B].
  destruct (payloads_pos _ A 0%nat ltac:(lia)) as [C D]. split; [done|]. intros Hv. apply D. right. apply B.
  intros Hn. apply Hv, Permutation_nil_r. rewrite <-Hn. symmetry. apply merge_sort_Permutation.
Qed.

End batch.
