(* ===== verification/IccCommit.v ===== *)
(** * The commit of a voter

    Every helper of [qcom_icc_bcm_voter_commit] as a function on the state, and the commit
    itself: which votes it sends, which it leaves for the next sleep, and what is on the lists
    afterwards. *)
From stdpp Require Import sorting.
From S2P Require Import Prelude CMem CmdDb RpmhRsc RpmhSlots RpmhTcs Rpmh RpmhFlush RpmhBatch.
From S2P Require Import Icc IccVotes IccBatch.
Open Scope c_scope.

(** What the kernel documents of its sort, for a comparison that is a total preorder. *)
Class SortLaws `{ListSort} : Prop := {
  sort_perm {A} (cmp : A -> A -> Z) (l : list A) : list_sort cmp l ≡ₚ l;
  sort_sorted {A} (cmp : A -> A -> Z) (l : list A) :
    (forall a b, cmp a b <= 0 \/ cmp b a <= 0) ->
    (forall a b c, cmp a b <= 0 -> cmp b c <= 0 -> cmp a c <= 0) ->
    StronglySorted (fun a b => cmp a b <= 0) (list_sort cmp l);
}.

(** ** Changes of the BCMs *)
Definition map_bcms (f : Z -> qcom_icc_bcm -> qcom_icc_bcm) (w : icc) : icc :=
  set_bcms (map_imap (fun p b => Some (f p b))) w.

Lemma map_bcms_lookup f w p : icc_bcms (map_bcms f w) !! p = f p <$> icc_bcms w !! p.
Proof. cbn. rewrite map_lookup_imap. by destruct (icc_bcms w !! p). Qed.

Lemma set_bcms_eq f g w : f (icc_bcms w) = g (icc_bcms w) -> set_bcms f w = set_bcms g w.
Proof. unfold set_bcms. by intros ->. Qed.

Lemma map_bcms_ext f g w : (forall p b, icc_bcms w !! p = Some b -> f p b = g p b) ->
  map_bcms f w = map_bcms g w.
Proof.
  intros Hfg. apply set_bcms_eq, map_eq. intros p. rewrite !map_lookup_imap.
  destruct (icc_bcms w !! p) eqn:Hp; [|done]. cbn. by rewrite (Hfg p).
Qed.

Lemma map_bcms_map f g w : map_bcms g (map_bcms f w) = map_bcms (fun p b => g p (f p b)) w.
Proof.
  unfold map_bcms, set_bcms. cbn. f_equal. apply map_eq. intros p. rewrite !map_lookup_imap.
  by destruct (icc_bcms w !! p).
Qed.

Lemma map_bcms_id f w : (forall p b, icc_bcms w !! p = Some b -> f p b = b) -> map_bcms f w = w.
Proof.
  intros Hf. destruct w as [n b v l c d h q]. unfold map_bcms, set_bcms. cbn in *. f_equal. apply map_eq. intros p.
  rewrite map_lookup_imap. destruct (b !! p) eqn:Hp; [|done]. cbn. by rewrite Hf.
Qed.

Lemma put_as_map p b b' w : icc_bcms w !! p = Some b ->
  set_bcms (<[p := b']>) w = map_bcms (fun q c => if decide (q = p) then b' else c) w.
Proof.
  intros Hp. apply set_bcms_eq, map_eq. intros q. rewrite map_lookup_imap. destruct (decide (q = p)) as [->|Hne].
  - by rewrite lookup_insert_eq, Hp.
  - rewrite lookup_insert_ne by done. by destruct (icc_bcms w !! q).
Qed.

Lemma filter_ext_in {A} (P Q : A -> Prop) `{!forall x, Decision (P x), !forall x, Decision (Q x)} (l : list A) :
  (forall x, x ∈ l -> P x <-> Q x) -> filter P l = filter Q l.
Proof.
  induction l as [|x l IH]; intros HPQ; [done|]. rewrite !filter_cons. pose proof (HPQ x ltac:(by left)).
  rewrite IH by (intros; apply HPQ; by right). destruct (decide (P x)), (decide (Q x)); tauto.
Qed.

(** ** Lists of BCMs *)
Definition present (w : icc) (l : list Z) : Prop := forall p, p ∈ l -> is_Some (icc_bcms w !! p).

Lemma present_cons w p l : present w (p :: l) -> is_Some (icc_bcms w !! p) /\ present w l.
Proof. intros Hp. split; [apply Hp; by left|]. intros q Hq. apply Hp. by right. Qed.

Lemma present_map f w l : present w l -> present (map_bcms f w) l.
Proof. intros Hp p Hl. rewrite map_bcms_lookup. apply fmap_is_Some. auto. Qed.

(** A loop that changes the BCMs of a list: its first step and the rest. *)
Definition on_list (l : list Z) (f : qcom_icc_bcm -> qcom_icc_bcm) (p : Z) (b : qcom_icc_bcm) : qcom_icc_bcm :=
  if decide (p ∈ l) then f b else b.

Lemma on_list_cons f p b l w : icc_bcms w !! p = Some b -> p ∉ l \/ f (f b) = f b ->
  map_bcms (on_list l f) (map_bcms (fun q c => if decide (q = p) then f b else c) w) =
  map_bcms (on_list (p :: l) f) w.
Proof.
  intros Hb Hf. rewrite map_bcms_map. apply map_bcms_ext. intros q c Hq. unfold on_list.
  destruct (decide (q = p)) as [->|Hne].
  - rewrite (decide_True (P := p ∈ p :: l)) by (by left). simplify_eq. case_decide; naive_solver.
  - destruct (decide (q ∈ l)) as [Hl|Hl]; [rewrite (decide_True (P := q ∈ p :: l)) by (by right)|
      rewrite (decide_False (P := q ∈ p :: l)) by (by intros [?|?]%elem_of_cons)]; done.
Qed.

Lemma on_list_nil f w : map_bcms (on_list [] f) w = w.
Proof. apply map_bcms_id. intros p b _. unfold on_list. by rewrite decide_False by apply not_elem_of_nil. Qed.

(** The nodes a BCM can see. *)
Definition nds_of (w : icc) (b : qcom_icc_bcm) : list qcom_icc_node :=
  omap (fun q => icc_nodes w !! q) (bcm_nodes b).

Definition ready (w : icc) (p : Z) : Prop :=
  exists b, icc_bcms w !! p = Some b /\ bcm_ok b /\
    Forall (fun q => exists nd, icc_nodes w !! q = Some nd /\ node_ok nd) (bcm_nodes b).

Lemma ready_nodes w b : Forall (fun q => exists nd, icc_nodes w !! q = Some nd /\ node_ok nd) (bcm_nodes b) ->
  nodes_of w b (nds_of w b).
Proof.
  intros Hn. unfold nodes_of, nds_of. induction Hn as [|q l (nd&Hq&Hok) _ [IH1 IH2]]; cbn; [done|].
  rewrite Hq. split; by constructor.
Qed.

Definition revoted (w : icc) (init : bool) (b : qcom_icc_bcm) : qcom_icc_bcm := voted b init (nds_of w b).

Lemma agg_list_exec init l : forall w, NoDup l -> (forall p, p ∈ l -> ready w p) ->
  agg_list l init w = Ok (tt, map_bcms (on_list l (revoted w init)) w).
Proof.
  induction l as [|p l IH]; intros w Hnd Hr; cbn [agg_list]; [by rewrite on_list_nil|].
  apply NoDup_cons in Hnd as [Hp Hnd]. destruct (Hr p ltac:(by left)) as (b&Hb&Hok&Hn).
  rewrite (st_bind_ok _ _ _ _ _ (bcm_aggregate_exec p init w b _ Hb Hok (ready_nodes w b Hn))).
  rewrite (put_as_map _ _ _ _ Hb), IH; [|done|].
  - do 2 f_equal. exact (on_list_cons (revoted w init) p b l w Hb (or_introl Hp)).
  - intros q Hq. destruct (Hr q ltac:(by right)) as (c&Hc&Hok'&Hn'). exists c. split_and!; [|done|done].
    rewrite map_bcms_lookup, Hc. cbn. rewrite decide_False by congruence. done.
Qed.

Definition unlink (b : qcom_icc_bcm) : qcom_icc_bcm := with_link b Unlinked.

Lemma unlink_list_exec l : forall w, present w l ->
  unlink_list l w = Ok (tt, map_bcms (on_list l unlink) w).
Proof.
  induction l as [|p l IH]; intros w Hp; cbn [unlink_list]; [by rewrite on_list_nil|].
  apply present_cons in Hp as [[b Hb] Hp]. rewrite (st_bind_ok _ _ _ _ _ (the_bcm_ok _ _ _ Hb)).
  unfold put_bcm. rewrite st_bind_upd, (put_as_map _ _ _ _ Hb). rewrite IH by (by apply present_map).
  do 2 f_equal. apply (on_list_cons unlink); [done|by right].
Qed.

Lemma clear_commit_exec vp v w : icc_voters w !! vp = Some v -> present w (commit_list v) ->
  clear_commit vp w = Ok (tt, set_voters (<[vp := with_commit v []]>) (map_bcms (on_list (commit_list v) unlink) w)).
Proof.
  intros Hv Hp. unfold clear_commit. rewrite (st_bind_ok _ _ _ _ _ (the_voter_ok _ _ _ Hv)).
  by rewrite (st_bind_ok _ _ _ _ _ (unlink_list_exec _ _ Hp)).
Qed.

(** ** The list of wake and sleep votes *)
Definition differs (w : icc) (p : Z) : bool :=
  match icc_bcms w !! p with Some b => ws_differ b | None => false end.

Definition ws_step (b : qcom_icc_bcm) : qcom_icc_bcm :=
  if ws_differ b then with_link b Linked else with_ws b Unlinked.

(** The voter after the loop: what is queued, and what stays on the list. *)
Definition ws_voter (w : icc) (l : list Z) (v : bcm_voter) : bcm_voter :=
  with_wslist (with_commit v (commit_list v ++ filter (fun p => differs w p = true) l))
    (filter (fun q => ~ (q ∈ l /\ differs w q = false)) (ws_list v)).

(** One round of the loop. *)
Lemma ws_voter_cons w w2 p b l v : p ∉ l -> icc_bcms w !! p = Some b ->
  (forall q, q <> p -> differs w2 q = differs w q) ->
  ws_voter w2 l (if ws_differ b then with_commit v (commit_list v ++ [p])
                 else with_wslist v (filter (fun q => q <> p) (ws_list v))) = ws_voter w (p :: l) v.
Proof.
  intros Hpl Hb Hd'. assert (Hd : differs w p = ws_differ b) by (unfold differs; by rewrite Hb).
  unfold ws_voter. rewrite (filter_ext_in (fun q => differs w2 q = true) (fun q => differs w q = true) l)
    by (intros q Hq; rewrite Hd'; [done|congruence]).
  rewrite filter_cons, Hd. unfold with_wslist, with_commit. destruct (ws_differ b) eqn:Hw.
  - rewrite decide_True by done. cbn. rewrite <-app_assoc. cbn. f_equal.
    apply filter_ext_in. intros q Hq. rewrite elem_of_cons. destruct (decide (q = p)) as [->|Hne].
    + rewrite Hd. intuition congruence.
    + rewrite Hd' by done. naive_solver.
  - rewrite decide_False by done. cbn. f_equal.
    rewrite list_filter_filter. apply filter_ext_in. intros q Hq. rewrite elem_of_cons.
    destruct (decide (q = p)) as [->|Hne]; [rewrite Hd; naive_solver|]. rewrite Hd' by done. naive_solver.
Qed.

Lemma ws_loop_exec vp l : forall w v, NoDup l -> present w l -> icc_voters w !! vp = Some v ->
  ws_loop l vp w =
    Ok (tt, set_voters (<[vp := ws_voter w l v]>) (map_bcms (on_list l ws_step) w)).
Proof.
  induction l as [|p l IH]; intros w v Hnd Hp Hv; cbn [ws_loop].
  { unfold st_ret, ws_voter. rewrite filter_nil, app_nil_r, on_list_nil. do 2 f_equal.
    rewrite (filter_all _ (ws_list v)) by (by intros q _ [Hq%not_elem_of_nil _]).
    destruct w, v. unfold set_voters. cbn in *. by rewrite insert_id. }
  apply NoDup_cons in Hnd as [Hpl Hnd]. apply present_cons in Hp as [[b Hb] Hp].
  rewrite (st_bind_ok _ _ _ _ _ (the_bcm_ok _ _ _ Hb)), (st_bind_ok _ _ _ _ _ (the_voter_ok _ _ _ Hv)).
  set (v' := if ws_differ b then with_commit v (commit_list v ++ [p])
             else with_wslist v (filter (fun q => q <> p) (ws_list v))).
  set (w1 := map_bcms (fun q c => if decide (q = p) then ws_step b else c) w).
  erewrite (st_bind_ok _ _ _ tt (set_voters (<[vp := v']>) w1)).
  2: { unfold put_bcm, put_voter, v', w1, ws_step. destruct (ws_differ b); rewrite st_bind_upd; unfold st_upd;
         by rewrite (put_as_map _ _ _ _ Hb). }
  rewrite (IH _ v'); [|done|exact (present_map _ w l Hp)|apply lookup_insert_eq].
  assert (Hd : forall q, q <> p -> differs (set_voters (<[vp := v']>) w1) q = differs w q).
  { intros q Hq. unfold differs. change (icc_bcms (set_voters _ w1)) with (icc_bcms w1). unfold w1.
    rewrite map_bcms_lookup. destruct (icc_bcms w !! q); [|done]. cbn. by rewrite decide_False. }
  pose proof (ws_voter_cons w _ p b l v Hpl Hb Hd) as V. fold v' in V. rewrite V.
  rewrite <-(on_list_cons ws_step p b l w Hb (or_introl Hpl)). do 2 f_equal.
  unfold set_voters. cbn. by rewrite insert_insert_eq.
Qed.

(** ** The commands of the commit list *)

(** The BCMs of a list, with their addresses, and without. *)
Definition pairs (w : icc) (l : list Z) : list (Z * qcom_icc_bcm) :=
  omap (fun p => (p,.) <$> icc_bcms w !! p) l.
Definition recs (w : icc) (l : list Z) : list qcom_icc_bcm := snd <$> pairs w l.

Lemma get_bcms_exec w l : present w l -> get_bcms l w = Ok (pairs w l, w).
Proof.
  induction l as [|p l IH]; intros Hp; cbn [get_bcms]; [done|].
  apply present_cons in Hp as [[b Hb] Hp]. rewrite (st_bind_ok _ _ _ _ _ (the_bcm_ok _ _ _ Hb)).
  rewrite (st_bind_ok _ _ _ _ _ (IH Hp)). unfold pairs. cbn. by rewrite Hb.
Qed.

Lemma pairs_fst w l : present w l -> fst <$> pairs w l = l.
Proof.
  induction l as [|p l IH]; intros Hp; [done|]. apply present_cons in Hp as [[b Hb] Hp].
  unfold pairs. cbn. rewrite Hb. cbn. f_equal. by apply IH.
Qed.

Lemma length_recs w l : present w l -> length (recs w l) = length l.
Proof. intros Hp. unfold recs. rewrite length_fmap, <-(length_fmap fst), pairs_fst by done. done. Qed.

Lemma elem_of_recs w l b : b ∈ recs w l <-> exists p, p ∈ l /\ icc_bcms w !! p = Some b.
Proof.
  unfold recs, pairs. rewrite list_elem_of_fmap. split.
  - intros ([p c]&->&(q&Hq&Hc)%list_elem_of_omap). destruct (icc_bcms w !! q) eqn:E; [|done]. cbn in Hc.
    simplify_eq. eauto.
  - intros (p&Hp&Hb). exists (p, b). split; [done|]. apply list_elem_of_omap. exists p. by rewrite Hb.
Qed.

Section commit.
Context `{TcsAbi} `{BitmapArea} `{BcmAbi} `{ListSort} `{!SortLaws}.
Context (fuel : nat) (env wenv : nat -> rsc_drv -> rsc_drv).

Definition sorted (w : icc) (l : list Z) : list Z :=
  fst <$> list_sort (fun a b => cmp_vcd a.2 b.2) (pairs w l).

(** Sorting pairs that match the state gives pairs that match it. *)
Lemma pairs_sorted w l : pairs w (sorted w l) = list_sort (fun a b => cmp_vcd a.2 b.2) (pairs w l).
Proof.
  unfold sorted. assert (Hin : forall x, x ∈ list_sort (fun a b => cmp_vcd a.2 b.2) (pairs w l) ->
    icc_bcms w !! x.1 = Some x.2).
  { intros [p b] Hx. rewrite sort_perm in Hx. unfold pairs in Hx. apply list_elem_of_omap in Hx as (q&_&Hq).
    destruct (icc_bcms w !! q) eqn:E; [|done]. cbn in Hq. by simplify_eq. }
  induction (list_sort _ (pairs w l)) as [|[p b] s IH]; [done|]. unfold pairs at 1. cbn.
  pose proof (Hin (p, b) ltac:(by left)) as Hpb. cbn in Hpb. rewrite Hpb. cbn. f_equal.
  apply IH. intros x Hx. apply Hin. by right.
Qed.

Lemma sorted_perm w l : present w l -> sorted w l ≡ₚ l.
Proof. intros Hp. unfold sorted. rewrite sort_perm. by rewrite pairs_fst. Qed.

Lemma cmp_vcd_le a b : cmp_vcd a b <= 0 <-> before a b.
Proof. unfold cmp_vcd, before. case_if; [lia|]. case_if; lia. Qed.

Lemma recs_sorted w l : StronglySorted before (recs w (sorted w l)).
Proof.
  unfold recs. rewrite pairs_sorted.
  assert (Hs : StronglySorted (fun a b : Z * qcom_icc_bcm => cmp_vcd a.2 b.2 <= 0)
    (list_sort (fun a b => cmp_vcd a.2 b.2) (pairs w l))).
  { apply sort_sorted.
    - intros a b. rewrite !cmp_vcd_le. unfold before. lia.
    - intros a b c. rewrite !cmp_vcd_le. unfold before. lia. }
  induction Hs as [|x s Hs IH Hx]; cbn; constructor; [done|].
  apply Forall_fmap. eapply Forall_impl; [exact Hx|]. intros y Hy. by apply cmp_vcd_le.
Qed.

Lemma sort_commit_exec vp v w : icc_voters w !! vp = Some v -> present w (commit_list v) ->
  sort_commit vp w = Ok (tt, set_voters (<[vp := with_commit v (sorted w (commit_list v))]>) w).
Proof.
  intros Hv Hp. unfold sort_commit. rewrite (st_bind_ok _ _ _ _ _ (the_voter_ok _ _ _ Hv)).
  by rewrite (st_bind_ok _ _ _ _ _ (get_bcms_exec _ _ Hp)).
Qed.

(** The domains of a list, in any order, are those of commands the arrays have room for: no
    payload is larger than the hardware takes, there are few enough of them, and no more
    commands are counted than the array has. *)
Definition sendable (vs : list Z) : Prop :=
  (length vs <= MAX_BCMS)%nat /\ (length (batches vs) < MAX_VCD)%nat /\
  Forall (fun c => c <= payload_size)%nat (batches vs) /\ (foldr Nat.add 0 (batches vs) <= MAX_BCMS)%nat.

(** No domain is moved to the next payload. *)
Definition unmoved (vs : list Z) : Prop := aligned_vcds 0 (merge_sort Z.le vs) = true.

Definition domains (w : icc) (l : list Z) : list Z := vcds (recs w l).

Lemma length_domains w l : present w l -> length (domains w l) = length l.
Proof. intros Hp. unfold domains, vcds. by rewrite length_fmap, length_recs. Qed.

Lemma domains_sorted w l : domains w (sorted w l) = merge_sort Z.le (domains w l).
Proof.
  apply (StronglySorted_unique Z.le).
  - pose proof (recs_sorted w l) as Hs. unfold domains. induction Hs as [|b s _ IH Hb]; cbn; constructor; [done|].
    by apply Forall_fmap.
  - apply StronglySorted_merge_sort; intros x y; lia.
  - rewrite merge_sort_Permutation. unfold domains, vcds, recs. rewrite pairs_sorted. by rewrite sort_perm.
Qed.

Lemma batches_recs w l : payloads 0 (sizes (recs w (sorted w l))) = batches (domains w l).
Proof. unfold batches. rewrite sizes_vcds. fold (domains w (sorted w l)). by rewrite domains_sorted. Qed.

Lemma batches_sorted w l : StronglySorted before (recs w l) -> payloads 0 (sizes (recs w l)) = batches (domains w l).
Proof.
  intros Hs. unfold batches. rewrite sizes_vcds. fold (domains w l). do 2 f_equal. symmetry.
  apply (StronglySorted_unique Z.le); [apply StronglySorted_merge_sort; intros x y; lia| |apply merge_sort_Permutation].
  unfold domains. induction Hs as [|b s _ IH Hb]; cbn; constructor; [done|]. by apply Forall_fmap.
Qed.

Lemma unmoved_sum w l : present w l -> unmoved (domains w l) -> foldr Nat.add 0%nat (batches (domains w l)) = length l.
Proof.
  unfold unmoved. intros Hp Ha. pose proof payload_size_pos. rewrite <-batches_recs, payloads_tally, tally_counts.
  - destruct (counts_sum (length (recs w (sorted w l))) 0 ltac:(lia)) as [-> _].
    rewrite length_recs, sorted_perm; [done|done|]. intros p Hl. apply Hp. by rewrite <-(sorted_perm w l Hp).
  - lia.
  - rewrite aligned_vcds_eq. fold (domains w (sorted w l)). by rewrite domains_sorted.
Qed.

Lemma domains_cons w p l : domains w (p :: l) =
  match icc_bcms w !! p with Some b => vcd (aux_data b) :: domains w l | None => domains w l end.
Proof. unfold domains, vcds, recs, pairs. cbn. by destruct (icc_bcms w !! p). Qed.

(** Only the domain numbers count. *)
Lemma domains_map f w l : (forall p b, aux_data (f p b) = aux_data b) ->
  domains (map_bcms f w) l = domains w l.
Proof.
  intros Hf. induction l as [|p l IH]; [done|]. rewrite !domains_cons, map_bcms_lookup, IH.
  destruct (icc_bcms w !! p) as [b|]; [|done]. cbn. by rewrite Hf.
Qed.

(** The commands for a sorted list in a bucket, and the array they are in. *)
Definition cmds_for (w : icc) (v : bcm_voter) (bucket : nat) (l : list Z) : list tcs_cmd :=
  commands (tcs_wait v) bucket (recs w l).
Definition array_for (w : icc) (v : bcm_voter) (bucket : nat) (l : list Z) (cmds : list tcs_cmd) : list tcs_cmd :=
  cmds_for w v bucket l ++ drop (length l) cmds.

Lemma length_array_for w v bucket l cmds : present w l -> (length l <= length cmds)%nat ->
  length (array_for w v bucket l cmds) = length cmds.
Proof. intros Hp Hl. unfold array_for, cmds_for. rewrite length_app, length_commands, length_drop, length_recs by done. lia. Qed.

Lemma gen_commit_exec vp v w bucket cmds : icc_voters w !! vp = Some v -> present w (commit_list v) ->
  (length (commit_list v) <= length cmds)%nat ->
  let cs := payloads 0 (sizes (recs w (commit_list v))) in (length cs <= MAX_VCD)%nat ->
  gen_commit vp bucket cmds w = Ok ((array_for w v bucket (commit_list v) cmds, with_zeros cs), w).
Proof.
  intros Hv Hp Hc cs Hl. pose proof (length_recs w _ Hp) as Hr. unfold gen_commit.
  rewrite (st_bind_ok _ _ _ _ _ (the_voter_ok _ _ _ Hv)), (st_bind_ok _ _ _ _ _ (get_bcms_exec _ _ Hp)).
  fold (recs w (commit_list v)). apply st_lift_ok. rewrite tcs_list_gen_tally by lia. cbv zeta.
  rewrite <-payloads_tally. fold cs. rewrite (proj2 (Nat.leb_le _ _)) by done. by rewrite Hr.
Qed.

(** ** Batches for a list *)
Lemma with_zeros_split cs : (length cs < MAX_VCD)%nat -> exists zs, with_zeros cs = (Z.of_nat <$> cs) ++ 0 :: zs.
Proof.
  intros Hl. unfold with_zeros. destruct (MAX_VCD - length cs)%nat as [|m] eqn:E; [lia|]. by eexists.
Qed.

Lemma with_zeros_head vs : (nth 0 (with_zeros (batches vs)) 0 =? 0) = bool_decide (vs = []).
Proof.
  destruct (batches_pos vs) as [Hp Hne]. case_bool_decide as Hv; [by subst|].
  specialize (Hne Hv). destruct (batches vs) as [|c cs]; [done|]. apply Forall_cons in Hp as [Hc _]. cbn. lia.
Qed.

Lemma on_rpmh_ok {A} d (c : ST rpmh A) w r a r' : ctrlrs w !! d = Some r -> c r = Ok (a, r') ->
  on_rpmh d c w = Ok (a, set_ctrlr d r' w).
Proof. unfold on_rpmh. by intros -> ->. Qed.

(** One batch of wake or sleep votes goes to the cache of the controller. *)
Lemma send_bucket_exec vp v w bucket st cmds r : icc_voters w !! vp = Some v -> present w (commit_list v) ->
  length cmds = MAX_BCMS -> commit_list v <> [] -> sendable (domains w (commit_list v)) ->
  StronglySorted before (recs w (commit_list v)) ->
  st = RPMH_WAKE_ONLY_STATE \/ st = RPMH_SLEEP_STATE ->
  ctrlrs w !! vt_dev v = Some r -> r_standalone r = false -> mem_plenty r ->
  let arr := array_for w v bucket (commit_list v) cmds in
  exists r', send_bucket fuel env wenv vp bucket st cmds w = Ok ((0, arr), set_ctrlr (vt_dev v) r' w) /\
    r_batch_cache r' = r_batch_cache r ++ [messages st (batches (domains w (commit_list v))) arr] /\
    r_dirty r' = true /\ r_standalone r' = false /\ r_cache r' = r_cache r /\
    r_in_solver_mode r' = r_in_solver_mode r /\ mem_plenty r' /\ r_drv r' = r_drv r.
Proof.
  intros Hv Hp Hc Hne (L1&L2&L3&L4) Hsrt Hst Hr Hsa Hm arr. rewrite length_domains in L1 by done.
  assert (Ec : payloads 0 (sizes (recs w (commit_list v))) = batches (domains w (commit_list v)))
    by (by apply batches_sorted).
  pose proof (gen_commit_exec vp v w bucket cmds Hv Hp ltac:(lia)) as E. cbv zeta in E. rewrite Ec in E.
  unfold send_bucket. rewrite (st_bind_ok _ _ _ _ _ (E ltac:(lia))), (st_bind_ok _ _ _ _ _ (the_voter_ok _ _ _ Hv)).
  cbn [fst snd]. fold arr. set (cs := batches (domains w (commit_list v))) in *.
  assert (Ha : length arr = MAX_BCMS) by (unfold arr; rewrite length_array_for; lia || done).
  destruct (with_zeros_split cs L2) as (zs&->). destruct (batches_pos (domains w (commit_list v))) as [Hpos Hcs].
  destruct (write_batch_cached fuel env wenv st cs zs (take (foldr Nat.add 0%nat cs) arr)
    (drop (foldr Nat.add 0%nat cs) arr) r) as (r'&E2&Hr'); try done.
  { apply Hcs. intros Hd. apply (f_equal length) in Hd. rewrite length_domains in Hd by done. by destruct (commit_list v). }
  { rewrite length_take. lia. }
  { apply Forall_and. split; [done|]. eapply Forall_impl; [exact L3|]. cbn. rewrite payload_limit. lia. }
  rewrite take_drop in E2. erewrite st_bind_ok by (apply (on_rpmh_ok _ _ _ _ _ _ Hr E2)).
  exists r'. split; [done|]. by rewrite messages_take in Hr'.
Qed.

(** ** The commit *)

(** The state when the votes of the commit list are aggregated. *)
Definition aggregated (w : icc) (v : bcm_voter) : icc :=
  map_bcms (on_list (commit_list v) (revoted w (vt_init v))) w.

(** The call that sends the active votes, on the controller after it was invalidated. *)
Definition amc_call (w : icc) (v : bcm_voter) (cmds : list tcs_cmd) : ST rpmh Z :=
  let l := sorted (aggregated w v) (commit_list v) in
  rpmh_write_batch fuel env wenv RPMH_ACTIVE_ONLY_STATE
    (Some (array_for (aggregated w v) v QCOM_ICC_BUCKET_AMC l cmds))
    (Some (with_zeros (batches (domains w (commit_list v))))).

(** The voter and the controller are fit for a commit. *)
Record commit_ok (w : icc) (vp : Z) (v : bcm_voter) (r : rpmh) (cmds : list tcs_cmd) : Prop := {
  ck_voter : icc_voters w !! vp = Some v;
  ck_nodup : NoDup (commit_list v) /\ NoDup (ws_list v);
  ck_ready : forall p, p ∈ commit_list v -> ready w p;
  ck_present : present w (ws_list v);
  ck_room : sendable (domains w (commit_list v));
  ck_array : length cmds = MAX_BCMS;
  ck_ctrlr : ctrlrs w !! vt_dev v = Some r;
  ck_live : r_standalone r = false /\ mem_plenty r;
}.

(** The result of the active part. *)
Definition goes_on (ra : Z) : bool := (ra =? 0) || (ra =? - EBUSY).

Lemma aggregated_domains w v l : domains (aggregated w v) l = domains w l.
Proof. apply domains_map. intros p b. unfold on_list. by case_decide. Qed.

Lemma ready_present w l : (forall p, p ∈ l -> ready w p) -> present w l.
Proof. intros Hr p Hp. destruct (Hr p Hp) as (b&->&_). eauto. Qed.

(** The state after the active part. *)
Definition amc_state (w : icc) (vp : Z) (v : bcm_voter) : icc :=
  set_voters (<[vp := with_commit v (sorted (aggregated w v) (commit_list v))]>) (aggregated w v).

Section exec.
Context (w : icc) (vp : Z) (v : bcm_voter) (r r1 r2 : rpmh) (cmds : list tcs_cmd) (ra : Z).
Hypothesis (K : commit_ok w vp v r cmds) (Hne : commit_list v <> []).
Hypothesis (Hinv : rpmh_invalidate fuel env r = Ok (0, r1)) (Hamc : amc_call w v cmds r1 = Ok (ra, r2)).

Lemma amc_room : present (aggregated w v) (commit_list v) /\
  present (aggregated w v) (sorted (aggregated w v) (commit_list v)) /\
  length (sorted (aggregated w v) (commit_list v)) = length (commit_list v) /\
  (length (commit_list v) <= MAX_BCMS)%nat.
Proof.
  assert (Hp : present (aggregated w v) (commit_list v))
    by (by apply present_map, ready_present, (ck_ready _ _ _ _ _ K)).
  pose proof (sorted_perm _ _ Hp) as P. destruct (ck_room _ _ _ _ _ K) as [L _].
  rewrite length_domains in L by (apply ready_present, (ck_ready _ _ _ _ _ K)). split_and!; try done.
  - intros p Hl. apply Hp. by rewrite <-P.
  - by rewrite P.
Qed.

Lemma commit_amc_exec : exists cmds', length cmds' = MAX_BCMS /\
  commit_amc fuel env wenv vp cmds w =
    Ok (if goes_on ra then inr (ra, cmds') else inl ra, set_ctrlr (vt_dev v) r2 (amc_state w vp v)).
Proof.
  destruct K as [Hv [Hnd _] Hr _ (_&L2&_) Hc Hd _]. destruct amc_room as (Hp&Hp2&Hlen&Hl).
  unfold commit_amc. rewrite (st_bind_ok _ _ _ _ _ (the_voter_ok _ _ _ Hv)).
  rewrite (st_bind_ok _ _ _ _ _ (agg_list_exec (vt_init v) (commit_list v) w Hnd Hr)). fold (aggregated w v).
  rewrite (st_bind_ok _ _ _ _ _ (sort_commit_exec vp v (aggregated w v) Hv Hp)). fold (amc_state w vp v).
  set (v1 := with_commit v (sorted (aggregated w v) (commit_list v))).
  change (sorted (aggregated w v) (commit_list v)) with (commit_list v1) in Hp2, Hlen |- *.
  pose proof (gen_commit_exec vp v1 (amc_state w vp v) QCOM_ICC_BUCKET_AMC cmds (lookup_insert_eq _ _ _) Hp2
    ltac:(lia)) as E.
  change (recs (amc_state w vp v) (commit_list v1)) with (recs (aggregated w v) (sorted (aggregated w v) (commit_list v))) in E.
  rewrite batches_recs, aggregated_domains in E. cbv zeta in E.
  rewrite (st_bind_ok _ _ _ _ _ (E ltac:(lia))). cbn [fst snd]. rewrite with_zeros_head, bool_decide_eq_false_2.
  2: { intros Hn. apply (f_equal length) in Hn. rewrite length_domains in Hn by (by apply ready_present).
       by destruct (commit_list v). }
  erewrite st_bind_ok by (eapply on_rpmh_ok; [exact Hd|exact Hinv]). cbn [Z.eqb negb].
  assert (Hamc' : rpmh_write_batch fuel env wenv RPMH_ACTIVE_ONLY_STATE
    (Some (array_for (amc_state w vp v) v1 QCOM_ICC_BUCKET_AMC (commit_list v1) cmds))
    (Some (with_zeros (batches (domains w (commit_list v))))) r1 = Ok (ra, r2)) by exact Hamc.
  erewrite st_bind_ok by (eapply on_rpmh_ok; [apply lookup_insert_eq|exact Hamc']).
  eexists. split; [|unfold goes_on, set_ctrlr; cbn [ctrlrs]; rewrite insert_insert_eq;
    by destruct (ra =? 0), (ra =? - EBUSY)].
  rewrite length_array_for; [done|exact Hp2|lia].
Qed.

Lemma amc_ctrlr : r_standalone r2 = false /\ mem_plenty r2 /\ r_batch_cache r2 = [] /\ r_dirty r2 = true /\
  r_cache r2 = r_cache r /\ r_in_solver_mode r2 = r_in_solver_mode r.
Proof.
  destruct (ck_live _ _ _ _ _ K) as [Hs Hm].
  pose proof (invalidate_frame _ _ _ _ _ Hinv Hs) as (A1&A2&A3&A4&A5&A6).
  pose proof (write_batch_active _ _ _ _ _ _ _ _ Hamc) as (B1&B2&B3&B4&B5&B6).
  cbn in *. split_and!; [congruence|by apply B6, A6|congruence..].
Qed.
End exec.
End commit.
