(* ===== verification/IccVoter.v ===== *)
(** * What a commit leaves behind

    The second half of the commit, and its contract: the votes it sends, the sleep and wake
    votes it caches in the controller, and the lists afterwards. *)
From stdpp Require Import sorting.
From S2P Require Import Prelude CMem CmdDb RpmhRsc RpmhSlots RpmhTcs Rpmh RpmhFlush RpmhBatch.
From S2P Require Import Icc IccVotes IccBatch IccCommit.
Open Scope c_scope.

(** ** Commands do not depend on links *)
Definition same_vote (b b' : qcom_icc_bcm) : Prop :=
  aux_data b' = aux_data b /\ bcm_addr b' = bcm_addr b /\ vote_x b' = vote_x b /\ vote_y b' = vote_y b.

Lemma recs_map f w l : (forall p b, same_vote b (f p b)) ->
  Forall2 same_vote (recs w l) (recs (map_bcms f w) l).
Proof.
  intros Hf. induction l as [|p l IH]; [constructor|]. unfold recs, pairs. cbn [omap list_omap].
  rewrite map_bcms_lookup. destruct (icc_bcms w !! p) as [b|]; [|exact IH]. cbn. by constructor.
Qed.

Lemma before_same l l' : Forall2 same_vote l l' -> StronglySorted before l -> StronglySorted before l'.
Proof.
  intros Hl Hs. revert l' Hl. induction Hs as [|b l _ IH Hb]; intros l' Hl.
  - apply Forall2_nil_inv_l in Hl as ->. constructor.
  - apply Forall2_cons_inv_l in Hl as (b'&l1&(Hv&_)&Hl&->). constructor; [by apply IH|].
    clear IH. induction Hl as [|c c' l l1 (Hc&_) _ IH]; [constructor|].
    apply Forall_cons in Hb as [Hbc Hb]. constructor; [|by apply IH]. unfold before in *. congruence.
Qed.

Section commands.
Context `{BcmAbi} `{TcsAbi}.

Lemma commands_same tw bucket l l' : Forall2 same_vote l l' -> commands tw bucket l' = commands tw bucket l.
Proof.
  induction 1 as [|b b' l l' (Ha&Hb&Hx&Hy) Hl IH]; [done|]. cbn [commands].
  assert (Hd : domain_end b' l' = domain_end b l).
  { destruct Hl as [|c c' l l' (Hc&_) _]; [done|]. cbn. by rewrite Ha, Hc. }
  rewrite IH, Hd. unfold command. by rewrite Hb, Hx, Hy.
Qed.

Lemma cmds_map f w v bucket l : (forall p b, same_vote b (f p b)) ->
  cmds_for (map_bcms f w) v bucket l = cmds_for w v bucket l.
Proof. intros Hf. apply commands_same. by apply recs_map. Qed.
End commands.

Lemma on_list_same l g p b : (forall b, same_vote b (g b)) -> same_vote b (on_list l g p b).
Proof. intros Hg. unfold on_list. case_decide; [apply Hg|by split_and!]. Qed.

Lemma unlink_same b : same_vote b (unlink b).
Proof. by split_and!. Qed.

Lemma ws_step_same b : same_vote b (ws_step b).
Proof. unfold ws_step. by case_if; split_and!. Qed.

(** ** The lists after a commit *)

(** A BCM after a commit that goes on, for the lists before it. *)
Definition after_amc (w : icc) (v : bcm_voter) (p : Z) (b : qcom_icc_bcm) : qcom_icc_bcm :=
  if decide (p ∈ commit_list v) then unlink (revoted w (vt_init v) b) else b.

Definition after (w : icc) (v : bcm_voter) (p : Z) (b : qcom_icc_bcm) : qcom_icc_bcm :=
  let b := after_amc w v p b in
  if decide (p ∈ ws_list v) then if ws_differ b then unlink b else with_ws b Unlinked else b.

(** The BCMs whose wake and sleep votes differ. *)
Definition waiting (w : icc) (v : bcm_voter) : list Z :=
  filter (fun p => differs (aggregated w v) p = true) (ws_list v).

Section voter.
Context `{TcsAbi} `{BitmapArea} `{BcmAbi} `{ListSort} `{!SortLaws}.
Context (fuel : nat) (env wenv : nat -> rsc_drv -> rsc_drv).

(** The sleep and wake votes in the controller are those of the list, sorted by domain, counted off
    as [batches] says; when no domain is moved they are exactly those. *)
Definition caches (w : icc) (v : bcm_voter) (l : list Z) (r : rpmh) : Prop :=
  if bool_decide (l = []) then r_batch_cache r = [] else
  exists s rest, s ≡ₚ l /\ StronglySorted before (recs w s) /\
    let cs := batches (domains w l) in
    let votes b := cmds_for w v b s in
    r_batch_cache r = [messages RPMH_WAKE_ONLY_STATE cs (votes QCOM_ICC_BUCKET_WAKE ++ rest);
                       messages RPMH_SLEEP_STATE cs (votes QCOM_ICC_BUCKET_SLEEP ++ rest)] /\
    (unmoved (domains w l) -> foldr Nat.add 0%nat cs = length l /\
     r_batch_cache r = [messages RPMH_WAKE_ONLY_STATE cs (votes QCOM_ICC_BUCKET_WAKE);
                        messages RPMH_SLEEP_STATE cs (votes QCOM_ICC_BUCKET_SLEEP)]).

(** The state changed only in these places. *)
Definition committed (w w' : icc) (vp : Z) (v' : bcm_voter) (d : Z) (r' : rpmh)
    (f : Z -> qcom_icc_bcm -> qcom_icc_bcm) : Prop :=
  w' = set_ctrlr d r' (set_voters (<[vp := v']>) (map_bcms f w)).

Section rest.
Context (w : icc) (vp : Z) (v : bcm_voter) (r r1 r2 : rpmh) (cmds : list tcs_cmd) (ra : Z).
Hypothesis (K : commit_ok w vp v r cmds) (Hne : commit_list v <> []).
Hypothesis (Hinv : rpmh_invalidate fuel env r = Ok (0, r1)) (Hamc : amc_call fuel env wenv w v cmds r1 = Ok (ra, r2)).

(** The state once the commit list is cleared. *)
Definition cleared : icc :=
  set_ctrlr (vt_dev v) r2 (set_voters (<[vp := with_commit v []]>) (map_bcms (after_amc w v) w)).

Lemma clear_amc : clear_commit vp (set_ctrlr (vt_dev v) r2 (amc_state w vp v)) = Ok (tt, cleared).
Proof.
  destruct (amc_room w vp v r cmds K) as (Hp&Hp2&_).
  pose proof (sorted_perm _ _ Hp) as P. unfold amc_state.
  erewrite clear_commit_exec; [|apply lookup_insert_eq|].
  2: { change (present (aggregated w v) (sorted (aggregated w v) (commit_list v))). done. }
  cbn [commit_list with_commit]. do 2 f_equal. unfold cleared.
  assert (E : map_bcms (on_list (sorted (aggregated w v) (commit_list v)) unlink) (aggregated w v) =
    map_bcms (after_amc w v) w).
  { unfold aggregated. rewrite map_bcms_map. apply map_bcms_ext. intros p b _. unfold on_list, after_amc.
    fold (aggregated w v). destruct (decide (p ∈ commit_list v)) as [Hl|Hl].
    - by rewrite decide_True by (by rewrite P).
    - by rewrite decide_False by (by rewrite P). }
  rewrite <-E. unfold set_voters, set_ctrlr. cbn. by rewrite insert_insert_eq.
Qed.

Lemma cleared_differs p : differs cleared p = differs (aggregated w v) p.
Proof.
  unfold differs. change (icc_bcms cleared) with (icc_bcms (map_bcms (after_amc w v) w)).
  unfold aggregated. rewrite !map_bcms_lookup. destruct (icc_bcms w !! p) as [b|]; [|done]. cbn.
  unfold after_amc, on_list. by case_decide.
Qed.

(** The state when the differing BCMs are queued again. *)
Definition queued : icc :=
  set_ctrlr (vt_dev v) r2 (set_voters (<[vp := with_wslist (with_commit v (waiting w v)) (waiting w v)]>)
    (map_bcms (fun p b => on_list (ws_list v) ws_step p (after_amc w v p b)) w)).

Lemma ws_queued : ws_loop (ws_list v) vp cleared = Ok (tt, queued).
Proof.
  destruct K as [Hv [_ Hnd] _ Hp _ _ _ _].
  rewrite (ws_loop_exec vp (ws_list v) cleared (with_commit v [])); [|done|exact (present_map _ w _ Hp)|apply lookup_insert_eq].
  do 2 f_equal. unfold ws_voter. cbn [commit_list with_commit ws_list app].
  rewrite (filter_ext_in _ (fun p => differs (aggregated w v) p = true) (ws_list v)) by (intros p _; by rewrite cleared_differs).
  fold (waiting w v).
  rewrite (filter_ext_in (fun q => ~ (q ∈ ws_list v /\ differs cleared q = false))
             (fun p => differs (aggregated w v) p = true) (ws_list v)).
  2: { intros p Hp'. rewrite cleared_differs. destruct (differs (aggregated w v) p); naive_solver. }
  fold (waiting w v). unfold queued, cleared.
  rewrite <-(map_bcms_map (after_amc w v) (on_list (ws_list v) ws_step)).
  unfold set_voters, set_ctrlr, map_bcms, set_bcms. cbn. by rewrite insert_insert_eq.
Qed.

Lemma queued_present l : present w l -> present queued l.
Proof. exact (present_map _ w l). Qed.

(** The BCMs are as after the commit, but for the links of those queued. *)
Lemma queued_after l : l ≡ₚ waiting w v ->
  map_bcms (on_list l unlink) (map_bcms (fun p b => on_list (ws_list v) ws_step p (after_amc w v p b)) w) =
  map_bcms (after w v) w.
Proof.
  intros P. rewrite map_bcms_map. apply map_bcms_ext. intros p b Hb. unfold after, on_list at 2, ws_step.
  set (b1 := after_amc w v p b).
  assert (D : differs (aggregated w v) p = ws_differ b1).
  { rewrite <-cleared_differs. unfold differs. change (icc_bcms cleared) with (icc_bcms (map_bcms (after_amc w v) w)).
    by rewrite map_bcms_lookup, Hb. }
  unfold on_list. destruct (decide (p ∈ ws_list v)) as [Hw|Hw].
  - destruct (ws_differ b1) eqn:E.
    + by rewrite decide_True by (rewrite P; apply list_elem_of_filter; rewrite D; done).
    + rewrite decide_False; [done|]. rewrite P. intros [Hx _]%list_elem_of_filter. congruence.
  - rewrite decide_False; [done|]. rewrite P. by intros [_ Hx]%list_elem_of_filter.
Qed.

(** The voter and the state while the sleep and wake votes are sent. *)
Definition sending_voter : bcm_voter :=
  with_wslist (with_commit v (sorted (queued) (waiting w v))) (waiting w v).
Definition sending (r : rpmh) : icc :=
  set_ctrlr (vt_dev v) r (set_voters (<[vp := sending_voter]>) queued).

Lemma waiting_present : present w (waiting w v).
Proof. intros p [_ Hp]%list_elem_of_filter. by apply (ck_present _ _ _ _ _ K). Qed.

Lemma waiting_sorted : present queued (sorted queued (waiting w v)) /\
  sorted queued (waiting w v) ≡ₚ waiting w v.
Proof.
  pose proof (queued_present _ waiting_present) as Hp. pose proof (sorted_perm _ _ Hp) as P.
  split; [|done]. intros p Hl. apply Hp. by rewrite <-P.
Qed.

(** The commands are the ones of the final votes. *)
Lemma queued_cmds bucket l : cmds_for queued v bucket l = cmds_for (map_bcms (after w v) w) v bucket l.
Proof.
  rewrite <-(queued_after (waiting w v)) by done. rewrite cmds_map; [done|].
  intros p b. apply on_list_same, unlink_same.
Qed.

Lemma queued_domains l : domains queued l = domains w l.
Proof.
  unfold queued. change (domains (map_bcms (fun p b => on_list (ws_list v) ws_step p (after_amc w v p b)) w) l = domains w l).
  apply domains_map. intros p b. unfold on_list, ws_step, after_amc. repeat case_decide; try case_if; done.
Qed.

Lemma domains_perm w' l l' : l ≡ₚ l' -> domains w' l ≡ₚ domains w' l'.
Proof. intros P. unfold domains, vcds, recs, pairs. by rewrite P. Qed.

Lemma batches_perm vs vs' : vs ≡ₚ vs' -> batches vs = batches vs'.
Proof.
  intros P. unfold batches. do 2 f_equal. apply (StronglySorted_unique Z.le);
    [apply StronglySorted_merge_sort; intros x y; lia..|]. by rewrite !merge_sort_Permutation.
Qed.

Lemma sendable_perm vs vs' : vs ≡ₚ vs' -> sendable vs -> sendable vs'.
Proof. intros P. unfold sendable. by rewrite (batches_perm _ _ P), P. Qed.

Lemma send_waiting bucket st rr arr : waiting w v <> [] -> sendable (domains w (waiting w v)) ->
  length arr = MAX_BCMS -> st = RPMH_WAKE_ONLY_STATE \/ st = RPMH_SLEEP_STATE ->
  r_standalone rr = false -> mem_plenty rr ->
  let arr' := cmds_for (map_bcms (after w v) w) v bucket (sorted queued (waiting w v)) ++ drop (length (waiting w v)) arr in
  exists r', send_bucket fuel env wenv vp bucket st arr (sending rr) = Ok ((0, arr'), sending r') /\
    length arr' = MAX_BCMS /\
    r_batch_cache r' = r_batch_cache rr ++ [messages st (batches (domains w (waiting w v))) arr'] /\
    r_dirty r' = true /\ r_standalone r' = false /\ r_cache r' = r_cache rr /\
    r_in_solver_mode r' = r_in_solver_mode rr /\ mem_plenty r' /\ r_drv r' = r_drv rr.
Proof.
  intros Hw Hroom Ha Hst Hs Hm arr'. destruct waiting_sorted as [Hp P].
  assert (Hlen : length (sorted queued (waiting w v)) = length (waiting w v)) by (by rewrite P).
  assert (Pd : domains queued (sorted queued (waiting w v)) ≡ₚ domains w (waiting w v))
    by (rewrite <-queued_domains; by apply domains_perm).
  assert (Hq : sorted queued (waiting w v) <> []) by (intros E; rewrite E in Hlen; by destruct (waiting w v)).
  assert (Hle : (length (waiting w v) <= length arr)%nat).
  { destruct Hroom as [L _]. rewrite length_domains in L; [lia|apply waiting_present]. }
  destruct (send_bucket_exec fuel env wenv vp sending_voter (sending rr) bucket st arr rr)
    as (r'&E&B); try done; try (by apply lookup_insert_eq).
  { apply (sendable_perm (domains w (waiting w v))); [by symmetry|done]. }
  { exact (recs_sorted queued (waiting w v)). }
  change (commit_list sending_voter) with (sorted queued (waiting w v)) in E, B.
  assert (A : array_for (sending rr) sending_voter bucket (sorted queued (waiting w v)) arr = arr').
  { unfold array_for, arr'. rewrite Hlen. f_equal. by rewrite <-queued_cmds. }
  rewrite A in E, B. exists r'. split; [|split].
  - rewrite E. unfold sending, set_ctrlr. cbn. by rewrite !insert_insert_eq.
  - rewrite <-A, length_array_for; [done|exact Hp|lia].
  - change (domains (sending rr)) with (domains queued) in B. by rewrite (batches_perm _ _ Pd) in B.
Qed.

(** The second array keeps what was behind the commands of the first. *)
Lemma send_both rr arr : waiting w v <> [] -> sendable (domains w (waiting w v)) -> length arr = MAX_BCMS ->
  r_standalone rr = false -> mem_plenty rr -> r_batch_cache rr = [] ->
  exists r3 r4 arr3 arr4,
    send_bucket fuel env wenv vp QCOM_ICC_BUCKET_WAKE RPMH_WAKE_ONLY_STATE arr (sending rr) = Ok ((0, arr3), sending r3) /\
    send_bucket fuel env wenv vp QCOM_ICC_BUCKET_SLEEP RPMH_SLEEP_STATE arr3 (sending r3) = Ok ((0, arr4), sending r4) /\
    caches (map_bcms (after w v) w) v (waiting w v) r4 /\ r_dirty r4 = true /\ r_cache r4 = r_cache rr.
Proof.
  intros Hw Hroom Ha Hs Hm Hb. destruct waiting_sorted as [Hp P].
  destruct (send_waiting QCOM_ICC_BUCKET_WAKE RPMH_WAKE_ONLY_STATE rr arr Hw Hroom Ha (or_introl eq_refl) Hs Hm)
    as (r3&E3&L3&B3&D3&S3&R3&M3&P3&_). set (arr3 := _ ++ _) in E3, L3, B3.
  destruct (send_waiting QCOM_ICC_BUCKET_SLEEP RPMH_SLEEP_STATE r3 arr3 Hw Hroom L3 (or_intror eq_refl) S3 P3)
    as (r4&E4&_&B4&D4&_&R4&_). eexists r3, r4, _, _. split; [exact E3|]. split; [exact E4|].
  split; [|split; [done|congruence]]. unfold caches. rewrite bool_decide_eq_false_2 by done.
  assert (Hd : domains (map_bcms (after w v) w) (waiting w v) = domains w (waiting w v)).
  { apply domains_map. intros p b. unfold after, after_amc. repeat case_decide; try case_if; done. }
  rewrite Hd. exists (sorted queued (waiting w v)), (drop (length (waiting w v)) arr).
  assert (Hlen : forall b, length (cmds_for (map_bcms (after w v) w) v b (sorted queued (waiting w v))) = length (waiting w v)).
  { intros b. unfold cmds_for. rewrite length_commands, length_recs, P; [done|].
    apply present_map. intros p Hl. apply waiting_present. by rewrite <-P. }
  assert (B : r_batch_cache r4 =
    [messages RPMH_WAKE_ONLY_STATE (batches (domains w (waiting w v)))
       (cmds_for (map_bcms (after w v) w) v QCOM_ICC_BUCKET_WAKE (sorted queued (waiting w v)) ++ drop (length (waiting w v)) arr);
     messages RPMH_SLEEP_STATE (batches (domains w (waiting w v)))
       (cmds_for (map_bcms (after w v) w) v QCOM_ICC_BUCKET_SLEEP (sorted queued (waiting w v)) ++ drop (length (waiting w v)) arr)]).
  { rewrite B4, B3, Hb. unfold arr3. by rewrite drop_app_length' by (symmetry; apply Hlen). }
  split; [done|]. split; [|split; [exact B|]].
  - rewrite <-(queued_after (waiting w v)) by done.
    eapply before_same; [apply recs_map; intros p b; apply on_list_same, unlink_same|].
    exact (recs_sorted queued (waiting w v)).
  - intros Hu. pose proof (unmoved_sum w _ waiting_present Hu) as Hsum. split; [done|]. rewrite B.
    rewrite <-!(messages_take _ _ (_ ++ _) (length (waiting w v))) by lia.
    by rewrite !take_app_length' by (symmetry; apply Hlen).
Qed.

Lemma commit_ws_exec arr : length arr = MAX_BCMS -> sendable (domains w (waiting w v)) ->
  exists ret r' w', (let! ret := commit_ws fuel env wenv vp ra arr in clear_commit vp ;;; st_ret ret)
      (set_ctrlr (vt_dev v) r2 (amc_state w vp v)) = Ok (ret, w') /\
    ret = (if bool_decide (waiting w v = []) then ra else 0) /\
    committed w w' vp (with_wslist (with_commit v []) (waiting w v)) (vt_dev v) r' (after w v) /\
    caches w' v (waiting w v) r' /\ r_dirty r' = true /\ r_cache r' = r_cache r.
Proof.
  intros Ha Hroom. pose proof (amc_ctrlr fuel env wenv w vp v r r1 r2 cmds ra K Hinv Hamc) as (C1&C2&C3&C4&C5&C6).
  unfold commit_ws. rewrite st_bind_bind, (st_bind_ok _ _ _ _ _ clear_amc). rewrite st_bind_bind.
  erewrite st_bind_ok by (apply the_voter_ok, lookup_insert_eq). cbn [ws_list with_commit].
  rewrite st_bind_bind, (st_bind_ok _ _ _ _ _ ws_queued), st_bind_bind.
  erewrite st_bind_ok by (apply the_voter_ok, lookup_insert_eq). cbn [commit_list with_wslist with_commit].
  case_bool_decide as Hw.
  - rewrite st_bind_ret. erewrite st_bind_ok.
    2: { eapply clear_commit_exec; [apply lookup_insert_eq|]. cbn. rewrite Hw. by intros p Hp%not_elem_of_nil. }
    eexists ra, r2, _. split; [reflexivity|]. split; [done|]. split_and!; [|unfold caches; by rewrite Hw, bool_decide_eq_true_2|done|done].
    unfold committed. cbn [commit_list with_wslist with_commit]. rewrite <-(queued_after (waiting w v)) by done.
    unfold queued, set_voters, set_ctrlr, map_bcms, set_bcms. cbn. by rewrite insert_insert_eq.
  - destruct waiting_sorted as [Hp P]. rewrite st_bind_bind. erewrite st_bind_ok.
    2: { eapply sort_commit_exec; [apply lookup_insert_eq|]. exact (queued_present _ waiting_present). }
    cbn [commit_list with_commit with_wslist].
    assert (E : set_voters (<[vp := with_commit (with_wslist (with_commit v (waiting w v)) (waiting w v)) (sorted queued (waiting w v))]>) queued = sending r2)
      by (unfold sending, set_ctrlr, queued, set_voters; cbn; by rewrite !insert_insert_eq).
    rewrite E. clear E.
    destruct (send_both r2 arr Hw Hroom Ha C1 C2 C3) as (r3&r4&arr3&arr4&E3&E4&B4&D4&R4).
    rewrite st_bind_bind, (st_bind_ok _ _ _ _ _ E3). cbn [fst snd Z.eqb negb].
    rewrite st_bind_bind, (st_bind_ok _ _ _ _ _ E4). cbn [fst snd]. rewrite st_bind_ret.
    erewrite st_bind_ok by (eapply clear_commit_exec; [apply lookup_insert_eq|exact Hp]).
    eexists 0, r4, _. split; [reflexivity|]. split; [done|].
    assert (F : committed w (set_voters (<[vp := with_commit sending_voter []]>)
       (map_bcms (on_list (commit_list sending_voter) unlink) (sending r4)))
       vp (with_wslist (with_commit v []) (waiting w v)) (vt_dev v) r4 (after w v)).
    { unfold committed. cbn [commit_list sending_voter with_wslist with_commit]. rewrite <-(queued_after _ P).
      unfold sending, queued, set_voters, set_ctrlr, map_bcms, set_bcms. cbn. by rewrite !insert_insert_eq. }
    split_and!; [exact F|by rewrite F|done|congruence].
Qed.
End rest.

Lemma sorted_nil w : sorted w [] = [].
Proof. apply Permutation_nil_r. exact (sorted_perm w [] ltac:(by intros p Hp%not_elem_of_nil)). Qed.

(** Nothing to commit. *)
Lemma commit_nothing w vp v cmds : icc_voters w !! vp = Some v -> commit_list v = [] -> length cmds = MAX_BCMS ->
  qcom_icc_bcm_voter_commit fuel env wenv (Some vp) cmds w = Ok (0, w).
Proof.
  intros Hv Hn Hc. assert (Hp : present w (commit_list v)) by (rewrite Hn; by intros p Hp%not_elem_of_nil).
  assert (Hw : set_voters (<[vp := v]>) w = w) by (destruct w; unfold set_voters; cbn in *; by rewrite insert_id).
  assert (Hs : with_commit v [] = v) by (destruct v; cbn in *; by subst).
  unfold qcom_icc_bcm_voter_commit, commit_amc.
  rewrite st_bind_bind, (st_bind_ok _ _ _ _ _ (the_voter_ok _ _ _ Hv)), Hn. cbn [agg_list].
  rewrite st_bind_bind, st_bind_ret, st_bind_bind.
  rewrite (st_bind_ok _ _ _ _ _ (sort_commit_exec vp v w Hv Hp)), Hn, sorted_nil, Hs, Hw.
  rewrite st_bind_bind.
  pose proof (gen_commit_exec vp v w QCOM_ICC_BUCKET_AMC cmds Hv Hp) as E. rewrite Hn in E.
  rewrite (st_bind_ok _ _ _ _ _ (E ltac:(cbn; lia) ltac:(cbn; unfold MAX_VCD; lia))). cbn [fst snd].
  change (payloads 0 (sizes (recs w []))) with (batches []). rewrite with_zeros_head, bool_decide_eq_true_2 by done.
  rewrite !st_bind_ret. rewrite (st_bind_ok _ _ _ _ _ (clear_commit_exec vp v w Hv Hp)), Hn, on_list_nil, Hs, Hw. done.
Qed.

(** The early exit: the commit list is cleared. *)
Lemma commit_refused w vp v r r1 r2 cmds ra : commit_ok w vp v r cmds -> commit_list v <> [] ->
  rpmh_invalidate fuel env r = Ok (0, r1) -> amc_call fuel env wenv w v cmds r1 = Ok (ra, r2) ->
  goes_on ra = false ->
  exists w', qcom_icc_bcm_voter_commit fuel env wenv (Some vp) cmds w = Ok (ra, w') /\
    committed w w' vp (with_commit v []) (vt_dev v) r2 (after_amc w v).
Proof.
  intros K Hne Hinv Hamc Hg. unfold qcom_icc_bcm_voter_commit.
  destruct (commit_amc_exec fuel env wenv w vp v r r1 r2 cmds ra K Hne Hinv Hamc) as (arr&_&E).
  rewrite (st_bind_ok _ _ _ _ _ E), Hg, st_bind_ret.
  rewrite (st_bind_ok _ _ _ _ _ (clear_amc w vp v r r2 cmds K)). by eexists.
Qed.

(** Both together. *)
Lemma commit_exec w vp v r r1 r2 cmds ra :
  commit_ok w vp v r cmds -> sendable (domains w (waiting w v)) ->
  rpmh_invalidate fuel env r = Ok (0, r1) -> amc_call fuel env wenv w v cmds r1 = Ok (ra, r2) ->
  exists ret w', qcom_icc_bcm_voter_commit fuel env wenv (Some vp) cmds w = Ok (ret, w') /\
    (commit_list v = [] -> ret = 0 /\ w' = w) /\
    (commit_list v <> [] -> exists r', r_dirty r' = true /\ r_cache r' = r_cache r /\
       if goes_on ra then
         ret = (if bool_decide (waiting w v = []) then ra else 0) /\
         committed w w' vp (with_wslist (with_commit v []) (waiting w v)) (vt_dev v) r' (after w v) /\
         caches w' v (waiting w v) r'
       else ret = ra /\ committed w w' vp (with_commit v []) (vt_dev v) r' (after_amc w v) /\
         r_batch_cache r' = []).
Proof.
  intros K Hroom Hinv Hamc. destruct (decide (commit_list v = [])) as [Hn|Hne].
  { eexists 0, w. split; [by apply (commit_nothing w vp v); [apply K| |apply K]|]. split; [done|by intros []]. }
  pose proof (amc_ctrlr fuel env wenv w vp v r r1 r2 cmds ra K Hinv Hamc) as (_&_&C3&C4&C5&_).
  destruct (goes_on ra) eqn:Hg.
  - destruct (commit_amc_exec fuel env wenv w vp v r r1 r2 cmds ra K Hne Hinv Hamc) as (arr&Ha&E).
    destruct (commit_ws_exec w vp v r r1 r2 cmds ra K Hne Hinv Hamc arr Ha Hroom)
      as (ret&r'&w'&E2&Hret&Hc&Hs&Hd&Hcache).
    exists ret, w'. split; [|split; [done|]].
    + unfold qcom_icc_bcm_voter_commit. rewrite (st_bind_ok _ _ _ _ _ E), Hg. exact E2.
    + intros _. by exists r'.
  - destruct (commit_refused w vp v r r1 r2 cmds ra K Hne Hinv Hamc Hg) as (w'&E&Hc).
    exists ra, w'. split; [exact E|]. split; [done|]. intros _. by exists r2.
Qed.

End voter.
