(* ===== verification/IccLists.v ===== *)
(** * The lists of the voters

    Every BCM belongs to one voter, its owner.  It is on the commit list of its owner exactly
    when its link says so, once, and the same holds for the list of wake and sleep votes.  The
    calls keep this, in any order, and every allowed call returns. *)
From stdpp Require Import sorting.
From S2P Require Import Prelude CMem CmdDb RpmhRsc RpmhSlots RpmhTcs Rpmh RpmhFlush RpmhBatch.
From S2P Require Import Icc IccVotes IccBatch IccCommit IccVoter.
Open Scope c_scope.

#[export] Instance link_eq_dec : EqDecision link.
Proof. solve_decision. Defined.

Section lists.
Context (owner : Z -> Z).

(** ** Lists and links *)

(** The lists of the voters [L] and the links of the BCMs [K] agree. *)
Record listed (L : gmap Z (list Z)) (K : gmap Z link) : Prop := {
  li_list vp l : L !! vp = Some l -> NoDup l /\ forall p, p ∈ l -> owner p = vp /\ K !! p = Some Linked;
  li_link p : K !! p = Some Linked -> exists l, L !! owner p = Some l /\ p ∈ l;
}.

(** What is linked stays where it is, but for one list. *)
Lemma listed_replace L K vp l l' K' : listed L K -> L !! vp = Some l -> NoDup l' ->
  (forall p, p ∈ l' -> owner p = vp /\ K' !! p = Some Linked) ->
  (forall p, owner p <> vp -> K' !! p = Some Linked <-> K !! p = Some Linked) ->
  (forall p, owner p = vp -> K' !! p = Some Linked -> p ∈ l') ->
  listed (<[vp := l']> L) K'.
Proof.
  intros [H1 H2] Hl Hnd Hin Hother Hmine. constructor.
  - intros v m. destruct (decide (v = vp)) as [->|Hne].
    + rewrite lookup_insert_eq. intros [= <-]. by split.
    + rewrite lookup_insert_ne by done. intros Hm. destruct (H1 v m Hm) as [N M]. split; [done|].
      intros p Hp. destruct (M p Hp) as [<- Hk]. split; [done|]. by apply Hother.
  - intros p Hk. destruct (decide (owner p = vp)) as [Ho|Ho].
    + rewrite Ho, lookup_insert_eq. eauto.
    + rewrite lookup_insert_ne by done. apply H2. by apply Hother.
Qed.

Lemma listed_mine L K vp l p : listed L K -> L !! vp = Some l -> owner p = vp -> K !! p = Some Linked -> p ∈ l.
Proof. intros [_ H2] Hl Ho Hk. destruct (H2 p Hk) as (m&Hm&Hp). rewrite Ho in Hm. by simplify_eq. Qed.

Lemma listed_add L K vp l p k : listed L K -> L !! vp = Some l -> owner p = vp -> K !! p = Some k -> k <> Linked ->
  listed (<[vp := l ++ [p]]> L) (<[p := Linked]> K).
Proof.
  intros HL Hl Ho Hk Hne. destruct (li_list _ _ HL vp l Hl) as [Hnd Hin]. apply (listed_replace L K vp l); try done.
  - apply NoDup_app. split_and!; [done| |by apply NoDup_singleton].
    intros q Hq ->%list_elem_of_singleton. destruct (Hin p Hq) as [_ E]. congruence.
  - intros q [Hq| ->%list_elem_of_singleton]%elem_of_app; [|by rewrite lookup_insert_eq].
    destruct (Hin q Hq) as [? E]. split; [done|]. by destruct (decide (q = p)) as [->|]; [rewrite lookup_insert_eq|rewrite lookup_insert_ne].
  - intros q Hq. rewrite lookup_insert_ne by congruence. done.
  - intros q Hq E. apply elem_of_app. destruct (decide (q = p)) as [->|Hqp]; [right; by apply list_elem_of_singleton|left].
    rewrite lookup_insert_ne in E by done. by apply (listed_mine L K vp l).
Qed.

(** A voter's list becomes the part of it that stays linked. *)
Lemma listed_shrink L K vp l l' K' : listed L K -> L !! vp = Some l -> NoDup l' -> (forall p, p ∈ l' -> p ∈ l) ->
  (forall p, owner p <> vp -> K' !! p = Some Linked <-> K !! p = Some Linked) ->
  (forall p, owner p = vp -> K' !! p = Some Linked <-> p ∈ l') ->
  listed (<[vp := l']> L) K'.
Proof.
  intros HL Hl Hnd Hsub Ho Hm. destruct (li_list _ _ HL vp l Hl) as [_ Hin].
  apply (listed_replace L K vp l); try done.
  - intros p Hp. destruct (Hin p (Hsub p Hp)) as [E _]. split; [done|]. by apply Hm.
  - intros p E Hk. by apply Hm.
Qed.

Lemma listed_voter L K vp : listed L K -> L !! vp = None -> listed (<[vp := []]> L) K.
Proof.
  intros [H1 H2] Hl. constructor.
  - intros v l. rewrite lookup_insert_Some. intros [[<- <-]|[Hne Hv]]; [|by apply H1].
    split; [constructor|]. by intros p Hp%not_elem_of_nil.
  - intros p Hk. destruct (H2 p Hk) as (l&Hp&Hin). exists l. split; [|done].
    rewrite lookup_insert_ne; [done|congruence].
Qed.

(** A BCM that is not linked gets another link. *)
Lemma listed_relink L K p k k' : listed L K -> K !! p = Some k -> k <> Linked -> k' <> Linked ->
  listed L (<[p := k']> K).
Proof.
  intros [H1 H2] Hk Hne Hne'. constructor.
  - intros v l Hl. destruct (H1 v l Hl) as [N M]. split; [done|]. intros q Hq. destruct (M q Hq) as [? E].
    split; [done|]. rewrite lookup_insert_ne; [done|congruence].
  - intros q. rewrite lookup_insert_Some. intros [[_ E]|[_ E]]; [congruence|by apply H2].
Qed.

(** ** The state *)
Definition commits (w : icc) : gmap Z (list Z) := commit_list <$> icc_voters w.
Definition commit_links (w : icc) : gmap Z link := bcm_list <$> icc_bcms w.
Definition wss (w : icc) : gmap Z (list Z) := ws_list <$> icc_voters w.
Definition ws_links (w : icc) : gmap Z link := bcm_ws_list <$> icc_bcms w.

(** A BCM is of no use before it is initialised. *)
Definition fresh_ok (b : qcom_icc_bcm) : Prop :=
  bcm_addr b = 0 -> bcm_list b = Uninit /\ bcm_ws_list b = Uninit.

Record lists_ok (w : icc) : Prop := {
  lo_commit : listed (commits w) (commit_links w);
  lo_ws : listed (wss w) (ws_links w);
  lo_fresh p b : icc_bcms w !! p = Some b -> fresh_ok b;
}.

Lemma lists_ok_same w w' : commits w' = commits w -> commit_links w' = commit_links w -> wss w' = wss w ->
  ws_links w' = ws_links w -> (forall p b, icc_bcms w' !! p = Some b -> fresh_ok b) -> lists_ok w -> lists_ok w'.
Proof. intros E1 E2 E3 E4 Hf [H1 H2 _]. constructor; rewrite ?E1, ?E2, ?E3, ?E4; done. Qed.

Lemma commit_facts w vp v : lists_ok w -> icc_voters w !! vp = Some v ->
  NoDup (commit_list v) /\ NoDup (ws_list v) /\ present w (commit_list v) /\ present w (ws_list v).
Proof.
  intros [H1 H2 _] Hv.
  destruct (li_list _ _ H1 vp (commit_list v)) as [N1 M1]; [unfold commits; by rewrite lookup_fmap, Hv|].
  destruct (li_list _ _ H2 vp (ws_list v)) as [N2 M2]; [unfold wss; by rewrite lookup_fmap, Hv|].
  split_and!; try done.
  - intros p [_ E]%M1. unfold commit_links in E. rewrite lookup_fmap in E. by destruct (icc_bcms w !! p).
  - intros p [_ E]%M2. unfold ws_links in E. rewrite lookup_fmap in E. by destruct (icc_bcms w !! p).
Qed.

(** ** Queueing a BCM *)
Lemma queue_commit w p b vp v : lists_ok w -> icc_bcms w !! p = Some b -> icc_voters w !! vp = Some v ->
  owner p = vp -> bcm_list b = Unlinked ->
  lists_ok (set_voters (<[vp := with_commit v (commit_list v ++ [p])]>) (set_bcms (<[p := with_link b Linked]>) w)).
Proof.
  intros [H1 H2 H3] Hb Hv Ho Hl. constructor.
  - unfold commits, commit_links. cbn. rewrite !fmap_insert. cbn.
    apply (listed_add _ _ _ (commit_list v) _ Unlinked); try done; by rewrite lookup_fmap, ?Hv, ?Hb; cbn; rewrite ?Hl.
  - unfold wss, ws_links. cbn. rewrite !fmap_insert. cbn.
    rewrite (insert_id (ws_list <$> icc_voters w)) by (by rewrite lookup_fmap, Hv).
    by rewrite (insert_id (bcm_ws_list <$> icc_bcms w)) by (by rewrite lookup_fmap, Hb).
  - intros q c. cbn. rewrite lookup_insert_Some. intros [[<- <-]|[_ Hc]]; [|by eapply H3].
    intros Ha. destruct (H3 p b Hb Ha) as [E _]. congruence.
Qed.

Lemma queue_ws w p b vp v : lists_ok w -> icc_bcms w !! p = Some b -> icc_voters w !! vp = Some v ->
  owner p = vp -> bcm_ws_list b = Unlinked ->
  lists_ok (set_voters (<[vp := with_wslist v (ws_list v ++ [p])]>) (set_bcms (<[p := with_ws b Linked]>) w)).
Proof.
  intros [H1 H2 H3] Hb Hv Ho Hl. constructor.
  - unfold commits, commit_links. cbn. rewrite !fmap_insert. cbn.
    rewrite (insert_id (commit_list <$> icc_voters w)) by (by rewrite lookup_fmap, Hv).
    by rewrite (insert_id (bcm_list <$> icc_bcms w)) by (by rewrite lookup_fmap, Hb).
  - unfold wss, ws_links. cbn. rewrite !fmap_insert. cbn.
    apply (listed_add _ _ _ (ws_list v) _ Unlinked); try done; by rewrite lookup_fmap, ?Hv, ?Hb; cbn; rewrite ?Hl.
  - intros q c. cbn. rewrite lookup_insert_Some. intros [[<- <-]|[_ Hc]]; [|by eapply H3].
    intros Ha. destruct (H3 p b Hb Ha) as [_ E]. congruence.
Qed.

(** Which objects there are, and what a queueing leaves alone. *)
Record queued_rest (w w' : icc) : Prop := {
  qr_nodes : icc_nodes w' = icc_nodes w;
  qr_rest : ctrlrs w' = ctrlrs w /\ cmd_db w' = cmd_db w /\ cmd_db_header w' = cmd_db_header w /\
    bcm_voters w' = bcm_voters w /\ qos_set w' = qos_set w;
  qr_voter vp v : icc_voters w !! vp = Some v -> exists v', icc_voters w' !! vp = Some v' /\
    (forall q, q ∈ commit_list v -> q ∈ commit_list v') /\ (forall q, q ∈ ws_list v -> q ∈ ws_list v');
  qr_bcm p b : icc_bcms w !! p = Some b -> exists b', icc_bcms w' !! p = Some b' /\ same_vote b b' /\
    voter_idx b' = voter_idx b /\ (bcm_list b <> Uninit -> bcm_list b' <> Uninit) /\
    (bcm_ws_list b <> Uninit -> bcm_ws_list b' <> Uninit);
}.

Lemma queued_rest_refl w : queued_rest w w.
Proof. constructor; [done|done|eauto|]. intros p b Hb. exists b. by split_and!. Qed.

Lemma queued_rest_trans w1 w2 w3 : queued_rest w1 w2 -> queued_rest w2 w3 -> queued_rest w1 w3.
Proof.
  intros [A1 A2 A3 A4] [B1 B2 B3 B4]. constructor.
  - congruence.
  - destruct A2 as (?&?&?&?&?), B2 as (?&?&?&?&?). split_and!; congruence.
  - intros vp v Hv. destruct (A3 vp v Hv) as (v2&Hv2&C1&C2). destruct (B3 vp v2 Hv2) as (v3&Hv3&D1&D2).
    exists v3. split_and!; auto.
  - intros p b Hb. destruct (A4 p b Hb) as (b2&Hb2&(S1&S2&S3&S4)&I1&I2&I3).
    destruct (B4 p b2 Hb2) as (b3&Hb3&(T1&T2&T3&T4)&J1&J2&J3). exists b3. split_and!; try congruence; [|auto|auto].
    split_and!; congruence.
Qed.

(** One put of a BCM and of a voter whose lists grow. *)
Lemma queued_rest_put w p b b' vp v v' : icc_bcms w !! p = Some b -> icc_voters w !! vp = Some v ->
  same_vote b b' -> voter_idx b' = voter_idx b -> (bcm_list b <> Uninit -> bcm_list b' <> Uninit) ->
  (bcm_ws_list b <> Uninit -> bcm_ws_list b' <> Uninit) ->
  (forall q, q ∈ commit_list v -> q ∈ commit_list v') -> (forall q, q ∈ ws_list v -> q ∈ ws_list v') ->
  queued_rest w (set_voters (<[vp := v']>) (set_bcms (<[p := b']>) w)).
Proof.
  intros Hb Hv Hs Hi H1 H2 H3 H4. constructor; [done|done| |].
  - intros u x Hu. cbn. destruct (decide (u = vp)) as [->|Hne].
    + rewrite lookup_insert_eq. simplify_eq. eauto.
    + rewrite lookup_insert_ne by done. eauto.
  - intros q c Hq. cbn. destruct (decide (q = p)) as [->|Hne].
    + rewrite lookup_insert_eq. simplify_eq. exists b'. by split_and!.
    + rewrite lookup_insert_ne by done. exists c. by split_and!.
Qed.

(** Queued, for the lists of the owner. *)
Definition on_commit (w : icc) (p : Z) : Prop := exists v, icc_voters w !! owner p = Some v /\ p ∈ commit_list v.
Definition on_ws (w : icc) (p : Z) : Prop := exists v, icc_voters w !! owner p = Some v /\ p ∈ ws_list v.

Lemma on_commit_rest w w' p : queued_rest w w' -> on_commit w p -> on_commit w' p.
Proof. intros Q (v&Hv&Hp). destruct (qr_voter _ _ Q _ _ Hv) as (v'&Hv'&H1&_). exists v'. auto. Qed.
Lemma on_ws_rest w w' p : queued_rest w w' -> on_ws w p -> on_ws w' p.
Proof. intros Q (v&Hv&Hp). destruct (qr_voter _ _ Q _ _ Hv) as (v'&Hv'&_&H2). exists v'. auto. Qed.

Lemma linked_commit w p b : lists_ok w -> icc_bcms w !! p = Some b -> bcm_list b = Linked -> on_commit w p.
Proof.
  intros [H1 _ _] Hb Hl. destruct (li_link _ _ H1 p) as (l&HL&Hp); [unfold commit_links; by rewrite lookup_fmap, Hb; cbn; rewrite Hl|].
  unfold commits in HL. rewrite lookup_fmap in HL. destruct (icc_voters w !! owner p) as [v|] eqn:Hv; [|done].
  cbn in HL. simplify_eq. by exists v.
Qed.

Lemma linked_ws w p b : lists_ok w -> icc_bcms w !! p = Some b -> bcm_ws_list b = Linked -> on_ws w p.
Proof.
  intros [_ H2 _] Hb Hl. destruct (li_link _ _ H2 p) as (l&HL&Hp); [unfold ws_links; by rewrite lookup_fmap, Hb; cbn; rewrite Hl|].
  unfold wss in HL. rewrite lookup_fmap in HL. destruct (icc_voters w !! owner p) as [v|] eqn:Hv; [|done].
  cbn in HL. simplify_eq. by exists v.
Qed.

(** The two halves of [qcom_icc_bcm_voter_add]. *)
Lemma add_commit_ok w p b v : lists_ok w -> icc_bcms w !! p = Some b -> icc_voters w !! owner p = Some v ->
  exists w', (if list_empty (bcm_list b) then
      put_bcm p (with_link b Linked) ;;; put_voter (owner p) (with_commit v (commit_list v ++ [p]))
    else st_ret tt) w = Ok (tt, w') /\ lists_ok w' /\ queued_rest w w' /\
    (bcm_list b <> Uninit -> on_commit w' p).
Proof.
  intros HL Hb Hv. destruct (bcm_list b) eqn:E; cbn [list_empty].
  - exists w. split_and!; [done|done|apply queued_rest_refl|done].
  - eexists. split; [reflexivity|]. split_and!.
    + by apply queue_commit.
    + eapply queued_rest_put; try done. intros q Hq. apply elem_of_app. by left.
    + intros _. eexists. split; [apply lookup_insert_eq|]. cbn. apply elem_of_app. right. by left.
  - exists w. split_and!; [done|done|apply queued_rest_refl|]. intros _. by eapply linked_commit.
Qed.

Lemma add_ws_ok w p b v : lists_ok w -> icc_bcms w !! p = Some b -> icc_voters w !! owner p = Some v ->
  exists w', (if list_empty (bcm_ws_list b) then
      put_bcm p (with_ws b Linked) ;;; put_voter (owner p) (with_wslist v (ws_list v ++ [p]))
    else st_ret tt) w = Ok (tt, w') /\ lists_ok w' /\ queued_rest w w' /\
    (bcm_ws_list b <> Uninit -> on_ws w' p).
Proof.
  intros HL Hb Hv. destruct (bcm_ws_list b) eqn:E; cbn [list_empty].
  - exists w. split_and!; [done|done|apply queued_rest_refl|done].
  - eexists. split; [reflexivity|]. split_and!.
    + by apply queue_ws.
    + eapply queued_rest_put; try done. intros q Hq. apply elem_of_app. by left.
    + intros _. eexists. split; [apply lookup_insert_eq|]. cbn. apply elem_of_app. right. by left.
  - exists w. split_and!; [done|done|apply queued_rest_refl|]. intros _. by eapply linked_ws.
Qed.

Lemma voter_add_ok w p b v : lists_ok w -> icc_bcms w !! p = Some b -> icc_voters w !! owner p = Some v ->
  exists w', qcom_icc_bcm_voter_add (Some (owner p)) p w = Ok (tt, w') /\ lists_ok w' /\ queued_rest w w' /\
    (bcm_list b <> Uninit -> on_commit w' p) /\ (bcm_ws_list b <> Uninit -> on_ws w' p).
Proof.
  intros HL Hb Hv. unfold qcom_icc_bcm_voter_add.
  rewrite (st_bind_ok _ _ _ _ _ (the_bcm_ok _ _ _ Hb)), (st_bind_ok _ _ _ _ _ (the_voter_ok _ _ _ Hv)).
  destruct (add_commit_ok w p b v HL Hb Hv) as (w1&E1&HL1&Q1&C1). rewrite (st_bind_ok _ _ _ _ _ E1).
  destruct (qr_bcm _ _ Q1 p b Hb) as (b1&Hb1&_&_&_&I1). destruct (qr_voter _ _ Q1 _ _ Hv) as (v1&Hv1&_).
  rewrite (st_bind_ok _ _ _ _ _ (the_bcm_ok _ _ _ Hb1)), (st_bind_ok _ _ _ _ _ (the_voter_ok _ _ _ Hv1)).
  destruct (add_ws_ok w1 p b1 v1 HL1 Hb1 Hv1) as (w2&E2&HL2&Q2&C2).
  exists w2. split_and!; [exact E2|exact HL2|by eapply queued_rest_trans| |auto].
  intros Hl. eapply on_commit_rest; [exact Q2|auto].
Qed.

(** ** Aggregating requests *)

(** The BCMs of a node are initialised and wired to their owners through this provider. *)
Definition wired (w : icc) (qp : qcom_icc_provider) (l : list Z) : Prop :=
  forall q, q ∈ l -> exists b, icc_bcms w !! q = Some b /\ qp_voters qp !! voter_idx b = Some (Some (owner q)) /\
    is_Some (icc_voters w !! owner q) /\ bcm_list b <> Uninit /\ bcm_ws_list b <> Uninit.

Lemma wired_rest w w' qp l : queued_rest w w' -> wired w qp l -> wired w' qp l.
Proof.
  intros Q Hw q Hq. destruct (Hw q Hq) as (b&Hb&Hi&[v Hv]&H1&H2).
  destruct (qr_bcm _ _ Q q b Hb) as (b'&Hb'&_&Hi'&I1&I2). destruct (qr_voter _ _ Q _ _ Hv) as (v'&Hv'&_).
  exists b'. rewrite Hi'. split_and!; [done|done|eauto|auto|auto].
Qed.

Lemma add_bcms_ok qp l : forall w, lists_ok w -> wired w qp l ->
  exists w', add_bcms qp l w = Ok (tt, w') /\ lists_ok w' /\ queued_rest w w' /\
    forall q, q ∈ l -> on_commit w' q /\ on_ws w' q.
Proof.
  induction l as [|p l IH]; intros w HL Hw; cbn [add_bcms].
  { exists w. split_and!; [done|done|apply queued_rest_refl|]. by intros q Hq%not_elem_of_nil. }
  destruct (Hw p ltac:(by left)) as (b&Hb&Hi&[v Hv]&U1&U2).
  rewrite (st_bind_ok _ _ _ _ _ (the_bcm_ok _ _ _ Hb)), Hi.
  destruct (voter_add_ok w p b v HL Hb Hv) as (w1&E1&HL1&Q1&C1&C2). rewrite (st_bind_ok _ _ _ _ _ E1).
  destruct (IH w1 HL1) as (w2&E2&HL2&Q2&Hall).
  { apply (wired_rest w); [done|]. intros q Hq. apply Hw. by right. }
  exists w2. split_and!; [exact E2|exact HL2|by eapply queued_rest_trans|].
  intros q [->|Hq]%elem_of_cons; [|by apply Hall].
  split; [eapply on_commit_rest|eapply on_ws_rest]; eauto.
Qed.

(** A put of a node changes no list. *)
Lemma lists_ok_node f w : lists_ok w -> lists_ok (set_nodes f w).
Proof. intros [H1 H2 H3]. by constructor. Qed.

(** The requests of the clients of a node, one after the other, and the sums of the core. *)
Fixpoint run_requests (qp : qcom_icc_provider) (p : Z) (rs : list request) (agg_avg agg_peak : Z)
    : ST icc (Z * Z) :=
  match rs with
  | [] => st_ret (agg_avg, agg_peak)
  | r :: rs =>
    let! x := qcom_icc_aggregate qp p (rq_tag r) (rq_avg r) (rq_peak r) agg_avg agg_peak in
    run_requests qp p rs x.1.2 x.2
  end.

Lemma aggregate_ok w qp p qn rs r a k : lists_ok w -> icc_nodes w !! p = Some (summed qn rs) ->
  wired w qp (nd_bcms qn) -> Forall request_ok (rs ++ [r]) ->
  exists w', qcom_icc_aggregate qp p (rq_tag r) (rq_avg r) (rq_peak r) a k w =
      Ok ((0, u32 (a + rq_avg r), Z.max k (rq_peak r)), w') /\
    icc_nodes w' = <[p := summed qn (rs ++ [r])]> (icc_nodes w) /\ lists_ok w' /\
    wired w' qp (nd_bcms qn) /\ forall q, q ∈ nd_bcms qn -> on_commit w' q /\ on_ws w' q.
Proof.
  intros HL Hp Hw Hr. unfold qcom_icc_aggregate. rewrite (st_bind_ok _ _ _ _ _ (the_node_ok _ _ _ Hp)).
  rewrite (add_request_summed qn rs r Hr). unfold put_node. rewrite st_bind_upd.
  erewrite st_bind_ok by (apply the_node_ok, lookup_insert_eq). cbn [nd_bcms summed].
  destruct (add_bcms_ok qp (nd_bcms qn) (set_nodes (<[p := summed qn (rs ++ [r])]>) w)) as (w'&E&HL'&Q&Hall).
  { by apply lists_ok_node. }
  { exact Hw. }
  rewrite (st_bind_ok _ _ _ _ _ E). exists w'. split_and!; [done|by rewrite (qr_nodes _ _ Q)|done| |done].
  exact (wired_rest _ _ _ _ Q Hw).
Qed.

Lemma run_requests_ok qp p qn rs : forall w done a k, lists_ok w -> icc_nodes w !! p = Some (summed qn done) ->
  wired w qp (nd_bcms qn) -> Forall request_ok (done ++ rs) -> 0 <= a < 2 ^ 32 ->
  (done <> [] -> forall q, q ∈ nd_bcms qn -> on_commit w q /\ on_ws w q) ->
  exists w', run_requests qp p rs a k w =
      Ok ((u32 (a + foldr Z.add 0 (rq_avg <$> rs)), foldl Z.max k (rq_peak <$> rs)), w') /\
    icc_nodes w' = <[p := summed qn (done ++ rs)]> (icc_nodes w) /\ lists_ok w' /\
    (done ++ rs <> [] -> forall q, q ∈ nd_bcms qn -> on_commit w' q /\ on_ws w' q).
Proof.
  induction rs as [|r rs IH]; intros w dn a k HL Hp Hw Hr Ha Hdone; cbn [run_requests].
  { rewrite app_nil_r. exists w. cbn. rewrite Z.add_0_r, u32_id by done.
    split_and!; [done|by rewrite insert_id|done|done]. }
  replace (dn ++ r :: rs) with ((dn ++ [r]) ++ rs) in * by (by rewrite <-app_assoc).
  destruct (aggregate_ok w qp p qn dn r a k HL Hp Hw) as (w1&E1&N1&HL1&Hw1&Hall).
  { by apply Forall_app in Hr as [? _]. }
  rewrite (st_bind_ok _ _ _ _ _ E1). cbn [fst snd].
  destruct (IH w1 (dn ++ [r]) (u32 (a + rq_avg r)) (Z.max k (rq_peak r))) as (w2&E2&N2&HL2&Hall2); try done.
  { rewrite N1. apply lookup_insert_eq. }
  { apply u32_range. }
  exists w2. rewrite E2. split_and!; [|by rewrite N2, N1, insert_insert_eq|done|done].
  cbn. unfold u32. rewrite Zplus_mod_idemp_l. by rewrite Z.add_assoc.
Qed.

(** After the sums of a node were reset, the requests of its clients leave in each
    bucket the sum of the averages and the maximum of the peaks of the requests for that
    bucket, a request without a tag counting for all of them; the core gets the sum and the
    maximum of all requests.  Every BCM of the node is then on both lists of its voter, and
    the lists stay intact. *)
Theorem icc_aggregate_correct w qp p qn rs : lists_ok w -> icc_nodes w !! p = Some qn ->
  wired w qp (nd_bcms qn) -> Forall request_ok rs ->
  exists w', (qcom_icc_pre_aggregate p ;;; run_requests qp p rs 0 0) w =
      Ok ((u32 (foldr Z.add 0 (rq_avg <$> rs)), foldl Z.max 0 (rq_peak <$> rs)), w') /\
    icc_nodes w' = <[p := summed qn rs]> (icc_nodes w) /\ lists_ok w' /\
    (rs <> [] -> forall q, q ∈ nd_bcms qn -> on_commit w' q /\ on_ws w' q).
Proof.
  intros HL Hp Hw Hr. unfold qcom_icc_pre_aggregate.
  rewrite st_bind_bind, (st_bind_ok _ _ _ _ _ (the_node_ok _ _ _ Hp)). unfold put_node. rewrite st_bind_upd.
  destruct (run_requests_ok qp p qn rs (set_nodes (<[p := summed qn []]>) w) [] 0 0) as (w'&E&N&HL'&Hall); try done.
  { by apply lists_ok_node. }
  { apply lookup_insert_eq. }
  exists w'. split_and!; [exact E| |exact HL'|exact Hall]. rewrite N. cbn. by rewrite insert_insert_eq.
Qed.
End lists.
