(* ===== verification/IccSystem.v ===== *)
(** * The interconnect as a system

    The calls of the drivers in any order: initialisation of BCMs from the command database,
    requests, commits, and new voters.  Every allowed call returns and keeps the lists. *)
From stdpp Require Import sorting.
From S2P Require Import Prelude CMem CmdDb RpmhRsc RpmhSlots RpmhTcs Rpmh RpmhFlush RpmhBatch.
From S2P Require Import Icc IccVotes IccBatch IccCommit IccVoter IccLists.
Open Scope c_scope.

(** ** The command database *)
Definition db_entry (m : mem) (db : Z) (name : list Z) : option (Z * Z) :=
  first_match m (strncpy8 name) (lookup_entries 8 m db 0).
Definition aux_at (m : mem) (db : Z) (e : Z * Z) : Z :=
  db + db_data + rd16 m (e.2 + rh_data_offset) + rd16 m (e.1 + eh_offset).

(** The table is well-formed, and auxiliary data that is there has the size the driver reads. *)
Definition db_ok (m : mem) (db : Z) : Prop :=
  db_wf m db /\ forall name e, db_entry m db name = Some e -> rd16 m (e.1 + eh_len) <> 0 ->
    aux_at m db e + 8 <= m_base m + m_size m.

Lemma lookup_entries_hdr m db e n : forall i, e ∈ lookup_entries n m db i ->
  exists j, i <= j < i + Z.of_nat n /\ e.2 = rsc_hdr_at db j.
Proof.
  induction n as [|n IH]; intros i He; cbn [lookup_entries] in He; [by apply not_elem_of_nil in He|].
  case_if_in He; [by apply not_elem_of_nil in He|]. apply elem_of_app in He as [He|He].
  - exists i. split; [lia|]. unfold slave_entries in He. revert He. generalize (slv_first m db i).
    induction (slv_cnt m db i) as [|k IHk]; intros ent He; cbn [entries_from] in He; [by apply not_elem_of_nil in He|].
    apply elem_of_cons in He as [->|He]; [done|by eapply IHk].
  - destruct (IH _ He) as (j&?&?). exists j. split; [lia|done].
Qed.

Definition entry_in (m : mem) (db : Z) (e : Z * Z) : Prop :=
  m_base m <= e.1 /\ e.1 + sizeof_entry_header <= m_base m + m_size m /\
  m_base m <= e.2 /\ e.2 + sizeof_rsc_hdr <= m_base m + m_size m /\ m_base m <= db.

Lemma db_entry_in m db name e : db_wf m db -> db_entry m db name = Some e -> entry_in m db e.
Proof.
  intros W [Hin _]%first_match_in. pose proof (dw_lo _ _ W). pose proof (dw_hi _ _ W).
  pose proof (lookup_entries_in m db e W 8 0 ltac:(lia) ltac:(done) Hin).
  destruct (lookup_entries_hdr m db e 8 0 Hin) as (j&Hj&E). unfold entry_in. rewrite E.
  unfold rsc_hdr_at, db_header, sizeof_rsc_hdr, db_data in *. lia.
Qed.

Lemma read_addr_ok m db name : db_wf m db -> cmd_db_read_addr (Some db) name m =
  Ok (match db_entry m db name with Some e => rd32 m (e.1 + eh_addr) | None => 0 end, m).
Proof.
  intros W. pose proof (cmd_db_read_consistent m db name W) as H. unfold db_entry.
  destruct (first_match _ _ _) as [[ent hdr]|]; [by destruct H as [-> _]|by destruct H as [-> _]].
Qed.

Lemma read_aux_ok m db name : db_wf m db -> cmd_db_read_aux_data (Some db) name m =
  Ok (match db_entry m db name with
      | Some e => inr (aux_at m db e, rd16 m (e.1 + eh_len))
      | None => inl (- ENODEV)
      end, m).
Proof.
  intros W. unfold cmd_db_read_aux_data. rewrite (st_bind_ok _ _ _ _ _ (get_header_spec m db name W)).
  fold (db_entry m db name). destruct (db_entry m db name) as [[ent hdr]|] eqn:E; [|done].
  apply (db_entry_in m db name _ W) in E as (A&B&C&D&F). cbn [fst snd] in *.
  unfold sizeof_entry_header, sizeof_rsc_hdr, eh_len, eh_offset, rh_data_offset in *.
  rewrite (st_bind_ok _ _ _ _ _ (load_ok 2 (ent + 20) m ltac:(lia) ltac:(lia))). unfold rsc_offset.
  rewrite st_bind_bind, (st_bind_ok _ _ _ _ _ (load_ok 2 (hdr + 4) m ltac:(lia) ltac:(lia))).
  by rewrite st_bind_bind, (st_bind_ok _ _ _ _ _ (load_ok 2 (ent + 22) m ltac:(lia) ltac:(lia))).
Qed.

Definition bcm_db_at (m : mem) (a : Z) : bcm_db :=
  BcmDb (le_load m a 4) (le_load m (a + 4) 2) (le_load m (a + 6) 1) (le_load m (a + 7) 1).

Lemma read_bcm_db_ok m a : m_base m <= a -> a + 8 <= m_base m + m_size m ->
  read_bcm_db a m = Ok (bcm_db_at m a, m).
Proof.
  intros H1 H2. unfold read_bcm_db.
  rewrite (st_bind_ok _ _ _ _ _ (load_ok 4 a m ltac:(lia) ltac:(lia))).
  rewrite (st_bind_ok _ _ _ _ _ (load_ok 2 (a + 4) m ltac:(lia) ltac:(lia))).
  rewrite (st_bind_ok _ _ _ _ _ (load_ok 1 (a + 6) m ltac:(lia) ltac:(lia))).
  by rewrite (st_bind_ok _ _ _ _ _ (load_ok 1 (a + 7) m ltac:(lia) ltac:(lia))).
Qed.

Lemma aux_at_base m db e : entry_in m db e -> m_base m <= aux_at m db e.
Proof.
  intros (_&_&_&_&F). unfold aux_at, db_data. pose proof (rd16_range m (e.2 + rh_data_offset)).
  pose proof (rd16_range m (e.1 + eh_offset)). lia.
Qed.

Lemma on_db_ok {A} (c : ST mem A) w a m : c (cmd_db w) = Ok (a, m) -> on_db c w = Ok (a, w).
Proof. unfold on_db. by intros ->. Qed.

(** ** Initialising a BCM *)

(** Each node of the list has room for one more BCM. *)
Definition room (w : icc) (l : list Z) : Prop :=
  NoDup l /\ forall q, q ∈ l -> exists nd, icc_nodes w !! q = Some nd /\ (length (nd_bcms nd) < MAX_BCM_PER_NODE)%nat.

Definition link_node (p : Z) (nd : qcom_icc_node) : qcom_icc_node :=
  IccNode (channels nd) (buswidth nd) (sum_avg nd) (max_peak nd) (nd_bcms nd ++ [p]) (nd_qos nd).

Lemma link_nodes_ok p l : forall w, room w l -> exists f,
  link_nodes l p w = Ok (tt, set_nodes f w) /\
  forall q, f (icc_nodes w) !! q = if decide (q ∈ l) then link_node p <$> icc_nodes w !! q else icc_nodes w !! q.
Proof.
  induction l as [|n l IH]; intros w [Hnd Hr]; cbn [link_nodes].
  { exists id. split; [by destruct w|]. intros q. by rewrite decide_False by apply not_elem_of_nil. }
  apply NoDup_cons in Hnd as [Hn Hnd]. destruct (Hr n ltac:(by left)) as (nd&Hp&Hlen).
  rewrite (st_bind_ok _ _ _ _ _ (the_node_ok _ _ _ Hp)).
  replace (_ <? _)%nat with true by (symmetry; by apply Nat.ltb_lt). unfold put_node. rewrite st_bind_upd.
  destruct (IH (set_nodes (<[n := link_node p nd]>) w)) as (f&E&Hf).
  { split; [done|]. intros q Hq. cbn. rewrite lookup_insert_ne by congruence. apply Hr. by right. }
  exists (fun _ => f (<[n := link_node p nd]> (icc_nodes w))). split; [exact E|]. intros q. rewrite Hf. cbn.
  destruct (decide (q = n)) as [->|Hne].
  - rewrite decide_False by done. rewrite decide_True by (by left). by rewrite lookup_insert_eq, Hp.
  - rewrite lookup_insert_ne by done. destruct (decide (q ∈ l)) as [Hl|Hl].
    + by rewrite decide_True by (by right).
    + rewrite decide_False; [done|]. by intros [?|?]%elem_of_cons.
Qed.

(** The BCM after the database was read: its address, and its data when there is any. *)
Definition init_bcm (b : qcom_icc_bcm) (addr : Z) (d : option bcm_db) : qcom_icc_bcm :=
  match d with
  | None => with_addr b addr
  | Some d => IccBcm (bcm_name b) addr (vote_x b) (vote_y b)
      (if vote_scale b =? 0 then 1000 else vote_scale b) (keepalive b) d Unlinked Unlinked
      (voter_idx b) (bcm_nodes b)
  end.

(** What the initialisation comes to: the result, the address and the data. *)
Definition init_result (m : mem) (db : Z) (name : list Z) : Z * Z * option bcm_db :=
  match db_entry m db name with
  | None => (- EINVAL, 0, None)
  | Some e =>
    let a := rd32 m (e.1 + eh_addr) in
    if a =? 0 then (- EINVAL, 0, None)
    else if rd16 m (e.1 + eh_len) =? 0 then (- EINVAL, a, None)
    else (0, a, Some (bcm_db_at m (aux_at m db e)))
  end.

Lemma bcm_init_exec w p b db : icc_bcms w !! p = Some b -> bcm_addr b = 0 -> cmd_db_header w = Some db ->
  db_ok (cmd_db w) db -> room w (bcm_nodes b) ->
  let '(ret, a, d) := init_result (cmd_db w) db (bcm_name b) in
  exists f, qcom_icc_bcm_init p w = Ok (ret, set_nodes f (set_bcms (<[p := init_bcm b a d]>) w)) /\
    forall q, f (icc_nodes w) !! q = if decide (q ∈ bcm_nodes b /\ ret = 0) then link_node p <$> icc_nodes w !! q else icc_nodes w !! q.
Proof.
  intros Hb Ha Hh [W Haux] Hr. unfold qcom_icc_bcm_init, init_result.
  rewrite (st_bind_ok _ _ _ _ _ (the_bcm_ok _ _ _ Hb)), Ha. cbn [Z.eqb negb]. rewrite st_bind_get, Hh.
  rewrite (st_bind_ok _ _ _ _ _ (on_db_ok _ w _ _ (read_addr_ok _ db (bcm_name b) W))).
  unfold put_bcm. rewrite st_bind_upd. set (m := cmd_db w) in *.
  assert (Hno : forall ret b', ret <> 0 -> exists f, (Ok (ret, set_bcms (<[p := b']>) w) : res (Z * icc)) =
    Ok (ret, set_nodes f (set_bcms (<[p := b']>) w)) /\
    forall q, f (icc_nodes w) !! q = if decide (q ∈ bcm_nodes b /\ ret = 0) then link_node p <$> icc_nodes w !! q else icc_nodes w !! q).
  { intros ret b' Hne. exists id. split; [done|]. intros q. rewrite decide_False; [done|naive_solver]. }
  destruct (db_entry m db (bcm_name b)) as [e|] eqn:E; [|by apply Hno].
  destruct (rd32 m (e.1 + eh_addr) =? 0) eqn:Ez.
  { replace (rd32 m (e.1 + eh_addr)) with 0 by lia. by apply Hno. }
  rewrite (st_bind_ok _ _ _ _ _ (on_db_ok _ (set_bcms _ w) _ _ (read_aux_ok _ db (bcm_name b) W))). fold m. rewrite E.
  destruct (rd16 m (e.1 + eh_len) =? 0) eqn:El; [by apply Hno|].
  pose proof (db_entry_in m db _ _ W E) as He.
  rewrite (st_bind_ok _ _ _ _ _ (on_db_ok _ (set_bcms _ w) _ _ (read_bcm_db_ok m _ (aux_at_base m db e He) (Haux _ e E ltac:(lia))))).
  rewrite st_bind_upd. cbn [bcm_nodes with_addr].
  destruct (link_nodes_ok p (bcm_nodes b) (set_bcms (<[p := init_bcm b (rd32 m (e.1 + eh_addr)) (Some (bcm_db_at m (aux_at m db e)))]>) w) Hr) as (f&Ef&Hf).
  exists f. split.
  - erewrite st_bind_ok; [reflexivity|]. rewrite <-Ef. f_equal. unfold set_bcms. cbn. by rewrite insert_insert_eq.
  - intros q. rewrite Hf. cbn. destruct (decide (q ∈ bcm_nodes b)) as [Hq|Hq].
    + by rewrite decide_True.
    + by rewrite decide_False by naive_solver.
Qed.

Section system.
Context `{TcsAbi} `{BitmapArea} `{BcmAbi} `{ListSort} `{!SortLaws}.
Context (owner : Z -> Z) (fuel : nat) (env wenv : nat -> rsc_drv -> rsc_drv).

(** ** Each call keeps the lists *)
Lemma lists_ok_put w p b b' : lists_ok owner w -> icc_bcms w !! p = Some b -> fresh_ok b' ->
  bcm_list b' = bcm_list b \/ bcm_list b <> Linked /\ bcm_list b' <> Linked ->
  bcm_ws_list b' = bcm_ws_list b \/ bcm_ws_list b <> Linked /\ bcm_ws_list b' <> Linked ->
  lists_ok owner (set_bcms (<[p := b']>) w).
Proof.
  intros [M1 M2 M3] Hb Hf Hc Hw. constructor.
  - unfold commits, commit_links. cbn. rewrite fmap_insert. destruct Hc as [->|[Hn Hn']].
    + by rewrite insert_id by (by rewrite lookup_fmap, Hb).
    + apply (listed_relink _ _ _ _ (bcm_list b)); try done. by rewrite lookup_fmap, Hb.
  - unfold wss, ws_links. cbn. rewrite fmap_insert. destruct Hw as [->|[Hn Hn']].
    + by rewrite insert_id by (by rewrite lookup_fmap, Hb).
    + apply (listed_relink _ _ _ _ (bcm_ws_list b)); try done. by rewrite lookup_fmap, Hb.
  - intros q c. cbn. rewrite lookup_insert_Some. intros [[<- <-]|[_ Hc']]; [done|by eapply M3].
Qed.

Lemma init_lists w p b a d : lists_ok owner w -> icc_bcms w !! p = Some b -> bcm_addr b = 0 ->
  (d <> None -> a <> 0) -> lists_ok owner (set_bcms (<[p := init_bcm b a d]>) w).
Proof.
  intros HL Hb Ha Hd. destruct (lo_fresh _ _ HL p b Hb Ha) as [E1 E2].
  apply (lists_ok_put w p b); try done; destruct d as [d|]; cbn; rewrite ?E1, ?E2; try (by left); try (by right).
  - intros Hz. by destruct Hd.
  - by intros _.
Qed.

Lemma init_result_addr m db name : let '(ret, a, d) := init_result m db name in d <> None -> a <> 0.
Proof. unfold init_result. destruct (db_entry _ _ _); [|done]. case_if; [done|]. case_if; [done|]. intros _. lia. Qed.

(** The lists after a commit: [C] and [W] are gone from the lists, or stay. *)
Lemma committed_lists w vp v v' d r' f (W' : list Z) : lists_ok owner w -> icc_voters w !! vp = Some v ->
  commit_list v' = [] -> ws_list v' = W' -> NoDup W' -> (forall p, p ∈ W' -> p ∈ ws_list v) ->
  (forall p b, icc_bcms w !! p = Some b -> bcm_addr (f p b) = bcm_addr b /\
     (bcm_list b = Uninit -> bcm_ws_list b = Uninit -> bcm_list (f p b) = Uninit /\ bcm_ws_list (f p b) = Uninit) /\
     (bcm_list (f p b) = Linked <-> bcm_list b = Linked /\ p ∉ commit_list v) /\
     (bcm_ws_list (f p b) = Linked <-> bcm_ws_list b = Linked /\ (p ∉ ws_list v \/ p ∈ W'))) ->
  lists_ok owner (set_ctrlr d r' (set_voters (<[vp := v']>) (map_bcms f w))).
Proof.
  intros [M1 M2 M3] Hv Hc Hw Hnd Hsub Hf.
  assert (EL : forall (sel : bcm_voter -> list Z), sel <$> <[vp := v']> (icc_voters w) = <[vp := sel v']> (sel <$> icc_voters w))
    by (intros; apply fmap_insert).
  assert (EK : forall (lk : qcom_icc_bcm -> link) p, (lk <$> icc_bcms (map_bcms f w)) !! p = lk ∘ f p <$> icc_bcms w !! p).
  { intros lk p. rewrite lookup_fmap, map_bcms_lookup. by destruct (icc_bcms w !! p). }
  assert (LC : (commits w) !! vp = Some (commit_list v)) by (unfold commits; by rewrite lookup_fmap, Hv).
  assert (LW : (wss w) !! vp = Some (ws_list v)) by (unfold wss; by rewrite lookup_fmap, Hv).
  constructor.
  - unfold commits, commit_links. cbn [icc_voters icc_bcms set_ctrlr set_voters]. rewrite EL, Hc.
    apply (listed_shrink owner (commits w) (commit_links w) vp (commit_list v)); try done; [by constructor|by intros p Hp%not_elem_of_nil| |].
    + intros p Ho. rewrite EK. unfold commit_links. rewrite lookup_fmap. destruct (icc_bcms w !! p) as [b|] eqn:Hb; [|done]. cbn.
      destruct (Hf p b Hb) as (_&_&F&_). split; [intros [= E%F]; f_equal; tauto|]. intros [= E]. f_equal. apply F. split; [done|].
      intros Hp. by destruct (li_list _ _ _ M1 vp _ LC) as [_ M]; destruct (M p Hp).
    + intros p Ho. rewrite EK. split; [|by intros Hp%not_elem_of_nil]. destruct (icc_bcms w !! p) as [b|] eqn:Hb; [|done]. cbn.
      destruct (Hf p b Hb) as (_&_&F&_). intros [= [E Hp]%F]. destruct Hp.
      apply (listed_mine owner (commits w) (commit_links w) vp); try done. unfold commit_links. by rewrite lookup_fmap, Hb; cbn; rewrite E.
  - unfold wss, ws_links. cbn [icc_voters icc_bcms set_ctrlr set_voters]. rewrite EL, Hw.
    destruct (li_list _ _ _ M2 vp _ LW) as [_ M].
    apply (listed_shrink owner (wss w) (ws_links w) vp (ws_list v)); try done.
    + intros p Ho. rewrite EK. unfold ws_links. rewrite lookup_fmap. destruct (icc_bcms w !! p) as [b|] eqn:Hb; [|done]. cbn.
      destruct (Hf p b Hb) as (_&_&_&F). split; [intros [= E%F]; f_equal; tauto|]. intros [= E]. f_equal. apply F. split; [done|].
      left. intros Hp. by destruct (M p Hp).
    + intros p Ho. rewrite EK. destruct (icc_bcms w !! p) as [b|] eqn:Hb; cbn.
      * destruct (Hf p b Hb) as (_&_&_&F). split.
        -- intros [= [E [Hp|Hp]]%F]; [|done]. destruct Hp. apply (listed_mine owner (wss w) (ws_links w) vp); try done.
           unfold ws_links. by rewrite lookup_fmap, Hb; cbn; rewrite E.
        -- intros Hp. f_equal. apply F. split; [|by right]. destruct (M p (Hsub p Hp)) as [_ E].
           unfold ws_links in E. rewrite lookup_fmap, Hb in E. by simplify_eq/=.
      * split; [done|]. intros Hp. destruct (M p (Hsub p Hp)) as [_ E]. unfold ws_links in E. by rewrite lookup_fmap, Hb in E.
  - intros p b. cbn [icc_bcms set_ctrlr set_voters]. rewrite map_bcms_lookup. intros (c&Hb&->)%fmap_Some.
    destruct (Hf p c Hb) as (A&U&_). intros Ha. apply U; apply (M3 p c Hb); congruence.
Qed.

Lemma in_lists w vp v p b : lists_ok owner w -> icc_voters w !! vp = Some v -> icc_bcms w !! p = Some b ->
  (p ∈ commit_list v -> owner p = vp /\ bcm_list b = Linked) /\
  (p ∈ ws_list v -> owner p = vp /\ bcm_ws_list b = Linked) /\
  (owner p = vp -> bcm_list b = Linked -> p ∈ commit_list v).
Proof.
  intros [M1 M2 _] Hv Hb.
  assert (LC : (commits w) !! vp = Some (commit_list v)) by (unfold commits; by rewrite lookup_fmap, Hv).
  assert (LW : (wss w) !! vp = Some (ws_list v)) by (unfold wss; by rewrite lookup_fmap, Hv).
  split_and!.
  - intros Hp. destruct (li_list _ _ _ M1 vp _ LC) as [_ M]. destruct (M p Hp) as [? E]. split; [done|].
    unfold commit_links in E. rewrite lookup_fmap, Hb in E. by simplify_eq/=.
  - intros Hp. destruct (li_list _ _ _ M2 vp _ LW) as [_ M]. destruct (M p Hp) as [? E]. split; [done|].
    unfold ws_links in E. rewrite lookup_fmap, Hb in E. by simplify_eq/=.
  - intros Ho Hl. apply (listed_mine owner (commits w) (commit_links w) vp); try done.
    unfold commit_links. by rewrite lookup_fmap, Hb; cbn; rewrite Hl.
Qed.

Lemma after_lists w vp v d r' : lists_ok owner w -> icc_voters w !! vp = Some v ->
  lists_ok owner (set_ctrlr d r' (set_voters (<[vp := with_wslist (with_commit v []) (waiting w v)]>) (map_bcms (after w v) w))).
Proof.
  intros HL Hv. destruct (commit_facts owner w vp v HL Hv) as (_&Hnd&_).
  apply (committed_lists w vp v _ d r' _ (waiting w v)); try done.
  - by apply NoDup_filter.
  - by intros p [_ Hp]%list_elem_of_filter.
  - intros p b Hb. destruct (in_lists w vp v p b HL Hv Hb) as (I1&I2&I3).
    assert (D : p ∈ ws_list v -> p ∈ waiting w v <-> ws_differ (after_amc w v p b) = true).
    { intros Hp. unfold waiting. rewrite list_elem_of_filter. unfold differs, aggregated, after_amc, on_list.
      rewrite map_bcms_lookup, Hb. cbn. by case_decide; intuition. }
    unfold after. set (b1 := after_amc w v p b) in *.
    assert (B1 : bcm_addr b1 = bcm_addr b /\ bcm_ws_list b1 = bcm_ws_list b /\
      bcm_list b1 = if decide (p ∈ commit_list v) then Unlinked else bcm_list b)
      by (unfold b1, after_amc; by case_decide).
    destruct B1 as (B1&B2&B3). destruct (decide (p ∈ ws_list v)) as [Hw|Hw].
    + destruct (I2 Hw) as [Ho Hl]. specialize (D Hw).
      assert (B4 : bcm_list b1 = Linked <-> bcm_list b = Linked /\ p ∉ commit_list v)
        by (rewrite B3; case_decide; split; [done|by intros []|by intros ?|by intros []]).
      destruct (ws_differ b1); cbn; rewrite B1, ?B2; (split; [done|split; [by rewrite Hl|split]]).
      * split; [done|]. intros [Hk []]. by apply I3.
      * rewrite Hl. split; [|done]. intros _. split; [done|]. right. by apply D.
      * exact B4.
      * split; [done|]. intros [_ [?|Hx]]; [done|]. by apply D in Hx.
    + rewrite B1, B2, B3. split; [done|]. split; [|split].
      * intros E1 E2. case_decide as Hc; [|done]. destruct (I1 Hc). congruence.
      * case_decide; split; [done|by intros []|by intros ?|by intros []].
      * split; [|by intros []]. intros ?. split; [done|by left].
Qed.

Lemma after_amc_lists w vp v d r' : lists_ok owner w -> icc_voters w !! vp = Some v ->
  lists_ok owner (set_ctrlr d r' (set_voters (<[vp := with_commit v []]>) (map_bcms (after_amc w v) w))).
Proof.
  intros HL Hv. destruct (commit_facts owner w vp v HL Hv) as (_&Hnd&_).
  apply (committed_lists w vp v _ d r' _ (ws_list v)); try done.
  intros p b Hb. destruct (in_lists w vp v p b HL Hv Hb) as (I1&I2&I3). unfold after_amc.
  assert (Hw : bcm_ws_list b = Linked <-> bcm_ws_list b = Linked /\ (p ∉ ws_list v \/ p ∈ ws_list v))
    by (destruct (decide (p ∈ ws_list v)); tauto).
  destruct (decide (p ∈ commit_list v)) as [Hc|Hc]; cbn; (split; [done|split; [|split; [|exact Hw]]]).
  - destruct (I1 Hc). congruence.
  - split; [done|by intros []].
  - done.
  - split; [done|by intros []].
Qed.

(** ** Calls *)
Inductive call :=
| CInit (p : Z)
| CPreAggregate (p : Z)
| CAggregate (qp : qcom_icc_provider) (p : Z) (r : request) (agg_avg agg_peak : Z)
| CCommit (vp : Z) (cmds : list tcs_cmd)
| CClearInit (vp : Z)
| CProbe (alloc : option Z) (dev np : Z) (wait : option Z).

Definition run_call (k : call) : ST icc Z :=
  match k with
  | CInit p => qcom_icc_bcm_init p
  | CPreAggregate p => qcom_icc_pre_aggregate p ;;; st_ret 0
  | CAggregate qp p r a k =>
    let! x := qcom_icc_aggregate qp p (rq_tag r) (rq_avg r) (rq_peak r) a k in st_ret x.1.1
  | CCommit vp cmds => qcom_icc_bcm_voter_commit fuel env wenv (Some vp) cmds
  | CClearInit vp => qcom_icc_bcm_voter_clear_init (Some vp) ;;; st_ret 0
  | CProbe alloc dev np wait => qcom_icc_bcm_voter_probe alloc dev np wait
  end.

(** What the callers and the rest of the kernel provide.  For a commit: the data of the BCMs is
    sane, the domains fit the arrays (otherwise the counts leave theirs), and the active
    request comes back. *)
Definition allowed (w : icc) (k : call) : Prop :=
  match k with
  | CInit p => exists b, icc_bcms w !! p = Some b /\ (bcm_addr b = 0 -> exists db,
      cmd_db_header w = Some db /\ db_ok (cmd_db w) db /\ room w (bcm_nodes b))
  | CPreAggregate p => is_Some (icc_nodes w !! p)
  | CAggregate qp p r _ _ => exists qn, icc_nodes w !! p = Some qn /\ wired owner w qp (nd_bcms qn)
  | CCommit vp cmds => exists v r r1 ra r2, icc_voters w !! vp = Some v /\
      (forall p, p ∈ commit_list v -> ready w p) /\ length cmds = MAX_BCMS /\
      sendable (domains w (commit_list v)) /\ sendable (domains w (waiting w v)) /\
      ctrlrs w !! vt_dev v = Some r /\ r_standalone r = false /\ mem_plenty r /\
      rpmh_invalidate fuel env r = Ok (0, r1) /\ amc_call fuel env wenv w v cmds r1 = Ok (ra, r2)
  | CClearInit vp => is_Some (icc_voters w !! vp)
  | CProbe alloc _ _ _ => forall a, alloc = Some a -> icc_voters w !! a = None
  end.

Lemma commit_call w vp cmds : lists_ok owner w -> allowed w (CCommit vp cmds) ->
  exists ret w', run_call (CCommit vp cmds) w = Ok (ret, w') /\ lists_ok owner w'.
Proof.
  intros HL (v&r&r1&ra&r2&Hv&Hr&Hc&S1&S2&Hd&Hs&Hm&Hinv&Hamc).
  destruct (commit_facts owner w vp v HL Hv) as (N1&N2&_&Pw).
  assert (K : commit_ok w vp v r cmds) by (by constructor).
  destruct (commit_exec fuel env wenv w vp v r r1 r2 cmds ra K S2 Hinv Hamc) as (ret&w'&E&En&Ene).
  exists ret, w'. split; [exact E|]. destruct (decide (commit_list v = [])) as [Hn|Hne].
  - by destruct (En Hn) as [_ ->].
  - destruct (Ene Hne) as (r'&_&_&Hg). destruct (goes_on ra); destruct Hg as (_&Hc'&_); unfold committed in Hc'; rewrite Hc'.
    + by apply after_lists.
    + by apply after_amc_lists.
Qed.

Lemma add_request_bcms n : forall i tag a k qn, nd_bcms (add_request n i tag a k qn) = nd_bcms qn.
Proof. induction n as [|n IH]; intros i tag a k qn; cbn [add_request]; [done|]. rewrite IH. by case_if. Qed.

Lemma voter_lists w vp v v' : lists_ok owner w -> icc_voters w !! vp = Some v ->
  commit_list v' = commit_list v -> ws_list v' = ws_list v -> lists_ok owner (set_voters (<[vp := v']>) w).
Proof.
  intros HL Hv E1 E2. apply (lists_ok_same owner w); try done; [..|by apply HL].
  - unfold commits. cbn. rewrite fmap_insert, E1. apply insert_id. by rewrite lookup_fmap, Hv.
  - unfold wss. cbn. rewrite fmap_insert, E2. apply insert_id. by rewrite lookup_fmap, Hv.
Qed.

Lemma call_ok w k : lists_ok owner w -> allowed w k ->
  exists ret w', run_call k w = Ok (ret, w') /\ lists_ok owner w'.
Proof.
  intros HL Ha. destruct k as [p|p|qp p r a k|vp cmds|vp|alloc dev np wait]; cbn [run_call].
  - destruct Ha as (b&Hb&Ha). destruct (decide (bcm_addr b = 0)) as [Hz|Hz].
    + destruct (Ha Hz) as (db&Hh&Hdb&Hr). pose proof (bcm_init_exec w p b db Hb Hz Hh Hdb Hr) as E.
      pose proof (init_result_addr (cmd_db w) db (bcm_name b)) as Hd.
      destruct (init_result (cmd_db w) db (bcm_name b)) as [[ret addr] d]. destruct E as (f&E&_).
      eexists ret, _. split; [exact E|]. apply lists_ok_node. by apply init_lists.
    + exists 0, w. split; [|done]. unfold qcom_icc_bcm_init. rewrite (st_bind_ok _ _ _ _ _ (the_bcm_ok _ _ _ Hb)).
      by replace (bcm_addr b =? 0) with false by lia.
  - destruct Ha as [qn Hp]. unfold qcom_icc_pre_aggregate. rewrite st_bind_bind, (st_bind_ok _ _ _ _ _ (the_node_ok _ _ _ Hp)).
    eexists 0, _. split; [reflexivity|]. by apply lists_ok_node.
  - destruct Ha as (qn&Hp&Hw). unfold qcom_icc_aggregate.
    rewrite st_bind_bind, (st_bind_ok _ _ _ _ _ (the_node_ok _ _ _ Hp)), st_bind_bind. unfold put_node. rewrite st_bind_upd.
    rewrite st_bind_bind. erewrite st_bind_ok by (apply the_node_ok, lookup_insert_eq). rewrite add_request_bcms, st_bind_bind.
    match goal with |- context [set_nodes ?f w] => destruct (add_bcms_ok owner qp (nd_bcms qn) (set_nodes f w)) as (w'&E&HL'&_) end;
      [by apply lists_ok_node|exact Hw|].
    rewrite (st_bind_ok _ _ _ _ _ E). by eexists 0, w'.
  - by apply commit_call.
  - destruct Ha as [v Hv]. unfold qcom_icc_bcm_voter_clear_init. rewrite st_bind_bind, (st_bind_ok _ _ _ _ _ (the_voter_ok _ _ _ Hv)).
    eexists 0, _. split; [reflexivity|]. by apply (voter_lists w vp v).
  - destruct alloc as [a|]; [|by eexists (- ENOMEM), w].
    eexists 0, _. split; [reflexivity|]. destruct HL as [M1 M2 M3]. specialize (Ha a eq_refl). constructor.
    + unfold commits, commit_links. cbn. rewrite fmap_insert. apply listed_voter; [done|]. unfold commits. by rewrite lookup_fmap, Ha.
    + unfold wss, ws_links. cbn. rewrite fmap_insert. apply listed_voter; [done|]. unfold wss. by rewrite lookup_fmap, Ha.
    + exact M3.
Qed.

(** ** Sequences of calls *)
Inductive icc_step : icc -> icc -> Prop :=
| icc_call w k ret w' : allowed w k -> run_call k w = Ok (ret, w') -> icc_step w w'.

(** No voter is probed, and no BCM initialised. *)
Definition icc_start (w : icc) : Prop :=
  icc_voters w = ∅ /\ forall p b, icc_bcms w !! p = Some b -> bcm_addr b = 0 /\ bcm_list b = Uninit /\ bcm_ws_list b = Uninit.

Definition icc_reachable (w : icc) : Prop := exists w0, icc_start w0 /\ rtc icc_step w0 w.

Lemma start_lists w : icc_start w -> lists_ok owner w.
Proof.
  intros [Hv Hb]. constructor.
  - constructor; unfold commits, commit_links; [by rewrite Hv|]. intros p. rewrite lookup_fmap.
    destruct (icc_bcms w !! p) as [b|] eqn:E; [|done]. cbn. destruct (Hb p b E) as (_&->&_). done.
  - constructor; unfold wss, ws_links; [by rewrite Hv|]. intros p. rewrite lookup_fmap.
    destruct (icc_bcms w !! p) as [b|] eqn:E; [|done]. cbn. destruct (Hb p b E) as (_&_&->). done.
  - intros p b E _. apply (Hb p b E).
Qed.

Lemma reachable_lists w : icc_reachable w -> lists_ok owner w.
Proof.
  intros (w0&Hs&Hr). apply start_lists in Hs. induction Hr as [|w0 w1 w2 St _ IH]; [done|]. apply IH.
  destruct St as [w0 k ret w1 Ha E]. destruct (call_ok w0 k Hs Ha) as (ret'&w'&E'&HL). congruence.
Qed.

(** C27: along every sequence of allowed calls of the drivers each call returns, and the lists
    stay intact: a BCM is on the commit list of its owner, once, exactly when it is linked
    there, on no other voter's, and the same for the lists of wake and sleep votes; only
    initialised BCMs are linked.  What is allowed: initialisations with a sound database and
    free nodes, requests for nodes whose BCMs have their owner as voter, and commits whose
    domains fit the arrays of commands and counts, with BCMs whose data is sane, on a
    controller that is live and answers the invalidation and the active request. *)
Theorem icc_lists_safe w k : icc_reachable w -> allowed w k ->
  (exists ret w', run_call k w = Ok (ret, w') /\ lists_ok owner w') /\
  forall vp v p, icc_voters w !! vp = Some v -> (p ∈ commit_list v \/ p ∈ ws_list v) ->
    owner p = vp /\ NoDup (commit_list v) /\ NoDup (ws_list v) /\
    exists b, icc_bcms w !! p = Some b /\ bcm_addr b <> 0 /\
      (p ∈ commit_list v <-> bcm_list b = Linked) /\ (p ∈ ws_list v <-> bcm_ws_list b = Linked).
Proof.
  intros HL%reachable_lists Ha. split; [by apply call_ok|]. intros vp v p Hv Hp.
  destruct (commit_facts owner w vp v HL Hv) as (N1&N2&P1&P2).
  assert (Hb : is_Some (icc_bcms w !! p)) by (destruct Hp; [by apply P1|by apply P2]). destruct Hb as [b Hb].
  destruct (in_lists w vp v p b HL Hv Hb) as (I1&I2&I3). assert (Ho : owner p = vp) by naive_solver.
  split_and!; try done. exists b. split_and!; try done; try naive_solver.
  - intros Hz. destruct (lo_fresh _ _ HL p b Hb Hz) as [E1 E2]. destruct Hp as [Hp|Hp]; [destruct (I1 Hp)|destruct (I2 Hp)]; congruence.
  - split; [naive_solver|]. intros Hl. destruct (linked_ws owner w p b HL Hb Hl) as (v'&Hv'&Hp'). rewrite Ho in Hv'. by simplify_eq.
Qed.
End system.
