(* ===== verification/IccExamples.v ===== *)
(** * A concrete interconnect

    Witnesses for the theorems about the interconnect, and states in which the code does not
    do what it means to. *)
From stdpp Require Import sorting.
From S2P Require Import Prelude CMem CmdDb RpmhRsc RpmhSlots RpmhTcs Rpmh RpmhFlush RpmhBatch.
From S2P Require Import Icc IccVotes IccBatch IccCommit IccVoter IccLists IccSystem.
Open Scope c_scope.
Import RscDemo.

(** ** What stands for the code outside the repository *)

(** The command word of the hardware: two flags and two votes of 14 bits. *)
Definition word14 (c v : bool) (x y : Z) : Z := Z.b2z c * 2 ^ 30 + Z.b2z v * 2 ^ 29 + x * 2 ^ 14 + y.

Lemma word14_range c v x y : 0 <= x <= 16383 -> 0 <= y <= 16383 -> 0 <= word14 c v x y < 2 ^ 32.
Proof. unfold word14. destruct c, v; cbn; lia. Qed.

Lemma word14_inj c v x y c' v' x' y' : 0 <= x <= 16383 -> 0 <= y <= 16383 -> 0 <= x' <= 16383 ->
  0 <= y' <= 16383 -> word14 c v x y = word14 c' v' x' y' -> c = c' /\ v = v' /\ x = x' /\ y = y'.
Proof. unfold word14. destruct c, v, c', v'; cbn; intros; split_and!; (done || lia). Qed.

#[export] Instance bcm_abi : BcmAbi := {|
  BCM_TCS_CMD_VOTE_MASK := 16383; BCM_TCS_CMD := word14;
  vote_mask_range := conj eq_refl eq_refl; bcm_cmd_range := word14_range; bcm_cmd_inj := word14_inj
|}.

#[export] Instance merge_list_sort : ListSort := {|
  list_sort := fun A cmp => merge_sort (fun a b => cmp a b <= 0)
                              (H := fun a b => Z_le_dec (cmp a b) 0)
|}.

#[export] Instance merge_sort_laws : SortLaws.
Proof.
  constructor; [intros; apply merge_sort_Permutation|]. intros A cmp l Htot Htrans.
  apply StronglySorted_merge_sort; [intros a b c; apply Htrans|exact Htot].
Qed.

Module Soc.
(** A controller without votes, in solver mode or not. *)
Definition ctrlr (solver : bool) : rpmh := Rpmh false [] false [] solver start ∅ 0 [] [].

(** Whatever is on the stack. *)
Definition stack : list tcs_cmd := replicate MAX_BCMS (Cmd 0xdead 0xbeef false).

(** A node with 8 bytes and one channel, whose clients ask for 80, 80 and nothing. *)
Definition node : qcom_icc_node := IccNode 1 8 [80; 80; 0] [80; 80; 0] [] None.

Definition bcm (k : Z) (dom : Z) : qcom_icc_bcm :=
  IccBcm [0x42; k] (0x50000 + 4 * k) [0; 0; 0] [0; 0; 0] 1000 false (BcmDb 1000 8 dom 0)
    Linked Linked 0 [0x10].

(** A voter with BCMs of these domains queued. *)
Definition world (doms : list Z) (solver : bool) : icc :=
  let ids := (fun k => 0x100 + Z.of_nat k) <$> seq 0 (length doms) in
  Icc {[0x10 := node]} (list_to_map (zip ids ((fun p => bcm p.1 p.2) <$> zip (Z.of_nat <$> seq 0 (length doms)) doms)))
    {[0x80 := BcmVoter 7 0x90 ids ids 3 false]} [0x80] {[7 := ctrlr solver]} (Mem 0 0 ∅) None [].

Definition env (k : nat) (d : rsc_drv) : rsc_drv := d.
(** The hardware completes the TCS with this number. *)
Definition complete (k : nat) (d : rsc_drv) : rsc_drv :=
  run tcs_tx_done (write_tcs_reg d RSC_DRV_IRQ_STATUS 0 (BIT (Z.of_nat k))).

Definition commit (w : icc) : res (Z * icc) := qcom_icc_bcm_voter_commit 2 env complete (Some 0x80) stack w.

(** The addresses in the batches of the controller. *)
Definition cached (w : icc) : list (list Z) :=
  match ctrlrs w !! 7 with
  | Some r => (fun b => concat ((fun m => addr <$> cmds m) <$> b)) <$> r_batch_cache r
  | None => []
  end.
End Soc.


(** ** Witnesses *)
Module SocWitness.
Definition w : icc := Soc.world [0; 1; 0] false.
Definition v : bcm_voter := BcmVoter 7 0x90 [0x100; 0x101; 0x102] [0x100; 0x101; 0x102] 3 false.
Definition r1 : rpmh := match rpmh_invalidate 2 Soc.env (Soc.ctrlr false) with Ok (_, r) => r | _ => Soc.ctrlr false end.
Definition r2 : rpmh := match amc_call 2 Soc.env Soc.complete w v Soc.stack r1 with Ok (_, r) => r | _ => r1 end.

Lemma node_is_ok : node_ok Soc.node.
Proof. constructor; cbn; try lia; try done; split; repeat constructor; lia. Qed.

Lemma bcm_is_ok k dom : bcm_ok (Soc.bcm k dom).
Proof. by constructor. Qed.

Lemma nodes k dom : nodes_of w (Soc.bcm k dom) [Soc.node].
Proof.
  split; [by apply Forall2_cons; split; [reflexivity|constructor]|].
  apply Forall_singleton, node_is_ok.
Qed.

Lemma is_ready p : p ∈ commit_list v -> ready w p.
Proof.
  unfold v. cbn. rewrite !elem_of_cons, elem_of_nil. intros Hp.
  assert (Hb : exists k dom, icc_bcms w !! p = Some (Soc.bcm k dom)).
  { destruct Hp as [->|[->|[->|[]]]]; [exists 0, 0|exists 1, 1|exists 2, 0]; reflexivity. }
  destruct Hb as (k&dom&Hb). exists (Soc.bcm k dom). split_and!; [done|apply bcm_is_ok|].
  apply Forall_singleton. exists Soc.node. split; [reflexivity|apply node_is_ok].
Qed.

Lemma fit : commit_ok w 0x80 v (Soc.ctrlr false) Soc.stack.
Proof.
  constructor; try reflexivity; [|apply is_ready|..].
  - split; apply (bool_decide_unpack _); vm_compute; exact I.
  - apply ready_present, is_ready.
  - unfold sendable. apply (bool_decide_unpack _). vm_compute. exact I.
  - split; [reflexivity|by constructor].
Qed.

Lemma will_wait : sendable (domains w (waiting w v)).
Proof. unfold sendable. apply (bool_decide_unpack _). vm_compute. exact I. Qed.

Lemma invalidated : rpmh_invalidate 2 Soc.env (Soc.ctrlr false) = Ok (0, r1).
Proof. vm_compute. reflexivity. Qed.

Lemma active : amc_call 2 Soc.env Soc.complete w v Soc.stack r1 = Ok (0, r2).
Proof.
  unfold r2. edestruct (run_check (amc_call 2 Soc.env Soc.complete w v Soc.stack r1) (fun x _ => x =? 0))
    as (x&r&E&Hx); [vm_compute; reflexivity|]. rewrite E. by apply Z.eqb_eq in Hx as ->.
Qed.

Lemma two_wait : waiting w v = [0x100; 0x101; 0x102].
Proof. vm_compute. reflexivity. Qed.
End SocWitness.

(** A node of 8 bytes that asks for 80 in the active bucket gets exactly this vote. *)
Lemma bcm_aggregate_correct_witness : exists b', bcm_aggregate 0x100 false SocWitness.w =
    Ok (tt, set_bcms (<[0x100 := b']>) SocWitness.w) /\ nth 0 (vote_x b') 0 = 80.
Proof.
  destruct (bcm_aggregate_correct 0x100 false SocWitness.w (Soc.bcm 0 0) [Soc.node]) as (b'&E&_&_&_&Hb).
  - reflexivity.
  - apply SocWitness.bcm_is_ok.
  - apply SocWitness.nodes.
  - exists b'. split; [exact E|]. destruct (Hb 0%nat ltac:(unfold QCOM_ICC_NUM_BUCKETS; lia)) as [H1 _].
    destruct (H1 ltac:(by right; left)) as [Hx _]. rewrite Hx. vm_compute. reflexivity.
Defined.

(** Seventeen BCMs of two domains: the second domain moves to the second payload, and the first
    is counted as the room there was. *)
Definition two_domains : list qcom_icc_bcm :=
  ((fun i => Soc.bcm (Z.of_nat i) 0) <$> seq 0 10) ++ ((fun i => Soc.bcm (Z.of_nat i) 1) <$> seq 10 7).



(** A driver that starts: a voter and a BCM, whose data is in the command database. *)
Module SocStart.
Definition db : Z := 0x1000.
Definition m : mem := poke
  [ (db + db_magic, 4%nat, 0x0c0330db);
    (rsc_hdr_at db 0 + rh_slv_id, 2%nat, 5); (rsc_hdr_at db 0 + rh_cnt, 2%nat, 1);
    (rsc_hdr_at db 0 + rh_data_offset, 2%nat, 32);
    (db + db_data, 4%nat, 0x42); (db + db_data + eh_addr, 4%nat, 0x50000); (db + db_data + eh_len, 2%nat, 8);
    (db + db_data + 32, 4%nat, 1000); (db + db_data + 36, 2%nat, 8) ]
  (Mem db 512 ∅).

Lemma db_is_ok : db_ok m db.
Proof.
  split.
  - constructor; [concrete..|]. intros i Hi.
    assert (HF : Forall (fun i => slv_first m db i + sizeof_entry_header * Z.of_nat (slv_cnt m db i)
                                   <= m_base m + m_size m) [0; 1; 2; 3; 4; 5; 6; 7]).
    { repeat constructor; concrete. }
    rewrite Forall_forall in HF. apply HF. rewrite !elem_of_cons. unfold MAX_SLV_ID in Hi. lia.
  - intros name e He _. apply first_match_in in He as [He _].
    assert (E : lookup_entries 8 m db 0 = [(db + db_data, rsc_hdr_at db 0)]) by (vm_compute; reflexivity).
    rewrite E in He. apply list_elem_of_singleton in He as ->. vm_compute. discriminate.
Qed.

Definition owner (p : Z) : Z := 0x80.
Definition w0 : icc :=
  Icc {[0x10 := IccNode 1 8 [0; 0; 0] [0; 0; 0] [] None]}
    {[0x100 := IccBcm [0x42] 0 [0; 0; 0] [0; 0; 0] 0 false (BcmDb 0 0 0 0) Uninit Uninit 0 [0x10]]}
    ∅ [] {[7 := Soc.ctrlr false]} m (Some db) [].
Definition provider : qcom_icc_provider := IccProvider [Some 0x80].

Definition next (w : icc) (k : call) : icc :=
  match run_call 2 Soc.env Soc.complete k w with Ok (_, w') => w' | _ => w end.

Lemma next_step w k : allowed owner 2 Soc.env Soc.complete w k ->
  (match run_call 2 Soc.env Soc.complete k w with Ok _ => true | _ => false end) = true ->
  icc_step owner 2 Soc.env Soc.complete w (next w k).
Proof.
  intros Ha Hr. unfold next. destruct (run_call 2 Soc.env Soc.complete k w) as [[ret w']| |] eqn:E; [|done..].
  by apply (icc_call owner 2 Soc.env Soc.complete w k ret).
Qed.

Definition w1 : icc := next w0 (CProbe (Some 0x80) 7 0x90 None).
Definition w2 : icc := next w1 (CInit 0x100).
Definition w3 : icc := next w2 (CAggregate provider 0x10 (Request 0 80 80) 0 0).

Lemma soc_probe_step : icc_step owner 2 Soc.env Soc.complete w0 w1.
Proof. apply next_step; [intros a _; reflexivity|vm_compute; reflexivity]. Qed.

Lemma soc_init_step : icc_step owner 2 Soc.env Soc.complete w1 w2.
Proof.
  apply next_step; [|vm_compute; reflexivity]. eexists. split; [vm_compute; reflexivity|].
  intros _. exists db. split; [reflexivity|]. split; [exact db_is_ok|]. split; [by apply NoDup_singleton|].
  intros q ->%list_elem_of_singleton. eexists. split; [vm_compute; reflexivity|]. vm_compute. lia.
Qed.

Lemma node_wired : exists qn, icc_nodes w2 !! 0x10 = Some qn /\ nd_bcms qn = [0x100] /\
  wired owner w2 provider (nd_bcms qn).
Proof.
  eexists. split; [vm_compute; reflexivity|]. split; [reflexivity|]. intros q ->%list_elem_of_singleton.
  eexists. split_and!; [vm_compute; reflexivity|reflexivity|vm_compute; eauto|done|done].
Qed.

Lemma soc_ask_step : icc_step owner 2 Soc.env Soc.complete w2 w3.
Proof.
  apply next_step; [|vm_compute; reflexivity]. destruct node_wired as (qn&Hq&_&Hw). exists qn. exact (conj Hq Hw).
Qed.

Lemma start_state : icc_start w0.
Proof. split; [done|]. intros p b Hb. unfold w0 in Hb. cbn [icc_bcms] in Hb. apply lookup_singleton_Some in Hb as [<- <-]. done. Qed.

Lemma reach2 : icc_reachable owner 2 Soc.env Soc.complete w2.
Proof. exists w0. split; [exact start_state|]. eapply rtc_l; [exact soc_probe_step|]. apply rtc_once, soc_init_step. Qed.

Lemma reach3 : icc_reachable owner 2 Soc.env Soc.complete w3.
Proof.
  destruct reach2 as (w&Hs&Hr). exists w. split; [done|]. eapply rtc_r; [exact Hr|exact soc_ask_step].
Qed.

Definition v3 : bcm_voter := BcmVoter 7 0x90 [0x100] [0x100] QCOM_ICC_TAG_ACTIVE_ONLY true.

Lemma ready3 : ready w3 0x100.
Proof.
  eexists. split; [vm_compute; reflexivity|]. split; [by constructor|]. apply Forall_singleton.
  eexists. split; [vm_compute; reflexivity|]. constructor; [done..|]. split; repeat constructor; done.
Qed.

Lemma may_commit : allowed owner 2 Soc.env Soc.complete w3 (CCommit 0x80 Soc.stack).
Proof.
  edestruct (run_check (rpmh_invalidate 2 Soc.env (Soc.ctrlr false)) (fun x _ => x =? 0)) as (x&r1&E1&Hx);
    [vm_compute; reflexivity|]. apply Z.eqb_eq in Hx as ->.
  assert (A : exists ra r2, amc_call 2 Soc.env Soc.complete w3 v3 Soc.stack r1 = Ok (ra, r2)).
  { assert (G : r1 = SocWitness.r1) by (pose proof SocWitness.invalidated; congruence). rewrite G.
    edestruct (run_check (amc_call 2 Soc.env Soc.complete w3 v3 Soc.stack SocWitness.r1) (fun _ _ => true))
      as (ra&r2&E2&_); [vm_compute; reflexivity|]. by exists ra, r2. }
  destruct A as (ra&r2&E2). exists v3, (Soc.ctrlr false), r1, ra, r2.
  split; [vm_compute; reflexivity|]. split; [intros p ->%list_elem_of_singleton; exact ready3|].
  split; [reflexivity|]. unfold sendable.
  split; [apply (bool_decide_unpack _); vm_compute; exact I|].
  split; [apply (bool_decide_unpack _); vm_compute; exact I|].
  split; [reflexivity|]. split; [reflexivity|]. split; [by constructor|]. by split.
Qed.
End SocStart.

(** The commit of a BCM that was probed, initialised and asked for something. *)
Lemma icc_lists_safe_witness : (exists ret w',
    qcom_icc_bcm_voter_commit 2 Soc.env Soc.complete (Some 0x80) Soc.stack SocStart.w3 = Ok (ret, w') /\
    lists_ok SocStart.owner w') /\
  exists b, icc_bcms SocStart.w3 !! 0x100 = Some b /\ bcm_list b = Linked.
Proof.
  destruct (icc_lists_safe SocStart.owner 2 Soc.env Soc.complete SocStart.w3 (CCommit 0x80 Soc.stack)
    SocStart.reach3 SocStart.may_commit) as [Hok Hl].
  split; [exact Hok|].
  destruct (Hl 0x80 SocStart.v3 0x100) as (_&_&_&b&Hb&_&Hc&_); [vm_compute; reflexivity|left; by left|].
  exists b. split; [exact Hb|]. apply Hc. by left.
Defined.

(** Two requests, one of them for the active and wake states only. *)
Lemma icc_aggregate_correct_witness : exists w' qn',
  (qcom_icc_pre_aggregate 0x10 ;;; run_requests SocStart.provider 0x10 [Request 0 80 80; Request 3 20 200] 0 0)
    SocStart.w2 = Ok ((100, 200), w') /\
  icc_nodes w' !! 0x10 = Some qn' /\ sum_avg qn' = [100; 100; 80] /\ max_peak qn' = [200; 200; 80] /\
  on_commit SocStart.owner w' 0x100.
Proof.
  destruct SocStart.node_wired as (qn&Hq&Hl&Hw).
  destruct (icc_aggregate_correct SocStart.owner SocStart.w2 SocStart.provider 0x10 qn
    [Request 0 80 80; Request 3 20 200]) as (w'&E&N&_&Hall).
  - exact (reachable_lists _ _ _ _ _ SocStart.reach2).
  - exact Hq.
  - exact Hw.
  - repeat constructor; cbn; lia.
  - eexists w', _. split; [exact E|]. rewrite N, lookup_insert_eq. split; [reflexivity|].
    split; [reflexivity|]. split; [reflexivity|]. apply Hall; [done|]. rewrite Hl. by left.
Defined.

(** ** Where the code does not do what it means to *)

(** Seventeen BCMs of two domains do not fit one payload.  The first count becomes the number of
    BCMs of the open domain, instead of being lowered by it: four BCMs get neither wake nor
    sleep votes, and the commit reports success. *)
Theorem split_domain_loses : exists w', Soc.commit (Soc.world (replicate 10 0 ++ replicate 7 1) true) = Ok (0, w') /\
  (length <$> Soc.cached w') = [13%nat; 13%nat].
Proof.
  edestruct (run_check (Soc.commit (Soc.world (replicate 10 0 ++ replicate 7 1) true))
    (fun ret w' => (ret =? 0) && bool_decide ((length <$> Soc.cached w') = [13%nat; 13%nat])))
    as (ret&w'&E&H1); [vm_compute; reflexivity|].
  apply andb_prop in H1 as [->%Z.eqb_eq H2%bool_decide_eq_true_1]. exists w'. exact (conj E H2).
Qed.

(** A domain of 28 BCMs makes the counts leave their array. *)
Theorem large_domain_overruns : Soc.commit (Soc.world (replicate 28 0) true) = Fault.
Proof. vm_compute. reflexivity. Qed.

(** Without active requests a keepalive replaces the wake vote too, though the clients ask for
    bandwidth when the system wakes up. *)
Definition wake_only : icc :=
  set_nodes (<[0x10 := IccNode 1 8 [0; 80; 0] [0; 80; 0] [] None]>)
    (set_bcms (<[0x100 := IccBcm [0x42] 0x50000 [0; 0; 0] [0; 0; 0] 1000 true (BcmDb 1000 8 0 0) Linked Linked 0 [0x10]]>)
       SocWitness.w).

Theorem keepalive_lowers_wake : exists w' b, bcm_aggregate 0x100 false wake_only = Ok (tt, w') /\
  icc_bcms w' !! 0x100 = Some b /\ raw_x b (nds_of w' b) QCOM_ICC_BUCKET_WAKE = 80 /\
  nth QCOM_ICC_BUCKET_WAKE (vote_x b) 0 = 1.
Proof.
  edestruct (run_check (bcm_aggregate 0x100 false wake_only) (fun _ w' => match icc_bcms w' !! 0x100 with
    | Some b => (raw_x b (nds_of w' b) QCOM_ICC_BUCKET_WAKE =? 80) && (nth QCOM_ICC_BUCKET_WAKE (vote_x b) 0 =? 1)
    | None => false end)) as ([]&w'&E&H1); [vm_compute; reflexivity|].
  destruct (icc_bcms w' !! 0x100) as [b|] eqn:Hb; [|done]. exists w', b. apply andb_prop in H1 as [H1%Z.eqb_eq H2%Z.eqb_eq].
  exact (conj E (conj Hb (conj H1 H2))).
Qed.

(** In solver mode the error of the active votes is returned when no votes differ. *)
Theorem busy_not_ignored : exists w', Soc.commit
    (set_nodes (<[0x10 := IccNode 1 8 [80; 80; 80] [80; 80; 80] [] None]>) (Soc.world [0; 0] true)) = Ok (- EBUSY, w').
Proof.
  edestruct (run_check (Soc.commit (set_nodes (<[0x10 := IccNode 1 8 [80; 80; 80] [80; 80; 80] [] None]>) (Soc.world [0; 0] true)))
    (fun ret _ => ret =? - EBUSY)) as (ret&w'&E&H1); [vm_compute; reflexivity|].
  apply Z.eqb_eq in H1 as ->. exists w'. exact E.
Qed.

(** The database of [SocStart] with auxiliary data of [n] bytes. *)
Definition with_aux (n : Z) (w : icc) : icc :=
  Icc (icc_nodes w) (icc_bcms w) (icc_voters w) (bcm_voters w) (ctrlrs w)
    (poke [(SocStart.db + db_data + eh_len, 2%nat, n)] (cmd_db w)) (cmd_db_header w) (qos_set w).

(** The address is set before the data is read: once the data was missing, the next
    initialisation succeeds without any, and links neither the lists nor the nodes. *)
Theorem failed_init_sticks : exists w' b,
  qcom_icc_bcm_init 0x100 (with_aux 0 SocStart.w1) = Ok (- EINVAL, w') /\
  qcom_icc_bcm_init 0x100 w' = Ok (0, w') /\
  icc_bcms w' !! 0x100 = Some b /\ bcm_list b = Uninit /\ unit_ (aux_data b) = 0.
Proof.
  edestruct (run_check (qcom_icc_bcm_init 0x100 (with_aux 0 SocStart.w1)) (fun ret w' => (ret =? - EINVAL) &&
    match icc_bcms w' !! 0x100 with
    | Some b => negb (bcm_addr b =? 0) && bool_decide (bcm_list b = Uninit) && (unit_ (aux_data b) =? 0)
    | None => false end)) as (ret&w'&E&H1); [vm_compute; reflexivity|].
  apply andb_prop in H1 as [->%Z.eqb_eq H2]. destruct (icc_bcms w' !! 0x100) as [b|] eqn:Hb; [|done].
  apply andb_prop in H2 as [H2 H4]. apply andb_prop in H2 as [H2 H3%bool_decide_eq_true_1].
  exists w', b. split; [exact E|]. split; [|split; [exact Hb|split; [exact H3|lia]]].
  unfold qcom_icc_bcm_init. by rewrite (st_bind_ok _ _ _ _ _ (the_bcm_ok _ _ _ Hb)), H2.
Qed.

(** Data of one byte is taken for the data of a BCM. *)
Theorem partial_data_accepted : exists w', qcom_icc_bcm_init 0x100 (with_aux 1 SocStart.w1) = Ok (0, w').
Proof.
  edestruct (run_check (qcom_icc_bcm_init 0x100 (with_aux 1 SocStart.w1)) (fun ret _ => ret =? 0))
    as (ret&w'&E&H1); [vm_compute; reflexivity|]. apply Z.eqb_eq in H1 as ->. exists w'. exact E.
Qed.
