(* ===== verification/ClkRpmh.v ===== *)
(** * Clocks (drivers/clk/qcom/clk-rpmh.c)

    A clock is on or off; a clock that stays on in sleep and one that does not are peers, and vote
    for the same resource.  Only the votes that changed are sent.  The clocks of bus clock managers
    have a rate, and only active votes. *)
From S2P Require Import Prelude CMem CmdDb RpmhRsc RpmhSlots RpmhTcs Rpmh RpmhFlush RpmhBatch RpmhClient Icc IccExamples.
Open Scope c_scope.

Definition CLK_RPMH_ARC_EN_OFFSET : Z := 0.
Definition CLK_RPMH_VRM_EN_OFFSET : Z := 4.

(** The numbers of the states are those of a header outside the repository, in this order. *)
Class RpmhStates := {
  state_num : rpmh_state -> Z;
  state_num_sleep : 0 <= state_num RPMH_SLEEP_STATE < 30;
  state_num_wake : state_num RPMH_WAKE_ONLY_STATE = state_num RPMH_SLEEP_STATE + 1;
  state_num_active : state_num RPMH_ACTIVE_ONLY_STATE = state_num RPMH_SLEEP_STATE + 2;
}.

(** struct clk_rpmh; a pointer is the address of the clock it points to. *)
Record clk_rpmh := ClkRpmh {
  ck_res_name : list Z;
  ck_div : Z;
  ck_optional : bool;
  ck_res_addr : Z;
  ck_res_on_val : Z;
  ck_state : Z;
  ck_aggr_state : Z;
  ck_last_sent : Z;
  ck_valid_mask : Z;
  ck_unit : Z;
  ck_dev : option Z;
  ck_peer : option Z;
}.

Definition set_ck_state (v : Z) (c : clk_rpmh) : clk_rpmh :=
  ClkRpmh (ck_res_name c) (ck_div c) (ck_optional c) (ck_res_addr c) (ck_res_on_val c) v (ck_aggr_state c) (ck_last_sent c)
    (ck_valid_mask c) (ck_unit c) (ck_dev c) (ck_peer c).
Definition set_ck_aggr (v : Z) (c : clk_rpmh) : clk_rpmh :=
  ClkRpmh (ck_res_name c) (ck_div c) (ck_optional c) (ck_res_addr c) (ck_res_on_val c) (ck_state c) v (ck_last_sent c)
    (ck_valid_mask c) (ck_unit c) (ck_dev c) (ck_peer c).
Definition set_ck_last (v : Z) (c : clk_rpmh) : clk_rpmh :=
  ClkRpmh (ck_res_name c) (ck_div c) (ck_optional c) (ck_res_addr c) (ck_res_on_val c) (ck_state c) (ck_aggr_state c) v
    (ck_valid_mask c) (ck_unit c) (ck_dev c) (ck_peer c).
Definition set_ck_unit (v : Z) (c : clk_rpmh) : clk_rpmh :=
  ClkRpmh (ck_res_name c) (ck_div c) (ck_optional c) (ck_res_addr c) (ck_res_on_val c) (ck_state c) (ck_aggr_state c) (ck_last_sent c)
    (ck_valid_mask c) v (ck_dev c) (ck_peer c).
Definition set_ck_dev (a d : Z) (c : clk_rpmh) : clk_rpmh :=
  ClkRpmh (ck_res_name c) (ck_div c) (ck_optional c) a (ck_res_on_val c) (ck_state c) (ck_aggr_state c) (ck_last_sent c)
    (ck_valid_mask c) (ck_unit c) (Some d) (ck_peer c).

(** What the driver calls in the framework of the clocks. *)
Inductive clk_call := ClkRegister (p : Z) | ClkProvider.

(** The clocks are the objects of the client. *)
Definition clocks : Type := client clk_rpmh clk_call.

Section states.
Context `{RpmhStates}.

Definition state_bit (st : rpmh_state) : Z := BIT (state_num st).

(** The masks of the clocks that run in sleep, of those that do not, and of those of bus clock managers. *)
Definition mask_all : Z := Z.lor (Z.lor (state_bit RPMH_WAKE_ONLY_STATE) (state_bit RPMH_ACTIVE_ONLY_STATE)) (state_bit RPMH_SLEEP_STATE).
Definition mask_ao : Z := Z.lor (state_bit RPMH_WAKE_ONLY_STATE) (state_bit RPMH_ACTIVE_ONLY_STATE).
Definition mask_bcm : Z := state_bit RPMH_ACTIVE_ONLY_STATE.

(** [__DEFINE_CLK_RPMH]: a clock and its active-only peer. *)
Definition define_clk (mask : Z) (peer : Z) (name : list Z) (en_offset on div : Z) (optional : bool) : clk_rpmh :=
  ClkRpmh name div optional en_offset on 0 0 0 mask 0 None (Some peer).
Definition define_clk_bcm (name : list Z) : clk_rpmh := ClkRpmh name 1 false 0 0 0 0 0 mask_bcm 0 None None.

Definition has_state_changed (c : clk_rpmh) (st : rpmh_state) : bool :=
  negb (Z.land (ck_last_sent c) (state_bit st) =? Z.land (ck_aggr_state c) (state_bit st)).

Section operations.
Context `{TcsAbi} `{BitmapArea} `{BcmAbi}.
(** What the hardware and the rest of the system do while a vote of a state is sent, or waited for. *)
Context (fuel : nat) (env wenv : rpmh_state -> nat -> rsc_drv -> rsc_drv) (irq_data : bool).

Definition clk_rpmh_send (c : clk_rpmh) (st : rpmh_state) (cmd : tcs_cmd) (wait : bool) : ST clocks Z :=
  if wait then on_ctrlr (ck_dev c) (rpmh_write fuel (env st) (wenv st) irq_data st (Some [cmd]) 1)
  else on_ctrlr (ck_dev c) (rpmh_write_async fuel (env st) st (Some [cmd]) 1).

(** The loop over the states; [data] is what the command holds from the rounds before. *)
Fixpoint send_states (l : list rpmh_state) (c : clk_rpmh) (data : Z) : ST clocks Z :=
  match l with
  | [] => st_ret 0
  | st :: l =>
    if has_state_changed c st then
      let data := if negb (Z.land (ck_aggr_state c) (state_bit st) =? 0) then ck_res_on_val c else data in
      let wait := negb (ck_aggr_state c =? 0) && state_is st RPMH_ACTIVE_ONLY_STATE in
      let! ret := clk_rpmh_send c st (Cmd (ck_res_addr c) data false) wait in
      if negb (ret =? 0) then st_ret ret else send_states l c data
    else send_states l c data
  end.

(** From the sleep state to the active one. *)
Definition all_states : list rpmh_state := [RPMH_SLEEP_STATE; RPMH_WAKE_ONLY_STATE; RPMH_ACTIVE_ONLY_STATE].

(** The peer is followed without a look at it. *)
Definition the_clk_peer (c : clk_rpmh) : ST clocks Z :=
  fun s => match ck_peer c with Some q => Ok (q, s) | None => Fault end.

Definition clk_rpmh_send_aggregate_command (p : Z) : ST clocks Z :=
  let! c := the_obj p in
  let! ret := send_states all_states c 0 in
  if negb (ret =? 0) then st_ret ret else
  upd_obj p (set_ck_last (ck_aggr_state c)) ;;;
  let! q := the_clk_peer c in
  upd_obj q (set_ck_last (ck_aggr_state c)) ;;;
  st_ret 0.

(** The test at the start compares a truth value with a mask. *)
Definition clk_rpmh_aggregate_state_send_command (p : Z) (enable : bool) : ST clocks Z :=
  let! c := the_obj p in
  if Z.b2z enable =? ck_state c then st_ret 0 else
  let state := if enable then ck_valid_mask c else 0 in
  let! q := the_clk_peer c in
  let! peer := the_obj q in
  let aggr := Z.lor state (ck_state peer) in
  upd_obj p (fun c => set_ck_aggr aggr (set_ck_state state c)) ;;;
  upd_obj q (set_ck_aggr aggr) ;;;
  let! ret := clk_rpmh_send_aggregate_command p in
  if ret =? 0 then st_ret 0 else
  upd_obj p (set_ck_state (if enable then 0 else ck_valid_mask c)) ;;;
  st_ret ret.

Definition clk_rpmh_prepare (p : Z) : ST clocks Z := clk_rpmh_aggregate_state_send_command p true.

(** The result is not looked at. *)
Definition clk_rpmh_unprepare (p : Z) : ST clocks unit :=
  clk_rpmh_aggregate_state_send_command p false ;;; st_ret tt.

(** A division by zero is a fault. *)
Definition clk_rpmh_recalc_rate (p prate : Z) : ST clocks Z :=
  let! r := the_obj p in
  if ck_div r =? 0 then (fun _ => Fault) else st_ret (prate / ck_div r).

Definition clk_rpmh_bcm_send_cmd (p : Z) (enable : bool) : ST clocks Z :=
  let! c := the_obj p in
  let cmd_state := if enable then (if negb (ck_aggr_state c =? 0) then ck_aggr_state c else 1) else 0 in
  let cmd_state := if cmd_state >? BCM_TCS_CMD_VOTE_MASK then BCM_TCS_CMD_VOTE_MASK else cmd_state in
  if ck_last_sent c =? cmd_state then st_ret 0 else
  let cmd := Cmd (ck_res_addr c) (BCM_TCS_CMD true enable 0 cmd_state) false in
  let! ret := clk_rpmh_send c RPMH_ACTIVE_ONLY_STATE cmd enable in
  if negb (ret =? 0) then st_ret ret else
  upd_obj p (set_ck_last cmd_state) ;;;
  st_ret 0.

Definition clk_rpmh_bcm_prepare (p : Z) : ST clocks Z := clk_rpmh_bcm_send_cmd p true.

Definition clk_rpmh_bcm_unprepare (p : Z) : ST clocks unit := clk_rpmh_bcm_send_cmd p false ;;; st_ret tt.

(** [prepared] is what the framework says of the clock; the result of the vote is not looked at. *)
Definition clk_rpmh_bcm_set_rate (p rate : Z) (prepared : bool) : ST clocks Z :=
  let! c := the_obj p in
  if ck_unit c =? 0 then (fun _ => Fault) else
  upd_obj p (set_ck_aggr (u32 (rate / ck_unit c))) ;;;
  (if prepared then clk_rpmh_bcm_send_cmd p true ;;; st_ret tt else st_ret tt) ;;;
  st_ret 0.

(** The product of two 32-bit numbers. *)
Definition clk_rpmh_bcm_recalc_rate (p : Z) : ST clocks Z :=
  let! c := the_obj p in st_ret (u32 (ck_aggr_state c * ck_unit c)).
End operations.
End states.

Definition clk_rpmh_round_rate (rate : Z) : Z := rate.

(** ** Set up *)

(** [inl err], or the clock. *)
Definition of_clk_rpmh_hw_get (idx : Z) (clks : list (option Z)) : ST clocks (Z + Z) :=
  if idx >=? Z.of_nat (length clks) then st_ret (inl (- EINVAL)) else
  match nth (Z.to_nat idx) clks None with
  | None => st_ret (inl (- ENOENT))
  | Some p =>
    let! c := the_obj p in
    if ck_res_addr c =? 0 then st_ret (inl (- ENODEV)) else st_ret (inr p)
  end.

Definition sizeof_bcm_db : Z := 8.

(** The rounds of the probe; [reg p] is the result of the registration of a clock. *)
Fixpoint clk_probe_loop (dev : Z) (reg : Z -> Z) (l : list (option Z)) : ST clocks Z :=
  match l with
  | [] => st_ret 0
  | None :: l => clk_probe_loop dev reg l
  | Some p :: l =>
    let! c := the_obj p in
    let! res_addr := on_cmd_db (fun db => cmd_db_read_addr db (ck_res_name c)) in
    if res_addr =? 0 then (if ck_optional c then clk_probe_loop dev reg l else st_ret (- ENODEV)) else
    let! data := on_cmd_db (fun db => cmd_db_read_aux_data db (ck_res_name c)) in
    match data with
    | inl err => st_ret err
    | inr (data, len) =>
      (if len =? sizeof_bcm_db then
         let! unit := on_cmd_db (fun _ => load32 data) in
         upd_obj p (set_ck_unit (u32 (unit * 1000)))
       else st_ret tt) ;;;
      upd_obj p (fun c => set_ck_dev (u32 (ck_res_addr c + res_addr)) dev c) ;;;
      called (ClkRegister p) ;;;
      if negb (reg p =? 0) then st_ret (reg p) else clk_probe_loop dev reg l
    end
  end.

(** [desc] is the match data with the table, [provider] the result of the registration of the provider. *)
Definition clk_rpmh_probe (dev : Z) (desc : option (list (option Z))) (reg : Z -> Z) (provider : Z) : ST clocks Z :=
  match desc with
  | None => st_ret (- ENODEV)
  | Some l =>
    let! ret := clk_probe_loop dev reg l in
    if negb (ret =? 0) then st_ret ret else
    called ClkProvider ;;;
    if negb (provider =? 0) then st_ret provider else st_ret 0
  end.

(** ** What the clocks ask for *)

#[export] Instance ck_voter : Voter clk_rpmh := {| vo_dev := ck_dev; vo_peer := ck_peer; vo_addr := ck_res_addr |}.

(** A vote that was sent says whether the resource is on; before the first one there is none. *)
Definition on_vote (on : Z) (b : bool) (v : Z) : Prop := v = (if b then on else 0) \/ b = false /\ v = UINT_MAX.

Section theorems.
Context `{RpmhStates} `{TcsAbi} `{BitmapArea} `{BcmAbi}.

(** Whether a clock is on in a state, and whether it or its peer is. *)
Definition on_in (st : rpmh_state) (c : clk_rpmh) : bool := Z.testbit (ck_state c) (state_num st).
Definition pair_on (st : rpmh_state) (c : clk_rpmh) (peer : option clk_rpmh) : bool :=
  on_in st c || match peer with Some y => on_in st y | None => false end.

(** A clock with a peer is on in the states of its mask, or off; a number for "on" is a vote. *)
Definition clk_ok (c : clk_rpmh) : Prop :=
  is_Some (ck_peer c) -> (ck_valid_mask c = mask_all \/ ck_valid_mask c = mask_ao) /\
    (ck_state c = 0 \/ ck_state c = ck_valid_mask c) /\ 0 < ck_res_on_val c < UINT_MAX.

(** The state of a pair was sent, and its votes are what the two ask for. *)
Definition clk_good (c : clk_rpmh) (peer : option clk_rpmh) (v : option (Z * Z)) : Prop :=
  match peer with
  | None => True
  | Some y =>
    ck_res_on_val y = ck_res_on_val c /\ ck_aggr_state c = Z.lor (ck_state c) (ck_state y) /\ ck_last_sent c = ck_aggr_state c /\
    let v := default no_vote v in
    on_vote (ck_res_on_val c) (pair_on RPMH_SLEEP_STATE c peer) (fst v) /\
    on_vote (ck_res_on_val c) (pair_on RPMH_WAKE_ONLY_STATE c peer) (snd v) /\ (snd v = UINT_MAX -> fst v = UINT_MAX)
  end.

Abbreviation clk_inv := (votes_inv (T := clk_call) clk_ok clk_good).

(** ** Bits *)
Lemma num_nonneg st : st = RPMH_SLEEP_STATE \/ st = RPMH_WAKE_ONLY_STATE \/ st = RPMH_ACTIVE_ONLY_STATE -> 0 <= state_num st.
Proof. pose proof state_num_sleep. pose proof state_num_wake. pose proof state_num_active. intros [->|[->| ->]]; lia. Qed.

Lemma bit_set x n : 0 <= n -> Z.land x (BIT n) = if Z.testbit x n then BIT n else 0.
Proof.
  intros Hn. apply Z.bits_inj'. intros k Hk. rewrite Z.land_spec, BIT_testbit by done.
  destruct (n =? k) eqn:E; [assert (n = k) as -> by lia|].
  - destruct (Z.testbit x k); [|by rewrite Z.bits_0]. by rewrite BIT_testbit, Z.eqb_refl by done.
  - rewrite andb_false_r. destruct (Z.testbit x n); [|by rewrite Z.bits_0]. by rewrite BIT_testbit, E by done.
Qed.

Lemma BIT_pos n : 0 <= n -> 0 < BIT n.
Proof. intros Hn. unfold BIT. rewrite Z.shiftl_mul_pow2 by done. lia. Qed.

Lemma bit_test x n : 0 <= n -> negb (Z.land x (BIT n) =? 0) = Z.testbit x n.
Proof. intros Hn. rewrite bit_set by done. pose proof (BIT_pos n Hn). destruct (Z.testbit x n); lia. Qed.

Lemma changed_spec c st : 0 <= state_num st ->
  has_state_changed c st = xorb (Z.testbit (ck_last_sent c) (state_num st)) (Z.testbit (ck_aggr_state c) (state_num st)).
Proof.
  intros Hn. unfold has_state_changed, state_bit. rewrite !bit_set by done. pose proof (BIT_pos _ Hn).
  destruct (Z.testbit (ck_last_sent c) _), (Z.testbit (ck_aggr_state c) _); cbn [xorb]; lia.
Qed.

Lemma clk_mask_bits : Z.testbit mask_all (state_num RPMH_SLEEP_STATE) = true /\ Z.testbit mask_ao (state_num RPMH_SLEEP_STATE) = false /\
  (forall m st, m = mask_all \/ m = mask_ao -> st = RPMH_WAKE_ONLY_STATE \/ st = RPMH_ACTIVE_ONLY_STATE -> Z.testbit m (state_num st) = true).
Proof.
  pose proof state_num_sleep. pose proof state_num_wake. pose proof state_num_active. unfold mask_all, mask_ao, state_bit.
  split_and!; [| |intros m st [-> | ->] [-> | ->]]; rewrite ?Z.lor_spec, !BIT_testbit by lia; lia.
Qed.

(** A state that is 0 or a mask: awake is awake, and who is on in sleep is on when awake. *)
Lemma state_bits c : is_Some (ck_peer c) -> clk_ok c -> on_in RPMH_ACTIVE_ONLY_STATE c = on_in RPMH_WAKE_ONLY_STATE c /\
  (on_in RPMH_SLEEP_STATE c = true -> on_in RPMH_WAKE_ONLY_STATE c = true).
Proof.
  intros Hp Hok. destruct (Hok Hp) as (Hm&Hs&_). destruct clk_mask_bits as (_&_&Hb). unfold on_in. destruct Hs as [-> | ->].
  - rewrite !Z.bits_0. done.
  - rewrite !Hb by auto. done.
Qed.

Lemma masks_positive m : m = mask_all \/ m = mask_ao -> m <> 0 /\ m <> 1.
Proof.
  intros Hm. destruct clk_mask_bits as (_&_&Hb). specialize (Hb m RPMH_WAKE_ONLY_STATE Hm (or_introl eq_refl)).
  pose proof state_num_sleep. pose proof state_num_wake. split; intros ->; [by rewrite Z.bits_0 in Hb|].
  rewrite Z.bits_above_log2 in Hb; cbn; (done || lia).
Qed.

(** ** The votes of a call *)

(** What the loop over the states makes of the votes. *)
Fixpoint sent_votes (l : list rpmh_state) (c : clk_rpmh) (data : Z) (v : Z * Z) : Z * Z :=
  match l with
  | [] => v
  | st :: l =>
    if has_state_changed c st then
      let data := if negb (Z.land (ck_aggr_state c) (state_bit st) =? 0) then ck_res_on_val c else data in
      sent_votes l c data (vote_update st data v)
    else sent_votes l c data v
  end.

Lemma sent_ok c v (os ow s w : bool) : 0 < ck_res_on_val c < UINT_MAX ->
  Z.testbit (ck_last_sent c) (state_num RPMH_SLEEP_STATE) = os -> Z.testbit (ck_aggr_state c) (state_num RPMH_SLEEP_STATE) = s ->
  (forall st, st = RPMH_WAKE_ONLY_STATE \/ st = RPMH_ACTIVE_ONLY_STATE ->
     Z.testbit (ck_last_sent c) (state_num st) = ow /\ Z.testbit (ck_aggr_state c) (state_num st) = w) ->
  (os = true -> ow = true) -> (s = true -> w = true) ->
  on_vote (ck_res_on_val c) os (fst v) -> on_vote (ck_res_on_val c) ow (snd v) -> (snd v = UINT_MAX -> fst v = UINT_MAX) ->
  let v' := sent_votes all_states c 0 v in
  on_vote (ck_res_on_val c) s (fst v') /\ on_vote (ck_res_on_val c) w (snd v') /\ (snd v' = UINT_MAX -> fst v' = UINT_MAX).
Proof.
  intros Hon Eos Es Hw Ho Hs V1 V2 V3. destruct (Hw RPMH_WAKE_ONLY_STATE) as [E1 E2]; [auto|]. destruct (Hw RPMH_ACTIVE_ONLY_STATE) as [E3 E4]; [auto|].
  assert (N : forall st, st = RPMH_SLEEP_STATE \/ st = RPMH_WAKE_ONLY_STATE \/ st = RPMH_ACTIVE_ONLY_STATE ->
    negb (Z.land (ck_aggr_state c) (state_bit st) =? 0) = Z.testbit (ck_aggr_state c) (state_num st)).
  { intros st Hst. apply bit_test. by apply num_nonneg. }
  unfold all_states. cbn [sent_votes]. rewrite !changed_spec, !N, Eos, Es, E1, E2, E3, E4 by (try apply num_nonneg; auto).
  destruct v as [a b]. unfold on_vote, UINT_MAX in *. cbn [fst snd] in *.
  destruct os, ow, s, w; cbn [xorb vote_update fst snd]; try (by specialize (Ho eq_refl)); try (by specialize (Hs eq_refl));
    repeat case_if; cbn [fst snd] in *; lia.
Qed.

Section calls.
Context (fuel : nat) (env wenv : rpmh_state -> nat -> rsc_drv -> rsc_drv) (irq_data : bool).

Lemma clk_send_spec c st cmd_data wait s ret s' d : ck_dev c = Some d -> ctrlr_ok s d ->
  clk_rpmh_send fuel env wenv irq_data c st (Cmd (ck_res_addr c) cmd_data false) wait s = Ok (ret, s') ->
  cl_objs s' = cl_objs s /\ vote_frame d (ck_res_addr c) s s' /\
  (ret = 0 -> client_votes s' d (ck_res_addr c) = Some (vote_update st cmd_data (default no_vote (client_votes s d (ck_res_addr c))))) /\
  (st = RPMH_ACTIVE_ONLY_STATE -> unvoted s d (ck_res_addr c) -> unvoted s' d (ck_res_addr c)).
Proof. intros Hd Hc E. exact (send_vote fuel (env st) (wenv st) irq_data wait _ _ _ _ _ _ _ d Hd Hc E). Qed.

Lemma send_states_spec c d ret : ck_dev c = Some d -> forall l data s s', ctrlr_ok s d ->
  send_states fuel env wenv irq_data l c data s = Ok (ret, s') ->
  cl_objs s' = cl_objs s /\ vote_frame d (ck_res_addr c) s s' /\
  (ret = 0 -> default no_vote (client_votes s' d (ck_res_addr c)) = sent_votes l c data (default no_vote (client_votes s d (ck_res_addr c)))).
Proof.
  intros Hd. induction l as [|st l IH]; intros data s s' Hc E; cbn [send_states sent_votes] in *; [by injection E as <- <-|].
  destruct (has_state_changed c st); [|by apply IH]. cbv zeta in E. apply st_bind_inv in E as (r1&s1&E1&E).
  apply (clk_send_spec _ _ _ _ _ _ _ d Hd Hc) in E1 as (P1&F1&V1&_).
  destruct (r1 =? 0) eqn:Er; cbn [negb] in E; [|injection E as <- <-; split; [done|]; split; [done|lia]].
  destruct (IH _ s1 s' (vf_ok _ _ _ _ F1 _ Hc) E) as (P2&F2&V2). split; [congruence|]. split; [by etrans|].
  intros Hr. rewrite V2, V1 by lia. done.
Qed.
End calls.

(** ** A call on a pair *)
Section pair_call.
Context (p : Z) (x : clk_rpmh) (q : Z) (y : clk_rpmh) (d : Z) (s : clocks) (out : gset Z).
Context (I : clk_inv s out) (Hx : cl_objs s !! p = Some x) (Hd : ck_dev x = Some d) (Hq : ck_peer x = Some q).
Context (Hn : q <> p) (Hy : cl_objs s !! q = Some y) (Hyp : ck_peer y = Some p).

(** The objects with a new state, and after it was sent. *)
Definition aggregated (st : Z) : gmap Z clk_rpmh :=
  <[q := set_ck_aggr (Z.lor st (ck_state y)) y]> (<[p := set_ck_aggr (Z.lor st (ck_state y)) (set_ck_state st x)]> (cl_objs s)).

Lemma pair_ok : clk_ok x /\ clk_ok y.
Proof using I Hx Hy. split; by eapply (vi_ok _ _ _ _ I). Qed.

Lemma state_ok st : st = 0 \/ st = ck_valid_mask x -> clk_ok (set_ck_state st x).
Proof using I Hx. intros Hst Hp. destruct (vi_ok _ _ _ _ I p x Hx Hp) as (Hm&_&Ho). split; [exact Hm|]. split; [exact Hst|exact Ho]. Qed.

(** The call fails: the pair is out. *)
Lemma failed_inv s' st A B : st = 0 \/ st = ck_valid_mask x -> vote_frame d (ck_res_addr x) s s' ->
  cl_objs s' = <[q := set_ck_aggr A y]> (<[p := set_ck_aggr B (set_ck_state st x)]> (cl_objs s)) -> clk_inv s' (out ∪ pair_of p x).
Proof using I Hx Hd Hq Hn Hy Hyp.
  intros Hst F E. assert (C : pair_change clk_ok p x d s s').
  { apply (pair_change_two clk_ok p x (set_ck_aggr B (set_ck_state st x)) q y (set_ck_aggr A y)); try done; [apply I| |].
    - by apply state_ok.
    - apply pair_ok. }
  apply (change_inv clk_ok clk_good p x d s s' out _ I Hx Hd C); [set_solver|left; set_solver].
Qed.

(** The state was sent. *)
Lemma sent_inv s' st : st = 0 \/ st = ck_valid_mask x -> vote_frame d (ck_res_addr x) s s' ->
  let A := Z.lor st (ck_state y) in let x1 := set_ck_aggr A (set_ck_state st x) in
  cl_objs s' = <[q := set_ck_last A (set_ck_aggr A y)]> (<[p := set_ck_last A x1]> (cl_objs s)) ->
  default no_vote (client_votes s' d (ck_res_addr x)) = sent_votes all_states x1 0 (default no_vote (client_votes s d (ck_res_addr x))) ->
  clk_inv s' out.
Proof using I Hx Hd Hq Hn Hy Hyp.
  intros Hst F A x1 E Hv. destruct pair_ok as [Kx Ky]. pose proof (state_ok st Hst) as Kst.
  assert (C : pair_change clk_ok p x d s s').
  { by apply (pair_change_two clk_ok p x (set_ck_last A x1) q y (set_ck_last A (set_ck_aggr A y))); try done; apply I. }
  apply (change_inv clk_ok clk_good p x d s s' out out I Hx Hd C); [done|].
  destruct (pair_out clk_ok clk_good p x s out I Hx) as [Hs|Hs]; [by left|right]. split; [done|].
  assert (Hpo : p ∉ out) by (apply Hs, in_pair; by left).
  pose proof (vi_good _ _ _ _ I p x Hx Hpo d Hd) as G. unfold peer_obj in G. cbn [vo_peer vo_addr ck_voter] in G. rewrite Hq in G. cbn in G. rewrite Hy in G.
  destruct G as (Eon&Ea&El&V1&V2&V3).
  assert (Hxp : cl_objs s' !! p = Some (set_ck_last A x1)) by by rewrite E, lookup_insert_ne, lookup_insert_eq by done.
  apply (pair_good clk_ok clk_good p x d s s' out I Hx Hd C (set_ck_last A x1) _ Hxp eq_refl). cbn [vo_peer vo_addr ck_voter]. rewrite Hq.
  exists (set_ck_last A (set_ck_aggr A y)). split; [by rewrite E, lookup_insert_eq|].
  destruct (state_bits x ltac:(by eexists) Kx) as [Bx1 Bx2], (state_bits y ltac:(by eexists) Ky) as [By1 By2].
  destruct (state_bits (set_ck_state st x) ltac:(by eexists) Kst) as [Bs1 Bs2].
  assert (Hon : 0 < ck_res_on_val x < UINT_MAX) by (apply Kx; by eexists).
  destruct (sent_ok x1 (default no_vote (client_votes s d (ck_res_addr x))) (pair_on RPMH_SLEEP_STATE x (Some y)) (pair_on RPMH_WAKE_ONLY_STATE x (Some y))
    (pair_on RPMH_SLEEP_STATE (set_ck_state st x) (Some y)) (pair_on RPMH_WAKE_ONLY_STATE (set_ck_state st x) (Some y)) Hon) as (R1&R2&R3);
    unfold pair_on in *; try done.
  - cbn. rewrite El, Ea, Z.lor_spec. done.
  - cbn. unfold A. by rewrite Z.lor_spec.
  - intros t Ht. cbn. unfold A. rewrite El, Ea, !Z.lor_spec. unfold on_in in *. cbn in *. destruct Ht as [-> | ->]; [done|].
    by rewrite Bx1, By1, Bs1.
  - rewrite !orb_true_iff. intuition.
  - rewrite !orb_true_iff. intuition.
  - assert (Eo : forall t, on_in t (set_ck_last A (set_ck_aggr A y)) || on_in t (set_ck_last A x1) = on_in t (set_ck_state st x) || on_in t y)
      by (intros t; apply orb_comm).
    split; unfold clk_good, pair_on; rewrite Hv; [by split_and!|]. rewrite !Eo. cbn [ck_res_on_val ck_aggr_state ck_last_sent ck_state set_ck_last set_ck_aggr].
    rewrite Eon. split; [done|]. split; [apply Z.lor_comm|]. by split_and!.
Qed.

Lemma pair_call_inv fuel env wenv irq_data enable ret s' :
  clk_rpmh_aggregate_state_send_command fuel env wenv irq_data p enable s = Ok (ret, s') ->
  clk_inv s' (if ret =? 0 then out else out ∪ pair_of p x).
Proof using H0 H1 I Hx Hd Hq Hn Hy Hyp.
  intros E. unfold clk_rpmh_aggregate_state_send_command in E. rewrite (st_bind_ok _ _ _ _ _ (the_obj_ok p x s Hx)) in E.
  destruct (Z.b2z enable =? ck_state x); [injection E as <- <-; exact I|]. cbv zeta in E.
  set (st := if enable then ck_valid_mask x else 0) in E. assert (Hst : st = 0 \/ st = ck_valid_mask x) by (destruct enable; auto).
  rewrite (st_bind_ok _ _ _ q s) in E by (unfold the_clk_peer; by rewrite Hq).
  rewrite (st_bind_ok _ _ _ _ _ (the_obj_ok q y s Hy)) in E. rewrite (st_bind_ok _ _ _ _ _ (upd_obj_ok p x _ s Hx)) in E.
  set (A := Z.lor st (ck_state y)) in *. set (x1 := set_ck_aggr A (set_ck_state st x)) in *.
  erewrite st_bind_ok in E by (apply upd_obj_ok; cbn; rewrite lookup_insert_ne by done; exact Hy).
  set (s1 := set_objs _ (set_objs _ s)) in E. assert (P1 : cl_objs s1 = <[q := set_ck_aggr A y]> (<[p := x1]> (cl_objs s))) by done.
  assert (F1 : vote_frame d (ck_res_addr x) s s1) by (etrans; apply vote_frame_objs).
  assert (V1 : client_votes s1 d (ck_res_addr x) = client_votes s d (ck_res_addr x)) by done. clearbody s1.
  assert (Hx1 : cl_objs s1 !! p = Some x1) by by rewrite P1, lookup_insert_ne, lookup_insert_eq by done.
  apply st_bind_inv in E as (r2&s2&E2&E). unfold clk_rpmh_send_aggregate_command in E2.
  rewrite (st_bind_ok _ _ _ _ _ (the_obj_ok p x1 s1 Hx1)) in E2. apply st_bind_inv in E2 as (r3&s3&E3&E2).
  pose proof (vi_ctrlr _ _ _ _ I p x d Hx Hd) as Hc.
  apply (send_states_spec fuel env wenv irq_data x1 d r3 Hd _ _ _ _ (vf_ok _ _ _ _ F1 _ Hc)) in E3 as (P3&F3&V3).
  change (ck_res_addr x1) with (ck_res_addr x) in *. assert (F3' : vote_frame d (ck_res_addr x) s s3) by by etrans.
  destruct (r3 =? 0) eqn:Er3; cbn [negb] in E2.
  - assert (Hx3 : cl_objs s3 !! p = Some x1) by by rewrite P3.
    rewrite (st_bind_ok _ _ _ _ _ (upd_obj_ok p x1 _ s3 Hx3)) in E2. erewrite (st_bind_ok _ _ _ q) in E2 by (unfold the_clk_peer; cbn; by rewrite Hq).
    erewrite st_bind_ok in E2 by (apply upd_obj_ok; cbn; rewrite lookup_insert_ne, P3, P1 by done; apply lookup_insert_eq).
    injection E2 as <- <-. cbn [Z.eqb] in E. injection E as <- <-. cbn [Z.eqb].
    apply (sent_inv _ st Hst); fold A x1; [etrans; [exact F3'|etrans; apply vote_frame_objs]| |].
    + cbn. rewrite P3, P1. rewrite (insert_insert_ne _ p q) by done. by rewrite !insert_insert_eq.
    + change (client_votes (set_objs _ (set_objs _ s3))) with (client_votes s3). by rewrite V3, V1 by lia.
  - injection E2 as <- <-. rewrite Er3 in E. rewrite (st_bind_ok _ _ _ _ _ (upd_obj_ok p x1 _ s3 ltac:(by rewrite P3))) in E. injection E as <- <-. rewrite Er3.
    apply (failed_inv _ (if enable then 0 else ck_valid_mask x) A A); [destruct enable; auto|etrans; [exact F3'|apply vote_frame_objs]|].
    cbn. rewrite P3, P1, (insert_insert_ne _ p q) by done. by rewrite insert_insert_eq.
Qed.
End pair_call.

(** ** A call on a clock of a bus clock manager *)
Lemma alone_change p x x' d s s' out : clk_inv s out -> cl_objs s !! p = Some x -> ck_dev x = Some d -> ck_peer x = None ->
  cl_objs s' = <[p := x']> (cl_objs s) -> wire x' = wire x -> vote_frame d (ck_res_addr x) s s' ->
  (unvoted s d (ck_res_addr x) -> unvoted s' d (ck_res_addr x)) -> clk_inv s' out.
Proof.
  intros I Hx Hd Hp E Hw F U. assert (Hp' : ck_peer x' = None) by (unfold wire in Hw; cbn in Hw; congruence).
  assert (C : pair_change clk_ok p x d s s').
  { apply (pair_change_one clk_ok p x x'); try done; [apply I|]. unfold clk_ok. rewrite Hp'. by intros [??]. }
  apply (change_inv clk_ok clk_good p x d s s' out out I Hx Hd C); [done|].
  destruct (pair_out clk_ok clk_good p x s out I Hx) as [Ho|Ho]; [by left|right]. split; [done|].
  apply (pair_good clk_ok clk_good p x d s s' out I Hx Hd C x' _ ltac:(by rewrite E, lookup_insert_eq) eq_refl). cbn [vo_peer ck_voter]. by rewrite Hp.
Qed.

Lemma bcm_send_inv fuel env wenv irq_data p x enable s ret s' out : clk_inv s out -> cl_objs s !! p = Some x -> ck_peer x = None ->
  clk_rpmh_bcm_send_cmd fuel env wenv irq_data p enable s = Ok (ret, s') -> clk_inv s' out.
Proof.
  intros I Hx Hp E. destruct (pw_dev _ (vi_wf _ _ _ _ I) p x Hx) as [d Hd]. cbn in Hd.
  unfold clk_rpmh_bcm_send_cmd in E. rewrite (st_bind_ok _ _ _ _ _ (the_obj_ok p x s Hx)) in E. cbv zeta in E.
  set (v := if _ >? BCM_TCS_CMD_VOTE_MASK then _ else _) in E. destruct (ck_last_sent x =? v); [by injection E as <- <-|].
  apply st_bind_inv in E as (r1&s1&E1&E).
  apply (clk_send_spec fuel env wenv irq_data _ _ _ _ _ _ _ d Hd (vi_ctrlr _ _ _ _ I p x d Hx Hd)) in E1 as (P1&F1&_&U1). specialize (U1 eq_refl).
  destruct (r1 =? 0); cbn [negb] in E.
  - rewrite (st_bind_ok _ _ _ _ _ (upd_obj_ok p x _ s1 ltac:(by rewrite P1))) in E. injection E as <- <-.
    apply (alone_change p x (set_ck_last v x) d s _ out I Hx Hd Hp); [cbn; by rewrite P1|done|etrans; [exact F1|apply vote_frame_objs]|exact U1].
  - injection E as <- <-. apply (alone_change p x x d s s1 out I Hx Hd Hp); [by rewrite P1, insert_id|done|exact F1|exact U1].
Qed.

Lemma set_rate_inv fuel env wenv irq_data p x rate prepared s ret s' out : clk_inv s out -> cl_objs s !! p = Some x -> ck_peer x = None ->
  clk_rpmh_bcm_set_rate fuel env wenv irq_data p rate prepared s = Ok (ret, s') -> clk_inv s' out.
Proof.
  intros I Hx Hp E. destruct (pw_dev _ (vi_wf _ _ _ _ I) p x Hx) as [d Hd]. cbn in Hd.
  unfold clk_rpmh_bcm_set_rate in E. rewrite (st_bind_ok _ _ _ _ _ (the_obj_ok p x s Hx)) in E. destruct (ck_unit x =? 0); [done|].
  rewrite (st_bind_ok _ _ _ _ _ (upd_obj_ok p x _ s Hx)) in E. set (x1 := set_ck_aggr _ x) in E. set (s1 := set_objs _ s) in E.
  assert (I1 : clk_inv s1 out) by by apply (alone_change p x x1 d s s1 out I Hx Hd Hp); try done; apply vote_frame_objs.
  assert (Hx1 : cl_objs s1 !! p = Some x1) by (cbn; apply lookup_insert_eq).
  apply st_bind_inv in E as ([]&s2&E2&E). injection E as <- <-. destruct prepared; [|by injection E2 as <-].
  apply st_bind_inv in E2 as (r&s3&E3&E2). injection E2 as <-. by apply (bcm_send_inv fuel env wenv irq_data p x1 true s1 r).
Qed.

(** ** Sequences of calls *)
Inductive clk_op := CPrepare | CUnprepare | CBcmPrepare | CBcmUnprepare | CBcmSetRate (rate : Z) (prepared : bool).

(** The clocks of bus clock managers have no peers and operations of their own. *)
Definition op_fits (o : clk_op) (c : clk_rpmh) : Prop :=
  match o with CPrepare | CUnprepare => is_Some (ck_peer c) | _ => ck_peer c = None end.

(** The call; the result that [clk_rpmh_unprepare] does not hand on is kept here. *)
Definition do_clk_op (fuel : nat) (irq_data : bool) (env wenv : rpmh_state -> nat -> rsc_drv -> rsc_drv) (o : clk_op) (p : Z) : ST clocks Z :=
  match o with
  | CPrepare => clk_rpmh_prepare fuel env wenv irq_data p
  | CUnprepare => clk_rpmh_aggregate_state_send_command fuel env wenv irq_data p false
  | CBcmPrepare => clk_rpmh_bcm_prepare fuel env wenv irq_data p
  | CBcmUnprepare => clk_rpmh_bcm_unprepare fuel env wenv irq_data p ;;; st_ret 0
  | CBcmSetRate rate prepared => clk_rpmh_bcm_set_rate fuel env wenv irq_data p rate prepared
  end.

(** [failed] are the clocks with peers for which a call has failed. *)
Inductive clk_step (fuel : nat) (irq_data : bool) : clocks * gset Z -> clocks * gset Z -> Prop :=
| clk_step_call env wenv o p x ret s s' failed : cl_objs s !! p = Some x -> op_fits o x -> do_clk_op fuel irq_data env wenv o p s = Ok (ret, s') ->
    clk_step fuel irq_data (s, failed) (s', if (ret =? 0) || bool_decide (ck_peer x = None) then failed else failed ∪ pair_of p x)
| clk_step_others s s' failed : others s s' -> clk_step fuel irq_data (s, failed) (s', failed).

(** Clocks as they are registered: off, and without votes. *)
Definition clks_start (s : clocks) : Prop :=
  pairs_wf (cl_objs s) /\ (forall p x d, cl_objs s !! p = Some x -> ck_dev x = Some d -> ctrlr_ok s d /\ client_votes s d (ck_res_addr x) = None) /\
  forall p x, cl_objs s !! p = Some x -> clk_ok x /\
    forall q y, ck_peer x = Some q -> cl_objs s !! q = Some y ->
      ck_res_on_val y = ck_res_on_val x /\ ck_state x = 0 /\ ck_aggr_state x = 0 /\ ck_last_sent x = 0.

Lemma clk_start_inv s : clks_start s -> clk_inv s ∅.
Proof.
  intros (W&C&K). constructor; [done| | | | |].
  - intros p x d Hx Hd. by apply (C p x d).
  - intros p x Hx. by apply (K p x Hx).
  - intros p x q _ Hp. by apply elem_of_empty in Hp.
  - intros p x d Hx Hd _. left. by apply (C p x d).
  - intros p x Hx _ d Hd. destruct (C p x d Hx Hd) as [_ Hv]. cbn [vo_addr ck_voter]. rewrite Hv. unfold peer_obj. cbn [vo_peer ck_voter].
    destruct (ck_peer x) as [q|] eqn:Hq; cbn; [|done]. destruct (pw_peer _ W p x q Hx Hq) as (_&y&Hy&Hyp&_). rewrite Hy.
    destruct (K p x Hx) as [_ K1]. destruct (K1 q y Hq Hy) as (Eon&Es&Ea&El). destruct (K q y Hy) as [_ K2]. destruct (K2 p x Hyp Hx) as (_&Ey&_).
    unfold clk_good, pair_on, on_in. rewrite Es, Ey, Ea, El, !Z.bits_0. split_and!; try done; by right.
Qed.

Lemma clk_call_inv fuel irq_data env wenv o p x ret s s' failed : clk_inv s failed -> cl_objs s !! p = Some x -> op_fits o x ->
  do_clk_op fuel irq_data env wenv o p s = Ok (ret, s') ->
  clk_inv s' (if (ret =? 0) || bool_decide (ck_peer x = None) then failed else failed ∪ pair_of p x).
Proof.
  intros I Hx Hf E. destruct (pw_dev _ (vi_wf _ _ _ _ I) p x Hx) as [d Hd]. cbn in Hd.
  assert (A : forall en, is_Some (ck_peer x) -> clk_rpmh_aggregate_state_send_command fuel env wenv irq_data p en s = Ok (ret, s') ->
    clk_inv s' (if (ret =? 0) || bool_decide (ck_peer x = None) then failed else failed ∪ pair_of p x)).
  { intros en [q Hq] Ec. destruct (pw_peer _ (vi_wf _ _ _ _ I) p x q Hx Hq) as (Hn&y&Hy&Hyp&_).
    rewrite bool_decide_false, orb_false_r by congruence. by apply (pair_call_inv p x q y d s failed I Hx Hd Hq Hn Hy Hyp fuel env wenv irq_data en). }
  destruct o; cbn [op_fits do_clk_op] in *; [by apply (A true)|by apply (A false)|..]; rewrite bool_decide_true, orb_true_r by done.
  - by eapply bcm_send_inv.
  - apply st_bind_inv in E as ([]&s1&E1&E). injection E as <- <-. apply st_bind_inv in E1 as (r&s2&E2&E1). injection E1 as <-. by eapply bcm_send_inv.
  - by eapply set_rate_inv.
Qed.

Lemma clk_steps_inv fuel irq_data s failed s' failed' : rtc (clk_step fuel irq_data) (s, failed) (s', failed') -> clk_inv s failed -> clk_inv s' failed'.
Proof.
  intros Hr. remember (s, failed) as a. remember (s', failed') as b. revert s failed Heqa. induction Hr as [a|a m b' Hst Hr IH]; intros s failed ->.
  - by injection Heqb as <- <-.
  - intros I. destruct m as [s1 f1]. apply (IH Heqb s1 f1 eq_refl). inversion Hst; subst; [by eapply clk_call_inv|by eapply others_inv].
Qed.

(** C4: Over any sequence of calls that prepare and unprepare clocks and set the rates of those of bus clock managers, and
    of what the other clients of the library do: unless a call for a clock or its peer has failed, the sleep and the wake vote
    of their resource, once they were sent, are its number for "on" exactly when one of the two is on in that state; a flush
    of the library that succeeds then programs both votes, if the sleep vote was ever sent and they differ.  A clock of a bus
    clock manager never has a sleep or wake vote. *)
Theorem clk_votes_correct fuel irq_data s0 s failed p x d r : clks_start s0 -> rtc (clk_step fuel irq_data) (s0, ∅) (s, failed) ->
  cl_objs s !! p = Some x -> ck_dev x = Some d -> cl_ctrlrs s !! d = Some r ->
  let '(sl, wk) := default no_vote (votes (r_cache r) !! ck_res_addr x) in
  let asleep := pair_on RPMH_SLEEP_STATE x (peer_obj s x) in
  let awake := pair_on RPMH_WAKE_ONLY_STATE x (peer_obj s x) in
  (ck_peer x = None -> (sl, wk) = no_vote) /\
  (p ∉ failed -> is_Some (ck_peer x) ->
    on_vote (ck_res_on_val x) asleep sl /\ on_vote (ck_res_on_val x) awake wk /\
    forall ff fenv, flush_ready r -> sl <> UINT_MAX -> asleep <> awake ->
      exists ret r', rpmh_flush (S ff) fenv r = Ok (ret, r') /\
        (ret = 0 -> programmed (r_drv r') SLEEP_TCS (ck_res_addr x) (if asleep then ck_res_on_val x else 0) /\
                    programmed (r_drv r') WAKE_TCS (ck_res_addr x) (if awake then ck_res_on_val x else 0))).
Proof.
  intros Hs0 Hr Hx Hd Hc. pose proof (clk_steps_inv _ _ _ _ _ _ Hr (clk_start_inv s0 Hs0)) as I.
  assert (Ev : client_votes s d (ck_res_addr x) = votes (r_cache r) !! ck_res_addr x) by (unfold client_votes; by rewrite Hc).
  destruct (vi_ctrlr _ _ _ _ I p x d Hx Hd) as (r0&Hr0&Hsa&Hw). assert (r0 = r) as -> by congruence.
  pose proof (vi_alone _ _ _ _ I p x d Hx Hd) as Ha. cbn [vo_peer vo_addr ck_voter] in Ha. unfold unvoted in Ha. rewrite Ev in Ha.
  assert (G : p ∉ failed -> is_Some (ck_peer x) -> exists y, peer_obj s x = Some y /\ clk_good x (Some y) (votes (r_cache r) !! ck_res_addr x)).
  { intros Hp [q Hq]. pose proof (vi_good _ _ _ _ I p x Hx Hp d Hd) as G. cbn [vo_addr ck_voter] in G. rewrite Ev in G.
    destruct (pw_peer _ (vi_wf _ _ _ _ I) p x q Hx Hq) as (_&y&Hy&_). exists y. assert (E : peer_obj s x = Some y) by (unfold peer_obj; cbn; by rewrite Hq).
    split; [done|]. by rewrite E in G. }
  pose proof (vi_ok _ _ _ _ I p x Hx) as Hok. destruct (default no_vote _) as [sl wk] eqn:Hv. cbv zeta. split.
  { intros Hp. rewrite <-Hv. by destruct (Ha Hp) as [-> | ->]. }
  intros Hp Hpe. destruct (G Hp Hpe) as (y&->&_&_&_&V1&V2&V3). rewrite Hv in V1, V2, V3. cbn [fst snd] in V1, V2, V3. split; [done|]. split; [done|].
  intros ff fenv Hf Hsl Hn. destruct (Hok Hpe) as (_&_&Hon). unfold on_vote, UINT_MAX in *.
  destruct V1 as [V1|[_ V1]]; [|lia]. destruct V2 as [V2|[_ V2]]; [|lia]. rewrite <-V1, <-V2.
  assert (Hw1 : wk <> UINT_MAX /\ sl <> wk) by (unfold UINT_MAX; rewrite V1, V2; revert Hn; clear -Hon; destruct (pair_on _ _ _), (pair_on _ _ _); intros Hn; (done || lia)).
  apply flush_vote; try done; try apply Hw1. destruct (votes _ !! _) as [v|]; cbn in Hv; [by rewrite Hv|]. injection Hv as Hv _. by rewrite <-Hv in Hsl.
Qed.
End theorems.

(** What a vote of a bus clock manager comes to: the rate in units, but one at least and the largest vote at most, or nothing. *)
Theorem clk_bcm_sent `{RpmhStates} `{TcsAbi} `{BitmapArea} `{BcmAbi} fuel env wenv irq_data p x enable s s' : cl_objs s !! p = Some x ->
  ck_dev x <> None -> (forall d, ck_dev x = Some d -> ctrlr_ok s d) -> 0 <= ck_aggr_state x ->
  clk_rpmh_bcm_send_cmd fuel env wenv irq_data p enable s = Ok (0, s') ->
  cl_objs s' = <[p := set_ck_last (if enable then Z.min (Z.max 1 (ck_aggr_state x)) BCM_TCS_CMD_VOTE_MASK else 0) x]> (cl_objs s).
Proof.
  intros Hx Hd Hc Ha E. pose proof vote_mask_range. destruct (ck_dev x) as [d|] eqn:Ed; [|done]. specialize (Hc d eq_refl).
  unfold clk_rpmh_bcm_send_cmd in E. rewrite (st_bind_ok _ _ _ _ _ (the_obj_ok p x s Hx)) in E. cbv zeta in E.
  set (v := if _ >? BCM_TCS_CMD_VOTE_MASK then _ else _) in E.
  assert (Ev : (if enable then Z.min (Z.max 1 (ck_aggr_state x)) BCM_TCS_CMD_VOTE_MASK else 0) = v).
  { unfold v. destruct enable, (ck_aggr_state x =? 0) eqn:E0; cbn [negb]; case_if; lia. }
  rewrite Ev. clearbody v. destruct (ck_last_sent x =? v) eqn:El.
  - injection E as <-. rewrite insert_id; [done|]. rewrite Hx. f_equal. assert (v = ck_last_sent x) as -> by lia. by destruct x.
  - apply st_bind_inv in E as (r1&s1&E1&E). apply (clk_send_spec fuel env wenv irq_data _ _ _ _ _ _ _ d Ed Hc) in E1 as (P1&_).
    destruct (r1 =? 0) eqn:Er; cbn [negb] in E; [|injection E as -> _; done].
    rewrite (st_bind_ok _ _ _ _ _ (upd_obj_ok p x _ s1 ltac:(by rewrite P1))) in E. injection E as <-. cbn. by rewrite P1.
Qed.

(** ** Concrete clocks *)
Module ClkDemo.
Import RscDemo.

Lemma demo_sleep : 0 <= 0 < 30.
Proof. lia. Qed.
#[export] Instance demo_states : RpmhStates := {|
  state_num := fun st => match st with RPMH_SLEEP_STATE => 0 | RPMH_WAKE_ONLY_STATE => 1 | _ => 2 end;
  state_num_sleep := demo_sleep; state_num_wake := eq_refl; state_num_active := eq_refl |}.

Definition xo : list Z := [0x78; 0x6f].
Definition ip : list Z := [0x49; 0x50].
Definition rf : list Z := [0x72; 0x66].
Definition db : Z := 0x1000.

(** An oscillator, and a bus clock manager whose data has [len] bytes. *)
Definition chip (len : Z) : mem := poke
  [ (db + db_magic, 4%nat, 0x0c0330db);
    (rsc_hdr_at db 0 + rh_slv_id, 2%nat, 3); (rsc_hdr_at db 0 + rh_cnt, 2%nat, 2); (rsc_hdr_at db 0 + rh_data_offset, 2%nat, 48);
    (db + db_data, 4%nat, 0x6f78); (db + db_data + eh_addr, 4%nat, 0x30100);
    (db + db_data + 24, 4%nat, 0x5049); (db + db_data + 24 + eh_addr, 4%nat, 0x50200); (db + db_data + 24 + eh_len, 2%nat, len);
    (db + db_data + 48, 4%nat, 50) ]
  (Mem db 512 ∅).

Definition ctrlr (solver : bool) : rpmh := Rpmh false [] false [] solver start ∅ 0 [] [].
Definition boot (m : mem) (solver : bool) : clocks :=
  Client {[1 := define_clk mask_all 2 xo CLK_RPMH_ARC_EN_OFFSET 3 2 false; 2 := define_clk mask_ao 1 xo CLK_RPMH_ARC_EN_OFFSET 3 2 false;
           3 := define_clk_bcm ip; 4 := define_clk mask_all 5 rf CLK_RPMH_VRM_EN_OFFSET 1 1 true]}
    {[7 := ctrlr solver]} m (Some db) [].
Definition table : list (option Z) := [Some 1; Some 2; None; Some 3].
Definition final (o : res (Z * clocks)) (s : clocks) : clocks := match o with Ok (_, s') => s' | _ => s end.
Definition probe (s : clocks) : res (Z * clocks) := clk_rpmh_probe 7 (Some table) (fun _ => 0) 0 s.
Definition ready (solver : bool) : clocks :=
  let s := final (probe (boot (chip 8) solver)) (boot (chip 8) solver) in set_objs (delete 4) s.

Definition clk1 : clk_rpmh := ClkRpmh xo 2 false 0x30100 3 0 0 0 7 0 (Some 7) (Some 2).
Definition clk2 : clk_rpmh := ClkRpmh xo 2 false 0x30100 3 0 0 0 6 0 (Some 7) (Some 1).
Definition clk3 : clk_rpmh := ClkRpmh ip 1 false 0x50200 0 0 0 0 4 50000 (Some 7) None.

Lemma ready_clks : cl_objs (ready false) = {[1 := clk1; 2 := clk2; 3 := clk3]} /\
  cl_calls (ready false) = [ClkRegister 1; ClkRegister 2; ClkRegister 3; ClkProvider].
Proof. split; vm_compute; reflexivity. Qed.

Lemma clks_cases p x : cl_objs (ready false) !! p = Some x -> p = 1 /\ x = clk1 \/ p = 2 /\ x = clk2 \/ p = 3 /\ x = clk3.
Proof. rewrite (proj1 ready_clks), !lookup_insert_Some, lookup_singleton_Some. naive_solver. Qed.

Lemma clks_ctrlr : ctrlr_ok (ready false) 7.
Proof. eexists. split; [vm_compute; reflexivity|]. split; [reflexivity|constructor]. Qed.

Lemma clks_ready : clks_start (ready false).
Proof.
  split; [constructor|split].
  - intros p x [[-> ->]|[[-> ->]|[-> ->]]]%clks_cases; by eexists.
  - intros p x q [[-> ->]|[[-> ->]|[-> ->]]]%clks_cases [= <-]; (split; [done|]); rewrite (proj1 ready_clks); by eexists.
  - intros p x q y [[-> ->]|[[-> ->]|[-> ->]]]%clks_cases [[-> ->]|[[-> ->]|[-> ->]]]%clks_cases; cbn; try done; congruence.
  - intros p x d [[-> ->]|[[-> ->]|[-> ->]]]%clks_cases [= <-]; (split; [apply clks_ctrlr|reflexivity]).
  - intros p x Hx. split.
    + apply clks_cases in Hx. destruct Hx as [[_ ->]|[[_ ->]|[_ ->]]]; [intros _|intros _|by intros [? [=]]].
      * split; [left; reflexivity|]. split; [left; reflexivity|]. split; reflexivity.
      * split; [right; reflexivity|]. split; [left; reflexivity|]. split; reflexivity.
    + intros q y Hq Hy%clks_cases. apply clks_cases in Hx.
      destruct Hx as [[-> ->]|[[-> ->]|[-> ->]]]; [injection Hq as <-|injection Hq as <-|discriminate Hq];
        destruct Hy as [[E ->]|[[E ->]|[E ->]]]; first [discriminate E|clear E; split_and!; reflexivity].
Qed.

Definition env (st : rpmh_state) (k : nat) (d : rsc_drv) : rsc_drv := d.
(** The hardware completes the first TCS. *)
Definition complete (st : rpmh_state) (k : nat) (d : rsc_drv) : rsc_drv := run tcs_tx_done (write_tcs_reg d RSC_DRV_IRQ_STATUS 0 1).
Definition call (o : clk_op) (p : Z) (s : clocks) : res (Z * clocks) := do_clk_op 2 true env complete o p s.

(** Both clocks are on, and then only the one that does not run in sleep. *)
Definition s1 : clocks := final (call CPrepare 1 (ready false)) (ready false).
Definition s2 : clocks := final (call CPrepare 2 s1) s1.
Definition s3 : clocks := final (call CUnprepare 1 s2) s2.

Lemma clk_demo_step o p x s s' : match call o p s with Ok (ret, t) => (ret =? 0) | _ => false end = true -> s' = final (call o p s) s ->
  cl_objs s !! p = Some x -> op_fits o x -> clk_step 2 true (s, ∅) (s', ∅).
Proof.
  intros E -> Hx Hf. destruct (call o p s) as [[ret t]| |] eqn:Ec; [|done..]. cbn [final].
  pose proof (clk_step_call 2 true env complete o p x ret s t ∅ Hx Hf Ec) as S. by rewrite E in S.
Qed.

Lemma clk_demo_steps : rtc (clk_step 2 true) (ready false, ∅) (s3, ∅).
Proof.
  apply (rtc_l _ _ (s1, ∅)); [eapply (clk_demo_step CPrepare 1); [vm_compute; reflexivity|reflexivity|vm_compute; reflexivity|by eexists]|].
  apply (rtc_l _ _ (s2, ∅)); [eapply (clk_demo_step CPrepare 2); [vm_compute; reflexivity|reflexivity|vm_compute; reflexivity|by eexists]|].
  apply (rtc_l _ _ (s3, ∅)); [eapply (clk_demo_step CUnprepare 1); [vm_compute; reflexivity|reflexivity|vm_compute; reflexivity|by eexists]|apply rtc_refl].
Qed.

Definition ctrlr3 : rpmh := match cl_ctrlrs s3 !! 7 with Some r => r | None => ctrlr false end.
Definition dom3 : clk_rpmh := match cl_objs s3 !! 1 with Some x => x | None => clk1 end.

Lemma clk_demo_ready : flush_ready ctrlr3.
Proof.
  assert (Ei : d_in_use (r_drv ctrlr3) = ∅) by (vm_compute; reflexivity).
  constructor; [vm_compute; reflexivity|vm_compute; reflexivity| | |].
  - vm_compute r_cache. repeat constructor; cbn; unfold UINT_MAX; lia.
  - apply (rsc_wf_groups start); [apply (ri_wf _ start_inv)|vm_compute; reflexivity..| |].
    + vm_compute. discriminate.
    + vm_compute. reflexivity.
  - intros i _. rewrite Ei. apply not_elem_of_empty.
Qed.

Lemma peer3 : ck_peer dom3 = Some 2.
Proof. vm_compute. reflexivity. Qed.

Lemma flush3 : match rpmh_flush 1 (env RPMH_SLEEP_STATE) ctrlr3 with Ok (ret, _) => ret =? 0 | _ => false end = true.
Proof. vm_compute. reflexivity. Qed.

(** The oscillator goes off in sleep and on again. *)
Lemma votes3 : votes (r_cache ctrlr3) !! ck_res_addr dom3 = Some (0, 3) /\ pair_on RPMH_SLEEP_STATE dom3 (peer_obj s3 dom3) = false /\
  pair_on RPMH_WAKE_ONLY_STATE dom3 (peer_obj s3 dom3) = true /\ ck_res_on_val dom3 = 3.
Proof. split_and!; vm_compute; reflexivity. Qed.

Lemma clk_votes_correct_witness : exists r', rpmh_flush 1 (env RPMH_SLEEP_STATE) ctrlr3 = Ok (0, r') /\
  programmed (r_drv r') SLEEP_TCS (ck_res_addr dom3) 0 /\ programmed (r_drv r') WAKE_TCS (ck_res_addr dom3) 3.
Proof.
  pose proof (clk_votes_correct 2 true (ready false) s3 ∅ 1 dom3 7 ctrlr3 clks_ready clk_demo_steps ltac:(vm_compute; reflexivity)
    ltac:(vm_compute; reflexivity) ltac:(vm_compute; reflexivity)) as V.
  destruct votes3 as (E1&E2&E3&E4). rewrite E1, E2, E3, E4 in V. destruct V as [_ V].
  destruct (V (not_elem_of_empty 1) (ex_intro _ 2 peer3)) as (_&_&F).
  destruct (F 0%nat (env RPMH_SLEEP_STATE) clk_demo_ready ltac:(unfold UINT_MAX; lia) ltac:(discriminate)) as (ret&r'&E&Hp).
  pose proof flush3 as T. rewrite E in T. apply Z.eqb_eq in T. subst ret. exists r'. split; [exact E|]. exact (Hp eq_refl).
Defined.

(** ** What does not work *)

(** The active vote is refused, and the clock counts as off; the votes that were cached stay, and nothing takes them back. *)
Lemma clk_failed_run : exists s t, call CPrepare 1 (ready true) = Ok (- EBUSY, s) /\ (ck_state <$> cl_objs s !! 1) = Some 0 /\
  client_votes s 7 0x30100 = Some (3, 3) /\ call CUnprepare 1 s = Ok (0, t) /\ client_votes t 7 0x30100 = Some (3, 3).
Proof. eexists _, _. split; [vm_compute; reflexivity|]. split; [vm_compute; reflexivity|]. split; [vm_compute; reflexivity|]. split; vm_compute; reflexivity. Qed.

(** A clock that does not run in sleep is on, and its peer never was: there is no vote to take it down in sleep. *)
Lemma clk_alone_run : exists s, call CPrepare 2 (ready false) = Ok (0, s) /\ client_votes s 7 0x30100 = Some (UINT_MAX, 3).
Proof. eexists. split; vm_compute; reflexivity. Qed.

(** An optional clock that the chip does not have is handed out, since its address is not zero before the probe. *)
Lemma clk_optional_run : exists s, clk_rpmh_probe 7 (Some [Some 4]) (fun _ => 0) 0 (boot (chip 8) false) = Ok (0, s) /\
  of_clk_rpmh_hw_get 0 [Some 4] s = Ok (inr 4, s) /\ (ck_dev <$> cl_objs s !! 4) = Some None.
Proof. eexists. split; [vm_compute; reflexivity|]. split; vm_compute; reflexivity. Qed.

(** A probe whose registration of the provider fails is repeated: the address is added twice. *)
Lemma clk_probe_twice_run : exists s t, clk_rpmh_probe 7 (Some table) (fun _ => 0) (- EPROBE_DEFER) (boot (chip 8) false) = Ok (- EPROBE_DEFER, s) /\
  probe s = Ok (0, t) /\ (ck_res_addr <$> cl_objs t !! 1) = Some 0x60200.
Proof. eexists _, _. split; [vm_compute; reflexivity|]. split; vm_compute; reflexivity. Qed.

(** Without data of the right length the unit stays zero, and a rate is divided by it. *)
Definition no_unit : clocks := final (probe (boot (chip 0) false)) (boot (chip 0) false).
Lemma clk_no_unit_run : match probe (boot (chip 0) false) with Ok (ret, _) => ret =? 0 | _ => false end = true /\
  match call (CBcmSetRate 1000 false) 3 no_unit with Fault => true | _ => false end = true.
Proof. split; vm_compute; reflexivity. Qed.

(** A rate that does not fit in 32 bits comes back smaller. *)
Definition fast : clocks := final (call (CBcmSetRate 5000000000 false) 3 (ready false)) (ready false).
Lemma clk_rate_run : match call (CBcmSetRate 5000000000 false) 3 (ready false) with Ok (ret, _) => ret =? 0 | _ => false end = true /\
  match clk_rpmh_bcm_recalc_rate 3 fast with Ok (rate, _) => rate =? 705032704 | _ => false end = true.
Proof. split; vm_compute; reflexivity. Qed.
End ClkDemo.
