(* ===== verification/KernelIdr.v ===== *)
(** * The identifier allocator of the kernel

    The allocator is not part of the repository: the class [Idr] states its documented law.  A
    linear search implements it. *)
From stdpp Require Import sorting.
From S2P Require Import Prelude.

(** The identifier allocator of the kernel: an unused number of the range, or -ENOSPC exactly
    when there is none. *)
Class Idr := {
  idr_alloc : gmap Z Z -> Z -> Z -> Z;
  idr_alloc_cyclic : gmap Z Z -> Z -> Z -> Z -> Z;
  idr_alloc_spec : forall m lo hi, 0 <= lo < hi ->
    (lo <= idr_alloc m lo hi < hi /\ m !! idr_alloc m lo hi = None) \/
    (idr_alloc m lo hi = - ENOSPC /\ forall i, lo <= i < hi -> is_Some (m !! i));
  idr_cyclic_spec : forall m next lo hi, 0 <= lo < hi ->
    (lo <= idr_alloc_cyclic m next lo hi < hi /\ m !! idr_alloc_cyclic m next lo hi = None) \/
    (idr_alloc_cyclic m next lo hi = - ENOSPC /\ forall i, lo <= i < hi -> is_Some (m !! i));
}.

(** ** An allocator *)
Fixpoint first_free (m : gmap Z Z) (lo : Z) (n : nat) : Z :=
  match n with
  | O => - ENOSPC
  | S n => match m !! lo with None => lo | Some _ => first_free m (lo + 1) n end
  end.

Lemma first_free_spec m n : forall lo,
  (lo <= first_free m lo n < lo + Z.of_nat n /\ m !! first_free m lo n = None) \/
  (first_free m lo n = - ENOSPC /\ forall i, lo <= i < lo + Z.of_nat n -> is_Some (m !! i)).
Proof.
  induction n as [|n IH]; intros lo; cbn [first_free]; [right; split; [done|lia]|].
  destruct (m !! lo) eqn:E; [|left; split; [lia|done]].
  destruct (IH (lo + 1)) as [[Hr Hf]|[Hr Hf]]; [left; split; [lia|done]|right; split; [done|]].
  intros i Hi. destruct (decide (i = lo)) as [->|]; [by eexists|apply Hf; lia].
Qed.

(** The search of [idr_alloc_cyclic]: from the last number on, then from the start. *)
Definition cyclic_free (m : gmap Z Z) (next lo hi : Z) : Z :=
  let start := if (lo <=? next) && (next <? hi) then next else lo in
  let r := first_free m start (Z.to_nat (hi - start)) in
  if 0 <=? r then r else first_free m lo (Z.to_nat (hi - lo)).

Lemma linear_spec m lo hi : 0 <= lo < hi ->
  (lo <= first_free m lo (Z.to_nat (hi - lo)) < hi /\ m !! first_free m lo (Z.to_nat (hi - lo)) = None) \/
  (first_free m lo (Z.to_nat (hi - lo)) = - ENOSPC /\ forall i, lo <= i < hi -> is_Some (m !! i)).
Proof.
  intros Hl. destruct (first_free_spec m (Z.to_nat (hi - lo)) lo) as [[Hr Hf]|[Hr Hf]]; [left|right];
    (split; [lia|]); [done|]. intros i Hi. apply Hf. lia.
Qed.

Lemma cyclic_spec m next lo hi : 0 <= lo < hi ->
  (lo <= cyclic_free m next lo hi < hi /\ m !! cyclic_free m next lo hi = None) \/
  (cyclic_free m next lo hi = - ENOSPC /\ forall i, lo <= i < hi -> is_Some (m !! i)).
Proof.
  intros Hl. unfold cyclic_free. set (start := if _ : bool then next else lo).
  assert (lo <= start < hi) by (unfold start; case_if; lia).
  destruct (linear_spec m start hi ltac:(lia)) as [[Hr Hf]|[Hr Hf]].
  - bool_true (0 <=? first_free m start (Z.to_nat (hi - start))). left. split; [lia|done].
  - rewrite Hr. change (0 <=? - ENOSPC) with false. by apply linear_spec.
Qed.

#[export] Instance linear_idr : Idr := {|
  idr_alloc m lo hi := first_free m lo (Z.to_nat (hi - lo)); idr_alloc_cyclic := cyclic_free;
  idr_alloc_spec := linear_spec; idr_cyclic_spec := cyclic_spec
|}.

(** The entries in the order in which [idr_for_each_entry] visits them, and the next one from a
    number on. *)
Definition id_le (x y : Z * Z) : Prop := x.1 <= y.1.

#[export] Instance id_le_dec x y : Decision (id_le x y).
Proof. unfold id_le. apply _. Defined.
#[export] Instance id_le_total : Total id_le.
Proof. intros x y. unfold id_le. lia. Qed.

Definition idr_entries (m : gmap Z Z) : list (Z * Z) := merge_sort id_le (map_to_list m).
Definition idr_get_next (m : gmap Z Z) (id : Z) : option (Z * Z) := head (filter (fun x => id <= x.1) (idr_entries m)).

Lemma idr_entries_spec m i a : (i, a) ∈ idr_entries m <-> m !! i = Some a.
Proof. unfold idr_entries. by rewrite merge_sort_Permutation, elem_of_map_to_list. Qed.
