(* ===== verification/QrtrNs.v ===== *)
(** * The IPC router name service (net/qrtr/ns.c)

    The name service keeps the servers of every node of the network and the local
    clients that look for servers; it handles the control packets that arrive on its
    socket. *)
From stdpp Require Import sorting.
From S2P Require Import Prelude.
Open Scope c_scope.

(** ** Packets *)
Record sockaddr_qrtr := Sockaddr { sq_node : Z; sq_port : Z }.

#[export] Instance sockaddr_eq_dec : EqDecision sockaddr_qrtr.
Proof. solve_decision. Defined.

Definition QRTR_NODE_BCAST : Z := 0xffffffff.
Definition QRTR_PORT_CTRL : Z := 0xfffffffe.
Definition QRTR_TYPE_HELLO : Z := 2.
Definition QRTR_TYPE_BYE : Z := 3.
Definition QRTR_TYPE_NEW_SERVER : Z := 4.
Definition QRTR_TYPE_DEL_SERVER : Z := 5.
Definition QRTR_TYPE_DEL_CLIENT : Z := 6.
Definition QRTR_TYPE_RESUME_TX : Z := 7.
Definition QRTR_TYPE_EXIT : Z := 8.
Definition QRTR_TYPE_PING : Z := 9.
Definition QRTR_TYPE_NEW_LOOKUP : Z := 10.
Definition QRTR_TYPE_DEL_LOOKUP : Z := 11.

(** struct qrtr_ctrl_pkt: the command and the four words of the union.  A server is in
    all four words, a client in the first two. *)
Record qrtr_ctrl_pkt := Pkt { p_cmd : Z; p_w0 : Z; p_w1 : Z; p_w2 : Z; p_w3 : Z }.

Definition server_service (p : qrtr_ctrl_pkt) : Z := p_w0 p.
Definition server_instance (p : qrtr_ctrl_pkt) : Z := p_w1 p.
Definition server_node (p : qrtr_ctrl_pkt) : Z := p_w2 p.
Definition server_port (p : qrtr_ctrl_pkt) : Z := p_w3 p.
Definition client_node (p : qrtr_ctrl_pkt) : Z := p_w0 p.
Definition client_port (p : qrtr_ctrl_pkt) : Z := p_w1 p.

(** The packet in memory: five little-endian words. *)
Definition cpu_to_le32 (v : Z) : list Z :=
  [u8 v; u8 (Z.shiftr v 8); u8 (Z.shiftr v 16); u8 (Z.shiftr v 24)].

Definition le32_to_cpu (b : list Z) (off : nat) : Z :=
  default 0 (b !! off) + 2 ^ 8 * default 0 (b !! S off) + 2 ^ 16 * default 0 (b !! S (S off)) +
  2 ^ 24 * default 0 (b !! S (S (S off))).

Definition pkt_bytes (p : qrtr_ctrl_pkt) : list Z :=
  cpu_to_le32 (p_cmd p) ++ cpu_to_le32 (p_w0 p) ++ cpu_to_le32 (p_w1 p) ++
  cpu_to_le32 (p_w2 p) ++ cpu_to_le32 (p_w3 p).

Definition pkt_at (b : list Z) : qrtr_ctrl_pkt :=
  Pkt (le32_to_cpu b 0) (le32_to_cpu b 4) (le32_to_cpu b 8) (le32_to_cpu b 12) (le32_to_cpu b 16).

(** ** State *)
Record qrtr_server := Server { s_service : Z; s_instance : Z; s_node : Z; s_port : Z }.

Record qrtr_lookup := Lookup { l_service : Z; l_instance : Z; l_sq : sockaddr_qrtr }.

Record qrtr_node := Node { n_id : Z; n_servers : gmap Z qrtr_server }.

(** The tree [nodes] maps an identifier to a node object, the objects are in [ns_objs].
    [ns_sent] is every packet sent so far, [ns_mem] the answers of the allocator to the
    next allocations, which succeed when the list is exhausted. *)
Record ns := Ns {
  ns_local : Z;
  ns_nodes : gmap Z Z;
  ns_objs : gmap Z qrtr_node;
  ns_next : Z;
  ns_lookups : list qrtr_lookup;
  ns_sent : list (sockaddr_qrtr * qrtr_ctrl_pkt);
  ns_mem : list bool;
}.

Definition with_nodes (s : ns) (n : gmap Z Z) (o : gmap Z qrtr_node) (next : Z) : ns :=
  Ns (ns_local s) n o next (ns_lookups s) (ns_sent s) (ns_mem s).
Definition with_lookups (s : ns) (l : list qrtr_lookup) : ns :=
  Ns (ns_local s) (ns_nodes s) (ns_objs s) (ns_next s) l (ns_sent s) (ns_mem s).
Definition with_sent (s : ns) (l : list (sockaddr_qrtr * qrtr_ctrl_pkt)) : ns :=
  Ns (ns_local s) (ns_nodes s) (ns_objs s) (ns_next s) (ns_lookups s) l (ns_mem s).
Definition with_ns_mem (s : ns) (m : list bool) : ns :=
  Ns (ns_local s) (ns_nodes s) (ns_objs s) (ns_next s) (ns_lookups s) (ns_sent s) m.

Definition bcast_sq : sockaddr_qrtr := Sockaddr QRTR_NODE_BCAST QRTR_PORT_CTRL.

Definition ns_alloc : ST ns bool :=
  fun s => match ns_mem s with
           | [] => Ok (true, s)
           | b :: m => Ok (b, with_ns_mem s m)
           end.

(** The entries of an xarray in increasing order of index. *)
Definition xa_indices {A} (m : gmap Z A) : list Z := merge_sort Z.le (map fst (map_to_list m)).

Definition set_servers (n : qrtr_node) (m : gmap Z qrtr_server) : qrtr_node := Node (n_id n) m.

(** The object at an address; it is there whenever an address is held. *)
Definition node_at (s : ns) (a : Z) : qrtr_node := default (Node 0 ∅) (ns_objs s !! a).

Definition upd_node (a : Z) (f : qrtr_node -> qrtr_node) : ST ns unit :=
  st_upd (fun s => with_nodes s (ns_nodes s) (<[a := f (node_at s a)]> (ns_objs s)) (ns_next s)).

(** ** Nodes *)

(** The result of [xa_store] is ignored: when it fails the new node is in no tree. *)
Definition node_get (node_id : Z) : ST ns (option Z) :=
  let! found := st_get (fun s => ns_nodes s !! node_id) in
  match found with
  | Some a => st_ret (Some a)
  | None =>
    let! ok := ns_alloc in
    if negb ok then st_ret None else
    let! a := st_get ns_next in
    st_upd (fun s => with_nodes s (ns_nodes s) (<[a := Node node_id ∅]> (ns_objs s)) (a + 1)) ;;;
    let! stored := ns_alloc in
    (if stored then st_upd (fun s => with_nodes s (<[node_id := a]> (ns_nodes s)) (ns_objs s) (ns_next s))
     else st_ret tt) ;;;
    st_ret (Some a)
  end.

Fixpoint find_service (m : gmap Z qrtr_server) (l : list Z) (node_id port_id : Z) : Z :=
  match l with
  | [] => 0
  | i :: l =>
    match m !! i with
    | Some srv => if (s_node srv =? node_id) && (s_port srv =? port_id) then s_service srv
                  else find_service m l node_id port_id
    | None => find_service m l node_id port_id
    end
  end.

Definition qrtr_get_service_id (node_id port_id : Z) : ST ns Z :=
  let! node := node_get node_id in
  match node with
  | None => st_ret 0
  | Some a => st_get (fun s => let m := n_servers (node_at s a) in
                               find_service m (xa_indices m) node_id port_id)
  end.

(** struct qrtr_server_filter and the match. *)
Record qrtr_server_filter := Filter { f_service : Z; f_instance : Z; f_ifilter : Z }.

Definition server_match (srv : qrtr_server) (f : qrtr_server_filter) : bool :=
  let ifilter := f_ifilter f in
  if negb (f_service f =? 0) && negb (s_service srv =? f_service f) then false else
  let ifilter := if (ifilter =? 0) && negb (f_instance f =? 0) then UINT_MAX else ifilter in
  Z.land (s_instance srv) ifilter =? f_instance f.

(** The test the announcements make. *)
Definition lookup_wants (lookup : qrtr_lookup) (service instance : Z) : bool :=
  negb (negb (l_service lookup =? 0) && negb (l_service lookup =? service)) &&
  negb (negb (l_instance lookup =? 0) && negb (l_instance lookup =? instance)).

Definition server_pkt (cmd : Z) (srv : qrtr_server) : qrtr_ctrl_pkt :=
  Pkt cmd (s_service srv) (s_instance srv) (s_node srv) (s_port srv).

Section service.
(** The result of a send, given everything sent so far with the packet in question last. *)
Context (send_ret : list (sockaddr_qrtr * qrtr_ctrl_pkt) -> Z).

Definition kernel_sendmsg (dest : sockaddr_qrtr) (pkt : qrtr_ctrl_pkt) : ST ns Z :=
  st_upd (fun s => with_sent s (ns_sent s ++ [(dest, pkt)])) ;;;
  st_get (fun s => send_ret (ns_sent s)).

Definition service_announce_new (dest : sockaddr_qrtr) (srv : qrtr_server) : ST ns Z :=
  kernel_sendmsg dest (server_pkt QRTR_TYPE_NEW_SERVER srv).

Definition service_announce_del (dest : sockaddr_qrtr) (srv : qrtr_server) : ST ns Z :=
  kernel_sendmsg dest (server_pkt QRTR_TYPE_DEL_SERVER srv).

Definition lookup_notify (to : sockaddr_qrtr) (srv : option qrtr_server) (new : bool) : ST ns unit :=
  let cmd := if new then QRTR_TYPE_NEW_SERVER else QRTR_TYPE_DEL_SERVER in
  let pkt := match srv with
             | Some srv => server_pkt cmd srv
             | None => Pkt cmd 0 0 0 0
             end in
  let! _ := kernel_sendmsg to pkt in
  st_ret tt.

(** [xa_for_each] over the servers of a node: an index whose entry is gone is skipped. *)
Fixpoint announce_node (sq : sockaddr_qrtr) (a : Z) (l : list Z) : ST ns Z :=
  match l with
  | [] => st_ret 0
  | i :: l =>
    let! e := st_get (fun s => n_servers (node_at s a) !! i) in
    match e with
    | None => announce_node sq a l
    | Some srv =>
      let! ret := service_announce_new sq srv in
      if ret <? 0 then (if ret =? - ENODEV then announce_node sq a l else st_ret ret)
      else announce_node sq a l
    end
  end.

Fixpoint announce_nodes (sq : sockaddr_qrtr) (l : list Z) : ST ns Z :=
  match l with
  | [] => st_ret 0
  | id :: l =>
    let! e := st_get (fun s => ns_nodes s !! id) in
    match e with
    | None => announce_nodes sq l
    | Some a =>
      let! node := st_get (fun s => node_at s a) in
      if n_id node =? sq_node sq then announce_nodes sq l else
      let! ret := announce_node sq a (xa_indices (n_servers node)) in
      if ret <? 0 then st_ret ret else announce_nodes sq l
    end
  end.

Definition announce_servers (sq : sockaddr_qrtr) : ST ns Z :=
  let! l := st_get (fun s => xa_indices (ns_nodes s)) in
  announce_nodes sq l.

(** [None] when the server is refused. *)
Definition server_add (service instance node_id port : Z) : ST ns (option qrtr_server) :=
  if (service =? 0) || (port =? 0) then st_ret None else
  let! ok := ns_alloc in
  if negb ok then st_ret None else
  let srv := Server service instance node_id port in
  let! node := node_get node_id in
  match node with
  | None => st_ret None
  | Some a =>
    let! stored := ns_alloc in
    if negb stored then st_ret None else
    upd_node a (fun n => set_servers n (<[port := srv]> (n_servers n))) ;;;
    st_ret (Some srv)
  end.

(** The loops over the lookups. *)
Fixpoint notify_lookups (l : list qrtr_lookup) (service instance : Z) (srv : qrtr_server)
    (new : bool) : ST ns unit :=
  match l with
  | [] => st_ret tt
  | lookup :: l =>
    (if lookup_wants lookup service instance then lookup_notify (l_sq lookup) (Some srv) new
     else st_ret tt) ;;;
    notify_lookups l service instance srv new
  end.

Definition server_del (a : Z) (port : Z) : ST ns Z :=
  let! e := st_get (fun s => n_servers (node_at s a) !! port) in
  match e with
  | None => st_ret (- ENOENT)
  | Some srv =>
    upd_node a (fun n => set_servers n (delete port (n_servers n))) ;;;
    let! local := st_get ns_local in
    (if s_node srv =? local then let! _ := service_announce_del bcast_sq srv in st_ret tt
     else st_ret tt) ;;;
    let! l := st_get ns_lookups in
    notify_lookups l (s_service srv) (s_instance srv) srv false ;;;
    st_ret 0
  end.

Definition say_hello (dest : sockaddr_qrtr) : ST ns Z :=
  kernel_sendmsg dest (Pkt QRTR_TYPE_HELLO 0 0 0 0).

Definition ctrl_cmd_hello (sq : sockaddr_qrtr) : ST ns Z :=
  let! ret := say_hello sq in
  if ret <? 0 then st_ret ret else announce_servers sq.

(** The loop of [ctrl_cmd_bye] over the servers of the node that left. *)
Fixpoint del_servers (a : Z) (l : list Z) : ST ns unit :=
  match l with
  | [] => st_ret tt
  | i :: l =>
    let! e := st_get (fun s => n_servers (node_at s a) !! i) in
    match e with
    | None => del_servers a l
    | Some srv => let! _ := server_del a (s_port srv) in del_servers a l
    end
  end.

(** Sends a packet to every server of a node. *)
Fixpoint tell_servers (a : Z) (l : list Z) (pkt : qrtr_ctrl_pkt) : ST ns unit :=
  match l with
  | [] => st_ret tt
  | i :: l =>
    let! e := st_get (fun s => n_servers (node_at s a) !! i) in
    match e with
    | None => tell_servers a l pkt
    | Some srv =>
      let! _ := kernel_sendmsg (Sockaddr (s_node srv) (s_port srv)) pkt in
      tell_servers a l pkt
    end
  end.

(** The part [ctrl_cmd_bye] and [ctrl_cmd_del_client] share: tells the local servers. *)
Definition tell_local (pkt : qrtr_ctrl_pkt) : ST ns Z :=
  let! local := st_get ns_local in
  let! local_node := node_get local in
  match local_node with
  | None => st_ret 0
  | Some a =>
    let! l := st_get (fun s => xa_indices (n_servers (node_at s a))) in
    tell_servers a l pkt ;;;
    st_ret 0
  end.

Definition ctrl_cmd_bye (from : sockaddr_qrtr) : ST ns Z :=
  let! node := node_get (sq_node from) in
  match node with
  | None => st_ret 0
  | Some a =>
    let! l := st_get (fun s => xa_indices (n_servers (node_at s a))) in
    del_servers a l ;;;
    tell_local (Pkt QRTR_TYPE_BYE (sq_node from) 0 0 0)
  end.

Definition ctrl_cmd_del_client (from : sockaddr_qrtr) (node_id port : Z) : ST ns Z :=
  if negb (sq_node from =? node_id) then st_ret (- EINVAL) else
  let! local := st_get ns_local in
  if (sq_node from =? local) && negb (sq_port from =? port) then st_ret (- EINVAL) else
  st_upd (fun s => with_lookups s
    (filter (fun l => ~ (sq_node (l_sq l) = node_id /\ sq_port (l_sq l) = port)) (ns_lookups s))) ;;;
  let! node := node_get node_id in
  (match node with
   | Some a => let! _ := server_del a port in st_ret tt
   | None => st_ret tt
   end) ;;;
  tell_local (Pkt QRTR_TYPE_DEL_CLIENT node_id port 0 0).

Definition ctrl_cmd_new_server (from : sockaddr_qrtr) (service instance node_id port : Z) : ST ns Z :=
  let! local := st_get ns_local in
  let '(node_id, port) := if sq_node from =? local then (sq_node from, sq_port from)
                          else (node_id, port) in
  if negb (sq_node from =? node_id) then st_ret (- EINVAL) else
  let! srv := server_add service instance node_id port in
  match srv with
  | None => st_ret (- EINVAL)
  | Some srv =>
    let! ret := (if s_node srv =? local then service_announce_new bcast_sq srv else st_ret 0) in
    if (s_node srv =? local) && (ret <? 0) then st_ret ret else
    let! l := st_get ns_lookups in
    notify_lookups l service instance srv true ;;;
    st_ret ret
  end.

Definition ctrl_cmd_del_server (from : sockaddr_qrtr) (service instance node_id port : Z) : ST ns Z :=
  let! local := st_get ns_local in
  let '(node_id, port) := if sq_node from =? local then (sq_node from, sq_port from)
                          else (node_id, port) in
  if negb (sq_node from =? node_id) then st_ret (- EINVAL) else
  if (sq_node from =? local) && negb (sq_port from =? port) then st_ret (- EINVAL) else
  let! node := node_get node_id in
  match node with
  | None => st_ret (- ENOENT)
  | Some a => server_del a port
  end.

(** The listing of one node's servers for a new lookup, and of all of them. *)
Fixpoint list_node (from : sockaddr_qrtr) (f : qrtr_server_filter) (a : Z) (l : list Z) : ST ns unit :=
  match l with
  | [] => st_ret tt
  | i :: l =>
    let! e := st_get (fun s => n_servers (node_at s a) !! i) in
    (match e with
     | Some srv => if server_match srv f then lookup_notify from (Some srv) true else st_ret tt
     | None => st_ret tt
     end) ;;;
    list_node from f a l
  end.

Fixpoint list_nodes (from : sockaddr_qrtr) (f : qrtr_server_filter) (l : list Z) : ST ns unit :=
  match l with
  | [] => st_ret tt
  | id :: l =>
    let! e := st_get (fun s => ns_nodes s !! id) in
    (match e with
     | Some a => let! idx := st_get (fun s => xa_indices (n_servers (node_at s a))) in
                 list_node from f a idx
     | None => st_ret tt
     end) ;;;
    list_nodes from f l
  end.

Definition ctrl_cmd_new_lookup (from : sockaddr_qrtr) (service instance : Z) : ST ns Z :=
  let! local := st_get ns_local in
  if negb (sq_node from =? local) then st_ret (- EINVAL) else
  let! ok := ns_alloc in
  if negb ok then st_ret (- ENOMEM) else
  st_upd (fun s => with_lookups s (ns_lookups s ++ [Lookup service instance from])) ;;;
  let f := Filter service instance 0 in
  let! l := st_get (fun s => xa_indices (ns_nodes s)) in
  list_nodes from f l ;;;
  lookup_notify from None true ;;;
  st_ret 0.

Definition ctrl_cmd_del_lookup (from : sockaddr_qrtr) (service instance : Z) : ST ns unit :=
  st_upd (fun s => with_lookups s
    (filter (fun l => ~ (sq_node (l_sq l) = sq_node from /\ sq_port (l_sq l) = sq_port from /\
                         l_service l = service /\
                         (l_instance l = 0 \/ l_instance l = instance))) (ns_lookups s))).

(** ** The worker *)
Definition handle_pkt (sq : sockaddr_qrtr) (pkt : qrtr_ctrl_pkt) : ST ns Z :=
  let cmd := p_cmd pkt in
  if cmd =? QRTR_TYPE_HELLO then ctrl_cmd_hello sq else
  if cmd =? QRTR_TYPE_BYE then ctrl_cmd_bye sq else
  if cmd =? QRTR_TYPE_DEL_CLIENT then ctrl_cmd_del_client sq (client_node pkt) (client_port pkt) else
  if cmd =? QRTR_TYPE_NEW_SERVER then
    ctrl_cmd_new_server sq (server_service pkt) (server_instance pkt) (server_node pkt) (server_port pkt) else
  if cmd =? QRTR_TYPE_DEL_SERVER then
    ctrl_cmd_del_server sq (server_service pkt) (server_instance pkt) (server_node pkt) (server_port pkt) else
  if cmd =? QRTR_TYPE_NEW_LOOKUP then
    ctrl_cmd_new_lookup sq (server_service pkt) (server_instance pkt) else
  if cmd =? QRTR_TYPE_DEL_LOOKUP then
    ctrl_cmd_del_lookup sq (server_service pkt) (server_instance pkt) ;;; st_ret 0 else
  st_ret 0.

(** What the socket delivers: a datagram with its sender, or an error. *)
Inductive datagram := Datagram (from : sockaddr_qrtr) (b : list Z) | RecvErr (err : Z).

Definition recv_buf_size : nat := 4096.

(** The message is copied over the start of the buffer; the rest keeps what it held. *)
Definition recv_into (buf b : list Z) : list Z :=
  let b := take recv_buf_size b in b ++ drop (length b) buf.

Fixpoint worker_loop (buf : list Z) (q : list datagram) : ST ns (list datagram) :=
  match q with
  | [] => st_ret []
  | RecvErr _ :: q => st_ret q
  | Datagram from b :: q =>
    let buf := recv_into buf b in
    let! _ := handle_pkt from (pkt_at buf) in
    worker_loop buf q
  end.

(** [qrtr_ns_worker] on the queue of the socket; returns what is left in the queue. *)
Definition qrtr_ns_worker (q : list datagram) : ST ns (list datagram) :=
  let! ok := ns_alloc in
  if negb ok then st_ret q else
  worker_loop (replicate recv_buf_size 0) q.

(** [qrtr_ns_init] with the results of the socket and thread calls: [sock], [name] (the
  address or an error), [task] and [bound]; the result is whether the service runs. *)
Definition qrtr_ns_init (sock : Z) (name : Z + sockaddr_qrtr) (task bound : Z) (mem : list bool)
    : res (bool * ns) :=
  let idle local := Ns local ∅ ∅ 0 [] [] mem in
  if sock <? 0 then Ok (false, idle 0) else
  match name with
  | inl _ => Ok (false, idle 0)
  | inr sq =>
    if task <? 0 then Ok (false, idle 0) else
    let s := idle (sq_node sq) in
    if bound <? 0 then Ok (false, s) else
    match say_hello bcast_sq s with
    | Ok (ret, s) => Ok (negb (ret <? 0), s)
    | Fault => Fault
    | Loop => Loop
    end
  end.
End service.
