(* ===== verification/QrtrRegistry.v ===== *)
(** * The name service: its registry, isolation and announcements

    The registry maps a node and a port to a server.  The handlers keep it well formed,
    a packet changes the servers of its sender's node only, and the observers hear of
    exactly the changes they asked for. *)
From stdpp Require Import sorting.
From S2P Require Import Prelude QrtrNs.
Open Scope c_scope.

Definition registry (s : ns) (node port : Z) : option qrtr_server :=
  match ns_nodes s !! node with
  | Some a => n_servers (node_at s a) !! port
  | None => None
  end.

(** What a server entry of a node looks like. *)
Definition entry_ok (id port : Z) (srv : qrtr_server) : Prop :=
  s_port srv = port /\ s_node srv = id /\ s_service srv <> 0 /\ port <> 0 /\
  0 <= s_instance srv < 2 ^ 32.

Record ns_wf (s : ns) : Prop := {
  nw_tree : forall id a, ns_nodes s !! id = Some a -> exists n, ns_objs s !! a = Some n /\ n_id n = id;
  nw_next : forall a n, ns_objs s !! a = Some n -> a < ns_next s;
  nw_entry : forall a n port srv, ns_objs s !! a = Some n -> n_servers n !! port = Some srv ->
    entry_ok (n_id n) port srv;
}.

(** An address that holds the node [id], in the tree or not. *)
Definition node_ok (s : ns) (a id : Z) : Prop := exists n, ns_objs s !! a = Some n /\ n_id n = id.

(** What an operation that concerns node [N] may do. *)
Record ns_ext (N : Z) (s s' : ns) : Prop := {
  ne_wf : ns_wf s';
  ne_local : ns_local s' = ns_local s;
  ne_frame : forall node port, node <> N -> registry s' node port = registry s node port;
  ne_objs : forall a id, node_ok s a id -> node_ok s' a id;
}.

Lemma ns_ext_refl N s : ns_wf s -> ns_ext N s s.
Proof. intros Hw. by constructor. Qed.

Lemma ns_ext_trans N s1 s2 s3 : ns_ext N s1 s2 -> ns_ext N s2 s3 -> ns_ext N s1 s3.
Proof.
  intros [W1 L1 F1 O1] [W2 L2 F2 O2]. constructor; [done|congruence| |auto].
  intros node port Hn. by rewrite F2, F1.
Qed.

(** The operation returns and stays within its bounds. *)
Definition keeps {A} (N : Z) (c : ST ns A) (s : ns) : Prop :=
  exists x s', c s = Ok (x, s') /\ ns_ext N s s'.

Lemma keeps_ret {A} N (x : A) s : ns_wf s -> keeps N (st_ret x) s.
Proof. intros Hw. exists x, s. split; [done|by apply ns_ext_refl]. Qed.

Lemma keeps_bind {A B} N (c : ST ns A) (k : A -> ST ns B) s : keeps N c s ->
  (forall x s', c s = Ok (x, s') -> ns_ext N s s' -> keeps N (k x) s') -> keeps N (st_bind c k) s.
Proof.
  intros (x & s1 & Hc & He) Hk. destruct (Hk x s1 Hc He) as (y & s2 & Hy & He2).
  exists y, s2. rewrite (st_bind_ok _ _ _ _ _ Hc). split; [done|by eapply ns_ext_trans].
Qed.

Lemma keeps_get {A B} N (f : ns -> A) (k : A -> ST ns B) s :
  keeps N (k (f s)) s -> keeps N (st_bind (st_get f) k) s.
Proof. intros H. exact H. Qed.

(** Runs a computation up to the next operation that changes the state. *)
Ltac keeps_step :=
  match goal with
  | |- keeps _ (st_bind (st_get _) _) _ => apply keeps_get
  | |- keeps _ (st_bind _ _) _ => eapply keeps_bind; [|intros ? ? ? ?]
  | |- keeps _ (st_ret _) _ => apply keeps_ret
  | |- keeps _ (if ?b then _ else _) _ => destruct b eqn:?
  | |- keeps _ (match ?x with _ => _ end) _ => destruct x eqn:?
  end.

(** A change of anything but the nodes and the local identifier. *)
Lemma ext_rest N s s' : ns_wf s -> ns_local s' = ns_local s -> ns_nodes s' = ns_nodes s ->
  ns_objs s' = ns_objs s -> ns_next s' = ns_next s -> ns_ext N s s'.
Proof.
  intros [W1 W2 W3] Hl Hn Ho Hx. constructor; [|done| |].
  - constructor; rewrite ?Hn, ?Ho, ?Hx; done.
  - intros node port _. unfold registry, node_at. by rewrite Hn, Ho.
  - intros a id. unfold node_ok. by rewrite Ho.
Qed.

Lemma alloc_ok s : exists b s', ns_alloc s = Ok (b, s') /\ ns_local s' = ns_local s /\
  ns_nodes s' = ns_nodes s /\ ns_objs s' = ns_objs s /\ ns_next s' = ns_next s.
Proof. unfold ns_alloc. destruct (ns_mem s) as [|b m]; eexists _, _; (split; [reflexivity|done]). Qed.

Lemma keeps_alloc N s : ns_wf s -> keeps N ns_alloc s.
Proof.
  intros Hw. destruct (alloc_ok s) as (b & s' & Hr & ?&?&?&?). exists b, s'.
  split; [done|by apply ext_rest].
Qed.

Lemma keeps_upd N (s : ns) f : ns_wf s ->
  (forall s, ns_local (f s) = ns_local s /\ ns_nodes (f s) = ns_nodes s /\ ns_objs (f s) = ns_objs s /\
             ns_next (f s) = ns_next s) -> keeps N (st_upd f) s.
Proof. intros Hw Hf. destruct (Hf s) as (?&?&?&?). exists tt, (f s). split; [done|by apply ext_rest]. Qed.

Lemma keeps_send N r dest pkt s : ns_wf s -> keeps N (kernel_sendmsg r dest pkt) s.
Proof. intros Hw. unfold kernel_sendmsg. eexists _, _. split; [reflexivity|]. by apply ext_rest. Qed.

Lemma node_at_ok s a n : ns_objs s !! a = Some n -> node_at s a = n.
Proof. intros H. unfold node_at. by rewrite H. Qed.

(** A change of the servers of a node of the identifier [N]. *)
Lemma upd_servers_ext N s a f : ns_wf s -> node_ok s a N ->
  (forall port srv, f (n_servers (node_at s a)) !! port = Some srv -> entry_ok N port srv) ->
  ns_ext N s (with_nodes s (ns_nodes s)
    (<[a := set_servers (node_at s a) (f (n_servers (node_at s a)))]> (ns_objs s)) (ns_next s)).
Proof.
  intros [W1 W2 W3] (n & Hn & HN) Hf. rewrite (node_at_ok _ _ _ Hn) in *.
  assert (Hno : forall b id, node_ok s b id -> node_ok (with_nodes s (ns_nodes s)
             (<[a := set_servers n (f (n_servers n))]> (ns_objs s)) (ns_next s)) b id).
  { intros b id (m & Hm & Hid). unfold node_ok. cbn. destruct (decide (a = b)) as [<-|].
    - rewrite lookup_insert_eq. eexists. split; [done|]. cbn. congruence.
    - rewrite lookup_insert_ne by done. eauto. }
  constructor; [|done| |done].
  - constructor; cbn.
    + intros id b Hb. by apply (Hno b id), W1.
    + intros b m. destruct (decide (a = b)) as [<-|]; [rewrite lookup_insert_eq; intros _; eauto|].
      rewrite lookup_insert_ne by done. eauto.
    + intros b m port srv. destruct (decide (a = b)) as [<-|].
      * rewrite lookup_insert_eq. intros [= <-]. cbn. rewrite HN. apply Hf.
      * rewrite lookup_insert_ne by done. eauto.
  - intros node port Hne. unfold registry. cbn. destruct (ns_nodes s !! node) as [b|] eqn:Hb; [|done].
    destruct (W1 _ _ Hb) as (m & Hm & Hid). unfold node_at. cbn.
    rewrite lookup_insert_ne by (intros ->; congruence). done.
Qed.

(** A fresh node object that is not in the tree yet. *)
Lemma ext_new_object N id s1 : ns_wf s1 ->
  ns_ext N s1 (with_nodes s1 (ns_nodes s1) (<[ns_next s1 := Node id ∅]> (ns_objs s1)) (ns_next s1 + 1)).
Proof.
  intros [W1 W2 W3]. set (s2 := with_nodes _ _ _ _).
  assert (Hfresh : ns_objs s1 !! ns_next s1 = None).
  { destruct (ns_objs s1 !! ns_next s1) as [n|] eqn:E; [|done]. apply W2 in E. lia. }
  assert (Hobj : forall c n, ns_objs s1 !! c = Some n -> ns_objs s2 !! c = Some n).
  { intros c n Hc. cbn. rewrite lookup_insert_ne; [done|]. intros <-. congruence. }
  assert (Hat : forall c id', ns_nodes s1 !! id' = Some c -> node_at s2 c = node_at s1 c).
  { intros c id' Hc. destruct (W1 _ _ Hc) as (n & Hn & _). unfold node_at. by rewrite Hn, (Hobj _ _ Hn). }
  constructor; [constructor; cbn|done| |].
  - intros id' c Hc. destruct (W1 _ _ Hc) as (n & Hn & Hid). exists n. split; [by apply Hobj|done].
  - intros c n. destruct (decide (ns_next s1 = c)) as [<-|]; [lia|]. rewrite lookup_insert_ne by done.
    intros Hc%W2. lia.
  - intros c n port srv. destruct (decide (ns_next s1 = c)) as [<-|].
    + rewrite lookup_insert_eq. intros [= <-]. cbn. by rewrite lookup_empty.
    + rewrite lookup_insert_ne by done. eauto.
  - intros node port _. unfold registry. cbn. destruct (ns_nodes s1 !! node) as [c|] eqn:Hc; [|done].
    by rewrite (Hat _ _ Hc).
  - intros c id' (n & Hn & Hid). exists n. split; [by apply Hobj|done].
Qed.

Lemma keeps_node_get N id s : ns_wf s -> keeps N (node_get id) s /\
  forall x s', node_get id s = Ok (x, s') -> forall a, x = Some a -> node_ok s' a id.
Proof.
  intros Hw. unfold node_get. rewrite st_bind_get. unfold keeps. setoid_rewrite st_bind_get.
  destruct (ns_nodes s !! id) as [a|] eqn:Ha.
  { split; [exists (Some a), s; split; [done|by apply ns_ext_refl]|].
    intros x s' [= <- <-] b [= <-]. by apply (nw_tree _ Hw). }
  destruct (alloc_ok s) as (b & s1 & Hr1 & L1 & N1 & O1 & X1). setoid_rewrite (st_bind_ok _ _ _ _ _ Hr1).
  assert (He1 : ns_ext N s s1) by (by apply ext_rest).
  destruct b; cbn [negb]; [|split; [exists None, s1; done|by intros x s' [= <- <-]]].
  setoid_rewrite st_bind_get. setoid_rewrite st_bind_upd.
  set (s2 := with_nodes s1 (ns_nodes s1) (<[ns_next s1 := Node id ∅]> (ns_objs s1)) (ns_next s1 + 1)).
  assert (He2 : ns_ext N s1 s2) by (by apply ext_new_object, (ne_wf _ _ _ He1)).
  assert (Hok2 : node_ok s2 (ns_next s1) id) by (eexists; cbn; rewrite lookup_insert_eq; done).
  destruct (alloc_ok s2) as (b & s3 & Hr3 & L3 & N3 & O3 & X3). setoid_rewrite (st_bind_ok _ _ _ _ _ Hr3).
  assert (He3 : ns_ext N s2 s3) by (by apply ext_rest; [apply He2|..]).
  assert (Hok3 : node_ok s3 (ns_next s1) id) by (by apply (ne_objs _ _ _ He3)).
  assert (He03 : ns_ext N s s3) by (eapply ns_ext_trans; [exact He1|]; by eapply ns_ext_trans).
  destruct b; [|setoid_rewrite st_bind_ret; split; [eexists _, _; split; [reflexivity|done]|];
                intros x s' [= <- <-] c [= <-]; done].
  setoid_rewrite st_bind_upd. split; [|intros x s' [= <- <-] c [= <-]; done].
  eexists _, _. split; [reflexivity|]. eapply ns_ext_trans; [exact He03|].
  pose proof (ne_wf _ _ _ He03) as [V1 V2 V3]. destruct Hok3 as (n3 & Hn3 & Hid3).
  constructor; [constructor; cbn; [|done|done]|done| |done].
  - intros id' c. destruct (decide (id = id')) as [<-|]; [rewrite lookup_insert_eq; intros [= <-]; eauto|].
    rewrite lookup_insert_ne by done. apply V1.
  - intros node port _. unfold registry. cbn.
    destruct (decide (id = node)) as [<-|]; [|by rewrite lookup_insert_ne].
    rewrite lookup_insert_eq, N3. cbn. rewrite N1, Ha. unfold node_at. cbn. rewrite O3. cbn.
    by rewrite lookup_insert_eq.
Qed.

Create HintDb ns.

(** ** Every handler stays within the node of its sender *)
Section isolation.
Context (r : list (sockaddr_qrtr * qrtr_ctrl_pkt) -> Z) (N : Z).

Lemma ext_wf s s' : ns_ext N s s' -> ns_wf s'.
Proof. by intros []. Qed.

Hint Resolve keeps_ret keeps_alloc keeps_send ext_wf ns_ext_refl : ns.
Hint Extern 1 (keeps _ (node_get _) _) => apply keeps_node_get : ns.

Lemma keeps_notify to srv new s : ns_wf s -> keeps N (lookup_notify r to srv new) s.
Proof. intros Hw. unfold lookup_notify. keeps_step; eauto with ns. Qed.

Lemma keeps_notify_lookups l service instance srv new : forall s, ns_wf s ->
  keeps N (notify_lookups r l service instance srv new) s.
Proof.
  induction l as [|x l IH]; intros s Hw; cbn [notify_lookups]; [eauto with ns|].
  keeps_step; [|eauto with ns]. destruct (lookup_wants _ _ _); [by apply keeps_notify|eauto with ns].
Qed.

Lemma keeps_announce_node sq a l : forall s, ns_wf s -> keeps N (announce_node r sq a l) s.
Proof.
  induction l as [|i l IH]; intros s Hw; cbn [announce_node]; [eauto with ns|]. keeps_step.
  keeps_step; [|eauto]. keeps_step; [by apply keeps_send|].
  repeat (keeps_step; eauto with ns).
Qed.

Lemma keeps_announce_nodes sq l : forall s, ns_wf s -> keeps N (announce_nodes r sq l) s.
Proof.
  induction l as [|i l IH]; intros s Hw; cbn [announce_nodes]; [eauto with ns|]. keeps_step.
  keeps_step; [|eauto]. keeps_step. keeps_step; [eauto|]. keeps_step; [by apply keeps_announce_node|].
  keeps_step; eauto with ns.
Qed.

Lemma server_del_ok a port s : ns_wf s -> node_ok s a N -> keeps N (server_del r a port) s.
Proof.
  intros Hw Ha. unfold server_del. keeps_step. keeps_step; [|eauto with ns].
  keeps_step.
  { unfold upd_node. eexists _, _. split; [reflexivity|].
    apply (upd_servers_ext N s a (delete port)); [done|done|].
    intros p srv [_ Hp]%lookup_delete_Some. destruct Ha as (n & Hn & <-).
    rewrite (node_at_ok _ _ _ Hn) in Hp. by eapply nw_entry. }
  keeps_step. keeps_step.
  { keeps_step; [keeps_step; [by apply keeps_send; eauto with ns|]|]; eauto with ns. }
  keeps_step. keeps_step; [apply keeps_notify_lookups|]; eauto with ns.
Qed.

Lemma server_add_ok service instance port s : ns_wf s -> 0 <= instance < 2 ^ 32 ->
  keeps N (server_add service instance N port) s.
Proof.
  intros Hw Hi. unfold server_add. keeps_step; [eauto with ns|].
  match goal with H : (_ || _) = false |- _ => apply orb_false_iff in H as [Hs Hp] end.
  keeps_step; [eauto with ns|]. keeps_step; [eauto with ns|].
  eapply keeps_bind; [apply keeps_node_get; eauto with ns|]. intros node s2 Hg He2.
  destruct node as [a|]; [|eauto with ns]. assert (Hok : node_ok s2 a N).
  { eapply (proj2 (keeps_node_get N N _ _)); [exact Hg|done]. Unshelve. eauto with ns. }
  keeps_step; [eauto with ns|]. keeps_step; [eauto with ns|].
  keeps_step; [|eauto with ns]. unfold upd_node. eexists _, _. split; [reflexivity|].
  match goal with |- ns_ext _ ?s3 _ => assert (Hw3 : ns_wf s3) by eauto with ns; assert (Hok3 : node_ok s3 a N) by (by eapply ne_objs);
    apply (upd_servers_ext N s3 a (insert port _)); eauto with ns end.
  intros p srv. destruct (decide (port = p)) as [<-|].
  - rewrite lookup_insert_eq. intros [= <-]. unfold entry_ok. cbn. split_and!; lia.
  - rewrite lookup_insert_ne by done. destruct Hok3 as (nd & Hn & <-). rewrite (node_at_ok _ _ _ Hn).
    by eapply (nw_entry _ Hw3).
Qed.

Lemma keeps_del_servers a l : forall s, ns_wf s -> node_ok s a N -> keeps N (del_servers r a l) s.
Proof.
  induction l as [|i l IH]; intros s Hw Ha; cbn [del_servers]; [eauto with ns|]. keeps_step.
  keeps_step; [|eauto]. keeps_step; [by apply server_del_ok|]. apply IH; [eauto with ns|by eapply ne_objs].
Qed.

Lemma keeps_tell_servers a l pkt : forall s, ns_wf s -> keeps N (tell_servers r a l pkt) s.
Proof.
  induction l as [|i l IH]; intros s Hw; cbn [tell_servers]; [eauto with ns|]. keeps_step.
  keeps_step; [|eauto]. keeps_step; eauto with ns.
Qed.

Lemma keeps_tell_local pkt s : ns_wf s -> keeps N (tell_local r pkt) s.
Proof.
  intros Hw. unfold tell_local. keeps_step. keeps_step; [eauto with ns|]. keeps_step; [|eauto with ns].
  keeps_step. keeps_step; [apply keeps_tell_servers|]; eauto with ns.
Qed.

(** [node_get] of the sender's node, then an operation on it. *)
Lemma keeps_with_node {B} (k : option Z -> ST ns B) s : ns_wf s ->
  (forall s', ns_ext N s s' -> keeps N (k None) s') ->
  (forall a s', ns_ext N s s' -> node_ok s' a N -> keeps N (k (Some a)) s') ->
  keeps N (st_bind (node_get N) k) s.
Proof.
  intros Hw Hnone Hsome. destruct (keeps_node_get N N s Hw) as [Hk Hok].
  eapply keeps_bind; [exact Hk|]. intros [a|] s' Hr He; [|by apply Hnone]. apply Hsome; eauto.
Qed.

Lemma keeps_list_node from f a l : forall s, ns_wf s -> keeps N (list_node r from f a l) s.
Proof.
  induction l as [|i l IH]; intros s Hw; cbn [list_node]; [eauto with ns|]. keeps_step.
  keeps_step; [|eauto with ns]. keeps_step; [keeps_step|]; eauto using keeps_notify with ns.
Qed.

Lemma keeps_list_nodes from f l : forall s, ns_wf s -> keeps N (list_nodes r from f l) s.
Proof.
  induction l as [|i l IH]; intros s Hw; cbn [list_nodes]; [eauto with ns|]. keeps_step.
  keeps_step; [|eauto with ns]. keeps_step; [|eauto with ns]. keeps_step. by apply keeps_list_node.
Qed.

(** The fields of a packet are 32 bits wide. *)
Definition pkt_u32 (p : qrtr_ctrl_pkt) : Prop := 0 <= server_instance p < 2 ^ 32.

Lemma handle_keeps port pkt s : ns_wf s -> pkt_u32 pkt -> keeps N (handle_pkt r (Sockaddr N port) pkt) s.
Proof.
  intros Hw Hp. unfold handle_pkt. cbv zeta.
  repeat match goal with |- keeps _ (if ?b then _ else _) _ => destruct b end.
  - unfold ctrl_cmd_hello. keeps_step; [by apply keeps_send|]. keeps_step; [eauto with ns|].
    unfold announce_servers. keeps_step. apply keeps_announce_nodes. eauto with ns.
  - unfold ctrl_cmd_bye. apply keeps_with_node; [done|eauto with ns|]. intros a s' He Ha. keeps_step.
    keeps_step; [apply keeps_del_servers; eauto with ns|apply keeps_tell_local; eauto with ns].
  - unfold ctrl_cmd_del_client. cbn [sq_node sq_port]. keeps_step; [eauto with ns|].
    replace (client_node pkt) with N in * by lia. keeps_step. keeps_step; [eauto with ns|].
    keeps_step; [by apply keeps_upd|]. apply keeps_with_node; [eauto with ns| |].
    + intros s2 He2. keeps_step; [eauto with ns|]. apply keeps_tell_local. eauto with ns.
    + intros a s2 He2 Ha. keeps_step; [keeps_step; [apply server_del_ok; eauto with ns|eauto with ns]|].
      apply keeps_tell_local. eauto with ns.
  - unfold ctrl_cmd_new_server. cbn [sq_node sq_port]. keeps_step.
    assert (Hcase : exists nid p, (if N =? ns_local s then (N, port) else (server_node pkt, server_port pkt)) = (nid, p))
      by (destruct (N =? ns_local s); eauto).
    destruct Hcase as (nid & p & ->). keeps_step; [eauto with ns|]. replace nid with N by lia.
    keeps_step; [by apply server_add_ok|]. keeps_step; [|eauto with ns].
    keeps_step; [keeps_step; [apply keeps_send|]; eauto with ns|].
    keeps_step; [eauto with ns|]. keeps_step. keeps_step; [apply keeps_notify_lookups|]; eauto with ns.
  - unfold ctrl_cmd_del_server. cbn [sq_node sq_port]. keeps_step.
    assert (Hcase : exists nid p, (if N =? ns_local s then (N, port) else (server_node pkt, server_port pkt)) = (nid, p))
      by (destruct (N =? ns_local s); eauto).
    destruct Hcase as (nid & p & ->). keeps_step; [eauto with ns|]. replace nid with N by lia.
    keeps_step; [eauto with ns|]. apply keeps_with_node; [done|eauto with ns|].
    intros a s' He Ha. apply server_del_ok; eauto with ns.
  - unfold ctrl_cmd_new_lookup. cbn [sq_node]. keeps_step. keeps_step; [eauto with ns|].
    keeps_step; [eauto with ns|]. keeps_step; [eauto with ns|]. keeps_step; [apply keeps_upd; eauto with ns|].
    keeps_step. keeps_step; [apply keeps_list_nodes; eauto with ns|].
    keeps_step; [apply keeps_notify|]; eauto with ns.
  - unfold ctrl_cmd_del_lookup. keeps_step; [by apply keeps_upd|eauto with ns].
  - eauto with ns.
Qed.
End isolation.

(** C37: a control packet is handled to the end whatever it holds, leaves the registry well
    formed, and changes the servers of no node but its sender's: a node cannot register,
    replace or remove the servers of another. *)
Theorem ns_isolation r from pkt s : ns_wf s -> pkt_u32 pkt ->
  exists ret s', handle_pkt r from pkt s = Ok (ret, s') /\ ns_wf s' /\
    forall node port, node <> sq_node from -> registry s' node port = registry s node port.
Proof.
  intros Hw Hp. destruct from as [N port].
  destruct (handle_keeps r N port pkt s Hw Hp) as (ret & s' & Hr & He).
  exists ret, s'. split; [done|]. split; [apply He|]. intros node p Hn. by apply He.
Qed.

(** ** What is sent *)

(** The packets the lookups that want a server get. *)
Definition notices (l : list qrtr_lookup) (cmd : Z) (srv : qrtr_server)
    : list (sockaddr_qrtr * qrtr_ctrl_pkt) :=
  map (fun x => (l_sq x, server_pkt cmd srv))
      (filter (fun x => lookup_wants x (s_service srv) (s_instance srv) = true) l).

Definition cmd_of (new : bool) : Z := if new then QRTR_TYPE_NEW_SERVER else QRTR_TYPE_DEL_SERVER.

Lemma notify_lookups_trace r l srv new : forall s,
  notify_lookups r l (s_service srv) (s_instance srv) srv new s =
  Ok (tt, with_sent s (ns_sent s ++ notices l (cmd_of new) srv)).
Proof.
  induction l as [|x l IH]; intros s; cbn [notify_lookups].
  - unfold notices. cbn. rewrite app_nil_r. by destruct s.
  - unfold notices. rewrite filter_cons. destruct (lookup_wants x _ _) eqn:E.
    + rewrite decide_True by done. unfold lookup_notify, kernel_sendmsg. st_run. rewrite IH. cbn.
      rewrite <-app_assoc. done.
    + rewrite decide_False by done. st_run. apply IH.
Qed.

(** States with the same registry and the same other components but for the nodes. *)
Record same_service (s s' : ns) : Prop := {
  ss_wf : ns_wf s';
  ss_local : ns_local s' = ns_local s;
  ss_lookups : ns_lookups s' = ns_lookups s;
  ss_sent : ns_sent s' = ns_sent s;
  ss_mem : ns_mem s' = ns_mem s;
  ss_registry : forall node port, registry s' node port = registry s node port;
}.

Lemma node_get_full id s : ns_wf s -> ns_mem s = [] ->
  exists a s', node_get id s = Ok (Some a, s') /\ ns_nodes s' !! id = Some a /\ same_service s s'.
Proof.
  intros Hw Hm.
  assert (Hreg : forall x s', node_get id s = Ok (x, s') -> ns_wf s' /\
            forall node port, registry s' node port = registry s node port).
  { intros x s' Hr. split.
    - destruct (keeps_node_get 0 id s Hw) as [(y & s2 & Hr2 & He) _]. rewrite Hr in Hr2. simplify_eq. apply He.
    - intros node port. destruct (keeps_node_get (node + 1) id s Hw) as [(y & s2 & Hr2 & He) _].
      rewrite Hr in Hr2. simplify_eq. apply He. lia. }
  destruct (ns_nodes s !! id) as [a|] eqn:Ha.
  - exists a, s. assert (Hr : node_get id s = Ok (Some a, s)) by (unfold node_get; st_run; by rewrite Ha).
    split_and!; [done|done|]. by constructor.
  - assert (Hr : exists a s', node_get id s = Ok (Some a, s') /\ ns_nodes s' !! id = Some a /\
              ns_local s' = ns_local s /\ ns_lookups s' = ns_lookups s /\ ns_sent s' = ns_sent s /\
              ns_mem s' = ns_mem s).
    { unfold node_get. st_run. rewrite Ha. unfold st_bind, ns_alloc. rewrite Hm. cbn. rewrite Hm.
      eexists _, _. split; [reflexivity|]. cbn. rewrite lookup_insert_eq. done. }
    destruct Hr as (a & s' & Hr & Hn & ? & ? & ? & ?). exists a, s'. destruct (Hreg _ _ Hr).
    split_and!; [done|done|]. constructor; congruence.
Qed.

Lemma registry_node s id a port : ns_nodes s !! id = Some a ->
  registry s id port = n_servers (node_at s a) !! port.
Proof. intros H. unfold registry. by rewrite H. Qed.

Lemma registry_upd s id a f node port : ns_wf s -> ns_nodes s !! id = Some a ->
  registry (with_nodes s (ns_nodes s) (<[a := set_servers (node_at s a) f]> (ns_objs s)) (ns_next s)) node port =
  if decide (node = id) then f !! port else registry s node port.
Proof.
  intros Hw Ha. unfold registry. cbn. case_decide as Hd.
  - subst. rewrite Ha. unfold node_at. cbn. by rewrite lookup_insert_eq.
  - destruct (ns_nodes s !! node) as [b|] eqn:Hb; [|done]. unfold node_at. cbn.
    rewrite lookup_insert_ne; [done|]. intros <-.
    destruct (nw_tree _ Hw _ _ Ha) as (n & Hn & ?), (nw_tree _ Hw _ _ Hb) as (m & Hm & ?). congruence.
Qed.

(** The packets the removal of a server makes. *)
Definition del_packets (s : ns) (srv : qrtr_server) : list (sockaddr_qrtr * qrtr_ctrl_pkt) :=
  (if s_node srv =? ns_local s then [(bcast_sq, server_pkt QRTR_TYPE_DEL_SERVER srv)] else []) ++
  notices (ns_lookups s) QRTR_TYPE_DEL_SERVER srv.

Lemma server_del_full r id a port srv s : ns_wf s -> ns_nodes s !! id = Some a ->
  registry s id port = Some srv ->
  exists s', server_del r a port s = Ok (0, s') /\ ns_wf s' /\ ns_nodes s' = ns_nodes s /\
    ns_local s' = ns_local s /\ ns_lookups s' = ns_lookups s /\ ns_mem s' = ns_mem s /\
    ns_sent s' = ns_sent s ++ del_packets s srv /\
    forall node p, registry s' node p =
      if decide (node = id /\ p = port) then None else registry s node p.
Proof.
  intros Hw Ha Hr. assert (Hok : node_ok s a id) by (by apply (nw_tree _ Hw)).
  destruct (server_del_ok r id a port s Hw Hok) as (x & s2 & Hrun & He).
  pose proof Hrun as Hrun'. unfold server_del in Hrun'. rewrite st_bind_get in Hrun'.
  rewrite <-(registry_node _ _ _ _ Ha), Hr in Hrun'. unfold upd_node in Hrun'.
  rewrite st_bind_upd, st_bind_get in Hrun'.
  set (s1 := with_nodes s _ _ _) in Hrun'.
  assert (Hs2 : x = 0 /\ s2 = with_sent s1 (ns_sent s ++ del_packets s srv)).
  { unfold del_packets. change (ns_local s1) with (ns_local s) in Hrun'. destruct (_ =? _).
    - unfold service_announce_del, kernel_sendmsg in Hrun'.
      repeat first [rewrite st_bind_bind in Hrun' | rewrite st_bind_upd in Hrun' | rewrite st_bind_get in Hrun'
                   | rewrite st_bind_ret in Hrun'].
      unfold st_bind in Hrun'. rewrite notify_lookups_trace in Hrun'. unfold st_ret in Hrun'.
      simplify_eq. cbn. rewrite <-app_assoc. done.
    - repeat first [rewrite st_bind_get in Hrun' | rewrite st_bind_ret in Hrun'].
      unfold st_bind in Hrun'. rewrite notify_lookups_trace in Hrun'. unfold st_ret in Hrun'.
      by simplify_eq. }
  destruct Hs2 as [-> ->]. eexists. split; [exact Hrun|]. split; [apply He|]. split_and!; try done.
  intros node p. change (registry (with_sent s1 _) node p) with (registry s1 node p). subst s1.
  rewrite (registry_upd s id a) by done. case_decide as H1; case_decide as H2; try done.
  - destruct H2 as [_ ->]. apply lookup_delete_eq.
  - subst. rewrite lookup_delete_ne by naive_solver. by rewrite (registry_node _ _ _ _ Ha).
  - naive_solver.
Qed.

Lemma server_add_full service instance id port s : ns_wf s -> ns_mem s = [] ->
  service <> 0 -> port <> 0 -> 0 <= instance < 2 ^ 32 ->
  exists s', server_add service instance id port s = Ok (Some (Server service instance id port), s') /\
    ns_wf s' /\ ns_local s' = ns_local s /\ ns_lookups s' = ns_lookups s /\ ns_sent s' = ns_sent s /\ ns_mem s' = [] /\
    forall node p, registry s' node p =
      if decide (node = id /\ p = port) then Some (Server service instance id port) else registry s node p.
Proof.
  intros Hw Hm Hs Hp Hi. destruct (server_add_ok id service instance port s Hw Hi) as (x & s2 & Hrun & He).
  pose proof Hrun as Hrun'. unfold server_add in Hrun'. case_if_in Hrun'; [lia|].
  assert (Hal : forall s, ns_mem s = [] -> ns_alloc s = Ok (true, s)) by (intros t Ht; unfold ns_alloc; by rewrite Ht).
  rewrite (st_bind_ok _ _ _ _ _ (Hal s Hm)) in Hrun'. cbn [negb] in Hrun'. cbv zeta in Hrun'.
  destruct (node_get_full id s Hw Hm) as (a & s1 & Hg & Ha & [W1 L1 K1 T1 M1 R1]).
  rewrite (st_bind_ok _ _ _ _ _ Hg) in Hrun'. cbv iota in Hrun'.
  rewrite (st_bind_ok _ _ _ _ _ (Hal s1 ltac:(congruence))) in Hrun'. cbn [negb] in Hrun'.
  unfold upd_node in Hrun'. rewrite st_bind_upd in Hrun'. injection Hrun' as <- <-.
  eexists. split; [exact Hrun|]. split; [apply He|]. cbn [with_nodes ns_local ns_lookups ns_sent ns_mem].
  split_and!; [done..|congruence|]. intros node p.
  rewrite (registry_upd s1 id a) by done. case_decide as H1; case_decide as H2; try done.
  - destruct H2 as [_ ->]. apply lookup_insert_eq.
  - subst. rewrite lookup_insert_ne by naive_solver. by rewrite <-(registry_node _ _ _ _ Ha).
  - naive_solver.
Qed.

(** Where the packet of a server is registered: a local sender names itself. *)
Definition server_key (s : ns) (from : sockaddr_qrtr) (node_id port : Z) : Z * Z :=
  if sq_node from =? ns_local s then (sq_node from, sq_port from) else (node_id, port).

(** Registration of a server, with everything it keeps. *)
Lemma new_server_full r from service instance node_id port s : ns_wf s -> ns_mem s = [] ->
  let '(id, p) := server_key s from node_id port in
  sq_node from = id -> service <> 0 -> p <> 0 -> 0 <= instance < 2 ^ 32 ->
  let srv := Server service instance id p in
  let announce := if id =? ns_local s then [(bcast_sq, server_pkt QRTR_TYPE_NEW_SERVER srv)] else [] in
  let ret := if id =? ns_local s then r (ns_sent s ++ announce) else 0 in
  exists s', ctrl_cmd_new_server r from service instance node_id port s = Ok (ret, s') /\ ns_wf s' /\
    ns_local s' = ns_local s /\ ns_lookups s' = ns_lookups s /\ ns_mem s' = [] /\
    ns_sent s' = ns_sent s ++ announce ++
      (if ret <? 0 then [] else notices (ns_lookups s) QRTR_TYPE_NEW_SERVER srv) /\
    forall node q, registry s' node q = if decide (node = id /\ q = p) then Some srv else registry s node q.
Proof.
  intros Hw Hm. destruct (server_key s from node_id port) as [id p] eqn:Hk. intros Hid Hs Hp Hi. cbv zeta.
  unfold ctrl_cmd_new_server. st_run. unfold server_key in Hk. rewrite Hk, Hid, Z.eqb_refl. cbn [negb].
  destruct (server_add_full service instance id p s Hw Hm Hs Hp Hi) as (s1 & Hr1 & W1 & L1 & K1 & T1 & M1 & R1).
  rewrite (st_bind_ok _ _ _ _ _ Hr1). set (srv := Server service instance id p) in *.
  change (s_node srv) with id. destruct (id =? ns_local s) eqn:Hl.
  - unfold service_announce_new, kernel_sendmsg. st_run. cbn [with_sent ns_sent]. rewrite T1. cbn [andb].
    set (ret := r _). destruct (ret <? 0).
    + eexists. split; [reflexivity|]. cbn [with_sent ns_sent ns_lookups ns_local ns_mem]. split; [by apply (ext_rest 0 s1)|].
      split_and!; [done|done|done|by rewrite app_nil_r|exact R1].
    + st_run. unfold st_bind. change service with (s_service srv) at 1. change instance with (s_instance srv) at 1.
      rewrite notify_lookups_trace. eexists. split; [reflexivity|]. cbn [with_sent ns_sent ns_lookups ns_local ns_mem].
      split; [by apply (ext_rest 0 s1)|]. rewrite K1, <-app_assoc. split_and!; [done|done|done|done|exact R1].
  - st_run. cbn [andb]. st_run. unfold st_bind.
    change service with (s_service srv) at 1. change instance with (s_instance srv) at 1.
    rewrite notify_lookups_trace. eexists. split; [reflexivity|]. cbn [with_sent ns_sent ns_lookups ns_local ns_mem].
    split; [by apply (ext_rest 0 s1)|]. rewrite K1, T1. split_and!; [done|done|done|done|exact R1].
Qed.

(** Registering a server. With memory for it, a packet for a server with a service and
    a port from the node itself registers the server under its node and port, replacing what
    was there, and nothing else; a local server is first announced to all nodes, and when
    that fails the error is returned and the observers are not told; otherwise exactly the
    lookups that want the server are told, in the order they were made. *)
Theorem new_server_correct r from service instance node_id port s : ns_wf s -> ns_mem s = [] ->
  let '(id, p) := server_key s from node_id port in
  sq_node from = id -> service <> 0 -> p <> 0 -> 0 <= instance < 2 ^ 32 ->
  let srv := Server service instance id p in
  let announce := if id =? ns_local s then [(bcast_sq, server_pkt QRTR_TYPE_NEW_SERVER srv)] else [] in
  let ret := if id =? ns_local s then r (ns_sent s ++ announce) else 0 in
  exists s', ctrl_cmd_new_server r from service instance node_id port s = Ok (ret, s') /\ ns_wf s' /\
    ns_lookups s' = ns_lookups s /\
    ns_sent s' = ns_sent s ++ announce ++
      (if ret <? 0 then [] else notices (ns_lookups s) QRTR_TYPE_NEW_SERVER srv) /\
    forall node q, registry s' node q = if decide (node = id /\ q = p) then Some srv else registry s node q.
Proof.
  intros Hw Hm. pose proof (new_server_full r from service instance node_id port s Hw Hm) as Hfull.
  destruct (server_key s from node_id port) as [id p]. intros Hid Hs Hp Hi. cbv zeta in Hfull |- *.
  destruct (Hfull Hid Hs Hp Hi) as (s' & Hr & Hw' & _ & Hl & _ & Hsent & Hreg). by exists s'.
Qed.

(** Removing a server. A packet from the node itself removes the server registered
    under the node and port and nothing else, broadcasts the removal of a local server and
    tells exactly the lookups that want it; when there is none it returns -ENOENT and sends
    nothing. *)
Theorem del_server_correct r from service instance node_id port s : ns_wf s -> ns_mem s = [] ->
  let '(id, p) := server_key s from node_id port in
  sq_node from = id ->
  exists ret s', ctrl_cmd_del_server r from service instance node_id port s = Ok (ret, s') /\ ns_wf s' /\
    ns_local s' = ns_local s /\ ns_lookups s' = ns_lookups s /\ ns_mem s' = [] /\
    match registry s id p with
    | Some srv => ret = 0 /\ ns_sent s' = ns_sent s ++ del_packets s srv
    | None => ret = - ENOENT /\ ns_sent s' = ns_sent s
    end /\
    forall node q, registry s' node q = if decide (node = id /\ q = p) then None else registry s node q.
Proof.
  intros Hw Hm. destruct (server_key s from node_id port) as [id p] eqn:Hk. intros Hid.
  unfold ctrl_cmd_del_server. st_run. unfold server_key in Hk. rewrite Hk, Hid, Z.eqb_refl. cbn [negb].
  assert ((id =? ns_local s) && negb (sq_port from =? p) = false) as ->.
  { rewrite <-Hid. destruct (sq_node from =? ns_local s); [|done]. simplify_eq. by rewrite Z.eqb_refl. }
  destruct (node_get_full id s Hw Hm) as (a & s1 & Hg & Ha & [W1 L1 K1 T1 M1 R1]).
  rewrite (st_bind_ok _ _ _ _ _ Hg). rewrite <-(R1 id p). destruct (registry s1 id p) as [srv|] eqn:Hreg.
  - destruct (server_del_full r id a p srv s1 W1 Ha Hreg) as (s2 & Hr2 & W2 & _ & L2 & K2 & M2 & T2 & R2).
    exists 0, s2. split; [done|]. split; [done|]. split; [congruence|]. split; [congruence|]. split; [congruence|].
    split; [split; [done|]; rewrite T2, T1; unfold del_packets; by rewrite L1, K1|].
    intros node q. by rewrite R2, R1.
  - exists (- ENOENT), s1. split.
    { unfold server_del. st_run. by rewrite <-(registry_node _ _ _ _ Ha), Hreg. }
    split_and!; [done|done|done|congruence|done|done|]. intros node q. rewrite R1. case_decide as Hd; [|done].
    destruct Hd as [-> ->]. by rewrite <-R1.
Qed.

(** ** A node that leaves *)
Lemma elem_of_xa_indices {A} (m : gmap Z A) i : i ∈ xa_indices m <-> is_Some (m !! i).
Proof.
  unfold xa_indices. rewrite merge_sort_Permutation. split.
  - intros ([j x] & -> & Hx%elem_of_map_to_list)%list_elem_of_fmap. by exists x.
  - intros [x Hx]. apply list_elem_of_fmap. exists (i, x). split; [done|by apply elem_of_map_to_list].
Qed.

Lemma del_servers_full r id a l : forall s, ns_wf s -> ns_nodes s !! id = Some a ->
  exists s', del_servers r a l s = Ok (tt, s') /\ ns_wf s' /\ ns_nodes s' = ns_nodes s /\
    ns_local s' = ns_local s /\ ns_lookups s' = ns_lookups s /\ ns_mem s' = ns_mem s /\
    (forall node p, registry s' node p =
       if decide (node = id /\ p ∈ l) then None else registry s node p).
Proof.
  induction l as [|i l IH]; intros s Hw Ha; cbn [del_servers].
  - exists s. split_and!; try done. intros node p. rewrite decide_False; [done|]. set_solver.
  - st_run. rewrite <-(registry_node _ _ _ _ Ha). destruct (registry s id i) as [srv|] eqn:Hreg.
    + assert (Hport : s_port srv = i).
      { destruct (nw_tree _ Hw _ _ Ha) as (n & Hn & Hid). rewrite (registry_node _ _ _ _ Ha), (node_at_ok _ _ _ Hn) in Hreg.
        by apply (nw_entry _ Hw a n i srv). }
      rewrite Hport. destruct (server_del_full r id a i srv s Hw Ha Hreg) as (s1 & Hr1 & W1 & N1 & L1 & K1 & M1 & _ & R1).
      rewrite (st_bind_ok _ _ _ _ _ Hr1). destruct (IH s1 W1 ltac:(congruence)) as (s2 & Hr2 & W2 & N2 & L2 & K2 & M2 & R2).
      exists s2. split_and!; [done|done|congruence..|]. intros node p. rewrite R2, R1.
      repeat case_decide; set_solver.
    + destruct (IH s Hw Ha) as (s2 & Hr2 & W2 & N2 & L2 & K2 & M2 & R2). exists s2. split_and!; try done.
      intros node p. rewrite R2. case_decide as H1; case_decide as H2; try done; [set_solver|].
      destruct H2 as [-> [->|Hin]%elem_of_cons]; [done|by destruct H1].
Qed.

(** Every server of the node at [a] gets the packet, and nobody else; nothing else changes. *)
Lemma tell_servers_full r a pkt l : forall s, exists t, tell_servers r a l pkt s =
    Ok (tt, with_sent s (ns_sent s ++ t)) /\
  forall x, x ∈ t <-> exists i srv, i ∈ l /\ n_servers (node_at s a) !! i = Some srv /\
    x = (Sockaddr (s_node srv) (s_port srv), pkt).
Proof.
  induction l as [|i l IH]; intros s; cbn [tell_servers].
  - exists []. rewrite app_nil_r. split; [by destruct s|]. set_solver.
  - st_run. destruct (n_servers (node_at s a) !! i) as [srv|] eqn:E.
    + unfold kernel_sendmsg. st_run. set (s1 := with_sent s _).
      destruct (IH s1) as (t & Hr & Ht). exists ([(Sockaddr (s_node srv) (s_port srv), pkt)] ++ t).
      rewrite Hr. split; [cbn; by rewrite <-app_assoc|]. intros x. rewrite elem_of_app, list_elem_of_singleton, Ht. split.
      * intros [->|(j & srv' & Hj & Hs & ->)]; [exists i, srv; split; [left|done]|exists j, srv'; split; [by right|done]].
      * intros (j & srv' & [->|Hj]%elem_of_cons & Hs & ->); [left; congruence|right; by exists j, srv'].
    + destruct (IH s) as (t & Hr & Ht). exists t. split; [done|]. intros x. rewrite Ht. split.
      * intros (j & srv' & Hj & Hs & ->). exists j, srv'. split; [by right|done].
      * intros (j & srv' & [->|Hj]%elem_of_cons & Hs & ->); [congruence|by exists j, srv'].
Qed.

(** When a node leaves, all its servers are removed and no server of another node is,
    and every server of the local node is told that it left. *)
Theorem bye_correct r from s : ns_wf s -> ns_mem s = [] -> sq_node from <> ns_local s ->
  exists s', ctrl_cmd_bye r from s = Ok (0, s') /\ ns_wf s' /\
    (forall port, registry s' (sq_node from) port = None) /\
    (forall node port, node <> sq_node from -> registry s' node port = registry s node port) /\
    (forall port srv, registry s (ns_local s) port = Some srv ->
       (Sockaddr (ns_local s) port, Pkt QRTR_TYPE_BYE (sq_node from) 0 0 0) ∈ ns_sent s').
Proof.
  intros Hw Hm Hne. unfold ctrl_cmd_bye.
  destruct (node_get_full (sq_node from) s Hw Hm) as (a & s1 & Hg & Ha & [W1 L1 K1 T1 M1 R1]).
  rewrite (st_bind_ok _ _ _ _ _ Hg). st_run. set (l := xa_indices _).
  destruct (del_servers_full r (sq_node from) a l s1 W1 Ha) as (s2 & Hr2 & W2 & N2 & L2 & K2 & M2 & R2).
  rewrite (st_bind_ok _ _ _ _ _ Hr2). unfold tell_local. st_run.
  destruct (node_get_full (ns_local s2) s2 W2 ltac:(congruence)) as (b & s3 & Hg3 & Hb & [W3 L3 K3 T3 M3 R3]).
  rewrite (st_bind_ok _ _ _ _ _ Hg3). st_run.
  destruct (tell_servers_full r b (Pkt QRTR_TYPE_BYE (sq_node from) 0 0 0)
              (xa_indices (n_servers (node_at s3 b))) s3) as (t & Hr4 & Ht).
  rewrite (st_bind_ok _ _ _ _ _ Hr4). eexists. split; [reflexivity|].
  split; [by apply (ext_rest 0 s3)|].
  assert (Hreg : forall node p, registry (with_sent s3 (ns_sent s3 ++ t)) node p =
            if decide (node = sq_node from /\ p ∈ l) then None else registry s node p)
    by (intros; change (registry (with_sent s3 _) node p) with (registry s3 node p); by rewrite R3, R2, R1).
  split; [|split].
  - intros port. rewrite Hreg. case_decide as Hd; [done|]. rewrite <-R1, (registry_node _ _ _ _ Ha).
    apply eq_None_not_Some. intros Hx%elem_of_xa_indices. by apply Hd.
  - intros node port Hn. rewrite Hreg. rewrite decide_False by naive_solver. done.
  - intros port srv Hs. cbn. apply elem_of_app. right.
    assert (Hs3 : n_servers (node_at s3 b) !! port = Some srv).
    { rewrite <-(registry_node s3 (ns_local s2)), R3, R2, R1 by done. rewrite L2, L1, decide_False by naive_solver. done. }
    destruct (nw_tree _ W3 _ _ Hb) as (n & Hn & Hid). rewrite (node_at_ok _ _ _ Hn) in Hs3.
    destruct (nw_entry _ W3 _ _ _ _ Hn Hs3) as (Hp & Hnode & _).
    replace (Sockaddr (ns_local s) port) with (Sockaddr (s_node srv) (s_port srv)) by (f_equal; congruence).
    rewrite <-(node_at_ok _ _ _ Hn) in Hs3. apply Ht. exists port, srv. split; [|done].
    apply elem_of_xa_indices. by exists srv.
Qed.

(** ** Lookups *)

(** The listing and the announcements use the same test. *)
Lemma server_match_wants srv service instance sq : 0 <= s_instance srv < 2 ^ 32 -> 0 <= instance ->
  server_match srv (Filter service instance 0) =
  lookup_wants (Lookup service instance sq) (s_service srv) (s_instance srv).
Proof.
  intros Hi Hn. unfold server_match, lookup_wants. cbn [f_service f_instance f_ifilter l_service l_instance].
  rewrite (Z.eqb_sym service (s_service srv)).
  destruct (service =? 0), (s_service srv =? service); cbn [negb andb]; try done.
  all: destruct (instance =? 0) eqn:E; cbn [negb andb Z.eqb].
  all: try (rewrite Z.land_0_r; lia).
  all: change UINT_MAX with (Z.ones 32); rewrite Z.land_ones, Z.mod_small by lia.
  all: destruct (Z.eqb_spec (s_instance srv) instance), (Z.eqb_spec instance (s_instance srv)); try done; lia.
Qed.

Definition listed (from : sockaddr_qrtr) (l : list qrtr_server) : list (sockaddr_qrtr * qrtr_ctrl_pkt) :=
  map (fun srv => (from, server_pkt QRTR_TYPE_NEW_SERVER srv)) l.

Definition matching (s : ns) (f : qrtr_server_filter) (a : Z) (l : list Z) : list qrtr_server :=
  filter (fun srv => server_match srv f = true) (omap (fun i => n_servers (node_at s a) !! i) l).

Lemma list_node_trace r from f a l : forall s, list_node r from f a l s =
  Ok (tt, with_sent s (ns_sent s ++ listed from (matching s f a l))).
Proof.
  induction l as [|i l IH]; intros s; cbn [list_node].
  - unfold listed, matching. cbn. rewrite app_nil_r. by destruct s.
  - st_run. unfold matching. cbn [omap list_omap]. destruct (n_servers (node_at s a) !! i) as [srv|] eqn:E.
    + rewrite filter_cons. destruct (server_match srv f).
      * rewrite decide_True by done. unfold lookup_notify, kernel_sendmsg. st_run. rewrite IH.
        cbn [with_sent ns_sent]. rewrite <-app_assoc. done.
      * rewrite decide_False by done. st_run. apply IH.
    + st_run. apply IH.
Qed.

Definition matching_all (s : ns) (f : qrtr_server_filter) (l : list Z) : list qrtr_server :=
  l ≫= (fun id => match ns_nodes s !! id with
                  | Some a => matching s f a (xa_indices (n_servers (node_at s a)))
                  | None => []
                  end).

Lemma list_nodes_trace r from f l : forall s, list_nodes r from f l s =
  Ok (tt, with_sent s (ns_sent s ++ listed from (matching_all s f l))).
Proof.
  induction l as [|id l IH]; intros s; cbn [list_nodes].
  - unfold listed, matching_all. cbn. rewrite app_nil_r. by destruct s.
  - st_run. unfold matching_all. rewrite bind_cons. destruct (ns_nodes s !! id) as [a|].
    + st_run. rewrite (st_bind_ok _ _ _ _ _ (list_node_trace r from f a _ s)), IH.
      cbn [with_sent ns_sent]. unfold listed. rewrite map_app, <-app_assoc. done.
    + st_run. apply IH.
Qed.

Lemma elem_of_matching_all s f srv : ns_wf s ->
  srv ∈ matching_all s f (xa_indices (ns_nodes s)) <->
  exists node port, registry s node port = Some srv /\ server_match srv f = true.
Proof.
  intros Hw. unfold matching_all. rewrite list_elem_of_bind. split.
  - intros (id & Hin & Hid%elem_of_xa_indices). destruct Hid as [a Ha]. rewrite Ha in Hin.
    apply list_elem_of_filter in Hin as [Hm (i & _ & Hi)%list_elem_of_omap].
    exists id, i. by rewrite (registry_node _ _ _ _ Ha).
  - intros (node & port & Hr & Hm). unfold registry in Hr. destruct (ns_nodes s !! node) as [a|] eqn:Ha; [|done].
    exists node. rewrite Ha. split; [|apply elem_of_xa_indices; by exists a].
    apply list_elem_of_filter. split; [done|]. apply list_elem_of_omap. exists port. split; [|done].
    apply elem_of_xa_indices. by exists srv.
Qed.

Lemma registry_entry s node port srv : ns_wf s -> registry s node port = Some srv -> entry_ok node port srv.
Proof.
  intros Hw Hr. unfold registry in Hr. destruct (ns_nodes s !! node) as [a|] eqn:Ha; [|done].
  destruct (nw_tree _ Hw _ _ Ha) as (n & Hn & Hid). rewrite (node_at_ok _ _ _ Hn) in Hr. rewrite <-Hid.
  by apply (nw_entry _ Hw a n port srv).
Qed.

Lemma NoDup_xa_indices {A} (m : gmap Z A) : NoDup (xa_indices m).
Proof. unfold xa_indices. rewrite merge_sort_Permutation. apply NoDup_fst_map_to_list. Qed.

(** The listing names each server once: the place of a server is its node and port. *)
Lemma matching_all_nodup s f : ns_wf s -> NoDup (matching_all s f (xa_indices (ns_nodes s))).
Proof.
  intros Hw. unfold matching_all. apply NoDup_bind; [| |apply NoDup_xa_indices].
  - intros id id' srv _ _ H1 H2.
    assert (Hnode : forall i, srv ∈ match ns_nodes s !! i with Some a => matching s f a (xa_indices (n_servers (node_at s a))) | None => [] end ->
      s_node srv = i).
    { intros i Hs. destruct (ns_nodes s !! i) as [a|] eqn:Ha; [|by apply elem_of_nil in Hs].
      apply list_elem_of_filter in Hs as [_ (p & _ & Hp)%list_elem_of_omap].
      rewrite <-(registry_node _ _ _ _ Ha) in Hp. by destruct (registry_entry _ _ _ _ Hw Hp) as (_ & ? & _). }
    by rewrite <-(Hnode _ H1), <-(Hnode _ H2).
  - intros id _. destruct (ns_nodes s !! id) as [a|] eqn:Ha; [|constructor]. apply NoDup_filter.
    generalize (NoDup_xa_indices (n_servers (node_at s a))). generalize (xa_indices (n_servers (node_at s a))) as l.
    induction l as [|p l IH]; intros Hd; cbn; [constructor|]. apply NoDup_cons in Hd as [Hn Hd].
    destruct (n_servers (node_at s a) !! p) as [srv|] eqn:Hp; [|by apply IH]. constructor; [|by apply IH].
    intros (q & Hq & Hqs)%list_elem_of_omap. rewrite <-(registry_node _ _ _ _ Ha) in Hp. rewrite <-(registry_node _ _ _ _ Ha) in Hqs.
    destruct (registry_entry _ _ _ _ Hw Hp) as (E1 & _), (registry_entry _ _ _ _ Hw Hqs) as (E2 & _). congruence.
Qed.

(** A lookup by a local client, with everything it keeps. *)
Lemma new_lookup_full r from service instance s : ns_wf s -> ns_mem s = [] -> 0 <= instance -> sq_node from = ns_local s ->
  exists l s', ctrl_cmd_new_lookup r from service instance s = Ok (0, s') /\
     ns_wf s' /\ ns_local s' = ns_local s /\ ns_mem s' = [] /\ ns_lookups s' = ns_lookups s ++ [Lookup service instance from] /\
     (forall node port, registry s' node port = registry s node port) /\
     ns_sent s' = ns_sent s ++ listed from l ++ [(from, Pkt QRTR_TYPE_NEW_SERVER 0 0 0 0)] /\ NoDup l /\
     forall srv, srv ∈ l <-> exists node port, registry s node port = Some srv /\
       lookup_wants (Lookup service instance from) (s_service srv) (s_instance srv) = true.
Proof.
  intros Hw Hm Hi E. unfold ctrl_cmd_new_lookup. st_run. rewrite E, Z.eqb_refl. cbn [negb].
  assert (Hal : ns_alloc s = Ok (true, s)) by (unfold ns_alloc; by rewrite Hm).
  rewrite (st_bind_ok _ _ _ _ _ Hal). cbn [negb]. st_run. set (s1 := with_lookups s _).
  rewrite (st_bind_ok _ _ _ _ _ (list_nodes_trace r from _ _ s1)).
  unfold lookup_notify, kernel_sendmsg. st_run.
  eexists (matching_all s1 (Filter service instance 0) (xa_indices (ns_nodes s))), _.
  split; [reflexivity|]. split; [by apply (ext_rest 0 s)|]. split; [done|]. split; [done|]. split; [done|]. split; [done|].
  split; [cbn; by rewrite <-app_assoc|]. change (matching_all s1) with (matching_all s). split; [by apply matching_all_nodup|]. intros srv.
  rewrite elem_of_matching_all by done.
  assert (Hinst : forall node port, registry s node port = Some srv -> 0 <= s_instance srv < 2 ^ 32)
    by (intros node port Hr; by apply (registry_entry s node port srv Hw)).
  split; intros (node & port & Hr & Hx); exists node, port; (split; [done|]);
    [rewrite <-server_match_wants|rewrite (server_match_wants _ _ _ from)]; eauto.
Qed.

(** A new lookup. With memory for it, a lookup by a local client is appended to the
    lookups, leaves the registry alone, and is answered with one packet for each registered
    server it wants, and no other, and then with the empty packet that ends the listing; the
    listing uses the same test as the later announcements. A lookup from another node is
    refused with -EINVAL and nothing happens. *)
Theorem new_lookup_correct r from service instance s : ns_wf s -> ns_mem s = [] -> 0 <= instance ->
  (sq_node from <> ns_local s /\ ctrl_cmd_new_lookup r from service instance s = Ok (- EINVAL, s)) \/
  (sq_node from = ns_local s /\ exists l s', ctrl_cmd_new_lookup r from service instance s = Ok (0, s') /\
     ns_wf s' /\ ns_lookups s' = ns_lookups s ++ [Lookup service instance from] /\
     (forall node port, registry s' node port = registry s node port) /\
     ns_sent s' = ns_sent s ++ listed from l ++ [(from, Pkt QRTR_TYPE_NEW_SERVER 0 0 0 0)] /\
     forall srv, srv ∈ l <-> exists node port, registry s node port = Some srv /\
       lookup_wants (Lookup service instance from) (s_service srv) (s_instance srv) = true).
Proof.
  intros Hw Hm Hi. destruct (Z.eq_dec (sq_node from) (ns_local s)) as [E|E].
  - right. split; [done|]. destruct (new_lookup_full r from service instance s Hw Hm Hi E) as (l & s' & Hr & Hw' & _ & _ & Hl & Hreg & Hs & _ & Hin).
    by exists l, s'.
  - left. split; [done|]. unfold ctrl_cmd_new_lookup. st_run. by rewrite (proj2 (Z.eqb_neq _ _) E).
Qed.

(** ** Packets in memory *)
Definition pkt_ok (p : qrtr_ctrl_pkt) : Prop :=
  Forall (fun v => 0 <= v < 2 ^ 32) [p_cmd p; p_w0 p; p_w1 p; p_w2 p; p_w3 p].

Lemma le32_split v : 0 <= v < 2 ^ 32 ->
  u8 v + 2 ^ 8 * u8 (Z.shiftr v 8) + 2 ^ 16 * u8 (Z.shiftr v 16) + 2 ^ 24 * u8 (Z.shiftr v 24) = v.
Proof.
  intros Hv. unfold u8. rewrite !Z.shiftr_div_pow2 by lia.
  change (2 ^ 8) with 256. change (2 ^ 16) with 65536. change (2 ^ 24) with 16777216.
  change (2 ^ 32) with 4294967296 in Hv. Z.to_euclidean_division_equations. lia.
Qed.

(** A packet survives the wire: the packet read from a buffer that starts with the
    bytes of a packet whose fields have 32 bits is that packet, whatever follows. *)
Theorem pkt_roundtrip p rest : pkt_ok p -> pkt_at (pkt_bytes p ++ rest) = p.
Proof.
  unfold pkt_ok. rewrite !Forall_cons. intros (H0 & H1 & H2 & H3 & H4 & _). destruct p as [c w0 w1 w2 w3].
  cbn in H0, H1, H2, H3, H4. unfold pkt_at, le32_to_cpu. cbn -[Z.add Z.mul Z.shiftr u8].
  rewrite !le32_split by done. done.
Qed.

Definition bytes_ok (b : list Z) : Prop := Forall (fun x => 0 <= x < 256) b.

Lemma le32_range b off : bytes_ok b -> 0 <= le32_to_cpu b off < 2 ^ 32.
Proof.
  intros Hb. assert (Hd : forall k, 0 <= default 0 (b !! k) < 256).
  { intros k. destruct (b !! k) eqn:E; cbn; [|lia]. by eapply (Forall_lookup_1 _ _ _ _ Hb). }
  unfold le32_to_cpu. pose proof (Hd off). pose proof (Hd (S off)). pose proof (Hd (S (S off))).
  pose proof (Hd (S (S (S off)))). lia.
Qed.

Lemma recv_into_ok buf b : bytes_ok buf -> bytes_ok b -> bytes_ok (recv_into buf b).
Proof. intros H1 H2. apply Forall_app. split; [by apply Forall_take|by apply Forall_drop]. Qed.

Definition datagram_ok (g : datagram) : Prop :=
  match g with Datagram _ b => bytes_ok b | RecvErr _ => True end.

(** A datagram that was sent by a node. *)
Definition sent_by (node : Z) (g : datagram) : Prop :=
  match g with Datagram from _ => sq_node from = node | RecvErr _ => False end.

Lemma worker_loop_ok r q : forall buf s, ns_wf s -> bytes_ok buf -> Forall datagram_ok q ->
  exists q' s', worker_loop r buf q s = Ok (q', s') /\ ns_wf s' /\
    ((forall e, RecvErr e ∉ q) -> q' = []) /\
    forall node port, Forall (fun g => ~ sent_by node g) q -> registry s' node port = registry s node port.
Proof.
  induction q as [|[from b|e] q IH]; intros buf s Hw Hb Hq; cbn [worker_loop].
  - by exists [], s.
  - apply Forall_cons in Hq as [Hg Hq]. cbv zeta. pose proof (recv_into_ok _ _ Hb Hg) as Hb'.
    destruct from as [N port].
    destruct (handle_keeps r N port (pkt_at (recv_into buf b)) s Hw) as (ret & s1 & Hr & He);
      [by apply le32_range|].
    rewrite (st_bind_ok _ _ _ _ _ Hr). destruct (IH (recv_into buf b) s1 (ne_wf _ _ _ He) Hb' Hq)
      as (q' & s2 & Hr2 & W2 & E2 & F2).
    exists q', s2. split; [done|]. split; [done|].
    split; [intros He'; apply E2; intros e Hin; eapply He'; by right|]. intros node p Hn. apply Forall_cons in Hn as [Hn Hnq].
    rewrite F2 by done. apply He. cbn in Hn. congruence.
  - exists q, s. split_and!; try done. intros He. exfalso. eapply He. left.
Qed.

(** The worker ends whatever its queue holds and keeps the registry well formed; it
    empties the queue when it has memory and the socket reports no error; and the servers
    of a node that sent none of the datagrams stay as they are. *)
Theorem worker_isolation r q s : ns_wf s -> Forall datagram_ok q ->
  exists q' s', qrtr_ns_worker r q s = Ok (q', s') /\ ns_wf s' /\
    (ns_mem s = [] -> (forall e, RecvErr e ∉ q) -> q' = []) /\
    forall node port, Forall (fun g => ~ sent_by node g) q -> registry s' node port = registry s node port.
Proof.
  intros Hw Hq. unfold qrtr_ns_worker. destruct (alloc_ok s) as (b & s1 & Hr & L & K & O & X).
  assert (Hb : ns_mem s = [] -> b = true) by (intros E; unfold ns_alloc in Hr; rewrite E in Hr; congruence).
  rewrite (st_bind_ok _ _ _ _ _ Hr). assert (He : ns_ext 0 s s1) by (by apply ext_rest).
  assert (Hreg : forall node port, registry s1 node port = registry s node port)
    by (intros; unfold registry, node_at; by rewrite K, O).
  destruct b; cbn [negb].
  2: { exists q, s1. split; [done|]. split; [apply He|]. split; [|intros; apply Hreg].
       intros E. by specialize (Hb E). }
  destruct (worker_loop_ok r q (replicate recv_buf_size 0) s1 (ne_wf _ _ _ He)) as (q' & s2 & Hr2 & W2 & E2 & F2);
    [by apply Forall_replicate|done|].
  exists q', s2. split; [done|]. split; [done|]. split; [auto|]. intros node port Hn. by rewrite F2, Hreg.
Qed.

(** ** Examples *)
Module NsDemo.
Definition start : ns := Ns 1 ∅ ∅ 0 [] [] [].
Definition ok (l : list (sockaddr_qrtr * qrtr_ctrl_pkt)) : Z := 20.

Definition after (from : sockaddr_qrtr) (pkt : qrtr_ctrl_pkt) (s : ns) : ns :=
  match handle_pkt ok from pkt s with Ok (_, s') => s' | _ => s end.

Lemma after_wf from pkt s : ns_wf s -> pkt_u32 pkt -> ns_wf (after from pkt s).
Proof.
  intros Hw Hp. destruct from as [N port]. unfold after.
  destruct (handle_keeps ok N port pkt s Hw Hp) as (ret & s' & -> & He). apply He.
Qed.

(** A local server on port 30, observed by a client on port 40, and a server of node 5. *)
Definition state : ns :=
  after (Sockaddr 5 QRTR_PORT_CTRL) (Pkt QRTR_TYPE_NEW_SERVER 15 2 5 7)
    (after (Sockaddr 1 40) (Pkt QRTR_TYPE_NEW_LOOKUP 0 0 0 0)
      (after (Sockaddr 1 30) (Pkt QRTR_TYPE_NEW_SERVER 9 1 0 0) start)).

Lemma state_wf : ns_wf state.
Proof.
  repeat apply after_wf; try (unfold pkt_u32; cbn; lia). constructor; cbn.
  - intros id a. by rewrite lookup_empty.
  - intros a n. by rewrite lookup_empty.
  - intros a n port srv. by rewrite lookup_empty.
Qed.

Lemma state_mem : ns_mem state = [].
Proof. vm_compute. reflexivity. Qed.
End NsDemo.

Lemma ns_isolation_witness : exists ret s',
  handle_pkt NsDemo.ok (Sockaddr 5 QRTR_PORT_CTRL) (Pkt QRTR_TYPE_BYE 0 0 0 0) NsDemo.state = Ok (ret, s') /\
  registry s' 1 30 = registry NsDemo.state 1 30.
Proof.
  destruct (ns_isolation NsDemo.ok (Sockaddr 5 QRTR_PORT_CTRL) (Pkt QRTR_TYPE_BYE 0 0 0 0) NsDemo.state
              NsDemo.state_wf) as (ret & s' & Hr & _ & Hf); [unfold pkt_u32; cbn; lia|].
  exists ret, s'. split; [exact Hr|]. apply Hf. discriminate.
Defined.

Lemma new_server_correct_witness : exists s',
  ctrl_cmd_new_server NsDemo.ok (Sockaddr 5 QRTR_PORT_CTRL) 15 3 5 8 NsDemo.state = Ok (0, s') /\
  ns_wf s'.
Proof.
  destruct (new_server_correct NsDemo.ok (Sockaddr 5 QRTR_PORT_CTRL) 15 3 5 8 NsDemo.state
              NsDemo.state_wf NsDemo.state_mem eq_refl ltac:(discriminate) ltac:(discriminate) ltac:(lia))
    as (s' & Hr & Hw & _).
  exists s'. split; [exact Hr|exact Hw].
Defined.

Lemma del_server_correct_witness : exists s',
  ctrl_cmd_del_server NsDemo.ok (Sockaddr 5 QRTR_PORT_CTRL) 15 2 5 7 NsDemo.state = Ok (0, s') /\
  registry s' 5 7 = None.
Proof.
  destruct (del_server_correct NsDemo.ok (Sockaddr 5 QRTR_PORT_CTRL) 15 2 5 7 NsDemo.state
              NsDemo.state_wf NsDemo.state_mem eq_refl) as (ret & s' & Hr & _ & _ & _ & _ & Hc & Hg).
  assert (Hret : ret = 0) by (vm_compute in Hr; congruence).
  rewrite Hret in Hr. exists s'. split; [exact Hr|]. rewrite Hg. reflexivity.
Defined.

Lemma bye_correct_witness : exists s', ctrl_cmd_bye NsDemo.ok (Sockaddr 5 QRTR_PORT_CTRL) NsDemo.state = Ok (0, s') /\
  registry s' 5 7 = None.
Proof.
  destruct (bye_correct NsDemo.ok (Sockaddr 5 QRTR_PORT_CTRL) NsDemo.state NsDemo.state_wf NsDemo.state_mem)
    as (s' & Hr & _ & Hn & _); [vm_compute; discriminate|].
  exists s'. split; [exact Hr|exact (Hn 7)].
Defined.

Lemma new_lookup_correct_witness : exists s',
  ctrl_cmd_new_lookup NsDemo.ok (Sockaddr 1 41) 15 2 NsDemo.state = Ok (0, s') /\ ns_wf s'.
Proof.
  destruct (new_lookup_correct NsDemo.ok (Sockaddr 1 41) 15 2 NsDemo.state NsDemo.state_wf NsDemo.state_mem)
    as [[Hx _]|[_ (l & s' & Hr & Hw & _)]]; [lia|by destruct Hx|].
  exists s'. split; [exact Hr|exact Hw].
Defined.

Lemma pkt_roundtrip_witness : pkt_at (pkt_bytes (Pkt 4 15 2 5 0xfffffffe)) = Pkt 4 15 2 5 0xfffffffe.
Proof.
  rewrite <-(app_nil_r (pkt_bytes (Pkt 4 15 2 5 0xfffffffe))).
  apply (pkt_roundtrip (Pkt 4 15 2 5 0xfffffffe) []). repeat constructor; cbn; lia.
Defined.

(** A full packet from node 5 and then four bytes from a local client: the command alone. *)
Definition short_queue : list datagram :=
  [Datagram (Sockaddr 5 QRTR_PORT_CTRL) (pkt_bytes (Pkt QRTR_TYPE_NEW_SERVER 15 2 5 7));
   Datagram (Sockaddr 1 30) (cpu_to_le32 QRTR_TYPE_NEW_SERVER)].

Lemma worker_isolation_witness : exists q' s',
  qrtr_ns_worker NsDemo.ok short_queue NsDemo.state = Ok (q', s') /\ ns_wf s'.
Proof.
  destruct (worker_isolation NsDemo.ok short_queue NsDemo.state NsDemo.state_wf) as (q' & s' & Hr & Hw & _).
  - constructor; [|constructor; [|constructor]]; unfold datagram_ok, bytes_ok;
      apply (bool_decide_unpack _); vm_compute; exact I.
  - exists q', s'. split; [exact Hr|exact Hw].
Defined.

(** The length of a datagram is not checked: a datagram of four bytes is handled with the
    fields of the packet before it, so that a client that sent only the command is
    registered for the service of another node's packet. *)
Theorem worker_reads_stale_fields : exists q' s',
  qrtr_ns_worker NsDemo.ok short_queue NsDemo.start = Ok (q', s') /\
  registry s' 1 30 = Some (Server 15 2 1 30).
Proof. eexists _, _. split; vm_compute; reflexivity. Qed.
