(* ===== verification/Smp2p.v ===== *)
(** * Shared memory point to point (drivers/soc/qcom/smp2p.c)

    Two processors exchange 32-bit values through two shared items: each side writes
    its own and reads the other's.  The driver exposes the bits of the values it reads
    as interrupts. *)
From S2P Require Import Prelude.
Open Scope c_scope.

Definition SMP2P_MAX_ENTRY : Z := 16.
Definition SMP2P_MAX_ENTRY_NAME : nat := 16.
Definition SMP2P_FEATURE_SSR_ACK : Z := 0x1.
Definition SMP2P_FLAGS_RESTART_DONE_BIT : Z := 0.
Definition SMP2P_FLAGS_RESTART_ACK_BIT : Z := 1.
Definition SMP2P_MAGIC : Z := 0x504d5324.
Definition SMP2P_VERSION : Z := 1.
Definition SMP2P_FEATURES : Z := SMP2P_FEATURE_SSR_ACK.

(** struct smp2p_smem_item: an entry is its name, sixteen bytes, and its value. *)
Record smp2p_smem_item := Item {
  magic : Z;
  version : Z;
  features : Z;
  local_pid : Z;
  remote_pid : Z;
  total_entries : Z;
  valid_entries : Z;
  flags : Z;
  entries : list (list Z * Z);
}.

Definition with_flags (i : smp2p_smem_item) (f : Z) : smp2p_smem_item :=
  Item (magic i) (version i) (features i) (local_pid i) (remote_pid i) (total_entries i)
    (valid_entries i) f (entries i).
Definition with_features (i : smp2p_smem_item) (f : Z) : smp2p_smem_item :=
  Item (magic i) (version i) f (local_pid i) (remote_pid i) (total_entries i)
    (valid_entries i) (flags i) (entries i).
Definition with_entries (i : smp2p_smem_item) (n : Z) (l : list (list Z * Z)) : smp2p_smem_item :=
  Item (magic i) (version i) (features i) (local_pid i) (remote_pid i) (total_entries i)
    n (flags i) l.

(** struct smp2p_entry: the name without its terminator, the index of the entry of the
    item the value points to, and the bitmaps as words. *)
Record smp2p_entry := Entry {
  e_name : list Z;
  e_value : option nat;
  e_last_value : Z;
  irq_enabled : Z;
  irq_pending : Z;
  irq_rising : Z;
  irq_falling : Z;
}.

Definition new_entry (name : list Z) : smp2p_entry := Entry name None 0 0 0 0 0.

Definition point_to (e : smp2p_entry) (i : nat) : smp2p_entry :=
  Entry (e_name e) (Some i) (e_last_value e) (irq_enabled e) (irq_pending e) (irq_rising e) (irq_falling e).
Definition with_seen (e : smp2p_entry) (v pending : Z) : smp2p_entry :=
  Entry (e_name e) (e_value e) v (irq_enabled e) pending (irq_rising e) (irq_falling e).
Definition with_masks (e : smp2p_entry) (enabled pending rising falling : Z) : smp2p_entry :=
  Entry (e_name e) (e_value e) (e_last_value e) enabled pending rising falling.

(** struct qcom_smp2p.  [m_in] and [m_out] are the two items in shared memory, [in_found]
    whether the driver holds the inbound one; [kicks] counts the signals sent to the
    remote side, [fired] is every nested interrupt raised so far: the entry and the bit. *)
Record qcom_smp2p := Smp2p {
  in_found : bool;
  m_in : smp2p_smem_item;
  m_out : smp2p_smem_item;
  sp_valid_entries : Z;
  ssr_ack_enabled : bool;
  ssr_ack : bool;
  open : bool;
  sp_local_pid : Z;
  sp_remote_pid : Z;
  inbound : list smp2p_entry;
  outbound : list smp2p_entry;
  kicks : nat;
  fired : list (list Z * Z);
}.

Definition set_in_found (s : qcom_smp2p) (b : bool) (valid : Z) : qcom_smp2p :=
  Smp2p b (m_in s) (m_out s) valid (ssr_ack_enabled s) (ssr_ack s) (open s)
    (sp_local_pid s) (sp_remote_pid s) (inbound s) (outbound s) (kicks s) (fired s).
Definition set_out (s : qcom_smp2p) (o : smp2p_smem_item) : qcom_smp2p :=
  Smp2p (in_found s) (m_in s) o (sp_valid_entries s) (ssr_ack_enabled s) (ssr_ack s) (open s)
    (sp_local_pid s) (sp_remote_pid s) (inbound s) (outbound s) (kicks s) (fired s).
Definition set_link (s : qcom_smp2p) (enabled ack opened : bool) : qcom_smp2p :=
  Smp2p (in_found s) (m_in s) (m_out s) (sp_valid_entries s) enabled ack opened
    (sp_local_pid s) (sp_remote_pid s) (inbound s) (outbound s) (kicks s) (fired s).
Definition set_inbound (s : qcom_smp2p) (l : list smp2p_entry) (f : list (list Z * Z)) : qcom_smp2p :=
  Smp2p (in_found s) (m_in s) (m_out s) (sp_valid_entries s) (ssr_ack_enabled s) (ssr_ack s) (open s)
    (sp_local_pid s) (sp_remote_pid s) l (outbound s) (kicks s) f.
Definition set_outbound (s : qcom_smp2p) (l : list smp2p_entry) : qcom_smp2p :=
  Smp2p (in_found s) (m_in s) (m_out s) (sp_valid_entries s) (ssr_ack_enabled s) (ssr_ack s) (open s)
    (sp_local_pid s) (sp_remote_pid s) (inbound s) l (kicks s) (fired s).

(** ** Signalling *)
Definition qcom_smp2p_kick (s : qcom_smp2p) : qcom_smp2p :=
  Smp2p (in_found s) (m_in s) (m_out s) (sp_valid_entries s) (ssr_ack_enabled s) (ssr_ack s) (open s)
    (sp_local_pid s) (sp_remote_pid s) (inbound s) (outbound s) (S (kicks s)) (fired s).

Definition qcom_smp2p_check_ssr (s : qcom_smp2p) : bool :=
  if negb (ssr_ack_enabled s) then false else
  let restart := negb (Z.land (flags (m_in s)) (BIT SMP2P_FLAGS_RESTART_DONE_BIT) =? 0) in
  if Bool.eqb restart (ssr_ack s) then false else true.

Definition qcom_smp2p_do_ssr_ack (s : qcom_smp2p) : qcom_smp2p :=
  let ack := negb (ssr_ack s) in
  let s := set_link s (ssr_ack_enabled s) ack (open s) in
  let ack := Z.shiftl (Z.b2z ack) SMP2P_FLAGS_RESTART_ACK_BIT in
  let val := Z.ldiff (flags (m_out s)) (BIT SMP2P_FLAGS_RESTART_ACK_BIT) in
  let val := Z.lor val ack in
  qcom_smp2p_kick (set_out s (with_flags (m_out s) val)).

Definition qcom_smp2p_negotiate (s : qcom_smp2p) : qcom_smp2p :=
  if version (m_in s) =? version (m_out s) then
    let f := Z.land (features (m_in s)) (features (m_out s)) in
    let s := set_out s (with_features (m_out s) f) in
    let enabled := if negb (Z.land f SMP2P_FEATURE_SSR_ACK =? 0) then true else ssr_ack_enabled s in
    set_link s enabled (ssr_ack s) true
  else s.

(** ** Inbound entries *)

(** [strcmp] of the copied name, which may lack a terminator, with an entry's name: a
    read past the sixteen bytes is a fault. *)
Fixpoint name_eq (buf name : list Z) : res bool :=
  match buf, name with
  | [], _ => Fault
  | x :: _, [] => Ok (x =? 0)
  | x :: buf, y :: name => if x =? y then name_eq buf name else Ok false
  end.

(** The first entry of the list with the name, made to point to entry [i] of the item. *)
Fixpoint match_entry (buf : list Z) (i : nat) (l : list smp2p_entry) : res (list smp2p_entry) :=
  match l with
  | [] => Ok []
  | e :: l =>
    res_bind (name_eq buf (e_name e)) (fun same =>
    if same then Ok (point_to e i :: l) else
    res_bind (match_entry buf i l) (fun l => Ok (e :: l)))
  end.

(** The entries of the item from [i] on, [n] of them; an index the item does not have is
    a fault. *)
Fixpoint match_entries (n : nat) (i : nat) (it : smp2p_smem_item) (l : list smp2p_entry)
    : res (list smp2p_entry) :=
  match n with
  | O => Ok l
  | S n =>
    match l with
    | [] => match_entries n (S i) it l
    | _ => match entries it !! i with
           | None => Fault
           | Some (name, _) => res_bind (match_entry name i l) (match_entries n (S i) it)
           end
    end
  end.

(** The bits of an entry that fire for a value: the changed and the pending ones whose
    edge is selected. *)
Definition bit_fires (e : smp2p_entry) (val status i : Z) : bool :=
  Z.testbit status i &&
  (Z.testbit val i && Z.testbit (irq_rising e) i || negb (Z.testbit val i) && Z.testbit (irq_falling e) i).

(** [for_each_set_bit] with the body of the handler: the bits raised and what is left
    pending. *)
Fixpoint fire_bits (e : smp2p_entry) (val status : Z) (bits : list Z) (pending : Z) : list Z * Z :=
  match bits with
  | [] => ([], pending)
  | i :: bits =>
    if bit_fires e val status i then
      let '(l, pending) := fire_bits e val status bits (Z.ldiff pending (BIT i)) in (i :: l, pending)
    else fire_bits e val status bits pending
  end.

(** One entry of the second loop. *)
Definition notify_entry (it : smp2p_smem_item) (e : smp2p_entry) : res (smp2p_entry * list Z) :=
  match e_value e with
  | None => Ok (e, [])
  | Some i =>
    match entries it !! i with
    | None => Fault
    | Some (_, val) =>
      let status := Z.lxor val (e_last_value e) in
      let status := Z.lor status (irq_pending e) in
      if status =? 0 then Ok (with_seen e val (irq_pending e), []) else
      let '(l, pending) := fire_bits e val status (seqZ 0 32) (irq_pending e) in
      Ok (with_seen e val pending, l)
    end
  end.

Fixpoint notify_entries (it : smp2p_smem_item) (l : list smp2p_entry)
    : res (list smp2p_entry * list (list Z * Z)) :=
  match l with
  | [] => Ok ([], [])
  | e :: l =>
    res_bind (notify_entry it e) (fun '(e', bits) =>
    res_bind (notify_entries it l) (fun '(l, f) =>
    Ok (e' :: l, map (fun i => (e_name e, i)) bits ++ f)))
  end.

Definition qcom_smp2p_notify_in (s : qcom_smp2p) : res qcom_smp2p :=
  let n := valid_entries (m_in s) in
  res_bind (match_entries (Z.to_nat (n - sp_valid_entries s)) (Z.to_nat (sp_valid_entries s)) (m_in s) (inbound s))
    (fun l =>
  let s := set_in_found s (in_found s) (Z.max (sp_valid_entries s) n) in
  res_bind (notify_entries (m_in s) l) (fun '(l, f) =>
  Ok (set_inbound s l (fired s ++ f)))).

(** The threaded interrupt handler; [get] is whether [qcom_smem_get] finds the item. *)
Definition qcom_smp2p_intr (get : bool) (s : qcom_smp2p) : res qcom_smp2p :=
  if negb (in_found s) && negb get then Ok s else
  let s := set_in_found s true (sp_valid_entries s) in
  let s := if negb (open s) then qcom_smp2p_negotiate s else s in
  if open s then
    let do_restart := qcom_smp2p_check_ssr s in
    res_bind (qcom_smp2p_notify_in s) (fun s =>
    Ok (if do_restart then qcom_smp2p_do_ssr_ack s else s))
  else Ok s.

(** ** The interrupt controller of an entry *)
Definition IRQ_TYPE_EDGE_RISING : Z := 1.
Definition IRQ_TYPE_EDGE_FALLING : Z := 2.
Definition IRQ_TYPE_EDGE_BOTH : Z := 3.

Definition set_bit (v i : Z) : Z := Z.lor v (BIT i).
Definition clear_bit (v i : Z) : Z := Z.ldiff v (BIT i).

Definition smp2p_mask_irq (irq : Z) (e : smp2p_entry) : smp2p_entry :=
  with_masks e (clear_bit (irq_enabled e) irq) (irq_pending e) (irq_rising e) (irq_falling e).
Definition smp2p_unmask_irq (irq : Z) (e : smp2p_entry) : smp2p_entry :=
  with_masks e (set_bit (irq_enabled e) irq) (irq_pending e) (irq_rising e) (irq_falling e).

Definition smp2p_set_irq_type (irq type : Z) (e : smp2p_entry) : Z * smp2p_entry :=
  if Z.land type IRQ_TYPE_EDGE_BOTH =? 0 then (- EINVAL, e) else
  let rising := if negb (Z.land type IRQ_TYPE_EDGE_RISING =? 0) then set_bit (irq_rising e) irq
                else clear_bit (irq_rising e) irq in
  let falling := if negb (Z.land type IRQ_TYPE_EDGE_FALLING =? 0) then set_bit (irq_falling e) irq
                 else clear_bit (irq_falling e) irq in
  (0, with_masks e (irq_enabled e) (irq_pending e) rising falling).

Definition smp2p_retrigger_irq (irq : Z) (e : smp2p_entry) : smp2p_entry :=
  with_masks e (irq_enabled e) (set_bit (irq_pending e) irq) (irq_rising e) (irq_falling e).

(** ** Outbound entries *)

(** The value an outbound entry points to; a null or bad pointer is a fault. *)
Definition out_value (s : qcom_smp2p) (e : smp2p_entry) : res (nat * Z) :=
  match e_value e with
  | None => Fault
  | Some i => match entries (m_out s) !! i with
              | Some (_, v) => Ok (i, v)
              | None => Fault
              end
  end.

Definition set_value (it : smp2p_smem_item) (i : nat) (v : Z) : smp2p_smem_item :=
  match entries it !! i with
  | Some (name, _) => with_entries it (valid_entries it) (<[i := (name, v)]> (entries it))
  | None => it
  end.

Definition smp2p_update_bits (e : smp2p_entry) (mask value : Z) (s : qcom_smp2p) : res (Z * qcom_smp2p) :=
  res_bind (out_value s e) (fun '(i, orig) =>
  let val := Z.ldiff orig mask in
  let val := Z.lor val value in
  let s := set_out s (set_value (m_out s) i val) in
  Ok (0, if negb (val =? orig) then qcom_smp2p_kick s else s)).

(** [strlcpy] into sixteen zeroed bytes. *)
Definition name_buf (name : list Z) : list Z :=
  let n := take (SMP2P_MAX_ENTRY_NAME - 1) name in
  n ++ replicate (SMP2P_MAX_ENTRY_NAME - length n) 0.

(** Takes the next entry of the item; writing to an entry the item does not have is a
    fault.  [reg] is the result of registering the state. *)
Definition qcom_smp2p_outbound_entry (e : smp2p_entry) (reg : Z) (s : qcom_smp2p)
    : res (Z * smp2p_entry * qcom_smp2p) :=
  let out := m_out s in
  let i := Z.to_nat (valid_entries out) in
  match entries out !! i with
  | None => Fault
  | Some (_, v) =>
    let out := with_entries out (u16 (valid_entries out + 1)) (<[i := (name_buf (e_name e), v)]> (entries out)) in
    let s := set_out s out in
    Ok (if reg <? 0 then reg else 0, point_to e i, s)
  end.

Definition qcom_smp2p_inbound_entry (domain : bool) : Z := if domain then 0 else - ENOMEM.

Definition empty_entries : list (list Z * Z) :=
  replicate (Z.to_nat SMP2P_MAX_ENTRY) (replicate SMP2P_MAX_ENTRY_NAME 0, 0).

(** [alloc] and [get] are the results of [qcom_smem_alloc] and [qcom_smem_get]. *)
Definition qcom_smp2p_alloc_outbound_item (alloc get : Z) (s : qcom_smp2p) : Z * qcom_smp2p :=
  if (alloc <? 0) && negb (alloc =? - EEXIST) then (alloc, s) else
  if get <? 0 then (get, s) else
  let out := Item SMP2P_MAGIC 0 SMP2P_FEATURES (u16 (sp_local_pid s)) (u16 (sp_remote_pid s))
               SMP2P_MAX_ENTRY 0 0 empty_entries in
  let out := Item (magic out) SMP2P_VERSION (features out) (local_pid out) (remote_pid out)
               (total_entries out) (valid_entries out) (flags out) (entries out) in
  (0, qcom_smp2p_kick (set_out s out)).

(** ** Probing and power management *)

(** A child node of the device: its name or an error, whether it is inbound, and the
    results of the allocation, of the interrupt domain and of the registration. *)
Record child := Child {
  c_alloc : bool;
  c_name : Z + list Z;
  c_inbound : bool;
  c_domain : bool;
  c_reg : Z;
}.

(** The loop over the child nodes: the error that ends it, if any. *)
Fixpoint probe_children (l : list child) (s : qcom_smp2p) : res (Z * qcom_smp2p) :=
  match l with
  | [] => Ok (0, s)
  | c :: l =>
    if negb (c_alloc c) then Ok (- ENOMEM, s) else
    match c_name c with
    | inl ret => Ok (ret, s)
    | inr name =>
      if c_inbound c then
        let ret := qcom_smp2p_inbound_entry (c_domain c) in
        if ret <? 0 then Ok (ret, s) else
        probe_children l (set_inbound s (new_entry name :: inbound s) (fired s))
      else
        res_bind (qcom_smp2p_outbound_entry (new_entry name) (c_reg c) s) (fun '(ret, e, s) =>
        if ret <? 0 then Ok (ret, s) else
        probe_children l (set_outbound s (e :: outbound s)))
    end
  end.

(** The labels [unwind_interfaces] of the probe and the end of the removal. *)
Definition unwind (s : qcom_smp2p) : qcom_smp2p :=
  let s := set_outbound (set_inbound s [] (fired s)) [] in
  set_out s (with_entries (m_out s) 0 (entries (m_out s))).

(** What the device gives: the identifiers or an error, the interrupt, the mailbox (0, or
    an error) and the result of parsing the other way to signal, the answers of smem, the
    children, the wakeup source and the result of requesting the interrupt. *)
Record smp2p_device := SDev {
  sd_items : Z;
  sd_local : Z + Z;
  sd_remote : Z + Z;
  sd_irq : Z;
  sd_mbox : Z;
  sd_ipc : Z;
  sd_alloc : Z;
  sd_get : Z;
  sd_children : list child;
  sd_ws : bool;
  sd_request : Z;
}.

Definition set_pids (s : qcom_smp2p) (l r : Z) : qcom_smp2p :=
  Smp2p (in_found s) (m_in s) (m_out s) (sp_valid_entries s) (ssr_ack_enabled s) (ssr_ack s) (open s)
    l r (inbound s) (outbound s) (kicks s) (fired s).

(** [qcom_smp2p_probe] on the zeroed context [s]. *)
Definition qcom_smp2p_probe (dev : smp2p_device) (s : qcom_smp2p) : res (Z * qcom_smp2p) :=
  if negb (sd_items dev =? 0) then Ok (sd_items dev, s) else
  match sd_local dev, sd_remote dev with
  | inr local, inr remote =>
    let s := set_pids s local remote in
    if sd_irq dev <? 0 then Ok (sd_irq dev, s) else
    if (sd_mbox dev <? 0) && negb (sd_mbox dev =? - ENODEV) then Ok (sd_mbox dev, s) else
    if (sd_mbox dev <? 0) && negb (sd_ipc dev =? 0) then Ok (sd_ipc dev, s) else
    let '(ret, s) := qcom_smp2p_alloc_outbound_item (sd_alloc dev) (sd_get dev) s in
    if ret <? 0 then Ok (ret, s) else
    res_bind (probe_children (sd_children dev) s) (fun '(ret, s) =>
    if ret <? 0 then Ok (ret, unwind s) else
    if negb (sd_ws dev) then Ok (- ENOMEM, unwind s) else
    let s := qcom_smp2p_kick s in
    if negb (sd_request dev =? 0) then Ok (sd_request dev, unwind s) else
    Ok (0, s))
  | _, _ => Ok (- EINVAL, s)
  end.

Definition qcom_smp2p_remove (s : qcom_smp2p) : qcom_smp2p := unwind s.

(** The loop of the restore: inbound entries are kept. *)
Fixpoint restore_children (l : list child) (s : qcom_smp2p) : res (Z * qcom_smp2p) :=
  match l with
  | [] => Ok (0, s)
  | c :: l =>
    if negb (c_alloc c) then Ok (- ENOMEM, s) else
    match c_name c with
    | inl ret => Ok (ret, s)
    | inr name =>
      if c_inbound c then restore_children l s else
      res_bind (qcom_smp2p_outbound_entry (new_entry name) (c_reg c) s) (fun '(ret, e, s) =>
      if ret <? 0 then Ok (ret, s) else
      restore_children l (set_outbound s (e :: outbound s)))
    end
  end.

Definition qcom_smp2p_restore (dev : smp2p_device) (s : qcom_smp2p) : res (Z * qcom_smp2p) :=
  let '(ret, s) := qcom_smp2p_alloc_outbound_item (sd_alloc dev) (sd_get dev) s in
  if ret <? 0 then Ok (ret, s) else
  res_bind (restore_children (sd_children dev) s) (fun '(ret, s) =>
  if ret <? 0 then Ok (ret, s) else Ok (ret, qcom_smp2p_kick s)).

Definition qcom_smp2p_freeze (s : qcom_smp2p) : qcom_smp2p :=
  let s := set_outbound s [] in
  let s := set_inbound s (map (fun e => with_seen e 0 (irq_pending e)) (inbound s)) (fired s) in
  set_in_found s false 0.
