(* ===== verification/Smp2pLink.v ===== *)
(** * Properties of the point to point link

    Which interrupts a change of the shared values raises, how entries are matched by
    name, the acknowledgement of restarts, and what a write to an outbound entry does. *)
From S2P Require Import Prelude Smp2p.
Open Scope c_scope.

(** ** Which bits fire *)

(** Bit [b] of an entry is due at the value [val]: it has changed since the last notification
    or is pending, and its new level is one the client asked for: high with a rising edge
    selected, or low with a falling one. *)
Definition due (e : smp2p_entry) (val b : Z) : Prop :=
  (Z.testbit val b <> Z.testbit (e_last_value e) b \/ Z.testbit (irq_pending e) b = true) /\
  (Z.testbit val b = true /\ Z.testbit (irq_rising e) b = true \/
   Z.testbit val b = false /\ Z.testbit (irq_falling e) b = true).

#[export] Instance due_dec e val b : Decision (due e val b).
Proof. unfold due. apply _. Defined.

(** The bits an inbound entry raises for the item, in order. *)
Definition edges (it : smp2p_smem_item) (e : smp2p_entry) : list Z :=
  match e_value e with
  | Some i => match entries it !! i with
              | Some (_, val) => filter (due e val) (seqZ 0 32)
              | None => []
              end
  | None => []
  end.

(** The test of the handler finds the bits that are due. *)
Lemma bit_fires_due e val b : 0 <= b ->
  bit_fires e val (Z.lor (Z.lxor val (e_last_value e)) (irq_pending e)) b = true <-> due e val b.
Proof.
  intros Hb. unfold bit_fires, due. rewrite Z.lor_spec, Z.lxor_spec.
  destruct (Z.testbit val b), (Z.testbit (e_last_value e) b), (Z.testbit (irq_pending e) b),
    (Z.testbit (irq_rising e) b), (Z.testbit (irq_falling e) b); cbn; naive_solver.
Qed.

Lemma fires_edges e val :
  filter (fun b => bit_fires e val (Z.lor (Z.lxor val (e_last_value e)) (irq_pending e)) b = true) (seqZ 0 32) =
  filter (due e val) (seqZ 0 32).
Proof.
  assert (H : Forall (fun b => 0 <= b) (seqZ 0 32)) by (apply Forall_forall; intros b Hb%elem_of_seqZ; lia).
  induction H as [|b l Hb _ IH]; [done|]. rewrite !filter_cons, IH.
  pose proof (bit_fires_due e val b Hb) as Hd. repeat case_decide; tauto.
Qed.

(** The entry after the notification: the value is seen, the bits raised are not pending. *)
Definition seen (it : smp2p_smem_item) (e e' : smp2p_entry) : Prop :=
  e_name e' = e_name e /\ e_value e' = e_value e /\ irq_enabled e' = irq_enabled e /\
  irq_rising e' = irq_rising e /\ irq_falling e' = irq_falling e /\
  (forall b, 0 <= b -> Z.testbit (irq_pending e') b = Z.testbit (irq_pending e) b && negb (bool_decide (b ∈ edges it e))) /\
  match e_value e with
  | Some i => exists nm, entries it !! i = Some (nm, e_last_value e')
  | None => e_last_value e' = e_last_value e
  end.

Lemma BIT_bit i b : 0 <= i -> 0 <= b -> Z.testbit (BIT i) b = bool_decide (b = i).
Proof.
  intros Hi Hb. unfold BIT. rewrite Z.shiftl_1_l, Z.pow2_bits_eqb by lia.
  case_bool_decide; [lia|]. lia.
Qed.

Lemma fire_bits_spec e val status bits : Forall (fun i => 0 <= i) bits -> forall pending,
  let r := fire_bits e val status bits pending in
  let l := filter (fun b => bit_fires e val status b = true) bits in
  r.1 = l /\ forall b, 0 <= b -> Z.testbit r.2 b = Z.testbit pending b && negb (bool_decide (b ∈ l)).
Proof.
  intros Hpos. induction bits as [|i bits IH]; intros pending; cbn [fire_bits].
  - split; [done|]. intros b _. cbn. rewrite andb_true_r. done.
  - apply Forall_cons in Hpos as [Hi Hpos]. cbv zeta in *. rewrite filter_cons.
    destruct (bit_fires e val status i) eqn:E.
    + rewrite decide_True by done. specialize (IH Hpos (Z.ldiff pending (BIT i))).
      destruct (fire_bits _ _ _ _ _) as [l p]. cbn in IH |- *. destruct IH as [-> Hb]. split; [done|].
      intros b Hb0. rewrite Hb, Z.ldiff_spec, BIT_bit by done. rewrite <-andb_assoc. f_equal.
      rewrite <-negb_orb, <-bool_decide_or. f_equal. apply bool_decide_ext. by rewrite elem_of_cons.
    + rewrite decide_False by done. by apply IH.
Qed.

Lemma seqZ_pos n : Forall (fun i => 0 <= i) (seqZ 0 n).
Proof. apply Forall_forall. intros i Hi%elem_of_seqZ. lia. Qed.

Definition readable (it : smp2p_smem_item) (e : smp2p_entry) : Prop :=
  forall i, e_value e = Some i -> is_Some (entries it !! i).

Lemma notify_entry_ok it e : readable it e ->
  exists e', notify_entry it e = Ok (e', edges it e) /\ seen it e e'.
Proof.
  intros Hr. unfold notify_entry, edges, seen, edges. destruct (e_value e) as [i|] eqn:Hv.
  - destruct (Hr i Hv) as [[nm val] Hi]. rewrite Hi. cbv zeta.
    set (status := Z.lor _ _). destruct (status =? 0) eqn:E.
    + assert (Hnil : filter (due e val) (seqZ 0 32) = []).
      { rewrite <-fires_edges. fold status. assert (status = 0) as -> by lia.
        apply elem_of_nil_inv. intros b [Hb _]%list_elem_of_filter. unfold bit_fires in Hb.
        by rewrite Z.bits_0 in Hb. }
      rewrite Hnil. eexists. split; [reflexivity|]. cbn. rewrite Hv.
      split_and!; try done; [|by exists nm]. intros b _. by rewrite andb_true_r.
    + pose proof (fire_bits_spec e val status (seqZ 0 32) (seqZ_pos 32) (irq_pending e)) as Hf. cbv zeta in Hf.
      destruct (fire_bits _ _ _ _ _) as [l p]. cbn in Hf. unfold status in Hf.
      rewrite fires_edges in Hf. destruct Hf as [-> Hp].
      eexists. split; [reflexivity|]. cbn. rewrite Hv. split_and!; try done. by exists nm.
  - exists e. split; [done|]. rewrite Hv. split_and!; try done. intros b _. cbn. by rewrite andb_true_r.
Qed.

(** ** Names *)

(** The string in a buffer: the bytes before the first zero. *)
Fixpoint cstr (buf : list Z) : list Z :=
  match buf with
  | [] => []
  | x :: buf => if x =? 0 then [] else x :: cstr buf
  end.

Lemma name_eq_ok buf : forall name, 0 ∈ buf -> 0 ∉ name ->
  name_eq buf name = Ok (bool_decide (cstr buf = name)).
Proof.
  induction buf as [|x buf IH]; intros name Hb Hn; [by apply elem_of_nil in Hb|].
  destruct name as [|y name]; cbn [name_eq cstr].
  - destruct (x =? 0) eqn:E; [by rewrite bool_decide_eq_true_2|by rewrite bool_decide_eq_false_2].
  - rewrite not_elem_of_cons in Hn. destruct Hn as [Hy Hn]. destruct (Z.eqb_spec x y) as [->|Hxy].
    + assert ((y =? 0) = false) as -> by lia. apply elem_of_cons in Hb as [Hy0|Hb]; [lia|].
      rewrite IH by done. f_equal. apply bool_decide_ext. naive_solver.
    + rewrite bool_decide_eq_false_2; [done|]. destruct (x =? 0); [done|]. naive_solver.
Qed.

Lemma cstr_app n m : 0 ∉ n -> cstr (n ++ 0 :: m) = n.
Proof.
  induction n as [|x n IH]; intros Hn; [done|]. apply not_elem_of_cons in Hn as [Hx Hn]. cbn.
  rewrite (proj2 (Z.eqb_neq x 0)) by lia. by rewrite IH.
Qed.

(** A name the devices use: at most fifteen bytes, none of them zero. *)
Definition name_ok (n : list Z) : Prop := 0 ∉ n /\ (length n <= 15)%nat.

Lemma name_buf_spec n : name_ok n -> 0 ∈ name_buf n /\ cstr (name_buf n) = n /\
  length (name_buf n) = SMP2P_MAX_ENTRY_NAME.
Proof.
  intros [Hz Hl]. unfold name_buf, SMP2P_MAX_ENTRY_NAME. cbv zeta. rewrite take_ge by lia.
  destruct (16 - length n)%nat as [|k] eqn:E; [lia|]. cbn [replicate]. split_and!.
  - apply elem_of_app. right. left.
  - by apply cstr_app.
  - rewrite length_app. cbn. rewrite length_replicate. lia.
Qed.

(** The name written for an outbound entry is the name the other side reads: for names
    of at most fifteen characters, the comparison of the copied name with an entry's name
    reads only the sixteen bytes and holds exactly when the names are the same. *)
Theorem name_roundtrip n m : name_ok n -> name_ok m ->
  name_eq (name_buf n) m = Ok (bool_decide (n = m)).
Proof.
  intros Hn [Hm _]. destruct (name_buf_spec n Hn) as (Hb & Hc & _). by rewrite name_eq_ok, Hc.
Qed.

(** ** Matching *)
Definition retarget (it : smp2p_smem_item) (e : smp2p_entry) (j : nat) : smp2p_entry :=
  match entries it !! j with
  | Some (nm, _) => if bool_decide (cstr nm = e_name e) then point_to e j else e
  | None => e
  end.

(** The entry after the item's entries in [idx] have been matched. *)
Definition point_all (it : smp2p_smem_item) (idx : list nat) (e : smp2p_entry) : smp2p_entry :=
  foldl (retarget it) e idx.

Lemma retarget_name it e j : e_name (retarget it e j) = e_name e.
Proof. unfold retarget. destruct (entries it !! j) as [[nm v]|]; [|done]. by case_bool_decide. Qed.

Lemma match_entry_ok it j nm v l : entries it !! j = Some (nm, v) -> 0 ∈ nm ->
  Forall (fun e => 0 ∉ e_name e) l -> NoDup (map e_name l) ->
  match_entry nm j l = Ok (map (fun e => retarget it e j) l).
Proof.
  intros Hj Hz Hl Hnd. induction l as [|e l IH]; cbn [match_entry map]; [done|].
  apply Forall_cons in Hl as [He Hl]. cbn [map] in Hnd. apply NoDup_cons in Hnd as [Hne Hnd].
  rewrite name_eq_ok by done. cbn [res_bind]. unfold retarget at 1. rewrite Hj.
  case_bool_decide as Hc.
  - f_equal. f_equal. symmetry. rewrite <-(map_id l) at 2. apply map_ext_in. intros e' Hin%list_elem_of_In.
    unfold retarget. rewrite Hj, bool_decide_eq_false_2; [done|]. intros Hx. apply Hne.
    rewrite <-Hc, Hx. by apply list_elem_of_fmap_2.
  - rewrite IH by done. done.
Qed.

Lemma match_entries_ok it n : forall i l, Forall (fun e => 0 ∉ e_name e) l -> NoDup (map e_name l) ->
  (forall j, (i <= j < i + n)%nat -> exists nm v, entries it !! j = Some (nm, v) /\ 0 ∈ nm) ->
  match_entries n i it l = Ok (map (point_all it (seq i n)) l).
Proof.
  induction n as [|n IH]; intros i l Hl Hnd Hidx; cbn [match_entries seq].
  - by rewrite map_id.
  - destruct (Hidx i ltac:(lia)) as (nm & v & Hi & Hz).
    assert (Hnext : match_entries n (S i) it (map (fun e => retarget it e i) l) =
                    Ok (map (point_all it (i :: seq (S i) n)) l)).
    { rewrite IH, map_map; [done| | |intros j Hj; apply Hidx; lia].
      - apply Forall_map. eapply Forall_impl; [exact Hl|]. intros e He. cbn. by rewrite retarget_name.
      - rewrite map_map. erewrite map_ext; [exact Hnd|]. intros e. apply retarget_name. }
    destruct l as [|e l]; [exact Hnext|]. rewrite Hi. rewrite (match_entry_ok it i nm v) by done. exact Hnext.
Qed.

(** ** The notification *)

(** A link whose inbound item is the size it claims, with terminated names, and whose
    entries have distinct names and point into the item. *)
Record link_ok (s : qcom_smp2p) : Prop := {
  lo_len : length (entries (m_in s)) = Z.to_nat SMP2P_MAX_ENTRY;
  lo_valid : valid_entries (m_in s) <= SMP2P_MAX_ENTRY;
  lo_names : Forall (fun p => 0 ∈ p.1) (entries (m_in s));
  lo_seen : 0 <= sp_valid_entries s;
  lo_entries : Forall (fun e => 0 ∉ e_name e) (inbound s);
  lo_nodup : NoDup (map e_name (inbound s));
  lo_readable : Forall (readable (m_in s)) (inbound s);
}.

Definition new_indices (s : qcom_smp2p) : list nat :=
  seq (Z.to_nat (sp_valid_entries s)) (Z.to_nat (valid_entries (m_in s) - sp_valid_entries s)).

Definition matched (s : qcom_smp2p) : list smp2p_entry := map (point_all (m_in s) (new_indices s)) (inbound s).

Lemma point_all_readable it idx : forall e, readable it e -> readable it (point_all it idx e).
Proof.
  induction idx as [|j idx IH]; intros e He; [done|]. apply IH. unfold retarget.
  destruct (entries it !! j) as [[nm v]|] eqn:Ej; [|done]. case_bool_decide; [|done].
  intros k Hk. cbn in Hk. simplify_eq. by rewrite Ej.
Qed.

Lemma notify_entries_ok it l : Forall (readable it) l ->
  exists l', notify_entries it l = Ok (l', l ≫= (fun e => map (fun i => (e_name e, i)) (edges it e))) /\
    Forall2 (seen it) l l'.
Proof.
  induction 1 as [|e l He Hl IH]; cbn [notify_entries]; [by exists []|].
  destruct (notify_entry_ok it e He) as (e' & -> & Hs). destruct IH as (l' & -> & Hf). cbn [res_bind].
  exists (e' :: l'). split; [done|]. by constructor.
Qed.

Lemma notify_in_ok s : link_ok s -> exists s', qcom_smp2p_notify_in s = Ok s' /\
  Forall2 (seen (m_in s)) (matched s) (inbound s') /\
  fired s' = fired s ++ (matched s ≫= (fun e => map (fun i => (e_name e, i)) (edges (m_in s) e))) /\
  s' = set_inbound (set_in_found s (in_found s) (Z.max (sp_valid_entries s) (valid_entries (m_in s))))
         (inbound s') (fired s').
Proof.
  intros [H1 H2 H3 H4 H5 H6 H7]. unfold qcom_smp2p_notify_in. cbv zeta.
  rewrite match_entries_ok; [|done|done|].
  - fold (new_indices s). fold (matched s). cbn [res_bind set_in_found m_in].
    destruct (notify_entries_ok (m_in s) (matched s)) as (l' & -> & Hf).
    { apply Forall_map. eapply Forall_impl; [exact H7|]. intros e. apply point_all_readable. }
    cbn [res_bind]. eexists. split; [reflexivity|]. cbn. split_and!; try done.
  - intros j Hj. destruct (lookup_lt_is_Some_2 (entries (m_in s)) j) as [[nm v] He];
      [rewrite H1; unfold SMP2P_MAX_ENTRY in *; lia|].
    exists nm, v. split; [done|]. by apply (Forall_lookup_1 _ _ _ _ H3 He).
Qed.

(** C40: a notification raises exactly the right interrupts. On a well formed link, whose
    remote side counts no more entries than the item holds, with terminated names, the
    handler returns; the inbound entries are matched by name with the entries the remote
    side added; then, entry by entry, a nested interrupt is raised for each bit that changed
    since the last notification or was pending and is now high with its rising edge, or low
    with its falling edge selected, and for no other; the values are remembered and only the
    bits raised stop being pending. *)
Theorem notify_in_correct s : link_ok s -> exists s', qcom_smp2p_notify_in s = Ok s' /\
  Forall2 (seen (m_in s)) (matched s) (inbound s') /\
  fired s' = fired s ++ (matched s ≫= (fun e => map (fun i => (e_name e, i)) (edges (m_in s) e))) /\
  s' = set_inbound (set_in_found s (in_found s) (Z.max (sp_valid_entries s) (valid_entries (m_in s))))
         (inbound s') (fired s').
Proof. apply notify_in_ok. Qed.

(** An entry that has seen the value and has nothing pending raises nothing. *)
Lemma edges_quiet it e i nm : e_value e = Some i -> entries it !! i = Some (nm, e_last_value e) ->
  irq_pending e = 0 -> edges it e = [].
Proof.
  intros Hv Hi Hp. unfold edges. rewrite Hv, Hi. apply elem_of_nil_inv.
  intros b [[Hd _] _]%list_elem_of_filter. rewrite Hp, Z.bits_0 in Hd. naive_solver.
Qed.

Lemma seen_link s s' : link_ok s -> qcom_smp2p_notify_in s = Ok s' ->
  link_ok s' /\ m_in s' = m_in s /\ new_indices s' = [] /\
  forall e, e ∈ inbound s' -> irq_pending e = 0 -> edges (m_in s) e = [].
Proof.
  intros Hl Hr. destruct (notify_in_ok s Hl) as (s1 & Hr1 & Hf & _ & Heq). rewrite Hr in Hr1. simplify_eq.
  assert (Hin : m_in s' = m_in s) by (by rewrite Heq).
  assert (Hvalid : sp_valid_entries s' = Z.max (sp_valid_entries s) (valid_entries (m_in s)))
    by (by rewrite Heq).
  assert (Hnames : map e_name (inbound s') = map e_name (inbound s)).
  { transitivity (map e_name (matched s)).
    - clear -Hf. induction Hf as [|e e' l l' Hs _ IH]; [done|]. cbn. f_equal; [apply Hs|done].
    - unfold matched. rewrite map_map. apply map_ext. intros e. clear.
      generalize (new_indices s). intros idx. revert e.
      induction idx as [|j idx IH]; intros e; [done|]. cbn. change (foldl (retarget (m_in s)) ?x idx) with (point_all (m_in s) idx x).
      rewrite IH. apply retarget_name. }
  assert (Hread : Forall (readable (m_in s)) (matched s)).
  { apply Forall_map. eapply Forall_impl; [exact (lo_readable _ Hl)|]. intros e. apply point_all_readable. }
  split; [|split; [done|split]].
  - destruct Hl as [H1 H2 H3 H4 H5 H6 H7]. constructor; rewrite ?Hin; try done.
    + rewrite Hvalid. lia.
    + apply Forall_forall. intros e He. assert (Hn : e_name e ∈ map e_name (inbound s))
        by (rewrite <-Hnames; by apply list_elem_of_fmap_2).
      apply list_elem_of_fmap in Hn as (e0 & -> & He0). rewrite Forall_forall in H5. by apply H5.
    + by rewrite Hnames.
    + clear -Hf Hread. induction Hf as [|e e' l l' Hs _ IH]; [done|].
      apply Forall_cons in Hread as [He Hread]. constructor; [|by apply IH].
      destruct Hs as (_ & Hv & _). intros k. rewrite Hv. apply He.
  - unfold new_indices. rewrite Hin, Hvalid. pose proof (lo_seen _ Hl).
    replace (Z.to_nat (valid_entries (m_in s) - Z.max (sp_valid_entries s) (valid_entries (m_in s)))) with 0%nat by lia. done.
  - intros e He Hp. apply list_elem_of_lookup_1 in He as [k Hk].
    destruct (Forall2_lookup_r _ _ _ _ _ Hf Hk) as (e0 & _ & Hs).
    destruct Hs as (_ & Hv & _ & _ & _ & _ & Hlast). destruct (e_value e0) as [i|] eqn:E0.
    + destruct Hlast as [nm Hi]. eapply edges_quiet; [exact Hv|exact Hi|done].
    + unfold edges. by rewrite Hv.
Qed.

(** Nothing is raised twice: a second notification without a change of the shared item
    and with no retriggered bit pending raises no interrupt. *)
Theorem notify_in_idempotent s s1 : link_ok s -> qcom_smp2p_notify_in s = Ok s1 ->
  Forall (fun e => irq_pending e = 0) (inbound s1) ->
  exists s2, qcom_smp2p_notify_in s1 = Ok s2 /\ fired s2 = fired s1.
Proof.
  intros Hl Hr Hp. destruct (seen_link s s1 Hl Hr) as (Hl1 & Hin & Hidx & Hq).
  destruct (notify_in_ok s1 Hl1) as (s2 & Hr2 & _ & Hf & _). exists s2. split; [done|].
  rewrite Hf. unfold matched. rewrite Hidx, Hin. rewrite <-(app_nil_r (fired s1)) at 2. f_equal.
  clear Hf Hr2. change (map (point_all (m_in s) []) (inbound s1)) with (map (fun e => e) (inbound s1)). rewrite map_id.
  assert (Hall : forall e, e ∈ inbound s1 -> edges (m_in s) e = [])
    by (intros e He; apply Hq; [done|by apply (proj1 (Forall_forall _ _) Hp)]).
  clear -Hall. induction (inbound s1) as [|e l IH]; [done|]. rewrite bind_cons, Hall by left. cbn.
  apply IH. intros e' He'. apply Hall. by right.
Qed.

(** ** Restarts *)
Definition restart_bit (i : smp2p_smem_item) : bool := Z.testbit (flags i) SMP2P_FLAGS_RESTART_DONE_BIT.
Definition ack_bit (i : smp2p_smem_item) : bool := Z.testbit (flags i) SMP2P_FLAGS_RESTART_ACK_BIT.

Lemma check_ssr_spec s : qcom_smp2p_check_ssr s =
  ssr_ack_enabled s && negb (Bool.eqb (restart_bit (m_in s)) (ssr_ack s)).
Proof.
  unfold qcom_smp2p_check_ssr, restart_bit, SMP2P_FLAGS_RESTART_DONE_BIT.
  destruct (ssr_ack_enabled s); [|done]. cbn [negb andb].
  assert (negb (Z.land (flags (m_in s)) (BIT 0) =? 0) = Z.testbit (flags (m_in s)) 0) as ->.
  { change (BIT 0) with (Z.ones 1). rewrite Z.land_ones by lia. change (2 ^ 1) with 2.
    rewrite <-Z.bit0_mod. by destruct (Z.testbit _ 0). }
  by destruct (Bool.eqb _ _).
Qed.

Lemma do_ssr_ack_spec s : let s' := qcom_smp2p_do_ssr_ack s in
  ssr_ack s' = negb (ssr_ack s) /\ ack_bit (m_out s') = ssr_ack s' /\ kicks s' = S (kicks s) /\
  (forall b, 0 <= b -> b <> SMP2P_FLAGS_RESTART_ACK_BIT ->
     Z.testbit (flags (m_out s')) b = Z.testbit (flags (m_out s)) b).
Proof.
  cbv zeta. unfold qcom_smp2p_do_ssr_ack, ack_bit, SMP2P_FLAGS_RESTART_ACK_BIT. cbn -[Z.lor Z.ldiff Z.shiftl Z.testbit].
  assert (Hbit : forall b, 0 <= b -> Z.testbit (Z.shiftl (Z.b2z (negb (ssr_ack s))) 1) b =
                   bool_decide (b = 1) && negb (ssr_ack s)).
  { intros b Hb. rewrite Z.shiftl_spec by done. case_bool_decide as E; [subst; apply Z.b2z_bit0|].
    destruct (Z.lt_ge_cases (b - 1) 0); [by rewrite Z.testbit_neg_r|].
    destruct (negb (ssr_ack s)); cbn [Z.b2z andb]; [|by rewrite Z.bits_0].
    change 1 with (2 ^ 0) at 1. rewrite Z.pow2_bits_eqb by lia. lia. }
  split_and!; [done| |done|].
  - rewrite Z.lor_spec, Z.ldiff_spec, BIT_bit, Hbit by lia. rewrite !bool_decide_eq_true_2 by done.
    cbn. by rewrite andb_false_r.
  - intros b Hb Hne. rewrite Z.lor_spec, Z.ldiff_spec, BIT_bit, Hbit by lia.
    rewrite !bool_decide_eq_false_2 by done. cbn. by rewrite andb_true_r, orb_false_r.
Qed.

Lemma open_intr get s : link_ok s -> in_found s = true -> open s = true ->
  exists s1, qcom_smp2p_notify_in s = Ok s1 /\ m_in s1 = m_in s /\ m_out s1 = m_out s /\
    ssr_ack_enabled s1 = ssr_ack_enabled s /\ ssr_ack s1 = ssr_ack s /\ kicks s1 = kicks s /\
    qcom_smp2p_intr get s = Ok (if qcom_smp2p_check_ssr s then qcom_smp2p_do_ssr_ack s1 else s1).
Proof.
  intros Hl Hf Ho. destruct (notify_in_ok s Hl) as (s1 & Hr & _ & _ & Heq). exists s1.
  split; [done|]. split_and!; try (rewrite Heq; done). unfold qcom_smp2p_intr. rewrite Hf. cbn [negb andb].
  assert (set_in_found s true (sp_valid_entries s) = s) as -> by (destruct s; cbn in *; by subst).
  rewrite Ho. cbn [negb]. rewrite Ho, Hr. done.
Qed.

(** Restarts are acknowledged. On an open link with the restart acknowledgement agreed
    on, where the acknowledgement bit shows the state of the driver, the interrupt handler
    returns with the acknowledgement equal to the restart flag of the remote side and shown
    in the acknowledgement bit, leaves every other flag alone, and signals the remote side
    exactly when it had restarted since. *)
Theorem ssr_handshake get s : link_ok s -> in_found s = true -> open s = true ->
  ssr_ack_enabled s = true -> ack_bit (m_out s) = ssr_ack s ->
  exists s', qcom_smp2p_intr get s = Ok s' /\ ssr_ack s' = restart_bit (m_in s) /\
    ack_bit (m_out s') = ssr_ack s' /\
    kicks s' = (if Bool.eqb (restart_bit (m_in s)) (ssr_ack s) then kicks s else S (kicks s)) /\
    forall b, 0 <= b -> b <> SMP2P_FLAGS_RESTART_ACK_BIT ->
      Z.testbit (flags (m_out s')) b = Z.testbit (flags (m_out s)) b.
Proof.
  intros Hl Hf Ho He Hack. destruct (open_intr get s Hl Hf Ho) as (s1 & _ & Hi & Hout & _ & Ha & Hk & Hr).
  rewrite check_ssr_spec, He in Hr. cbn [andb] in Hr.
  destruct (Bool.eqb (restart_bit (m_in s)) (ssr_ack s)) eqn:E; cbn [negb] in Hr; eexists; (split; [exact Hr|]).
  - apply eqb_prop in E. rewrite Hout, Ha. split_and!; [done|done|done|done].
  - destruct (do_ssr_ack_spec s1) as (H1 & H2 & H3 & H4). rewrite H1, H2, H1, H3, Ha, Hk.
    apply eqb_false_iff in E. split_and!; [by destruct (restart_bit (m_in s)), (ssr_ack s)|done|done|].
    intros b Hb Hne. by rewrite H4, Hout.
Qed.

(** The link opens only between equal versions. While it is closed, an interrupt from a
    side with another version changes nothing that the remote side or a client can see; from
    a side with the same version it opens the link, keeps in the outbound item exactly the
    features of both sides, and enables the restart acknowledgement when it is one of them.
    *)
Theorem link_negotiation get s : link_ok s -> in_found s = true -> open s = false ->
  exists s', qcom_smp2p_intr get s = Ok s' /\
  if version (m_in s) =? version (m_out s) then
    open s' = true /\ features (m_out s') = Z.land (features (m_in s)) (features (m_out s)) /\
    ssr_ack_enabled s' = ssr_ack_enabled s || negb (Z.land (Z.land (features (m_in s)) (features (m_out s))) SMP2P_FEATURE_SSR_ACK =? 0)
  else s' = s.
Proof.
  intros Hl Hf Ho. assert (Hid : set_in_found s true (sp_valid_entries s) = s) by (destruct s; cbn in *; by subst).
  destruct (version (m_in s) =? version (m_out s)) eqn:Hv.
  - set (s0 := qcom_smp2p_negotiate s).
    assert (Hs0 : link_ok s0 /\ in_found s0 = true /\ open s0 = true).
    { unfold s0, qcom_smp2p_negotiate. rewrite Hv. split; [|done]. destruct Hl as [H1 H2 H3 H4 H5 H6 H7].
      constructor; [exact H1|exact H2|exact H3|exact H4|exact H5|exact H6|exact H7]. }
    destruct Hs0 as (Hl0 & Hf0 & Ho0). destruct (open_intr get s0 Hl0 Hf0 Ho0) as (s1 & Hn & _ & Hout & Hen & _ & _ & Hr).
    assert (Hrun : qcom_smp2p_intr get s = qcom_smp2p_intr get s0).
    { unfold qcom_smp2p_intr. rewrite Hf, Hf0. cbn [negb andb].
      assert (set_in_found s0 true (sp_valid_entries s0) = s0) as ->
        by (unfold s0, qcom_smp2p_negotiate; rewrite Hv; destruct s; cbn in *; by subst).
      rewrite Hid, Ho, Ho0. cbn [negb]. by fold s0. }
    assert (Hopen1 : open s1 = true).
    { destruct (notify_in_ok s0 Hl0) as (s1' & Hr1 & _ & _ & Heq). rewrite Hn in Hr1. simplify_eq. by rewrite Heq. }
    rewrite Hrun. eexists. split; [exact Hr|].
    assert (Hfeat : features (m_out s0) = Z.land (features (m_in s)) (features (m_out s)) /\
      ssr_ack_enabled s0 = ssr_ack_enabled s ||
        negb (Z.land (Z.land (features (m_in s)) (features (m_out s))) SMP2P_FEATURE_SSR_ACK =? 0)).
    { unfold s0, qcom_smp2p_negotiate. rewrite Hv. cbn -[Z.land]. split; [done|].
      destruct (_ =? 0); cbn; [by rewrite orb_false_r|by rewrite orb_true_r]. }
    destruct (qcom_smp2p_check_ssr s0); cbn -[Z.land]; rewrite ?Hopen1, ?Hen, ?Hout; split_and!; try done; apply Hfeat.
  - exists s. split; [|done]. unfold qcom_smp2p_intr. rewrite Hf. cbn [negb andb]. rewrite Hid, Ho. cbn [negb].
    unfold qcom_smp2p_negotiate. rewrite Hv, Ho. done.
Qed.

(** ** Outbound values *)

(** A client's write to an outbound entry sets the bits of the value, clears the other
    bits of the mask and keeps the rest; it changes no other entry of the item, and signals
    the remote side exactly when the value changed. *)
Theorem update_bits_correct e mask value s i nm orig : e_value e = Some i ->
  entries (m_out s) !! i = Some (nm, orig) ->
  exists s' v, smp2p_update_bits e mask value s = Ok (0, s') /\
    entries (m_out s') = <[i := (nm, v)]> (entries (m_out s)) /\
    (forall b, 0 <= b -> Z.testbit v b = Z.testbit value b || Z.testbit orig b && negb (Z.testbit mask b)) /\
    valid_entries (m_out s') = valid_entries (m_out s) /\ m_in s' = m_in s /\ inbound s' = inbound s /\
    kicks s' = if v =? orig then kicks s else S (kicks s).
Proof.
  intros Hv Hi. unfold smp2p_update_bits, out_value. rewrite Hv, Hi. cbn [res_bind].
  set (v := Z.lor _ _). eexists _, v. split; [reflexivity|]. unfold set_value. rewrite Hi.
  destruct (v =? orig); cbn; (split_and!; try done); intros b Hb; subst v;
    rewrite Z.lor_spec, Z.ldiff_spec by done; apply orb_comm.
Qed.

(** A child that succeeds. *)
Definition child_ok (c : child) : Prop :=
  c_alloc c = true /\ c_domain c = true /\ 0 <= c_reg c /\ exists n, c_name c = inr n.

Definition out_names (l : list child) : list (list Z) :=
  omap (fun c => if c_inbound c then None else match c_name c with inr n => Some n | inl _ => None end) l.

Lemma outbound_entry_ok e reg s : 0 <= reg -> 0 <= valid_entries (m_out s) ->
  length (entries (m_out s)) = 16%nat ->
  (valid_entries (m_out s) < 16 /\ exists v s', qcom_smp2p_outbound_entry e reg s =
     Ok (0, point_to e (Z.to_nat (valid_entries (m_out s))), s') /\
     valid_entries (m_out s') = valid_entries (m_out s) + 1 /\
     entries (m_out s') = <[Z.to_nat (valid_entries (m_out s)) := (name_buf (e_name e), v)]> (entries (m_out s)) /\
     outbound s' = outbound s) \/
  (16 <= valid_entries (m_out s) /\ qcom_smp2p_outbound_entry e reg s = Fault).
Proof.
  intros Hr Hpos Hlen. unfold qcom_smp2p_outbound_entry. cbv zeta.
  destruct (Z.lt_ge_cases (valid_entries (m_out s)) 16) as [Hlt|Hge].
  - left. split; [done|]. destruct (lookup_lt_is_Some_2 (entries (m_out s)) (Z.to_nat (valid_entries (m_out s))))
      as [[nm v] Hi]; [lia|]. rewrite Hi. rewrite (proj2 (Z.ltb_ge reg 0)) by lia.
    eexists v, _. split; [reflexivity|]. cbn -[u16 name_buf]. split_and!; [|done|done]. apply u16_id. lia.
  - right. split; [done|]. rewrite lookup_ge_None_2 by lia. done.
Qed.

Lemma probe_children_ok l : forall s, Forall child_ok l -> 0 <= valid_entries (m_out s) <= 16 ->
  length (entries (m_out s)) = 16%nat ->
  (valid_entries (m_out s) + Z.of_nat (length (out_names l)) <= 16 /\
   exists s', probe_children l s = Ok (0, s') /\
     valid_entries (m_out s') = valid_entries (m_out s) + Z.of_nat (length (out_names l)) /\
     (forall j, Z.of_nat j < valid_entries (m_out s) -> entries (m_out s') !! j = entries (m_out s) !! j) /\
     (forall e, e ∈ outbound s -> e ∈ outbound s') /\
     forall k n, out_names l !! k = Some n ->
       let i := (Z.to_nat (valid_entries (m_out s)) + k)%nat in
       (exists v, entries (m_out s') !! i = Some (name_buf n, v)) /\
       exists e, e ∈ outbound s' /\ e_name e = n /\ e_value e = Some i) \/
  (16 < valid_entries (m_out s) + Z.of_nat (length (out_names l)) /\ probe_children l s = Fault).
Proof.
  induction l as [|c l IH]; intros s Hl Hv Hlen; cbn [probe_children].
  - left. cbn. split; [lia|]. exists s. split_and!; try done. lia.
  - apply Forall_cons in Hl as [(Ha & Hd & Hreg & n & Hn) Hl]. rewrite Ha, Hn. cbn [negb].
    unfold out_names. cbn [omap list_omap]. rewrite Hn. destruct (c_inbound c).
    + unfold qcom_smp2p_inbound_entry. rewrite Hd. cbn [Z.ltb Z.compare].
      apply (IH (set_inbound s (new_entry n :: inbound s) (fired s))); done.
    + fold (out_names l). cbn [length].
      destruct (outbound_entry_ok (new_entry n) (c_reg c) s Hreg (proj1 Hv) Hlen)
        as [(Hlt & v & s1 & Hr & Hv1 & He1 & Ho1)|(Hge & Hr)]; rewrite Hr; cbn [res_bind].
      2:{ right. split; [lia|done]. }
      cbn [Z.ltb Z.compare]. set (e := point_to _ _). set (s2 := set_outbound s1 (e :: outbound s1)).
      assert (Hlen2 : length (entries (m_out s2)) = 16%nat) by (cbn; rewrite He1, length_insert; done).
      destruct (IH s2 Hl ltac:(cbn; lia) Hlen2) as [(Hle & s' & Hr' & Hv' & Hlow & Hkeep & Hall)|(Hgt & Hr')].
      2:{ right. cbn in Hgt. split; [lia|done]. }
      left. cbn in Hle. split; [lia|]. exists s'. split; [done|].
      assert (Hm2 : valid_entries (m_out s2) = valid_entries (m_out s) + 1) by exact Hv1.
      split; [rewrite Hv', Hm2; lia|]. split; [|split].
      * intros j Hj. rewrite Hlow by lia. cbn. rewrite He1. apply list_lookup_insert_ne. lia.
      * intros x Hx. apply Hkeep. cbn. right. by rewrite Ho1.
      * intros [|k] m Hk; cbn in Hk.
        -- simplify_eq. rewrite Nat.add_0_r. split.
           ++ exists v. rewrite Hlow by lia. cbn. rewrite He1. apply list_lookup_insert_eq. lia.
           ++ exists e. split_and!; [apply Hkeep; left|done|done].
        -- specialize (Hall k m Hk). cbv zeta in Hall. rewrite Hm2 in Hall.
           replace (Z.to_nat (valid_entries (m_out s)) + S k)%nat
             with (Z.to_nat (valid_entries (m_out s) + 1) + k)%nat by lia. exact Hall.
Qed.

(** The outbound entries of the device tree get distinct entries of the shared item, in
    order, with their names, as long as there are no more than sixteen; with more the set up
    writes past the end of the item, for nothing checks their number. *)
Theorem outbound_allocation l s : Forall child_ok l -> valid_entries (m_out s) = 0 ->
  length (entries (m_out s)) = 16%nat ->
  ((length (out_names l) <= 16)%nat /\ exists s', probe_children l s = Ok (0, s') /\
     valid_entries (m_out s') = Z.of_nat (length (out_names l)) /\
     forall k n, out_names l !! k = Some n ->
       (exists v, entries (m_out s') !! k = Some (name_buf n, v)) /\
       exists e, e ∈ outbound s' /\ e_name e = n /\ e_value e = Some k) \/
  ((16 < length (out_names l))%nat /\ probe_children l s = Fault).
Proof.
  intros Hl Hv Hlen. destruct (probe_children_ok l s Hl ltac:(lia) Hlen)
    as [(Hle & s' & Hr & Hv' & _ & _ & Hall)|(Hgt & Hr)]; [left|right; split; [lia|done]].
  split; [lia|]. exists s'. split; [done|]. split; [lia|]. intros k n Hk. specialize (Hall k n Hk).
  rewrite Hv in Hall. exact Hall.
Qed.

(** ** Power management *)
Lemma restore_flags l : forall s ret s', restore_children l s = Ok (ret, s') ->
  flags (m_out s') = flags (m_out s) /\ ssr_ack s' = ssr_ack s.
Proof.
  induction l as [|c l IH]; intros s ret s' Hr; cbn [restore_children] in Hr; [by simplify_eq|].
  destruct (c_alloc c); cbn [negb] in Hr; [|by simplify_eq].
  destruct (c_name c) as [e|n]; [by simplify_eq|]. destruct (c_inbound c); [by apply IH in Hr|].
  unfold qcom_smp2p_outbound_entry in Hr. cbv zeta in Hr.
  destruct (entries (m_out s) !! _) as [[nm v]|]; cbn [res_bind] in Hr; [|done].
  case_if_in Hr; [by simplify_eq|]. apply IH in Hr. exact Hr.
Qed.

(** A freeze and a restore lose the acknowledgement: the restored item starts with no flag
    set while the driver still believes that it acknowledged a restart, so the
    acknowledgement bit no longer shows the state of the driver. *)
Theorem restore_loses_ack dev s s' : ssr_ack s = true ->
  qcom_smp2p_restore dev (qcom_smp2p_freeze s) = Ok (0, s') -> 0 <= sd_alloc dev -> 0 <= sd_get dev ->
  ssr_ack s' = true /\ ack_bit (m_out s') = false.
Proof.
  intros Ha Hr H1 H2. unfold qcom_smp2p_restore, qcom_smp2p_alloc_outbound_item in Hr.
  rewrite (proj2 (Z.ltb_ge (sd_alloc dev) 0)) in Hr by lia.
  rewrite (proj2 (Z.ltb_ge (sd_get dev) 0)) in Hr by lia. cbn [andb Z.ltb Z.compare] in Hr. cbv zeta in Hr.
  set (s0 := qcom_smp2p_kick _) in Hr.
  destruct (restore_children (sd_children dev) s0) as [[ret s1]| |] eqn:E; cbn [res_bind] in Hr; [|done|done].
  apply restore_flags in E as [Hf Hs]. case_if_in Hr; [simplify_eq; lia|]. simplify_eq.
  cbn. rewrite Hs. split; [exact Ha|]. unfold ack_bit. cbn. rewrite Hf. reflexivity.
Qed.

(** ** Examples *)
Module LinkDemo.
Definition name1 : list Z := [109; 97; 115; 116; 101; 114].
Definition item_in : smp2p_smem_item :=
  Item SMP2P_MAGIC 1 1 1 0 16 1 1 ((name_buf name1, 5) :: replicate 15 (replicate 16 0, 0)).
Definition item_out : smp2p_smem_item := Item SMP2P_MAGIC 1 1 0 1 16 0 0 empty_entries.
Definition ent : smp2p_entry := Entry name1 None 0 7 0 7 7.
Definition link : qcom_smp2p := Smp2p true item_in item_out 0 true false true 0 1 [ent] [] 0 [].
Definition closed : qcom_smp2p := Smp2p true item_in item_out 0 false false false 0 1 [ent] [] 0 [].

Lemma ok_of s : m_in s = item_in -> inbound s = [ent] -> sp_valid_entries s = 0 -> link_ok s.
Proof.
  intros Hi He Hv. constructor; rewrite ?Hi, ?He, ?Hv.
  - reflexivity.
  - cbn. unfold SMP2P_MAX_ENTRY. lia.
  - apply (bool_decide_unpack _). vm_compute. exact I.
  - done.
  - apply (bool_decide_unpack _). vm_compute. exact I.
  - apply NoDup_singleton.
  - apply Forall_singleton. intros i Hx. done.
Qed.

Definition kid : child := Child true (inr name1) false true 0.
Definition dev : smp2p_device := SDev 0 (inr 0) (inr 1) 5 0 0 0 0 [kid] true 0.
End LinkDemo.

Lemma name_roundtrip_witness : name_eq (name_buf LinkDemo.name1) LinkDemo.name1 = Ok true.
Proof.
  apply (name_roundtrip LinkDemo.name1 LinkDemo.name1);
    (split; [apply (bool_decide_unpack _); vm_compute; exact I|vm_compute; lia]).
Defined.

Lemma notify_in_correct_witness : exists s', qcom_smp2p_notify_in LinkDemo.link = Ok s' /\
  fired s' = [(LinkDemo.name1, 0); (LinkDemo.name1, 2)].
Proof.
  destruct (notify_in_correct LinkDemo.link) as (s' & Hr & _ & Hf & _); [by apply LinkDemo.ok_of|].
  exists s'. split; [exact Hr|]. rewrite Hf. vm_compute. reflexivity.
Defined.

Lemma notify_in_idempotent_witness : exists s1 s2, qcom_smp2p_notify_in LinkDemo.link = Ok s1 /\
  qcom_smp2p_notify_in s1 = Ok s2 /\ fired s2 = fired s1.
Proof.
  eexists _. edestruct (notify_in_idempotent LinkDemo.link) as (s2 & Hr & Hf);
    [by apply LinkDemo.ok_of|vm_compute; reflexivity|by apply Forall_singleton|].
  exists s2. split; [vm_compute; reflexivity|]. split; [exact Hr|exact Hf].
Defined.

Lemma ssr_handshake_witness : exists s', qcom_smp2p_intr true LinkDemo.link = Ok s' /\ ssr_ack s' = true.
Proof.
  destruct (ssr_handshake true LinkDemo.link) as (s' & Hr & Ha & _);
    [by apply LinkDemo.ok_of|reflexivity|reflexivity|reflexivity|reflexivity|].
  exists s'. split; [exact Hr|]. rewrite Ha. reflexivity.
Defined.

Lemma link_negotiation_witness : exists s', qcom_smp2p_intr true LinkDemo.closed = Ok s' /\ open s' = true.
Proof.
  destruct (link_negotiation true LinkDemo.closed) as (s' & Hr & Hx);
    [by apply LinkDemo.ok_of|reflexivity|reflexivity|].
  exists s'. split; [exact Hr|]. apply Hx.
Defined.

Lemma update_bits_correct_witness : exists s' v,
  smp2p_update_bits (point_to LinkDemo.ent 0) 3 2 LinkDemo.link = Ok (0, s') /\
  entries (m_out s') = <[0%nat := (replicate 16 0, v)]> (entries (m_out LinkDemo.link)).
Proof.
  destruct (update_bits_correct (point_to LinkDemo.ent 0) 3 2 LinkDemo.link 0 (replicate 16 0) 0 eq_refl eq_refl)
    as (s' & v & Hr & He & _).
  exists s', v. split; [exact Hr|exact He].
Defined.

Lemma outbound_allocation_witness : exists s', probe_children [LinkDemo.kid] LinkDemo.link = Ok (0, s') /\
  valid_entries (m_out s') = 1.
Proof.
  destruct (outbound_allocation [LinkDemo.kid] LinkDemo.link) as [(_ & s' & Hr & Hv & _)|[Hx _]].
  - apply Forall_singleton. unfold child_ok. cbn. split_and!; [done|done|lia|by eexists].
  - reflexivity.
  - reflexivity.
  - exists s'. split; [exact Hr|exact Hv].
  - vm_compute in Hx. lia.
Defined.

(** A link that has acknowledged a restart. *)
Definition acked : qcom_smp2p := qcom_smp2p_do_ssr_ack LinkDemo.link.

Lemma restore_loses_ack_witness : exists s',
  qcom_smp2p_restore LinkDemo.dev (qcom_smp2p_freeze acked) = Ok (0, s') /\ ack_bit (m_out s') = false.
Proof.
  eexists. split; [vm_compute; reflexivity|].
  eapply (proj2 (restore_loses_ack LinkDemo.dev acked _ eq_refl ltac:(vm_compute; reflexivity) ltac:(cbn; lia) ltac:(cbn; lia))).
Defined.

(** The number of entries is taken from the remote side unchecked: when the inbound item
    claims seventeen entries the handler reads past the sixteen it has. *)
Theorem notify_in_overrun :
  let it := with_entries LinkDemo.item_in 17 (entries LinkDemo.item_in) in
  qcom_smp2p_intr true (Smp2p true it LinkDemo.item_out 0 true false true 0 1 [LinkDemo.ent] [] 0 []) = Fault.
Proof. vm_compute. reflexivity. Qed.
