(* ===== verification/SmemState.v ===== *)
(** * Shared memory states (drivers/soc/qcom/smem_state.c)

    Drivers register the 32-bit words they own; clients get a handle to one by the node of
    the device tree it belongs to, and change bits through it.  A handle is counted, so that
    a state outlives the registration while a client holds it.  [W] is the state of the
    drivers behind the operations. *)
From S2P Require Import Prelude.
Open Scope c_scope.

Definition ENOTSUPP : Z := 524.

Section smem_state.
Context {W : Type}.

(** struct qcom_smem_state; [update_bits] is the operation of [ops], on the private data. *)
Record qcom_smem_state := SmemState {
  refcount : Z;
  orphan : bool;
  of_node : Z;
  priv : Z;
  update_bits : option (Z -> Z -> Z -> ST W Z);
}.

Definition with_refcount (s : qcom_smem_state) (n : Z) : qcom_smem_state :=
  SmemState n (orphan s) (of_node s) (priv s) (update_bits s).
Definition with_orphan (s : qcom_smem_state) : qcom_smem_state :=
  SmemState (refcount s) true (of_node s) (priv s) (update_bits s).

(** The objects by address, the list [smem_states] from its head, and the drivers. *)
Record registry := Registry {
  objs : gmap Z qcom_smem_state;
  smem_states : list Z;
  drv : W;
}.

Definition set_obj (a : Z) (o : qcom_smem_state) (r : registry) : registry :=
  Registry (<[a := o]> (objs r)) (smem_states r) (drv r).

(** An access to an object that was freed is a fault. *)
Definition the_state (a : Z) : ST registry qcom_smem_state :=
  fun r => match objs r !! a with Some o => Ok (o, r) | None => Fault end.

Definition on_drv {A} (c : ST W A) : ST registry A :=
  fun r => match c (drv r) with
           | Ok (a, w) => Ok (a, Registry (objs r) (smem_states r) w)
           | Fault => Fault
           | Loop => Loop
           end.

Definition qcom_smem_state_update_bits (state mask value : Z) : ST registry Z :=
  let! o := the_state state in
  if orphan o then st_ret (- ENXIO) else
  match update_bits o with
  | None => st_ret (- ENOTSUPP)
  | Some op => on_drv (op (priv o) mask value)
  end.

(** The walk over the list; the handle is counted under the lock. *)
Fixpoint find_state (np : Z) (l : list Z) : ST registry (Z + Z) :=
  match l with
  | [] => st_ret (inl (- EPROBE_DEFER))
  | a :: l =>
    let! o := the_state a in
    if of_node o =? np then
      st_upd (set_obj a (with_refcount o (refcount o + 1))) ;;; st_ret (inr a)
    else find_state np l
  end.

Definition of_node_to_state (np : Z) : ST registry (Z + Z) :=
  let! l := st_get smem_states in find_state np l.

(** What the device tree answers: the index of [con_id] in the names (a negative error
    number when it is missing), and for an index the error or the node and arguments. *)
Record state_node := StateNode {
  sn_match : Z -> Z;
  sn_args : Z -> Z + (Z * list Z);
}.

(** The part of [qcom_smem_state_get] below the index. *)
Definition state_by_index (dev : state_node) (index : Z) : ST registry ((Z + Z) * option Z) :=
  match sn_args dev index with
  | inl ret => st_ret (inl ret, None)
  | inr (np, args) =>
    if negb (Z.of_nat (length args) =? 1) then st_ret (inl (- EINVAL), None) else
    let! state := of_node_to_state np in
    match state with
    | inl e => st_ret (inl e, None)
    | inr a => st_ret (inr a, head args)
    end
  end.

(** Returns the error or the handle, and the bit when it was written. *)
Definition qcom_smem_state_get (dev : state_node) (con_id : option Z)
    : ST registry ((Z + Z) * option Z) :=
  match con_id with
  | None => state_by_index dev 0
  | Some id =>
    let index := sn_match dev id in
    if index <? 0 then st_ret (inl index, None) else state_by_index dev index
  end.

Definition qcom_smem_state_release (a : Z) : ST registry unit :=
  st_upd (fun r => Registry (delete a (objs r)) (filter (fun b => b <> a) (smem_states r)) (drv r)).

(** [kref_put]: the release runs when the count drops to zero. *)
Definition qcom_smem_state_put (a : Z) : ST registry unit :=
  let! o := the_state a in
  let n := refcount o - 1 in
  st_upd (set_obj a (with_refcount o n)) ;;;
  if n =? 0 then qcom_smem_state_release a else st_ret tt.

(** [alloc] is the answer of [kzalloc]. *)
Definition qcom_smem_state_register (alloc : option Z) (np : Z)
    (ops : option (Z -> Z -> Z -> ST W Z)) (data : Z) : ST registry (Z + Z) :=
  match alloc with
  | None => st_ret (inl (- ENOMEM))
  | Some a =>
    st_upd (fun r => Registry (<[a := SmemState 1 false np data ops]> (objs r))
                       (a :: smem_states r) (drv r)) ;;;
    st_ret (inr a)
  end.

Definition qcom_smem_state_unregister (a : Z) : ST registry unit :=
  let! o := the_state a in
  st_upd (set_obj a (with_orphan o)) ;;;
  qcom_smem_state_put a.
End smem_state.
Arguments qcom_smem_state : clear implicits.
Arguments registry : clear implicits.
