(* ===== verification/SmemHandles.v ===== *)
(** * Handles of shared memory states

    Who holds what: the drivers own the states they registered, the clients hold the handles
    they got.  The invariant [reg_inv] ties the reference counts to this account; the
    theorems say that no call of an owner or a holder touches a freed state, and that a
    state is freed with its last holder. *)
From stdpp Require Import gmultiset.
From S2P Require Import Prelude SmemState.

Section handles.
Context {W : Type}.
Implicit Types (r : registry W) (own : gset Z) (held : gmultiset Z).

Definition owns own (a : Z) : Z := if decide (a ∈ own) then 1 else 0.

Record reg_inv r own held : Prop := {
  ri_count a o : objs r !! a = Some o ->
    refcount o = owns own a + Z.of_nat (multiplicity a held) /\ 0 < refcount o;
  ri_orphan a o : objs r !! a = Some o -> orphan o = bool_decide (a ∉ own);
  ri_own a : a ∈ own -> is_Some (objs r !! a);
  ri_held a : a ∈ held -> is_Some (objs r !! a);
  ri_list a : a ∈ smem_states r <-> is_Some (objs r !! a);
  ri_nodup : NoDup (smem_states r);
}.

Lemma owns_range own a : 0 <= owns own a <= 1.
Proof. unfold owns. case_decide; lia. Qed.

Lemma elem_of_mult (a : Z) held : a ∈ held <-> (0 < multiplicity a held)%nat.
Proof. apply elem_of_multiplicity. Qed.

Lemma the_state_ok a o r : objs r !! a = Some o -> the_state a r = Ok (o, r).
Proof. unfold the_state. by intros ->. Qed.

(** An account that changes at one address, with the object there. *)
Lemma reg_inv_set r own held own' held' a o o' :
  reg_inv r own held -> objs r !! a = Some o ->
  (forall b, b <> a -> (b ∈ own' <-> b ∈ own) /\ multiplicity b held' = multiplicity b held) ->
  refcount o' = owns own' a + Z.of_nat (multiplicity a held') -> 0 < refcount o' ->
  orphan o' = bool_decide (a ∉ own') ->
  reg_inv (set_obj a o' r) own' held'.
Proof.
  intros R Ha Hother Hc Hp Ho. constructor; cbn [objs smem_states set_obj].
  - intros b ob. destruct (decide (b = a)) as [->|Hne].
    + rewrite lookup_insert_eq. intros [= <-]. done.
    + rewrite lookup_insert_ne by done. destruct (Hother b Hne) as [H1 ->]. intros Hb.
      destruct (ri_count _ _ _ R b ob Hb). unfold owns in *.
      destruct (decide (b ∈ own')), (decide (b ∈ own)); intuition lia.
  - intros b ob. destruct (decide (b = a)) as [->|Hne].
    + rewrite lookup_insert_eq. intros [= <-]. done.
    + rewrite lookup_insert_ne by done. destruct (Hother b Hne) as [H1 _]. intros Hb.
      rewrite (ri_orphan _ _ _ R b ob Hb). by apply bool_decide_ext, not_iff_compat.
  - intros b Hb. destruct (decide (b = a)) as [->|Hne]; [rewrite lookup_insert_eq; by eexists|].
    rewrite lookup_insert_ne by done. apply (ri_own _ _ _ R). by apply Hother.
  - intros b Hb. destruct (decide (b = a)) as [->|Hne]; [rewrite lookup_insert_eq; by eexists|].
    rewrite lookup_insert_ne by done. apply (ri_held _ _ _ R).
    apply (proj1 (elem_of_mult _ _)) in Hb. apply elem_of_mult.
    destruct (Hother b Hne) as [_ E]. lia.
  - intros b. destruct (decide (b = a)) as [->|Hne].
    + rewrite lookup_insert_eq, (ri_list _ _ _ R), Ha. split; by eexists.
    + rewrite lookup_insert_ne by done. apply (ri_list _ _ _ R).
  - apply (ri_nodup _ _ _ R).
Qed.

(** The last reference at an address goes away. *)
Lemma reg_inv_free r own held own' held' a :
  reg_inv r own held -> a ∉ own' -> multiplicity a held' = O ->
  (forall b, b <> a -> (b ∈ own' <-> b ∈ own) /\ multiplicity b held' = multiplicity b held) ->
  reg_inv (Registry (delete a (objs r)) (filter (fun b => b <> a) (smem_states r)) (drv r)) own' held'.
Proof.
  intros R Hno Hm Hother. constructor; cbn [objs smem_states].
  - intros b ob [Hne Hb]%lookup_delete_Some. destruct (Hother b ltac:(congruence)) as [H1 ->].
    destruct (ri_count _ _ _ R b ob Hb). unfold owns in *.
    destruct (decide (b ∈ own')), (decide (b ∈ own)); intuition lia.
  - intros b ob [Hne Hb]%lookup_delete_Some. destruct (Hother b ltac:(congruence)) as [H1 _].
    rewrite (ri_orphan _ _ _ R b ob Hb). by apply bool_decide_ext, not_iff_compat.
  - intros b Hb. assert (b <> a) by congruence. rewrite lookup_delete_ne by congruence.
    apply (ri_own _ _ _ R). by apply Hother.
  - intros b Hb. apply (proj1 (elem_of_mult _ _)) in Hb. assert (b <> a) by (intros ->; lia).
    rewrite lookup_delete_ne by congruence. apply (ri_held _ _ _ R), elem_of_mult.
    destruct (Hother b ltac:(done)) as [_ E]. lia.
  - intros b. rewrite list_elem_of_filter, (ri_list _ _ _ R). destruct (decide (b = a)) as [->|Hne].
    + rewrite lookup_delete_eq. split; [by intros []|by intros []].
    + rewrite lookup_delete_ne by done. intuition.
  - apply NoDup_filter, R.
Qed.

Lemma set_obj_twice a o o' r : set_obj a o (set_obj a o' r) = set_obj a o r.
Proof. unfold set_obj. cbn [objs smem_states drv]. by rewrite insert_insert_eq. Qed.

(** ** The operations keep the account *)

(** One reference at [a] goes away; [o1] is the object at that moment. *)
Lemma put_drop r own held own' held' a o o1 :
  reg_inv r own held -> objs r !! a = Some o ->
  refcount o1 = refcount o -> orphan o1 = bool_decide (a ∉ own') ->
  (forall b, b <> a -> (b ∈ own' <-> b ∈ own) /\ multiplicity b held' = multiplicity b held) ->
  owns own' a + Z.of_nat (multiplicity a held') = refcount o - 1 ->
  exists r', qcom_smem_state_put a (set_obj a o1 r) = Ok (tt, r') /\ reg_inv r' own' held' /\
    drv r' = drv r /\
    objs r' = if refcount o =? 1 then delete a (objs r)
              else <[a := with_refcount o1 (refcount o - 1)]> (objs r).
Proof.
  intros R Ha Hc Ho Hother Hn. unfold qcom_smem_state_put.
  erewrite st_bind_ok by (apply the_state_ok; cbn; apply lookup_insert_eq).
  st_run. rewrite Hc. pose proof (owns_range own' a). destruct (ri_count _ _ _ R a o Ha) as [_ Hp].
  destruct (refcount o =? 1) eqn:E.
  - replace (refcount o - 1 =? 0) with true by lia.
    eexists. split; [reflexivity|]. cbn [set_obj objs smem_states drv].
    rewrite insert_insert_eq, delete_insert_eq. split; [|done]. apply (reg_inv_free r own held); try done.
    + unfold owns in *. destruct (decide (a ∈ own')); [lia|done].
    + lia.
  - replace (refcount o - 1 =? 0) with false by lia.
    eexists. split; [reflexivity|]. rewrite set_obj_twice. split; [|done].
    apply (reg_inv_set r own held own' held' a o); cbn; try done; lia.
Qed.

Lemma set_obj_id a o r : objs r !! a = Some o -> set_obj a o r = r.
Proof. intros H. unfold set_obj. rewrite insert_id by done. by destruct r. Qed.

Lemma put_inv r own held a : reg_inv r own held -> a ∈ held ->
  exists r', qcom_smem_state_put a r = Ok (tt, r') /\ reg_inv r' own (held ∖ {[+ a +]}) /\
    drv r' = drv r /\ (forall b o, b <> a -> objs r !! b = Some o -> objs r' !! b = Some o) /\
    (a ∈ own -> exists o n, objs r !! a = Some o /\ objs r' !! a = Some (with_refcount o n)).
Proof.
  intros R Ha. destruct (ri_held _ _ _ R a Ha) as [o Ho].
  apply (proj1 (elem_of_mult _ _)) in Ha. destruct (ri_count _ _ _ R a o Ho) as [Hc _].
  destruct (put_drop r own held own (held ∖ {[+ a +]}) a o o) as (r'&E&R'&Hd&Hobj); try done.
  - by apply (ri_orphan _ _ _ R).
  - intros b Hne. split; [done|]. rewrite multiplicity_difference, multiplicity_singleton_ne by done. lia.
  - rewrite multiplicity_difference, multiplicity_singleton_eq. lia.
  - rewrite (set_obj_id a o r Ho) in E. exists r'. split_and!; try done.
    + intros b ob Hne Hb. rewrite Hobj. case_if; [by rewrite lookup_delete_ne by done|].
      by rewrite lookup_insert_ne.
    + intros Hown. exists o, (refcount o - 1). split; [done|]. rewrite Hobj. unfold owns in Hc.
      rewrite decide_True in Hc by done. solve_ifs. by rewrite lookup_insert_eq.
Qed.

Lemma unregister_inv r own held a : reg_inv r own held -> a ∈ own ->
  exists r', qcom_smem_state_unregister a r = Ok (tt, r') /\ reg_inv r' (own ∖ {[a]}) held /\
    drv r' = drv r /\ (forall b o, b <> a -> objs r !! b = Some o -> objs r' !! b = Some o).
Proof.
  intros R Ha. destruct (ri_own _ _ _ R a Ha) as [o Ho]. unfold qcom_smem_state_unregister.
  destruct (ri_count _ _ _ R a o Ho) as [Hc _]. unfold owns in Hc. rewrite decide_True in Hc by done.
  rewrite (st_bind_ok _ _ _ _ _ (the_state_ok _ _ _ Ho)). st_run.
  destruct (put_drop r own held (own ∖ {[a]}) held a o (with_orphan o)) as (r'&E&R'&Hd&Hobj); try done.
  - cbn. symmetry. apply bool_decide_eq_true_2. set_solver.
  - intros b Hne. split; [set_solver|done].
  - unfold owns. rewrite decide_False by set_solver. lia.
  - exists r'. split_and!; try done. intros b ob Hne Hb. rewrite Hobj.
    case_if; [by rewrite lookup_delete_ne by done|]. by rewrite lookup_insert_ne.
Qed.

Lemma register_inv r own held a np ops data : reg_inv r own held -> objs r !! a = None ->
  exists r', qcom_smem_state_register (Some a) np ops data r = Ok (inr a, r') /\
    reg_inv r' ({[a]} ∪ own) held /\ drv r' = drv r /\
    objs r' = <[a := SmemState 1 false np data ops]> (objs r).
Proof.
  intros R Ha.
  assert (Hn : a ∉ own) by (intros H; destruct (ri_own _ _ _ R a H); congruence).
  assert (Hm : multiplicity a held = O).
  { destruct (decide (a ∈ held)) as [H|H]; [destruct (ri_held _ _ _ R a H); congruence|].
    destruct (multiplicity a held) eqn:E; [done|]. destruct H. apply elem_of_mult. lia. }
  eexists. split; [reflexivity|]. split; [|done]. constructor; cbn [objs smem_states].
  - intros b o. destruct (decide (b = a)) as [->|Hne].
    + rewrite lookup_insert_eq. intros [= <-]. unfold owns. rewrite decide_True by set_solver. cbn. lia.
    + rewrite lookup_insert_ne by done. intros Hb. destruct (ri_count _ _ _ R b o Hb).
      unfold owns in *. destruct (decide (b ∈ {[a]} ∪ own)), (decide (b ∈ own)); (lia || set_solver).
  - intros b o. destruct (decide (b = a)) as [->|Hne].
    + rewrite lookup_insert_eq. intros [= <-]. symmetry. apply bool_decide_eq_false_2. set_solver.
    + rewrite lookup_insert_ne by done. intros Hb. rewrite (ri_orphan _ _ _ R b o Hb).
      apply bool_decide_ext. set_solver.
  - intros b Hb. destruct (decide (b = a)) as [->|Hne]; [rewrite lookup_insert_eq; by eexists|].
    rewrite lookup_insert_ne by done. apply (ri_own _ _ _ R). set_solver.
  - intros b Hb. destruct (decide (b = a)) as [->|Hne]; [rewrite lookup_insert_eq; by eexists|].
    rewrite lookup_insert_ne by done. by apply (ri_held _ _ _ R).
  - intros b. rewrite elem_of_cons, (ri_list _ _ _ R). destruct (decide (b = a)) as [->|Hne].
    + rewrite lookup_insert_eq. split; [by eexists|by left].
    + rewrite lookup_insert_ne by done. intuition.
  - constructor; [|apply R]. rewrite (ri_list _ _ _ R), Ha. by intros [].
Qed.

(** A handle: the first state of the list with the node, newest registration first. *)
Lemma find_state_exec np l r : (forall a, a ∈ l -> is_Some (objs r !! a)) ->
  (find_state np l r = Ok (inl (- EPROBE_DEFER), r) /\
   forall a o, a ∈ l -> objs r !! a = Some o -> of_node o <> np) \/
  exists l1 a l2 o, l = l1 ++ a :: l2 /\ objs r !! a = Some o /\ of_node o = np /\
    (forall b ob, b ∈ l1 -> objs r !! b = Some ob -> of_node ob <> np) /\
    find_state np l r = Ok (inr a, set_obj a (with_refcount o (refcount o + 1)) r).
Proof.
  induction l as [|a l IH]; intros Hl; cbn [find_state].
  { left. split; [done|]. intros a o Ha. by apply not_elem_of_nil in Ha. }
  destruct (Hl a) as [o Ho]; [by left|]. rewrite (st_bind_ok _ _ _ _ _ (the_state_ok _ _ _ Ho)).
  destruct (of_node o =? np) eqn:E.
  { right. exists [], a, l, o. st_run. split_and!; [done|done|lia| |done].
    intros b ob Hb. by apply not_elem_of_nil in Hb. }
  destruct IH as [[E1 E2]|(l1&b&l2&ob&->&Hb&Hn&H1&E1)]; [intros b Hb; apply Hl; by right|left|right].
  - split; [exact E1|]. intros b ob [->|Hb]%elem_of_cons Hob; [|by eapply E2].
    rewrite Ho in Hob. simplify_eq. lia.
  - exists (a :: l1), b, l2, ob. split_and!; try done.
    intros x ox [->|Hx]%elem_of_cons Hox; [|by eapply H1]. rewrite Ho in Hox. simplify_eq. lia.
Qed.

Lemma by_index_inv r own held dev idx : reg_inv r own held ->
  (exists e, state_by_index dev idx r = Ok ((inl e, None), r)) \/
  (exists a o b, state_by_index dev idx r =
      Ok ((inr a, Some b), set_obj a (with_refcount o (refcount o + 1)) r) /\
    objs r !! a = Some o /\
    reg_inv (set_obj a (with_refcount o (refcount o + 1)) r) own (held ⊎ {[+ a +]})).
Proof.
  intros R. unfold state_by_index. destruct (sn_args dev idx) as [ret|[np args]]; [left; by exists ret|].
  case_if; [left; by eexists|]. destruct args as [|b [|]]; cbn [length] in *; [lia| |lia].
  unfold of_node_to_state.
  destruct (find_state_exec np (smem_states r) r) as [[E _]|(l1&a&l2&o&_&Ho&_&_&E)].
  { intros a Ha. by apply (ri_list _ _ _ R). }
  - left. exists (- EPROBE_DEFER). st_run. by rewrite (st_bind_ok _ _ _ _ _ E).
  - right. exists a, o, b. st_run. rewrite (st_bind_ok _ _ _ _ _ E). split; [done|]. split; [done|].
    destruct (ri_count _ _ _ R a o Ho).
    apply (reg_inv_set r own held own (held ⊎ {[+ a +]}) a o); try done; cbn.
    + intros c Hne. split; [done|].
      rewrite multiplicity_disj_union, multiplicity_singleton_ne by done. lia.
    + rewrite multiplicity_disj_union, multiplicity_singleton_eq. lia.
    + lia.
    + by apply (ri_orphan _ _ _ R).
Qed.

Lemma get_inv r own held dev con : reg_inv r own held ->
  (exists e, qcom_smem_state_get dev con r = Ok ((inl e, None), r)) \/
  (exists a o b, qcom_smem_state_get dev con r =
      Ok ((inr a, Some b), set_obj a (with_refcount o (refcount o + 1)) r) /\
    objs r !! a = Some o /\
    reg_inv (set_obj a (with_refcount o (refcount o + 1)) r) own (held ⊎ {[+ a +]})).
Proof.
  intros R. unfold qcom_smem_state_get.
  destruct con as [id|]; [|by apply by_index_inv]. case_if; [left; by eexists|by apply by_index_inv].
Qed.

(** A change through a handle: refused without touching the driver once the state was
    unregistered, else handed to the operation of the owner. *)
Lemma update_exec r own held a mask value : reg_inv r own held -> a ∈ held ->
  exists o, objs r !! a = Some o /\
    qcom_smem_state_update_bits a mask value r =
      if decide (a ∈ own) then
        match update_bits o with
        | None => Ok (- ENOTSUPP, r)
        | Some op => on_drv (op (priv o) mask value) r
        end
      else Ok (- ENXIO, r).
Proof.
  intros R Ha. destruct (ri_held _ _ _ R a Ha) as [o Ho]. exists o. split; [done|].
  unfold qcom_smem_state_update_bits. rewrite (st_bind_ok _ _ _ _ _ (the_state_ok _ _ _ Ho)).
  rewrite (ri_orphan _ _ _ R a o Ho). case_decide as Hd.
  - rewrite bool_decide_eq_false_2 by tauto. by destruct (update_bits o).
  - by rewrite bool_decide_eq_true_2.
Qed.

(** Only the state of the drivers changes. *)
Lemma reg_inv_drv r own held w :
  reg_inv r own held -> reg_inv (Registry (objs r) (smem_states r) w) own held.
Proof. intros []. by constructor. Qed.

(** ** Sequences of calls

    Every owner and holder calls only with what it has; the operations of the drivers
    return. *)
Definition op_total (ops : option (Z -> Z -> Z -> ST W Z)) : Prop :=
  match ops with
  | None => True
  | Some op => forall data mask value w, exists x, op data mask value w = Ok x
  end.

Inductive served : registry W -> gset Z -> gmultiset Z -> Prop :=
| srv_start w : served (Registry ∅ [] w) ∅ ∅
| srv_register r own held a np ops data x r' : served r own held ->
    objs r !! a = None -> op_total ops ->
    qcom_smem_state_register (Some a) np ops data r = Ok (x, r') ->
    served r' ({[a]} ∪ own) held
| srv_unregister r own held a r' : served r own held -> a ∈ own ->
    qcom_smem_state_unregister a r = Ok (tt, r') -> served r' (own ∖ {[a]}) held
| srv_got r own held dev con a b r' : served r own held ->
    qcom_smem_state_get dev con r = Ok ((inr a, b), r') -> served r' own (held ⊎ {[+ a +]})
| srv_got_none r own held dev con e b r' : served r own held ->
    qcom_smem_state_get dev con r = Ok ((inl e, b), r') -> served r' own held
| srv_put r own held a r' : served r own held -> a ∈ held ->
    qcom_smem_state_put a r = Ok (tt, r') -> served r' own (held ∖ {[+ a +]})
| srv_update r own held a mask value ret r' : served r own held -> a ∈ held ->
    qcom_smem_state_update_bits a mask value r = Ok (ret, r') -> served r' own held.

Definition ops_ok r : Prop := forall a o, objs r !! a = Some o -> op_total (update_bits o).

Lemma ops_ok_put a r r' : ops_ok r -> qcom_smem_state_put a r = Ok (tt, r') -> ops_ok r'.
Proof.
  intros Hops H. unfold qcom_smem_state_put in H. apply st_bind_inv in H as (o&r1&H1&H).
  unfold the_state in H1. destruct (objs r !! a) as [o'|] eqn:Ho; [|done]. simplify_eq.
  assert (Hset : ops_ok (set_obj a (with_refcount o (refcount o - 1)) r1)).
  { intros b ob. cbn. rewrite lookup_insert_Some. intros [[-> <-]|[_ Hb]]; [|by eapply Hops].
    exact (Hops _ _ Ho). }
  rewrite st_bind_upd in H. case_if_in H.
  - unfold qcom_smem_state_release, st_upd in H. simplify_eq.
    intros b ob. cbn [objs set_obj]. intros [_ Hb]%lookup_delete_Some. by apply (Hset b).
  - unfold st_ret in H. by simplify_eq.
Qed.

Lemma update_frame a mask value r ret r' :
  qcom_smem_state_update_bits a mask value r = Ok (ret, r') ->
  r' = Registry (objs r) (smem_states r) (drv r').
Proof.
  intros H. unfold qcom_smem_state_update_bits in H. apply st_bind_inv in H as (o&r1&H1&H).
  unfold the_state in H1. destruct (objs r !! a) as [o'|] eqn:Ho; [|done]. simplify_eq.
  assert (Hr : forall r, r = Registry (objs r) (smem_states r) (drv r)) by (by intros []).
  case_if_in H; [unfold st_ret in H; simplify_eq; apply Hr|].
  destruct (update_bits o) as [op|]; [|unfold st_ret in H; simplify_eq; apply Hr].
  unfold on_drv in H. destruct (op _ _ _ (drv r1)) as [[x w]| |]; [|done..]. by simplify_eq.
Qed.

Lemma served_inv r own held : served r own held -> reg_inv r own held /\ ops_ok r.
Proof.
  induction 1 as [w|r own held a np ops data x r' _ [R O] Hf Ht H|r own held a r' _ [R O] Ha H
    |r own held dev con a b r' _ [R O] H|r own held dev con e b r' _ [R O] H
    |r own held a r' _ [R O] Ha H|r own held a mask value ret r' _ [R O] Ha H].
  - split; [|intros a o Ha; cbn in Ha; by rewrite lookup_empty in Ha].
    constructor; cbn [objs smem_states].
    + intros a o. by rewrite lookup_empty.
    + intros a o. by rewrite lookup_empty.
    + intros a Ha. set_solver.
    + intros a Ha. multiset_solver.
    + intros a. rewrite lookup_empty. split; [by intros ?%not_elem_of_nil|by intros []].
    + constructor.
  - destruct (register_inv r own held a np ops data R Hf) as (r1&E&R'&_&Ho).
    rewrite E in H. simplify_eq.
    split; [done|]. intros b o. rewrite Ho, lookup_insert_Some.
    intros [[-> <-]|[_ Hb]]; [done|by eapply O].
  - destruct (unregister_inv r own held a R Ha) as (r1&E&R'&_).
    rewrite E in H. simplify_eq. split; [done|].
    unfold qcom_smem_state_unregister in E. apply st_bind_inv in E as (o&r2&H1&E).
    unfold the_state in H1. destruct (objs r !! a) as [o'|] eqn:Ho; [|done]. simplify_eq.
    rewrite st_bind_upd in E. eapply ops_ok_put; [|exact E].
    intros b ob. cbn. rewrite lookup_insert_Some. intros [[-> <-]|[_ Hb]]; [|by eapply O].
    exact (O _ _ Ho).
  - destruct (get_inv r own held dev con R) as [[e E]|(a'&o&b'&E&Ho&R')];
      rewrite E in H; simplify_eq.
    split; [done|]. intros c oc. cbn. rewrite lookup_insert_Some.
    intros [[-> <-]|[_ Hb]]; [|by eapply O]. exact (O _ _ Ho).
  - destruct (get_inv r own held dev con R) as [[e' E]|(a'&o&b'&E&Ho&R')];
      rewrite E in H; by simplify_eq.
  - destruct (put_inv r own held a R Ha) as (r1&E&R'&_).
    rewrite E in H. simplify_eq. split; [done|].
    by eapply ops_ok_put.
  - rewrite (update_frame _ _ _ _ _ _ H). split; [by apply reg_inv_drv|]. intros b o Hb. by eapply O.
Qed.

(** C25: over every sequence of registrations, lookups, releases and changes in which owners
    and holders use only what they have, no call touches a freed state: each one returns.  A
    state exists exactly as long as its owner or a holder has it, and its count is the number
    of them; a change through a handle whose state was unregistered returns [-ENXIO] and
    changes nothing. *)
Theorem smem_handles_safe r own held : served r own held ->
  (forall a, a ∈ own -> exists r', qcom_smem_state_unregister a r = Ok (tt, r')) /\
  (forall a, a ∈ held -> exists r', qcom_smem_state_put a r = Ok (tt, r')) /\
  (forall dev con, exists x r', qcom_smem_state_get dev con r = Ok (x, r')) /\
  (forall a mask value, a ∈ held ->
     exists ret r', qcom_smem_state_update_bits a mask value r = Ok (ret, r') /\
       (a ∉ own -> ret = - ENXIO /\ r' = r)) /\
  (forall a, is_Some (objs r !! a) <-> a ∈ own \/ a ∈ held) /\
  (forall a o, objs r !! a = Some o ->
     refcount o = owns own a + Z.of_nat (multiplicity a held)).
Proof.
  intros [R O]%served_inv. split_and!.
  - intros a Ha. destruct (unregister_inv r own held a R Ha) as (r'&E&_). by exists r'.
  - intros a Ha. destruct (put_inv r own held a R Ha) as (r'&E&_). by exists r'.
  - intros dev con. destruct (get_inv r own held dev con R) as [[e E]|(a&o&b&E&_)]; eauto.
  - intros a mask value Ha. destruct (update_exec r own held a mask value R Ha) as (o&Ho&E).
    rewrite E. case_decide as Hd; [|by eexists _, _].
    pose proof (O a o Ho) as Ht. destruct (update_bits o) as [op|]; [|by eexists _, _].
    destruct (Ht (priv o) mask value (drv r)) as [[ret w] Hx]. unfold on_drv. rewrite Hx. by eexists _, _.
  - intros a. split; [|intros [H|H]; [by apply (ri_own _ _ _ R)|by apply (ri_held _ _ _ R)]].
    intros [o Ho]. destruct (ri_count _ _ _ R a o Ho) as [Hc Hp]. unfold owns in Hc.
    case_decide as Hd; [by left|right]. apply elem_of_mult. lia.
  - intros a o Ho. by apply (ri_count _ _ _ R).
Qed.
End handles.
