(* ===== verification/Smsm.v ===== *)
(** * Shared memory state machine (drivers/soc/qcom/smsm.c)

    Every system of the chip owns one word of state bits in shared memory and reads the
    others'.  A matrix in shared memory says which system wants to be interrupted when which
    bits of an entry change.  The driver offers its own word as a shared memory state and
    turns changed bits of the other words into interrupts. *)
From S2P Require Import Prelude CMem Smem SmemService SmemState.
Open Scope c_scope.

Definition SMEM_SMSM_SHARED_STATE : Z := 85.
Definition SMEM_SMSM_CPU_INTR_MASK : Z := 333.
Definition SMEM_SMSM_SIZE_INFO : Z := 419.
Definition SMSM_DEFAULT_NUM_ENTRIES : Z := 8.
Definition SMSM_DEFAULT_NUM_HOSTS : Z := 3.

(** The interrupt types of the kernel. *)
Definition IRQ_TYPE_EDGE_RISING : Z := 1.
Definition IRQ_TYPE_EDGE_FALLING : Z := 2.
Definition IRQ_TYPE_EDGE_BOTH : Z := 3.

(** ** Data *)

(** struct smsm_entry: pointers are addresses, 0 is NULL; the bitmaps are words. *)
Record smsm_entry := SmsmEntry {
  se_domain : Z;
  se_enabled : Z;
  se_rising : Z;
  se_falling : Z;
  se_last_value : Z;
  se_remote_state : Z;
  se_subscription : Z;
}.

Inductive regmap_ptr := RmNull | RmErr (e : Z) | Rm (r : Z).

(** struct smsm_host *)
Record smsm_host := SmsmHost {
  ipc_regmap : regmap_ptr;
  ipc_offset : Z;
  ipc_bit : Z;
}.

(** struct qcom_smsm *)
Record qcom_smsm := QcomSmsm {
  local_host : Z;
  num_hosts : Z;
  num_entries : Z;
  local_state : Z;
  subscription : Z;
  sm_state : Z;
  sm_entries : list smsm_entry;
  sm_hosts : list smsm_host;
}.

Definition zero_entry : smsm_entry := SmsmEntry 0 0 0 0 0 0 0.
Definition zero_host : smsm_host := SmsmHost RmNull 0 0.
Definition zero_smsm : qcom_smsm := QcomSmsm 0 0 0 0 0 0 [] [].

Definition with_sizes (s : qcom_smsm) (entries hosts : Z) : qcom_smsm :=
  QcomSmsm (local_host s) hosts entries (local_state s) (subscription s) (sm_state s)
    (sm_entries s) (sm_hosts s).
Definition with_arrays (s : qcom_smsm) (es : list smsm_entry) (hs : list smsm_host) : qcom_smsm :=
  QcomSmsm (local_host s) (num_hosts s) (num_entries s) (local_state s) (subscription s)
    (sm_state s) es hs.
Definition with_local (s : qcom_smsm) (h : Z) : qcom_smsm :=
  QcomSmsm h (num_hosts s) (num_entries s) (local_state s) (subscription s) (sm_state s)
    (sm_entries s) (sm_hosts s).
Definition with_pointers (s : qcom_smsm) (local sub state : Z) : qcom_smsm :=
  QcomSmsm (local_host s) (num_hosts s) (num_entries s) local sub state (sm_entries s) (sm_hosts s).

(** An entry is addressed by its driver object and its index. *)
Abbreviation entry_ptr := (Z * nat)%type.

(** The kernel below the driver: the shared memory and the handle of its manager, the driver
    objects, the interrupt domains with their [host_data], the interrupt handlers with
    theirs, the driver data of the device, the register writes that interrupt other systems
    and the nested interrupts raised, by domain and bit. *)
Record soc := Soc {
  sc_mem : mem;
  __smem : option qcom_smem;
  smsms : gmap Z qcom_smsm;
  domains : gmap Z entry_ptr;
  handlers : list (Z * entry_ptr);
  drvdata : Z;
  kicks : list (Z * Z * Z);
  fired : list (Z * Z);
}.

Definition set_mem (c : soc) (m : mem) : soc :=
  Soc m (__smem c) (smsms c) (domains c) (handlers c) (drvdata c) (kicks c) (fired c).
Definition set_smsms (f : gmap Z qcom_smsm -> gmap Z qcom_smsm) (c : soc) : soc :=
  Soc (sc_mem c) (__smem c) (f (smsms c)) (domains c) (handlers c) (drvdata c) (kicks c) (fired c).
Definition set_domains (f : gmap Z entry_ptr -> gmap Z entry_ptr) (c : soc) : soc :=
  Soc (sc_mem c) (__smem c) (smsms c) (f (domains c)) (handlers c) (drvdata c) (kicks c) (fired c).
Definition set_handlers (f : list (Z * entry_ptr) -> list (Z * entry_ptr)) (c : soc) : soc :=
  Soc (sc_mem c) (__smem c) (smsms c) (domains c) (f (handlers c)) (drvdata c) (kicks c) (fired c).
Definition set_drvdata (p : Z) (c : soc) : soc :=
  Soc (sc_mem c) (__smem c) (smsms c) (domains c) (handlers c) p (kicks c) (fired c).
Definition add_kick (k : Z * Z * Z) (c : soc) : soc :=
  Soc (sc_mem c) (__smem c) (smsms c) (domains c) (handlers c) (drvdata c) (kicks c ++ [k]) (fired c).
Definition add_fired (f : Z * Z) (c : soc) : soc :=
  Soc (sc_mem c) (__smem c) (smsms c) (domains c) (handlers c) (drvdata c) (kicks c) (fired c ++ [f]).

Definition on_mem {A} (k : ST mem A) : ST soc A :=
  fun c => match k (sc_mem c) with
           | Ok (a, m) => Ok (a, set_mem c m)
           | Fault => Fault
           | Loop => Loop
           end.

(** A driver object that was freed faults, and so does an index beyond its arrays. *)
Definition the_smsm (p : Z) : ST soc qcom_smsm :=
  fun c => match smsms c !! p with Some s => Ok (s, c) | None => Fault end.
Definition put_smsm (p : Z) (s : qcom_smsm) : ST soc unit := st_upd (set_smsms (<[p := s]>)).

Definition nth_entry (s : qcom_smsm) (id : nat) : ST soc smsm_entry :=
  fun c => match sm_entries s !! id with Some e => Ok (e, c) | None => Fault end.
Definition nth_host (s : qcom_smsm) (id : nat) : ST soc smsm_host :=
  fun c => match sm_hosts s !! id with Some h => Ok (h, c) | None => Fault end.
Definition set_entry (p : Z) (id : nat) (e : smsm_entry) : ST soc unit :=
  let! s := the_smsm p in
  put_smsm p (with_arrays s (<[id := e]> (sm_entries s)) (sm_hosts s)).

Definition readl (a : Z) : ST soc Z := on_mem (load32 a).
Definition writel (v a : Z) : ST soc unit := on_mem (store32 a v).

(** [p + n] for a pointer to 32-bit words. *)
Definition word_at (p n : Z) : Z := ptr_add p (4 * n).

(** ** The outgoing state *)

(** The hosts from [host] on, [n] of them: who wants a kick.  The test only excludes NULL; the
    use of an error pointer as a regmap is a fault. *)
Fixpoint kick_hosts (n : nat) (s : qcom_smsm) (changes : Z) (host : nat) : ST soc unit :=
  match n with
  | O => st_ret tt
  | S n =>
    let! hostp := nth_host s host in
    let! val := readl (word_at (subscription s) (Z.of_nat host)) in
    (if negb (Z.land val changes =? 0) then
       match ipc_regmap hostp with
       | Rm r => st_upd (add_kick (r, ipc_offset hostp, u32 (BIT (ipc_bit hostp))))
       | RmErr _ => fun _ => Fault
       | RmNull => st_ret tt
       end
     else st_ret tt) ;;;
    kick_hosts n s changes (S host)
  end.

Definition smsm_update_bits (data mask value : Z) : ST soc Z :=
  let! s := the_smsm data in
  let! orig := readl (local_state s) in
  let val := Z.lor (Z.ldiff orig mask) value in
  let changes := Z.lxor val orig in
  if changes =? 0 then st_ret 0 else
  writel val (local_state s) ;;;
  kick_hosts (Z.to_nat (num_hosts s)) s changes 0 ;;;
  st_ret 0.

(** ** Incoming interrupts *)

(** [handle_nested_irq] of the mapping of bit [i] in the domain: the handlers are recorded,
    not run; a domain that was removed faults. *)
Definition raise_nested (domain i : Z) : ST soc unit :=
  fun c => match domains c !! domain with
           | Some _ => Ok (tt, add_fired (domain, i) c)
           | None => Fault
           end.

(** The set bits of [irq_enabled] from [i] on, [n] of them. *)
Fixpoint cascade (n : nat) (e : smsm_entry) (val changed : Z) (i : Z) : ST soc unit :=
  match n with
  | O => st_ret tt
  | S n =>
    (if negb (Z.testbit (se_enabled e) i) then st_ret tt else
     if Z.land changed (BIT i) =? 0 then st_ret tt else
     if negb (Z.land val (BIT i) =? 0) then
       if Z.testbit (se_rising e) i then raise_nested (se_domain e) i else st_ret tt
     else
       if Z.testbit (se_falling e) i then raise_nested (se_domain e) i else st_ret tt) ;;;
    cascade n e val changed (i + 1)
  end.

Definition with_last_value (e : smsm_entry) (v : Z) : smsm_entry :=
  SmsmEntry (se_domain e) (se_enabled e) (se_rising e) (se_falling e) v (se_remote_state e)
    (se_subscription e).
Definition with_enabled (e : smsm_entry) (v : Z) : smsm_entry :=
  SmsmEntry (se_domain e) v (se_rising e) (se_falling e) (se_last_value e) (se_remote_state e)
    (se_subscription e).
Definition with_edges (e : smsm_entry) (r f : Z) : smsm_entry :=
  SmsmEntry (se_domain e) (se_enabled e) r f (se_last_value e) (se_remote_state e)
    (se_subscription e).
Definition with_remote (e : smsm_entry) (state sub : Z) : smsm_entry :=
  SmsmEntry (se_domain e) (se_enabled e) (se_rising e) (se_falling e) (se_last_value e) state sub.
Definition with_domain (e : smsm_entry) (d : Z) : smsm_entry :=
  SmsmEntry d (se_enabled e) (se_rising e) (se_falling e) (se_last_value e) (se_remote_state e)
    (se_subscription e).

Definition smsm_intr (data : entry_ptr) : ST soc unit :=
  let! s := the_smsm data.1 in
  let! e := nth_entry s data.2 in
  let! val := readl (se_remote_state e) in
  let changed := Z.lxor val (se_last_value e) in
  let e := with_last_value e val in
  set_entry data.1 data.2 e ;;;
  cascade 32 e val changed 0.

(** ** The interrupt chip: [irq] is the number of the bit, [data] the chip data. *)
Definition smsm_mask_irq (data : entry_ptr) (irq : Z) : ST soc unit :=
  let! s := the_smsm data.1 in
  let! e := nth_entry s data.2 in
  (if negb (se_subscription e =? 0) then
     let! val := readl (word_at (se_subscription e) (local_host s)) in
     writel (Z.ldiff val (BIT irq)) (word_at (se_subscription e) (local_host s))
   else st_ret tt) ;;;
  set_entry data.1 data.2 (with_enabled e (Z.clearbit (se_enabled e) irq)).

Definition smsm_unmask_irq (data : entry_ptr) (irq : Z) : ST soc unit :=
  let! s := the_smsm data.1 in
  let! e := nth_entry s data.2 in
  set_entry data.1 data.2 (with_enabled e (Z.setbit (se_enabled e) irq)) ;;;
  if negb (se_subscription e =? 0) then
    let! val := readl (word_at (se_subscription e) (local_host s)) in
    writel (Z.lor val (BIT irq)) (word_at (se_subscription e) (local_host s))
  else st_ret tt.

Definition smsm_set_irq_type (data : entry_ptr) (irq type : Z) : ST soc Z :=
  let! s := the_smsm data.1 in
  let! e := nth_entry s data.2 in
  if Z.land type IRQ_TYPE_EDGE_BOTH =? 0 then st_ret (- EINVAL) else
  let rising := if negb (Z.land type IRQ_TYPE_EDGE_RISING =? 0)
                then Z.setbit (se_rising e) irq else Z.clearbit (se_rising e) irq in
  let falling := if negb (Z.land type IRQ_TYPE_EDGE_FALLING =? 0)
                 then Z.setbit (se_falling e) irq else Z.clearbit (se_falling e) irq in
  set_entry data.1 data.2 (with_edges e rising falling) ;;;
  st_ret 0.

(** What [smsm_irq_map] sets for the interrupt: the chip data is the host data of the domain,
    and the handlers are nested in the thread of the parent. *)
Record irq_desc := IrqDesc { chip_data : entry_ptr; hwirq : Z; nested_thread : bool }.

Definition smsm_irq_map (d irq hw : Z) (descs : gmap Z irq_desc) : ST soc (Z * gmap Z irq_desc) :=
  fun c => match domains c !! d with
           | Some entry => Ok (0, <[irq := IrqDesc entry hw true]> descs, c)
           | None => Fault
           end.

(** ** Probe *)

(** The qcom,ipc-N property of a host: the regmap of its first cell or the error, then the
    results of reading the other two cells. *)
Record ipc_prop := IpcProp {
  ip_regmap : Z + Z;
  ip_offset : Z + Z;
  ip_bit : Z + Z;
}.

(** A child of the node of the device, with the answers of the kernel about it. *)
Record dt_child := DtChild {
  ch_node : Z;
  ch_state_cells : bool;
  ch_available : bool;
  ch_interrupt_controller : bool;
  ch_reg : Z + Z;
  ch_irq : Z;
  ch_request : Z;
  ch_domain : option Z;
}.

(** Addresses and results the kernel gives to one probe. *)
Record smsm_env := SmsmEnv {
  en_smsm : option Z;
  en_entries : bool;
  en_hosts : bool;
  en_children : list dt_child;
  en_local_host : option Z;
  en_ipc : nat -> option ipc_prop;
  en_lock : nat -> Z;
  en_state : option Z;
}.

Definition smsm_parse_ipc (ipc : option ipc_prop) (p : Z) (host_id : nat) : ST soc Z :=
  let! s := the_smsm p in
  let! h := nth_host s host_id in
  let store h := put_smsm p (with_arrays s (sm_entries s) (<[host_id := h]> (sm_hosts s))) in
  match ipc with
  | None => st_ret 0
  | Some prop =>
    match ip_regmap prop with
    | inl e => store (SmsmHost (RmErr e) (ipc_offset h) (ipc_bit h)) ;;; st_ret e
    | inr r =>
      match ip_offset prop with
      | inl _ => store (SmsmHost (Rm r) (ipc_offset h) (ipc_bit h)) ;;; st_ret (- EINVAL)
      | inr off =>
        match ip_bit prop with
        | inl _ => store (SmsmHost (Rm r) off (ipc_bit h)) ;;; st_ret (- EINVAL)
        | inr bit => store (SmsmHost (Rm r) off bit) ;;; st_ret 0
        end
      end
    end
  end.

Fixpoint parse_hosts (n : nat) (ipc : nat -> option ipc_prop) (p : Z) (id : nat) : ST soc Z :=
  match n with
  | O => st_ret 0
  | S n =>
    let! ret := smsm_parse_ipc (ipc id) p id in
    if ret <? 0 then st_ret ret else parse_hosts n ipc p (S id)
  end.

Definition smsm_inbound_entry (data : entry_ptr) (child : dt_child) : ST soc Z :=
  if ch_irq child =? 0 then st_ret (- EINVAL) else
  if negb (ch_request child =? 0) then st_ret (ch_request child) else
  st_upd (set_handlers (fun l => (ch_irq child, data) :: l)) ;;;
  let! s := the_smsm data.1 in
  let! e := nth_entry s data.2 in
  match ch_domain child with
  | None => set_entry data.1 data.2 (with_domain e 0) ;;; st_ret (- ENOMEM)
  | Some d =>
    st_upd (set_domains (<[d := data]>)) ;;;
    set_entry data.1 data.2 (with_domain e d) ;;;
    st_ret 0
  end.

(** struct { num_hosts, num_entries, reserved0, reserved1 } *)
Definition sizeof_size_info : Z := 16.

Definition smsm_get_size_info (lock_ret : Z) (p : Z) : ST soc Z :=
  let! smem := st_get __smem in
  let! info := on_mem (qcom_smem_get lock_ret smem QCOM_SMEM_HOST_ANY SMEM_SMSM_SIZE_INFO true) in
  let! s := the_smsm p in
  let defaults :=
    put_smsm p (with_sizes s SMSM_DEFAULT_NUM_ENTRIES SMSM_DEFAULT_NUM_HOSTS) ;;; st_ret 0 in
  match info with
  | (ErrPtr e, _) => if negb (e =? - ENOENT) then st_ret e else defaults
  | (Ptr a, size) =>
    if negb (default 0 size =? sizeof_size_info) then defaults else
    let! entries := readl (a + 4) in
    let! hosts := readl a in
    put_smsm p (with_sizes s entries hosts) ;;; st_ret 0
  end.

(** The available children with an interrupt controller are the entries of interest; the
    result is 0 or the error the probe unwinds with. *)
Fixpoint inbound_children (l : list dt_child) (p states intr_mask : Z) : ST soc Z :=
  match l with
  | [] => st_ret 0
  | child :: l =>
    if negb (ch_available child) || negb (ch_interrupt_controller child)
    then inbound_children l p states intr_mask else
    match ch_reg child with
    | inl ret => st_ret ret
    | inr id =>
      let! s := the_smsm p in
      if id >=? num_entries s then st_ret (- EINVAL) else
      let! e := nth_entry s (Z.to_nat id) in
      let sub := word_at intr_mask (u32 (id * num_hosts s)) in
      set_entry p (Z.to_nat id) (with_remote e (word_at states id) sub) ;;;
      writel 0 (word_at sub (local_host s)) ;;;
      let! ret := smsm_inbound_entry (p, Z.to_nat id) child in
      if ret <? 0 then st_ret ret else inbound_children l p states intr_mask
    end
  end.

(** [irq_domain_remove]: the pointer in the entry stays. *)
Definition irq_domain_remove (d : Z) : ST soc unit :=
  fun c => match domains c !! d with
           | Some _ => Ok (tt, set_domains (delete d) c)
           | None => Fault
           end.

Fixpoint remove_domains (n : nat) (p : Z) (id : nat) : ST soc unit :=
  match n with
  | O => st_ret tt
  | S n =>
    let! s := the_smsm p in
    let! e := nth_entry s id in
    (if negb (se_domain e =? 0) then irq_domain_remove (se_domain e) else st_ret tt) ;;;
    remove_domains n p (S id)
  end.

(** The label [unwind_interfaces], which is also the body of the remove function. *)
Definition unwind_interfaces (p : Z) : ST (registry soc) unit :=
  let! s := on_drv (the_smsm p) in
  on_drv (remove_domains (Z.to_nat (num_entries s)) p 0) ;;;
  qcom_smem_state_unregister (sm_state s).

(** [qcom_smem_alloc] and [qcom_smem_get] of one of the two regions: the address or the
    error the probe returns. *)
Definition acquire (alloc_lock get_lock item size : Z) : ST soc (Z + Z) :=
  let! smem := st_get __smem in
  let! ret := on_mem (qcom_smem_alloc alloc_lock smem QCOM_SMEM_HOST_ANY item size) in
  if (ret <? 0) && negb (ret =? - EEXIST) then st_ret (inl ret) else
  let! r := on_mem (qcom_smem_get get_lock smem QCOM_SMEM_HOST_ANY item false) in
  match r.1 with
  | ErrPtr e => st_ret (inl e)
  | Ptr a => st_ret (inr a)
  end.

(** The probe up to the two regions: the addresses of the state words and of the matrix. *)
Definition smsm_probe_regions (env : smsm_env) (p : Z) : ST soc (Z + Z * Z) :=
  put_smsm p zero_smsm ;;;
  let! ret := smsm_get_size_info (en_lock env 0) p in
  if negb (ret =? 0) then st_ret (inl ret) else
  let! s := the_smsm p in
  if negb (en_entries env) then st_ret (inl (- ENOMEM)) else
  if negb (en_hosts env) then st_ret (inl (- ENOMEM)) else
  put_smsm p (with_arrays s (replicate (Z.to_nat (num_entries s)) zero_entry)
                            (replicate (Z.to_nat (num_hosts s)) zero_host)) ;;;
  if negb (existsb ch_state_cells (en_children env)) then st_ret (inl (- EINVAL)) else
  let! s := the_smsm p in
  put_smsm p (with_local s (default 0 (en_local_host env))) ;;;
  let! ret := parse_hosts (Z.to_nat (num_hosts s)) (en_ipc env) p 0 in
  if ret <? 0 then st_ret (inl ret) else
  let! states := acquire (en_lock env 1) (en_lock env 2) SMEM_SMSM_SHARED_STATE
                   (u64 (num_entries s * 4)) in
  match states with
  | inl ret => st_ret (inl ret)
  | inr states =>
    let! intr_mask := acquire (en_lock env 3) (en_lock env 4) SMEM_SMSM_CPU_INTR_MASK
                        (u64 (u32 (num_entries s * num_hosts s) * 4)) in
    match intr_mask with
    | inl ret => st_ret (inl ret)
    | inr intr_mask => st_ret (inr (states, intr_mask))
    end
  end.

(** The entries, and the end of the probe. *)
Definition smsm_probe_entries (env : smsm_env) (p states intr_mask : Z) : ST (registry soc) Z :=
  let! ret := on_drv (inbound_children (en_children env) p states intr_mask) in
  if negb (ret =? 0) then unwind_interfaces p ;;; st_ret ret
  else on_drv (st_upd (set_drvdata p)) ;;; st_ret 0.

(** The pointers to the own words and the outgoing state. *)
Definition smsm_probe_state (env : smsm_env) (p states intr_mask : Z) : ST (registry soc) Z :=
  let! s := on_drv (the_smsm p) in
  let local := word_at states (local_host s) in
  let sub := word_at intr_mask (u32 (local_host s * num_hosts s)) in
  on_drv (put_smsm p (with_pointers s local sub 0)) ;;;
  let np := default 0 (ch_node <$> head (filter (fun c => ch_state_cells c = true) (en_children env))) in
  let! state := qcom_smem_state_register (en_state env) np (Some smsm_update_bits) p in
  match state with
  | inl e => on_drv (put_smsm p (with_pointers s local sub e)) ;;; st_ret e
  | inr a =>
    on_drv (put_smsm p (with_pointers s local sub a)) ;;;
    smsm_probe_entries env p states intr_mask
  end.

Definition qcom_smsm_probe (env : smsm_env) : ST (registry soc) Z :=
  match en_smsm env with
  | None => st_ret (- ENOMEM)
  | Some p =>
    let! regions := on_drv (smsm_probe_regions env p) in
    match regions with
    | inl ret => st_ret ret
    | inr (states, intr_mask) => smsm_probe_state env p states intr_mask
    end
  end.

Definition qcom_smsm_remove : ST (registry soc) Z :=
  let! p := on_drv (st_get drvdata) in
  unwind_interfaces p ;;; st_ret 0.

(** What the driver core releases after a failed probe or a remove: the interrupts and the
    memory of the driver object. *)
Definition devres_release (p : Z) (c : soc) : soc :=
  set_smsms (delete p) (set_handlers (filter (fun h => h.2.1 <> p)) c).
