(* ===== verification/SmsmOps.v ===== *)
(** * The words of the shared memory state machine, and what the operations do to them

    [layout] says where the state words and the subscription matrix are; [smsm_on] that a
    driver object points to the right ones.  Each operation of the driver is then a function
    of the words and the object. *)
From S2P Require Import Prelude CMem Smem SmemService SmemState Smsm.

(** ** Words *)
Record layout := Layout {
  l_states : Z;
  l_intr : Z;
  l_entries : Z;
  l_hosts : Z;
}.

Definition state_addr (L : layout) (i : Z) : Z := l_states L + 4 * i.
Definition sub_addr (L : layout) (i h : Z) : Z := l_intr L + 4 * (i * l_hosts L + h).
Definition state_word (L : layout) (m : mem) (i : Z) : Z := rd32 m (state_addr L i).
Definition sub_word (L : layout) (m : mem) (i h : Z) : Z := rd32 m (sub_addr L i h).

Record words_ok (L : layout) (m : mem) : Prop := {
  wo_window : 0 <= m_base m /\ m_base m + m_size m < 2 ^ 64;
  wo_pos : 0 < l_states L /\ 0 < l_intr L /\ 0 < l_entries L /\ 0 < l_hosts L;
  wo_small : l_entries L * l_hosts L < 2 ^ 32;
  wo_states : m_base m <= l_states L /\ l_states L + 4 * l_entries L <= m_base m + m_size m;
  wo_intr : m_base m <= l_intr L /\
    l_intr L + 4 * (l_entries L * l_hosts L) <= m_base m + m_size m;
  wo_apart : l_states L + 4 * l_entries L <= l_intr L \/
    l_intr L + 4 * (l_entries L * l_hosts L) <= l_states L;
}.

Definition entry_id (L : layout) (i : Z) : Prop := 0 <= i < l_entries L.
Definition host_id (L : layout) (h : Z) : Prop := 0 <= h < l_hosts L.

Lemma words_ok_frame L m m' : m_base m' = m_base m -> m_size m' = m_size m ->
  words_ok L m -> words_ok L m'.
Proof. intros Hb Hs []. constructor; rewrite ?Hb, ?Hs; done. Qed.

Lemma words_ok_store L m a v : words_ok L m -> words_ok L (wr32 m a v).
Proof. apply words_ok_frame; by mem_frame. Qed.

(** The place of a matrix element, inside the matrix and different for different indices. *)
Lemma sub_index_range L i h : entry_id L i -> host_id L h ->
  0 <= i * l_hosts L + h < l_entries L * l_hosts L.
Proof. unfold entry_id, host_id. nia. Qed.

Lemma sub_index_inj L i h i' h' : host_id L h -> host_id L h' -> (i, h) <> (i', h') ->
  i * l_hosts L + h <> i' * l_hosts L + h'.
Proof.
  unfold host_id. intros Hh Hh' Hne E. apply Hne.
  assert (i = i') as -> by (destruct (Z.lt_trichotomy i i') as [?|[?|?]]; [exfalso; nia|done|exfalso; nia]).
  f_equal. lia.
Qed.

Section words.
Context (L : layout) (m : mem).
Hypothesis (K : words_ok L m).

Lemma state_addr_in i : entry_id L i ->
  m_base m <= state_addr L i /\ state_addr L i + Z.of_nat 4 <= m_base m + m_size m.
Proof. destruct K. unfold entry_id, state_addr. lia. Qed.

Lemma sub_addr_in i h : entry_id L i -> host_id L h ->
  m_base m <= sub_addr L i h /\ sub_addr L i h + Z.of_nat 4 <= m_base m + m_size m.
Proof. intros Hi Hh. pose proof (sub_index_range L i h Hi Hh). destruct K. unfold sub_addr. lia. Qed.

(** Writing a state word. *)
Lemma state_word_set i j v : entry_id L i -> entry_id L j ->
  state_word L (wr32 m (state_addr L i) v) j = if decide (j = i) then u32 v else state_word L m j.
Proof.
  intros Hi Hj. unfold state_word. case_decide as Hd; [by rewrite Hd, rd32_wr32|].
  apply le_load_store_disj. unfold state_addr. lia.
Qed.

Lemma sub_word_state i v j h : entry_id L i -> entry_id L j -> host_id L h ->
  sub_word L (wr32 m (state_addr L i) v) j h = sub_word L m j h.
Proof.
  intros Hi Hj Hh. pose proof (sub_index_range L j h Hj Hh). destruct K.
  apply le_load_store_disj. unfold state_addr, sub_addr, entry_id in *. lia.
Qed.

(** Writing an element of the matrix. *)
Lemma sub_word_set i h j h' v : entry_id L i -> host_id L h -> entry_id L j -> host_id L h' ->
  sub_word L (wr32 m (sub_addr L i h) v) j h' =
    if decide ((j, h') = (i, h)) then u32 v else sub_word L m j h'.
Proof.
  intros Hi Hh Hj Hh'. unfold sub_word. case_decide as Hd; [simplify_eq; by rewrite rd32_wr32|].
  pose proof (sub_index_inj L j h' i h Hh' Hh Hd). apply le_load_store_disj. unfold sub_addr. lia.
Qed.

Lemma state_word_sub i h v j : entry_id L i -> host_id L h -> entry_id L j ->
  state_word L (wr32 m (sub_addr L i h) v) j = state_word L m j.
Proof.
  intros Hi Hh Hj. pose proof (sub_index_range L i h Hi Hh). destruct K.
  apply le_load_store_disj. unfold state_addr, sub_addr, entry_id in *. lia.
Qed.

(** The pointer arithmetic of the source reaches the words. *)
Lemma word_at_state i : entry_id L i -> word_at (l_states L) i = state_addr L i.
Proof. destruct K. unfold entry_id, word_at, state_addr. intros. apply ptr_add_id. lia. Qed.

Lemma word_at_row i : entry_id L i ->
  word_at (l_intr L) (u32 (i * l_hosts L)) = sub_addr L i 0.
Proof.
  intros Hi. assert (0 <= i * l_hosts L < l_entries L * l_hosts L)
    by (destruct K; unfold entry_id in Hi; nia).
  destruct K. unfold word_at, sub_addr. rewrite u32_id by lia. rewrite ptr_add_id by lia. lia.
Qed.

Lemma word_at_sub i h : entry_id L i -> host_id L h -> word_at (sub_addr L i 0) h = sub_addr L i h.
Proof.
  intros Hi Hh. pose proof (sub_index_range L i h Hi Hh). destruct K. unfold host_id in Hh.
  unfold word_at, sub_addr. rewrite ptr_add_id by nia. lia.
Qed.

Lemma sub_addr_pos i : entry_id L i -> sub_addr L i 0 <> 0.
Proof. destruct K. unfold entry_id, sub_addr. nia. Qed.
End words.

(** ** Accesses of the driver *)
Lemma readl_ok a c : m_base (sc_mem c) <= a -> a + Z.of_nat 4 <= m_base (sc_mem c) + m_size (sc_mem c) ->
  readl a c = Ok (rd32 (sc_mem c) a, c).
Proof. intros. unfold readl, on_mem. rewrite load_ok by done. by destruct c. Qed.

Lemma writel_ok v a c : m_base (sc_mem c) <= a -> a + Z.of_nat 4 <= m_base (sc_mem c) + m_size (sc_mem c) ->
  writel v a c = Ok (tt, set_mem c (wr32 (sc_mem c) a v)).
Proof. intros. unfold writel, on_mem. by rewrite store_ok. Qed.

Lemma the_smsm_ok p s c : smsms c !! p = Some s -> the_smsm p c = Ok (s, c).
Proof. unfold the_smsm. by intros ->. Qed.

Lemma nth_entry_ok s id e c : sm_entries s !! id = Some e -> nth_entry s id c = Ok (e, c).
Proof. unfold nth_entry. by intros ->. Qed.

Lemma nth_host_ok s id h c : sm_hosts s !! id = Some h -> nth_host s id c = Ok (h, c).
Proof. unfold nth_host. by intros ->. Qed.

Definition upd_entry (s : qcom_smsm) (id : nat) (e : smsm_entry) : qcom_smsm :=
  with_arrays s (<[id := e]> (sm_entries s)) (sm_hosts s).

Lemma set_entry_ok p id e s c : smsms c !! p = Some s ->
  set_entry p id e c = Ok (tt, set_smsms (<[p := upd_entry s id e]>) c).
Proof. intros H. unfold set_entry. by rewrite (st_bind_ok _ _ _ _ _ (the_smsm_ok _ _ _ H)). Qed.

(** ** A driver object on the words *)

(** An entry of the device tree points to its word and its row; the others are unused. *)
Definition entry_on (L : layout) (id : nat) (e : smsm_entry) : Prop :=
  (se_domain e = 0 /\ se_subscription e = 0) \/
  (se_domain e <> 0 /\ se_remote_state e = state_addr L (Z.of_nat id) /\
   se_subscription e = sub_addr L (Z.of_nat id) 0).

Record smsm_on (L : layout) (h : Z) (s : qcom_smsm) : Prop := {
  on_host : local_host s = h /\ entry_id L h /\ host_id L h;
  on_sizes : num_hosts s = l_hosts L /\ num_entries s = l_entries L;
  on_local : local_state s = state_addr L h /\ subscription s = sub_addr L h 0;
  on_lengths : Z.of_nat (length (sm_entries s)) = l_entries L /\
    Z.of_nat (length (sm_hosts s)) = l_hosts L;
  on_entries id e : sm_entries s !! id = Some e -> entry_on L id e;
  on_regmaps i hst e : sm_hosts s !! i = Some hst -> ipc_regmap hst <> RmErr e;
}.

Lemma entry_lookup_id L h s id e : smsm_on L h s -> sm_entries s !! id = Some e ->
  entry_id L (Z.of_nat id).
Proof.
  intros O Hid. apply lookup_lt_Some in Hid. destruct (on_lengths _ _ _ O). unfold entry_id. lia.
Qed.

Lemma smsm_on_upd L h s id e : smsm_on L h s -> entry_on L id e -> smsm_on L h (upd_entry s id e).
Proof.
  intros [O1 O2 O3 O4 O5 O6] He. constructor; cbn [upd_entry with_arrays local_host num_hosts num_entries
    local_state subscription sm_entries sm_hosts]; rewrite ?length_insert; try done.
  intros j e' Hj. destruct (decide (j = id)) as [->|Hne].
  - apply list_lookup_insert_Some in Hj as [(_&->&_)|(Hn&_)]; done.
  - rewrite list_lookup_insert_ne in Hj by done. by apply O5.
Qed.

(** ** Ranges of words *)
Lemma ldiff_range x y : 0 <= x < 2 ^ 32 -> 0 <= Z.ldiff x y < 2 ^ 32.
Proof.
  intros Hx. assert (0 <= Z.ldiff x y) by (apply Z.ldiff_nonneg; lia). split; [done|].
  apply (Z.le_lt_trans _ x); [|lia]. apply Z.ldiff_le; [lia|].
  apply Z.bits_inj'. intros n Hn. rewrite !Z.ldiff_spec, Z.bits_0.
  by destruct (Z.testbit x n), (Z.testbit y n).
Qed.

Lemma lor_range x y : 0 <= x < 2 ^ 32 -> 0 <= y < 2 ^ 32 -> 0 <= Z.lor x y < 2 ^ 32.
Proof.
  intros Hx Hy. assert (0 <= Z.lor x y) by (apply Z.lor_nonneg; lia). split; [done|].
  destruct (decide (Z.lor x y = 0)) as [->|]; [lia|]. apply Z.log2_lt_pow2; [lia|].
  rewrite Z.log2_lor by lia. apply Z.max_lub_lt.
  - destruct (decide (x = 0)) as [->|]; [done|]. apply Z.log2_lt_pow2; lia.
  - destruct (decide (y = 0)) as [->|]; [done|]. apply Z.log2_lt_pow2; lia.
Qed.

Lemma clearbit_range x i : 0 <= x < 2 ^ 32 -> 0 <= Z.clearbit x i < 2 ^ 32.
Proof. apply ldiff_range. Qed.

Lemma setbit_range x i : 0 <= i < 32 -> 0 <= x < 2 ^ 32 -> 0 <= Z.setbit x i < 2 ^ 32.
Proof.
  intros Hi Hx. rewrite Z.setbit_spec'. apply lor_range; [done|].
  split; [apply Z.pow_nonneg; lia|]. apply Z.pow_lt_mono_r; lia.
Qed.

(** ** Changing the outgoing state *)
Definition new_word (orig mask value : Z) : Z := Z.lor (Z.ldiff orig mask) value.

(** The register write that interrupts a host, if it wants one of the changed bits. *)
Definition kick_of (h : smsm_host) (val changes : Z) : list (Z * Z * Z) :=
  if negb (Z.land val changes =? 0) then
    match ipc_regmap h with
    | Rm r => [(r, ipc_offset h, u32 (BIT (ipc_bit h)))]
    | _ => []
    end
  else [].

Fixpoint kick_list (hs : list smsm_host) (sub : nat -> Z) (changes : Z) (host : nat)
    : list (Z * Z * Z) :=
  match hs with
  | [] => []
  | h :: hs => kick_of h (sub host) changes ++ kick_list hs sub changes (S host)
  end.

Definition add_kicks (ks : list (Z * Z * Z)) (c : soc) : soc :=
  Soc (sc_mem c) (__smem c) (smsms c) (domains c) (handlers c) (drvdata c) (kicks c ++ ks) (fired c).

Lemma add_kicks_nil c : add_kicks [] c = c.
Proof. unfold add_kicks. rewrite app_nil_r. by destruct c. Qed.
Lemma add_kicks_app k1 k2 c : add_kicks k2 (add_kicks k1 c) = add_kicks (k1 ++ k2) c.
Proof. unfold add_kicks. cbn [kicks sc_mem __smem smsms domains handlers drvdata fired]. by rewrite <-app_assoc. Qed.

(** One host of the loop. *)
Lemma kick_one_ok (h : smsm_host) val changes c : (forall e, ipc_regmap h <> RmErr e) ->
  (if negb (Z.land val changes =? 0) then
     match ipc_regmap h with
     | Rm r => st_upd (add_kick (r, ipc_offset h, u32 (BIT (ipc_bit h))))
     | RmErr _ => fun _ => Fault
     | RmNull => st_ret tt
     end
   else st_ret tt) c = Ok (tt, add_kicks (kick_of h val changes) c).
Proof.
  intros He. unfold kick_of. case_if; [|by rewrite add_kicks_nil].
  destruct (ipc_regmap h) as [|e|r]; [by rewrite add_kicks_nil|by destruct (He e)|done].
Qed.

Lemma kick_hosts_exec L s changes : forall hs n host c,
  words_ok L (sc_mem c) -> entry_id L (local_host s) -> subscription s = sub_addr L (local_host s) 0 ->
  Z.of_nat (length (sm_hosts s)) = l_hosts L ->
  (forall i hst e, sm_hosts s !! i = Some hst -> ipc_regmap hst <> RmErr e) ->
  drop host (sm_hosts s) = hs -> n = length hs ->
  kick_hosts n s changes host c =
    Ok (tt, add_kicks (kick_list hs (fun i => sub_word L (sc_mem c) (local_host s) (Z.of_nat i))
                         changes host) c).
Proof.
  induction hs as [|h hs IH]; intros n host c K Hl Hs Hlen He Hd ->; cbn [length kick_hosts kick_list].
  { by rewrite add_kicks_nil. }
  assert (Hh : sm_hosts s !! host = Some h).
  { rewrite <-(Nat.add_0_r host), <-lookup_drop, Hd. done. }
  assert (Hid : host_id L (Z.of_nat host)).
  { apply lookup_lt_Some in Hh. unfold host_id. lia. }
  rewrite (st_bind_ok _ _ _ _ _ (nth_host_ok s host h c Hh)).
  rewrite Hs, (word_at_sub L (sc_mem c) K) by done.
  destruct (sub_addr_in L (sc_mem c) K (local_host s) (Z.of_nat host) Hl Hid) as [A1 A2].
  rewrite (st_bind_ok _ _ _ _ _ (readl_ok _ c A1 A2)).
  rewrite (st_bind_ok _ _ _ _ _ (kick_one_ok h _ changes c (fun e => He host h e Hh))).
  rewrite IH; [|done..| |done].
  - by rewrite add_kicks_app.
  - change (S host) with (1 + host)%nat. rewrite Nat.add_comm, <-drop_drop, Hd. done.
Qed.

(** The kicks of a change, host by host: the register of every host whose word among
    [words] has one of the changed bits. *)
Definition rings (words : nat -> Z) (changes : Z) (host : nat) (hst : smsm_host) : option (Z * Z * Z) :=
  match ipc_regmap hst with
  | Rm r => if decide (Z.land (words host) changes = 0) then None
            else Some (r, ipc_offset hst, u32 (BIT (ipc_bit hst)))
  | _ => None
  end.

Lemma kick_list_rings words changes : forall hs host,
  kick_list hs words changes host = omap id (imap (fun i hst => rings words changes (host + i) hst) hs).
Proof.
  induction hs as [|x hs IH]; intros host; cbn [kick_list imap]; [done|].
  assert (Ht : imap ((fun i hst => rings words changes (host + i) hst) ∘ S) hs =
    imap (fun i hst => rings words changes (S host + i) hst) hs).
  { apply imap_ext. intros i y _. cbn. by rewrite Nat.add_succ_r. }
  rewrite IH, Ht, Nat.add_0_r. cbn [omap list_omap]. unfold kick_of, rings at 2, id at 2.
  destruct (ipc_regmap x), (decide (Z.land (words host) changes = 0)) as [H|H]; cbn [id];
    try (rewrite (proj2 (Z.eqb_eq _ _) H); cbn [negb app]); try (rewrite (proj2 (Z.eqb_neq _ _) H); cbn [negb app]);
    done.
Qed.

Lemma kick_list_none words hs : forall host, kick_list hs words 0 host = [].
Proof. induction hs as [|x hs IH]; intros host; cbn [kick_list]; [done|]. unfold kick_of. by rewrite Z.land_0_r, IH. Qed.

Lemma rings_elem words changes hs i h r : hs !! i = Some h -> ipc_regmap h = Rm r ->
  Z.land (words i) changes <> 0 ->
  (r, ipc_offset h, u32 (BIT (ipc_bit h))) ∈ omap id (imap (rings words changes) hs).
Proof.
  intros Hi Hr Hl. apply list_elem_of_omap. exists (rings words changes i h). split.
  - apply list_elem_of_lookup. exists i. by rewrite list_lookup_imap, Hi.
  - unfold rings. by rewrite Hr, decide_False.
Qed.

(** Bit by bit: a bit of the value is set, of the others those of the mask are cleared. *)
Lemma new_word_bit orig mask value i : 0 <= i ->
  Z.testbit (new_word orig mask value) i =
    if Z.testbit value i then true else if Z.testbit mask i then false else Z.testbit orig i.
Proof.
  intros Hi. unfold new_word. rewrite Z.lor_spec, Z.ldiff_spec.
  by destruct (Z.testbit orig i), (Z.testbit mask i), (Z.testbit value i).
Qed.

Section update.
Context (L : layout) (h p : Z) (s : qcom_smsm) (c : soc).
Hypothesis (K : words_ok L (sc_mem c)) (O : smsm_on L h s) (Hp : smsms c !! p = Some s).

Definition updated (mask value : Z) : soc :=
  let orig := state_word L (sc_mem c) h in
  let val := new_word orig mask value in
  if Z.lxor val orig =? 0 then c else
  add_kicks (kick_list (sm_hosts s) (fun i => sub_word L (sc_mem c) h (Z.of_nat i)) (Z.lxor val orig) 0)
    (set_mem c (wr32 (sc_mem c) (state_addr L h) val)).

Lemma kick_list_ext hs f g changes : forall host,
  (forall i, (host <= i < host + length hs)%nat -> f i = g i) ->
  kick_list hs f changes host = kick_list hs g changes host.
Proof.
  induction hs as [|x hs IH]; intros host H; cbn [kick_list]; [done|].
  rewrite (H host) by (cbn; lia). f_equal. apply IH. intros i Hi. apply H. cbn. lia.
Qed.

Lemma update_bits_exec mask value :
  smsm_update_bits p mask value c = Ok (0, updated mask value).
Proof.
  destruct (on_host _ _ _ O) as (Hl&He&Hh). destruct (on_local _ _ _ O) as [Hls Hsub].
  destruct (on_sizes _ _ _ O) as [Hn _]. destruct (on_lengths _ _ _ O) as [_ Hlen].
  destruct (state_addr_in L (sc_mem c) K h He) as [A1 A2].
  unfold smsm_update_bits. rewrite (st_bind_ok _ _ _ _ _ (the_smsm_ok _ _ _ Hp)).
  rewrite Hls, (st_bind_ok _ _ _ _ _ (readl_ok _ c A1 A2)). fold (state_word L (sc_mem c) h).
  unfold updated. fold (new_word (state_word L (sc_mem c) h) mask value).
  case_if; [done|]. rewrite (st_bind_ok _ _ _ _ _ (writel_ok _ _ c A1 A2)).
  erewrite st_bind_ok.
  2: { apply (kick_hosts_exec L s _ (sm_hosts s)); rewrite ?Hl; try done.
       - by apply words_ok_store.
       - apply (on_regmaps _ _ _ O).
       - rewrite Hn. lia. }
  unfold st_ret. do 3 f_equal. apply kick_list_ext. intros i Hi. cbn [sc_mem set_mem]. rewrite Hl.
  apply sub_word_state; try done. unfold host_id. lia.
Qed.
End update.

(** ** Incoming interrupts *)

(** Whether bit [i] is raised: enabled, changed, and its edge selected. *)
Definition fires (e : smsm_entry) (val last i : Z) : bool :=
  Z.testbit (se_enabled e) i && xorb (Z.testbit val i) (Z.testbit last i) &&
  (if Z.testbit val i then Z.testbit (se_rising e) i else Z.testbit (se_falling e) i).

Definition add_fires (fs : list (Z * Z)) (c : soc) : soc :=
  Soc (sc_mem c) (__smem c) (smsms c) (domains c) (handlers c) (drvdata c) (kicks c) (fired c ++ fs).

Lemma land_BIT_0 x i : 0 <= i -> (Z.land x (BIT i) =? 0) = negb (Z.testbit x i).
Proof.
  intros Hi. unfold BIT. rewrite Z.shiftl_1_l. destruct (Z.testbit x i) eqn:E; cbn [negb].
  - apply Z.eqb_neq. intros H. apply (f_equal (fun z => Z.testbit z i)) in H.
    rewrite Z.land_spec, E, Z.pow2_bits_true, Z.bits_0 in H by lia. done.
  - apply Z.eqb_eq. apply Z.bits_inj'. intros n Hn. rewrite Z.land_spec, Z.bits_0, Z.pow2_bits_eqb by lia.
    destruct (i =? n) eqn:Ei; [|by rewrite andb_false_r]. replace n with i by lia. by rewrite E.
Qed.

Definition raised (e : smsm_entry) (val last : Z) (l : list Z) : list (Z * Z) :=
  (fun i => (se_domain e, i)) <$> filter (fun i => fires e val last i = true) l.

Lemma cascade_exec e val last d : forall n i c, 0 <= i -> domains c !! se_domain e = Some d ->
  cascade n e val (Z.lxor val last) i c =
    Ok (tt, add_fires (raised e val last (seqZ i (Z.of_nat n))) c).
Proof.
  induction n as [|n IH]; intros i c Hi Hd.
  { unfold add_fires. cbn. rewrite app_nil_r. by destruct c. }
  cbn [cascade]. rewrite !land_BIT_0, Z.lxor_spec by lia.
  rewrite seqZ_cons by lia. replace (Z.pred (Z.of_nat (S n))) with (Z.of_nat n) by lia.
  set (f := fires e val last i).
  rewrite (st_bind_ok _ _ c tt (add_fires (if f then [(se_domain e, i)] else []) c)).
  - rewrite IH by (done || lia). unfold raised. rewrite filter_cons. fold f.
    replace (Z.succ i) with (i + 1) by lia. unfold add_fires.
    cbn [fired sc_mem __smem smsms domains handlers drvdata kicks]. do 3 f_equal.
    rewrite <-app_assoc. f_equal. by destruct f.
  - assert (Hnil : Ok (tt, c) = Ok (tt, add_fires [] c))
      by (unfold add_fires; rewrite app_nil_r; by destruct c).
    assert (Hone : raise_nested (se_domain e) i c = Ok (tt, add_fires [(se_domain e, i)] c))
      by (unfold raise_nested; by rewrite Hd).
    subst f. unfold fires.
    destruct (Z.testbit (se_enabled e) i), (Z.testbit val i), (Z.testbit last i),
      (Z.testbit (se_rising e) i), (Z.testbit (se_falling e) i); cbn [negb xorb andb];
      first [exact Hnil | exact Hone].
Qed.

(** A raised bit is enabled and changed. *)
Lemma raised_some e val last n : raised e val last (seqZ 0 n) <> [] ->
  exists i, 0 <= i < n /\ Z.testbit (se_enabled e) i = true /\ Z.testbit (Z.lxor val last) i = true.
Proof.
  unfold raised. destruct (filter _ _) as [|i l] eqn:Hf; [done|]. intros _. exists i.
  assert (Hi : i ∈ i :: l) by (by left). rewrite <-Hf in Hi.
  apply list_elem_of_filter in Hi as [Hi Hin]. apply elem_of_seqZ in Hin.
  unfold fires in Hi. rewrite Z.lxor_spec. apply andb_prop in Hi as [Hi _]. apply andb_prop in Hi as [? ?].
  split_and!; try done; lia.
Qed.

Lemma land_bit x y i : 0 <= i -> Z.testbit x i = true -> Z.testbit y i = true -> Z.land x y <> 0.
Proof.
  intros Hi Hx Hy H0. apply (f_equal (fun z => Z.testbit z i)) in H0.
  by rewrite Z.land_spec, Hx, Hy, Z.bits_0 in H0.
Qed.

(** An entry the driver listens to: its words, and its live domain. *)
Record entry_live (L : layout) (h p : Z) (s : qcom_smsm) (c : soc) (id : nat) (e : smsm_entry) : Prop := {
  el_entry : sm_entries s !! id = Some e;
  el_id : entry_id L (Z.of_nat id);
  el_state : se_remote_state e = state_addr L (Z.of_nat id);
  el_sub : se_subscription e = sub_addr L (Z.of_nat id) 0;
  el_domain : domains c !! se_domain e = Some (p, id);
}.

(** The rows of the driver's entries hold, in its column, what it has enabled. *)
Definition subscribed (L : layout) (m : mem) (h : Z) (s : qcom_smsm) : Prop :=
  forall id e, sm_entries s !! id = Some e -> se_subscription e <> 0 ->
    0 <= se_enabled e < 2 ^ 32 /\ sub_word L m (Z.of_nat id) h = se_enabled e.

(** The domains of the kernel are the ones of the entries. *)
Record doms_ok (p : Z) (s : qcom_smsm) (c : soc) : Prop := {
  do_live id e : sm_entries s !! id = Some e -> se_domain e <> 0 ->
    domains c !! se_domain e = Some (p, id);
  do_mine d q id : domains c !! d = Some (q, id) ->
    q = p /\ d <> 0 /\ exists e, sm_entries s !! id = Some e /\ se_domain e = d;
}.

(** A driver that is set up. *)
Record driver_ok (L : layout) (h p : Z) (s : qcom_smsm) (c : soc) : Prop := {
  dr_smsm : smsms c !! p = Some s;
  dr_on : smsm_on L h s;
  dr_doms : doms_ok p s c;
  dr_sub : subscribed L (sc_mem c) h s;
  dr_handlers irq q id : (irq, (q, id)) ∈ handlers c ->
    q = p /\ exists e, sm_entries s !! id = Some e /\ se_domain e <> 0;
}.

(** The entries interrupts and interrupt chips point to are live. *)
Lemma driver_entry L h p s c id e : driver_ok L h p s c ->
  sm_entries s !! id = Some e -> se_domain e <> 0 -> entry_live L h p s c id e.
Proof.
  intros D He Hd. pose proof (on_entries _ _ _ (dr_on _ _ _ _ _ D) id e He) as [[? _]|(_&Hr&Hs)]; [done|].
  constructor; try done; [by eapply entry_lookup_id; [apply D|]|].
  by apply (do_live _ _ _ (dr_doms _ _ _ _ _ D)).
Qed.

Section entry.
Context (L : layout) (h p : Z) (s : qcom_smsm) (c : soc) (id : nat) (e : smsm_entry).
Hypothesis (K : words_ok L (sc_mem c)) (O : smsm_on L h s) (Hp : smsms c !! p = Some s).
Hypothesis (E : entry_live L h p s c id e).
Let m := sc_mem c.

Lemma intr_exec :
  let val := state_word L m (Z.of_nat id) in
  smsm_intr (p, id) c =
    Ok (tt, add_fires (raised e val (se_last_value e) (seqZ 0 32))
              (set_smsms (<[p := upd_entry s id (with_last_value e val)]>) c)).
Proof.
  destruct E as [E1 E2 E3 E4 E5]. cbv zeta. unfold smsm_intr. cbn [fst snd].
  rewrite (st_bind_ok _ _ _ _ _ (the_smsm_ok _ _ _ Hp)).
  rewrite (st_bind_ok _ _ _ _ _ (nth_entry_ok _ _ _ _ E1)).
  destruct (state_addr_in L (sc_mem c) K _ E2) as [A1 A2].
  rewrite E3, (st_bind_ok _ _ _ _ _ (readl_ok _ c A1 A2)).
  fold m. fold (state_word L m (Z.of_nat id)).
  rewrite (st_bind_ok _ _ _ _ _ (set_entry_ok _ _ _ _ _ Hp)).
  by rewrite (cascade_exec _ _ _ (p, id)).
Qed.

Lemma sub_access : entry_id L (Z.of_nat id) -> host_id L h -> local_host s = h ->
  (se_subscription e =? 0) = false /\
  word_at (se_subscription e) (local_host s) = sub_addr L (Z.of_nat id) h.
Proof.
  intros Hi Hh ->. destruct E as [E1 E2 E3 -> E5].
  pose proof (sub_addr_pos L m K (Z.of_nat id) Hi). rewrite (word_at_sub L m K) by done.
  split; [lia|done].
Qed.

Definition masked (irq : Z) : soc :=
  set_smsms (<[p := upd_entry s id (with_enabled e (Z.clearbit (se_enabled e) irq))]>)
    (set_mem c (wr32 m (sub_addr L (Z.of_nat id) h) (Z.clearbit (sub_word L m (Z.of_nat id) h) irq))).

Definition unmasked (irq : Z) : soc :=
  set_mem (set_smsms (<[p := upd_entry s id (with_enabled e (Z.setbit (se_enabled e) irq))]>) c)
    (wr32 m (sub_addr L (Z.of_nat id) h) (Z.setbit (sub_word L m (Z.of_nat id) h) irq)).

Lemma mask_exec irq : smsm_mask_irq (p, id) irq c = Ok (tt, masked irq).
Proof.
  destruct (on_host _ _ _ O) as (Hl&_&Hh). pose proof (el_id _ _ _ _ _ _ _ E) as Hi.
  destruct (sub_access Hi Hh Hl) as [H0 Hw]. destruct (sub_addr_in L m K _ h Hi Hh) as [A1 A2].
  unfold smsm_mask_irq. cbn [fst snd]. rewrite (st_bind_ok _ _ _ _ _ (the_smsm_ok _ _ _ Hp)).
  rewrite (st_bind_ok _ _ _ _ _ (nth_entry_ok _ _ _ _ (el_entry _ _ _ _ _ _ _ E))).
  rewrite H0, Hw. cbn [negb]. st_run. rewrite (st_bind_ok _ _ _ _ _ (readl_ok _ c A1 A2)).
  rewrite (st_bind_ok _ _ _ _ _ (writel_ok _ _ c A1 A2)).
  by rewrite (set_entry_ok p id _ s).
Qed.

Lemma unmask_exec irq : smsm_unmask_irq (p, id) irq c = Ok (tt, unmasked irq).
Proof.
  destruct (on_host _ _ _ O) as (Hl&_&Hh). pose proof (el_id _ _ _ _ _ _ _ E) as Hi.
  destruct (sub_access Hi Hh Hl) as [H0 Hw]. destruct (sub_addr_in L m K _ h Hi Hh) as [A1 A2].
  unfold smsm_unmask_irq. cbn [fst snd]. rewrite (st_bind_ok _ _ _ _ _ (the_smsm_ok _ _ _ Hp)).
  rewrite (st_bind_ok _ _ _ _ _ (nth_entry_ok _ _ _ _ (el_entry _ _ _ _ _ _ _ E))).
  rewrite (st_bind_ok _ _ _ _ _ (set_entry_ok _ _ _ _ _ Hp)). rewrite H0, Hw. cbn [negb].
  set (c1 := set_smsms _ c). rewrite (st_bind_ok _ _ _ _ _ (readl_ok _ c1 A1 A2)).
  by rewrite (writel_ok _ _ c1 A1 A2).
Qed.

Definition edge (old type flag irq : Z) : Z :=
  if negb (Z.land type flag =? 0) then Z.setbit old irq else Z.clearbit old irq.

Lemma type_exec irq type :
  smsm_set_irq_type (p, id) irq type c =
    if Z.land type IRQ_TYPE_EDGE_BOTH =? 0 then Ok (- EINVAL, c) else
    Ok (0, set_smsms (<[p := upd_entry s id
             (with_edges e (edge (se_rising e) type IRQ_TYPE_EDGE_RISING irq)
                           (edge (se_falling e) type IRQ_TYPE_EDGE_FALLING irq))]>) c).
Proof.
  unfold smsm_set_irq_type. cbn [fst snd]. rewrite (st_bind_ok _ _ _ _ _ (the_smsm_ok _ _ _ Hp)).
  rewrite (st_bind_ok _ _ _ _ _ (nth_entry_ok _ _ _ _ (el_entry _ _ _ _ _ _ _ E))).
  case_if; [done|]. by rewrite (st_bind_ok _ _ _ _ _ (set_entry_ok _ _ _ _ _ Hp)).
Qed.
End entry.
