(* ===== verification/SmsmProbe.v ===== *)
(** * Probing and removing the shared memory state machine

    The probe gets its two regions from the shared memory manager, through the promises of
    [SmemLaws], registers the outgoing state and sets up an entry for every child of its
    node; a failure takes back what was done. *)
From stdpp Require Import gmultiset.
From S2P Require Import Prelude CMem Smem SmemHeap SmemService SmemState SmemHandles Smsm SmsmOps.

Section memory.
Context (smem : qcom_smem) {SV : SmemService smem} {SL : SmemLaws smem}.
Context (E H : Z).

(** The sizes the driver will use: the size item, or the defaults when the manager answers
    [-ENOENT] or the item has another size. *)
Definition sizes (m : mem) (I : items) : option (Z * Z) :=
  match I !! SMEM_SMSM_SIZE_INFO with
  | None => if missing =? - ENOENT then Some (SMSM_DEFAULT_NUM_ENTRIES, SMSM_DEFAULT_NUM_HOSTS) else None
  | Some (a, sz) =>
    if sz <=? 0 then None else
    if sz =? sizeof_size_info then Some (rd32 m (a + 4), rd32 m a)
    else Some (SMSM_DEFAULT_NUM_ENTRIES, SMSM_DEFAULT_NUM_HOSTS)
  end.

(** A memory in which the driver can work with [E] entries and [H] hosts: regions that exist
    already are large enough. *)
Record mem_inv (m : mem) (I : items) : Prop := {
  mi_holds : holds m I;
  mi_count : SMEM_SMSM_SIZE_INFO < item_count smem;
  mi_sizes : sizes m I = Some (E, H);
  mi_range : 0 < E /\ 0 < H /\ 4 * (E * H) <= 2 ^ 32;
  mi_states p sz : I !! SMEM_SMSM_SHARED_STATE = Some (p, sz) -> 4 * E <= sz;
  mi_intr p sz : I !! SMEM_SMSM_CPU_INTR_MASK = Some (p, sz) -> 4 * (E * H) <= sz;
}.

(** Where the words are, once both regions exist. *)
Definition layout_of (I : items) : option layout :=
  match I !! SMEM_SMSM_SHARED_STATE, I !! SMEM_SMSM_CPU_INTR_MASK with
  | Some (states, _), Some (intr, _) => Some (Layout states intr E H)
  | _, _ => None
  end.

Lemma layout_of_Some I L : layout_of I = Some L ->
  l_entries L = E /\ l_hosts L = H /\
  (exists sz, I !! SMEM_SMSM_SHARED_STATE = Some (l_states L, sz)) /\
  (exists sz, I !! SMEM_SMSM_CPU_INTR_MASK = Some (l_intr L, sz)).
Proof.
  unfold layout_of. destruct (I !! SMEM_SMSM_SHARED_STATE) as [[p sz]|]; [|done].
  destruct (I !! SMEM_SMSM_CPU_INTR_MASK) as [[q sz']|]; [|done]. intros [= <-]. cbn. split_and!; eauto.
Qed.

Lemma layout_words m I L : mem_inv m I -> layout_of I = Some L -> words_ok L m.
Proof.
  intros M (HE&HH&[sz Hs]&[sz' Hq])%layout_of_Some.
  pose proof (mi_holds _ _ M) as Hm. pose proof (mi_range _ _ M).
  destruct (sv_inside m I _ _ _ Hm Hs) as (?&?&?&?).
  destruct (sv_inside m I _ _ _ Hm Hq) as (?&?&?&?).
  pose proof (mi_states _ _ M _ _ Hs). pose proof (mi_intr _ _ M _ _ Hq).
  pose proof (sv_apart m I _ _ _ _ _ _ Hm (ltac:(done) : SMEM_SMSM_SHARED_STATE <> SMEM_SMSM_CPU_INTR_MASK) Hs Hq).
  constructor; rewrite ?HE, ?HH; try lia. apply (sv_window m I Hm).
Qed.

(** A write inside one of the two regions. *)
Lemma mem_inv_write m I i p sz a v : mem_inv m I -> I !! i = Some (p, sz) -> i <> SMEM_SMSM_SIZE_INFO ->
  p <= a -> a + 4 <= p + sz -> mem_inv (wr32 m a v) I.
Proof.
  intros [M1 M2 M3 M4 M5 M6] Hi Hne Ha Hz. constructor; try done.
  - by apply (sv_write m I i p sz).
  - rewrite <-M3. unfold sizes. destruct (I !! SMEM_SMSM_SIZE_INFO) as [[b szb]|] eqn:Hb; [|done].
    case_if; [done|]. destruct (szb =? sizeof_size_info) eqn:E1; [|done].
    unfold sizeof_size_info in E1. pose proof (sv_apart m I _ _ _ _ _ _ M1 Hne Hi Hb).
    by rewrite !le_load_store_disj by lia.
Qed.

Lemma mem_inv_state m I L i v : mem_inv m I -> layout_of I = Some L -> entry_id L i ->
  mem_inv (wr32 m (state_addr L i) v) I.
Proof.
  intros M HL Hi. destruct (layout_of_Some _ _ HL) as (HE&_&[sz Hs]&_).
  pose proof (mi_states _ _ M _ _ Hs). unfold entry_id in Hi.
  apply (mem_inv_write m I SMEM_SMSM_SHARED_STATE (l_states L) sz); try done; unfold state_addr; lia.
Qed.

Lemma mem_inv_sub m I L i h v : mem_inv m I -> layout_of I = Some L -> entry_id L i -> host_id L h ->
  mem_inv (wr32 m (sub_addr L i h) v) I.
Proof.
  intros M HL Hi Hh. destruct (layout_of_Some _ _ HL) as (HE&HH&_&[sz Hq]).
  pose proof (mi_intr _ _ M _ _ Hq). pose proof (sub_index_range L i h Hi Hh) as Hr.
  rewrite HE, HH in Hr.
  apply (mem_inv_write m I SMEM_SMSM_CPU_INTR_MASK (l_intr L) sz); try done;
    unfold sub_addr; rewrite HH; lia.
Qed.

(** ** Growth: items are added, the old ones keep their place and their bytes. *)
Record grown (m : mem) (I : items) (m' : mem) (I' : items) : Prop := {
  gr_base : m_base m' = m_base m /\ m_size m' = m_size m;
  gr_items i v : I !! i = Some v -> I' !! i = Some v;
  gr_bytes i p sz : I !! i = Some (p, sz) -> agree_on m m' p (p + sz);
}.

Lemma grown_refl m I : grown m I m I.
Proof. constructor; try done. Qed.

Lemma grown_trans m I m1 I1 m2 I2 : grown m I m1 I1 -> grown m1 I1 m2 I2 -> grown m I m2 I2.
Proof.
  intros [[B1 B2] G2 G3] [[C1 C2] F2 F3]. constructor.
  - split; congruence.
  - auto.
  - intros i p sz Hi c Hc. rewrite (G3 i p sz Hi c Hc). by apply (F3 i p sz (G2 _ _ Hi)).
Qed.

Lemma grown_layout m I m' I' L : grown m I m' I' -> layout_of I = Some L -> layout_of I' = Some L.
Proof.
  intros G. unfold layout_of. destruct (I !! SMEM_SMSM_SHARED_STATE) as [[p sz]|] eqn:H1; [|done].
  destruct (I !! SMEM_SMSM_CPU_INTR_MASK) as [[q sz']|] eqn:H2; [|done].
  by rewrite (gr_items _ _ _ _ G _ _ H1), (gr_items _ _ _ _ G _ _ H2).
Qed.

(** The words of an existing layout survive. *)
Lemma grown_words m I m' I' L : grown m I m' I' -> mem_inv m I -> layout_of I = Some L ->
  (forall i, entry_id L i -> state_word L m' i = state_word L m i) /\
  (forall i h, entry_id L i -> host_id L h -> sub_word L m' i h = sub_word L m i h).
Proof.
  intros G M HL. destruct (layout_of_Some _ _ HL) as (HE&HH&[sz Hs]&[sz' Hq]).
  pose proof (mi_states _ _ M _ _ Hs). pose proof (mi_intr _ _ M _ _ Hq). split.
  - intros i Hi. symmetry. apply le_load_agree. intros b Hb. apply (gr_bytes _ _ _ _ G _ _ _ Hs).
    unfold state_addr, entry_id in *. lia.
  - intros i h Hi Hh. symmetry. apply le_load_agree. intros b Hb. apply (gr_bytes _ _ _ _ G _ _ _ Hq).
    pose proof (sub_index_range L i h Hi Hh) as Hr. rewrite HE, HH in Hr.
    unfold sub_addr in *. rewrite HH in *. lia.
Qed.

(** ** One region *)
Definition lock_ok (r : Z) : Prop := r = 0 \/ (r < 0 /\ r <> - EEXIST /\ r <> - ENOENT).

Lemma alloc_locked r item size : lock_ok r -> r <> 0 -> forall m,
  SMEM_ITEM_LAST_FIXED <= item < item_count smem ->
  qcom_smem_alloc r (Some smem) QCOM_SMEM_HOST_ANY item size m = Ok (r, m).
Proof. intros Hr Hn m Hi. unfold qcom_smem_alloc. by solve_ifs. Qed.

Lemma get_locked r item want : r <> 0 -> forall m, item < item_count smem ->
  qcom_smem_get r (Some smem) QCOM_SMEM_HOST_ANY item want m = Ok ((ErrPtr r, None), m).
Proof. intros Hn m Hi. unfold qcom_smem_get. by solve_ifs. Qed.

Lemma on_mem_ok {A} (k : ST mem A) c a m' : k (sc_mem c) = Ok (a, m') -> on_mem k c = Ok (a, set_mem c m').
Proof. unfold on_mem. by intros ->. Qed.

Lemma on_mem_same {A} (k : ST mem A) c a : k (sc_mem c) = Ok (a, sc_mem c) -> on_mem k c = Ok (a, c).
Proof. intros Hk. rewrite (on_mem_ok _ _ _ _ Hk). by destruct c. Qed.

Definition region (item size : Z) : Prop :=
  (item = SMEM_SMSM_SHARED_STATE /\ size = 4 * E) \/
  (item = SMEM_SMSM_CPU_INTR_MASK /\ size = 4 * (E * H)).

(** A region that was just allocated. *)
Lemma mem_inv_alloc m I m' item size p sz : mem_inv m I -> region item size -> I !! item = None ->
  size <= sz -> holds m' (<[item := (p, sz)]> I) ->
  (forall i q s, I !! i = Some (q, s) -> agree_on m m' q (q + s)) ->
  mem_inv m' (<[item := (p, sz)]> I).
Proof.
  intros [M1 M2 M3 M4 M5 M6] Hr Hn Hsz Hh Hag. constructor; try done.
  - rewrite <-M3. unfold sizes. rewrite lookup_insert_ne by (by destruct Hr as [[-> _]|[-> _]]).
    destruct (I !! SMEM_SMSM_SIZE_INFO) as [[b szb]|] eqn:Hb; [|done].
    case_if; [done|]. destruct (szb =? sizeof_size_info) eqn:E1; [|done].
    unfold sizeof_size_info in E1. pose proof (Hag _ _ _ Hb) as Ha.
    rewrite !(le_load_agree m' m); [done|intros; symmetry; apply Ha; lia..].
  - intros q s Hq. destruct Hr as [[-> ->]|[-> ->]].
    + rewrite lookup_insert_eq in Hq. by simplify_eq.
    + rewrite lookup_insert_ne in Hq by done. by eapply M5.
  - intros q s Hq. destruct Hr as [[-> ->]|[-> ->]].
    + rewrite lookup_insert_ne in Hq by done. by eapply M6.
    + rewrite lookup_insert_eq in Hq. by simplify_eq.
Qed.

Lemma acquire_exec l1 l2 item size c I :
  __smem c = Some smem -> mem_inv (sc_mem c) I -> lock_ok l1 -> lock_ok l2 -> region item size ->
  exists x m' I', acquire l1 l2 item size c = Ok (x, set_mem c m') /\
    mem_inv m' I' /\ grown (sc_mem c) I m' I' /\
    match x with inl r => r < 0 | inr a => exists sz, I' !! item = Some (a, sz) end.
Proof.
  intros Hs M L1 L2 Hreg. pose proof (mi_range _ _ M) as HR. pose proof (mi_count _ _ M) as HC.
  assert (Hi : SMEM_ITEM_LAST_FIXED <= item < item_count smem).
  { revert HC. destruct Hreg as [[-> _]|[-> _]]; unfold SMEM_ITEM_LAST_FIXED, SMEM_SMSM_SHARED_STATE,
      SMEM_SMSM_CPU_INTR_MASK, SMEM_SMSM_SIZE_INFO; lia. }
  assert (Hz : 0 < size <= 2 ^ 32) by (destruct Hreg as [[_ ->]|[_ ->]]; nia).
  assert (Hc : forall c, c = set_mem c (sc_mem c)) by (by intros []).
  unfold acquire. rewrite st_bind_get, Hs.
  destruct (decide (l1 = 0)) as [->|Hl1].
  2: { pose proof (alloc_locked l1 item size L1 Hl1 (sc_mem c) Hi) as Ha.
       rewrite (st_bind_ok _ _ _ _ _ (on_mem_same _ _ _ Ha)).
       destruct L1 as [|(?&?&_)]; [done|]. solve_ifs. exists (inl l1), (sc_mem c), I.
       rewrite <-Hc. split_and!; [done|done|apply grown_refl|done]. }
  destruct (sv_alloc (sc_mem c) I item size (mi_holds _ _ M) Hi Hz) as (r&m'&Ha&Hr).
  rewrite (st_bind_ok _ _ _ _ _ (on_mem_ok _ _ _ _ Ha)).
  assert (HI : (r < 0 /\ r <> - EEXIST /\ m' = sc_mem c) \/
            exists I', mem_inv m' I' /\ grown (sc_mem c) I m' I' /\ is_Some (I' !! item) /\ (r = 0 \/ r = - EEXIST)).
  { destruct Hr as [(->&Hsome&->)|[(?&?&_&->)|(->&Hnone&Hb&Hsz&(p&sz&Hle&Hh)&Hag)]]; [right|by left|right].
    - exists I. split_and!; [done|apply grown_refl|done|by right].
    - exists (<[item := (p, sz)]> I). split_and!; [by eapply mem_inv_alloc| |by rewrite lookup_insert_eq|by left].
      constructor; [done| |done]. intros i v Hv. rewrite lookup_insert_ne by congruence. done. }
  destruct HI as [(?&?&->)|(I'&M'&G&[[a sz] Ha']&Hr')].
  { solve_ifs. exists (inl r), (sc_mem c), I. split_and!; [done|done|apply grown_refl|done]. }
  replace ((r <? 0) && negb (r =? - EEXIST)) with false by (destruct Hr' as [->| ->]; done).
  destruct (decide (l2 = 0)) as [->|Hl2].
  - pose proof (sv_get m' I' item (mi_holds _ _ M') ltac:(unfold SMEM_ITEM_LAST_FIXED in Hi; lia)) as Hg.
    rewrite Ha' in Hg. erewrite st_bind_ok by (apply on_mem_ok; exact Hg).
    exists (inr a), m', I'. split_and!; [done|done|done|by exists sz].
  - pose proof (get_locked l2 item false Hl2 m' ltac:(lia)) as Hg.
    erewrite st_bind_ok by (apply on_mem_ok; exact Hg).
    exists (inl l2), m', I'. split_and!; [done|done|done|]. destruct L2 as [|(?&_)]; [done|lia].
Qed.

(** The sizes are read, or the lookup fails. *)
Lemma size_info_exec l p s c I :
  __smem c = Some smem -> mem_inv (sc_mem c) I -> lock_ok l -> smsms c !! p = Some s ->
  (l < 0 /\ smsm_get_size_info l p c = Ok (l, c)) \/
  smsm_get_size_info l p c = Ok (0, set_smsms (<[p := with_sizes s E H]>) c).
Proof.
  intros Hs M Hl Hp. pose proof (mi_count _ _ M) as HC. unfold smsm_get_size_info. rewrite st_bind_get, Hs.
  destruct (decide (l = 0)) as [->|Hn]; [right|left].
  2: { destruct Hl as [|(?&_&?)]; [done|]. split; [done|].
       erewrite st_bind_ok by (apply on_mem_same, get_locked; [done|exact HC]).
       rewrite (st_bind_ok _ _ _ _ _ (the_smsm_ok _ _ _ Hp)). by solve_ifs. }
  assert (Hg := sv_get_size (sc_mem c) I SMEM_SMSM_SIZE_INFO (mi_holds _ _ M)
                  (conj (ltac:(done) : 0 <= SMEM_SMSM_SIZE_INFO) HC)).
  rewrite (st_bind_ok _ _ _ _ _ (on_mem_same _ _ _ Hg)), (st_bind_ok _ _ _ _ _ (the_smsm_ok _ _ _ Hp)).
  pose proof (mi_sizes _ _ M) as Hsz. unfold sizes in Hsz.
  destruct (I !! SMEM_SMSM_SIZE_INFO) as [[a sz]|] eqn:HI.
  - destruct (sv_inside _ _ _ _ _ (mi_holds _ _ M) HI) as (?&?&?&?).
    case_if_in Hsz; [done|]. change (default 0 (Some sz)) with sz. destruct (sz =? sizeof_size_info) eqn:E1; cbn [negb].
    + unfold sizeof_size_info in E1. injection Hsz as X1 X2.
      rewrite (st_bind_ok _ _ _ _ _ (readl_ok (a + 4) c ltac:(lia) ltac:(lia))), X1.
      by rewrite (st_bind_ok _ _ _ _ _ (readl_ok a c ltac:(lia) ltac:(lia))), X2.
    + by injection Hsz as <- <-.
  - case_if_in Hsz; [|done]. cbn [negb]. by injection Hsz as <- <-.
Qed.

(** ** The probe up to the regions *)

(** The kernel during the probe of the object at [p]. *)
Definition probing (c : soc) (p : Z) (m : mem) (s : qcom_smsm) : soc :=
  set_mem (set_smsms (<[p := s]>) c) m.

Lemma probing_smsm c p m s : smsms (probing c p m s) !! p = Some s.
Proof. cbn. apply lookup_insert_eq. Qed.

Lemma probing_put c p m s s' : set_smsms (<[p := s']>) (probing c p m s) = probing c p m s'.
Proof. unfold probing, set_smsms, set_mem. cbn. by rewrite insert_insert_eq. Qed.

Lemma probing_mem c p m s m' : set_mem (probing c p m s) m' = probing c p m' s.
Proof. done. Qed.

Lemma put_smsm_probing c p m s s' :
  put_smsm p s' (probing c p m s) = Ok (tt, probing c p m s').
Proof. unfold put_smsm, st_upd. by rewrite probing_put. Qed.

Lemma the_smsm_probing c p m s : the_smsm p (probing c p m s) = Ok (s, probing c p m s).
Proof. apply the_smsm_ok, probing_smsm. Qed.

(** The host a property of the device tree describes. *)
Definition host_of (ipc : option ipc_prop) : smsm_host :=
  match ipc with
  | Some (IpcProp (inr r) (inr off) (inr bit)) => SmsmHost (Rm r) off bit
  | _ => zero_host
  end.

Lemma host_of_regmap ipc e : ipc_regmap (host_of ipc) <> RmErr e.
Proof. by destruct ipc as [[[?|?] [?|?] [?|?]]|]. Qed.

Definition ipc_ok (ipc : option ipc_prop) : Prop :=
  forall prop e, ipc = Some prop -> ip_regmap prop = inl e -> e < 0.

Lemma parse_ipc_exec ipc c p m s id : ipc_ok ipc -> sm_hosts s !! id = Some zero_host ->
  exists ret h, smsm_parse_ipc ipc p id (probing c p m s) =
      Ok (ret, probing c p m (with_arrays s (sm_entries s) (<[id := h]> (sm_hosts s)))) /\
    ((ret = 0 /\ h = host_of ipc) \/ ret < 0).
Proof.
  intros Hok Hh. unfold smsm_parse_ipc. rewrite (st_bind_ok _ _ _ _ _ (the_smsm_probing c p m s)).
  rewrite (st_bind_ok _ _ _ _ _ (nth_host_ok _ _ _ _ Hh)).
  destruct ipc as [[rm off bit]|]; cbn [ip_regmap ip_offset ip_bit].
  2: { exists 0, zero_host. split; [|by left]. rewrite list_insert_id by done. by destruct s. }
  destruct rm as [e|r]; [|destruct off as [e|off]; [|destruct bit as [e|bit]]];
    rewrite (st_bind_ok _ _ _ _ _ (put_smsm_probing c p m s _)); eexists _, _;
    (split; [reflexivity|]); [right|by right|by right|by left].
  by apply (Hok _ _ eq_refl).
Qed.

Lemma parse_hosts_exec ipc c p m : (forall i, ipc_ok (ipc i)) -> forall n id s,
  (forall i, (id <= i < id + n)%nat -> sm_hosts s !! i = Some zero_host) ->
  exists ret hs, parse_hosts n ipc p id (probing c p m s) =
      Ok (ret, probing c p m (with_arrays s (sm_entries s) hs)) /\
    length hs = length (sm_hosts s) /\
    (ret < 0 \/ (ret = 0 /\ (forall i, (id <= i < id + n)%nat -> hs !! i = Some (host_of (ipc i))) /\
                forall i, ~ (id <= i < id + n)%nat -> hs !! i = sm_hosts s !! i)).
Proof.
  intros Hok. induction n as [|n IH]; intros id s Hz; cbn [parse_hosts].
  { exists 0, (sm_hosts s). split; [by destruct s|]. split; [done|]. right. split_and!; [done| |done].
    intros i Hi. lia. }
  destruct (parse_ipc_exec (ipc id) c p m s id (Hok id) (Hz id ltac:(lia))) as (ret&h&E1&Hret).
  rewrite (st_bind_ok _ _ _ _ _ E1).
  pose proof (lookup_lt_Some _ _ _ (Hz id ltac:(lia))) as Hlt.
  destruct Hret as [[-> ->]|Hret].
  2: { solve_ifs. exists ret, (<[id := h]> (sm_hosts s)). rewrite length_insert. split_and!; [done|done|by left]. }
  cbn [Z.ltb Z.compare].
  destruct (IH (S id) (with_arrays s (sm_entries s) (<[id := host_of (ipc id)]> (sm_hosts s))))
    as (ret&hs&E2&Hlen&Hr).
  { intros i Hi. cbn. rewrite list_lookup_insert_ne by lia. apply Hz. lia. }
  exists ret, hs. rewrite E2. cbn in Hlen, Hr |- *. rewrite length_insert in Hlen.
  split_and!; [done|done|]. destruct Hr as [?|(->&H1&H2)]; [by left|right]. split_and!; [done| |].
  - intros i Hi. destruct (decide (i = id)) as [->|Hne]; [|apply H1; lia].
    rewrite H2 by lia. by apply list_lookup_insert_eq.
  - intros i Hi. rewrite H2 by lia. by rewrite list_lookup_insert_ne by lia.
Qed.

(** The object when the regions are known. *)
Definition fresh_smsm (env : smsm_env) (hs : list smsm_host) : qcom_smsm :=
  QcomSmsm (default 0 (en_local_host env)) H E 0 0 0 (replicate (Z.to_nat E) zero_entry) hs.

Definition hosts_of (env : smsm_env) : list smsm_host := (fun i => host_of (en_ipc env i)) <$> seq 0 (Z.to_nat H).

(** What the first part of the probe comes to. *)
Definition regions_done (env : smsm_env) (p : Z) (c : soc) (I : items) (o : res ((Z + Z * Z) * soc)) : Prop :=
  exists x m' I' s', o = Ok (x, probing c p m' s') /\ mem_inv m' I' /\ grown (sc_mem c) I m' I' /\
    match x with
    | inl r => r < 0
    | inr (states, intr) =>
      layout_of I' = Some (Layout states intr E H) /\ s' = fresh_smsm env (hosts_of env)
    end.

Lemma regions_failed env p c I r m' I' s' : r < 0 -> mem_inv m' I' -> grown (sc_mem c) I m' I' ->
  regions_done env p c I (Ok (inl r, probing c p m' s')).
Proof. intros. by exists (inl r), m', I', s'. Qed.

(** Both regions. *)
Lemma acquire_both env p c I s : __smem c = Some smem -> mem_inv (sc_mem c) I ->
  (forall i, lock_ok (en_lock env i)) -> s = fresh_smsm env (hosts_of env) ->
  regions_done env p c I ((let! states := acquire (en_lock env 1) (en_lock env 2) SMEM_SMSM_SHARED_STATE (u64 (E * 4)) in
    match states with
    | inl ret => st_ret (inl ret)
    | inr states =>
      let! intr_mask := acquire (en_lock env 3) (en_lock env 4) SMEM_SMSM_CPU_INTR_MASK
                          (u64 (u32 (E * H) * 4)) in
      match intr_mask with
      | inl ret => st_ret (inl ret)
      | inr intr_mask => st_ret (inr (states, intr_mask))
      end
    end)%C (probing c p (sc_mem c) s)).
Proof.
  intros Hs M HL Hfresh. pose proof (mi_range _ _ M) as HR.
  rewrite (u64_id (E * 4)) by nia. rewrite (u32_id (E * H)) by nia. rewrite (u64_id (E * H * 4)) by nia.
  destruct (acquire_exec (en_lock env 1) (en_lock env 2) SMEM_SMSM_SHARED_STATE (E * 4)
    (probing c p (sc_mem c) s) I Hs M (HL 1%nat) (HL 2%nat))
    as (x&m1&I1&E3&M1&G1&Hx); [left; split; [done|lia]|].
  rewrite (st_bind_ok _ _ _ _ _ E3), probing_mem. destruct x as [r|states]; [by apply (regions_failed _ _ _ _ _ m1 I1)|].
  destruct Hx as [sz Hst].
  destruct (acquire_exec (en_lock env 3) (en_lock env 4) SMEM_SMSM_CPU_INTR_MASK (E * H * 4)
    (probing c p m1 s) I1 Hs M1 (HL 3%nat) (HL 4%nat))
    as (x&m2&I2&E4&M2&G2&Hx); [right; split; [done|lia]|].
  pose proof (grown_trans _ _ _ _ _ _ G1 G2) as G.
  rewrite (st_bind_ok _ _ _ _ _ E4), probing_mem. destruct x as [r|intr]; [by apply (regions_failed _ _ _ _ _ m2 I2)|].
  destruct Hx as [sz' Hin]. eexists (inr (states, intr)), m2, I2, _. split; [reflexivity|]. split_and!; try done.
  unfold layout_of. by rewrite (gr_items _ _ _ _ G2 _ _ Hst), Hin.
Qed.

Lemma hosts_of_eq env hs : length hs = Z.to_nat H ->
  (forall i, (0 <= i < Z.to_nat H)%nat -> hs !! i = Some (host_of (en_ipc env i))) -> hs = hosts_of env.
Proof.
  intros Hlen Hhs. apply list_eq. intros i. unfold hosts_of. rewrite list_lookup_fmap.
  destruct (decide (i < Z.to_nat H)%nat) as [Hi|Hi].
  - rewrite Hhs, lookup_seq_lt by lia. done.
  - rewrite lookup_ge_None_2, lookup_seq_ge by lia. done.
Qed.

Lemma probe_regions_exec env p c I :
  __smem c = Some smem -> mem_inv (sc_mem c) I -> (forall i, lock_ok (en_lock env i)) ->
  (forall i, ipc_ok (en_ipc env i)) ->
  regions_done env p c I (smsm_probe_regions env p c).
Proof.
  intros Hs M HL HI. set (m := sc_mem c). pose proof (mi_range _ _ M) as HR.
  pose proof (grown_refl m I) as G0. unfold smsm_probe_regions.
  rewrite (st_bind_ok _ _ c tt (probing c p m zero_smsm)) by (by destruct c).
  destruct (size_info_exec (en_lock env 0) p zero_smsm (probing c p m zero_smsm) I Hs M (HL 0%nat)
              (probing_smsm _ _ _ _)) as [[Hn E1]|E1]; rewrite (st_bind_ok _ _ _ _ _ E1).
  { solve_ifs. by apply (regions_failed _ _ _ _ _ m I). }
  rewrite probing_put. cbn [Z.eqb negb]. rewrite (st_bind_ok _ _ _ _ _ (the_smsm_probing c p m _)).
  case_if; [by apply (regions_failed _ _ _ _ _ m I)|]. case_if; [by apply (regions_failed _ _ _ _ _ m I)|].
  rewrite (st_bind_ok _ _ _ _ _ (put_smsm_probing c p m _ _)).
  case_if; [by apply (regions_failed _ _ _ _ _ m I)|].
  rewrite (st_bind_ok _ _ _ _ _ (the_smsm_probing c p m _)).
  rewrite (st_bind_ok _ _ _ _ _ (put_smsm_probing c p m _ _)). cbn [with_sizes with_arrays num_hosts num_entries].
  edestruct (parse_hosts_exec (en_ipc env) c p m HI (Z.to_nat H) 0) as (ret&hs&E2&Hlen&Hret).
  2: rewrite (st_bind_ok _ _ _ _ _ E2).
  { intros i Hi. cbn. rewrite lookup_replicate. split; [done|lia]. }
  cbn in Hlen. rewrite length_replicate in Hlen.
  destruct Hret as [Hret|(->&Hhs&_)]; [solve_ifs; by apply (regions_failed _ _ _ _ _ m I)|]. cbn [Z.ltb Z.compare].
  apply acquire_both; try done. unfold fresh_smsm. cbn. f_equal. apply hosts_of_eq; [done|].
  intros i Hi. apply Hhs. lia.
Qed.

(** ** Removing the domains *)
Lemma remove_domains_exec p s : forall n id c,
  smsms c !! p = Some s -> (id + n = length (sm_entries s))%nat ->
  (forall j e, (id <= j)%nat -> sm_entries s !! j = Some e -> se_domain e <> 0 ->
     domains c !! se_domain e = Some (p, j)) ->
  (forall d q j, domains c !! d = Some (q, j) ->
     q = p /\ (id <= j)%nat /\ d <> 0 /\ exists e, sm_entries s !! j = Some e /\ se_domain e = d) ->
  remove_domains n p id c = Ok (tt, set_domains (fun _ => ∅) c).
Proof.
  induction n as [|n IH]; intros id c Hp Hlen Hlive Hmine; cbn [remove_domains].
  { replace (set_domains (fun _ => ∅) c) with c; [done|]. destruct c as [? ? ? D ? ? ? ?]. unfold set_domains.
    cbn in *. f_equal. apply map_eq. intros d. rewrite lookup_empty.
    destruct (D !! d) as [[q j]|] eqn:Hd; [|done].
    destruct (Hmine d q j Hd) as (_&Hj&_&e&He&_). apply lookup_lt_Some in He. lia. }
  destruct (lookup_lt_is_Some_2 (sm_entries s) id ltac:(lia)) as [e He].
  rewrite (st_bind_ok _ _ _ _ _ (the_smsm_ok _ _ _ Hp)), (st_bind_ok _ _ _ _ _ (nth_entry_ok _ _ _ _ He)).
  destruct (decide (se_domain e = 0)) as [Hd|Hd].
  - rewrite Hd. cbn [Z.eqb negb]. st_run. apply IH; [done|lia| |].
    + intros j e' Hj. apply Hlive. lia.
    + intros d q j Hdj. destruct (Hmine d q j Hdj) as (->&Hj&Hd0&e'&He'&Hed).
      split_and!; try done; [|by exists e']. destruct (decide (j = id)) as [->|]; [|lia]. congruence.
  - pose proof (Hlive id e (Nat.le_refl _) He Hd) as Hdom. replace (negb (se_domain e =? 0)) with true by lia.
    rewrite (st_bind_ok _ _ c tt (set_domains (delete (se_domain e)) c))
      by (unfold irq_domain_remove; by rewrite Hdom).
    rewrite (IH (S id) (set_domains (delete (se_domain e)) c)); [done|done|lia| |]; cbn [domains set_domains].
    + intros j e' Hj He' Hd'. assert (Hj' := Hlive j e' ltac:(lia) He' Hd').
      rewrite lookup_delete_ne; [done|]. intros Heq. rewrite <-Heq, Hdom in Hj'. injection Hj' as Hj'. lia.
    + intros d q j [Hne Hdj]%lookup_delete_Some. destruct (Hmine d q j Hdj) as (->&Hj&Hd0&e'&He'&Hed).
      split_and!; try done; [|by exists e']. destruct (decide (j = id)) as [->|]; [|lia].
      rewrite He in He'. by simplify_eq.
Qed.

(** ** The entries *)
Definition selected (ch : dt_child) : bool := ch_available ch && ch_interrupt_controller ch.

(** What the kernel and the device tree promise about the children: errors are negative, a new
    domain has a fresh address, and no two entries share a number. *)
Fixpoint children_ok (doms : gmap Z entry_ptr) (l : list dt_child) : Prop :=
  match l with
  | [] => True
  | ch :: l =>
    (selected ch = true ->
       match ch_reg ch with inl r => r < 0 | inr id => 0 <= id end /\ ch_request ch <= 0 /\
       (forall d, ch_domain ch = Some d -> d <> 0 /\ doms !! d = None) /\
       forall ch', ch' ∈ l -> selected ch' = true ->
         (forall id, ch_reg ch = inr id -> ch_reg ch' <> inr id) /\
         (forall d, ch_domain ch = Some d -> ch_domain ch' <> Some d)) /\
    children_ok doms l
  end.

Definition live_entry (L : layout) (id d : Z) : smsm_entry :=
  SmsmEntry d 0 0 0 0 (state_addr L id) (sub_addr L id 0).

(** What the set-up of the entries leaves alone. *)
Record frame (L : layout) (h p : Z) (s : qcom_smsm) (c : soc) (s' : qcom_smsm) (c' : soc) : Prop := {
  fr_smsm : smsms c !! p = Some s -> smsms c' = <[p := s']> (smsms c);
  fr_sizes : num_entries s' = num_entries s /\ length (sm_entries s') = length (sm_entries s) /\
    sm_state s' = sm_state s /\ sm_hosts s' = sm_hosts s;
  fr_smem : __smem c' = __smem c;
  fr_trace : kicks c' = kicks c /\ fired c' = fired c;
  fr_handlers x : x ∈ handlers c' -> x ∈ handlers c \/ x.2.1 = p;
  fr_window : m_base (sc_mem c') = m_base (sc_mem c) /\ m_size (sc_mem c') = m_size (sc_mem c);
  fr_states i : entry_id L i -> state_word L (sc_mem c') i = state_word L (sc_mem c) i;
  fr_subs i h' : entry_id L i -> host_id L h' -> h' <> h ->
    sub_word L (sc_mem c') i h' = sub_word L (sc_mem c) i h';
}.

Lemma frame_refl L h p s c : frame L h p s c s c.
Proof. constructor; try done; [intros; by rewrite insert_id|by left]. Qed.

Lemma frame_trans L h p s c s1 c1 s2 c2 :
  smsms c1 !! p = Some s1 -> frame L h p s c s1 c1 -> frame L h p s1 c1 s2 c2 -> frame L h p s c s2 c2.
Proof.
  intros Hp [F1 (F2&F2a&F2b&F2c) F3 [F4 F4a] FH [F5 F5a] F6 F7]
    [G1 (G2&G2a&G2b&G2c) G3 [G4 G4a] GH [G5 G5a] G6 G7].
  constructor; try (split_and?; congruence).
  - intros H0. rewrite (G1 Hp), (F1 H0). by rewrite insert_insert_eq.
  - intros x [Hx|Hx]%GH; [by apply FH|by right].
  - intros i Hi. by rewrite G6, F6.
  - intros i h' Hi Hh Hne. by rewrite G7, F7.
Qed.

(** ** One child *)
Section child.
Context (L : layout) (h p : Z) (s : qcom_smsm) (c : soc) (id : Z).
Hypothesis (K : words_ok L (sc_mem c)) (D : driver_ok L h p s c).
Hypothesis (Hid : entry_id L id) (Hzero : sm_entries s !! Z.to_nat id = Some zero_entry).

Definition half_entry : smsm_entry := with_remote zero_entry (state_addr L id) (sub_addr L id 0).
Definition half_soc : soc :=
  set_mem (set_smsms (<[p := upd_entry s (Z.to_nat id) half_entry]>) c)
    (wr32 (sc_mem c) (sub_addr L id h) 0).

Lemma child_prefix {A} (k : ST soc A) :
  (let! e := nth_entry s (Z.to_nat id) in
   let sub := word_at (l_intr L) (u32 (id * num_hosts s)) in
   set_entry p (Z.to_nat id) (with_remote e (word_at (l_states L) id) sub) ;;;
   writel 0 (word_at sub (local_host s)) ;;; k)%C c = k half_soc.
Proof.
  destruct (on_host _ _ _ (dr_on _ _ _ _ _ D)) as (Hl&_&Hh).
  destruct (on_sizes _ _ _ (dr_on _ _ _ _ _ D)) as [Hn _]. pose proof (dr_smsm _ _ _ _ _ D) as Hp.
  rewrite (st_bind_ok _ _ _ _ _ (nth_entry_ok _ _ _ _ Hzero)).
  cbv zeta. rewrite Hn, (word_at_row L (sc_mem c) K), (word_at_state L (sc_mem c) K) by done.
  rewrite (st_bind_ok _ _ _ _ _ (set_entry_ok _ _ _ _ _ Hp)), Hl, (word_at_sub L (sc_mem c) K) by done.
  destruct (sub_addr_in L (sc_mem c) K id h Hid Hh) as [A1 A2].
  by erewrite st_bind_ok by (apply writel_ok; done).
Qed.

Lemma half_words :
  (forall i, entry_id L i -> state_word L (sc_mem half_soc) i = state_word L (sc_mem c) i) /\
  (forall i h', entry_id L i -> host_id L h' -> sub_word L (sc_mem half_soc) i h' =
     if decide ((i, h') = (id, h)) then 0 else sub_word L (sc_mem c) i h').
Proof.
  destruct (on_host _ _ _ (dr_on _ _ _ _ _ D)) as (_&_&Hh). cbn [sc_mem half_soc set_mem]. split.
  - intros i Hi. by apply state_word_sub.
  - intros i h' Hi Hh'. by rewrite sub_word_set by done.
Qed.

(** The entry with its words and the domain [d], 0 when there is none. *)
Definition child_smsm (d : Z) : qcom_smsm := upd_entry s (Z.to_nat id) (with_domain half_entry d).

Lemma child_lookup d j : sm_entries (child_smsm d) !! j =
  if decide (j = Z.to_nat id) then Some (with_domain half_entry d) else sm_entries s !! j.
Proof.
  cbn. pose proof (lookup_lt_Some _ _ _ Hzero). case_decide as Hj.
  - subst j. by apply list_lookup_insert_eq.
  - by rewrite list_lookup_insert_ne.
Qed.

(** The kernel then; [hs] is what happened to the handlers. *)
Definition child_soc (d : Z) (hs : list (Z * entry_ptr) -> list (Z * entry_ptr)) : soc :=
  set_domains (fun D => if d =? 0 then D else <[d := (p, Z.to_nat id)]> D)
    (set_handlers hs (set_smsms (<[p := child_smsm d]>) half_soc)).

Lemma half_is_child : half_soc = child_soc 0 (fun l => l).
Proof.
  unfold child_soc, half_soc, set_domains, set_handlers, set_smsms, set_mem.
  cbn [sc_mem __smem smsms domains handlers drvdata kicks fired Z.eqb].
  by rewrite insert_insert_eq.
Qed.

Lemma child_frame d hs : (forall x, x ∈ hs (handlers c) -> x ∈ handlers c \/ x.2.1 = p) ->
  frame L h p s c (child_smsm d) (child_soc d hs).
Proof.
  intros Hhs. destruct half_words as [W1 W2]. constructor; try done.
  - intros _. cbn. by rewrite insert_insert_eq.
  - cbn. by rewrite length_insert.
  - intros i h' Hi Hh' Hne. cbn [sc_mem child_soc set_domains set_handlers set_smsms].
    rewrite W2 by done. by rewrite decide_False by congruence.
Qed.

Lemma child_doms d hs :
  (d = 0 \/ (d <> 0 /\ domains c !! d = None)) ->
  doms_ok p (child_smsm d) (child_soc d hs).
Proof.
  intros Hd. destruct (dr_doms _ _ _ _ _ D) as [D1 D2].
  constructor; cbn [domains child_soc set_domains set_handlers set_smsms half_soc set_mem].
  - intros j e. rewrite child_lookup. case_decide as Hj.
    + intros [= <-]. cbn. intros Hd0. solve_ifs. rewrite lookup_insert_eq. by rewrite Hj.
    + intros He Hd0. pose proof (D1 j e He Hd0) as Hj'. case_if; [done|].
      rewrite lookup_insert_ne; [done|]. intros Heq. rewrite <-Heq in Hj'. destruct Hd as [?|[_ Hd]]; [lia|congruence].
  - intros x q j Hx.
    assert (Hx' : (x = d /\ d <> 0 /\ q = p /\ j = Z.to_nat id) \/ domains c !! x = Some (q, j)).
    { destruct (d =? 0) eqn:E0; [by right|].
      apply lookup_insert_Some in Hx as [[<- [= <- <-]]|[_ Hx]]; [left; split_and!; [done|lia|done|done]|by right]. }
    destruct Hx' as [(->&Hd0&->&->)|Hx'].
    + split_and!; [done|done|]. eexists. rewrite child_lookup, decide_True by done. by split.
    + destruct (D2 x q j Hx') as (->&Hx0&e&He&Hed). split_and!; [done|done|]. exists e.
      rewrite child_lookup. case_decide as Hj; [|done]. subst j. rewrite Hzero in He. by simplify_eq.
Qed.

Lemma child_driver d irq : d <> 0 -> domains c !! d = None ->
  driver_ok L h p (child_smsm d) (child_soc d (fun l => (irq, (p, Z.to_nat id)) :: l)).
Proof.
  intros Hd0 Hd. constructor.
  - cbn. by rewrite lookup_insert_eq.
  - apply smsm_on_upd; [apply D|]. right. cbn. unfold entry_id in Hid. rewrite Z2Nat.id by lia. done.
  - apply child_doms. by right.
  - destruct (on_host _ _ _ (dr_on _ _ _ _ _ D)) as (_&_&Hh). destruct half_words as [_ W2].
    intros j e. rewrite child_lookup. cbn [sc_mem child_soc set_domains set_handlers set_smsms].
    assert (Hj0 : forall x, sm_entries s !! j = Some x -> entry_id L (Z.of_nat j))
      by (intros x Hx; by eapply entry_lookup_id; [apply D|]).
    unfold entry_id in Hid. case_decide as Hj.
    + intros [= <-] _. split; [done|]. subst j. rewrite Z2Nat.id by lia. rewrite W2 by done.
      by rewrite decide_True.
    + intros He Hs. destruct (dr_sub _ _ _ _ _ D j e He Hs) as [Hr Hw]. split; [exact Hr|].
      rewrite W2 by eauto. rewrite decide_False; [exact Hw|]. intros [= Hj']. lia.
  - intros i q j. cbn [handlers child_soc set_domains set_handlers]. intros [[= _ -> ->]|Hin]%elem_of_cons.
    + split; [done|]. eexists. rewrite child_lookup, decide_True by done. by split.
    + destruct (dr_handlers _ _ _ _ _ D i q j Hin) as (->&e&He&Hde). split; [done|]. exists e.
      rewrite child_lookup. case_decide as Hj; [|done]. subst j. rewrite Hzero in He. by simplify_eq.
Qed.
End child.

(** What a child comes to: set up, or refused with the domains still in order. *)
Lemma inbound_entry_exec L h p s c id ch :
  words_ok L (sc_mem c) -> driver_ok L h p s c -> entry_id L id ->
  sm_entries s !! Z.to_nat id = Some zero_entry -> ch_request ch <= 0 ->
  (forall d, ch_domain ch = Some d -> d <> 0 /\ domains c !! d = None) ->
  exists ret d c', smsm_inbound_entry (p, Z.to_nat id) ch (half_soc L h p s c id) = Ok (ret, c') /\
    smsms c' !! p = Some (child_smsm L s id d) /\
    frame L h p s c (child_smsm L s id d) c' /\ doms_ok p (child_smsm L s id d) c' /\
    sc_mem c' = wr32 (sc_mem c) (sub_addr L id h) 0 /\
    (ret < 0 \/ (ret = 0 /\ ch_domain ch = Some d /\ driver_ok L h p (child_smsm L s id d) c' /\
                 domains c' = <[d := (p, Z.to_nat id)]> (domains c))).
Proof.
  intros K D Hid Hz Hreq Hdom.
  pose proof (child_frame L h p s c id K D Hid) as HF. pose proof (child_doms L h p s c id D Hz) as HD.
  assert (Hfail : forall r, r < 0 -> exists ret d c',
    Ok (A := Z * soc) (r, half_soc L h p s c id) = Ok (ret, c') /\
    smsms c' !! p = Some (child_smsm L s id d) /\
    frame L h p s c (child_smsm L s id d) c' /\ doms_ok p (child_smsm L s id d) c' /\
    sc_mem c' = wr32 (sc_mem c) (sub_addr L id h) 0 /\
    (ret < 0 \/ (ret = 0 /\ ch_domain ch = Some d /\ driver_ok L h p (child_smsm L s id d) c' /\
                 domains c' = <[d := (p, Z.to_nat id)]> (domains c)))).
  { intros r Hr. rewrite (half_is_child L h p s c id). exists r, 0. eexists. split; [reflexivity|].
    split_and!; [cbn; by rewrite !lookup_insert_eq|apply HF; by left|apply HD; by left|done|by left]. }
  assert (Hhs : forall x, x ∈ (ch_irq ch, (p, Z.to_nat id)) :: handlers c -> x ∈ handlers c \/ x.2.1 = p)
    by (intros x [->|Hx]%elem_of_cons; [by right|by left]).
  unfold smsm_inbound_entry. cbn [fst snd].
  case_if; [by apply Hfail|]. case_if; [apply Hfail; lia|]. st_run.
  set (c3 := set_handlers _ _).
  assert (Hp : smsms c3 !! p = Some (child_smsm L s id 0)) by (cbn; by rewrite lookup_insert_eq).
  assert (He : sm_entries (child_smsm L s id 0) !! Z.to_nat id = Some (half_entry L id))
    by (rewrite child_lookup by done; by rewrite decide_True).
  rewrite (st_bind_ok _ _ _ _ _ (the_smsm_ok _ _ _ Hp)), (st_bind_ok _ _ _ _ _ (nth_entry_ok _ _ _ _ He)).
  assert (Hupd : forall d, upd_entry (child_smsm L s id 0) (Z.to_nat id) (with_domain (half_entry L id) d)
                           = child_smsm L s id d).
  { intros d. unfold child_smsm, upd_entry, with_arrays. cbn. by rewrite list_insert_insert_eq. }
  destruct (ch_domain ch) as [d|] eqn:Hch.
  - destruct (Hdom d eq_refl) as [Hd0 Hd]. st_run.
    erewrite st_bind_ok by (apply set_entry_ok; exact Hp). rewrite Hupd.
    exists 0, d. eexists. split; [reflexivity|].
    pose proof (child_driver L h p s c id K D Hid Hz d (ch_irq ch) Hd0 Hd) as HDr.
    unfold child_soc in HF, HDr. specialize (HF d (fun l => (ch_irq ch, (p, Z.to_nat id)) :: l) Hhs).
    replace (d =? 0) with false in HF, HDr by lia.
    split_and!; [cbn; by rewrite lookup_insert_eq|exact HF|exact (dr_doms _ _ _ _ _ HDr)|done|].
    right. split_and!; [done|done|exact HDr|done].
  - erewrite st_bind_ok by (apply set_entry_ok; exact Hp). rewrite Hupd.
    exists (- ENOMEM), 0. eexists. split; [reflexivity|].
    split_and!; [cbn; by rewrite lookup_insert_eq|exact (HF 0 (fun l => (ch_irq ch, (p, Z.to_nat id)) :: l) Hhs)
      |exact (HD 0 (fun l => (ch_irq ch, (p, Z.to_nat id)) :: l) (or_introl eq_refl))|done|by left].
Qed.

(** ** All children *)
Definition zero_left (L : layout) (s : qcom_smsm) (l : list dt_child) : Prop :=
  forall ch id, ch ∈ l -> selected ch = true -> ch_reg ch = inr id -> entry_id L id ->
    sm_entries s !! Z.to_nat id = Some zero_entry.

(** The entries of the children are set up, the others as before. *)
Definition set_up (L : layout) (l : list dt_child) (s s' : qcom_smsm) : Prop :=
  (forall ch id, ch ∈ l -> selected ch = true -> ch_reg ch = inr id ->
     exists d, ch_domain ch = Some d /\ entry_id L id /\
       sm_entries s' !! Z.to_nat id = Some (live_entry L id d)) /\
  (forall j, (forall ch id, ch ∈ l -> selected ch = true -> ch_reg ch = inr id -> Z.to_nat id <> j) ->
     sm_entries s' !! j = sm_entries s !! j).

Lemma set_up_nil L s : set_up L [] s s.
Proof. split; [|done]. by intros ch id ?%not_elem_of_nil. Qed.

Lemma set_up_skip L ch l s s' : selected ch = false -> set_up L l s s' -> set_up L (ch :: l) s s'.
Proof.
  intros Hsel [S1 S2]. split.
  - intros ch' id [->|Hin]%elem_of_cons Hs; [congruence|]. by apply S1.
  - intros j Hj. apply S2. intros ch' id Hin. apply Hj. by right.
Qed.

Lemma children_ok_insert doms ch l d v : selected ch = true -> ch_domain ch = Some d ->
  (forall ch', ch' ∈ l -> selected ch' = true -> forall x, ch_domain ch = Some x -> ch_domain ch' <> Some x) ->
  children_ok doms l -> children_ok (<[d := v]> doms) l.
Proof.
  intros Hs Hd. induction l as [|x l IH]; intros Hne; cbn [children_ok]; [done|].
  intros [H1 H2]. split; [|apply IH; [|done]; intros ch' Hin; apply Hne; by right].
  intros Hx. destruct (H1 Hx) as (Hr&Hq&Hdom&Hrest). split_and!; try done.
  intros y Hy. destruct (Hdom y Hy) as [Hy0 Hyn]. split; [done|].
  rewrite lookup_insert_ne; [done|]. intros ->. by apply (Hne x ltac:(by left) Hx y).
Qed.

Lemma child_zero_left L s id ch l d : entry_id L id -> sm_entries s !! Z.to_nat id = Some zero_entry ->
  ch_reg ch = inr id ->
  (forall ch', ch' ∈ l -> selected ch' = true ->
     match ch_reg ch' with inl r => r < 0 | inr i => 0 <= i end /\ ch_reg ch' <> inr id) ->
  zero_left L s (ch :: l) -> zero_left L (child_smsm L s id d) l.
Proof.
  intros Hid Hz Hreg Hdist HZ ch' id' Hin Hs Hr Hid'. destruct (Hdist ch' Hin Hs) as [Hge Hne].
  rewrite Hr in Hge, Hne. rewrite (child_lookup L s id Hz). unfold entry_id in Hid.
  rewrite decide_False by (intros ?; apply Hne; f_equal; lia). apply (HZ ch'); try done. by right.
Qed.

Lemma children_ok_elem doms l ch : children_ok doms l -> ch ∈ l -> selected ch = true ->
  match ch_reg ch with inl r => r < 0 | inr id => 0 <= id end.
Proof.
  induction l as [|x l IH]; intros Hok Hin Hs; [by apply not_elem_of_nil in Hin|].
  destruct Hok as [H1 H2]. apply elem_of_cons in Hin as [->|Hin]; [|by apply IH].
  by destruct (H1 Hs).
Qed.

Lemma set_up_child L s id ch l d s' : selected ch = true -> entry_id L id -> sm_entries s !! Z.to_nat id = Some zero_entry ->
  ch_reg ch = inr id -> ch_domain ch = Some d ->
  (forall ch', ch' ∈ l -> selected ch' = true ->
     match ch_reg ch' with inl r => r < 0 | inr i => 0 <= i end /\ ch_reg ch' <> inr id) ->
  set_up L l (child_smsm L s id d) s' -> set_up L (ch :: l) s s'.
Proof.
  intros Hs Hid Hz Hreg Hd Hdist [S1 S2]. unfold entry_id in Hid.
  assert (Hne : forall ch' id', ch' ∈ l -> selected ch' = true -> ch_reg ch' = inr id' -> Z.to_nat id' <> Z.to_nat id).
  { intros ch' id' Hin Hs' Hr. destruct (Hdist ch' Hin Hs') as [Hge Hne]. rewrite Hr in Hge, Hne.
    intros ?. apply Hne. f_equal. lia. }
  split.
  - intros ch' id' [->|Hin]%elem_of_cons Hs' Hr; [|by apply S1].
    rewrite Hreg in Hr. injection Hr as <-. exists d. split_and!; [done|done|].
    rewrite S2 by (intros; by eapply Hne). rewrite (child_lookup L s id Hz), decide_True by done. done.
  - intros j Hj. rewrite S2 by (intros ch' id' Hin; apply Hj; by right).
    rewrite (child_lookup L s id Hz). case_decide as Hji; [|done]. subst j.
    by destruct (Hj ch id ltac:(by left) Hs Hreg).
Qed.

(** What setting up the children comes to. *)
Definition entries_done (L : layout) (h p : Z) (l : list dt_child) (s : qcom_smsm) (c : soc)
    (o : res (Z * soc)) : Prop :=
  exists ret s' c', o = Ok (ret, c') /\
    smsms c' !! p = Some s' /\ frame L h p s c s' c' /\ doms_ok p s' c' /\
    (forall I, layout_of I = Some L -> mem_inv (sc_mem c) I -> mem_inv (sc_mem c') I) /\
    (ret < 0 \/ (ret = 0 /\ driver_ok L h p s' c' /\ set_up L l s s')).

Lemma entries_stopped L h p l s c r : r < 0 -> driver_ok L h p s c ->
  entries_done L h p l s c (Ok (r, c)).
Proof.
  intros Hr D. exists r, s, c. split_and!; [done|apply D|apply frame_refl|apply D|done|by left].
Qed.

Lemma inbound_children_exec L h p : forall l s c,
  l_entries L = E -> l_hosts L = H ->
  words_ok L (sc_mem c) -> driver_ok L h p s c -> children_ok (domains c) l -> zero_left L s l ->
  entries_done L h p l s c (inbound_children l p (l_states L) (l_intr L) c).
Proof.
  intros l s c HE HH. revert s c. induction l as [|ch l IH]; intros s c K D C ZL; cbn [inbound_children].
  { unfold entries_done. exists 0, s, c. split_and!; [done|apply D|apply frame_refl|apply D|done|].
    right. split_and!; [done|done|apply set_up_nil]. }
  destruct C as [C1 C2]. destruct (selected ch) eqn:Hsel.
  2: { replace (negb (ch_available ch) || negb (ch_interrupt_controller ch)) with true
         by (unfold selected in Hsel; by destruct (ch_available ch), (ch_interrupt_controller ch)).
       destruct (IH s c K D C2) as (ret&s'&c'&E1&Hp&F&Dm&HM&Hr).
       { intros ch' id Hin. apply ZL. by right. }
       exists ret, s', c'. split_and!; try done. destruct Hr as [?|(?&?&?)]; [by left|right].
       split_and!; try done. by apply set_up_skip. }
  replace (negb (ch_available ch) || negb (ch_interrupt_controller ch)) with false
    by (unfold selected in Hsel; by destruct (ch_available ch), (ch_interrupt_controller ch)).
  destruct (C1 eq_refl) as (Hreg&Hreq&Hdom&Hdist).
  destruct (ch_reg ch) as [r|id] eqn:Hr; [by apply entries_stopped|].
  pose proof (dr_smsm _ _ _ _ _ D) as Hp. destruct (on_sizes _ _ _ (dr_on _ _ _ _ _ D)) as [_ Hn].
  rewrite (st_bind_ok _ _ _ _ _ (the_smsm_ok _ _ _ Hp)), Hn.
  case_if; [by apply entries_stopped|].
  assert (Hid : entry_id L id) by (unfold entry_id; lia).
  pose proof (ZL ch id ltac:(by left) Hsel Hr Hid) as Hz.
  rewrite (child_prefix L h p s c id K D Hid Hz).
  destruct (inbound_entry_exec L h p s c id ch K D Hid Hz Hreq Hdom) as (ret&d&c1&E1&Hp1&F1&Dm1&Hm1&Hr1).
  rewrite (st_bind_ok _ _ _ _ _ E1).
  destruct (on_host _ _ _ (dr_on _ _ _ _ _ D)) as (_&_&Hh).
  assert (HM1 : forall I, layout_of I = Some L -> mem_inv (sc_mem c) I -> mem_inv (sc_mem c1) I)
    by (intros I HL HI; rewrite Hm1; by apply (mem_inv_sub _ _ L)).
  destruct Hr1 as [Hneg|(->&Hd&D1&Hdoms)].
  { solve_ifs. exists ret, (child_smsm L s id d), c1. split_and!; try done. by left. }
  cbn [Z.ltb Z.compare].
  assert (Hdist' : forall ch', ch' ∈ l -> selected ch' = true ->
     match ch_reg ch' with inl r => r < 0 | inr i => 0 <= i end /\ ch_reg ch' <> inr id).
  { intros ch' Hin Hs'. split; [by eapply children_ok_elem|]. by apply (Hdist ch' Hin Hs'). }
  destruct (IH (child_smsm L s id d) c1) as (ret&s'&c'&E2&Hp2&F2&Dm2&HM2&Hr2); [|done|..].
  { rewrite Hm1. by apply words_ok_store. }
  { rewrite Hdoms. eapply children_ok_insert; [exact Hsel|exact Hd| |exact C2].
    intros ch' Hin Hs' x. by apply (Hdist ch' Hin Hs'). }
  { by eapply child_zero_left. }
  exists ret, s', c'. split_and!; [done|done|exact (frame_trans _ _ _ _ _ _ _ _ _ Hp1 F1 F2)|done|eauto|].
  destruct Hr2 as [?|(->&D2&S2)]; [by left|right]. split_and!; [done|done|]. by eapply set_up_child.
Qed.
End memory.
