(* ===== verification/SmsmHost.v ===== *)
(** * One host of the shared memory state machine

    The driver on one system, bound to its device or not, together with the registry of
    shared memory states and the kernel around it.  [host_ok] is the invariant; every entry
    point keeps it, and changes of the shared memory only the words of its own system
    ([host_frame]). *)
From stdpp Require Import gmultiset.
From S2P Require Import Prelude CMem Smem SmemHeap SmemService SmemState SmemHandles.
From S2P Require Import Smsm SmsmOps SmsmProbe.
Open Scope c_scope.

Definition with_drv (r : registry soc) (c : soc) : registry soc :=
  Registry (objs r) (smem_states r) c.

Lemma at_drv_ok {A} (k : ST soc A) r x c : k (drv r) = Ok (x, c) -> on_drv k r = Ok (x, with_drv r c).
Proof. unfold on_drv. by intros ->. Qed.

(** What the driver core does around the two entry points. *)
Definition probe_end (env : smsm_env) (ret : Z) : ST (registry soc) Z :=
  (if ret =? 0 then st_ret tt
   else on_drv (st_upd (devres_release (default 0 (en_smsm env))))) ;;;
  st_ret ret.

Definition probe_device (env : smsm_env) : ST (registry soc) Z :=
  let! ret := qcom_smsm_probe env in probe_end env ret.

Definition remove_device : ST (registry soc) Z :=
  let! p := on_drv (st_get drvdata) in
  let! ret := qcom_smsm_remove in
  on_drv (st_upd (devres_release p)) ;;;
  st_ret ret.

Section host.
Context (smem : qcom_smem) {SV : SmemService smem} {SL : SmemLaws smem}.
Context (E H : Z).

(** ** The invariant *)

(** Bound: the address of the driver object, of its state, and the object. *)
Inductive status := Unbound | Bound (p a : Z) (s : qcom_smsm).

Definition own_of (st : status) : gset Z :=
  match st with Unbound => ∅ | Bound _ a _ => {[a]} end.

Definition quiet (c : soc) : Prop := smsms c = ∅ /\ domains c = ∅ /\ handlers c = [].

Record bound_ok (h : Z) (I : items) (r : registry soc) (p a : Z) (s : qcom_smsm) : Prop := {
  bo_driver : exists L, layout_of E H I = Some L /\ driver_ok L h p s (drv r);
  bo_only : smsms (drv r) = {[p := s]};
  bo_data : drvdata (drv r) = p;
  bo_state : sm_state s = a;
  bo_ops o : objs r !! a = Some o -> update_bits o = Some smsm_update_bits /\ priv o = p;
}.

Record host_ok (h : Z) (I : items) (r : registry soc) (held : gmultiset Z) (st : status) : Prop := {
  ho_smem : __smem (drv r) = Some smem;
  ho_reg : reg_inv r (own_of st) held;
  ho_status : match st with
              | Unbound => quiet (drv r)
              | Bound p a s => bound_ok h I r p a s
              end;
}.

(** What a step of host [h] may do to the memory: add items, change the state word of [h]
    and the column of [h]. *)
Record host_frame (h : Z) (m : mem) (I : items) (m' : mem) (I' : items) : Prop := {
  hf_items i v : I !! i = Some v -> I' !! i = Some v;
  hf_states L i : layout_of E H I = Some L -> entry_id L i -> i <> h ->
    state_word L m' i = state_word L m i;
  hf_subs L i h' : layout_of E H I = Some L -> entry_id L i -> host_id L h' -> h' <> h ->
    sub_word L m' i h' = sub_word L m i h';
}.

Lemma host_frame_refl h m I : host_frame h m I m I.
Proof. by constructor. Qed.

Lemma layout_of_mono I I' L : (forall i v, I !! i = Some v -> I' !! i = Some v) ->
  layout_of E H I = Some L -> layout_of E H I' = Some L.
Proof.
  intros Hi. unfold layout_of. destruct (I !! SMEM_SMSM_SHARED_STATE) as [[p sz]|] eqn:H1; [|done].
  destruct (I !! SMEM_SMSM_CPU_INTR_MASK) as [[q sz']|] eqn:H2; [|done].
  by rewrite (Hi _ _ H1), (Hi _ _ H2).
Qed.

Lemma host_frame_grown h m I m' I' : grown m I m' I' -> mem_inv smem E H m I -> host_frame h m I m' I'.
Proof.
  intros G M. constructor.
  - apply (gr_items _ _ _ _ G).
  - intros L i HL Hi _. by apply (grown_words smem E H m I m' I' L G M HL).
  - intros L i h' HL Hi Hh _. by apply (grown_words smem E H m I m' I' L G M HL).
Qed.

Lemma host_frame_trans h m I m1 I1 m2 I2 :
  host_frame h m I m1 I1 -> host_frame h m1 I1 m2 I2 -> host_frame h m I m2 I2.
Proof.
  intros [F1 F2 F3] [G1 G2 G3]. constructor.
  - auto.
  - intros L i HL Hi Hne. assert (HL1 := layout_of_mono _ _ _ F1 HL). by rewrite (G2 L), (F2 L).
  - intros L i h' HL Hi Hh Hne. assert (HL1 := layout_of_mono _ _ _ F1 HL). by rewrite (G3 L), (F3 L).
Qed.

(** A set-up inside one layout. *)
Lemma host_frame_setup L h p s c s' c' I : layout_of E H I = Some L ->
  frame L h p s c s' c' -> host_frame h (sc_mem c) I (sc_mem c') I.
Proof.
  intros HL F. constructor; [done|intros L' i HL'|intros L' i h' HL']; rewrite HL in HL'; injection HL' as <-.
  - intros Hi _. by apply (fr_states _ _ _ _ _ _ _ F).
  - intros Hi Hh Hne. by apply (fr_subs _ _ _ _ _ _ _ F).
Qed.

(** The steps of the other systems keep the invariant of this one. *)
Lemma driver_ok_frame L h h0 p s c m' I I' : layout_of E H I = Some L -> h0 <> h ->
  host_frame h0 (sc_mem c) I m' I' -> driver_ok L h p s c -> driver_ok L h p s (set_mem c m').
Proof.
  intros HL Hne F [D1 D2 [D3a D3b] D4 D5]. constructor; try done.
  intros id e He Hs. cbn [sc_mem set_mem]. destruct (D4 id e He Hs) as [? Hw]. split; [done|].
  rewrite (hf_subs _ _ _ _ _ F L); try done.
  - by eapply entry_lookup_id.
  - by destruct (on_host _ _ _ D2) as (_&_&?).
Qed.

Lemma host_ok_other h h0 I r held st m' I' : h0 <> h ->
  host_frame h0 (sc_mem (drv r)) I m' I' -> host_ok h I r held st ->
  host_ok h I' (with_drv r (set_mem (drv r) m')) held st.
Proof.
  intros Hne F [S R T]. constructor; [done|by apply reg_inv_drv|]. destruct st as [|p a s]; [done|].
  destruct T as [(L&HL&D) T2 T3 T4 T5]. constructor; try done.
  exists L. split; [by apply (layout_of_mono I); [apply F|]|].
  by apply (driver_ok_frame L h h0 p s (drv r) m' I I').
Qed.

(** ** Taking a driver down *)
Lemma unwind_exec p s r own held : reg_inv r own held -> sm_state s ∈ own ->
  smsms (drv r) !! p = Some s -> num_entries s = Z.of_nat (length (sm_entries s)) ->
  doms_ok p s (drv r) ->
  exists r', unwind_interfaces p r = Ok (tt, r') /\ reg_inv r' (own ∖ {[sm_state s]}) held /\
    drv r' = set_domains (fun _ => ∅) (drv r) /\
    (forall b o, b <> sm_state s -> objs r !! b = Some o -> objs r' !! b = Some o).
Proof.
  intros R Ha Hp Hn [D1 D2]. unfold unwind_interfaces.
  rewrite (st_bind_ok _ _ _ _ _ (at_drv_ok _ _ _ _ (the_smsm_ok _ _ _ Hp))), Hn, Nat2Z.id.
  assert (Hrm : remove_domains (length (sm_entries s)) p 0 (drv r) = Ok (tt, set_domains (fun _ => ∅) (drv r))).
  { apply (remove_domains_exec p s); [done|lia|eauto|].
    intros d q j Hd. destruct (D2 d q j Hd) as (->&?&?). split_and!; try done. lia. }
  erewrite st_bind_ok by (apply at_drv_ok; exact Hrm).
  destruct (unregister_inv (with_drv (with_drv r (drv r)) (set_domains (fun _ => ∅) (drv r))) own held (sm_state s))
    as (r'&E1&R'&Hd&Ho); [exact (reg_inv_drv r own held _ R)|done|].
  exists r'. split_and!; [exact E1|exact R'|exact Hd|exact Ho].
Qed.

(** Nothing of the driver is left. *)
Lemma released_quiet p c : domains c = ∅ -> (forall x, x ∈ handlers c -> x.2.1 = p) ->
  delete p (smsms c) = ∅ -> quiet (devres_release p c).
Proof.
  intros Hd Hh Hs. split_and!; [exact Hs|exact Hd|]. cbn [devres_release handlers set_smsms set_handlers].
  destruct (filter _ (handlers c)) as [|x l] eqn:Hf; [done|].
  assert (Hx : x ∈ x :: l) by (by left). rewrite <-Hf in Hx.
  apply list_elem_of_filter in Hx as [Hne Hx]. by destruct Hne; apply Hh.
Qed.

(** ** Probing *)
Record env_ok (h : Z) (r : registry soc) (env : smsm_env) : Prop := {
  ev_host : default 0 (en_local_host env) = h;
  ev_ids : 0 <= h < E /\ h < H;
  ev_state a : en_state env = Some a -> objs r !! a = None;
  ev_locks i : lock_ok (en_lock env i);
  ev_ipc i : ipc_ok (en_ipc env i);
  ev_children : children_ok ∅ (en_children env);
}.

(** The object when the entries are set up. *)
Definition start_smsm (L : layout) (h : Z) (env : smsm_env) (a : Z) : qcom_smsm :=
  with_pointers (fresh_smsm E H env (hosts_of H env)) (state_addr L h) (sub_addr L h 0) a.

Lemma start_driver L h env p a c m : 0 < E -> 0 < H -> l_entries L = E -> l_hosts L = H ->
  0 <= h < E /\ h < H -> default 0 (en_local_host env) = h -> quiet c ->
  driver_ok L h p (start_smsm L h env a) (probing c p m (start_smsm L h env a)).
Proof.
  intros HE0 HH0 HE HH [Hh Hh'] Hlh (Q1&Q2&Q3).
  assert (Hz : forall id e, sm_entries (start_smsm L h env a) !! id = Some e -> e = zero_entry)
    by (intros id e He; cbn in He; by apply lookup_replicate in He as [? _]).
  constructor.
  - apply probing_smsm.
  - constructor; cbn; unfold entry_id, host_id; rewrite ?HE, ?HH; try (split_and!; (done || lia)).
    + unfold hosts_of. rewrite length_replicate, length_fmap, length_seq. lia.
    + intros id e ->%Hz. by left.
    + intros i hst e. unfold hosts_of. rewrite list_lookup_fmap.
      destruct (seq _ _ !! i); [|done]. intros [= <-]. apply host_of_regmap.
  - constructor; cbn [domains probing set_mem set_smsms]; [|rewrite Q2].
    + intros id e ->%Hz. done.
    + intros d q id. by rewrite lookup_empty.
  - intros id e ->%Hz. done.
  - intros irq q id. cbn [handlers probing set_mem set_smsms]. rewrite Q3. by intros ?%not_elem_of_nil.
Qed.

(** After a failure nothing of the driver is left, and the registry is as before. *)
Lemma released_ok h I r held p c : __smem c = Some smem ->
  reg_inv r ∅ held -> domains c = ∅ -> (forall x, x ∈ handlers c -> x.2.1 = p) ->
  delete p (smsms c) = ∅ -> host_ok h I (with_drv r (devres_release p c)) held Unbound.
Proof.
  intros Hs R Hd Hh Hp. constructor; [exact Hs|apply (reg_inv_drv _ _ _ _ R)|].
  by apply released_quiet.
Qed.

(** What a probe comes to. *)
Definition probed (h : Z) (m : mem) (I : items) (held : gmultiset Z) (env : smsm_env)
    (ret : Z) (r' : registry soc) : Prop :=
  exists I', mem_inv smem E H (sc_mem (drv r')) I' /\ host_frame h m I (sc_mem (drv r')) I' /\
    ((ret < 0 /\ host_ok h I' r' held Unbound) \/
     (ret = 0 /\ exists L p a s, layout_of E H I' = Some L /\ en_smsm env = Some p /\ en_state env = Some a /\
        host_ok h I' r' held (Bound p a s) /\ set_up L (en_children env) (start_smsm L h env a) s)).

Lemma probe_failed h m I held env ret r1 p c I' :
  ret < 0 -> default 0 (en_smsm env) = p -> drv r1 = c -> __smem c = Some smem -> reg_inv r1 ∅ held -> domains c = ∅ ->
  (forall x, x ∈ handlers c -> x.2.1 = p) -> delete p (smsms c) = ∅ ->
  mem_inv smem E H (sc_mem c) I' -> host_frame h m I (sc_mem c) I' ->
  exists r', probe_end env ret r1 = Ok (ret, r') /\ probed h m I held env ret r'.
Proof.
  intros Hr Hp Hc Hs R Hd Hh Hsm M F. unfold probe_end. replace (ret =? 0) with false by lia. rewrite Hp.
  erewrite st_bind_ok by (apply at_drv_ok; reflexivity). eexists. split; [reflexivity|].
  exists I'. rewrite Hc. split_and!; [exact M|exact F|]. left. split; [done|].
  by apply released_ok.
Qed.

(** The last part of the probe, and what the driver core does after it. *)
Lemma probe_entries h m I0 I held env L p a c r1 :
  mem_inv smem E H (sc_mem c) I -> layout_of E H I = Some L -> host_frame h m I0 (sc_mem c) I ->
  en_smsm env = Some p -> en_state env = Some a -> children_ok ∅ (en_children env) ->
  __smem c = Some smem -> drv r1 = c -> reg_inv r1 {[a]} held ->
  (forall o, objs r1 !! a = Some o -> update_bits o = Some smsm_update_bits /\ priv o = p) ->
  smsms c = {[p := start_smsm L h env a]} -> domains c = ∅ -> handlers c = [] ->
  driver_ok L h p (start_smsm L h env a) c ->
  exists ret r', (let! ret := smsm_probe_entries env p (l_states L) (l_intr L) in probe_end env ret) r1 = Ok (ret, r') /\
    probed h m I0 held env ret r'.
Proof.
  intros M HL F Hsm Hst C Hs Hc R Hops Honly Hd Hh D.
  destruct (layout_of_Some _ _ _ _ HL) as (HE&HH&_).
  set (s0 := start_smsm L h env a) in *.
  destruct (inbound_children_exec smem E H L h p (en_children env) s0 c HE HH
    (layout_words smem E H _ _ _ M HL) D) as (ret&s'&c'&E1&Hp&Fr&Dm&HM&Hr).
  { by rewrite Hd. }
  { intros ch id _ _ _ Hid. cbn. rewrite lookup_replicate. split; [done|]. unfold entry_id in Hid. lia. }
  pose proof (host_frame_setup L h p s0 c s' c' I HL Fr) as F2.
  pose proof (host_frame_trans h m I0 _ I _ I F F2) as F3.
  assert (Hsm' : smsms c' = {[p := s']}).
  { rewrite (fr_smsm _ _ _ _ _ _ _ Fr) by (rewrite Honly; apply lookup_singleton_eq).
    rewrite Honly. apply insert_singleton_eq. }
  assert (Hhs : forall x, x ∈ handlers c' -> x.2.1 = p).
  { intros x [Hx|Hx]%(fr_handlers _ _ _ _ _ _ _ Fr); [|done]. rewrite Hh in Hx. by apply not_elem_of_nil in Hx. }
  destruct (fr_sizes _ _ _ _ _ _ _ Fr) as (N1&N2&N3&_).
  unfold smsm_probe_entries. rewrite st_bind_bind.
  erewrite st_bind_ok by (apply at_drv_ok; rewrite Hc; exact E1).
  assert (Hs' : __smem c' = Some smem) by (by rewrite (fr_smem _ _ _ _ _ _ _ Fr)).
  destruct Hr as [Hneg|(->&D'&S')].
  - replace (negb (ret =? 0)) with true by lia.
    destruct (unwind_exec p s' (with_drv r1 c') {[a]} held) as (r2&E2&R2&Hd2&_); try done.
    + apply (reg_inv_drv _ _ _ _ R).
    + rewrite N3. cbn. set_solver.
    + rewrite N1, N2. by destruct (on_sizes _ _ _ (dr_on _ _ _ _ _ D)) as [_ ->],
        (on_lengths _ _ _ (dr_on _ _ _ _ _ D)) as [<- _].
    + rewrite st_bind_bind, (st_bind_ok _ _ _ _ _ E2), st_bind_ret.
      rewrite N3 in R2. cbn in R2. replace ({[a]} ∖ {[a]}) with (∅ : gset Z) in R2 by set_solver.
      eexists ret. apply (probe_failed h m I0 held env ret r2 p (drv r2) I);
        rewrite ?Hd2; cbn [domains handlers smsms __smem sc_mem set_domains with_drv drv]; try done.
      * by rewrite Hsm.
      * rewrite Hsm'. apply delete_singleton_eq.
      * by apply HM.
  - cbn [Z.eqb negb]. rewrite st_bind_bind. erewrite st_bind_ok by (apply at_drv_ok; reflexivity).
    exists 0. eexists. split; [reflexivity|]. exists I. split_and!; [by apply HM|exact F3|]. right.
    split; [done|]. exists L, p, a, s'. split_and!; [done|done|done| |exact S'].
    constructor; [exact Hs'|apply (reg_inv_drv _ _ _ _ R)|]. constructor; [|exact Hsm'|done|exact N3|done].
    exists L. split; [done|]. destruct D' as [X1 X2 [X3 X4] X5 X6]. by constructor.
Qed.

Lemma quiet_probing c p m s : quiet c ->
  smsms (probing c p m s) = {[p := s]} /\ domains (probing c p m s) = ∅ /\ handlers (probing c p m s) = [].
Proof. intros (Q1&Q2&Q3). cbn. by rewrite Q1, Q2, Q3. Qed.

(** A failure before the entries. *)
Lemma probe_failed_early h m I held env ret r1 p m' s' c I' :
  ret < 0 -> en_smsm env = Some p -> drv r1 = probing c p m' s' -> __smem c = Some smem -> quiet c ->
  reg_inv r1 ∅ held -> mem_inv smem E H m' I' -> host_frame h m I m' I' ->
  exists r', probe_end env ret r1 = Ok (ret, r') /\ probed h m I held env ret r'.
Proof.
  intros Hr Hp Hd Hs Q R M F. destruct (quiet_probing c p m' s' Q) as (Q1&Q2&Q3).
  apply (probe_failed h m I held env ret r1 p (probing c p m' s') I'); try done.
  - by rewrite Hp.
  - intros x. rewrite Q3. by intros ?%not_elem_of_nil.
  - rewrite Q1. apply delete_singleton_eq.
Qed.

(** The part of the probe that makes the words and the state known. *)
Lemma probe_state h r held env I states intr p m' I' :
  host_ok h I r held Unbound -> env_ok h r env -> en_smsm env = Some p ->
  mem_inv smem E H m' I' -> host_frame h (sc_mem (drv r)) I m' I' ->
  layout_of E H I' = Some (Layout states intr E H) ->
  exists ret r', (let! ret := smsm_probe_state env p states intr in probe_end env ret)
      (with_drv r (probing (drv r) p m' (fresh_smsm E H env (hosts_of H env)))) = Ok (ret, r') /\
    probed h (sc_mem (drv r)) I held env ret r'.
Proof.
  intros [Hs R Q] V Hp M' F HL. set (L := Layout states intr E H) in *. cbn [own_of] in R.
  pose proof (mi_range _ _ _ _ _ M') as HR.
  pose proof (layout_words smem E H _ _ _ M' HL) as K. destruct (ev_ids _ _ _ V) as [Hh Hh'].
  unfold smsm_probe_state. erewrite st_bind_bind, st_bind_ok by (apply at_drv_ok, the_smsm_probing).
  erewrite st_bind_bind, st_bind_ok by (apply at_drv_ok, put_smsm_probing).
  cbn [local_host num_hosts fresh_smsm]. rewrite (ev_host _ _ _ V).
  change (word_at states h) with (word_at (l_states L) h).
  rewrite (word_at_state L m' K h) by (unfold entry_id; cbn; lia).
  change (word_at intr (u32 (h * H))) with (word_at (l_intr L) (u32 (h * l_hosts L))).
  rewrite (word_at_row L m' K h), st_bind_bind by (unfold entry_id; cbn; lia).
  destruct (en_state env) as [a|] eqn:Ha.
  2: { unfold qcom_smem_state_register. rewrite st_bind_ret, st_bind_bind.
       erewrite st_bind_ok by (apply at_drv_ok, put_smsm_probing).
       rewrite st_bind_ret. exists (- ENOMEM).
       eapply (probe_failed_early h _ I held env (- ENOMEM) _ p m' _ (drv r) I'); try done.
       apply (reg_inv_drv _ _ _ _ R). }
  set (np := default 0 _). set (r0 := with_drv _ _).
  destruct (register_inv r0 ∅ held a np (Some smsm_update_bits) p) as (r1&E2&R1&Hd1&Ho1).
  { apply (reg_inv_drv _ _ _ _ R). }
  { by apply (ev_state _ _ _ V). }
  rewrite (st_bind_ok _ _ _ _ _ E2), st_bind_bind.
  erewrite st_bind_ok by (apply at_drv_ok; rewrite Hd1; apply put_smsm_probing).
  fold (start_smsm L h env a).
  destruct (quiet_probing (drv r) p m' (start_smsm L h env a) Q) as (Q1&Q2&Q3).
  apply (probe_entries h (sc_mem (drv r)) I I' held env L p a (probing (drv r) p m' (start_smsm L h env a)));
    try done.
  - apply V.
  - apply (reg_inv_drv r1 {[a]} held). by rewrite (right_id_L ∅ (∪)) in R1.
  - intros o. cbn [objs with_drv]. rewrite Ho1, lookup_insert_eq. by intros [= <-].
  - apply start_driver; try done; try lia. by apply V.
Qed.

Lemma probe_step h r held env I : host_ok h I r held Unbound ->
  mem_inv smem E H (sc_mem (drv r)) I -> env_ok h r env ->
  exists ret r', probe_device env r = Ok (ret, r') /\ probed h (sc_mem (drv r)) I held env ret r'.
Proof.
  intros HO M V. pose proof HO as [Hs R Q]. unfold probe_device, qcom_smsm_probe. cbn [own_of] in R.
  destruct (en_smsm env) as [p|] eqn:Hp.
  2: { rewrite st_bind_ret. exists (- ENOMEM). destruct Q as (Q1&Q2&Q3).
       eapply (probe_failed h _ I held env _ r 0 (drv r) I);
         [done|by rewrite Hp|done|exact Hs|exact R|exact Q2| |rewrite Q1; apply delete_empty|exact M|].
       - intros x. rewrite Q3. by intros ?%not_elem_of_nil.
       - apply host_frame_refl. }
  destruct (probe_regions_exec smem E H env p (drv r) I Hs M (ev_locks _ _ _ V) (ev_ipc _ _ _ V))
    as (x&m'&I'&s'&E1&M'&G&Hx).
  pose proof (host_frame_grown h _ _ _ _ G M) as F.
  rewrite st_bind_bind. erewrite st_bind_ok by (apply at_drv_ok; exact E1).
  destruct x as [ret|[states intr]].
  - rewrite st_bind_ret. exists ret.
    apply (probe_failed_early h _ I held env ret _ p m' s' (drv r) I'); try done.
    apply (reg_inv_drv _ _ _ _ R).
  - destruct Hx as [HL ->]. by apply (probe_state h r held env I states intr p m' I').
Qed.

(** C24: the probe of an unbound device, run on a memory whose regions, if allocated, are as
    large as the [E] entries and [H] hosts need ([mem_inv]), returns whichever of its
    allocations, locks, phandles, interrupts, domains and registrations fail, for every
    choice of children.  The conditions on the environment are those of [env_ok]: the local
    host is below the numbers of entries and hosts (the code does not compare them), errors
    of the kernel are negative, the device tree names nonnegative entries, two selected
    children name different ones, and an allocated object or domain is a new one.
    A failure at any point leaves nothing of the driver behind: no object, no
    domain, no handler, no registered state, and the words of the other systems untouched.
    Success binds the driver: its words lie in the two regions, which are large enough; every
    selected child listens to its word with its own domain and starts unsubscribed. *)
Theorem smsm_probe_correct h r held env I : host_ok h I r held Unbound ->
  mem_inv smem E H (sc_mem (drv r)) I -> env_ok h r env ->
  exists ret r', probe_device env r = Ok (ret, r') /\ probed h (sc_mem (drv r)) I held env ret r'.
Proof. apply probe_step. Qed.

(** ** Removing *)
Lemma remove_step h I r held p a s : host_ok h I r held (Bound p a s) ->
  exists r', remove_device r = Ok (0, r') /\ host_ok h I r' held Unbound /\ sc_mem (drv r') = sc_mem (drv r).
Proof.
  intros [Hs R [(L&HL&D) Ho Hd <- Hops]]. cbn [own_of] in R. unfold remove_device, qcom_smsm_remove.
  erewrite st_bind_ok by (apply at_drv_ok; reflexivity). rewrite st_bind_bind.
  erewrite st_bind_ok by (apply at_drv_ok; reflexivity). rewrite st_bind_bind. cbn [drv with_drv]. rewrite Hd.
  destruct (unwind_exec p s r {[sm_state s]} held R) as (r2&E2&R2&Hd2&_).
  - set_solver.
  - apply D.
  - destruct (on_sizes _ _ _ (dr_on _ _ _ _ _ D)) as [_ ->]. by destruct (on_lengths _ _ _ (dr_on _ _ _ _ _ D)) as [<- _].
  - apply D.
  - assert (Hr : with_drv (with_drv r (drv r)) (drv r) = r) by (by destruct r). rewrite Hr.
    rewrite (st_bind_ok _ _ _ _ _ E2), st_bind_ret. erewrite st_bind_ok by (apply at_drv_ok; reflexivity).
    eexists. split; [reflexivity|]. rewrite Hd2. split; [|done].
    apply released_ok; cbn [__smem domains handlers smsms set_domains]; try done.
    + by replace ({[sm_state s]} ∖ {[sm_state s]}) with (∅ : gset Z) in R2 by set_solver.
    + intros [irq [q id]] Hx. by destruct (dr_handlers _ _ _ _ _ D irq q id Hx).
    + rewrite Ho. apply delete_singleton_eq.
Qed.

(** ** Handles *)
Lemma bound_ok_objs h I r r' p a s : drv r' = drv r ->
  (forall o', objs r' !! a = Some o' -> exists o, objs r !! a = Some o /\
     update_bits o' = update_bits o /\ priv o' = priv o) ->
  bound_ok h I r p a s -> bound_ok h I r' p a s.
Proof.
  intros Hd Ho [B1 B2 B3 B4 B5]. constructor; rewrite ?Hd; try done.
  intros o' (o&Hoo&->&->)%Ho. by apply B5.
Qed.

Lemma get_step h I r held st dev con x r' : host_ok h I r held st ->
  qcom_smem_state_get dev con r = Ok (x, r') ->
  drv r' = drv r /\
  host_ok h I r' (match x.1 with inl _ => held | inr a => held ⊎ {[+ a +]} end) st.
Proof.
  intros [Hs R T] E1. destruct (get_inv r (own_of st) held dev con R) as [[e E2]|(b&o&bit&E2&Ho&R2)];
    rewrite E1 in E2; injection E2 as -> ->; (split; [done|]); constructor; try done.
  destruct st as [|p a s]; [done|]. apply (bound_ok_objs h I r); [done| |done].
  intros o'. cbn. rewrite lookup_insert_Some. intros [[-> <-]|[_ Ho']]; eauto.
Qed.

Lemma put_step h I r held st a : host_ok h I r held st -> a ∈ held ->
  exists r', qcom_smem_state_put a r = Ok (tt, r') /\ drv r' = drv r /\ host_ok h I r' (held ∖ {[+ a +]}) st.
Proof.
  intros [Hs R T] Ha. destruct (put_inv r (own_of st) held a R Ha) as (r'&E1&R'&Hd&Hne&Heq).
  exists r'. split_and!; [done|done|]. constructor; [by rewrite Hd|done|].
  destruct st as [|p b s]; [by rewrite Hd|]. apply (bound_ok_objs h I r); [done| |done].
  intros o' Ho'. destruct (decide (b = a)) as [->|Hba].
  - destruct Heq as (o&n&Ho&Hn); [cbn; set_solver|]. rewrite Ho' in Hn. injection Hn as ->. by exists o.
  - destruct (ri_own _ _ _ R b ltac:(cbn; set_solver)) as [o Ho].
    rewrite (Hne b o Hba Ho) in Ho'. injection Ho' as <-. by exists o.
Qed.

(** ** Changing the outgoing state through a handle *)
Lemma updated_frame L h s c mask value :
  let c' := updated L h s c mask value in
  __smem c' = __smem c /\ smsms c' = smsms c /\ domains c' = domains c /\ handlers c' = handlers c /\
  drvdata c' = drvdata c /\
  sc_mem c' = let orig := state_word L (sc_mem c) h in
              if Z.lxor (new_word orig mask value) orig =? 0 then sc_mem c
              else wr32 (sc_mem c) (state_addr L h) (new_word orig mask value).
Proof. unfold updated. cbv zeta. by case_if. Qed.

Lemma update_driver L h p s c mask value I : layout_of E H I = Some L -> mem_inv smem E H (sc_mem c) I ->
  driver_ok L h p s c ->
  let c' := updated L h s c mask value in
  driver_ok L h p s c' /\ mem_inv smem E H (sc_mem c') I /\ host_frame h (sc_mem c) I (sc_mem c') I.
Proof.
  intros HL M D c'. destruct (updated_frame L h s c mask value) as (_&U2&U3&U4&_&U6).
  fold c' in U2, U3, U4, U6. cbv zeta in U6. pose proof (layout_words smem E H _ _ _ M HL) as K.
  destruct (on_host _ _ _ (dr_on _ _ _ _ _ D)) as (_&He&Hh).
  assert (Hsub : forall i h', entry_id L i -> host_id L h' ->
            sub_word L (sc_mem c') i h' = sub_word L (sc_mem c) i h').
  { intros i h' Hi Hh'. rewrite U6. case_if; [done|]. by apply sub_word_state. }
  split_and!.
  - destruct D as [D1 D2 [D3 D4] D5 D6]. constructor; rewrite ?U2, ?U4; try done.
    + by constructor; rewrite U3.
    + intros id e Hid Hs. destruct (D5 id e Hid Hs). split; [done|].
      rewrite Hsub; [done| |done]. by eapply entry_lookup_id.
  - rewrite U6. case_if; [done|]. by apply (mem_inv_state smem E H _ _ L).
  - constructor; [done|intros L' i HL'|intros L' i h' HL']; rewrite HL in HL'; injection HL' as <-.
    + intros Hi Hne. rewrite U6. case_if; [done|]. rewrite state_word_set by done. by rewrite decide_False.
    + intros Hi Hh' _. by apply Hsub.
Qed.

Lemma update_step h I r held st a mask value : host_ok h I r held st ->
  mem_inv smem E H (sc_mem (drv r)) I -> a ∈ held ->
  exists ret r', qcom_smem_state_update_bits a mask value r = Ok (ret, r') /\
    mem_inv smem E H (sc_mem (drv r')) I /\ host_frame h (sc_mem (drv r)) I (sc_mem (drv r')) I /\
    host_ok h I r' held st /\
    match st with
    | Bound p b s =>
      if decide (a = b) then
        ret = 0 /\ exists L, layout_of E H I = Some L /\ drv r' = updated L h s (drv r) mask value
      else ret = - ENXIO /\ r' = r
    | Unbound => ret = - ENXIO /\ r' = r
    end.
Proof.
  intros [Hs R T] M Ha. destruct (update_exec r (own_of st) held a mask value R Ha) as (o&Ho&E1).
  assert (Hno : a ∉ own_of st -> exists ret r', qcom_smem_state_update_bits a mask value r = Ok (ret, r') /\
    mem_inv smem E H (sc_mem (drv r')) I /\ host_frame h (sc_mem (drv r)) I (sc_mem (drv r')) I /\
    host_ok h I r' held st /\ ret = - ENXIO /\ r' = r).
  { intros Hn. exists (- ENXIO), r. rewrite E1, decide_False by done. by split_and!. }
  destruct st as [|p b s]; cbn [own_of] in *; [apply Hno; set_solver|].
  destruct (decide (a = b)) as [Hab|Hab]; [|apply Hno; set_solver]. subst b.
  destruct T as [(L&HL&D) B2 B3 B4 B5]. destruct (B5 o Ho) as [Hu Hp].
  pose proof (layout_words smem E H _ _ _ M HL) as K.
  pose proof (update_bits_exec L h p s (drv r) K (dr_on _ _ _ _ _ D) (dr_smsm _ _ _ _ _ D) mask value) as E2.
  exists 0. eexists. rewrite E1, decide_True by set_solver. rewrite Hu, Hp. split; [by apply at_drv_ok|].
  destruct (update_driver L h p s (drv r) mask value I HL M D) as (D'&M'&F).
  destruct (updated_frame L h s (drv r) mask value) as (U1&U2&_&_&U5&_).
  split_and!; [exact M'|exact F| |done|by exists L].
  constructor; [by cbn [drv with_drv]; rewrite U1|apply (reg_inv_drv _ _ _ _ R)|].
  constructor; [by exists L|by cbn [drv with_drv]; rewrite U2|by cbn [drv with_drv]; rewrite U5|done|done].
Qed.

(** ** The entries *)

(** A step changes the bitmaps of one entry, and the element of the matrix for it. *)
Record entry_change (L : layout) (h p : Z) (s : qcom_smsm) (id : nat) (e e' : smsm_entry) (c c' : soc) : Prop := {
  ec_same : se_domain e' = se_domain e /\ se_remote_state e' = se_remote_state e /\
    se_subscription e' = se_subscription e;
  ec_smsms : smsms c' = <[p := upd_entry s id e']> (smsms c);
  ec_kernel : domains c' = domains c /\ handlers c' = handlers c /\ drvdata c' = drvdata c /\
    __smem c' = __smem c;
  ec_mem : (exists v, sc_mem c' = wr32 (sc_mem c) (sub_addr L (Z.of_nat id) h) v /\
      se_enabled e' = v /\ 0 <= v < 2 ^ 32) \/
    (sc_mem c' = sc_mem c /\ se_enabled e' = se_enabled e);
}.

Section entry_change.
Context (L : layout) (I : items) (h p : Z) (s : qcom_smsm) (id : nat) (e e' : smsm_entry) (c c' : soc).
Hypothesis (M : mem_inv smem E H (sc_mem c) I) (HL : layout_of E H I = Some L).
Hypothesis (D : driver_ok L h p s c) (Hid : sm_entries s !! id = Some e) (Hd : se_domain e <> 0).
Hypothesis (X : entry_change L h p s id e e' c c').

Lemma change_words :
  mem_inv smem E H (sc_mem c') I /\
  (forall i, entry_id L i -> state_word L (sc_mem c') i = state_word L (sc_mem c) i) /\
  (forall i h', entry_id L i -> host_id L h' -> (i, h') <> (Z.of_nat id, h) ->
     sub_word L (sc_mem c') i h' = sub_word L (sc_mem c) i h') /\
  0 <= se_enabled e' < 2 ^ 32 /\ sub_word L (sc_mem c') (Z.of_nat id) h = se_enabled e'.
Proof.
  pose proof (layout_words smem E H _ _ _ M HL) as K.
  destruct (driver_entry L h p s c id e D Hid Hd) as [_ Hi _ Hss _].
  destruct (on_host _ _ _ (dr_on _ _ _ _ _ D)) as (_&_&Hh).
  destruct (ec_mem _ _ _ _ _ _ _ _ _ X) as [(v&-> & -> &Hv)|[-> ->]].
  - split_and!; [by apply (mem_inv_sub smem E H _ _ L)|intros i Hi'; by apply state_word_sub| |lia|lia|].
    + intros i h' Hi' Hh' Hne. rewrite sub_word_set by done. by rewrite decide_False.
    + rewrite sub_word_set by done. rewrite decide_True by done. by apply u32_id.
  - destruct (dr_sub _ _ _ _ _ D id e Hid) as [? ?]; [by rewrite Hss; apply (sub_addr_pos L _ K)|].
    split_and!; try done; lia.
Qed.

Lemma change_frame : host_frame h (sc_mem c) I (sc_mem c') I.
Proof.
  destruct change_words as (_&W1&W2&_).
  constructor; [done|intros L' i HL'|intros L' i h' HL']; rewrite HL in HL'; injection HL' as <-.
  - intros Hi _. by apply W1.
  - intros Hi Hh' Hne. apply W2; [done..|congruence].
Qed.

Lemma change_lookup j : sm_entries (upd_entry s id e') !! j =
  if decide (j = id) then Some e' else sm_entries s !! j.
Proof.
  cbn. pose proof (lookup_lt_Some _ _ _ Hid). case_decide as Hj; [subst j; by apply list_lookup_insert_eq|].
  by rewrite list_lookup_insert_ne.
Qed.

(** An entry with a domain is still one with the same domain. *)
Lemma change_keeps j x : sm_entries s !! j = Some x ->
  exists x', sm_entries (upd_entry s id e') !! j = Some x' /\ se_domain x' = se_domain x.
Proof.
  intros Hj. rewrite change_lookup. case_decide as Hji; [|by exists x]. subst j.
  rewrite Hid in Hj. injection Hj as <-. exists e'. split; [done|]. apply X.
Qed.

Lemma change_driver : driver_ok L h p (upd_entry s id e') c'.
Proof.
  destruct change_words as (_&_&W2&W3&W4). destruct (driver_entry L h p s c id e D Hid Hd) as [_ Hi Hr Hs _].
  destruct (ec_kernel _ _ _ _ _ _ _ _ _ X) as (C2&C3&_). destruct (ec_same _ _ _ _ _ _ _ _ _ X) as (Ed&Er&Es).
  destruct D as [D1 D2 [D3 D4] D5 D6]. destruct (on_host _ _ _ D2) as (_&_&Hh). constructor.
  - rewrite (ec_smsms _ _ _ _ _ _ _ _ _ X). apply lookup_insert_eq.
  - apply smsm_on_upd; [done|]. right. by rewrite Ed, Er, Es.
  - constructor; rewrite C2.
    + intros j x. rewrite change_lookup. case_decide as Hj; [|apply D3]. subst j.
      intros [= <-] _. rewrite Ed. by apply D3.
    + intros d q j Hq. destruct (D4 d q j Hq) as (->&Hd0&x&Hx&<-). split_and!; [done|done|].
      by apply change_keeps.
  - intros j x. rewrite change_lookup. case_decide as Hj; [subst j; intros [= <-] _; by split|].
    intros Hx Hxs. destruct (D5 j x Hx Hxs) as [Hrg Hw]. split; [exact Hrg|].
    rewrite <-Hw. apply W2; [by eapply entry_lookup_id|done|]. intros [= Hji]. lia.
  - rewrite C3. intros irq q j Hq. destruct (D6 irq q j Hq) as (->&x&Hx&Hxd). split; [done|].
    destruct (change_keeps j x Hx) as (x'&Hx'&Hxd'). exists x'. split; [done|]. by rewrite Hxd'.
Qed.
End entry_change.

Lemma entry_step h I r held p a s L id e e' c' :
  host_ok h I r held (Bound p a s) -> mem_inv smem E H (sc_mem (drv r)) I -> layout_of E H I = Some L ->
  sm_entries s !! id = Some e -> se_domain e <> 0 -> entry_change L h p s id e e' (drv r) c' ->
  mem_inv smem E H (sc_mem c') I /\ host_frame h (sc_mem (drv r)) I (sc_mem c') I /\
  host_ok h I (with_drv r c') held (Bound p a (upd_entry s id e')).
Proof.
  intros [Hs R [(L'&HL'&D) B2 B3 B4 B5]] M HL Hid Hd X. rewrite HL in HL'. injection HL' as <-.
  destruct (ec_kernel _ _ _ _ _ _ _ _ _ X) as (_&_&C4&C5).
  split_and!; [by eapply (change_words L I h p s id e)|by eapply (change_frame L I h p s id e)|].
  constructor; [by cbn [drv with_drv]; rewrite C5|apply (reg_inv_drv _ _ _ _ R)|].
  constructor; cbn [drv with_drv]; [| |by rewrite C4|done|done].
  - exists L. split; [done|]. by eapply (change_driver L I h p s id e).
  - rewrite (ec_smsms _ _ _ _ _ _ _ _ _ X), B2. apply insert_singleton_eq.
Qed.

(** The calls on an entry: of the interrupt chip, and the interrupt itself. *)
Inductive entry_call :=
| Mask (irq : Z)
| Unmask (irq : Z)
| SetType (irq type : Z)
| Interrupt.

Definition run_entry (data : entry_ptr) (k : entry_call) : ST soc Z :=
  match k with
  | Mask irq => smsm_mask_irq data irq ;;; st_ret 0
  | Unmask irq => smsm_unmask_irq data irq ;;; st_ret 0
  | SetType irq type => smsm_set_irq_type data irq type
  | Interrupt => smsm_intr data ;;; st_ret 0
  end.

(** The domains have 32 interrupts. *)
Definition call_ok (k : entry_call) : Prop :=
  match k with
  | Mask irq | Unmask irq | SetType irq _ => 0 <= irq < 32
  | Interrupt => True
  end.

(** The entry afterwards, and the interrupts raised; [val] is the word of the entry. *)
Definition entry_after (k : entry_call) (e : smsm_entry) (val : Z) : smsm_entry :=
  match k with
  | Mask irq => with_enabled e (Z.clearbit (se_enabled e) irq)
  | Unmask irq => with_enabled e (Z.setbit (se_enabled e) irq)
  | SetType irq type =>
    if Z.land type IRQ_TYPE_EDGE_BOTH =? 0 then e else
    with_edges e (edge (se_rising e) type IRQ_TYPE_EDGE_RISING irq)
      (edge (se_falling e) type IRQ_TYPE_EDGE_FALLING irq)
  | Interrupt => with_last_value e val
  end.

Definition call_fires (k : entry_call) (e : smsm_entry) (val : Z) : list (Z * Z) :=
  match k with
  | Interrupt => raised e val (se_last_value e) (seqZ 0 32)
  | _ => []
  end.

Lemma upd_entry_id s id e : sm_entries s !! id = Some e -> upd_entry s id e = s.
Proof. intros He. unfold upd_entry, with_arrays. rewrite list_insert_id by done. by destruct s. Qed.

Lemma entry_call_step h I r held p a s id e k L :
  host_ok h I r held (Bound p a s) -> mem_inv smem E H (sc_mem (drv r)) I -> layout_of E H I = Some L ->
  sm_entries s !! id = Some e -> se_domain e <> 0 -> call_ok k ->
  let val := state_word L (sc_mem (drv r)) (Z.of_nat id) in
  exists ret r', on_drv (run_entry (p, id) k) r = Ok (ret, r') /\
    mem_inv smem E H (sc_mem (drv r')) I /\ host_frame h (sc_mem (drv r)) I (sc_mem (drv r')) I /\
    host_ok h I r' held (Bound p a (upd_entry s id (entry_after k e val))) /\
    kicks (drv r') = kicks (drv r) /\ fired (drv r') = fired (drv r) ++ call_fires k e val /\
    changed (word (sub_addr L (Z.of_nat id) h)) (sc_mem (drv r)) (sc_mem (drv r')).
Proof.
  intros HO M HL Hid Hd Hk val. pose proof (ho_status _ _ _ _ _ HO) as [(L'&HL'&D) B2 B3 B4 B5].
  rewrite HL in HL'. injection HL' as <-. pose proof (layout_words smem E H _ _ _ M HL) as K.
  pose proof (driver_entry L h p s (drv r) id e D Hid Hd) as EL.
  pose proof (dr_on _ _ _ _ _ D) as O. pose proof (dr_smsm _ _ _ _ _ D) as Hp.
  destruct (dr_sub _ _ _ _ _ D id e Hid) as [Hr Hw].
  { rewrite (el_sub _ _ _ _ _ _ _ EL). apply (sub_addr_pos L _ K), EL. }
  assert (Hstep : forall e' c' ret, run_entry (p, id) k (drv r) = Ok (ret, c') -> e' = entry_after k e val ->
    entry_change L h p s id e e' (drv r) c' ->
    kicks c' = kicks (drv r) -> fired c' = fired (drv r) ++ call_fires k e val ->
    exists ret r', on_drv (run_entry (p, id) k) r = Ok (ret, r') /\
    mem_inv smem E H (sc_mem (drv r')) I /\ host_frame h (sc_mem (drv r)) I (sc_mem (drv r')) I /\
    host_ok h I r' held (Bound p a (upd_entry s id (entry_after k e val))) /\
    kicks (drv r') = kicks (drv r) /\ fired (drv r') = fired (drv r) ++ call_fires k e val /\
    changed (word (sub_addr L (Z.of_nat id) h)) (sc_mem (drv r)) (sc_mem (drv r'))).
  { intros e' c' ret Erun He' X X4 X5. exists ret, (with_drv r c'). split; [by apply at_drv_ok|].
    destruct (entry_step h I r held p a s L id e e' c') as (Y1&Y2&Y3); try done.
    assert (HM : changed (word (sub_addr L (Z.of_nat id) h)) (sc_mem (drv r)) (sc_mem c')).
    { destruct (ec_mem _ _ _ _ _ _ _ _ _ X) as [(v&->&_)|[-> _]]; [by apply changed_store|apply changed_refl]. }
    rewrite <-He'. by split_and!. }
  assert (Hnil : forall l : list (Z * Z), l = l ++ []) by (intros; by rewrite app_nil_r).
  destruct k as [irq|irq|irq type|]; cbn [call_ok call_fires run_entry] in *.
  - eapply Hstep; [erewrite st_bind_ok by (apply (mask_exec L h p s (drv r) id e K O Hp EL)); reflexivity|reflexivity| |done|apply Hnil].
    constructor; [done..|]. left. eexists. split; [reflexivity|]. rewrite Hw. split; [done|]. by apply clearbit_range.
  - eapply Hstep; [erewrite st_bind_ok by (apply (unmask_exec L h p s (drv r) id e K O Hp EL)); reflexivity|reflexivity| |done|apply Hnil].
    constructor; [done..|]. left. eexists. split; [reflexivity|]. rewrite Hw. split; [done|]. by apply setbit_range.
  - pose proof (type_exec L h p s (drv r) id e Hp EL irq type) as ET.
    assert (HA : entry_after (SetType irq type) e val =
      if Z.land type IRQ_TYPE_EDGE_BOTH =? 0 then e else
      with_edges e (edge (se_rising e) type IRQ_TYPE_EDGE_RISING irq)
        (edge (se_falling e) type IRQ_TYPE_EDGE_FALLING irq)) by done.
    destruct (Z.land type IRQ_TYPE_EDGE_BOTH =? 0).
    + eapply (Hstep e); [exact ET|done| |done|apply Hnil]. constructor; [done| |done|by right].
      rewrite upd_entry_id by done. by rewrite insert_id.
    + eapply Hstep; [exact ET|symmetry; exact HA| |done|apply Hnil]. constructor; [done..|]. by right.
  - eapply Hstep; [erewrite st_bind_ok by (apply (intr_exec L h p s (drv r) id e K Hp EL)); reflexivity|reflexivity| |done|done].
    constructor; [done..|]. by right.
Qed.
End host.
