(* ===== verification/SmsmNet.v ===== *)
(** * The systems of the chip around one shared memory

    Several systems run the driver of smsm.c on the same memory.  A step is one call on one
    system; the calls of clients, of the interrupt chip, of the remote interrupt lines and of
    the driver core interleave in any order. *)
From stdpp Require Import gmultiset.
From S2P Require Import Prelude CMem Smem SmemHeap SmemService SmemState SmemHandles.
From S2P Require Import Smsm SmsmOps SmsmProbe SmsmHost.
Open Scope c_scope.

(** The memory, and the systems by number, each with the handles its clients hold. *)
Record net := Net {
  n_mem : mem;
  n_hosts : gmap Z (registry soc * gmultiset Z);
}.

Definition at_mem (r : registry soc) (m : mem) : registry soc := with_drv r (set_mem (drv r) m).

Inductive host_call :=
| CProbe (env : smsm_env)
| CRemove
| CGet (dev : state_node) (con_id : option Z)
| CPut (state : Z)
| CUpdate (state mask value : Z)
| CEntry (data : entry_ptr) (k : entry_call).

(** A call, with the handles held afterwards. *)
Definition run_call (k : host_call) (held : gmultiset Z) : ST (registry soc) (gmultiset Z) :=
  match k with
  | CProbe env => probe_device env ;;; st_ret held
  | CRemove => remove_device ;;; st_ret held
  | CGet dev con =>
    let! x := qcom_smem_state_get dev con in
    st_ret (match x.1 with inl _ => held | inr a => held ⊎ {[+ a +]} end)
  | CPut a => qcom_smem_state_put a ;;; st_ret (held ∖ {[+ a +]})
  | CUpdate a mask value => qcom_smem_state_update_bits a mask value ;;; st_ret held
  | CEntry data k => on_drv (run_entry data k) ;;; st_ret held
  end.

Section net.
Context (smem : qcom_smem) {SV : SmemService smem} {SL : SmemLaws smem}.
Context (E H : Z).

(** Who calls what: the driver core binds and unbinds, clients use the handles they hold,
    interrupts come through registered handlers and chip calls through live domains. *)
Definition allowed (h : Z) (r : registry soc) (held : gmultiset Z) (k : host_call) : Prop :=
  match k with
  | CProbe env => smsms (drv r) = ∅ /\ env_ok E H h r env
  | CRemove => smsms (drv r) <> ∅
  | CGet _ _ => True
  | CPut a | CUpdate a _ _ => a ∈ held
  | CEntry data Interrupt => exists irq, (irq, data) ∈ handlers (drv r)
  | CEntry data k => call_ok k /\ exists d, domains (drv r) !! d = Some data
  end.

Inductive net_step (n : net) : net -> Prop :=
| net_call h r held k held' r' :
    n_hosts n !! h = Some (r, held) -> allowed h r held k ->
    run_call k held (at_mem r (n_mem n)) = Ok (held', r') ->
    net_step n (Net (sc_mem (drv r')) (<[h := (r', held')]> (n_hosts n))).

(** Nobody is bound; the manager keeps its promise and the sizes are acceptable. *)
Record net_start (n : net) : Prop := {
  ns_mem : exists I, mem_inv smem E H (n_mem n) I;
  ns_hosts h r held : n_hosts n !! h = Some (r, held) ->
    objs r = ∅ /\ smem_states r = [] /\ held = ∅ /\ quiet (drv r) /\ __smem (drv r) = Some smem;
}.

Definition reachable (n : net) : Prop := exists n0, net_start n0 /\ rtc net_step n0 n.

Record net_inv (n : net) (I : items) : Prop := {
  ni_mem : mem_inv smem E H (n_mem n) I;
  ni_hosts h r held : n_hosts n !! h = Some (r, held) ->
    exists st, host_ok smem E H h I (at_mem r (n_mem n)) held st;
}.

Lemma quiet_or_bound h I r held st m : host_ok smem E H h I (at_mem r m) held st ->
  (smsms (drv r) = ∅ -> st = Unbound) /\ (smsms (drv r) <> ∅ -> exists p a s, st = Bound p a s).
Proof.
  intros [Hs R T]. destruct st as [|p a s].
  - split; [done|]. destruct T as [T _]. cbn in T. congruence.
  - split; [|eauto]. destruct T as [_ T _ _ _]. cbn in T. rewrite T. intros Hn.
    apply (f_equal (.!! p)) in Hn.
    by rewrite lookup_singleton_eq, lookup_empty in Hn.
Qed.

(** The entry a handler or a domain belongs to. *)
Lemma allowed_entry h I r held st m data k : host_ok smem E H h I (at_mem r m) held st ->
  allowed h r held (CEntry data k) ->
  call_ok k /\ exists p a s id e L, st = Bound p a s /\ data = (p, id) /\ layout_of E H I = Some L /\
    driver_ok L h p s (drv (at_mem r m)) /\ sm_entries s !! id = Some e /\ se_domain e <> 0.
Proof.
  intros HO Ha. pose proof (ho_status _ _ _ _ _ _ _ _ HO) as T.
  assert (Hd : call_ok k /\ ((exists irq, (irq, data) ∈ handlers (drv r)) \/ exists d, domains (drv r) !! d = Some data)).
  { destruct k; cbn in Ha |- *; [split; [by destruct Ha|right; by destruct Ha]..|]. split; [done|by left]. }
  destruct Hd as [Hk Hd]. split; [done|]. destruct st as [|p a s].
  { destruct T as (_&T2&T3). cbn in T2, T3. exfalso. destruct Hd as [[irq Hi]|[d Hd]].
    - rewrite T3 in Hi. by apply not_elem_of_nil in Hi.
    - by rewrite T2, lookup_empty in Hd. }
  destruct T as [(L&HL&D) _ _ _ _]. destruct data as [q id]. destruct Hd as [[irq Hi]|[d Hd]].
  - destruct (dr_handlers _ _ _ _ _ D irq q id Hi) as (->&e&He&Hed). by exists p, a, s, id, e, L.
  - destruct (do_mine _ _ _ (dr_doms _ _ _ _ _ D) d q id Hd) as (->&Hd0&e&He&Hed).
    exists p, a, s, id, e, L. split_and!; try done. congruence.
Qed.

(** One call: it returns, and changes of the memory only what belongs to its system. *)
Lemma call_step h I r held st m k :
  host_ok smem E H h I (at_mem r m) held st -> mem_inv smem E H m I -> allowed h r held k ->
  exists held' r' I' st', run_call k held (at_mem r m) = Ok (held', r') /\
    mem_inv smem E H (sc_mem (drv r')) I' /\ host_frame E H h m I (sc_mem (drv r')) I' /\
    host_ok smem E H h I' r' held' st'.
Proof.
  intros HO M Ha. destruct (quiet_or_bound _ _ _ _ _ _ HO) as [Hq Hb].
  destruct k as [env| |dev con|a|a mask value|data k]; cbn [run_call].
  - destruct Ha as [Hu V]. pose proof (Hq Hu) as ->.
    destruct (probe_step smem E H h (at_mem r m) held env I HO M) as (ret&r'&E1&I'&M'&F&Hr).
    { destruct V. by constructor. }
    rewrite (st_bind_ok _ _ _ _ _ E1). destruct Hr as [[_ HO']|(_&L&p&a&s&_&_&_&HO'&_)];
      eexists _, r', I', _; (split; [reflexivity|]); by split_and!.
  - destruct (Hb Ha) as (p&a&s&->). destruct (remove_step smem E H h I _ held p a s HO) as (r'&E1&HO'&Hm).
    rewrite (st_bind_ok _ _ _ _ _ E1). eexists _, r', I, _. split; [reflexivity|]. rewrite Hm.
    split_and!; [exact M|apply host_frame_refl|exact HO'].
  - destruct (get_inv (at_mem r m) (own_of st) held dev con (ho_reg _ _ _ _ _ _ _ _ HO)) as [[e E1]|(a&o&b&E1&_)];
      destruct (get_step smem E H h I _ held st dev con _ _ HO E1) as [Hd HO'];
      rewrite (st_bind_ok _ _ _ _ _ E1); eexists _, _, I, st; (split; [reflexivity|]); rewrite ?Hd;
      (split_and!; [exact M|apply host_frame_refl|exact HO']).
  - destruct (put_step smem E H h I _ held st a HO Ha) as (r'&E1&Hd&HO').
    rewrite (st_bind_ok _ _ _ _ _ E1). eexists _, _, I, st. split; [reflexivity|]. rewrite Hd.
    split_and!; [exact M|apply host_frame_refl|exact HO'].
  - destruct (update_step smem E H h I _ held st a mask value HO M Ha) as (ret&r'&E1&M'&F&HO'&_).
    rewrite (st_bind_ok _ _ _ _ _ E1). by eexists _, _, I, st.
  - destruct (allowed_entry _ _ _ _ _ _ _ _ HO Ha) as (Hk&p&a&s&id&e&L&->&->&HL&D&He&Hd).
    destruct (entry_call_step smem E H h I _ held p a s id e k L HO M HL He Hd Hk)
      as (ret&r'&E1&M'&F&HO'&_).
    rewrite (st_bind_ok _ _ _ _ _ E1). by eexists _, _, I, _.
Qed.

Lemma at_mem_same r : at_mem r (sc_mem (drv r)) = r.
Proof. by destruct r as [? ? []]. Qed.

Lemma net_step_inv n n' I : net_inv n I -> net_step n n' -> exists I', net_inv n' I'.
Proof.
  intros [M HI] St. destruct St as [h r held k held' r' Hh Ha Hrun].
  destruct (HI h r held Hh) as [st HO].
  destruct (call_step h I r held st (n_mem n) k HO M Ha) as (held1&r1&I'&st'&E1&M'&F&HO').
  rewrite Hrun in E1. injection E1 as <- <-. exists I'. constructor; [exact M'|].
  cbn [n_hosts n_mem]. intros h' x heldx. destruct (decide (h' = h)) as [->|Hne].
  - rewrite lookup_insert_eq. intros [= <- <-]. exists st'. by rewrite at_mem_same.
  - rewrite lookup_insert_ne by done. intros Hx. destruct (HI h' x heldx Hx) as [stx HOx]. exists stx.
    apply (host_ok_other smem E H h' h I (at_mem x (n_mem n)) heldx stx (sc_mem (drv r')) I'); done.
Qed.

Lemma net_start_inv n : net_start n -> exists I, net_inv n I.
Proof.
  intros [[I M] HS]. exists I. constructor; [done|]. intros h r held Hr.
  destruct (HS h r held Hr) as (Ho&Hl&->&Q&Hs). exists Unbound. constructor; [done| |done].
  constructor; cbn [objs smem_states at_mem with_drv]; rewrite ?Ho, ?Hl.
  - intros a o. by rewrite lookup_empty.
  - intros a o. by rewrite lookup_empty.
  - intros a Ha. cbn in Ha. set_solver.
  - intros a Ha. multiset_solver.
  - intros a. rewrite lookup_empty. split; [by intros ?%not_elem_of_nil|by intros []].
  - constructor.
Qed.

Lemma reachable_inv n : reachable n -> exists I, net_inv n I.
Proof.
  intros (n0&[I0 HI0]%net_start_inv&Hr). revert I0 HI0. induction Hr as [n|n n1 n2 St _ IH]; intros I HI; [eauto|].
  destruct (net_step_inv n n1 I HI St) as [I1 HI1]. by eapply IH.
Qed.

(** The words a bound driver uses, by its own pointers. *)
Definition bound_at (n : net) (h : Z) (r : registry soc) (held : gmultiset Z) (p : Z) (s : qcom_smsm) : Prop :=
  n_hosts n !! h = Some (r, held) /\ smsms (drv r) !! p = Some s.

Lemma bound_inv n I h r held p s : net_inv n I -> bound_at n h r held p s ->
  exists L, layout_of E H I = Some L /\ driver_ok L h p s (drv (at_mem r (n_mem n))) /\
    host_ok smem E H h I (at_mem r (n_mem n)) held (Bound p (sm_state s) s).
Proof.
  intros NI [Hh Hp]. destruct (ni_hosts _ _ NI h r held Hh) as [st HO].
  pose proof (ho_status _ _ _ _ _ _ _ _ HO) as T. destruct st as [|q a s'].
  { destruct T as [T _]. cbn in T. by rewrite T, lookup_empty in Hp. }
  destruct T as [(L&HL&D) B2 B3 B4 B5]. cbn in B2. rewrite B2 in Hp.
  apply lookup_singleton_Some in Hp as [-> ->]. exists L. rewrite B4. by split_and!.
Qed.

(** The bytes of the memory that belong to the driver of a system: its state word, and its
    column of the subscriptions, an element for every entry it listens to. *)
Definition own_byte (r : registry soc) (b : Z) : Prop :=
  exists p s, smsms (drv r) !! p = Some s /\
    (word (local_state s) b \/
     exists id e, sm_entries s !! id = Some e /\ se_domain e <> 0 /\
       word (word_at (se_subscription e) (local_host s)) b).

(** The change of the memory by an update, and by a call on an entry. *)
Lemma update_bytes h I r held st m a mask value ret r' :
  host_ok smem E H h I (at_mem r m) held st -> mem_inv smem E H m I -> a ∈ held ->
  qcom_smem_state_update_bits a mask value (at_mem r m) = Ok (ret, r') ->
  changed (own_byte r) m (sc_mem (drv r')).
Proof.
  intros HO M Ha E1. destruct (update_step smem E H h I _ held st a mask value HO M Ha)
    as (ret1&r1&E2&_&_&_&Hr). rewrite E1 in E2. injection E2 as <- <-.
  destruct st as [|p b s]; [by destruct Hr as [_ ->]|]. case_decide; [|by destruct Hr as [_ ->]].
  destruct Hr as (_&L&HL&->). pose proof (ho_status _ _ _ _ _ _ _ _ HO) as [(L'&HL'&D) B2 _ _ _].
  rewrite HL in HL'. injection HL' as <-.
  destruct (updated_frame L h s (drv (at_mem r m)) mask value) as (_&_&_&_&_&->).
  cbn [drv at_mem with_drv sc_mem set_mem]. cbv zeta. case_if; [apply changed_refl|].
  apply changed_store. intros c Hc. exists p, s. split; [exact (dr_smsm _ _ _ _ _ D)|].
  left. by destruct (on_local _ _ _ (dr_on _ _ _ _ _ D)) as [-> _].
Qed.

Lemma entry_bytes h I r held st m data k ret r' :
  host_ok smem E H h I (at_mem r m) held st -> mem_inv smem E H m I -> allowed h r held (CEntry data k) ->
  on_drv (run_entry data k) (at_mem r m) = Ok (ret, r') -> changed (own_byte r) m (sc_mem (drv r')).
Proof.
  intros HO M Ha E1. destruct (allowed_entry _ _ _ _ _ _ _ _ HO Ha) as (Hk&p&a&s&id&e&L&->&->&HL&D&He&Hd).
  destruct (entry_call_step smem E H h I _ held p a s id e k L HO M HL He Hd Hk)
    as (ret1&r1&E2&_&_&_&_&_&F). rewrite E1 in E2. injection E2 as <- <-.
  pose proof (layout_words smem E H _ _ _ M HL) as K. pose proof (dr_on _ _ _ _ _ D) as O.
  destruct (on_host _ _ _ O) as (Hl&_&Hh).
  pose proof (driver_entry L h p s _ id e D He Hd) as EL. pose proof (el_id _ _ _ _ _ _ _ EL) as Hi.
  destruct (sub_access L h p s (drv (at_mem r m)) id e K EL Hi Hh Hl) as [_ Hw].
  destruct F as [F1 F2 F3]. constructor; [done|done|]. intros c Hc. apply F3. intros Hwc. apply Hc.
  exists p, s. split; [exact (dr_smsm _ _ _ _ _ D)|]. right. exists id, e. by rewrite Hw.
Qed.

Lemma call_bytes h I r held st m k held' r' :
  host_ok smem E H h I (at_mem r m) held st -> mem_inv smem E H m I -> allowed h r held k ->
  run_call k held (at_mem r m) = Ok (held', r') -> (forall env, k <> CProbe env) ->
  changed (own_byte r) m (sc_mem (drv r')).
Proof.
  intros HO M Ha Hrun Hk. destruct (quiet_or_bound _ _ _ _ _ _ HO) as [Hq Hb].
  destruct k as [env| |dev con|a|a mask value|data k]; cbn [run_call] in Hrun.
  - by destruct (Hk env).
  - destruct (Hb Ha) as (p&a&s&->). destruct (remove_step smem E H h I _ held p a s HO) as (r1&E1&_&Hm).
    rewrite (st_bind_ok _ _ _ _ _ E1) in Hrun. injection Hrun as _ <-. rewrite Hm. apply changed_refl.
  - destruct (get_inv (at_mem r m) (own_of st) held dev con (ho_reg _ _ _ _ _ _ _ _ HO)) as [[e E1]|(a&o&b&E1&_)];
      rewrite (st_bind_ok _ _ _ _ _ E1) in Hrun; injection Hrun as _ <-; exact (changed_refl _ _).
  - destruct (put_step smem E H h I _ held st a HO Ha) as (r1&E1&Hd&_).
    rewrite (st_bind_ok _ _ _ _ _ E1) in Hrun. injection Hrun as _ <-. rewrite Hd. apply changed_refl.
  - destruct (st_bind_inv _ _ _ _ Hrun) as (ret&r1&E1&E2). injection E2 as _ <-.
    by apply (update_bytes h I r held st m a mask value ret).
  - destruct (st_bind_inv _ _ _ _ Hrun) as (ret&r1&E1&E2). injection E2 as _ <-.
    by apply (entry_bytes h I r held st m data k ret).
Qed.

(** C23: on any number of systems that share the memory, in any order of calls that [allowed]
    admits, every call returns: none touches memory outside the regions, a driver object,
    state or interrupt domain that was freed.  Allowed are: a probe of an unbound device in an
    environment of [env_ok] (local host below the numbers of entries and hosts, and so on), which may fail
    anywhere; a removal together with the release of what the device holds, as one step;
    gets; puts and updates of clients with the handles they hold; calls of the interrupt chip through live
    domains, and interrupts through registered handlers.  A call other than a probe changes
    no byte of the memory but those of the state word and of the subscription column of its
    own system.  No call, of a probe too (which may allocate the regions and clears the
    column of its system), changes the state word of another
    bound system or a word of its column. *)
Theorem smsm_network_safe n h r held k : reachable n ->
  n_hosts n !! h = Some (r, held) -> allowed h r held k ->
  exists held' r', run_call k held (at_mem r (n_mem n)) = Ok (held', r') /\
    let m' := sc_mem (drv r') in
    ((forall env, k <> CProbe env) -> changed (own_byte r) (n_mem n) m') /\
    forall h0 r0 held0 p0 s0, bound_at n h0 r0 held0 p0 s0 -> h0 <> h ->
      rd32 m' (local_state s0) = rd32 (n_mem n) (local_state s0) /\
      forall id e, sm_entries s0 !! id = Some e -> se_domain e <> 0 ->
        rd32 m' (word_at (se_subscription e) (local_host s0)) =
        rd32 (n_mem n) (word_at (se_subscription e) (local_host s0)).
Proof.
  intros [I NI]%reachable_inv Hh Ha. destruct (ni_hosts _ _ NI h r held Hh) as [st HO].
  destruct (call_step h I r held st (n_mem n) k HO (ni_mem _ _ NI) Ha) as (held1&r1&I'&st'&E1&M'&F&HO').
  exists held1, r1. split; [exact E1|]. intros m'.
  split; [intros Hk; exact (call_bytes h I r held st _ k _ _ HO (ni_mem _ _ NI) Ha E1 Hk)|].
  intros h0 r0 held0 p0 s0 B Hne.
  destruct (bound_inv n I h0 r0 held0 p0 s0 NI B) as (L&HL&D&_).
  pose proof (layout_words smem E H _ _ _ (ni_mem _ _ NI) HL) as K.
  destruct (on_host _ _ _ (dr_on _ _ _ _ _ D)) as (->&He&Hhid).
  destruct (on_local _ _ _ (dr_on _ _ _ _ _ D)) as [-> _]. split.
  - by apply (hf_states _ _ _ _ _ _ _ F L h0).
  - intros id e Hid Hd. destruct (driver_entry L h0 p0 s0 _ id e D Hid Hd) as [_ Hi _ -> _].
    rewrite (word_at_sub L (n_mem n) K) by done. by apply (hf_subs _ _ _ _ _ _ _ F L).
Qed.

(** Who is kicked by a change of the word of system [h]. *)
Lemma updated_kicks L h p s c mask value :
  words_ok L (sc_mem c) -> driver_ok L h p s c ->
  let orig := state_word L (sc_mem c) h in
  let changes := Z.lxor (new_word orig mask value) orig in
  kicks (updated L h s c mask value) = kicks c ++
    omap id (imap (rings (fun j => rd32 (sc_mem c) (word_at (subscription s) (Z.of_nat j))) changes) (sm_hosts s)).
Proof.
  intros K D orig changes. unfold updated. fold orig changes. cbv zeta. fold changes.
  destruct (on_local _ _ _ (dr_on _ _ _ _ _ D)) as [_ Hsub].
  destruct (on_host _ _ _ (dr_on _ _ _ _ _ D)) as (_&He&_).
  destruct (on_lengths _ _ _ (dr_on _ _ _ _ _ D)) as [_ Hlen].
  set (words := fun j => rd32 _ _).
  assert (Hw : kick_list (sm_hosts s) (fun i => sub_word L (sc_mem c) h (Z.of_nat i)) changes 0 =
    kick_list (sm_hosts s) words changes 0).
  { apply kick_list_ext. intros i Hi. unfold words. rewrite Hsub, (word_at_sub L (sc_mem c) K); [done|done|].
    unfold host_id. lia. }
  change (imap (rings words changes)) with (imap (fun i hst => rings words changes (0 + i) hst)).
  rewrite <-kick_list_rings, <-Hw. destruct (changes =? 0) eqn:E0; [|done].
  replace changes with 0 by lia. by rewrite kick_list_none, app_nil_r.
Qed.

(** The word after a change, and the word a driver subscribes with. *)
Lemma updated_word L h s c mask value : words_ok L (sc_mem c) -> entry_id L h -> 0 <= value < 2 ^ 32 ->
  state_word L (sc_mem (updated L h s c mask value)) h = new_word (state_word L (sc_mem c) h) mask value.
Proof.
  intros K Hi Hv. destruct (updated_frame L h s c mask value) as (_&_&_&_&_&->). cbv zeta. case_if.
  - symmetry. apply Z.lxor_eq. lia.
  - rewrite state_word_set by done. rewrite decide_True by done. apply u32_id.
    apply lor_range; [apply ldiff_range, rd32_range|done].
Qed.

Lemma heard_word L h p s c id e : words_ok L (sc_mem c) -> driver_ok L h p s c ->
  sm_entries s !! id = Some e -> se_domain e <> 0 -> sub_word L (sc_mem c) (Z.of_nat id) h = se_enabled e.
Proof.
  intros K D He Hd. pose proof (driver_entry L h p s c id e D He Hd) as EL.
  destruct (dr_sub _ _ _ _ _ D id e He) as [_ Hw]; [|exact Hw].
  rewrite (el_sub _ _ _ _ _ _ _ EL). apply (sub_addr_pos L _ K), EL.
Qed.

End net.
