(* ===== verification/SmsmExamples.v ===== *)
(** * Concrete systems with a shared memory state machine

    Two systems on one memory, bound and connected, for which the theorems are applied; and
    states that show where the code does not do what it means to. *)
From stdpp Require Import gmultiset.
From S2P Require Import Prelude CMem Smem SmemHeap SmemApi SmemService SmemState SmemHandles.
From S2P Require Import Smsm SmsmOps SmsmProbe SmsmHost SmsmNet.
Open Scope c_scope.

(** ** A global partition of 1024 bytes without items *)
Module Chip.
Definition base : Z := 0x10000.
Definition entry : Z := base + 0x500.
Definition phdr : Z := base + 0x40.
Definition m : mem := poke
  [ (entry + pe_offset, 4%nat, 0x40); (entry + pe_size, 4%nat, 1024);
    (entry + pe_cacheline, 4%nat, 32);
    (phdr + ph_size, 4%nat, 1024);
    (phdr + ph_offset_free_uncached, 4%nat, 32); (phdr + ph_offset_free_cached, 4%nat, 1024) ]
  (Mem base 0x600 ∅).
Definition smem : qcom_smem :=
  QcomSmem (Some entry) (replicate 14 None) 512 [Region 0x86000000 base 0x600].

Lemma chip_wf : part_wf smem m entry phdr [].
Proof.
  constructor; try concrete.
  - replace (phdr + free_uncached m phdr) with (phdr + sizeof_partition_header) by concrete.
    constructor.
  - apply NoDup_nil_2.
  - constructor.
Qed.

Lemma chip_cwf : cached_wf m entry phdr [].
Proof.
  constructor; try concrete; [|constructor].
  replace (phdr + part_size m entry - cached_align m entry)
    with (phdr + free_cached m phdr - cached_align m entry) by concrete.
  constructor.
Qed.

Lemma mem_ok : mem_inv smem 8 3 m ∅.
Proof.
  constructor; [|concrete|reflexivity|concrete|intros p sz; by rewrite lookup_empty..].
  split; [|concrete]. exists phdr, []. constructor; [apply chip_wf|apply chip_cwf|].
  intros i. by rewrite lookup_empty.
Qed.

(** The kernel of a system that has not bound its driver. *)
Definition idle : registry soc := Registry ∅ [] (Soc m (Some smem) ∅ ∅ [] 0 [] []).
Definition n0 : net := Net m {[0 := (idle, ∅); 1 := (idle, ∅)]}.

Lemma start : net_start smem 8 3 n0.
Proof.
  constructor; [exists ∅; apply mem_ok|]. intros h r held. cbn [n_hosts n0].
  rewrite lookup_insert_Some. intros [[<- [= <- <-]]|[_ Hh]]; [done|].
  apply lookup_singleton_Some in Hh as [<- [= <- <-]]. done.
Qed.

(** System 0 owns entry 0 and listens to nobody; it interrupts system 1 by bit 2 of offset 8
    of register map 500.  System 1 listens to entry 0 on interrupt 33, with domain 7000. *)
Definition env0 : smsm_env :=
  SmsmEnv (Some 0x1000) true true [DtChild 10 true true false (inl (- EINVAL)) 0 0 None] (Some 0)
    (fun i => if (i =? 1)%nat then Some (IpcProp (inr 500) (inr 8) (inr 2)) else None)
    (fun _ => 0) (Some 0x2000).
Definition env1 : smsm_env :=
  SmsmEnv (Some 0x1000) true true
    [DtChild 20 true true false (inl (- EINVAL)) 0 0 None;
     DtChild 21 false true true (inr 0) 33 0 (Some 7000)] (Some 1)
    (fun _ => None) (fun _ => 0) (Some 0x2000).

(** The client of system 0 names the state by its node. *)
Definition client : state_node := StateNode (fun _ => 0) (fun _ => inr (10, [3])).

Definition do_call (n : net) (h : Z) (k : host_call) : option net :=
  match n_hosts n !! h with
  | Some (r, held) =>
    match run_call k held (at_mem r (n_mem n)) with
    | Ok (held', r') => Some (Net (sc_mem (drv r')) (<[h := (r', held')]> (n_hosts n)))
    | _ => None
    end
  | None => None
  end.

Definition after (n : net) (h : Z) (k : host_call) : net := default n (do_call n h k).

Definition host (n : net) (h : Z) : registry soc * gmultiset Z := default (idle, ∅) (n_hosts n !! h).
Definition object (n : net) (h p : Z) : qcom_smsm := default zero_smsm (smsms (drv (host n h).1) !! p).

Lemma host_lookup n h : (if n_hosts n !! h then true else false) = true ->
  n_hosts n !! h = Some ((host n h).1, (host n h).2).
Proof. unfold host. by destruct (n_hosts n !! h) as [[]|]. Qed.

Lemma do_call_step n h k : (if n_hosts n !! h then true else false) = true ->
  allowed 8 3 h (host n h).1 (host n h).2 k ->
  (if do_call n h k then true else false) = true -> net_step 8 3 n (after n h k).
Proof.
  intros Hh%host_lookup Ha Hs. unfold after, do_call in *. rewrite Hh in *.
  destruct (run_call k (host n h).2 (at_mem (host n h).1 (n_mem n))) as [[held' r']| |] eqn:E1; [|done..].
  by apply (net_call 8 3 n h (host n h).1 (host n h).2 k).
Qed.

Definition n1 : net := after n0 0 (CProbe env0).
Definition n2 : net := after n1 1 (CProbe env1).
Definition n3 : net := after n2 1 (CEntry (0x1000, 0%nat) (SetType 3 IRQ_TYPE_EDGE_RISING)).
Definition n4 : net := after n3 1 (CEntry (0x1000, 0%nat) (Unmask 3)).
Definition n5 : net := after n4 0 (CGet client None).
End Chip.

(** The calls that lead to [n5], each with its reason. *)
Lemma step1 : net_step 8 3 Chip.n0 Chip.n1.
Proof.
  apply Chip.do_call_step; [vm_compute; reflexivity| |vm_compute; reflexivity].
  split; [vm_compute; reflexivity|]. constructor; [reflexivity|lia|intros a _; vm_compute; reflexivity|by left| |].
  - intros i prop e. unfold Chip.env0. cbn. case_if; [|done]. by intros [= <-].
  - split; [|done]. discriminate.
Qed.

Lemma step2 : net_step 8 3 Chip.n1 Chip.n2.
Proof.
  apply Chip.do_call_step; [vm_compute; reflexivity| |vm_compute; reflexivity].
  split; [vm_compute; reflexivity|]. constructor; [reflexivity|lia|intros a _; vm_compute; reflexivity|by left|done|].
  split; [discriminate|]. split; [|done]. intros _. cbn. split_and!; [lia|lia| |].
  - intros d [= <-]. done.
  - by intros ch' ?%not_elem_of_nil.
Qed.

Lemma step3 : net_step 8 3 Chip.n2 Chip.n3.
Proof.
  apply Chip.do_call_step; [vm_compute; reflexivity| |vm_compute; reflexivity].
  split; [cbn; lia|]. exists 7000. vm_compute. reflexivity.
Qed.

Lemma step4 : net_step 8 3 Chip.n3 Chip.n4.
Proof.
  apply Chip.do_call_step; [vm_compute; reflexivity| |vm_compute; reflexivity].
  split; [cbn; lia|]. exists 7000. vm_compute. reflexivity.
Qed.

Lemma step5 : net_step 8 3 Chip.n4 Chip.n5.
Proof. apply Chip.do_call_step; [vm_compute; reflexivity|exact Logic.I|vm_compute; reflexivity]. Qed.

Lemma n5_reachable : reachable Chip.smem 8 3 Chip.n5.
Proof.
  exists Chip.n0. split; [apply Chip.start|].
  eapply rtc_l; [apply step1|]. eapply rtc_l; [apply step2|]. eapply rtc_l; [apply step3|].
  eapply rtc_l; [apply step4|]. eapply rtc_l; [apply step5|]. apply rtc_refl.
Qed.

(** ** The theorems, applied *)
Lemma smsm_network_safe_witness :
  exists held' r', run_call (CUpdate 0x2000 8 8) (Chip.host Chip.n5 0).2
    (at_mem (Chip.host Chip.n5 0).1 (n_mem Chip.n5)) = Ok (held', r').
Proof.
  destruct (smsm_network_safe Chip.smem 8 3 Chip.n5 0 (Chip.host Chip.n5 0).1 (Chip.host Chip.n5 0).2
    (CUpdate 0x2000 8 8) n5_reachable) as (held'&r'&E1&_).
  - apply Chip.host_lookup. vm_compute. reflexivity.
  - cbn [allowed]. apply elem_of_multiplicity. vm_compute. lia.
  - by exists held', r'.
Defined.


Lemma smsm_probe_correct_witness :
  exists ret r', probe_device Chip.env0 Chip.idle = Ok (ret, r') /\
    probed Chip.smem 8 3 0 Chip.m ∅ ∅ Chip.env0 ret r'.
Proof.
  apply (smsm_probe_correct Chip.smem 8 3 0 Chip.idle ∅ Chip.env0 ∅).
  - constructor; [done| |done]. constructor; cbn.
    + intros a o. by rewrite lookup_empty.
    + intros a o. by rewrite lookup_empty.
    + set_solver.
    + intros a Ha. multiset_solver.
    + intros a. rewrite lookup_empty. split; [by intros ?%not_elem_of_nil|by intros []].
    + constructor.
  - apply Chip.mem_ok.
  - constructor; [reflexivity|lia|intros a _; reflexivity|by left| |].
    + intros i prop e. unfold Chip.env0. cbn. case_if; [|done]. by intros [= <-].
    + split; [|done]. discriminate.
Defined.

(** Two handles on a state whose driver unregisters. *)
Definition counter : option (Z -> Z -> Z -> ST Z Z) := Some (fun _ _ v w => Ok (0, w + v)).
Definition reg1 : registry Z := Registry {[5 := SmemState 2 true 10 0 counter]} [5] 7.

Lemma reg1_served : served reg1 ∅ {[+ 5; 5 +]}.
Proof.
  assert (S1 : served (Registry {[5 := SmemState 1 false 10 0 counter]} [5] 7) {[5]} ∅).
  { replace ({[5]} : gset Z) with ({[5]} ∪ ∅ : gset Z) by set_solver.
    eapply (srv_register (Registry ∅ [] 7) ∅ ∅ 5 10 counter 0); [apply srv_start|done| |vm_compute; reflexivity].
    intros data mask value w. by eexists. }
  assert (S2 : served (Registry {[5 := SmemState 2 false 10 0 counter]} [5] 7) {[5]} {[+ 5 +]}).
  { replace ({[+ 5 +]} : gmultiset Z) with (∅ ⊎ {[+ 5 +]} : gmultiset Z) by multiset_solver.
    eapply (srv_got _ {[5]} ∅ Chip.client None 5); [exact S1|vm_compute; reflexivity]. }
  assert (S3 : served (Registry {[5 := SmemState 3 false 10 0 counter]} [5] 7) {[5]} {[+ 5; 5 +]}).
  { replace ({[+ 5; 5 +]} : gmultiset Z) with ({[+ 5 +]} ⊎ {[+ 5 +]} : gmultiset Z) by multiset_solver.
    eapply (srv_got _ {[5]} {[+ 5 +]} Chip.client None 5); [exact S2|vm_compute; reflexivity]. }
  replace (∅ : gset Z) with ({[5]} ∖ {[5]} : gset Z) by set_solver.
  eapply (srv_unregister _ {[5]} _ 5); [exact S3|set_solver|vm_compute; reflexivity].
Qed.

Lemma smem_handles_safe_witness :
  exists ret r', qcom_smem_state_update_bits 5 1 1 reg1 = Ok (ret, r') /\ ret = - ENXIO /\ r' = reg1.
Proof.
  destruct (smem_handles_safe reg1 ∅ {[+ 5; 5 +]} reg1_served) as (_&_&_&Hu&_).
  destruct (Hu 5 1 1) as (ret&r'&E1&Hx); [multiset_solver|]. exists ret, r'.
  split; [exact E1|]. apply Hx. set_solver.
Defined.

(** ** Where the code does not do what it means to *)

(** On a system without partitions the item with the sizes is usually absent; the manager then
    answers [-ENXIO], and the driver gives up instead of using the default sizes. *)
Theorem size_info_missing_fails smem c p s I :
  global_partition_entry smem = None -> __smem c = Some smem -> holds (smem := smem) (sc_mem c) I ->
  SMEM_SMSM_SIZE_INFO < item_count smem -> I !! SMEM_SMSM_SIZE_INFO = None -> smsms c !! p = Some s ->
  smsm_get_size_info 0 p c = Ok (- ENXIO, c).
Proof.
  intros Hg Hs Hh Hc HI Hp. unfold smsm_get_size_info. rewrite st_bind_get, Hs.
  assert (Hget := sv_get_size (sc_mem c) I SMEM_SMSM_SIZE_INFO Hh (conj (ltac:(done) : 0 <= SMEM_SMSM_SIZE_INFO) Hc)).
  rewrite HI in Hget. unfold missing, smem_service in Hget. rewrite Hg in Hget.
  rewrite (st_bind_ok _ _ _ _ _ (on_mem_same _ _ _ Hget)), (st_bind_ok _ _ _ _ _ (the_smsm_ok _ _ _ Hp)). done.
Qed.

(** A change of bit 0 sets bit 1 as well when the value has it: the value is not masked. *)
Theorem update_ignores_mask :
  exists ret r', qcom_smem_state_update_bits 0x2000 1 2 (at_mem (Chip.host Chip.n5 0).1 (n_mem Chip.n5)) = Ok (ret, r') /\
    rd32 (sc_mem (drv r')) 65648 = 2.
Proof.
  edestruct (run_check (qcom_smem_state_update_bits 0x2000 1 2 (at_mem (Chip.host Chip.n5 0).1 (n_mem Chip.n5)))
    (fun _ r' => rd32 (sc_mem (drv r')) 65648 =? 2)) as (ret&r'&E1&E2); [vm_compute; reflexivity|].
  exists ret, r'. split; [exact E1|lia].
Qed.

(** The number of the own system is not compared with the number of entries: with 8 entries
    and number 8 the probe succeeds, the outgoing word is the header of the next item, and
    the first change makes the matrix unreadable for everybody. *)
Definition env8 : smsm_env :=
  SmsmEnv (Some 0x1000) true true [DtChild 10 true true false (inl (- EINVAL)) 0 0 None] (Some 8)
    (fun _ => None) (fun _ => 0) (Some 0x2000).

(** What a lookup of the matrix answers. *)
Definition matrix (m : mem) : option (Z + Z) :=
  match qcom_smem_get 0 (Some Chip.smem) QCOM_SMEM_HOST_ANY SMEM_SMSM_CPU_INTR_MASK false m with
  | Ok ((Ptr a, _), _) => Some (inr a)
  | Ok ((ErrPtr e, _), _) => Some (inl e)
  | _ => None
  end.

Theorem local_host_unchecked :
  exists ret r1 r2, probe_device env8 Chip.idle = Ok (ret, r1) /\ ret = 0 /\
    matrix (sc_mem (drv r1)) = Some (inr 65696) /\
    smsm_update_bits 0x1000 0xffff 1 (drv r1) = Ok (0, r2) /\
    matrix (sc_mem r2) = Some (inl (- EINVAL)).
Proof.
  edestruct (run_check (probe_device env8 Chip.idle) (fun ret r1 => (ret =? 0) &&
    bool_decide (matrix (sc_mem (drv r1)) = Some (inr 65696)) &&
    match smsm_update_bits 0x1000 0xffff 1 (drv r1) with
    | Ok (ret, r2) => (ret =? 0) && bool_decide (matrix (sc_mem r2) = Some (inl (- EINVAL)))
    | _ => false
    end)) as (ret&r1&E1&E2); [vm_compute; reflexivity|].
  apply andb_prop in E2 as [E2 E4]. apply andb_prop in E2 as [E2 E3].
  destruct (smsm_update_bits 0x1000 0xffff 1 (drv r1)) as [[ret2 r2]| |] eqn:E5; [|done..].
  apply andb_prop in E4 as [E4 E6]. apply bool_decide_eq_true_1 in E3, E6.
  exists ret, r1, r2. rewrite E5. split_and!; [exact E1|lia|exact E3|do 2 f_equal; lia|exact E6].
Qed.

(** [qcom_smsm_remove] removes the interrupt domains while the handlers are still requested:
    an interrupt between the two, for a bit that changed, uses a removed domain. *)
Theorem remove_leaves_handler :
  exists ret ra' ret' rb',
    qcom_smem_state_update_bits 0x2000 8 8 (at_mem (Chip.host Chip.n5 0).1 (n_mem Chip.n5)) = Ok (ret, ra') /\
    qcom_smsm_remove (at_mem (Chip.host Chip.n5 1).1 (sc_mem (drv ra'))) = Ok (ret', rb') /\
    handlers (drv rb') = [(33, (0x1000, 0%nat))] /\
    smsm_intr (0x1000, 0%nat) (drv rb') = Fault.
Proof.
  edestruct (run_check (qcom_smem_state_update_bits 0x2000 8 8 (at_mem (Chip.host Chip.n5 0).1 (n_mem Chip.n5)))
    (fun _ ra' => match qcom_smsm_remove (at_mem (Chip.host Chip.n5 1).1 (sc_mem (drv ra'))) with
      | Ok (_, rb') => bool_decide (handlers (drv rb') = [(33, (0x1000, 0%nat))]) &&
          match smsm_intr (0x1000, 0%nat) (drv rb') with Fault => true | _ => false end
      | _ => false end)) as (ret&ra'&E1&E2); [vm_compute; reflexivity|].
  destruct (qcom_smsm_remove _) as [[ret' rb']| |] eqn:E3; [|done..].
  apply andb_prop in E2 as [E2%bool_decide_eq_true_1 E4].
  exists ret, ra', ret', rb'. split_and!; [exact E1|exact E3|exact E2|].
  by destruct (smsm_intr _ _).
Qed.

(** A state that was unregistered stays in the list while a client holds it: the next lookup
    of its node gets it, not [-EPROBE_DEFER]. *)
Theorem orphan_is_found :
  exists b r', qcom_smem_state_get Chip.client None reg1 = Ok ((inr 5, b), r') /\
    qcom_smem_state_update_bits 5 1 1 r' = Ok (- ENXIO, r').
Proof. do 2 eexists. split; vm_compute; reflexivity. Qed.
