(* ===== verification/QmiEncdec.v ===== *)
(** * The QMI message encoder and decoder (drivers/soc/qcom/qmi_encdec.c)

    A C structure is written as a sequence of type-length-value blocks, and read back,
    as an array of element descriptors says.  The structure and the message buffer are
    memories ([CMem.mem]); a pointer is an address in one of them, a pointer to a
    descriptor is the rest of its array. *)
From S2P Require Import Prelude CMem.
Open Scope c_scope.

(** ** Descriptors

    The header linux/soc/qcom/qmi.h is outside the repository; these are the fields and
    the enumerators the source uses.  [QMI_OTHER_TYPE] is any other value. *)
Inductive qmi_elem_type :=
| QMI_EOTI | QMI_OPT_FLAG | QMI_DATA_LEN
| QMI_UNSIGNED_1_BYTE | QMI_UNSIGNED_2_BYTE | QMI_UNSIGNED_4_BYTE | QMI_UNSIGNED_8_BYTE
| QMI_SIGNED_2_BYTE_ENUM | QMI_SIGNED_4_BYTE_ENUM
| QMI_STRUCT | QMI_STRING | QMI_OTHER_TYPE.

Inductive qmi_array_type := NO_ARRAY | STATIC_ARRAY | VAR_LEN_ARRAY.

Inductive qmi_elem_info := Elem
  (dt : qmi_elem_type) (len size : Z) (arr : qmi_array_type) (tlv off : Z)
  (sub : option (list qmi_elem_info)).

Definition data_type (e : qmi_elem_info) := let '(Elem t _ _ _ _ _ _) := e in t.
Definition elem_len (e : qmi_elem_info) := let '(Elem _ n _ _ _ _ _) := e in n.
Definition elem_size (e : qmi_elem_info) := let '(Elem _ _ s _ _ _ _) := e in s.
Definition array_type (e : qmi_elem_info) := let '(Elem _ _ _ a _ _ _) := e in a.
Definition tlv_type (e : qmi_elem_info) := let '(Elem _ _ _ _ t _ _) := e in t.
Definition elem_offset (e : qmi_elem_info) := let '(Elem _ _ _ _ _ o _) := e in o.
Definition ei_array (e : qmi_elem_info) := let '(Elem _ _ _ _ _ _ s) := e in s.

Definition TLV_LEN_SIZE : Z := 2.
Definition TLV_TYPE_SIZE : Z := 1.
Definition OPTIONAL_TLV_TYPE_START : Z := 0x10.
Definition U8_MAX : Z := 255.

#[export] Instance qmi_elem_type_eq : EqDecision qmi_elem_type.
Proof. solve_decision. Defined.

(** ** Access to the two memories *)

(** A read from the memory that is not the one being written. *)
Definition peek {A} (m : mem) (c : ST mem A) : ST mem A :=
  fun s => match c m with Ok (a, _) => Ok (a, s) | Fault => Fault | Loop => Loop end.

(** A local variable of four bytes, as a memory at address 0. *)
Definition local32 (v : Z) : mem := le_store (Mem 0 4 ∅) 0 4 v.

(** The variable after its low [n] bytes were overwritten with [v]. *)
Definition overlay (old n v : Z) : Z := v + 2 ^ (8 * n) * (old / 2 ^ (8 * n)).

Fixpoint strlen_loop (fuel : nat) (p n : Z) : ST mem Z :=
  match fuel with
  | O => fun _ => Loop
  | S fuel =>
    let! c := load 1 p in
    if c =? 0 then st_ret n else strlen_loop fuel (p + 1) (n + 1)
  end.

Definition strlen (p : Z) : ST mem Z :=
  fun m => strlen_loop (S (Z.to_nat (m_base m + m_size m - p))) p 0 m.

(** ** Walking the descriptors *)
Fixpoint skip_same (tlv : Z) (ei : list qmi_elem_info) : res (list qmi_elem_info) :=
  match ei with
  | [] => Fault
  | e :: rest => if tlv =? tlv_type e then skip_same tlv rest else Ok ei
  end.

Definition skip_to_next_elem (ei : list qmi_elem_info) (level : Z) : res (list qmi_elem_info) :=
  match ei with
  | [] => Fault
  | e :: rest => if level >? 1 then Ok rest else skip_same (tlv_type e) rest
  end.

(** [qmi_calc_min_msg_len]; the recursion is bounded by [fuel]. *)
Fixpoint min_len_loop (fuel : nat) (ei : list qmi_elem_info) (level min : Z) : res Z :=
  match fuel with
  | O => Loop
  | S fuel =>
    match ei with
    | [] => Fault
    | e :: rest =>
      let tlv := if level =? 1 then TLV_TYPE_SIZE + TLV_LEN_SIZE else 0 in
      let data := u32 (elem_len e * elem_size e) in
      match data_type e with
      | QMI_EOTI => Ok min
      | QMI_OPT_FLAG =>
        res_bind (skip_to_next_elem ei level) (fun ei => min_len_loop fuel ei level min)
      | QMI_DATA_LEN => min_len_loop fuel rest level (s32 (min + (if elem_size e =? 1 then 1 else 2)))
      | QMI_STRUCT =>
        res_bind (match ei_array e with
                  | None => Ok 0
                  | Some sub => min_len_loop fuel sub (level + 1) 0
                  end) (fun n => min_len_loop fuel rest level (s32 (min + n + tlv)))
      | QMI_STRING =>
        let pre := if level >? 1 then (if elem_len e <=? U8_MAX then 1 else 2) else 0 in
        min_len_loop fuel rest level (s32 (min + pre + data + tlv))
      | _ => min_len_loop fuel rest level (s32 (min + data + tlv))
      end
    end
  end.

Definition qmi_calc_min_msg_len (fuel : nat) (ei : option (list qmi_elem_info)) (level : Z) : res Z :=
  match ei with None => Ok 0 | Some ei => min_len_loop fuel ei level 0 end.

(** ** Encoding *)
Fixpoint encode_n (n : nat) (src : mem) (dst p size rc : Z) : ST mem Z :=
  match n with
  | O => st_ret (s32 rc)
  | S n =>
    let! bs := peek src (load_bytes (Z.to_nat size) p) in
    store_bytes dst bs ;;;
    encode_n n src (dst + size) (p + size) size (u32 (rc + size))
  end.

Definition qmi_encode_basic_elem (src : mem) (buf_dst buf_src elem_len elem_size : Z) : ST mem Z :=
  encode_n (Z.to_nat elem_len) src buf_dst buf_src elem_size 0.

(** The loop of [qmi_encode_struct_elem]; [enc] is [qmi_encode] of the nested table. *)
Fixpoint encode_structs (n : nat) (enc : Z -> Z -> Z -> ST mem Z) (buf_dst buf_src out_buf_len size
    encoded : Z) : ST mem Z :=
  match n with
  | O => st_ret encoded
  | S n =>
    let! rc := enc buf_dst buf_src (u32 (out_buf_len - encoded)) in
    if rc <? 0 then st_ret rc else
    encode_structs n enc (buf_dst + rc) (buf_src + size) out_buf_len size (s32 (encoded + rc))
  end.

Definition qmi_encode_struct_elem (enc : Z -> Z -> Z -> ST mem Z) (e : qmi_elem_info)
    (buf_dst buf_src elem_len out_buf_len : Z) : ST mem Z :=
  encode_structs (Z.to_nat elem_len) enc buf_dst buf_src out_buf_len (elem_size e) 0.

Definition string_len_size (e : qmi_elem_info) : Z := if elem_len e <=? U8_MAX then 1 else 2.

Definition qmi_encode_string_elem (src : mem) (e : qmi_elem_info) (buf_dst buf_src out_buf_len
    enc_level : Z) : ST mem Z :=
  let! n := peek src (strlen buf_src) in
  let string_len := u32 n in
  let string_len_sz := string_len_size e in
  if string_len >? elem_len e then st_ret (- EINVAL) else
  if enc_level =? 1 then
    if string_len + TLV_LEN_SIZE + TLV_TYPE_SIZE >? out_buf_len then st_ret (- ETOOSMALL) else
    qmi_encode_basic_elem src buf_dst buf_src string_len (elem_size e)
  else
    if u32 (string_len + string_len_sz) >? out_buf_len then st_ret (- ETOOSMALL) else
    let! encoded := qmi_encode_basic_elem (local32 string_len) buf_dst 0 1 string_len_sz in
    let! rc := qmi_encode_basic_elem src (buf_dst + encoded) buf_src string_len (elem_size e) in
    st_ret (s32 (encoded + rc)).

(** The local variables of [qmi_encode]. *)
Record enc_vars := EncVars {
  temp_ei : list qmi_elem_info;
  data_len_value : Z;
  buf_dst : Z;
  tlv_pointer : Z;
  enc_tlv_len : Z;
  encoded_bytes : Z;
  encode_tlv : bool;
}.

(** UPDATE_ENCODE_VARIABLES *)
Definition enc_update (v : enc_vars) (n rc : Z) : enc_vars :=
  EncVars (tail (temp_ei v)) n (buf_dst v + rc) (tlv_pointer v) (u32 (enc_tlv_len v + rc))
    (u32 (encoded_bytes v + rc)) true.

Definition enc_goto (v : enc_vars) (ei : list qmi_elem_info) (n : Z) (tlv : bool) : enc_vars :=
  EncVars ei n (buf_dst v) (tlv_pointer v) (enc_tlv_len v) (encoded_bytes v) tlv.

(** The number of elements, or none when it is not valid. *)
Definition enc_data_len (e : qmi_elem_info) (v : Z) : option Z :=
  match array_type e with
  | NO_ARRAY => Some 1
  | STATIC_ARRAY => Some (elem_len e)
  | VAR_LEN_ARRAY => if (v <=? 0) || (elem_len e <? v) then None else Some v
  end.

Definition too_small (v : enc_vars) (bytes out_buf_len : Z) : bool :=
  u32 (bytes + encoded_bytes v) + TLV_LEN_SIZE + TLV_TYPE_SIZE >? out_buf_len.

(** One iteration of the loop of [qmi_encode], up to the block header. *)
Definition encode_elem (rec : option (list qmi_elem_info) -> Z -> Z -> Z -> Z -> ST mem Z)
    (e : qmi_elem_info) (src : mem) (in_c_struct out_buf_len enc_level : Z) (v : enc_vars)
    : ST mem (Z + enc_vars) :=
  let buf_src := in_c_struct + elem_offset e in
  match enc_data_len e (data_len_value v) with
  | None => st_ret (inl (- EINVAL))
  | Some n =>
    match data_type e with
    | QMI_OPT_FLAG =>
      let! flag := peek src (load 1 buf_src) in
      let! next := (if negb (flag =? 0) then st_ret (tail (temp_ei v))
                    else st_lift (skip_to_next_elem (temp_ei v) enc_level)) in
      st_ret (inr (enc_goto v next n (encode_tlv v)))
    | QMI_DATA_LEN =>
      if elem_size e >? 4 then fun _ => Fault else
      let! x := peek src (load (Z.to_nat (elem_size e)) buf_src) in
      let n := overlay n (elem_size e) x in
      let sz := if elem_size e =? 1 then 1 else 2 in
      if too_small v sz out_buf_len then st_ret (inl (- ETOOSMALL)) else
      let! rc := qmi_encode_basic_elem (local32 n) (buf_dst v) 0 1 sz in
      let v := enc_update v n rc in
      if n =? 0 then
        let! next := st_lift (skip_to_next_elem (temp_ei v) enc_level) in
        st_ret (inr (enc_goto v next n true))
      else st_ret (inr (enc_goto v (temp_ei v) n false))
    | QMI_UNSIGNED_1_BYTE | QMI_UNSIGNED_2_BYTE | QMI_UNSIGNED_4_BYTE | QMI_UNSIGNED_8_BYTE
    | QMI_SIGNED_2_BYTE_ENUM | QMI_SIGNED_4_BYTE_ENUM =>
      if too_small v (u32 (n * elem_size e)) out_buf_len then st_ret (inl (- ETOOSMALL)) else
      let! rc := qmi_encode_basic_elem src (buf_dst v) buf_src n (elem_size e) in
      st_ret (inr (enc_update v n rc))
    | QMI_STRUCT =>
      let! rc := qmi_encode_struct_elem
                   (fun dst p len => rec (ei_array e) dst p len (enc_level + 1))
                   e (buf_dst v) buf_src n (u32 (out_buf_len - encoded_bytes v)) in
      if rc <? 0 then st_ret (inl rc) else st_ret (inr (enc_update v n rc))
    | QMI_STRING =>
      let! rc := qmi_encode_string_elem src e (buf_dst v) buf_src
                   (u32 (out_buf_len - encoded_bytes v)) enc_level in
      if rc <? 0 then st_ret (inl rc) else st_ret (inr (enc_update v n rc))
    | QMI_EOTI | QMI_OTHER_TYPE => st_ret (inl (- EINVAL))
    end
  end.

(** QMI_ENCDEC_ENCODE_TLV *)
Definition put_tlv (type len p : Z) : ST mem unit :=
  store 1 p type ;;;
  store 1 (p + 1) (Z.land len 0xFF) ;;;
  store 1 (p + 2) (Z.land (Z.shiftr len 8) 0xFF).

(** The block header at the end of an iteration. *)
Definition encode_header (type enc_level : Z) (v : enc_vars) : ST mem enc_vars :=
  if encode_tlv v && (enc_level =? 1) then
    put_tlv type (enc_tlv_len v) (tlv_pointer v) ;;;
    st_ret (EncVars (temp_ei v) (data_len_value v) (buf_dst v + TLV_LEN_SIZE + TLV_TYPE_SIZE)
              (buf_dst v) 0 (u32 (encoded_bytes v + (TLV_TYPE_SIZE + TLV_LEN_SIZE))) false)
  else st_ret v.

Definition enc_start (ei : list qmi_elem_info) (out enc_level : Z) : enc_vars :=
  EncVars ei 0 (if enc_level =? 1 then out + (TLV_LEN_SIZE + TLV_TYPE_SIZE) else out) out 0 0 false.

Fixpoint encode_loop (fuel : nat) (src : mem) (in_c_struct out_buf_len enc_level : Z) (v : enc_vars)
    : ST mem Z :=
  match fuel with
  | O => fun _ => Loop
  | S fuel =>
    match temp_ei v with
    | [] => fun _ => Fault
    | e :: _ =>
      if bool_decide (data_type e = QMI_EOTI) then st_ret (s32 (encoded_bytes v)) else
      let! r := encode_elem
        (fun ei dst p len level =>
           match ei with
           | None => st_ret 0
           | Some ei => encode_loop fuel src p len level (enc_start ei dst level)
           end) e src in_c_struct out_buf_len enc_level v in
      match r with
      | inl err => st_ret err
      | inr v =>
        let! v := encode_header (tlv_type e) enc_level v in
        encode_loop fuel src in_c_struct out_buf_len enc_level v
      end
    end
  end.

Definition qmi_encode (fuel : nat) (src : mem) (ei : option (list qmi_elem_info))
    (out_buf in_c_struct out_buf_len enc_level : Z) : ST mem Z :=
  match ei with
  | None => st_ret 0
  | Some ei => encode_loop fuel src in_c_struct out_buf_len enc_level (enc_start ei out_buf enc_level)
  end.

(** ** Decoding *)
Fixpoint decode_n (n : nat) (inb : mem) (dst p size rc : Z) : ST mem Z :=
  match n with
  | O => st_ret (s32 rc)
  | S n =>
    let! bs := peek inb (load_bytes (Z.to_nat size) p) in
    store_bytes dst bs ;;;
    decode_n n inb (dst + size) (p + size) size (u32 (rc + size))
  end.

Definition qmi_decode_basic_elem (inb : mem) (buf_dst buf_src elem_len elem_size : Z) : ST mem Z :=
  decode_n (Z.to_nat elem_len) inb buf_dst buf_src elem_size 0.

(** The loop of [qmi_decode_struct_elem]; the result is the number of elements decoded and
    of bytes, or an error. *)
Fixpoint decode_structs (n : nat) (dec : Z -> Z -> Z -> ST mem Z) (buf_dst buf_src tlv_len size
    i decoded : Z) : ST mem (Z + Z * Z) :=
  match n with
  | O => st_ret (inr (i, decoded))
  | S n =>
    if negb (decoded <? tlv_len) then st_ret (inr (i, decoded)) else
    let! rc := dec buf_dst buf_src (u32 (tlv_len - decoded)) in
    if rc <? 0 then st_ret (inl rc) else
    decode_structs n dec (buf_dst + size) (buf_src + rc) tlv_len size (i + 1) (s32 (decoded + rc))
  end.

Definition qmi_decode_struct_elem (dec : Z -> Z -> Z -> ST mem Z) (e : qmi_elem_info)
    (buf_dst buf_src elem_len tlv_len dec_level : Z) : ST mem Z :=
  let! r := decode_structs (Z.to_nat elem_len) dec buf_dst buf_src tlv_len (elem_size e) 0 0 in
  match r with
  | inl rc => st_ret rc
  | inr (i, decoded) =>
    if ((dec_level <=? 2) && negb (decoded =? tlv_len)) ||
       ((dec_level >? 2) && ((i <? elem_len) || (decoded >? tlv_len)))
    then st_ret (- EFAULT) else st_ret decoded
  end.

Definition qmi_decode_string_elem (inb : mem) (e : qmi_elem_info) (buf_dst buf_src tlv_len
    dec_level : Z) : ST mem Z :=
  let! r := (if dec_level =? 1 then st_ret (tlv_len, 0)
             else let! n := peek inb (load (Z.to_nat (string_len_size e)) buf_src) in
                  st_ret (n, string_len_size e)) in
  let '(string_len, decoded) := r in
  if string_len >=? elem_len e then st_ret (- ETOOSMALL) else
  if string_len >? tlv_len then st_ret (- EFAULT) else
  let! rc := qmi_decode_basic_elem inb buf_dst (buf_src + decoded) string_len (elem_size e) in
  store 1 (buf_dst + string_len) 0 ;;;
  st_ret (s32 (decoded + rc)).

Fixpoint find_ei (ei : list qmi_elem_info) (type : Z) : res (option (list qmi_elem_info)) :=
  match ei with
  | [] => Fault
  | e :: rest =>
    if bool_decide (data_type e = QMI_EOTI) then Ok None else
    if tlv_type e =? u8 type then Ok (Some ei) else find_ei rest type
  end.

(** The local variables of [qmi_decode]; the variable [data_len_value] keeps its value from one
    element to the next. *)
Record dec_vars := DecVars {
  dec_ei : list qmi_elem_info;
  dec_len : Z;
  buf_src : Z;
  dec_tlv_len : Z;
  decoded_bytes : Z;
}.

(** UPDATE_DECODE_VARIABLES *)
Definition dec_update (v : dec_vars) (rc : Z) : dec_vars :=
  DecVars (dec_ei v) (dec_len v) (buf_src v + rc) (dec_tlv_len v) (u32 (decoded_bytes v + rc)).

(** QMI_ENCDEC_DECODE_TLV *)
Definition get_tlv (inb : mem) (p : Z) : ST mem (Z * Z) :=
  let! type := peek inb (load 1 p) in
  let! lo := peek inb (load 1 (p + 1)) in
  let! hi := peek inb (load 1 (p + 2)) in
  st_ret (type, Z.lor lo (Z.shiftl hi 8)).

(** What the head of an iteration of [qmi_decode] decides. *)
Inductive dec_head := DecErr (rc : Z) | DecSkip (v : dec_vars) | DecElem (v : dec_vars).

Definition decode_head (ei : list qmi_elem_info) (inb : mem) (in_buf_len dec_level : Z) (v : dec_vars)
    : ST mem dec_head :=
  if dec_level =? 1 then
    let! tl := get_tlv inb (buf_src v) in
    let '(type, len) := tl in
    let v := DecVars (dec_ei v) (dec_len v) (buf_src v + (TLV_TYPE_SIZE + TLV_LEN_SIZE)) len
               (u32 (decoded_bytes v + (TLV_TYPE_SIZE + TLV_LEN_SIZE))) in
    let! found := st_lift (find_ei ei type) in
    match found with
    | None => if type <? OPTIONAL_TLV_TYPE_START then st_ret (DecErr (- EINVAL))
              else st_ret (DecSkip (dec_update v len))
    | Some e => st_ret (DecElem (DecVars e (dec_len v) (buf_src v) len (decoded_bytes v)))
    end
  else st_ret (DecElem (DecVars (dec_ei v) (dec_len v) (buf_src v)
                          (u32 (in_buf_len - decoded_bytes v)) (decoded_bytes v))).

(** [*temp_ei] *)
Definition deref (ei : list qmi_elem_info) : ST mem qmi_elem_info :=
  match ei with [] => fun _ => Fault | e :: _ => st_ret e end.

Definition dec_next (v : dec_vars) : dec_vars :=
  DecVars (tail (dec_ei v)) (dec_len v) (buf_src v) (dec_tlv_len v) (decoded_bytes v).

(** The optional flag and the length in front of the data of an element. *)
Definition decode_flag (out : Z) (v : dec_vars) : ST mem dec_vars :=
  let! e := deref (dec_ei v) in
  if bool_decide (data_type e = QMI_OPT_FLAG) then
    store 1 (out + elem_offset e) 1 ;;;
    st_ret (dec_next v)
  else st_ret v.

Definition decode_len (out : Z) (inb : mem) (v : dec_vars) : ST mem dec_vars :=
  let! e := deref (dec_ei v) in
  if bool_decide (data_type e = QMI_DATA_LEN) then
    let sz := if elem_size e =? 1 then 1 else 2 in
    let! x := peek inb (load (Z.to_nat sz) (buf_src v)) in
    let n := overlay (dec_len v) sz x in
    store32 (out + elem_offset e) n ;;;
    let v := dec_next v in
    st_ret (dec_update (DecVars (dec_ei v) n (buf_src v) (u32 (dec_tlv_len v - sz)) (decoded_bytes v)) sz)
  else st_ret v.

(** The number of elements, or none when it is too large. *)
Definition dec_data_len (e : qmi_elem_info) (v : Z) : option Z :=
  match array_type e with
  | NO_ARRAY => Some 1
  | STATIC_ARRAY => Some (elem_len e)
  | VAR_LEN_ARRAY => if v >? elem_len e then None else Some v
  end.

(** The data of an element. *)
Definition decode_data (rec : option (list qmi_elem_info) -> Z -> Z -> Z -> Z -> ST mem Z)
    (out : Z) (inb : mem) (dec_level : Z) (v : dec_vars) : ST mem (Z + dec_vars) :=
  let! e := deref (dec_ei v) in
  let dst := out + elem_offset e in
  match dec_data_len e (dec_len v) with
  | None => st_ret (inl (- ETOOSMALL))
  | Some n =>
    let v := DecVars (dec_ei v) n (buf_src v) (dec_tlv_len v) (decoded_bytes v) in
    match data_type e with
    | QMI_UNSIGNED_1_BYTE | QMI_UNSIGNED_2_BYTE | QMI_UNSIGNED_4_BYTE | QMI_UNSIGNED_8_BYTE
    | QMI_SIGNED_2_BYTE_ENUM | QMI_SIGNED_4_BYTE_ENUM =>
      let! rc := qmi_decode_basic_elem inb dst (buf_src v) n (elem_size e) in
      st_ret (inr (dec_update v rc))
    | QMI_STRUCT =>
      let! rc := qmi_decode_struct_elem
                   (fun dst p len => rec (ei_array e) dst p len (dec_level + 1))
                   e dst (buf_src v) n (dec_tlv_len v) (dec_level + 1) in
      if rc <? 0 then st_ret (inl rc) else st_ret (inr (dec_update v rc))
    | QMI_STRING =>
      let! rc := qmi_decode_string_elem inb e dst (buf_src v) (dec_tlv_len v) dec_level in
      if rc <? 0 then st_ret (inl rc) else st_ret (inr (dec_update v rc))
    | _ => st_ret (inl (- EINVAL))
    end
  end.

(** [dec_level >= 2 && temp_ei->data_type == QMI_EOTI] *)
Definition at_end (dec_level : Z) (v : dec_vars) : ST mem bool :=
  if dec_level >=? 2 then let! e := deref (dec_ei v) in st_ret (bool_decide (data_type e = QMI_EOTI))
  else st_ret false.

Fixpoint decode_loop (fuel : nat) (ei : list qmi_elem_info) (inb : mem) (out in_buf_len dec_level : Z)
    (v : dec_vars) : ST mem Z :=
  match fuel with
  | O => fun _ => Loop
  | S fuel =>
    if negb (decoded_bytes v <? in_buf_len) then st_ret (s32 (decoded_bytes v)) else
    let! stop := at_end dec_level v in
    if stop then st_ret (s32 (decoded_bytes v)) else
    let! h := decode_head ei inb in_buf_len dec_level v in
    match h with
    | DecErr rc => st_ret rc
    | DecSkip v => decode_loop fuel ei inb out in_buf_len dec_level v
    | DecElem v =>
      let! v := decode_flag out v in
      let! v := decode_len out inb v in
      let! r := decode_data
        (fun sub dst p len level =>
           let ei := default [] sub in
           decode_loop fuel ei inb dst len level (DecVars ei 0 p 0 0)) out inb dec_level v in
      match r with
      | inl rc => st_ret rc
      | inr v => decode_loop fuel ei inb out in_buf_len dec_level (dec_next v)
      end
    end
  end.

(** [qmi_decode]; a NULL table is the empty one, whose first access faults. *)
Definition qmi_decode (fuel : nat) (inb : mem) (ei : option (list qmi_elem_info))
    (out_c_struct in_buf in_buf_len dec_level : Z) : ST mem Z :=
  decode_loop fuel (default [] ei) inb out_c_struct in_buf_len dec_level
    (DecVars (default [] ei) 0 in_buf 0 0).

(** ** Messages

    The layout of [struct qmi_header] is outside the repository: its size and how its four
    fields are written are parameters, and the fields are written inside it. *)
Class QmiHeader := {
  sizeof_qmi_header : Z;
  put_qmi_header : Z -> Z -> Z -> Z -> mem -> mem;
  header_size_range : 0 < sizeof_qmi_header <= 64;
  header_window : forall t i x n m, m_base (put_qmi_header t i x n m) = m_base m /\
    m_size (put_qmi_header t i x n m) = m_size m;
  header_frame : forall t i x n m a, sizeof_qmi_header <= a - m_base m ->
    get_byte (put_qmi_header t i x n m) a = get_byte m a;
}.

Section message.
Context `{QmiHeader}.

(** [qmi_encode_message]: [alloc] is the answer of the allocator, [c_struct] the address of
    the structure in [src]; the result is an error or the message and its length. *)
Definition qmi_encode_message (fuel : nat) (alloc : bool) (src : mem) (type msg_id len txn_id : Z)
    (ei : option (list qmi_elem_info)) (c_struct : option Z) : res (Z + mem * Z) :=
  res_bind (match c_struct with
            | None => qmi_calc_min_msg_len fuel ei 1
            | Some _ => Ok 0
            end) (fun min =>
  if negb (min =? 0) then Ok (inl (- EINVAL)) else
  if negb alloc then Ok (inl (- ENOMEM)) else
  let msg := Mem 0 (sizeof_qmi_header + len) ∅ in
  res_bind (match c_struct with
            | None => Ok (0, msg)
            | Some p => qmi_encode fuel src ei sizeof_qmi_header p (u32 len) 1 msg
            end) (fun r =>
  let '(msglen, msg) := r in
  if msglen <? 0 then Ok (inl msglen) else
  Ok (inr (put_qmi_header type txn_id msg_id msglen msg, sizeof_qmi_header + msglen)))).

(** [qmi_decode_message] of the [len] bytes at [buf] into the structure at [c_struct]; [None] is
    a null pointer. *)
Definition qmi_decode_message (fuel : nat) (inb : mem) (buf : option Z) (len : Z)
    (ei : option (list qmi_elem_info)) (c_struct : option Z) : ST mem Z :=
  match ei, c_struct, buf with
  | Some ei, Some p, Some b =>
    if len =? 0 then st_ret (- EINVAL) else
    qmi_decode fuel inb (Some ei) p (b + sizeof_qmi_header) (u32 (len - sizeof_qmi_header)) 1
  | _, _, _ => st_ret (- EINVAL)
  end.
End message.

(** The table of the header of every response; the structure it describes and the block type
    are in the header outside the repository. *)
Definition qmi_response_type_v01_ei (QMI_COMMON_TLV_TYPE off_result off_error : Z) : list qmi_elem_info :=
  [ Elem QMI_SIGNED_2_BYTE_ENUM 1 2 NO_ARRAY QMI_COMMON_TLV_TYPE off_result None;
    Elem QMI_SIGNED_2_BYTE_ENUM 1 2 NO_ARRAY QMI_COMMON_TLV_TYPE off_error None;
    Elem QMI_EOTI 0 0 NO_ARRAY QMI_COMMON_TLV_TYPE 0 None ].
