(* ===== verification/QmiWire.v ===== *)
(** * QMI messages: what the encoder writes and the decoder reads back

    A table of descriptors is the table of a schema: a list of items, each an optional
    presence flag, an optional length and the data.  [wire] says which bytes the structure
    stands for.  The encoder writes exactly these bytes, and the decoder builds from them
    a structure with the same wire bytes. *)
From S2P Require Import Prelude CMem QmiEncdec.
Open Scope c_scope.

(** ** Schemas *)

(** An item: its type, the offset of its presence flag, the offset and the size of its
    length field, the kind of array, the maximal number of elements, their size and offset,
    and the items of a structure. *)
Inductive item := Item
  (tlv : Z) (opt : option Z) (len : option (Z * Z)) (arr : qmi_array_type) (n size off : Z)
  (ty : qmi_elem_type) (fields : list item).

Definition i_tlv (it : item) := let '(Item t _ _ _ _ _ _ _ _) := it in t.
Definition i_opt (it : item) := let '(Item _ o _ _ _ _ _ _ _) := it in o.
Definition i_len (it : item) := let '(Item _ _ l _ _ _ _ _ _) := it in l.
Definition i_arr (it : item) := let '(Item _ _ _ a _ _ _ _ _) := it in a.
Definition i_n (it : item) := let '(Item _ _ _ _ n _ _ _ _) := it in n.
Definition i_size (it : item) := let '(Item _ _ _ _ _ s _ _ _) := it in s.
Definition i_off (it : item) := let '(Item _ _ _ _ _ _ o _ _) := it in o.
Definition i_ty (it : item) := let '(Item _ _ _ _ _ _ _ t _) := it in t.
Definition i_fields (it : item) := let '(Item _ _ _ _ _ _ _ _ f) := it in f.

Definition is_basic (ty : qmi_elem_type) : bool :=
  match ty with
  | QMI_UNSIGNED_1_BYTE | QMI_UNSIGNED_2_BYTE | QMI_UNSIGNED_4_BYTE | QMI_UNSIGNED_8_BYTE
  | QMI_SIGNED_2_BYTE_ENUM | QMI_SIGNED_4_BYTE_ENUM => true
  | _ => false
  end.

Definition eoti : qmi_elem_info := Elem QMI_EOTI 0 0 NO_ARRAY 0 0 None.

(** The descriptors of an item, and the table of a list of items. *)
Fixpoint elems_of (it : item) : list qmi_elem_info :=
  let '(Item tlv opt len arr n size off ty fields) := it in
  match opt with Some o => [Elem QMI_OPT_FLAG 1 1 NO_ARRAY tlv o None] | None => [] end ++
  match len with Some (o, s) => [Elem QMI_DATA_LEN 1 s NO_ARRAY tlv o None] | None => [] end ++
  [Elem ty n size arr tlv off
     (match ty with QMI_STRUCT => Some (concat (map elems_of fields) ++ [eoti]) | _ => None end)].

Definition table (items : list item) : list qmi_elem_info := concat (map elems_of items) ++ [eoti].

(** ** The bytes of a structure *)

(** The string at [p]: its bytes up to the first zero, at most [n] of them. *)
Fixpoint cstr (m : mem) (p : Z) (n : nat) : list Z :=
  match n with
  | O => []
  | S n => if get_byte m p =? 0 then [] else get_byte m p :: cstr m (p + 1) n
  end.

Definition present (m : mem) (base : Z) (it : item) : bool :=
  match i_opt it with Some o => negb (get_byte m (base + o) =? 0) | None => true end.

Definition len_bytes (s : Z) : nat := if s =? 1 then 1%nat else 2%nat.

(** The number of elements of an item. *)
Definition count (m : mem) (base : Z) (len : option (Z * Z)) (arr : qmi_array_type) (n : Z) : Z :=
  match arr with
  | NO_ARRAY => 1
  | STATIC_ARRAY => n
  | VAR_LEN_ARRAY => match len with Some (o, s) => le_load m (base + o) (len_bytes s) | None => 0 end
  end.

(** The value of an item without its type and length; [nested] items have their own lengths
    in front of strings. *)
Fixpoint payload (m : mem) (nested : bool) (base : Z) (it : item) : list Z :=
  let '(Item _ _ len arr n size off ty fields) := it in
  let k := count m base len arr n in
  match len with Some (_, s) => le_bytes (len_bytes s) k | None => [] end ++
  match ty with
  | QMI_STRUCT =>
    concat (map (fun i => concat (map (payload m true (base + off + i * size)) fields)) (seqZ 0 k))
  | QMI_STRING =>
    let s := cstr m (base + off) (Z.to_nat n) in
    (if nested then le_bytes (if n <=? U8_MAX then 1 else 2) (Z.of_nat (length s)) else []) ++ s
  | _ => bytes_at m (base + off) (Z.to_nat (k * size))
  end.

Definition block (m : mem) (base : Z) (it : item) : list Z :=
  if present m base it then
    let p := payload m false base it in i_tlv it :: le_bytes 2 (Z.of_nat (length p)) ++ p
  else [].

Definition wire (m : mem) (base : Z) (items : list item) : list Z :=
  concat (map (block m base) items).

(** ** Well formed schemas *)

(** The largest number of elements, and the bytes the item takes in the structure: the
    flag, the length (written as four bytes) and the data. *)
Definition max_count (it : item) : Z := match i_arr it with NO_ARRAY => 1 | _ => i_n it end.

Definition extent (it : item) : Z :=
  match i_ty it with QMI_STRING => i_n it | _ => max_count it * i_size it end.

Definition ranges (it : item) : list (Z * Z) :=
  match i_opt it with Some o => [(o, 1)] | None => [] end ++
  match i_len it with Some (o, _) => [(o, 4)] | None => [] end ++ [(i_off it, extent it)].

Definition apart (r s : Z * Z) : bool := (r.1 + r.2 <=? s.1) || (s.1 + s.2 <=? r.1).

Fixpoint all_apart (l : list (Z * Z)) : bool :=
  match l with [] => true | r :: l => forallb (apart r) l && all_apart l end.

(** A length field must hold every number of elements before it: the decoder keeps the
    upper bytes of the last number it saw. *)
Definition lens_ok (items : list item) : bool :=
  forallb (fun it => match i_len it with
                     | Some (_, s) => forallb (fun j => max_count j <? 2 ^ (8 * s)) items
                     | None => true
                     end) items.

(** The items of a structure of [ssize] bytes lie inside it and apart from each other. *)
Definition layout_ok (ssize : Z) (items : list item) : bool :=
  forallb (fun r => (0 <=? r.1) && (r.1 + r.2 <=? ssize)) (concat (map ranges items)) &&
  all_apart (concat (map ranges items)) && lens_ok items.

Fixpoint item_ok (nested : bool) (it : item) : bool :=
  let '(Item tlv opt len arr n size off ty fields) := it in
  (0 <? tlv) && (tlv <? 256) &&
  match opt with Some _ => negb nested | None => true end &&
  (0 <? n) && (n <? 65536) && (0 <? size) &&
  match len, arr with
  | Some (_, s), VAR_LEN_ARRAY => (s =? 1) || (s =? 2)
  | None, (NO_ARRAY | STATIC_ARRAY) => true
  | _, _ => false
  end &&
  match ty with
  | QMI_STRUCT => negb (bool_decide (fields = [])) && forallb (item_ok true) fields && layout_ok size fields
  | QMI_STRING => (size =? 1) && match arr with NO_ARRAY => true | _ => false end
  | _ => is_basic ty
  end.

(** The schema of a whole message: different types for different items. *)
Definition schema_ok (ssize : Z) (items : list item) : bool :=
  forallb (item_ok false) items && layout_ok ssize items && bool_decide (NoDup (map i_tlv items)).

(** The structure holds values the items can have: no more elements than the maximum,
    strings that end. *)
Fixpoint value_ok (m : mem) (base : Z) (it : item) : bool :=
  let '(Item _ _ len arr n size off ty fields) := it in
  let k := count m base len arr n in
  (k <=? n) &&
  match ty with
  | QMI_STRUCT => forallb (fun i => forallb (value_ok m (base + off + i * size)) fields) (seqZ 0 k)
  | QMI_STRING => (length (cstr m (base + off) (Z.to_nat n)) <? Z.to_nat n)%nat
  | _ => true
  end.

(** ** Bytes written to a buffer *)

(** Only the bytes [bs] at [a] were written. *)
Record wrote (m m' : mem) (a : Z) (bs : list Z) : Prop := {
  w_base : m_base m' = m_base m;
  w_size : m_size m' = m_size m;
  w_bytes : bytes_at m' a (length bs) = bs;
  w_frame : forall b, b < a \/ a + Z.of_nat (length bs) <= b -> get_byte m' b = get_byte m b;
}.

Definition room (m : mem) (a n : Z) : Prop := m_base m <= a /\ a + n <= m_base m + m_size m.

(** At most the [n] bytes at [a] were written. *)
Record spoiled (m m' : mem) (a n : Z) : Prop := {
  sp_base : m_base m' = m_base m;
  sp_size : m_size m' = m_size m;
  sp_frame : forall b, b < a \/ a + n <= b -> get_byte m' b = get_byte m b;
}.

Lemma spoiled_none m a n : spoiled m m a n.
Proof. by constructor. Qed.

Lemma wrote_spoiled m m1 m2 a bs n k : wrote m m1 a bs -> spoiled m1 m2 (a + Z.of_nat (length bs)) n ->
  Z.of_nat (length bs) + n <= k -> Z.of_nat (length bs) <= k -> spoiled m m2 a k.
Proof.
  intros [B1 S1 _ F1] [B2 S2 F2] Hk Hl. constructor; [congruence|congruence|].
  intros b Hb. rewrite F2, F1 by lia. done.
Qed.

Lemma spoiled_wider m m' a n a' n' : spoiled m m' a n -> a' <= a -> a + n <= a' + n' -> spoiled m m' a' n'.
Proof. intros [B S F] H1 H2. constructor; [done|done|]. intros b Hb. apply F. lia. Qed.

Lemma wrote_nil m a : wrote m m a [].
Proof. by constructor. Qed.

Lemma wrote_put m a bs : Forall (fun b => 0 <= b < 256) bs -> wrote m (put_bytes m a bs) a bs.
Proof.
  intros Hb. destruct (put_bytes_frame bs m a) as [H1 H2]. constructor; [done|done| |].
  - by apply bytes_at_put.
  - intros b. apply get_put_bytes_out.
Qed.

Lemma wrote_store m a n v : wrote m (le_store m a n v) a (le_bytes n v).
Proof.
  destruct (le_store_frame n m a v). constructor; rewrite ?length_le_bytes; [done|done|by apply bytes_at_store|].
  intros b. apply get_byte_store.
Qed.

Lemma wrote_app m m1 m2 a bs cs : wrote m m1 a bs -> wrote m1 m2 (a + Z.of_nat (length bs)) cs ->
  wrote m m2 a (bs ++ cs).
Proof.
  intros [B1 S1 W1 F1] [B2 S2 W2 F2]. constructor; [congruence|congruence| |].
  - rewrite length_app, bytes_at_app, W2. f_equal. rewrite <-W1 at 2. apply bytes_at_agree.
    intros b Hb. apply F2. lia.
  - intros b Hb. rewrite length_app in Hb. rewrite F2, F1 by lia. done.
Qed.

(** The header of a block is written after its contents. *)
Lemma wrote_before m m1 m2 a bs cs : wrote m m1 (a + Z.of_nat (length bs)) cs -> wrote m1 m2 a bs ->
  wrote m m2 a (bs ++ cs).
Proof.
  intros [B1 S1 W1 F1] [B2 S2 W2 F2]. constructor; [congruence|congruence| |].
  - rewrite length_app, bytes_at_app, W2. f_equal. rewrite <-W1 at 2. apply bytes_at_agree.
    intros b Hb. apply F2. lia.
  - intros b Hb. rewrite length_app in Hb. rewrite F2, F1 by lia. done.
Qed.

Lemma wrote_room m m' a bs b n : wrote m m' a bs -> room m b n -> room m' b n.
Proof. intros [B S _ _]. unfold room. by rewrite B, S. Qed.

(** ** Copying elements *)
Lemma encode_n_ok src size n : forall dst p rc m, 0 <= size -> 0 <= rc -> rc + Z.of_nat n * size < 2 ^ 31 ->
  room src p (Z.of_nat n * size) -> room m dst (Z.of_nat n * size) ->
  exists m', encode_n n src dst p size rc m = Ok (rc + Z.of_nat n * size, m') /\
    wrote m m' dst (bytes_at src p (Z.to_nat (Z.of_nat n * size))).
Proof.
  induction n as [|n IH]; intros dst p rc m Hs Hr Hm Hsrc Hdst; cbn [encode_n].
  { exists m. rewrite s32_id by lia. split; [unfold st_ret; do 2 f_equal; lia|]. apply wrote_nil. }
  destruct Hsrc as [Hs1 Hs2], Hdst as [Hd1 Hd2].
  rewrite (st_bind_ok _ _ _ (bytes_at src p (Z.to_nat size)) m)
    by (unfold peek; rewrite load_bytes_ok by nia; done).
  erewrite st_bind_ok by (apply store_bytes_ok; rewrite ?length_bytes_at; nia).
  rewrite u32_id by nia.
  pose proof (wrote_put m dst (bytes_at src p (Z.to_nat size)) (bytes_at_range _ _ _)) as Hw.
  destruct (IH (dst + size) (p + size) (rc + size) (put_bytes m dst (bytes_at src p (Z.to_nat size))))
    as (m' & Hr' & Hw'); [lia|lia|nia|split; nia|eapply wrote_room; [exact Hw|]; split; nia|].
  exists m'. rewrite Hr'. split; [do 2 f_equal; lia|].
  replace (Z.to_nat (Z.of_nat (S n) * size)) with (Z.to_nat size + Z.to_nat (Z.of_nat n * size))%nat by nia.
  rewrite bytes_at_app, Z2Nat.id by lia. eapply wrote_app; [exact Hw|].
  rewrite length_bytes_at, Z2Nat.id by lia. exact Hw'.
Qed.

Lemma encode_basic_ok src dst p n size m : 0 <= n -> 0 <= size -> n * size < 2 ^ 31 ->
  room src p (n * size) -> room m dst (n * size) ->
  exists m', qmi_encode_basic_elem src dst p n size m = Ok (n * size, m') /\
    wrote m m' dst (bytes_at src p (Z.to_nat (n * size))).
Proof.
  intros Hn Hs Hm Hsrc Hdst.
  destruct (encode_n_ok src size (Z.to_nat n) dst p 0 m) as (m' & Hr & Hw); rewrite ?Z2Nat.id by lia; try done.
  rewrite Z2Nat.id in Hr, Hw by lia. exists m'. split; [exact Hr|exact Hw].
Qed.

(** The bytes of a local variable. *)
Lemma bytes_local32 v k : (k <= 4)%nat -> bytes_at (local32 v) 0 k = le_bytes k v.
Proof.
  intros Hk. by apply bytes_at_store.
Qed.

Lemma room_local32 v n : n <= 4 -> room (local32 v) 0 n.
Proof.
  intros Hn. unfold room, local32. destruct (le_store_frame 4 (Mem 0 4 ∅) 0 v) as [-> ->]. cbn. lia.
Qed.

(** ** Strings *)
Lemma length_cstr m n : forall p, (length (cstr m p n) <= n)%nat.
Proof. induction n as [|n IH]; intros p; cbn; [lia|]. case_if; cbn; [lia|]. specialize (IH (p + 1)). lia. Qed.

Lemma cstr_bytes m n : forall p, bytes_at m p (length (cstr m p n)) = cstr m p n.
Proof.
  induction n as [|n IH]; intros p; cbn [cstr]; [done|]. case_if; [done|].
  cbn [length]. change (S ?k) with (1 + k)%nat. rewrite bytes_at_app, IH. done.
Qed.

Lemma cstr_agree m m' n : forall p,
  (forall b, p <= b < p + Z.of_nat n -> get_byte m b = get_byte m' b) -> cstr m p n = cstr m' p n.
Proof.
  induction n as [|n IH]; intros p H; cbn [cstr]; [done|]. rewrite (H p), (IH (p + 1)); [done| |lia].
  intros b Hb. apply H. lia.
Qed.

Lemma strlen_loop_ok m n : forall fuel p k, (n <= fuel)%nat -> (length (cstr m p n) < n)%nat ->
  room m p (Z.of_nat n) -> strlen_loop fuel p k m = Ok (k + Z.of_nat (length (cstr m p n)), m).
Proof.
  induction n as [|n IH]; intros fuel p k Hf Hl [Hr1 Hr2]; [lia|]. destruct fuel as [|fuel]; [lia|].
  cbn [strlen_loop cstr] in *. erewrite st_bind_ok by (apply load_ok; lia). rewrite le_load_1.
  case_if; cbn [length] in *; [unfold st_ret; do 2 f_equal; lia|].
  rewrite IH; [do 2 f_equal; lia|lia|lia|split; lia].
Qed.

Lemma strlen_ok m p n : (length (cstr m p n) < n)%nat -> room m p (Z.of_nat n) ->
  strlen p m = Ok (Z.of_nat (length (cstr m p n)), m).
Proof.
  intros Hl Hr. unfold strlen. erewrite strlen_loop_ok; [f_equal; f_equal; lia| |done|done].
  destruct Hr. lia.
Qed.

(** ** Items *)
Definition cnt (m : mem) (base : Z) (it : item) : Z := count m base (i_len it) (i_arr it) (i_n it).

Definition len_part (m : mem) (base : Z) (it : item) : list Z :=
  match i_len it with Some (_, s) => le_bytes (len_bytes s) (cnt m base it) | None => [] end.

(** The bytes of the fields of a structure at [p]. *)
Definition fields_bytes (m : mem) (p : Z) (fields : list item) : list Z :=
  concat (map (payload m true p) fields).

Definition body (m : mem) (nested : bool) (base : Z) (it : item) : list Z :=
  match i_ty it with
  | QMI_STRUCT =>
    concat (map (fun i => fields_bytes m (base + i_off it + i * i_size it) (i_fields it))
              (seqZ 0 (cnt m base it)))
  | QMI_STRING =>
    let s := cstr m (base + i_off it) (Z.to_nat (i_n it)) in
    (if nested then le_bytes (if i_n it <=? U8_MAX then 1 else 2) (Z.of_nat (length s)) else []) ++ s
  | _ => bytes_at m (base + i_off it) (Z.to_nat (cnt m base it * i_size it))
  end.

Lemma payload_split m nested base it : payload m nested base it = len_part m base it ++ body m nested base it.
Proof. by destruct it. Qed.

Lemma item_induction (P : item -> Prop) :
  (forall it, Forall P (i_fields it) -> P it) -> forall it, P it.
Proof.
  intros H. fix IH 1. intros [tlv opt len arr n size off ty fields]. apply H. cbn.
  induction fields as [|f l IHl]; constructor; [apply IH|exact IHl].
Qed.

(** What a well formed item is. *)
Record item_wf (nested : bool) (it : item) : Prop := {
  iw_tlv : 0 < i_tlv it < 256;
  iw_opt : nested = true -> i_opt it = None;
  iw_n : 0 < i_n it < 65536;
  iw_size : 0 < i_size it;
  iw_len : match i_len it with
           | Some (_, s) => i_arr it = VAR_LEN_ARRAY /\ (s = 1 \/ s = 2)
           | None => i_arr it <> VAR_LEN_ARRAY
           end;
  iw_ty : is_basic (i_ty it) = true \/
          (i_ty it = QMI_STRING /\ i_size it = 1 /\ i_arr it = NO_ARRAY) \/
          (i_ty it = QMI_STRUCT /\ i_fields it <> [] /\
           Forall (fun f => item_ok true f = true) (i_fields it) /\
           layout_ok (i_size it) (i_fields it) = true);
}.

Lemma forallb_Forall {A} (f : A -> bool) l : forallb f l = true <-> Forall (fun x => f x = true) l.
Proof. rewrite forallb_forall, Forall_forall. setoid_rewrite list_elem_of_In. done. Qed.

Lemma item_ok_wf nested it : item_ok nested it = true -> item_wf nested it.
Proof.
  destruct it as [tlv opt len arr n size off ty fields]. cbn [item_ok].
  rewrite !andb_true_iff. intros [[[[[[[H1 H2] Ho] H3] H4] H5] Hl] Ht].
  constructor; cbn [i_tlv i_opt i_n i_size i_len i_arr i_ty i_fields]; [lia| |lia|lia| |].
  - intros ->. by destruct opt.
  - destruct len as [[o s]|], arr; try done. split; [done|]. lia.
  - destruct ty; auto.
    + right. right. rewrite !andb_true_iff in Ht. destruct Ht as [[Hf Hb] Hlay].
      rewrite forallb_Forall in Hb. case_bool_decide; done.
    + right. left. rewrite andb_true_iff in Ht. destruct Ht as [Hs Ha]. split; [done|]. split; [lia|].
      by destruct arr.
Qed.

Lemma value_ok_spec m base it : value_ok m base it = true <->
  cnt m base it <= i_n it /\
  (i_ty it = QMI_STRING -> (length (cstr m (base + i_off it) (Z.to_nat (i_n it))) < Z.to_nat (i_n it))%nat) /\
  (i_ty it = QMI_STRUCT -> forall i, 0 <= i < cnt m base it ->
     Forall (fun f => value_ok m (base + i_off it + i * i_size it) f = true) (i_fields it)).
Proof.
  destruct it as [tlv opt len arr n size off ty fields]. cbn [value_ok]. rewrite andb_true_iff. unfold cnt.
  cbn [i_len i_arr i_n i_off i_size i_ty i_fields]. split.
  - intros [Hk Ht]. split; [lia|]. split; intros ->; [by apply Nat.ltb_lt|].
    intros i Hi. rewrite forallb_Forall, Forall_forall in Ht. apply forallb_Forall, Ht. apply elem_of_seqZ. lia.
  - intros (Hk & Hs & Hf). split; [lia|]. destruct ty; try done; [|by apply Nat.ltb_lt, Hs].
    apply forallb_Forall, Forall_forall. intros i Hi%elem_of_seqZ. apply forallb_Forall, (Hf eq_refl). lia.
Qed.

Lemma value_ok_inv m base it : value_ok m base it = true ->
  cnt m base it <= i_n it /\
  (i_ty it = QMI_STRING -> (length (cstr m (base + i_off it) (Z.to_nat (i_n it))) < Z.to_nat (i_n it))%nat) /\
  (i_ty it = QMI_STRUCT -> forall i, 0 <= i < cnt m base it ->
     Forall (fun f => value_ok m (base + i_off it + i * i_size it) f = true) (i_fields it)).
Proof. apply value_ok_spec. Qed.

Lemma cnt_range m base nested it : item_wf nested it ->
  0 <= cnt m base it < 65536 \/ 65536 <= cnt m base it.
Proof.
  intros [_ _ Hn _ Hl _]. unfold cnt, count. destruct (i_arr it); [lia|lia|].
  destruct (i_len it) as [[o s]|]; [|done]. pose proof (le_load_range m (len_bytes s) (base + o)). lia.
Qed.

Lemma cnt_pos m base nested it : item_wf nested it -> i_len it = None -> 0 < cnt m base it.
Proof. intros [_ _ Hn _ Hl _] E. rewrite E in Hl. unfold cnt, count. destruct (i_arr it); [lia|lia|done]. Qed.

Lemma cnt_max m base nested it : item_wf nested it -> cnt m base it <= i_n it ->
  0 <= cnt m base it <= max_count it.
Proof.
  intros Hw Hk. destruct (cnt_range m base nested it Hw); [|destruct Hw; lia].
  split; [lia|]. revert Hk. unfold cnt, count, max_count. destruct (i_arr it); lia.
Qed.

Lemma elem_of_concat_map {A B} (f : A -> list B) l x :
  x ∈ concat (map f l) <-> exists y, y ∈ l /\ x ∈ f y.
Proof.
  induction l as [|y l IH]; cbn [map concat].
  - split; [intros Hx; by apply elem_of_nil in Hx|intros (y & Hy & _); by apply elem_of_nil in Hy].
  - rewrite elem_of_app, IH. setoid_rewrite elem_of_cons. naive_solver.
Qed.

(** The parts of a structure an item takes lie inside it. *)
Lemma layout_inside ssize items it r : layout_ok ssize items = true -> it ∈ items -> r ∈ ranges it ->
  0 <= r.1 /\ r.1 + r.2 <= ssize.
Proof.
  unfold layout_ok. rewrite !andb_true_iff, forallb_Forall, Forall_forall. intros [[Hin _] _] Hit Hr.
  enough (Hj : r ∈ concat (map ranges items)) by (specialize (Hin r Hj); lia).
  apply elem_of_concat_map. by exists it.
Qed.

Lemma data_range it : (i_off it, extent it) ∈ ranges it.
Proof. unfold ranges. apply elem_of_app. right. apply elem_of_app. right. left. Qed.

Lemma len_range it o s : i_len it = Some (o, s) -> (o, 4) ∈ ranges it.
Proof. unfold ranges. intros ->. apply elem_of_app. right. left. Qed.

(** The data of an item lies inside its extent. *)
Lemma extent_count m base nested it : item_wf nested it -> cnt m base it <= i_n it ->
  i_ty it <> QMI_STRING -> 0 <= cnt m base it * i_size it <= extent it.
Proof.
  intros Hw Hk Ht. destruct (cnt_max _ _ _ _ Hw Hk). destruct Hw. unfold extent.
  destruct (i_ty it); try done; nia.
Qed.

(** ** Encoding one element *)

(** The descriptor of the data of an item. *)
Definition data_elem (it : item) : qmi_elem_info :=
  Elem (i_ty it) (i_n it) (i_size it) (i_arr it) (i_tlv it) (i_off it)
    (match i_ty it with QMI_STRUCT => Some (table (i_fields it)) | _ => None end).

Definition len_elem (it : item) (o s : Z) : qmi_elem_info := Elem QMI_DATA_LEN 1 s NO_ARRAY (i_tlv it) o None.
Definition opt_elem (it : item) (o : Z) : qmi_elem_info := Elem QMI_OPT_FLAG 1 1 NO_ARRAY (i_tlv it) o None.

Lemma elems_of_eq it : elems_of it =
  match i_opt it with Some o => [opt_elem it o] | None => [] end ++
  match i_len it with Some (o, s) => [len_elem it o s] | None => [] end ++ [data_elem it].
Proof. by destruct it. Qed.

(** The encoder of a nested table writes the bytes of its fields. *)
Definition enc_fields_ok (rec : option (list qmi_elem_info) -> Z -> Z -> Z -> Z -> ST mem Z)
    (src : mem) (ssize level : Z) (fields : list item) : Prop :=
  forall dst p L m, Forall (fun f => value_ok src p f = true) fields -> room src p ssize ->
    let bs := fields_bytes src p fields in
    Z.of_nat (length bs) + 3 <= L < 2 ^ 31 -> room m dst (Z.of_nat (length bs)) ->
    exists m', rec (Some (table fields)) dst p L level m = Ok (Z.of_nat (length bs), m') /\
      wrote m m' dst bs.

Lemma encode_structs_ok rec src size level fields n : 
  enc_fields_ok rec src size level fields -> forall j p0 dst L e m, 0 <= j -> 0 <= e -> 0 < size ->
  (forall i, j <= i < j + Z.of_nat n -> Forall (fun f => value_ok src (p0 + i * size) f = true) fields /\
     room src (p0 + i * size) size) ->
  let bs := concat (map (fun i => fields_bytes src (p0 + i * size) fields) (seqZ j (Z.of_nat n))) in
  e + Z.of_nat (length bs) + 3 <= L < 2 ^ 31 -> room m dst (Z.of_nat (length bs)) ->
  exists m', encode_structs n (fun d p l => rec (Some (table fields)) d p l level) dst (p0 + j * size) L size e m
      = Ok (e + Z.of_nat (length bs), m') /\ wrote m m' dst bs.
Proof.
  intros Hrec. induction n as [|n IH]; intros j p0 dst L e m Hj He Hs Hv bs Hl Hr.
  { unfold bs. rewrite seqZ_nil by lia. exists m. cbn. split; [unfold st_ret; do 2 f_equal; lia|apply wrote_nil]. }
  cbn [encode_structs]. destruct (Hv j ltac:(lia)) as [Hvj Hrj].
  assert (Hbs : bs = fields_bytes src (p0 + j * size) fields ++
     concat (map (fun i => fields_bytes src (p0 + i * size) fields) (seqZ (j + 1) (Z.of_nat n)))).
  { unfold bs. rewrite seqZ_cons by lia. cbn [map concat]. do 4 f_equal; lia. }
  rewrite Hbs in *. rewrite length_app in *. set (b0 := fields_bytes src (p0 + j * size) fields) in *.
  destruct (Hrec dst (p0 + j * size) (u32 (L - e)) m Hvj Hrj) as (m1 & Hr1 & Hw1).
  { fold b0. rewrite u32_id by lia. lia. }
  { fold b0. destruct Hr. split; lia. }
  rewrite (st_bind_ok _ _ _ _ _ Hr1). fold b0 in Hw1 |- *. bool_false (Z.of_nat (length b0) <? 0).
  rewrite s32_id by lia.
  destruct (IH (j + 1) p0 (dst + Z.of_nat (length b0)) L (e + Z.of_nat (length b0)) m1) as (m2 & Hr2 & Hw2);
    [lia|lia|lia|intros; apply Hv; lia|lia|eapply wrote_room; [exact Hw1|]; destruct Hr; split; lia|].
  exists m2. replace (p0 + j * size + size) with (p0 + (j + 1) * size) by lia. rewrite Hr2.
  split; [do 2 f_equal; lia|]. by eapply wrote_app.
Qed.

Lemma enc_data_len_ok nested src base it v : item_wf nested it -> cnt src base it <= i_n it ->
  (i_arr it = VAR_LEN_ARRAY -> v = cnt src base it /\ 0 < cnt src base it) ->
  enc_data_len (data_elem it) v = Some (cnt src base it).
Proof.
  intros Hw Hk Hv. unfold enc_data_len, cnt, count in *. cbn. destruct (i_arr it); [done|done|].
  destruct (Hv eq_refl) as [-> Hp]. case_if; [lia|done].
Qed.

Lemma body_string m nested base it : i_ty it = QMI_STRING ->
  body m nested base it =
    (if nested then le_bytes (if i_n it <=? U8_MAX then 1 else 2)
       (Z.of_nat (length (cstr m (base + i_off it) (Z.to_nat (i_n it))))) else []) ++
    cstr m (base + i_off it) (Z.to_nat (i_n it)).
Proof. unfold body. by intros ->. Qed.

Lemma string_elem_ok src base L nested level v m it : item_wf nested it -> nested = negb (level =? 1) ->
  i_ty it = QMI_STRING -> value_ok src base it = true -> room src (base + i_off it) (extent it) ->
  let b := Z.of_nat (length (body src nested base it)) in
  0 <= encoded_bytes v -> encoded_bytes v + b + 3 <= L < 2 ^ 31 -> room m (buf_dst v) b ->
  exists m', qmi_encode_string_elem src (data_elem it) (buf_dst v) (base + i_off it)
      (u32 (L - encoded_bytes v)) level m = Ok (b, m') /\ wrote m m' (buf_dst v) (body src nested base it).
Proof.
  intros Hw Hnest Ht Hv Hsrc. cbv zeta. rewrite (body_string _ _ _ _ Ht). intros He Hl Hr.
  destruct (value_ok_inv _ _ _ Hv) as (_ & Hs & _). specialize (Hs Ht).
  destruct (iw_ty _ _ Hw) as [Hx|[(_ & Hsz & _)|[Hx _]]]; [by rewrite Ht in Hx| |congruence].
  pose proof (iw_n _ _ Hw) as Hn. unfold extent in Hsrc. rewrite Ht in Hsrc.
  pose proof (cstr_bytes src (Z.to_nat (i_n it)) (base + i_off it)) as Hcb.
  set (s := cstr src (base + i_off it) (Z.to_nat (i_n it))) in *.
  unfold qmi_encode_string_elem. rewrite u32_id by lia.
  rewrite (st_bind_ok _ _ _ (Z.of_nat (length s)) m)
    by (unfold peek; rewrite (strlen_ok src _ (Z.to_nat (i_n it))); [done|exact Hs|by rewrite Z2Nat.id by lia]).
  cbn [data_elem elem_len elem_size]. rewrite (u32_id (Z.of_nat (length s))) by lia.
  bool_false (Z.of_nat (length s) >? i_n it). rewrite Hsz. subst nested. unfold string_len_size.
  cbn [data_elem elem_len]. destruct (level =? 1) eqn:El; cbn [negb] in *; rewrite ?length_app, ?length_le_bytes in *.
  - unfold TLV_LEN_SIZE, TLV_TYPE_SIZE. case_if; [lia|]. cbn [app length] in *.
    destruct (encode_basic_ok src (buf_dst v) (base + i_off it) (Z.of_nat (length s)) 1 m) as (m' & Hr' & Hw');
      rewrite ?Z.mul_1_r; try lia; [destruct Hsrc; split; lia|done|].
    exists m'. rewrite Z.mul_1_r in Hr', Hw'. split; [exact Hr'|]. by rewrite Nat2Z.id, Hcb in Hw'.
  - set (k := if i_n it <=? U8_MAX then 1%nat else 2%nat) in *. set (kz := if i_n it <=? U8_MAX then 1 else 2).
    assert (Hkz : kz = Z.of_nat k /\ 1 <= kz <= 2) by (unfold kz, k; case_if; lia).
    clearbody kz k.
    rewrite u32_id by lia. case_if; [lia|].
    destruct (encode_basic_ok (local32 (Z.of_nat (length s))) (buf_dst v) 0 1 kz m) as (m1 & Hr1 & Hw1);
      [lia|lia|lia|apply room_local32; lia|destruct Hr; split; lia|].
    rewrite (st_bind_ok _ _ _ _ _ Hr1). rewrite bytes_local32 in Hw1 by lia.
    replace (Z.to_nat (1 * kz)) with k in Hw1 by lia.
    destruct (encode_basic_ok src (buf_dst v + 1 * kz) (base + i_off it) (Z.of_nat (length s)) 1 m1)
      as (m2 & Hr2 & Hw2); rewrite ?Z.mul_1_r; try lia; [destruct Hsrc; split; lia| |].
    { eapply wrote_room; [exact Hw1|]. destruct Hr. split; lia. }
    rewrite (st_bind_ok _ _ _ _ _ Hr2), s32_id by lia. exists m2. split; [unfold st_ret; do 2 f_equal; lia|].
    eapply wrote_app; [exact Hw1|]. rewrite length_le_bytes. rewrite Z.mul_1_r, Nat2Z.id, Hcb in Hw2.
    by replace (Z.of_nat k) with (1 * kz) by lia.
Qed.

Lemma body_struct m nested base it : i_ty it = QMI_STRUCT ->
  body m nested base it =
    concat (map (fun i => fields_bytes m (base + i_off it + i * i_size it) (i_fields it))
              (seqZ 0 (cnt m base it))).
Proof. unfold body. by intros ->. Qed.

Lemma body_basic m nested base it : is_basic (i_ty it) = true ->
  body m nested base it = bytes_at m (base + i_off it) (Z.to_nat (cnt m base it * i_size it)).
Proof. unfold body. by destruct (i_ty it). Qed.

(** The step of the encoder on a basic element, whatever its type. *)
Lemma encode_elem_basic rec e src base L level v n : is_basic (data_type e) = true ->
  enc_data_len e (data_len_value v) = Some n ->
  encode_elem rec e src base L level v =
    (if too_small v (u32 (n * elem_size e)) L then st_ret (inl (- ETOOSMALL)) else
     let! rc := qmi_encode_basic_elem src (buf_dst v) (base + elem_offset e) n (elem_size e) in
     st_ret (inr (enc_update v n rc))).
Proof. intros Hb Hn. unfold encode_elem. rewrite Hn. by destruct (data_type e). Qed.

Lemma encode_data_ok rec src base L nested level v m it : item_wf nested it -> nested = negb (level =? 1) ->
  value_ok src base it = true -> room src (base + i_off it) (extent it) ->
  (i_ty it = QMI_STRUCT -> enc_fields_ok rec src (i_size it) (level + 1) (i_fields it)) ->
  (i_arr it = VAR_LEN_ARRAY -> data_len_value v = cnt src base it /\ 0 < cnt src base it) ->
  let b := Z.of_nat (length (body src nested base it)) in
  0 <= encoded_bytes v -> encoded_bytes v + b + 3 <= L < 2 ^ 31 -> room m (buf_dst v) b ->
  exists m', encode_elem rec (data_elem it) src base L level v m
      = Ok (inr (enc_update v (cnt src base it) b), m') /\ wrote m m' (buf_dst v) (body src nested base it).
Proof.
  intros Hw Hnest Hv Hsrc Hrec Hvar b He Hl Hr. destruct (value_ok_inv _ _ _ Hv) as (Hk & _ & Hval).
  pose proof (enc_data_len_ok nested src base it _ Hw Hk Hvar) as Hlen. pose proof (iw_size _ _ Hw).
  destruct (cnt_max _ _ _ _ Hw Hk) as [Hk0 Hkm].
  destruct (iw_ty _ _ Hw) as [Ht|[(Ht & _)|(Ht & _ & _ & _)]].
  - pose proof (extent_count _ _ _ _ Hw Hk ltac:(by intros E; rewrite E in Ht)) as Hx.
    rewrite (encode_elem_basic _ _ _ _ _ _ _ (cnt src base it)) by done. cbn [data_elem elem_size elem_offset].
    unfold b in *. rewrite (body_basic _ _ _ _ Ht), length_bytes_at, Z2Nat.id in * by lia.
    destruct (encode_basic_ok src (buf_dst v) (base + i_off it) (cnt src base it) (i_size it) m) as (m' & Hr' & Hw');
      [lia|lia|lia|destruct Hsrc; split; lia|done|].
    unfold too_small, TLV_LEN_SIZE, TLV_TYPE_SIZE. rewrite !u32_id by (rewrite ?u32_id; lia).
    case_if; [lia|]. rewrite (st_bind_ok _ _ _ _ _ Hr'). by exists m'.
  - destruct (string_elem_ok src base L nested level v m it) as (m' & Hr' & Hw'); try done.
    unfold encode_elem. rewrite Hlen. change (data_type (data_elem it)) with (i_ty it). rewrite Ht.
    change (elem_offset (data_elem it)) with (i_off it). rewrite (st_bind_ok _ _ _ _ _ Hr').
    bool_false (Z.of_nat (length (body src nested base it)) <? 0). by exists m'.
  - pose proof (extent_count _ _ _ _ Hw Hk ltac:(by rewrite Ht)) as Hx. specialize (Hval Ht).
    unfold b in *. rewrite (body_struct _ _ _ _ Ht) in *.
    destruct (encode_structs_ok rec src (i_size it) (level + 1) (i_fields it) (Z.to_nat (cnt src base it)) (Hrec Ht)
                0 (base + i_off it) (buf_dst v) (u32 (L - encoded_bytes v)) 0 m) as (m' & Hr' & Hw');
      rewrite ?Z2Nat.id by lia; rewrite ?u32_id by lia; [lia|lia|lia| |lia|done|].
    { intros i Hi. split; [apply Hval; lia|]. destruct Hsrc. split; nia. }
    unfold encode_elem. rewrite Hlen. cbn [data_elem data_type elem_offset ei_array elem_size]. rewrite Ht.
    unfold qmi_encode_struct_elem. cbn [elem_size]. rewrite Z.mul_0_l, Z.add_0_r, Z2Nat.id, u32_id in * by lia.
    rewrite (st_bind_ok _ _ _ _ _ Hr'). case_if; [lia|]. by exists m'.
Qed.

Lemma overlay_small old s x : 0 < s -> 0 <= old < 2 ^ (8 * s) -> overlay old s x = x.
Proof. intros Hs Ho. unfold overlay. rewrite Z.div_small by lia. lia. Qed.

Lemma cnt_len nested src base it o s : item_wf nested it -> i_len it = Some (o, s) ->
  cnt src base it = le_load src (base + o) (len_bytes s) /\ len_bytes s = Z.to_nat s /\ (s = 1 \/ s = 2) /\
  i_arr it = VAR_LEN_ARRAY.
Proof.
  intros Hw E. pose proof (iw_len _ _ Hw) as Hl. rewrite E in Hl. destruct Hl as [Ha Hs].
  unfold cnt, count. rewrite Ha, E. split_and!; try done. by destruct Hs as [-> | ->].
Qed.

Lemma encode_len_ok rec src base L nested level v m it o s : item_wf nested it -> i_len it = Some (o, s) ->
  room src (base + o) 4 -> 0 <= encoded_bytes v -> encoded_bytes v + s + 3 <= L < 2 ^ 31 ->
  room m (buf_dst v) s ->
  let k := cnt src base it in
  exists m', wrote m m' (buf_dst v) (len_part src base it) /\ Z.of_nat (length (len_part src base it)) = s /\
    encode_elem rec (len_elem it o s) src base L level v m =
      (if k =? 0 then
         match skip_to_next_elem (tail (temp_ei v)) level with
         | Ok next => Ok (inr (enc_goto (enc_update v k s) next k true), m')
         | Fault => Fault
         | Loop => Loop
         end
       else Ok (inr (enc_goto (enc_update v k s) (tail (temp_ei v)) k false), m')).
Proof.
  intros Hw E Hsrc He Hl Hr k. destruct (cnt_len nested src base it o s Hw E) as (Hk & Hs & Hs12 & _).
  unfold len_part. rewrite E, length_le_bytes. fold k.
  unfold encode_elem, enc_data_len. cbn [len_elem array_type data_type elem_size elem_offset].
  bool_false (s >? 4). destruct Hsrc.
  rewrite (st_bind_ok _ _ _ k m) by (unfold peek; rewrite load_ok by lia; by rewrite <-Hs, <-Hk).
  rewrite (overlay_small 1 s k) by (destruct Hs12 as [-> | ->]; cbn; lia).
  assert (Hsz : (if s =? 1 then 1 else 2) = s) by (destruct Hs12 as [-> | ->]; done). rewrite Hsz.
  unfold too_small, TLV_LEN_SIZE, TLV_TYPE_SIZE. rewrite u32_id by lia. case_if; [lia|].
  destruct (encode_basic_ok (local32 k) (buf_dst v) 0 1 s m) as (m' & Hr' & Hw');
    [lia|lia|lia|apply room_local32; lia|destruct Hr; split; lia|].
  exists m'. rewrite bytes_local32 in Hw' by lia. rewrite Z.mul_1_l in Hr', Hw'.
  split; [by rewrite Hs|]. split; [rewrite Hs; lia|]. rewrite (st_bind_ok _ _ _ _ _ Hr'). case_if; [|done].
  cbn [enc_update temp_ei]. unfold st_bind, st_lift. by destruct (skip_to_next_elem _ _).
Qed.

(** ** When the limit is too small

    Inside a structure the space check of every element but a string counts the header of
    the block; so the schemas here have no strings in their structures ([stringless]). *)
Fixpoint stringless (it : item) : bool :=
  let '(Item _ _ _ _ _ _ _ ty fields) := it in
  negb (bool_decide (ty = QMI_STRING)) && forallb stringless fields.

Lemma stringless_inv it : stringless it = true ->
  i_ty it <> QMI_STRING /\ Forall (fun f => stringless f = true) (i_fields it).
Proof.
  destruct it as [tlv opt len arr n size off ty fields]. cbn [stringless i_ty i_fields].
  rewrite andb_true_iff, negb_true_iff, bool_decide_eq_false, forallb_Forall. done.
Qed.

(** The encoder of a nested table stops when the bytes of the fields and a block header
    exceed the limit. *)
Definition enc_fields_small (rec : option (list qmi_elem_info) -> Z -> Z -> Z -> Z -> ST mem Z)
    (src : mem) (ssize level : Z) (fields : list item) : Prop :=
  forall dst p L m, Forall (fun f => value_ok src p f = true) fields -> room src p ssize ->
    0 <= L < 2 ^ 31 -> L < Z.of_nat (length (fields_bytes src p fields)) + 3 ->
    Z.of_nat (length (fields_bytes src p fields)) < 2 ^ 31 -> room m dst (L - 3) ->
    exists m', rec (Some (table fields)) dst p L level m = Ok (- ETOOSMALL, m') /\ spoiled m m' dst (L - 3).

Lemma encode_structs_small rec src size level fields n :
  enc_fields_ok rec src size level fields -> enc_fields_small rec src size level fields ->
  forall j p0 dst L e m, 0 <= j -> 0 <= e <= L -> 0 < size ->
  (forall i, j <= i < j + Z.of_nat n -> Forall (fun f => value_ok src (p0 + i * size) f = true) fields /\
     room src (p0 + i * size) size) ->
  (0 < n)%nat \/ e + 3 <= L -> L < 2 ^ 31 ->
  let bs := concat (map (fun i => fields_bytes src (p0 + i * size) fields) (seqZ j (Z.of_nat n))) in
  L < e + Z.of_nat (length bs) + 3 -> Z.of_nat (length bs) < 2 ^ 31 -> room m dst (L - e - 3) ->
  exists m', encode_structs n (fun d p l => rec (Some (table fields)) d p l level) dst (p0 + j * size) L size e m
      = Ok (- ETOOSMALL, m') /\ spoiled m m' dst (L - e - 3).
Proof.
  intros Hrec Hsm. induction n as [|n IH]; intros j p0 dst L e m Hj He Hs Hv Hn HL bs Hl Hb Hr; subst bs.
  { rewrite seqZ_nil in Hl by lia. cbn in Hl. lia. }
  cbn [encode_structs]. destruct (Hv j ltac:(lia)) as [Hvj Hrj].
  rewrite seqZ_cons in Hl, Hb by lia. replace (Z.pred (Z.of_nat (S n))) with (Z.of_nat n) in Hl, Hb by lia.
  cbn [map concat] in Hl, Hb. rewrite length_app in Hl, Hb. replace (Z.succ j) with (j + 1) in Hl, Hb by lia.
  set (b0 := fields_bytes src (p0 + j * size) fields) in *.
  destruct (decide (e + Z.of_nat (length b0) + 3 <= L)) as [Hfit|Hfit].
  - destruct (Hrec dst (p0 + j * size) (u32 (L - e)) m Hvj Hrj) as (m1 & Hr1 & Hw1).
    { fold b0. rewrite u32_id by lia. lia. }
    { fold b0. destruct Hr. split; lia. }
    rewrite (st_bind_ok _ _ _ _ _ Hr1). fold b0 in Hw1 |- *. bool_false (Z.of_nat (length b0) <? 0).
    rewrite s32_id by lia. replace (p0 + j * size + size) with (p0 + (j + 1) * size) by lia.
    destruct (IH (j + 1) p0 (dst + Z.of_nat (length b0)) L (e + Z.of_nat (length b0)) m1) as (m2 & Hr2 & Hw2);
      [lia|lia|lia|intros; apply Hv; lia|lia|lia|lia|lia|eapply wrote_room; [exact Hw1|]; destruct Hr; split; lia|].
    exists m2. split; [exact Hr2|]. eapply wrote_spoiled; [exact Hw1|exact Hw2|lia|lia].
  - destruct (Hsm dst (p0 + j * size) (u32 (L - e)) m Hvj Hrj) as (m1 & Hr1 & Hw1); rewrite ?u32_id in * by lia;
      [lia|fold b0; lia|fold b0; lia|done|].
    rewrite (st_bind_ok _ _ _ _ _ Hr1). exists m1. split; [done|exact Hw1].
Qed.

Lemma encode_data_small rec src base L nested level v m it : item_wf nested it -> nested = negb (level =? 1) ->
  value_ok src base it = true -> room src (base + i_off it) (extent it) ->
  (nested = true -> i_ty it <> QMI_STRING) ->
  (i_ty it = QMI_STRUCT -> enc_fields_ok rec src (i_size it) (level + 1) (i_fields it) /\
     enc_fields_small rec src (i_size it) (level + 1) (i_fields it)) ->
  0 < cnt src base it -> (i_arr it = VAR_LEN_ARRAY -> data_len_value v = cnt src base it) ->
  0 <= encoded_bytes v <= L -> L < 2 ^ 31 ->
  L < encoded_bytes v + Z.of_nat (length (body src nested base it)) + 3 ->
  Z.of_nat (length (body src nested base it)) < 2 ^ 31 -> room m (buf_dst v) (L - encoded_bytes v - 3) ->
  exists m', encode_elem rec (data_elem it) src base L level v m = Ok (inl (- ETOOSMALL), m') /\
    spoiled m m' (buf_dst v) (L - encoded_bytes v - 3).
Proof.
  intros Hw Hnest Hv Hsrc Hstr Hrec Hpos Hvar He HL Hl Hb31 Hr. destruct (value_ok_inv _ _ _ Hv) as (Hk & Hstrl & Hval).
  pose proof (enc_data_len_ok nested src base it _ Hw Hk (fun H => conj (Hvar H) Hpos)) as Hlen. pose proof (iw_size _ _ Hw).
  destruct (cnt_max _ _ _ _ Hw Hk) as [Hk0 Hkm].
  destruct (iw_ty _ _ Hw) as [Ht|[(Ht & Hsz & _)|(Ht & _ & _ & _)]].
  - rewrite (encode_elem_basic _ _ _ _ _ _ _ (cnt src base it)) by done. cbn [data_elem elem_size elem_offset].
    rewrite (body_basic _ _ _ _ Ht), length_bytes_at in *. rewrite Z2Nat.id in * by nia.
    exists m. split; [|apply spoiled_none]. unfold too_small, TLV_LEN_SIZE, TLV_TYPE_SIZE.
    rewrite !u32_id by (rewrite ?u32_id; nia). case_if; [done|lia].
  - destruct (level =? 1) eqn:El; cbn [negb] in Hnest; subst nested; [|by destruct (Hstr eq_refl)].
    rewrite (body_string _ _ _ _ Ht) in *. cbn [app] in *. specialize (Hstrl Ht). unfold extent in Hsrc. rewrite Ht in Hsrc.
    pose proof (iw_n _ _ Hw) as Hn. set (sl := cstr src (base + i_off it) (Z.to_nat (i_n it))) in *.
    exists m. split; [|apply spoiled_none]. unfold encode_elem. rewrite Hlen.
    change (data_type (data_elem it)) with (i_ty it). rewrite Ht. change (elem_offset (data_elem it)) with (i_off it).
    unfold qmi_encode_string_elem. rewrite !st_bind_bind.
    rewrite (st_bind_ok _ _ _ (Z.of_nat (length sl)) m)
      by (unfold peek; rewrite (strlen_ok src _ (Z.to_nat (i_n it))); [done|exact Hstrl|by rewrite Z2Nat.id by lia]).
    cbn [data_elem elem_len]. rewrite !(u32_id (Z.of_nat (length sl))), u32_id by lia.
    bool_false (Z.of_nat (length sl) >? i_n it). rewrite El. unfold TLV_LEN_SIZE, TLV_TYPE_SIZE. case_if; [done|lia].
  - pose proof (extent_count _ _ _ _ Hw Hk ltac:(by rewrite Ht)) as Hx. specialize (Hval Ht). destruct (Hrec Ht) as [Hok Hsm].
    rewrite (body_struct _ _ _ _ Ht) in *.
    destruct (encode_structs_small rec src (i_size it) (level + 1) (i_fields it) (Z.to_nat (cnt src base it)) Hok Hsm
                0 (base + i_off it) (buf_dst v) (u32 (L - encoded_bytes v)) 0 m) as (m' & Hr' & Hw');
      rewrite ?Z2Nat.id by lia; rewrite ?u32_id by lia; [lia|lia|lia| |lia|lia|lia|lia|by rewrite Z.sub_0_r|].
    { intros i Hi. split; [apply Hval; lia|]. destruct Hsrc. split; nia. }
    unfold encode_elem. rewrite Hlen. cbn [data_elem data_type elem_offset ei_array elem_size]. rewrite Ht.
    unfold qmi_encode_struct_elem. cbn [elem_size]. rewrite Z.mul_0_l, Z.add_0_r, u32_id in * by lia.
    rewrite (st_bind_ok _ _ _ _ _ Hr'). exists m'. rewrite Z.sub_0_r in Hw'. by split.
Qed.

Lemma encode_len_small rec src base L nested level v m it o s : item_wf nested it -> i_len it = Some (o, s) ->
  room src (base + o) 4 -> 0 <= encoded_bytes v <= L -> L < 2 ^ 31 -> L < encoded_bytes v + s + 3 ->
  encode_elem rec (len_elem it o s) src base L level v m = Ok (inl (- ETOOSMALL), m).
Proof.
  intros Hw E Hsrc He HL Hl. destruct (cnt_len nested src base it o s Hw E) as (Hk & Hs & Hs12 & _).
  unfold encode_elem, enc_data_len. cbn [len_elem array_type data_type elem_size elem_offset].
  bool_false (s >? 4). destruct Hsrc.
  rewrite (st_bind_ok _ _ _ (cnt src base it) m) by (unfold peek; rewrite load_ok by lia; by rewrite <-Hs, <-Hk).
  assert (Hsz : (if s =? 1 then 1 else 2) = s) by (destruct Hs12 as [-> | ->]; done). rewrite Hsz.
  unfold too_small, TLV_LEN_SIZE, TLV_TYPE_SIZE. rewrite u32_id by lia. case_if; [done|lia].
Qed.

(** A run of no elements has no bytes. *)
Lemma body_empty nested src base it o s : item_wf nested it -> i_len it = Some (o, s) ->
  cnt src base it = 0 -> body src nested base it = [].
Proof.
  intros Hw E Hk. destruct (cnt_len nested src base it o s Hw E) as (_ & _ & _ & Ha).
  destruct (iw_ty _ _ Hw) as [Ht|[(_ & _ & Hx)|(Ht & _)]]; [|congruence|].
  - rewrite (body_basic _ _ _ _ Ht), Hk. done.
  - rewrite (body_struct _ _ _ _ Ht), Hk. done.
Qed.

(** ** Nested structures *)

(** The rounds the encoder needs for an item and for a table. *)
Fixpoint rounds (it : item) : nat :=
  let '(Item _ _ _ _ _ _ _ _ fields) := it in (4 + list_sum (map rounds fields))%nat.
Definition table_rounds (items : list item) : nat := S (list_sum (map rounds items)).

Lemma rounds_eq it : rounds it = (3 + table_rounds (i_fields it))%nat.
Proof. destruct it. done. Qed.

Lemma table_rounds_cons it l : table_rounds (it :: l) = (rounds it + table_rounds l)%nat.
Proof. unfold table_rounds. change (list_sum (map rounds (it :: l))) with (rounds it + list_sum (map rounds l))%nat. lia. Qed.

(** The call of the encoder for a nested table. *)
Definition enc_rec (fuel : nat) (src : mem) (ei : option (list qmi_elem_info)) (dst p len level : Z) : ST mem Z :=
  match ei with
  | None => st_ret 0
  | Some ei => encode_loop fuel src p len level (enc_start ei dst level)
  end.

Lemma encode_loop_step fuel src base L level v e rest : temp_ei v = e :: rest -> data_type e <> QMI_EOTI ->
  encode_loop (S fuel) src base L level v =
    (let! r := encode_elem (enc_rec fuel src) e src base L level v in
     match r with
     | inl err => st_ret err
     | inr v => let! v := encode_header (tlv_type e) level v in encode_loop fuel src base L level v
     end).
Proof. intros E Ht. cbn [encode_loop]. rewrite E. by rewrite bool_decide_false. Qed.

Lemma encode_header_nested type level v m : level <> 1 -> encode_header type level v m = Ok (v, m).
Proof. intros Hl. unfold encode_header. bool_false (level =? 1). by rewrite andb_false_r. Qed.

Lemma item_not_eoti nested it : item_wf nested it -> i_ty it <> QMI_EOTI.
Proof. intros [_ _ _ _ _ [H|[(H & _)|(H & _)]]] E; by rewrite E in H. Qed.

Lemma table_cons it l : table (it :: l) = elems_of it ++ table l.
Proof. unfold table. cbn [map concat]. by rewrite app_assoc. Qed.

Definition enc_item_ok (it : item) : Prop := forall fuel src level, 2 <= level ->
  i_ty it = QMI_STRUCT -> (table_rounds (i_fields it) <= fuel)%nat ->
  Forall (fun f => item_ok true f = true) (i_fields it) -> layout_ok (i_size it) (i_fields it) = true ->
  enc_fields_ok (enc_rec fuel src) src (i_size it) level (i_fields it).

(** The items of a table whose values can be encoded. *)
Record can_encode (src : mem) (base ssize : Z) (nested : bool) (it : item) : Prop := {
  ce_wf : item_wf nested it;
  ce_value : value_ok src base it = true;
  ce_inside : forall r, r ∈ ranges it -> 0 <= r.1 /\ r.1 + r.2 <= ssize;
  ce_nested : enc_item_ok it;
}.

Lemma ce_room src base ssize nested it : can_encode src base ssize nested it -> room src base ssize ->
  room src (base + i_off it) (extent it) /\
  (forall o s, i_len it = Some (o, s) -> room src (base + o) 4).
Proof.
  intros Hc [H1 H2]. pose proof (ce_inside _ _ _ _ _ Hc) as Hin. split.
  - specialize (Hin _ (data_range it)). cbn in Hin. split; lia.
  - intros o s E. specialize (Hin _ (len_range it o s E)). cbn in Hin. split; lia.
Qed.

(** Likewise for a limit that is too small. *)
Definition enc_item_small (it : item) : Prop := forall fuel src level, 2 <= level ->
  i_ty it = QMI_STRUCT -> (table_rounds (i_fields it) <= fuel)%nat -> i_fields it <> [] ->
  Forall (fun f => item_ok true f = true) (i_fields it) -> layout_ok (i_size it) (i_fields it) = true ->
  Forall (fun f => stringless f = true) (i_fields it) ->
  enc_fields_small (enc_rec fuel src) src (i_size it) level (i_fields it).

Lemma small_rec src base ssize nested it fuel level : can_encode src base ssize nested it -> enc_item_small it ->
  Forall (fun f => stringless f = true) (i_fields it) -> 2 <= level ->
  (table_rounds (i_fields it) <= fuel)%nat -> i_ty it = QMI_STRUCT ->
  enc_fields_small (enc_rec fuel src) src (i_size it) level (i_fields it).
Proof.
  intros Hc Hsm Hs Hl Hf Ht. destruct (iw_ty _ _ (ce_wf _ _ _ _ _ Hc)) as [H|[(H & _)|(_ & Hne & Hok & Hlay)]];
    [by rewrite Ht in H|congruence|]. by apply Hsm.
Qed.

Lemma ce_rec src base ssize nested it fuel level : can_encode src base ssize nested it -> 2 <= level ->
  (table_rounds (i_fields it) <= fuel)%nat -> i_ty it = QMI_STRUCT ->
  enc_fields_ok (enc_rec fuel src) src (i_size it) level (i_fields it).
Proof.
  intros Hc Hl Hf Ht. destruct (iw_ty _ _ (ce_wf _ _ _ _ _ Hc)) as [H|[(H & _)|(_ & _ & Hok & Hlay)]];
    [by rewrite Ht in H|congruence|]. by apply (ce_nested _ _ _ _ _ Hc).
Qed.

Section nested.
Context (src : mem) (base L level ssize : Z) (Hlv : 2 <= level) (HL : L < 2 ^ 31) (Hroom : room src base ssize).

Lemma header_nested type v m : encode_header type level v m = Ok (v, m).
Proof. apply encode_header_nested. lia. Qed.

(** The loop is at the items [l], with [e] bytes written and the next ones to go to [d]. *)
Record at_items (l : list item) (fuel : nat) (v : enc_vars) (e d : Z) : Prop := {
  ai_ei : temp_ei v = table l;
  ai_fuel : (table_rounds l <= fuel)%nat;
  ai_bytes : encoded_bytes v = e;
  ai_dst : buf_dst v = d;
}.

(** The loop went on from [v] to the items [l], after it wrote the bytes [bs]. *)
Definition goes_on (l : list item) (fuel : nat) (v : enc_vars) (m : mem) (bs : list Z) : Prop :=
  exists fuel' v' m', encode_loop fuel src base L level v m = encode_loop fuel' src base L level v' m' /\
    at_items l fuel' v' (encoded_bytes v + Z.of_nat (length bs)) (buf_dst v + Z.of_nat (length bs)) /\
    wrote m m' (buf_dst v) bs.

(** The data of an item that fits, and of one that does not. *)
Lemma data_done it l f v m : can_encode src base ssize true it -> temp_ei v = data_elem it :: table l ->
  (i_arr it = VAR_LEN_ARRAY -> data_len_value v = cnt src base it /\ 0 < cnt src base it) ->
  (table_rounds (i_fields it) <= f)%nat -> (table_rounds l <= f)%nat -> 0 <= encoded_bytes v ->
  encoded_bytes v + Z.of_nat (length (body src true base it)) + 3 <= L ->
  room m (buf_dst v) (Z.of_nat (length (body src true base it))) ->
  goes_on l (S f) v m (body src true base it).
Proof.
  intros Hc Ht Hvar Hf1 Hf2 He HLb Hr. destruct (ce_room _ _ _ _ _ Hc Hroom) as [Hdata _].
  pose proof (ce_wf _ _ _ _ _ Hc) as Hw. unfold goes_on.
  rewrite (encode_loop_step _ _ _ _ _ _ _ _ Ht (item_not_eoti _ _ Hw)).
  destruct (encode_data_ok (enc_rec f src) src base L true level v m it Hw ltac:(lia) (ce_value _ _ _ _ _ Hc) Hdata)
    as (m1 & Hr1 & Hw1); [intros Hs; eapply ce_rec; eauto; lia|done|done|lia|done|].
  rewrite (st_bind_ok _ _ _ _ _ Hr1), (st_bind_ok _ _ _ _ _ (header_nested _ _ _)).
  eexists f, _, m1. split; [reflexivity|]. split; [|exact Hw1].
  constructor; cbn; [by rewrite Ht|done|by rewrite u32_id by lia|done].
Qed.

(** The length of an item that fits: the loop is at the data, or past it when there is none. *)
Lemma len_done it o s l f v m : can_encode src base ssize true it -> i_len it = Some (o, s) ->
  temp_ei v = len_elem it o s :: data_elem it :: table l -> (table_rounds l <= f)%nat -> 0 <= encoded_bytes v ->
  encoded_bytes v + s + 3 <= L -> room m (buf_dst v) s ->
  exists v' m', encode_loop (S f) src base L level v m = encode_loop f src base L level v' m' /\
    wrote m m' (buf_dst v) (len_part src base it) /\ Z.of_nat (length (len_part src base it)) = s /\
    encoded_bytes v' = encoded_bytes v + s /\ buf_dst v' = buf_dst v + s /\
    data_len_value v' = cnt src base it /\
    temp_ei v' = (if cnt src base it =? 0 then table l else data_elem it :: table l).
Proof.
  intros Hc E Ht Hf He HLb Hr. destruct (ce_room _ _ _ _ _ Hc Hroom) as [_ Hlen]. pose proof (ce_wf _ _ _ _ _ Hc) as Hw.
  destruct (cnt_len true src base it o s Hw E) as (_ & _ & Hs12 & _).
  rewrite (encode_loop_step _ _ _ _ _ _ _ _ Ht) by done.
  destruct (encode_len_ok (enc_rec f src) src base L true level v m it o s Hw E (Hlen _ _ E)) as (m1 & Hw1 & Hls & Hr1);
    [done|lia|done|]. rewrite Ht in Hr1. cbn [tail] in Hr1.
  destruct (cnt src base it =? 0); [cbn [skip_to_next_elem] in Hr1; replace (level >? 1) with true in Hr1 by lia|];
    rewrite (st_bind_ok _ _ _ _ _ Hr1), (st_bind_ok _ _ _ _ _ (header_nested _ _ _));
    (eexists _, m1; split; [reflexivity|]); cbn; rewrite u32_id by lia; by split_and!.
Qed.

Lemma item_done it l fuel v m : can_encode src base ssize true it -> temp_ei v = table (it :: l) ->
  (table_rounds (it :: l) <= fuel)%nat -> 0 <= encoded_bytes v ->
  encoded_bytes v + Z.of_nat (length (payload src true base it)) + 3 <= L ->
  room m (buf_dst v) (Z.of_nat (length (payload src true base it))) ->
  goes_on l fuel v m (payload src true base it).
Proof.
  intros Hc Ht Hf He HLb Hr. pose proof (ce_wf _ _ _ _ _ Hc) as Hw.
  rewrite table_cons, elems_of_eq, (iw_opt _ _ Hw eq_refl) in Ht. rewrite table_rounds_cons, rounds_eq in Hf.
  rewrite payload_split in *. rewrite length_app in *. destruct fuel as [|[|f]]; [lia|lia|].
  destruct (i_len it) as [[o s]|] eqn:E; cbn [app] in Ht.
  - assert (Hls : Z.of_nat (length (len_part src base it)) = s).
    { destruct (cnt_len true src base it o s Hw E) as (_ & Hs & Hs12 & _). unfold len_part. rewrite E, length_le_bytes, Hs. lia. }
    destruct (len_done it o s l (S f) v m) as (v1 & m1 & Hr1 & Hw1 & _ & He1 & Hd1 & Hn1 & Ht1);
      [done|done|done|lia|done|lia|destruct Hr; split; lia|].
    unfold goes_on. rewrite Hr1, length_app. destruct (cnt src base it =? 0) eqn:Hk.
    + assert (Hb : body src true base it = []) by (eapply body_empty; [done|done|lia]). rewrite Hb, app_nil_r in *.
      exists (S f), v1, m1. split; [done|]. split; [|done]. cbn [length] in *. constructor; [done|lia|lia|lia].
    + destruct (data_done it l f v1 m1) as (f2 & v2 & m2 & Hr2 & [A1 A2 A3 A4] & Hw2); [done|done| |lia|lia|lia|lia| |].
      { intros _. split; [done|]. destruct (cnt_range src base true it Hw); lia. }
      { eapply wrote_room; [exact Hw1|]. destruct Hr; split; lia. }
      exists f2, v2, m2. split; [done|]. split; [constructor; [done|done|lia|lia]|].
      eapply wrote_app; [exact Hw1|]. by rewrite Hls, <-Hd1.
  - unfold len_part in *. rewrite E in *. cbn [app length] in *.
    apply data_done; [done|done| |lia|lia|done|lia|destruct Hr; split; lia].
    intros Ha. pose proof (iw_len _ _ Hw) as Hx. by rewrite E in Hx.
Qed.

Lemma fields_bytes_cons it l : fields_bytes src base (it :: l) = payload src true base it ++ fields_bytes src base l.
Proof. done. Qed.

Lemma fields_written l : Forall (can_encode src base ssize true) l -> forall fuel v m, temp_ei v = table l ->
  (table_rounds l <= fuel)%nat -> 0 <= encoded_bytes v ->
  encoded_bytes v + Z.of_nat (length (fields_bytes src base l)) + 3 <= L ->
  room m (buf_dst v) (Z.of_nat (length (fields_bytes src base l))) ->
  exists m', encode_loop fuel src base L level v m =
      Ok (encoded_bytes v + Z.of_nat (length (fields_bytes src base l)), m') /\
    wrote m m' (buf_dst v) (fields_bytes src base l).
Proof.
  induction 1 as [|it l Hc _ IH]; intros fuel v m Ht Hf He HLb Hr.
  { destruct fuel as [|fuel]; [unfold table_rounds in Hf; cbn in Hf; lia|].
    cbn [encode_loop]. rewrite Ht. cbn. cbn in HLb. rewrite s32_id by lia. exists m.
    rewrite bool_decide_true by done. split; [unfold st_ret; do 2 f_equal; lia|apply wrote_nil]. }
  rewrite fields_bytes_cons in *. rewrite length_app in *.
  destruct (item_done it l fuel v m) as (f1 & v1 & m1 & Hr1 & [A1 A2 A3 A4] & Hw1);
    [done|done|done|done|lia|destruct Hr; split; lia|].
  destruct (IH f1 v1 m1) as (m2 & Hr2 & Hw2); [done|done|lia|lia|eapply wrote_room; [exact Hw1|]; destruct Hr; split; lia|].
  exists m2. rewrite Hr1, Hr2. split; [do 2 f_equal; lia|]. eapply wrote_app; [exact Hw1|]. by rewrite <-A4.
Qed.

(** The first item that does not fit stops the loop. *)
Definition stops (fuel : nat) (v : enc_vars) (m : mem) : Prop :=
  exists m', encode_loop fuel src base L level v m = Ok (- ETOOSMALL, m') /\
    spoiled m m' (buf_dst v) (L - encoded_bytes v - 3).

Lemma data_stops it l f v m : can_encode src base ssize true it -> enc_item_small it -> stringless it = true ->
  temp_ei v = data_elem it :: table l -> 0 < cnt src base it ->
  (i_arr it = VAR_LEN_ARRAY -> data_len_value v = cnt src base it) ->
  (table_rounds (i_fields it) <= f)%nat -> 0 <= encoded_bytes v <= L ->
  L < encoded_bytes v + Z.of_nat (length (body src true base it)) + 3 ->
  Z.of_nat (length (body src true base it)) < 2 ^ 31 ->
  room m (buf_dst v) (L - encoded_bytes v - 3) -> stops (S f) v m.
Proof.
  intros Hc Hsm [Hns Hsl]%stringless_inv Ht Hpos Hvar Hf He HLb Hb Hr.
  destruct (ce_room _ _ _ _ _ Hc Hroom) as [Hdata _]. pose proof (ce_wf _ _ _ _ _ Hc) as Hw. unfold stops.
  rewrite (encode_loop_step _ _ _ _ _ _ _ _ Ht (item_not_eoti _ _ Hw)).
  destruct (encode_data_small (enc_rec f src) src base L true level v m it Hw ltac:(lia) (ce_value _ _ _ _ _ Hc) Hdata)
    as (m1 & Hr1 & Hw1); [done| |done|done|done|lia|done|done|done|].
  { intros Hs. split; [eapply ce_rec; eauto; lia|eapply small_rec; eauto; lia]. }
  rewrite (st_bind_ok _ _ _ _ _ Hr1). by exists m1.
Qed.

Lemma item_stops it l fuel v m : can_encode src base ssize true it -> enc_item_small it -> stringless it = true ->
  temp_ei v = table (it :: l) -> (table_rounds (it :: l) <= fuel)%nat -> 0 <= encoded_bytes v <= L ->
  L < encoded_bytes v + Z.of_nat (length (payload src true base it)) + 3 ->
  Z.of_nat (length (payload src true base it)) < 2 ^ 31 ->
  room m (buf_dst v) (L - encoded_bytes v - 3) -> stops fuel v m.
Proof.
  intros Hc Hsm Hsl Ht Hf He HLb Hb Hr. pose proof (ce_wf _ _ _ _ _ Hc) as Hw.
  rewrite table_cons, elems_of_eq, (iw_opt _ _ Hw eq_refl) in Ht. rewrite table_rounds_cons, rounds_eq in Hf.
  rewrite payload_split, length_app in *. destruct fuel as [|[|f]]; [lia|lia|].
  destruct (i_len it) as [[o s]|] eqn:E; cbn [app] in Ht.
  - destruct (ce_room _ _ _ _ _ Hc Hroom) as [_ Hlen].
    assert (Hls : Z.of_nat (length (len_part src base it)) = s).
    { destruct (cnt_len true src base it o s Hw E) as (_ & Hs & Hs12 & _). unfold len_part. rewrite E, length_le_bytes, Hs. lia. }
    destruct (decide (encoded_bytes v + s + 3 <= L)) as [Hfit|Hfit].
    + destruct (len_done it o s l (S f) v m) as (v1 & m1 & Hr1 & Hw1 & _ & He1 & Hd1 & Hn1 & Ht1);
        [done|done|done|lia|lia|lia|destruct Hr; split; lia|]. unfold stops. rewrite Hr1.
      destruct (cnt src base it =? 0) eqn:Hk.
      { assert (Hb0 : body src true base it = []) by (eapply body_empty; [done|done|lia]). rewrite Hb0 in HLb. cbn in HLb. lia. }
      destruct (data_stops it l f v1 m1) as (m2 & Hr2 & Hw2); [done|done|done|done| |done|lia|lia|lia|lia| |].
      { destruct (cnt_range src base true it Hw); lia. }
      { eapply wrote_room; [exact Hw1|]. destruct Hr; split; lia. }
      exists m2. split; [done|]. rewrite Hd1, He1 in Hw2. eapply wrote_spoiled; [exact Hw1|rewrite Hls; exact Hw2|lia|lia].
    + exists m. split; [|apply spoiled_none]. rewrite (encode_loop_step _ _ _ _ _ _ _ _ Ht) by done.
      erewrite st_bind_ok by (eapply (encode_len_small _ src base L true level v m it o s Hw E (Hlen _ _ E)); lia). done.
  - unfold len_part in *. rewrite E in *. cbn [length] in *.
    apply (data_stops it l); [done|done|done|done|by apply (cnt_pos _ _ _ _ Hw)| |lia|done|lia|lia|done].
    intros Ha. pose proof (iw_len _ _ Hw) as Hx. by rewrite E in Hx.
Qed.

Lemma fields_stop l : Forall (can_encode src base ssize true) l -> Forall enc_item_small l ->
  Forall (fun it => stringless it = true) l -> forall fuel v m, temp_ei v = table l ->
  (table_rounds l <= fuel)%nat -> 0 <= encoded_bytes v <= L -> l <> [] \/ encoded_bytes v + 3 <= L ->
  L < encoded_bytes v + Z.of_nat (length (fields_bytes src base l)) + 3 ->
  Z.of_nat (length (fields_bytes src base l)) < 2 ^ 31 ->
  room m (buf_dst v) (L - encoded_bytes v - 3) -> stops fuel v m.
Proof.
  induction 1 as [|it l Hc _ IH]; intros Hsm Hsl fuel v m Ht Hf He Hne HLb Hb Hr.
  { cbn in HLb. destruct Hne as [?|?]; [done|lia]. }
  apply Forall_cons in Hsm as [Hsm Hsm']. apply Forall_cons in Hsl as [Hsl Hsl'].
  rewrite fields_bytes_cons, length_app in *.
  destruct (decide (encoded_bytes v + Z.of_nat (length (payload src true base it)) + 3 <= L)) as [Hfit|Hfit].
  - destruct (item_done it l fuel v m) as (f1 & v1 & m1 & Hr1 & [A1 A2 A3 A4] & Hw1);
      [done|done|done|lia|lia|destruct Hr; split; lia|].
    destruct (IH Hsm' Hsl' f1 v1 m1) as (m2 & Hr2 & Hw2); [done|done|lia|lia|lia|lia| |].
    { eapply wrote_room; [exact Hw1|]. destruct Hr; split; lia. }
    exists m2. rewrite Hr1. split; [done|]. rewrite A3, A4 in Hw2. eapply wrote_spoiled; [exact Hw1|exact Hw2|lia|lia].
  - eapply item_stops; [done|done|done|done|done|done|lia|lia|done].
Qed.
End nested.

Lemma all_items_ok it : enc_item_ok it.
Proof.
  induction it as [it IH] using item_induction. intros fuel src level Hlv Ht Hf Hok Hlay dst p L m Hv Hroom bs HL Hr.
  unfold enc_rec.
  destruct (fields_written src p L level (i_size it) ltac:(lia) ltac:(lia) Hroom (i_fields it))
    with (fuel := fuel) (v := enc_start (table (i_fields it)) dst level) (m := m) as (m' & Hr' & Hw');
    [|done|done|done|change (0 + Z.of_nat (length bs) + 3 <= L); lia| |].
  - rewrite Forall_forall in *. intros f Hfi. constructor; [apply item_ok_wf; auto|auto| |auto].
    intros r Hrr. by eapply layout_inside.
  - unfold enc_start. cbn. by bool_false (level =? 1).
  - exists m'. rewrite Hr'. unfold enc_start in *. cbn in *. replace (level =? 1) with false in Hw' by lia. done.
Qed.

Lemma all_items_small it : enc_item_small it.
Proof.
  induction it as [it IH] using item_induction.
  intros fuel src level Hlv Ht Hf Hne Hok Hlay Hsl dst p L m Hv Hroom HL HLb Hb Hr. unfold enc_rec.
  destruct (fields_stop src p L level (i_size it) ltac:(lia) ltac:(lia) Hroom (i_fields it))
    with (fuel := fuel) (v := enc_start (table (i_fields it)) dst level) (m := m) as (m' & Hr' & Hw');
    [|done|done|done|done|change (0 <= 0 <= L); lia|by left|change (L < 0 + Z.of_nat (length (fields_bytes src p (i_fields it))) + 3); lia|done| |].
  - rewrite Forall_forall in *. intros f Hfi. constructor; [apply item_ok_wf; auto|auto| |apply all_items_ok].
    intros r Hrr. by eapply layout_inside.
  - unfold enc_start. cbn. bool_false (level =? 1). by rewrite Z.sub_0_r.
  - exists m'. rewrite Hr'. unfold enc_start in *. cbn in *. replace (level =? 1) with false in Hw' by lia.
    rewrite Z.sub_0_r in Hw'. done.
Qed.

(** ** Whole messages *)
Lemma tlv_bytes n : 0 <= n < 65536 ->
  [Z.land n 0xFF; Z.land (Z.shiftr n 8) 0xFF] = le_bytes 2 n.
Proof.
  intros Hn. cbn. change 255 with (Z.ones 8). rewrite !Z.land_ones, Z.shiftr_div_pow2 by lia. done.
Qed.

Lemma put_tlv_ok type n p m : 0 <= type < 256 -> 0 <= n < 65536 -> room m p 3 ->
  exists m', put_tlv type n p m = Ok (tt, m') /\ wrote m m' p (type :: le_bytes 2 n).
Proof.
  intros Ht Hn [H1 H2]. unfold put_tlv. pose proof (Forall_cons_2 _ _ _ Ht (le_bytes_range 2 n)) as Hb.
  erewrite st_bind_ok by (apply store_ok; lia).
  destruct (le_store_frame 1 m p type) as [F1 F2].
  erewrite st_bind_ok by (apply store_ok; rewrite F1, F2 || rewrite F1; lia).
  destruct (le_store_frame 1 (le_store m p 1 type) (p + 1) (Z.land n 0xFF)) as [F3 F4].
  rewrite store_ok by (rewrite F3, ?F4, F1, ?F2; lia). eexists. split; [reflexivity|].
  rewrite <-tlv_bytes in * by done. replace (p + 2) with (p + 1 + 1) by lia. exact (wrote_put m p _ Hb).
Qed.

Lemma wire_cons m base it l : wire m base (it :: l) = block m base it ++ wire m base l.
Proof. done. Qed.

Lemma block_present m base it : present m base it = true ->
  block m base it =
    i_tlv it :: le_bytes 2 (Z.of_nat (length (len_part m base it ++ body m false base it))) ++
    len_part m base it ++ body m false base it.
Proof. intros Hp. unfold block. by rewrite Hp, payload_split. Qed.

Lemma skip_same_table tlv l : tlv <> 0 -> tlv ∉ map i_tlv l -> skip_same tlv (table l) = Ok (table l).
Proof.
  intros Hz Hn. destruct l as [|it l]; [cbn; case_if; [lia|done]|].
  assert (Hne : tlv <> i_tlv it) by (intros ->; apply Hn; left). rewrite table_cons, elems_of_eq.
  destruct (i_opt it); [|destruct (i_len it) as [[]|]]; cbn; (case_if; [lia|done]).
Qed.

(** The items of a message that can be encoded: if they are present, their values can,
    and the block has a length of two bytes. *)
Record can_send (src : mem) (base ssize : Z) (it : item) : Prop := {
  cs_wf : item_wf false it;
  cs_inside : forall r, r ∈ ranges it -> 0 <= r.1 /\ r.1 + r.2 <= ssize;
  cs_value : present src base it = true -> value_ok src base it = true;
  cs_short : present src base it = true -> Z.of_nat (length (payload src false base it)) < 65536;
}.

Lemma cs_encode src base ssize it : can_send src base ssize it -> present src base it = true ->
  can_encode src base ssize false it.
Proof. intros [H1 H2 H3 H4] Hp. constructor; auto using all_items_ok. Qed.

Section message.
Context (src : mem) (base L ssize : Z) (HL : L < 2 ^ 31) (Hroom : room src base ssize).

(** Between two blocks. *)
Definition idle (v : enc_vars) : Prop :=
  encode_tlv v = false /\ enc_tlv_len v = 0 /\ buf_dst v = tlv_pointer v + 3 /\ 0 <= encoded_bytes v.

(** The loop is between two blocks: [e] bytes are written, the next block starts at [q]. *)
Record at_block (l : list item) (fuel : nat) (v : enc_vars) (e q : Z) : Prop := {
  ab_ei : temp_ei v = table l;
  ab_fuel : (table_rounds l <= fuel)%nat;
  ab_idle : idle v;
  ab_bytes : encoded_bytes v = e;
  ab_pointer : tlv_pointer v = q;
}.

(** The loop went on to the items [l]; since the memory [m] it wrote the bytes [bs] at [q]. *)
Definition sends_on (l : list item) (fuel : nat) (v : enc_vars) (m1 : mem) (e q : Z) (bs : list Z) (m : mem) : Prop :=
  exists fuel' v' m', encode_loop fuel src base L 1 v m1 = encode_loop fuel' src base L 1 v' m' /\
    at_block l fuel' v' (e + Z.of_nat (length bs)) (q + Z.of_nat (length bs)) /\ wrote m m' q bs.

(** The end of a block whose contents [p] were written: its header. *)
Lemma close_block l fuel tlv v q e p m m1 : 0 <= tlv < 256 -> (table_rounds l <= fuel)%nat ->
  temp_ei v = table l -> tlv_pointer v = q -> buf_dst v = q + 3 + Z.of_nat (length p) ->
  enc_tlv_len v = Z.of_nat (length p) -> encoded_bytes v = e + Z.of_nat (length p) -> encode_tlv v = true ->
  0 <= e -> Z.of_nat (length p) < 65536 -> wrote m m1 (q + 3) p ->
  let bs := tlv :: le_bytes 2 (Z.of_nat (length p)) ++ p in
  e + Z.of_nat (length bs) <= L -> room m q (Z.of_nat (length bs)) ->
  exists v2 m2, encode_header tlv 1 v m1 = Ok (v2, m2) /\
    at_block l fuel v2 (e + Z.of_nat (length bs)) (q + Z.of_nat (length bs)) /\ wrote m m2 q bs.
Proof.
  intros Ht Hf Ei Eq Ed Et Ee Eb He Hp Hw bs Hlen Hr.
  assert (Hbs : Z.of_nat (length bs) = 3 + Z.of_nat (length p)).
  { unfold bs. cbn [length]. rewrite length_app, length_le_bytes. lia. }
  unfold encode_header. rewrite Eb, Eq, Ed, Et, Ee, Ei. cbn [andb Z.eqb Pos.eqb].
  destruct (put_tlv_ok tlv (Z.of_nat (length p)) q m1) as (m2 & Hr2 & Hw2);
    [done|lia|eapply wrote_room; [exact Hw|]; destruct Hr; split; lia|].
  rewrite (st_bind_ok _ _ _ _ _ Hr2). unfold TLV_TYPE_SIZE, TLV_LEN_SIZE. rewrite u32_id by lia.
  eexists _, m2. split; [reflexivity|].
  split; [|exact (wrote_before m m1 m2 q (tlv :: le_bytes 2 (Z.of_nat (length p))) p Hw Hw2)].
  constructor; cbn [temp_ei encoded_bytes tlv_pointer]; [done|done| |lia|lia].
  unfold idle. cbn [encode_tlv enc_tlv_len buf_dst tlv_pointer encoded_bytes]. split_and!; try done; lia.
Qed.

(** The data of an item after the bytes [pre] of its block. *)
Lemma data_sent it l f v q e pre m m1 : can_encode src base ssize false it ->
  temp_ei v = data_elem it :: table l ->
  (i_arr it = VAR_LEN_ARRAY -> data_len_value v = cnt src base it /\ 0 < cnt src base it) ->
  (table_rounds (i_fields it) <= f)%nat -> (table_rounds l <= f)%nat ->
  tlv_pointer v = q -> buf_dst v = q + 3 + Z.of_nat (length pre) -> enc_tlv_len v = Z.of_nat (length pre) ->
  encoded_bytes v = e + Z.of_nat (length pre) -> 0 <= e -> wrote m m1 (q + 3) pre ->
  let p := pre ++ body src false base it in
  let bs := i_tlv it :: le_bytes 2 (Z.of_nat (length p)) ++ p in
  Z.of_nat (length p) < 65536 -> e + Z.of_nat (length bs) <= L -> room m q (Z.of_nat (length bs)) ->
  sends_on l (S f) v m1 e q bs m.
Proof.
  intros Hc Ei Hvar Hf1 Hf2 Eq Ed Et Ee He Hw p bs Hp Hlen Hr.
  pose proof (ce_wf _ _ _ _ _ Hc) as Hwf. destruct (ce_room _ _ _ _ _ Hc Hroom) as [Hdata _].
  assert (Hpl : Z.of_nat (length p) = Z.of_nat (length pre) + Z.of_nat (length (body src false base it)))
    by (unfold p; rewrite length_app; lia).
  assert (Hbs : Z.of_nat (length bs) = 3 + Z.of_nat (length p)).
  { unfold bs. cbn [length]. rewrite length_app, length_le_bytes. lia. }
  unfold sends_on. rewrite (encode_loop_step _ _ _ _ _ _ _ _ Ei (item_not_eoti _ _ Hwf)).
  destruct (encode_data_ok (enc_rec f src) src base L false 1 v m1 it Hwf eq_refl (ce_value _ _ _ _ _ Hc) Hdata)
    as (m2 & Hr2 & Hw2); [intros Hs; eapply ce_rec; eauto; lia|done|lia|lia| |].
  { rewrite Ed. eapply wrote_room; [exact Hw|]. destruct Hr; split; lia. }
  rewrite (st_bind_ok _ _ _ _ _ Hr2).
  destruct (close_block l f (i_tlv it) (enc_update v (cnt src base it) (Z.of_nat (length (body src false base it))))
    q e p m m2) as (v3 & m3 & Hr3 & Ha & Hw3); try done; cbn [enc_update temp_ei tlv_pointer buf_dst
    enc_tlv_len encoded_bytes]; rewrite ?u32_id by lia.
  - destruct (iw_tlv _ _ Hwf). lia.
  - by rewrite Ei.
  - rewrite Ed, Hpl. lia.
  - lia.
  - lia.
  - unfold p. eapply wrote_app; [exact Hw|]. by rewrite <-Ed.
  - change (tlv_type (data_elem it)) with (i_tlv it). rewrite (st_bind_ok _ _ _ _ _ Hr3). by exists f, v3, m3.
Qed.

(** The descriptors of an item after its flag. *)
Definition item_elems (it : item) : list qmi_elem_info :=
  match i_len it with Some (o, s) => [len_elem it o s] | None => [] end ++ [data_elem it].

(** An item that is present, after its flag: its length. *)
Lemma len_sent it l o s f v m : can_encode src base ssize false it -> i_len it = Some (o, s) ->
  i_tlv it ∉ map i_tlv l -> temp_ei v = len_elem it o s :: data_elem it :: table l -> idle v ->
  (table_rounds l <= f)%nat -> encoded_bytes v + s + 3 <= L -> room m (buf_dst v) s ->
  exists m1, wrote m m1 (buf_dst v) (len_part src base it) /\ Z.of_nat (length (len_part src base it)) = s /\
    encode_loop (S f) src base L 1 v m =
      (if cnt src base it =? 0 then
         let! v := encode_header (i_tlv it) 1 (enc_goto (enc_update v 0 s) (table l) 0 true) in
         encode_loop f src base L 1 v
       else encode_loop f src base L 1
              (enc_goto (enc_update v (cnt src base it) s) (data_elem it :: table l) (cnt src base it) false)) m1.
Proof.
  intros Hc E Hnew Ei (Eb & Et & Ed & He) Hf Hlen Hr. pose proof (ce_wf _ _ _ _ _ Hc) as Hwf.
  destruct (ce_room _ _ _ _ _ Hc Hroom) as [_ Hlenroom]. rewrite (encode_loop_step _ _ _ _ _ _ _ _ Ei) by done.
  destruct (encode_len_ok (enc_rec f src) src base L false 1 v m it o s Hwf E (Hlenroom _ _ E))
    as (m1 & Hw1 & Hls & Hr1); [done|lia|done|]. exists m1. split; [done|]. split; [done|].
  rewrite Ei in Hr1. cbn [tail] in Hr1. destruct (cnt src base it =? 0) eqn:Hk.
  - cbn [skip_to_next_elem] in Hr1. change (1 >? 1) with false in Hr1. cbn [data_elem tlv_type] in Hr1.
    rewrite skip_same_table in Hr1; [|destruct (iw_tlv _ _ Hwf); lia|done].
    rewrite (st_bind_ok _ _ _ _ _ Hr1). by replace (cnt src base it) with 0 by lia.
  - by rewrite (st_bind_ok _ _ _ _ _ Hr1).
Qed.

(** An item that is present, after its flag. *)
Lemma item_sent it l f v m : can_send src base ssize it -> present src base it = true ->
  i_tlv it ∉ map i_tlv l -> temp_ei v = item_elems it ++ table l ->
  idle v -> (2 + table_rounds (i_fields it) + table_rounds l <= f)%nat ->
  encoded_bytes v + Z.of_nat (length (block src base it)) <= L ->
  room m (tlv_pointer v) (Z.of_nat (length (block src base it))) ->
  sends_on l f v m (encoded_bytes v) (tlv_pointer v) (block src base it) m.
Proof.
  intros Hs Hp Hnew Ei Hidle Hf. rewrite (block_present _ _ _ Hp).
  set (bs := i_tlv it :: _). intros Hlen Hr. pose proof (cs_encode _ _ _ _ Hs Hp) as Hc.
  pose proof (cs_short _ _ _ _ Hs Hp) as Hshort. pose proof (ce_wf _ _ _ _ _ Hc) as Hwf.
  rewrite payload_split in Hshort. pose proof Hidle as (Eb & Et & Ed & He).
  destruct f as [|[|f]]; [lia|lia|]. unfold item_elems in Ei. destruct (i_len it) as [[o s]|] eqn:E; cbn [app] in Ei.
  - assert (Hls : Z.of_nat (length (len_part src base it)) = s).
    { destruct (cnt_len false src base it o s Hwf E) as (_ & Hsn & Hs12 & _). unfold len_part. rewrite E, length_le_bytes, Hsn. lia. }
    assert (Hbs : Z.of_nat (length bs) = 3 + (s + Z.of_nat (length (body src false base it)))).
    { unfold bs. cbn [length]. rewrite !length_app, length_le_bytes. lia. }
    destruct (len_sent it l o s (S f) v m) as (m1 & Hw1 & _ & Hr1); [done|done|done|done|done|lia|lia| |].
    { rewrite Ed. destruct Hr; split; lia. }
    unfold sends_on. rewrite Hr1, Ed in *. destruct (cnt src base it =? 0) eqn:Hk.
    + assert (Hb : body src false base it = []) by (eapply body_empty; [done|done|lia]).
      unfold bs in *. rewrite Hb, app_nil_r in *.
      destruct (close_block l (S f) (i_tlv it) (enc_goto (enc_update v 0 s) (table l) 0 true) (tlv_pointer v)
        (encoded_bytes v) (len_part src base it) m m1) as (v2 & m2 & Hr2 & Ha & Hw2);
        try done; cbn [enc_goto enc_update temp_ei tlv_pointer buf_dst enc_tlv_len encoded_bytes];
        rewrite ?u32_id by lia; try lia.
      { destruct (iw_tlv _ _ Hwf). lia. }
      rewrite (st_bind_ok _ _ _ _ _ Hr2). by exists (S f), v2, m2.
    + apply (data_sent it l f _ (tlv_pointer v) (encoded_bytes v) (len_part src base it) m m1);
        try done; cbn [enc_goto enc_update temp_ei tlv_pointer buf_dst enc_tlv_len encoded_bytes data_len_value];
        rewrite ?u32_id by lia; try lia.
      intros _. split; [done|]. destruct (cnt_range src base false it Hwf); lia.
  - unfold bs, len_part in *. rewrite E in *. cbn [app] in *.
    apply (data_sent it l (S f) v (tlv_pointer v) (encoded_bytes v) [] m m); cbn [length app]; rewrite ?Z.add_0_r;
      try done; try lia; try apply wrote_nil.
    intros Ha. pose proof (iw_len _ _ Hwf) as Hx. by rewrite E in Hx.
Qed.

(** An item that does not fit any more ends the message. *)
Definition gives_up (fuel : nat) (v : enc_vars) (m : mem) (e q : Z) : Prop :=
  exists m', encode_loop fuel src base L 1 v m = Ok (- ETOOSMALL, m') /\ spoiled m m' q (L - e).

Lemma item_gives_up it l f v m : can_send src base ssize it -> present src base it = true ->
  Forall (fun f => stringless f = true) (i_fields it) -> i_tlv it ∉ map i_tlv l ->
  temp_ei v = item_elems it ++ table l -> idle v ->
  (2 + table_rounds (i_fields it) + table_rounds l <= f)%nat -> encoded_bytes v <= L ->
  L < encoded_bytes v + Z.of_nat (length (block src base it)) -> room m (tlv_pointer v) (L - encoded_bytes v) ->
  gives_up f v m (encoded_bytes v) (tlv_pointer v).
Proof.
  intros Hs Hp Hsl Hnew Ei Hidle Hf HeL. rewrite (block_present _ _ _ Hp). cbn [length].
  rewrite !length_app, length_le_bytes. intros Hlen Hr. pose proof (cs_encode _ _ _ _ Hs Hp) as Hc.
  pose proof (cs_short _ _ _ _ Hs Hp) as Hshort. pose proof (ce_wf _ _ _ _ _ Hc) as Hwf.
  rewrite payload_split, length_app in Hshort. pose proof Hidle as (Eb & Et & Ed & He).
  assert (Hdata : forall f v m1, (table_rounds (i_fields it) <= f)%nat -> temp_ei v = data_elem it :: table l ->
    0 < cnt src base it -> (i_arr it = VAR_LEN_ARRAY -> data_len_value v = cnt src base it) ->
    0 <= encoded_bytes v <= L -> L < encoded_bytes v + Z.of_nat (length (body src false base it)) + 3 ->
    room m1 (buf_dst v) (L - encoded_bytes v - 3) ->
    exists m2, encode_loop (S f) src base L 1 v m1 = Ok (- ETOOSMALL, m2) /\
      spoiled m1 m2 (buf_dst v) (L - encoded_bytes v - 3)).
  { clear -Hc Hwf Hroom HL Hshort Hsl. intros f v m1 Hf Ei Hpos Hvar He Hlen Hr.
    destruct (ce_room _ _ _ _ _ Hc Hroom) as [Hdata _].
    rewrite (encode_loop_step _ _ _ _ _ _ _ _ Ei (item_not_eoti _ _ Hwf)).
    destruct (encode_data_small (enc_rec f src) src base L false 1 v m1 it Hwf eq_refl (ce_value _ _ _ _ _ Hc) Hdata)
      as (m2 & Hr2 & Hw2); [done| |done|done|lia|lia|lia|lia|done|].
    { intros Hs. split; [eapply ce_rec; eauto; lia|eapply small_rec; eauto using all_items_small; lia]. }
    rewrite (st_bind_ok _ _ _ _ _ Hr2). by exists m2. }
  destruct f as [|[|f]]; [lia|lia|]. unfold item_elems in Ei. unfold gives_up. destruct (i_len it) as [[o s]|] eqn:E; cbn [app] in Ei.
  - assert (Hls : Z.of_nat (length (len_part src base it)) = s).
    { destruct (cnt_len false src base it o s Hwf E) as (_ & Hsn & Hs12 & _). unfold len_part. rewrite E, length_le_bytes, Hsn. lia. }
    destruct (decide (encoded_bytes v + s + 3 <= L)) as [Hfit|Hfit].
    + destruct (len_sent it l o s (S f) v m) as (m1 & Hw1 & _ & Hr1); [done|done|done|done|done|lia|lia| |].
      { rewrite Ed. destruct Hr; split; lia. }
      rewrite Hr1, Ed in *. destruct (cnt src base it =? 0) eqn:Hk.
      { assert (Hb0 : body src false base it = []) by (eapply body_empty; [done|done|lia]). rewrite Hb0 in Hlen. cbn in Hlen. lia. }
      set (v1 := enc_goto (enc_update v (cnt src base it) s) (data_elem it :: table l) (cnt src base it) false).
      assert (E1 : encoded_bytes v1 = encoded_bytes v + s) by (cbn; by rewrite u32_id by lia).
      assert (D1 : buf_dst v1 = tlv_pointer v + 3 + s) by (cbn; by rewrite Ed).
      destruct (Hdata f v1 m1) as (m2 & Hr2 & Hw2); rewrite ?E1, ?D1; [lia|done| |done|lia|lia| |].
      { destruct (cnt_range src base false it Hwf); lia. }
      { eapply wrote_room; [exact Hw1|]. destruct Hr; split; lia. }
      exists m2. split; [exact Hr2|]. eapply (spoiled_wider m m2 (tlv_pointer v + 3) (L - encoded_bytes v - 3)); [|lia|lia].
      eapply wrote_spoiled; [exact Hw1|rewrite Hls, <-D1; exact Hw2|lia|lia].
    + exists m. split; [|apply spoiled_none]. rewrite (encode_loop_step _ _ _ _ _ _ _ _ Ei) by done.
      destruct (ce_room _ _ _ _ _ Hc Hroom) as [_ Hlenroom].
      erewrite st_bind_ok by (eapply (encode_len_small _ src base L false 1 v m it o s Hwf E (Hlenroom _ _ E)); lia). done.
  - unfold len_part in *. rewrite E in *. cbn [app length] in *.
    destruct (Hdata (S f) v m) as (m2 & Hr2 & Hw2); [lia|done|by apply (cnt_pos _ _ _ _ Hwf)| |lia|lia| |].
    { intros Ha. pose proof (iw_len _ _ Hwf) as Hx. by rewrite E in Hx. }
    { rewrite Ed. destruct Hr; split; lia. }
    exists m2. split; [exact Hr2|]. rewrite Ed in Hw2. eapply spoiled_wider; [exact Hw2|lia|lia].
Qed.

Lemma absent_flag it : present src base it = false -> exists o, i_opt it = Some o /\ get_byte src (base + o) = 0.
Proof. unfold present. destruct (i_opt it) as [o|]; [|done]. intros H. exists o. split; [done|lia]. Qed.

Lemma opt_range it o : i_opt it = Some o -> (o, 1) ∈ ranges it.
Proof. unfold ranges. intros ->. left. Qed.

(** The flag of an item: on to its length or data when it is set, to the next item when not. *)
Lemma flag_step it l o f v : can_send src base ssize it -> i_opt it = Some o ->
  temp_ei v = opt_elem it o :: item_elems it ++ table l ->
  i_tlv it ∉ map i_tlv l -> idle v -> forall m,
  encode_loop (S f) src base L 1 v m =
    encode_loop f src base L 1 (enc_goto v (if present src base it then tail (temp_ei v) else table l) 1 false) m.
Proof.
  intros Hs Eo Ei Hnew (Eb & _) m. pose proof (cs_wf _ _ _ _ Hs) as Hwf.
  pose proof (cs_inside _ _ _ _ Hs _ (opt_range it o Eo)) as Hin. cbn in Hin. destruct Hroom as [H1 H2].
  rewrite (encode_loop_step _ _ _ _ _ _ _ _ Ei) by done. unfold encode_elem, enc_data_len.
  cbn [opt_elem array_type data_type elem_offset]. rewrite st_bind_bind.
  rewrite (st_bind_ok _ _ _ (get_byte src (base + o)) m) by (unfold peek; rewrite load_ok by lia; by rewrite le_load_1).
  unfold present. rewrite Eo. destruct (get_byte src (base + o) =? 0) eqn:Hz; cbn [negb].
  - rewrite Ei. cbn [skip_to_next_elem]. change (1 >? 1) with false. cbn [opt_elem tlv_type].
    assert (Hsk : skip_same (i_tlv it) (item_elems it ++ table l) = Ok (table l)).
    { unfold item_elems. destruct (i_len it) as [[o' s]|]; cbn [app skip_same len_elem data_elem tlv_type]; rewrite !Z.eqb_refl;
        (apply skip_same_table; [destruct (iw_tlv _ _ Hwf); lia|done]). }
    unfold st_bind, st_lift. rewrite Hsk. unfold st_ret, encode_header. cbn [enc_goto encode_tlv]. by rewrite Eb.
  - unfold st_bind, st_ret, encode_header. cbn [enc_goto encode_tlv]. by rewrite Eb.
Qed.

(** Up to the length or the data of an item that is present, or past one that is not. *)
Lemma item_start it l fuel v m e q : can_send src base ssize it -> i_tlv it ∉ map i_tlv l ->
  at_block (it :: l) fuel v e q ->
  exists f v', encode_loop fuel src base L 1 v m = encode_loop f src base L 1 v' m /\
    idle v' /\ encoded_bytes v' = e /\ tlv_pointer v' = q /\
    (2 + table_rounds (i_fields it) + table_rounds l <= f)%nat /\
    temp_ei v' = (if present src base it then item_elems it ++ table l else table l).
Proof.
  intros Hs Hnew [Ei Hf Hidle He Hq]. rewrite table_rounds_cons, rounds_eq in Hf.
  rewrite table_cons, elems_of_eq in Ei. destruct (i_opt it) as [o|] eqn:Eo.
  - destruct fuel as [|f]; [lia|]. rewrite <-app_assoc in Ei. cbn [app] in Ei.
    rewrite (flag_step it l o f v Hs Eo Ei Hnew Hidle). eexists f, _. split; [reflexivity|].
    destruct Hidle as (I1 & I2 & I3 & I4). split; [by split_and!|]. cbn [enc_goto encoded_bytes tlv_pointer temp_ei].
    split; [done|]. split; [done|]. split; [lia|]. rewrite Ei. by destruct (present _ _ _).
  - exists fuel, v. split; [done|]. split; [done|]. split; [done|]. split; [done|]. split; [lia|]. unfold present. by rewrite Eo.
Qed.

Lemma fits_left e (a b : list Z) m q : e + Z.of_nat (length (a ++ b)) <= L -> room m q (Z.of_nat (length (a ++ b))) ->
  e + Z.of_nat (length a) <= L /\ room m q (Z.of_nat (length a)).
Proof. rewrite length_app. intros Hl [H1 H2]. split; [lia|]. split; lia. Qed.

Lemma all_sent l : Forall (can_send src base ssize) l -> NoDup (map i_tlv l) -> forall v fuel m e q,
  at_block l fuel v e q -> e + Z.of_nat (length (wire src base l)) <= L ->
  room m q (Z.of_nat (length (wire src base l))) ->
  exists m', encode_loop fuel src base L 1 v m = Ok (e + Z.of_nat (length (wire src base l)), m') /\
    wrote m m' q (wire src base l).
Proof.
  induction 1 as [|it l Hs _ IH]; intros Hnd v fuel m e q Ha Hlen Hr.
  { destruct Ha as [Ei Hf (_ & _ & _ & He) <- <-].
    destruct fuel as [|fuel]; [unfold table_rounds in Hf; cbn in Hf; lia|].
    cbn [encode_loop]. rewrite Ei. cbn [table map concat app eoti data_type]. rewrite bool_decide_true by done.
    cbn in Hlen |- *. rewrite s32_id by lia. exists m. split; [unfold st_ret; do 2 f_equal; lia|apply wrote_nil]. }
  cbn [map] in Hnd. apply NoDup_cons in Hnd as [Hnew Hnd]. specialize (IH Hnd).
  destruct (item_start it l fuel v m e q Hs Hnew Ha) as (f & v1 & -> & Hid & He & Hq & Hf & Ei).
  rewrite wire_cons in *. destruct (present src base it) eqn:Hp.
  - destruct (fits_left _ _ _ _ _ Hlen Hr) as [Hlen1 Hr1]. subst e q.
    destruct (item_sent it l f v1 m Hs Hp Hnew Ei Hid Hf Hlen1 Hr1) as (f2 & v2 & m2 & -> & Ha2 & Hw2).
    rewrite length_app in *. edestruct (IH v2 f2 m2) as (m3 & Hr3 & Hw3);
      [exact Ha2|lia|eapply wrote_room; [exact Hw2|]; destruct Hr; split; lia|].
    exists m3. rewrite Hr3. split; [do 2 f_equal; lia|]. by eapply wrote_app.
  - unfold block in *. rewrite Hp in *. cbn [app] in *. apply (IH v1 f m e q); [|done|done]. constructor; try done; lia.
Qed.

(** A message that is longer than the limit is refused. *)
Lemma all_give_up l : Forall (can_send src base ssize) l -> NoDup (map i_tlv l) ->
  Forall (fun it => Forall (fun f => stringless f = true) (i_fields it)) l -> forall v fuel m e q,
  at_block l fuel v e q -> e <= L -> L < e + Z.of_nat (length (wire src base l)) -> room m q (L - e) ->
  gives_up fuel v m e q.
Proof.
  induction 1 as [|it l Hs _ IH]; intros Hnd Hsl v fuel m e q Ha HeL Hlen Hr; [cbn in Hlen; lia|].
  cbn [map] in Hnd. apply NoDup_cons in Hnd as [Hnew Hnd]. apply Forall_cons in Hsl as [Hsl Hsl']. specialize (IH Hnd Hsl').
  destruct (item_start it l fuel v m e q Hs Hnew Ha) as (f & v1 & Hrun & Hid & He & Hq & Hf & Ei). unfold gives_up. rewrite Hrun.
  rewrite wire_cons, length_app in *. destruct (present src base it) eqn:Hp.
  - subst e q. destruct (decide (encoded_bytes v1 + Z.of_nat (length (block src base it)) <= L)) as [Hfit|Hfit].
    + destruct (item_sent it l f v1 m Hs Hp Hnew Ei Hid Hf Hfit) as (f2 & v2 & m2 & -> & Ha2 & Hw2); [destruct Hr; split; lia|].
      destruct (IH v2 f2 m2 _ _ Ha2) as (m3 & Hr3 & Hw3);
        [lia|lia|eapply wrote_room; [exact Hw2|]; destruct Hr; split; lia|].
      exists m3. split; [done|]. eapply wrote_spoiled; [exact Hw2|exact Hw3|lia|lia].
    + apply (item_gives_up it l f v1 m); [done..|lia|done].
  - unfold block in *. rewrite Hp in *. cbn [length] in *. apply (IH v1 f m e q); [|done|lia|done]. constructor; try done; lia.
Qed.
End message.

(** The values of the items that are present can be encoded. *)
Definition message_ok (src : mem) (base : Z) (items : list item) : bool :=
  forallb (fun it => negb (present src base it) ||
                     (value_ok src base it && (Z.of_nat (length (payload src false base it)) <? 65536))) items.

Lemma message_can_send src base ssize items : schema_ok ssize items = true -> message_ok src base items = true ->
  Forall (can_send src base ssize) items /\ NoDup (map i_tlv items).
Proof.
  unfold schema_ok, message_ok. rewrite !andb_true_iff, !forallb_Forall, bool_decide_eq_true.
  intros [[Hok Hlay] Hnd] Hm. split; [|done]. rewrite Forall_forall in *. intros it Hit.
  specialize (Hok it Hit). specialize (Hm it Hit). cbn in Hm. constructor.
  - by apply item_ok_wf.
  - intros r Hr. by eapply layout_inside.
  - intros Hp. rewrite Hp in Hm. cbn in Hm. by apply andb_true_iff in Hm as [? _].
  - intros Hp. rewrite Hp in Hm. cbn in Hm. apply andb_true_iff in Hm as [_ ?]. lia.
Qed.

Lemma message_start items out fuel : (table_rounds items <= fuel)%nat ->
  at_block items fuel (enc_start (table items) out 1) 0 out.
Proof. intros Hf. constructor; [done|done| |done|done]. by split_and!. Qed.

Lemma encode_message_ok fuel src base ssize items out L m :
  schema_ok ssize items = true -> message_ok src base items = true -> room src base ssize ->
  (table_rounds items <= fuel)%nat -> L < 2 ^ 31 ->
  let bs := wire src base items in
  Z.of_nat (length bs) <= L -> room m out (Z.of_nat (length bs)) ->
  exists m', qmi_encode fuel src (Some (table items)) out base L 1 m = Ok (Z.of_nat (length bs), m') /\
    wrote m m' out bs.
Proof.
  intros Hsch Hmsg Hroom Hf HL bs Hlen Hr. destruct (message_can_send _ _ _ _ Hsch Hmsg) as [Hs Hnd].
  exact (all_sent src base L ssize HL Hroom items Hs Hnd _ fuel m 0 out (message_start items out fuel Hf) Hlen Hr).
Qed.

(** No strings inside structures. *)
Definition strings_outside (items : list item) : bool := forallb (fun it => forallb stringless (i_fields it)) items.

Lemma encode_message_small fuel src base ssize items out L m :
  schema_ok ssize items = true -> message_ok src base items = true -> strings_outside items = true ->
  room src base ssize -> (table_rounds items <= fuel)%nat -> 0 <= L < 2 ^ 31 ->
  L < Z.of_nat (length (wire src base items)) -> room m out L ->
  exists m', qmi_encode fuel src (Some (table items)) out base L 1 m = Ok (- ETOOSMALL, m') /\ spoiled m m' out L.
Proof.
  intros Hsch Hmsg Hso Hroom Hf HL Hlen Hr. destruct (message_can_send _ _ _ _ Hsch Hmsg) as [Hs Hnd].
  destruct (all_give_up src base L ssize ltac:(lia) Hroom items Hs Hnd) with (fuel := fuel)
    (v := enc_start (table items) out 1) (m := m) (e := 0) (q := out) as (m' & Hr' & Hw').
  - unfold strings_outside in Hso. rewrite forallb_Forall in Hso. eapply Forall_impl; [exact Hso|].
    intros it Hit. by apply forallb_Forall.
  - by apply message_start.
  - lia.
  - lia.
  - by rewrite Z.sub_0_r.
  - exists m'. rewrite Z.sub_0_r in Hw'. by split.
Qed.

(** C19: the encoder writes exactly the wire format of a structure, or reports that the
    buffer is too small, and never writes past the limit it is given.  For the table of a well formed
    schema without strings inside structures (where the space check misses the header of the block),
    a structure whose values fit it, and any limit [L] below 2^31 of which the buffer has
    the bytes: if the wire format takes at most [L] bytes the buffer
    receives, one after the other, the blocks of the items that are present, each with its type, its
    length and its contents, nested structures and arrays included, the encoder returns
    their length and writes nothing else; if it takes more it returns -ETOOSMALL, and
    no byte but the [L] of the buffer has changed.  No access is made outside the structure and
    the buffer. *)
Theorem qmi_encode_correct fuel src base ssize items out L m :
  schema_ok ssize items = true -> message_ok src base items = true -> strings_outside items = true ->
  room src base ssize -> (table_rounds items <= fuel)%nat -> 0 <= L < 2 ^ 31 -> room m out L ->
  let bs := wire src base items in
  exists m', qmi_encode fuel src (Some (table items)) out base L 1 m =
      Ok (if Z.of_nat (length bs) <=? L then Z.of_nat (length bs) else - ETOOSMALL, m') /\
    spoiled m m' out L /\ (Z.of_nat (length bs) <= L -> wrote m m' out bs).
Proof.
  intros Hsch Hmsg Hso Hroom Hf HL Hr bs. destruct (Z.leb_spec (Z.of_nat (length bs)) L) as [Hl|Hl].
  - destruct (encode_message_ok fuel src base ssize items out L m) as (m' & Hr' & Hw'); try done; [lia|destruct Hr; split; fold bs; lia|].
    exists m'. split; [exact Hr'|]. split; [|done]. eapply wrote_spoiled; [exact Hw'|apply (spoiled_none _ _ 0)|fold bs; lia|fold bs; lia].
  - destruct (encode_message_small fuel src base ssize items out L m) as (m' & Hr' & Hw'); try done.
    exists m'. split; [exact Hr'|]. split; [done|]. lia.
Qed.

(** ** Example *)
Module WireDemo.
Definition items : list item :=
  [Item 1 None None NO_ARRAY 1 2 0 QMI_UNSIGNED_2_BYTE []; Item 16 (Some 2) None NO_ARRAY 4 1 3 QMI_STRING []].
Definition src : mem := poke [(0, 2%nat, 0x1234); (2, 1%nat, 1); (3, 1%nat, 72); (4, 1%nat, 73)] (Mem 0 7 ∅).
End WireDemo.

Lemma qmi_encode_correct_witness :
  (exists m', qmi_encode 20 WireDemo.src (Some (table WireDemo.items)) 100 0 10 1 (Mem 100 10 ∅) = Ok (10, m') /\
     bytes_at m' 100 10 = [1; 2; 0; 0x34; 0x12; 16; 2; 0; 72; 73]) /\
  exists m', qmi_encode 20 WireDemo.src (Some (table WireDemo.items)) 100 0 9 1 (Mem 100 9 ∅) = Ok (- ETOOSMALL, m').
Proof.
  split.
  - destruct (qmi_encode_correct 20 WireDemo.src 0 7 WireDemo.items 100 10 (Mem 100 10 ∅)) as (m' & Hr & _ & Hw).
    + vm_compute. reflexivity.
    + vm_compute. reflexivity.
    + vm_compute. reflexivity.
    + split; vm_compute; discriminate.
    + vm_compute. lia.
    + lia.
    + split; vm_compute; discriminate.
    + exists m'. split; [exact Hr|]. refine (w_bytes _ _ _ _ (Hw _)). vm_compute. discriminate.
  - destruct (qmi_encode_correct 20 WireDemo.src 0 7 WireDemo.items 100 9 (Mem 100 9 ∅)) as (m' & Hr & _ & _).
    + vm_compute. reflexivity.
    + vm_compute. reflexivity.
    + vm_compute. reflexivity.
    + split; vm_compute; discriminate.
    + vm_compute. lia.
    + lia.
    + split; vm_compute; discriminate.
    + exists m'. exact Hr.
Defined.
