(* ===== verification/QmiRoundtrip.v ===== *)
(** * QMI messages: decoding what was encoded

    The decoder, given the wire bytes of a structure, builds a structure with the same wire
    bytes: the items that were present are present, with the same contents. *)
From S2P Require Import Prelude CMem QmiEncdec QmiWire.
Open Scope c_scope.

(** ** What a step of the decoder touches *)

(** Only bytes of the parts [rs] of the structure at [base] changed. *)
Record touched (d d' : mem) (base : Z) (rs : list (Z * Z)) : Prop := {
  t_base : m_base d' = m_base d;
  t_size : m_size d' = m_size d;
  t_frame : forall b, (forall r, r ∈ rs -> ~ (base + r.1 <= b < base + r.1 + r.2)) ->
    get_byte d' b = get_byte d b;
}.

Lemma touched_refl d base rs : touched d d base rs.
Proof. by constructor. Qed.

Lemma touched_trans d d1 d2 base rs : touched d d1 base rs -> touched d1 d2 base rs -> touched d d2 base rs.
Proof.
  intros [B1 S1 F1] [B2 S2 F2]. constructor; [congruence|congruence|].
  intros b Hb. by rewrite F2, F1.
Qed.

Lemma touched_mono d d' base rs rs' : (forall r, r ∈ rs -> r ∈ rs') -> touched d d' base rs -> touched d d' base rs'.
Proof. intros Hs [B S F]. constructor; [done|done|]. intros b Hb. apply F. auto. Qed.

Lemma touched_inside d d' base rs o n : (forall r, r ∈ rs -> o <= r.1 /\ r.1 + r.2 <= o + n) ->
  touched d d' base rs -> touched d d' base [(o, n)].
Proof.
  intros Hin [B S F]. constructor; [done|done|]. intros b Hb. apply F. intros r Hr Hx.
  specialize (Hin r Hr). apply (Hb (o, n)); [left|]. cbn. lia.
Qed.

Lemma touched_shift d d' base base' o n : base' = base + o -> touched d d' base' [(0, n)] ->
  touched d d' base [(o, n)].
Proof.
  intros -> [B S F]. constructor; [done|done|]. intros b Hb. apply F. intros r Hr.
  apply list_elem_of_singleton in Hr as ->. specialize (Hb (o, n) ltac:(left)). cbn in *. lia.
Qed.

Lemma wrote_touched d d' base o bs n : wrote d d' (base + o) bs -> Z.of_nat (length bs) <= n ->
  touched d d' base [(o, n)].
Proof.
  intros [B S _ F] Hn. constructor; [done|done|]. intros b Hb. apply F.
  specialize (Hb (o, n) ltac:(left)). cbn in Hb. lia.
Qed.

Lemma touched_room d d' base rs b n : touched d d' base rs -> room d b n -> room d' b n.
Proof. intros [B S _]. unfold room. by rewrite B, S. Qed.

Lemma all_apart_app a b : all_apart (a ++ b) = true <->
  all_apart a = true /\ all_apart b = true /\ forall r s, r ∈ a -> s ∈ b -> apart r s = true.
Proof.
  induction a as [|x a IH]; cbn [app all_apart].
  - split; [intros H; split_and!; [done|done|]; intros r s Hr; by apply elem_of_nil in Hr|tauto].
  - rewrite forallb_app, !andb_true_iff, IH, !forallb_Forall, !Forall_forall. setoid_rewrite elem_of_cons.
    split; [naive_solver|]. intros ([? ?] & ? & ?). naive_solver.
Qed.

(** Parts that are apart keep their bytes. *)
Lemma touched_apart d d' base rs r b : touched d d' base rs -> (forall s, s ∈ rs -> apart s r = true) ->
  base + r.1 <= b < base + r.1 + r.2 -> get_byte d' b = get_byte d b.
Proof.
  intros [_ _ F] Ha Hb. apply F. intros s Hs Hx. specialize (Ha s Hs). unfold apart in Ha. lia.
Qed.

(** ** Contents depend on the parts of the item only *)
Definition same_on (m m' : mem) (base : Z) (rs : list (Z * Z)) : Prop :=
  forall r b, r ∈ rs -> base + r.1 <= b < base + r.1 + r.2 -> get_byte m' b = get_byte m b.

Lemma cnt_agree nested m m' base it : item_wf nested it -> same_on m m' base (ranges it) ->
  cnt m' base it = cnt m base it.
Proof.
  intros Hw Hs. destruct (i_len it) as [[o s]|] eqn:E.
  - destruct (cnt_len nested m base it o s Hw E) as (-> & Hs' & Hs12 & _).
    destruct (cnt_len nested m' base it o s Hw E) as (-> & _). apply le_load_agree. intros b Hb.
    apply (Hs (o, 4)); [by eapply len_range|]. cbn. lia.
  - pose proof (iw_len _ _ Hw) as Hl. rewrite E in Hl. unfold cnt, count. by destruct (i_arr it).
Qed.

(** The fields of element [i] of a structure lie inside the data of the item. *)
Lemma same_on_field nested m m' base it i f : item_wf nested it -> i_ty it = QMI_STRUCT ->
  same_on m m' base (ranges it) -> 0 <= i < max_count it -> f ∈ i_fields it ->
  same_on m m' (base + i_off it + i * i_size it) (ranges f).
Proof.
  intros Hw Ht Hs Hi Hf r b Hr Hb. apply (Hs (i_off it, extent it)); [apply data_range|]. cbn.
  destruct (iw_ty _ _ Hw) as [H|[(H & _)|(_ & _ & _ & Hlay)]]; [by rewrite Ht in H|congruence|].
  destruct (layout_inside _ _ _ _ Hlay Hf Hr). unfold extent. rewrite Ht. pose proof (iw_size _ _ Hw). nia.
Qed.

Lemma payload_agree it : forall nested m m' base, item_ok nested it = true -> same_on m m' base (ranges it) ->
  value_ok m base it = true ->
  payload m' nested base it = payload m nested base it /\ value_ok m' base it = true.
Proof.
  induction it as [it IH] using item_induction. intros nested m m' base Hok Hs Hv.
  pose proof (item_ok_wf _ _ Hok) as Hw. pose proof (cnt_agree nested m m' base it Hw Hs) as Hc.
  destruct (value_ok_inv _ _ _ Hv) as (Hk & Hstr & Hval). destruct (cnt_max _ _ _ _ Hw Hk) as [Hk0 Hkm].
  assert (Hdata : forall b, base + i_off it <= b < base + i_off it + extent it -> get_byte m' b = get_byte m b)
    by (intros b Hb; apply (Hs (i_off it, extent it)); [apply data_range|done]).
  assert (Hfields : i_ty it = QMI_STRUCT -> forall i, 0 <= i < cnt m base it -> Forall (fun f =>
    payload m' true (base + i_off it + i * i_size it) f = payload m true (base + i_off it + i * i_size it) f /\
    value_ok m' (base + i_off it + i * i_size it) f = true) (i_fields it)).
  { intros Ht i Hi. destruct (iw_ty _ _ Hw) as [H|[(H & _)|(_ & _ & Hfok & _)]]; [by rewrite Ht in H|congruence|].
    specialize (Hval Ht i Hi). rewrite Forall_forall in *. intros f Hf. apply IH; auto.
    eapply same_on_field; eauto; lia. }
  split.
  - rewrite !payload_split. f_equal; [unfold len_part; by rewrite Hc|].
    destruct (iw_ty _ _ Hw) as [Ht|[(Ht & _)|(Ht & _)]].
    + rewrite !body_basic, Hc by done. apply bytes_at_agree. intros b Hb. apply Hdata.
      pose proof (extent_count _ _ _ _ Hw Hk ltac:(by intros E; rewrite E in Ht)). lia.
    + rewrite !body_string by done. rewrite (cstr_agree m' m); [done|]. intros b Hb. apply Hdata.
      unfold extent. rewrite Ht. pose proof (iw_n _ _ Hw). lia.
    + rewrite !body_struct, Hc by done. f_equal. apply map_ext_in. intros i Hi%list_elem_of_In%elem_of_seqZ.
      unfold fields_bytes. f_equal. apply map_ext_in. intros f Hf%list_elem_of_In.
      specialize (Hfields Ht i ltac:(lia)). rewrite Forall_forall in Hfields. by apply Hfields.
  - apply value_ok_spec. rewrite Hc. split; [done|]. split.
    + intros Ht. rewrite (cstr_agree m' m); [auto|]. intros b Hb. apply Hdata.
      unfold extent. rewrite Ht. pose proof (iw_n _ _ Hw). lia.
    + intros Ht i Hi. eapply Forall_impl; [by apply Hfields|]. by intros f [_ ?].
Qed.

(** ** Reading from the message *)
Definition holds (inb : mem) (p : Z) (bs : list Z) : Prop :=
  bytes_at inb p (length bs) = bs /\ room inb p (Z.of_nat (length bs)).

Lemma holds_app inb p a b : holds inb p (a ++ b) -> holds inb p a /\ holds inb (p + Z.of_nat (length a)) b.
Proof.
  intros [Hb [H1 H2]]. rewrite length_app in *. rewrite bytes_at_app in Hb.
  apply app_inj_1 in Hb as [Ha Hb]; [|by rewrite length_bytes_at].
  split; (split; [done|split; lia]).
Qed.

Lemma decode_basic_ok inb dst p n size bs d : 0 <= n -> 0 <= size -> n * size < 2 ^ 31 ->
  holds inb p bs -> Z.of_nat (length bs) = n * size -> room d dst (n * size) ->
  exists d', qmi_decode_basic_elem inb dst p n size d = Ok (n * size, d') /\ wrote d d' dst bs.
Proof.
  intros Hn Hs Hm [Hb Hr] Hl Hd.
  destruct (encode_basic_ok inb dst p n size d) as (d' & Hr' & Hw'); try done.
  { by rewrite <-Hl. }
  exists d'. split; [exact Hr'|]. replace (Z.to_nat (n * size)) with (length bs) in Hw' by lia. by rewrite Hb in Hw'.
Qed.

(** A number in the message. *)
Lemma peek_number inb p n v d : holds inb p (le_bytes n v) -> 0 <= v < 2 ^ (8 * Z.of_nat n) ->
  peek inb (load n p) d = Ok (v, d).
Proof.
  intros [Hb [H1 H2]] Hv. rewrite length_le_bytes in *. unfold peek. rewrite load_ok by lia.
  by rewrite (le_load_bytes n inb p v).
Qed.

Lemma lor_shiftl8 lo hi : 0 <= lo < 256 -> Z.lor lo (Z.shiftl hi 8) = lo + 256 * hi.
Proof. intros Hlo. rewrite Z.lor_comm, lor_shiftl by lia. lia. Qed.

Lemma get_tlv_ok inb p type n d : holds inb p (type :: le_bytes 2 n) -> 0 <= n < 65536 ->
  get_tlv inb p d = Ok ((type, n), d).
Proof.
  intros [Hb [H1 H2]] Hn. cbn [length] in *. rewrite length_le_bytes in *.
  change (S 2) with (1 + 2)%nat in Hb. rewrite bytes_at_app in Hb.
  change (bytes_at inb p 1) with [get_byte inb p] in Hb. change (Z.of_nat 1) with 1 in Hb. cbn [app] in Hb.
  apply (inj2 cons) in Hb as [Ht H0]. pose proof (le_load_bytes 2 inb (p + 1) n H0 Hn) as Hlen. unfold get_tlv.
  rewrite (st_bind_ok _ _ _ type d) by (unfold peek; rewrite load_ok by lia; by rewrite le_load_1, Ht).
  rewrite (st_bind_ok _ _ _ (get_byte inb (p + 1)) d) by (unfold peek; rewrite load_ok by lia; by rewrite le_load_1).
  rewrite (st_bind_ok _ _ _ (get_byte inb (p + 2)) d) by (unfold peek; rewrite load_ok by lia; by rewrite le_load_1).
  rewrite lor_shiftl8 by apply get_byte_range. rewrite <-Hlen.
  change (le_load inb (p + 1) 2) with (get_byte inb (p + 1) + 256 * (get_byte inb (p + 1 + 1) + 256 * 0)).
  replace (p + 1 + 1) with (p + 2) by lia. unfold st_ret. do 3 f_equal. lia.
Qed.

(** ** Decoding one element *)

(** An item was decoded: the structure at [db] has the contents of the source at [sb]. *)
Definition decoded_as (src : mem) (sb : Z) (d : mem) (db : Z) (nested : bool) (it : item) : Prop :=
  payload d nested db it = payload src nested sb it /\ value_ok d db it = true.

Lemma decoded_kept src sb d d' db nested it : item_ok nested it = true -> same_on d d' db (ranges it) ->
  decoded_as src sb d db nested it -> decoded_as src sb d' db nested it.
Proof.
  intros Hok Hs [Hp Hv]. destruct (payload_agree it nested d d' db Hok Hs Hv) as [Hp' Hv'].
  split; [congruence|done].
Qed.

(** The decoder of a nested table rebuilds its fields. *)
Definition dec_fields_ok (rec : option (list qmi_elem_info) -> Z -> Z -> Z -> Z -> ST mem Z)
    (src inb : mem) (ssize level : Z) (fields : list item) : Prop :=
  forall dst p sb len d, Forall (fun f => value_ok src sb f = true) fields -> room d dst ssize ->
    let bs := fields_bytes src sb fields in
    holds inb p bs -> Z.of_nat (length bs) <= len < 2 ^ 31 ->
    exists d', rec (Some (table fields)) dst p len level d = Ok (Z.of_nat (length bs), d') /\
      touched d d' dst [(0, ssize)] /\ Forall (decoded_as src sb d' dst true) fields.

Lemma body_nested_nonempty m base it : item_wf true it -> payload m true base it <> [].
Proof.
  revert base. induction it as [it IH] using item_induction. intros base Hw. rewrite payload_split.
  destruct (i_len it) as [[o s]|] eqn:E.
  { destruct (cnt_len true m base it o s Hw E) as (_ & _ & Hs & _). unfold len_part. rewrite E.
    by destruct Hs as [-> | ->]. }
  unfold len_part. rewrite E. cbn [app]. pose proof (cnt_pos m base true it Hw E) as Hk.
  destruct (iw_ty _ _ Hw) as [Ht|[(Ht & _)|(Ht & Hf & Hfok & _)]].
  - rewrite body_basic by done. pose proof (iw_size _ _ Hw). intros Hx.
    apply (f_equal length) in Hx. rewrite length_bytes_at in Hx. cbn in Hx. nia.
  - rewrite body_string by done. by case_if.
  - rewrite body_struct, seqZ_cons by (done || lia). cbn [map concat]. unfold fields_bytes.
    destruct (i_fields it) as [|f l]; [done|]. cbn [map concat]. apply Forall_cons in IH as [IHf _].
    apply Forall_cons in Hfok as [Hfok _]. specialize (IHf (base + i_off it + 0 * i_size it) (item_ok_wf _ _ Hfok)).
    by destruct (payload m true (base + i_off it + 0 * i_size it) f).
Qed.

Lemma fields_nonempty m p fields : fields <> [] -> Forall (fun f => item_ok true f = true) fields ->
  0 < Z.of_nat (length (fields_bytes m p fields)).
Proof.
  destruct fields as [|f l]; [done|]. intros _ [Hf _]%Forall_cons. unfold fields_bytes. cbn [map concat].
  pose proof (body_nested_nonempty m p f (item_ok_wf _ _ Hf)). rewrite length_app.
  destruct (payload m true p f); [done|]. cbn. lia.
Qed.

Lemma decode_structs_ok rec src inb size level fields n : dec_fields_ok rec src inb size level fields ->
  fields <> [] -> Forall (fun f => item_ok true f = true) fields -> layout_ok size fields = true -> 0 < size ->
  forall j sb db p T e d, 0 <= j -> 0 <= e ->
  (forall i, j <= i < j + Z.of_nat n -> Forall (fun f => value_ok src (sb + i * size) f = true) fields /\
     room d (db + i * size) size) ->
  let bs := concat (map (fun i => fields_bytes src (sb + i * size) fields) (seqZ j (Z.of_nat n))) in
  holds inb p bs -> e + Z.of_nat (length bs) <= T < 2 ^ 31 ->
  exists d', decode_structs n (fun d p l => rec (Some (table fields)) d p l level) (db + j * size) p T size j e d
      = Ok (inr (j + Z.of_nat n, e + Z.of_nat (length bs)), d') /\
    touched d d' db [(j * size, Z.of_nat n * size)] /\
    forall i, j <= i < j + Z.of_nat n -> Forall (decoded_as src (sb + i * size) d' (db + i * size) true) fields.
Proof.
  intros Hrec Hne Hok Hlay Hsz. induction n as [|n IH]; intros j sb db p T e d Hj He Hv bs Hh HT.
  { exists d. unfold bs. rewrite seqZ_nil by lia. cbn.
    split; [unfold st_ret; do 3 f_equal; f_equal; lia|]. split; [apply touched_refl|lia]. }
  destruct (Hv j ltac:(lia)) as [Hvj Hrj].
  assert (Hbs : bs = fields_bytes src (sb + j * size) fields ++
     concat (map (fun i => fields_bytes src (sb + i * size) fields) (seqZ (j + 1) (Z.of_nat n)))).
  { unfold bs. rewrite seqZ_cons by lia. cbn [map concat]. do 4 f_equal; lia. }
  clearbody bs. subst bs. rewrite length_app in *. apply holds_app in Hh as [Hh0 Hh1].
  pose proof (fields_nonempty src (sb + j * size) fields Hne Hok).
  cbn [decode_structs]. case_if; [lia|].
  destruct (Hrec (db + j * size) p (sb + j * size) (u32 (T - e)) d Hvj Hrj Hh0) as (d1 & Hr1 & Ht1 & Hd1);
    [rewrite u32_id by lia; lia|].
  rewrite (st_bind_ok _ _ _ _ _ Hr1). set (b0 := fields_bytes src (sb + j * size) fields) in *. case_if; [lia|].
  rewrite s32_id by lia. replace (db + j * size + size) with (db + (j + 1) * size) by lia.
  destruct (IH (j + 1) sb db (p + Z.of_nat (length b0)) T (e + Z.of_nat (length b0)) d1) as (d2 & Hr2 & Ht2 & Hd2);
    [lia|lia| |done|lia|].
  { intros i Hi. destruct (Hv i ltac:(lia)). split; [done|]. eapply touched_room; [exact Ht1|done]. }
  exists d2. rewrite Hr2. split; [do 2 f_equal; f_equal; f_equal; lia|].
  assert (Ht1' : touched d d1 db [(j * size, size)]) by (by eapply touched_shift).
  split.
  - eapply touched_trans; (eapply touched_inside; [|eassumption]);
      intros r ->%list_elem_of_singleton; cbn; nia.
  - intros i Hi. destruct (decide (i = j)) as [->|]; [|apply Hd2; lia].
    rewrite Forall_forall in *. intros f Hf. eapply decoded_kept; [auto| |auto].
    intros r b Hr Hb. apply Ht2. intros r' ->%list_elem_of_singleton. cbn.
    destruct (layout_inside _ _ _ _ Hlay Hf Hr). nia.
Qed.

Lemma dec_data_len_ok nested src sb it v : item_wf nested it -> cnt src sb it <= i_n it ->
  (i_arr it = VAR_LEN_ARRAY -> v = cnt src sb it) -> dec_data_len (data_elem it) v = Some (cnt src sb it).
Proof.
  intros Hw Hk Hv. unfold dec_data_len, cnt, count in *. cbn. destruct (i_arr it); [done|done|].
  rewrite (Hv eq_refl). case_if; [lia|done].
Qed.

(** A string that was decoded. *)
Lemma cstr_written d d' p s (n : nat) : wrote d d' p (s ++ [0]) -> Forall (fun b => 0 < b < 256) s ->
  (length s < n)%nat -> cstr d' p n = s.
Proof.
  intros [_ _ Hb _]. clear d. revert p n Hb. induction s as [|b s IH]; intros p n Hb Hs Hn; (destruct n as [|n]; [cbn in Hn; lia|]);
    rewrite length_app in Hb; cbn [length app Nat.add] in Hb; cbn [cstr].
  - change (bytes_at d' p 1) with [get_byte d' p] in Hb. injection Hb as ->. done.
  - change (bytes_at d' p (S (length s + 1))) with (get_byte d' p :: bytes_at d' (p + 1) (length s + 1)) in Hb.
    apply (inj2 cons) in Hb as [Hb0 Hb]. apply Forall_cons in Hs as [Hb1 Hs]. rewrite Hb0. case_if; [lia|].
    f_equal. apply IH; [|done|cbn in Hn; lia]. by rewrite length_app.
Qed.

Lemma cstr_chars m n : forall p, Forall (fun b => 0 < b < 256) (cstr m p n).
Proof.
  induction n as [|n IH]; intros p; cbn [cstr]; [constructor|]. case_if; constructor; [|apply IH].
  pose proof (get_byte_range m p). lia.
Qed.

Lemma string_decoded src sb inb db nested level it d p T : item_wf nested it -> nested = negb (level =? 1) ->
  i_ty it = QMI_STRING -> value_ok src sb it = true ->
  let bs := body src nested sb it in
  holds inb p bs -> Z.of_nat (length bs) <= T < 2 ^ 31 -> (level = 1 -> T = Z.of_nat (length bs)) ->
  room d (db + i_off it) (extent it) ->
  exists d', qmi_decode_string_elem inb (data_elem it) (db + i_off it) p T level d = Ok (Z.of_nat (length bs), d') /\
    touched d d' db [(i_off it, extent it)] /\
    cstr d' (db + i_off it) (Z.to_nat (i_n it)) = cstr src (sb + i_off it) (Z.to_nat (i_n it)).
Proof.
  intros Hw Hnest Ht Hv. cbv zeta. rewrite (body_string _ _ _ _ Ht). intros Hh HT HT1 Hr.
  destruct (value_ok_inv _ _ _ Hv) as (_ & Hs & _). specialize (Hs Ht).
  destruct (iw_ty _ _ Hw) as [Hx|[(_ & Hsz & _)|[Hx _]]]; [by rewrite Ht in Hx| |congruence].
  pose proof (iw_n _ _ Hw) as Hn. pose proof (cstr_chars src (Z.to_nat (i_n it)) (sb + i_off it)) as Hch.
  assert (Hx : extent it = i_n it) by (unfold extent; by rewrite Ht). rewrite Hx in *.
  set (s := cstr src (sb + i_off it) (Z.to_nat (i_n it))) in *.
  set (pre := if nested then le_bytes (if i_n it <=? U8_MAX then 1 else 2) (Z.of_nat (length s)) else []) in *.
  rewrite length_app in *. apply holds_app in Hh as [Hh0 Hh1].
  assert (Hlen : (if level =? 1 then st_ret (T, 0) else
                  let! n := peek inb (load (Z.to_nat (string_len_size (data_elem it))) p) in
                  st_ret (n, string_len_size (data_elem it))) d = Ok ((Z.of_nat (length s), Z.of_nat (length pre)), d)).
  { unfold string_len_size, pre. subst nested. cbn [data_elem elem_len]. destruct (level =? 1) eqn:El; cbn [negb] in *.
    - unfold st_ret. rewrite HT1 by lia. done.
    - rewrite length_le_bytes. unfold U8_MAX in *.
      destruct (i_n it <=? 255) eqn:E8;
        (erewrite st_bind_ok by (apply peek_number; [exact Hh0|first [change (0 <= Z.of_nat (length s) < 256) | change (0 <= Z.of_nat (length s) < 65536)]; lia])); done. }
  unfold qmi_decode_string_elem. rewrite (st_bind_ok _ _ _ _ _ Hlen). cbn [data_elem elem_len elem_size]. rewrite Hsz.
  case_if; [lia|]. case_if; [lia|].
  destruct (decode_basic_ok inb (db + i_off it) (p + Z.of_nat (length pre)) (Z.of_nat (length s)) 1 s d)
    as (d1 & Hr1 & Hw1); try done; try lia; [destruct Hr; split; lia|].
  rewrite (st_bind_ok _ _ _ _ _ Hr1). pose proof (wrote_room _ _ _ _ _ _ Hw1 Hr) as [Hra Hrb].
  erewrite st_bind_ok by (apply store_ok; lia). rewrite s32_id by lia. eexists. split; [unfold st_ret; do 2 f_equal; lia|].
  pose proof (wrote_put d1 (db + i_off it + Z.of_nat (length s)) [0] ltac:(repeat constructor; lia)) as Hw2.
  pose proof (wrote_app _ _ _ _ _ _ Hw1 Hw2) as Hw12. split.
  - eapply wrote_touched; [exact Hw12|]. rewrite length_app. cbn. lia.
  - eapply cstr_written; [exact Hw12|exact Hch|exact Hs].
Qed.

(** The number of elements does not change when the data is written. *)
Lemma cnt_data_written nested d d' db it : item_wf nested it -> touched d d' db [(i_off it, extent it)] ->
  (forall o s, i_len it = Some (o, s) -> apart (i_off it, extent it) (o, 4) = true) -> cnt d' db it = cnt d db it.
Proof.
  intros Hw Ht Ha. destruct (i_len it) as [[o s]|] eqn:E.
  - destruct (cnt_len nested d db it o s Hw E) as (-> & _ & Hs & _).
    destruct (cnt_len nested d' db it o s Hw E) as (-> & _ ). apply le_load_agree. intros b Hb.
    apply (touched_apart d d' db [(i_off it, extent it)] (o, 4) b Ht).
    + intros r ->%list_elem_of_singleton. by eapply Ha.
    + cbn. destruct Hs as [-> | ->]; cbn in Hb; lia.
  - pose proof (iw_len _ _ Hw) as Hl. rewrite E in Hl. unfold cnt, count. by destruct (i_arr it).
Qed.

(** The step of the decoder on basic data, whatever its type. *)
Lemma decode_data_basic rec out inb level v e rest n : dec_ei v = e :: rest -> is_basic (data_type e) = true ->
  dec_data_len e (dec_len v) = Some n ->
  decode_data rec out inb level v =
    (let! rc := qmi_decode_basic_elem inb (out + elem_offset e) (buf_src v) n (elem_size e) in
     st_ret (inr (dec_update (DecVars (dec_ei v) n (buf_src v) (dec_tlv_len v) (decoded_bytes v)) rc))).
Proof.
  intros E Hb Hn. unfold decode_data, deref. rewrite E. unfold st_bind at 1, st_ret at 1. rewrite Hn.
  by destruct (data_type e).
Qed.

Section data.
Context (rec : option (list qmi_elem_info) -> Z -> Z -> Z -> Z -> ST mem Z) (src inb : mem) (sb db level : Z).
Context (nested : bool) (it : item) (Hok : item_ok nested it = true) (Hnest : nested = negb (level =? 1)).
Context (Hv : value_ok src sb it = true).
Context (Hrec : i_ty it = QMI_STRUCT -> dec_fields_ok rec src inb (i_size it) (level + 1) (i_fields it)).
Context (Hlev : 1 <= level).

Lemma structs_decoded p T d : i_ty it = QMI_STRUCT ->
  let bs := body src nested sb it in
  holds inb p bs -> Z.of_nat (length bs) <= T < 2 ^ 31 -> (level = 1 -> T = Z.of_nat (length bs)) ->
  room d (db + i_off it) (extent it) ->
  exists d', qmi_decode_struct_elem (fun d p l => rec (Some (table (i_fields it))) d p l (level + 1)) (data_elem it)
      (db + i_off it) p (cnt src sb it) T (level + 1) d = Ok (Z.of_nat (length bs), d') /\
    touched d d' db [(i_off it, extent it)] /\
    forall i, 0 <= i < cnt src sb it ->
      Forall (decoded_as src (sb + i_off it + i * i_size it) d' (db + i_off it + i * i_size it) true) (i_fields it).
Proof.
  intros Ht. cbv zeta. rewrite (body_struct _ _ _ _ Ht). intros Hh HT HT1 Hr. pose proof (item_ok_wf _ _ Hok) as Hw.
  destruct (value_ok_inv _ _ _ Hv) as (Hk & _ & Hval). destruct (cnt_max _ _ _ _ Hw Hk) as [Hk0 Hkm].
  destruct (iw_ty _ _ Hw) as [H|[(H & _)|(_ & Hne & Hfok & Hlay)]]; [by rewrite Ht in H|congruence|].
  pose proof (iw_size _ _ Hw) as Hsz. assert (Hx : extent it = max_count it * i_size it) by (unfold extent; by rewrite Ht).
  destruct (decode_structs_ok rec src inb (i_size it) (level + 1) (i_fields it) (Z.to_nat (cnt src sb it)) (Hrec Ht)
              Hne Hfok Hlay Hsz 0 (sb + i_off it) (db + i_off it) p T 0 d) as (d' & Hr' & Ht' & Hd');
    rewrite ?Z2Nat.id in * by lia; [lia|lia| |done|lia|].
  { intros i Hi. split; [apply Hval; [done|lia]|]. destruct Hr. split; nia. }
  exists d'. unfold qmi_decode_struct_elem. cbn [data_elem elem_size]. rewrite Z.mul_0_l, Z.add_0_r in Hr'.
  rewrite (st_bind_ok _ _ _ _ _ Hr'). rewrite !Z.add_0_l.
  set (bs := concat _) in *. split; [|split].
  - destruct (decide (level = 1)) as [E|E]; [rewrite (HT1 E) in *|]; case_if; try done; lia.
  - eapply touched_inside; [|eapply touched_shift; [reflexivity|]].
    2: { eapply (touched_inside _ _ _ _ 0 (cnt src sb it * i_size it)); [|exact Ht'].
         intros r ->%list_elem_of_singleton. cbn. lia. }
    intros r ->%list_elem_of_singleton. cbn. nia.
  - intros i Hi. apply Hd'. lia.
Qed.

(** The data was decoded when its bytes are there and its parts have values. *)
Lemma data_decoded_as d d' : touched d d' db [(i_off it, extent it)] ->
  (forall o s, i_len it = Some (o, s) -> apart (i_off it, extent it) (o, 4) = true) ->
  cnt d db it = cnt src sb it -> body d' nested db it = body src nested sb it ->
  (i_ty it = QMI_STRING -> cstr d' (db + i_off it) (Z.to_nat (i_n it)) = cstr src (sb + i_off it) (Z.to_nat (i_n it))) ->
  (i_ty it = QMI_STRUCT -> forall i, 0 <= i < cnt src sb it ->
     Forall (fun f => value_ok d' (db + i_off it + i * i_size it) f = true) (i_fields it)) ->
  decoded_as src sb d' db nested it.
Proof.
  intros Ht Hap Hcnt Hb Hs Hf. pose proof (item_ok_wf _ _ Hok) as Hw.
  destruct (value_ok_inv _ _ _ Hv) as (Hk & Hstr & _).
  pose proof (cnt_data_written nested d d' db it Hw Ht Hap) as Hc. rewrite Hcnt in Hc.
  split; [rewrite !payload_split, Hb; unfold len_part; by rewrite Hc|]. apply value_ok_spec. rewrite Hc.
  split; [done|]. split; [|done]. intros Hx. rewrite Hs by done. auto.
Qed.

Lemma fields_body d' : i_ty it = QMI_STRUCT -> cnt d' db it = cnt src sb it ->
  (forall i, 0 <= i < cnt src sb it ->
     Forall (decoded_as src (sb + i_off it + i * i_size it) d' (db + i_off it + i * i_size it) true) (i_fields it)) ->
  body d' nested db it = body src nested sb it.
Proof.
  intros Ht Hc Hd. rewrite !body_struct, Hc by done. f_equal. apply map_ext_in.
  intros i Hi%list_elem_of_In%elem_of_seqZ. unfold fields_bytes. f_equal. apply map_ext_in.
  intros f Hf%list_elem_of_In. specialize (Hd i ltac:(lia)). rewrite Forall_forall in Hd. by apply Hd.
Qed.

(** The data of an item, in a structure that already has the number of its elements. *)
Lemma data_decoded v rest d : dec_ei v = data_elem it :: rest ->
  (i_arr it = VAR_LEN_ARRAY -> dec_len v = cnt src sb it) ->
  let bs := body src nested sb it in
  holds inb (buf_src v) bs -> Z.of_nat (length bs) <= dec_tlv_len v < 2 ^ 31 ->
  (level = 1 -> dec_tlv_len v = Z.of_nat (length bs)) -> room d (db + i_off it) (extent it) ->
  (forall o s, i_len it = Some (o, s) -> apart (i_off it, extent it) (o, 4) = true) ->
  cnt d db it = cnt src sb it ->
  exists d', decode_data rec db inb level v d =
      Ok (inr (dec_update (DecVars (dec_ei v) (cnt src sb it) (buf_src v) (dec_tlv_len v) (decoded_bytes v))
                 (Z.of_nat (length bs))), d') /\
    touched d d' db [(i_off it, extent it)] /\ decoded_as src sb d' db nested it.
Proof.
  intros Ei Hvar bs Hh HT HT1 Hr Hap Hcnt. pose proof (item_ok_wf _ _ Hok) as Hw.
  destruct (value_ok_inv _ _ _ Hv) as (Hk & _). destruct (cnt_max _ _ _ _ Hw Hk) as [Hk0 Hkm].
  pose proof (dec_data_len_ok nested src sb it _ Hw Hk Hvar) as Hlen. pose proof (iw_size _ _ Hw) as Hsz.
  destruct (iw_ty _ _ Hw) as [Ht|[(Ht & _)|(Ht & _)]].
  - pose proof (extent_count _ _ _ _ Hw Hk ltac:(by intros E; rewrite E in Ht)) as Hx.
    rewrite (decode_data_basic _ _ _ _ _ _ _ _ Ei Ht Hlen). cbn [data_elem elem_offset elem_size].
    assert (Hbl : Z.of_nat (length bs) = cnt src sb it * i_size it)
      by (unfold bs; rewrite (body_basic _ _ _ _ Ht), length_bytes_at, Z2Nat.id by lia; done).
    destruct (decode_basic_ok inb (db + i_off it) (buf_src v) (cnt src sb it) (i_size it) bs d) as (d' & Hr' & Hw');
      [lia|lia|lia|done|done|destruct Hr; split; lia|].
    rewrite (st_bind_ok _ _ _ _ _ Hr'). exists d'. rewrite Hbl. split; [done|].
    assert (Htd : touched d d' db [(i_off it, extent it)]) by (eapply wrote_touched; [exact Hw'|lia]).
    split; [done|]. apply (data_decoded_as d); [done|done|done| |by intros E; rewrite E in Ht|by intros E; rewrite E in Ht].
    rewrite (body_basic _ _ _ _ Ht), (cnt_data_written nested d d' db it Hw Htd Hap), Hcnt.
    replace (Z.to_nat (cnt src sb it * i_size it)) with (length bs) by lia. apply Hw'.
  - destruct (string_decoded src sb inb db nested level it d (buf_src v) (dec_tlv_len v)) as (d' & Hr' & Ht' & Hs'); try done.
    exists d'. split; [|split; [done|]].
    + unfold decode_data, deref. rewrite Ei. unfold st_bind at 1, st_ret at 1. rewrite Hlen.
      change (data_type (data_elem it)) with (i_ty it). rewrite Ht. cbn [buf_src dec_tlv_len].
      change (elem_offset (data_elem it)) with (i_off it). rewrite (st_bind_ok _ _ _ _ _ Hr'). fold bs. case_if; [lia|done].
    + apply (data_decoded_as d); [done|done|done|rewrite !body_string by done; by rewrite Hs'|done|by rewrite Ht].
  - destruct (structs_decoded (buf_src v) (dec_tlv_len v) d Ht Hh HT HT1 Hr) as (d' & Hr' & Ht' & Hd').
    exists d'. split; [|split; [done|]].
    + unfold decode_data, deref. rewrite Ei. unfold st_bind at 1, st_ret at 1. rewrite Hlen.
      change (data_type (data_elem it)) with (i_ty it). rewrite Ht. cbn [buf_src dec_tlv_len].
      change (elem_offset (data_elem it)) with (i_off it).
      change (ei_array (data_elem it)) with (match i_ty it with QMI_STRUCT => Some (table (i_fields it)) | _ => None end).
      rewrite Ht. rewrite (st_bind_ok _ _ _ _ _ Hr'). fold bs. case_if; [lia|done].
    + apply (data_decoded_as d); [done|done|done| |by rewrite Ht|].
      * apply fields_body; [done| |done]. by rewrite (cnt_data_written nested d d' db it Hw Ht' Hap).
      * intros _ i Hi. eapply Forall_impl; [by apply Hd'|]. by intros f [_ ?].
Qed.
End data.

(** ** Decoding an item *)
Lemma len_decoded nested src sb inb db it o s v rest d : item_wf nested it -> i_len it = Some (o, s) ->
  dec_ei v = len_elem it o s :: rest -> holds inb (buf_src v) (len_part src sb it) ->
  0 <= dec_len v < 2 ^ (8 * s) -> room d (db + o) 4 -> 0 <= decoded_bytes v -> decoded_bytes v + s < 2 ^ 31 ->
  s <= dec_tlv_len v < 2 ^ 31 ->
  exists d', decode_len db inb v d =
      Ok (DecVars rest (cnt src sb it) (buf_src v + s) (dec_tlv_len v - s) (decoded_bytes v + s), d') /\
    touched d d' db [(o, 4)] /\ cnt d' db it = cnt src sb it.
Proof.
  intros Hw E Ei Hh Hl [Hr1 Hr2] He He2 HT. destruct (cnt_len nested src sb it o s Hw E) as (Hk & Hsn & Hs & _).
  unfold len_part in Hh. rewrite E in Hh. set (k := cnt src sb it) in *.
  assert (Hkr : 0 <= k < 2 ^ (8 * Z.of_nat (len_bytes s))) by (rewrite Hk; apply le_load_range).
  assert (Hp : 2 ^ (8 * Z.of_nat (len_bytes s)) <= 65536) by (destruct Hs as [-> | ->]; vm_compute; discriminate).
  assert (Hk4 : 0 <= k < 2 ^ 32) by lia.
  unfold decode_len, deref. rewrite Ei. unfold st_bind at 1, st_ret at 1.
  cbn [len_elem data_type elem_size elem_offset]. rewrite bool_decide_true by done.
  assert (Hsz : (if s =? 1 then 1 else 2) = s) by (destruct Hs as [-> | ->]; done). rewrite Hsz, <-Hsn.
  rewrite (st_bind_ok _ _ _ _ _ (peek_number inb _ _ k d Hh Hkr)).
  rewrite overlay_small by lia. erewrite st_bind_ok by (apply store_ok; lia).
  unfold dec_next, dec_update, st_ret. cbn [dec_ei dec_len buf_src dec_tlv_len decoded_bytes]. rewrite Ei, !u32_id by lia.
  eexists. split; [reflexivity|].
  split; [eapply wrote_touched; [apply wrote_store|done]|].
  destruct (cnt_len nested (wr32 d (db + o) k) db it o s Hw E) as (-> & _).
  apply le_load_bytes; [|done]. apply bytes_at_store. rewrite Hsn. destruct Hs as [-> | ->]; cbn; lia.
Qed.

(** The parts of an item without its flag. *)
Definition value_ranges (it : item) : list (Z * Z) :=
  match i_len it with Some (o, _) => [(o, 4)] | None => [] end ++ [(i_off it, extent it)].

Lemma ranges_eq it : ranges it = match i_opt it with Some o => [(o, 1)] | None => [] end ++ value_ranges it.
Proof. done. Qed.

Lemma value_ranges_in it r : r ∈ value_ranges it -> r ∈ ranges it.
Proof. rewrite ranges_eq, elem_of_app. auto. Qed.

(** The length and the data of an item. *)
Lemma value_decoded rec src inb sb db level nested it v rest d : item_ok nested it = true ->
  nested = negb (level =? 1) -> 1 <= level -> value_ok src sb it = true ->
  (i_ty it = QMI_STRUCT -> dec_fields_ok rec src inb (i_size it) (level + 1) (i_fields it)) ->
  all_apart (ranges it) = true -> (forall r, r ∈ ranges it -> room d (db + r.1) r.2) ->
  dec_ei v = match i_len it with Some (o, s) => [len_elem it o s] | None => [] end ++ data_elem it :: rest ->
  (forall o s, i_len it = Some (o, s) -> 0 <= dec_len v < 2 ^ (8 * s)) ->
  let bs := payload src nested sb it in
  holds inb (buf_src v) bs -> Z.of_nat (length bs) <= dec_tlv_len v < 2 ^ 31 ->
  (level = 1 -> dec_tlv_len v = Z.of_nat (length bs)) ->
  0 <= decoded_bytes v -> decoded_bytes v + Z.of_nat (length bs) < 2 ^ 31 ->
  exists T d', (let! v := decode_len db inb v in decode_data rec db inb level v) d =
      Ok (inr (DecVars (data_elem it :: rest) (cnt src sb it) (buf_src v + Z.of_nat (length bs)) T
                 (decoded_bytes v + Z.of_nat (length bs))), d') /\
    touched d d' db (value_ranges it) /\ decoded_as src sb d' db nested it.
Proof.
  intros Hok Hnest Hlv Hv Hrec Hap Hroom Ei Hfit. cbv zeta. rewrite payload_split, length_app. intros Hh HT HT1 He He2.
  pose proof (item_ok_wf _ _ Hok) as Hw. apply holds_app in Hh as [Hh0 Hh1].
  assert (Hin : forall r, r ∈ [(i_off it, extent it)] -> r ∈ value_ranges it)
    by (intros r Hr; apply elem_of_app; by right).
  pose proof (Hroom _ (data_range it)) as Hrd. cbn in Hrd.
  assert (Hla : forall o s, i_len it = Some (o, s) -> apart (i_off it, extent it) (o, 4) = true).
  { intros o s E. unfold ranges in Hap. rewrite E in Hap. apply all_apart_app in Hap as (_ & Hap & _).
    cbn [app all_apart forallb] in Hap. unfold apart in *. cbn in *. lia. }
  destruct (i_len it) as [[o s]|] eqn:E; cbn [app] in Ei.
  - destruct (cnt_len nested src sb it o s Hw E) as (_ & Hsn & Hs & _).
    assert (Hls : Z.of_nat (length (len_part src sb it)) = s)
      by (unfold len_part; rewrite E, length_le_bytes, Hsn; lia).
    pose proof (Hroom _ (len_range it o s E)) as Hrl. cbn in Hrl.
    destruct (len_decoded nested src sb inb db it o s v _ d Hw E Ei Hh0) as (d1 & Hr1 & Ht1 & Hc1);
      [by eapply Hfit|done|done|lia|lia|]. rewrite (st_bind_ok _ _ _ _ _ Hr1). rewrite Hls in Hh1.
    edestruct (data_decoded rec src inb sb db level nested it Hok Hnest Hv Hrec Hlv
      (DecVars (data_elem it :: rest) (cnt src sb it) (buf_src v + s) (dec_tlv_len v - s) (decoded_bytes v + s)))
      as (d2 & Hr2 & Ht2 & Hd2);
      [reflexivity|done|exact Hh1|cbn; lia|cbn; lia|by eapply touched_room|rewrite E; exact Hla|exact Hc1|].
    rewrite Hr2. cbn [dec_ei buf_src dec_tlv_len decoded_bytes dec_update dec_len]. unfold dec_update.
    cbn [dec_ei dec_len buf_src dec_tlv_len decoded_bytes]. rewrite u32_id by lia.
    eexists _, d2. split; [do 4 f_equal; lia|]. split; [|done].
    eapply touched_trans; (eapply touched_mono; [|eassumption]); [|done].
    intros r Hr. unfold value_ranges. rewrite E. apply elem_of_app. by left.
  - assert (Hl0 : len_part src sb it = []) by (unfold len_part; by rewrite E). rewrite Hl0 in *. cbn [length app] in *.
    rewrite Z.add_0_r in Hh1.
    assert (Hcd : cnt d db it = cnt src sb it)
      by (pose proof (iw_len _ _ Hw) as Hx; rewrite E in Hx; unfold cnt, count; by destruct (i_arr it)).
    assert (Hdl : decode_len db inb v d = Ok (v, d)).
    { unfold decode_len, deref. rewrite Ei. unfold st_bind, st_ret. rewrite bool_decide_false; [done|].
      cbn. intros Hx. destruct (iw_ty _ _ Hw) as [Hy|[(Hy & _)|(Hy & _)]]; by rewrite Hx in Hy. }
    rewrite (st_bind_ok _ _ _ _ _ Hdl).
    edestruct (data_decoded rec src inb sb db level nested it Hok Hnest Hv Hrec Hlv v) as (d2 & Hr2 & Ht2 & Hd2);
      [exact Ei| |exact Hh1|lia|lia|done|by rewrite E|exact Hcd|].
    { intros Ha. pose proof (iw_len _ _ Hw) as Hx. by rewrite E in Hx. }
    rewrite Hr2. unfold dec_update. cbn [dec_ei dec_len buf_src dec_tlv_len decoded_bytes]. rewrite u32_id by lia.
    rewrite Ei. eexists _, d2. split; [done|]. split; [|done]. by eapply touched_mono.
Qed.

(** ** Nested structures *)

(** The call of the decoder for a nested table. *)
Definition dec_rec (fuel : nat) (inb : mem) (sub : option (list qmi_elem_info)) (dst p len level : Z) : ST mem Z :=
  decode_loop fuel (default [] sub) inb dst len level (DecVars (default [] sub) 0 p 0 0).

(** The first descriptor of an item without a flag. *)
Lemma head_value nested it rest : item_wf nested it -> exists e l,
  match i_len it with Some (o, s) => [len_elem it o s] | None => [] end ++ data_elem it :: rest = e :: l /\
  data_type e <> QMI_EOTI /\ data_type e <> QMI_OPT_FLAG.
Proof.
  intros Hw. destruct (i_len it) as [[o s]|]; (eexists _, _; split; [reflexivity|]); cbn; [done|].
  destruct (iw_ty _ _ Hw) as [H|[(H & _)|(H & _)]]; split; intros E; by rewrite E in H.
Qed.

Lemma decode_step_nested fuel ei inb out L level v e rest d : 2 <= level -> decoded_bytes v < L < 2 ^ 31 ->
  0 <= decoded_bytes v -> dec_ei v = e :: rest -> data_type e <> QMI_EOTI -> data_type e <> QMI_OPT_FLAG ->
  decode_loop (S fuel) ei inb out L level v d =
    (let! r := (let! v := decode_len out inb (DecVars (dec_ei v) (dec_len v) (buf_src v) (L - decoded_bytes v)
                                               (decoded_bytes v)) in
                decode_data (dec_rec fuel inb) out inb level v) in
     match r with
     | inl rc => st_ret rc
     | inr v => decode_loop fuel ei inb out L level (dec_next v)
     end) d.
Proof.
  intros Hlv HL He Ei Hne Hno. cbn [decode_loop]. bool_true (decoded_bytes v <? L). cbn [negb].
  unfold at_end, deref. bool_true (level >=? 2). rewrite Ei. rewrite !st_bind_bind, !st_bind_ret.
  rewrite (bool_decide_false _ Hne). unfold decode_head. bool_false (level =? 1). rewrite st_bind_ret.
  unfold decode_flag, deref. cbn [dec_ei]. rewrite Ei, st_bind_bind, st_bind_ret.
  rewrite (bool_decide_false _ Hno), st_bind_ret, u32_id by lia. reflexivity.
Qed.

Definition dec_item_ok (it : item) : Prop := forall fuel src inb level, 2 <= level -> i_ty it = QMI_STRUCT ->
  (table_rounds (i_fields it) <= fuel)%nat -> Forall (fun f => item_ok true f = true) (i_fields it) ->
  layout_ok (i_size it) (i_fields it) = true ->
  dec_fields_ok (dec_rec fuel inb) src inb (i_size it) level (i_fields it).

(** The items of a table that can be decoded into a structure of [ssize] bytes. *)
Record can_decode (src : mem) (sb ssize : Z) (nested : bool) (it : item) : Prop := {
  cd_ok : item_ok nested it = true;
  cd_value : value_ok src sb it = true;
  cd_inside : forall r, r ∈ ranges it -> 0 <= r.1 /\ r.1 + r.2 <= ssize;
  cd_nested : dec_item_ok it;
}.

Lemma cd_rec src sb ssize nested it fuel inb level : can_decode src sb ssize nested it -> 2 <= level ->
  (table_rounds (i_fields it) <= fuel)%nat -> i_ty it = QMI_STRUCT ->
  dec_fields_ok (dec_rec fuel inb) src inb (i_size it) level (i_fields it).
Proof.
  intros Hc Hl Hf Ht. destruct (iw_ty _ _ (item_ok_wf _ _ (cd_ok _ _ _ _ _ Hc))) as [H|[(H & _)|(_ & _ & Hok & Hlay)]];
    [by rewrite Ht in H|congruence|]. by apply (cd_nested _ _ _ _ _ Hc).
Qed.

Lemma cd_room src sb ssize nested it d db : can_decode src sb ssize nested it -> room d db ssize ->
  forall r, r ∈ ranges it -> room d (db + r.1) r.2.
Proof. intros Hc [H1 H2] r Hr. destruct (cd_inside _ _ _ _ _ Hc r Hr). split; lia. Qed.

(** The length fields of the items hold the number [n]. *)
Definition len_fits (n : Z) (l : list item) : Prop :=
  forall it o s, it ∈ l -> i_len it = Some (o, s) -> 0 <= n < 2 ^ (8 * s).

Lemma lens_ok_fits it l n : lens_ok (it :: l) = true -> 0 <= n <= max_count it -> len_fits n (it :: l).
Proof.
  unfold lens_ok. rewrite forallb_Forall, Forall_forall. intros H Hn jt o s Hj E. specialize (H jt Hj).
  rewrite E, forallb_Forall, Forall_forall in H. specialize (H it ltac:(left)). cbn in H. lia.
Qed.

Lemma lens_ok_tail it l : lens_ok (it :: l) = true -> lens_ok l = true.
Proof.
  unfold lens_ok. rewrite !forallb_Forall, !Forall_forall. intros H jt Hj. specialize (H jt ltac:(by right)).
  destruct (i_len jt) as [[o s]|]; [|done]. rewrite forallb_Forall, Forall_forall in *. intros x Hx. apply H. by right.
Qed.

Lemma ranges_apart it l : all_apart (concat (map ranges (it :: l))) = true ->
  all_apart (ranges it) = true /\ all_apart (concat (map ranges l)) = true /\
  (forall d d' base, touched d d' base (concat (map ranges l)) -> same_on d d' base (ranges it)) /\
  (forall d d' base, touched d d' base (ranges it) -> forall jt, jt ∈ l -> same_on d d' base (ranges jt)).
Proof.
  cbn [map concat]. rewrite all_apart_app. intros (H1 & H2 & H3). split_and!; [done|done| |].
  - intros d d' base Ht r b Hr Hb. eapply touched_apart; [exact Ht| |exact Hb]. intros s Hs.
    specialize (H3 r s Hr Hs). unfold apart in *. lia.
  - intros d d' base Ht jt Hj r b Hr Hb. eapply touched_apart; [exact Ht| |exact Hb]. intros s Hs.
    apply H3; [done|]. apply elem_of_concat_map. by exists jt.
Qed.

Lemma touched_cons d d1 d2 base it l : touched d d1 base (ranges it) -> touched d1 d2 base (concat (map ranges l)) ->
  touched d d2 base (concat (map ranges (it :: l))).
Proof.
  intros H1 H2. cbn [map concat]. eapply touched_trans; (eapply touched_mono; [|eassumption]);
    intros r Hr; apply elem_of_app; auto.
Qed.

Lemma fields_decoded src inb sb db L level ssize ei : 2 <= level -> L < 2 ^ 31 -> forall l fuel v d,
  Forall (can_decode src sb ssize true) l -> all_apart (concat (map ranges l)) = true -> lens_ok l = true ->
  len_fits (dec_len v) l -> (table_rounds l <= fuel)%nat -> dec_ei v = table l ->
  let bs := fields_bytes src sb l in
  holds inb (buf_src v) bs -> 0 <= decoded_bytes v -> decoded_bytes v + Z.of_nat (length bs) <= L -> room d db ssize ->
  exists d', decode_loop fuel ei inb db L level v d = Ok (decoded_bytes v + Z.of_nat (length bs), d') /\
    touched d d' db (concat (map ranges l)) /\ Forall (decoded_as src sb d' db true) l.
Proof.
  intros Hlv HL. induction l as [|it l IH]; intros fuel v d Hc Hap Hlens Hfit Hf Ei bs Hh He HT Hr.
  { destruct fuel as [|fuel]; [unfold table_rounds in Hf; cbn in Hf; lia|]. cbn in HT. exists d.
    split; [|split; [apply touched_refl|constructor]]. cbn [decode_loop]. unfold at_end, deref. bool_true (level >=? 2).
    rewrite Ei. cbn [table map concat app]. case_if; [|rewrite st_bind_bind, !st_bind_ret, bool_decide_true by done];
      rewrite s32_id by lia; unfold st_ret; do 2 f_equal; cbn; lia. }
  apply Forall_cons in Hc as [Hci Hcl]. pose proof (cd_ok _ _ _ _ _ Hci) as Hok. pose proof (item_ok_wf _ _ Hok) as Hw.
  destruct (ranges_apart it l Hap) as (Hap1 & Hap2 & Hkeep & _). rewrite table_rounds_cons, rounds_eq in Hf.
  destruct fuel as [|f]; [lia|]. rewrite table_cons, elems_of_eq, (iw_opt _ _ Hw eq_refl), <-!app_assoc in Ei. cbn [app] in Ei.
  assert (Hbs : bs = payload src true sb it ++ fields_bytes src sb l) by done. clearbody bs. subst bs.
  rewrite length_app in *. apply holds_app in Hh as [Hh0 Hh1].
  pose proof (body_nested_nonempty src sb it Hw) as Hne. assert (Hpos : 0 < Z.of_nat (length (payload src true sb it)))
    by (destruct (payload src true sb it); [done|cbn; lia]).
  destruct (head_value true it (table l) Hw) as (e & rest & Eh & Hh1' & Hh2'). rewrite Eh in Ei.
  rewrite (decode_step_nested f ei inb db L level v e rest d) by (done || lia). rewrite Ei, <-Eh.
  destruct (value_decoded (dec_rec f inb) src inb sb db level true it
    (DecVars (match i_len it with Some (o, s) => [len_elem it o s] | None => [] end ++ data_elem it :: table l)
       (dec_len v) (buf_src v) (L - decoded_bytes v) (decoded_bytes v)) (table l) d) as (T & d1 & Hr1 & Ht1 & Hd1);
    cbn [dec_ei dec_len buf_src dec_tlv_len decoded_bytes]; try done; try lia.
  { apply (cd_value _ _ _ _ _ Hci). }
  { intros Ht. eapply cd_rec; eauto; lia. }
  { eapply cd_room; eauto. }
  { intros o s E. eapply Hfit; [left|exact E]. }
  rewrite (st_bind_ok _ _ _ _ _ Hr1). destruct (value_ok_inv _ _ _ (cd_value _ _ _ _ _ Hci)) as (Hk & _).
  edestruct (IH f (dec_next (DecVars (data_elem it :: table l) (cnt src sb it)
      (buf_src v + Z.of_nat (length (payload src true sb it))) T (decoded_bytes v + Z.of_nat (length (payload src true sb it)))))
    d1) as (d2 & Hr2 & Ht2 & Hd2); cbn [dec_next dec_ei dec_len buf_src decoded_bytes tail]; try done; try lia.
  { by eapply lens_ok_tail. }
  { intros jt o s Hj. apply (lens_ok_fits it l (cnt src sb it) Hlens (cnt_max _ _ _ _ Hw Hk)). by right. }
  { by eapply touched_room. }
  exists d2. rewrite Hr2. cbn [dec_next decoded_bytes]. split; [do 2 f_equal; lia|].
  split; [eapply touched_cons; [|exact Ht2]; eapply touched_mono; [|exact Ht1]; apply value_ranges_in|].
  constructor; [|done]. eapply decoded_kept; [done| |exact Hd1]. auto.
Qed.

Lemma all_items_decode it : dec_item_ok it.
Proof.
  induction it as [it IH] using item_induction. intros fuel src inb level Hlv Ht Hf Hok Hlay dst p sb len d Hv Hr bs Hh HL.
  unfold dec_rec. cbn [default from_option id].
  edestruct (fields_decoded src inb sb dst len level (i_size it) (table (i_fields it)) Hlv ltac:(lia) (i_fields it) fuel
    (DecVars (table (i_fields it)) 0 p 0 0) d) as (d' & Hr' & Ht' & Hd'); try done.
  - rewrite Forall_forall in *. intros f Hfi. constructor; [auto|auto| |auto]. intros r Hrr. by eapply layout_inside.
  - unfold layout_ok in Hlay. rewrite !andb_true_iff in Hlay. tauto.
  - unfold layout_ok in Hlay. rewrite !andb_true_iff in Hlay. tauto.
  - intros f o s Hfi E. cbn. rewrite Forall_forall in Hok. pose proof (iw_len _ _ (item_ok_wf _ _ (Hok f Hfi))) as Hl.
    rewrite E in Hl. destruct Hl as [_ [-> | ->]]; cbn; lia.
  - cbn [decoded_bytes]. fold bs. lia.
  - exists d'. split; [exact Hr'|]. split; [|done]. eapply touched_inside; [|exact Ht'].
    intros r (f & Hfi & Hrr)%elem_of_concat_map. destruct (layout_inside _ _ _ _ Hlay Hfi Hrr). lia.
Qed.

(** ** Whole messages *)
Lemma find_ei_item it rest t : item_wf false it -> 0 <= t < 256 ->
  find_ei (elems_of it ++ rest) t = if t =? i_tlv it then Ok (Some (elems_of it ++ rest)) else find_ei rest t.
Proof.
  intros Hw Ht. rewrite elems_of_eq. pose proof (item_not_eoti _ _ Hw) as Hne.
  assert (Hu : u8 t = t) by (unfold u8; apply Z.mod_small; lia).
  destruct (i_opt it), (i_len it) as [[]|]; cbn [app find_ei opt_elem len_elem data_elem data_type tlv_type];
    rewrite ?bool_decide_false by done; rewrite Hu, (Z.eqb_sym t); by destruct (i_tlv it =? t).
Qed.

Lemma find_ei_table it l : forall pre, Forall (item_wf false) (pre ++ it :: l) -> i_tlv it ∉ map i_tlv pre ->
  find_ei (table (pre ++ it :: l)) (i_tlv it) = Ok (Some (elems_of it ++ table l)).
Proof.
  induction pre as [|x pre IH]; intros Hw Hn; cbn [app] in *; apply Forall_cons in Hw as [Hx Hw]; rewrite table_cons.
  - rewrite find_ei_item by (try done; destruct (iw_tlv _ _ Hx); lia). by rewrite Z.eqb_refl.
  - apply Forall_app in Hw as Hw'. destruct Hw' as [_ Hi]. apply Forall_cons in Hi as [Hi _].
    rewrite find_ei_item by (try done; destruct (iw_tlv _ _ Hi); lia). cbn [map] in Hn.
    case_if; [exfalso; apply Hn, elem_of_cons; left; lia|]. apply IH; [done|]. intros Hx'. apply Hn. by right.
Qed.

Lemma decode_step_block fuel ei inb out L v tlv n suffix d : 0 <= decoded_bytes v -> decoded_bytes v + 3 <= L < 2 ^ 31 ->
  holds inb (buf_src v) (tlv :: le_bytes 2 n) -> 0 <= n < 65536 -> find_ei ei tlv = Ok (Some suffix) ->
  decode_loop (S fuel) ei inb out L 1 v d =
    (let! v := decode_flag out (DecVars suffix (dec_len v) (buf_src v + 3) n (decoded_bytes v + 3)) in
     let! r := (let! v := decode_len out inb v in decode_data (dec_rec fuel inb) out inb 1 v) in
     match r with
     | inl rc => st_ret rc
     | inr v => decode_loop fuel ei inb out L 1 (dec_next v)
     end) d.
Proof.
  intros He HL Hh Hn Hf. cbn [decode_loop]. bool_true (decoded_bytes v <? L). cbn [negb]. unfold at_end.
  change (1 >=? 2) with false. cbv iota. rewrite st_bind_ret. unfold decode_head. change (1 =? 1) with true. cbv iota.
  rewrite st_bind_bind, (st_bind_ok _ _ _ _ _ (get_tlv_ok inb _ tlv n d Hh Hn)). rewrite Hf.
  cbv zeta iota beta. rewrite st_bind_bind. erewrite st_bind_ok by reflexivity. cbv zeta iota beta. rewrite st_bind_ret.
  unfold TLV_TYPE_SIZE, TLV_LEN_SIZE. cbn [dec_ei dec_len buf_src decoded_bytes]. rewrite u32_id by lia.
  change (1 + 2) with 3. unfold st_bind. destruct (decode_flag _ _ _) as [[v1 d1]| |]; [|done|done].
  unfold dec_rec. by destruct (decode_len _ _ _ _) as [[]| |].
Qed.

Lemma flag_decoded nested it rest n p T e db d : item_wf nested it ->
  (forall o, i_opt it = Some o -> room d (db + o) 1) ->
  exists d', decode_flag db (DecVars (elems_of it ++ rest) n p T e) d =
      Ok (DecVars (match i_len it with Some (o, s) => [len_elem it o s] | None => [] end ++ data_elem it :: rest)
            n p T e, d') /\
    touched d d' db (match i_opt it with Some o => [(o, 1)] | None => [] end) /\
    present d' db it = true.
Proof.
  intros Hw Hr. rewrite elems_of_eq, <-!app_assoc. unfold decode_flag, deref. cbn [dec_ei].
  destruct (i_opt it) as [o|] eqn:E; cbn [app].
  - rewrite st_bind_ret. cbn [opt_elem data_type elem_offset]. rewrite bool_decide_true by done.
    destruct (Hr o eq_refl). erewrite st_bind_ok by (apply store_ok; lia). eexists. split; [reflexivity|].
    split; [eapply wrote_touched; [apply wrote_store|done]|]. unfold present. by rewrite E, get_byte_store_1.
  - destruct (head_value nested it rest Hw) as (x & l & Eh & _ & Hno). rewrite Eh, st_bind_ret.
    rewrite (bool_decide_false _ Hno). eexists. split; [reflexivity|]. split; [apply touched_refl|].
    unfold present. by rewrite E.
Qed.

Lemma present_kept d d' db it : same_on d d' db (ranges it) -> present d' db it = present d db it.
Proof.
  intros Hs. unfold present. destruct (i_opt it) as [o|] eqn:E; [|done].
  rewrite (Hs (o, 1)); [done|by apply opt_range|cbn; lia].
Qed.

Lemma block_decoded src sb d db it : present d db it = present src sb it ->
  (present src sb it = true -> decoded_as src sb d db false it) -> block d db it = block src sb it.
Proof. intros Hp Hd. unfold block. rewrite Hp. destruct (present src sb it); [|done]. by destruct Hd as [-> _]. Qed.

(** The block of an item tells whether it is present, and its contents. *)
Lemma block_inj m m' base base' it : block m base it = block m' base' it ->
  present m base it = present m' base' it /\
  (present m base it = true -> payload m false base it = payload m' false base' it).
Proof.
  unfold block. destruct (present m base it), (present m' base' it); intros H; try done. split; [done|]. intros _.
  apply (inj2 cons) in H as [_ H]. apply app_inj_1 in H as [_ H]; [done|]. by rewrite !length_le_bytes.
Qed.

(** The flag and the value of an item that is present. *)
Lemma item_decoded rec src inb sb db it rest n p T e d : item_ok false it = true -> value_ok src sb it = true ->
  (i_ty it = QMI_STRUCT -> dec_fields_ok rec src inb (i_size it) 2 (i_fields it)) ->
  all_apart (ranges it) = true -> (forall r, r ∈ ranges it -> room d (db + r.1) r.2) -> len_fits n [it] ->
  let bs := payload src false sb it in
  holds inb p bs -> T = Z.of_nat (length bs) -> 0 <= e -> e + Z.of_nat (length bs) < 2 ^ 31 ->
  exists T' d', (let! v := decode_flag db (DecVars (elems_of it ++ rest) n p T e) in
                 (let! v := decode_len db inb v in decode_data rec db inb 1 v)) d =
      Ok (inr (DecVars (data_elem it :: rest) (cnt src sb it) (p + Z.of_nat (length bs)) T' (e + Z.of_nat (length bs))), d') /\
    touched d d' db (ranges it) /\ present d' db it = true /\ decoded_as src sb d' db false it.
Proof.
  intros Hok Hv Hrec Hap Hroom Hfit bs Hh HT He He2. pose proof (item_ok_wf _ _ Hok) as Hw.
  destruct (flag_decoded false it rest n p T e db d Hw) as (d0 & Hr0 & Ht0 & Hp0).
  { intros o E. specialize (Hroom _ (opt_range it o E)). exact Hroom. }
  rewrite (st_bind_ok _ _ _ _ _ Hr0).
  edestruct (value_decoded rec src inb sb db 1 false it
    (DecVars (match i_len it with Some (o, s) => [len_elem it o s] | None => [] end ++ data_elem it :: rest) n p T e))
    as (T' & d1 & Hr1 & Ht1 & Hd1);
    [done|done|done|done|exact Hrec|done| |reflexivity| |exact Hh| | |exact He|done|].
  { intros r Hr. eapply touched_room; [exact Ht0|auto]. }
  { intros o s E. eapply Hfit; [left|exact E]. }
  { cbn [dec_tlv_len]. fold bs. lia. }
  { cbn [dec_tlv_len]. fold bs. lia. }
  exists T', d1. split; [exact Hr1|].
  assert (Hr01 : touched d d1 db (ranges it)).
  { eapply touched_trans; (eapply touched_mono; [|eassumption]); [|apply value_ranges_in].
    intros r Hr. rewrite ranges_eq. apply elem_of_app. by left. }
  split; [done|]. split; [|done]. unfold present in *. destruct (i_opt it) as [o|] eqn:E; [|done].
  rewrite (touched_apart _ _ _ _ (o, 1) _ Ht1); [done| |cbn; lia]. intros r Hr.
  rewrite ranges_eq, E in Hap. apply all_apart_app in Hap as (_ & _ & Hap). specialize (Hap (o, 1) r ltac:(left) Hr).
  unfold apart in *. cbn in *. lia.
Qed.

Section message.
Context (src inb : mem) (sb db L ssize : Z) (items : list item) (HL : L < 2 ^ 31).
Context (Hitems : Forall (item_wf false) items) (Hnd : NoDup (map i_tlv items)).

Lemma find_here pre it l : items = pre ++ it :: l ->
  find_ei (table items) (i_tlv it) = Ok (Some (elems_of it ++ table l)).
Proof.
  intros Hsplit. rewrite Hsplit. apply find_ei_table; [by rewrite <-Hsplit|].
  rewrite Hsplit, map_app in Hnd. cbn [map] in Hnd. apply NoDup_app in Hnd as (_ & Hx & _).
  intros Hin. apply (Hx _ Hin). left.
Qed.

Lemma blocks_end fuel v d ei : (0 < fuel)%nat -> decoded_bytes v = L -> 0 <= L ->
  decode_loop fuel ei inb db L 1 v d = Ok (L, d).
Proof.
  intros Hf E H0. destruct fuel as [|fuel]; [lia|]. cbn [decode_loop]. case_if; [|lia].
  rewrite s32_id by lia. unfold st_ret. by rewrite E.
Qed.

Lemma blocks_decoded l : forall pre fuel v d, items = pre ++ l -> Forall (can_send src sb ssize) l ->
  Forall (fun it => item_ok false it = true) l -> all_apart (concat (map ranges l)) = true -> lens_ok l = true ->
  len_fits (dec_len v) l -> (table_rounds l <= fuel)%nat -> holds inb (buf_src v) (wire src sb l) ->
  0 <= decoded_bytes v -> decoded_bytes v + Z.of_nat (length (wire src sb l)) = L -> room d db ssize ->
  (forall it o, it ∈ l -> i_opt it = Some o -> get_byte d (db + o) = 0) ->
  exists d', decode_loop fuel (table items) inb db L 1 v d = Ok (L, d') /\
    touched d d' db (concat (map ranges l)) /\ Forall (fun it => block d' db it = block src sb it) l.
Proof.
  induction l as [|it l IH]; intros pre fuel v d Hsplit Hs Hok Hap Hlens Hfit Hf Hh He HLe Hr Hz.
  { cbn in HLe. unfold table_rounds in Hf. exists d. split; [apply blocks_end; cbn in Hf; lia|].
    split; [apply touched_refl|constructor]. }
  apply Forall_cons in Hs as [Hsi Hs]. apply Forall_cons in Hok as [Hoki Hok].
  destruct (ranges_apart it l Hap) as (Hap1 & Hap2 & Hkeep & Hkeep'). pose proof (item_ok_wf _ _ Hoki) as Hw.
  rewrite table_rounds_cons, rounds_eq in Hf. rewrite wire_cons in *. rewrite length_app in HLe.
  assert (Hsplit' : items = (pre ++ [it]) ++ l) by (by rewrite <-app_assoc).
  destruct (present src sb it) eqn:Hp.
  - pose proof (cs_value _ _ _ _ Hsi Hp) as Hv. pose proof (cs_short _ _ _ _ Hsi Hp) as Hsh.
    assert (Hblk : block src sb it = (i_tlv it :: le_bytes 2 (Z.of_nat (length (payload src false sb it)))) ++ payload src false sb it)
      by (unfold block; by rewrite Hp). rewrite Hblk in *. set (n := Z.of_nat (length (payload src false sb it))) in *.
    apply holds_app in Hh as [[Hh0 Hh1]%holds_app Hh2]. rewrite length_app in *. cbn [length] in *. rewrite length_le_bytes in *.
    destruct fuel as [|f]; [lia|].
    rewrite (decode_step_block f (table items) inb db L v (i_tlv it) n _ d He ltac:(lia) Hh0 ltac:(lia)
               (find_here pre it l Hsplit)).
    destruct (item_decoded (dec_rec f inb) src inb sb db it (table l) (dec_len v) (buf_src v + 3) n (decoded_bytes v + 3) d)
      as (T' & d1 & Hr1 & Ht1 & Hp1 & Hd1); try done; try lia.
    { intros Ht. destruct (iw_ty _ _ Hw) as [H|[(H & _)|(_ & _ & Hfok & Hlay)]]; [by rewrite Ht in H|congruence|].
      apply all_items_decode; try done; lia. }
    { intros r Hrr. destruct (cs_inside _ _ _ _ Hsi r Hrr), Hr. split; lia. }
    { intros x o s Hx. apply list_elem_of_singleton in Hx as ->. eapply Hfit. left. }
    rewrite <-st_bind_bind, (st_bind_ok _ _ _ _ _ Hr1). destruct (value_ok_inv _ _ _ Hv) as (Hk & _).
    edestruct (IH (pre ++ [it]) f (dec_next (DecVars (data_elem it :: table l) (cnt src sb it) (buf_src v + 3 + n) T'
      (decoded_bytes v + 3 + n))) d1 Hsplit' Hs Hok Hap2) as (d2 & Hr2 & Ht2 & Hd2);
      cbn [dec_next dec_len buf_src decoded_bytes]; try lia.
    { by eapply lens_ok_tail. }
    { intros jt o s Hj. apply (lens_ok_fits it l (cnt src sb it) Hlens (cnt_max _ _ _ _ Hw Hk)). by right. }
    { replace (buf_src v + 3 + n) with (buf_src v + Z.of_nat (3 + length (payload src false sb it))) by lia. exact Hh2. }
    { by eapply touched_room. }
    { intros jt o Hj E. rewrite (Hkeep' d d1 db Ht1 jt Hj (o, 1)); [eapply Hz; [by right|done]|by apply opt_range|cbn; lia]. }
    exists d2. split; [exact Hr2|]. split; [by eapply touched_cons|]. constructor; [|done].
    specialize (Hkeep d1 d2 db Ht2). apply block_decoded; [by rewrite (present_kept d1 d2), Hp, Hp1|].
    intros _. by eapply decoded_kept.
  - assert (Hblk : block src sb it = []) by (unfold block; by rewrite Hp). rewrite Hblk in *. cbn [app length] in *.
    destruct (IH (pre ++ [it]) fuel v d Hsplit' Hs Hok Hap2) as (d2 & Hr2 & Ht2 & Hd2); try done; try lia.
    { by eapply lens_ok_tail. }
    { intros jt o s Hj. apply Hfit. by right. }
    { intros jt o Hj. apply Hz. by right. }
    exists d2. split; [exact Hr2|]. split; [eapply touched_cons; [apply touched_refl|exact Ht2]|]. constructor; [|done].
    destruct (absent_flag _ _ _ Hp) as (o & Eo & _). rewrite Hblk. unfold block.
    rewrite (present_kept d d2 db it (Hkeep d d2 db Ht2)). unfold present. rewrite Eo, (Hz it o ltac:(left) Eo). done.
Qed.
End message.

(** A structure whose presence flags are all clear. *)
Definition flags_clear (d : mem) (db : Z) (items : list item) : Prop :=
  forall it o, it ∈ items -> i_opt it = Some o -> get_byte d (db + o) = 0.

(** The decoder on the wire bytes of a structure. *)
Lemma wire_decoded fuel src sb ssize items inb p d db : schema_ok ssize items = true ->
  message_ok src sb items = true -> (table_rounds items <= fuel)%nat ->
  let bs := wire src sb items in
  holds inb p bs -> Z.of_nat (length bs) < 2 ^ 31 -> room d db ssize -> flags_clear d db items ->
  exists d', qmi_decode fuel inb (Some (table items)) db p (Z.of_nat (length bs)) 1 d = Ok (Z.of_nat (length bs), d') /\
    touched d d' db (concat (map ranges items)) /\ Forall (fun it => block d' db it = block src sb it) items.
Proof.
  intros Hsch Hmsg Hf bs Hh Hl Hr Hz. destruct (message_can_send src sb ssize items Hsch Hmsg) as [Hs Hnd].
  unfold schema_ok in Hsch. rewrite !andb_true_iff, forallb_Forall in Hsch. destruct Hsch as [[Hok Hlay] _].
  unfold layout_ok in Hlay. rewrite !andb_true_iff in Hlay. destruct Hlay as [[_ Hap] Hlens].
  destruct (blocks_decoded src inb sb db (Z.of_nat (length bs)) ssize items Hl
    ltac:(eapply Forall_impl; [exact Hok|]; intros; by apply item_ok_wf) Hnd items [] fuel (DecVars (table items) 0 p 0 0) d)
    as (d' & Hr' & Ht' & Hd'); try done.
  - intros it o s Hit E. rewrite Forall_forall in Hok. pose proof (iw_len _ _ (item_ok_wf _ _ (Hok it Hit))) as Hx.
    rewrite E in Hx. destruct Hx as [_ [-> | ->]]; cbn; lia.
  - by exists d'.
Qed.

(** Two structures have the same contents: the same items are present, with the same numbers
    of elements, the same bytes and the same strings, nested structures included. *)
Definition same_contents (m : mem) (base : Z) (m' : mem) (base' : Z) (items : list item) : Prop :=
  forall it, it ∈ items -> present m base it = present m' base' it /\
    (present m base it = true -> payload m false base it = payload m' false base' it).

Section header.
Context `{QmiHeader}.

(** The message of a structure: its header, followed by its wire bytes. *)
Lemma encode_message_carries fuel src sb ssize items type msg_id len txn_id :
  schema_ok ssize items = true -> message_ok src sb items = true -> room src sb ssize ->
  (table_rounds items <= fuel)%nat -> Z.of_nat (length (wire src sb items)) <= len < 2 ^ 31 ->
  let bs := wire src sb items in
  exists m', m_base m' = 0 /\ m_size m' = sizeof_qmi_header + len /\
    let msg := put_qmi_header type txn_id msg_id (Z.of_nat (length bs)) m' in
    qmi_encode_message fuel true src type msg_id len txn_id (Some (table items)) (Some sb) =
      Ok (inr (msg, sizeof_qmi_header + Z.of_nat (length bs))) /\ holds msg sizeof_qmi_header bs.
Proof.
  intros Hsch Hmsg Hroom Hf HL bs. pose proof header_size_range as Hhs. fold bs in HL.
  set (hs := sizeof_qmi_header) in *. set (m := Mem 0 (hs + len) ∅).
  destruct (encode_message_ok fuel src sb ssize items hs len m Hsch Hmsg Hroom Hf) as (m' & Hr1 & Hw);
    [lia|fold bs; lia|split; cbn; fold bs; lia|]. fold bs in Hr1, Hw.
  exists m'. split; [apply Hw|]. split; [apply Hw|]. split.
  - unfold qmi_encode_message. fold hs m. cbn [res_bind Z.eqb negb]. rewrite u32_id by lia. rewrite Hr1. cbn [res_bind].
    case_if; [lia|done].
  - destruct (header_window type txn_id msg_id (Z.of_nat (length bs)) m') as [Hb Hs]. split.
    + etrans; [|exact (w_bytes _ _ _ _ Hw)]. apply bytes_at_agree. intros b Hbb. apply header_frame.
      fold hs. rewrite (w_base _ _ _ _ Hw). cbn. lia.
    + unfold room. rewrite Hb, Hs, (w_base _ _ _ _ Hw), (w_size _ _ _ _ Hw). cbn. lia.
Qed.

Lemma decode_message_carried fuel src sb ssize items inb b d db :
  schema_ok ssize items = true -> message_ok src sb items = true -> (table_rounds items <= fuel)%nat ->
  let bs := wire src sb items in
  holds inb (b + sizeof_qmi_header) bs -> Z.of_nat (length bs) < 2 ^ 31 -> room d db ssize -> flags_clear d db items ->
  exists d', qmi_decode_message fuel inb (Some b) (sizeof_qmi_header + Z.of_nat (length bs)) (Some (table items)) (Some db) d =
      Ok (Z.of_nat (length bs), d') /\
    same_contents src sb d' db items /\ touched d d' db (concat (map ranges items)).
Proof.
  intros Hsch Hmsg Hf bs Hh HL Hrd Hz. pose proof header_size_range as Hhs.
  destruct (wire_decoded fuel src sb ssize items inb _ d db Hsch Hmsg Hf Hh) as (d' & Hr2 & Ht & Hwd); [done..|].
  exists d'. split; [|split; [|done]].
  - unfold qmi_decode_message. case_if; [lia|]. replace (sizeof_qmi_header + Z.of_nat (length bs) - sizeof_qmi_header)
      with (Z.of_nat (length bs)) by lia. rewrite u32_id by lia. exact Hr2.
  - intros it Hit. rewrite Forall_forall in Hwd. apply block_inj. symmetry. by apply Hwd.
Qed.

(** C18: decoding is the inverse of encoding. For the table of a well formed schema and a
    structure whose values fit it, with memory and a limit that holds the message,
    [qmi_encode_message] returns a message; [qmi_decode_message] accepts it, consumes all of
    it, and builds in a structure whose presence flags were clear the same contents, changing
    nothing but the parts of the items. *)
Theorem qmi_message_roundtrip fuel src sb ssize items type msg_id len txn_id d db :
  schema_ok ssize items = true -> message_ok src sb items = true -> room src sb ssize ->
  (table_rounds items <= fuel)%nat -> Z.of_nat (length (wire src sb items)) <= len < 2 ^ 31 ->
  room d db ssize -> flags_clear d db items ->
  exists msg n d', qmi_encode_message fuel true src type msg_id len txn_id (Some (table items)) (Some sb) = Ok (inr (msg, n)) /\
    qmi_decode_message fuel msg (Some 0) n (Some (table items)) (Some db) d = Ok (n - sizeof_qmi_header, d') /\
    same_contents src sb d' db items /\ touched d d' db (concat (map ranges items)).
Proof.
  intros Hsch Hmsg Hroom Hf HL Hrd Hz.
  destruct (encode_message_carries fuel src sb ssize items type msg_id len txn_id Hsch Hmsg Hroom Hf HL) as (m' & _ & _ & Hr1 & Hh).
  destruct (decode_message_carried fuel src sb ssize items _ 0 d db Hsch Hmsg Hf Hh ltac:(lia) Hrd Hz) as (d' & Hr2 & Hs & Ht).
  eexists _, _, d'. split; [exact Hr1|]. split; [|done].
  replace (sizeof_qmi_header + _ - sizeof_qmi_header) with (Z.of_nat (length (wire src sb items))) by lia. exact Hr2.
Qed.
End header.

(** ** Examples *)
Module QmiDemo.
(** A number, up to three structures of a number and a short string, an optional string. *)
Definition items : list item :=
  [Item 1 None None NO_ARRAY 1 4 0 QMI_UNSIGNED_4_BYTE [];
   Item 2 None (Some (4, 1)) VAR_LEN_ARRAY 3 6 8 QMI_STRUCT
     [Item 1 None None NO_ARRAY 1 2 0 QMI_UNSIGNED_2_BYTE []; Item 1 None None NO_ARRAY 4 1 2 QMI_STRING []];
   Item 16 (Some 26) None NO_ARRAY 6 1 27 QMI_STRING []].

Definition src : mem :=
  poke [(0, 4%nat, 0xdeadbeef); (4, 4%nat, 2); (8, 2%nat, 0x1234); (10, 1%nat, 65); (14, 2%nat, 0x5678);
        (26, 1%nat, 7); (27, 1%nat, 72); (28, 1%nat, 73)] (Mem 0 33 ∅).
Definition dst : mem := Mem 0 33 ∅.

(** A header of seven bytes with the fields one after the other. *)
Definition put_header (type txn msg len : Z) (m : mem) : mem :=
  le_store (le_store (le_store (le_store m (m_base m) 1 type) (m_base m + 1) 2 txn) (m_base m + 3) 2 msg)
    (m_base m + 5) 2 len.

Lemma put_header_window t i x n m :
  m_base (put_header t i x n m) = m_base m /\ m_size (put_header t i x n m) = m_size m.
Proof. unfold put_header. mem_frame. done. Qed.

Lemma put_header_frame t i x n m a : 7 <= a - m_base m -> get_byte (put_header t i x n m) a = get_byte m a.
Proof. intros Ha. unfold put_header. by rewrite !get_byte_store by lia. Qed.

Lemma size_range : 0 < 7 <= 64.
Proof. lia. Qed.

#[export] Instance header : QmiHeader := {|
  sizeof_qmi_header := 7; put_qmi_header := put_header; header_size_range := size_range;
  header_window := put_header_window; header_frame := put_header_frame
|}.

Lemma dst_clear : flags_clear dst 0 items.
Proof. intros it o _ _. reflexivity. Qed.
End QmiDemo.

Import QmiDemo.

Lemma qmi_message_roundtrip_witness : exists msg d',
  qmi_encode_message 40 true QmiDemo.src 0 0x21 64 1 (Some (table QmiDemo.items)) (Some 0) = Ok (inr (msg, 30)) /\
  qmi_decode_message 40 msg (Some 0) 30 (Some (table QmiDemo.items)) (Some 0) QmiDemo.dst = Ok (23, d') /\
  same_contents QmiDemo.src 0 d' 0 QmiDemo.items.
Proof.
  destruct (qmi_message_roundtrip 40 QmiDemo.src 0 33 QmiDemo.items 0 0x21 64 1 QmiDemo.dst 0)
    as (msg & n & d' & Hr & Hd & Hs & _).
  - vm_compute. reflexivity.
  - vm_compute. reflexivity.
  - split; vm_compute; discriminate.
  - vm_compute. lia.
  - split; vm_compute; [discriminate|reflexivity].
  - split; vm_compute; discriminate.
  - exact QmiDemo.dst_clear.
  - assert (Hn : n = 30) by (vm_compute in Hr; congruence). rewrite Hn in Hr, Hd.
    exists msg, d'. split; [exact Hr|]. split; [exact Hd|exact Hs].
Defined.

(** ** Where the code does not do what it means to *)

(** A nested string is checked against the space without the header of its block: with a
    limit equal to the length of the string and its count, the encoder writes past it. *)
Definition nested_string : list item :=
  [Item 1 None None NO_ARRAY 1 8 0 QMI_STRUCT [Item 1 None None NO_ARRAY 8 1 0 QMI_STRING []]].

Theorem nested_string_overruns :
  let src := poke [(0, 4%nat, 0x61616161)] (Mem 0 8 ∅) in
  length (wire src 0 nested_string) = 8%nat /\
  qmi_encode 20 src (Some (table nested_string)) 0 0 5 1 (Mem 0 5 ∅) = Fault /\
  exists m, qmi_encode 20 src (Some (table nested_string)) 0 0 5 1 (Mem 0 8 ∅) = Ok (8, m).
Proof. split; [reflexivity|]. split; [vm_compute; reflexivity|]. eexists. vm_compute. reflexivity. Qed.

(** And after that nothing is checked any more: the space left is computed without sign, so
    the string that follows passes every check. *)
Theorem string_after_overrun :
  let src := poke [(0, 4%nat, 0x61616161); (8, 4%nat, 0x62626262); (12, 4%nat, 0x62626262)] (Mem 0 32 ∅) in
  exists m, qmi_encode 20 src (Some (table (nested_string ++ [Item 2 None None NO_ARRAY 20 1 8 QMI_STRING []])))
    0 0 5 1 (Mem 0 32 ∅) = Ok (19, m).
Proof. eexists. vm_compute. reflexivity. Qed.

(** The decoder keeps the upper bytes of the last number of elements: after an array of 256
    elements a length of one byte is read as that much more, and the message is refused. *)
Definition long_array : list item :=
  [Item 1 None None STATIC_ARRAY 256 1 0 QMI_UNSIGNED_1_BYTE [];
   Item 2 None (Some (256, 1)) VAR_LEN_ARRAY 4 1 260 QMI_UNSIGNED_1_BYTE []].

Theorem stale_length_refused :
  let src := poke [(256, 4%nat, 1); (260, 1%nat, 9)] (Mem 0 264 ∅) in
  match qmi_encode 20 src (Some (table long_array)) 0 0 300 1 (Mem 0 300 ∅) with
  | Ok (n, m) => n = 264 /\
      match qmi_decode 20 m (Some (table long_array)) 0 0 264 1 (Mem 0 264 ∅) with
      | Ok (r, _) => r = - ETOOSMALL
      | _ => False
      end
  | _ => False
  end.
Proof. vm_compute. split; reflexivity. Qed.

(** A string that fills its array is encoded, and refused by the decoder. *)
Theorem full_string_refused :
  let items := [Item 1 None None NO_ARRAY 4 1 0 QMI_STRING []] in
  let src := poke [(0, 4%nat, 0x61616161)] (Mem 0 8 ∅) in
  exists m, qmi_encode 20 src (Some (table items)) 0 0 16 1 (Mem 0 16 ∅) = Ok (7, m) /\
  qmi_decode 20 m (Some (table items)) 0 0 7 1 (Mem 0 8 ∅) = Ok (- ETOOSMALL, Mem 0 8 ∅).
Proof. eexists. split; [vm_compute; reflexivity|]. vm_compute. reflexivity. Qed.

(** The length of a block is not compared with the message: a block that claims four bytes in
    a message of three is read past the end. *)
Theorem short_message_overread :
  let items := [Item 1 None None NO_ARRAY 1 4 0 QMI_UNSIGNED_4_BYTE []] in
  qmi_decode 20 (poke [(0, 1%nat, 1); (1, 2%nat, 4)] (Mem 0 3 ∅)) (Some (table items)) 0 0 3 1 (Mem 0 4 ∅) = Fault.
Proof. vm_compute. reflexivity. Qed.
