(* ===== verification/QrtrRouter.v ===== *)
(** * The message router (net/qrtr/qrtr.c)

    Endpoints carry packets to other processors, sockets are the local ports.  This file
    holds the data of the router, the packet header, local delivery, flow control, the
    transmit and receive paths and the endpoints; the socket calls are in [QrtrSocket]. *)
From S2P Require Import Prelude CMem QrtrNs.
Open Scope c_scope.

(** ** Constants *)
Definition QRTR_TYPE_DATA : Z := 1.
Definition QRTR_TYPE_DEL_PROC : Z := 13.
Definition QRTR_PROTO_VER_1 : Z := 1.
Definition QRTR_PROTO_VER_2 : Z := 3.
Definition QRTR_PORT_CTRL_LEGACY : Z := 0xffff.
Definition QRTR_EP_NID_AUTO : Z := u32 (-1).
Definition QRTR_DEL_PROC_MAGIC : Z := 0xe111.
Definition QRTR_TX_FLOW_HIGH : Z := 10.
Definition QRTR_TX_FLOW_LOW : Z := 5.
Definition QRTR_BACKUP_HI_NUM : nat := 5.
Definition QRTR_BACKUP_HI_SIZE : Z := 0x4000.
Definition QRTR_BACKUP_LO_NUM : nat := 20.
Definition QRTR_BACKUP_LO_SIZE : Z := 0x400.
Definition sizeof_hdr_v1 : Z := 32.
Definition sizeof_hdr_v2 : Z := 16.
Definition sizeof_ctrl_pkt : Z := 20.
Definition QRTR_FLAGS_CONFIRM_RX : Z := BIT 0.
Definition MSG_DONTWAIT : Z := 0x40.

(** ** Data *)
Record qrtr_cb := Cb {
  src_node : Z; src_port : Z; dst_node : Z; dst_port : Z; cb_type : Z; cb_confirm_rx : Z;
}.

(** A socket buffer: its owner, its control block and the bytes from [skb->data]. *)
Record sk_buff := Skb { skb_sk : option Z; skb_cb : qrtr_cb; skb_data : list Z }.

(** The state of a socket: [sk_zapped] is the flag [SOCK_ZAPPED], [sk_queue] the receive
    queue, [sk_refs] the reference count. *)
Record qrtr_sock := Sock {
  us : sockaddr_qrtr;
  peer : sockaddr_qrtr;
  sk_qstate : Z;
  sk_err : Z;
  sk_zapped : bool;
  sk_established : bool;
  sk_sndtimeo : Z;
  sk_queue : list sk_buff;
  sk_refs : Z;
}.

Record qrtr_tx_flow := Flow { pending : Z; tx_failed : Z; waiters : list Z }.

(** An endpoint node: [nd_ep] says that the endpoint is registered, [nd_read] and [nd_hello]
    that the work item is queued. *)
Record qrtr_node := Node {
  nd_ep : bool;
  nd_ref : Z;
  nd_nid : Z;
  nd_net_id : Z;
  hello_sent : Z;
  hello_rcvd : Z;
  tx_flows : gmap Z qrtr_tx_flow;
  rx_queue : list sk_buff;
  nd_read : bool;
  nd_hello : bool;
}.

(** What the rest of the kernel answers: memory, tree nodes, padding, the transport, the
    receive queue of a socket, user memory, the receive call, and the value of an
    uninitialised variable.  0 is success. *)
Inductive env_call := EAlloc | EInsert | EPad | EXmit | EQueue | ECopy | ERecv | EStack.

#[export] Instance env_call_eq : EqDecision env_call.
Proof. solve_decision. Defined.

(** What happened at the border of the router: a packet given to the transport of a node
    with the result, and a resume packet that reset a flow. *)
Inductive event :=
| Xmit (node : Z) (pkt : list Z) (rc : Z)
| Resumed (node key : Z).

Record router := Router {
  qrtr_local_nid : Z;
  qrtr_nodes : gmap Z Z;
  qrtr_all_epts : list Z;
  nodes : gmap Z qrtr_node;
  qrtr_ports : gmap Z Z;
  ports_next : Z;
  socks : gmap Z qrtr_sock;
  next_obj : Z;
  backup_lo : nat;
  backup_hi : nat;
  backup_work : bool;
  trace : list event;
  env : env_call -> list Z;
}.

Definition set_tree (t : gmap Z Z) (s : router) : router :=
  Router (qrtr_local_nid s) t (qrtr_all_epts s) (nodes s) (qrtr_ports s) (ports_next s) (socks s)
    (next_obj s) (backup_lo s) (backup_hi s) (backup_work s) (trace s) (env s).
Definition set_epts (l : list Z) (s : router) : router :=
  Router (qrtr_local_nid s) (qrtr_nodes s) l (nodes s) (qrtr_ports s) (ports_next s) (socks s)
    (next_obj s) (backup_lo s) (backup_hi s) (backup_work s) (trace s) (env s).
Definition set_nodes (n : gmap Z qrtr_node) (s : router) : router :=
  Router (qrtr_local_nid s) (qrtr_nodes s) (qrtr_all_epts s) n (qrtr_ports s) (ports_next s) (socks s)
    (next_obj s) (backup_lo s) (backup_hi s) (backup_work s) (trace s) (env s).
Definition set_ports (p : gmap Z Z) (next : Z) (s : router) : router :=
  Router (qrtr_local_nid s) (qrtr_nodes s) (qrtr_all_epts s) (nodes s) p next (socks s)
    (next_obj s) (backup_lo s) (backup_hi s) (backup_work s) (trace s) (env s).
Definition set_socks (m : gmap Z qrtr_sock) (s : router) : router :=
  Router (qrtr_local_nid s) (qrtr_nodes s) (qrtr_all_epts s) (nodes s) (qrtr_ports s) (ports_next s) m
    (next_obj s) (backup_lo s) (backup_hi s) (backup_work s) (trace s) (env s).
Definition set_next (n : Z) (s : router) : router :=
  Router (qrtr_local_nid s) (qrtr_nodes s) (qrtr_all_epts s) (nodes s) (qrtr_ports s) (ports_next s) (socks s)
    n (backup_lo s) (backup_hi s) (backup_work s) (trace s) (env s).
Definition set_backup (lo hi : nat) (w : bool) (s : router) : router :=
  Router (qrtr_local_nid s) (qrtr_nodes s) (qrtr_all_epts s) (nodes s) (qrtr_ports s) (ports_next s) (socks s)
    (next_obj s) lo hi w (trace s) (env s).
Definition log (e : event) (s : router) : router :=
  Router (qrtr_local_nid s) (qrtr_nodes s) (qrtr_all_epts s) (nodes s) (qrtr_ports s) (ports_next s) (socks s)
    (next_obj s) (backup_lo s) (backup_hi s) (backup_work s) (trace s ++ [e]) (env s).
Definition set_env (e : env_call -> list Z) (s : router) : router :=
  Router (qrtr_local_nid s) (qrtr_nodes s) (qrtr_all_epts s) (nodes s) (qrtr_ports s) (ports_next s) (socks s)
    (next_obj s) (backup_lo s) (backup_hi s) (backup_work s) (trace s) e.

(** The next answer of the rest of the kernel; after the given ones it always succeeds. *)
Definition ask (c : env_call) : ST router Z :=
  fun s => match env s c with
           | [] => Ok (0, s)
           | x :: l => Ok (x, set_env (fun c' => if decide (c' = c) then l else env s c') s)
           end.

(** ** Objects

    A node or a socket that was freed is not in its map: an access to it is a fault. *)
Definition node_of (a : Z) : ST router qrtr_node :=
  fun s => match nodes s !! a with Some n => Ok (n, s) | None => Fault end.
Definition put_node (a : Z) (n : qrtr_node) : ST router unit :=
  st_upd (fun s => set_nodes (<[a := n]> (nodes s)) s).
Definition upd_node (a : Z) (f : qrtr_node -> qrtr_node) : ST router unit :=
  let! n := node_of a in put_node a (f n).

Definition sock_of (i : Z) : ST router qrtr_sock :=
  fun s => match socks s !! i with Some k => Ok (k, s) | None => Fault end.
Definition put_sock (i : Z) (k : qrtr_sock) : ST router unit :=
  st_upd (fun s => set_socks (<[i := k]> (socks s)) s).
Definition upd_sock (i : Z) (f : qrtr_sock -> qrtr_sock) : ST router unit :=
  let! k := sock_of i in put_sock i (f k).

Definition with_ref (r : Z) (n : qrtr_node) : qrtr_node :=
  Node (nd_ep n) r (nd_nid n) (nd_net_id n) (hello_sent n) (hello_rcvd n) (tx_flows n) (rx_queue n) (nd_read n) (nd_hello n).
Definition with_nid (i : Z) (n : qrtr_node) : qrtr_node :=
  Node (nd_ep n) (nd_ref n) i (nd_net_id n) (hello_sent n) (hello_rcvd n) (tx_flows n) (rx_queue n) (nd_read n) (nd_hello n).
Definition with_ep (e : bool) (n : qrtr_node) : qrtr_node :=
  Node e (nd_ref n) (nd_nid n) (nd_net_id n) (hello_sent n) (hello_rcvd n) (tx_flows n) (rx_queue n) (nd_read n) (nd_hello n).
Definition with_hello (s r : Z) (n : qrtr_node) : qrtr_node :=
  Node (nd_ep n) (nd_ref n) (nd_nid n) (nd_net_id n) s r (tx_flows n) (rx_queue n) (nd_read n) (nd_hello n).
Definition with_flows (m : gmap Z qrtr_tx_flow) (n : qrtr_node) : qrtr_node :=
  Node (nd_ep n) (nd_ref n) (nd_nid n) (nd_net_id n) (hello_sent n) (hello_rcvd n) m (rx_queue n) (nd_read n) (nd_hello n).
Definition with_rx (q : list sk_buff) (read hello : bool) (n : qrtr_node) : qrtr_node :=
  Node (nd_ep n) (nd_ref n) (nd_nid n) (nd_net_id n) (hello_sent n) (hello_rcvd n) (tx_flows n) q read hello.

Definition with_refs (r : Z) (k : qrtr_sock) : qrtr_sock :=
  Sock (us k) (peer k) (sk_qstate k) (sk_err k) (sk_zapped k) (sk_established k) (sk_sndtimeo k) (sk_queue k) r.
Definition with_queue (q : list sk_buff) (k : qrtr_sock) : qrtr_sock :=
  Sock (us k) (peer k) (sk_qstate k) (sk_err k) (sk_zapped k) (sk_established k) (sk_sndtimeo k) q (sk_refs k).
Definition with_err (e : Z) (k : qrtr_sock) : qrtr_sock :=
  Sock (us k) (peer k) (sk_qstate k) e (sk_zapped k) (sk_established k) (sk_sndtimeo k) (sk_queue k) (sk_refs k).
Definition with_qstate (v : Z) (k : qrtr_sock) : qrtr_sock :=
  Sock (us k) (peer k) v (sk_err k) (sk_zapped k) (sk_established k) (sk_sndtimeo k) (sk_queue k) (sk_refs k).
Definition with_bound (port : Z) (k : qrtr_sock) : qrtr_sock :=
  Sock (Sockaddr (sq_node (us k)) port) (peer k) (sk_qstate k) (sk_err k) false (sk_established k) (sk_sndtimeo k) (sk_queue k) (sk_refs k).
Definition with_peer (p : sockaddr_qrtr) (e : bool) (k : qrtr_sock) : qrtr_sock :=
  Sock (us k) p (sk_qstate k) (sk_err k) (sk_zapped k) e (sk_sndtimeo k) (sk_queue k) (sk_refs k).

(** ** References of sockets *)
Definition sock_hold (i : Z) : ST router unit := upd_sock i (fun k => with_refs (sk_refs k + 1) k).

(** The last reference frees the socket. *)
Definition sock_put (i : Z) : ST router unit :=
  let! k := sock_of i in
  if sk_refs k =? 1 then st_upd (fun s => set_socks (delete i (socks s)) s)
  else put_sock i (with_refs (sk_refs k - 1) k).

(** ** Bytes *)
Definition lift {A} (r : res A) : ST router A :=
  fun s => match r with Ok a => Ok (a, s) | Fault => Fault | Loop => Loop end.

(** [skb_copy_bits(skb, 0, &pkt, sizeof(pkt))] into a zeroed packet: a short buffer copies nothing. *)
Definition copy_pkt (b : list Z) : qrtr_ctrl_pkt :=
  if Z.of_nat (length b) <? sizeof_ctrl_pkt then Pkt 0 0 0 0 0 else pkt_at b.

(** struct qrtr_hdr_v1 as [qrtr_node_enqueue] fills it. *)
Definition hdr_v1 (type : Z) (from : sockaddr_qrtr) (confirm_rx size dst_node dst_port : Z) : list Z :=
  le_bytes 4 QRTR_PROTO_VER_1 ++ le_bytes 4 type ++ le_bytes 4 (sq_node from) ++
  le_bytes 4 (sq_port from) ++ le_bytes 4 confirm_rx ++ le_bytes 4 size ++
  le_bytes 4 dst_node ++ le_bytes 4 dst_port.

(** A value with the low two bits rounded up, in [size_t] and in 32 bits. *)
Definition ALIGN32 (x a : Z) : Z := Z.land (u32 (x + u32 (a - 1))) (u32 (Z.lnot (u32 (a - 1)))).

(** Allocation of the buffer of a control packet; the caller fills in the words. *)
Definition qrtr_alloc_ctrl_packet : ST router bool := let! r := ask EAlloc in st_ret (r =? 0).

Definition cb0 : qrtr_cb := Cb 0 0 0 0 0 0.
Definition ctrl_skb (p : qrtr_ctrl_pkt) : sk_buff := Skb None cb0 (pkt_bytes p).

(** ** Ports *)

(** The key of a port in [qrtr_ports]. *)
Definition port_key (port : Z) : Z := if port =? QRTR_PORT_CTRL then 0 else port.

Definition qrtr_port_lookup (port : Z) : ST router (option Z) :=
  let! ipc := st_get (fun s => qrtr_ports s !! port_key port) in
  match ipc with
  | Some i => sock_hold i ;;; st_ret (Some i)
  | None => st_ret None
  end.

Definition qrtr_port_put (i : Z) : ST router unit := sock_put i.

(** [sock_queue_rcv_skb]: the answer, and on success the buffer belongs to the socket. *)
Definition sock_queue_rcv_skb (i : Z) (skb : sk_buff) : ST router Z :=
  let! rc := ask EQueue in
  (if rc =? 0 then upd_sock i (fun k => with_queue (sk_queue k ++ [Skb (Some i) (skb_cb skb) (skb_data skb)]) k)
   else st_ret tt) ;;;
  st_ret rc.

(** [sk && sk->sk_err == ENETRESET] *)
Definition sk_reset (sk : option Z) : ST router bool :=
  match sk with
  | None => st_ret false
  | Some i => let! k := sock_of i in st_ret (sk_err k =? ENETRESET)
  end.

Definition cb_from (from : sockaddr_qrtr) (cb : qrtr_cb) : qrtr_cb :=
  Cb (sq_node from) (sq_port from) (dst_node cb) (dst_port cb) (cb_type cb) (cb_confirm_rx cb).

Definition qrtr_local_enqueue (skb : sk_buff) (from to : sockaddr_qrtr) : ST router Z :=
  let! ipc := qrtr_port_lookup (sq_port to) in
  match ipc with
  | None => st_ret (if sq_port to =? QRTR_PORT_CTRL then 0 else - ENODEV)
  | Some i =>
    if bool_decide (skb_sk skb = Some i) then st_ret (- ENODEV) else
    let! reset := sk_reset (skb_sk skb) in
    if reset then
      match skb_sk skb with
      | Some sk => sock_hold sk ;;; upd_sock sk (with_err ENETRESET) ;;; sock_put sk ;;; st_ret 0
      | None => st_ret 0
      end
    else
      let! rc := sock_queue_rcv_skb i (Skb (skb_sk skb) (cb_from from (skb_cb skb)) (skb_data skb)) in
      qrtr_port_put i ;;;
      st_ret (if rc =? 0 then 0 else - ENOSPC)
  end.

(** ** Nodes *)
Definition qrtr_node_acquire (a : Z) : ST router unit := upd_node a (fun n => with_ref (nd_ref n + 1) n).

(** The references the waiters of the flows hold. *)
Fixpoint put_waiters (l : list Z) : ST router unit :=
  match l with
  | [] => st_ret tt
  | i :: l => sock_put i ;;; put_waiters l
  end.

Fixpoint free_flows (m : gmap Z qrtr_tx_flow) (l : list Z) : ST router unit :=
  match l with
  | [] => st_ret tt
  | k :: l => (match m !! k with Some f => put_waiters (waiters f) | None => st_ret tt end) ;;; free_flows m l
  end.

Definition __qrtr_node_release (a : Z) : ST router unit :=
  let! n := node_of a in
  (if negb (nd_nid n =? QRTR_EP_NID_AUTO)
   then st_upd (fun s => set_tree (filter (fun kv => kv.2 <> a) (qrtr_nodes s)) s) else st_ret tt) ;;;
  st_upd (fun s => set_epts (filter (.≠ a) (qrtr_all_epts s)) s) ;;;
  free_flows (tx_flows n) (xa_indices (tx_flows n)) ;;;
  st_upd (fun s => set_nodes (delete a (nodes s)) s).

Definition qrtr_node_release (node : option Z) : ST router unit :=
  match node with
  | None => st_ret tt
  | Some a =>
    let! n := node_of a in
    upd_node a (fun n => with_ref (nd_ref n - 1) n) ;;;
    if nd_ref n =? 1 then __qrtr_node_release a else st_ret tt
  end.

Definition qrtr_node_lookup (nid : Z) : ST router (option Z) :=
  let! node := st_get (fun s => qrtr_nodes s !! nid) in
  match node with
  | Some a => qrtr_node_acquire a ;;; st_ret (Some a)
  | None => st_ret None
  end.

Definition qrtr_node_assign (a nid : Z) : ST router unit :=
  let! n := node_of a in
  if (nid =? nd_nid n) || (nid =? QRTR_EP_NID_AUTO) then st_ret tt else
  let! found := st_get (fun s => qrtr_nodes s !! nid) in
  (match found with
   | Some _ => st_ret tt
   | None => let! rc := ask EInsert in
             if rc =? 0 then st_upd (fun s => set_tree (<[nid := a]> (qrtr_nodes s)) s) else st_ret tt
   end) ;;;
  if nd_nid n =? QRTR_EP_NID_AUTO then upd_node a (with_nid nid) else st_ret tt.

(** ** Flow control *)

(** [(u64)node << 32 | port] on unsigned values. *)
Definition flow_key (node port : Z) : Z := Z.lor (Z.shiftl (u32 node) 32) (u32 port).

(** The same expression in [qrtr_tx_flow_failed], whose arguments are [int]. *)
Definition failed_key (dest_node dest_port : Z) : Z :=
  u64 (Z.lor (Z.shiftl (u64 (s32 dest_node)) 32) (s32 dest_port)).

Definition set_flow (a key : Z) (f : qrtr_tx_flow) : ST router unit :=
  upd_node a (fun n => with_flows (<[key := f]> (tx_flows n)) n).

Definition flow_of (a key : Z) : ST router qrtr_tx_flow :=
  let! n := node_of a in
  match tx_flows n !! key with Some f => st_ret f | None => fun _ => Fault end.

(** The waiters of a flow are told that it resumed. *)
Fixpoint resume_waiters (src : sockaddr_qrtr) (l : list Z) : ST router unit :=
  match l with
  | [] => st_ret tt
  | i :: l =>
    let! rc := ask EAlloc in
    (if rc =? 0 then
       let! k := sock_of i in
       qrtr_local_enqueue (Skb None cb0 []) src (us k) ;;; st_ret tt
     else st_ret tt) ;;;
    sock_put i ;;;
    resume_waiters src l
  end.

Definition qrtr_tx_resume (a : Z) (skb : sk_buff) : ST router unit :=
  let pkt := copy_pkt (skb_data skb) in
  if negb (p_cmd pkt =? QRTR_TYPE_RESUME_TX) then st_ret tt else
  let src := Sockaddr (client_node pkt) (client_port pkt) in
  let key := flow_key (sq_node src) (sq_port src) in
  let! n := node_of a in
  match tx_flows n !! key with
  | None => st_ret tt
  | Some f =>
    set_flow a key (Flow 0 (tx_failed f) []) ;;;
    st_upd (log (Resumed a key)) ;;;
    resume_waiters src (waiters f)
  end.

(** One look at the flow under the lock: [None] when the sender has to wait. *)
Definition tx_try (f : qrtr_tx_flow) : option (Z * qrtr_tx_flow) :=
  if negb (tx_failed f =? 0) then Some (1, Flow (pending f) 0 (waiters f)) else
  if pending f <? QRTR_TX_FLOW_HIGH then
    Some (if pending f + 1 =? QRTR_TX_FLOW_LOW then 1 else 0, Flow (pending f + 1) (tx_failed f) (waiters f))
  else None.

Definition tx_add_waiter (a key sk : Z) (f : qrtr_tx_flow) : ST router Z :=
  if bool_decide (sk ∈ waiters f) then st_ret (- EAGAIN) else
  let! rc := ask EAlloc in
  if negb (rc =? 0) then st_ret (- ENOMEM) else
  sock_hold sk ;;;
  set_flow a key (Flow (pending f) (tx_failed f) (waiters f ++ [sk])) ;;;
  st_ret (- EAGAIN).

Section wait.
(** What the rest of the system does while a sender waits for a resume packet, and the
    result of the wait: negative when interrupted, 0 after the timeout. *)
Context (wait_resume : ST router Z).

Fixpoint tx_wait_loop (fuel : nat) (a key sk ret : Z) : ST router Z :=
  match fuel with
  | O => fun _ => Loop
  | S fuel =>
    let! f := flow_of a key in
    match tx_try f with
    | Some (confirm_rx, f) => set_flow a key f ;;; st_ret confirm_rx
    | None =>
      if ret =? 0 then tx_add_waiter a key sk f else
      let! ret := wait_resume in
      if ret <? 0 then st_ret ret else
      let! n := node_of a in
      if negb (nd_ep n) then st_ret (- EPIPE) else tx_wait_loop fuel a key sk ret
    end
  end.

(** The flow of the destination: [None] when there is no memory for it, [Some false] when it
    could not be stored in the tree. *)
Definition tx_flow_get (a key : Z) : ST router (option bool) :=
  let! n := node_of a in
  match tx_flows n !! key with
  | Some _ => st_ret (Some true)
  | None =>
    let! rc := ask EAlloc in
    if negb (rc =? 0) then st_ret None else
    let! rc := ask EInsert in
    if rc =? 0 then set_flow a key (Flow 0 0 []) ;;; st_ret (Some true) else st_ret (Some false)
  end.

Definition qrtr_tx_wait (fuel : nat) (a : Z) (to : sockaddr_qrtr) (sk type flags : Z) : ST router Z :=
  if negb (type =? QRTR_TYPE_DATA) then st_ret 0 else
  let! k := sock_of sk in
  let timeo := if Z.land flags MSG_DONTWAIT =? 0 then sk_sndtimeo k else 0 in
  let key := flow_key (sq_node to) (sq_port to) in
  let! flow := tx_flow_get a key in
  match flow with
  | None => st_ret 1
  | Some false => match tx_try (Flow 0 0 []) with Some (c, _) => st_ret c | None => st_ret 0 end
  | Some true => tx_wait_loop fuel a key sk timeo
  end.

Definition qrtr_tx_flow_failed (a dest_node dest_port : Z) : ST router unit :=
  let key := failed_key dest_node dest_port in
  let! n := node_of a in
  match tx_flows n !! key with
  | Some f => set_flow a key (Flow (pending f) 1 (waiters f))
  | None => st_ret tt
  end.

(** ** Transmission *)

(** The packet with its padding, or [None] when there is no memory to pad it. *)
Definition skb_put_padto (b : list Z) (len : Z) : ST router (option (list Z)) :=
  let size := Z.of_nat (length b) in
  if size <? len then
    let! rc := ask EPad in
    st_ret (if rc =? 0 then Some (b ++ replicate (Z.to_nat (len - size)) 0) else None)
  else st_ret (Some b).

(** [node->ep->xmit], or nothing without an endpoint: the result is then the one of the padding. *)
Definition node_xmit (a : Z) (b : list Z) : ST router Z :=
  let! n := node_of a in
  if nd_ep n then let! rc := ask EXmit in st_upd (log (Xmit a b rc)) ;;; st_ret rc
  else st_ret 0.

Definition qrtr_node_enqueue (fuel : nat) (a : Z) (skb : sk_buff) (type : Z) (from to : sockaddr_qrtr)
    (flags : Z) : ST router Z :=
  let len := Z.of_nat (length (skb_data skb)) in
  let! n := node_of a in
  if (hello_sent n =? 0) && negb (type =? QRTR_TYPE_HELLO) then st_ret (- ENODEV) else
  if negb (hello_sent n =? 0) && (type =? QRTR_TYPE_HELLO) then st_ret 0 else
  let! confirm_rx :=
    match skb_sk skb with
    | None => st_ret (cb_confirm_rx (skb_cb skb))
    | Some sk => qrtr_tx_wait fuel a to sk type flags
    end in
  if confirm_rx <? 0 then st_ret confirm_rx else
  let! n := node_of a in
  let dst := if sq_node to =? QRTR_NODE_BCAST then nd_nid n else sq_node to in
  let hdr := hdr_v1 type from (if confirm_rx =? 0 then 0 else 1) len dst (sq_port to) in
  let! padded := skb_put_padto (hdr ++ skb_data skb) (ALIGN len 4 + sizeof_hdr_v1) in
  match padded with
  | None => st_ret (- ENOMEM)
  | Some b =>
    let! rc := node_xmit a b in
    (if negb (rc =? 0) && negb (confirm_rx =? 0) then qrtr_tx_flow_failed a (sq_node to) (sq_port to)
     else st_ret tt) ;;;
    (if (rc =? 0) && (type =? QRTR_TYPE_HELLO)
     then upd_node a (fun n => with_hello (hello_sent n + 1) (hello_rcvd n) n) else st_ret tt) ;;;
    st_ret rc
  end.

(** ** Reception *)
Definition qrtr_peek_pkt_size (data : list Z) : res Z :=
  res_bind (field 1 data 0) (fun ver =>
  if ver =? QRTR_PROTO_VER_1 then
    res_bind (field 4 data 20) (fun size => Ok (s32 (ALIGN32 size 4 + sizeof_hdr_v1)))
  else if ver =? QRTR_PROTO_VER_2 then
    res_bind (field 1 data 3) (fun optlen =>
    res_bind (field 4 data 4) (fun size => Ok (s32 (ALIGN32 size 4 + (sizeof_hdr_v2 + optlen)))))
  else Ok (- EINVAL)).

(** A pool is filled while there is memory. *)
Fixpoint alloc_pool (fuel have want : nat) : ST router nat :=
  match fuel with
  | O => st_ret have
  | S fuel =>
    if (have <? want)%nat then
      let! rc := ask EAlloc in
      if rc =? 0 then alloc_pool fuel (S have) want else st_ret have
    else st_ret have
  end.

Definition qrtr_alloc_backup : ST router unit :=
  let! lo := st_get backup_lo in
  let! lo := alloc_pool QRTR_BACKUP_LO_NUM lo QRTR_BACKUP_LO_NUM in
  let! hi := st_get backup_hi in
  let! hi := alloc_pool QRTR_BACKUP_HI_NUM hi QRTR_BACKUP_HI_NUM in
  st_upd (set_backup lo hi false).

Definition qrtr_get_backup (len : Z) : ST router bool :=
  let! lo := st_get backup_lo in
  let! hi := st_get backup_hi in
  if len <? QRTR_BACKUP_LO_SIZE then
    match lo with O => st_ret false | S lo => st_upd (set_backup lo hi true) ;;; st_ret true end
  else if len <? QRTR_BACKUP_HI_SIZE then
    match hi with O => st_ret false | S hi => st_upd (set_backup lo hi true) ;;; st_ret true end
  else st_ret false.

Definition qrtr_backup_init : ST router unit := st_upd (set_backup 0 0 true).
Definition qrtr_backup_deinit : ST router unit := st_upd (set_backup 0 0 false).

Definition ctrl_port16 (p : Z) : Z := if p =? u16 QRTR_PORT_CTRL then QRTR_PORT_CTRL else p.

(** The header of received data: the control block, the size and the header length, or
    [None] for the error exit. *)
Definition parse_v1 (data : list Z) : res (option (qrtr_cb * Z * Z)) :=
  if Z.of_nat (length data) <? sizeof_hdr_v1 then Ok None else
  res_bind (field 4 data 4) (fun type =>
  res_bind (field 4 data 8) (fun sn =>
  res_bind (field 4 data 12) (fun sp =>
  res_bind (field 4 data 16) (fun confirm =>
  res_bind (field 4 data 20) (fun size =>
  res_bind (field 4 data 24) (fun dn =>
  res_bind (field 4 data 28) (fun dp =>
  Ok (Some (Cb sn sp dn dp (u8 type) (if confirm =? 0 then 0 else 1), size, sizeof_hdr_v1))))))))).

Definition parse_v2 (data : list Z) : res (option (qrtr_cb * Z * Z)) :=
  if Z.of_nat (length data) <? sizeof_hdr_v2 then Ok None else
  res_bind (field 1 data 1) (fun type =>
  res_bind (field 1 data 2) (fun flags =>
  res_bind (field 1 data 3) (fun optlen =>
  res_bind (field 4 data 4) (fun size =>
  res_bind (field 2 data 8) (fun sn =>
  res_bind (field 2 data 10) (fun sp =>
  res_bind (field 2 data 12) (fun dn =>
  res_bind (field 2 data 14) (fun dp =>
  Ok (Some (Cb sn (ctrl_port16 sp) dn (ctrl_port16 dp) type
              (if Z.land flags QRTR_FLAGS_CONFIRM_RX =? 0 then 0 else 1),
            size, sizeof_hdr_v2 + optlen)))))))))).

Definition parse_header (data : list Z) : res (option (qrtr_cb * Z * Z)) :=
  res_bind (field 1 data 0) (fun ver =>
  if ver =? QRTR_PROTO_VER_1 then parse_v1 data else
  if ver =? QRTR_PROTO_VER_2 then parse_v2 data else Ok None).

Definition legacy_ctrl (cb : qrtr_cb) : qrtr_cb :=
  Cb (src_node cb) (src_port cb) (dst_node cb)
    (if dst_port cb =? QRTR_PORT_CTRL_LEGACY then QRTR_PORT_CTRL else dst_port cb) (cb_type cb) (cb_confirm_rx cb).

(** A packet of a type only the control port takes, for another port. *)
Definition bad_type (cb : qrtr_cb) : bool :=
  negb (dst_port cb =? QRTR_PORT_CTRL) && negb (cb_type cb =? QRTR_TYPE_DATA) &&
  negb (cb_type cb =? QRTR_TYPE_RESUME_TX).

(** A packet for the worker, or for a local port. *)
Definition post_deliver (a : Z) (skb : sk_buff) : ST router Z :=
  let cb := skb_cb skb in
  let! local := st_get qrtr_local_nid in
  if negb (cb_type cb =? QRTR_TYPE_DATA) || negb (dst_node cb =? local) then
    upd_node a (fun n => with_rx (rx_queue n ++ [skb]) true (nd_hello n) n) ;;; st_ret 0
  else
    let! ipc := qrtr_port_lookup (dst_port cb) in
    match ipc with
    | None => st_ret (- ENODEV)
    | Some i =>
      let! rc := sock_queue_rcv_skb i skb in
      if negb (rc =? 0) then st_ret (- EINVAL) else qrtr_port_put i ;;; st_ret 0
    end.

Definition post_alloc (len : Z) : ST router bool :=
  let! rc := ask EAlloc in
  if rc =? 0 then st_ret true else qrtr_get_backup len.

Definition qrtr_endpoint_post (a : Z) (data : list Z) : ST router Z :=
  let len := Z.of_nat (length data) in
  if (len =? 0) || negb (Z.land len 3 =? 0) then st_ret (- EINVAL) else
  let! got := post_alloc len in
  if negb got then st_ret (- ENOMEM) else
  let! h := lift (parse_header data) in
  match h with
  | None => st_ret (- EINVAL)
  | Some (cb, size, hdrlen) =>
    let cb := legacy_ctrl cb in
    if negb (len =? ALIGN size 4 + hdrlen) then st_ret (- EINVAL) else
    if bad_type cb then st_ret (- EINVAL) else
    let skb := Skb None cb (take (Z.to_nat size) (drop (Z.to_nat hdrlen) data)) in
    qrtr_node_assign a (src_node cb) ;;;
    (if cb_type cb =? QRTR_TYPE_NEW_SERVER then
       let! nid := lift (field 4 data (hdrlen + 12)) in qrtr_node_assign a nid
     else st_ret tt) ;;;
    post_deliver a skb
  end.

(** ** Forwarding *)

(** [abs] of the difference of two unsigned identifiers. *)
Definition net_distance (d s : Z) : Z := Z.abs (s32 (d - s)).

Definition qrtr_must_forward (src dst : option Z) (type : Z) : ST router bool :=
  match src, dst with
  | None, _ => st_ret true
  | _, None => st_ret false
  | Some sa, Some da =>
    if (type =? QRTR_TYPE_HELLO) || (type =? QRTR_TYPE_RESUME_TX) then st_ret false else
    let! d := node_of da in
    if (da =? sa) || (nd_nid d =? QRTR_EP_NID_AUTO) then st_ret false else
    let! s := node_of sa in
    st_ret (net_distance (nd_net_id d) (nd_net_id s) >? 1)
  end.

Fixpoint fwd_ctrl_loop (fuel : nat) (src : Z) (skb : sk_buff) (l : list Z) : ST router unit :=
  match l with
  | [] => st_ret tt
  | a :: l =>
    let cb := skb_cb skb in
    let! fwd := qrtr_must_forward (Some src) (Some a) (cb_type cb) in
    if negb fwd then fwd_ctrl_loop fuel src skb l else
    let! rc := ask EAlloc in
    if negb (rc =? 0) then st_ret tt else
    let! n := node_of a in
    qrtr_node_enqueue fuel a (Skb None cb (skb_data skb)) (cb_type cb)
      (Sockaddr (src_node cb) (src_port cb)) (Sockaddr (nd_nid n) QRTR_PORT_CTRL) 0 ;;;
    fwd_ctrl_loop fuel src skb l
  end.

Definition qrtr_fwd_ctrl_pkt (fuel : nat) (src : Z) (skb : sk_buff) : ST router unit :=
  let! l := st_get qrtr_all_epts in fwd_ctrl_loop fuel src skb l.

Definition qrtr_fwd_pkt (fuel : nat) (skb : sk_buff) : ST router unit :=
  let cb := skb_cb skb in
  let! node := qrtr_node_lookup (dst_node cb) in
  match node with
  | None => st_ret tt
  | Some a =>
    qrtr_node_enqueue fuel a skb (cb_type cb) (Sockaddr (src_node cb) (src_port cb))
      (Sockaddr (dst_node cb) (dst_port cb)) 0 ;;;
    qrtr_node_release (Some a)
  end.

Definition qrtr_sock_queue_skb (a : Z) (skb : sk_buff) (i : Z) : ST router unit :=
  let! n := node_of a in
  let hello := cb_type (skb_cb skb) =? QRTR_TYPE_HELLO in
  if hello && negb (hello_rcvd n =? 0) then st_ret tt else
  (if hello then upd_node a (fun n => with_hello (hello_sent n) (hello_rcvd n + 1) n) else st_ret tt) ;;;
  sock_queue_rcv_skb i skb ;;; st_ret tt.

(** One packet of the receive queue. *)
Definition rx_one (fuel : nat) (a : Z) (skb : sk_buff) : ST router unit :=
  let cb := skb_cb skb in
  let! local := st_get qrtr_local_nid in
  (if cb_type cb =? QRTR_TYPE_DATA then st_ret tt else qrtr_fwd_ctrl_pkt fuel a skb) ;;;
  if cb_type cb =? QRTR_TYPE_RESUME_TX then
    if negb (dst_node cb =? local) then qrtr_fwd_pkt fuel skb else qrtr_tx_resume a skb
  else if negb (dst_node cb =? local) && (cb_type cb =? QRTR_TYPE_DATA) then qrtr_fwd_pkt fuel skb
  else
    let! ipc := qrtr_port_lookup (dst_port cb) in
    match ipc with
    | None => st_ret tt
    | Some i => qrtr_sock_queue_skb a skb i ;;; qrtr_port_put i
    end.

Fixpoint rx_loop (rounds fuel : nat) (a : Z) : ST router unit :=
  match rounds with
  | O => fun _ => Loop
  | S rounds =>
    let! n := node_of a in
    match rx_queue n with
    | [] => st_ret tt
    | skb :: q =>
      upd_node a (fun n => with_rx q (nd_read n) (nd_hello n) n) ;;;
      rx_one fuel a skb ;;;
      rx_loop rounds fuel a
    end
  end.

(** The receive work of a node: nothing is added to its queue while it runs, so a round for
    every packet and a last one are enough. *)
Definition qrtr_node_rx_work (fuel : nat) (a : Z) : ST router unit :=
  upd_node a (fun n => with_rx (rx_queue n) false (nd_hello n) n) ;;;
  let! n := node_of a in
  rx_loop (S (length (rx_queue n))) fuel a.

Definition qrtr_hello_work (fuel : nat) (a : Z) : ST router unit :=
  upd_node a (fun n => with_rx (rx_queue n) (nd_read n) false n) ;;;
  let! ctrl := qrtr_port_lookup QRTR_PORT_CTRL in
  match ctrl with
  | None => st_ret tt
  | Some i =>
    let! ok := qrtr_alloc_ctrl_packet in
    (if ok then
       let! local := st_get qrtr_local_nid in
       let! n := node_of a in
       qrtr_node_enqueue fuel a (ctrl_skb (Pkt QRTR_TYPE_HELLO 0 0 0 0)) QRTR_TYPE_HELLO
         (Sockaddr local QRTR_PORT_CTRL) (Sockaddr (nd_nid n) QRTR_PORT_CTRL) 0 ;;; st_ret tt
     else st_ret tt) ;;;
    qrtr_port_put i
  end.

(** ** Endpoints *)

(** [qrtr_endpoint_register] of an endpoint with [xmit] set ([ep]); [task] says that the worker
    thread was created.  The result is the error or the new node. *)
Definition qrtr_endpoint_register (ep task : bool) (net_id : Z) : ST router (Z + Z) :=
  if negb ep then st_ret (inl (- EINVAL)) else
  let! rc := ask EAlloc in
  if negb (rc =? 0) then st_ret (inl (- ENOMEM)) else
  if negb task then st_ret (inl (- ENOMEM)) else
  let! a := st_get next_obj in
  st_upd (set_next (a + 1)) ;;;
  put_node a (Node true 1 QRTR_EP_NID_AUTO 0 0 0 ∅ [] false false) ;;;
  qrtr_node_assign a QRTR_EP_NID_AUTO ;;;
  upd_node a (fun n => Node (nd_ep n) (nd_ref n) (nd_nid n) net_id (hello_sent n) (hello_rcvd n)
                         (tx_flows n) (rx_queue n) (nd_read n) true) ;;;
  st_upd (fun s => set_epts (a :: qrtr_all_epts s) s) ;;;
  st_ret (inr a).

Definition qrtr_notify_bye (nid : Z) : ST router unit :=
  let! ok := qrtr_alloc_ctrl_packet in
  if negb ok then st_ret tt else
  let! local := st_get qrtr_local_nid in
  qrtr_local_enqueue (ctrl_skb (Pkt QRTR_TYPE_BYE 0 0 0 0)) (Sockaddr nid QRTR_PORT_CTRL)
    (Sockaddr local QRTR_PORT_CTRL) ;;;
  st_ret tt.

(** The sum of the half words, folded to 16 bits and complemented. *)
Fixpoint checksum_sum (words : list Z) (acc : Z) : Z :=
  match words with
  | [] => acc
  | w :: words =>
    checksum_sum words (u32 (acc + (u16 (Z.land (Z.shiftr w 16) 0xffff) + u16 (Z.land w 0xffff))))
  end.

Fixpoint checksum_fold (fuel : nat) (c : Z) : Z :=
  match fuel with
  | O => c
  | S fuel => if c >? 0xffff then checksum_fold fuel (Z.land c 0xffff + Z.land (Z.shiftr c 16) 0xffff) else c
  end.

Definition pkt_words (p : qrtr_ctrl_pkt) : list Z := [p_cmd p; p_w0 p; p_w1 p; p_w2 p; p_w3 p].

Definition qrtr_calc_checksum (p : option qrtr_ctrl_pkt) : Z :=
  match p with
  | None => 0
  | Some p => Z.land (u32 (Z.lnot (checksum_fold 2 (checksum_sum (pkt_words p) 0)))) 0xffff
  end.

(** The packet that says the processor [nid] is gone: the checksum takes the place of the
    number it is computed with. *)
Definition del_proc_pkt (nid : Z) : qrtr_ctrl_pkt :=
  let pkt := Pkt QRTR_TYPE_DEL_PROC QRTR_DEL_PROC_MAGIC nid 0 0 in
  Pkt QRTR_TYPE_DEL_PROC (qrtr_calc_checksum (Some pkt)) nid 0 0.

Fixpoint fwd_del_proc_loop (fuel : nat) (src nid : Z) (l : list Z) : ST router unit :=
  match l with
  | [] => st_ret tt
  | a :: l =>
    let! fwd := qrtr_must_forward (Some src) (Some a) QRTR_TYPE_DEL_PROC in
    if negb fwd then fwd_del_proc_loop fuel src nid l else
    let! ok := qrtr_alloc_ctrl_packet in
    if negb ok then st_ret tt else
    let! sn := node_of src in
    let! dn := node_of a in
    qrtr_node_enqueue fuel a (ctrl_skb (del_proc_pkt nid)) QRTR_TYPE_DEL_PROC
      (Sockaddr (nd_nid sn) QRTR_PORT_CTRL) (Sockaddr (nd_nid dn) QRTR_PORT_CTRL) 0 ;;;
    fwd_del_proc_loop fuel src nid l
  end.

Definition qrtr_fwd_del_proc (fuel : nat) (src nid : Z) : ST router unit :=
  let! l := st_get qrtr_all_epts in fwd_del_proc_loop fuel src nid l.

(** The identifiers of the node, in increasing order. *)
Fixpoint unregister_loop (fuel : nat) (a : Z) (l : list Z) : ST router unit :=
  match l with
  | [] => st_ret tt
  | nid :: l =>
    let! slot := st_get (fun s => qrtr_nodes s !! nid) in
    (if bool_decide (slot = Some a) then qrtr_notify_bye nid ;;; qrtr_fwd_del_proc fuel a nid
     else st_ret tt) ;;;
    unregister_loop fuel a l
  end.

Definition qrtr_endpoint_unregister (fuel : nat) (a : Z) : ST router unit :=
  upd_node a (with_ep false) ;;;
  let! l := st_get (fun s => xa_indices (qrtr_nodes s)) in
  unregister_loop fuel a l ;;;
  qrtr_node_release (Some a).
End wait.
