(* ===== verification/QrtrPacket.v ===== *)
(** * Packets of the message router

    The header on the wire, the checks on received data, and the checksum. *)
From stdpp Require Import sorting.
From S2P Require Import Prelude CMem QrtrNs QrtrRegistry QrtrRouter.
Open Scope c_scope.

(** ** Fields *)
Definition words (ws : list Z) : list Z := concat (map (le_bytes 4) ws).

Lemma length_words ws : length (words ws) = (4 * length ws)%nat.
Proof.
  unfold words. induction ws as [|w ws IH]; cbn [map concat length]; [done|].
  rewrite length_app, IH, length_le_bytes. lia.
Qed.

Lemma field_words ws rest : forall i v, ws !! i = Some v ->
  field 4 (words ws ++ rest) (4 * Z.of_nat i) = Ok (u32 v).
Proof.
  intros i v Hi. unfold field. pose proof (lookup_lt_Some _ _ _ Hi) as Hlt.
  rewrite length_app, length_words. bool_true ((0 <=? 4 * Z.of_nat i) && (4 * Z.of_nat i + Z.of_nat 4 <=?
    Z.of_nat (4 * length ws + length rest))).
  f_equal. replace (Z.to_nat (4 * Z.of_nat i)) with (4 * i)%nat by lia.
  assert (Hd : take 4 (drop (4 * i) (words ws ++ rest)) = le_bytes 4 v).
  { revert i Hi Hlt. induction ws as [|w ws IH]; intros i Hi Hlt; [done|].
    destruct i as [|i]; [by injection Hi as ->|].
    replace (4 * S i)%nat with (4 + 4 * i)%nat by lia. cbn in Hi, Hlt.
    rewrite <-(IH i Hi) by lia. done. }
  rewrite Hd, le_val_bytes. done.
Qed.

Lemma ALIGN_4 x : 0 <= x <= 2 ^ 64 - 4 -> ALIGN x 4 = 4 * ((x + 3) / 4).
Proof.
  intros Hx. change 4 with (2 ^ 2) at 1. rewrite ALIGN_pow2 by lia. change (2 ^ 2) with 4.
  rewrite (Z.div_mod (x + (4 - 1)) 4) at 1 by lia. replace (x + (4 - 1)) with (x + 3) by lia. lia.
Qed.

Lemma ALIGN_4_bounds x : 0 <= x <= 2 ^ 64 - 4 -> x <= ALIGN x 4 <= x + 3 /\ ALIGN x 4 mod 4 = 0.
Proof.
  intros Hx. rewrite ALIGN_4 by done. pose proof (Z.div_mod (x + 3) 4 ltac:(lia)).
  pose proof (Z.mod_pos_bound (x + 3) 4 ltac:(lia)). split; [lia|]. rewrite Z.mul_comm. apply Z.mod_mul. lia.
Qed.

(** ** The header of received data *)
Definition is_bytes (b : list Z) : Prop := Forall (fun x => 0 <= x < 256) b.

Lemma parse_ok data : data <> [] -> exists r, parse_header data = Ok r.
Proof.
  intros Hd. assert (0 < length data)%nat by (destruct data; [done|cbn; lia]).
  unfold parse_header, parse_v1, parse_v2, sizeof_hdr_v1, sizeof_hdr_v2.
  rewrite (field_ok 1 data 0) by lia. cbn [res_bind].
  repeat case_if; eauto; rewrite !field_ok by lia; cbn [res_bind]; eauto.
Qed.

Lemma parse_bounds data cb size hdrlen : is_bytes data -> parse_header data = Ok (Some (cb, size, hdrlen)) ->
  0 <= size < 2 ^ 32 /\ 16 <= hdrlen < 512.
Proof.
  intros Hb. assert (Hr : forall n off, Z.of_nat off + Z.of_nat n <= Z.of_nat (length data) ->
    0 <= le_val (take n (drop off data)) < 2 ^ (8 * Z.of_nat n)).
  { intros n off Hn. apply (field_range n data (Z.of_nat off)); [done|]. rewrite field_ok by lia.
    by rewrite Nat2Z.id. }
  unfold parse_header, parse_v1, parse_v2, sizeof_hdr_v1, sizeof_hdr_v2.
  destruct (field 1 data 0) as [ver| |]; cbn [res_bind]; [|done..].
  repeat case_if; try done; rewrite !field_ok by lia; cbn [res_bind]; intros [= _ <- <-].
  - pose proof (Hr 4%nat (Z.to_nat 20) ltac:(lia)). lia.
  - pose proof (Hr 4%nat (Z.to_nat 4) ltac:(lia)). pose proof (Hr 1%nat (Z.to_nat 3) ltac:(lia)). lia.
Qed.

(** ** What a received packet does *)

(** The identity, the ports and an environment that only succeeds are kept. *)
Definition rest_kept (s s' : router) : Prop :=
  qrtr_local_nid s' = qrtr_local_nid s /\ qrtr_ports s' = qrtr_ports s /\
  forall c, env s c = [] -> env s' c = [].

Lemma rest_kept_refl s : rest_kept s s.
Proof. done. Qed.
Lemma rest_kept_trans s1 s2 s3 : rest_kept s1 s2 -> rest_kept s2 s3 -> rest_kept s1 s3.
Proof. intros (A1 & A2 & A3) (B1 & B2 & B3). split_and!; try congruence. auto. Qed.

(** The packet is in the queue of the node for its worker, or in the queue of the socket of a
    local port, and in no other. *)
Definition queued (a : Z) (cb : qrtr_cb) (data : list Z) (s s' : router) : Prop :=
  rest_kept s s' /\
  if negb (cb_type cb =? QRTR_TYPE_DATA) || negb (dst_node cb =? qrtr_local_nid s) then
    socks s' = socks s /\
    exists n nid, nodes s !! a = Some n /\
      nodes s' !! a = Some (with_rx (rx_queue n ++ [Skb None cb data]) true (nd_hello n) (with_nid nid n)) /\
      forall b, b <> a -> nodes s' !! b = nodes s !! b
  else
    exists i k, qrtr_ports s !! port_key (dst_port cb) = Some i /\ socks s !! i = Some k /\
      socks s' = <[i := with_queue (sk_queue k ++ [Skb (Some i) cb data]) k]> (socks s) /\
      fmap rx_queue (nodes s' !! a) = fmap rx_queue (nodes s !! a).

(** Every queue is as it was. *)
Definition same_queues (s s' : router) : Prop :=
  (forall a, fmap rx_queue (nodes s' !! a) = fmap rx_queue (nodes s !! a)) /\
  (forall i, fmap sk_queue (socks s' !! i) = fmap sk_queue (socks s !! i)).

(** The identifiers a node takes from a packet. *)
Definition assigned (a : Z) (s s' : router) : Prop :=
  rest_kept s s' /\ socks s' = socks s /\
  (forall c, c <> EInsert -> c <> EAlloc -> env s' c = env s c) /\
  (forall b, b <> a -> nodes s' !! b = nodes s !! b) /\
  forall n, nodes s !! a = Some n -> exists nid, nodes s' !! a = Some (with_nid nid n).

Lemma assigned_refl a s : assigned a s s.
Proof. split_and!; try done. intros n Hn. exists (nd_nid n). rewrite Hn. by destruct n. Qed.

Lemma assigned_trans a s1 s2 s3 : assigned a s1 s2 -> assigned a s2 s3 -> assigned a s1 s3.
Proof.
  intros (A1 & A2 & A3 & A4 & A5) (B1 & B2 & B3 & B4 & B5).
  split_and!; [by eapply rest_kept_trans|congruence|intros; rewrite B3 by done; auto|intros; rewrite B4 by done; auto|].
  intros n Hn. destruct (A5 n Hn) as [i Hi]. destruct (B5 _ Hi) as [j Hj]. by exists j.
Qed.

Lemma node_of_ok a s n : nodes s !! a = Some n -> node_of a s = Ok (n, s).
Proof. unfold node_of. by intros ->. Qed.
Lemma sock_of_ok i s k : socks s !! i = Some k -> sock_of i s = Ok (k, s).
Proof. unfold sock_of. by intros ->. Qed.

Lemma node_of_inv a s n s' : node_of a s = Ok (n, s') -> nodes s !! a = Some n /\ s' = s.
Proof. unfold node_of. destruct (nodes s !! a); naive_solver. Qed.

Lemma sock_of_inv i s k s' : sock_of i s = Ok (k, s') -> socks s !! i = Some k /\ s' = s.
Proof. unfold sock_of. destruct (socks s !! i); naive_solver. Qed.

Lemma ask_inv c s r s' : ask c s = Ok (r, s') -> exists e, s' = set_env e s.
Proof. unfold ask. destruct (env s c); intros [= _ <-]; [exists (env s); by destruct s|eauto]. Qed.

Lemma upd_node_ok a f s n : nodes s !! a = Some n -> upd_node a f s = Ok (tt, set_nodes (<[a := f n]> (nodes s)) s).
Proof. intros Hn. unfold upd_node. by rewrite (st_bind_ok _ _ _ _ _ (node_of_ok _ _ _ Hn)). Qed.
Lemma upd_sock_ok i f s k : socks s !! i = Some k -> upd_sock i f s = Ok (tt, set_socks (<[i := f k]> (socks s)) s).
Proof. intros Hn. unfold upd_sock. by rewrite (st_bind_ok _ _ _ _ _ (sock_of_ok _ _ _ Hn)). Qed.

(** An answer changes the rest of the answers only. *)
Lemma ask_ok c s : exists r e, ask c s = Ok (r, set_env e s) /\
  (forall c', c' <> c -> e c' = env s c') /\ (env s c = [] -> r = 0) /\ rest_kept s (set_env e s).
Proof.
  unfold ask. destruct (env s c) as [|x l] eqn:E.
  - exists 0, (env s). split; [by destruct s|done].
  - eexists x, _. split; [done|]. split; [intros c' Hc; by rewrite decide_False|]. split; [done|].
    split_and!; [done|done|]. intros c' Hc. cbn. case_decide; congruence.
Qed.

Lemma assign_ok a nid s n : nodes s !! a = Some n ->
  exists s', qrtr_node_assign a nid s = Ok (tt, s') /\ assigned a s s'.
Proof.
  intros Hn. unfold qrtr_node_assign. rewrite (st_bind_ok _ _ _ _ _ (node_of_ok _ _ _ Hn)).
  case_if; [eexists; split; [done|apply assigned_refl]|]. rewrite st_bind_get.
  assert (H1 : exists s1,
    (match qrtr_nodes s !! nid with
     | Some _ => st_ret tt
     | None => let! rc := ask EInsert in
               if rc =? 0 then st_upd (fun s => set_tree (<[nid := a]> (qrtr_nodes s)) s) else st_ret tt
     end) s = Ok (tt, s1) /\ assigned a s s1 /\ nodes s1 = nodes s).
  { destruct (qrtr_nodes s !! nid); [eexists; split; [done|]; split; [apply assigned_refl|done]|].
    destruct (ask_ok EInsert s) as (r & e & Hr & He & _ & Hk). rewrite (st_bind_ok _ _ _ _ _ Hr).
    assert (Ha : assigned a s (set_env e s)).
    { destruct (assigned_refl a s) as (? & ? & ? & ? & ?). split_and!; auto. }
    case_if; (eexists; split; [done|split; [|done]]); [|exact Ha].
    destruct Ha as (? & ? & ? & ? & ?). split_and!; auto. }
  destruct H1 as (s1 & H1 & Ha & En). rewrite (st_bind_ok _ _ _ _ _ H1). rewrite <-En in Hn.
  case_if; [|by exists s1]. rewrite (upd_node_ok _ _ _ _ Hn). eexists. split; [done|].
  eapply assigned_trans; [exact Ha|]. split_and!; try done; cbn.
  - intros b Hb. by rewrite lookup_insert_ne.
  - intros n' Hn'. simplify_eq. exists nid. by rewrite lookup_insert_eq.
Qed.

(** ** Delivery *)
Lemma hold_ok i s k : socks s !! i = Some k ->
  sock_hold i s = Ok (tt, set_socks (<[i := with_refs (sk_refs k + 1) k]> (socks s)) s).
Proof. intros Hk. unfold sock_hold. by rewrite (upd_sock_ok _ _ _ _ Hk). Qed.

Lemma put_ok i s k : socks s !! i = Some k -> 1 < sk_refs k ->
  sock_put i s = Ok (tt, set_socks (<[i := with_refs (sk_refs k - 1) k]> (socks s)) s).
Proof.
  intros Hk Hr. unfold sock_put. rewrite (st_bind_ok _ _ _ _ _ (sock_of_ok _ _ _ Hk)).
  by bool_false (sk_refs k =? 1).
Qed.

(** The sockets of the port table exist and are referenced. *)
Definition ports_live (s : router) : Prop :=
  forall p i, qrtr_ports s !! p = Some i -> exists k, socks s !! i = Some k /\ 0 < sk_refs k.

Lemma lookup_ok p s : ports_live s ->
  (qrtr_ports s !! port_key p = None /\ qrtr_port_lookup p s = Ok (None, s)) \/
  exists i k, qrtr_ports s !! port_key p = Some i /\ socks s !! i = Some k /\ 0 < sk_refs k /\
    qrtr_port_lookup p s = Ok (Some i, set_socks (<[i := with_refs (sk_refs k + 1) k]> (socks s)) s).
Proof.
  intros Hl. unfold qrtr_port_lookup. rewrite st_bind_get.
  destruct (qrtr_ports s !! port_key p) as [i|] eqn:E; [right|by left].
  destruct (Hl _ _ E) as (k & Hk & Hr). exists i, k. by rewrite (st_bind_ok _ _ _ _ _ (hold_ok _ _ _ Hk)).
Qed.

Lemma queue_rcv_ok i skb s k : socks s !! i = Some k -> exists rc e,
  sock_queue_rcv_skb i skb s =
    Ok (rc, set_socks (if rc =? 0 then <[i := with_queue (sk_queue k ++ [Skb (Some i) (skb_cb skb) (skb_data skb)]) k]> (socks s)
                       else socks s) (set_env e s)) /\
  rest_kept s (set_env e s) /\ (env s EQueue = [] -> rc = 0).
Proof.
  intros Hk. unfold sock_queue_rcv_skb. destruct (ask_ok EQueue s) as (rc & e & Hr & He & H0 & Hkept).
  exists rc, e. rewrite (st_bind_ok _ _ _ _ _ Hr). split; [|done]. case_if.
  - rewrite (st_bind_ok _ _ _ tt _ (upd_sock_ok i _ (set_env e s) k Hk)). done.
  - rewrite st_bind_ret. by destruct s.
Qed.

(** Delivery of an accepted packet: every result, and where the packet is. *)
Lemma deliver_ok a cb data s n : nodes s !! a = Some n -> ports_live s -> exists rc s',
  post_deliver a (Skb None cb data) s = Ok (rc, s') /\
  ((rc = 0 /\ queued a cb data s s') \/
   ((rc = - ENODEV \/ rc = - EINVAL) /\ same_queues s s')) /\
  (env s EQueue = [] ->
   (cb_type cb = QRTR_TYPE_DATA -> dst_node cb = qrtr_local_nid s -> is_Some (qrtr_ports s !! port_key (dst_port cb))) ->
   rc = 0).
Proof.
  intros Hn Hl. unfold post_deliver, queued. cbn [skb_cb]. rewrite st_bind_get. case_if.
  { rewrite (st_bind_ok _ _ _ _ _ (upd_node_ok _ _ _ _ Hn)). exists 0. eexists. split; [done|]. split; [|done]. left.
    split; [done|]. split; [done|]. split; [done|]. exists n, (nd_nid n). split; [done|]. cbn. rewrite lookup_insert_eq.
    split; [by destruct n|]. intros b Hb. by rewrite lookup_insert_ne. }
  destruct (lookup_ok (dst_port cb) s Hl) as [[Hp Hlk]|(i & k & Hp & Hk & Hr & Hlk)];
    rewrite (st_bind_ok _ _ _ _ _ Hlk).
  { exists (- ENODEV), s. split; [done|]. split; [right; split; [by left|done]|]. intros _ Hsome.
    rewrite Hp in Hsome. destruct Hsome as [? [=]]; lia. }
  destruct (queue_rcv_ok i (Skb None cb data) (set_socks (<[i := with_refs (sk_refs k + 1) k]> (socks s)) s) _
    (lookup_insert_eq _ _ _)) as (rc & e & Hq & Hkept & Hq0).
  rewrite (st_bind_ok _ _ _ _ _ Hq). cbn [skb_cb skb_data]. case_if.
  - eexists (- EINVAL), _. split; [done|]. split; [|intros E _; specialize (Hq0 E); lia].
    right. split; [by right|].
    replace (rc =? 0) with false by lia. split; [done|]. intros j. cbn.
    destruct (decide (j = i)) as [->|]; [by rewrite lookup_insert_eq, Hk|by rewrite lookup_insert_ne].
  - replace (rc =? 0) with true by lia.
    erewrite st_bind_ok by (apply put_ok; [cbn; apply lookup_insert_eq|cbn; lia]).
    exists 0. eexists. split; [done|]. split; [|done]. left. split; [done|].
    split; [exact Hkept|]. exists i, k. split; [done|]. split; [done|].
    split; [|done]. cbn. rewrite !insert_insert_eq. f_equal. unfold with_refs, with_queue. destruct k; cbn in *.
    f_equal. lia.
Qed.

Lemma queued_assigned a cb data s s1 s' n : nodes s !! a = Some n -> assigned a s s1 ->
  queued a cb data s1 s' -> queued a cb data s s'.
Proof.
  intros Hn (E1 & E2 & _ & E4 & E5). destruct (E5 n Hn) as [nid Hn1]. unfold queued. intros [Hk Hq].
  split; [by eapply rest_kept_trans|]. destruct E1 as (El & Ep & _). rewrite E2, El, Ep in Hq. case_if_in Hq.
  - destruct Hq as (Hs & n1 & nid' & Hn1' & Hn' & Ho). simplify_eq. split; [done|].
    exists n, nid'. split_and!; try done. intros b Hb. by rewrite Ho, E4.
  - destruct Hq as (i & k & Hp & Hk' & Hs & Hrx). exists i, k. rewrite Hrx, Hn, Hn1. done.
Qed.

Lemma same_queues_assigned a s s1 s' n : nodes s !! a = Some n -> assigned a s s1 ->
  same_queues s1 s' -> same_queues s s'.
Proof.
  intros Hn (_ & E2 & _ & E5 & E6) [Hq Hk]. destruct (E6 n Hn) as [nid Hn1]. split.
  - intros b. rewrite Hq. destruct (decide (b = a)) as [->|Hb]; [by rewrite Hn, Hn1|by rewrite E5].
  - intros i. by rewrite Hk, E2.
Qed.

Lemma post_alloc_ok a len s : exists b s', post_alloc len s = Ok (b, s') /\ assigned a s s' /\
  (env s EAlloc = [] -> b = true).
Proof.
  unfold post_alloc. destruct (ask_ok EAlloc s) as (r & e & Hr & He & H0 & Hk).
  rewrite (st_bind_ok _ _ _ _ _ Hr).
  assert (Ha : forall lo hi w, assigned a s (set_backup lo hi w (set_env e s))).
  { intros. destruct (assigned_refl a s) as (? & ? & ? & ? & ?). split_and!; auto. }
  assert (Hz : assigned a s (set_env e s)) by (specialize (Ha (backup_lo s) (backup_hi s) (backup_work s)); by destruct s).
  case_if; [by exists true, (set_env e s)|].
  unfold qrtr_get_backup. rewrite !st_bind_get.
  repeat (case_if || case_match); (eexists _, _; split; [reflexivity|split; [first [apply Ha|exact Hz]|intros E; specialize (H0 E); lia]]).
Qed.

Lemma lift_ok {A B} (x : A) (k : A -> ST router B) s : st_bind (lift (Ok x)) k s = k x s.
Proof. reflexivity. Qed.

Lemma assigned_node a s s' n : assigned a s s' -> nodes s !! a = Some n -> exists n', nodes s' !! a = Some n'.
Proof. intros (_ & _ & _ & _ & Ha) Hn. destruct (Ha n Hn) as [nid Hn']. eauto. Qed.

(** The identifiers taken from an accepted packet. *)
Lemma accept_ok a data cb hdrlen s n (k : ST router Z) : nodes s !! a = Some n ->
  (cb_type cb = QRTR_TYPE_NEW_SERVER -> 0 <= hdrlen /\ hdrlen + 16 <= Z.of_nat (length data)) ->
  exists s', assigned a s s' /\
    (qrtr_node_assign a (src_node cb) ;;;
     (if cb_type cb =? QRTR_TYPE_NEW_SERVER
      then let! nid := lift (field 4 data (hdrlen + 12)) in qrtr_node_assign a nid else st_ret tt) ;;; k) s = k s'.
Proof.
  intros Hn Hs. destruct (assign_ok a (src_node cb) s n Hn) as (s1 & Hs1 & Ha1).
  rewrite (st_bind_ok _ _ _ _ _ Hs1). case_if; [|by exists s1].
  destruct (assigned_node _ _ _ _ Ha1 Hn) as [n1 Hn1]. rewrite field_ok by lia.
  rewrite st_bind_bind, lift_ok. edestruct (assign_ok a) as (s2 & Hs2 & Ha2); [exact Hn1|].
  exists s2. split; [by eapply assigned_trans|]. by rewrite (st_bind_ok _ _ _ _ _ Hs2).
Qed.

(** Any data a transport posts is handled without a fault, except a NEW_SERVER packet that
    is too short for the server it names.  A packet is accepted only when its header is well
    formed, its length is the one the header gives and its type suits the port; it is then in
    the queue of the worker or of the socket of the local port, with the fields and the bytes
    of the data, and on every error no queue has changed. *)
Theorem qrtr_post_correct a data s n :
  is_bytes data -> nodes s !! a = Some n -> ports_live s ->
  (forall cb size hdrlen, parse_header data = Ok (Some (cb, size, hdrlen)) ->
     cb_type cb = QRTR_TYPE_NEW_SERVER -> 13 <= size) ->
  exists rc s', qrtr_endpoint_post a data s = Ok (rc, s') /\
  ((rc = 0 /\ exists cb size hdrlen, parse_header data = Ok (Some (cb, size, hdrlen)) /\
      let payload := take (Z.to_nat size) (drop (Z.to_nat hdrlen) data) in
      Z.of_nat (length data) = ALIGN size 4 + hdrlen /\ Z.of_nat (length payload) = size /\
      bad_type (legacy_ctrl cb) = false /\ queued a (legacy_ctrl cb) payload s s') \/
   ((rc = - EINVAL \/ rc = - ENOMEM \/ rc = - ENODEV) /\ same_queues s s')).
Proof.
  intros Hb Hn Hl Hserver. unfold qrtr_endpoint_post. cbv zeta.
  assert (Hrefl : same_queues s s) by done.
  case_if; [eexists _, s; split; [done|]; right; eauto|].
  assert (Hd : data <> []) by (intros ->; cbn in *; lia).
  destruct (post_alloc_ok a (Z.of_nat (length data)) s) as (b & s1 & Hp & Ha1 & _).
  rewrite (st_bind_ok _ _ _ _ _ Hp).
  assert (Hsame : same_queues s s1) by (by eapply same_queues_assigned; [exact Hn|exact Ha1|]).
  case_if; [eexists _, s1; split; [done|]; right; eauto|].
  destruct (parse_ok data Hd) as [h Hh]. rewrite Hh, lift_ok.
  destruct h as [[[cb size] hdrlen]|]; [|eexists _, s1; split; [done|]; right; eauto].
  case_if; [eexists _, s1; split; [done|]; right; eauto|].
  case_if; [eexists _, s1; split; [done|]; right; eauto|].
  destruct (parse_bounds _ _ _ _ Hb Hh) as [Hsz Hhl].
  destruct (ALIGN_4_bounds size ltac:(lia)) as [Hal Hal4].
  destruct (assigned_node _ _ _ _ Ha1 Hn) as [n1 Hn1]. set (payload := take _ _).
  destruct (accept_ok a data (legacy_ctrl cb) hdrlen s1 n1 (post_deliver a (Skb None (legacy_ctrl cb) payload)) Hn1)
    as (s3 & Ha3 & Hs3).
  { cbn. intros Ht. specialize (Hserver _ _ _ Hh Ht).
    assert (16 <= ALIGN size 4) by (rewrite ALIGN_4 by lia; Z.to_euclidean_division_equations; lia). lia. }
  rewrite Hs3. apply (assigned_trans _ _ _ _ Ha1) in Ha3. destruct (assigned_node _ _ _ _ Ha3 Hn) as [n3 Hn3].
  assert (Hl3 : ports_live s3).
  { destruct Ha3 as ((_ & E3 & _) & E2 & _). intros p i. rewrite E2, E3. apply Hl. }
  destruct (deliver_ok a (legacy_ctrl cb) payload s3 _ Hn3 Hl3) as (rc & s' & Hdel & Hres & _).
  exists rc, s'. split; [exact Hdel|]. destruct Hres as [[-> Hq]|[Hrc Hq]].
  - left. split; [done|]. exists cb, size, hdrlen. split; [done|]. split; [lia|]. split.
    { unfold payload. rewrite length_take, length_drop. lia. }
    split; [done|]. by eapply queued_assigned.
  - right. split; [tauto|]. by eapply same_queues_assigned.
Qed.

(** ** A packet on the wire *)
Definition packet (type : Z) (from : sockaddr_qrtr) (confirm dst port : Z) (data : list Z) : list Z :=
  let len := Z.of_nat (length data) in
  hdr_v1 type from confirm len dst port ++ data ++ replicate (Z.to_nat (ALIGN len 4 - len)) 0.

Lemma hdr_words type from confirm size dst port :
  hdr_v1 type from confirm size dst port =
  words [QRTR_PROTO_VER_1; type; sq_node from; sq_port from; confirm; size; dst; port].
Proof. reflexivity. Qed.

Definition is_u32 (x : Z) : Prop := 0 <= x < 2 ^ 32.

Lemma length_packet type from confirm dst port data : Z.of_nat (length data) < 2 ^ 32 ->
  Z.of_nat (length (packet type from confirm dst port data)) = ALIGN (Z.of_nat (length data)) 4 + sizeof_hdr_v1.
Proof.
  intros Hl. unfold packet, sizeof_hdr_v1. rewrite hdr_words, !length_app, length_words, length_replicate.
  destruct (ALIGN_4_bounds (Z.of_nat (length data)) ltac:(lia)) as [Ha _]. cbn [length]. lia.
Qed.

Lemma parse_packet type from confirm dst port data :
  0 <= type < 256 -> is_u32 (sq_node from) -> is_u32 (sq_port from) -> is_u32 dst -> is_u32 port ->
  confirm = 0 \/ confirm = 1 -> Z.of_nat (length data) < 2 ^ 32 ->
  parse_header (packet type from confirm dst port data) =
  Ok (Some (Cb (sq_node from) (sq_port from) dst port type confirm, Z.of_nat (length data), sizeof_hdr_v1)).
Proof.
  intros Ht Hn Hp Hd Hport Hc Hl. pose proof (length_packet type from confirm dst port data Hl) as Hlen.
  destruct (ALIGN_4_bounds (Z.of_nat (length data)) ltac:(lia)) as [Ha _]. unfold sizeof_hdr_v1 in Hlen.
  unfold parse_header. rewrite (field_ok 1) by lia. cbn [res_bind].
  change (le_val (take 1 (drop (Z.to_nat 0) (packet type from confirm dst port data)))) with (u8 QRTR_PROTO_VER_1 + 256 * 0).
  change (u8 QRTR_PROTO_VER_1 + 256 * 0 =? QRTR_PROTO_VER_1) with true. cbv iota.
  unfold parse_v1, sizeof_hdr_v1. rewrite Hlen. replace (_ <? 32) with false by lia.
  unfold packet. rewrite hdr_words. set (ws := [_; _; _; _; _; _; _; _]). set (rest := data ++ _).
  assert (Hf : forall i v, ws !! i = Some v -> field 4 (words ws ++ rest) (4 * Z.of_nat i) = Ok (u32 v))
    by (apply field_words).
  rewrite (Hf 1%nat type eq_refl : field 4 _ 4 = _), (Hf 2%nat _ eq_refl : field 4 _ 8 = _),
    (Hf 3%nat _ eq_refl : field 4 _ 12 = _), (Hf 4%nat _ eq_refl : field 4 _ 16 = _),
    (Hf 5%nat _ eq_refl : field 4 _ 20 = _), (Hf 6%nat _ eq_refl : field 4 _ 24 = _),
    (Hf 7%nat _ eq_refl : field 4 _ 28 = _).
  cbn [res_bind]. rewrite !u32_id by (unfold is_u32 in *; lia). unfold u8. rewrite Z.mod_small by lia.
  do 5 f_equal. destruct Hc as [-> | ->]; reflexivity.
Qed.

(** What [qrtr_node_enqueue] does with the packet once it is ready. *)
Definition sent_with (a : Z) (type : Z) (to : sockaddr_qrtr) (confirm_rx rc : Z) : ST router Z :=
  (if negb (rc =? 0) && negb (confirm_rx =? 0) then qrtr_tx_flow_failed a (sq_node to) (sq_port to)
   else st_ret tt) ;;;
  (if (rc =? 0) && (type =? QRTR_TYPE_HELLO)
   then upd_node a (fun n => with_hello (hello_sent n + 1) (hello_rcvd n) n) else st_ret tt) ;;;
  st_ret rc.

Definition dest_nid (n : qrtr_node) (to : sockaddr_qrtr) : Z :=
  if sq_node to =? QRTR_NODE_BCAST then nd_nid n else sq_node to.

Definition flag (c : Z) : Z := if c =? 0 then 0 else 1.

Definition confirm_of (w : ST router Z) (fuel : nat) (a : Z) (skb : sk_buff) (type : Z) (to : sockaddr_qrtr)
    (flags : Z) : ST router Z :=
  match skb_sk skb with
  | None => st_ret (cb_confirm_rx (skb_cb skb))
  | Some sk => qrtr_tx_wait w fuel a to sk type flags
  end.

(** A header followed by anything is a packet as far as its fields are concerned. *)
Definition packet_like (type : Z) (from : sockaddr_qrtr) (confirm dst port : Z) (data pkt : list Z) : Prop :=
  (exists rest, pkt = hdr_v1 type from confirm (Z.of_nat (length data)) dst port ++ rest) /\
  (Z.of_nat (length data) < 2 ^ 32 -> pkt = packet type from confirm dst port data).

Lemma padded_ok type from confirm dst port data s :
  exists r e, skb_put_padto (hdr_v1 type from confirm (Z.of_nat (length data)) dst port ++ data)
    (ALIGN (Z.of_nat (length data)) 4 + sizeof_hdr_v1) s = Ok (r, set_env e s) /\
    ((exists pkt, r = Some pkt /\ packet_like type from confirm dst port data pkt) \/ (r = None /\ env s EPad <> [])) /\
    (forall c, c <> EPad -> e c = env s c) /\ (env s EPad = [] -> e EPad = []).
Proof.
  unfold skb_put_padto, packet_like, packet. set (h := hdr_v1 _ _ _ _ _ _).
  replace (Z.of_nat (length (h ++ data))) with (32 + Z.of_nat (length data))
    by (rewrite length_app; change (length h) with 32%nat; lia).
  unfold sizeof_hdr_v1. set (n := Z.of_nat (length data)) in *.
  assert (Ha : n < 2 ^ 32 -> n <= ALIGN n 4) by (intros; apply ALIGN_4_bounds; lia). case_if.
  - replace (ALIGN n 4 + 32 - (32 + n)) with (ALIGN n 4 - n) by lia.
    destruct (ask_ok EPad s) as (r & e & Hr & He & H0 & Hk). rewrite (st_bind_ok _ _ _ _ _ Hr).
    eexists _, e. split; [reflexivity|]. split_and!; [|done|].
    + rewrite <-app_assoc. case_if; [left; eexists; split; [done|]; split; [by eexists|done]|right].
      split; [done|]. intros E. specialize (H0 E). lia.
    + apply Hk.
  - eexists _, (env s). split; [by destruct s|]. split; [|done]. left. eexists. split; [done|]. split; [by eexists|].
    intros Hn. specialize (Ha Hn). replace (ALIGN n 4 - n) with 0 by lia. cbn [replicate Z.to_nat]. by rewrite app_nil_r.
Qed.

(** The result of a transmission: one of the early exits, or the packet went to the transport. *)
Lemma enqueue_inv w fuel a skb type from to flags s rc s' :
  qrtr_node_enqueue w fuel a skb type from to flags s = Ok (rc, s') ->
  (s' = s /\ (rc = - ENODEV \/ (rc = 0 /\ type = QRTR_TYPE_HELLO /\
     exists n, nodes s !! a = Some n /\ hello_sent n <> 0))) \/
  exists c s1, confirm_of w fuel a skb type to flags s = Ok (c, s1) /\
    ((c < 0 /\ rc = c /\ s' = s1) \/
     0 <= c /\ exists n1 e, nodes s1 !! a = Some n1 /\
       (forall k, k <> EPad -> e k = env s1 k) /\ (env s1 EPad = [] -> e EPad = []) /\
       ((rc = - ENOMEM /\ s' = set_env e s1 /\ env s1 EPad <> []) \/
        exists pkt rc1 s2, packet_like type from (flag c) (dest_nid n1 to) (sq_port to) (skb_data skb) pkt /\
          node_xmit a pkt (set_env e s1) = Ok (rc1, s2) /\
          sent_with a type to c rc1 s2 = Ok (rc, s'))).
Proof.
  unfold qrtr_node_enqueue. cbv zeta. unfold node_of at 1.
  unfold st_bind at 1. destruct (nodes s !! a) as [n|] eqn:Hn; [|done].
  case_if; [intros [= <- <-]; left; auto|].
  case_if; [intros [= <- <-]; left; split; [done|]; right; split; [done|]; split; [lia|]; exists n; split; [done|lia]|].
  intros (c & s1 & Hc & H1)%st_bind_inv. right. exists c, s1. split; [exact Hc|].
  case_if_in H1; [injection H1 as <- <-; left; split; [lia|done]|right]. split; [lia|].
  apply st_bind_inv in H1 as (n1 & s1' & H1 & H2). unfold node_of in H1.
  destruct (nodes s1 !! a) as [n1'|] eqn:Hn1; [|done]. injection H1 as -> <-.
  fold (dest_nid n1 to) (flag c) in H2.
  destruct (padded_ok type from (flag c) (dest_nid n1 to) (sq_port to) (skb_data skb) s1) as (r & e & Hp & Hr & He & He').
  rewrite (st_bind_ok _ _ _ _ _ Hp) in H2. exists n1, e. split; [done|]. split; [done|]. split; [done|].
  destruct Hr as [(pkt & -> & Hpkt)|[-> Hpad]]; [right|left].
  - apply st_bind_inv in H2 as (rc1 & s2 & Hx & H2). by exists pkt, rc1, s2.
  - by injection H2 as <- <-.
Qed.

Lemma xmit_inv a b s rc s' : node_xmit a b s = Ok (rc, s') -> exists n, nodes s !! a = Some n /\
  ((nd_ep n = true /\ exists e, s' = log (Xmit a b rc) (set_env e s) /\ (env s EPad = [] -> e EPad = [])) \/
   (nd_ep n = false /\ rc = 0 /\ s' = s)).
Proof.
  intros (n & s1 & [Hn ->]%node_of_inv & H)%st_bind_inv. exists n. split; [done|].
  destruct (nd_ep n); [left|right; by injection H as <- <-]. split; [done|].
  destruct (ask_ok EXmit s) as (r & e & Hr & He & _ & _). rewrite (st_bind_ok _ _ _ _ _ Hr) in H.
  injection H as <- <-. exists e. split; [done|]. by rewrite He.
Qed.

Lemma sent_with_inv a type to c rc1 s rc s' : sent_with a type to c rc1 s = Ok (rc, s') -> rc = rc1.
Proof. intros (u & s1 & _ & (u' & s2 & _ & [= <- _])%st_bind_inv)%st_bind_inv. done. Qed.

Lemma sent_with_0 a type to c s s' n' : sent_with a type to c 0 s = Ok (0, s') -> nodes s' !! a = Some n' ->
  trace s' = trace s /\ exists n, nodes s !! a = Some n /\ nd_ep n = nd_ep n' /\ nd_nid n = nd_nid n'.
Proof.
  intros (u & s1 & [= _ <-] & H)%st_bind_inv Hn'. cbn [Z.eqb andb] in H.
  apply st_bind_inv in H as (u' & s2 & H & [= <-]). case_if_in H.
  - apply st_bind_inv in H as (n & s3 & [Hn ->]%node_of_inv & [= _ <-]). split; [done|]. cbn in Hn'.
    rewrite lookup_insert_eq in Hn'. injection Hn' as <-. by exists n.
  - injection H as _ <-. split; [done|]. by exists n'.
Qed.

(** A packet the transport of a node took is accepted on the other side. *)
Lemma post_packet b t m type from confirm dst port data :
  let cb := legacy_ctrl (Cb (sq_node from) (sq_port from) dst port type confirm) in
  0 <= type < 256 -> is_u32 (sq_node from) -> is_u32 (sq_port from) -> is_u32 dst -> is_u32 port ->
  confirm = 0 \/ confirm = 1 -> Z.of_nat (length data) < 2 ^ 32 ->
  nodes t !! b = Some m -> ports_live t -> env t EAlloc = [] -> env t EQueue = [] -> bad_type cb = false ->
  (type = QRTR_TYPE_NEW_SERVER -> 13 <= Z.of_nat (length data)) ->
  (type = QRTR_TYPE_DATA -> dst = qrtr_local_nid t -> is_Some (qrtr_ports t !! port_key (dst_port cb))) ->
  exists t', qrtr_endpoint_post b (packet type from confirm dst port data) t = Ok (0, t') /\ queued b cb data t t'.
Proof.
  intros cb Ht Hfn Hfp Hd Hp Hc Hl Hm Hlive Ha Hq Hbt Hserver Hport.
  pose proof (length_packet type from confirm dst port data Hl) as Hlen.
  destruct (ALIGN_4_bounds (Z.of_nat (length data)) ltac:(lia)) as [Hal Hal4].
  unfold qrtr_endpoint_post. cbv zeta. rewrite Hlen.
  assert (H3 : Z.land (ALIGN (Z.of_nat (length data)) 4 + sizeof_hdr_v1) 3 = 0).
  { change 3 with (Z.ones 2). rewrite Z.land_ones by lia. unfold sizeof_hdr_v1. change (2 ^ 2) with 4.
    rewrite Z.add_mod, Hal4 by lia. done. }
  rewrite H3. unfold sizeof_hdr_v1 at 1. bool_false ((ALIGN (Z.of_nat (length data)) 4 + 32 =? 0) || negb (0 =? 0)).
  destruct (post_alloc_ok b (ALIGN (Z.of_nat (length data)) 4 + sizeof_hdr_v1) t) as (g & s1 & Hg & Ha1 & Hok).
  rewrite (st_bind_ok _ _ _ _ _ Hg), (Hok Ha). cbn [negb].
  rewrite parse_packet, lift_ok, Z.eqb_refl by done. cbn [negb]. fold cb. rewrite Hbt.
  replace (take _ _) with data.
  2:{ unfold packet, sizeof_hdr_v1. change (Z.to_nat 32) with 32%nat.
      rewrite Nat2Z.id. set (h := hdr_v1 _ _ _ _ _ _). change (drop 32 (h ++ ?x)) with x. by rewrite take_app_length. }
  destruct (assigned_node _ _ _ _ Ha1 Hm) as [m1 Hm1].
  destruct (accept_ok b (packet type from confirm dst port data) cb sizeof_hdr_v1 s1 m1
    (post_deliver b (Skb None cb data)) Hm1) as (s2 & Ha2 & Hs2).
  { intros Hty. cbn in Hty. specialize (Hserver Hty).
    assert (16 <= ALIGN (Z.of_nat (length data)) 4) by (rewrite ALIGN_4 by lia; Z.to_euclidean_division_equations; lia).
    unfold sizeof_hdr_v1 in *. lia. }
  rewrite Hs2. apply (assigned_trans _ _ _ _ Ha1) in Ha2. destruct (assigned_node _ _ _ _ Ha2 Hm) as [m2 Hm2].
  pose proof Ha2 as ((E1 & E3 & _) & E2 & E4 & _ & _).
  assert (Hl2 : ports_live s2) by (intros p i; rewrite E2, E3; apply Hlive).
  destruct (deliver_ok b cb data s2 _ Hm2 Hl2) as (rc & t' & Hdel & Hres & H0).
  rewrite E4, E1, E3 in H0 by done. specialize (H0 Hq Hport). subst rc. exists t'. split; [exact Hdel|].
  destruct Hres as [[_ Hqd]|[[Hbad|Hbad] _]]; [|discriminate..]. by eapply queued_assigned.
Qed.

(** What the transport of a registered endpoint got, when a transmission succeeds. *)
Lemma sent_packet w fuel a skb type from to flags s s' n' :
  qrtr_node_enqueue w fuel a skb type from to flags s = Ok (0, s') ->
  nodes s' !! a = Some n' -> nd_ep n' = true ->
  (type = QRTR_TYPE_HELLO -> fmap hello_sent (nodes s !! a) = Some 0) ->
  Z.of_nat (length (skb_data skb)) < 2 ^ 32 -> exists tr confirm, (confirm = 0 \/ confirm = 1) /\
  trace s' = tr ++ [Xmit a (packet type from confirm (dest_nid n' to) (sq_port to) (skb_data skb)) 0].
Proof.
  intros He Hn' Hep Hhello Hl.
  destruct (enqueue_inv _ _ _ _ _ _ _ _ _ _ _ He) as [[-> [Hz|(_ & Hh & n & Hn & Hs)]]|(c & s1 & _ & Hrest)].
  - discriminate.
  - exfalso. specialize (Hhello Hh). rewrite Hn in Hhello. by injection Hhello.
  - destruct Hrest as [(? & ? & _)|(Hc & n1 & e & Hn1 & _ & _ & [(Hz & _)|(pkt & rc1 & s2 & [_ Hpkt] & Hx & Hsent)])]; [lia|discriminate|].
    specialize (Hpkt Hl). subst pkt.
    pose proof (sent_with_inv _ _ _ _ _ _ _ _ Hsent) as <-.
    destruct (sent_with_0 _ _ _ _ _ _ _ Hsent Hn') as (Htr & n2 & Hn2 & Hep2 & Hnid2).
    destruct (xmit_inv _ _ _ _ _ Hx) as (n3 & Hn3 & [(_ & e' & -> & _)|(Hep3 & _ & ->)]).
    2:{ cbn in *. simplify_eq. congruence. }
    cbn in Hn3, Hn2. assert (dest_nid n1 to = dest_nid n' to) as Hdn.
    { unfold dest_nid. by simplify_eq; rewrite Hnid2. }
    exists (trace s1), (flag c). rewrite <-Hdn. split; [unfold flag; case_if; auto|exact Htr].
Qed.

(** A packet survives the link between two routers: when a transmission succeeds on a
    registered endpoint, what its transport got is accepted by the router on the other side,
    and reaches the queue of the worker or of the local port there with the addresses, the
    type, the confirmation flag and the bytes it was sent with. *)
Theorem qrtr_link_roundtrip w fuel a skb type from to flags s s' n' :
  qrtr_node_enqueue w fuel a skb type from to flags s = Ok (0, s') ->
  nodes s' !! a = Some n' -> nd_ep n' = true ->
  (type = QRTR_TYPE_HELLO -> fmap hello_sent (nodes s !! a) = Some 0) ->
  0 <= type < 256 -> is_u32 (sq_node from) -> is_u32 (sq_port from) ->
  is_u32 (dest_nid n' to) -> is_u32 (sq_port to) -> Z.of_nat (length (skb_data skb)) < 2 ^ 32 ->
  exists tr pkt confirm, trace s' = tr ++ [Xmit a pkt 0] /\
  forall t b m,
    let cb := legacy_ctrl (Cb (sq_node from) (sq_port from) (dest_nid n' to) (sq_port to) type confirm) in
    nodes t !! b = Some m -> ports_live t -> env t EAlloc = [] -> env t EQueue = [] -> bad_type cb = false ->
    (type = QRTR_TYPE_NEW_SERVER -> 13 <= Z.of_nat (length (skb_data skb))) ->
    (type = QRTR_TYPE_DATA -> dest_nid n' to = qrtr_local_nid t ->
       is_Some (qrtr_ports t !! port_key (dst_port cb))) ->
    exists t', qrtr_endpoint_post b pkt t = Ok (0, t') /\ queued b cb (skb_data skb) t t'.
Proof.
  intros He Hn' Hep Hhello Ht Hfn Hfp Hd Hp Hl.
  destruct (sent_packet _ _ _ _ _ _ _ _ _ _ _ He Hn' Hep Hhello Hl) as (tr & confirm & Hc & Htr).
  eexists tr, _, confirm. split; [exact Htr|]. intros t b m cb. by apply post_packet.
Qed.

(** ** The size a transport sees *)
Lemma ALIGN32_4 x : 0 <= x <= 2 ^ 32 - 4 -> ALIGN32 x 4 = ALIGN x 4.
Proof.
  intros Hx. rewrite ALIGN_4 by lia. unfold ALIGN32. rewrite (u32_id (4 - 1)) by lia. rewrite (u32_id (x + _)) by lia.
  change (u32 (Z.lnot (4 - 1))) with (Z.shiftl (Z.ones 30) 2).
  assert (H : Z.land (x + (4 - 1)) (Z.shiftl (Z.ones 30) 2) = Z.shiftl ((x + 3) / 4) 2).
  { apply Z.bits_inj'. intros i Hi. rewrite Z.land_spec, !Z.shiftl_spec by lia.
    destruct (decide (i < 2)); [by rewrite !(Z.testbit_neg_r _ (i - 2)), andb_false_r by lia|].
    change ((x + 3) / 4) with ((x + 3) / 2 ^ 2). rewrite Z.div_pow2_bits by lia. replace (i - 2 + 2) with i by lia.
    replace (x + (4 - 1)) with (x + 3) by lia. destruct (decide (i < 32)).
    - rewrite Z.ones_spec_low by lia. apply andb_true_r.
    - rewrite Z.ones_spec_high, andb_false_r by lia. symmetry. rewrite <-(Z.mod_small (x + 3) (2 ^ 32)) by lia.
      apply Z.mod_pow2_bits_high. lia. }
  rewrite H, Z.shiftl_mul_pow2 by lia. lia.
Qed.

(** The size a transport peeks from the header is the length the router then checks: for
    data with a readable header of a size below 2^30, [qrtr_peek_pkt_size] returns the length
    of the data exactly when [qrtr_endpoint_post] finds its length right. *)
Theorem qrtr_peek_agrees data cb size hdrlen : is_bytes data ->
  parse_header data = Ok (Some (cb, size, hdrlen)) -> size < 2 ^ 30 ->
  (qrtr_peek_pkt_size data = Ok (Z.of_nat (length data)) <-> Z.of_nat (length data) = ALIGN size 4 + hdrlen).
Proof.
  intros Hb Hh Hs. destruct (parse_bounds _ _ _ _ Hb Hh) as [Hsz Hhl].
  destruct (ALIGN_4_bounds size ltac:(lia)) as [Ha _].
  assert (Hp : qrtr_peek_pkt_size data = Ok (ALIGN size 4 + hdrlen)).
  { revert Hh. unfold parse_header, qrtr_peek_pkt_size, parse_v1, parse_v2.
    destruct (field 1 data 0) as [ver| |]; cbn [res_bind]; [|done..].
    unfold sizeof_hdr_v1, sizeof_hdr_v2. repeat case_if; try done; rewrite !field_ok by lia; cbn [res_bind];
      intros [= _ -> <-]; rewrite ALIGN32_4, s32_id by lia; done. }
  rewrite Hp. split; [by intros [=]|by intros ->].
Qed.

(** ** The checksum *)

(** The sum of the half words of a packet. *)
Definition halves (p : qrtr_ctrl_pkt) : Z := foldr Z.add 0 (map (fun w => w / 2 ^ 16 + w mod 2 ^ 16) (pkt_words p)).

(** The complement of the sum in ones' complement arithmetic. *)
Definition ones_checksum (p : qrtr_ctrl_pkt) : Z :=
  0xffff - (if halves p =? 0 then 0 else (halves p - 1) mod 0xffff + 1).

Lemma half_sum w : 0 <= w < 2 ^ 32 ->
  u16 (Z.land (Z.shiftr w 16) 0xffff) + u16 (Z.land w 0xffff) = w / 2 ^ 16 + w mod 2 ^ 16 /\
  0 <= w / 2 ^ 16 + w mod 2 ^ 16 <= 2 * 0xffff.
Proof.
  intros Hw. change 0xffff with (Z.ones 16). rewrite !Z.land_ones, Z.shiftr_div_pow2 by lia.
  assert (w / 2 ^ 16 < 2 ^ 16) by (apply Z.div_lt_upper_bound; lia). assert (0 <= w / 2 ^ 16) by (apply Z.div_pos; lia).
  pose proof (Z.mod_pos_bound w (2 ^ 16)). change (Z.ones 16) with 0xffff.
  rewrite (Z.mod_small (w / 2 ^ 16)), !u16_id by lia. lia.
Qed.

Lemma checksum_sum_eq ws : forall acc, Forall (fun w => 0 <= w < 2 ^ 32) ws ->
  0 <= acc -> acc + 2 * 0xffff * Z.of_nat (length ws) < 2 ^ 32 ->
  checksum_sum ws acc = acc + foldr Z.add 0 (map (fun w => w / 2 ^ 16 + w mod 2 ^ 16) ws).
Proof.
  induction ws as [|w ws IH]; intros acc Hw Ha Hl; cbn [checksum_sum map foldr length] in *; [lia|].
  apply Forall_cons in Hw as [Hw Hws]. destruct (half_sum w Hw) as [-> Hr].
  rewrite u32_id by lia. rewrite IH by (done || lia). lia.
Qed.

Lemma fold_once c : 0 <= c < 2 ^ 32 ->
  Z.land c 0xffff + Z.land (Z.shiftr c 16) 0xffff = c mod 2 ^ 16 + c / 2 ^ 16.
Proof.
  intros Hc. change 0xffff with (Z.ones 16). rewrite !Z.land_ones, Z.shiftr_div_pow2 by lia.
  rewrite (Z.mod_small (c / 2 ^ 16)); [done|]. split; [apply Z.div_pos; lia|apply Z.div_lt_upper_bound; lia].
Qed.

Lemma checksum_fold_eq c : 0 <= c <= 10 * 0xffff ->
  checksum_fold 2 c = if c =? 0 then 0 else (c - 1) mod 0xffff + 1.
Proof.
  intros Hc. cbn [checksum_fold]. rewrite fold_once by lia.
  pose proof (Z.div_mod c (2 ^ 16) ltac:(lia)) as Hd. pose proof (Z.mod_pos_bound c (2 ^ 16) ltac:(lia)) as Hm.
  set (q := c / 2 ^ 16) in *. set (r := c mod 2 ^ 16) in *. rewrite fold_once by lia.
  case_if; [case_if|].
  - assert (Hq : (r + q) / 2 ^ 16 = 1) by (symmetry; apply Z.div_unique with (r := r + q - 2 ^ 16); lia).
    rewrite Hq, Z.mod_eq, Hq by lia. bool_false (c =? 0).
    replace ((c - 1) mod 65535) with (r + q - 65536); [lia|]. apply Z.mod_unique with (q := q + 1); lia.
  - bool_false (c =? 0). replace ((c - 1) mod 65535) with (r + q - 1); [lia|]. apply Z.mod_unique with (q := q); lia.
  - case_if; [lia|]. rewrite Z.mod_small by lia. lia.
Qed.

(** C39: the loops of [qrtr_calc_checksum] compute the ones' complement checksum of the packet:
    two rounds of folding always end, and the result is the closed form [ones_checksum], which
    makes the half words and the checksum add up to 0 modulo 65535. *)
Theorem qrtr_checksum_correct p : pkt_ok p ->
  qrtr_calc_checksum (Some p) = ones_checksum p /\
  0 <= qrtr_calc_checksum (Some p) <= 0xffff /\
  (halves p + qrtr_calc_checksum (Some p)) mod 0xffff = 0.
Proof.
  intros Hp. unfold qrtr_calc_checksum. unfold pkt_ok in Hp.
  assert (Hr : 0 <= halves p <= 10 * 0xffff).
  { unfold halves. destruct p as [c w0 w1 w2 w3]. cbn [pkt_words map foldr p_cmd p_w0 p_w1 p_w2 p_w3] in *.
    repeat (apply Forall_cons in Hp as [?Hw Hp]). cbn in *.
    pose proof (proj2 (half_sum _ Hw)). pose proof (proj2 (half_sum _ Hw0)). pose proof (proj2 (half_sum _ Hw1)).
    pose proof (proj2 (half_sum _ Hw2)). pose proof (proj2 (half_sum _ Hw3)). lia. }
  rewrite checksum_sum_eq by (done || (cbn; lia)). fold (halves p). rewrite Z.add_0_l, checksum_fold_eq by done.
  assert (Hf : 0 <= (if halves p =? 0 then 0 else (halves p - 1) mod 65535 + 1) <= 65535).
  { case_if; [lia|]. pose proof (Z.mod_pos_bound (halves p - 1) 65535). lia. }
  assert (Hc : Z.land (u32 (Z.lnot (if halves p =? 0 then 0 else (halves p - 1) mod 65535 + 1))) 65535 = ones_checksum p).
  { unfold ones_checksum. revert Hf. generalize (if halves p =? 0 then 0 else (halves p - 1) mod 65535 + 1).
    intros x Hf. change 65535 with (Z.ones 16) at 1. rewrite Z.land_ones by lia.
    unfold Z.lnot. replace (u32 (Z.pred (- x))) with (2 ^ 32 - 1 - x)
      by (unfold u32; apply Z.mod_unique with (q := -1); lia).
    symmetry. apply Z.mod_unique with (q := 65535); lia. }
  rewrite Hc. split; [done|]. unfold ones_checksum. split; [lia|]. case_if.
  - replace (halves p) with 0 by lia. done.
  - pose proof (Z.div_mod (halves p - 1) 65535 ltac:(lia)) as Hd. set (q := (halves p - 1) / 65535) in *.
    replace (halves p + (65535 - ((halves p - 1) mod 65535 + 1))) with ((q + 1) * 65535) by lia. apply Z.mod_mul. lia.
Qed.
