(* ===== verification/QrtrSocket.v ===== *)
(** * The socket calls of the message router (net/qrtr/qrtr.c)

    Binding of ports, sending, receiving and the other calls of the socket family, on the
    router of [QrtrRouter]. *)
From S2P Require Import Prelude CMem KernelIdr QrtrNs QrtrRouter.
Open Scope c_scope.

Definition QRTR_MIN_EPH_SOCKET : Z := 0x4000.
Definition QRTR_MAX_EPH_SOCKET : Z := 0x7fff.
Definition QRTR_STATE_MULTI : Z := -2.
Definition QRTR_STATE_INIT : Z := -1.
Definition AF_QIPCRTR : Z := 42.
Definition SOCK_DGRAM : Z := 2.
Definition sizeof_sockaddr_qrtr : Z := 12.
Definition MAX_SCHEDULE_TIMEOUT : Z := 2 ^ 63 - 1.

Section socket.
Context `{Idr}.
Context (wait_resume : ST router Z) (fuel : nat).

(** An allocated number, or the error; [next] is where the next search starts. *)
Definition idr_take (i r next : Z) : ST router Z :=
  let! nomem := ask EInsert in
  if negb (nomem =? 0) then st_ret (- ENOMEM) else
  (if 0 <=? r then st_upd (fun s => set_ports (<[r := i]> (qrtr_ports s)) next s) else st_ret tt) ;;;
  st_ret r.

(** [qrtr_port_assign]: the result and the port; [capable] is the outcome of the three
    permission checks. *)
Definition qrtr_port_assign (capable : bool) (i port : Z) : ST router (Z * Z) :=
  let! m := st_get qrtr_ports in
  let! next := st_get ports_next in
  let! r :=
    (if port =? 0 then
       let r := idr_alloc_cyclic m next QRTR_MIN_EPH_SOCKET (QRTR_MAX_EPH_SOCKET + 1) in
       let! rc := idr_take i r (r + 1) in st_ret (rc, if 0 <=? rc then rc else port)
     else if (port <? QRTR_MIN_EPH_SOCKET) && negb capable then st_ret (- EACCES, port)
     else if u32 port =? QRTR_PORT_CTRL then
       let! rc := idr_take i (idr_alloc m 0 1) next in st_ret (rc, port)
     else
       let r := idr_alloc_cyclic m next port (port + 1) in
       let! rc := idr_take i r (r + 1) in st_ret (rc, if 0 <=? rc then rc else port)) in
  let '(rc, port) := r in
  if rc =? - ENOSPC then st_ret (- EADDRINUSE, port) else
  if rc <? 0 then st_ret (rc, port) else
  sock_hold i ;;; st_ret (0, port).

Fixpoint reset_ports_loop (l : list Z) : ST router unit :=
  match l with
  | [] => st_ret tt
  | id :: l =>
    let! ipc := st_get (fun s => qrtr_ports s !! id) in
    (match ipc with
     | Some i => if id =? 0 then st_ret tt else sock_hold i ;;; upd_sock i (with_err ENETRESET) ;;; sock_put i
     | None => st_ret tt
     end) ;;;
    reset_ports_loop l
  end.

Definition qrtr_reset_ports : ST router unit :=
  let! l := st_get (fun s => xa_indices (qrtr_ports s)) in reset_ports_loop l.

Fixpoint bcast_loop (skb : sk_buff) (type : Z) (from to : sockaddr_qrtr) (flags : Z) (l : list Z)
    : ST router unit :=
  match l with
  | [] => st_ret tt
  | a :: l =>
    let! n := node_of a in
    if (nd_nid n =? QRTR_EP_NID_AUTO) && negb (type =? QRTR_TYPE_HELLO)
    then bcast_loop skb type from to flags l else
    let! rc := ask EAlloc in
    if negb (rc =? 0) then st_ret tt else
    qrtr_node_enqueue wait_resume fuel a (Skb (skb_sk skb) (skb_cb skb) (skb_data skb)) type from to flags ;;;
    bcast_loop skb type from to flags l
  end.

Definition qrtr_bcast_enqueue (skb : sk_buff) (type : Z) (from to : sockaddr_qrtr) (flags : Z) : ST router Z :=
  let! l := st_get qrtr_all_epts in
  bcast_loop skb type from to flags l ;;;
  qrtr_local_enqueue skb from to ;;;
  st_ret 0.

(** ** Closing a port *)
Definition qrtr_send_del_client (i : Z) : ST router unit :=
  let! ok := qrtr_alloc_ctrl_packet in
  if negb ok then st_ret tt else
  let to := Sockaddr QRTR_NODE_BCAST QRTR_PORT_CTRL in
  let! k := sock_of i in
  let pkt := Pkt QRTR_TYPE_DEL_CLIENT (sq_node (us k)) (sq_port (us k)) 0 0 in
  let skb := Skb (Some i) cb0 (pkt_bytes pkt) in
  if sk_qstate k =? QRTR_STATE_MULTI then qrtr_bcast_enqueue skb QRTR_TYPE_DEL_CLIENT (us k) to 0 ;;; st_ret tt
  else
    (if sk_qstate k >? QRTR_STATE_INIT then
       let! node := qrtr_node_lookup (sk_qstate k) in
       match node with
       | None => st_ret tt
       | Some a =>
         let! rc := ask EAlloc in
         (if rc =? 0 then
            qrtr_node_enqueue wait_resume fuel a skb QRTR_TYPE_DEL_CLIENT (us k) to 0 ;;; st_ret tt
          else st_ret tt) ;;;
         qrtr_node_release (Some a)
       end
     else st_ret tt) ;;;
    qrtr_local_enqueue skb (us k) to ;;;
    st_ret tt.

Definition qrtr_port_remove (i : Z) : ST router unit :=
  let! k := sock_of i in
  qrtr_send_del_client i ;;;
  upd_sock i (fun k => with_refs (sk_refs k - 1) k) ;;;
  st_upd (fun s => set_ports (delete (port_key (sq_port (us k))) (qrtr_ports s)) (ports_next s) s).

(** ** Binding *)
Fixpoint reset_hello (l : list Z) : ST router unit :=
  match l with
  | [] => st_ret tt
  | a :: l => upd_node a (with_hello 0 0) ;;; reset_hello l
  end.

Definition __qrtr_bind (capable : bool) (i port : Z) (zapped : bool) : ST router Z :=
  let! k := sock_of i in
  if negb zapped && (port =? sq_port (us k)) then st_ret 0 else
  let! r := qrtr_port_assign capable i (s32 port) in
  let '(rc, port) := r in
  if negb (rc =? 0) then st_ret rc else
  (if u32 port =? QRTR_PORT_CTRL then
     qrtr_reset_ports ;;;
     let! l := st_get qrtr_all_epts in reset_hello l
   else st_ret tt) ;;;
  (if zapped then st_ret tt else qrtr_port_remove i) ;;;
  upd_sock i (with_bound (u32 port)) ;;;
  st_ret 0.

Definition qrtr_autobind (capable : bool) (i : Z) : ST router Z :=
  let! k := sock_of i in
  if negb (sk_zapped k) then st_ret 0 else __qrtr_bind capable i 0 true.

Definition qrtr_bind (capable : bool) (i len family : Z) (addr : sockaddr_qrtr) : ST router Z :=
  let! k := sock_of i in
  if (len <? sizeof_sockaddr_qrtr) || negb (family =? AF_QIPCRTR) then st_ret (- EINVAL) else
  if negb (sq_node addr =? sq_node (us k)) then st_ret (- EINVAL) else
  __qrtr_bind capable i (sq_port addr) (sk_zapped k).

(** ** Sending *)

(** The name of a message: its length, its family and the address. *)
Record msghdr := Msghdr { msg_name : option (Z * Z * sockaddr_qrtr); msg_flags : Z; msg_data : list Z }.

(** [sock_error]: the pending error is reported once. *)
Definition sock_error (i : Z) : ST router Z :=
  let! k := sock_of i in
  if sk_err k =? 0 then st_ret 0 else upd_sock i (with_err 0) ;;; st_ret (- sk_err k).

Definition sock_alloc_send_skb (i : Z) : ST router bool :=
  let! e := sock_error i in
  if negb (e =? 0) then st_ret false else
  let! rc := ask EAlloc in st_ret (rc =? 0).

(** The address a message goes to, or the error. *)
Definition send_addr (capable : bool) (i : Z) (msg : msghdr) : ST router (Z + sockaddr_qrtr) :=
  match msg_name msg with
  | Some (namelen, family, addr) =>
    if namelen <? sizeof_sockaddr_qrtr then st_ret (inl (- EINVAL)) else
    if negb (family =? AF_QIPCRTR) then st_ret (inl (- EINVAL)) else
    let! rc := qrtr_autobind capable i in
    st_ret (if rc =? 0 then inr addr else inl rc)
  | None =>
    let! k := sock_of i in
    st_ret (if sk_established k then inr (peer k) else inl (- ENOTCONN))
  end.

(** Where a message goes: the three values of [enqueue_fn]. *)
Inductive route := ToAll | ToLocal | ToNode (a : Z).

Definition route_node (r : route) : option Z := match r with ToNode a => Some a | _ => None end.

Definition send_route (i : Z) (addr : sockaddr_qrtr) : ST router (Z + route) :=
  let! k := sock_of i in
  let! local := st_get qrtr_local_nid in
  if sq_node addr =? QRTR_NODE_BCAST then
    if negb (sq_port addr =? QRTR_PORT_CTRL) && negb (local =? QRTR_NODE_BCAST)
    then st_ret (inl (- ENOTCONN)) else st_ret (inr ToAll)
  else if sq_node addr =? sq_node (us k) then st_ret (inr ToLocal)
  else
    let! node := qrtr_node_lookup (sq_node addr) in
    match node with
    | None => st_ret (inl (- ECONNRESET))
    | Some a =>
      let! n := node_of a in
      (if (sk_qstate k >? QRTR_STATE_INIT) && negb (u32 (sk_qstate k) =? nd_nid n)
       then upd_sock i (with_qstate QRTR_STATE_MULTI)
       else if sk_qstate k =? QRTR_STATE_INIT then upd_sock i (with_qstate (s32 (nd_nid n))) else st_ret tt) ;;;
      st_ret (inr (ToNode a))
    end.

(** The server a NEW_SERVER message names: its node is read from the packet, or from an
    uninitialised variable when the message is shorter. *)
Definition send_server_node (data : list Z) : ST router Z :=
  if Z.of_nat (length data) <? sizeof_ctrl_pkt then ask EStack else st_ret (server_node (pkt_at data)).

Definition send_filter (i : Z) (node : option Z) (addr : sockaddr_qrtr) (type : Z) (data : list Z)
    : ST router bool :=
  if (sq_port addr =? QRTR_PORT_CTRL) && (type =? QRTR_TYPE_NEW_SERVER) then
    upd_sock i (with_qstate QRTR_STATE_MULTI) ;;;
    let! nid := send_server_node data in
    let! srv_node := qrtr_node_lookup nid in
    let! fwd := qrtr_must_forward srv_node node type in
    qrtr_node_release srv_node ;;;
    st_ret fwd
  else st_ret true.

Definition enqueue_fn (r : route) (skb : sk_buff) (type : Z) (from to : sockaddr_qrtr) (flags : Z) : ST router Z :=
  match r with
  | ToAll => qrtr_bcast_enqueue skb type from to flags
  | ToLocal => qrtr_local_enqueue skb from to
  | ToNode a => qrtr_node_enqueue wait_resume fuel a skb type from to flags
  end.

(** The message after its route is known. *)
Definition send_data (i : Z) (r : route) (addr : sockaddr_qrtr) (msg : msghdr) : ST router Z :=
  let len := Z.of_nat (length (msg_data msg)) in
  let! ok := sock_alloc_send_skb i in
  if negb ok then st_ret (- ENOMEM) else
  let! rc := ask ECopy in
  if negb (rc =? 0) then st_ret rc else
  let! k := sock_of i in
  let ctrl := (sq_port (us k) =? QRTR_PORT_CTRL) || (sq_port addr =? QRTR_PORT_CTRL) in
  if ctrl && (len <? 4) then st_ret (- EINVAL) else
  let type := if ctrl then le_val (take 4 (msg_data msg)) else QRTR_TYPE_DATA in
  let! fwd := send_filter i (route_node r) addr type (msg_data msg) in
  if negb fwd then st_ret 0 else
  let! k := sock_of i in
  let! rc := enqueue_fn r (Skb (Some i) cb0 (msg_data msg)) type (us k) addr (msg_flags msg) in
  st_ret (if 0 <=? rc then len else rc).

Definition qrtr_sendmsg (capable : bool) (i : Z) (msg : msghdr) : ST router Z :=
  if negb (Z.ldiff (msg_flags msg) MSG_DONTWAIT =? 0) then st_ret (- EINVAL) else
  if Z.of_nat (length (msg_data msg)) >? 65535 then st_ret (- EMSGSIZE) else
  let! addr := send_addr capable i msg in
  match addr with
  | inl rc => st_ret rc
  | inr addr =>
    let! r := send_route i addr in
    match r with
    | inl rc => st_ret rc
    | inr r =>
      let! rc := send_data i r addr msg in
      qrtr_node_release (route_node r) ;;;
      st_ret rc
    end
  end.

(** ** Receiving *)
Definition qrtr_send_resume_tx (cb : qrtr_cb) : ST router Z :=
  let! node := qrtr_node_lookup (src_node cb) in
  match node with
  | None => st_ret (- EINVAL)
  | Some a =>
    let! ok := qrtr_alloc_ctrl_packet in
    if negb ok then st_ret (- ENOMEM) else
    let! ret := qrtr_node_enqueue wait_resume fuel a
                  (ctrl_skb (Pkt QRTR_TYPE_RESUME_TX (dst_node cb) (dst_port cb) 0 0)) QRTR_TYPE_RESUME_TX
                  (Sockaddr (dst_node cb) (dst_port cb)) (Sockaddr (src_node cb) (src_port cb)) 0 in
    qrtr_node_release (Some a) ;;;
    st_ret ret
  end.

(** [skb_recv_datagram]: a pending error, the first packet, or the answer of the wait. *)
Definition skb_recv_datagram (i : Z) : ST router (Z + sk_buff) :=
  let! e := sock_error i in
  if negb (e =? 0) then st_ret (inl e) else
  let! k := sock_of i in
  match sk_queue k with
  | skb :: q => upd_sock i (with_queue q) ;;; st_ret (inr skb)
  | [] => let! rc := ask ERecv in st_ret (inl (if rc =? 0 then - EAGAIN else rc))
  end.

(** What the caller gets: the result, the bytes, the sender and whether the message was cut. *)
Record received := Received { rc_result : Z; rc_bytes : list Z; rc_from : option sockaddr_qrtr; rc_trunc : bool }.

Definition qrtr_recvmsg (i size : Z) (want_addr : bool) : ST router received :=
  let! k := sock_of i in
  if sk_zapped k then st_ret (Received (- EADDRNOTAVAIL) [] None false) else
  let! r := skb_recv_datagram i in
  match r with
  | inl rc => st_ret (Received rc [] None false)
  | inr skb =>
    let cb := skb_cb skb in
    let len := Z.of_nat (length (skb_data skb)) in
    let copied := if len >? size then size else len in
    let! rc := ask ECopy in
    let out :=
      if rc <? 0 then Received rc [] None (len >? size)
      else Received copied (take (Z.to_nat copied) (skb_data skb))
             (if want_addr then Some (Sockaddr (src_node cb) (src_port cb)) else None) (len >? size) in
    (if cb_confirm_rx cb =? 0 then st_ret 0 else qrtr_send_resume_tx cb) ;;;
    st_ret out
  end.

(** ** The other calls *)
Definition qrtr_connect (capable : bool) (i len family : Z) (addr : sockaddr_qrtr) : ST router Z :=
  if (len <? sizeof_sockaddr_qrtr) || negb (family =? AF_QIPCRTR) then st_ret (- EINVAL) else
  upd_sock i (fun k => with_peer (peer k) false k) ;;;
  let! rc := qrtr_autobind capable i in
  if negb (rc =? 0) then st_ret rc else
  upd_sock i (with_peer addr true) ;;;
  st_ret 0.

Definition qrtr_getname (i : Z) (want_peer : bool) : ST router (Z + sockaddr_qrtr) :=
  let! k := sock_of i in
  st_ret (if want_peer then (if sk_established k then inr (peer k) else inl (- ENOTCONN)) else inr (us k)).

(** The requests [qrtr_ioctl] knows; the free space of the send buffer is an input. *)
Inductive ioctl := TIOCOUTQ (space : Z) | TIOCINQ | SIOCGIFADDR | SIOC_invalid | Ioctl_other.

Definition qrtr_ioctl (i : Z) (cmd : ioctl) : ST router (Z * option (Z + sockaddr_qrtr)) :=
  let! k := sock_of i in
  match cmd with
  | TIOCOUTQ space =>
    let! rc := ask ECopy in st_ret (rc, Some (inl (if space <? 0 then 0 else space)))
  | TIOCINQ =>
    let! rc := ask ECopy in
    st_ret (rc, Some (inl (match sk_queue k with skb :: _ => Z.of_nat (length (skb_data skb)) | [] => 0 end)))
  | SIOCGIFADDR =>
    let! rc := ask ECopy in
    if negb (rc =? 0) then st_ret (- EFAULT, None) else
    let! rc := ask ECopy in
    if negb (rc =? 0) then st_ret (- EFAULT, None) else st_ret (0, Some (inr (us k)))
  | SIOC_invalid => st_ret (- EINVAL, None)
  | Ioctl_other => st_ret (- ENOIOCTLCMD, None)
  end.

Definition qrtr_release (sk : option Z) : ST router Z :=
  match sk with
  | None => st_ret 0
  | Some i =>
    let! k := sock_of i in
    (if sk_zapped k then st_ret tt else qrtr_port_remove i) ;;;
    upd_sock i (with_queue []) ;;;
    sock_put i ;;;
    st_ret 0
  end.

(** The result is the error or the new socket. *)
Definition qrtr_create (type : Z) : ST router (Z + Z) :=
  if negb (type =? SOCK_DGRAM) then st_ret (inl (- EPROTOTYPE)) else
  let! rc := ask EAlloc in
  if negb (rc =? 0) then st_ret (inl (- ENOMEM)) else
  let! i := st_get next_obj in
  let! local := st_get qrtr_local_nid in
  st_upd (set_next (i + 1)) ;;;
  put_sock i (Sock (Sockaddr local 0) (Sockaddr 0 0) QRTR_STATE_INIT 0 true false MAX_SCHEDULE_TIMEOUT [] 1) ;;;
  st_ret (inr i).

(** Module start: [proto] and [family] are the results of the two registrations. *)
Definition qrtr_proto_init (proto family : Z) : ST router Z :=
  if negb (proto =? 0) then st_ret proto else
  if negb (family =? 0) then st_ret family else
  qrtr_backup_init ;;; st_ret family.
End socket.
