(* ===== verification/QrtrFlow.v ===== *)
(** * Flow control of the message router

    Every operation of the router as a step, interleaved wherever a sender waits; the
    counters of the flows stay within their watermarks, and a flow that holds a sender back
    is always owed a resume packet. *)
From stdpp Require Import sorting.
From S2P Require Import Prelude CMem KernelIdr QrtrNs QrtrRouter QrtrPacket QrtrSocket.
Open Scope c_scope.

(** ** Steps of the router *)
Inductive op :=
| OPost (a : Z) (data : list Z)
| ORxWork (a : Z)
| OHello (a : Z)
| ORegister (ep task : bool) (net_id : Z)
| OUnregister (a : Z)
| OBackup
| OBind (capable : bool) (i len family : Z) (addr : sockaddr_qrtr)
| OSend (capable : bool) (i : Z) (msg : msghdr)
| ORecv (i size : Z) (want_addr : bool)
| OConnect (capable : bool) (i len family : Z) (addr : sockaddr_qrtr)
| OIoctl (i : Z) (cmd : ioctl)
| ORelease (i : Z)
| OCreate (type : Z)
| OEnv (e : env_call -> list Z).

Definition drop_result {A} (c : ST router A) : ST router unit := c ;;; st_ret tt.

Definition run `{Idr} (w : ST router Z) (fuel : nat) (o : op) : ST router unit :=
  match o with
  | OPost a data => drop_result (qrtr_endpoint_post a data)
  | ORxWork a => qrtr_node_rx_work w fuel a
  | OHello a => qrtr_hello_work w fuel a
  | ORegister ep task net_id => drop_result (qrtr_endpoint_register ep task net_id)
  | OUnregister a => qrtr_endpoint_unregister w fuel a
  | OBackup => qrtr_alloc_backup
  | OBind capable i len family addr => drop_result (qrtr_bind w fuel capable i len family addr)
  | OSend capable i msg => drop_result (qrtr_sendmsg w fuel capable i msg)
  | ORecv i size want => drop_result (qrtr_recvmsg w fuel i size want)
  | OConnect capable i len family addr => drop_result (qrtr_connect w fuel capable i len family addr)
  | OIoctl i cmd => drop_result (qrtr_ioctl i cmd)
  | ORelease i => drop_result (qrtr_release w fuel (Some i))
  | OCreate type => drop_result (qrtr_create type)
  | OEnv e => st_upd (set_env e)
  end.

(** What the answers of the rest of the kernel may be. *)
Definition op_ok (ok_env : (env_call -> list Z) -> Prop) (o : op) : Prop :=
  match o with OEnv e => ok_env e | _ => True end.

(** Sequences of operations; while an operation waits, the rest of the system takes steps. *)
Inductive reach `{Idr} (ok_env : (env_call -> list Z) -> Prop) : router -> router -> Prop :=
| reach_refl s : reach ok_env s s
| reach_trans s s' s'' : reach ok_env s s' -> reach ok_env s' s'' -> reach ok_env s s''
| reach_op (w : ST router Z) (fuel : nat) (o : op) s r s' :
    (forall t v t', w t = Ok (v, t') -> reach ok_env t t') ->
    op_ok ok_env o -> run w fuel o s = Ok (r, s') -> reach ok_env s s'.

(** ** Preserved properties *)
Definition preserves {A} (P : router -> Prop) (c : ST router A) : Prop :=
  forall s r s', P s -> c s = Ok (r, s') -> P s'.

Create HintDb kept.

Section preserves.
Context (P : router -> Prop).

Lemma pr_ret {A} (a : A) : preserves P (st_ret a).
Proof. intros s r s' Hs [= <- <-]. done. Qed.
Lemma pr_bind {A B} (c : ST router A) (k : A -> ST router B) :
  preserves P c -> (forall a, preserves P (k a)) -> preserves P (st_bind c k).
Proof. intros Hc Hk s r s' Hs (a & s1 & H1 & H2)%st_bind_inv. eapply Hk; [|done]. by eapply Hc. Qed.
Lemma pr_get {A} (f : router -> A) : preserves P (st_get f).
Proof. intros s r s' Hs [= <- <-]. done. Qed.
Lemma pr_upd f : (forall s, P s -> P (f s)) -> preserves P (st_upd f).
Proof. intros Hf s r s' Hs [= <- <-]. auto. Qed.
Lemma pr_fault {A} : preserves P (fun _ : router => @Fault (A * router)).
Proof. intros s r s' _. discriminate. Qed.
Lemma pr_loop {A} : preserves P (fun _ : router => @Loop (A * router)).
Proof. intros s r s' _. discriminate. Qed.
Lemma pr_lift {A} (r : res A) : preserves P (lift r).
Proof. intros s v s' Hs. unfold lift. destruct r; intros [=]; by subst. Qed.
Lemma pr_node_of a : preserves P (node_of a).
Proof. intros s r s' Hs. unfold node_of. destruct (nodes s !! a); intros [=]; by subst. Qed.
Lemma pr_sock_of a : preserves P (sock_of a).
Proof. intros s r s' Hs. unfold sock_of. destruct (socks s !! a); intros [=]; by subst. Qed.
End preserves.

#[export] Hint Resolve pr_ret pr_get pr_fault pr_loop pr_lift pr_node_of pr_sock_of : kept.

(** Splits a computation at its binds, tests and matches and closes the parts it knows. *)
Ltac kept_step :=
  match goal with
  | |- preserves _ (st_bind _ _) => apply pr_bind; [|intros ?]
  | |- preserves _ (if ?b then _ else _) => destruct b
  | |- preserves _ (match ?x with _ => _ end) => destruct x
  | |- preserves _ (let _ := _ in _) => cbv zeta
  end.
Ltac kept := repeat first [progress (eauto 4 with kept) | kept_step].

(** A property of the nodes, the transmissions and the memory for padding; everything that
    touches only sockets, ports and buffers keeps it. *)
Class ExtProp (P : router -> Prop) := {
  np_ext : forall s s', nodes s' = nodes s -> trace s' = trace s -> env s' EPad = env s EPad -> P s -> P s';
  np_ask : forall c, preserves P (ask c);
}.

Section ext.
Context (P : router -> Prop) `{HP : ExtProp P}.
Local Hint Resolve np_ask : kept.

Lemma k_upd f : (forall s, nodes (f s) = nodes s /\ trace (f s) = trace s /\ env (f s) EPad = env s EPad) ->
  preserves P (st_upd f).
Proof. intros Hf. apply pr_upd. intros s. destruct (Hf s) as (? & ? & ?). by apply np_ext. Qed.
Lemma k_backup lo hi b : preserves P (st_upd (set_backup lo hi b)).
Proof. by apply k_upd. Qed.
Lemma k_tree f : preserves P (st_upd (fun s => set_tree (f s) s)).
Proof. by apply k_upd. Qed.
Lemma k_epts f : preserves P (st_upd (fun s => set_epts (f s) s)).
Proof. by apply k_upd. Qed.
Lemma k_ports f g : preserves P (st_upd (fun s => set_ports (f s) (g s) s)).
Proof. by apply k_upd. Qed.
Lemma k_socks f : preserves P (st_upd (fun s => set_socks (f s) s)).
Proof. by apply k_upd. Qed.
Lemma k_next n : preserves P (st_upd (set_next n)).
Proof. by apply k_upd. Qed.
Local Hint Resolve k_socks : kept.
Lemma k_put_sock i k : preserves P (put_sock i k).
Proof. apply k_socks. Qed.
Local Hint Resolve k_put_sock : kept.
Lemma k_upd_sock i f : preserves P (upd_sock i f).
Proof. unfold upd_sock. kept. Qed.
Local Hint Resolve k_upd_sock : kept.
Lemma k_hold i : preserves P (sock_hold i).
Proof. apply k_upd_sock. Qed.
Lemma k_put i : preserves P (sock_put i).
Proof. unfold sock_put. kept. Qed.
Local Hint Resolve k_hold k_put : kept.
Lemma k_queue i skb : preserves P (sock_queue_rcv_skb i skb).
Proof. unfold sock_queue_rcv_skb. kept. Qed.
Local Hint Resolve k_queue : kept.
Lemma k_lookup p : preserves P (qrtr_port_lookup p).
Proof. unfold qrtr_port_lookup. kept. Qed.
Lemma k_local skb from to : preserves P (qrtr_local_enqueue skb from to).
Proof. pose proof k_lookup. unfold qrtr_local_enqueue, sk_reset, qrtr_port_put. kept. Qed.
Local Hint Resolve k_local : kept.
Lemma k_resume_waiters src l : preserves P (resume_waiters src l).
Proof. induction l; cbn [resume_waiters]; kept. Qed.
End ext.

#[export] Hint Resolve np_ask k_backup k_tree k_epts k_ports k_socks k_next k_put_sock k_upd_sock
  k_hold k_put k_queue k_lookup k_local k_resume_waiters : kept.

Class NodeProp (P : router -> Prop) := {
  np_extprop :: ExtProp P;
  np_upd : forall a f, (forall n, tx_flows (f n) = tx_flows n /\ (nd_ep (f n) = true -> nd_ep n = true)) ->
    preserves P (upd_node a f);
  np_new : forall a n, tx_flows n = ∅ -> preserves P (put_node a n);
  np_free : forall a s, P s -> P (set_nodes (delete a (nodes s)) s);
  np_enqueue : forall w fuel a skb type from to flags, preserves P w ->
    preserves P (qrtr_node_enqueue w fuel a skb type from to flags);
  np_resume : forall a skb, preserves P (qrtr_tx_resume a skb);
}.

#[export] Hint Resolve np_extprop : kept.

Section steps.
Context `{HI : Idr} (P : router -> Prop) `{HP : NodeProp P}.

Local Hint Resolve np_resume np_enqueue : kept.

Lemma k_free a : preserves P (st_upd (fun s => set_nodes (delete a (nodes s)) s)).
Proof. apply pr_upd. intros s. apply np_free. Qed.
Local Hint Resolve k_free : kept.

Lemma k_with_ref a f : preserves P (upd_node a (fun n => with_ref (f n) n)).
Proof. by apply np_upd. Qed.
Lemma k_with_rx a q r h : preserves P (upd_node a (fun n => with_rx (q n) (r n) (h n) n)).
Proof. by apply np_upd. Qed.
Lemma k_with_hello a x y : preserves P (upd_node a (fun n => with_hello (x n) (y n) n)).
Proof. by apply np_upd. Qed.
Lemma k_with_nid a i : preserves P (upd_node a (with_nid i)).
Proof. by apply np_upd. Qed.
Local Hint Resolve k_with_ref k_with_rx k_with_hello k_with_nid : kept.

Lemma k_assign a nid : preserves P (qrtr_node_assign a nid).
Proof. unfold qrtr_node_assign. kept. Qed.
Lemma k_node_lookup nid : preserves P (qrtr_node_lookup nid).
Proof. unfold qrtr_node_lookup, qrtr_node_acquire. kept. Qed.
Local Hint Resolve k_assign k_node_lookup : kept.

Lemma k_waiters l : preserves P (put_waiters l).
Proof. induction l; cbn [put_waiters]; kept. Qed.
Local Hint Resolve k_waiters : kept.
Lemma k_free_flows m l : preserves P (free_flows m l).
Proof. induction l; cbn [free_flows]; kept. Qed.
Local Hint Resolve k_free_flows : kept.
Lemma k_release node : preserves P (qrtr_node_release node).
Proof. unfold qrtr_node_release, __qrtr_node_release. kept. Qed.
Local Hint Resolve k_release : kept.
Lemma k_alloc_ctrl : preserves P qrtr_alloc_ctrl_packet.
Proof. unfold qrtr_alloc_ctrl_packet. kept. Qed.
Local Hint Resolve k_alloc_ctrl : kept.
Lemma k_pool fuel : forall have want, preserves P (alloc_pool fuel have want).
Proof. induction fuel; intros; cbn [alloc_pool]; kept. Qed.
Local Hint Resolve k_pool : kept.
Lemma k_post a data : preserves P (qrtr_endpoint_post a data).
Proof. unfold qrtr_endpoint_post, post_alloc, qrtr_get_backup, post_deliver, qrtr_port_put. kept. Qed.
Lemma k_must src dst type : preserves P (qrtr_must_forward src dst type).
Proof. unfold qrtr_must_forward. kept. Qed.
Local Hint Resolve k_must : kept.

(** The operations that may wait. *)
Context (w : ST router Z) (fuel : nat) (Hw : preserves P w).
Local Hint Resolve Hw : kept.

Lemma k_fwd_ctrl src skb l : preserves P (fwd_ctrl_loop w fuel src skb l).
Proof. induction l; cbn [fwd_ctrl_loop]; kept. Qed.
Local Hint Resolve k_fwd_ctrl : kept.
Lemma k_fwd_pkt skb : preserves P (qrtr_fwd_pkt w fuel skb).
Proof. unfold qrtr_fwd_pkt. kept. Qed.
Local Hint Resolve k_fwd_pkt : kept.
Lemma k_rx_one a skb : preserves P (rx_one w fuel a skb).
Proof. unfold rx_one, qrtr_fwd_ctrl_pkt, qrtr_sock_queue_skb, qrtr_port_put. kept. Qed.
Local Hint Resolve k_rx_one : kept.
Lemma k_rx_loop rounds a : preserves P (rx_loop w rounds fuel a).
Proof. induction rounds; cbn [rx_loop]; kept. Qed.
Local Hint Resolve k_rx_loop : kept.
Lemma k_hello a : preserves P (qrtr_hello_work w fuel a).
Proof. unfold qrtr_hello_work, qrtr_port_put. kept. Qed.
Lemma k_register ep task net : preserves P (qrtr_endpoint_register ep task net).
Proof.
  unfold qrtr_endpoint_register. kept; [by apply np_new|]. by apply np_upd.
Qed.
Lemma k_bye nid : preserves P (qrtr_notify_bye nid).
Proof. unfold qrtr_notify_bye. kept. Qed.
Lemma k_del_proc src nid l : preserves P (fwd_del_proc_loop w fuel src nid l).
Proof. induction l; cbn [fwd_del_proc_loop]; kept. Qed.
Local Hint Resolve k_bye k_del_proc : kept.
Lemma k_unregister_loop a l : preserves P (unregister_loop w fuel a l).
Proof. induction l; cbn [unregister_loop]; unfold qrtr_fwd_del_proc; kept. Qed.
Local Hint Resolve k_unregister_loop : kept.
Lemma k_unregister a : preserves P (qrtr_endpoint_unregister w fuel a).
Proof. unfold qrtr_endpoint_unregister. kept. by apply np_upd. Qed.

Lemma k_take i r next : preserves P (idr_take i r next).
Proof. unfold idr_take. kept. Qed.
Local Hint Resolve k_take : kept.
Lemma k_port_assign c i port : preserves P (qrtr_port_assign c i port).
Proof. unfold qrtr_port_assign. kept. Qed.
Lemma k_reset_ports l : preserves P (reset_ports_loop l).
Proof. induction l; cbn [reset_ports_loop]; kept. Qed.
Lemma k_bcast skb type from to flags l : preserves P (bcast_loop w fuel skb type from to flags l).
Proof. induction l; cbn [bcast_loop]; kept. Qed.
Local Hint Resolve k_port_assign k_reset_ports k_bcast : kept.
Lemma k_port_remove i : preserves P (qrtr_port_remove w fuel i).
Proof. unfold qrtr_port_remove, qrtr_send_del_client, qrtr_bcast_enqueue. kept. Qed.
Lemma k_reset_hello l : preserves P (reset_hello l).
Proof. induction l; cbn [reset_hello]; kept. Qed.
Local Hint Resolve k_port_remove k_reset_hello : kept.
Lemma k_bind c i port z : preserves P (__qrtr_bind w fuel c i port z).
Proof. unfold __qrtr_bind, qrtr_reset_ports. kept. Qed.
Local Hint Resolve k_bind : kept.
Lemma k_autobind c i : preserves P (qrtr_autobind w fuel c i).
Proof. unfold qrtr_autobind. kept. Qed.
Lemma k_error i : preserves P (sock_error i).
Proof. unfold sock_error. kept. Qed.
Local Hint Resolve k_autobind k_error : kept.
Lemma k_filter i node addr type data : preserves P (send_filter i node addr type data).
Proof. unfold send_filter, send_server_node. kept. Qed.
Lemma k_enqueue_fn r skb type from to flags : preserves P (enqueue_fn w fuel r skb type from to flags).
Proof. unfold enqueue_fn, qrtr_bcast_enqueue. kept. Qed.
Local Hint Resolve k_filter k_enqueue_fn : kept.
Lemma k_sendmsg c i msg : preserves P (qrtr_sendmsg w fuel c i msg).
Proof. unfold qrtr_sendmsg, send_addr, send_route, send_data, sock_alloc_send_skb. kept. Qed.
Lemma k_recvmsg i size want : preserves P (qrtr_recvmsg w fuel i size want).
Proof. unfold qrtr_recvmsg, skb_recv_datagram, qrtr_send_resume_tx. kept. Qed.
Local Hint Resolve k_post k_hello k_register k_unregister k_sendmsg k_recvmsg : kept.

Lemma k_run (ok_env : (env_call -> list Z) -> Prop) o :
  (forall e, ok_env e -> preserves P (st_upd (set_env e))) -> op_ok ok_env o -> preserves P (run w fuel o).
Proof.
  intros He Ho. destruct o; cbn [run]; unfold drop_result, qrtr_node_rx_work, qrtr_alloc_backup,
    qrtr_bind, qrtr_connect, qrtr_ioctl, qrtr_release, qrtr_create; kept.
Qed.
End steps.

Lemma reach_keeps `{Idr} P `{!NodeProp P} (ok_env : (env_call -> list Z) -> Prop) s s' :
  (forall e, ok_env e -> preserves P (st_upd (set_env e))) ->
  reach ok_env s s' -> P s -> P s'.
Proof.
  intros He Hr. induction Hr as [|s s1 s2 _ IH1 _ IH2|w fuel o s r s' Hw IHw Ho Hrun]; auto.
  intros Hs. eapply (k_run P w fuel); [|exact He|exact Ho|exact Hs|exact Hrun].
  intros t v t' Ht Hv. by eapply IHw.
Qed.

(** ** Watermarks *)
Definition flow_ok (f : qrtr_tx_flow) : Prop :=
  0 <= pending f <= QRTR_TX_FLOW_HIGH /\ (tx_failed f = 0 \/ tx_failed f = 1) /\ NoDup (waiters f).

Definition flows_ok (s : router) : Prop :=
  forall a n key f, nodes s !! a = Some n -> tx_flows n !! key = Some f -> flow_ok f.

Lemma flow_of_inv a key s f s' : flow_of a key s = Ok (f, s') ->
  s' = s /\ exists n, nodes s !! a = Some n /\ tx_flows n !! key = Some f.
Proof.
  intros (n & s1 & [Hn ->]%node_of_inv & Hf)%st_bind_inv.
  destruct (tx_flows n !! key) as [f'|] eqn:E; [|discriminate]. injection Hf as -> ->. eauto.
Qed.

Lemma tx_try_ok f c f' : flow_ok f -> tx_try f = Some (c, f') -> flow_ok f'.
Proof.
  unfold flow_ok, tx_try, QRTR_TX_FLOW_HIGH. intros (Hp & Hf & Hw) Ht.
  repeat case_if_in Ht; simplify_eq/=; repeat split; auto; lia.
Qed.

Lemma pr_flow_of {B} a key (k : qrtr_tx_flow -> ST router B) :
  (forall f, flow_ok f -> preserves flows_ok (k f)) -> preserves flows_ok (st_bind (flow_of a key) k).
Proof.
  intros Hk s r s' Hs (f & s1 & (-> & n & Hn & Hf)%flow_of_inv & H2)%st_bind_inv.
  eapply Hk; [|exact Hs|exact H2]. by eapply Hs.
Qed.

Lemma pr_flows {B} a (k : qrtr_node -> ST router B) :
  (forall n, (forall key f, tx_flows n !! key = Some f -> flow_ok f) -> preserves flows_ok (k n)) ->
  preserves flows_ok (st_bind (node_of a) k).
Proof.
  intros Hk s r s' Hs (n & s1 & [Hn ->]%node_of_inv & H2)%st_bind_inv.
  eapply Hk; [|exact Hs|exact H2]. intros key f Hf. by eapply Hs.
Qed.

Lemma flows_put a n : (forall key f, tx_flows n !! key = Some f -> flow_ok f) ->
  preserves flows_ok (put_node a n).
Proof.
  intros Hn s r s' Hs [= _ <-]. intros b n' key f. cbn.
  intros [[-> <-]|[_ Hb]]%lookup_insert_Some Hf; eauto.
Qed.

Lemma flows_set a key f : flow_ok f -> preserves flows_ok (set_flow a key f).
Proof.
  intros Hf. apply pr_flows. intros n Hn. apply flows_put. intros key' f'. cbn.
  intros [[-> <-]|[_ Hb]]%lookup_insert_Some; eauto.
Qed.

Lemma flows_ext s s' : nodes s' = nodes s -> flows_ok s -> flows_ok s'.
Proof. intros E Hs a n key f. rewrite E. eauto. Qed.

#[export] Instance flows_extprop : ExtProp flows_ok.
Proof.
  split; [intros s s' E _ _; by apply flows_ext|].
  intros c s r s' Hs. unfold ask. destruct (env s c); intros [= _ <-]; [done|]. by eapply flows_ext; [|exact Hs].
Qed.

#[export] Hint Resolve flows_extprop : kept.

Lemma flows_resume a skb : preserves flows_ok (qrtr_tx_resume a skb).
Proof.
  unfold qrtr_tx_resume. cbv zeta. case_if; [kept|]. apply pr_flows. intros n Hn.
  case_match eqn:E; [|kept]. apply pr_bind; [|intros _].
  { apply flows_set. destruct (Hn _ _ E) as (? & ? & ?). repeat split; cbn; auto using NoDup_nil_2; unfold QRTR_TX_FLOW_HIGH; lia. }
  kept. by apply pr_upd.
Qed.

Lemma flows_wait_loop w fuel a key sk : forall ret, preserves flows_ok w ->
  preserves flows_ok (tx_wait_loop w fuel a key sk ret).
Proof.
  induction fuel as [|fuel IH]; intros ret Hw; cbn [tx_wait_loop]; [kept|].
  apply pr_flow_of. intros f Hf. destruct (tx_try f) as [[c f']|] eqn:E.
  - kept. apply flows_set. by eapply tx_try_ok.
  - unfold tx_add_waiter. destruct (ret =? 0); [|kept].
    case_bool_decide as Hin; kept. apply flows_set. destruct Hf as (? & ? & ?).
    repeat split; cbn; try done; try lia. apply NoDup_app. split_and!; [done| |apply NoDup_singleton].
    by intros x Hx ->%list_elem_of_singleton.
Qed.

Lemma flow_fresh_ok : flow_ok (Flow 0 0 []).
Proof. repeat split; cbn; auto using NoDup_nil_2; unfold QRTR_TX_FLOW_HIGH; lia. Qed.

Lemma flows_node a f : (forall n, tx_flows (f n) = tx_flows n) -> preserves flows_ok (upd_node a f).
Proof. intros Hf. apply pr_flows. intros n Hn. apply flows_put. by rewrite Hf. Qed.

Lemma flows_wait w fuel a to sk type flags : preserves flows_ok w ->
  preserves flows_ok (qrtr_tx_wait w fuel a to sk type flags).
Proof.
  intros Hw. pose proof (flows_wait_loop w) as Hloop. unfold qrtr_tx_wait, tx_flow_get.
  kept. apply flows_set, flow_fresh_ok.
Qed.

Lemma flows_failed a node port : preserves flows_ok (qrtr_tx_flow_failed a node port).
Proof.
  apply pr_flows. intros n Hn. case_match eqn:E; [|kept]. apply flows_set.
  destruct (Hn _ _ E) as (? & ? & ?). repeat split; cbn; auto; lia.
Qed.

Lemma flows_enqueue w fuel a skb type from to flags : preserves flows_ok w ->
  preserves flows_ok (qrtr_node_enqueue w fuel a skb type from to flags).
Proof.
  intros Hw. pose proof (flows_wait w) as Hwait. pose proof flows_failed as Hfail.
  unfold qrtr_node_enqueue, skb_put_padto, node_xmit.
  kept; first [by apply pr_upd | by apply flows_node].
Qed.

#[export] Instance flows_prop : NodeProp flows_ok.
Proof.
  split; [typeclasses eauto|..].
  - intros a f Hf. apply flows_node. intros n. apply Hf.
  - intros a n Hn. apply flows_put. by rewrite Hn.
  - intros a s Hs b n key f. cbn. intros [_ Hb]%lookup_delete_Some. eauto.
  - apply flows_enqueue.
  - apply flows_resume.
Qed.

(** C38: along every sequence of operations of the router, with any answers of the rest of
    the kernel and any interleaving where a sender waits, the counter of every flow stays
    between 0 and the high watermark, its failure flag is 0 or 1, and no socket waits twice. *)
Theorem qrtr_flow_bounds `{Idr} s s' : reach (fun _ => True) s s' -> flows_ok s -> flows_ok s'.
Proof.
  intros Hr. eapply reach_keeps; [typeclasses eauto| |exact Hr].
  intros e _. by apply pr_upd.
Qed.

(** ** No sender waits for nothing *)

(** A packet for the destination of a flow that asks for a resume packet. *)
Definition confirms (pkt : list Z) (key : Z) : Prop :=
  field 4 pkt 16 = Ok 1 /\ field 4 pkt 24 = Ok (key / 2 ^ 32) /\ field 4 pkt 28 = Ok (key mod 2 ^ 32).

(** Such a packet was sent, and no resume packet came since. *)
Definition owed (tr : list event) (a key : Z) : Prop :=
  exists pre pkt post, tr = pre ++ Xmit a pkt 0 :: post /\ confirms pkt key /\ Resumed a key ∉ post.

(** The flows of single nodes, of ports below 2^31. *)
Definition plain_key (key : Z) : Prop := key / 2 ^ 32 <> QRTR_NODE_BCAST /\ key mod 2 ^ 32 < 2 ^ 31.

Definition covered (tr : list event) (a : Z) (n : qrtr_node) (key : Z) (f : qrtr_tx_flow) : Prop :=
  plain_key key -> nd_ep n = true -> QRTR_TX_FLOW_LOW <= pending f -> tx_failed f <> 0 \/ owed tr a key.

(** Padding never fails, and every flow that passed the low watermark is covered, but those in [ex]. *)
Definition calm (ex : Z -> Z -> Prop) (s : router) : Prop :=
  env s EPad = [] /\
  forall a n key f, nodes s !! a = Some n -> tx_flows n !! key = Some f ->
    ex a key \/ covered (trace s) a n key f.

Definition unstalled : router -> Prop := calm (fun _ _ => False).
Definition stalled_at (a key : Z) : router -> Prop := calm (fun b k => b = a /\ k = key).

Lemma flow_key_eq node port : flow_key node port = u32 node * 2 ^ 32 + u32 port.
Proof. apply lor_shiftl; [done|apply u32_range]. Qed.

Lemma flow_key_split node port :
  flow_key node port / 2 ^ 32 = u32 node /\ flow_key node port mod 2 ^ 32 = u32 port.
Proof.
  rewrite flow_key_eq. pose proof (u32_range port) as Hp.
  split; symmetry; [apply Z.div_unique with (r := u32 port)|apply Z.mod_unique with (q := u32 node)]; lia.
Qed.

(** The key that marks a failure is the key of the flow, for ports below 2^31. *)
Lemma failed_key_eq node port : u32 port < 2 ^ 31 -> failed_key node port = flow_key node port.
Proof.
  intros Hp. pose proof (u32_range port) as Hr. pose proof (u32_range node) as Hn.
  unfold failed_key. replace (s32 port) with (u32 port) by (unfold s32; by solve_ifs).
  rewrite flow_key_eq, lor_shiftl by lia.
  assert (Hs : exists k, u64 (s32 node) = u32 node + k * 2 ^ 32).
  { unfold s32, u64. case_if; [exists 0|exists (2 ^ 32 - 1)].
    - rewrite Z.mod_small by lia. lia.
    - symmetry. apply Z.mod_unique with (q := -1); lia. }
  destruct Hs as [k ->]. unfold u64. symmetry. apply Z.mod_unique with (q := k); lia.
Qed.

Lemma owed_snoc tr a key e : e <> Resumed a key -> owed tr a key -> owed (tr ++ [e]) a key.
Proof.
  intros He (pre & pkt & post & -> & Hc & Hr). exists pre, pkt, (post ++ [e]).
  rewrite <-app_assoc. split; [done|]. split; [done|].
  rewrite elem_of_app, list_elem_of_singleton. naive_solver.
Qed.

Lemma owed_now tr a key pkt : confirms pkt key -> owed (tr ++ [Xmit a pkt 0]) a key.
Proof. intros Hc. exists tr, pkt, []. split; [done|]. split; [done|]. apply not_elem_of_nil. Qed.

Lemma calm_weaken (ex ex' : Z -> Z -> Prop) s : (forall a k, ex a k -> ex' a k) -> calm ex s -> calm ex' s.
Proof. intros He [Hp Hs]. split; [done|]. intros a n key f Hn Hf. destruct (Hs a n key f Hn Hf); auto. Qed.

Section calm.
Context (ex : Z -> Z -> Prop).

Lemma calm_ext s s' : nodes s' = nodes s -> trace s' = trace s -> env s' EPad = env s EPad ->
  calm ex s -> calm ex s'.
Proof. intros En Et Ee [Hp Hs]. unfold calm. rewrite En, Et, Ee. done. Qed.

#[export] Instance calm_extprop : ExtProp (calm ex).
Proof.
  split; [apply calm_ext|]. intros c s r s' [Hp Hs]. unfold ask.
  destruct (env s c) as [|x l] eqn:E; intros [= _ <-]; [done|].
  apply (calm_ext s); [done|done| |done]. cbn. case_decide; [|done]. subst c. congruence.
Qed.

Local Hint Resolve calm_extprop : kept.

Lemma calm_put a n : (forall key f, tx_flows n !! key = Some f -> forall tr, ex a key \/ covered tr a n key f) ->
  preserves (calm ex) (put_node a n).
Proof.
  intros Hn s r s' [Hp Hs] [= _ <-]. split; [done|]. intros b n' key f. cbn.
  intros [[-> <-]|[_ Hb]]%lookup_insert_Some Hf; eauto.
Qed.

(** An update of a node that keeps its flows. *)
Lemma calm_node a f : (forall n, tx_flows (f n) = tx_flows n /\ (nd_ep (f n) = true -> nd_ep n = true)) ->
  preserves (calm ex) (upd_node a f).
Proof.
  intros Hf s r s' [Hp Hs] (n & s1 & [Hn ->]%node_of_inv & [= _ <-])%st_bind_inv.
  split; [done|]. intros b n' key g. cbn. intros [[-> <-]|[_ Hb]]%lookup_insert_Some Hg; [|eauto].
  destruct (Hf n) as [Ef Ee]. rewrite Ef in Hg. destruct (Hs _ _ _ _ Hn Hg) as [|Hc]; [by left|right].
  intros Hk He. by apply Hc, Ee.
Qed.

(** An update of one flow that leaves it covered. *)
Lemma calm_set_flow a key f s r s' : calm ex s -> set_flow a key f s = Ok (r, s') ->
  (forall n, nodes s !! a = Some n -> ex a key \/ covered (trace s) a n key f) -> calm ex s'.
Proof.
  intros [Hp Hs] (n & s1 & [Hn ->]%node_of_inv & [= _ <-])%st_bind_inv Hf.
  split; [done|]. intros b n' k g. cbn. intros [[-> <-]|[_ Hb]]%lookup_insert_Some Hg; [|eauto].
  cbn in Hg. apply lookup_insert_Some in Hg as [[-> <-]|[_ Hg]]; [|by apply (Hs _ n)].
  destruct (Hf n Hn); [by left|by right].
Qed.

Lemma calm_log_xmit a b rc s : calm ex s -> calm ex (log (Xmit a b rc) s).
Proof.
  intros [Hp Hs]. split; [done|]. intros c n key f Hn Hf. destruct (Hs _ _ _ _ Hn Hf) as [|Hc]; [by left|right].
  intros Hk He Hl. destruct (Hc Hk He Hl); [by left|right]. by apply owed_snoc.
Qed.

Lemma calm_xmit a b : preserves (calm ex) (node_xmit a b).
Proof.
  unfold node_xmit. kept. apply pr_upd. intros s. apply calm_log_xmit.
Qed.

Lemma calm_failed a node port : preserves (calm ex) (qrtr_tx_flow_failed a node port).
Proof.
  intros s r s' Hs (n & s1 & [Hn ->]%node_of_inv & H2)%st_bind_inv.
  case_match; [|by injection H2 as _ <-]. eapply calm_set_flow; [exact Hs|exact H2|].
  intros n' Hn'. right. intros _ _ _. by left.
Qed.
End calm.

Lemma unstalled_resume a skb : preserves unstalled (qrtr_tx_resume a skb).
Proof.
  intros s r s' Hs. unfold qrtr_tx_resume. cbv zeta. case_if; [by intros [= _ <-]|].
  intros (n & s1 & [Hn ->]%node_of_inv & H2)%st_bind_inv. case_match eqn:E; [|by injection H2 as _ <-].
  set (key := flow_key _ _) in *.
  apply st_bind_inv in H2 as (u1 & s1 & H1 & (u2 & s2 & [= _ <-] & H3)%st_bind_inv).
  assert (Hk : unstalled (log (Resumed a key) s1)).
  { destruct (calm_set_flow _ _ _ _ _ _ _ Hs H1) as [Hp1 Hs1].
    { intros n' Hn'. right. intros _ _ Hl. cbn in Hl. unfold QRTR_TX_FLOW_LOW in Hl. lia. }
    split; [done|]. intros b n' k f Hb Hf.
    destruct (decide (b = a /\ k = key)) as [[-> ->]|Hne].
    - right. intros _ _ Hl. exfalso. cbn in Hb.
      apply st_bind_inv in H1 as (n1 & s3 & [Hn1 ->]%node_of_inv & [= _ <-]).
      cbn in Hb. rewrite lookup_insert_eq in Hb. injection Hb as <-. cbn in Hf. rewrite lookup_insert_eq in Hf.
      injection Hf as <-. cbn in Hl. unfold QRTR_TX_FLOW_LOW in Hl. lia.
    - destruct (Hs1 _ _ _ _ Hb Hf) as [[]|Hc]. right. intros Hk He Hl.
      destruct (Hc Hk He Hl); [by left|right]. apply owed_snoc; [|done]. intros [=]. naive_solver. }
  eapply k_resume_waiters; [|exact Hk|exact H3]. apply calm_extprop.
Qed.

(** What a sender learns: it must ask for a resume packet, and then only its own flow is not
    covered yet, or not. *)
Definition wait_post (a key c : Z) (s : router) : Prop :=
  (c = 1 /\ stalled_at a key s) \/ (c <= 0 /\ unstalled s).

Lemma stalled_weaken a key s : unstalled s -> stalled_at a key s.
Proof. apply calm_weaken. done. Qed.

Lemma try_calm a key f c f' s r s' : unstalled s ->
  (exists n, nodes s !! a = Some n /\ tx_flows n !! key = Some f) ->
  tx_try f = Some (c, f') -> set_flow a key f' s = Ok (r, s') -> wait_post a key c s'.
Proof.
  intros Hs (n & Hn & Hf) Ht Hset. assert (Hc : c = 1 \/ c = 0) by (unfold tx_try in Ht; repeat case_if_in Ht; naive_solver).
  destruct Hc as [-> | ->]; [left|right]; (split; [done|]).
  - eapply calm_set_flow; [by apply stalled_weaken|exact Hset|]. intros n' _. by left.
  - eapply calm_set_flow; [exact Hs|exact Hset|]. intros n' Hn'. right. simplify_eq.
    destruct Hs as [_ Hs]. destruct (Hs _ _ _ _ Hn Hf) as [[]|Hcov].
    unfold tx_try, QRTR_TX_FLOW_HIGH, QRTR_TX_FLOW_LOW in Ht. repeat case_if_in Ht; simplify_eq/=.
    intros Hk He Hl. cbn in Hl. unfold QRTR_TX_FLOW_LOW in Hl.
    destruct (Hcov Hk He) as [Hx|Hx]; [unfold QRTR_TX_FLOW_LOW; lia|cbn; lia|by right].
Qed.

Lemma add_waiter_calm a key sk f s c s' : unstalled s ->
  (exists n, nodes s !! a = Some n /\ tx_flows n !! key = Some f) ->
  tx_add_waiter a key sk f s = Ok (c, s') -> c <= 0 /\ unstalled s'.
Proof.
  intros Hs (n & Hn & Hf). unfold tx_add_waiter. case_if; [intros [= <- <-]; done|].
  intros (rc & s1 & H1 & H2)%st_bind_inv. assert (Hs1 : unstalled s1) by (eapply np_ask; eauto with kept).
  assert (Hn1 : nodes s1 = nodes s) by (by apply ask_inv in H1 as [e ->]).
  case_if_in H2; [by injection H2 as <- <-|].
  apply st_bind_inv in H2 as (u & s2 & H2 & (u' & s3 & H3 & [= <- <-])%st_bind_inv).
  assert (Hs2 : unstalled s2 /\ nodes s2 = nodes s1).
  { split; [eapply (k_hold unstalled); [exact Hs1|exact H2]|].
    by apply st_bind_inv in H2 as (k & s4 & [_ ->]%sock_of_inv & [= _ <-]). }
  destruct Hs2 as [Hs2 Hn2]. split; [done|]. eapply calm_set_flow; [exact Hs2|exact H3|].
  intros n' Hn'. rewrite Hn2, Hn1 in Hn'. simplify_eq. right.
  destruct Hs2 as [_ Hs2]. rewrite Hn2, Hn1 in Hs2. destruct (Hs2 _ _ _ _ Hn Hf) as [[]|Hcov]. exact Hcov.
Qed.

Lemma wait_loop_calm w a key sk fuel : preserves unstalled w -> forall ret s c s', unstalled s ->
  tx_wait_loop w fuel a key sk ret s = Ok (c, s') -> wait_post a key c s'.
Proof.
  intros Hw. induction fuel as [|fuel IH]; intros ret s c s' Hs; cbn [tx_wait_loop]; [done|].
  intros (f & s1 & (-> & Hf)%flow_of_inv & H2)%st_bind_inv. destruct (tx_try f) as [[c' f']|] eqn:Et.
  - apply st_bind_inv in H2 as (u & s2 & H2 & [= <- <-]). by eapply try_calm.
  - case_if_in H2; [right; by eapply add_waiter_calm|].
    apply st_bind_inv in H2 as (v & s2 & H2 & H3). assert (Hs2 : unstalled s2) by (by eapply Hw).
    case_if_in H3; [injection H3 as <- <-; right; split; [lia|done]|].
    apply st_bind_inv in H3 as (n & s3 & [_ ->]%node_of_inv & H3).
    case_if_in H3; [injection H3 as <- <-; by right|]. by eapply IH.
Qed.

Lemma tx_wait_calm w fuel a to sk type flags s c s' : preserves unstalled w -> unstalled s ->
  qrtr_tx_wait w fuel a to sk type flags s = Ok (c, s') ->
  wait_post a (flow_key (sq_node to) (sq_port to)) c s'.
Proof.
  intros Hw Hs. unfold qrtr_tx_wait. case_if; [intros [= <- <-]; by right|].
  intros (k & s1 & [_ ->]%sock_of_inv & H2)%st_bind_inv.
  set (key := flow_key _ _) in *. apply st_bind_inv in H2 as (fl & s2 & H2 & H3).
  assert (Hs2 : unstalled s2).
  { unfold tx_flow_get in H2. apply st_bind_inv in H2 as (n & s3 & [Hn ->]%node_of_inv & H2).
    destruct (tx_flows n !! key); [by injection H2 as _ <-|].
    apply st_bind_inv in H2 as (r1 & s3 & H1' & H2). assert (Hs3 : unstalled s3) by (eapply np_ask; eauto with kept).
    case_if_in H2; [by injection H2 as _ <-|].
    apply st_bind_inv in H2 as (r2 & s4 & H2' & H2). assert (Hs4 : unstalled s4) by (eapply np_ask; eauto with kept).
    case_if_in H2; [|by injection H2 as _ <-].
    apply st_bind_inv in H2 as (u & s5 & H5 & [= _ <-]).
    eapply calm_set_flow; [exact Hs4|exact H5|]. intros n' _. right. intros _ _ Hl. cbn in Hl.
    unfold QRTR_TX_FLOW_LOW in Hl. lia. }
  destruct fl as [[]|].
  - by eapply wait_loop_calm.
  - cbn in H3. injection H3 as <- <-. by right.
  - injection H3 as <- <-. left. split; [done|]. by apply stalled_weaken.
Qed.

(** The bytes of a packet ask for a resume packet of its destination. *)
Lemma hdr_confirms type from size dst port rest :
  confirms (hdr_v1 type from 1 size dst port ++ rest) (flow_key dst port).
Proof.
  destruct (flow_key_split dst port) as [Hk1 Hk2]. unfold confirms. rewrite Hk1, Hk2, hdr_words.
  set (ws := [_; _; _; _; _; _; _; _]).
  assert (Hf : forall i v, ws !! i = Some v -> field 4 (words ws ++ rest) (4 * Z.of_nat i) = Ok (u32 v))
    by (apply field_words).
  exact (conj (Hf 4%nat 1 eq_refl) (conj (Hf 6%nat _ eq_refl) (Hf 7%nat _ eq_refl))).
Qed.

(** A transmitted packet that asks for a resume packet covers its flow; one that was not
    transmitted marks it. *)
Lemma xmit_covers a key pkt c type to s rc1 s1 rc s' :
  key = flow_key (sq_node to) (sq_port to) -> c <> 0 ->
  (plain_key key -> confirms pkt key) -> stalled_at a key s ->
  node_xmit a pkt s = Ok (rc1, s1) -> sent_with a type to c rc1 s1 = Ok (rc, s') -> unstalled s'.
Proof.
  intros Hkey Hc Hcf Hs Hx Hsent.
  destruct (xmit_inv _ _ _ _ _ Hx) as (n & Hn & Hcase).
  assert (Hs1 : stalled_at a key s1) by (by eapply calm_xmit).
  assert (Hfin : unstalled s1 \/ (rc1 <> 0 /\ stalled_at a key s1)).
  { destruct (decide (rc1 = 0)) as [->|Hrc]; [left|by right]. destruct Hs1 as [Hp1 Hs1]. split; [done|].
    intros b n' k f Hb Hf. right. destruct (Hs1 b n' k f Hb Hf) as [[-> ->]|Hcov]; [|done].
    intros Hk He Hl. destruct Hcase as [(_ & e & -> & _)|(He' & _ & ->)].
    - right. cbn. by apply owed_now, Hcf.
    - exfalso. rewrite Hn in Hb. injection Hb as <-. congruence. }
  apply st_bind_inv in Hsent as (u & s2 & H1 & H2).
  assert (Hs2 : unstalled s2).
  { destruct Hfin as [Hu|[Hrc Hst]].
    - case_if_in H1; [by eapply calm_failed|by injection H1 as _ <-].
    - replace (negb (rc1 =? 0) && negb (c =? 0)) with true in H1 by lia.
      assert (Hst2 : stalled_at a key s2) by (by eapply calm_failed). destruct Hst2 as [Hp2 Hst2]. split; [done|].
      intros b n' k f Hb Hf. right. destruct (Hst2 b n' k f Hb Hf) as [[-> ->]|Hcov]; [|done].
      intros Hk He Hl. left. destruct Hk as [_ Hport]. subst key.
      rewrite (proj2 (flow_key_split _ _)) in Hport.
      apply st_bind_inv in H1 as (n1 & s3 & [Hn1 ->]%node_of_inv & H1). rewrite failed_key_eq in H1 by done.
      destruct (tx_flows n1 !! _) as [f1|] eqn:Ef1.
      + apply st_bind_inv in H1 as (n2 & s3 & [Hn2 ->]%node_of_inv & [= _ <-]). cbn in Hb.
        rewrite lookup_insert_eq in Hb. injection Hb as <-. cbn in Hf. rewrite lookup_insert_eq in Hf. by injection Hf as <-.
      + injection H1 as _ <-. congruence. }
  apply st_bind_inv in H2 as (u' & s3 & H3 & [= _ <-]).
  case_if_in H3; [by eapply calm_node; [|exact Hs2|exact H3]|by injection H3 as _ <-].
Qed.

Lemma unstalled_enqueue w fuel a skb type from to flags : preserves unstalled w ->
  preserves unstalled (qrtr_node_enqueue w fuel a skb type from to flags).
Proof.
  intros Hw s rc s' Hs He.
  destruct (enqueue_inv _ _ _ _ _ _ _ _ _ _ _ He) as [[-> _]|(c & s1 & Hc & Hrest)]; [done|].
  set (key := flow_key (sq_node to) (sq_port to)).
  assert (Hpost : unstalled s1 \/ (c = 1 /\ stalled_at a key s1)).
  { unfold confirm_of in Hc. destruct (skb_sk skb); [|left; by injection Hc as _ <-].
    destruct (tx_wait_calm _ _ _ _ _ _ _ _ _ _ Hw Hs Hc) as [?|[_ ?]]; [by right|by left]. }
  assert (Hst : stalled_at a key s1) by (destruct Hpost as [?|[_ ?]]; [by apply stalled_weaken|done]).
  destruct Hrest as [(? & _ & ->)|(Hc0 & n1 & e & Hn1 & He1 & He2 & [(_ & -> & Hpad)|(pkt & rc1 & s2 & [[rest Hpkt] _] & Hx & Hsent)])].
  - destruct Hpost as [?|[-> _]]; [done|lia].
  - by destruct Hst as [Hp _].
  - assert (Hset : forall ex, calm ex s1 -> calm ex (set_env e s1)).
    { intros ex [Hp Hq]. apply (calm_ext ex s1); [done..| |done]. cbn. by rewrite Hp, He2. }
    destruct (decide (c = 0)) as [->|Hcn].
    + destruct Hpost as [Hu|[[=] _]]. eapply (calm_xmit (fun _ _ => False)) in Hx; [|by apply Hset].
      apply st_bind_inv in Hsent as (u & s3 & H1 & (u' & s4 & H3 & [= _ <-])%st_bind_inv).
      rewrite andb_false_r in H1. injection H1 as _ <-.
      case_if_in H3; [by eapply calm_node; [|exact Hx|exact H3]|by injection H3 as _ <-].
    + eapply xmit_covers; [reflexivity|exact Hcn| |apply Hset; exact Hst|exact Hx|exact Hsent].
      intros [Hbc _]. subst key pkt. rewrite (proj1 (flow_key_split _ _)) in Hbc. unfold dest_nid, flag.
      bool_false (c =? 0). replace (sq_node to =? QRTR_NODE_BCAST) with false; [apply hdr_confirms|].
      symmetry. apply Z.eqb_neq. intros E. apply Hbc. rewrite E. done.
Qed.

#[export] Instance unstalled_prop : NodeProp unstalled.
Proof.
  split; [apply calm_extprop|..].
  - intros a f Hf. by apply calm_node.
  - intros a n Hn. apply calm_put. intros key f. by rewrite Hn, lookup_empty.
  - intros a s [Hp Hs]. split; [done|]. intros b n key f. cbn. intros [_ Hb]%lookup_delete_Some. by apply Hs.
  - apply unstalled_enqueue.
  - apply unstalled_resume.
Qed.

(** C5: flow control does not leave a sender waiting for nothing: along every sequence of
    operations in which memory for padding is there, if the flow of a registered node (one
    with an endpoint) to a single node and a port below 2^31 refuses a sender, then the node was
    sent a packet that asks for a resume packet, and none came since.  The hypotheses are
    needed: after a failed padding, or for a port above 2^31, the code stalls
    ([QrtrDemo.padding_failure_stalls], [QrtrDemo.failed_port_unmarked]). *)
Theorem qrtr_flow_no_stall `{Idr} s s' a n key f :
  reach (fun e => e EPad = []) s s' -> unstalled s ->
  nodes s' !! a = Some n -> tx_flows n !! key = Some f -> nd_ep n = true -> plain_key key ->
  tx_try f = None -> owed (trace s') a key.
Proof.
  intros Hr Hs Hn Hf He Hk Ht.
  assert (Hu : unstalled s').
  { eapply reach_keeps; [typeclasses eauto| |exact Hr|exact Hs]. intros e Hpad. apply pr_upd. intros t [_ Hq].
    by split. }
  destruct Hu as [_ Hu]. destruct (Hu _ _ _ _ Hn Hf) as [[]|Hcov].
  unfold tx_try, QRTR_TX_FLOW_HIGH in Ht. repeat case_if_in Ht; try done.
  destruct (Hcov Hk He) as [Hx|Hx]; [unfold QRTR_TX_FLOW_LOW; lia|lia|done].
Qed.
