(* ===== verification/QrtrResume.v ===== *)
(** * Confirmation of receipt

    The way back of flow control: a receiver that takes a packet with the confirmation flag
    sends a resume packet, and the router of the sender resets the flow with it. *)
From S2P Require Import Prelude CMem KernelIdr QrtrNs QrtrRegistry QrtrRouter QrtrPacket QrtrSocket.
Open Scope c_scope.

(** The rest of the kernel has memory, queues and transports that work. *)
Definition all_well (s : router) : Prop := forall c, env s c = [].

Lemma ask_well c s : all_well s -> ask c s = Ok (0, s).
Proof. intros Hs. unfold ask. by rewrite Hs. Qed.

(** ** The receiver *)
Lemma enqueue_plain w fuel a skb type from to flags s n :
  all_well s -> nodes s !! a = Some n -> nd_ep n = true -> hello_sent n <> 0 -> type <> QRTR_TYPE_HELLO ->
  skb_sk skb = None -> cb_confirm_rx (skb_cb skb) = 0 -> Z.of_nat (length (skb_data skb)) < 2 ^ 32 ->
  qrtr_node_enqueue w fuel a skb type from to flags s =
  Ok (0, log (Xmit a (packet type from 0 (dest_nid n to) (sq_port to) (skb_data skb)) 0) s).
Proof.
  intros Hw Hn He Hh Ht Hsk Hc Hl. unfold qrtr_node_enqueue. cbv zeta.
  rewrite (st_bind_ok _ _ _ _ _ (node_of_ok _ _ _ Hn)). bool_false ((hello_sent n =? 0) && negb (type =? QRTR_TYPE_HELLO)).
  bool_false (negb (hello_sent n =? 0) && (type =? QRTR_TYPE_HELLO)).
  rewrite Hsk, Hc, st_bind_ret. cbn [Z.ltb Z.compare Z.eqb].
  rewrite (st_bind_ok _ _ _ _ _ (node_of_ok _ _ _ Hn)).
  fold (dest_nid n to). destruct (padded_ok type from 0 (dest_nid n to) (sq_port to) (skb_data skb) s)
    as (r & e & Hp & Hr & _ & _).
  assert (Hp' : exists r, skb_put_padto (hdr_v1 type from 0 (Z.of_nat (length (skb_data skb))) (dest_nid n to) (sq_port to) ++ skb_data skb)
     (ALIGN (Z.of_nat (length (skb_data skb))) 4 + sizeof_hdr_v1) s = Ok (r, s)).
  { unfold skb_put_padto. case_if; [|by eexists]. rewrite (st_bind_ok _ _ _ _ _ (ask_well EPad s Hw)). by eexists. }
  destruct Hp' as [r' Hp']. rewrite Hp' in Hp. injection Hp as -> _.
  destruct Hr as [(pkt & -> & _ & Hpkt)|[_ Hpad]]; [|by rewrite Hw in Hpad]. specialize (Hpkt Hl). subst pkt.
  rewrite (st_bind_ok _ _ _ _ _ Hp'). unfold node_xmit.
  rewrite st_bind_bind, (st_bind_ok _ _ _ _ _ (node_of_ok _ _ _ Hn)), He.
  rewrite st_bind_bind, (st_bind_ok _ _ _ _ _ (ask_well EXmit s Hw)), st_bind_bind, st_bind_upd, !st_bind_ret.
  cbn [Z.eqb negb andb]. rewrite st_bind_ret. by bool_false (type =? QRTR_TYPE_HELLO).
Qed.

Lemma lookup_release_ok {B} nid a s n (k : option Z -> ST router B) : qrtr_nodes s !! nid = Some a -> nodes s !! a = Some n ->
  st_bind (qrtr_node_lookup nid) k s = k (Some a) (set_nodes (<[a := with_ref (nd_ref n + 1) n]> (nodes s)) s).
Proof.
  intros Ht Hn. unfold qrtr_node_lookup, qrtr_node_acquire. rewrite st_bind_bind, st_bind_get, Ht.
  by rewrite st_bind_bind, (st_bind_ok _ _ _ _ _ (upd_node_ok _ _ _ _ Hn)), st_bind_ret.
Qed.

(** The resume packet for a received packet. *)
Definition resume_packet (cb : qrtr_cb) (dst : Z) : list Z :=
  packet QRTR_TYPE_RESUME_TX (Sockaddr (dst_node cb) (dst_port cb)) 0 dst (src_port cb)
    (pkt_bytes (Pkt QRTR_TYPE_RESUME_TX (dst_node cb) (dst_port cb) 0 0)).

Lemma length_pkt p : length (pkt_bytes p) = 20%nat.
Proof. reflexivity. Qed.

Lemma send_resume_ok w fuel cb s a n : all_well s -> qrtr_nodes s !! src_node cb = Some a -> nodes s !! a = Some n ->
  nd_ep n = true -> hello_sent n <> 0 -> 0 < nd_ref n ->
  qrtr_send_resume_tx w fuel cb s =
  Ok (0, log (Xmit a (resume_packet cb (dest_nid n (Sockaddr (src_node cb) (src_port cb)))) 0) s).
Proof.
  intros Hw Ht Hn He Hh Hr. unfold qrtr_send_resume_tx. rewrite (lookup_release_ok _ _ _ _ _ Ht Hn).
  set (s1 := set_nodes _ s). assert (Hw1 : all_well s1) by exact Hw.
  unfold qrtr_alloc_ctrl_packet. rewrite st_bind_bind, (st_bind_ok _ _ _ _ _ (ask_well EAlloc s1 Hw1)), st_bind_ret.
  cbn [Z.eqb negb].
  assert (Hn1 : nodes s1 !! a = Some (with_ref (nd_ref n + 1) n)) by (unfold s1; cbn; apply lookup_insert_eq).
  pose proof (enqueue_plain w fuel a (ctrl_skb (Pkt QRTR_TYPE_RESUME_TX (dst_node cb) (dst_port cb) 0 0))
    QRTR_TYPE_RESUME_TX (Sockaddr (dst_node cb) (dst_port cb)) (Sockaddr (src_node cb) (src_port cb)) 0 s1 _ Hw1 Hn1
    He Hh ltac:(discriminate) eq_refl eq_refl ltac:(cbn [ctrl_skb skb_data]; rewrite length_pkt; reflexivity)) as Hq.
  rewrite (st_bind_ok _ _ _ _ _ Hq). clear Hq.
  change (dest_nid (with_ref (nd_ref n + 1) n) ?to) with (dest_nid n to).
  cbn [ctrl_skb skb_data sq_port]. fold (resume_packet cb (dest_nid n (Sockaddr (src_node cb) (src_port cb)))).
  generalize (resume_packet cb (dest_nid n (Sockaddr (src_node cb) (src_port cb)))). intros pkt.
  unfold qrtr_node_release. rewrite st_bind_bind. set (s2 := log _ s1).
  assert (Hn2 : nodes s2 !! a = Some (with_ref (nd_ref n + 1) n)) by exact Hn1.
  rewrite (st_bind_ok _ _ _ _ _ (node_of_ok _ _ _ Hn2)), st_bind_bind, (st_bind_ok _ _ _ _ _ (upd_node_ok _ _ _ _ Hn2)).
  cbn [nd_ref with_ref]. bool_false (nd_ref n + 1 =? 1). rewrite st_bind_ret. unfold st_ret. f_equal. f_equal.
  unfold s2, s1, log, set_nodes. cbn. f_equal. rewrite insert_insert_eq. apply insert_id.
  rewrite Hn. f_equal. unfold with_ref. destruct n; cbn. f_equal. lia.
Qed.

(** ** The sender *)
Lemma local_enqueue_ok o data cb from to s i k : all_well s ->
  qrtr_ports s !! port_key (sq_port to) = Some i -> socks s !! i = Some k -> 0 < sk_refs k ->
  (forall sk, o = Some sk -> sk <> i /\ exists ks, socks s !! sk = Some ks /\ sk_err ks = 0) ->
  qrtr_local_enqueue (Skb o cb data) from to s =
  Ok (0, set_socks (<[i := with_queue (sk_queue k ++ [Skb (Some i) (cb_from from cb) data]) k]> (socks s)) s).
Proof.
  intros Hw Hp Hk Hr Ho. unfold qrtr_local_enqueue, qrtr_port_lookup. rewrite st_bind_bind, st_bind_get, Hp.
  rewrite st_bind_bind, (st_bind_ok _ _ _ _ _ (hold_ok _ _ _ Hk)), st_bind_ret. cbn [skb_sk skb_cb skb_data].
  rewrite bool_decide_false by (intros ->; by destruct (Ho i eq_refl)). set (s1 := set_socks _ s).
  assert (Hw1 : all_well s1) by exact Hw.
  assert (Hreset : sk_reset o s1 = Ok (false, s1)).
  { destruct o as [sk|]; [|done]. destruct (Ho sk eq_refl) as (Hne & ks & Hks & He). unfold sk_reset.
    erewrite st_bind_ok by (apply sock_of_ok; unfold s1; cbn; by rewrite lookup_insert_ne). by rewrite He. }
  rewrite (st_bind_ok _ _ _ _ _ Hreset).
  assert (Hk1 : socks s1 !! i = Some (with_refs (sk_refs k + 1) k)) by (unfold s1; cbn; apply lookup_insert_eq).
  unfold sock_queue_rcv_skb. rewrite st_bind_bind, (st_bind_ok _ _ _ _ _ (ask_well EQueue s1 Hw1)). cbn [Z.eqb].
  rewrite st_bind_bind, (st_bind_ok _ _ _ _ _ (upd_sock_ok _ _ _ _ Hk1)), st_bind_ret.
  erewrite st_bind_ok by (apply put_ok; [cbn; apply lookup_insert_eq|cbn; lia]).
  unfold st_ret. f_equal. f_equal. unfold s1, set_socks. cbn. f_equal. rewrite !insert_insert_eq. f_equal.
  unfold with_refs, with_queue. destruct k; cbn. f_equal. lia.
Qed.

(** A waiter: an open socket on its port that also holds a reference for the wait. *)
Definition waiter_ok (s : router) (i : Z) : Prop :=
  exists k, socks s !! i = Some k /\ 1 < sk_refs k /\ qrtr_ports s !! port_key (sq_port (us k)) = Some i.

Definition told (src : sockaddr_qrtr) (i : Z) (k : qrtr_sock) : qrtr_sock :=
  with_refs (sk_refs k - 1) (with_queue (sk_queue k ++ [Skb (Some i) (cb_from src cb0) []]) k).

Lemma resume_waiters_ok src l : forall s, all_well s -> NoDup l -> Forall (waiter_ok s) l ->
  exists m, resume_waiters src l s = Ok (tt, set_socks m s) /\
    (forall i, i ∈ l -> m !! i = fmap (told src i) (socks s !! i)) /\ (forall i, i ∉ l -> m !! i = socks s !! i).
Proof.
  induction l as [|i l IH]; intros s Hw Hnd Hl; cbn [resume_waiters].
  { exists (socks s). split; [by destruct s|]. split; [by intros i Hi%not_elem_of_nil|done]. }
  apply NoDup_cons in Hnd as [Hi Hnd]. apply Forall_cons in Hl as [(k & Hk & Hr & Hp) Hl].
  rewrite (st_bind_ok _ _ _ _ _ (ask_well EAlloc s Hw)). cbn [Z.eqb].
  rewrite st_bind_bind, (st_bind_ok _ _ _ _ _ (sock_of_ok _ _ _ Hk)), st_bind_bind.
  rewrite (st_bind_ok _ _ _ _ _ (local_enqueue_ok None [] cb0 src (us k) s i k Hw Hp Hk ltac:(lia) ltac:(done))), st_bind_ret.
  erewrite st_bind_ok by (apply put_ok; [cbn; apply lookup_insert_eq|cbn; lia]).
  set (s1 := set_socks _ (set_socks _ s)).
  assert (Hs1 : socks s1 = <[i := told src i k]> (socks s)) by (unfold s1; cbn; by rewrite insert_insert_eq).
  destruct (IH s1 Hw Hnd) as (m & Hm & Hin & Hout).
  { rewrite Forall_forall in *. intros j Hj. destruct (Hl j Hj) as (kj & Hkj & Hrj & Hpj). exists kj. rewrite Hs1, lookup_insert_ne by (intros <-; done). done. }
  exists m. split; [exact Hm|]. split.
  - intros j [->|Hj]%elem_of_cons.
    + rewrite Hout, Hs1, lookup_insert_eq, Hk by done. done.
    + rewrite Hin, Hs1, lookup_insert_ne by (done || (intros <-; done)). done.
  - intros j [Hji Hj]%not_elem_of_cons. rewrite Hout, Hs1, lookup_insert_ne by done. done.
Qed.

(** The flow of a destination after a resume packet. *)
Lemma tx_resume_ok a skb s n node port f : all_well s -> nodes s !! a = Some n -> is_u32 node -> is_u32 port ->
  skb_data skb = pkt_bytes (Pkt QRTR_TYPE_RESUME_TX node port 0 0) ->
  tx_flows n !! flow_key node port = Some f -> NoDup (waiters f) -> Forall (waiter_ok s) (waiters f) ->
  exists m, qrtr_tx_resume a skb s = Ok (tt, set_socks m (log (Resumed a (flow_key node port))
      (set_nodes (<[a := with_flows (<[flow_key node port := Flow 0 (tx_failed f) []]> (tx_flows n)) n]> (nodes s)) s))) /\
    (forall i, i ∈ waiters f -> m !! i = fmap (told (Sockaddr node port) i) (socks s !! i)) /\
    (forall i, i ∉ waiters f -> m !! i = socks s !! i).
Proof.
  intros Hw Hn Hnode Hport Hd Hf Hnd Hwt. unfold qrtr_tx_resume. rewrite Hd. unfold copy_pkt. rewrite length_pkt.
  change (Z.of_nat 20 <? sizeof_ctrl_pkt) with false. cbv iota.
  rewrite <-(app_nil_r (pkt_bytes _)), pkt_roundtrip.
  2:{ unfold pkt_ok. cbn. repeat constructor; unfold QRTR_TYPE_RESUME_TX, is_u32 in *; lia. }
  cbn [p_cmd Z.eqb negb client_node client_port p_w0 p_w1 sq_node sq_port]. cbv zeta. rewrite Z.eqb_refl. cbn [negb].
  rewrite (st_bind_ok _ _ _ _ _ (node_of_ok _ _ _ Hn)), Hf.
  unfold set_flow. rewrite (st_bind_ok _ _ _ _ _ (upd_node_ok _ _ _ _ Hn)), st_bind_upd.
  match goal with |- exists m, resume_waiters _ _ ?t = _ /\ _ => destruct (resume_waiters_ok (Sockaddr node port) (waiters f) t)
    as (m & Hm & Hin & Hout); [exact Hw|exact Hnd|exact Hwt|] end.
  by exists m.
Qed.

(** The receive call on a packet with the confirmation flag: the caller gets the first bytes, and the resume
    packet goes out. *)
Lemma recv_confirms w fuel i size want s k skb q b n :
  let cb := skb_cb skb in let len := Z.of_nat (length (skb_data skb)) in
  let copied := if len >? size then size else len in
  all_well s -> socks s !! i = Some k -> sk_zapped k = false -> sk_err k = 0 -> sk_queue k = skb :: q ->
  cb_confirm_rx cb <> 0 -> qrtr_nodes s !! src_node cb = Some b -> nodes s !! b = Some n ->
  nd_ep n = true -> hello_sent n <> 0 -> 0 < nd_ref n ->
  qrtr_recvmsg w fuel i size want s =
  Ok (Received copied (take (Z.to_nat copied) (skb_data skb))
        (if want then Some (Sockaddr (src_node cb) (src_port cb)) else None) (len >? size),
      log (Xmit b (resume_packet cb (dest_nid n (Sockaddr (src_node cb) (src_port cb)))) 0)
        (set_socks (<[i := with_queue q k]> (socks s)) s)).
Proof.
  intros cb len copied Hw Hk Hz Herr Hq Hc Ht Hn He Hh Hr. unfold qrtr_recvmsg.
  rewrite (st_bind_ok _ _ _ _ _ (sock_of_ok _ _ _ Hk)), Hz. unfold skb_recv_datagram, sock_error.
  rewrite st_bind_bind, st_bind_bind, (st_bind_ok _ _ _ _ _ (sock_of_ok _ _ _ Hk)), Herr. cbn [Z.eqb].
  rewrite st_bind_ret. cbn [Z.eqb negb]. rewrite st_bind_bind, (st_bind_ok _ _ _ _ _ (sock_of_ok _ _ _ Hk)), Hq.
  rewrite st_bind_bind, (st_bind_ok _ _ _ _ _ (upd_sock_ok _ _ _ _ Hk)), st_bind_ret.
  fold cb. fold len. fold copied. set (s1 := set_socks _ s).
  rewrite (st_bind_ok _ _ _ _ _ (ask_well ECopy s1 Hw)). cbn [Z.ltb Z.compare]. bool_false (cb_confirm_rx cb =? 0).
  rewrite (st_bind_ok _ _ _ _ _ (send_resume_ok w fuel cb s1 b n Hw Ht Hn He Hh Hr)). done.
Qed.

Lemma fwd_resume_ok w fuel a skb : cb_type (skb_cb skb) = QRTR_TYPE_RESUME_TX -> forall l s,
  fwd_ctrl_loop w fuel a skb l s = Ok (tt, s).
Proof.
  intros Ht l s. induction l as [|b l IH]; cbn [fwd_ctrl_loop]; [done|].
  unfold qrtr_must_forward. rewrite Ht. cbn [Z.eqb orb]. rewrite orb_true_r, st_bind_ret. exact IH.
Qed.

Lemma rx_resume_ok w fuel a skb s n node port f :
  all_well s -> nodes s !! a = Some n -> rx_queue n = [skb] -> cb_type (skb_cb skb) = QRTR_TYPE_RESUME_TX ->
  dst_node (skb_cb skb) = qrtr_local_nid s -> is_u32 node -> is_u32 port ->
  skb_data skb = pkt_bytes (Pkt QRTR_TYPE_RESUME_TX node port 0 0) ->
  tx_flows n !! flow_key node port = Some f -> NoDup (waiters f) -> Forall (waiter_ok s) (waiters f) ->
  exists s' n', qrtr_node_rx_work w fuel a s = Ok (tt, s') /\ nodes s' !! a = Some n' /\ rx_queue n' = [] /\
    tx_flows n' !! flow_key node port = Some (Flow 0 (tx_failed f) []) /\
    (forall i, i ∈ waiters f -> socks s' !! i = fmap (told (Sockaddr node port) i) (socks s !! i)).
Proof.
  intros Hw Hn Hq Ht Hd Hnode Hport Hdata Hf Hnd Hwt. unfold qrtr_node_rx_work.
  rewrite (st_bind_ok _ _ _ _ _ (upd_node_ok _ _ _ _ Hn)). set (s1 := set_nodes _ s).
  assert (Hn1 : nodes s1 !! a = Some (with_rx (rx_queue n) false (nd_hello n) n)) by (unfold s1; cbn; apply lookup_insert_eq).
  rewrite (st_bind_ok _ _ _ _ _ (node_of_ok _ _ _ Hn1)). cbn [rx_queue with_rx]. rewrite Hq.
  cbn [length rx_loop]. rewrite (st_bind_ok _ _ _ _ _ (node_of_ok _ _ _ Hn1)). cbn [rx_queue with_rx]. rewrite Hq.
  rewrite (st_bind_ok _ _ _ _ _ (upd_node_ok _ _ _ _ Hn1)). set (s2 := set_nodes _ s1).
  assert (Hn2 : nodes s2 !! a = Some (with_rx [] false (nd_hello n) n)) by (unfold s2; cbn; apply lookup_insert_eq).
  unfold rx_one. rewrite st_bind_bind, st_bind_get, Ht.
  change (QRTR_TYPE_RESUME_TX =? QRTR_TYPE_DATA) with false. change (QRTR_TYPE_RESUME_TX =? QRTR_TYPE_RESUME_TX) with true.
  cbv iota. unfold qrtr_fwd_ctrl_pkt. rewrite !st_bind_bind, st_bind_get.
  rewrite (st_bind_ok _ _ _ _ _ (fwd_resume_ok w fuel a skb Ht _ _)), Hd.
  change (qrtr_local_nid s2) with (qrtr_local_nid s). rewrite Z.eqb_refl. cbn [negb].
  destruct (tx_resume_ok a skb s2 _ node port f Hw Hn2 Hnode Hport Hdata Hf Hnd Hwt) as (m & Hm & Hin & _).
  rewrite (st_bind_ok _ _ _ _ _ Hm). set (s3 := set_socks m _).
  eassert (Hn3 : nodes s3 !! a = Some _) by (unfold s3; cbn; apply lookup_insert_eq).
  rewrite (st_bind_ok _ _ _ _ _ (node_of_ok _ _ _ Hn3)). eexists s3, _. split; [done|]. split; [exact Hn3|].
  split; [done|]. split; [cbn; apply lookup_insert_eq|]. exact Hin.
Qed.

(** C6: flow control closes the loop between two routers: when a receiver takes a packet with
    the confirmation flag, its router sends one packet back; the router of the sender accepts
    that packet, and its worker resets the counter of the flow, empties the list of waiters
    and tells each of them. *)
Theorem qrtr_resume_loop w fuel sB i size want k skb q b nB sA a nA f :
  let cb := skb_cb skb in
  let key := flow_key (dst_node cb) (dst_port cb) in
  all_well sB -> socks sB !! i = Some k -> sk_zapped k = false -> sk_err k = 0 -> sk_queue k = skb :: q ->
  cb_confirm_rx cb <> 0 -> qrtr_nodes sB !! src_node cb = Some b -> nodes sB !! b = Some nB ->
  nd_ep nB = true -> hello_sent nB <> 0 -> 0 < nd_ref nB ->
  is_u32 (src_node cb) -> is_u32 (src_port cb) -> is_u32 (dst_node cb) -> is_u32 (dst_port cb) ->
  src_node cb <> QRTR_NODE_BCAST ->
  all_well sA -> ports_live sA -> nodes sA !! a = Some nA -> rx_queue nA = [] -> qrtr_local_nid sA = src_node cb ->
  tx_flows nA !! key = Some f -> NoDup (waiters f) -> Forall (waiter_ok sA) (waiters f) ->
  exists out sB' pkt sA1 sA2 n2,
    qrtr_recvmsg w fuel i size want sB = Ok (out, sB') /\ trace sB' = trace sB ++ [Xmit b pkt 0] /\
    qrtr_endpoint_post a pkt sA = Ok (0, sA1) /\
    qrtr_node_rx_work w fuel a sA1 = Ok (tt, sA2) /\ nodes sA2 !! a = Some n2 /\
    tx_flows n2 !! key = Some (Flow 0 (tx_failed f) []) /\
    forall j, j ∈ waiters f ->
      socks sA2 !! j = fmap (told (Sockaddr (dst_node cb) (dst_port cb)) j) (socks sA !! j).
Proof.
  intros cb key HwB Hk Hz Herr Hq Hc Ht HnB HeB HhB HrB Hsn Hsp Hdn Hdp Hbc HwA Hlive HnA HqA Hlocal Hf Hnd Hwt.
  pose proof (recv_confirms w fuel i size want sB k skb q b nB HwB Hk Hz Herr Hq Hc Ht HnB HeB HhB HrB) as Hrecv.
  cbv zeta in Hrecv. fold cb in Hrecv. unfold dest_nid in Hrecv. cbn [sq_node] in Hrecv.
  replace (src_node cb =? QRTR_NODE_BCAST) with false in Hrecv by lia.
  destruct (post_packet a sA nA QRTR_TYPE_RESUME_TX (Sockaddr (dst_node cb) (dst_port cb)) 0 (src_node cb) (src_port cb)
    (pkt_bytes (Pkt QRTR_TYPE_RESUME_TX (dst_node cb) (dst_port cb) 0 0))) as (sA1 & Hpost & Hqd);
    try done; try (by left); try (by apply HwA).
  { unfold bad_type. cbn. apply andb_false_r. }
  destruct Hqd as [(Hl1 & Hp1 & He1) Hqd]. cbn [cb_type legacy_ctrl] in Hqd.
  change (negb (QRTR_TYPE_RESUME_TX =? QRTR_TYPE_DATA)) with true in Hqd. cbn [orb] in Hqd.
  destruct Hqd as (Hs1 & n' & nid & Hn' & Hn1 & _). simplify_eq. rewrite HqA in Hn1.
  edestruct (rx_resume_ok w fuel a) as (sA2 & n2 & Hrx & Hn2 & _ & Hf2 & Hin).
  - intros c. apply He1, HwA.
  - exact Hn1.
  - reflexivity.
  - reflexivity.
  - cbn. by rewrite Hl1.
  - exact Hdn.
  - exact Hdp.
  - reflexivity.
  - exact Hf.
  - exact Hnd.
  - eapply Forall_impl; [exact Hwt|]. intros j. unfold waiter_ok. by rewrite Hs1, Hp1.
  - rewrite Hs1 in Hin. eexists _, _, _, sA1, sA2, n2. split; [exact Hrecv|]. split; [reflexivity|]. split; [exact Hpost|].
    split; [exact Hrx|]. split; [exact Hn2|]. split; [exact Hf2|exact Hin].
Qed.
