(* ===== verification/QrtrDelivery.v ===== *)
(** * Ports, local delivery and forwarding of the message router *)
From stdpp Require Import sorting.
From S2P Require Import Prelude CMem KernelIdr QrtrNs QrtrRegistry QrtrRouter QrtrPacket QrtrSocket QrtrResume.
Open Scope c_scope.

(** ** Forwarding *)

(** A control packet from [src] is for the endpoint [a]: another one, with an identifier, of a
    network more than one away. *)
Definition forward_to (s : router) (src type a : Z) : Prop :=
  type <> QRTR_TYPE_HELLO /\ type <> QRTR_TYPE_RESUME_TX /\ a <> src /\
  exists n m, nodes s !! a = Some n /\ nodes s !! src = Some m /\ nd_nid n <> QRTR_EP_NID_AUTO /\
    1 < net_distance (nd_net_id n) (nd_net_id m).

#[export] Instance forward_dec s src type a : Decision (forward_to s src type a).
Proof.
  unfold forward_to. apply and_dec; [apply not_dec, Z.eq_dec|]. apply and_dec; [apply not_dec, Z.eq_dec|].
  apply and_dec; [apply not_dec, Z.eq_dec|].
  destruct (nodes s !! a) as [n|] eqn:En; [|right; naive_solver].
  destruct (nodes s !! src) as [m|] eqn:Em; [|right; naive_solver].
  destruct (decide (nd_nid n <> QRTR_EP_NID_AUTO /\ 1 < net_distance (nd_net_id n) (nd_net_id m))); [left|right]; naive_solver.
Defined.

(** The endpoints of the router are registered and said hello. *)
Definition epts_ready (s : router) : Prop :=
  forall a, a ∈ qrtr_all_epts s -> exists n, nodes s !! a = Some n /\ nd_ep n = true /\ hello_sent n <> 0 /\ is_u32 (nd_nid n).

Definition forwarded (s : router) (skb : sk_buff) (a : Z) : event :=
  let cb := skb_cb skb in
  Xmit a (packet (cb_type cb) (Sockaddr (src_node cb) (src_port cb)) 0
            (default 0 (nd_nid <$> nodes s !! a)) QRTR_PORT_CTRL (skb_data skb)) 0.

Lemma must_forward_ok s src a type n m : nodes s !! a = Some n -> nodes s !! src = Some m ->
  qrtr_must_forward (Some src) (Some a) type s = Ok (bool_decide (forward_to s src type a), s).
Proof.
  intros Hn Hm. unfold qrtr_must_forward. case_if.
  { rewrite bool_decide_false; [done|]. intros (? & ? & _). lia. }
  rewrite (st_bind_ok _ _ _ _ _ (node_of_ok _ _ _ Hn)). case_if.
  { rewrite bool_decide_false; [done|]. intros (_ & _ & Ha & n' & m' & ? & ? & ? & _). simplify_eq. lia. }
  rewrite (st_bind_ok _ _ _ _ _ (node_of_ok _ _ _ Hm)). unfold st_ret. do 2 f_equal.
  apply eq_bool_prop_intro. rewrite bool_decide_spec. unfold forward_to. split.
  - intros Hd%Is_true_true. split_and!; try lia. exists n, m. split_and!; try done; lia.
  - intros (_ & _ & _ & n' & m' & ? & ? & _ & Hd). simplify_eq. apply Is_true_true. lia.
Qed.

Lemma fwd_loop_ok w fuel src skb m l : forall s,
  all_well s -> nodes s !! src = Some m ->
  (forall a, a ∈ l -> exists n, nodes s !! a = Some n /\ nd_ep n = true /\ hello_sent n <> 0 /\ is_u32 (nd_nid n)) ->
  cb_confirm_rx (skb_cb skb) = 0 -> Z.of_nat (length (skb_data skb)) < 2 ^ 32 ->
  fwd_ctrl_loop w fuel src skb l s =
  Ok (tt, foldl (fun t e => log e t) s (map (forwarded s skb) (filter (forward_to s src (cb_type (skb_cb skb))) l))).
Proof.
  induction l as [|a l IH]; intros s Hw Hm Hl Hc Hlen; cbn [fwd_ctrl_loop]; [done|].
  destruct (Hl a ltac:(left)) as (n & Hn & He & Hh & Hnid).
  rewrite (st_bind_ok _ _ _ _ _ (must_forward_ok _ _ _ _ _ _ Hn Hm)), filter_cons. case_bool_decide as Hf; cbn [negb].
  2:{ rewrite decide_False by done. apply IH; try done. intros b Hb. apply Hl. by right. }
  rewrite decide_True by done. rewrite (st_bind_ok _ _ _ _ _ (ask_well EAlloc s Hw)). cbn [Z.eqb negb].
  rewrite (st_bind_ok _ _ _ _ _ (node_of_ok _ _ _ Hn)).
  destruct Hf as (Hf1 & Hf2 & _ & n' & m' & ? & ? & Hauto & _). simplify_eq.
  rewrite (st_bind_ok _ _ _ _ _ (enqueue_plain w fuel a (Skb None (skb_cb skb) (skb_data skb)) _ _ (Sockaddr (nd_nid n) QRTR_PORT_CTRL) 0 s n
    Hw Hn He Hh Hf1 eq_refl Hc Hlen)).
  assert (Hd : dest_nid n (Sockaddr (nd_nid n) QRTR_PORT_CTRL) = nd_nid n) by (unfold dest_nid; cbn; by case_if).
  rewrite Hd. cbn [map foldl skb_data sq_port].
  replace (Xmit a _ 0) with (forwarded s skb a) by (unfold forwarded; by rewrite Hn).
  set (s1 := log _ s). rewrite (IH s1 Hw Hm); [done| |done|done]. intros b Hb. apply Hl. by right.
Qed.

(** A control packet that arrived on one endpoint is forwarded, unchanged, to exactly the
    endpoints of networks more than one away, once each and in the order of the list: never
    back where it came from, never to a node that has no identifier yet, and hello and
    resume packets to nobody. *)
Theorem qrtr_forward_correct w fuel src skb s m :
  all_well s -> nodes s !! src = Some m -> epts_ready s ->
  cb_confirm_rx (skb_cb skb) = 0 -> Z.of_nat (length (skb_data skb)) < 2 ^ 32 ->
  exists s', qrtr_fwd_ctrl_pkt w fuel src skb s = Ok (tt, s') /\ nodes s' = nodes s /\ socks s' = socks s /\
    trace s' = trace s ++ map (forwarded s skb) (filter (forward_to s src (cb_type (skb_cb skb))) (qrtr_all_epts s)).
Proof.
  intros Hw Hm Hr Hc Hl. unfold qrtr_fwd_ctrl_pkt. rewrite st_bind_get, (fwd_loop_ok w fuel src skb m) by done.
  eexists. split; [done|]. generalize (map (forwarded s skb) (filter (forward_to s src (cb_type (skb_cb skb))) (qrtr_all_epts s))).
  intros es. clear. revert s. induction es as [|e es IH]; intros s; cbn [foldl]; [by rewrite app_nil_r|].
  destruct (IH (log e s)) as (-> & -> & ->). split; [done|]. split; [done|]. cbn. by rewrite <-app_assoc.
Qed.

(** ** Binding *)
Section ports.
Context `{Idr} (w : ST router Z) (fuel : nat).

(** The numbers a request can get: the ephemeral range, or the port itself. *)
Definition wanted (port p : Z) : Prop :=
  if port =? 0 then QRTR_MIN_EPH_SOCKET <= p <= QRTR_MAX_EPH_SOCKET else p = port.

Definition assign_with (i port r : Z) : ST router (Z * Z) :=
  let! rc := idr_take i r (r + 1) in st_ret (rc, if 0 <=? rc then rc else port).

Lemma take_ok i port r s : env s EInsert = [] ->
  assign_with i port r s =
  Ok (if 0 <=? r then (r, r) else (r, port), if 0 <=? r then set_ports (<[r := i]> (qrtr_ports s)) (r + 1) s else s).
Proof.
  intros He. unfold assign_with, idr_take, ask. unfold st_bind at 1 2. rewrite He. cbn [Z.eqb negb].
  unfold st_bind, st_upd, st_ret. case_if; cbn; by rewrite Heqb.
Qed.

(** The search for a port that is not the control port. *)
Lemma port_assign_ok capable i port s k : socks s !! i = Some k -> 0 <= port < 2 ^ 31 -> env s EInsert = [] ->
  (port <> 0 /\ port < QRTR_MIN_EPH_SOCKET /\ capable = false /\
     qrtr_port_assign capable i port s = Ok ((- EACCES, port), s)) \/
  ((forall p, wanted port p -> is_Some (qrtr_ports s !! p)) /\
     qrtr_port_assign capable i port s = Ok ((- EADDRINUSE, port), s)) \/
  exists p, wanted port p /\ 0 <= p < 2 ^ 31 /\ qrtr_ports s !! p = None /\
    qrtr_port_assign capable i port s =
    Ok ((0, p), set_socks (<[i := with_refs (sk_refs k + 1) k]> (socks s)) (set_ports (<[p := i]> (qrtr_ports s)) (p + 1) s)).
Proof.
  intros Hk Hp He. unfold qrtr_port_assign. rewrite !st_bind_get.
  assert (Hres : forall lo hi r, 0 <= lo < hi -> hi <= 2 ^ 31 -> (forall p, wanted port p <-> lo <= p < hi) ->
    (lo <= r < hi /\ qrtr_ports s !! r = None) \/ (r = - ENOSPC /\ forall p, lo <= p < hi -> is_Some (qrtr_ports s !! p)) ->
    let c := st_bind (assign_with i port r) (fun '(rc, port) =>
      if rc =? - ENOSPC then st_ret (- EADDRINUSE, port) else if rc <? 0 then st_ret (rc, port) else
      sock_hold i ;;; st_ret (0, port)) in
    ((forall p, wanted port p -> is_Some (qrtr_ports s !! p)) /\ c s = Ok ((- EADDRINUSE, port), s)) \/
    exists p, wanted port p /\ 0 <= p < 2 ^ 31 /\ qrtr_ports s !! p = None /\
      c s = Ok ((0, p), set_socks (<[i := with_refs (sk_refs k + 1) k]> (socks s)) (set_ports (<[p := i]> (qrtr_ports s)) (p + 1) s))).
  { intros lo hi r Hlo Hhi Hwant [[Hr Hfree]|[-> Hfull]] c; unfold c; rewrite (st_bind_ok _ _ _ _ _ (take_ok i port _ s He)).
    - right. exists r. split; [by apply Hwant|]. split; [lia|]. split; [done|]. bool_true (0 <=? r). cbv iota beta.
      replace (r =? - ENOSPC) with false by (unfold ENOSPC; lia). bool_false (r <? 0).
      set (s1 := set_ports _ _ s). assert (Hk1 : socks s1 !! i = Some k) by exact Hk.
      by rewrite (st_bind_ok _ _ _ _ _ (hold_ok _ _ _ Hk1)).
    - left. split; [|done]. intros p Hpw. apply Hfull. by apply Hwant. }
  case_if.
  - right. assert (Hw : forall p, wanted port p <-> QRTR_MIN_EPH_SOCKET <= p < QRTR_MAX_EPH_SOCKET + 1).
    { intros p. unfold wanted. rewrite Heqb. lia. }
    apply (Hres QRTR_MIN_EPH_SOCKET (QRTR_MAX_EPH_SOCKET + 1) _ ltac:(unfold QRTR_MIN_EPH_SOCKET, QRTR_MAX_EPH_SOCKET; lia) ltac:(unfold QRTR_MAX_EPH_SOCKET; lia) Hw).
    apply idr_cyclic_spec. unfold QRTR_MIN_EPH_SOCKET, QRTR_MAX_EPH_SOCKET. lia.
  - case_if; [left; rewrite st_bind_ret; split_and!; [lia|lia|by destruct capable; lia|done]|right].
    rewrite u32_id by lia. unfold QRTR_PORT_CTRL. bool_false (port =? 4294967294).
    assert (Hw : forall p, wanted port p <-> port <= p < port + 1).
    { intros p. unfold wanted. rewrite Heqb. lia. }
    apply (Hres port (port + 1) _ ltac:(lia) ltac:(lia) Hw). apply idr_cyclic_spec. lia.
Qed.

(** The first bind of a socket gives it exactly one unused port: the one it asks for, or an
    unused one of the ephemeral range for port 0; it fails with -EACCES exactly for a reserved
    port without the permission, with -EADDRINUSE exactly when every port it could get is
    taken, and a failure changes nothing. *)
Theorem qrtr_bind_correct capable i port s k :
  socks s !! i = Some k -> 0 <= port < 2 ^ 31 -> env s EInsert = [] ->
  exists rc s', __qrtr_bind w fuel capable i port true s = Ok (rc, s') /\
  ((rc = - EACCES /\ port <> 0 /\ port < QRTR_MIN_EPH_SOCKET /\ capable = false /\ s' = s) \/
   (rc = - EADDRINUSE /\ (forall p, wanted port p -> is_Some (qrtr_ports s !! p)) /\ s' = s) \/
   (rc = 0 /\ exists p, wanted port p /\ qrtr_ports s !! p = None /\ qrtr_ports s' = <[p := i]> (qrtr_ports s) /\
      socks s' = <[i := with_bound p (with_refs (sk_refs k + 1) k)]> (socks s) /\
      nodes s' = nodes s /\ trace s' = trace s)).
Proof.
  intros Hk Hp He. unfold __qrtr_bind. rewrite (st_bind_ok _ _ _ _ _ (sock_of_ok _ _ _ Hk)). cbn [negb andb].
  rewrite s32_id by lia.
  destruct (port_assign_ok capable i port s k Hk Hp He) as [(H0 & H1 & H2 & Hr)|[(Hfull & Hr)|(p & Hw & Hpr & Hfree & Hr)]];
    rewrite (st_bind_ok _ _ _ _ _ Hr).
  - exists (- EACCES), s. split; [done|]. by left.
  - exists (- EADDRINUSE), s. split; [done|]. right. by left.
  - cbn [Z.eqb negb]. rewrite u32_id by lia. unfold QRTR_PORT_CTRL. bool_false (p =? 4294967294). rewrite !st_bind_ret.
    erewrite st_bind_ok by (apply upd_sock_ok; cbn; apply lookup_insert_eq).
    exists 0. eexists. split; [done|]. right. right. split; [done|]. exists p. split; [done|]. split; [done|].
    split; [done|]. split; [|done]. cbn. by rewrite insert_insert_eq.
Qed.
End ports.

(** ** Local messages *)
Section local.
Context `{Idr} (w : ST router Z) (fuel : nat).

(** A socket a call can use: bound, and without a pending error. *)
Definition usable (k : qrtr_sock) : Prop := sk_zapped k = false /\ sk_err k = 0 /\ 0 < sk_refs k.

Lemma sock_error_ok i s k : socks s !! i = Some k -> sk_err k = 0 -> sock_error i s = Ok (0, s).
Proof. intros Hk He. unfold sock_error. by rewrite (st_bind_ok _ _ _ _ _ (sock_of_ok _ _ _ Hk)), He. Qed.

Definition local_msg (addr : sockaddr_qrtr) (flags : Z) (data : list Z) : msghdr :=
  Msghdr (Some (sizeof_sockaddr_qrtr, AF_QIPCRTR, addr)) flags data.

Definition delivered (i j : Z) (ki kj : qrtr_sock) (data : list Z) (s : router) : router :=
  set_socks (<[j := with_queue (sk_queue kj ++ [Skb (Some j) (cb_from (us ki) cb0) data]) kj]> (socks s)) s.

Lemma send_local_ok capable i j addr flags data s ki kj : all_well s ->
  socks s !! i = Some ki -> usable ki -> socks s !! j = Some kj -> usable kj -> i <> j ->
  Z.ldiff flags MSG_DONTWAIT = 0 -> Z.of_nat (length data) <= 65535 ->
  sq_port (us ki) <> QRTR_PORT_CTRL -> sq_port addr <> QRTR_PORT_CTRL ->
  sq_node addr = sq_node (us ki) -> sq_node addr <> QRTR_NODE_BCAST ->
  qrtr_ports s !! port_key (sq_port addr) = Some j ->
  qrtr_sendmsg w fuel capable i (local_msg addr flags data) s = Ok (Z.of_nat (length data), delivered i j ki kj data s).
Proof.
  intros Hw Hki (Hzi & Hei & Hri) Hkj (Hzj & Hej & Hrj) Hij Hfl Hlen Hpi Hpa Hna Hnb Hp.
  unfold qrtr_sendmsg. cbn [msg_flags msg_data msg_name local_msg]. rewrite Hfl. cbn [Z.eqb negb].
  bool_false (Z.of_nat (length data) >? 65535).
  unfold send_addr. cbn [msg_name local_msg]. unfold qrtr_autobind.
  change (sizeof_sockaddr_qrtr <? sizeof_sockaddr_qrtr) with false. change (AF_QIPCRTR =? AF_QIPCRTR) with true. cbn [negb].
  rewrite st_bind_bind, st_bind_bind, (st_bind_ok _ _ _ _ _ (sock_of_ok _ _ _ Hki)), Hzi. cbn [negb]. rewrite !st_bind_ret.
  cbn [Z.eqb]. unfold send_route. rewrite st_bind_bind, (st_bind_ok _ _ _ _ _ (sock_of_ok _ _ _ Hki)), st_bind_bind, st_bind_get.
  bool_false (sq_node addr =? QRTR_NODE_BCAST). bool_true (sq_node addr =? sq_node (us ki)). rewrite st_bind_ret.
  cbn [route_node qrtr_node_release]. unfold send_data, sock_alloc_send_skb. cbn [msg_data msg_flags local_msg].
  rewrite !st_bind_bind, (st_bind_ok _ _ _ _ _ (sock_error_ok _ _ _ Hki Hei)). cbn [Z.eqb negb].
  rewrite st_bind_bind, (st_bind_ok _ _ _ _ _ (ask_well EAlloc s Hw)), st_bind_ret. cbn [Z.eqb negb].
  rewrite st_bind_bind, (st_bind_ok _ _ _ _ _ (ask_well ECopy s Hw)). cbn [Z.eqb negb].
  rewrite st_bind_bind, (st_bind_ok _ _ _ _ _ (sock_of_ok _ _ _ Hki)).
  bool_false (sq_port (us ki) =? QRTR_PORT_CTRL). bool_false (sq_port addr =? QRTR_PORT_CTRL). cbn [orb andb].
  unfold send_filter. bool_false (sq_port addr =? QRTR_PORT_CTRL). cbn [andb]. rewrite st_bind_bind, st_bind_ret. cbn [negb].
  rewrite st_bind_bind, (st_bind_ok _ _ _ _ _ (sock_of_ok _ _ _ Hki)). unfold enqueue_fn.
  rewrite st_bind_bind. erewrite st_bind_ok; [|apply local_enqueue_ok; [exact Hw|exact Hp|exact Hkj|exact Hrj|]].
  2:{ intros sk [= <-]. eauto. }
  rewrite !st_bind_ret. reflexivity.
Qed.

(** What was delivered is received, and the router is as it was before. *)
Lemma recv_delivered i j data size s ki kj : all_well s -> socks s !! j = Some kj -> usable kj -> sk_queue kj = [] ->
  Z.of_nat (length data) <= size ->
  qrtr_recvmsg w fuel j size true (delivered i j ki kj data s) =
  Ok (Received (Z.of_nat (length data)) data (Some (us ki)) false, s).
Proof.
  intros Hw Hkj (Hzj & Hej & Hrj) Hq Hsize. unfold delivered. rewrite Hq. cbn [app].
  set (kj' := with_queue _ kj). set (s1 := set_socks _ s).
  assert (Hk1 : socks s1 !! j = Some kj') by (unfold s1; cbn; apply lookup_insert_eq).
  unfold qrtr_recvmsg. rewrite (st_bind_ok _ _ _ _ _ (sock_of_ok _ _ _ Hk1)). cbn [kj' sk_zapped with_queue]. rewrite Hzj.
  unfold skb_recv_datagram. rewrite st_bind_bind, (st_bind_ok _ _ _ _ _ (sock_error_ok _ _ _ Hk1 Hej)). cbn [Z.eqb negb].
  rewrite st_bind_bind, (st_bind_ok _ _ _ _ _ (sock_of_ok _ _ _ Hk1)). cbn [kj' sk_queue with_queue].
  rewrite st_bind_bind, (st_bind_ok _ _ _ _ _ (upd_sock_ok _ _ _ _ Hk1)), st_bind_ret.
  set (s2 := set_socks _ s1). assert (Hs2 : s2 = s).
  { unfold s2, s1, set_socks. cbn. rewrite insert_insert_eq, insert_id; [by destruct s|]. rewrite Hkj. f_equal.
    unfold with_queue. destruct kj; cbn in *. by subst. }
  rewrite Hs2. cbn [skb_cb skb_data]. rewrite (st_bind_ok _ _ _ _ _ (ask_well ECopy s Hw)). cbn [Z.ltb Z.compare].
  bool_false (Z.of_nat (length data) >? size). rewrite Nat2Z.id, take_ge by lia. cbn [cb_confirm_rx cb_from cb0 Z.eqb src_node src_port].
  rewrite st_bind_ret. unfold st_ret. do 3 f_equal. by destruct (us ki).
Qed.

(** A socket with nothing queued has nothing to receive. *)
Lemma recv_empty i size s k : all_well s -> socks s !! i = Some k -> usable k -> sk_queue k = [] ->
  qrtr_recvmsg w fuel i size true s = Ok (Received (- EAGAIN) [] None false, s).
Proof.
  intros Hw Hk (Hz & He & _) Hq. unfold qrtr_recvmsg. rewrite (st_bind_ok _ _ _ _ _ (sock_of_ok _ _ _ Hk)), Hz.
  unfold skb_recv_datagram. rewrite st_bind_bind, (st_bind_ok _ _ _ _ _ (sock_error_ok _ _ _ Hk He)). cbn [Z.eqb negb].
  rewrite st_bind_bind, (st_bind_ok _ _ _ _ _ (sock_of_ok _ _ _ Hk)), Hq, st_bind_bind.
  by rewrite (st_bind_ok _ _ _ _ _ (ask_well ERecv s Hw)), st_bind_ret.
Qed.

(** A message between two local sockets arrives as it was sent: the send call returns its
    length, and the receiver gets the same bytes and the address of the sender; afterwards
    the router is in the state it was in before. *)
Theorem qrtr_local_roundtrip capable i j addr flags data size s ki kj : all_well s ->
  socks s !! i = Some ki -> usable ki -> socks s !! j = Some kj -> usable kj -> i <> j ->
  Z.ldiff flags MSG_DONTWAIT = 0 -> Z.of_nat (length data) <= 65535 -> Z.of_nat (length data) <= size ->
  sq_port (us ki) <> QRTR_PORT_CTRL -> sq_port addr <> QRTR_PORT_CTRL ->
  sq_node addr = sq_node (us ki) -> sq_node addr <> QRTR_NODE_BCAST ->
  qrtr_ports s !! port_key (sq_port addr) = Some j -> sk_queue kj = [] ->
  exists s', qrtr_sendmsg w fuel capable i (local_msg addr flags data) s = Ok (Z.of_nat (length data), s') /\
    qrtr_recvmsg w fuel j size true s' = Ok (Received (Z.of_nat (length data)) data (Some (us ki)) false, s).
Proof.
  intros Hw Hki Hui Hkj Huj Hij Hfl Hlen Hsize Hpi Hpa Hna Hnb Hp Hq.
  eexists. split; [by eapply send_local_ok|by apply recv_delivered].
Qed.
End local.
