(* ===== verification/QrtrDemo.v ===== *)
(** * The message router on concrete states

    A router with one neighbour and two sockets, the theorems at work
    on it, and the places where the code does not do what it means to. *)
From stdpp Require Import sorting.
From S2P Require Import Prelude CMem KernelIdr QrtrNs QrtrRegistry QrtrRouter QrtrPacket QrtrSocket QrtrFlow QrtrResume QrtrDelivery.
Open Scope c_scope.

(** ** A router

    Node 10 leads to processor 5 and node 11 to processor 9, two networks away; socket 20 is
    the control port, sockets 21 and 22 have ports 0x4001 and 0x4002. *)
Module RouterDemo.
Definition sock (port refs : Z) : qrtr_sock :=
  Sock (Sockaddr 1 port) (Sockaddr 0 0) QRTR_STATE_INIT 0 false false 0 [] refs.
Definition node (nid net : Z) (flows : gmap Z qrtr_tx_flow) : qrtr_node :=
  Node true 1 nid net 1 0 flows [] false false.
Definition dest : sockaddr_qrtr := Sockaddr 5 0x4010.
Definition key : Z := flow_key 5 0x4010.

Definition router_with (flows : gmap Z qrtr_tx_flow) (e : env_call -> list Z) : router :=
  Router 1 {[5 := 10; 9 := 11]} [11; 10] {[10 := node 5 1 flows; 11 := node 9 3 ∅]}
    {[0 := 20; 0x4001 := 21; 0x4002 := 22]} 0x4003
    {[20 := sock QRTR_PORT_CTRL 2; 21 := sock 0x4001 2; 22 := sock 0x4002 2]} 30 0 0 false [] e.

Definition start : router := router_with {[key := Flow 0 0 []]} (fun _ => []).

Definition nowait : ST router Z := st_ret 0.

Lemma nowait_reach ok t v t' : nowait t = Ok (v, t') -> reach ok t t'.
Proof. intros [= _ <-]. apply reach_refl. Qed.

Definition msg (data : list Z) : msghdr := Msghdr (Some (12, AF_QIPCRTR, dest)) MSG_DONTWAIT data.

Fixpoint run_all (ops : list op) : ST router unit :=
  match ops with
  | [] => st_ret tt
  | o :: ops => run nowait 3 o ;;; run_all ops
  end.

Lemma reach_all ok ops : forall s r s', Forall (op_ok ok) ops -> run_all ops s = Ok (r, s') -> reach ok s s'.
Proof.
  induction ops as [|o ops IH]; intros s r s' Ho; cbn [run_all]; [intros [= _ <-]; apply reach_refl|].
  apply Forall_cons in Ho as [Ho Hos]. intros (u & s1 & H1 & H2)%st_bind_inv.
  eapply reach_trans; [|by eapply IH]. eapply (reach_op _ nowait 3 o); [apply nowait_reach|exact Ho|exact H1].
Qed.

(** Ten messages: the flow is at the high watermark. *)
Definition ten : list op := replicate 10 (OSend false 21 (msg [1; 2; 3; 4])).
Definition final {A} (c : ST router A) (s : router) : router := match c s with Ok (_, s') => s' | _ => s end.

Lemma demo_nodes flows e a n : nodes (router_with flows e) !! a = Some n ->
  (a = 10 /\ n = node 5 1 flows) \/ (a = 11 /\ n = node 9 3 ∅).
Proof.
  cbn. rewrite lookup_insert. case_decide; [intros [= <-]; left; by subst|].
  intros [<- <-]%lookup_singleton_Some. by right.
Qed.

Lemma start_flow a n k f : nodes start !! a = Some n -> tx_flows n !! k = Some f -> f = Flow 0 0 [].
Proof.
  intros [[_ ->]|[_ ->]]%demo_nodes; cbn.
  - by intros [_ <-]%lookup_singleton_Some.
  - by rewrite lookup_empty.
Qed.

Lemma start_flows_ok : flows_ok start.
Proof. intros a n k f Hn Hf. rewrite (start_flow _ _ _ _ Hn Hf). apply flow_fresh_ok. Qed.

Lemma start_unstalled : unstalled start.
Proof.
  split; [done|]. intros a n k f Hn Hf. right. intros _ _ Hl. rewrite (start_flow _ _ _ _ Hn Hf) in Hl.
  cbn in Hl. unfold QRTR_TX_FLOW_LOW in Hl. lia.
Qed.

Lemma demo_live flows e : ports_live (router_with flows e).
Proof.
  intros p i Hp. assert (Hi : i = 20 \/ i = 21 \/ i = 22).
  { revert Hp. cbn. rewrite !lookup_insert. repeat case_decide; [intros [= <-]; tauto..|].
    intros [_ <-]%lookup_singleton_Some. tauto. }
  destruct Hi as [-> |[-> | ->]]; (eexists; split; [vm_compute; reflexivity|cbn; lia]).
Qed.

Lemma demo_well flows : all_well (router_with flows (fun _ => [])).
Proof. done. Qed.
End RouterDemo.
Import RouterDemo.

Lemma qrtr_flow_bounds_witness : exists s', reach (fun _ => True) start s' /\ flows_ok s'.
Proof.
  assert (Hr : reach (fun _ => True) start (final (run_all ten) start)).
  { apply (reach_all _ ten _ tt); [repeat constructor|vm_compute; reflexivity]. }
  eexists. split; [exact Hr|]. exact (qrtr_flow_bounds _ _ Hr start_flows_ok).
Defined.

Lemma qrtr_flow_no_stall_witness :
  reach (fun e => e EPad = []) start (final (run_all ten) start) /\ owed (trace (final (run_all ten) start)) 10 key.
Proof.
  assert (Hr : reach (fun e => e EPad = []) start (final (run_all ten) start)).
  { apply (reach_all _ ten _ tt); [repeat constructor|vm_compute; reflexivity]. }
  split; [exact Hr|].
  apply (qrtr_flow_no_stall start (final (run_all ten) start) 10
           (node 5 1 {[key := Flow 10 0 []]}) key (Flow 10 0 [])).
  - exact Hr.
  - exact start_unstalled.
  - vm_compute. reflexivity.
  - vm_compute. reflexivity.
  - reflexivity.
  - split; vm_compute; congruence.
  - reflexivity.
Defined.

(** A message of four bytes from processor 5 to port 0x4002, and a server it announces. *)
Definition incoming : list Z := packet QRTR_TYPE_DATA dest 0 1 0x4002 [9; 8; 7; 6].

Lemma qrtr_post_correct_witness : exists rc s',
  qrtr_endpoint_post 10 incoming start = Ok (rc, s') /\ (rc = 0 \/ same_queues start s').
Proof.
  destruct (qrtr_post_correct 10 incoming start (node 5 1 {[key := Flow 0 0 []]})) as (rc & s' & Hp & Hr).
  - apply (bool_decide_unpack _). vm_compute. exact I.
  - vm_compute. reflexivity.
  - apply demo_live.
  - intros cb size hdrlen Hh Ht. vm_compute in Hh. injection Hh as <- <- <-. discriminate Ht.
  - exists rc, s'. split; [exact Hp|]. destruct Hr as [[-> _]|[_ Hq]]; [left; reflexivity|right; exact Hq].
Defined.

Definition outgoing : sk_buff := Skb (Some 21) cb0 [1; 2; 3].
Definition sent : router := final (qrtr_node_enqueue nowait 3 10 outgoing QRTR_TYPE_DATA (Sockaddr 1 0x4001) dest 0) start.

(** The other side: processor 5, with a socket on port 0x4010. *)
Definition remote : router :=
  Router 5 {[1 := 50]} [50] {[50 := node 1 1 ∅]} {[0x4010 := 60]} 0x4011
    {[60 := Sock (Sockaddr 5 0x4010) (Sockaddr 0 0) QRTR_STATE_INIT 0 false false 0 [] 2]} 70 0 0 false [] (fun _ => []).

Lemma remote_live : ports_live remote.
Proof.
  intros p i. cbn. intros [_ <-]%lookup_singleton_Some. eexists. split; [vm_compute; reflexivity|cbn; lia].
Qed.

Lemma qrtr_link_roundtrip_witness : exists tr pkt, trace sent = tr ++ [Xmit 10 pkt 0] /\
  exists t', qrtr_endpoint_post 50 pkt remote = Ok (0, t').
Proof.
  destruct (qrtr_link_roundtrip nowait 3 10 outgoing QRTR_TYPE_DATA (Sockaddr 1 0x4001) dest 0 start sent
    (node 5 1 {[key := Flow 1 0 []]})) as (tr & pkt & c & Ht & Hp).
  - vm_compute. reflexivity.
  - vm_compute. reflexivity.
  - reflexivity.
  - vm_compute. congruence.
  - unfold QRTR_TYPE_DATA. lia.
  - unfold is_u32. cbn. lia.
  - unfold is_u32. cbn. lia.
  - unfold is_u32. cbn. lia.
  - unfold is_u32. cbn. lia.
  - cbn. lia.
  - exists tr, pkt. split; [exact Ht|].
    destruct (Hp remote 50 (node 1 1 ∅)) as (t' & Hpost & _).
    + vm_compute. reflexivity.
    + exact remote_live.
    + reflexivity.
    + reflexivity.
    + reflexivity.
    + vm_compute. congruence.
    + intros _ _. exists 60. vm_compute. reflexivity.
    + exists t'. exact Hpost.
Defined.

Lemma qrtr_peek_agrees_witness : qrtr_peek_pkt_size incoming = Ok 36.
Proof.
  apply (qrtr_peek_agrees incoming (Cb 5 0x4010 1 0x4002 1 0) 4 32).
  - apply (bool_decide_unpack _). vm_compute. exact I.
  - vm_compute. reflexivity.
  - lia.
  - vm_compute. reflexivity.
Defined.

Lemma qrtr_checksum_correct_witness : qrtr_calc_checksum (Some (Pkt 13 0xe111 5 0 0)) = 0x1edc.
Proof.
  destruct (qrtr_checksum_correct (Pkt 13 0xe111 5 0 0)) as [H _].
  - repeat constructor; cbn; lia.
  - rewrite H. vm_compute. reflexivity.
Defined.

(** The remote socket holds a packet that asks for confirmation; two sockets wait for it. *)
Definition asking : sk_buff := Skb (Some 60) (Cb 1 0x4001 5 0x4010 1 1) [1; 2].
Definition remote_full : router :=
  Router 5 {[1 := 50]} [50] {[50 := node 1 1 ∅]} {[0x4010 := 60]} 0x4011
    {[60 := Sock (Sockaddr 5 0x4010) (Sockaddr 0 0) QRTR_STATE_INIT 0 false false 0 [asking] 2]} 70 0 0 false [] (fun _ => []).
Definition blocked : router := router_with {[key := Flow 10 0 [21; 22]]} (fun _ => []).

Lemma qrtr_resume_loop_witness : exists out sB' pkt sA1 sA2,
  qrtr_recvmsg nowait 3 60 16 true remote_full = Ok (out, sB') /\ trace sB' = [Xmit 50 pkt 0] /\
  qrtr_endpoint_post 10 pkt blocked = Ok (0, sA1) /\ qrtr_node_rx_work nowait 3 10 sA1 = Ok (tt, sA2).
Proof.
  destruct (qrtr_resume_loop nowait 3 remote_full 60 16 true
    (Sock (Sockaddr 5 0x4010) (Sockaddr 0 0) QRTR_STATE_INIT 0 false false 0 [asking] 2) asking [] 50 (node 1 1 ∅)
    blocked 10 (node 5 1 {[key := Flow 10 0 [21; 22]]}) (Flow 10 0 [21; 22]))
    as (out & sB' & pkt & sA1 & sA2 & n2 & H1 & H2 & H3 & H4 & _).
  - done.
  - vm_compute. reflexivity.
  - reflexivity.
  - reflexivity.
  - reflexivity.
  - discriminate.
  - vm_compute. reflexivity.
  - vm_compute. reflexivity.
  - reflexivity.
  - discriminate.
  - cbn. lia.
  - unfold is_u32. cbn. lia.
  - unfold is_u32. cbn. lia.
  - unfold is_u32. cbn. lia.
  - unfold is_u32. cbn. lia.
  - discriminate.
  - apply demo_well.
  - apply demo_live.
  - vm_compute. reflexivity.
  - reflexivity.
  - reflexivity.
  - vm_compute. reflexivity.
  - apply (bool_decide_unpack _). vm_compute. exact I.
  - constructor; [|constructor; [|constructor]]; (eexists; split; [vm_compute; reflexivity|]; split; [cbn; lia|vm_compute; reflexivity]).
  - exists out, sB', pkt, sA1, sA2. split; [exact H1|]. split; [exact H2|]. split; [exact H3|exact H4].
Defined.

Definition announcement : sk_buff :=
  Skb None (Cb 5 QRTR_PORT_CTRL 1 QRTR_PORT_CTRL QRTR_TYPE_NEW_SERVER 0) (pkt_bytes (Pkt QRTR_TYPE_NEW_SERVER 15 1 5 7)).

Lemma qrtr_forward_correct_witness : exists s', qrtr_fwd_ctrl_pkt nowait 3 10 announcement start = Ok (tt, s') /\
  trace s' = [forwarded start announcement 11].
Proof.
  destruct (qrtr_forward_correct nowait 3 10 announcement start (node 5 1 {[key := Flow 0 0 []]}))
    as (s' & Hr & _ & _ & Ht).
  - apply demo_well.
  - vm_compute. reflexivity.
  - intros a Ha. assert (Hc : a = 11 \/ a = 10) by (revert Ha; cbn; rewrite !elem_of_cons, elem_of_nil; tauto).
    destruct Hc as [-> | ->]; (eexists; split; [vm_compute; reflexivity|]; split; [reflexivity|]; split; [discriminate|]; unfold is_u32; cbn; lia).
  - reflexivity.
  - cbn. lia.
  - exists s'. split; [exact Hr|]. rewrite Ht. vm_compute. reflexivity.
Defined.

Lemma qrtr_bind_correct_witness : exists rc s', __qrtr_bind nowait 3 false 22 0x5000 true start = Ok (rc, s') /\
  (rc = - EACCES \/ rc = - EADDRINUSE \/ rc = 0).
Proof.
  destruct (qrtr_bind_correct nowait 3 false 22 0x5000 start (sock 0x4002 2)) as (rc & s' & Hr & Hc).
  - vm_compute. reflexivity.
  - lia.
  - reflexivity.
  - exists rc, s'. split; [exact Hr|]. destruct Hc as [(-> & _)|[(-> & _)|(-> & _)]]; tauto.
Defined.

Lemma qrtr_local_roundtrip_witness : exists s',
  qrtr_sendmsg nowait 3 false 21 (local_msg (Sockaddr 1 0x4002) 0 [1; 2; 3]) start = Ok (3, s') /\
  qrtr_recvmsg nowait 3 22 64 true s' = Ok (Received 3 [1; 2; 3] (Some (Sockaddr 1 0x4001)) false, start).
Proof.
  apply (qrtr_local_roundtrip nowait 3 false 21 22 (Sockaddr 1 0x4002) 0 [1; 2; 3] 64 start (sock 0x4001 2) (sock 0x4002 2)).
  - apply demo_well.
  - vm_compute. reflexivity.
  - repeat split; cbn; lia.
  - vm_compute. reflexivity.
  - repeat split; cbn; lia.
  - lia.
  - reflexivity.
  - cbn. lia.
  - cbn. lia.
  - discriminate.
  - discriminate.
  - reflexivity.
  - discriminate.
  - vm_compute. reflexivity.
  - reflexivity.
Defined.

(** ** Where the code does not do what it means to *)
Definition answer (c : env_call) (x : Z) : env_call -> list Z := fun c' => if decide (c' = c) then [x] else [].

Definition asks_nothing (e : event) : Prop := match e with Xmit _ pkt _ => field 4 pkt 16 = Ok 0 | _ => True end.

(** When the fifth packet cannot be padded, the request for a resume packet is lost without a
    mark: the flow stops at the high watermark and nothing that was sent asks for a resume. *)
Theorem padding_failure_stalls :
  let s := final (run_all (OSend false 21 (msg [1; 2; 3]) :: replicate 5 (OSend false 21 (msg [1; 2; 3; 4]))))
             (router_with {[key := Flow 4 0 []]} (answer EPad 1)) in
  exists n f, nodes s !! 10 = Some n /\ tx_flows n !! key = Some f /\ tx_try f = None /\ Forall asks_nothing (trace s).
Proof.
  eexists _, _. split; [vm_compute; reflexivity|]. split; [vm_compute; reflexivity|]. split; [vm_compute; reflexivity|].
  vm_compute. repeat constructor.
Qed.

(** The key that marks a failed transmission extends the sign of the port: a flow to a port above
    2^31 is never marked. *)
Theorem failed_port_unmarked :
  let k := flow_key 5 0x80000001 in
  let s := router_with {[k := Flow 4 0 []]} (answer EXmit (-5)) in
  exists s' n, qrtr_node_enqueue nowait 3 10 outgoing QRTR_TYPE_DATA (Sockaddr 1 0x4001) (Sockaddr 5 0x80000001) 0 s
    = Ok (-5, s') /\ nodes s' !! 10 = Some n /\ tx_flows n !! k = Some (Flow 5 0 []).
Proof. eexists _, _. split; [vm_compute; reflexivity|]. split; vm_compute; reflexivity. Qed.

(** Without an endpoint the packet is dropped and the call reports success. *)
Theorem enqueue_without_endpoint s n w fuel from to flags :
  all_well s -> nodes s !! 10 = Some n -> nd_ep n = false -> hello_sent n = 0 ->
  exists s', qrtr_node_enqueue w fuel 10 (ctrl_skb (Pkt QRTR_TYPE_HELLO 0 0 0 0)) QRTR_TYPE_HELLO from to flags s = Ok (0, s') /\
    trace s' = trace s /\ nodes s' !! 10 = Some (with_hello 1 (hello_rcvd n) n).
Proof.
  intros Hw Hn He Hh. unfold qrtr_node_enqueue. rewrite (st_bind_ok _ _ _ _ _ (node_of_ok _ _ _ Hn)), Hh.
  cbn [Z.eqb andb negb skb_sk ctrl_skb skb_cb cb0 cb_confirm_rx]. change (QRTR_TYPE_HELLO =? QRTR_TYPE_HELLO) with true.
  cbn [negb]. rewrite st_bind_ret. cbn [Z.ltb Z.compare Z.eqb]. rewrite (st_bind_ok _ _ _ _ _ (node_of_ok _ _ _ Hn)).
  cbn [skb_data ctrl_skb]. unfold skb_put_padto. set (h := hdr_v1 _ _ _ _ _ _ ++ _).
  change (Z.of_nat (length h) <? ALIGN (Z.of_nat (length (pkt_bytes (Pkt QRTR_TYPE_HELLO 0 0 0 0)))) 4 + sizeof_hdr_v1) with false.
  cbv iota. rewrite st_bind_ret. unfold node_xmit. rewrite st_bind_bind, (st_bind_ok _ _ _ _ _ (node_of_ok _ _ _ Hn)), He, !st_bind_ret.
  cbn [Z.eqb negb andb]. rewrite st_bind_ret, (st_bind_ok _ _ _ _ _ (upd_node_ok _ _ _ _ Hn)).
  eexists. split; [done|]. split; [done|]. cbn. rewrite lookup_insert_eq. by rewrite Hh.
Qed.

(** A NEW_SERVER packet that ends before the node it names is read past its end. *)
Theorem short_server_overread :
  qrtr_endpoint_post 10 (packet QRTR_TYPE_NEW_SERVER dest 0 1 QRTR_PORT_CTRL [4; 0; 0; 0]) start = Fault.
Proof. vm_compute. reflexivity. Qed.

(** A packet for a socket whose queue is full leaves a reference to the socket behind. *)
Theorem full_queue_leaks :
  exists s', qrtr_endpoint_post 10 incoming (router_with ∅ (answer EQueue 12)) = Ok (- EINVAL, s') /\
    socks s' !! 22 = Some (sock 0x4002 3).
Proof. eexists. split; vm_compute; reflexivity. Qed.

(** A message of a socket to itself leaves one behind too. *)
Theorem self_send_leaks :
  exists s', qrtr_sendmsg nowait 3 false 22 (local_msg (Sockaddr 1 0x4002) 0 [1]) start = Ok (- ENODEV, s') /\
    socks s' !! 22 = Some (sock 0x4002 3).
Proof. eexists. split; vm_compute; reflexivity. Qed.

(** A resume packet for which there is no memory leaves a reference to the node behind. *)
Theorem resume_leaks_node :
  exists s', qrtr_send_resume_tx nowait 3 (Cb 5 0x4010 1 0x4001 1 1) (router_with ∅ (answer EAlloc 12)) = Ok (- ENOMEM, s') /\
    fmap nd_ref (nodes s' !! 10) = Some 2.
Proof. eexists. split; vm_compute; reflexivity. Qed.

(** What a short NEW_SERVER message does depends on an uninitialised variable. *)
Theorem short_server_uninitialised :
  let send e := match qrtr_sendmsg nowait 3 false 21
                        (Msghdr (Some (12, AF_QIPCRTR, Sockaddr 5 QRTR_PORT_CTRL)) 0 [4; 0; 0; 0]) (router_with ∅ e) with
                | Ok (rc, s) => Some (rc, length (trace s)) | _ => None end in
  send (answer EStack 9) = Some (4, 1%nat) /\ send (answer EStack 5) = Some (0, 0%nat).
Proof. split; vm_compute; reflexivity. Qed.
