(* ===== verification/QrtrEndpoint.v ===== *)
(** * Transports below the router

    What the router offers a transport, as the classes [Endpoint] and [EndpointLaws], and the
    router of [QrtrRouter] as an instance of both. *)
From S2P Require Import Prelude CMem QrtrNs QrtrRouter QrtrPacket.
Open Scope c_scope.

Definition QRTR_EP_NET_ID_AUTO : Z := 1.

(** What the transport calls in the router: a posted packet, and the registration of an
    endpoint, which gives the node that belongs to it. *)
Class Endpoint (R : Type) := {
  endpoint_post : Z -> list Z -> ST R Z;
  endpoint_register : Z -> ST R (Z + Z);
  endpoint_unregister : Z -> ST R unit;
}.

(** What the transport relies on: a posted packet is handled, and the node stays. *)
Class EndpointLaws (R : Type) `{Endpoint R} := {
  ep_ok : R -> Z -> Prop;
  ep_packet : list Z -> Prop;
  endpoint_post_ok r a p : ep_ok r a -> ep_packet p ->
    exists rc r', endpoint_post a p r = Ok (rc, r') /\ ep_ok r' a;
}.

(** The router below the transport: whether the worker thread was created, and what happens
    during the waits while an endpoint is torn down. *)
Definition router_endpoint (task : bool) (w : ST router Z) (fuel : nat) : Endpoint router := {|
  endpoint_post := qrtr_endpoint_post;
  endpoint_register := qrtr_endpoint_register true task;
  endpoint_unregister := qrtr_endpoint_unregister w fuel
|}.

(** ** Packets *)
Lemma packet_bytes type from confirm dst port data : is_bytes data -> is_bytes (packet type from confirm dst port data).
Proof.
  intros Hd. unfold packet. rewrite hdr_words. apply Forall_app. split.
  - unfold words. apply Forall_concat, Forall_fmap, Forall_true. intros w. apply le_bytes_range.
  - apply Forall_app. split; [done|]. apply Forall_replicate. lia.
Qed.

(** ** The router handles what is posted *)
Definition lives (s : router) (a : Z) : Prop := is_Some (nodes s !! a) /\ ports_live s.

Lemma lives_assigned a s s' : assigned a s s' -> lives s a -> lives s' a.
Proof.
  intros Ha [[n Hn] Hl]. destruct (assigned_node _ _ _ _ Ha Hn) as [n' Hn']. split; [by exists n'|].
  destruct Ha as ((_&E3&_)&E2&_). intros p i. rewrite E2, E3. apply Hl.
Qed.

(** A change of the sockets that keeps the references. *)
Lemma lives_socks a s s' i k k' : lives s a -> nodes s' = nodes s -> qrtr_ports s' = qrtr_ports s ->
  socks s !! i = Some k -> socks s' = <[i := k']> (socks s) -> 0 < sk_refs k' -> lives s' a.
Proof.
  intros [Hn Hl] En Ep Hk Es Hr. split; [by rewrite En|]. intros p j. rewrite Ep, Es. intros Hp.
  destruct (Hl p j Hp) as (x&Hx&?). destruct (decide (j = i)) as [->|]; [rewrite lookup_insert_eq|rewrite lookup_insert_ne by done]; eauto.
Qed.

Lemma deliver_lives a skb s : lives s a -> exists rc s', post_deliver a skb s = Ok (rc, s') /\ lives s' a.
Proof.
  intros [[n Hn] Hl]. unfold post_deliver. rewrite st_bind_get. case_if.
  { rewrite (st_bind_ok _ _ _ _ _ (upd_node_ok _ _ _ _ Hn)). eexists _, _. split; [reflexivity|]. split; [|exact Hl].
    cbn. rewrite lookup_insert_eq. by eexists. }
  destruct (lookup_ok (dst_port (skb_cb skb)) s Hl) as [[Hp Hlk]|(i&k&Hp&Hk&Hr&Hlk)]; rewrite (st_bind_ok _ _ _ _ _ Hlk).
  { eexists _, _. split; [reflexivity|]. split; [by exists n|done]. }
  set (s1 := set_socks (<[i := with_refs (sk_refs k + 1) k]> (socks s)) s).
  assert (L1 : lives s1 a).
  { apply (lives_socks a s s1 i k (with_refs (sk_refs k + 1) k)); [split; [by exists n|done]|done..|cbn; lia]. }
  assert (H1 : socks s1 !! i = Some (with_refs (sk_refs k + 1) k)) by (cbn; apply lookup_insert_eq).
  destruct (queue_rcv_ok i skb s1 _ H1) as (rc&e&Hq&_). rewrite (st_bind_ok _ _ _ _ _ Hq). case_if.
  - replace (rc =? 0) with false by lia. eexists _, _. split; [reflexivity|]. destruct L1 as [? ?]. by split.
  - replace (rc =? 0) with true by lia. unfold qrtr_port_put.
    erewrite st_bind_ok by (apply put_ok; [cbn; apply lookup_insert_eq|cbn; lia]).
    eexists _, _. split; [reflexivity|]. eapply (lives_socks a s _ i k); [split; [by exists n|done]|done|done|done|cbn; by rewrite !insert_insert_eq|cbn; lia].
Qed.

(** What the router can be given: data that says its own length, and a whole NEW_SERVER. *)
Definition accepted (data : list Z) : Prop := is_bytes data /\
  forall cb size hdrlen, parse_header data = Ok (Some (cb, size, hdrlen)) -> cb_type cb = QRTR_TYPE_NEW_SERVER -> 13 <= size.

Lemma post_lives a data s : lives s a -> accepted data -> exists rc s', qrtr_endpoint_post a data s = Ok (rc, s') /\ lives s' a.
Proof.
  intros L [Hb Hserver]. unfold qrtr_endpoint_post. cbv zeta. case_if; [by eexists _, s|].
  assert (Hd : data <> []) by (intros ->; cbn in *; lia).
  destruct (post_alloc_ok a (Z.of_nat (length data)) s) as (g&s1&Hp&Ha1&_). rewrite (st_bind_ok _ _ _ _ _ Hp).
  apply (lives_assigned a s s1) in L; [|done]. case_if; [by eexists _, s1|].
  destruct (parse_ok data Hd) as [h Hh]. rewrite Hh, lift_ok.
  destruct h as [[[cb size] hdrlen]|]; [|by eexists _, s1]. case_if; [by eexists _, s1|]. case_if; [by eexists _, s1|].
  destruct (parse_bounds _ _ _ _ Hb Hh) as [Hsz Hhl]. destruct (ALIGN_4_bounds size ltac:(lia)) as [Hal Hal4].
  destruct L as [[n1 Hn1] Hl]. set (payload := take _ _).
  destruct (accept_ok a data (legacy_ctrl cb) hdrlen s1 n1 (post_deliver a (Skb None (legacy_ctrl cb) payload)) Hn1)
    as (s3&Ha3&Hs3).
  { cbn. intros Ht. specialize (Hserver _ _ _ Hh Ht).
    assert (16 <= ALIGN size 4) by (rewrite ALIGN_4 by lia; Z.to_euclidean_division_equations; lia). lia. }
  rewrite Hs3. apply deliver_lives. apply (lives_assigned a s1); [done|]. split; [by exists n1|done].
Qed.

#[export] Instance router_laws task w fuel : @EndpointLaws router (router_endpoint task w fuel).
Proof. refine (@Build_EndpointLaws router (router_endpoint task w fuel) lives accepted _). intros r a p. apply post_lives. Defined.

(** A new endpoint, when there is memory. *)
Lemma register_lives s nid : ports_live s -> env s EAlloc = [] -> exists s',
  qrtr_endpoint_register true true nid s = Ok (inr (next_obj s), s') /\ lives s' (next_obj s).
Proof.
  intros Hl He. unfold qrtr_endpoint_register. cbn [negb].
  assert (Ha : ask EAlloc s = Ok (0, s)) by (unfold ask; by rewrite He).
  rewrite (st_bind_ok _ _ _ _ _ Ha). cbn [negb Z.eqb]. rewrite st_bind_get, st_bind_upd.
  set (a := next_obj s). set (n := Node true 1 QRTR_EP_NID_AUTO 0 0 0 ∅ [] false false).
  set (s1 := set_nodes (<[a := n]> (nodes s)) (set_next (a + 1) s)).
  assert (E1 : put_node a n (set_next (a + 1) s) = Ok (tt, s1)) by done. rewrite (st_bind_ok _ _ _ _ _ E1).
  assert (Hn : nodes s1 !! a = Some n) by (cbn; apply lookup_insert_eq).
  assert (E2 : qrtr_node_assign a QRTR_EP_NID_AUTO s1 = Ok (tt, s1)).
  { unfold qrtr_node_assign. by rewrite (st_bind_ok _ _ _ _ _ (node_of_ok _ _ _ Hn)). }
  rewrite (st_bind_ok _ _ _ _ _ E2), (st_bind_ok _ _ _ _ _ (upd_node_ok _ _ _ _ Hn)), st_bind_upd.
  eexists. split; [reflexivity|]. split; [cbn; rewrite lookup_insert_eq; by eexists|exact Hl].
Qed.

Lemma packet_accepted type from confirm dst port data :
  0 <= type < 256 -> is_u32 (sq_node from) -> is_u32 (sq_port from) -> is_u32 dst -> is_u32 port ->
  confirm = 0 \/ confirm = 1 -> Z.of_nat (length data) < 2 ^ 32 -> is_bytes data ->
  (type = QRTR_TYPE_NEW_SERVER -> (13 <= length data)%nat) -> accepted (packet type from confirm dst port data).
Proof.
  intros Ht Hn Hp Hd Hport Hc Hl Hb Hs. split; [by apply packet_bytes|]. intros cb size hdrlen.
  rewrite parse_packet by done. intros [= <- <- <-] E. cbn in E. specialize (Hs E). lia.
Qed.
