(* ===== verification/QrtrMhi.v ===== *)
(** * The transport over the modem bus (net/qrtr/mhi.c)

    A packet of the router is one transfer of the bus.  The transfer ends long after the call,
    so that the packet is an object with two references, one of the sender and one of the
    transfer, and its buffer and the socket of the buffer live as long as it does.

    The bus itself is the environment: it holds the buffers that were queued, in order, and
    gives each of them back with a callback. *)
From S2P Require Import Prelude CMem QrtrNs QrtrRouter QrtrPacket QrtrEndpoint.
Open Scope c_scope.

Definition ERESTARTSYS : Z := 512.

(** A buffer, with its socket, and struct qrtr_mhi_pkt. *)
Record mhi_skb := MhiSkb { ms_sk : option Z; ms_data : list Z }.
Record qrtr_mhi_pkt := MhiPkt { mp_skb : Z; mp_refcount : Z; mp_done : bool }.

(** struct qrtr_mhi_dev: the node of its endpoint and the packets on their way. *)
Record qrtr_mhi_dev := MhiDev { md_ep : Z; md_ul_pkts : list Z; md_in_reset : Z }.

(** The device, the packets and buffers that were not freed, the references that the transport
    holds on sockets, the buffers the bus holds, and the router. *)
Record mhi (R : Type) := Mhi {
  mh_dev : option qrtr_mhi_dev;
  mh_pkts : gmap Z qrtr_mhi_pkt;
  mh_skbs : gmap Z mhi_skb;
  mh_socks : gmap Z Z;
  mh_bus : list Z;
  mh_next : Z;
  mh_router : R;
}.
Arguments Mhi {R}.
Arguments mh_dev {R}.
Arguments mh_pkts {R}.
Arguments mh_skbs {R}.
Arguments mh_socks {R}.
Arguments mh_bus {R}.
Arguments mh_next {R}.
Arguments mh_router {R}.

Section mhi.
Context {R : Type} `{Endpoint R}.
Abbreviation M := (ST (mhi R)).
Implicit Types (s : mhi R).

Definition set_dev (d : option qrtr_mhi_dev) s : mhi R :=
  Mhi d (mh_pkts s) (mh_skbs s) (mh_socks s) (mh_bus s) (mh_next s) (mh_router s).
Definition set_pkts (m : gmap Z qrtr_mhi_pkt) s : mhi R :=
  Mhi (mh_dev s) m (mh_skbs s) (mh_socks s) (mh_bus s) (mh_next s) (mh_router s).
Definition set_skbs (m : gmap Z mhi_skb) s : mhi R :=
  Mhi (mh_dev s) (mh_pkts s) m (mh_socks s) (mh_bus s) (mh_next s) (mh_router s).
Definition set_mhi_socks (m : gmap Z Z) s : mhi R :=
  Mhi (mh_dev s) (mh_pkts s) (mh_skbs s) m (mh_bus s) (mh_next s) (mh_router s).
Definition set_bus (l : list Z) s : mhi R :=
  Mhi (mh_dev s) (mh_pkts s) (mh_skbs s) (mh_socks s) l (mh_next s) (mh_router s).
Definition set_mhi_next (n : Z) s : mhi R :=
  Mhi (mh_dev s) (mh_pkts s) (mh_skbs s) (mh_socks s) (mh_bus s) n (mh_router s).

Definition on_mhi_router {A} (c : ST R A) : M A :=
  fun s => match c (mh_router s) with
           | Ok (a, r) => Ok (a, Mhi (mh_dev s) (mh_pkts s) (mh_skbs s) (mh_socks s) (mh_bus s) (mh_next s) r)
           | Fault => Fault
           | Loop => Loop
           end.

(** ** Objects *)
Definition mhi_dev_of : M qrtr_mhi_dev := fun s => match mh_dev s with Some d => Ok (d, s) | None => Fault end.
Definition mhi_pkt_of (p : Z) : M qrtr_mhi_pkt := fun s => match mh_pkts s !! p with Some k => Ok (k, s) | None => Fault end.
Definition upd_pkt (p : Z) (f : qrtr_mhi_pkt -> qrtr_mhi_pkt) : M unit :=
  let! k := mhi_pkt_of p in st_upd (fun s => set_pkts (<[p := f k]> (mh_pkts s)) s).
Definition mhi_skb_of (b : Z) : M mhi_skb := fun s => match mh_skbs s !! b with Some k => Ok (k, s) | None => Fault end.
Definition free_skb (b : Z) : M unit := mhi_skb_of b ;;; st_upd (fun s => set_skbs (delete b (mh_skbs s)) s).
Definition free_pkt (p : Z) : M unit := mhi_pkt_of p ;;; st_upd (fun s => set_pkts (delete p (mh_pkts s)) s).

(** The references the transport has on a socket; giving one back that it does not have is a fault. *)
Definition held (s : mhi R) (sk : Z) : Z := default 0 (mh_socks s !! sk).
Definition mhi_sock_hold (sk : Z) : M unit := st_upd (fun s => set_mhi_socks (<[sk := held s sk + 1]> (mh_socks s)) s).
Definition mhi_sock_put (sk : Z) : M unit :=
  fun s => if 0 <? held s sk then Ok (tt, set_mhi_socks (<[sk := held s sk - 1]> (mh_socks s)) s) else Fault.

Definition with_done (k : qrtr_mhi_pkt) : qrtr_mhi_pkt := MhiPkt (mp_skb k) (mp_refcount k) true.
Definition with_refcount (n : Z) (k : qrtr_mhi_pkt) : qrtr_mhi_pkt := MhiPkt (mp_skb k) n (mp_done k).
Definition with_pkts (l : list Z) (d : qrtr_mhi_dev) : qrtr_mhi_dev := MhiDev (md_ep d) l (md_in_reset d).
Definition upd_dev (f : qrtr_mhi_dev -> qrtr_mhi_dev) : M unit :=
  let! d := mhi_dev_of in st_upd (set_dev (Some (f d))).

(** ** Packets *)
Definition qrtr_mhi_pkt_release (p : Z) : M unit :=
  let! pkt := mhi_pkt_of p in
  let! skb := mhi_skb_of (mp_skb pkt) in
  free_skb (mp_skb pkt) ;;;
  (match ms_sk skb with Some sk => mhi_sock_put sk | None => st_ret tt end) ;;;
  free_pkt p.

Definition pkt_put (p : Z) : M unit :=
  let! pkt := mhi_pkt_of p in
  if mp_refcount pkt =? 1 then qrtr_mhi_pkt_release p else upd_pkt p (with_refcount (mp_refcount pkt - 1)).

(** ** Callbacks of the bus *)

(** Data from the other side; [status] is the one of the transfer. *)
Definition qcom_mhi_qrtr_dl_callback (status : Z) (data : list Z) : M unit :=
  let! d := st_get mh_dev in
  match d with
  | None => st_ret tt
  | Some d =>
    if negb (status =? 0) then st_ret tt else
    let! _ := on_mhi_router (endpoint_post (md_ep d) data) in st_ret tt
  end.

(** A transfer has ended: that of the first packet, as the bus keeps the order. *)
Definition qcom_mhi_qrtr_ul_callback : M unit :=
  let! d := st_get mh_dev in
  match d with
  | None => st_ret tt
  | Some d =>
    match md_ul_pkts d with
    | [] => st_ret tt
    | p :: l => upd_dev (with_pkts l) ;;; upd_pkt p with_done ;;; pkt_put p
    end
  end.

Fixpoint complete_pkts (l : list Z) : M unit :=
  match l with
  | [] => st_ret tt
  | p :: l => upd_pkt p with_done ;;; complete_pkts l
  end.

(** [fatal] says that the callback is for [MHI_CB_FATAL_ERROR]. *)
Definition qcom_mhi_qrtr_status_callback (fatal : bool) : M unit :=
  if negb fatal then st_ret tt else
  upd_dev (fun d => MhiDev (md_ep d) (md_ul_pkts d) (md_in_reset d + 1)) ;;;
  let! d := mhi_dev_of in complete_pkts (md_ul_pkts d).

(** ** Sending *)

(** [mhi_queue_transfer]: the result, and the buffer belongs to the bus when it is 0. *)
Definition mhi_queue_transfer (rc b : Z) : M Z :=
  (if rc =? 0 then st_upd (fun s => set_bus (mh_bus s ++ [b]) s) else st_ret tt) ;;; st_ret rc.

(** Up to the end of the lock: an error, or the packet.  The results of [skb_linearize], of the
    allocation and of the bus are arguments. *)
Definition send_queue (linear : Z) (mem : bool) (queue b : Z) : M (Z + Z) :=
  if negb (linear =? 0) then free_skb b ;;; st_ret (inl linear) else
  if negb mem then free_skb b ;;; st_ret (inl (- ENOMEM)) else
  let! p := st_get mh_next in
  st_upd (fun s => set_mhi_next (p + 1) (set_pkts (<[p := MhiPkt b 2 false]> (mh_pkts s)) s)) ;;;
  upd_dev (fun d => with_pkts (md_ul_pkts d ++ [p]) d) ;;;
  let! rc := mhi_queue_transfer queue b in
  if negb (rc =? 0) then
    upd_dev (fun d => with_pkts (filter (.≠ p) (md_ul_pkts d)) d) ;;; free_skb b ;;; free_pkt p ;;; st_ret (inl rc)
  else st_ret (inr p).

Definition send_hold (p : Z) : M unit :=
  let! pkt := mhi_pkt_of p in
  let! skb := mhi_skb_of (mp_skb pkt) in
  match ms_sk skb with Some sk => mhi_sock_hold sk | None => st_ret tt end.

(** After the wait with the result [rc]. *)
Definition send_finish (p rc : Z) : M Z :=
  let! d := mhi_dev_of in
  let rc := if negb (md_in_reset d =? 0) then - ECONNRESET else if rc =? 0 then - ETIMEDOUT else if rc >? 0 then 0 else rc in
  pkt_put p ;;; st_ret rc.

(** The whole call: [other] is what the rest of the system does between the lock and the
    reference on the socket, [wait] what it does during the wait, with its result. *)
Definition qcom_mhi_qrtr_send (linear : Z) (mem : bool) (queue : Z) (other : M unit) (wait : Z -> M Z) (b : Z) : M Z :=
  let! r := send_queue linear mem queue b in
  match r with
  | inl rc => st_ret rc
  | inr p => other ;;; send_hold p ;;; let! rc := wait p in send_finish p rc
  end.

(** ** Set up *)
Definition qcom_mhi_qrtr_probe (mem : bool) (net_id : option Z) : M Z :=
  if negb mem then st_ret (- ENOMEM) else
  let! r := on_mhi_router (endpoint_register (default QRTR_EP_NET_ID_AUTO net_id)) in
  match r with
  | inl rc => st_ret rc
  | inr a => st_upd (set_dev (Some (MhiDev a [] 0))) ;;; st_ret 0
  end.

Definition qcom_mhi_qrtr_remove : M unit :=
  let! d := mhi_dev_of in
  on_mhi_router (endpoint_unregister (md_ep d)) ;;; st_upd (set_dev None).
End mhi.
