(* ===== verification/QrtrMhiSafe.v ===== *)
(** * The packets of the modem bus

    The references of the transport on the modem bus, over every order of what the sender, the
    bus and the other side do. *)
From S2P Require Import Prelude CMem KernelIdr QrtrNs QrtrRegistry QrtrRouter QrtrPacket QrtrDemo QrtrEndpoint QrtrMhi.
Open Scope c_scope.

(** ** The transport and the bus *)

(** Where the sender is; the router lets in one at a time. *)
Inductive sender := SIdle | SQueued (p : Z) | SWait (p : Z).

(** What can happen next: the router hands over a buffer with the answers the call will get, the
    sender goes on, the bus ends the first transfer, reports a status or brings data, and the
    device goes. *)
Inductive mhi_move :=
| MQueue (linear : Z) (mem : bool) (queue : Z) (sk : option Z) (data : list Z)
| MHold
| MFinish (rc : Z)
| MComplete
| MStatus (fatal : bool)
| MData (status : Z) (data : list Z)
| MRemove.

Section moves.
Context {R : Type} `{EndpointLaws R}.
Implicit Types (s : mhi R) (w : sender).

(** When a move can happen: a wait says that it was woken only when the packet is done; the bus
    gives everything back before the device goes. *)
Definition can (m : mhi_move) w s : Prop :=
  match m with
  | MQueue _ _ _ _ _ => w = SIdle /\ is_Some (mh_dev s)
  | MHold => exists p, w = SQueued p
  | MFinish rc => exists p, w = SWait p /\ (0 < rc -> forall k, mh_pkts s !! p = Some k -> mp_done k = true)
  | MComplete => mh_bus s <> []
  | MStatus _ => is_Some (mh_dev s)
  | MData _ data => ep_packet data
  | MRemove => w = SIdle /\ mh_bus s = [] /\ exists d, mh_dev s = Some d /\ exists r, endpoint_unregister (md_ep d) (mh_router s) = Ok (tt, r)
  end.

(** The move, with the result of the call that ends in it. *)
Definition do_move (m : mhi_move) w : ST (mhi R) (sender * option Z) :=
  match m with
  | MQueue linear mem queue sk data =>
    let! b := st_get mh_next in
    st_upd (fun s => set_mhi_next (b + 1) (set_skbs (<[b := MhiSkb sk data]> (mh_skbs s)) s)) ;;;
    let! r := send_queue linear mem queue b in
    st_ret (match r with inl rc => (SIdle, Some rc) | inr p => (SQueued p, None) end)
  | MHold => match w with SQueued p => send_hold p ;;; st_ret (SWait p, None) | _ => fun _ => Fault end
  | MFinish rc => match w with SWait p => let! rc := send_finish p rc in st_ret (SIdle, Some rc) | _ => fun _ => Fault end
  | MComplete => st_upd (fun s => set_bus (tail (mh_bus s)) s) ;;; qcom_mhi_qrtr_ul_callback ;;; st_ret (w, None)
  | MStatus fatal => qcom_mhi_qrtr_status_callback fatal ;;; st_ret (w, None)
  | MData status data => qcom_mhi_qrtr_dl_callback status data ;;; st_ret (w, None)
  | MRemove => qcom_mhi_qrtr_remove ;;; st_ret (w, None)
  end.

Definition mhi_step (x y : sender * mhi R) : Prop :=
  exists m r, can m x.1 x.2 /\ do_move m x.1 x.2 = Ok ((y.1, r), y.2).

(** ** The objects *)

(** The references of a packet: one in the list, one of the sender. *)
Definition sender_has w (p : Z) : bool := match w with SIdle => false | SQueued q | SWait q => q =? p end.
Definition refs (l : list Z) w (p : Z) : Z := (if bool_decide (p ∈ l) then 1 else 0) + (if sender_has w p then 1 else 0).

(** A packet whose sender has not taken the reference on the socket yet does not count. *)
Definition counted w (p : Z) : bool := match w with SQueued q => negb (q =? p) | _ => true end.
Definition socket_of s (k : qrtr_mhi_pkt) : option Z := mh_skbs s !! mp_skb k ≫= ms_sk.
Definition holders (C : Z -> bool) s (sk : Z) : gmap Z qrtr_mhi_pkt :=
  filter (fun pk => C pk.1 = true /\ socket_of s pk.2 = Some sk) (mh_pkts s).

(** Every packet has the references [f] says, a buffer of its own, and a reference on the socket of
    the buffer; there are no other buffers. *)
Record heap_ok (C : Z -> bool) (f : Z -> Z) s : Prop := {
  ho_refs p k : mh_pkts s !! p = Some k -> mp_refcount k = f p /\ 0 < f p /\ is_Some (mh_skbs s !! mp_skb k);
  ho_live p : 0 < f p -> is_Some (mh_pkts s !! p);
  ho_apart p q k l : mh_pkts s !! p = Some k -> mh_pkts s !! q = Some l -> mp_skb k = mp_skb l -> p = q;
  ho_skbs b : is_Some (mh_skbs s !! b) -> exists p k, mh_pkts s !! p = Some k /\ mp_skb k = b;
  ho_next : (forall p, is_Some (mh_pkts s !! p) -> p < mh_next s) /\ (forall b, is_Some (mh_skbs s !! b) -> b < mh_next s);
  ho_socks sk : held s sk = Z.of_nat (size (holders C s sk));
}.

(** A packet keeps its buffer and whether it is done. *)
Definition pkts_kept s s' : Prop :=
  forall p k', mh_pkts s' !! p = Some k' -> exists k, mh_pkts s !! p = Some k /\ mp_skb k' = mp_skb k /\ mp_done k' = mp_done k.

Lemma holders_update C s p k k' sk : mh_pkts s !! p = Some k -> mp_skb k' = mp_skb k ->
  size (holders C (set_pkts (<[p := k']> (mh_pkts s)) s) sk) = size (holders C s sk).
Proof.
  intros Hp E. unfold holders. cbn [mh_pkts set_pkts].
  assert (Es : forall x, socket_of (set_pkts (<[p := k']> (mh_pkts s)) s) x = socket_of s x) by done.
  destruct (decide (C p = true /\ socket_of s k = Some sk)) as [D|D].
  - rewrite map_filter_insert_True by (unfold socket_of in *; cbn; by rewrite E).
    rewrite map_size_insert_Some; [done|]. exists k. apply map_lookup_filter_Some. done.
  - rewrite map_filter_insert_False by (unfold socket_of in *; cbn; by rewrite E).
    f_equal. apply map_eq. intros q. rewrite !map_lookup_filter. destruct (decide (q = p)) as [->|Hq].
    + rewrite lookup_delete_eq, Hp. cbn. rewrite option_guard_False; [done|]. done.
    + rewrite lookup_delete_ne by done. done.
Qed.

Lemma upd_pkt_ok C f f' s p k g : heap_ok C f s -> mh_pkts s !! p = Some k -> mp_skb (g k) = mp_skb k ->
  mp_refcount (g k) = f' p -> 0 < f' p -> (forall q, q <> p -> f' q = f q) -> 
  upd_pkt p g s = Ok (tt, set_pkts (<[p := g k]> (mh_pkts s)) s) /\ heap_ok C f' (set_pkts (<[p := g k]> (mh_pkts s)) s).
Proof.
  intros [H1 H2 H3 H4 [H5 H6] H7] Hp Eb Er Hf Ho. split; [unfold upd_pkt, mhi_pkt_of, st_bind; by rewrite Hp|].
  assert (L : forall q x, <[p := g k]> (mh_pkts s) !! q = Some x -> exists y, mh_pkts s !! q = Some y /\ mp_skb x = mp_skb y /\ (q <> p -> x = y)).
  { intros q x. destruct (decide (q = p)) as [->|Hq].
    - rewrite lookup_insert_eq. intros [= <-]. by exists k.
    - rewrite lookup_insert_ne by done. intros Hx. by exists x. }
  constructor; cbn [mh_pkts mh_skbs mh_next set_pkts].
  - intros q x Hx. destruct (L q x Hx) as (y&Hy&E&Ey). destruct (H1 _ _ Hy) as (?&?&?). destruct (decide (q = p)) as [->|Hq].
    + rewrite lookup_insert_eq in Hx. injection Hx as <-. split; [done|]. split; [done|]. by rewrite E.
    + rewrite Ho, Ey by done. done.
  - intros q Hq. destruct (decide (q = p)) as [->|Hne]; [rewrite lookup_insert_eq; by eexists|]. rewrite lookup_insert_ne by done. apply H2. by rewrite <-Ho.
  - intros q r x y Hx Hy E. destruct (L q x Hx) as (x'&Hx'&E1&_), (L r y Hy) as (y'&Hy'&E2&_). apply (H3 q r x' y'); [done..|congruence].
  - intros b Hb. destruct (H4 b Hb) as (q&x&Hx&<-). destruct (decide (q = p)) as [->|Hq].
    + exists p, (g k). rewrite lookup_insert_eq. split; [done|]. congruence.
    + exists q, x. by rewrite lookup_insert_ne.
  - split; [|done]. intros q [x Hx]. destruct (L q x Hx) as (y&Hy&_). apply H5. by eexists.
  - intros sk. rewrite (holders_update C s p k) by done. apply H7.
Qed.

Lemma release_ok C f s p k : heap_ok C f s -> mh_pkts s !! p = Some k -> f p = 1 -> C p = true -> exists s',
  qrtr_mhi_pkt_release p s = Ok (tt, s') /\ heap_ok C (fun q => if q =? p then 0 else f q) s' /\
  mh_pkts s' = delete p (mh_pkts s) /\ mh_dev s' = mh_dev s /\ mh_bus s' = mh_bus s /\ mh_router s' = mh_router s.
Proof.
  intros [H1 H2 H3 H4 [H5 H6] H7] Hp Hf HC. destruct (H1 _ _ Hp) as (_&_&[b Hb]).
  set (m := match ms_sk b with Some sk => <[sk := held s sk - 1]> (mh_socks s) | None => mh_socks s end).
  set (s' := Mhi (mh_dev s) (delete p (mh_pkts s)) (delete (mp_skb k) (mh_skbs s)) m (mh_bus s) (mh_next s) (mh_router s)).
  assert (Hs : forall q x, mh_pkts s !! q = Some x -> q <> p -> socket_of s' x = socket_of s x).
  { intros q x Hx Hq. unfold socket_of, s'. cbn. rewrite lookup_delete_ne; [done|]. intros E. apply Hq. by apply (H3 q p x k). }
  assert (Hh : forall sk, size (holders C s sk) = (size (holders C s' sk) + if bool_decide (socket_of s k = Some sk) then 1 else 0)%nat).
  { intros sk. assert (Ed : holders C s' sk = delete p (holders C s sk)).
    { apply map_eq. intros q. apply option_eq. intros x. unfold holders. rewrite lookup_delete_Some, !map_lookup_filter_Some.
      change (mh_pkts s') with (delete p (mh_pkts s)). rewrite lookup_delete_Some. cbn [fst snd]. split.
      - intros [[Hq Hx] [Hc Hsx]]. by rewrite <-(Hs q x).
      - intros [Hq [Hx [Hc Hsx]]]. by rewrite (Hs q x). }
    rewrite Ed. case_bool_decide as D.
    - assert (Hk : holders C s sk !! p = Some k) by (apply map_lookup_filter_Some; eauto).
      rewrite map_size_delete_Some by (by eexists). assert (size (holders C s sk) <> 0%nat); [|lia].
      intros Ez. apply map_size_empty_inv in Ez. by rewrite Ez, lookup_empty in Hk.
    - rewrite delete_id; [lia|]. apply map_lookup_filter_None. right. intros x Hx [_ Hsx]. rewrite Hp in Hx. injection Hx as <-. by apply D. }
  assert (Hsk : socket_of s k = ms_sk b) by (unfold socket_of; by rewrite Hb).
  exists s'. split.
  { unfold qrtr_mhi_pkt_release, mhi_pkt_of, mhi_skb_of, free_skb, free_pkt, st_bind at 1. rewrite Hp. unfold st_bind at 1. rewrite Hb.
    unfold mhi_skb_of, mhi_pkt_of, st_bind, st_upd. rewrite Hb. unfold s', m. destruct (ms_sk b) as [sk|] eqn:E.
    - unfold mhi_sock_put. cbn [mh_socks set_skbs held]. change (held (set_skbs _ s) sk) with (held s sk).
      specialize (Hh sk). rewrite Hsk, bool_decide_true in Hh by done. rewrite (H7 sk).
      replace (0 <? Z.of_nat (size (holders C s sk))) with true by lia. cbn. rewrite Hp. reflexivity.
    - cbn. rewrite Hp. reflexivity. }
  split; [|done]. constructor; cbn [mh_pkts mh_skbs mh_next s'].
  - intros q x Hx. apply lookup_delete_Some in Hx as [Hq Hx]. replace (q =? p) with false by lia.
    destruct (H1 _ _ Hx) as (?&?&?). split; [done|]. split; [done|]. rewrite lookup_delete_ne; [done|]. intros E. apply Hq. symmetry. by apply (H3 q p x k).
  - intros q Hq. destruct (q =? p) eqn:E; [lia|]. rewrite lookup_delete_ne by lia. by apply H2.
  - intros q r x y Hx Hy. apply lookup_delete_Some in Hx as [_ Hx], Hy as [_ Hy]. by apply H3.
  - intros c [x Hx]. apply lookup_delete_Some in Hx as [Hc Hx]. destruct (H4 c) as (q&y&Hy&Ey); [by eexists|]. exists q, y.
    rewrite lookup_delete_ne; [done|]. intros <-. congruence.
  - split; [intros q [x Hx]; apply lookup_delete_Some in Hx as [_ Hx]; apply H5; by eexists|].
    intros q [x Hx]; apply lookup_delete_Some in Hx as [_ Hx]; apply H6; by eexists.
  - intros sk. assert (Es : held s' sk = held s sk - if bool_decide (socket_of s k = Some sk) then 1 else 0).
    { rewrite Hsk. unfold held at 1, s', m. cbn [mh_socks]. destruct (ms_sk b) as [x|]; [|rewrite bool_decide_false by done; unfold held; lia].
      destruct (decide (x = sk)) as [->|Hne]; [rewrite bool_decide_true, lookup_insert_eq by done; done|].
      rewrite bool_decide_false, lookup_insert_ne by congruence. unfold held. lia. }
    rewrite Es, H7, (Hh sk). case_bool_decide; lia.
Qed.

Lemma heap_ok_ext C f C' f' s s' : (forall p, f' p = f p) -> (forall p, C' p = C p) -> mh_pkts s' = mh_pkts s -> mh_skbs s' = mh_skbs s ->
  mh_socks s' = mh_socks s -> mh_next s <= mh_next s' -> heap_ok C f s -> heap_ok C' f' s'.
Proof.
  intros Ef EC E1 E2 E3 E4 [H1 H2 H3 H4 [H5 H6] H7]. constructor; rewrite ?E1, ?E2.
  - intros p k. rewrite Ef. apply H1.
  - intros p. rewrite Ef. apply H2.
  - exact H3.
  - exact H4.
  - split; intros x Hx; [apply H5 in Hx|apply H6 in Hx]; lia.
  - intros sk. unfold held. rewrite E3. fold (held s sk). rewrite H7. do 2 f_equal. unfold holders. rewrite E1.
    apply map_filter_ext. intros q x _. cbn [fst snd]. unfold socket_of. by rewrite EC, E2.
Qed.

(** What an operation on packets leaves alone. *)
Definition beside_pkts s s' : Prop := mh_dev s' = mh_dev s /\ mh_bus s' = mh_bus s /\ mh_router s' = mh_router s /\ pkts_kept s s'.

Lemma pkt_put_ok C f s p k : heap_ok C f s -> mh_pkts s !! p = Some k -> C p = true \/ 1 < f p -> exists s',
  pkt_put p s = Ok (tt, s') /\ heap_ok C (fun q => if q =? p then f q - 1 else f q) s' /\ beside_pkts s s'.
Proof.
  intros H1 Hp HC. pose proof (ho_refs _ _ _ H1 p k Hp) as (Er&Hf&_). unfold pkt_put, mhi_pkt_of at 1, st_bind. rewrite Hp.
  destruct (mp_refcount k =? 1) eqn:E1.
  - destruct (release_ok C f s p k H1 Hp ltac:(lia) ltac:(destruct HC; [done|lia])) as (s'&E&H2&Ep&Ed&Eb&Ern). exists s'. split; [exact E|].
    split; [|repeat split; [done..|]].
    + eapply heap_ok_ext; [|done..|exact H2]. intros q. cbn. destruct (q =? p) eqn:Eq; [|done]. replace q with p by lia. lia.
    + intros q x. rewrite Ep. intros Hx. apply lookup_delete_Some in Hx as [_ Hx]. by exists x.
  - set (g := with_refcount (mp_refcount k - 1)).
    destruct (upd_pkt_ok C f (fun q => if q =? p then f q - 1 else f q) s p k g H1 Hp) as [E H2]; [done|cbn; rewrite Z.eqb_refl; lia|cbn; rewrite Z.eqb_refl; lia|intros q Hq; by replace (q =? p) with false by lia|].
    eexists. split; [exact E|]. split; [exact H2|]. repeat split; [done..|]. intros q x. cbn. destruct (decide (q = p)) as [->|Hq].
    + rewrite lookup_insert_eq. intros [= <-]. by exists k.
    + rewrite lookup_insert_ne by done. intros Hx. by exists x.
Qed.

(** ** The invariant *)
Record dev_ok w s (d : qrtr_mhi_dev) : Prop := {
  do_nodup : NoDup (md_ul_pkts d);
  do_heap : heap_ok (counted w) (refs (md_ul_pkts d) w) s;
  do_bus : Forall2 (fun p b => exists k, mh_pkts s !! p = Some k /\ mp_skb k = b) (md_ul_pkts d) (mh_bus s);
  do_reset : 0 <= md_in_reset d;
  do_done : md_in_reset d = 0 -> forall p k, p ∈ md_ul_pkts d -> mh_pkts s !! p = Some k -> mp_done k = false;
  do_ep : ep_ok (mh_router s) (md_ep d);
}.

Definition mhi_ok w s : Prop :=
  match mh_dev s with
  | None => w = SIdle /\ mh_bus s = [] /\ heap_ok (counted SIdle) (refs [] SIdle) s
  | Some d => dev_ok w s d
  end.

Lemma bus_kept s s' l bus : (forall p, p ∈ l -> is_Some (mh_pkts s' !! p)) ->
  (forall p k', mh_pkts s' !! p = Some k' -> exists k, mh_pkts s !! p = Some k /\ mp_skb k' = mp_skb k) ->
  Forall2 (fun p b => exists k, mh_pkts s !! p = Some k /\ mp_skb k = b) l bus ->
  Forall2 (fun p b => exists k, mh_pkts s' !! p = Some k /\ mp_skb k = b) l bus.
Proof.
  intros Hl K F. induction F as [|p b l bus (k&Hk&Eb) F IH]; constructor.
  - destruct (Hl p) as [k' Hk']; [by left|]. exists k'. split; [done|]. destruct (K p k' Hk') as (k0&Hk0&E). congruence.
  - apply IH. intros q Hq. apply Hl. by right.
Qed.

Lemma refs_in l w p : p ∈ l -> 0 < refs l w p.
Proof. intros Hp. unfold refs. rewrite bool_decide_true by done. destruct (sender_has w p); lia. Qed.

Lemma dev_ok_step w w' s s' d d' : dev_ok w s d -> md_ul_pkts d' = md_ul_pkts d -> md_ep d' = md_ep d -> md_in_reset d <= md_in_reset d' ->
  heap_ok (counted w') (refs (md_ul_pkts d) w') s' -> mh_bus s' = mh_bus s -> pkts_kept s s' ->
  ep_ok (mh_router s') (md_ep d) -> dev_ok w' s' d'.
Proof.
  intros [H1 H2 H3 H4 H5 H6] E1 E2 E3 E4 E5 K E6. constructor; rewrite ?E1, ?E2, ?E5; try done.
  - apply (bus_kept s); [|intros p k Hk; destruct (K p k Hk) as (k0&?&?&_); by exists k0|done]. intros p Hp. apply (ho_live _ _ _ E4). by apply refs_in.
  - lia.
  - intros Ez p k Hp Hk. destruct (K p k Hk) as (k0&Hk0&_&->). apply (H5 ltac:(lia) p k0 Hp Hk0).
Qed.

(** ** The moves *)
Lemma pkts_kept_refl s : pkts_kept s s.
Proof. intros p k Hk. by exists k. Qed.
Lemma pkts_kept_trans s1 s2 s3 : pkts_kept s1 s2 -> pkts_kept s2 s3 -> pkts_kept s1 s3.
Proof. intros K1 K2 p k Hk. destruct (K2 p k Hk) as (k2&Hk2&?&?), (K1 p k2 Hk2) as (k1&Hk1&?&?). exists k1. split; [done|]. split; congruence. Qed.

Lemma dev_of_exec s d : mh_dev s = Some d -> mhi_dev_of s = Ok (d, s).
Proof. unfold mhi_dev_of. by intros ->. Qed.
Lemma upd_mhi_dev_exec s d f : mh_dev s = Some d -> upd_dev f s = Ok (tt, set_dev (Some (f d)) s).
Proof. intros Hd. unfold upd_dev. by rewrite (st_bind_ok _ _ _ _ _ (dev_of_exec s d Hd)). Qed.

(** The reference on the socket. *)
Lemma hold_move s d p : mh_dev s = Some d -> dev_ok (SQueued p) s d -> exists s',
  send_hold p s = Ok (tt, s') /\ mh_dev s' = Some d /\ dev_ok (SWait p) s' d.
Proof.
  intros Hd D. pose proof (do_heap _ _ _ D) as Hh. assert (Hf : 0 < refs (md_ul_pkts d) (SQueued p) p).
  { unfold refs. cbn. rewrite Z.eqb_refl. case_bool_decide; lia. }
  destruct (ho_live _ _ _ Hh p Hf) as [k Hk]. destruct (ho_refs _ _ _ Hh p k Hk) as (_&_&[b Hb]).
  set (m := match ms_sk b with Some sk => <[sk := held s sk + 1]> (mh_socks s) | None => mh_socks s end).
  set (s' := set_mhi_socks m s). exists s'. split.
  { unfold send_hold, mhi_pkt_of, mhi_skb_of, st_bind. rewrite Hk, Hb. unfold s', m. destruct (ms_sk b); [done|]. by destruct s. }
  split; [done|]. apply (dev_ok_step (SQueued p) (SWait p) s s' d d D); [done|done|lia| |done|intros q x Hx; by exists x|apply D].
  destruct Hh as [H1 H2 H3 H4 H5 H6]. constructor; try done. intros sk.
  assert (Es : held s' sk = held s sk + if bool_decide (socket_of s k = Some sk) then 1 else 0).
  { unfold socket_of. rewrite Hb. cbn. unfold held at 1, s', m. cbn [mh_socks set_mhi_socks]. destruct (ms_sk b) as [x|]; [|rewrite bool_decide_false by done; unfold held; lia].
    destruct (decide (x = sk)) as [->|Hne]; [rewrite bool_decide_true, lookup_insert_eq by done; done|].
    rewrite bool_decide_false, lookup_insert_ne by congruence. unfold held. lia. }
  rewrite Es, H6.
  assert (Eh : holders (counted (SWait p)) s' sk = if bool_decide (socket_of s k = Some sk) then <[p := k]> (holders (counted (SQueued p)) s sk) else holders (counted (SQueued p)) s sk).
  { apply map_eq. intros q. apply option_eq. intros x. unfold holders. rewrite map_lookup_filter_Some. cbn [fst snd counted].
    change (mh_pkts s') with (mh_pkts s). change (socket_of s' x) with (socket_of s x). destruct (decide (q = p)) as [->|Hq].
    - case_bool_decide as D'; [rewrite lookup_insert_eq|rewrite map_lookup_filter_Some]; cbn [fst snd].
      + split; [intros [Hx _]; congruence|]. by intros [= <-].
      + rewrite Z.eqb_refl. split; [|by intros (_&?&_)]. intros (Hx&_&Hsx). rewrite Hk in Hx. injection Hx as <-. by destruct D'.
    - replace (p =? q) with false by lia. case_bool_decide; [rewrite lookup_insert_ne by done|]; rewrite map_lookup_filter_Some; cbn [fst snd];
        by replace (p =? q) with false by lia. }
  rewrite Eh. case_bool_decide; [|lia]. rewrite map_size_insert_None; [lia|]. apply map_lookup_filter_None. right.
  intros x _. cbn [fst snd counted]. rewrite Z.eqb_refl. by intros [? _].
Qed.

(** The end of the call. *)
Lemma finish_move s d p rc : mh_dev s = Some d -> dev_ok (SWait p) s d -> exists s',
  let r := if negb (md_in_reset d =? 0) then - ECONNRESET else if rc =? 0 then - ETIMEDOUT else if rc >? 0 then 0 else rc in
  send_finish p rc s = Ok (r, s') /\ mh_dev s' = Some d /\ dev_ok SIdle s' d /\ mh_bus s' = mh_bus s /\ pkts_kept s s'.
Proof.
  intros Hd D. pose proof (do_heap _ _ _ D) as Hh. assert (Hf : 0 < refs (md_ul_pkts d) (SWait p) p).
  { unfold refs. cbn. rewrite Z.eqb_refl. case_bool_decide; lia. }
  destruct (ho_live _ _ _ Hh p Hf) as [k Hk].
  destruct (pkt_put_ok _ _ s p k Hh Hk ltac:(by left)) as (s'&E&H1&B1&B2&B3&B4). exists s'. cbv zeta.
  split; [unfold send_finish; rewrite (st_bind_ok _ _ _ _ _ (dev_of_exec s d Hd)); by rewrite (st_bind_ok _ _ _ _ _ E)|].
  split; [by rewrite B1|]. split; [|done]. apply (dev_ok_step (SWait p) SIdle s s' d d D); [done|done|lia| |done|done|rewrite B3; apply D].
  eapply heap_ok_ext; [|done..|exact H1]. intros q. cbn. unfold refs. cbn [sender_has]. destruct (q =? p) eqn:Eq.
  - replace (p =? q) with true by lia. lia.
  - replace (p =? q) with false by lia. lia.
Qed.

(** The end of a transfer. *)
Lemma complete_move w s d b bus : mh_dev s = Some d -> dev_ok w s d -> mh_bus s = b :: bus -> exists s' d',
  qcom_mhi_qrtr_ul_callback (set_bus bus s) = Ok (tt, s') /\ mh_dev s' = Some d' /\ dev_ok w s' d' /\ mh_bus s' = bus.
Proof.
  intros Hd [D1 D2 D3 D4 D5 D6] Hb. rewrite Hb in D3. destruct (md_ul_pkts d) as [|p l] eqn:El; [by apply Forall2_nil_inv_l in D3|].
  apply Forall2_cons in D3 as [(k&Hk&Ek) D3]. apply NoDup_cons in D1 as [Hp D1].
  set (d' := with_pkts l d). set (s1 := set_dev (Some d') (set_bus bus s)). set (f := refs (p :: l) w) in *.
  assert (H1 : heap_ok (counted w) f s1) by by eapply heap_ok_ext; [..|exact D2].
  destruct (ho_refs _ _ _ D2 p k Hk) as (Er&Hf&_).
  destruct (upd_pkt_ok _ f f s1 p k with_done H1 Hk) as [E2 H2]; [done|done|done|done|].
  set (s2 := set_pkts _ s1) in *.
  destruct (pkt_put_ok _ f s2 p (with_done k) H2) as (s'&E3&H3&B1&B2&B3&B4).
  { unfold s2. cbn. apply lookup_insert_eq. }
  { unfold f, refs. rewrite bool_decide_true by by left. destruct w as [|q|q]; cbn; [by left| |by left]. destruct (q =? p); [right; lia|by left]. }
  assert (K : forall q x, mh_pkts s' !! q = Some x -> exists y, mh_pkts s !! q = Some y /\ mp_skb x = mp_skb y /\ (q <> p -> mp_done x = mp_done y)).
  { intros q x Hx. destruct (B4 q x Hx) as (y&Hy&E1'&E2'). unfold s2 in Hy. cbn in Hy. destruct (decide (q = p)) as [->|Hq].
    - rewrite lookup_insert_eq in Hy. injection Hy as <-. exists k. split; [done|]. split; [done|]. done.
    - rewrite lookup_insert_ne in Hy by done. exists y. done. }
  assert (H4 : heap_ok (counted w) (refs l w) s').
  { eapply heap_ok_ext; [|done..|exact H3]. intros q. cbn. unfold f, refs. destruct (q =? p) eqn:Eq.
    - replace q with p by lia. rewrite bool_decide_false, bool_decide_true by (done || by left). lia.
    - f_equal. rewrite (bool_decide_ext (q ∈ p :: l) (q ∈ l)); [done|]. rewrite elem_of_cons. split; [intros [?|?]; [lia|done]|by right]. }
  exists s', d'. split; [|split; [by rewrite B1|split; [|by rewrite B2]]].
  - unfold qcom_mhi_qrtr_ul_callback. rewrite st_bind_get. cbn [mh_dev set_bus]. rewrite Hd, El.
    rewrite (st_bind_ok _ _ _ _ _ (upd_mhi_dev_exec (set_bus bus s) d (with_pkts l) Hd)). fold d' s1. by rewrite (st_bind_ok _ _ _ _ _ E2).
  - constructor; try done.
    + replace (mh_bus s') with bus by by rewrite B2. apply (bus_kept s); [|intros q x Hx; destruct (K q x Hx) as (y&?&?&_); by exists y|exact D3].
      intros q Hq. apply (ho_live _ _ _ H4). by apply refs_in.
    + intros Ez q x Hq Hx. destruct (K q x Hx) as (y&Hy&_&->); [|intros ->; done]. apply (D5 Ez q y); [by right|done].
    + rewrite B3. exact D6.
Qed.

(** A fatal error: every packet in the list is done, and stays there. *)
Lemma complete_all C f l : forall s, heap_ok C f s -> (forall p, p ∈ l -> 0 < f p) -> exists s',
  complete_pkts l s = Ok (tt, s') /\ heap_ok C f s' /\ mh_dev s' = mh_dev s /\ mh_bus s' = mh_bus s /\ mh_router s' = mh_router s /\
  (forall p k', mh_pkts s' !! p = Some k' -> exists k, mh_pkts s !! p = Some k /\ mp_skb k' = mp_skb k).
Proof.
  induction l as [|p l IH]; intros s Hh Hl; [exists s; split; [done|]; split; [exact Hh|]; split; [done|]; split; [done|]; split; [done|]; intros p k Hk; by exists k|].
  destruct (ho_live _ _ _ Hh p) as [k Hk]; [apply Hl; by left|]. destruct (ho_refs _ _ _ Hh p k Hk) as (Hr1&Hr2&_).
  destruct (upd_pkt_ok C f f s p k with_done Hh Hk) as [E Hh1]; [done..|].
  destruct (IH _ Hh1) as (s'&E'&H2&B1&B2&B3&K); [intros q Hq; apply Hl; by right|]. exists s'.
  split; [cbn [complete_pkts]; by rewrite (st_bind_ok _ _ _ _ _ E)|]. split; [done|]. split; [done|]. split; [done|]. split; [done|].
  intros q x Hx. destruct (K q x Hx) as (y&Hy&Ey). cbn in Hy. destruct (decide (q = p)) as [->|Hq].
  - rewrite lookup_insert_eq in Hy. injection Hy as <-. by exists k.
  - rewrite lookup_insert_ne in Hy by done. by exists y.
Qed.

Lemma status_move w s d fatal : mh_dev s = Some d -> dev_ok w s d -> exists s' d',
  qcom_mhi_qrtr_status_callback fatal s = Ok (tt, s') /\ mh_dev s' = Some d' /\ dev_ok w s' d'.
Proof.
  intros Hd D. unfold qcom_mhi_qrtr_status_callback. destruct fatal; cbn [negb]; [|by exists s, d].
  set (d' := MhiDev (md_ep d) (md_ul_pkts d) (md_in_reset d + 1)).
  rewrite (st_bind_ok _ _ _ _ _ (upd_mhi_dev_exec s d (fun d => MhiDev (md_ep d) (md_ul_pkts d) (md_in_reset d + 1)) Hd)). fold d'.
  set (s1 := set_dev (Some d') s). rewrite (st_bind_ok _ _ _ _ _ (dev_of_exec s1 d' eq_refl)). destruct D as [D1 D2 D3 D4 D5 D6].
  assert (H1 : heap_ok (counted w) (refs (md_ul_pkts d) w) s1) by by eapply heap_ok_ext; [..|exact D2].
  destruct (complete_all _ _ (md_ul_pkts d') s1 H1) as (s'&E&H2&B1&B2&B3&K); [intros p; apply refs_in|].
  exists s', d'. split; [exact E|]. split; [by rewrite B1|]. constructor; try done.
  - rewrite B2. apply (bus_kept s); [|done..]. intros p Hp. apply (ho_live _ _ _ H2). by apply refs_in.
  - cbn. lia.
  - cbn. lia.
  - rewrite B3. exact D6.
Qed.

(** A new packet with its buffer. *)
Lemma new_packet s s' l p b sk data : heap_ok (counted SIdle) (refs l SIdle) s -> mh_next s <= b -> mh_next s <= p -> b < mh_next s' -> p < mh_next s' ->
  mh_pkts s' = <[p := MhiPkt b 2 false]> (mh_pkts s) -> mh_skbs s' = <[b := MhiSkb sk data]> (mh_skbs s) -> mh_socks s' = mh_socks s ->
  heap_ok (counted (SQueued p)) (refs (l ++ [p]) (SQueued p)) s'.
Proof.
  intros [H1 H2 H3 H4 [H5 H6] H7] Hb Hp Hb' Hp' Ep Eb Es.
  assert (Fb : mh_skbs s !! b = None) by (destruct (mh_skbs s !! b) eqn:E; [specialize (H6 b ltac:(by eexists)); lia|done]).
  assert (Fp : mh_pkts s !! p = None) by (destruct (mh_pkts s !! p) eqn:E; [specialize (H5 p ltac:(by eexists)); lia|done]).
  assert (Er : forall q, q <> p -> refs (l ++ [p]) (SQueued p) q = refs l SIdle q).
  { intros q Hq. unfold refs. cbn. replace (p =? q) with false by lia. rewrite (bool_decide_ext (q ∈ l ++ [p]) (q ∈ l)); [done|].
    rewrite elem_of_app, list_elem_of_singleton. naive_solver. }
  assert (E2 : refs (l ++ [p]) (SQueued p) p = 2).
  { unfold refs. cbn. rewrite Z.eqb_refl, bool_decide_true by (apply elem_of_app; right; by left). done. }
  assert (Old : forall q x, q <> p -> mh_pkts s' !! q = Some x -> mh_pkts s !! q = Some x) by (intros q x Hq; by rewrite Ep, lookup_insert_ne).
  assert (New : forall x, mh_pkts s' !! p = Some x -> x = MhiPkt b 2 false) by (intros x; rewrite Ep, lookup_insert_eq; by intros [= <-]).
  assert (Nb : forall q x, mh_pkts s !! q = Some x -> mp_skb x <> b).
  { intros q x Hx E. destruct (H1 _ _ Hx) as (_&_&[y Hy]). rewrite E in Hy. congruence. }
  constructor.
  - intros q x Hx. destruct (decide (q = p)) as [->|Hq].
    + rewrite (New _ Hx), E2. cbn. split; [done|]. split; [done|]. rewrite Eb, lookup_insert_eq. by eexists.
    + rewrite Er by done. destruct (H1 _ _ (Old _ _ Hq Hx)) as (?&?&?). split; [done|]. split; [done|].
      rewrite Eb, lookup_insert_ne; [done|]. intros E. symmetry in E. by apply (Nb q x (Old _ _ Hq Hx)).
  - intros q Hq. rewrite Ep. destruct (decide (q = p)) as [->|Hne]; [rewrite lookup_insert_eq; by eexists|].
    rewrite lookup_insert_ne by done. apply H2. by rewrite <-Er.
  - intros q r x y Hx Hy E. destruct (decide (q = p)) as [->|Hq], (decide (r = p)) as [->|Hr]; [done|..].
    + rewrite (New _ Hx) in E. by destruct (Nb r y (Old _ _ Hr Hy)).
    + rewrite (New _ Hy) in E. by destruct (Nb q x (Old _ _ Hq Hx)).
    + by apply (H3 q r x y); [apply Old|apply Old|].
  - intros c Hc. rewrite Ep. rewrite Eb in Hc. destruct (decide (c = b)) as [->|Hne].
    + exists p, (MhiPkt b 2 false). by rewrite lookup_insert_eq.
    + rewrite lookup_insert_ne in Hc by done. destruct (H4 c Hc) as (q&x&Hx&Ex). exists q, x. rewrite lookup_insert_ne; [done|]. intros ->. congruence.
  - rewrite Ep, Eb. split; intros q Hq.
    + destruct (decide (q = p)) as [->|Hne]; [done|]. rewrite lookup_insert_ne in Hq by done. specialize (H5 q Hq). lia.
    + destruct (decide (q = b)) as [->|Hne]; [done|]. rewrite lookup_insert_ne in Hq by done. specialize (H6 q Hq). lia.
  - intros sk'. unfold held. rewrite Es. fold (held s sk'). rewrite H7. do 2 f_equal. apply map_eq. intros q. apply option_eq. intros x.
    unfold holders. rewrite !map_lookup_filter_Some, Ep. cbn [fst snd counted]. unfold socket_of. rewrite Eb. destruct (decide (q = p)) as [->|Hq].
    + rewrite lookup_insert_eq, Z.eqb_refl, Fp. naive_solver.
    + rewrite lookup_insert_ne by done. replace (p =? q) with false by lia. split; intros (Hx&_&Hs); (split; [done|]; split; [done|]).
      * rewrite lookup_insert_ne; [done|]. intros E. symmetry in E. by apply (Nb q x).
      * rewrite lookup_insert_ne in Hs; [done|]. intros E. symmetry in E. by apply (Nb q x).
Qed.

(** What is left after a call that hands over a buffer. *)
Definition queue_post s w (r : option Z) s' : Prop :=
  match r with
  | None => w = SQueued (mh_next s + 1) /\ mh_bus s' = mh_bus s ++ [mh_next s]
  | Some _ => w = SIdle /\ mh_bus s' = mh_bus s /\ mh_skbs s' = mh_skbs s /\ mh_pkts s' = mh_pkts s
  end.

(** The exits before the bus has the buffer. *)
Lemma exit_ok s d n : mh_dev s = Some d -> dev_ok SIdle s d -> mh_next s <= n ->
  dev_ok SIdle (set_mhi_next n s) d /\ forall e, queue_post s SIdle (Some e) (set_mhi_next n s).
Proof.
  intros Hd D Hn. split; [|done]. apply (dev_ok_step SIdle SIdle s _ d d D); [done|done|lia| |done|intros q x Hx; by exists x|apply D].
  eapply (heap_ok_ext _ _ _ _ s); [done|done|done|done|done|exact Hn|apply D].
Qed.

Lemma free_new s n b x : mh_skbs s !! b = None -> free_skb b (set_mhi_next n (set_skbs (<[b := x]> (mh_skbs s)) s)) = Ok (tt, set_mhi_next n s).
Proof. intros Fb. unfold free_skb, mhi_skb_of, st_bind, st_upd. cbn. rewrite lookup_insert_eq. unfold set_skbs, set_mhi_next. cbn. by rewrite delete_insert_id. Qed.

Lemma queue_move s d linear mem queue sk data : mh_dev s = Some d -> dev_ok SIdle s d -> exists r w s' d',
  do_move (MQueue linear mem queue sk data) SIdle s = Ok ((w, r), s') /\ mh_dev s' = Some d' /\ dev_ok w s' d' /\ queue_post s w r s'.
Proof.
  intros Hd D. pose proof (ho_next _ _ _ (do_heap _ _ _ D)) as [Np Nb]. set (b := mh_next s) in *.
  assert (Fb : mh_skbs s !! b = None) by (destruct (mh_skbs s !! b) eqn:E; [specialize (Nb b ltac:(by eexists)); lia|done]).
  set (p := b + 1). assert (Fp : mh_pkts s !! p = None) by (destruct (mh_pkts s !! p) eqn:E; [specialize (Np p ltac:(by eexists)); lia|done]).
  assert (Hp : p ∉ md_ul_pkts d).
  { intros Hin. destruct (ho_live _ _ _ (do_heap _ _ _ D) p) as [x Hx]; [by apply refs_in|]. congruence. }
  unfold do_move. rewrite st_bind_get, st_bind_upd. fold b. set (s1 := set_mhi_next (b + 1) _).
  assert (Ef : free_skb b s1 = Ok (tt, set_mhi_next (b + 1) s)) by by apply free_new.
  destruct (exit_ok s d (b + 1) Hd D ltac:(lia)) as [X1 X2]. unfold send_queue. destruct (linear =? 0); cbn [negb].
  2:{ rewrite st_bind_bind, (st_bind_ok _ _ _ _ _ Ef). by exists (Some linear), SIdle, (set_mhi_next (b + 1) s), d. }
  destruct mem; cbn [negb].
  2:{ rewrite st_bind_bind, (st_bind_ok _ _ _ _ _ Ef). by exists (Some (- ENOMEM)), SIdle, (set_mhi_next (b + 1) s), d. }
  rewrite st_bind_bind, st_bind_get. change (mh_next s1) with p. rewrite st_bind_bind, st_bind_upd.
  set (s2 := set_mhi_next (p + 1) _). set (d1 := with_pkts (md_ul_pkts d ++ [p]) d).
  assert (E2 : upd_dev (fun d => with_pkts (md_ul_pkts d ++ [p]) d) s2 = Ok (tt, set_dev (Some d1) s2)) by exact (upd_mhi_dev_exec s2 d _ Hd).
  rewrite st_bind_bind, (st_bind_ok _ _ _ _ _ E2). set (s3 := set_dev (Some d1) s2). rewrite st_bind_bind. unfold mhi_queue_transfer.
  destruct (queue =? 0) eqn:Eq.
  - rewrite st_bind_bind, st_bind_upd, !st_bind_ret, Eq. cbn [negb]. rewrite !st_bind_ret. set (s4 := set_bus _ s3).
    exists None, (SQueued p), s4, d1. split; [done|]. split; [done|]. split; [|done].
    pose proof D as [D1 D2 D3 D4 D5 D6]. assert (D7 : heap_ok (counted (SQueued p)) (refs (md_ul_pkts d ++ [p]) (SQueued p)) s4).
    { apply (new_packet s s4 _ p b sk data D2); cbn; (lia || done). }
    constructor; [|exact D7| |done| |exact D6].
    + apply NoDup_app. split; [done|]. split; [|apply NoDup_singleton]. intros q Hq Hq'. apply list_elem_of_singleton in Hq' as ->. done.
    + apply Forall2_app; [|constructor; [|constructor]; exists (MhiPkt b 2 false); split; [cbn; apply lookup_insert_eq|done]].
      eapply Forall2_impl; [exact D3|]. intros q c (x&Hx&Ex). exists x. cbn. rewrite lookup_insert_ne; [done|]. intros ->. congruence.
    + intros Ez q x Hq Hx. cbn in Hx. destruct (decide (q = p)) as [->|Hne]; [rewrite lookup_insert_eq in Hx; by injection Hx as <-|].
      rewrite lookup_insert_ne in Hx by done. apply (D5 Ez q x); [|done]. cbn in Hq. rewrite elem_of_app, list_elem_of_singleton in Hq. by destruct Hq.
  - rewrite st_bind_bind, !st_bind_ret, Eq. cbn [negb].
    assert (E4 : upd_dev (fun d => with_pkts (filter (.≠ p) (md_ul_pkts d)) d) s3 = Ok (tt, set_dev (Some d) s2)).
    { rewrite (upd_mhi_dev_exec s3 d1) by done. unfold s3, set_dev, with_pkts, d1. cbn. rewrite filter_app, filter_cons_False by (intros X; by apply X).
      rewrite filter_nil, app_nil_r, filter_all by (intros x Hx ->; done). by destruct d. }
    rewrite st_bind_bind, (st_bind_ok _ _ _ _ _ E4).
    assert (E5 : free_skb b (set_dev (Some d) s2) = Ok (tt, set_mhi_next (p + 1) (set_pkts (<[p := MhiPkt b 2 false]> (mh_pkts s)) s))).
    { unfold free_skb, mhi_skb_of, st_bind, st_upd. cbn. rewrite lookup_insert_eq. unfold set_skbs, set_dev, set_mhi_next, set_pkts. cbn.
      by rewrite Hd, delete_insert_id. }
    assert (E6 : free_pkt p (set_mhi_next (p + 1) (set_pkts (<[p := MhiPkt b 2 false]> (mh_pkts s)) s)) = Ok (tt, set_mhi_next (p + 1) s)).
    { unfold free_pkt, mhi_pkt_of, st_bind, st_upd. cbn. rewrite lookup_insert_eq. unfold set_mhi_next, set_pkts. cbn. by rewrite delete_insert_id. }
    rewrite st_bind_bind, (st_bind_ok _ _ _ _ _ E5), st_bind_bind, (st_bind_ok _ _ _ _ _ E6).
    destruct (exit_ok s d (p + 1) Hd D ltac:(lia)) as [X3 X4]. by exists (Some queue), SIdle, (set_mhi_next (p + 1) s), d.
Qed.

Lemma data_move w s status data : mhi_ok w s -> ep_packet data -> exists s',
  qcom_mhi_qrtr_dl_callback status data s = Ok (tt, s') /\ mhi_ok w s'.
Proof.
  intros I Hd. unfold qcom_mhi_qrtr_dl_callback. rewrite st_bind_get. unfold mhi_ok in I. destruct (mh_dev s) as [d|] eqn:Ed.
  2:{ exists s. split; [done|]. unfold mhi_ok. by rewrite Ed. }
  case_if; [exists s; split; [done|]; unfold mhi_ok; by rewrite Ed|].
  destruct (endpoint_post_ok (mh_router s) (md_ep d) data (do_ep _ _ _ I) Hd) as (rc&r&E&Hr).
  unfold st_bind, on_mhi_router. rewrite E. eexists. split; [reflexivity|]. unfold mhi_ok. cbn. rewrite Ed.
  apply (dev_ok_step w w s _ d d I); [done|done|lia| |done|intros q x Hx; by exists x|exact Hr].
  eapply (heap_ok_ext _ _ _ _ s); [done..|]. apply I.
Qed.

Lemma remove_move s d r : mh_dev s = Some d -> dev_ok SIdle s d -> mh_bus s = [] -> endpoint_unregister (md_ep d) (mh_router s) = Ok (tt, r) ->
  exists s', qcom_mhi_qrtr_remove s = Ok (tt, s') /\ mhi_ok SIdle s'.
Proof.
  intros Hd D Hb E. unfold qcom_mhi_qrtr_remove. rewrite (st_bind_ok _ _ _ _ _ (dev_of_exec s d Hd)).
  unfold st_bind, on_mhi_router. rewrite E. eexists. split; [reflexivity|]. unfold mhi_ok. cbn. split; [done|]. split; [done|].
  pose proof (do_bus _ _ _ D) as F. rewrite Hb in F. apply Forall2_nil_inv_r in F. pose proof (do_heap _ _ _ D) as Hh. rewrite F in Hh.
  eapply (heap_ok_ext _ _ _ _ s); [done..|exact Hh].
Qed.

(** Every move goes well, and keeps the invariant. *)
Lemma move_ok m w s : mhi_ok w s -> can m w s -> exists w' r s', do_move m w s = Ok ((w', r), s') /\ mhi_ok w' s'.
Proof.
  intros I Hc. assert (Dev : forall d s' w', mh_dev s' = Some d -> dev_ok w' s' d -> mhi_ok w' s') by (intros d s' w' E D; unfold mhi_ok; by rewrite E).
  destruct m as [linear mem queue sk data| |rc| |fatal|status data|].
  - destruct Hc as [-> [d Hd]]. unfold mhi_ok in I. rewrite Hd in I.
    destruct (queue_move s d linear mem queue sk data Hd I) as (r&w'&s'&d'&E&Hd'&D&_). exists w', r, s'. split; [exact E|]. by apply (Dev d').
  - destruct Hc as [p ->]. unfold mhi_ok in I. destruct (mh_dev s) as [d|] eqn:Hd; [|by destruct I as [? _]].
    destruct (hold_move s d p Hd I) as (s'&E&Hd'&D). exists (SWait p), None, s'. split; [cbn [do_move]; by rewrite (st_bind_ok _ _ _ _ _ E)|]. by apply (Dev d).
  - destruct Hc as (p&->&_). unfold mhi_ok in I. destruct (mh_dev s) as [d|] eqn:Hd; [|by destruct I].
    destruct (finish_move s d p rc Hd I) as (s'&E&Hd'&D&_). eexists SIdle, _, s'. split; [cbn [do_move]; by rewrite (st_bind_ok _ _ _ _ _ E)|]. by apply (Dev d).
  - cbn [can do_move] in *. destruct (mh_bus s) as [|b bus] eqn:Eb; [done|]. unfold mhi_ok in I. destruct (mh_dev s) as [d|] eqn:Hd; [|destruct I as (_&?&_); congruence].
    destruct (complete_move w s d b bus Hd I Eb) as (s'&d'&E&Hd'&D&_). rewrite st_bind_upd, Eb. cbn [tail].
    exists w, None, s'. split; [by rewrite (st_bind_ok _ _ _ _ _ E)|]. by apply (Dev d').
  - destruct Hc as [d Hd]. unfold mhi_ok in I. rewrite Hd in I. destruct (status_move w s d fatal Hd I) as (s'&d'&E&Hd'&D).
    exists w, None, s'. split; [cbn [do_move]; by rewrite (st_bind_ok _ _ _ _ _ E)|]. by apply (Dev d').
  - destruct (data_move w s status data I Hc) as (s'&E&I'). exists w, None, s'. split; [cbn [do_move]; by rewrite (st_bind_ok _ _ _ _ _ E)|done].
  - destruct Hc as (->&Hb&d&Hd&r&Er). unfold mhi_ok in I. rewrite Hd in I. destruct (remove_move s d r Hd I Hb Er) as (s'&E&I').
    exists SIdle, None, s'. split; [cbn [do_move]; by rewrite (st_bind_ok _ _ _ _ _ E)|done].
Qed.

(** A device that was just probed. *)
Definition fresh s : Prop := exists a, mh_dev s = Some (MhiDev a [] 0) /\ ep_ok (mh_router s) a /\
  mh_pkts s = ∅ /\ mh_skbs s = ∅ /\ mh_bus s = [] /\ forall sk, held s sk = 0.

Lemma fresh_ok s : fresh s -> mhi_ok SIdle s.
Proof.
  intros (a&Hd&Ha&Ep&Eb&Ebus&Hs). unfold mhi_ok. rewrite Hd.
  constructor; cbn; [apply NoDup_nil_2| |rewrite Ebus; constructor|lia| |exact Ha]; [|by intros _ p k Hp%elem_of_nil].
  constructor; rewrite ?Ep, ?Eb.
  - intros p k Hk. by rewrite lookup_empty in Hk.
  - intros p Hp. unfold refs in Hp. rewrite bool_decide_false in Hp by apply not_elem_of_nil. cbn in Hp. lia.
  - intros p q k l Hk. by rewrite lookup_empty in Hk.
  - intros b [x Hx]. by rewrite lookup_empty in Hx.
  - split; intros x [y Hy]; by rewrite lookup_empty in Hy.
  - intros sk. rewrite Hs. unfold holders. by rewrite Ep, map_filter_empty, map_size_empty.
Qed.

Lemma steps_ok w s w' s' : rtc mhi_step (w, s) (w', s') -> mhi_ok w s -> mhi_ok w' s'.
Proof.
  intros Hr. remember (w, s) as x eqn:Ex. remember (w', s') as y eqn:Ey. revert w s Ex.
  induction Hr as [x|x z y (m&r&Hc&E) Hr IH]; intros w s -> I; [by injection Ey as <- <-|].
  destruct z as [w1 s1]. apply (IH Ey w1 s1 eq_refl). destruct (move_ok m w s I Hc) as (w2&r2&s2&E2&I2).
  cbn in E, E2. rewrite E in E2. by injection E2 as <- _ <-.
Qed.

(** C12: Over every order of sends, ends of transfers, timeouts, signals, fatal errors, data and the removal, every piece
    of the transport returns without touching a freed packet, buffer or socket: each buffer the bus holds is there, a send that
    returns 0 has left the bus, and when nothing is under way no packet, buffer or reference on a socket is left. *)
Theorem mhi_transport_safe s w' s' : fresh s -> rtc mhi_step (SIdle, s) (w', s') ->
  (forall m, can m w' s' -> exists x s'', do_move m w' s' = Ok (x, s'')) /\
  (forall b, b ∈ mh_bus s' -> is_Some (mh_skbs s' !! b)) /\
  (forall p k rc s'', w' = SWait p -> mh_pkts s' !! p = Some k -> can (MFinish rc) w' s' ->
     do_move (MFinish rc) w' s' = Ok ((SIdle, Some 0), s'') -> mp_skb k ∉ mh_bus s') /\
  (w' = SIdle -> mh_bus s' = [] -> mh_pkts s' = ∅ /\ mh_skbs s' = ∅ /\ forall sk, held s' sk = 0).
Proof.
  intros F Hr. pose proof (steps_ok _ _ _ _ Hr (fresh_ok s F)) as I. split; [|split; [|split]].
  - intros m Hc. destruct (move_ok m w' s' I Hc) as (w2&r2&s2&E&_). by eexists _, s2.
  - intros b Hb. unfold mhi_ok in I. destruct (mh_dev s') as [d|]; [|destruct I as (_&E&_); by rewrite E, elem_of_nil in Hb].
    destruct (list_elem_of_lookup_1 _ _ Hb) as [i Hi]. destruct (Forall2_lookup_r _ _ _ _ _ (do_bus _ _ _ I) Hi) as (p&Hp&k&Hk&<-).
    apply (ho_refs _ _ _ (do_heap _ _ _ I) p k Hk).
  - intros p k rc s'' -> Hk (q&[= <-]&Hrc) E Hin. unfold mhi_ok in I. destruct (mh_dev s') as [d|] eqn:Hd; [|by destruct I].
    destruct (finish_move s' d p rc Hd I) as (s2&E2&_). cbn [do_move] in E. rewrite (st_bind_ok _ _ _ _ _ E2) in E. injection E as E _.
    destruct (md_in_reset d =? 0) eqn:Ez; cbn [negb] in E; [|done]. destruct (rc =? 0) eqn:E0; [done|]. destruct (rc >? 0) eqn:E1; [|lia].
    destruct (list_elem_of_lookup_1 _ _ Hin) as [i Hi]. destruct (Forall2_lookup_r _ _ _ _ _ (do_bus _ _ _ I) Hi) as (q&Hq&x&Hx&Ex).
    assert (q = p) as -> by by apply (ho_apart _ _ _ (do_heap _ _ _ I) q p x k). apply list_elem_of_lookup_2 in Hq.
    pose proof (do_done _ _ _ I ltac:(lia) p k Hq Hk). pose proof (Hrc ltac:(lia) k Hk). congruence.
  - intros -> Hb. assert (Hh : heap_ok (counted SIdle) (refs [] SIdle) s').
    { unfold mhi_ok in I. destruct (mh_dev s') as [d|]; [|apply I]. pose proof (do_bus _ _ _ I) as X. rewrite Hb in X.
      apply Forall2_nil_inv_r in X. rewrite <-X. apply I. }
    assert (Ep : mh_pkts s' = ∅). { apply map_empty. intros p. destruct (mh_pkts s' !! p) as [k|] eqn:E; [|done]. by destruct (ho_refs _ _ _ Hh p k E) as (_&?&_). }
    split; [done|]. split.
    + apply map_empty. intros b. destruct (mh_skbs s' !! b) as [x|] eqn:E; [|done]. destruct (ho_skbs _ _ _ Hh b) as (p&k&Hk&_); [by eexists|].
      by rewrite Ep, lookup_empty in Hk.
    + intros sk. rewrite (ho_socks _ _ _ Hh). unfold holders. by rewrite Ep, map_filter_empty, map_size_empty.
Qed.
End moves.

(** ** A device on a concrete router *)
Module MhiDemo.
Import RouterDemo.

#[local] Instance bus_ep : Endpoint router := router_endpoint true nowait 3.
#[local] Instance bus_laws : EndpointLaws router := router_laws true nowait 3.

Definition demo_mhi : mhi router := Mhi (Some (MhiDev 10 [] 0)) ∅ ∅ ∅ [] 0 start.

Lemma demo_fresh : fresh demo_mhi.
Proof.
  exists 10. split; [done|]. split; [|done]. split; [by eexists|]. apply demo_live.
Qed.

(** A packet of socket 21 goes out and comes back. *)
Definition after (m : mhi_move) (w : sender) (s : mhi router) : mhi router := match do_move m w s with Ok (_, s') => s' | _ => s end.
Definition demo_queued : mhi router := after (MQueue 0 true 0 (Some 21) [1; 2; 3; 4]) SIdle demo_mhi.
Definition demo_held : mhi router := after MHold (SQueued 1) demo_queued.
Definition demo_completed : mhi router := after MComplete (SWait 1) demo_held.
Definition demo_finished : mhi router := after (MFinish 1) (SWait 1) demo_completed.

Lemma demo_steps : rtc mhi_step (SIdle, demo_mhi) (SIdle, demo_finished).
Proof.
  apply (rtc_l _ _ (SQueued 1, demo_queued)).
  { exists (MQueue 0 true 0 (Some 21) [1; 2; 3; 4]), None. split; [split; [reflexivity|by eexists]|vm_compute; reflexivity]. }
  apply (rtc_l _ _ (SWait 1, demo_held)); [exists MHold, None; split; [by eexists|vm_compute; reflexivity]|].
  apply (rtc_l _ _ (SWait 1, demo_completed)); [exists MComplete, None; split; [vm_compute; congruence|vm_compute; reflexivity]|].
  apply (rtc_l _ _ (SIdle, demo_finished)); [|apply rtc_refl]. exists (MFinish 1), (Some 0). split; [|vm_compute; reflexivity].
  exists 1. split; [reflexivity|]. intros _ k Hk. vm_compute in Hk. by injection Hk as <-.
Qed.

Lemma mhi_transport_safe_witness : rtc mhi_step (SIdle, demo_mhi) (SIdle, demo_finished) /\ forall sk, held demo_finished sk = 0.
Proof.
  split; [exact demo_steps|]. destruct (mhi_transport_safe demo_mhi SIdle demo_finished demo_fresh demo_steps) as (_&_&_&Hend).
  apply Hend; [reflexivity|vm_compute; reflexivity].
Defined.

(** A signal ends the wait: the call reports an error that makes the system call start again, but the bus still has the packet. *)
Lemma mhi_interrupted_run : exists r s,
  (let! b := st_get mh_next in
   st_upd (fun s => set_mhi_next (b + 1) (set_skbs (<[b := MhiSkb None [1; 2; 3; 4]]> (mh_skbs s)) s)) ;;;
   qcom_mhi_qrtr_send 0 true 0 (st_ret tt) (fun _ => st_ret (- ERESTARTSYS)) b) demo_mhi = Ok (r, s) /\
  (bool_decide (r = - ERESTARTSYS) && bool_decide (mh_bus s = [0]) && bool_decide (is_Some (mh_skbs s !! 0))) = true.
Proof. apply run_check. vm_compute. reflexivity. Qed.
End MhiDemo.
