(* ===== verification/QrtrMhiDev.v ===== *)
(** * The transport on the device side of the modem bus (net/qrtr/mhi_dev.c)

    Here this processor is the device and the other one the host: the endpoint comes and goes
    with the channels that the host opens, and a send waits until the host has room. *)
From S2P Require Import Prelude CMem KernelIdr QrtrNs QrtrRegistry QrtrRouter QrtrPacket QrtrDemo QrtrEndpoint.
Open Scope c_scope.

Definition QRTR_MAX_PKT_SIZE : Z := 0x8000.

(** struct qrtr_mhi_dev_ep: the node of the endpoint, while it is registered, whether the channels
    are open, and whether the completion is done. *)
Record qrtr_mhi_dev_ep := MhiDevEp {
  me_node : option Z;
  me_net_id : Z;
  me_in : bool;
  me_out : bool;
  me_out_tre : bool;
}.

(** [mv_endpoint] says that the global pointer [qrtr_mhi_device_endpoint] is set; the object it
    points to is gone when the probe failed.  [mv_reads] holds what the next reads of the channel give:
    the result and the bytes. *)
Record mhi_device (R : Type) := MhiDevice {
  mv_endpoint : bool;
  mv_qep : option qrtr_mhi_dev_ep;
  mv_reads : list (Z * list Z);
  mv_router : R;
}.
Arguments MhiDevice {R}.
Arguments mv_endpoint {R}.
Arguments mv_qep {R}.
Arguments mv_reads {R}.
Arguments mv_router {R}.

Section device.
Context {R : Type} `{Endpoint R}.
Abbreviation D := (ST (mhi_device R)).

(** What happens until the completion is done, and the result of a write to the channel. *)
Context (wait_tre : D unit) (write_channel : list Z -> D Z).

Definition on_dev_router {A} (c : ST R A) : D A :=
  fun s => match c (mv_router s) with
           | Ok (a, r) => Ok (a, MhiDevice (mv_endpoint s) (mv_qep s) (mv_reads s) r)
           | Fault => Fault
           | Loop => Loop
           end.
Definition qep_of : D qrtr_mhi_dev_ep := fun s => match mv_qep s with Some q => Ok (q, s) | None => Fault end.
Definition set_qep (q : option qrtr_mhi_dev_ep) : D unit :=
  st_upd (fun s => MhiDevice (mv_endpoint s) q (mv_reads s) (mv_router s)).
Definition set_endpoint : D unit := st_upd (fun s => MhiDevice true (mv_qep s) (mv_reads s) (mv_router s)).

Definition with_tre (b : bool) (q : qrtr_mhi_dev_ep) : qrtr_mhi_dev_ep := MhiDevEp (me_node q) (me_net_id q) (me_in q) (me_out q) b.
Definition with_channels (i o : bool) (q : qrtr_mhi_dev_ep) : qrtr_mhi_dev_ep := MhiDevEp (me_node q) (me_net_id q) i o (me_out_tre q).
Definition with_node (n : option Z) (q : qrtr_mhi_dev_ep) : qrtr_mhi_dev_ep := MhiDevEp n (me_net_id q) (me_in q) (me_out q) (me_out_tre q).
Definition upd_qep (f : qrtr_mhi_dev_ep -> qrtr_mhi_dev_ep) : D unit := let! q := qep_of in set_qep (Some (f q)).

(** [wait_for_completion]: it never returns when nobody completes it. *)
Definition wait_for_tre : D unit :=
  let! q := qep_of in
  if me_out_tre q then st_ret tt else
  wait_tre ;;;
  let! q := qep_of in if me_out_tre q then st_ret tt else fun _ => Loop.

Fixpoint dev_send_loop (rounds : nat) (data : list Z) : D Z :=
  match rounds with
  | O => fun _ => Loop
  | S rounds =>
    wait_for_tre ;;;
    let! rc := write_channel data in
    if rc =? 0 then upd_qep (with_tre false) ;;; dev_send_loop rounds data else st_ret rc
  end.

(** [linear] is the result of [skb_linearize]; the buffer is given back in any case. *)
Definition qrtr_mhi_dev_send (rounds : nat) (linear : Z) (data : list Z) : D Z :=
  if negb (linear =? 0) then st_ret linear else
  let! rc := dev_send_loop rounds data in
  st_ret (if negb (rc =? Z.of_nat (length data)) then rc else 0).

(** [mhi_dev_read_channel]: nothing more to read is 0. *)
Definition mhi_dev_read_channel : D (Z * list Z) :=
  let! l := st_get mv_reads in
  match l with
  | [] => st_ret (0, [])
  | x :: l => st_upd (fun s => MhiDevice (mv_endpoint s) (mv_qep s) l (mv_router s)) ;;; st_ret x
  end.

(** Posting through an endpoint that is not registered follows a null pointer. *)
Definition dev_post (data : list Z) : D Z :=
  let! q := qep_of in
  match me_node q with Some a => on_dev_router (endpoint_post a data) | None => fun _ => Fault end.

Fixpoint dev_read_loop (rounds : nat) : D unit :=
  match rounds with
  | O => fun _ => Loop
  | S rounds =>
    let! r := mhi_dev_read_channel in
    if r.1 <? 0 then st_ret tt else
    if r.1 =? 0 then st_ret tt else
    let! _ := dev_post r.2 in
    dev_read_loop rounds
  end.

(** A round for everything there is to read, and a last one. *)
Definition qrtr_mhi_dev_read : D unit := let! l := st_get mv_reads in dev_read_loop (S (length l)).

(** [avail]: the reason is [MHI_DEV_TRE_AVAILABLE]; [incoming]: it is for the channel that is read. *)
Definition qrtr_mhi_dev_event_cb (avail incoming : bool) : D unit :=
  let! g := st_get mv_endpoint in
  if negb g then st_ret tt else
  if negb avail then st_ret tt else
  qep_of ;;; if incoming then qrtr_mhi_dev_read else upd_qep (with_tre true).

Definition qrtr_mhi_dev_open_channels (rc_in rc_out : Z) : D Z :=
  if rc_in <? 0 then st_ret rc_in else
  upd_qep (with_channels true false) ;;;
  if rc_out <? 0 then upd_qep (with_channels false false) ;;; st_ret rc_out else
  upd_qep (with_channels true true) ;;; st_ret 0.

Definition qrtr_mhi_dev_close_channels : D unit := upd_qep (with_channels false false).

Inductive mhi_state := MHI_STATE_CONNECTED (rc_in rc_out : Z) | MHI_STATE_DISCONNECTED | MHI_STATE_OTHER.

(** The state of the channel as the bus reports it, with the results of opening the channels. *)
Definition qrtr_mhi_dev_state_cb (ctrl_info : mhi_state) : D unit :=
  match ctrl_info with
  | MHI_STATE_CONNECTED rc_in rc_out =>
    let! rc := qrtr_mhi_dev_open_channels rc_in rc_out in
    if negb (rc =? 0) then st_ret tt else
    let! q := qep_of in
    let! r := on_dev_router (endpoint_register (me_net_id q)) in
    match r with
    | inl _ => qrtr_mhi_dev_close_channels
    | inr a => upd_qep (with_node (Some a))
    end
  | MHI_STATE_DISCONNECTED =>
    upd_qep (with_tre true) ;;;
    let! q := qep_of in
    match me_node q with
    | Some a => on_dev_router (endpoint_unregister a) ;;; upd_qep (with_node None) ;;; qrtr_mhi_dev_close_channels
    | None => fun _ => Fault
    end
  | MHI_STATE_OTHER => st_ret tt
  end.

(** Memory for the device and for its buffer, the property of the device tree, the result of the
    registration, and the results of opening the channels when the host has opened its side before. *)
Definition qrtr_mhi_dev_probe (mem buf : bool) (net_id : option Z) (rc : Z) (opened : Z * Z) : D Z :=
  if negb mem then st_ret (- ENOMEM) else
  set_qep (Some (MhiDevEp None (default QRTR_EP_NET_ID_AUTO net_id) false false false)) ;;;
  if negb buf then set_qep None ;;; st_ret (- ENOMEM) else
  set_endpoint ;;;
  if rc =? - EEXIST then
    upd_qep (with_tre true) ;;; qrtr_mhi_dev_state_cb (MHI_STATE_CONNECTED opened.1 opened.2) ;;; st_ret 0
  else if negb (rc =? 0) then set_qep None ;;; st_ret rc
  else st_ret 0.
End device.

(** ** What comes and goes *)
Section theorems.
Context {R : Type} `{Endpoint R}.
Implicit Types (s : mhi_device R).

(** Everything there is to read is handed to the router, in its order, up to an error. *)
Fixpoint posts (a : Z) (l : list (Z * list Z)) : ST R unit :=
  match l with
  | [] => st_ret tt
  | (n, data) :: l => if n <=? 0 then st_ret tt else let! _ := endpoint_post a data in posts a l
  end.

Lemma read_posts a q s l r r' : forall n, mv_qep s = Some q -> me_node q = Some a -> mv_reads s = l -> mv_router s = r ->
  posts a l r = Ok (tt, r') -> (length l < n)%nat -> exists l',
  dev_read_loop n s = Ok (tt, MhiDevice (mv_endpoint s) (Some q) l' r').
Proof.
  revert s r. induction l as [|[k data] l IH]; intros s r [|n] Hq Ha Hl Hr E Hn; try (cbn in Hn; lia); cbn [dev_read_loop].
  - exists []. unfold mhi_dev_read_channel. rewrite st_bind_bind, st_bind_get, Hl. cbn. injection E as <-. destruct s. cbn in *. by subst.
  - unfold mhi_dev_read_channel. rewrite st_bind_bind, st_bind_get, Hl, st_bind_bind, st_bind_upd, st_bind_ret. cbn [fst snd posts] in *.
    set (s1 := MhiDevice (mv_endpoint s) (mv_qep s) l (mv_router s)). destruct (k <=? 0) eqn:Ek.
    + injection E as <-. exists l. unfold s1. rewrite Hq, Hr. destruct (k <? 0) eqn:E1; [done|]. replace (k =? 0) with true by lia. done.
    + replace (k <? 0) with false by lia. replace (k =? 0) with false by lia. apply st_bind_inv in E as (rc&r1&E1&E2).
      assert (Ep : dev_post data s1 = Ok (rc, MhiDevice (mv_endpoint s) (Some q) l r1)).
      { unfold dev_post, qep_of, st_bind, s1. cbn. rewrite Hq, Ha. unfold on_dev_router. cbn. rewrite Hr. by rewrite E1. }
      rewrite (st_bind_ok _ _ _ _ _ Ep). exact (IH (MhiDevice (mv_endpoint s) (Some q) l r1) r1 n eq_refl Ha eq_refl eq_refl E2 ltac:(cbn in Hn; lia)).
Qed.

(** The state of the endpoint follows the state of the host: after a connection that succeeds the endpoint is registered
    and the channels are open, after one that fails they are closed, and after a disconnection both are gone and a
    waiting sender goes on. *)
Theorem mhi_dev_states s q rc_in rc_out : mv_qep s = Some q -> me_node q = None ->
  (forall x r, endpoint_register (me_net_id q) (mv_router s) = Ok (x, r) -> exists s' q', 
    qrtr_mhi_dev_state_cb (MHI_STATE_CONNECTED rc_in rc_out) s = Ok (tt, s') /\ mv_qep s' = Some q' /\
    if (rc_in <? 0) || (rc_out <? 0) then me_node q' = None /\ mv_router s' = mv_router s /\ (me_in q = false -> me_in q' = false)
    else match x with
         | inl _ => me_node q' = None /\ me_in q' = false /\ me_out q' = false
         | inr a => me_node q' = Some a /\ me_in q' = true /\ me_out q' = true /\
             forall r', endpoint_unregister a r = Ok (tt, r') -> exists s'' q'',
               qrtr_mhi_dev_state_cb MHI_STATE_DISCONNECTED s' = Ok (tt, s'') /\ mv_router s'' = r' /\ mv_qep s'' = Some q'' /\
               me_node q'' = None /\ me_in q'' = false /\ me_out q'' = false /\ me_out_tre q'' = true
         end).
Proof.
  intros Hq Hn x r E. unfold qrtr_mhi_dev_state_cb, qrtr_mhi_dev_open_channels, upd_qep, qep_of, set_qep, qrtr_mhi_dev_close_channels, st_bind, st_upd.
  destruct (rc_in <? 0) eqn:E1; cbn [orb].
  { cbn. replace (rc_in =? 0) with false by lia. cbn. exists s, q. by repeat split. }
  rewrite Hq. cbn. destruct (rc_out <? 0) eqn:E2; cbn.
  { replace (rc_out =? 0) with false by lia. cbn. eexists _, _. split; [reflexivity|]. by repeat split. }
  unfold on_dev_router. cbn. rewrite E. destruct x as [e|a]; cbn; [by eexists _, _|].
  eexists _, _. split; [reflexivity|]. split; [reflexivity|]. split; [done|]. split; [done|]. split; [done|]. intros r' E'. cbn.
  unfold upd_qep, qep_of, set_qep, st_bind, st_upd. cbn. rewrite E'. cbn. by eexists _, _.
Qed.
End theorems.

(** ** A device on a concrete router *)
Module MhiDevDemo.
Import RouterDemo.

#[local] Instance bus_ep : Endpoint router := router_endpoint true nowait 3.

Definition demo_device : mhi_device router := MhiDevice false None [] start.
Definition faulted {A} (r : res A) : bool := match r with Fault => true | _ => false end.

(** A channel that cannot be opened leaves the endpoint out of the router; the disconnection that follows takes it out nevertheless. *)
Lemma mhi_dev_disconnect_run :
  faulted ((let! _ := qrtr_mhi_dev_probe true true None 0 (0, 0) in
            qrtr_mhi_dev_state_cb (MHI_STATE_CONNECTED (- ENOMEM) 0) ;;; qrtr_mhi_dev_state_cb MHI_STATE_DISCONNECTED) demo_device) = true.
Proof. vm_compute. reflexivity. Qed.

(** A probe that fails at the registration leaves the pointer to the device that is freed with it. *)
Lemma mhi_dev_probe_run : exists r s, qrtr_mhi_dev_probe true true None (- EINVAL) (0, 0) demo_device = Ok (r, s) /\
  (bool_decide (r = - EINVAL) && mv_endpoint s && faulted (qrtr_mhi_dev_event_cb true false s)) = true.
Proof. apply run_check. vm_compute. reflexivity. Qed.
End MhiDevDemo.
