(* ===== verification/QrtrTun.v ===== *)
(** * The transport to a user process (net/qrtr/tun.c)

    A process that opens the device is an endpoint: it reads the packets the router sends, one
    at a time, and writes the ones it receives. *)
From S2P Require Import Prelude CMem QrtrNs QrtrRouter QrtrPacket QrtrEndpoint QrtrMhi.
Open Scope c_scope.

(** struct qrtr_tun: the node of its endpoint and the packets for the process. *)
Record qrtr_tun := Tun { tn_ep : Z; tn_queue : list (list Z) }.

(** The open file, and the router. *)
Record tun (R : Type) := TunFile { tf_tun : option qrtr_tun; tf_router : R }.
Arguments TunFile {R}.
Arguments tf_tun {R}.
Arguments tf_router {R}.

Section tun.
Context {R : Type} `{Endpoint R}.
Abbreviation T := (ST (tun R)).

(** The largest allocation, and what else happens while a reader waits, with the result of the wait. *)
Context (KMALLOC_MAX_SIZE : Z) (wait : T Z).

Definition on_tun_router {A} (c : ST R A) : T A :=
  fun s => match c (tf_router s) with
           | Ok (a, r) => Ok (a, TunFile (tf_tun s) r)
           | Fault => Fault
           | Loop => Loop
           end.
Definition tun_of : T qrtr_tun := fun s => match tf_tun s with Some t => Ok (t, s) | None => Fault end.
Definition set_tun (t : option qrtr_tun) : T unit := st_upd (fun s => TunFile t (tf_router s)).

Definition qrtr_tun_send (data : list Z) : T Z :=
  let! t := tun_of in set_tun (Some (Tun (tn_ep t) (tn_queue t ++ [data]))) ;;; st_ret 0.

Definition qrtr_tun_open (mem : bool) : T Z :=
  if negb mem then st_ret (- ENOMEM) else
  let! r := on_tun_router (endpoint_register QRTR_EP_NET_ID_AUTO) in
  match r with
  | inl ret => set_tun None ;;; st_ret ret
  | inr a => set_tun (Some (Tun a [])) ;;; st_ret 0
  end.

(** The first packet, or the error of the wait for one. *)
Fixpoint tun_dequeue (rounds : nat) (nonblock : bool) : T (Z + list Z) :=
  match rounds with
  | O => fun _ => Loop
  | S rounds =>
    let! t := tun_of in
    match tn_queue t with
    | p :: q => set_tun (Some (Tun (tn_ep t) q)) ;;; st_ret (inr p)
    | [] =>
      if nonblock then st_ret (inl (- EAGAIN)) else
      let! rc := wait in
      if negb (rc =? 0) then st_ret (inl (- ERESTARTSYS)) else tun_dequeue rounds nonblock
    end
  end.

(** [space] bytes wait for the data; [copied] says that the copy to the process went through.  What does
    not fit is lost. *)
Definition qrtr_tun_read_iter (rounds : nat) (nonblock : bool) (space : Z) (copied : bool) : T (Z * list Z) :=
  let! r := tun_dequeue rounds nonblock in
  match r with
  | inl ret => st_ret (ret, [])
  | inr p =>
    let count := Z.min space (Z.of_nat (length p)) in
    st_ret (if copied then (count, take (Z.to_nat count) p) else (- EFAULT, []))
  end.

Definition qrtr_tun_write_iter (mem copied : bool) (data : list Z) : T Z :=
  let len := Z.of_nat (length data) in
  if len =? 0 then st_ret (- EINVAL) else
  if len >? KMALLOC_MAX_SIZE then st_ret (- ENOMEM) else
  if negb mem then st_ret (- ENOMEM) else
  if negb copied then st_ret (- EFAULT) else
  let! t := tun_of in
  let! ret := on_tun_router (endpoint_post (tn_ep t) data) in
  st_ret (if ret <? 0 then ret else len).

Definition qrtr_tun_poll : T bool := let! t := tun_of in st_ret (negb (bool_decide (tn_queue t = []))).

Definition qrtr_tun_release : T unit :=
  let! t := tun_of in on_tun_router (endpoint_unregister (tn_ep t)) ;;; set_tun None.

(** ** The queue *)
Fixpoint tun_sends (l : list (list Z)) : T unit :=
  match l with
  | [] => st_ret tt
  | p :: l => qrtr_tun_send p ;;; tun_sends l
  end.
Fixpoint tun_reads (n : nat) (space : Z) : T (list (list Z)) :=
  match n with
  | O => st_ret []
  | S n =>
    let! r := qrtr_tun_read_iter 1 true space true in
    let! l := tun_reads n space in
    st_ret (r.2 :: l)
  end.

Lemma sends_exec l : forall t r, tun_sends l (TunFile (Some t) r) = Ok (tt, TunFile (Some (Tun (tn_ep t) (tn_queue t ++ l))) r).
Proof.
  induction l as [|p l IH]; intros t r; [by rewrite app_nil_r; destruct t|]. cbn [tun_sends].
  transitivity (tun_sends l (TunFile (Some (Tun (tn_ep t) (tn_queue t ++ [p]))) r)); [done|]. rewrite IH. cbn. by rewrite <-app_assoc.
Qed.

Lemma reads_exec space l : Forall (fun p => Z.of_nat (length p) <= space) l -> forall a r,
  tun_reads (length l) space (TunFile (Some (Tun a l)) r) = Ok (l, TunFile (Some (Tun a [])) r).
Proof.
  induction 1 as [|p l Hp F IH]; intros a r; [done|]. cbn [tun_reads length].
  assert (E : qrtr_tun_read_iter 1 true space true (TunFile (Some (Tun a (p :: l))) r) = Ok ((Z.of_nat (length p), p), TunFile (Some (Tun a l)) r)).
  { unfold qrtr_tun_read_iter, st_bind. cbn. rewrite Z.min_r, Nat2Z.id, take_ge by lia. done. }
  rewrite (st_bind_ok _ _ _ _ _ E), (st_bind_ok _ _ _ _ _ (IH a r)). done.
Qed.

(** What the router sends is what the process reads: whole, in order and once, when its buffer is large enough; then there
    is nothing left, which polling says as well. *)
Theorem tun_queue a r l space : Forall (fun p => Z.of_nat (length p) <= space) l ->
  (tun_sends l ;;; tun_reads (length l) space) (TunFile (Some (Tun a [])) r) = Ok (l, TunFile (Some (Tun a [])) r) /\
  qrtr_tun_read_iter 1 true space true (TunFile (Some (Tun a [])) r) = Ok ((- EAGAIN, []), TunFile (Some (Tun a [])) r) /\
  qrtr_tun_poll (TunFile (Some (Tun a l)) r) = Ok (negb (bool_decide (l = [])), TunFile (Some (Tun a l)) r).
Proof.
  intros F. split; [|done]. rewrite (st_bind_ok _ _ _ _ _ (sends_exec l (Tun a []) r)). by apply reads_exec.
Qed.
End tun.
