(* ===== verification/QrtrHaven.v ===== *)
(** * The transport between virtual machines (net/qrtr/haven.c)

    Two virtual machines share a region of memory with a queue of bytes in each direction.  A
    packet of the router is written into the queue in as many pieces as there is room for; the
    reader puts the pieces together by the size in the packet header and posts the packet to
    the router.  Doorbells tell the other side that there is something to read, or room. *)
From S2P Require Import Prelude CMem QrtrNs QrtrRouter QrtrPacket QrtrEndpoint.
Open Scope c_scope.

Definition HAVEN_MAGIC_KEY : Z := 0x24495043.
Definition FIFO_SIZE : Z := 0x4000.
Definition FIFO_FULL_RESERVE : Z := 8.
Definition FIFO_0_START : Z := 0x1000.
Definition FIFO_1_START : Z := FIFO_0_START + FIFO_SIZE.
Definition HAVEN_MAGIC_IDX : Z := 0.
Definition TAIL_0_IDX : Z := 1.
Definition HEAD_0_IDX : Z := 2.
Definition TAIL_1_IDX : Z := 3.
Definition HEAD_1_IDX : Z := 4.
Definition NOTIFY_0_IDX : Z := 5.
Definition NOTIFY_1_IDX : Z := 6.
Definition MAX_PKT_SZ : Z := 0x10000.

Definition HH_RM_NOTIF_VM_STATUS : Z := 0x56100008.
Definition HH_RM_VM_STATUS_READY : Z := 2.
Definition HH_SELF_VM : Z := 0.
Definition HH_PRIMARY_VM : Z := 1.

(** ** Data *)

(** struct haven_ring; the buffer is a memory of [MAX_PKT_SZ] bytes of its own. *)
Record haven_ring := HavenRing { rg_buf : mem; rg_len : Z; rg_offset : Z }.

(** struct haven_pipe: pointers into the shared region. *)
Record haven_pipe := HavenPipe {
  pp_tail : Z;
  pp_head : Z;
  pp_read_notify : Z;
  pp_fifo : Z;
  pp_length : Z;
}.

(** struct qrtr_haven_dev; [qd_node] is the node of the endpoint, [qd_work] whether the work is
    scheduled. *)
Record qrtr_haven_dev := HavenDev {
  qd_node : option Z;
  qd_ring : haven_ring;
  qd_res : Z * Z;
  qd_memparcel : Z;
  qd_base : Z;
  qd_size : Z;
  qd_master : bool;
  qd_peer_name : Z;
  qd_label : Z;
  qd_tx_dbl : Z;
  qd_rx_dbl : Z;
  qd_work : bool;
  qd_tx : haven_pipe;
  qd_rx : haven_pipe;
}.

(** What the transport asked of the hypervisor: access to the region for both machines, and
    the list of the region under a label. *)
Inductive hyp_call :=
| HypAssign (start size self peer : Z)
| HypLookup (label self peer start size : Z).

(** What refers to the device from outside: the notifier and the doorbells. *)
Record registrations := Registrations { rm_nb : bool; tx_reg : bool; rx_reg : bool }.

(** The shared region as this machine maps it; the device, gone when it is freed, and what
    refers to it; the results of the next doorbells, and how many were raised; how often the waiting sender was woken;
    the packets posted; the calls of the hypervisor; and the router. *)
Record haven (R : Type) := Haven {
  hv_mem : mem;
  hv_dev : option qrtr_haven_dev;
  hv_regs : registrations;
  hv_answers : list Z;
  hv_rings : nat;
  hv_wakes : nat;
  hv_posted : list (list Z);
  hv_hyp : list hyp_call;
  hv_router : R;
}.
Arguments Haven {R}.
Arguments hv_mem {R}.
Arguments hv_dev {R}.
Arguments hv_regs {R}.
Arguments hv_answers {R}.
Arguments hv_rings {R}.
Arguments hv_wakes {R}.
Arguments hv_posted {R}.
Arguments hv_hyp {R}.
Arguments hv_router {R}.

Definition with_ring (g : haven_ring) (d : qrtr_haven_dev) : qrtr_haven_dev :=
  HavenDev (qd_node d) g (qd_res d) (qd_memparcel d) (qd_base d) (qd_size d) (qd_master d)
    (qd_peer_name d) (qd_label d) (qd_tx_dbl d) (qd_rx_dbl d) (qd_work d) (qd_tx d) (qd_rx d).
Definition with_work (b : bool) (d : qrtr_haven_dev) : qrtr_haven_dev :=
  HavenDev (qd_node d) (qd_ring d) (qd_res d) (qd_memparcel d) (qd_base d) (qd_size d) (qd_master d)
    (qd_peer_name d) (qd_label d) (qd_tx_dbl d) (qd_rx_dbl d) b (qd_tx d) (qd_rx d).
Definition with_parcel (z : Z) (d : qrtr_haven_dev) : qrtr_haven_dev :=
  HavenDev (qd_node d) (qd_ring d) (qd_res d) z (qd_base d) (qd_size d) (qd_master d)
    (qd_peer_name d) (qd_label d) (qd_tx_dbl d) (qd_rx_dbl d) (qd_work d) (qd_tx d) (qd_rx d).
Definition with_map (res : Z * Z) (base size : Z) (d : qrtr_haven_dev) : qrtr_haven_dev :=
  HavenDev (qd_node d) (qd_ring d) res (qd_memparcel d) base size (qd_master d)
    (qd_peer_name d) (qd_label d) (qd_tx_dbl d) (qd_rx_dbl d) (qd_work d) (qd_tx d) (qd_rx d).
Definition with_pipes (tx rx : haven_pipe) (d : qrtr_haven_dev) : qrtr_haven_dev :=
  HavenDev (qd_node d) (qd_ring d) (qd_res d) (qd_memparcel d) (qd_base d) (qd_size d) (qd_master d)
    (qd_peer_name d) (qd_label d) (qd_tx_dbl d) (qd_rx_dbl d) (qd_work d) tx rx.
Definition with_peer (peer : Z) (d : qrtr_haven_dev) : qrtr_haven_dev :=
  HavenDev (qd_node d) (qd_ring d) (qd_res d) (qd_memparcel d) (qd_base d) (qd_size d) (qd_master d)
    peer (qd_label d) (qd_tx_dbl d) (qd_rx_dbl d) (qd_work d) (qd_tx d) (qd_rx d).
Definition with_links (node : option Z) (tx rx : Z) (d : qrtr_haven_dev) : qrtr_haven_dev :=
  HavenDev node (qd_ring d) (qd_res d) (qd_memparcel d) (qd_base d) (qd_size d) (qd_master d)
    (qd_peer_name d) (qd_label d) tx rx (qd_work d) (qd_tx d) (qd_rx d).

(** ** The queues *)

(** [memcpy_fromio] and [memcpy_toio] on the region. *)
Definition memcpy_fromio (src n : Z) : ST mem (list Z) :=
  fun m => if in_range m src n then Ok (bytes_at m src (Z.to_nat n), m) else Fault.

Definition haven_rx_avail (pipe : haven_pipe) : ST mem Z :=
  let! head := load32 (pp_head pipe) in
  let! tail := load32 (pp_tail pipe) in
  let len := if head <? tail then u64 (pp_length pipe - tail + head) else head - tail in
  st_ret (if len >? pp_length pipe then 0 else len).

(** [count] bytes from [offset] on. *)
Definition haven_rx_peak (pipe : haven_pipe) (offset count : Z) : ST mem (list Z) :=
  let! tail := load32 (pp_tail pipe) in
  let tail := u32 (tail + offset) in
  let tail := if tail >=? pp_length pipe then u32 (tail - pp_length pipe) else tail in
  let len := Z.min count (u64 (pp_length pipe - tail)) in
  let! data := if negb (len =? 0) then memcpy_fromio (pp_fifo pipe + tail) len else st_ret [] in
  if negb (len =? count) then
    let! rest := memcpy_fromio (pp_fifo pipe) (count - len) in
    st_ret (data ++ rest)
  else st_ret data.

Definition haven_rx_advance (pipe : haven_pipe) (count : Z) : ST mem unit :=
  let! tail := load32 (pp_tail pipe) in
  let tail := u32 (tail + count) in
  let tail := if tail >=? pp_length pipe then tail mod pp_length pipe else tail in
  store32 (pp_tail pipe) tail.

Definition haven_tx_avail (pipe : haven_pipe) : ST mem Z :=
  let! head := load32 (pp_head pipe) in
  let! tail := load32 (pp_tail pipe) in
  let avail := if tail <=? head then u32 (pp_length pipe - head + tail) else tail - head in
  st_ret (if avail <? FIFO_FULL_RESERVE then 0 else avail - FIFO_FULL_RESERVE).

Definition haven_tx_write (pipe : haven_pipe) (data : list Z) : ST mem unit :=
  let count := Z.of_nat (length data) in
  let! head := load32 (pp_head pipe) in
  let len := Z.min count (u64 (pp_length pipe - head)) in
  (if negb (len =? 0) then store_bytes (pp_fifo pipe + head) (take (Z.to_nat len) data) else st_ret tt) ;;;
  (if negb (len =? count) then store_bytes (pp_fifo pipe) (drop (Z.to_nat len) data) else st_ret tt) ;;;
  let head := u32 (head + count) in
  let head := if head >=? pp_length pipe then u32 (head - pp_length pipe) else head in
  store32 (pp_head pipe) head.

Section transport.
Context {R : Type} `{Endpoint R}.

Abbreviation HV := (ST (haven R)).

Definition set_mem (m : mem) (h : haven R) : haven R :=
  Haven m (hv_dev h) (hv_regs h) (hv_answers h) (hv_rings h) (hv_wakes h) (hv_posted h) (hv_hyp h) (hv_router h).
Definition set_dev (d : option qrtr_haven_dev) (h : haven R) : haven R :=
  Haven (hv_mem h) d (hv_regs h) (hv_answers h) (hv_rings h) (hv_wakes h) (hv_posted h) (hv_hyp h) (hv_router h).

Definition set_regs (r : registrations) (h : haven R) : haven R :=
  Haven (hv_mem h) (hv_dev h) r (hv_answers h) (hv_rings h) (hv_wakes h) (hv_posted h) (hv_hyp h) (hv_router h).
Definition log_hyp (c : hyp_call) (h : haven R) : haven R :=
  Haven (hv_mem h) (hv_dev h) (hv_regs h) (hv_answers h) (hv_rings h) (hv_wakes h) (hv_posted h)
    (hv_hyp h ++ [c]) (hv_router h).

(** An access to a freed device is a fault. *)
Definition the_dev : HV qrtr_haven_dev :=
  fun h => match hv_dev h with Some d => Ok (d, h) | None => Fault end.
Definition upd_dev (f : qrtr_haven_dev -> qrtr_haven_dev) : HV unit :=
  let! d := the_dev in st_upd (set_dev (Some (f d))).

Definition on_mem {A} (c : ST mem A) : HV A :=
  fun h => match c (hv_mem h) with
           | Ok (a, m) => Ok (a, set_mem m h)
           | Fault => Fault
           | Loop => Loop
           end.

Definition on_router {A} (c : ST R A) : HV A :=
  fun h => match c (hv_router h) with
           | Ok (a, r) => Ok (a, Haven (hv_mem h) (hv_dev h) (hv_regs h) (hv_answers h) (hv_rings h) (hv_wakes h)
                                   (hv_posted h) (hv_hyp h) r)
           | Fault => Fault
           | Loop => Loop
           end.

(** The next answer of the doorbell, 0 when none is given. *)
Definition hh_dbl_send : HV Z :=
  fun h => let ret := default 0 (head (hv_answers h)) in
    Ok (ret, Haven (hv_mem h) (hv_dev h) (hv_regs h) (tail (hv_answers h))
               (if ret =? 0 then S (hv_rings h) else hv_rings h) (hv_wakes h) (hv_posted h) (hv_hyp h) (hv_router h)).

(** [wake_up_all] *)
Definition wake_up_all : HV unit :=
  st_upd (fun h => Haven (hv_mem h) (hv_dev h) (hv_regs h) (hv_answers h) (hv_rings h) (S (hv_wakes h)) (hv_posted h)
                     (hv_hyp h) (hv_router h)).

(** [qrtr_endpoint_post] on the endpoint of the device. *)
Definition post (data : list Z) : HV Z :=
  let! d := the_dev in
  match qd_node d with
  | None => fun _ => Fault
  | Some a =>
    st_upd (fun h => Haven (hv_mem h) (hv_dev h) (hv_regs h) (hv_answers h) (hv_rings h) (hv_wakes h)
                       (hv_posted h ++ [data]) (hv_hyp h) (hv_router h)) ;;;
    on_router (endpoint_post a data)
  end.

Definition qrtr_haven_kick : HV unit :=
  let! qdev := the_dev in
  let! ret := hh_dbl_send in
  if negb (ret =? 0) then
    if negb (qd_master qdev) then upd_dev (with_work true) else st_ret tt
  else st_ret tt.

Definition qrtr_haven_retry_work : HV unit :=
  upd_dev (with_work false) ;;;
  let! _ := hh_dbl_send in
  st_ret tt.

Definition haven_set_tx_notify : HV unit :=
  let! qdev := the_dev in on_mem (store32 (pp_read_notify (qd_tx qdev)) 1).
Definition haven_clr_tx_notify : HV unit :=
  let! qdev := the_dev in on_mem (store32 (pp_read_notify (qd_tx qdev)) 0).
Definition haven_get_read_notify : HV bool :=
  let! qdev := the_dev in
  let! v := on_mem (load32 (pp_read_notify (qd_rx qdev))) in
  st_ret (negb (v =? 0)).

(** ** Sending *)

(** One piece of the packet: what is left and how much there is room for. *)
Definition send_chunk (data : list Z) (offset left_size tx_avail : Z) : HV (Z * Z) :=
  let! qdev := the_dev in
  let chunk_size := if tx_avail <? left_size then tx_avail else left_size in
  on_mem (haven_tx_write (qd_tx qdev) (take (Z.to_nat chunk_size) (drop (Z.to_nat offset) data))) ;;;
  st_ret (offset + chunk_size, left_size - chunk_size).

(** The loop of [qrtr_haven_send].  [env] is what the other side and the interrupts of this
    one do while the sender waits. *)
Fixpoint haven_send_loop (fuel : nat) (env : nat -> haven R -> haven R) (data : list Z) (offset left_size : Z)
    : HV unit :=
  match fuel with
  | O => fun _ => Loop
  | S fuel =>
    if left_size >? 0 then
      let! qdev := the_dev in
      let! tx_avail := on_mem (haven_tx_avail (qd_tx qdev)) in
      if tx_avail =? 0 then
        haven_set_tx_notify ;;;
        st_upd (env fuel) ;;;
        haven_send_loop fuel env data offset left_size
      else
        let! p := send_chunk data offset left_size tx_avail in
        qrtr_haven_kick ;;;
        haven_send_loop fuel env data p.1 p.2
    else st_ret tt
  end.

(** [lin] is the result of [skb_linearize]. *)
Definition qrtr_haven_send (fuel : nat) (env : nat -> haven R -> haven R) (lin : Z) (data : list Z) : HV Z :=
  if negb (lin =? 0) then st_ret lin else
  haven_send_loop fuel env data 0 (Z.of_nat (length data)) ;;;
  haven_clr_tx_notify ;;;
  st_ret 0.

(** ** Receiving *)

(** A run of bytes into the buffer of the ring, and the bytes of a whole packet in it. *)
Definition ring_write (offset : Z) (l : list Z) (g : haven_ring) : res haven_ring :=
  res_bind (store_bytes offset l (rg_buf g)) (fun x => Ok (HavenRing x.2 (rg_len g) (rg_offset g))).
Definition ring_packet (len : Z) (g : haven_ring) : res (list Z) :=
  res_bind (memcpy_fromio 0 len (rg_buf g)) (fun x => Ok x.1).

Definition qrtr_haven_read_new : HV unit :=
  let! qdev := the_dev in
  let! hdr := on_mem (haven_rx_peak (qd_rx qdev) 0 32) in
  let! pkt_len := st_lift (qrtr_peek_pkt_size hdr) in
  if (pkt_len <? 0) || (pkt_len >? MAX_PKT_SZ) then st_ret tt else
  let! rx_avail := on_mem (haven_rx_avail (qd_rx qdev)) in
  let rx_avail := if rx_avail >? pkt_len then pkt_len else rx_avail in
  let! data := on_mem (haven_rx_peak (qd_rx qdev) 0 rx_avail) in
  let! ring := st_lift (ring_write 0 data (qd_ring qdev)) in
  upd_dev (with_ring ring) ;;;
  on_mem (haven_rx_advance (qd_rx qdev) rx_avail) ;;;
  if rx_avail =? pkt_len then
    let! pkt := st_lift (ring_packet pkt_len ring) in
    let! _ := post pkt in
    st_ret tt
  else upd_dev (with_ring (HavenRing (rg_buf ring) pkt_len (u32 rx_avail))).

Definition qrtr_haven_read_frag : HV unit :=
  let! qdev := the_dev in
  let ring := qd_ring qdev in
  let! rx_avail := on_mem (haven_rx_avail (qd_rx qdev)) in
  let rx_avail := if rx_avail + rg_offset ring >? rg_len ring then rg_len ring - rg_offset ring else rx_avail in
  let! data := on_mem (haven_rx_peak (qd_rx qdev) 0 rx_avail) in
  let! ring := st_lift (ring_write (rg_offset ring) data ring) in
  upd_dev (with_ring ring) ;;;
  on_mem (haven_rx_advance (qd_rx qdev) rx_avail) ;;;
  if rx_avail + rg_offset ring =? rg_len ring then
    let! pkt := st_lift (ring_packet (rg_len ring) ring) in
    let! _ := post pkt in
    upd_dev (with_ring (HavenRing (rg_buf ring) 0 0))
  else upd_dev (with_ring (HavenRing (rg_buf ring) (rg_len ring) (u32 (rg_offset ring + rx_avail)))).

(** The two parts of the loop body of [qrtr_haven_read]. *)
Definition read_some : HV unit :=
  let! qdev := the_dev in
  if negb (rg_offset (qd_ring qdev) =? 0) then qrtr_haven_read_frag else qrtr_haven_read_new.

Definition read_kick : HV unit :=
  let! notify := haven_get_read_notify in
  if notify then qrtr_haven_kick else st_ret tt.

Definition read_avail : HV bool :=
  let! qdev := the_dev in
  let! avail := on_mem (haven_rx_avail (qd_rx qdev)) in
  st_ret (negb (avail =? 0)).

Fixpoint read_loop (fuel : nat) : HV unit :=
  match fuel with
  | O => fun _ => Loop
  | S fuel =>
    let! some := read_avail in
    if some then read_some ;;; read_kick ;;; read_loop fuel else st_ret tt
  end.

Definition qrtr_haven_read (fuel : nat) : HV unit := wake_up_all ;;; read_loop fuel.

Definition qrtr_haven_cb (fuel : nat) : HV unit := qrtr_haven_read fuel.

(** ** Setting up *)

(** The answers of [hyp_assign_phys], of the two allocations and of the resource manager, with
    the handle it gives out. *)
Record share_env := ShareEnv { se_assign : Z; se_acl : bool; se_sgl : bool; se_lookup : Z * Z }.

Definition qrtr_haven_share_mem (e : share_env) (self peer : Z) : HV Z :=
  let! qdev := the_dev in
  st_upd (log_hyp (HypAssign (qd_res qdev).1 (qd_res qdev).2 self peer)) ;;;
  if negb (se_assign e =? 0) then st_ret (se_assign e) else
  if negb (se_acl e) then st_ret (- ENOMEM) else
  if negb (se_sgl e) then st_ret (- ENOMEM) else
  st_upd (log_hyp (HypLookup (qd_label qdev) (u16 self) (u16 peer) (qd_res qdev).1 (qd_res qdev).2)) ;;;
  (if (se_lookup e).1 =? 0 then upd_dev (with_parcel (se_lookup e).2) else st_ret tt) ;;;
  st_ret (se_lookup e).1.

(** [vm] is the number and the status in the payload, [get_vmid] the answer for a name.  The
    result is [NOTIFY_DONE] in any case. *)
Definition qrtr_haven_rm_cb (e : share_env) (get_vmid : Z -> option Z) (cmd : Z) (vm : Z * Z) : HV unit :=
  let! qdev := the_dev in
  if negb (cmd =? HH_RM_NOTIF_VM_STATUS) then st_ret tt else
  if negb (vm.2 =? HH_RM_VM_STATUS_READY) then st_ret tt else
  match get_vmid (qd_peer_name qdev), get_vmid HH_PRIMARY_VM with
  | Some peer_vmid, Some self_vmid =>
    if negb (peer_vmid =? vm.1) then st_ret tt else
    let! _ := qrtr_haven_share_mem e self_vmid peer_vmid in
    st_ret tt
  | _, _ => st_ret tt
  end.

(** The address of a descriptor word. *)
Definition descs (base idx : Z) : Z := base + 4 * idx.

Definition pipe_0 (base : Z) : haven_pipe :=
  HavenPipe (descs base TAIL_0_IDX) (descs base HEAD_0_IDX) (descs base NOTIFY_0_IDX) (base + FIFO_0_START) FIFO_SIZE.
Definition pipe_1 (base : Z) : haven_pipe :=
  HavenPipe (descs base TAIL_1_IDX) (descs base HEAD_1_IDX) (descs base NOTIFY_1_IDX) (base + FIFO_1_START) FIFO_SIZE.

Definition qrtr_haven_fifo_init : HV unit :=
  let! qdev := the_dev in
  let base := qd_base qdev in
  (if qd_master qdev then on_mem (store_bytes base (replicate 40 0)) else st_ret tt) ;;;
  on_mem (store32 (descs base HAVEN_MAGIC_IDX) HAVEN_MAGIC_KEY) ;;;
  (if qd_master qdev then upd_dev (with_pipes (pipe_0 base) (pipe_1 base))
   else upd_dev (with_pipes (pipe_1 base) (pipe_0 base))) ;;;
  let! qdev := the_dev in
  on_mem (store32 (pp_head (qd_tx qdev)) 0) ;;;
  on_mem (store32 (pp_read_notify (qd_tx qdev)) 0) ;;;
  on_mem (store32 (pp_tail (qd_rx qdev)) 0).

(** What the device tree holds for the probe: the node of the shared buffer; the label, when it
    can be read, and the memory region of each compatible node; the extent of a node; the label
    and the peer of the device, and whether it is the master.  The results of the allocations,
    of the mapping and of the doorbells. *)
Record haven_env := HavenEnv {
  he_alloc : bool;
  he_buf : bool;
  he_label : Z + Z;
  he_master : bool;
  he_buffer : option Z;
  he_gens : list (option Z * option Z);
  he_extent : Z -> option (Z * Z);
  he_map : option Z;
  he_peer : option Z;
  he_tx_dbl : Z + Z;
  he_rx_dbl : Z + Z;
}.

(** The first compatible node with the label. *)
Fixpoint find_label (l : list (option Z * option Z)) (label : Z) : option (option Z) :=
  match l with
  | [] => None
  | (Some x, region) :: l => if x =? label then Some region else find_label l label
  | (None, _) :: l => find_label l label
  end.

Definition qrtr_haven_svm_of_parse (e : haven_env) : HV (option Z) :=
  let! qdev := the_dev in
  match find_label (he_gens e) (qd_label qdev) with
  | None => st_ret None
  | Some region => st_ret region
  end.

Definition qrtr_haven_map_memory (e : haven_env) : HV Z :=
  let! np := match he_buffer e with Some np => st_ret (Some np) | None => qrtr_haven_svm_of_parse e end in
  match np with
  | None => st_ret (- EINVAL)
  | Some np =>
    match he_extent e np with
    | None => st_ret (- EINVAL)
    | Some (start, size) =>
      match he_map e with
      | None => st_ret (- ENXIO)
      | Some base => upd_dev (with_map (start, size) base size) ;;; st_ret 0
      end
    end
  end.

(** The device after [devm_kzalloc]. *)
Definition zero_pipe : haven_pipe := HavenPipe 0 0 0 0 0.
Definition new_dev (label : Z) (master : bool) : qrtr_haven_dev :=
  HavenDev None (HavenRing (Mem 0 MAX_PKT_SZ ∅) 0 0) (0, 0) 0 0 0 master 0 label 0 0 false zero_pipe zero_pipe.

(** The part of the probe after the memory is mapped. *)
Definition haven_probe_rest (fuel : nat) (e : haven_env) : HV Z :=
  qrtr_haven_fifo_init ;;;
  let! qdev := the_dev in
  (if qd_master qdev then
     upd_dev (with_peer (default HH_SELF_VM (he_peer e))) ;;;
     st_upd (fun h => set_regs (Registrations true (tx_reg (hv_regs h)) (rx_reg (hv_regs h))) h)
   else st_ret tt) ;;;
  match he_tx_dbl e with
  | inl ret => st_ret ret
  | inr tx =>
    st_upd (fun h => set_regs (Registrations (rm_nb (hv_regs h)) true (rx_reg (hv_regs h))) h) ;;;
    upd_dev (with_links None tx 0) ;;;
    let! reg := on_router (endpoint_register QRTR_EP_NET_ID_AUTO) in
    match reg with
    | inl ret =>
      upd_dev (with_work false) ;;;
      st_upd (fun h => set_regs (Registrations (rm_nb (hv_regs h)) false (rx_reg (hv_regs h))) h) ;;;
      st_ret ret
    | inr node =>
      upd_dev (with_links (Some node) tx 0) ;;;
      match he_rx_dbl e with
      | inl ret =>
        on_router (endpoint_unregister node) ;;;
        upd_dev (with_work false) ;;;
        st_upd (fun h => set_regs (Registrations (rm_nb (hv_regs h)) false (rx_reg (hv_regs h))) h) ;;;
        st_ret ret
      | inr rx =>
        st_upd (fun h => set_regs (Registrations (rm_nb (hv_regs h)) (tx_reg (hv_regs h)) true) h) ;;;
        upd_dev (with_links (Some node) tx rx) ;;;
        let! some := read_avail in
        (if some then qrtr_haven_read fuel else st_ret tt) ;;;
        st_ret 0
      end
    end
  end.

Definition qrtr_haven_probe (fuel : nat) (e : haven_env) : HV Z :=
  if negb (he_alloc e) then st_ret (- ENOMEM) else
  st_upd (set_dev (Some (new_dev 0 false))) ;;;
  if negb (he_buf e) then st_ret (- ENOMEM) else
  match he_label e with
  | inl ret => st_ret ret
  | inr label =>
    st_upd (set_dev (Some (new_dev label (he_master e)))) ;;;
    let! ret := qrtr_haven_map_memory e in
    if negb (ret =? 0) then st_ret ret else
    haven_probe_rest fuel e
  end.

Definition qrtr_haven_remove : HV Z :=
  upd_dev (with_work false) ;;;
  st_upd (fun h => set_regs (Registrations (rm_nb (hv_regs h)) false false) h) ;;;
  st_ret 0.

(** The driver core frees the device after a failed probe and after the removal. *)
Definition probe_device (fuel : nat) (e : haven_env) : HV Z :=
  let! ret := qrtr_haven_probe fuel e in
  if negb (ret =? 0) then st_upd (set_dev None) ;;; st_ret ret else st_ret ret.
Definition remove_device : HV Z :=
  let! ret := qrtr_haven_remove in
  st_upd (set_dev None) ;;;
  st_ret ret.
End transport.

