(* ===== verification/HavenFifo.v ===== *)
(** * A ring of bytes as a queue

    The part of a ring between tail and head is a queue of bytes: the writer appends to it,
    the reader takes from its front, and each touches only its own words and bytes. *)
From S2P Require Import Prelude CMem QrtrNs QrtrRouter QrtrEndpoint QrtrHaven.
Open Scope c_scope.

(** ** Pipes *)
Record pipe_ok (m : mem) (p : haven_pipe) : Prop := {
  po_length : FIFO_FULL_RESERVE < pp_length p < 2 ^ 31;
  po_fifo : m_base m <= pp_fifo p /\ pp_fifo p + pp_length p <= m_base m + m_size m;
  po_tail : m_base m <= pp_tail p /\ pp_tail p + 4 <= pp_fifo p;
  po_head : m_base m <= pp_head p /\ pp_head p + 4 <= pp_fifo p;
  po_notify : m_base m <= pp_read_notify p /\ pp_read_notify p + 4 <= pp_fifo p;
  po_apart : pp_tail p + 4 <= pp_head p \/ pp_head p + 4 <= pp_tail p;
}.

(** The queue of bytes in a pipe. *)
Record holds (m : mem) (p : haven_pipe) (q : list Z) : Prop := {
  ho_tail : rd32 m (pp_tail p) < pp_length p;
  ho_head : rd32 m (pp_head p) = (rd32 m (pp_tail p) + Z.of_nat (length q)) mod pp_length p;
  ho_room : Z.of_nat (length q) <= pp_length p - FIFO_FULL_RESERVE;
  ho_bytes : q = ring_bytes m (pp_fifo p) (pp_length p) (rd32 m (pp_tail p)) (length q);
}.

Definition room (p : haven_pipe) (q : list Z) : Z := pp_length p - FIFO_FULL_RESERVE - Z.of_nat (length q).

Definition fifo_of (p : haven_pipe) : Z -> Prop := run_of (pp_fifo p) (pp_length p).
(** What the writer of a pipe changes, and what its reader changes. *)
Definition tx_part (p : haven_pipe) (c : Z) : Prop := word (pp_head p) c \/ fifo_of p c.
Definition rx_part (p : haven_pipe) (c : Z) : Prop := word (pp_tail p) c.
Definition whole (p : haven_pipe) (c : Z) : Prop := tx_part p c \/ rx_part p c.

Lemma pipe_ok_same m m' p : m_base m' = m_base m -> m_size m' = m_size m -> pipe_ok m p -> pipe_ok m' p.
Proof. intros E1 E2 [? ? ? ? ? ?]. constructor; rewrite ?E1, ?E2; done. Qed.

(** A change elsewhere leaves the queue. *)
Lemma holds_changed P m m' p q : pipe_ok m p -> changed P m m' -> (forall c, whole p c -> ~ P c) ->
  holds m p q -> holds m' p q.
Proof.
  intros Ok C HP [H1 H2 H3 H4].
  assert (Et : rd32 m' (pp_tail p) = rd32 m (pp_tail p)) by (apply (rd32_changed P); [done|]; intros c Hc; apply HP; by right).
  assert (Eh : rd32 m' (pp_head p) = rd32 m (pp_head p)) by (apply (rd32_changed P); [done|]; intros c Hc; apply HP; by left; left).
  constructor; rewrite ?Et, ?Eh; try done. rewrite H4 at 1. apply list_fmap_ext. intros _ i _. symmetry.
  apply (ch_byte _ _ _ C), HP. left; right. pose proof (po_length _ _ Ok). unfold FIFO_FULL_RESERVE in *.
  pose proof (Z.mod_pos_bound (rd32 m (pp_tail p) + Z.of_nat i) (pp_length p)). unfold fifo_of, run_of. lia.
Qed.

(** ** The operations *)
Section ops.
Context (m : mem) (p : haven_pipe) (q : list Z).
Hypothesis (Ok_ : pipe_ok m p) (Q : holds m p q).

Lemma tail_ok : load32 (pp_tail p) m = Ok (rd32 m (pp_tail p), m).
Proof. pose proof Ok_ as [? ? ? ? ? ?]. apply load_ok; unfold FIFO_FULL_RESERVE in *; lia. Qed.
Lemma head_ok : load32 (pp_head p) m = Ok (rd32 m (pp_head p), m).
Proof. pose proof Ok_ as [? ? ? ? ? ?]. apply load_ok; unfold FIFO_FULL_RESERVE in *; lia. Qed.

(** Where the head is. *)
Lemma head_cases : let t := rd32 m (pp_tail p) in let h := rd32 m (pp_head p) in
  0 <= t < pp_length p /\ 0 <= h < pp_length p /\
  (h = t + Z.of_nat (length q) \/ h < t /\ h = t + Z.of_nat (length q) - pp_length p).
Proof.
  cbv zeta. pose proof (po_length _ _ Ok_) as Hl. pose proof Q as [H1 H2 H3 _]. pose proof (rd32_range m (pp_tail p)).
  unfold FIFO_FULL_RESERVE in *. split; [lia|]. rewrite H2. split; [apply Z.mod_pos_bound; lia|].
  destruct (decide (rd32 m (pp_tail p) + Z.of_nat (length q) < pp_length p)).
  - left. apply Z.mod_small. lia.
  - right. assert (E : (rd32 m (pp_tail p) + Z.of_nat (length q)) mod pp_length p =
      rd32 m (pp_tail p) + Z.of_nat (length q) - pp_length p) by (symmetry; apply Z.mod_unique with (q := 1); lia).
    rewrite E. lia.
Qed.

Lemma rx_avail_ok : haven_rx_avail p m = Ok (Z.of_nat (length q), m).
Proof.
  unfold haven_rx_avail. rewrite (st_bind_ok _ _ _ _ _ head_ok), (st_bind_ok _ _ _ _ _ tail_ok).
  destruct head_cases as (Ht&Hh&Hc). pose proof (po_length _ _ Ok_) as Hl. pose proof (ho_room _ _ _ Q).
  unfold FIFO_FULL_RESERVE in *. unfold st_ret. do 2 f_equal.
  destruct (rd32 m (pp_head p) <? rd32 m (pp_tail p)) eqn:E; [rewrite u64_id by lia|]; case_if; lia.
Qed.

Lemma tx_avail_ok : haven_tx_avail p m = Ok (room p q, m).
Proof.
  unfold haven_tx_avail, room. rewrite (st_bind_ok _ _ _ _ _ head_ok), (st_bind_ok _ _ _ _ _ tail_ok).
  destruct head_cases as (Ht&Hh&Hc). pose proof (po_length _ _ Ok_) as Hl. pose proof (ho_room _ _ _ Q).
  unfold FIFO_FULL_RESERVE in *. unfold st_ret. do 2 f_equal.
  destruct (rd32 m (pp_tail p) <=? rd32 m (pp_head p)) eqn:E; [rewrite u32_id by lia|]; case_if; lia.
Qed.

Lemma memcpy_ok a n : m_base m <= a -> a + n <= m_base m + m_size m ->
  memcpy_fromio a n m = Ok (bytes_at m a (Z.to_nat n), m).
Proof. intros. unfold memcpy_fromio, in_range. by replace ((_ <=? _) && _) with true by lia. Qed.

(** The next [n] bytes of the ring, whether they are in the queue or not. *)
Lemma rx_peak_ring n : 0 <= n <= pp_length p ->
  haven_rx_peak p 0 n m = Ok (ring_bytes m (pp_fifo p) (pp_length p) (rd32 m (pp_tail p)) (Z.to_nat n), m).
Proof.
  intros Hn. unfold haven_rx_peak. rewrite (st_bind_ok _ _ _ _ _ tail_ok).
  destruct head_cases as (Ht&_&_). pose proof Ok_ as [Hl Hf _ _ _ _]. unfold FIFO_FULL_RESERVE in *.
  set (t := rd32 m (pp_tail p)) in *. rewrite Z.add_0_r, u32_id by lia. replace (t >=? pp_length p) with false by lia.
  rewrite u64_id by lia. pose proof (ring_split m (pp_fifo p) (pp_length p) t (Z.to_nat n) Ht ltac:(lia)) as S.
  cbv zeta in S. rewrite Z2Nat.id in S by lia. set (k := Z.min n (pp_length p - t)) in *.
  assert (E : (if negb (k =? 0) then memcpy_fromio (pp_fifo p + t) k else st_ret []) m =
    Ok (bytes_at m (pp_fifo p + t) (Z.to_nat k), m)).
  { case_if; [apply memcpy_ok; lia|]. unfold st_ret. by replace k with 0 by lia. }
  rewrite (st_bind_ok _ _ _ _ _ E), <-S. case_if.
  - rewrite (st_bind_ok _ _ _ _ _ (memcpy_ok (pp_fifo p) (n - k) ltac:(lia) ltac:(lia))). unfold st_ret.
    by rewrite Z2Nat.inj_sub by lia.
  - unfold st_ret. replace (Z.to_nat n - Z.to_nat k)%nat with 0%nat by lia. by rewrite bytes_at_0, app_nil_r.
Qed.

Lemma rx_peak_ok n : 0 <= n <= Z.of_nat (length q) -> haven_rx_peak p 0 n m = Ok (take (Z.to_nat n) q, m).
Proof.
  intros Hn. pose proof (ho_room _ _ _ Q). pose proof Ok_ as [Hl _ _ _ _ _]. unfold FIFO_FULL_RESERVE in *.
  rewrite rx_peak_ring by lia. rewrite (ho_bytes _ _ _ Q), ring_bytes_take by lia. done.
Qed.

(** A look beyond the queue sees the queue and then something. *)
Lemma rx_peak_more n : 0 <= n <= pp_length p ->
  exists l, haven_rx_peak p 0 n m = Ok (take (Z.to_nat n) (q ++ l), m) /\ (Z.to_nat n <= length (q ++ l))%nat.
Proof.
  intros Hn. rewrite rx_peak_ring by done. set (t := rd32 m (pp_tail p)).
  set (r := ring_bytes m (pp_fifo p) (pp_length p) t (length q + Z.to_nat n)).
  assert (E : q ++ drop (length q) r = r).
  { rewrite <-(take_drop (length q) r) at 2. f_equal. unfold r. rewrite ring_bytes_take by lia. apply (ho_bytes _ _ _ Q). }
  exists (drop (length q) r). rewrite E. unfold r. rewrite length_ring_bytes. split; [|lia].
  rewrite ring_bytes_take by lia. done.
Qed.

Lemma rx_advance_ok n : 0 <= n <= Z.of_nat (length q) -> exists m',
  haven_rx_advance p n m = Ok (tt, m') /\ changed (rx_part p) m m' /\ holds m' p (drop (Z.to_nat n) q).
Proof.
  intros Hn. unfold haven_rx_advance. rewrite (st_bind_ok _ _ _ _ _ tail_ok).
  destruct head_cases as (Ht&_&_). pose proof (ho_room _ _ _ Q). pose proof (po_length _ _ Ok_) as Hl. unfold FIFO_FULL_RESERVE in *.
  set (t := rd32 m (pp_tail p)) in *. rewrite (u32_id (t + n)) by lia.
  assert (E : (if t + n >=? pp_length p then (t + n) mod pp_length p else t + n) = (t + n) mod pp_length p)
    by (case_if; [done|symmetry; apply Z.mod_small; lia]).
  rewrite E. pose proof (Z.mod_pos_bound (t + n) (pp_length p) ltac:(lia)) as Hm.
  eexists. split; [apply store_ok; pose proof Ok_ as [? ? ? ? ? ?]; lia|].
  split; [apply changed_store; by intros c Hc|].
  assert (Eh : rd32 (wr32 m (pp_tail p) ((t + n) mod pp_length p)) (pp_head p) = rd32 m (pp_head p)).
  { apply le_load_store_disj. destruct (po_apart _ _ Ok_); lia. }
  assert (Et : rd32 (wr32 m (pp_tail p) ((t + n) mod pp_length p)) (pp_tail p) = (t + n) mod pp_length p)
    by (rewrite rd32_wr32; apply u32_id; lia).
  constructor; rewrite ?Eh, ?Et, ?length_drop.
  - lia.
  - rewrite (ho_head _ _ _ Q). fold t. rewrite Zplus_mod_idemp_l. f_equal. lia.
  - unfold FIFO_FULL_RESERVE. lia.
  - rewrite (ho_bytes _ _ _ Q) at 1. fold t. rewrite ring_bytes_drop by lia. rewrite Z2Nat.id by lia.
    apply list_fmap_ext. intros _ i _. symmetry. apply get_byte_store.
    pose proof (Z.mod_pos_bound ((t + n) mod pp_length p + Z.of_nat i) (pp_length p) ltac:(lia)).
    pose proof (po_tail _ _ Ok_). lia.
Qed.

(** What the ring holds afterwards. *)
(** What the ring holds after a write. *)
Lemma written d v : Forall (fun b => 0 <= b < 256) d -> Z.of_nat (length d) <= room p q ->
  q ++ d = ring_bytes (wr32 (ring_put m (pp_fifo p) (pp_length p) (rd32 m (pp_head p)) d) (pp_head p) v) (pp_fifo p) (pp_length p)
             (rd32 m (pp_tail p)) (length q + length d).
Proof.
  intros Hd Hroom. unfold room in Hroom. destruct head_cases as (Ht&_&_). pose proof (po_length _ _ Ok_) as Hl.
  pose proof (po_head _ _ Ok_). unfold FIFO_FULL_RESERVE in *. rewrite (ring_bytes_agree (ring_put m (pp_fifo p) (pp_length p) (rd32 m (pp_head p)) d)).
  - rewrite (ho_head _ _ _ Q). apply ring_written; [done|done|lia|apply (ho_bytes _ _ _ Q)].
  - lia.
  - intros c Hc. apply get_byte_store. unfold run_of in Hc. lia.
Qed.

Lemma tx_write_ok d : Forall (fun b => 0 <= b < 256) d -> Z.of_nat (length d) <= room p q -> exists m',
  haven_tx_write p d m = Ok (tt, m') /\ changed (tx_part p) m m' /\ holds m' p (q ++ d).
Proof.
  intros Hd Hroom. unfold haven_tx_write. rewrite (st_bind_ok _ _ _ _ _ head_ok).
  destruct head_cases as (Ht&Hh&_). unfold room in Hroom. pose proof (ho_room _ _ _ Q). pose proof (po_length _ _ Ok_) as Hl.
  pose proof (po_fifo _ _ Ok_). unfold FIFO_FULL_RESERVE in *.
  set (h := rd32 m (pp_head p)) in *. set (t := rd32 m (pp_tail p)) in *. rewrite u64_id by lia.
  set (k := Z.min (Z.of_nat (length d)) (pp_length p - h)).
  set (m1 := put_bytes m (pp_fifo p + h) (take (Z.to_nat k) d)).
  assert (E1 : (if negb (k =? 0) then store_bytes (pp_fifo p + h) (take (Z.to_nat k) d) else st_ret tt) m = Ok (tt, m1)).
  { case_if; [apply store_bytes_ok; rewrite ?length_take; lia|]. unfold m1, st_ret. by replace k with 0 by lia. }
  assert (E2 : (if negb (k =? Z.of_nat (length d)) then store_bytes (pp_fifo p) (drop (Z.to_nat k) d) else st_ret tt) m1 =
    Ok (tt, ring_put m (pp_fifo p) (pp_length p) h d)).
  { destruct (put_bytes_frame (take (Z.to_nat k) d) m (pp_fifo p + h)) as [F1 F2]. fold m1 in F1, F2.
    case_if; [apply store_bytes_ok; rewrite ?length_drop, ?F1, ?F2; lia|].
    unfold ring_put, st_ret. fold k m1. rewrite (drop_ge d) by lia. done. }
  rewrite (st_bind_ok _ _ _ _ _ E1), (st_bind_ok _ _ _ _ _ E2).
  set (h' := if u32 (h + Z.of_nat (length d)) >=? pp_length p then u32 (u32 (h + Z.of_nat (length d)) - pp_length p)
             else u32 (h + Z.of_nat (length d))).
  assert (Eh : h' = (h + Z.of_nat (length d)) mod pp_length p).
  { unfold h'. rewrite u32_id by lia. case_if.
    - rewrite u32_id by lia. apply Z.mod_unique with (q := 1); lia.
    - symmetry. apply Z.mod_small. lia. }
  pose proof (Z.mod_pos_bound (h + Z.of_nat (length d)) (pp_length p) ltac:(lia)) as Hm. rewrite <-Eh in Hm.
  pose proof (ring_put_changed m (pp_fifo p) (pp_length p) h d ltac:(lia) ltac:(lia)) as C. pose proof (po_head _ _ Ok_). pose proof (po_tail _ _ Ok_).
  eexists. split; [apply store_ok; rewrite (ch_base _ _ _ C), ?(ch_size _ _ _ C); lia|].
  assert (C' : changed (tx_part p) m (wr32 (ring_put m (pp_fifo p) (pp_length p) h d) (pp_head p) h')).
  { destruct (changed_store (word (pp_head p)) (ring_put m (pp_fifo p) (pp_length p) h d) (pp_head p) h') as [F1 F2 F3]; [done|]. destruct C as [G1 G2 G3].
    constructor; [congruence..|]. intros c Hc. unfold tx_part in Hc. rewrite F3, G3 by tauto. done. }
  split; [exact C'|].
  assert (Et : rd32 (wr32 (ring_put m (pp_fifo p) (pp_length p) h d) (pp_head p) h') (pp_tail p) = t).
  { apply (rd32_changed (tx_part p) m); [exact C'|]. unfold tx_part, word, fifo_of, run_of. pose proof (po_apart _ _ Ok_). lia. }
  constructor; rewrite ?Et, ?rd32_wr32, ?(u32_id h'), ?length_app by lia.
  - lia.
  - rewrite Eh. unfold h. rewrite (ho_head _ _ _ Q). fold t. rewrite Zplus_mod_idemp_l. f_equal. lia.
  - unfold FIFO_FULL_RESERVE. lia.
  - apply written; done.
Qed.
End ops.
