(* ===== verification/HavenLink.v ===== *)
(** * Two machines on one shared region

    The sender and the reader of each machine take turns in any order, in the steps between
    which the code gives up nothing: a look at the indices, one piece of a packet, a doorbell.
    What the reader posts is what the other machine sent, whole and in order. *)
From S2P Require Import Prelude CMem QrtrNs QrtrRouter QrtrPacket QrtrEndpoint QrtrHaven HavenFifo.
Open Scope c_scope.

(** ** Packets *)

(** The part of a packet that tells its size. *)
Definition HEADER : nat := 24.

(** The size is found in any run of bytes that starts with the header. *)
Record framed (p : list Z) : Prop := {
  fr_bytes : Forall (fun b => 0 <= b < 256) p;
  fr_size : Z.of_nat HEADER <= Z.of_nat (length p) <= MAX_PKT_SZ;
  fr_peek k t : (HEADER <= k)%nat -> (32 <= length (take k p ++ t))%nat ->
    qrtr_peek_pkt_size (take 32 (take k p ++ t)) = Ok (Z.of_nat (length p));
}.

(** ** Two machines *)

(** Where the sender of a machine is, with its packet and how much of it is written. *)
Inductive writer :=
| WIdle
| WSend (p : list Z) (off : nat)
| WKick (p : list Z) (off : nat)
| WNotify (p : list Z) (off : nat)
| WCheck (p : list Z) (off : nat)
| WAsleep (p : list Z) (off : nat).

(** Where its reader is: waiting for a doorbell, at the head of the loop, or before the look at
    the notification word. *)
Inductive reader := RIdle | RLoop | RKick.

Record machine (R : Type) := Machine {
  mc : haven R;
  mc_w : writer;
  mc_r : reader;
  mc_rung : bool;
  mc_sent : list (list Z);
}.
Arguments Machine {R}.
Arguments mc {R}.
Arguments mc_w {R}.
Arguments mc_r {R}.
Arguments mc_rung {R}.
Arguments mc_sent {R}.

(** The shared region and the machines, the master first. *)
Record net (R : Type) := Net { n_mem : mem; n_master : machine R; n_slave : machine R }.
Arguments Net {R}.
Arguments n_mem {R}.
Arguments n_master {R}.
Arguments n_slave {R}.

Definition side {R} (n : net R) (b : bool) : machine R := if b then n_master n else n_slave n.
Definition put {R} (n : net R) (b : bool) (x : machine R) : net R :=
  if b then Net (n_mem n) x (n_slave n) else Net (n_mem n) (n_master n) x.
Definition put_mem {R} (m : mem) (n : net R) : net R := Net m (n_master n) (n_slave n).

Definition set_w {R} (w : writer) (x : machine R) : machine R := Machine (mc x) w (mc_r x) (mc_rung x) (mc_sent x).
Definition set_r {R} (r : reader) (x : machine R) : machine R := Machine (mc x) (mc_w x) r (mc_rung x) (mc_sent x).
Definition set_rung {R} (g : bool) (x : machine R) : machine R := Machine (mc x) (mc_w x) (mc_r x) g (mc_sent x).
Definition set_mc {R} (h : haven R) (x : machine R) : machine R := Machine h (mc_w x) (mc_r x) (mc_rung x) (mc_sent x).

Section link.
Context {R : Type} `{EndpointLaws R}.

(** Runs code on a machine, on the shared region; a doorbell that was raised is pending at the
    other one. *)
Definition at_ (n : net R) (b : bool) : haven R := set_mem (n_mem n) (mc (side n b)).
Definition back (n : net R) (b : bool) (h : haven R) : net R :=
  let n1 := put_mem (hv_mem h) (put n b (set_mc h (side n b))) in
  if (hv_rings (mc (side n b)) <? hv_rings h)%nat
  then put n1 (negb b) (set_rung true (side n1 (negb b))) else n1.

(** The sender is woken when it waits. *)
Definition woken (w : writer) : writer :=
  match w with WAsleep p off => WCheck p off | _ => w end.

(** The steps of a machine that need nothing from outside. *)
Inductive move (b : bool) (n : net R) : net R -> Prop :=
| move_done p h : mc_w (side n b) = WSend p (length p) ->
    haven_clr_tx_notify (at_ n b) = Ok (tt, h) ->
    move b n (back (put n b (set_w WIdle (side n b))) b h)
| move_full p off d h : mc_w (side n b) = WSend p off -> (off < length p)%nat ->
    hv_dev (at_ n b) = Some d -> on_mem (haven_tx_avail (qd_tx d)) (at_ n b) = Ok (0, h) ->
    move b n (back (put n b (set_w (WNotify p off) (side n b))) b h)
| move_chunk p off d avail h1 off' left' h : mc_w (side n b) = WSend p off -> (off < length p)%nat ->
    hv_dev (at_ n b) = Some d -> on_mem (haven_tx_avail (qd_tx d)) (at_ n b) = Ok (avail, h1) -> avail <> 0 ->
    send_chunk p (Z.of_nat off) (Z.of_nat (length p - off)) avail h1 = Ok ((off', left'), h) ->
    move b n (back (put n b (set_w (WKick p (Z.to_nat off')) (side n b))) b h)
| move_kick p off h : mc_w (side n b) = WKick p off -> qrtr_haven_kick (at_ n b) = Ok (tt, h) ->
    move b n (back (put n b (set_w (WSend p off) (side n b))) b h)
| move_notify p off h : mc_w (side n b) = WNotify p off -> haven_set_tx_notify (at_ n b) = Ok (tt, h) ->
    move b n (back (put n b (set_w (WCheck p off) (side n b))) b h)
| move_check p off d avail h : mc_w (side n b) = WCheck p off -> hv_dev (at_ n b) = Some d ->
    on_mem (haven_tx_avail (qd_tx d)) (at_ n b) = Ok (avail, h) ->
    move b n (back (put n b (set_w (if avail =? 0 then WAsleep p off else WSend p off) (side n b))) b h)
| move_ring h : mc_rung (side n b) = true -> mc_r (side n b) = RIdle -> wake_up_all (at_ n b) = Ok (tt, h) ->
    move b n (back (put n b (set_rung false (set_r RLoop (set_w (woken (mc_w (side n b))) (side n b))))) b h)
| move_empty h : mc_r (side n b) = RLoop -> read_avail (at_ n b) = Ok (false, h) ->
    move b n (back (put n b (set_r RIdle (side n b))) b h)
| move_read h1 h : mc_r (side n b) = RLoop -> read_avail (at_ n b) = Ok (true, h1) ->
    read_some h1 = Ok (tt, h) ->
    move b n (back (put n b (set_r RKick (side n b))) b h)
| move_read_kick h : mc_r (side n b) = RKick -> read_kick (at_ n b) = Ok (tt, h) ->
    move b n (back (put n b (set_r RLoop (side n b))) b h).

(** The rest of the world: a packet to send, of a size the reader takes, the end of a wait by
    time, the work that retries a doorbell, and anything that happens to the router. *)
Inductive input (b : bool) (n : net R) : net R -> Prop :=
| input_send p x : mc_w (side n b) = WIdle -> framed p -> ep_packet p ->
    x = Machine (mc (side n b)) (WSend p 0) (mc_r (side n b)) (mc_rung (side n b)) (mc_sent (side n b) ++ [p]) ->
    input b n (put n b x)
| input_timeout p off : mc_w (side n b) = WAsleep p off ->
    input b n (put n b (set_w (WSend p off) (side n b)))
| input_retry d h : hv_dev (at_ n b) = Some d -> qd_work d = true ->
    qrtr_haven_retry_work (at_ n b) = Ok (tt, h) -> input b n (back n b h)
| input_router d a r h : hv_dev (at_ n b) = Some d -> qd_node d = Some a -> ep_ok r a ->
    h = Haven (n_mem n) (hv_dev (at_ n b)) (hv_regs (at_ n b)) (hv_answers (at_ n b)) (hv_rings (at_ n b))
          (hv_wakes (at_ n b)) (hv_posted (at_ n b)) (hv_hyp (at_ n b)) r ->
    input b n (put n b (set_mc h (side n b))).

Definition step (n n' : net R) : Prop := exists b, move b n n' \/ input b n n'.

(** ** The stream of packets in one direction *)

Definition pkt_of (w : writer) : option (list Z * nat) :=
  match w with
  | WIdle => None
  | WSend p off | WKick p off | WNotify p off | WCheck p off | WAsleep p off => Some (p, off)
  end.

(** What is not written yet. *)
Definition unsent (w : writer) : list Z := match pkt_of w with Some (p, off) => drop off p | None => [] end.

(** The part of a packet in the reader's buffer. *)
Definition got (g : haven_ring) : list Z := bytes_at (rg_buf g) 0 (Z.to_nat (rg_offset g)).

(** The bytes of the packets not posted yet are in the buffer, in the queue, and with the
    sender; the queue [f] starts at the header of a packet, or the buffer holds its start. *)
Record stream (f : list Z) (w : writer) (sent : list (list Z)) (g : haven_ring) (posted : list (list Z)) : Prop := {
  st_sent : Forall (fun p => framed p /\ ep_packet p) sent;
  st_writer p off : pkt_of w = Some (p, off) ->
    (off <= length p)%nat /\ last sent = Some p;
  st_queue : exists q, sent = posted ++ q /\ concat q = got g ++ f ++ unsent w /\
    (rg_offset g = 0 \/ exists p q', q = p :: q' /\ rg_len g = Z.of_nat (length p) /\ 0 < rg_offset g < Z.of_nat (length p));
}.

Lemma stream_same f w w' sent g posted : pkt_of w' = pkt_of w -> stream f w sent g posted -> stream f w' sent g posted.
Proof. intros E [S1 S2 S3]. constructor; [done|by rewrite E|]. unfold unsent. by rewrite E. Qed.

Lemma stream_done f w p sent g posted : pkt_of w = Some (p, length p) -> stream f w sent g posted ->
  stream f WIdle sent g posted.
Proof.
  intros E [S1 _ S3]. constructor; [done|done|]. unfold unsent in *. rewrite E in S3.
  rewrite drop_ge in S3 by lia. exact S3.
Qed.

Lemma stream_submit f p sent g posted : framed p -> ep_packet p -> stream f WIdle sent g posted ->
  stream f (WSend p 0) (sent ++ [p]) g posted.
Proof.
  intros Hp Hp' [S1 _ (q&E1&E2&E3)]. constructor.
  - by apply Forall_app; split; [|apply Forall_singleton].
  - intros p' off [= <- <-]. split; [lia|apply last_snoc].
  - exists (q ++ [p]). split; [by rewrite E1, app_assoc|]. split.
    + rewrite concat_app, E2. cbn. by rewrite !app_nil_r, <-!app_assoc.
    + destruct E3 as [E3|(p'&q'&->&?&?)]; [by left|]. right. by exists p', (q' ++ [p]).
Qed.

Lemma stream_write f w w' p off c sent g posted : pkt_of w = Some (p, off) -> pkt_of w' = Some (p, (off + c)%nat) ->
  (off + c <= length p)%nat ->
  stream f w sent g posted -> stream (f ++ take c (drop off p)) w' sent g posted.
Proof.
  intros E E' Hc [S1 S2 (q&E1&E2&E3)]. constructor; [done| |].
  - rewrite E'. intros p' off' [= <- <-]. by destruct (S2 p off E).
  - exists q. split; [done|]. split; [|done]. rewrite E2. unfold unsent. rewrite E, E', <-app_assoc.
    by rewrite <-(drop_drop p c off), take_drop.
Qed.

(** A queue that starts inside the stream and is shorter than the packet it starts with is the
    written part of the sender's packet. *)
Lemma stream_short f w sent g posted p q' : stream f w sent g posted -> (length f < length p)%nat ->
  sent = posted ++ p :: q' -> p ++ concat q' = f ++ unsent w -> pkt_of w = Some (p, length f) /\ f = take (length f) p.
Proof.
  intros [_ S2 _] Hpf Es Ec. unfold unsent in Ec. destruct (pkt_of w) as [[p0 off]|] eqn:Ew.
  2: { apply (f_equal length) in Ec. rewrite !length_app in Ec. cbn in Ec. lia. }
  destruct (S2 p0 off eq_refl) as (Ho&Hlast). rewrite Es, last_app_cons in Hlast. destruct q' as [|x q']; cbn in Hlast.
  - injection Hlast as <-. cbn in Ec. rewrite app_nil_r in Ec.
    pose proof (f_equal length Ec) as El. rewrite length_app, length_drop in El.
    assert (off = length f) as -> by lia. split; [done|].
    apply (f_equal (take (length f))) in Ec. by rewrite take_app_length in Ec.
  - apply (f_equal length) in Ec. rewrite !length_app, length_drop in Ec.
    assert (Hin : p0 ∈ x :: q') by (by apply last_Some_elem_of).
    assert (length p0 <= length (concat (x :: q')))%nat; [|lia].
    clear -Hin. induction Hin; cbn [concat]; rewrite length_app; lia.
Qed.

(** The header of the next packet is in the queue. *)
Lemma stream_header f w sent g posted p q' : stream f w sent g posted -> (HEADER <= length f)%nat ->
  sent = posted ++ p :: q' -> p ++ concat q' = f ++ unsent w -> framed p ->
  forall l, (32 <= length (f ++ l))%nat -> qrtr_peek_pkt_size (take 32 (f ++ l)) = Ok (Z.of_nat (length p)).
Proof.
  intros S Hf Es Ec Hp l Hl. destruct (decide (length p <= length f)%nat) as [Hpf|Hpf].
  - assert (E : f = p ++ drop (length p) f).
    { apply (f_equal (take (length p))) in Ec. rewrite take_app_length, take_app_le in Ec by lia.
      rewrite <-(take_drop (length p) f) at 1. by rewrite <-Ec. }
    rewrite E, <-app_assoc in Hl |- *. pose proof (fr_peek _ Hp (HEADER + length p)%nat) as Hk.
    rewrite take_ge in Hk by lia. apply Hk; [unfold HEADER; lia|done].
  - destruct (stream_short f w sent g posted p q' S ltac:(lia) Es Ec) as [_ E].
    rewrite E in Hl |- *. by apply fr_peek.
Qed.

(** What the reader takes in one round: the packet it works on, and how much of it. *)
Record reading (f : list Z) (w : writer) (sent : list (list Z)) (g : haven_ring) (posted : list (list Z))
    (p : list Z) : Prop := {
  re_ok : framed p /\ ep_packet p;
  re_offset : 0 <= rg_offset g < Z.of_nat (length p);
  re_len : rg_offset g <> 0 -> rg_len g = Z.of_nat (length p);
  re_header : rg_offset g = 0 -> forall l, (32 <= length (f ++ l))%nat ->
    qrtr_peek_pkt_size (take 32 (f ++ l)) = Ok (Z.of_nat (length p));
  re_whole k : rg_offset g + Z.of_nat k = Z.of_nat (length p) -> (k <= length f)%nat ->
    got g ++ take k f = p /\ forall g', rg_offset g' = 0 -> stream (drop k f) w sent g' (posted ++ [p]);
  re_part g' : rg_offset g + Z.of_nat (length f) < Z.of_nat (length p) ->
    rg_offset g' = rg_offset g + Z.of_nat (length f) -> rg_len g' = Z.of_nat (length p) -> got g' = got g ++ f ->
    stream [] w sent g' posted;
}.

Lemma length_got g : 0 <= rg_offset g -> Z.of_nat (length (got g)) = rg_offset g.
Proof. intros Hg. unfold got. rewrite length_bytes_at. lia. Qed.

Lemma stream_read f w sent g posted : stream f w sent g posted -> f <> [] ->
  (rg_offset g = 0 -> (HEADER <= length f)%nat) -> exists p, reading f w sent g posted p.
Proof.
  intros S Hf Hh. pose proof S as [S1 S2 (q&E1&E2&E3)].
  assert (Hq : exists p q', q = p :: q').
  { destruct q as [|p q']; [|by exists p, q']. symmetry in E2. cbn in E2. apply app_eq_nil in E2 as [_ E2].
    by apply app_eq_nil in E2 as [-> _]. }
  destruct Hq as (p&q'&->). exists p. cbn in E2.
  assert (Hp : framed p /\ ep_packet p).
  { rewrite E1, Forall_app, Forall_cons in S1. tauto. }
  assert (Ho : 0 <= rg_offset g < Z.of_nat (length p)).
  { pose proof (fr_size _ (proj1 Hp)). unfold HEADER in *. destruct E3 as [->|(?&?&[= <- <-]&_&?)]; lia. }
  pose proof (length_got g ltac:(lia)) as Lg. constructor; [done|done|..].
  - intros Hz. by destruct E3 as [?|(?&?&[= <- <-]&?&_)].
  - intros Hz. apply (stream_header f w sent g posted p q'); try done; [by apply Hh| |apply Hp].
    rewrite E2. unfold got. by rewrite Hz.
  - intros k Hk Hkf.
    assert (E4 : p = got g ++ take k f /\ concat q' = drop k f ++ unsent w).
    { rewrite <-(take_drop k f), <-app_assoc, app_assoc in E2.
      apply app_inj_1 in E2; [done|]. rewrite length_app, length_take. lia. }
    destruct E4 as [E4 E5]. split; [done|]. intros g' Hg'. constructor; [done|done|].
    exists q'. split; [by rewrite E1, <-app_assoc|]. split; [|by left]. rewrite E5. unfold got. by rewrite Hg'.
  - intros g' Hlt Ho' Hl' Hgot. constructor; [done|done|]. exists (p :: q'). split; [done|].
    split; [cbn; by rewrite Hgot, E2, <-app_assoc|]. right. exists p, q'. split_and!; try done; [|lia].
    assert (0 < length f)%nat by (destruct f; cbn; [done|lia]). lia.
Qed.
End link.
