(* ===== verification/HavenSafe.v ===== *)
(** * Nothing is lost between the machines

    Each piece of the transport as a function on the state of its machine, and the invariant of
    two machines on a shared region: both queues are well formed, and the packets of each
    direction are a stream. *)
From S2P Require Import Prelude CMem QrtrNs QrtrRouter QrtrPacket QrtrEndpoint QrtrHaven HavenFifo HavenLink.
Open Scope c_scope.

Definition pipe_of (base : Z) (b : bool) : haven_pipe := if b then pipe_0 base else pipe_1 base.

(** The region is mapped and large enough for both queues. *)
Definition region_ok (base : Z) (m : mem) : Prop := m_base m = base /\ FIFO_1_START + FIFO_SIZE <= m_size m.

Ltac layout := unfold pipe_of, pipe_0, pipe_1, descs, FIFO_1_START, FIFO_0_START, FIFO_SIZE, FIFO_FULL_RESERVE,
  TAIL_0_IDX, HEAD_0_IDX, TAIL_1_IDX, HEAD_1_IDX, NOTIFY_0_IDX, NOTIFY_1_IDX, HAVEN_MAGIC_IDX in *;
  cbn [pp_tail pp_head pp_read_notify pp_fifo pp_length] in *.

Lemma pipe_of_ok base b m : region_ok base m -> pipe_ok m (pipe_of base b).
Proof. intros [E1 E2]. destruct b; constructor; layout; lia. Qed.

Lemma pipe_length base b : pp_length (pipe_of base b) = FIFO_SIZE.
Proof. by destruct b. Qed.

(** The words and bytes a machine writes. *)
Definition tx_words (base : Z) (b : bool) (c : Z) : Prop :=
  tx_part (pipe_of base b) c \/ word (pp_read_notify (pipe_of base b)) c.
Definition rx_words (base : Z) (b : bool) (c : Z) : Prop := rx_part (pipe_of base (negb b)) c.

Lemma tx_apart base b c : whole (pipe_of base (negb b)) c -> ~ tx_words base b c.
Proof. unfold whole, tx_words, tx_part, rx_part, word, fifo_of, run_of. destruct b; cbn [negb]; layout; lia. Qed.
Lemma rx_apart base b c : whole (pipe_of base b) c -> ~ rx_words base b c.
Proof. unfold whole, rx_words, tx_part, rx_part, word, fifo_of, run_of. destruct b; cbn [negb]; layout; lia. Qed.
Lemma notify_apart base b c : whole (pipe_of base b) c -> ~ word (pp_read_notify (pipe_of base b)) c.
Proof. unfold whole, tx_part, rx_part, word, fifo_of, run_of. destruct b; layout; lia. Qed.

Lemma changed_weaken (P P' : Z -> Prop) m m' : (forall c, P c -> P' c) -> changed P m m' -> changed P' m m'.
Proof. intros HP [? ? C]. constructor; auto. Qed.

Lemma region_changed base P m m' : changed P m m' -> region_ok base m -> region_ok base m'.
Proof. intros [E1 E2 _] [? ?]. split; congruence. Qed.

Lemma with_work_same d : with_work (qd_work d) d = d.
Proof. by destruct d. Qed.

Section safe.
Context {R : Type} `{EndpointLaws R} (base : Z).
Abbreviation pipe := (pipe_of base).

Record dev_ok (b : bool) (r : R) (d : qrtr_haven_dev) : Prop := {
  dv_tx : qd_tx d = pipe b;
  dv_rx : qd_rx d = pipe (negb b);
  dv_node : exists a, qd_node d = Some a /\ ep_ok r a;
  dv_buf : m_base (rg_buf (qd_ring d)) = 0 /\ m_size (rg_buf (qd_ring d)) = MAX_PKT_SZ;
}.

Definition machine_ok (b : bool) (h : haven R) : Prop := exists d, hv_dev h = Some d /\ dev_ok b (hv_router h) d.

(** ** The pieces on one machine *)
Section pieces.
Context (b : bool) (h : haven R) (d : qrtr_haven_dev).
Hypothesis (Hd : hv_dev h = Some d) (Dok : dev_ok b (hv_router h) d) (Reg : region_ok base (hv_mem h)).

Lemma the_dev_ok : the_dev h = Ok (d, h).
Proof. unfold the_dev. by rewrite Hd. Qed.

Lemma on_mem_exec {A} (c : ST mem A) a m : c (hv_mem h) = Ok (a, m) -> on_mem c h = Ok (a, set_mem m h).
Proof. unfold on_mem. by intros ->. Qed.

Lemma set_mem_id : set_mem (hv_mem h) h = h.
Proof. by destruct h. Qed.

Lemma on_mem_read {A} (c : ST mem A) a : c (hv_mem h) = Ok (a, hv_mem h) -> on_mem c h = Ok (a, h).
Proof. intros E. by rewrite (on_mem_exec _ _ _ E), set_mem_id. Qed.

Lemma tx_avail_exec f : holds (hv_mem h) (pipe b) f -> on_mem (haven_tx_avail (qd_tx d)) h = Ok (room (pipe b) f, h).
Proof. intros Q. apply on_mem_read. rewrite (dv_tx _ _ _ Dok). apply tx_avail_ok; [by apply pipe_of_ok|done]. Qed.

Lemma chunk_exec f p off avail : holds (hv_mem h) (pipe b) f -> Forall (fun x => 0 <= x < 256) p ->
  (off < length p)%nat -> avail = room (pipe b) f -> 0 < avail ->
  let c := (Z.to_nat avail `min` (length p - off))%nat in exists m',
  send_chunk p (Z.of_nat off) (Z.of_nat (length p - off)) avail h =
    Ok ((Z.of_nat (off + c), Z.of_nat (length p - off - c)), set_mem m' h) /\
  changed (tx_part (pipe b)) (hv_mem h) m' /\ holds m' (pipe b) (f ++ take c (drop off p)).
Proof.
  intros Q Hp Ho Ha Hpos c. unfold send_chunk. rewrite (st_bind_ok _ _ _ _ _ the_dev_ok).
  assert (Ec : (if avail <? Z.of_nat (length p - off) then avail else Z.of_nat (length p - off)) = Z.of_nat c)
    by (unfold c; case_if; lia).
  rewrite Ec, !Nat2Z.id. destruct (tx_write_ok (hv_mem h) (pipe b) f (pipe_of_ok _ b _ Reg) Q (take c (drop off p)))
    as (m'&E&C&Q').
  { by apply Forall_take, Forall_drop. }
  { rewrite length_take, length_drop, <-Ha. unfold c. lia. }
  exists m'. split; [|done]. rewrite (dv_tx _ _ _ Dok).
  rewrite (st_bind_ok _ _ _ _ _ (on_mem_exec _ _ _ E)). unfold st_ret. do 3 f_equal; unfold c; lia.
Qed.

Lemma notify_exec v : let m' := wr32 (hv_mem h) (pp_read_notify (pipe b)) v in
  on_mem (store32 (pp_read_notify (qd_tx d)) v) h = Ok (tt, set_mem m' h).
Proof.
  intros m'. apply on_mem_exec. rewrite (dv_tx _ _ _ Dok). pose proof (pipe_of_ok _ b _ Reg) as [_ Hf _ _ Hn _].
  pose proof (pipe_length base b). apply store_ok; layout; lia.
Qed.

Lemma set_notify_exec : haven_set_tx_notify h = Ok (tt, set_mem (wr32 (hv_mem h) (pp_read_notify (pipe b)) 1) h).
Proof. unfold haven_set_tx_notify. rewrite (st_bind_ok _ _ _ _ _ the_dev_ok). apply notify_exec. Qed.
Lemma clr_notify_exec : haven_clr_tx_notify h = Ok (tt, set_mem (wr32 (hv_mem h) (pp_read_notify (pipe b)) 0) h).
Proof. unfold haven_clr_tx_notify. rewrite (st_bind_ok _ _ _ _ _ the_dev_ok). apply notify_exec. Qed.

Lemma get_notify_exec :
  haven_get_read_notify h = Ok (negb (rd32 (hv_mem h) (pp_read_notify (pipe (negb b))) =? 0), h).
Proof.
  unfold haven_get_read_notify. rewrite (st_bind_ok _ _ _ _ _ the_dev_ok).
  erewrite st_bind_ok; [reflexivity|]. apply on_mem_read. rewrite (dv_rx _ _ _ Dok).
  pose proof (pipe_of_ok _ (negb b) _ Reg) as [_ Hf _ _ Hn _]. pose proof (pipe_length base (negb b)).
  apply load_ok; layout; lia.
Qed.

Lemma read_avail_exec f : holds (hv_mem h) (pipe (negb b)) f ->
  read_avail h = Ok (negb (Z.of_nat (length f) =? 0), h).
Proof.
  intros Q. unfold read_avail. rewrite (st_bind_ok _ _ _ _ _ the_dev_ok). erewrite st_bind_ok; [reflexivity|].
  apply on_mem_read. rewrite (dv_rx _ _ _ Dok). apply rx_avail_ok; [by apply pipe_of_ok|done].
Qed.

(** A doorbell changes the answers, the count and the work. *)
Definition kicked (h' : haven R) : Prop := exists v,
  h' = Haven (hv_mem h) (Some (with_work v d)) (hv_regs h) (tail (hv_answers h))
         (if default 0 (head (hv_answers h)) =? 0 then S (hv_rings h) else hv_rings h)
         (hv_wakes h) (hv_posted h) (hv_hyp h) (hv_router h).

Lemma kick_exec : exists h', qrtr_haven_kick h = Ok (tt, h') /\ kicked h'.
Proof.
  unfold qrtr_haven_kick. rewrite (st_bind_ok _ _ _ _ _ the_dev_ok). unfold hh_dbl_send, st_bind, kicked.
  destruct (default 0 (head (hv_answers h)) =? 0) eqn:E; cbn [negb].
  - eexists. split; [reflexivity|]. exists (qd_work d). by rewrite with_work_same, Hd.
  - destruct (qd_master d); cbn [negb].
    + eexists. split; [reflexivity|]. exists (qd_work d). by rewrite with_work_same, Hd.
    + unfold upd_dev, the_dev, st_bind. cbn. rewrite Hd. eexists. split; [reflexivity|]. by exists true.
Qed.

Lemma retry_exec : exists h', qrtr_haven_retry_work h = Ok (tt, h') /\ kicked h'.
Proof.
  unfold qrtr_haven_retry_work, upd_dev. rewrite st_bind_bind, (st_bind_ok _ _ _ _ _ the_dev_ok), st_bind_upd.
  eexists. split; [reflexivity|]. by exists false.
Qed.

Lemma read_kick_exec : exists h', read_kick h = Ok (tt, h') /\
  if rd32 (hv_mem h) (pp_read_notify (pipe (negb b))) =? 0 then h' = h else kicked h'.
Proof.
  unfold read_kick. rewrite (st_bind_ok _ _ _ _ _ get_notify_exec). destruct (_ =? 0); cbn [negb].
  - by exists h.
  - apply kick_exec.
Qed.

(** ** One round of the reader *)
Lemma ring_write_ok l : 0 <= rg_offset (qd_ring d) -> rg_offset (qd_ring d) + Z.of_nat (length l) <= MAX_PKT_SZ ->
  Forall (fun x => 0 <= x < 256) l -> exists buf, ring_write (rg_offset (qd_ring d)) l (qd_ring d) =
    Ok (HavenRing buf (rg_len (qd_ring d)) (rg_offset (qd_ring d))) /\
  m_base buf = 0 /\ m_size buf = MAX_PKT_SZ /\
  bytes_at buf 0 (Z.to_nat (rg_offset (qd_ring d)) + length l) = got (qd_ring d) ++ l.
Proof.
  intros Ho Hl Hb. destruct (dv_buf _ _ _ Dok) as [B1 B2]. set (o := rg_offset (qd_ring d)) in *.
  exists (put_bytes (rg_buf (qd_ring d)) o l). destruct (put_bytes_frame l (rg_buf (qd_ring d)) o) as [F1 F2].
  split; [|split_and!; try congruence].
  - unfold ring_write. rewrite store_bytes_ok by lia. done.
  - rewrite bytes_at_app. rewrite Z2Nat.id by done. rewrite Z.add_0_l, bytes_at_put by done. f_equal.
    unfold got. fold o. apply bytes_at_agree. intros c Hc. apply get_put_bytes_out. lia.
Qed.

Lemma ring_packet_ok n buf k o : m_base buf = 0 -> m_size buf = MAX_PKT_SZ -> 0 <= n <= MAX_PKT_SZ ->
  ring_packet n (HavenRing buf k o) = Ok (bytes_at buf 0 (Z.to_nat n)).
Proof. intros B1 B2 Hn. unfold ring_packet, memcpy_fromio, in_range. cbn. by replace ((_ <=? _) && _) with true by lia. Qed.

(** The state after [p] was posted. *)
Definition after_post (p : list Z) (r : R) (g : haven_ring) (m : mem) : haven R :=
  Haven m (Some (with_ring g d)) (hv_regs h) (hv_answers h) (hv_rings h) (hv_wakes h) (hv_posted h ++ [p])
    (hv_hyp h) r.

Lemma post_exec p g m : ep_packet p -> exists rc r,
  post p (set_mem m (set_dev (Some (with_ring g d)) h)) = Ok (rc, after_post p r g m) /\
  exists a, qd_node d = Some a /\ ep_ok r a.
Proof.
  intros Hp. destruct (dv_node _ _ _ Dok) as (a&Ha&Hok). destruct (endpoint_post_ok (hv_router h) a p Hok Hp) as (rc&r&E&Hr).
  exists rc, r. split; [|by exists a]. unfold post, the_dev, st_bind. cbn. rewrite Ha. cbn. unfold on_router. cbn. by rewrite E.
Qed.

(** What a round leaves behind. *)
Record round (f : list Z) (w : writer) (sent : list (list Z)) (h' : haven R) : Prop := {
  ro_dev : exists g, hv_dev h' = Some (with_ring g d) /\ dev_ok b (hv_router h') (with_ring g d) /\
    exists f', holds (hv_mem h') (pipe (negb b)) f' /\ (length f' < length f)%nat /\ stream f' w sent g (hv_posted h');
  ro_mem : changed (rx_words base b) (hv_mem h) (hv_mem h');
  ro_rest : hv_answers h' = hv_answers h /\ hv_rings h' = hv_rings h;
}.

Lemma with_ring_ok g r : (exists a, qd_node d = Some a /\ ep_ok r a) -> m_base (rg_buf g) = 0 -> m_size (rg_buf g) = MAX_PKT_SZ ->
  dev_ok b r (with_ring g d).
Proof. intros Hn B1 B2. destruct Dok as [D1 D2 _ _]. by constructor. Qed.

(** The end of a round: all of the packet is there, or more is to come. *)
Lemma round_whole f w sent p k m' r g' : reading f w sent (qd_ring d) (hv_posted h) p -> f <> [] ->
  rg_offset (qd_ring d) + Z.of_nat k = Z.of_nat (length p) -> (k <= length f)%nat ->
  changed (rx_words base b) (hv_mem h) m' -> holds m' (pipe (negb b)) (drop k f) ->
  (exists a, qd_node d = Some a /\ ep_ok r a) -> m_base (rg_buf g') = 0 -> m_size (rg_buf g') = MAX_PKT_SZ ->
  rg_offset g' = 0 -> round f w sent (after_post p r g' m').
Proof.
  intros Re Hf Hk Hkf C Q Hr B1 B2 Hz. destruct (re_whole _ _ _ _ _ _ Re k Hk Hkf) as [_ S].
  pose proof (re_offset _ _ _ _ _ _ Re). constructor; [|done|done].
  exists g'. split; [done|]. split; [by apply with_ring_ok|]. exists (drop k f). split_and!; [done|rewrite length_drop; lia|by apply S].
Qed.

Lemma round_part f w sent p m' g' : reading f w sent (qd_ring d) (hv_posted h) p -> f <> [] ->
  rg_offset (qd_ring d) + Z.of_nat (length f) < Z.of_nat (length p) ->
  changed (rx_words base b) (hv_mem h) m' -> holds m' (pipe (negb b)) [] ->
  m_base (rg_buf g') = 0 -> m_size (rg_buf g') = MAX_PKT_SZ -> rg_offset g' = rg_offset (qd_ring d) + Z.of_nat (length f) ->
  rg_len g' = Z.of_nat (length p) -> got g' = got (qd_ring d) ++ f ->
  round f w sent (set_mem m' (set_dev (Some (with_ring g' d)) h)).
Proof.
  intros Re Hf Hlt C Q B1 B2 Ho Hl Hg. constructor; [|done|done]. exists g'. split; [done|].
  split; [apply with_ring_ok; [exact (dv_node _ _ _ Dok)|done|done]|]. exists []. split; [done|].
  split; [destruct f; [done|cbn; lia]|]. by apply (re_part _ _ _ _ _ _ Re).
Qed.

(** What both kinds of round do: [k] bytes move from the queue to the buffer. *)
Lemma take_exec {A} f k (next : haven_ring -> ST (haven R) A) : holds (hv_mem h) (pipe (negb b)) f -> (k <= length f)%nat ->
  0 <= rg_offset (qd_ring d) -> rg_offset (qd_ring d) + Z.of_nat k <= MAX_PKT_SZ -> exists buf m',
  (let! data := on_mem (haven_rx_peak (qd_rx d) 0 (Z.of_nat k)) in
   let! ring := st_lift (ring_write (rg_offset (qd_ring d)) data (qd_ring d)) in
   upd_dev (with_ring ring) ;;; on_mem (haven_rx_advance (qd_rx d) (Z.of_nat k)) ;;; next ring) h =
  next (HavenRing buf (rg_len (qd_ring d)) (rg_offset (qd_ring d)))
    (set_mem m' (set_dev (Some (with_ring (HavenRing buf (rg_len (qd_ring d)) (rg_offset (qd_ring d))) d)) h)) /\
  m_base buf = 0 /\ m_size buf = MAX_PKT_SZ /\
  bytes_at buf 0 (Z.to_nat (rg_offset (qd_ring d)) + k) = got (qd_ring d) ++ take k f /\
  changed (rx_words base b) (hv_mem h) m' /\ holds m' (pipe (negb b)) (drop k f).
Proof.
  intros Q Hk Ho Hm. pose proof (pipe_of_ok _ (negb b) _ Reg) as Pok. rewrite (dv_rx _ _ _ Dok).
  pose proof (rx_peak_ok _ _ _ Pok Q (Z.of_nat k) ltac:(lia)) as Ep. rewrite Nat2Z.id in Ep.
  destruct (ring_write_ok (take k f)) as (buf&Ew&B1&B2&Hbytes); [done|rewrite length_take; lia| |].
  { apply Forall_take. rewrite (ho_bytes _ _ _ Q). unfold ring_bytes. apply Forall_fmap, Forall_true. intros i. apply get_byte_range. }
  destruct (rx_advance_ok _ _ _ Pok Q (Z.of_nat k) ltac:(lia)) as (m'&Ea&C&Q'). rewrite Nat2Z.id in Q'.
  rewrite length_take, Nat.min_l in Hbytes by done. exists buf, m'. split; [|done].
  rewrite (st_bind_ok _ _ _ _ _ (on_mem_read _ _ Ep)), (st_bind_ok _ _ _ _ _ (st_lift_ok _ _ _ Ew)).
  unfold upd_dev. rewrite st_bind_bind, (st_bind_ok _ _ _ _ _ the_dev_ok), st_bind_upd.
  erewrite st_bind_ok; [reflexivity|]. unfold on_mem. cbn. by rewrite Ea.
Qed.

Lemma read_frag_exec f w sent p : holds (hv_mem h) (pipe (negb b)) f -> f <> [] ->
  reading f w sent (qd_ring d) (hv_posted h) p -> rg_offset (qd_ring d) <> 0 ->
  exists h', qrtr_haven_read_frag h = Ok (tt, h') /\ round f w sent h'.
Proof.
  intros Q Hf Re Hz. pose proof (re_offset _ _ _ _ _ _ Re) as Ho. pose proof (re_len _ _ _ _ _ _ Re Hz) as Hl.
  destruct (re_ok _ _ _ _ _ _ Re) as [Hp Hp']. pose proof (fr_size _ Hp) as Hs.
  unfold qrtr_haven_read_frag. rewrite (st_bind_ok _ _ _ _ _ the_dev_ok).
  assert (Ea : on_mem (haven_rx_avail (qd_rx d)) h = Ok (Z.of_nat (length f), h)).
  { apply on_mem_read. rewrite (dv_rx _ _ _ Dok). apply rx_avail_ok; [by apply pipe_of_ok|done]. }
  rewrite (st_bind_ok _ _ _ _ _ Ea), Hl. set (o := rg_offset (qd_ring d)) in *.
  set (k := (length f `min` Z.to_nat (Z.of_nat (length p) - o))%nat).
  assert (Ek : (if Z.of_nat (length f) + o >? Z.of_nat (length p) then Z.of_nat (length p) - o else Z.of_nat (length f)) = Z.of_nat k)
    by (unfold k; case_if; lia).
  rewrite Ek. match goal with |- exists h', st_bind _ (fun data => st_bind _ (fun ring => st_bind _ (fun _ => st_bind _ (fun _ => @?next ring)))) h = _ /\ _ =>
    destruct (take_exec f k next Q) as (buf&m'&E&B1&B2&Hbytes&C&Q'); [unfold k; lia|fold o; lia|fold o; unfold k; lia|] end.
  fold o in E, Hbytes. rewrite E, Hl. cbn [rg_offset rg_len rg_buf]. case_if.
  - assert (Hok : o + Z.of_nat k = Z.of_nat (length p)) by lia.
    rewrite (st_bind_ok _ _ _ _ _ (st_lift_ok _ _ _ (ring_packet_ok (Z.of_nat (length p)) buf _ o B1 B2 ltac:(lia)))).
    destruct (re_whole _ _ _ _ _ _ Re k Hok ltac:(unfold k; lia)) as [Hpkt _]. rewrite <-Hbytes in Hpkt.
    replace (Z.to_nat (Z.of_nat (length p))) with (Z.to_nat o + k)%nat by lia. rewrite Hpkt.
    edestruct (post_exec p) as (rc&r&Er&Hr); [done|]. rewrite (st_bind_ok _ _ _ _ _ Er).
    eexists. split; [reflexivity|]. apply (round_whole f w sent p k m' r (HavenRing buf 0 0)); try done. unfold k; lia.
  - assert (Hlt : o + Z.of_nat (length f) < Z.of_nat (length p)) by (unfold k in *; lia).
    assert (Hkf : k = length f) by (unfold k; lia). rewrite Hkf in *. unfold upd_dev, the_dev, st_bind. cbn.
    eexists. split; [reflexivity|]. apply (round_part f w sent p m' (HavenRing buf (Z.of_nat (length p)) (u32 (o + Z.of_nat (length f))))); try done.
    + by rewrite drop_ge in Q' by done.
    + cbn [rg_offset]. apply u32_id. unfold MAX_PKT_SZ in *. lia.
    + unfold got. cbn [rg_offset rg_buf]. rewrite u32_id by (unfold MAX_PKT_SZ in *; lia). rewrite take_ge in Hbytes by done.
      fold (got (qd_ring d)). rewrite <-Hbytes. f_equal. lia.
Qed.

Lemma read_new_exec f w sent p : holds (hv_mem h) (pipe (negb b)) f -> f <> [] ->
  reading f w sent (qd_ring d) (hv_posted h) p -> rg_offset (qd_ring d) = 0 ->
  exists h', qrtr_haven_read_new h = Ok (tt, h') /\ round f w sent h'.
Proof.
  intros Q Hf Re Hz. destruct (re_ok _ _ _ _ _ _ Re) as [Hp Hp']. pose proof (fr_size _ Hp) as Hs.
  pose proof (pipe_of_ok _ (negb b) _ Reg) as Pok. unfold qrtr_haven_read_new. rewrite (st_bind_ok _ _ _ _ _ the_dev_ok).
  destruct (rx_peak_more _ _ _ Pok Q 32) as (l&Ep&Hl); [by rewrite pipe_length|].
  change (Z.to_nat 32) with 32%nat in Ep, Hl. rewrite (dv_rx _ _ _ Dok), (st_bind_ok _ _ _ _ _ (on_mem_read _ _ Ep)).
  rewrite (st_bind_ok _ _ _ _ _ (st_lift_ok _ _ _ (re_header _ _ _ _ _ _ Re Hz l Hl))).
  replace ((Z.of_nat (length p) <? 0) || (Z.of_nat (length p) >? MAX_PKT_SZ)) with false by lia.
  rewrite (st_bind_ok _ _ _ _ _ (on_mem_read _ _ (rx_avail_ok _ _ _ Pok Q))).
  set (k := (length f `min` length p)%nat).
  assert (Ek : (if Z.of_nat (length f) >? Z.of_nat (length p) then Z.of_nat (length p) else Z.of_nat (length f)) = Z.of_nat k)
    by (unfold k; case_if; lia).
  rewrite Ek, <-(dv_rx _ _ _ Dok).
  match goal with |- exists h', st_bind _ (fun data => st_bind _ (fun ring => st_bind _ (fun _ => st_bind _ (fun _ => @?next ring)))) h = _ /\ _ =>
    destruct (take_exec f k next Q) as (buf&m'&E&B1&B2&Hbytes&C&Q'); [unfold k; lia|lia|unfold k; lia|] end.
  rewrite Hz in E, Hbytes. rewrite E. cbn [rg_offset rg_len rg_buf]. case_if.
  - assert (Hok : rg_offset (qd_ring d) + Z.of_nat k = Z.of_nat (length p)) by lia.
    rewrite (st_bind_ok _ _ _ _ _ (st_lift_ok _ _ _ (ring_packet_ok (Z.of_nat (length p)) buf _ 0 B1 B2 ltac:(lia)))).
    destruct (re_whole _ _ _ _ _ _ Re k Hok ltac:(unfold k; lia)) as [Hpkt _]. rewrite <-Hbytes in Hpkt.
    replace (Z.to_nat (Z.of_nat (length p))) with (Z.to_nat 0 + k)%nat by lia. rewrite Hpkt.
    edestruct (post_exec p) as (rc&r&Er&Hr); [done|]. rewrite (st_bind_ok _ _ _ _ _ Er).
    eexists. split; [reflexivity|].
    apply (round_whole f w sent p k m' r (HavenRing buf (rg_len (qd_ring d)) 0)); try done. unfold k; lia.
  - assert (Hlt : rg_offset (qd_ring d) + Z.of_nat (length f) < Z.of_nat (length p)) by (unfold k in *; lia).
    assert (Hkf : k = length f) by (unfold k; lia). rewrite Hkf in *. unfold upd_dev, the_dev, st_bind. cbn.
    eexists. split; [reflexivity|].
    apply (round_part f w sent p m' (HavenRing buf (Z.of_nat (length p)) (u32 (Z.of_nat (length f))))); try done.
    + by rewrite drop_ge in Q' by done.
    + cbn [rg_offset]. rewrite Hz. apply u32_id. unfold MAX_PKT_SZ in *. lia.
    + unfold got. cbn [rg_offset rg_buf]. rewrite u32_id by (unfold MAX_PKT_SZ in *; lia). rewrite take_ge in Hbytes by done.
      fold (got (qd_ring d)). rewrite <-Hbytes. f_equal. lia.
Qed.

(** A round with something in the queue. *)
Lemma read_some_exec f w sent : holds (hv_mem h) (pipe (negb b)) f -> f <> [] ->
  stream f w sent (qd_ring d) (hv_posted h) -> (rg_offset (qd_ring d) = 0 -> (HEADER <= length f)%nat) ->
  exists h', read_some h = Ok (tt, h') /\ round f w sent h'.
Proof.
  intros Q Hf S Hh. destruct (stream_read _ _ _ _ _ S Hf Hh) as [p Re]. unfold read_some.
  rewrite (st_bind_ok _ _ _ _ _ the_dev_ok). destruct (rg_offset (qd_ring d) =? 0) eqn:E; cbn [negb].
  - apply (read_new_exec f w sent p); try done. lia.
  - apply (read_frag_exec f w sent p); try done. lia.
Qed.
End pieces.
End safe.
