(* ===== verification/HavenNet.v ===== *)
(** * The invariant of the link

    Every step of the two machines keeps the queues and the streams, and every piece of code a
    machine can be about to run returns, as long as no reader starts on a packet whose header
    is not all in the queue: the code does not check that it is ([short_header_stale]). *)
From S2P Require Import Prelude CMem QrtrNs QrtrRouter QrtrPacket QrtrEndpoint QrtrHaven HavenFifo HavenLink HavenSafe.
Open Scope c_scope.

Section net.
Context {R : Type} `{EndpointLaws R} (base : Z).
Abbreviation pipe := (pipe_of base).

Definition ring_of (h : haven R) : haven_ring :=
  match hv_dev h with Some d => qd_ring d | None => HavenRing (Mem 0 0 ∅) 0 0 end.

(** The direction from machine [b] to the other one. *)
Definition dir_ok (n : net R) (b : bool) : Prop := exists f, holds (n_mem n) (pipe b) f /\
  stream f (mc_w (side n b)) (mc_sent (side n b)) (ring_of (mc (side n (negb b)))) (hv_posted (mc (side n (negb b)))).

Record net_ok (n : net R) : Prop := {
  no_region : region_ok base (n_mem n);
  no_machine b : machine_ok base b (mc (side n b));
  no_dir b : dir_ok n b;
}.

(** The reader of machine [b] is at the head of its loop, on a packet whose header is not all in
    the queue yet. *)
Definition cut_short (n : net R) (b : bool) : Prop := mc_r (side n b) = RLoop /\
  rg_offset (ring_of (mc (side n b))) = 0 /\ exists f, holds (n_mem n) (pipe (negb b)) f /\ (0 < length f < HEADER)%nat.

(** A step in which no reader takes such a header. *)
Definition whole (s : net R -> net R -> Prop) (n n' : net R) : Prop :=
  s n n' /\ forall b, cut_short n b -> mc_r (side n' b) <> RKick.

(** ** Changes of one machine *)
Lemma side_put_same (n : net R) b x : side (put n b x) b = x.
Proof. by destruct b. Qed.
Lemma side_put_other (n : net R) b x : side (put n b x) (negb b) = side n (negb b).
Proof. by destruct b. Qed.

Lemma back_mem (n : net R) b h : n_mem (back n b h) = hv_mem h.
Proof. unfold back. by destruct (_ <? _)%nat, b. Qed.
Lemma back_same (n : net R) b x h : side (back (put n b x) b h) b = set_mc h x.
Proof. unfold back. by destruct (_ <? _)%nat, b. Qed.
Lemma back_other (n : net R) b x h : side (back (put n b x) b h) (negb b) =
  if (hv_rings (mc x) <? hv_rings h)%nat then set_rung true (side n (negb b)) else side n (negb b).
Proof. unfold back. rewrite side_put_same. by destruct (_ <? _)%nat, b. Qed.

Lemma back_other_rest (n : net R) b x h : let y := side (back (put n b x) b h) (negb b) in
  mc y = mc (side n (negb b)) /\ mc_w y = mc_w (side n (negb b)) /\ mc_r y = mc_r (side n (negb b)) /\
  mc_sent y = mc_sent (side n (negb b)).
Proof. cbv zeta. rewrite back_other. by destruct (_ <? _)%nat. Qed.

Lemma both_sides (P : bool -> Prop) b : P b -> P (negb b) -> forall c, P c.
Proof. intros H1 H2 c. by destruct b, c. Qed.

Lemma net_ok_back n b x h (P : Z -> Prop) : net_ok n -> changed P (n_mem n) (hv_mem h) -> machine_ok base b h ->
  (exists f, holds (hv_mem h) (pipe b) f /\
     stream f (mc_w x) (mc_sent x) (ring_of (mc (side n (negb b)))) (hv_posted (mc (side n (negb b))))) ->
  (exists f, holds (hv_mem h) (pipe (negb b)) f /\
     stream f (mc_w (side n (negb b))) (mc_sent (side n (negb b))) (ring_of h) (hv_posted h)) ->
  net_ok (back (put n b x) b h).
Proof.
  intros [N1 N2 N3] C M D1 D2. destruct (back_other_rest n b x h) as (E1&E2&E3&E4). constructor.
  - rewrite back_mem. by eapply region_changed.
  - apply (both_sides _ b); [by rewrite back_same|]. rewrite E1. apply N2.
  - apply (both_sides _ b); unfold dir_ok; rewrite back_mem, ?negb_involutive, back_same.
    + rewrite E1. exact D1.
    + rewrite E2, E4. exact D2.
Qed.

(** What machine [b] does to its own direction leaves the other one. *)
Lemma net_ok_tx n b x h : net_ok n -> changed (tx_words base b) (n_mem n) (hv_mem h) -> machine_ok base b h ->
  ring_of h = ring_of (mc (side n b)) -> hv_posted h = hv_posted (mc (side n b)) ->
  (exists f, holds (hv_mem h) (pipe b) f /\
     stream f (mc_w x) (mc_sent x) (ring_of (mc (side n (negb b)))) (hv_posted (mc (side n (negb b))))) ->
  net_ok (back (put n b x) b h).
Proof.
  intros N C M Er Ep D. apply (net_ok_back n b x h (tx_words base b)); try done.
  destruct (no_dir _ N (negb b)) as (f&Q&S). rewrite negb_involutive in S. exists f. rewrite Er, Ep. split; [|exact S].
  apply (holds_changed (tx_words base b) (n_mem n)); [by apply pipe_of_ok, N|done|apply tx_apart|done].
Qed.

(** What it does to the direction it reads. *)
Lemma net_ok_rx n b x h : net_ok n -> changed (rx_words base b) (n_mem n) (hv_mem h) -> machine_ok base b h ->
  pkt_of (mc_w x) = pkt_of (mc_w (side n b)) -> mc_sent x = mc_sent (side n b) ->
  (exists f, holds (hv_mem h) (pipe (negb b)) f /\
     stream f (mc_w (side n (negb b))) (mc_sent (side n (negb b))) (ring_of h) (hv_posted h)) ->
  net_ok (back (put n b x) b h).
Proof.
  intros N C M Ew Es D. apply (net_ok_back n b x h (rx_words base b)); try done.
  destruct (no_dir _ N b) as (f&Q&S). exists f. split.
  - apply (holds_changed (rx_words base b) (n_mem n)); [by apply pipe_of_ok, N|done|apply rx_apart|done].
  - rewrite Es. by apply (stream_same _ (mc_w (side n b))).
Qed.

(** The state of a machine as its code sees it. *)
Lemma at_dev n b : net_ok n -> exists d, hv_dev (at_ n b) = Some d /\ dev_ok base b (hv_router (at_ n b)) d /\
  region_ok base (hv_mem (at_ n b)) /\ ring_of (at_ n b) = qd_ring d /\ ring_of (mc (side n b)) = qd_ring d.
Proof.
  intros N. destruct (no_machine _ N b) as (d&Hd&Dok). exists d. unfold ring_of. cbn. rewrite Hd.
  split_and!; try done; apply N.
Qed.

Lemma kicked_ok b h d h' : hv_dev h = Some d -> dev_ok base b (hv_router h) d -> kicked h d h' ->
  machine_ok base b h' /\ hv_mem h' = hv_mem h /\ ring_of h' = qd_ring d /\ hv_posted h' = hv_posted h.
Proof.
  intros Hd [D1 D2 D3 D4] (v&->). cbn. unfold ring_of. cbn. split_and!; try done.
  exists (with_work v d). split; [done|]. by constructor.
Qed.

Lemma changed_word (P : Z -> Prop) (m : mem) a v : (forall c, word a c -> P c) -> changed P m (wr32 m a v).
Proof. apply changed_store. Qed.

(** A store to the notification word of the own direction. *)
Lemma notify_kept n b w v : net_ok n ->
  (forall f, stream f (mc_w (side n b)) (mc_sent (side n b)) (ring_of (mc (side n (negb b)))) (hv_posted (mc (side n (negb b)))) ->
     stream f w (mc_sent (side n b)) (ring_of (mc (side n (negb b)))) (hv_posted (mc (side n (negb b))))) ->
  net_ok (back (put n b (set_w w (side n b))) b
            (set_mem (wr32 (n_mem n) (pp_read_notify (pipe b)) v) (at_ n b))).
Proof.
  intros N Hs. destruct (no_dir _ N b) as (f&Q&S). apply net_ok_tx; try done; [|apply (no_machine _ N b)|].
  - apply changed_store. intros c Hc. by right.
  - exists f. split; [|by apply Hs]. cbn [hv_mem set_mem].
    apply (holds_changed (word (pp_read_notify (pipe b))) (n_mem n)); [by apply pipe_of_ok, N| |apply notify_apart|done].
    by apply changed_store.
Qed.

(** Nothing but the state of the writer changes. *)
Lemma writer_kept n b w : net_ok n ->
  (forall f, stream f (mc_w (side n b)) (mc_sent (side n b)) (ring_of (mc (side n (negb b)))) (hv_posted (mc (side n (negb b)))) ->
     stream f w (mc_sent (side n b)) (ring_of (mc (side n (negb b)))) (hv_posted (mc (side n (negb b))))) ->
  net_ok (back (put n b (set_w w (side n b))) b (at_ n b)).
Proof.
  intros N Hs. destruct (no_dir _ N b) as (f&Q&S). apply net_ok_tx; try done; [apply (no_machine _ N b)|].
  exists f. split; [exact Q|by apply Hs].
Qed.

(** A doorbell, with a change of the program counters. *)
Lemma kick_kept n b x h d : net_ok n -> hv_dev (at_ n b) = Some d -> dev_ok base b (hv_router (at_ n b)) d ->
  kicked (at_ n b) d h -> pkt_of (mc_w x) = pkt_of (mc_w (side n b)) -> mc_sent x = mc_sent (side n b) ->
  net_ok (back (put n b x) b h).
Proof.
  intros N Hd Dok K Ew Es. destruct (kicked_ok b _ d h Hd Dok K) as (M&Em&Er&Ep).
  destruct (at_dev n b N) as (d'&Hd'&_&_&_&Er'). rewrite Hd in Hd'. injection Hd' as <-.
  destruct (no_dir _ N b) as (f&Q&S). apply net_ok_tx; try done; [by rewrite Em|congruence|].
  exists f. rewrite Em, Es. split; [exact Q|]. by apply (stream_same _ (mc_w (side n b))).
Qed.

(** ** Steps *)
Lemma tx_avail_at n b d f : net_ok n -> hv_dev (at_ n b) = Some d -> holds (n_mem n) (pipe b) f ->
  on_mem (haven_tx_avail (qd_tx d)) (at_ n b) = Ok (room (pipe b) f, at_ n b).
Proof.
  intros N Hd Q. destruct (at_dev n b N) as (d'&Hd'&Dok&Reg&_). rewrite Hd in Hd'. injection Hd' as <-.
  by apply (tx_avail_exec base b (at_ n b)).
Qed.

(** The first packet of a writer, with what it still has to write. *)
Lemma stream_packet f w sent g posted p off : stream f w sent g posted -> pkt_of w = Some (p, off) -> framed p.
Proof.
  intros S Hp. destruct (st_writer _ _ _ _ _ S p off Hp) as [_ Hl]. apply last_Some_elem_of in Hl.
  pose proof (st_sent _ _ _ _ _ S) as Ha. rewrite Forall_forall in Ha. by apply Ha.
Qed.

Lemma chunk_kept n b p off d avail h1 off' left' h : net_ok n -> mc_w (side n b) = WSend p off -> (off < length p)%nat ->
  hv_dev (at_ n b) = Some d -> on_mem (haven_tx_avail (qd_tx d)) (at_ n b) = Ok (avail, h1) -> avail <> 0 ->
  send_chunk p (Z.of_nat off) (Z.of_nat (length p - off)) avail h1 = Ok ((off', left'), h) ->
  net_ok (back (put n b (set_w (WKick p (Z.to_nat off')) (side n b))) b h).
Proof.
  intros N Hw Ho Hd Ea Hne E. destruct (no_dir _ N b) as (f&Q&S).
  destruct (at_dev n b N) as (d'&Hd'&Dok&Reg&_). rewrite Hd in Hd'. injection Hd' as <-.
  rewrite (tx_avail_at n b d f N Hd Q) in Ea. injection Ea as <- <-.
  pose proof (ho_room _ _ _ Q) as Hroom. assert (Hpos : 0 < room (pipe b) f) by (unfold room in *; lia).
  pose proof (stream_packet _ _ _ _ _ p off S ltac:(by rewrite Hw)) as Hp.
  destruct (chunk_exec base b (at_ n b) d Hd Dok Reg f p off _ Q (fr_bytes _ Hp) Ho eq_refl Hpos) as (m'&E'&C&Q').
  cbv zeta in E', Q'. set (c := (Z.to_nat (room (pipe b) f) `min` (length p - off))%nat) in *.
  rewrite E in E'. injection E' as -> -> ->. rewrite Nat2Z.id. apply net_ok_tx; try done.
  - apply (changed_weaken (tx_part (pipe b))); [|exact C]. intros x Hx. by left.
  - apply (no_machine _ N b).
  - exists (f ++ take c (drop off p)). split; [exact Q'|]. cbn [mc_w mc_sent set_w].
    apply (stream_write f (mc_w (side n b)) _ p off c); try done; [by rewrite Hw|unfold c; lia].
Qed.

(** A reader that is not at a header that is cut short has one, or works on a packet. *)
Lemma header_there n b f : mc_r (side n b) = RLoop -> ~ cut_short n b -> holds (n_mem n) (pipe (negb b)) f -> f <> [] ->
  rg_offset (ring_of (mc (side n b))) = 0 -> (HEADER <= length f)%nat.
Proof.
  intros Hr Ht Q Hf Hz. destruct (decide (HEADER <= length f)%nat) as [|Hn]; [done|]. destruct Ht.
  split; [done|]. split; [done|]. exists f. split; [done|]. destruct f; cbn in *; [done|lia].
Qed.

Lemma read_kept n b h1 h : net_ok n -> mc_r (side n b) = RLoop -> ~ cut_short n b ->
  read_avail (at_ n b) = Ok (true, h1) -> read_some h1 = Ok (tt, h) ->
  net_ok (back (put n b (set_r RKick (side n b))) b h).
Proof.
  intros N Hr Ht Ea E. destruct (at_dev n b N) as (d&Hd&Dok&Reg&_&Er). destruct (no_dir _ N (negb b)) as (f&Q&S).
  rewrite negb_involutive in S. rewrite (read_avail_exec base b (at_ n b) d Hd Dok Reg f Q) in Ea. injection Ea as Hf <-.
  assert (Hne : f <> []) by (intros ->; cbn in Hf; lia). pose proof (header_there n b f Hr Ht Q Hne) as Hh. rewrite Er in S, Hh.
  destruct (read_some_exec base b (at_ n b) d Hd Dok Reg f _ _ Q Hne S Hh) as (h'&E'&Ro). rewrite E in E'. injection E' as <-.
  destruct (ro_dev _ _ _ _ _ _ _ _ Ro) as (g&Hd'&Dok'&f'&Q'&_&S'). apply net_ok_rx; try done.
  - apply (ro_mem _ _ _ _ _ _ _ _ Ro).
  - by exists (with_ring g d).
  - exists f'. split; [exact Q'|]. unfold ring_of. by rewrite Hd'.
Qed.

Lemma move_kept n b n' : net_ok n -> whole (move b) n n' -> net_ok n'.
Proof.
  intros N [M Ht]. destruct (at_dev n b N) as (d0&Hd0&Dok0&Reg0&Er0&_). destruct M as
    [p h Hw E|p off d h Hw Ho Hd E|p off d avail h1 off' left' h Hw Ho Hd Ea Hne E|p off h Hw E|p off h Hw E
    |p off d avail h Hw Hd E|h Hr Hi E|h Hr E|h1 h Hr Ea E|h Hr E].
  - rewrite (clr_notify_exec base b (at_ n b) d0 Hd0 Dok0 Reg0) in E. injection E as <-.
    apply notify_kept; [done|]. intros f. apply (stream_done f _ p). by rewrite Hw.
  - destruct (no_dir _ N b) as (f&Q&_). rewrite (tx_avail_at n b d f N Hd Q) in E. injection E as _ <-.
    apply writer_kept; [done|]. intros f0. apply stream_same. by rewrite Hw.
  - by apply (chunk_kept n b p off d avail h1 off' left' h).
  - destruct (kick_exec (at_ n b) d0 Hd0) as (h'&E'&K). rewrite E in E'. injection E' as <-.
    apply (kick_kept n b _ h d0); try done. by rewrite Hw.
  - rewrite (set_notify_exec base b (at_ n b) d0 Hd0 Dok0 Reg0) in E. injection E as <-.
    apply notify_kept; [done|]. intros f. apply stream_same. by rewrite Hw.
  - destruct (no_dir _ N b) as (f&Q&_). rewrite (tx_avail_at n b d f N Hd Q) in E. injection E as _ <-.
    apply writer_kept; [done|]. intros f0. apply stream_same. rewrite Hw. by case_if.
  - injection E as <-. destruct (no_dir _ N b) as (f&Q&S). apply net_ok_tx; try done; [apply (no_machine _ N b)|].
    exists f. split; [exact Q|]. apply (stream_same _ (mc_w (side n b))); [|exact S]. by destruct (mc_w (side n b)).
  - destruct (no_dir _ N (negb b)) as (f&Q&_). rewrite (read_avail_exec base b (at_ n b) d0 Hd0 Dok0 Reg0 f Q) in E.
    injection E as _ <-. destruct (no_dir _ N b) as (f0&Q0&S0). apply net_ok_tx; try done; [apply (no_machine _ N b)|].
    by exists f0.
  - apply (read_kept n b h1); try done. intros T. apply (Ht b T). by rewrite back_same.
  - destruct (read_kick_exec base b (at_ n b) d0 Hd0 Dok0 Reg0) as (h'&E'&K). rewrite E in E'. injection E' as <-.
    destruct (_ =? 0).
    + subst h. destruct (no_dir _ N b) as (f0&Q0&S0). apply net_ok_tx; try done; [apply (no_machine _ N b)|]. by exists f0.
    + by apply (kick_kept n b _ h d0).
Qed.

(** ** What comes from outside *)
Lemma put_same (n : net R) b : put n b (side n b) = n.
Proof. by destruct b, n. Qed.

Lemma net_ok_put n b x : net_ok n -> machine_ok base b (mc x) -> ring_of (mc x) = ring_of (mc (side n b)) ->
  hv_posted (mc x) = hv_posted (mc (side n b)) ->
  (forall f, stream f (mc_w (side n b)) (mc_sent (side n b)) (ring_of (mc (side n (negb b)))) (hv_posted (mc (side n (negb b)))) ->
     stream f (mc_w x) (mc_sent x) (ring_of (mc (side n (negb b)))) (hv_posted (mc (side n (negb b))))) ->
  net_ok (put n b x).
Proof.
  intros [N1 N2 N3] M Er Ep S. assert (Em : n_mem (put n b x) = n_mem n) by (by destruct b). constructor.
  - by rewrite Em.
  - apply (both_sides _ b); [by rewrite side_put_same|by rewrite side_put_other].
  - apply (both_sides _ b); unfold dir_ok; rewrite Em, ?negb_involutive, side_put_same, side_put_other.
    + destruct (N3 b) as (f&Q&Sf). exists f. split; [done|by apply S].
    + destruct (N3 (negb b)) as (f&Q&Sf). rewrite negb_involutive in Sf. exists f. by rewrite Er, Ep.
Qed.

Lemma input_kept n b n' : net_ok n -> input b n n' -> net_ok n'.
Proof.
  intros N I. destruct (at_dev n b N) as (d0&Hd0&Dok0&Reg0&Er0&Er1).
  destruct I as [p x Hw Hp Hp' ->|p off Hw|d h Hd _ E|d a r h Hd Ha Hr ->].
  - apply net_ok_put; try done; [apply (no_machine _ N b)|]. intros f. cbn. rewrite Hw. by apply stream_submit.
  - apply net_ok_put; try done; [apply (no_machine _ N b)|]. intros f. apply stream_same. by rewrite Hw.
  - rewrite Hd in Hd0. injection Hd0 as <-. destruct (retry_exec (at_ n b) d Hd) as (h'&E'&K). rewrite E in E'. injection E' as <-.
    rewrite <-(put_same n b). rewrite <-(put_same n b) in K. by apply (kick_kept n b (side n b) h d); rewrite ?put_same in *.
  - rewrite Hd in Hd0. injection Hd0 as <-. apply net_ok_put; try done.
    destruct Dok0 as [D1 D2 D3 D4]. exists d. split; [done|]. constructor; try done. by exists a.
Qed.

Lemma step_kept n n' : net_ok n -> whole step n n' -> net_ok n'.
Proof. intros N [(b&[M|I]) Ht]; [by apply (move_kept n b)|by apply (input_kept n b)]. Qed.

Lemma steps_kept n n' : net_ok n -> rtc (whole step) n n' -> net_ok n'.
Proof. intros N St. induction St as [|n n1 n' S _ IH]; [done|]. apply IH. by apply (step_kept n). Qed.

(** ** The start *)

(** Both machines are set up, and nothing was sent. *)
Record link_start (n : net R) : Prop := {
  ls_region : region_ok base (n_mem n);
  ls_machine b : machine_ok base b (mc (side n b)) /\ mc_w (side n b) = WIdle /\ mc_r (side n b) = RIdle /\
    mc_sent (side n b) = [] /\ hv_posted (mc (side n b)) = [] /\ rg_offset (ring_of (mc (side n b))) = 0;
  ls_empty b : holds (n_mem n) (pipe b) [];
}.

Lemma link_start_ok n : link_start n -> net_ok n.
Proof.
  intros [L1 L2 L3]. constructor; [done|intros b; apply L2|]. intros b. exists []. split; [apply L3|].
  destruct (L2 b) as (_&Hw&_&Hs&_). destruct (L2 (negb b)) as (_&_&_&_&Hp&Ho). rewrite Hw, Hs, Hp. constructor; [done|done|].
  exists []. split; [done|]. split; [|by left]. unfold got. by rewrite Ho.
Qed.

(** The code a machine is about to run, by its program counters. *)
Definition writer_runs (n : net R) (b : bool) : Prop :=
  match mc_w (side n b) with
  | WIdle | WAsleep _ _ => True
  | WSend p off => if (off <? length p)%nat then exists d avail, hv_dev (at_ n b) = Some d /\
        on_mem (haven_tx_avail (qd_tx d)) (at_ n b) = Ok (avail, at_ n b) /\
        (0 < avail -> exists r h, send_chunk p (Z.of_nat off) (Z.of_nat (length p - off)) avail (at_ n b) = Ok (r, h))
      else exists h, haven_clr_tx_notify (at_ n b) = Ok (tt, h)
  | WKick _ _ => exists h, qrtr_haven_kick (at_ n b) = Ok (tt, h)
  | WNotify _ _ => exists h, haven_set_tx_notify (at_ n b) = Ok (tt, h)
  | WCheck _ _ => exists d avail, hv_dev (at_ n b) = Some d /\
      on_mem (haven_tx_avail (qd_tx d)) (at_ n b) = Ok (avail, at_ n b)
  end.

Definition reader_runs (n : net R) (b : bool) : Prop :=
  match mc_r (side n b) with
  | RIdle => True
  | RLoop => exists some, read_avail (at_ n b) = Ok (some, at_ n b) /\
      (some = true -> exists h, read_some (at_ n b) = Ok (tt, h))
  | RKick => exists h, read_kick (at_ n b) = Ok (tt, h)
  end.

Lemma writer_runs_ok n b : net_ok n -> writer_runs n b.
Proof.
  intros N. destruct (at_dev n b N) as (d&Hd&Dok&Reg&_). destruct (no_dir _ N b) as (f&Q&S).
  pose proof (tx_avail_at n b d f N Hd Q) as Ea. unfold writer_runs.
  destruct (mc_w (side n b)) as [|p off|p off|p off|p off|p off] eqn:Hw; try done.
  - destruct (off <? length p)%nat eqn:Ho.
    + exists d, (room (pipe b) f). split; [done|]. split; [exact Ea|]. intros Hpos. apply Nat.ltb_lt in Ho.
      pose proof (stream_packet _ _ _ _ _ p off S eq_refl) as Hp.
      destruct (chunk_exec base b (at_ n b) d Hd Dok Reg f p off _ Q (fr_bytes _ Hp) Ho eq_refl Hpos) as (m'&E&_). eauto.
    + eexists. by apply (clr_notify_exec base b (at_ n b) d).
  - destruct (kick_exec (at_ n b) d Hd) as (h&E&_). eauto.
  - eexists. by apply (set_notify_exec base b (at_ n b) d).
  - exists d, (room (pipe b) f). by split.
Qed.

Lemma reader_runs_ok n b : net_ok n -> ~ cut_short n b -> reader_runs n b.
Proof.
  intros N Ht. destruct (at_dev n b N) as (d&Hd&Dok&Reg&_&Er). destruct (no_dir _ N (negb b)) as (f&Q&S).
  rewrite negb_involutive, Er in S. unfold reader_runs. destruct (mc_r (side n b)) eqn:Hr; [done|..].
  - eexists. split; [by apply (read_avail_exec base b (at_ n b) d Hd Dok Reg f)|]. intros Hf.
    assert (Hne : f <> []) by (intros ->; cbn in Hf; lia).
    pose proof (header_there n b f Hr Ht Q Hne) as Hh. rewrite Er in Hh.
    destruct (read_some_exec base b (at_ n b) d Hd Dok Reg f _ _ Q Hne S Hh) as (h&E&_). eauto.
  - destruct (read_kick_exec base b (at_ n b) d Hd Dok Reg) as (h&E&_). eauto.
Qed.

(** Where the sender is not inside the header of its packet, the reader of the other machine is
    not at one that is cut short. *)
Lemma outside_header n b : net_ok n ->
  (forall p off, pkt_of (mc_w (side n (negb b))) = Some (p, off) -> (off = 0 \/ HEADER <= off)%nat) -> ~ cut_short n b.
Proof.
  intros N Hw (_&Hz&f&Q&Hf). destruct (no_dir _ N (negb b)) as (f0&Q0&S). rewrite negb_involutive in S.
  assert (f0 = f) as ->.
  { pose proof (pipe_of_ok base (negb b) _ (no_region _ N)) as P. pose proof (rx_avail_ok _ _ _ P Q) as E.
    rewrite (rx_avail_ok _ _ _ P Q0) in E. injection E as E.
    rewrite (ho_bytes _ _ _ Q), (ho_bytes _ _ _ Q0). f_equal. lia. }
  pose proof S as [S1 _ (q&E1&E2&_)]. unfold got in E2. rewrite Hz in E2.
  change (bytes_at _ 0 (Z.to_nat 0)) with (@nil Z) in E2. rewrite app_nil_l in E2. destruct q as [|p q'].
  { symmetry in E2. apply app_eq_nil in E2 as [-> _]. cbn in Hf. lia. }
  rewrite E1, Forall_app, Forall_cons in S1. destruct S1 as (_&(Hp&_)&_). pose proof (fr_size _ Hp).
  destruct (stream_short f _ _ _ _ p q' S ltac:(lia) E1 E2) as [Ep _]. specialize (Hw p _ Ep). lia.
Qed.

(** C30: the transport loses nothing.  Along every sequence of steps of the two machines, with
    packets of up to the size of the reader's buffer, any results of the doorbells, and no
    reader that starts on a packet whose header is not all in the queue, each piece of code
    returns, that of such a reader excepted; the packets posted on one machine are the first ones sent on the other,
    whole and in order; and the bytes of the rest are in the reader's buffer, in the queue and
    with the sender.  A reader can only be at such a header while the sender is inside of it. *)
Theorem haven_stream_safe n0 n b : link_start n0 -> rtc (whole step) n0 n ->
  writer_runs n b /\ (~ cut_short n b -> reader_runs n b) /\
  (cut_short n b -> exists p off, pkt_of (mc_w (side n (negb b))) = Some (p, off) /\ (0 < off < HEADER)%nat) /\
  exists q f, mc_sent (side n b) = hv_posted (mc (side n (negb b))) ++ q /\ holds (n_mem n) (pipe b) f /\
    concat q = got (ring_of (mc (side n (negb b)))) ++ f ++ unsent (mc_w (side n b)).
Proof.
  intros L St. pose proof (steps_kept n0 n (link_start_ok n0 L) St) as N.
  split; [by apply writer_runs_ok|]. split; [by apply reader_runs_ok|]. split.
  - intros T. destruct (pkt_of (mc_w (side n (negb b)))) as [[p off]|] eqn:Ep.
    + destruct (decide (0 < off < HEADER)%nat) as [|Hn]; [by exists p, off|].
      destruct (outside_header n b N); [|done]. intros p' off' [= <- <-]%(eq_trans (eq_sym Ep)). lia.
    + destruct (outside_header n b N); [|done]. intros p' off'. by rewrite Ep.
  - destruct (no_dir _ N b) as (f&Q&[_ _ (q&E1&E2&_)]). by exists q, f.
Qed.
End net.
