(* ===== verification/HavenLive.v ===== *)
(** * Every packet arrives

    When the doorbells get through, the link is never stuck before everything that was sent is
    posted, and the machines cannot take steps forever without new packets: no wake-up is
    lost, in whatever order the steps come. *)
From S2P Require Import Prelude CMem QrtrNs QrtrRouter QrtrPacket QrtrEndpoint QrtrHaven HavenFifo HavenLink HavenSafe HavenNet.
Open Scope c_scope.

(** ** One direction at a glance *)

(** The queue, the notification word, the sender; the doorbells pending at the sender's machine
    and at the reader's; and the reader. *)
Record view := View { v_f : list Z; v_nv : Z; v_w : writer; v_g : bool; v_go : bool; v_r : reader }.

Definition capacity : Z := FIFO_SIZE - FIFO_FULL_RESERVE.
Definition free (v : view) : Z := capacity - Z.of_nat (length (v_f v)).

Definition kicking (w : writer) : bool := match w with WKick _ _ => true | _ => false end.
Definition waits (w : writer) : bool := match w with WCheck _ _ | WAsleep _ _ => true | _ => false end.
Definition asleep (w : writer) : bool := match w with WAsleep _ _ => true | _ => false end.

(** Someone is about to look at the data; a sender that waits asked to be told; and when there
    is room for a sleeping sender, somebody is about to wake it. *)
Record alive (v : view) : Prop := {
  al_data : v_f v <> [] -> v_go v = true \/ v_r v <> RIdle \/ kicking (v_w v) = true;
  al_notify : waits (v_w v) = true -> v_nv v <> 0;
  al_asleep : asleep (v_w v) = true -> 0 < free v -> v_g v = true \/ v_r v = RKick;
}.

(** What a step does to the direction [c] in which its machine sends, and to the direction [o]
    in which it reads. *)
Inductive effect (c o : view) : view -> view -> Prop :=
| eff_done p nv : v_w c = WSend p (length p) -> effect c o (View (v_f c) nv WIdle (v_g c) (v_go c) (v_r c)) o
| eff_full p off : v_w c = WSend p off -> free c = 0 ->
    effect c o (View (v_f c) (v_nv c) (WNotify p off) (v_g c) (v_go c) (v_r c)) o
| eff_chunk p off k d : v_w c = WSend p off -> 0 < free c -> (0 < k)%nat -> (off + k <= length p)%nat -> length d = k ->
    effect c o (View (v_f c ++ d) (v_nv c) (WKick p (off + k)) (v_g c) (v_go c) (v_r c)) o
| eff_kick p off : v_w c = WKick p off ->
    effect c o (View (v_f c) (v_nv c) (WSend p off) (v_g c) true (v_r c))
               (View (v_f o) (v_nv o) (v_w o) true (v_go o) (v_r o))
| eff_notify p off : v_w c = WNotify p off -> effect c o (View (v_f c) 1 (WCheck p off) (v_g c) (v_go c) (v_r c)) o
| eff_check p off : v_w c = WCheck p off ->
    effect c o (View (v_f c) (v_nv c) (if free c =? 0 then WAsleep p off else WSend p off) (v_g c) (v_go c) (v_r c)) o
| eff_ring : v_g c = true -> v_r o = RIdle ->
    effect c o (View (v_f c) (v_nv c) (woken (v_w c)) false (v_go c) (v_r c))
               (View (v_f o) (v_nv o) (v_w o) (v_g o) false RLoop)
| eff_empty : v_r o = RLoop -> v_f o = [] -> effect c o c (View (v_f o) (v_nv o) (v_w o) (v_g o) (v_go o) RIdle)
| eff_read f : v_r o = RLoop -> (length f < length (v_f o))%nat ->
    effect c o c (View f (v_nv o) (v_w o) (v_g o) (v_go o) RKick)
| eff_quiet : v_r o = RKick -> v_nv o = 0 ->
    effect c o c (View (v_f o) (v_nv o) (v_w o) (v_g o) (v_go o) RLoop)
| eff_ring_back : v_r o = RKick -> v_nv o <> 0 ->
    effect c o (View (v_f c) (v_nv c) (v_w c) (v_g c) true (v_r c))
               (View (v_f o) (v_nv o) (v_w o) true (v_go o) RLoop).

(** The direction in which the machine sends. *)
Lemma effect_alive_out c o c' o' : effect c o c' o' -> alive c -> alive c'.
Proof.
  intros E [C1 C2 C3]. unfold free in *.
  destruct E as [p nv Hw|p off Hw Hf|p off k d Hw Hf Hk Hl Hd|p off Hw|p off Hw|p off Hw|Hg Hr|Hr Hf|f Hr Hf|Hr Hn|Hr Hn];
    try rewrite Hw in *; constructor; unfold free; cbn in *; try done.
  - intros _. by right; right.
  - intros _. by left.
  - intros Hne. destruct (C1 Hne) as [?|[?|?]]; auto; done.
  - intros _. by apply C2.
  - destruct (_ =? 0) eqn:E; [lia|done].
  - intros Hne. destruct (C1 Hne) as [?|[?|?]]; auto. right; right. by destruct (v_w c).
  - intros Hw. apply C2. by destruct (v_w c).
  - by destruct (v_w c).
  - intros _. by left.
Qed.

(** The direction in which it reads. *)
Lemma effect_alive_in c o c' o' : effect c o c' o' -> alive o -> alive o'.
Proof.
  intros E [O1 O2 O3]. unfold free in *.
  destruct E as [p nv Hw|p off Hw Hf|p off k d Hw Hf Hk Hl Hd|p off Hw|p off Hw|p off Hw|Hg Hr|Hr Hf|f Hr Hf|Hr Hn|Hr Hn];
    constructor; unfold free; cbn in *; try done.
  - intros _ _. by left.
  - intros _. by right; left.
  - intros Ha Hf. destruct (O3 Ha Hf) as [?|?]; [by left|congruence].
  - intros Ha Hz. destruct (O3 Ha Hz) as [?|?]; [by left|congruence].
  - intros _. by right; left.
  - intros _ _. by right.
  - intros _. by right; left.
  - intros Ha _. by destruct (O2 ltac:(by destruct (v_w o))).
  - intros _. by right; left.
  - intros _ _. by left.
Qed.

(** ** Nobody works forever *)
Definition writer_weight (w : writer) (room : Z) : Z :=
  match w with
  | WIdle | WAsleep _ _ => 0
  | WSend _ _ => if room =? 0 then 4 else 1
  | WKick _ _ => 12
  | WNotify _ _ => 3
  | WCheck _ _ => 2
  end.
Definition reader_weight (r : reader) : Z := match r with RIdle => 0 | RLoop => 1 | RKick => 9 end.

Definition weight (v : view) : Z :=
  40 * Z.of_nat (length (unsent (v_w v))) + 20 * Z.of_nat (length (v_f v)) + writer_weight (v_w v) (free v) +
  reader_weight (v_r v) + 6 * Z.b2z (v_g v).

Lemma writer_weight_range w r : 0 <= writer_weight w r <= 12.
Proof. destruct w; cbn; try lia. case_if; lia. Qed.

Lemma weight_nonneg v : 0 <= weight v.
Proof.
  unfold weight. pose proof (writer_weight_range (v_w v) (free v)). destruct (v_r v), (v_g v); cbn; lia.
Qed.

(** More room never makes a sender heavier. *)
Lemma writer_weight_mono w r r' : 0 <= r <= r' -> writer_weight w r' <= writer_weight w r.
Proof. intros Hr. destruct w; cbn; try lia. repeat case_if; lia. Qed.

Lemma effect_weight c o c' o' : effect c o c' o' -> 0 <= free c -> 0 <= free o ->
  weight c' + weight o' < weight c + weight o.
Proof.
  intros E Fc Fo. unfold weight, free, unsent in *.
  destruct E as [p nv Hw|p off Hw Hf|p off k d Hw Hf Hk Hl Hd|p off Hw|p off Hw|p off Hw|Hg Hr|Hr Hf|f Hr Hf|Hr Hn|Hr Hn];
    unfold free in *; cbn [v_f v_nv v_w v_g v_go v_r]; try rewrite Hw; try rewrite Hr; try rewrite Hg; try rewrite Hf;
    cbn [pkt_of writer_weight reader_weight length]; rewrite ?length_app, ?length_drop.
  - cbn. case_if; lia.
  - cbn. lia.
  - cbn. repeat case_if; lia.
  - cbn. destruct (v_g o); cbn; case_if; lia.
  - lia.
  - destruct (_ =? 0) eqn:E; cbn; rewrite ?E, ?length_drop; lia.
  - destruct (v_w c); cbn; lia.
  - cbn. lia.
  - pose proof (writer_weight_mono (v_w o) (capacity - Z.of_nat (length (v_f o))) (capacity - Z.of_nat (length f))). lia.
  - lia.
  - destruct (v_g o); cbn; lia.
Qed.

(** ** The machines *)
Section live.
Context {R : Type} `{EndpointLaws R} (base : Z).
Abbreviation pipe := (pipe_of base).
Abbreviation cut_short := (cut_short base).
Abbreviation whole := (whole base).

(** What machine [b] and its reader look like in the state. *)
Record sees (n : net R) (b : bool) (v : view) : Prop := {
  se_queue : holds (n_mem n) (pipe b) (v_f v);
  se_notify : v_nv v = rd32 (n_mem n) (pp_read_notify (pipe b));
  se_writer : v_w v = mc_w (side n b);
  se_rung : v_g v = mc_rung (side n b);
  se_other : v_go v = mc_rung (side n (negb b));
  se_reader : v_r v = mc_r (side n (negb b));
}.

Lemma holds_inj m p q q' : pipe_ok m p -> holds m p q -> holds m p q' -> q = q'.
Proof.
  intros P Q Q'. pose proof (rx_avail_ok _ _ _ P Q) as E. rewrite (rx_avail_ok _ _ _ P Q') in E. injection E as E.
  rewrite (ho_bytes _ _ _ Q), (ho_bytes _ _ _ Q'). f_equal. lia.
Qed.

Lemma sees_inj n b v v' : net_ok base n -> sees n b v -> sees n b v' -> v = v'.
Proof.
  intros N [A1 A2 A3 A4 A5 A6] [B1 B2 B3 B4 B5 B6]. destruct v, v'. cbn in *. f_equal; try congruence.
  apply (holds_inj (n_mem n) (pipe b)); try done. by apply pipe_of_ok, N.
Qed.

Lemma room_free b f : room (pipe b) f = capacity - Z.of_nat (length f).
Proof. unfold room, capacity. by rewrite pipe_length. Qed.

Lemma free_nonneg n b v : net_ok base n -> sees n b v -> 0 <= free v.
Proof. intros N [Q _ _ _ _ _]. pose proof (ho_room _ _ _ Q) as Hr. rewrite pipe_length in Hr. unfold free, capacity. lia. Qed.

(** The doorbells of both machines get through. *)
Definition reliable (n : net R) : Prop := forall b, hv_answers (mc (side n b)) = [].

Lemma notify_tx_apart b c : word (pp_read_notify (pipe (negb b))) c -> ~ tx_words base b c.
Proof. unfold tx_words, tx_part, word, fifo_of, run_of. destruct b; cbn [negb]; layout; lia. Qed.
Lemma notify_rx_apart b b' c : word (pp_read_notify (pipe b')) c -> ~ rx_words base b c.
Proof. unfold rx_words, rx_part, word. destruct b, b'; cbn [negb]; layout; lia. Qed.
Lemma notify_part_apart b c : word (pp_read_notify (pipe b)) c -> ~ tx_part (pipe b) c.
Proof. unfold tx_part, word, fifo_of, run_of. destruct b; layout; lia. Qed.

(** ** A step, and what it looks like *)
Lemma sees_back n b x h c o f nv f' nv' : sees n b c -> sees n (negb b) o ->
  holds (hv_mem h) (pipe b) f -> rd32 (hv_mem h) (pp_read_notify (pipe b)) = nv ->
  holds (hv_mem h) (pipe (negb b)) f' -> rd32 (hv_mem h) (pp_read_notify (pipe (negb b))) = nv' ->
  let g := (hv_rings (mc x) <? hv_rings h)%nat in
  sees (back (put n b x) b h) b (View f nv (mc_w x) (mc_rung x) (if g then true else v_go c) (v_r c)) /\
  sees (back (put n b x) b h) (negb b) (View f' nv' (v_w o) (if g then true else v_g o) (mc_rung x) (mc_r x)).
Proof.
  intros [_ _ _ _ C5 C6] [_ _ O3 O4 O5 _] Q En Q' En' g. rewrite negb_involutive in O5.
  pose proof (back_same n b x h) as Es. pose proof (back_other n b x h) as Eo. fold g in Eo.
  split; constructor; cbn [v_f v_nv v_w v_g v_go v_r]; rewrite ?back_mem, ?negb_involutive, ?Es, ?Eo; try done.
  - rewrite C5. by destruct g.
  - rewrite C6. by destruct g.
  - rewrite O3. by destruct g.
  - rewrite O4. by destruct g.
Qed.

Lemma view_eta v : View (v_f v) (v_nv v) (v_w v) (v_g v) (v_go v) (v_r v) = v.
Proof. by destruct v. Qed.

(** A step of the sender without a doorbell. *)
Lemma sees_tx n b w h c o f nv : net_ok base n -> sees n b c -> sees n (negb b) o ->
  changed (tx_words base b) (n_mem n) (hv_mem h) -> hv_rings h = hv_rings (mc (side n b)) ->
  holds (hv_mem h) (pipe b) f -> rd32 (hv_mem h) (pp_read_notify (pipe b)) = nv ->
  let n' := back (put n b (set_w w (side n b))) b h in
  sees n' b (View f nv w (v_g c) (v_go c) (v_r c)) /\ sees n' (negb b) o.
Proof.
  intros N C O Ch Er Q En n'. pose proof O as [O1 O2 _ _ O5 O6]. rewrite negb_involutive in O5, O6.
  assert (Q' : holds (hv_mem h) (pipe (negb b)) (v_f o)).
  { apply (holds_changed (tx_words base b) (n_mem n)); [by apply pipe_of_ok, N|done|apply tx_apart|done]. }
  assert (En' : rd32 (hv_mem h) (pp_read_notify (pipe (negb b))) = v_nv o).
  { rewrite O2. apply (rd32_changed (tx_words base b)); [done|]. apply notify_tx_apart. }
  destruct (sees_back n b (set_w w (side n b)) h c o f nv (v_f o) (v_nv o) C O Q En Q' En') as [S1 S2].
  cbn [mc set_w] in S1, S2. rewrite Er, Nat.ltb_irrefl in S1, S2. cbn [mc_w mc_rung mc_r set_w] in S1, S2.
  rewrite <-O5, <-O6, view_eta in S2. split; [|exact S2]. by rewrite (se_rung _ _ _ C).
Qed.

(** A doorbell. *)
Lemma sees_kick n b x h d c o : net_ok base n -> reliable n -> sees n b c -> sees n (negb b) o ->
  kicked (at_ n b) d h -> mc x = mc (side n b) -> let n' := back (put n b x) b h in
  sees n' b (View (v_f c) (v_nv c) (mc_w x) (mc_rung x) true (v_r c)) /\
  sees n' (negb b) (View (v_f o) (v_nv o) (v_w o) true (mc_rung x) (mc_r x)).
Proof.
  intros N Rel C O (v&->) Ex. cbv zeta. pose proof C as [C1 C2 _ _ _ _]. pose proof O as [O1 O2 _ _ _ _].
  match goal with |- context [back _ b ?h] =>
    destruct (sees_back n b x h c o (v_f c) (v_nv c) (v_f o) (v_nv o) C O C1 (eq_sym C2) O1 (eq_sym O2)) as [S1 S2];
    assert (G : (hv_rings (mc x) <? hv_rings h)%nat = true) end.
  { rewrite Ex. cbn. rewrite (Rel b). cbn. apply Nat.leb_refl. }
  rewrite G in S1, S2. by split.
Qed.

(** A step of the reader without a doorbell. *)
Lemma sees_rx n b x h c o f : net_ok base n -> sees n b c -> sees n (negb b) o ->
  changed (rx_words base b) (n_mem n) (hv_mem h) -> hv_rings h = hv_rings (mc (side n b)) -> mc x = mc (side n b) ->
  holds (hv_mem h) (pipe (negb b)) f -> let n' := back (put n b x) b h in
  sees n' b (View (v_f c) (v_nv c) (mc_w x) (mc_rung x) (v_go c) (v_r c)) /\
  sees n' (negb b) (View f (v_nv o) (v_w o) (v_g o) (mc_rung x) (mc_r x)).
Proof.
  intros N C O Ch Er Ex Q' n'. pose proof C as [C1 C2 _ _ _ _]. pose proof O as [O1 O2 _ _ _ _].
  assert (Q : holds (hv_mem h) (pipe b) (v_f c)).
  { apply (holds_changed (rx_words base b) (n_mem n)); [by apply pipe_of_ok, N|done|apply rx_apart|done]. }
  assert (En : forall b', rd32 (hv_mem h) (pp_read_notify (pipe b')) = rd32 (n_mem n) (pp_read_notify (pipe b'))).
  { intros b'. apply (rd32_changed (rx_words base b)); [done|]. apply notify_rx_apart. }
  destruct (sees_back n b x h c o (v_f c) (v_nv c) f (v_nv o) C O Q ltac:(by rewrite En) Q' ltac:(by rewrite En)) as [S1 S2].
  rewrite Ex, Er, Nat.ltb_irrefl in S1, S2. by split.
Qed.

Lemma reliable_back n b x h : reliable n -> hv_answers h = [] -> reliable (back (put n b x) b h).
Proof.
  intros Rel Ha. unfold reliable. apply (both_sides _ b); [by rewrite back_same|].
  destruct (back_other_rest n b x h) as (->&_). apply Rel.
Qed.

(** What a step does, as [effect] says. *)
Definition shown (n : net R) (b : bool) (c o : view) (n' : net R) : Prop :=
  exists c' o', effect c o c' o' /\ sees n' b c' /\ sees n' (negb b) o' /\ reliable n'.

Section one.
Context (n : net R) (b : bool) (c o : view) (d : qrtr_haven_dev).
Hypothesis (N : net_ok base n) (Rel : reliable n) (C : sees n b c) (O : sees n (negb b) o).
Hypothesis (Hd : hv_dev (at_ n b) = Some d) (Dok : dev_ok base b (hv_router (at_ n b)) d)
  (Reg : region_ok base (hv_mem (at_ n b))).

Lemma tx_shown w h f nv : changed (tx_words base b) (n_mem n) (hv_mem h) -> hv_rings h = hv_rings (mc (side n b)) ->
  hv_answers h = [] -> holds (hv_mem h) (pipe b) f -> rd32 (hv_mem h) (pp_read_notify (pipe b)) = nv ->
  effect c o (View f nv w (v_g c) (v_go c) (v_r c)) o -> shown n b c o (back (put n b (set_w w (side n b))) b h).
Proof.
  intros Ch Er Ha Q En E. destruct (sees_tx n b w h c o f nv N C O Ch Er Q En) as [S1 S2].
  exists (View f nv w (v_g c) (v_go c) (v_r c)), o. split_and!; [done|done|done|by apply reliable_back].
Qed.

Lemma writer_shown w : effect c o (View (v_f c) (v_nv c) w (v_g c) (v_go c) (v_r c)) o ->
  shown n b c o (back (put n b (set_w w (side n b))) b (at_ n b)).
Proof.
  intros E. apply (tx_shown w _ (v_f c) (v_nv c)); try done; [apply Rel|apply C|symmetry; apply C].
Qed.

Lemma notify_shown w v : 0 <= v < 2 ^ 32 -> effect c o (View (v_f c) v w (v_g c) (v_go c) (v_r c)) o ->
  shown n b c o (back (put n b (set_w w (side n b))) b (set_mem (wr32 (n_mem n) (pp_read_notify (pipe b)) v) (at_ n b))).
Proof.
  intros Hv E. apply (tx_shown w _ (v_f c) v); try done; [|apply Rel| |].
  - apply changed_store. intros x Hx. by right.
  - apply (holds_changed (word (pp_read_notify (pipe b))) (n_mem n)); [by apply pipe_of_ok, N| |apply notify_apart|apply C].
    by apply changed_store.
  - cbn. rewrite rd32_wr32. by apply u32_id.
Qed.

Lemma chunk_shown p off avail h1 off' left' h : mc_w (side n b) = WSend p off -> (off < length p)%nat ->
  on_mem (haven_tx_avail (qd_tx d)) (at_ n b) = Ok (avail, h1) -> avail <> 0 ->
  send_chunk p (Z.of_nat off) (Z.of_nat (length p - off)) avail h1 = Ok ((off', left'), h) ->
  shown n b c o (back (put n b (set_w (WKick p (Z.to_nat off')) (side n b))) b h).
Proof.
  intros Hw Ho Ea Hne E. pose proof (se_queue _ _ _ C) as Q. destruct (no_dir _ _ N b) as (f&Qf&S).
  assert (f = v_f c) as -> by (apply (holds_inj (n_mem n) (pipe b)); [by apply pipe_of_ok, N|done|done]).
  rewrite (tx_avail_at base n b d _ N Hd Q) in Ea. injection Ea as <- <-.
  pose proof (free_nonneg n b c N C) as Hfree. assert (Er : room (pipe b) (v_f c) = free c) by apply room_free.
  assert (Hpos : 0 < room (pipe b) (v_f c)) by lia.
  pose proof (stream_packet _ _ _ _ _ p off S ltac:(by rewrite Hw)) as Hp.
  destruct (chunk_exec base b (at_ n b) d Hd Dok Reg _ p off _ Q (fr_bytes _ Hp) Ho eq_refl Hpos) as (m'&E'&Ch&Q').
  cbv zeta in E', Q'. set (k := (Z.to_nat (room (pipe b) (v_f c)) `min` (length p - off))%nat) in *.
  rewrite E in E'. injection E' as -> -> ->. rewrite Nat2Z.id.
  assert (En : rd32 m' (pp_read_notify (pipe b)) = v_nv c).
  { rewrite (se_notify _ _ _ C). apply (rd32_changed (tx_part (pipe b))); [done|]. apply notify_part_apart. }
  apply (tx_shown _ _ (v_f c ++ take k (drop off p)) (v_nv c)); try done; [|apply Rel|].
  - apply (changed_weaken (tx_part (pipe b))); [|exact Ch]. intros x Hx. by left.
  - apply eff_chunk; [by rewrite (se_writer _ _ _ C)|lia|unfold k; lia|unfold k; lia|].
    rewrite length_take, length_drop. unfold k. lia.
Qed.

Lemma rx_shown r h f : changed (rx_words base b) (n_mem n) (hv_mem h) -> hv_rings h = hv_rings (mc (side n b)) ->
  hv_answers h = [] -> holds (hv_mem h) (pipe (negb b)) f ->
  effect c o c (View f (v_nv o) (v_w o) (v_g o) (v_go o) r) -> shown n b c o (back (put n b (set_r r (side n b))) b h).
Proof.
  intros Ch Er Ha Q E. destruct (sees_rx n b (set_r r (side n b)) h c o f N C O Ch Er eq_refl Q) as [S1 S2].
  cbn [mc_w mc_rung mc_r set_r] in S1, S2. pose proof C as [_ _ C3 C4 _ _]. pose proof (se_other _ _ _ O) as O5.
  rewrite negb_involutive in O5. rewrite <-C3, <-C4, view_eta in S1. rewrite <-O5 in S2.
  eexists c, _. split_and!; [exact E|done|done|by apply reliable_back].
Qed.

Lemma read_shown h1 h : mc_r (side n b) = RLoop -> ~ cut_short n b -> read_avail (at_ n b) = Ok (true, h1) -> read_some h1 = Ok (tt, h) ->
  shown n b c o (back (put n b (set_r RKick (side n b))) b h).
Proof.
  intros Hr Ht Ea E. destruct (no_dir _ _ N (negb b)) as (f&Q&S). rewrite negb_involutive in S.
  pose proof (at_dev base n b N) as (d'&Hd'&_&_&_&Er). rewrite Hd in Hd'. injection Hd' as <-.
  rewrite (read_avail_exec base b (at_ n b) d Hd Dok Reg f Q) in Ea. injection Ea as Hf <-.
  assert (Hne : f <> []) by (intros ->; cbn in Hf; lia).
  pose proof (header_there base n b f Hr Ht Q Hne) as Hh. rewrite Er in S, Hh.
  destruct (read_some_exec base b (at_ n b) d Hd Dok Reg f _ _ Q Hne S Hh) as (h'&E'&Ro). rewrite E in E'. injection E' as <-.
  destruct (ro_dev _ _ _ _ _ _ _ _ Ro) as (g&_&_&f'&Q'&Hlt&_). destruct (ro_rest _ _ _ _ _ _ _ _ Ro) as [Ra Rr].
  assert (f = v_f o) as -> by (apply (holds_inj (n_mem n) (pipe (negb b))); [by apply pipe_of_ok, N|done|apply O]).
  apply (rx_shown RKick h f'); try done; [apply (ro_mem _ _ _ _ _ _ _ _ Ro)|rewrite Ra; apply Rel|].
  apply eff_read; [|done]. rewrite (se_reader _ _ _ O), negb_involutive. exact Hr.
Qed.

Lemma kick_shown p off h : mc_w (side n b) = WKick p off -> qrtr_haven_kick (at_ n b) = Ok (tt, h) ->
  shown n b c o (back (put n b (set_w (WSend p off) (side n b))) b h).
Proof.
  intros Hw E. destruct (kick_exec (at_ n b) d Hd) as (h'&E'&K). rewrite E in E'. injection E' as <-.
  destruct (sees_kick n b (set_w (WSend p off) (side n b)) h d c o N Rel C O K eq_refl) as [S1 S2].
  cbn [mc_w mc_rung mc_r set_w] in S1, S2. pose proof (se_other _ _ _ O) as O5. pose proof (se_reader _ _ _ O) as O6.
  rewrite negb_involutive in O5, O6. rewrite <-(se_rung _ _ _ C) in S1. rewrite <-O5, <-O6 in S2.
  eexists _, _. split; [apply (eff_kick _ _ p off); by rewrite (se_writer _ _ _ C)|]. split_and!; [done|done|].
  apply reliable_back; [done|]. destruct K as (v&->). cbn. by rewrite (Rel b).
Qed.

Lemma read_kick_shown h : mc_r (side n b) = RKick -> read_kick (at_ n b) = Ok (tt, h) ->
  shown n b c o (back (put n b (set_r RLoop (side n b))) b h).
Proof.
  intros Hr E. destruct (read_kick_exec base b (at_ n b) d Hd Dok Reg) as (h'&E'&K). rewrite E in E'. injection E' as <-.
  pose proof (se_reader _ _ _ O) as O6. pose proof (se_other _ _ _ O) as O5. rewrite negb_involutive in O5, O6.
  assert (En : v_nv o = rd32 (hv_mem (at_ n b)) (pp_read_notify (pipe (negb b)))) by apply O.
  rewrite <-En in K. destruct (v_nv o =? 0) eqn:Ez.
  - subst h. apply (rx_shown RLoop _ (v_f o)); try done; [apply Rel|apply O|]. apply eff_quiet; [congruence|lia].
  - destruct (sees_kick n b (set_r RLoop (side n b)) h d c o N Rel C O K eq_refl) as [S1 S2].
    cbn [mc_w mc_rung mc_r set_r] in S1, S2. rewrite <-(se_rung _ _ _ C), <-(se_writer _ _ _ C) in S1. rewrite <-O5 in S2.
    eexists _, _. split; [apply eff_ring_back; [congruence|lia]|]. split_and!; [done|done|].
    apply reliable_back; [done|]. destruct K as (v&->). cbn. by rewrite (Rel b).
Qed.

Lemma ring_shown h : mc_rung (side n b) = true -> mc_r (side n b) = RIdle -> wake_up_all (at_ n b) = Ok (tt, h) ->
  shown n b c o (back (put n b (set_rung false (set_r RLoop (set_w (woken (mc_w (side n b))) (side n b))))) b h).
Proof.
  intros Hg Hr [= <-]. pose proof (se_reader _ _ _ O) as O6. rewrite negb_involutive in O6.
  match goal with |- shown _ _ _ _ (back (put _ _ ?x) _ ?h) =>
    destruct (sees_rx n b x h c o (v_f o) N C O (changed_refl _ _) eq_refl eq_refl (se_queue _ _ _ O)) as [S1 S2] end.
  cbn [mc_w mc_rung mc_r set_rung set_r set_w] in S1, S2. rewrite <-(se_writer _ _ _ C) in S1.
  eexists _, _. split; [apply eff_ring; [by rewrite (se_rung _ _ _ C)|congruence]|]. split_and!.
  - by rewrite (se_writer _ _ _ C) in S1 |- *.
  - exact S2.
  - apply reliable_back; [done|apply Rel].
Qed.
End one.

Lemma move_shown n b n' c o : net_ok base n -> reliable n -> sees n b c -> sees n (negb b) o ->
  whole (move b) n n' -> shown n b c o n'.
Proof.
  intros N Rel C O [M Ht]. destruct (at_dev base n b N) as (d0&Hd0&Dok0&Reg0&_). pose proof (se_writer _ _ _ C) as C3.
  destruct M as
    [p h Hw E|p off d h Hw Ho Hd E|p off d avail h1 off' left' h Hw Ho Hd Ea Hne E|p off h Hw E|p off h Hw E
    |p off d avail h Hw Hd E|h Hg Hi E|h Hr E|h1 h Hr Ea E|h Hr E].
  - rewrite (clr_notify_exec base b (at_ n b) d0 Hd0 Dok0 Reg0) in E. injection E as <-.
    apply notify_shown; try done. apply (eff_done _ _ p). congruence.
  - rewrite (tx_avail_at base n b d _ N Hd (se_queue _ _ _ C)) in E. injection E as Ez <-. rewrite room_free in Ez.
    apply writer_shown; try done. apply eff_full; [congruence|exact Ez].
  - rewrite Hd in Hd0. injection Hd0 as <-. by apply (chunk_shown n b c o d N Rel C O Hd Dok0 Reg0 p off avail h1 off' left' h).
  - by apply (kick_shown n b c o d0 N Rel C O Hd0 p off h).
  - rewrite (set_notify_exec base b (at_ n b) d0 Hd0 Dok0 Reg0) in E. injection E as <-.
    apply notify_shown; try done. apply eff_notify. congruence.
  - rewrite (tx_avail_at base n b d _ N Hd (se_queue _ _ _ C)) in E. injection E as <- <-. rewrite room_free.
    fold (free c). apply writer_shown; try done. apply eff_check. congruence.
  - by apply (ring_shown n b c o N Rel C O).
  - rewrite (read_avail_exec base b (at_ n b) d0 Hd0 Dok0 Reg0 _ (se_queue _ _ _ O)) in E. injection E as Hf <-.
    apply (rx_shown n b c o N Rel C O RIdle _ (v_f o)); try done; [apply Rel|apply O|]. apply eff_empty.
    + rewrite (se_reader _ _ _ O), negb_involutive. exact Hr.
    + apply nil_length_inv. lia.
  - apply (read_shown n b c o d0 N Rel C O Hd0 Dok0 Reg0 h1); try done. intros T. apply (Ht b T). by rewrite back_same.
  - by apply (read_kick_shown n b c o d0 N Rel C O Hd0 Dok0 Reg0).
Qed.

(** ** What stays true *)
Record live (n : net R) : Prop := {
  lv_ok : net_ok base n;
  lv_reliable : reliable n;
  lv_alive b : exists v, sees n b v /\ alive v;
}.

Lemma live_move n b n' : live n -> whole (move b) n n' -> live n'.
Proof.
  intros [N Rel A] M. destruct (A b) as (c&C&Ac), (A (negb b)) as (o&O&Ao).
  destruct (move_shown n b n' c o N Rel C O M) as (c'&o'&E&C'&O'&Rel'). constructor; [by apply (move_kept base n b)|done|].
  apply (both_sides _ b); [exists c'|exists o']; (split; [done|]); [by eapply effect_alive_out|by eapply effect_alive_in].
Qed.

(** The state of a machine as a view, without a choice. *)
Definition queue_of (m : mem) (p : haven_pipe) : list Z :=
  ring_bytes m (pp_fifo p) (pp_length p) (rd32 m (pp_tail p))
    (Z.to_nat ((rd32 m (pp_head p) - rd32 m (pp_tail p)) mod pp_length p)).
Definition view_of (n : net R) (b : bool) : view :=
  View (queue_of (n_mem n) (pipe b)) (rd32 (n_mem n) (pp_read_notify (pipe b))) (mc_w (side n b))
    (mc_rung (side n b)) (mc_rung (side n (negb b))) (mc_r (side n (negb b))).

Lemma holds_queue m p q : pipe_ok m p -> holds m p q -> q = queue_of m p.
Proof.
  intros P [Q1 Q2 Q3 Q4]. unfold queue_of. rewrite Q4 at 1. f_equal. rewrite Q2.
  rewrite Zminus_mod_idemp_l. pose proof (po_length _ _ P). unfold FIFO_FULL_RESERVE in *.
  rewrite Z.mod_small by lia. lia.
Qed.

Lemma sees_view n b v : net_ok base n -> sees n b v -> v = view_of n b.
Proof.
  intros N [V1 V2 V3 V4 V5 V6]. destruct v. cbn in *. unfold view_of. f_equal; try done.
  apply holds_queue; [by apply pipe_of_ok, N|done].
Qed.

Definition measure (n : net R) : nat := Z.to_nat (weight (view_of n true) + weight (view_of n false)).

Lemma measure_sides n b : measure n = Z.to_nat (weight (view_of n b) + weight (view_of n (negb b))).
Proof. unfold measure. destruct b; cbn [negb]; f_equal; lia. Qed.

Lemma move_measure n b n' : live n -> whole (move b) n n' -> (measure n' < measure n)%nat.
Proof.
  intros L M. pose proof (live_move n b n' L M) as L'. destruct L as [N Rel A]. destruct (A b) as (c&C&_), (A (negb b)) as (o&O&_).
  destruct (move_shown n b n' c o N Rel C O M) as (c'&o'&E&C'&O'&_).
  pose proof (effect_weight c o c' o' E (free_nonneg n b c N C) (free_nonneg n _ o N O)).
  rewrite !(measure_sides _ b), <-(sees_view n b c), <-(sees_view n (negb b) o), <-(sees_view n' b c'), <-(sees_view n' (negb b) o')
    by (done || apply L').
  pose proof (weight_nonneg c'). pose proof (weight_nonneg o'). lia.
Qed.

Lemma reliable_put n b x : reliable n -> hv_answers (mc x) = [] -> reliable (put n b x).
Proof.
  intros Rel Ha. unfold reliable. apply (both_sides _ b); [by rewrite side_put_same|by rewrite side_put_other].
Qed.

(** A change of the sender alone. *)
Lemma live_put n b x : live n -> net_ok base (put n b x) -> hv_answers (mc x) = [] ->
  mc_r x = mc_r (side n b) -> mc_rung x = mc_rung (side n b) ->
  (forall v, sees n b v -> alive v -> alive (View (v_f v) (v_nv v) (mc_w x) (v_g v) (v_go v) (v_r v))) ->
  live (put n b x).
Proof.
  intros [N Rel A] N' Ha Hr Hg Hw. assert (Em : n_mem (put n b x) = n_mem n) by (by destruct b).
  constructor; [done|by apply reliable_put|]. apply (both_sides _ b).
  - destruct (A b) as (v&V&Av). eexists. split; [|by apply (Hw v)]. destruct V as [V1 V2 V3 V4 V5 V6].
    constructor; cbn [v_f v_nv v_w v_g v_go v_r]; rewrite ?Em, ?side_put_same, ?side_put_other; congruence.
  - destruct (A (negb b)) as (v&V&Av). exists v. split; [|done]. destruct V as [V1 V2 V3 V4 V5 V6]. rewrite negb_involutive in V5, V6.
    constructor; rewrite ?Em, ?negb_involutive, ?side_put_same, ?side_put_other; congruence.
Qed.

Lemma live_input n b n' : live n -> input b n n' -> live n'.
Proof.
  intros L I. pose proof (input_kept base n b n' (lv_ok _ L) I) as N'. destruct I as [p x Hw Hp Hp' ->|p off Hw|d h Hd Hq E|d a r h Hd Ha Hr ->].
  - apply live_put; try done; [apply L|]. intros v V [A1 A2 A3]. constructor; cbn; try done.
    rewrite (se_writer _ _ _ V), Hw in A1. exact A1.
  - apply live_put; try done; [apply L|]. intros v V [A1 A2 A3]. constructor; cbn; try done.
    rewrite (se_writer _ _ _ V), Hw in A1. exact A1.
  - destruct (retry_exec (at_ n b) d Hd) as (h'&E'&K). rewrite E in E'. injection E' as <-. destruct L as [N Rel A].
    destruct (A b) as (c&C&Ac), (A (negb b)) as (o&O&Ao).
    destruct (sees_kick n b (side n b) h d c o N Rel C O K eq_refl) as [S1 S2]. rewrite put_same in S1, S2.
    constructor; [done| |].
    + rewrite <-(put_same n b). apply reliable_back; [done|]. destruct K as (v&->). cbn. by rewrite (Rel b).
    + destruct Ac as [C1 C2 C3], Ao as [O1 O2 O3]. pose proof (se_other _ _ _ O) as O5. pose proof (se_reader _ _ _ O) as O6.
      rewrite negb_involutive in O5, O6. rewrite <-O5, <-O6 in S2. rewrite <-(se_writer _ _ _ C), <-(se_rung _ _ _ C) in S1.
      apply (both_sides _ b); eexists; (split; [eassumption|]); constructor; cbn; try done; intros; by left.
  - apply live_put; try done; [apply L|]. intros v V [A1 A2 A3]. constructor; cbn; rewrite <-?(se_writer _ _ _ V); done.
Qed.

Lemma live_steps n n' : live n -> rtc (whole step) n n' -> live n'.
Proof.
  intros L St. induction St as [|n n1 n' [(b&[M|I]) Ht] _ IH]; [done|..]; apply IH; [by apply (live_move n b)|by apply (live_input n b)].
Qed.

Lemma live_start n : link_start base n -> reliable n -> live n.
Proof.
  intros L Rel. constructor; [by apply link_start_ok|done|]. intros b. destruct L as [_ L2 L3]. destruct (L2 b) as (_&Hw&_).
  exists (View [] (rd32 (n_mem n) (pp_read_notify (pipe b))) (mc_w (side n b)) (mc_rung (side n b)) (mc_rung (side n (negb b)))
            (mc_r (side n (negb b)))).
  split; [constructor; try done; apply L3|]. rewrite Hw. by constructor.
Qed.

(** ** Somebody can always go on *)
Definition moves (n n' : net R) : Prop := exists b, move b n n'.

(** Everything that was sent is posted. *)
Definition settled (n : net R) : Prop := forall b,
  mc_w (side n b) = WIdle /\ mc_sent (side n b) = hv_posted (mc (side n (negb b))).

(** The only way a machine is stuck. *)
Definition stuck (n : net R) (b : bool) (v : view) : Prop :=
  mc_r (side n b) = RIdle /\ v_g v = false /\
  (v_w v = WIdle \/ exists p off, v_w v = WAsleep p off).

(** No step of a machine that is not at a header cut short takes one. *)
Lemma back_reader (n : net R) c x h b : b <> c -> mc_r (side (back (put n c x) c h) b) = mc_r (side n b).
Proof.
  intros Hne. assert (b = negb c) as -> by (by destruct b, c). by destruct (back_other_rest n c x h) as (_&_&E&_).
Qed.

Lemma move_whole n b n' : ~ cut_short n b -> move b n n' -> whole (move b) n n'.
Proof.
  intros Ht M. split; [done|]. intros b' T. destruct (decide (b' = b)) as [->|Hne]; [done|].
  destruct T as [Hr _]. destruct M; by rewrite back_reader, Hr.
Qed.

Lemma sender_goes n b v p off : net_ok base n -> sees n b v -> v_w v = WSend p off -> exists n', move b n n'.
Proof.
  intros N V Hw. pose proof (se_writer _ _ _ V) as V3. rewrite Hw in V3. symmetry in V3.
  destruct (at_dev base n b N) as (d&Hd&Dok&Reg&_). destruct (no_dir _ _ N b) as (f&Qf&S).
  destruct (st_writer _ _ _ _ _ S p off ltac:(by rewrite V3)) as (Ho&_).
  pose proof (free_nonneg n b v N V). pose proof (tx_avail_at base n b d _ N Hd (se_queue _ _ _ V)) as Ea.
  rewrite room_free in Ea. fold (free v) in Ea. pose proof (writer_runs_ok base n b N) as Wr. unfold writer_runs in Wr. rewrite V3 in Wr.
  destruct (off <? length p)%nat eqn:El.
  - apply Nat.ltb_lt in El. destruct Wr as (d'&avail&Hd'&Ea'&Wr). rewrite Hd in Hd'. injection Hd' as <-.
    rewrite Ea in Ea'. injection Ea' as <-. destruct (decide (free v = 0)) as [Hz|Hz].
    { rewrite Hz in Ea. eexists. by apply (move_full b n p off d). }
    destruct (Wr ltac:(lia)) as ([off' left']&h&E). eexists. by eapply (move_chunk b n p off d).
  - apply Nat.ltb_ge in El. assert (off = length p) as -> by lia. destruct Wr as (h&E). eexists. by apply (move_done b n p h).
Qed.

Lemma machine_moves n b v : live n -> ~ cut_short n b -> sees n b v -> (exists n', move b n n') \/ stuck n b v.
Proof.
  intros [N Rel _] Ht V. pose proof (writer_runs_ok base n b N) as Wr. pose proof (reader_runs_ok base n b N Ht) as Rr.
  pose proof (se_writer _ _ _ V) as V3. pose proof (se_rung _ _ _ V) as V4. unfold writer_runs, reader_runs in *.
  destruct (mc_r (side n b)) eqn:Hr.
  2: { left. destruct Rr as (some&E&Hs). destruct some; [destruct (Hs eq_refl) as (h&E2)|]; eexists; [by eapply move_read|by eapply move_empty]. }
  2: { left. destruct Rr as (h&E). eexists. by eapply move_read_kick. }
  destruct (mc_rung (side n b)) eqn:Hg; [left; eexists; by eapply move_ring|].
  destruct (mc_w (side n b)) as [|p off|p off|p off|p off|p off] eqn:Hw.
  - right. split_and!; [done|done|by left].
  - left. by apply (sender_goes n b v p off N V V3).
  - left. destruct Wr as (h&E). eexists. by eapply move_kick.
  - left. destruct Wr as (h&E). eexists. by eapply move_notify.
  - left. destruct Wr as (d&avail&Hd&E). eexists. by eapply move_check.
  - right. split_and!; [done|done|]. right. eauto.
Qed.

Lemma machine_goes n b v : live n -> ~ cut_short n b -> sees n b v -> (exists n', whole (move b) n n') \/ stuck n b v.
Proof.
  intros L Ht V. destruct (machine_moves n b v L Ht V) as [(n'&M)|]; [left|by right]. exists n'. by apply move_whole.
Qed.

(** While only one reader is at a header that is cut short, the machine that sends it can go on. *)
Lemma torn_goes n b : live n -> cut_short n b -> ~ cut_short n (negb b) -> exists n', whole (move (negb b)) n n'.
Proof.
  intros L T Ht. destruct (lv_alive _ L (negb b)) as (v&V&[_ _ A3]).
  destruct (machine_goes n (negb b) v L Ht V) as [?|(Hr&Hg&Hw)]; [done|exfalso].
  apply (outside_header base n b); [apply L| |done]. intros p off Hp. rewrite <-(se_writer _ _ _ V) in Hp.
  destruct Hw as [Hw|(p'&off'&Hw)]; rewrite Hw in Hp; [done|]. destruct T as (Hrl&_&f&Q&Hf).
  destruct A3 as [?|Hro]; [by rewrite Hw| |congruence|rewrite (se_reader _ _ _ V), negb_involutive in Hro; congruence].
  assert (f = v_f v) as -> by (apply (holds_inj (n_mem n) (pipe (negb b))); [apply pipe_of_ok, L|done|apply V]).
  unfold free, capacity, FIFO_SIZE, FIFO_FULL_RESERVE, HEADER in *. lia.
Qed.

(** An empty queue with nobody at work means that everything arrived. *)
Lemma stream_settled f w sent g posted : stream f w sent g posted -> f = [] -> w = WIdle -> sent = posted.
Proof.
  intros [S1 _ (q&E1&E2&E3)] -> ->. cbn in E2. rewrite app_nil_r in E2. destruct q as [|p q]; [by rewrite E1, app_nil_r|exfalso].
  rewrite E1, Forall_app, Forall_cons in S1. destruct S1 as (_&(Hp&_)&_). pose proof (fr_size _ Hp) as Hs. unfold HEADER in Hs.
  apply (f_equal length) in E2. cbn in E2. rewrite length_app in E2.
  destruct E3 as [Hz|(p'&q'&[= <- <-]&_&Ho)].
  - pose proof (length_got g ltac:(lia)). lia.
  - pose proof (length_got g ltac:(lia)). lia.
Qed.

Lemma all_stuck_settled n : live n -> (forall b, ~ cut_short n b) -> (forall b, ~ exists n', whole (move b) n n') -> settled n.
Proof.
  intros L Ht Hno. assert (Hst : forall b, exists v, sees n b v /\ alive v /\ stuck n b v).
  { intros b. destruct (lv_alive _ L b) as (v&V&A). destruct (machine_goes n b v L (Ht b) V) as [?|?]; [by destruct (Hno b)|by exists v]. }
  intros b. destruct (Hst b) as (v&V&[A1 A2 A3]&Hr&Hg&Hw), (Hst (negb b)) as (v'&V'&_&Hr'&Hg'&_).
  assert (Hf : v_f v = []).
  { destruct (v_f v) as [|x l] eqn:Ef; [done|exfalso]. destruct (A1 ltac:(done)) as [Hgo|[Hro|Hk]].
    - rewrite (se_other _ _ _ V), <-(se_rung _ _ _ V') in Hgo. congruence.
    - rewrite (se_reader _ _ _ V) in Hro. congruence.
    - destruct Hw as [Hw|(p&off&Hw)]; by rewrite Hw in Hk. }
  assert (Hfree : free v = capacity) by (unfold free; rewrite Hf; cbn; lia).
  assert (Hidle : v_w v = WIdle).
  { destruct Hw as [?|(p&off&Hw)]; [done|exfalso].
    destruct A3 as [?|Hro]; [by rewrite Hw|rewrite Hfree; done|congruence|].
    rewrite (se_reader _ _ _ V) in Hro. congruence. }
  rewrite (se_writer _ _ _ V) in Hidle. split; [exact Hidle|]. destruct (no_dir _ _ (lv_ok _ L) b) as (f&Q&S).
  assert (f = v_f v) as -> by (apply (holds_inj (n_mem n) (pipe b)); [apply pipe_of_ok, L|done|apply V]).
  by eapply stream_settled.
Qed.

Lemma whole_moves n n' : whole moves n n' -> exists b, whole (move b) n n'.
Proof. intros [(b&M) Ht]. by exists b. Qed.

Lemma moves_live n n' : live n -> rtc (whole moves) n n' -> live n'.
Proof. intros L St. induction St as [|n n1 n' (b&M)%whole_moves _ IH]; [done|]. apply IH. by apply (live_move n b). Qed.

Lemma moves_sent n n' b : rtc (whole moves) n n' -> mc_sent (side n' b) = mc_sent (side n b).
Proof.
  induction 1 as [|n n1 n' [(c&M) _] _ IH]; [done|]. rewrite IH. clear IH.
  assert (G : forall x h, mc_sent x = mc_sent (side n c) -> mc_sent (side (back (put n c x) c h) b) = mc_sent (side n b)).
  { intros x h Ex. revert b. apply (both_sides _ c); [by rewrite back_same|].
    by destruct (back_other_rest n c x h) as (_&_&_&E). }
  destruct M; by apply G.
Qed.

Lemma moves_end n : live n -> sn (whole moves) n.
Proof.
  remember (measure n) as k eqn:Hk. revert n Hk. induction k as [k IH] using lt_wf_ind. intros n -> L.
  constructor. intros n' (b&M)%whole_moves. apply (IH (measure n')); [by apply (move_measure n b)|done|by apply (live_move n b)].
Qed.

(** C31: every packet arrives.  When the doorbells get through, then from any state the machines
    can reach, with packets of up to the size of the reader's buffer, timeouts and retries in
    any order, and no reader that starts on a packet whose header is not all in the queue, their
    own steps of this kind come to an end; and when no such step is left, and not both readers
    are at such a header, both senders are idle and each machine has posted exactly what the
    other one sent.  No wake-up is lost. *)
Theorem haven_delivers n0 n : link_start base n0 -> reliable n0 -> rtc (whole step) n0 n ->
  sn (whole moves) n /\
  forall n', rtc (whole moves) n n' -> nf (whole moves) n' -> ~ (forall b, cut_short n' b) -> forall b,
    mc_w (side n' b) = WIdle /\ hv_posted (mc (side n' (negb b))) = mc_sent (side n b).
Proof.
  intros St Rel Hst. pose proof (live_steps n0 n (live_start n0 St Rel) Hst) as L. split; [by apply moves_end|].
  intros n' Hm Hnf. pose proof (moves_live n n' L Hm) as L'.
  assert (Hno : forall c, ~ exists n'', whole (move c) n' n'').
  { intros c (n''&M&Ht). apply Hnf. exists n''. split; [by exists c|done]. }
  intros Hnt. assert (Ht : forall b, ~ cut_short n' b).
  { intros b T. apply (Hno (negb b)), torn_goes; try done. intros T'. apply Hnt. by apply (both_sides _ b). }
  intros b. destruct (all_stuck_settled n' L' Ht Hno b) as [Hw Hs]. split; [done|]. by rewrite <-Hs, (moves_sent n n' b Hm).
Qed.
End live.
