(* ===== verification/HavenCalls.v ===== *)
(** * The calls of the transport as runs of steps, and the packets of the router

    The reader's loop and a send that finds enough room, as the code has them, are sequences of
    the steps the link is made of; so what holds along all sequences of steps holds for them,
    and both end.  The packets of the router are framed, as the transport needs them; a message
    too large for the other side's buffer is accepted by both, and the reader never gets past it. *)
From S2P Require Import Prelude CMem QrtrNs QrtrRouter QrtrPacket QrtrEndpoint QrtrHaven HavenFifo HavenLink HavenSafe HavenNet HavenLive.
Open Scope c_scope.

Section calls.
Context {R : Type} `{EndpointLaws R} (base : Z) (b : bool).
Abbreviation pipe := (pipe_of base).
Abbreviation cut_short := (cut_short base).
Abbreviation whole := (whole base).

(** The other machine's sender is not inside the header of its packet. *)
Definition outside (n : net R) : Prop :=
  forall p off, pkt_of (mc_w (side n (negb b))) = Some (p, off) -> (off = 0 \/ HEADER <= off)%nat.

Lemma outside_back n x h : outside n -> outside (back (put n b x) b h).
Proof. unfold outside. by destruct (back_other_rest n b x h) as (_&->&_). Qed.

Lemma outside_calm n : net_ok base n -> outside n -> ~ cut_short n b.
Proof. intros N Ho. by apply outside_header. Qed.

(** A step of the sender takes no header. *)
Lemma writer_whole n x h : mc_r x = mc_r (side n b) -> move b n (back (put n b x) b h) ->
  whole (move b) n (back (put n b x) b h).
Proof.
  intros Hx M. split; [done|]. intros b' [Hr _]. destruct (decide (b' = b)) as [->|Hne].
  - rewrite back_same. cbn. by rewrite Hx, Hr.
  - by rewrite back_reader, Hr.
Qed.

Lemma at_back (n : net R) x h : at_ (back (put n b x) b h) b = h.
Proof. unfold at_. rewrite back_mem, back_same. by destruct h. Qed.

(** One round of the loop, as two steps. *)
Lemma round_moves n f : net_ok base n -> outside n -> mc_r (side n b) = RLoop -> holds (n_mem n) (pipe (negb b)) f -> f <> [] ->
  exists h1 h2 n2 f', read_some (at_ n b) = Ok (tt, h1) /\ read_kick h1 = Ok (tt, h2) /\ rtc (whole (move b)) n n2 /\ net_ok base n2 /\ outside n2 /\
    at_ n2 b = h2 /\ mc_r (side n2 b) = RLoop /\ holds (n_mem n2) (pipe (negb b)) f' /\ (length f' < length f)%nat.
Proof.
  intros N Out Hr Q Hne. pose proof (outside_calm n N Out) as Ht. destruct (at_dev base n b N) as (d&Hd&Dok&Reg&_&Er). destruct (no_dir _ _ N (negb b)) as (f0&Q0&S).
  rewrite negb_involutive, Er in S.
  assert (f0 = f) as -> by (apply (holds_inj (n_mem n) (pipe (negb b))); [by apply pipe_of_ok|done..]).
  destruct (read_some_exec base b (at_ n b) d Hd Dok Reg f _ _ Q Hne S) as (h1&E1&Ro).
  { rewrite <-Er. by apply (header_there base n b f). }
  assert (Ea : read_avail (at_ n b) = Ok (true, at_ n b)).
  { rewrite (read_avail_exec base b (at_ n b) d Hd Dok Reg f Q).
    by replace (Z.of_nat (length f) =? 0) with false by (destruct f; cbn; [done|lia]). }
  pose proof (move_whole base n b _ Ht (move_read b n (at_ n b) h1 Hr Ea E1)) as M1.
  pose proof (outside_back n (set_r RKick (side n b)) h1 Out) as Out1. set (n1 := back _ b h1) in *.
  pose proof (move_kept base n b n1 N M1) as N1. assert (A1 : at_ n1 b = h1) by apply at_back.
  assert (R1 : mc_r (side n1 b) = RKick) by (unfold n1; by rewrite back_same).
  destruct (at_dev base n1 b N1) as (d1&Hd1&Dok1&Reg1&_).
  destruct (read_kick_exec base b (at_ n1 b) d1 Hd1 Dok1 Reg1) as (h2&E2&K).
  assert (M2 := move_whole base n1 b _ (outside_calm n1 N1 Out1) (move_read_kick b n1 h2 R1 E2)).
  pose proof (outside_back n1 (set_r RLoop (side n1 b)) h2 Out1) as Out2. set (n2 := back _ b h2) in *.
  destruct (ro_dev _ _ _ _ _ _ _ _ Ro) as (g&_&_&f'&Q'&Hlt&_). exists h1, h2, n2, f'. rewrite <-A1 at 2.
  split; [done|]. split; [done|]. split; [by eapply rtc_l, rtc_once|]. split; [by apply (move_kept base n1 b)|].
  split; [done|].
  split; [apply at_back|]. split; [unfold n2; by rewrite back_same|]. split; [|done]. unfold n2. rewrite back_mem.
  assert (Em : hv_mem h2 = hv_mem h1).
  { rewrite <-A1. destruct (_ =? 0); [by subst h2|]. by destruct K as (v&->). }
  by rewrite Em.
Qed.

Lemma read_loop_moves fuel : forall n f, net_ok base n -> outside n -> mc_r (side n b) = RLoop -> holds (n_mem n) (pipe (negb b)) f ->
  (length f < fuel)%nat -> exists n', read_loop fuel (at_ n b) = Ok (tt, at_ n' b) /\ rtc (whole (move b)) n n' /\
    mc_r (side n' b) = RIdle /\ holds (n_mem n') (pipe (negb b)) [].
Proof.
  induction fuel as [|fuel IH]; intros n f N Out Hr Q Hf; [lia|]. cbn [read_loop].
  destruct (at_dev base n b N) as (d&Hd&Dok&Reg&_). pose proof (read_avail_exec base b (at_ n b) d Hd Dok Reg f Q) as Ea.
  rewrite (st_bind_ok _ _ _ _ _ Ea). destruct (decide (f = [])) as [->|Hne].
  - cbn in Ea |- *. pose proof (move_whole base n b _ (outside_calm n N Out) (move_empty b n _ Hr Ea)) as M. set (n' := back _ b _) in *. exists n'.
    assert (A : at_ n' b = at_ n b) by apply at_back. rewrite A. split; [done|]. split; [by apply rtc_once|].
    split; [unfold n'; by rewrite back_same|]. unfold n'. by rewrite back_mem.
  - replace (Z.of_nat (length f) =? 0) with false by (destruct f; cbn; [done|lia]). cbn [negb].
    destruct (round_moves n f N Out Hr Q Hne) as (h1&h2&n2&f'&E1&E2&M&N2&Out2&A2&R2&Q2&Hlt).
    rewrite (st_bind_ok _ _ _ _ _ E1), (st_bind_ok _ _ _ _ _ E2), <-A2.
    destruct (IH n2 f' N2 Out2 R2 Q2 ltac:(lia)) as (n'&E&M'&R'&Q'). exists n'. split; [done|].
    split; [by etrans|done].
Qed.

(** A send that finds room for the whole packet: one piece, one doorbell. *)
Lemma send_moves n p f fuel env : net_ok base n -> mc_w (side n b) = WSend p 0 -> framed p ->
  holds (n_mem n) (pipe b) f -> Z.of_nat (length p) <= room (pipe b) f ->
  exists n', qrtr_haven_send (S (S fuel)) env 0 p (at_ n b) = Ok (0, at_ n' b) /\ rtc (whole (move b)) n n' /\
    mc_w (side n' b) = WIdle /\ holds (n_mem n') (pipe b) (f ++ p).
Proof.
  intros N Hw Hp Q Hroom. pose proof (fr_size _ Hp) as [Hh _]. unfold HEADER in Hh. destruct (at_dev base n b N) as (d&Hd&Dok&Reg&_).
  pose proof (tx_avail_at base n b d f N Hd Q) as Ea.
  destruct (chunk_exec base b (at_ n b) d Hd Dok Reg f p 0 _ Q (fr_bytes _ Hp) ltac:(lia) eq_refl ltac:(lia)) as (m'&E&C&Q').
  cbv zeta in E, Q'. assert (Ek : (Z.to_nat (room (pipe b) f) `min` (length p - 0))%nat = length p) by lia.
  rewrite Ek, drop_0, take_ge in Q' by lia. rewrite Ek in E.
  pose proof (writer_whole n (set_w _ (side n b)) _ eq_refl (move_chunk b n p 0 d _ _ _ _ _ Hw ltac:(lia) Hd Ea ltac:(lia) E)) as M1.
  rewrite Nat2Z.id, Nat.add_0_l in M1. set (n1 := back _ b _) in *. pose proof (move_kept base n b n1 N M1) as N1.
  assert (A1 : at_ n1 b = set_mem m' (at_ n b)) by apply at_back.
  assert (W1 : mc_w (side n1 b) = WKick p (length p)) by (unfold n1; by rewrite back_same).
  destruct (at_dev base n1 b N1) as (d1&Hd1&Dok1&_&_). destruct (kick_exec (at_ n1 b) d1 Hd1) as (h2&E2&K).
  pose proof (writer_whole n1 (set_w _ (side n1 b)) _ eq_refl (move_kick b n1 p (length p) h2 W1 E2)) as M2. set (n2 := back _ b h2) in *.
  pose proof (move_kept base n1 b n2 N1 M2) as N2. assert (A2 : at_ n2 b = h2) by apply at_back.
  assert (W2 : mc_w (side n2 b) = WSend p (length p)) by (unfold n2; by rewrite back_same).
  destruct (at_dev base n2 b N2) as (d2&Hd2&Dok2&Reg2&_). pose proof (clr_notify_exec base b (at_ n2 b) d2 Hd2 Dok2 Reg2) as E3.
  pose proof (writer_whole n2 (set_w _ (side n2 b)) _ eq_refl (move_done b n2 p _ W2 E3)) as M3.
  match type of M3 with whole _ _ ?x => set (n3 := x) in * end. exists n3.
  assert (A3 : at_ n3 b = set_mem (wr32 (hv_mem (at_ n2 b)) (pp_read_notify (pipe b)) 0) (at_ n2 b)) by apply at_back.
  assert (Qm : holds (n_mem n2) (pipe b) (f ++ p)).
  { unfold n2. rewrite back_mem. replace (hv_mem h2) with m'; [done|]. destruct K as (v&->). by rewrite A1. }
  split; [|split; [by eapply rtc_l, rtc_l, rtc_once|split; [unfold n3; by rewrite back_same|]]].
  - unfold qrtr_haven_send. cbn [negb Z.eqb haven_send_loop]. replace (Z.of_nat (length p) >? 0) with true by lia.
    rewrite st_bind_bind, (st_bind_ok _ _ _ _ _ (the_dev_ok _ d Hd)), st_bind_bind, (st_bind_ok _ _ _ _ _ Ea).
    replace (room (pipe b) f =? 0) with false by lia. rewrite Nat.sub_0_r in E. rewrite st_bind_bind.
    rewrite (st_bind_ok _ _ _ _ _ E), <-A1, st_bind_bind, (st_bind_ok _ _ _ _ _ E2), <-A2. cbn [fst snd].
    rewrite Nat.sub_diag. change (Z.of_nat 0 >? 0) with false. cbv iota.
    assert (Er : st_ret tt (at_ n2 b) = Ok (tt, at_ n2 b)) by done.
    by rewrite (st_bind_ok _ _ _ _ _ Er), (st_bind_ok _ _ _ _ _ E3), A3.
  - unfold n3. rewrite back_mem. cbn [hv_mem set_mem].
    apply (holds_changed (word (pp_read_notify (pipe b))) (n_mem n2)); [by apply pipe_of_ok|by apply changed_store|apply notify_apart|done].
Qed.

(** C33: the calls end, as runs of the link.  On a state a run of the link leads to, in which no
    reader started on a packet whose header was not all in the queue: the reader's loop,
    entered with the fuel of a full queue while the other side's sender is not inside the header
    of a packet, returns with the queue empty; a send of a packet of a size the reader takes,
    which there is room for, returns 0 with the packet in the queue, whatever would happen if it
    had to wait.  Both leave exactly the state a sequence of the machine's own steps leads to. *)
Theorem haven_calls_run n0 n fuel : link_start base n0 -> rtc (whole step) n0 n ->
  (mc_r (side n b) = RLoop -> outside n -> capacity < Z.of_nat fuel -> exists n',
     read_loop fuel (at_ n b) = Ok (tt, at_ n' b) /\ rtc (whole (move b)) n n' /\
     mc_r (side n' b) = RIdle /\ holds (n_mem n') (pipe (negb b)) []) /\
  forall p f env, mc_w (side n b) = WSend p 0 -> framed p ->
    holds (n_mem n) (pipe b) f -> Z.of_nat (length p) <= room (pipe b) f -> exists n',
      qrtr_haven_send (S (S fuel)) env 0 p (at_ n b) = Ok (0, at_ n' b) /\ rtc (whole (move b)) n n' /\
      mc_w (side n' b) = WIdle /\ holds (n_mem n') (pipe b) (f ++ p).
Proof.
  intros L St. pose proof (steps_kept base n0 n (link_start_ok base n0 L) St) as N. split.
  - intros Hr Out Hf. destruct (no_dir _ _ N (negb b)) as (f&Q&_). apply (read_loop_moves fuel n f N Out Hr Q).
    pose proof (ho_room _ _ _ Q) as Hroom. rewrite pipe_length in Hroom. unfold capacity in Hf. lia.
  - intros p f env Hw Hp Q Hroom. by apply send_moves.
Qed.
End calls.

(** ** Packets *)
Lemma peek_packet type from confirm dst port data k t : Z.of_nat (length data) < 2 ^ 30 ->
  let p := packet type from confirm dst port data in
  (HEADER <= k)%nat -> (32 <= length (take k p ++ t))%nat ->
  qrtr_peek_pkt_size (take 32 (take k p ++ t)) = Ok (Z.of_nat (length p)).
Proof.
  intros Hl p Hk Hlen. pose proof (length_packet type from confirm dst port data ltac:(lia)) as Hp. fold p in Hp.
  destruct (ALIGN_4_bounds (Z.of_nat (length data)) ltac:(lia)) as [Ha _].
  set (ws := [QRTR_PROTO_VER_1; type; sq_node from; sq_port from; confirm; Z.of_nat (length data)]).
  assert (Ep : exists rest, p = words ws ++ rest).
  { unfold p, packet. rewrite hdr_words. eexists (words [dst; port] ++ _). reflexivity. }
  destruct Ep as [rest Ep]. assert (Hw : length (words ws) = HEADER) by (rewrite length_words; reflexivity).
  assert (E : exists x, take 32 (take k p ++ t) = words ws ++ x /\ length x = 8%nat).
  { assert (Et : take k p = words ws ++ take (k - HEADER) rest) by (rewrite Ep, <-Hw; apply take_app_ge; lia).
    rewrite Et, <-app_assoc in Hlen |- *. exists (take 8 (take (k - HEADER) rest ++ t)).
    rewrite length_app, Hw in Hlen. unfold HEADER in Hlen, Hw. rewrite take_app_ge by lia. rewrite Hw.
    split; [done|]. rewrite length_take. unfold HEADER. lia. }
  destruct E as (x&->&Hx). unfold qrtr_peek_pkt_size.
  rewrite (field_ok 1) by (rewrite ?length_app, ?Hw; lia). cbn [res_bind].
  change (le_val (take 1 (drop (Z.to_nat 0) (words ws ++ x)))) with (u8 QRTR_PROTO_VER_1 + 256 * 0).
  change (u8 QRTR_PROTO_VER_1 + 256 * 0 =? QRTR_PROTO_VER_1) with true. cbv iota.
  rewrite (field_words ws x 5 (Z.of_nat (length data)) eq_refl : field 4 _ 20 = _). cbn [res_bind].
  rewrite u32_id, ALIGN32_4 by lia. unfold sizeof_hdr_v1 in *. by rewrite s32_id, <-Hp by lia.
Qed.

(** The largest message whose packet fits the reader's buffer. *)
Definition MAX_DATA : Z := MAX_PKT_SZ - sizeof_hdr_v1.

Lemma packet_framed type from confirm dst port data : is_bytes data -> Z.of_nat (length data) <= MAX_DATA ->
  framed (packet type from confirm dst port data).
Proof.
  intros Hb Hl. unfold MAX_DATA, MAX_PKT_SZ, sizeof_hdr_v1 in Hl. constructor; [by apply packet_bytes| |].
  - rewrite length_packet by lia. unfold MAX_PKT_SZ, sizeof_hdr_v1. rewrite ALIGN_4 by lia.
    unfold HEADER. Z.to_euclidean_division_equations. lia.
  - intros k t. apply peek_packet. lia.
Qed.

(** ** A size the reader refuses *)

Section refused.
Context {R : Type} `{EndpointLaws R} (base : Z) (b : bool).

(** The reader gives up on the packet at the head of the queue, and leaves it there. *)
Definition refused (h : haven R) : Prop := exists d f v,
  hv_dev h = Some d /\ dev_ok base b (hv_router h) d /\ rg_offset (qd_ring d) = 0 /\
  region_ok base (hv_mem h) /\ holds (hv_mem h) (pipe_of base (negb b)) f /\ f <> [] /\
  (forall l, (32 <= length (f ++ l))%nat -> qrtr_peek_pkt_size (take 32 (f ++ l)) = Ok v) /\
  (v < 0 \/ MAX_PKT_SZ < v).

Lemma refused_round h : refused h -> read_avail h = Ok (true, h) /\ read_some h = Ok (tt, h) /\
  exists h', read_kick h = Ok (tt, h') /\ refused h'.
Proof.
  intros (d&f&v&Hd&Dok&Hz&Reg&Q&Hf&Hv&Hbad). pose proof (pipe_of_ok _ (negb b) _ Reg) as Pok.
  split; [|split].
  - rewrite (read_avail_exec base b h d Hd Dok Reg f Q).
    by replace (Z.of_nat (length f) =? 0) with false by (destruct f; cbn; [done|lia]).
  - unfold read_some. rewrite (st_bind_ok _ _ _ _ _ (the_dev_ok h d Hd)), Hz. unfold qrtr_haven_read_new. cbn [negb Z.eqb].
    rewrite (st_bind_ok _ _ _ _ _ (the_dev_ok h d Hd)), (dv_rx _ _ _ _ Dok).
    destruct (rx_peak_more _ _ _ Pok Q 32) as (l&Ep&Hl); [by rewrite pipe_length|].
    rewrite (st_bind_ok _ _ _ _ _ (on_mem_read base b h d Hd Dok Reg _ _ Ep)). change (Z.to_nat 32) with 32%nat in *.
    rewrite (st_bind_ok _ _ _ _ _ (st_lift_ok _ _ _ (Hv l Hl))).
    by replace ((v <? 0) || (v >? MAX_PKT_SZ)) with true by lia.
  - destruct (read_kick_exec base b h d Hd Dok Reg) as (h'&E&K). exists h'. split; [done|].
    destruct (_ =? 0); [subst h'; by exists d, f, v|]. destruct K as (w&->). destruct Dok as [D1 D2 D3 D4].
    exists (with_work w d), f, v.
    split; [done|]. split; [by constructor|done].
Qed.

Lemma read_loop_refused fuel : forall h, refused h -> read_loop fuel h = Loop.
Proof.
  induction fuel as [|fuel IH]; intros h Hr; [done|]. destruct (refused_round h Hr) as (E1&E2&h'&E3&Hr').
  cbn [read_loop]. rewrite (st_bind_ok _ _ _ _ _ E1), (st_bind_ok _ _ _ _ _ E2), (st_bind_ok _ _ _ _ _ E3). by apply IH.
Qed.
End refused.

(** what fits through the transport.  A packet the router makes of a message of up to 65504
    bytes is one the transport carries: its size can be told from its first 24 bytes and fits
    the buffer, and the router on the other side handles it.  The router lets a socket send up
    to 65535 bytes; for the packet of a longer message, the reader finds the size too large,
    leaves the packet in the queue and looks at it again, without end. *)
Theorem haven_size_limit task w fuel type from confirm dst port data :
  0 <= type < 256 -> is_u32 (sq_node from) -> is_u32 (sq_port from) -> is_u32 dst -> is_u32 port ->
  confirm = 0 \/ confirm = 1 -> Z.of_nat (length data) <= 65535 -> is_bytes data ->
  (type = QRTR_TYPE_NEW_SERVER -> (13 <= length data)%nat) ->
  let p := packet type from confirm dst port data in
  let E := router_endpoint task w fuel in
  if Z.of_nat (length data) <=? MAX_DATA then framed p /\ @ep_packet _ E _ p
  else forall base b h d k, hv_dev h = Some d -> dev_ok base b (hv_router h) d -> rg_offset (qd_ring d) = 0 ->
    region_ok base (hv_mem h) -> (HEADER <= k)%nat -> holds (hv_mem h) (pipe_of base (negb b)) (take k p) ->
    forall n, read_loop n h = Loop.
Proof.
  intros Ht Hn Hp Hd Hport Hc Hl Hb Hs p E. case_if.
  - split; [by apply packet_framed; [|lia]|]. apply packet_accepted; try done. lia.
  - intros base b h d k Hdev Dok Hz Reg Hk Q n. apply (read_loop_refused base b). exists d, (take k p), (Z.of_nat (length p)).
    pose proof (length_packet type from confirm dst port data ltac:(lia)) as Hlen. fold p in Hlen.
    destruct (ALIGN_4_bounds (Z.of_nat (length data)) ltac:(lia)) as [Ha _].
    unfold MAX_DATA, sizeof_hdr_v1, MAX_PKT_SZ, HEADER in *. split_and!; try done.
    + intros Ez. apply (f_equal length) in Ez. rewrite length_take in Ez. cbn in Ez. lia.
    + intros l Hl32. apply peek_packet; [lia|done|done].
    + right. lia.
Qed.
