(* ===== verification/HavenProbe.v ===== *)
(** * The transport comes up, or fails to

    What the probe of a device leaves behind: on each error, and when it succeeds.  Once the
    master and then the other machine have probed, the link is at its start: both queues are
    empty, whatever was in the region before. *)
From S2P Require Import Prelude CMem QrtrNs QrtrRouter QrtrPacket QrtrEndpoint QrtrHaven HavenFifo HavenLink HavenSafe HavenNet.
Open Scope c_scope.

Lemma rd32_zero m a : (forall c, word a c -> get_byte m c = 0) -> rd32 m a = 0.
Proof. intros Hz. unfold rd32. cbn [le_load]. rewrite !Hz by (unfold word; lia). reflexivity. Qed.

Lemma nth_replicate_0 n k : nth k (replicate n 0) 0 = 0.
Proof. revert k. induction n as [|n IH]; intros [|k]; cbn; try done. Qed.

(** Both words at zero: an empty queue. *)
Lemma holds_empty m p : 0 < pp_length p -> FIFO_FULL_RESERVE <= pp_length p -> rd32 m (pp_tail p) = 0 -> rd32 m (pp_head p) = 0 -> holds m p [].
Proof.
  intros Hl Hr Et Eh. constructor; rewrite ?Et, ?Eh; [done| |cbn; lia|done].
  cbn [length]. by rewrite Z.mod_0_l by lia.
Qed.

Section init.
Context {R : Type} (base : Z) (b : bool).

(** The region after the machine [b] has set up its side. *)
Definition init_mem (m : mem) : mem :=
  let m1 := wr32 (if b then put_bytes m base (replicate 40 0) else m) (descs base HAVEN_MAGIC_IDX) HAVEN_MAGIC_KEY in
  wr32 (wr32 (wr32 m1 (pp_head (pipe_of base b)) 0) (pp_read_notify (pipe_of base b)) 0)
    (pp_tail (pipe_of base (negb b))) 0.

Lemma region_wr m a v : region_ok base m -> region_ok base (wr32 m a v).
Proof. intros [E1 E2]. destruct (le_store_frame 4 m a v) as [F1 F2]. split; [by etrans|]. by rewrite <-F2 in E2. Qed.

Lemma region_put m a l : region_ok base m -> region_ok base (put_bytes m a l).
Proof. intros [E1 E2]. destruct (put_bytes_frame l m a) as [F1 F2]. split; congruence. Qed.

Lemma region_first m : region_ok base m -> region_ok base (if b then put_bytes m base (replicate 40 0) else m).
Proof. intros Reg. destruct b; [by apply region_put|done]. Qed.

Lemma region_init m : region_ok base m -> region_ok base (init_mem m).
Proof. intros Reg. unfold init_mem. do 4 apply region_wr. by apply region_first. Qed.

Lemma on_word (h : haven R) a v : region_ok base (hv_mem h) -> base <= a -> a + 4 <= base + FIFO_0_START ->
  on_mem (store32 a v) h = Ok (tt, set_mem (wr32 (hv_mem h) a v) h).
Proof.
  intros [E1 E2] H1 H2. apply on_mem_exec. unfold FIFO_1_START, FIFO_0_START, FIFO_SIZE in *. apply store_ok; lia.
Qed.

Lemma upd_dev_exec (f : qrtr_haven_dev -> qrtr_haven_dev) (h : haven R) d : hv_dev h = Some d ->
  upd_dev f h = Ok (tt, set_dev (Some (f d)) h).
Proof. intros Hd. unfold upd_dev. by rewrite (st_bind_ok _ _ _ _ _ (the_dev_ok h d Hd)). Qed.

Lemma fifo_init_exec (h : haven R) d : hv_dev h = Some d -> qd_base d = base -> qd_master d = b ->
  region_ok base (hv_mem h) ->
  qrtr_haven_fifo_init h =
    Ok (tt, set_mem (init_mem (hv_mem h)) (set_dev (Some (with_pipes (pipe_of base b) (pipe_of base (negb b)) d)) h)).
Proof.
  intros Hd Hb Hm Reg. unfold qrtr_haven_fifo_init. rewrite (st_bind_ok _ _ _ _ _ (the_dev_ok h d Hd)), Hb, Hm.
  set (m1 := if b then put_bytes (hv_mem h) base (replicate 40 0) else hv_mem h).
  assert (E1 : (if b then on_mem (store_bytes base (replicate 40 0)) else st_ret tt) h = Ok (tt, set_mem m1 h)).
  { unfold m1. destruct b; [|by destruct h]. apply on_mem_exec, store_bytes_ok; destruct Reg as [R1 R2];
      unfold FIFO_1_START, FIFO_0_START, FIFO_SIZE in *; rewrite ?length_replicate; lia. }
  assert (Reg1 : region_ok base m1) by (by apply region_first).
  rewrite (st_bind_ok _ _ _ _ _ E1). erewrite st_bind_ok by (apply on_word; [exact Reg1|layout; lia..]).
  set (h2 := set_mem _ _). set (d' := with_pipes (pipe_of base b) (pipe_of base (negb b)) d).
  assert (E2 : (if b then upd_dev (with_pipes (pipe_0 base) (pipe_1 base))
                else upd_dev (with_pipes (pipe_1 base) (pipe_0 base))) h2 = Ok (tt, set_dev (Some d') h2)).
  { unfold d'. destruct b; by rewrite (upd_dev_exec _ h2 d). }
  rewrite (st_bind_ok _ _ _ _ _ E2), (st_bind_ok _ _ _ _ _ (the_dev_ok (set_dev (Some d') h2) d' eq_refl)).
  change (qd_tx d') with (pipe_of base b). change (qd_rx d') with (pipe_of base (negb b)).
  assert (Hw : forall x a v, (a = pp_head (pipe_of base x) \/ a = pp_read_notify (pipe_of base x) \/ a = pp_tail (pipe_of base x)) ->
    forall g : haven R, region_ok base (hv_mem g) -> on_mem (store32 a v) g = Ok (tt, set_mem (wr32 (hv_mem g) a v) g)).
  { intros x a v Ha g Hg. apply on_word; [done|..]; destruct x; layout; lia. }
  erewrite st_bind_ok by (apply (Hw b); [tauto|by apply region_wr]).
  erewrite st_bind_ok by (apply (Hw b); [tauto|by do 2 apply region_wr]).
  rewrite (Hw (negb b)); [reflexivity|tauto|]. by do 3 apply region_wr.
Qed.

(** The words afterwards. *)
Lemma init_own m : rd32 (init_mem m) (pp_head (pipe_of base b)) = 0 /\
  rd32 (init_mem m) (pp_tail (pipe_of base (negb b))) = 0.
Proof.
  unfold init_mem. destruct b; cbn [negb pipe_of]; layout; split; repeat first [rewrite rd32_wr32; reflexivity | rewrite le_load_store_disj by lia].
Qed.

Lemma init_other m : (if b then True else rd32 m (pp_tail (pipe_of base b)) = 0 /\ rd32 m (pp_head (pipe_of base (negb b))) = 0) ->
  rd32 (init_mem m) (pp_tail (pipe_of base b)) = 0 /\ rd32 (init_mem m) (pp_head (pipe_of base (negb b))) = 0.
Proof.
  unfold init_mem. intros Hm. destruct b; cbn [negb pipe_of] in *; layout; rewrite !le_load_store_disj by lia; [|done].
  split; apply rd32_zero; intros c Hc; unfold word in Hc; rewrite get_put_bytes by (apply Forall_replicate; lia);
    rewrite length_replicate, decide_True by lia; apply nth_replicate_0.
Qed.
End init.

(** ** The probe *)

(** What has to be there before the region is touched: the label, the extent of the region and
    where it is mapped; or the first error. *)
Definition setup (e : haven_env) : Z + Z * (Z * Z) * Z :=
  if negb (he_alloc e && he_buf e) then inl (- ENOMEM) else
  match he_label e with
  | inl ret => inl ret
  | inr label =>
    match (match he_buffer e with Some np => Some np | None => default None (find_label (he_gens e) label) end) with
    | None => inl (- EINVAL)
    | Some np =>
      match he_extent e np with
      | None => inl (- EINVAL)
      | Some res => match he_map e with None => inl (- ENXIO) | Some base => inr (label, res, base) end
      end
    end
  end.

Section probe.
Context {R : Type} `{Endpoint R}.

Definition mapped (e : haven_env) (label : Z) (res : Z * Z) (base : Z) (h : haven R) : haven R :=
  set_dev (Some (with_map res base res.2 (new_dev label (he_master e)))) h.

Lemma probe_setup fuel e (h : haven R) : hv_dev h = None ->
  match setup e with
  | inl ret => ret <> 0 -> exists d, qrtr_haven_probe fuel e h = Ok (ret, set_dev d h)
  | inr (label, res, base) => qrtr_haven_probe fuel e h = haven_probe_rest fuel e (mapped e label res base h)
  end.
Proof.
  intros Hd. assert (Eh : set_dev None h = h) by (destruct h; cbn in *; by subst).
  unfold setup, qrtr_haven_probe. destruct (he_alloc e); cbn [negb andb].
  2: { intros _. exists None. by rewrite Eh. }
  rewrite st_bind_upd. destruct (he_buf e); cbn [negb]; [|intros _; by eexists].
  destruct (he_label e) as [ret|label]; [intros _; by eexists|]. rewrite st_bind_upd.
  set (h1 := set_dev (Some (new_dev label (he_master e))) _).
  assert (Em : qrtr_haven_map_memory e h1 =
    match (match he_buffer e with Some np => Some np | None => default None (find_label (he_gens e) label) end) with
    | None => Ok (- EINVAL, h1)
    | Some np => match he_extent e np with
      | None => Ok (- EINVAL, h1)
      | Some res => match he_map e with None => Ok (- ENXIO, h1) | Some base => Ok (0, mapped e label res base h) end
      end
    end).
  { unfold qrtr_haven_map_memory, qrtr_haven_svm_of_parse. destruct (he_buffer e) as [np|].
    - rewrite st_bind_ret. destruct (he_extent e np) as [[s z]|]; [|done]. by destruct (he_map e).
    - rewrite st_bind_bind. unfold st_bind at 1. cbn. destruct (find_label (he_gens e) label) as [[np|]|]; cbn; [|done|done].
      unfold st_bind, st_ret. destruct (he_extent e np) as [[s z]|]; [|done]. by destruct (he_map e). }
  destruct (match he_buffer e with Some _ => _ | None => _ end) as [np|].
  2: { rewrite (st_bind_ok _ _ _ _ _ Em). cbn. intros _. by eexists. }
  destruct (he_extent e np) as [res|]; [|rewrite (st_bind_ok _ _ _ _ _ Em); cbn; intros _; by eexists].
  destruct (he_map e) as [base|]; rewrite (st_bind_ok _ _ _ _ _ Em); cbn; [done|]. intros _. by eexists.
Qed.

(** The device once its side of the region is set up; the master is told by then when the
    other machine is ready. *)
Definition ready_dev (e : haven_env) (label : Z) (res : Z * Z) (base : Z) : qrtr_haven_dev :=
  let d := with_pipes (pipe_of base (he_master e)) (pipe_of base (negb (he_master e)))
             (with_map res base res.2 (new_dev label (he_master e))) in
  if he_master e then with_peer (default HH_SELF_VM (he_peer e)) d else d.
Definition ready (e : haven_env) (d : qrtr_haven_dev) (base : Z) (tx : bool) (r : R) (h : haven R) : haven R :=
  Haven (init_mem base (he_master e) (hv_mem h)) (Some d)
    (Registrations (he_master e || rm_nb (hv_regs h)) (tx || tx_reg (hv_regs h)) (rx_reg (hv_regs h)))
    (hv_answers h) (hv_rings h) (hv_wakes h) (hv_posted h) (hv_hyp h) r.

Lemma rest_init fuel e label res base (h : haven R) : region_ok base (hv_mem h) ->
  let d := ready_dev e label res base in
  haven_probe_rest fuel e (mapped e label res base h) =
  match he_tx_dbl e with
  | inl ret => Ok (ret, ready e d base false (hv_router h) h)
  | inr tx => st_bind (on_router (endpoint_register QRTR_EP_NET_ID_AUTO)) (fun reg =>
      match reg with
      | inl ret =>
        upd_dev (with_work false) ;;;
        st_upd (fun h => set_regs (Registrations (rm_nb (hv_regs h)) false (rx_reg (hv_regs h))) h) ;;;
        st_ret ret
      | inr node =>
        upd_dev (with_links (Some node) tx 0) ;;;
        match he_rx_dbl e with
        | inl ret =>
          on_router (endpoint_unregister node) ;;;
          upd_dev (with_work false) ;;;
          st_upd (fun h => set_regs (Registrations (rm_nb (hv_regs h)) false (rx_reg (hv_regs h))) h) ;;;
          st_ret ret
        | inr rx =>
          st_upd (fun h => set_regs (Registrations (rm_nb (hv_regs h)) (tx_reg (hv_regs h)) true) h) ;;;
          upd_dev (with_links (Some node) tx rx) ;;;
          let! some := read_avail in
          (if some then qrtr_haven_read fuel else st_ret tt) ;;;
          st_ret 0
        end
      end) (ready e (with_links None tx 0 d) base true (hv_router h) h)
  end.
Proof.
  intros Reg d. unfold haven_probe_rest.
  rewrite (st_bind_ok _ _ _ _ _ (fifo_init_exec base (he_master e) (mapped e label res base h) _ eq_refl eq_refl eq_refl Reg)).
  unfold d, ready_dev. destruct h as [m dv [rm tx rx] ans rings wakes posted hyp r], (he_master e) eqn:Em;
    unfold mapped, ready; rewrite Em; by destruct (he_tx_dbl e).
Qed.
End probe.

Section outcome.
Context {R : Type} `{EndpointLaws R}.

(** What a failed probe leaves once the device is freed. *)
Definition torn (e : haven_env) (base : Z) (tx : bool) (r : R) (h : haven R) : haven R :=
  Haven (init_mem base (he_master e) (hv_mem h)) None
    (Registrations (he_master e || rm_nb (hv_regs h)) tx (rx_reg (hv_regs h)))
    (hv_answers h) (hv_rings h) (hv_wakes h) (hv_posted h) (hv_hyp h) r.

Lemma probe_errors fuel e (h : haven R) : hv_dev h = None ->
  match setup e with
  | inl ret => ret <> 0 -> probe_device fuel e h = Ok (ret, h)
  | inr (_, _, base) => region_ok base (hv_mem h) -> forall ret, ret <> 0 ->
    match he_tx_dbl e with
    | inl x => x = ret -> probe_device fuel e h = Ok (ret, torn e base (tx_reg (hv_regs h)) (hv_router h) h)
    | inr _ => forall reg r, endpoint_register QRTR_EP_NET_ID_AUTO (hv_router h) = Ok (reg, r) ->
      match reg with
      | inl x => x = ret -> probe_device fuel e h = Ok (ret, torn e base false r h)
      | inr node => forall r', he_rx_dbl e = inl ret -> endpoint_unregister node r = Ok (tt, r') ->
          probe_device fuel e h = Ok (ret, torn e base false r' h)
      end
    end
  end.
Proof.
  intros Hd. unfold probe_device. pose proof (probe_setup fuel e h Hd) as Hs.
  assert (Hfail : forall ret g, ret <> 0 -> (if negb (ret =? 0) then st_upd (set_dev None) ;;; st_ret ret else st_ret ret) g =
    Ok (ret, set_dev None g) :> res (Z * haven R)) by (intros ret g Hr; by replace (ret =? 0) with false by lia).
  destruct (setup e) as [x|[[label res] base]].
  - intros Hx. destruct (Hs Hx) as (d&E). rewrite (st_bind_ok _ _ _ _ _ E), Hfail by done.
    destruct h; cbn in *; by subst.
  - intros Reg ret Hret. rewrite rest_init in Hs by done. destruct (he_tx_dbl e) as [x|tx].
    { intros ->. by rewrite (st_bind_ok _ _ _ _ _ Hs), Hfail. }
    intros reg r Hreg. unfold on_router at 1, st_bind at 1 in Hs. cbn [hv_router ready] in Hs. rewrite Hreg in Hs.
    destruct reg as [x|node].
    { intros ->. cbn in Hs. by rewrite (st_bind_ok _ _ _ _ _ Hs), Hfail. }
    intros r' Hrx Hun. rewrite Hrx in Hs. cbn in Hs. unfold on_router, st_bind at 1 in Hs. cbn in Hs. rewrite Hun in Hs.
    cbn in Hs. by rewrite (st_bind_ok _ _ _ _ _ Hs), Hfail.
Qed.

(** The device of a machine that is up. *)
Definition up (e : haven_env) (d : qrtr_haven_dev) (base : Z) (r : R) (h : haven R) : haven R :=
  Haven (init_mem base (he_master e) (hv_mem h)) (Some d) (Registrations (he_master e || rm_nb (hv_regs h)) true true)
    (hv_answers h) (hv_rings h) (hv_wakes h) (hv_posted h) (hv_hyp h) r.

(** What a probe needs to succeed. *)
Record can_probe (base : Z) (b : bool) (e : haven_env) (h : haven R) (a : Z) (r : R) : Prop := {
  cp_setup : exists label res, setup e = inr (label, res, base);
  cp_master : he_master e = b;
  cp_doorbells : (exists tx, he_tx_dbl e = inr tx) /\ exists rx, he_rx_dbl e = inr rx;
  cp_new : hv_dev h = None /\ hv_posted h = [];
  cp_register : endpoint_register QRTR_EP_NET_ID_AUTO (hv_router h) = Ok (inr a, r) /\ ep_ok r a;
}.

Lemma probe_up fuel base b e h a r : can_probe base b e h a r -> region_ok base (hv_mem h) ->
  holds (init_mem base b (hv_mem h)) (pipe_of base (negb b)) [] ->
  exists d, probe_device fuel e h = Ok (0, up e d base r h) /\ dev_ok base b r d /\ rg_offset (qd_ring d) = 0.
Proof.
  intros [(label&res&Hs) Hb [(tx&Htx) (rx&Hrx)] [Hd _] [Hreg Hok]] Reg Q.
  set (d := with_links (Some a) tx rx (ready_dev e label res base)).
  assert (Dok : dev_ok base b r d).
  { unfold d, ready_dev. constructor; rewrite ?Hb; [by destruct b..|by exists a|by destruct b]. }
  exists d. split; [|split; [done|unfold d, ready_dev; by destruct (he_master e)]].
  pose proof (probe_setup fuel e h Hd) as Hp. rewrite Hs, rest_init, Htx, Hrx in Hp by done.
  unfold on_router at 1, st_bind at 1 in Hp. cbn [hv_router ready] in Hp. rewrite Hreg in Hp.
  cut (qrtr_haven_probe fuel e h = Ok (0, up e d base r h)).
  { intros E. unfold probe_device. by rewrite (st_bind_ok _ _ _ _ _ E). }
  rewrite Hp. clear Hp.
  erewrite st_bind_ok by (apply upd_dev_exec; reflexivity). rewrite st_bind_upd.
  erewrite st_bind_ok by (apply upd_dev_exec; reflexivity).
  match goal with |- st_bind read_avail _ ?g = _ => assert (Eg : g = up e d base r h) by done; rewrite Eg end.
  erewrite st_bind_ok; [|apply (read_avail_exec base b (up e d base r h) d eq_refl Dok); [cbn; by apply region_init|]].
  2: { cbn. rewrite Hb. exact Q. }
  reflexivity.
Qed.

Lemma link_up fuel base em es hm hs am as_ rm rs : region_ok base (hv_mem hm) ->
  can_probe base true em hm am rm -> can_probe base false es hs as_ rs ->
  exists h1 h2, probe_device fuel em hm = Ok (0, h1) /\ probe_device fuel es (set_mem (hv_mem h1) hs) = Ok (0, h2) /\
    link_start base (Net (hv_mem h2) (Machine h1 WIdle RIdle false []) (Machine h2 WIdle RIdle false [])) /\
    hv_answers h1 = hv_answers hm /\ hv_answers h2 = hv_answers hs.
Proof.
  intros Reg Cm Cs. set (m := init_mem base true (hv_mem hm)).
  destruct (init_own base true (hv_mem hm)) as [M1 M2]. destruct (init_other base true (hv_mem hm) I) as [M3 M4]. fold m in M1, M2, M3, M4.
  assert (Regm : region_ok base m) by (by apply region_init).
  destruct (init_own base false m) as [S1 S2]. destruct (init_other base false m (conj M2 M1)) as [S3 S4].
  destruct (probe_up fuel base true em hm am rm Cm Reg) as (d1&E1&D1&O1).
  { apply holds_empty; rewrite ?pipe_length; done. }
  assert (Q : forall b, holds (init_mem base false m) (pipe_of base b) []).
  { intros [|]; apply holds_empty; rewrite ?pipe_length; done. }
  set (hs' := set_mem m hs).
  assert (Cs' : can_probe base false es hs' as_ rs) by (destruct Cs; by constructor).
  destruct (probe_up fuel base false es hs' as_ rs Cs' Regm (Q true)) as (d2&E2&D2&O2).
  pose proof (cp_master _ _ _ _ _ _ Cm) as Hbm. pose proof (cp_master _ _ _ _ _ _ Cs) as Hbs.
  exists (up em d1 base rm hm), (up es d2 base rs hs'). split; [done|]. split; [cbn; by rewrite Hbm|].
  destruct (cp_new _ _ _ _ _ _ Cm) as [_ Pm]. destruct (cp_new _ _ _ _ _ _ Cs) as [_ Ps].
  split; [|done]. constructor; cbn [n_mem hv_mem up hs' set_mem]; rewrite ?Hbs.
  - by apply region_init.
  - intros [|]; (split; [|by split_and!]); [by exists d1|by exists d2].
  - exact Q.
Qed.

(** C34: a failed probe says why, and gives back what it took.  An error before the region is
    mapped changes nothing at all.  A later one, of a doorbell or of the registration in the
    router, ends with the device freed, the sender's doorbell unregistered and the endpoint
    out of the router; only the master's notifier stays. *)
Theorem haven_probe_errors fuel e (h : haven R) : hv_dev h = None ->
  match setup e with
  | inl ret => ret <> 0 -> probe_device fuel e h = Ok (ret, h)
  | inr (_, _, base) => region_ok base (hv_mem h) -> forall ret, ret <> 0 ->
    match he_tx_dbl e with
    | inl x => x = ret -> probe_device fuel e h = Ok (ret, torn e base (tx_reg (hv_regs h)) (hv_router h) h)
    | inr _ => forall reg r, endpoint_register QRTR_EP_NET_ID_AUTO (hv_router h) = Ok (reg, r) ->
      match reg with
      | inl x => x = ret -> probe_device fuel e h = Ok (ret, torn e base false r h)
      | inr node => forall r', he_rx_dbl e = inl ret -> endpoint_unregister node r = Ok (tt, r') ->
          probe_device fuel e h = Ok (ret, torn e base false r' h)
      end
    end
  end.
Proof. apply probe_errors. Qed.

(** C32: bringing the link up.  When the master probes on a region that is large enough,
    whatever it holds, and then the other machine does, both probes succeed, and the machines
    are at the start of the link: empty queues in both directions, nothing posted, and both
    endpoints registered. *)
Theorem haven_link_up fuel base em es hm hs am as_ rm rs : region_ok base (hv_mem hm) ->
  can_probe base true em hm am rm -> can_probe base false es hs as_ rs ->
  exists h1 h2, probe_device fuel em hm = Ok (0, h1) /\ probe_device fuel es (set_mem (hv_mem h1) hs) = Ok (0, h2) /\
    link_start base (Net (hv_mem h2) (Machine h1 WIdle RIdle false []) (Machine h2 WIdle RIdle false [])).
Proof.
  intros Reg Cm Cs. destruct (link_up fuel base em es hm hs am as_ rm rs Reg Cm Cs) as (h1&h2&E1&E2&L&_). by exists h1, h2.
Qed.
End outcome.
