(* ===== verification/HavenExamples.v ===== *)
(** * The transport on concrete machines

    Two routers on a region of 36 KB with garbage in it: the theorems at work on them, and the
    places where the code does not do what it means to. *)
From S2P Require Import Prelude CMem QrtrNs QrtrRegistry QrtrRouter QrtrPacket QrtrDemo QrtrEndpoint QrtrHaven HavenFifo HavenLink.
From S2P Require Import HavenSafe HavenNet HavenLive HavenCalls HavenProbe.
Open Scope c_scope.

Module TwoMachines.
Definition base : Z := 0x80000000.
Definition region : mem := Mem base 0x9000 {[base + 4 := 0x77; base + 9 := 0x66; base + 20 := 1; base + 0x1000 := 0xff]}.

Definition env_of (master : bool) : haven_env :=
  HavenEnv true true (inr 3) master None [(None, Some 1); (Some 2, Some 7); (Some 3, Some 40)]
    (fun np => if np =? 40 then Some (base, 0x9000) else None) (Some base) (Some 1) (inr 100) (inr 101).

#[export] Instance ep : Endpoint router := router_endpoint true RouterDemo.nowait 3.
#[export] Instance laws : EndpointLaws router := router_laws true RouterDemo.nowait 3.

Definition idle (r : router) (m : mem) : haven router := Haven m None (Registrations false false false) [] 0 0 [] [] r.

Lemma region_fits : region_ok base region.
Proof. by split. Qed.

Lemma can_start b (r : router) m : ports_live r -> env r EAlloc = [] -> exists r',
  can_probe base b (env_of b) (idle r m) (next_obj r) r'.
Proof.
  intros Hl He. destruct (register_lives r QRTR_EP_NET_ID_AUTO Hl He) as (r'&E&Hr). exists r'.
  constructor; [by eexists _, _|done|by split; eexists|done|by split].
Qed.

(** The two machines after their probes. *)
Lemma started : exists n0 : net router, link_start base n0 /\ reliable n0.
Proof.
  destruct (can_start true RouterDemo.start region) as (rm&Cm); [apply RouterDemo.demo_live|done|].
  destruct (can_start false remote region) as (rs&Cs); [apply remote_live|done|].
  destruct (link_up 0 base _ _ (idle RouterDemo.start region) _ _ _ _ _ region_fits Cm Cs) as (h1&h2&E1&E2&L&A).
  eexists. split; [exact L|]. intros [|]; apply A.
Qed.

(** A message of four bytes for the other machine. *)
Definition parcel : list Z := packet QRTR_TYPE_DATA (Sockaddr 1 0x4001) 0 5 0x4010 [1; 2; 3; 4].

Lemma parcel_ok : framed parcel /\ accepted parcel.
Proof.
  assert (Hb : is_bytes [1; 2; 3; 4]) by (repeat constructor; lia).
  split; [apply packet_framed; [exact Hb|cbn; unfold MAX_DATA, MAX_PKT_SZ, sizeof_hdr_v1; lia]|].
  apply packet_accepted; unfold is_u32, QRTR_TYPE_DATA, QRTR_TYPE_NEW_SERVER in *; cbn; [lia..|exact Hb|lia].
Qed.

Lemma start_calm (n0 n : net router) : link_start base n0 -> forall b, cut_short base n0 b -> mc_r (side n b) <> RKick.
Proof. intros L b [Hr _]. destruct (ls_machine _ _ L b) as (_&_&Hi&_). congruence. Qed.

Lemma submitted (n0 : net router) : link_start base n0 -> exists n, rtc (whole base step) n0 n /\
  mc_w (side n true) = WSend parcel 0 /\ holds (n_mem n) (pipe_of base true) [].
Proof.
  intros L. destruct parcel_ok as [Hp Hp']. destruct (ls_machine _ _ L true) as (_&Hw&_).
  eexists. split; [apply rtc_once; split; [exists true; right; by eapply (input_send true n0 parcel)|by apply start_calm]|].
  split; [done|apply (ls_empty _ _ L true)].
Qed.

(** The master sends it: the packet is in the queue, and the doorbell is next. *)
Lemma first_piece (n0 : net router) : link_start base n0 -> exists n, rtc (whole base step) n0 n /\
  mc_w (side n true) = WKick parcel (length parcel) /\ mc_sent (side n true) = [parcel].
Proof.
  intros L. destruct parcel_ok as [Hp Hp']. destruct (ls_machine _ _ L true) as (_&Hw&_&Hs&_).
  set (x := Machine (mc (side n0 true)) (WSend parcel 0) (mc_r (side n0 true)) (mc_rung (side n0 true)) (mc_sent (side n0 true) ++ [parcel])).
  set (n1 := put n0 true x). assert (I1 : input true n0 n1) by (by apply (input_send true n0 parcel x)).
  pose proof (link_start_ok base n0 L) as N0. pose proof (input_kept base n0 true n1 N0 I1) as N1.
  assert (Q1 : holds (n_mem n1) (pipe_of base true) []) by (apply (ls_empty _ _ L true)).
  destruct (at_dev base n1 true N1) as (d&Hd&Dok&Reg&_). pose proof (tx_avail_at base n1 true d [] N1 Hd Q1) as Ea.
  destruct (chunk_exec base true (at_ n1 true) d Hd Dok Reg [] parcel 0 _ Q1 (fr_bytes _ Hp) ltac:(cbn; lia) eq_refl ltac:(by vm_compute))
    as (m'&E&_).
  eexists. split; [|split]; [apply (rtc_l _ _ n1); [split; [by exists true; right|by apply start_calm]|
    apply rtc_once; split; [exists true; left|]]| |].
  - eapply (move_chunk true n1 parcel 0 d); [done|cbn; lia|exact Hd|exact Ea|done|exact E].
  - intros b [Hr _]. destruct (ls_machine _ _ L b) as (_&_&Hi&_). destruct b; cbn in Hr, Hi; congruence.
  - rewrite (back_same n1 true). reflexivity.
  - rewrite (back_same n1 true). cbn. change (mc_sent (n_master n0)) with (mc_sent (side n0 true)). by rewrite Hs.
Qed.
End TwoMachines.
Import TwoMachines.

Lemma haven_link_up_witness : exists rm rs h1 h2,
  can_probe base true (env_of true) (idle RouterDemo.start region) 30 rm /\
  probe_device 0 (env_of true) (idle RouterDemo.start region) = Ok (0, h1) /\
  probe_device 0 (env_of false) (set_mem (hv_mem h1) (idle remote region)) = Ok (0, h2) /\
  hv_dev h2 <> None /\ rs = hv_router h2.
Proof.
  destruct (can_start true RouterDemo.start region) as (rm&Cm); [apply RouterDemo.demo_live|reflexivity|].
  destruct (can_start false remote region) as (rs&Cs); [apply remote_live|reflexivity|].
  destruct (haven_link_up 0 base _ _ (idle RouterDemo.start region) _ _ _ _ _ region_fits Cm Cs) as (h1&h2&E1&E2&L).
  exists rm, (hv_router h2), h1, h2. split; [exact Cm|]. split; [exact E1|]. split; [exact E2|]. split; [|reflexivity].
  destruct (ls_machine _ _ L false) as ((d&Hd&_)&_). change (hv_dev h2 = Some d) in Hd. rewrite Hd. discriminate.
Defined.

Lemma haven_stream_safe_witness : exists (n0 n : net router) q f, link_start base n0 /\ rtc (whole base step) n0 n /\
  [parcel] = hv_posted (mc (side n false)) ++ q /\ holds (n_mem n) (pipe_of base true) f /\
  concat q = got (ring_of (mc (side n false))) ++ f.
Proof.
  destruct started as (n0&L&_). destruct (first_piece n0 L) as (n&St&Hw&Hs).
  destruct (haven_stream_safe base n0 n true L St) as (_&_&_&q&f&E1&Q&E2).
  exists n0, n, q, f. rewrite <-Hs. split; [exact L|]. split; [exact St|]. split; [exact E1|]. split; [exact Q|].
  rewrite Hw in E2. unfold unsent in E2. cbn [pkt_of] in E2. rewrite drop_all, app_nil_r in E2. exact E2.
Defined.

Lemma haven_delivers_witness : exists n0 n : net router, link_start base n0 /\ rtc (whole base step) n0 n /\
  sn (whole base moves) n /\ forall n', rtc (whole base moves) n n' -> nf (whole base moves) n' ->
    ~ (forall b, cut_short base n' b) -> hv_posted (mc (side n' false)) = [parcel].
Proof.
  destruct started as (n0&L&Rel). destruct (first_piece n0 L) as (n&St&Hw&Hs).
  destruct (haven_delivers base n0 n L Rel St) as [Hsn Hend].
  exists n0, n. split; [exact L|]. split; [exact St|]. split; [exact Hsn|].
  intros n' Hm Hnf Ht. destruct (Hend n' Hm Hnf Ht true) as [_ E]. rewrite <-Hs. exact E.
Defined.

(** The send of the message as a whole, from the start of the link. *)
Lemma haven_calls_run_witness : exists n0 n n' : net router, rtc (whole base step) n0 n /\
  qrtr_haven_send 2 (fun _ h => h) 0 parcel (at_ n true) = Ok (0, at_ n' true) /\ holds (n_mem n') (pipe_of base true) parcel.
Proof.
  destruct started as (n0&L&_). destruct (submitted n0 L) as (n&St&Hw&Q). destruct parcel_ok as [Hp _].
  destruct (haven_calls_run base true n0 n 0 L St) as [_ Hsend].
  assert (Hr : Z.of_nat (length parcel) <= room (pipe_of base true) []) by (apply Z.leb_le; vm_compute; reflexivity).
  destruct (Hsend parcel [] (fun _ h => h) Hw Hp Q Hr) as (n'&E&_&_&Q').
  exists n0, n, n'. split; [exact St|]. split; [exact E|exact Q'].
Defined.

Lemma haven_size_limit_witness : framed parcel.
Proof.
  destruct (haven_size_limit true RouterDemo.nowait 3 QRTR_TYPE_DATA (Sockaddr 1 0x4001) 0 5 0x4010 [1; 2; 3; 4]) as [Hp _];
    unfold is_u32, QRTR_TYPE_DATA, QRTR_TYPE_NEW_SERVER; cbn; try lia; [repeat constructor; lia|exact Hp].
Defined.

(** A device that waits for the doorbell: the probe is to be tried again later. *)
Definition deferred (e : haven_env) (ret : Z) : haven_env :=
  HavenEnv (he_alloc e) (he_buf e) (he_label e) (he_master e) (he_buffer e) (he_gens e) (he_extent e) (he_map e) (he_peer e)
    (inl ret) (he_rx_dbl e).

Lemma haven_probe_errors_witness : probe_device 0 (deferred (env_of true) (- EPROBE_DEFER)) (idle RouterDemo.start region) =
  Ok (- EPROBE_DEFER, torn (deferred (env_of true) (- EPROBE_DEFER)) base false RouterDemo.start (idle RouterDemo.start region)).
Proof.
  exact (haven_probe_errors 0 (deferred (env_of true) (- EPROBE_DEFER)) (idle RouterDemo.start region) eq_refl region_fits (- EPROBE_DEFER)
    ltac:(discriminate) eq_refl).
Defined.

(** ** What the code does not do *)

(** A header that is not complete yet is read all the same: with the first four bytes of a packet
    of 36 bytes in the queue, the size comes from what lies behind them in the ring. *)
Definition short_queue : mem := Mem base 0x9000 {[base + 8 := 4; base + 0x1000 := 1]}.
Definition reading_dev : qrtr_haven_dev :=
  with_links (Some 50) 100 101 (with_pipes (pipe_1 base) (pipe_0 base) (with_map (base, 0x9000) base 0x9000 (new_dev 3 false))).

Lemma short_header_stale : exists h, length parcel = 36%nat /\ bytes_at short_queue (base + 0x1000) 4 = take 4 parcel /\
  read_some (set_dev (Some reading_dev) (idle remote short_queue)) = Ok (tt, h) /\
  exists d, hv_dev h = Some d /\ rg_len (qd_ring d) = 32 /\ rg_offset (qd_ring d) = 4.
Proof.
  destruct (run_check (read_some (set_dev (Some reading_dev) (idle remote short_queue)))
    (fun _ h => match hv_dev h with Some d => (rg_len (qd_ring d) =? 32) && (rg_offset (qd_ring d) =? 4) | None => false end))
    as ([]&h&E&Hh); [vm_compute; reflexivity|].
  exists h. split; [vm_compute; reflexivity|]. split; [vm_compute; reflexivity|]. split; [exact E|].
  destruct (hv_dev h) as [d|]; [|done]. exists d. split; [reflexivity|]. lia.
Qed.

(** The removal leaves the endpoint in the router: the next packet for it is sent through the
    freed device. *)
Lemma remove_keeps_endpoint (h : haven router) d : hv_dev h = Some d -> exists h', remove_device h = Ok (0, h') /\
  hv_router h' = hv_router h /\ forall fuel env data, data <> [] -> qrtr_haven_send (S fuel) env 0 data h' = Fault.
Proof.
  intros Hd. eexists. split; [|split]; [unfold remove_device, qrtr_haven_remove; rewrite st_bind_bind;
    rewrite (st_bind_ok _ _ _ _ _ (upd_dev_exec _ h d Hd)); reflexivity|done|].
  intros fuel env data Hne. unfold qrtr_haven_send. cbn [negb Z.eqb haven_send_loop].
  replace (Z.of_nat (length data) >? 0) with true by (destruct data; cbn; [done|lia]). reflexivity.
Qed.

(** A probe of the master that fails after the notifier is registered leaves it registered: the
    next news of a machine goes to the freed device. *)
Lemma failed_probe_keeps_notifier : exists h', probe_device 0 (deferred (env_of true) (- EPROBE_DEFER)) (idle RouterDemo.start region) =
    Ok (- EPROBE_DEFER, h') /\ rm_nb (hv_regs h') = true /\
  forall e get_vmid cmd vm, qrtr_haven_rm_cb e get_vmid cmd vm h' = Fault.
Proof.
  eexists. split; [|split]; [exact (probe_errors 0 (deferred (env_of true) (- EPROBE_DEFER)) (idle RouterDemo.start region) eq_refl
    region_fits (- EPROBE_DEFER) ltac:(discriminate) eq_refl)|reflexivity|]. reflexivity.
Qed.

(** The extent of the region is not compared with the place of the queues: the probe succeeds on
    a single page, and the first packet is written behind it. *)
Definition page : mem := Mem base 0x1000 ∅.

Lemma small_region_overrun : exists h', probe_device 0 (env_of true) (idle RouterDemo.start page) = Ok (0, h') /\
  qrtr_haven_send 2 (fun _ h => h) 0 parcel h' = Fault.
Proof.
  destruct (run_check (probe_device 0 (env_of true) (idle RouterDemo.start page)) (fun ret h => (ret =? 0) &&
    match qrtr_haven_send 2 (fun _ h => h) 0 parcel h with Fault => true | _ => false end)) as (ret&h&E&Hh);
    [vm_compute; reflexivity|].
  apply andb_true_iff in Hh as [Hr Hs]. apply Z.eqb_eq in Hr as ->. exists h. split; [exact E|].
  destruct (qrtr_haven_send 2 (fun _ h => h) 0 parcel h); done.
Qed.
