(* ===== verification/GlinkPipe.v ===== *)
(** * The pipes below a link (drivers/rpmsg/qcom_glink_smem.c)

    A link sends and receives over two queues of bytes.  The class [GlinkPipe] is the table of
    operations it calls; this file translates the ones of the shared memory transport, which
    keeps the queues in two items of the memory manager and their indices in a third. *)
From S2P Require Import Prelude CMem Smem SmemHeap SmemApi SmemService.
Open Scope c_scope.

Class GlinkPipe (P : Type) := {
  pipe_rx_avail : ST P Z;
  pipe_rx_peak : Z -> Z -> ST P (list Z);
  pipe_rx_advance : Z -> ST P unit;
  pipe_tx_length : P -> Z;
  pipe_tx_avail : ST P Z;
  pipe_tx_write : list Z -> list Z -> ST P unit;
  pipe_reset : ST P unit;
}.

(** What a link relies on: each direction is a queue of bytes in units of eight.  The writer fills
    a message up with whatever is there, and keeps sixteen bytes free, eight of them for a
    notification; each side leaves the other queue alone.  [same_pipe]: the pipes are where they
    were. *)
Definition byte_ok (b : Z) : Prop := 0 <= b < 256.

Class PipeLaws (P : Type) `{GlinkPipe P} := {
  rx_has : P -> list Z -> Prop;
  tx_has : P -> list Z -> Prop;
  same_pipe : P -> P -> Prop;
  same_pipe_refl p : same_pipe p p;
  same_pipe_trans p1 p2 p3 : same_pipe p1 p2 -> same_pipe p2 p3 -> same_pipe p1 p3;
  same_pipe_length p p' : same_pipe p p' -> pipe_tx_length p' = pipe_tx_length p;
  rx_has_ok p q : rx_has p q -> Forall byte_ok q /\ (8 | Z.of_nat (length q)) /\ Z.of_nat (length q) < 2 ^ 32;
  tx_has_ok p t : tx_has p t -> (8 | Z.of_nat (length t)) /\ (8 | pipe_tx_length p) /\
    Z.of_nat (length t) <= pipe_tx_length p - 8 < 2 ^ 31;
  rx_avail_law p q : rx_has p q -> pipe_rx_avail p = Ok (Z.of_nat (length q), p);
  rx_peak_law p q off n : rx_has p q -> 0 <= off -> 0 <= n -> off + n <= Z.of_nat (length q) ->
    pipe_rx_peak off n p = Ok (take (Z.to_nat n) (drop (Z.to_nat off) q), p);
  rx_advance_law p q n : rx_has p q -> 0 <= n <= Z.of_nat (length q) -> (8 | n) -> exists p',
    pipe_rx_advance n p = Ok (tt, p') /\ rx_has p' (drop (Z.to_nat n) q) /\
    (forall t, tx_has p t -> tx_has p' t) /\ same_pipe p p';
  tx_avail_law p t : tx_has p t -> pipe_tx_avail p = Ok (Z.max 0 (pipe_tx_length p - 16 - Z.of_nat (length t)), p);
  tx_write_law p t hdr data : tx_has p t -> Forall byte_ok hdr -> Forall byte_ok data ->
    Z.of_nat (length t) + Z.of_nat (length hdr) + Z.of_nat (length data) <= pipe_tx_length p - 8 ->
    exists p' pad, pipe_tx_write hdr data p = Ok (tt, p') /\ tx_has p' (t ++ hdr ++ data ++ pad) /\
      Z.of_nat (length pad) = (- (Z.of_nat (length hdr) + Z.of_nat (length data))) mod 8 /\
      (forall q, rx_has p q -> rx_has p' q) /\ same_pipe p p';
}.

Definition FIFO_FULL_RESERVE : Z := 8.
Definition FIFO_ALIGNMENT : Z := 8.
Definition TX_BLOCKED_CMD_RESERVE : Z := 8.
Definition SMEM_GLINK_NATIVE_XPRT_DESCRIPTOR : Z := 478.
Definition SMEM_GLINK_NATIVE_XPRT_FIFO_0 : Z := 479.
Definition SMEM_GLINK_NATIVE_XPRT_FIFO_1 : Z := 480.

(** struct glink_smem_pipe; [sp_fifo] is 0 before the item of the remote side is found. *)
Record glink_smem_pipe := SmemPipe {
  sp_tail : Z;
  sp_head : Z;
  sp_fifo : Z;
  sp_length : Z;
  sp_remote_pid : Z;
}.

(** One side of a link: the shared memory and its two pipes. *)
Record smem_pipes := SmemPipes { ps_mem : mem; ps_rx : glink_smem_pipe; ps_tx : glink_smem_pipe }.

Definition ps_on_mem {A} (c : ST mem A) : ST smem_pipes A :=
  fun s => match c (ps_mem s) with
           | Ok (a, m) => Ok (a, SmemPipes m (ps_rx s) (ps_tx s))
           | Fault => Fault
           | Loop => Loop
           end.

(** [memcpy] out of the shared memory. *)
Definition copy_out (src n : Z) : ST mem (list Z) :=
  fun m => if in_range m src n then Ok (bytes_at m src (Z.to_nat n), m) else Fault.

Section pipes.
Context (smem : qcom_smem) (hwlock_rc : Z).

Definition glink_smem_rx_reset : ST smem_pipes unit :=
  let! p := st_get ps_rx in ps_on_mem (store32 (sp_tail p) 0).
Definition glink_smem_tx_reset : ST smem_pipes unit :=
  let! p := st_get ps_tx in ps_on_mem (store32 (sp_head p) 0).

(** The queue of the remote side is looked up until it is there. *)
Definition glink_smem_rx_avail : ST smem_pipes Z :=
  let! pipe := st_get ps_rx in
  let! err := (if sp_fifo pipe =? 0 then
      let! r := ps_on_mem (qcom_smem_get hwlock_rc (Some smem) (sp_remote_pid pipe) SMEM_GLINK_NATIVE_XPRT_FIFO_1 true) in
      match r with
      | (Ptr fifo, Some len) =>
        st_upd (fun s => SmemPipes (ps_mem s) (SmemPipe (sp_tail pipe) (sp_head pipe) fifo len (sp_remote_pid pipe)) (ps_tx s)) ;;;
        st_ret false
      | _ => st_ret true
      end
    else st_ret false) in
  if err then st_ret 0 else
  let! pipe := st_get ps_rx in
  let! head := ps_on_mem (load32 (sp_head pipe)) in
  let! tail := ps_on_mem (load32 (sp_tail pipe)) in
  let len := if head <? tail then u64 (sp_length pipe - tail + head) else head - tail in
  st_ret (if len >? sp_length pipe then 0 else len).

(** A tail out of the queue leaves the buffer of the caller alone: nothing is copied. *)
Definition glink_smem_rx_peak (offset count : Z) : ST smem_pipes (list Z) :=
  let! pipe := st_get ps_rx in
  let! tail := ps_on_mem (load32 (sp_tail pipe)) in
  if tail >? sp_length pipe then st_ret [] else
  let tail := u32 (tail + offset) in
  let tail := if tail >=? sp_length pipe then u32 (tail - sp_length pipe) else tail in
  let len := Z.min count (u64 (sp_length pipe - tail)) in
  let! data := if negb (len =? 0) then ps_on_mem (copy_out (sp_fifo pipe + tail) len) else st_ret [] in
  if negb (len =? count) then
    let! rest := ps_on_mem (copy_out (sp_fifo pipe) (count - len)) in
    st_ret (data ++ rest)
  else st_ret data.

Definition glink_smem_rx_advance (count : Z) : ST smem_pipes unit :=
  let! pipe := st_get ps_rx in
  let! tail := ps_on_mem (load32 (sp_tail pipe)) in
  let tail := u32 (tail + count) in
  let tail := if tail >=? sp_length pipe then tail mod sp_length pipe else tail in
  ps_on_mem (store32 (sp_tail pipe) tail).

Definition glink_smem_tx_avail : ST smem_pipes Z :=
  let! pipe := st_get ps_tx in
  let! head := ps_on_mem (load32 (sp_head pipe)) in
  let! tail := ps_on_mem (load32 (sp_tail pipe)) in
  let avail := if tail <=? head then u32 (sp_length pipe - head + tail) else tail - head in
  let avail := if avail <? FIFO_FULL_RESERVE + TX_BLOCKED_CMD_RESERVE then 0
               else avail - (FIFO_FULL_RESERVE + TX_BLOCKED_CMD_RESERVE) in
  st_ret (if avail >? sp_length pipe then 0 else avail).

Definition glink_smem_tx_write_one (pipe : glink_smem_pipe) (head : Z) (data : list Z) : ST mem Z :=
  let count := Z.of_nat (length data) in
  if head >? sp_length pipe then st_ret head else
  let len := Z.min count (u64 (sp_length pipe - head)) in
  (if negb (len =? 0) then store_bytes (sp_fifo pipe + head) (take (Z.to_nat len) data) else st_ret tt) ;;;
  (if negb (len =? count) then store_bytes (sp_fifo pipe) (drop (Z.to_nat len) data) else st_ret tt) ;;;
  let head := u32 (head + count) in
  st_ret (if head >=? sp_length pipe then u32 (head - sp_length pipe) else head).

(** [ALIGN] on an unsigned int. *)
Definition align_head (head : Z) : Z := u32 (Z.land (head + 7) (Z.lnot 7)).

Definition glink_smem_tx_write (hdr data : list Z) : ST smem_pipes unit :=
  let! pipe := st_get ps_tx in
  let! head := ps_on_mem (load32 (sp_head pipe)) in
  let! head := ps_on_mem (glink_smem_tx_write_one pipe head hdr) in
  let! head := ps_on_mem (glink_smem_tx_write_one pipe head data) in
  let head := align_head head in
  let head := if head >=? sp_length pipe then u32 (head - sp_length pipe) else head in
  ps_on_mem (store32 (sp_head pipe) head).

Definition smem_pipe : GlinkPipe smem_pipes := {|
  pipe_rx_avail := glink_smem_rx_avail;
  pipe_rx_peak := glink_smem_rx_peak;
  pipe_rx_advance := glink_smem_rx_advance;
  pipe_tx_length := fun s => sp_length (ps_tx s);
  pipe_tx_avail := glink_smem_tx_avail;
  pipe_tx_write := glink_smem_tx_write;
  pipe_reset := glink_smem_tx_reset ;;; glink_smem_rx_reset
|}.
End pipes.
