(* ===== verification/GlinkQueue.v ===== *)
(** * The pipes in shared memory are queues (drivers/rpmsg/qcom_glink_smem.c)

    The two pipes of an edge satisfy [PipeLaws]: what one side writes is what the other side,
    which has the pipes the other way round, reads, whatever the position in the rings. *)
From S2P Require Import Prelude CMem Smem SmemHeap SmemApi SmemService GlinkPipe.
Open Scope c_scope.

(** ** The layout *)

(** Two runs of bytes that have none in common. *)
Definition apart (x y : Z * Z) : Prop := x.1 + x.2 <= y.1 \/ y.1 + y.2 <= x.1.
Definition parts (p : glink_smem_pipe) : list (Z * Z) := [(sp_tail p, 4); (sp_head p, 4); (sp_fifo p, sp_length p)].

(** A ring of [sp_length] bytes and its two words in the memory. *)
Record ring_ok (m : mem) (p : glink_smem_pipe) : Prop := {
  ro_length : 16 < sp_length p < 2 ^ 31;
  ro_units : (8 | sp_length p);
  ro_found : sp_fifo p <> 0;
  ro_in x : x ∈ parts p -> m_base m <= x.1 /\ x.1 + x.2 <= m_base m + m_size m;
  ro_words : apart (sp_tail p, 4) (sp_head p, 4);
  ro_tail : apart (sp_tail p, 4) (sp_fifo p, sp_length p);
  ro_head : apart (sp_head p, 4) (sp_fifo p, sp_length p);
}.

Record pipes_ok (s : smem_pipes) : Prop := {
  ps_rx_ok : ring_ok (ps_mem s) (ps_rx s);
  ps_tx_ok : ring_ok (ps_mem s) (ps_tx s);
  ps_apart x y : x ∈ parts (ps_rx s) -> y ∈ parts (ps_tx s) -> apart x y;
}.

(** The queue in a ring. *)
Record ring_has (m : mem) (p : glink_smem_pipe) (q : list Z) : Prop := {
  rh_tail : rd32 m (sp_tail p) < sp_length p;
  rh_tail_units : (8 | rd32 m (sp_tail p));
  rh_head : rd32 m (sp_head p) = (rd32 m (sp_tail p) + Z.of_nat (length q)) mod sp_length p;
  rh_units : (8 | Z.of_nat (length q));
  rh_room : Z.of_nat (length q) <= sp_length p - 8;
  rh_bytes : q = ring_bytes m (sp_fifo p) (sp_length p) (rd32 m (sp_tail p)) (length q);
}.

Definition smem_rx_has (s : smem_pipes) (q : list Z) : Prop := pipes_ok s /\ ring_has (ps_mem s) (ps_rx s) q.
Definition smem_tx_has (s : smem_pipes) (q : list Z) : Prop := pipes_ok s /\ ring_has (ps_mem s) (ps_tx s) q.

(** The bytes of a pipe. *)
Definition of_pipe (p : glink_smem_pipe) (c : Z) : Prop := exists x, x ∈ parts p /\ x.1 <= c < x.1 + x.2.

Lemma of_tail p c : word (sp_tail p) c -> of_pipe p c.
Proof. intros Hc. exists (sp_tail p, 4). split; [by left|exact Hc]. Qed.
Lemma of_head p c : word (sp_head p) c -> of_pipe p c.
Proof. intros Hc. exists (sp_head p, 4). split; [by right; left|exact Hc]. Qed.
Lemma of_fifo p c : run_of (sp_fifo p) (sp_length p) c -> of_pipe p c.
Proof. intros Hc. exists (sp_fifo p, sp_length p). split; [by right; right; left|exact Hc]. Qed.

Lemma ring_has_changed P m m' p q : ring_ok m p -> changed P m m' -> (forall c, of_pipe p c -> ~ P c) ->
  ring_has m p q -> ring_has m' p q.
Proof.
  intros Ok C HP [H1 H2 H3 H4 H5 H6].
  assert (Et : rd32 m' (sp_tail p) = rd32 m (sp_tail p)) by (apply (rd32_changed P); [done|]; intros c Hc; by apply HP, of_tail).
  assert (Eh : rd32 m' (sp_head p) = rd32 m (sp_head p)) by (apply (rd32_changed P); [done|]; intros c Hc; by apply HP, of_head).
  pose proof (ro_length _ _ Ok).
  constructor; rewrite ?Et, ?Eh, ?(ring_bytes_agree m m') by (try lia; intros c Hc; by apply (ch_byte _ _ _ C), HP, of_fifo); done.
Qed.

Lemma ring_ok_changed P m m' p : changed P m m' -> ring_ok m p -> ring_ok m' p.
Proof. intros [E1 E2 _] [? ? ? ? ? ? ?]. constructor; rewrite ?E1, ?E2; done. Qed.

Lemma pipes_apart s c : pipes_ok s -> of_pipe (ps_rx s) c -> ~ of_pipe (ps_tx s) c.
Proof.
  intros [_ _ A] (x&Hx&Hc) (y&Hy&Hc'). specialize (A x y Hx Hy). unfold apart in A. lia.
Qed.

(** A change of the bytes of one pipe. *)
Lemma pipes_ok_changed P s m' : changed P (ps_mem s) m' -> pipes_ok s -> pipes_ok (SmemPipes m' (ps_rx s) (ps_tx s)).
Proof. intros C [? ? ?]. constructor; cbn; [by apply (ring_ok_changed P (ps_mem s))..|done]. Qed.
Lemma tx_has_kept s m' t : changed (of_pipe (ps_rx s)) (ps_mem s) m' -> smem_tx_has s t ->
  smem_tx_has (SmemPipes m' (ps_rx s) (ps_tx s)) t.
Proof.
  intros C [Ok Q]. split; [by apply (pipes_ok_changed (of_pipe (ps_rx s)))|]. cbn.
  apply (ring_has_changed (of_pipe (ps_rx s)) (ps_mem s)); [apply Ok|done| |done].
  intros c Hc Hc'. exact (pipes_apart s c Ok Hc' Hc).
Qed.
Lemma rx_has_kept s m' q : changed (of_pipe (ps_tx s)) (ps_mem s) m' -> smem_rx_has s q ->
  smem_rx_has (SmemPipes m' (ps_rx s) (ps_tx s)) q.
Proof.
  intros C [Ok Q]. split; [by apply (pipes_ok_changed (of_pipe (ps_tx s)))|]. cbn.
  apply (ring_has_changed (of_pipe (ps_tx s)) (ps_mem s)); [apply Ok|done| |done].
  intros c Hc. exact (pipes_apart s c Ok Hc).
Qed.

Definition same_ends (s s' : smem_pipes) : Prop := ps_rx s' = ps_rx s /\ ps_tx s' = ps_tx s.

(** ** The words of a ring *)
Lemma divide_mod d x n : n <> 0 -> (d | x) -> (d | n) -> (d | x mod n).
Proof. intros Hn Hx Hd. rewrite Z.mod_eq by done. apply Z.divide_sub_r; [done|]. by apply Z.divide_mul_l. Qed.

Section ring.
Context (m : mem) (p : glink_smem_pipe) (q : list Z).
Hypothesis (Ok_ : ring_ok m p) (Q : ring_has m p q).

Lemma in_tail : m_base m <= sp_tail p /\ sp_tail p + 4 <= m_base m + m_size m.
Proof. apply (ro_in _ _ Ok_ (sp_tail p, 4)). by left. Qed.
Lemma in_head : m_base m <= sp_head p /\ sp_head p + 4 <= m_base m + m_size m.
Proof. apply (ro_in _ _ Ok_ (sp_head p, 4)). by right; left. Qed.
Lemma in_fifo : m_base m <= sp_fifo p /\ sp_fifo p + sp_length p <= m_base m + m_size m.
Proof. apply (ro_in _ _ Ok_ (sp_fifo p, sp_length p)). by right; right; left. Qed.

Lemma load_tail : load32 (sp_tail p) m = Ok (rd32 m (sp_tail p), m).
Proof. pose proof in_tail. apply load_ok; lia. Qed.
Lemma load_head : load32 (sp_head p) m = Ok (rd32 m (sp_head p), m).
Proof. pose proof in_head. apply load_ok; lia. Qed.

Lemma ring_head_cases : let t := rd32 m (sp_tail p) in let h := rd32 m (sp_head p) in
  0 <= t < sp_length p /\ 0 <= h < sp_length p /\
  (h = t + Z.of_nat (length q) \/ h < t /\ h = t + Z.of_nat (length q) - sp_length p).
Proof.
  cbv zeta. pose proof (ro_length _ _ Ok_) as Hl. pose proof Q as [H1 _ H2 _ H3 _]. pose proof (rd32_range m (sp_tail p)).
  split; [lia|]. rewrite H2. split; [apply Z.mod_pos_bound; lia|].
  destruct (decide (rd32 m (sp_tail p) + Z.of_nat (length q) < sp_length p)).
  - left. apply Z.mod_small. lia.
  - right. assert (E : (rd32 m (sp_tail p) + Z.of_nat (length q)) mod sp_length p =
      rd32 m (sp_tail p) + Z.of_nat (length q) - sp_length p) by (symmetry; apply Z.mod_unique with (q := 1); lia).
    rewrite E. lia.
Qed.

Lemma copy_out_ok a n : m_base m <= a -> a + n <= m_base m + m_size m ->
  copy_out a n m = Ok (bytes_at m a (Z.to_nat n), m).
Proof. intros. unfold copy_out, in_range. by replace ((_ <=? _) && _) with true by lia. Qed.

(** A new tail within the queue. *)
Lemma tail_moved n : 0 <= n <= Z.of_nat (length q) -> (8 | n) ->
  let m' := wr32 m (sp_tail p) ((rd32 m (sp_tail p) + n) mod sp_length p) in
  store32 (sp_tail p) ((rd32 m (sp_tail p) + n) mod sp_length p) m = Ok (tt, m') /\
  changed (of_pipe p) m m' /\ ring_has m' p (drop (Z.to_nat n) q).
Proof.
  intros Hn Hu m'. destruct ring_head_cases as (Ht&_&_). pose proof (ro_length _ _ Ok_) as Hl. pose proof (rh_room _ _ _ Q).
  set (t := rd32 m (sp_tail p)) in *. pose proof (Z.mod_pos_bound (t + n) (sp_length p) ltac:(lia)) as Hm.
  assert (C : changed (word (sp_tail p)) m m') by by apply changed_store.
  split; [apply store_ok; pose proof in_tail; lia|]. split.
  { destruct C as [C1 C2 C3]. constructor; [done..|]. intros c Hc. apply C3. intros Hw. by apply Hc, of_tail. }
  assert (Eh : rd32 m' (sp_head p) = rd32 m (sp_head p)).
  { apply (rd32_changed (word (sp_tail p))); [done|]. pose proof (ro_words _ _ Ok_) as A. unfold apart, word in *. cbn in A. lia. }
  assert (Et : rd32 m' (sp_tail p) = (t + n) mod sp_length p) by (unfold m'; rewrite rd32_wr32; apply u32_id; lia).
  constructor; rewrite ?Eh, ?Et, ?length_drop.
  - lia.
  - apply divide_mod; [lia|apply Z.divide_add_r; [apply Q|done]|apply Ok_].
  - rewrite (rh_head _ _ _ Q). fold t. rewrite Zplus_mod_idemp_l. f_equal. lia.
  - replace (Z.of_nat (length q - Z.to_nat n)) with (Z.of_nat (length q) - n) by lia. apply Z.divide_sub_r; [apply Q|done].
  - lia.
  - rewrite (ring_bytes_agree m m') by (try lia; intros c Hc; apply C; pose proof (ro_tail _ _ Ok_) as A;
      unfold apart, word, run_of in *; cbn in A; lia).
    rewrite (rh_bytes _ _ _ Q) at 1. fold t. rewrite ring_bytes_drop by lia. by rewrite Z2Nat.id by lia.
Qed.

Lemma read_len : (if rd32 m (sp_head p) <? rd32 m (sp_tail p)
  then u64 (sp_length p - rd32 m (sp_tail p) + rd32 m (sp_head p)) else rd32 m (sp_head p) - rd32 m (sp_tail p)) =
  Z.of_nat (length q).
Proof.
  destruct ring_head_cases as (Ht&Hh&Hc). pose proof (ro_length _ _ Ok_) as Hl. pose proof (rh_room _ _ _ Q).
  case_if; [rewrite u64_id by lia|]; lia.
Qed.

Lemma write_room : (if rd32 m (sp_tail p) <=? rd32 m (sp_head p)
  then u32 (sp_length p - rd32 m (sp_head p) + rd32 m (sp_tail p)) else rd32 m (sp_tail p) - rd32 m (sp_head p)) =
  sp_length p - Z.of_nat (length q).
Proof.
  destruct ring_head_cases as (Ht&Hh&Hc). pose proof (ro_length _ _ Ok_) as Hl. pose proof (rh_room _ _ _ Q).
  case_if; [rewrite u32_id by lia|]; lia.
Qed.

(** [n] bytes of the ring from the position [t] on, in one run or two. *)
Lemma read_run t n : 0 <= t < sp_length p -> 0 <= n <= sp_length p ->
  let k := Z.min n (u64 (sp_length p - t)) in
  (if negb (k =? 0) then copy_out (sp_fifo p + t) k else st_ret []) m = Ok (bytes_at m (sp_fifo p + t) (Z.to_nat k), m) /\
  (negb (k =? n) = true -> copy_out (sp_fifo p) (n - k) m = Ok (bytes_at m (sp_fifo p) (Z.to_nat n - Z.to_nat k)%nat, m)) /\
  (k = n -> bytes_at m (sp_fifo p) (Z.to_nat n - Z.to_nat k)%nat = []) /\
  bytes_at m (sp_fifo p + t) (Z.to_nat k) ++ bytes_at m (sp_fifo p) (Z.to_nat n - Z.to_nat k)%nat =
    ring_bytes m (sp_fifo p) (sp_length p) t (Z.to_nat n).
Proof.
  intros Ht Hn. pose proof (ro_length _ _ Ok_) as Hl. rewrite u64_id by lia. cbv zeta. pose proof in_fifo.
  set (k := Z.min n (sp_length p - t)). split; [|split; [|split]].
  - case_if; [apply copy_out_ok; lia|]. unfold st_ret. by replace k with 0 by lia.
  - intros Hk. rewrite copy_out_ok by lia. by rewrite Z2Nat.inj_sub by lia.
  - intros ->. by rewrite Nat.sub_diag, bytes_at_0.
  - pose proof (ring_split m (sp_fifo p) (sp_length p) t (Z.to_nat n) Ht ltac:(lia)) as S. cbv zeta in S.
    rewrite Z2Nat.id in S by lia. exact S.
Qed.
End ring.

(** ** Reading *)
Lemma pipes_same {A} s (c : ST mem A) a : c (ps_mem s) = Ok (a, ps_mem s) -> ps_on_mem c s = Ok (a, s).
Proof. intros E. unfold ps_on_mem. rewrite E. by destruct s. Qed.

Section read.
Context (smem : qcom_smem) (hwlock_rc : Z) (s : smem_pipes) (q : list Z).
Hypothesis (R : smem_rx_has s q).

Lemma rx_ring : ring_ok (ps_mem s) (ps_rx s) /\ ring_has (ps_mem s) (ps_rx s) q.
Proof. destruct R as [[? ? ?] ?]. done. Qed.

Lemma smem_rx_avail_ok : glink_smem_rx_avail smem hwlock_rc s = Ok (Z.of_nat (length q), s).
Proof.
  destruct rx_ring as [Ok_ Q]. unfold glink_smem_rx_avail. rewrite st_bind_get.
  pose proof (ro_found _ _ Ok_). replace (sp_fifo (ps_rx s) =? 0) with false by lia. rewrite st_bind_ret, st_bind_get.
  rewrite (st_bind_ok _ _ _ _ _ (pipes_same _ _ _ (load_head _ _ Ok_))).
  rewrite (st_bind_ok _ _ _ _ _ (pipes_same _ _ _ (load_tail _ _ Ok_))).
  rewrite (read_len _ _ _ Ok_ Q). unfold st_ret. pose proof (rh_room _ _ _ Q). by bool_false (Z.of_nat (length q) >? sp_length (ps_rx s)).
Qed.

Lemma smem_rx_peak_ok off n : 0 <= off -> 0 <= n -> off + n <= Z.of_nat (length q) ->
  glink_smem_rx_peak off n s = Ok (take (Z.to_nat n) (drop (Z.to_nat off) q), s).
Proof.
  intros Ho Hn Hl. destruct rx_ring as [Ok_ Q]. unfold glink_smem_rx_peak. rewrite st_bind_get.
  rewrite (st_bind_ok _ _ _ _ _ (pipes_same _ _ _ (load_tail _ _ Ok_))).
  destruct (ring_head_cases _ _ _ Ok_ Q) as (Ht&_&_). pose proof (ro_length _ _ Ok_) as HL. pose proof (rh_room _ _ _ Q).
  set (t := rd32 (ps_mem s) (sp_tail (ps_rx s))) in *. set (L := sp_length (ps_rx s)) in *.
  replace (t >? L) with false by lia. rewrite (u32_id (t + off)) by lia.
  assert (E : (if t + off >=? L then u32 (t + off - L) else t + off) = (t + off) mod L).
  { case_if; [rewrite u32_id by lia; apply Z.mod_unique with (q := 1); lia|symmetry; apply Z.mod_small; lia]. }
  cbv zeta. rewrite E. pose proof (Z.mod_pos_bound (t + off) L ltac:(lia)) as Hm.
  assert (B : take (Z.to_nat n) (drop (Z.to_nat off) q) =
    ring_bytes (ps_mem s) (sp_fifo (ps_rx s)) L ((t + off) mod L) (Z.to_nat n)).
  { rewrite (rh_bytes _ _ _ Q). fold t L. rewrite ring_bytes_drop, ring_bytes_take by lia. by rewrite Z2Nat.id by lia. }
  rewrite B. destruct (read_run _ _ Ok_ ((t + off) mod L) n Hm ltac:(lia)) as (E1&E2&E3&E4). fold L in E1, E2, E3, E4.
  rewrite <-E4. cbv zeta.
  set (k := Z.min n (u64 (L - (t + off) mod L))) in *.
  assert (E1' : (if negb (k =? 0) then ps_on_mem (copy_out (sp_fifo (ps_rx s) + (t + off) mod L) k) else st_ret []) s =
    Ok (bytes_at (ps_mem s) (sp_fifo (ps_rx s) + (t + off) mod L) (Z.to_nat k), s)).
  { destruct (negb (k =? 0)); [by apply pipes_same|]. unfold st_ret in *. by injection E1 as <-. }
  rewrite (st_bind_ok _ _ _ _ _ E1'). destruct (negb (k =? n)) eqn:En.
  - by rewrite (st_bind_ok _ _ _ _ _ (pipes_same _ _ _ (E2 eq_refl))).
  - rewrite E3 by lia. by rewrite app_nil_r.
Qed.

Lemma smem_rx_advance_ok n : 0 <= n <= Z.of_nat (length q) -> (8 | n) -> exists s',
  glink_smem_rx_advance n s = Ok (tt, s') /\ smem_rx_has s' (drop (Z.to_nat n) q) /\
  (forall t, smem_tx_has s t -> smem_tx_has s' t) /\ same_ends s s'.
Proof.
  intros Hn Hu. destruct rx_ring as [Ok_ Q]. unfold glink_smem_rx_advance. rewrite st_bind_get.
  rewrite (st_bind_ok _ _ _ _ _ (pipes_same _ _ _ (load_tail _ _ Ok_))).
  destruct (ring_head_cases _ _ _ Ok_ Q) as (Ht&_&_). pose proof (ro_length _ _ Ok_) as HL. pose proof (rh_room _ _ _ Q).
  destruct (tail_moved _ _ _ Ok_ Q n Hn Hu) as (E&C&Q'). set (t := rd32 (ps_mem s) (sp_tail (ps_rx s))) in *.
  rewrite (u32_id (t + n)) by lia.
  assert (Et : (if t + n >=? sp_length (ps_rx s) then (t + n) mod sp_length (ps_rx s) else t + n) = (t + n) mod sp_length (ps_rx s))
    by (case_if; [done|symmetry; apply Z.mod_small; lia]).
  cbv zeta. rewrite Et. unfold ps_on_mem. rewrite E. eexists. split; [reflexivity|]. split; [|split; [|done]].
  - split; [|exact Q']. destruct R as [P _]. by apply (pipes_ok_changed _ _ _ C).
  - intros t'. apply tx_has_kept. exact C.
Qed.
End read.

(** ** Writing *)
Lemma write_one_ok m p h d : ring_ok m p -> 0 <= h < sp_length p -> Z.of_nat (length d) <= sp_length p ->
  glink_smem_tx_write_one p h d m =
    Ok ((h + Z.of_nat (length d)) mod sp_length p, ring_put m (sp_fifo p) (sp_length p) h d).
Proof.
  intros Ok_ Hh Hd. pose proof (ro_length _ _ Ok_) as HL. pose proof (in_fifo _ _ Ok_) as Hf. unfold glink_smem_tx_write_one.
  replace (h >? sp_length p) with false by lia. rewrite u64_id by lia. cbv zeta.
  set (k := Z.min (Z.of_nat (length d)) (sp_length p - h)).
  set (m1 := put_bytes m (sp_fifo p + h) (take (Z.to_nat k) d)).
  assert (E1 : (if negb (k =? 0) then store_bytes (sp_fifo p + h) (take (Z.to_nat k) d) else st_ret tt) m = Ok (tt, m1)).
  { case_if; [apply store_bytes_ok; rewrite ?length_take; lia|]. unfold m1, st_ret. by replace k with 0 by lia. }
  assert (E2 : (if negb (k =? Z.of_nat (length d)) then store_bytes (sp_fifo p) (drop (Z.to_nat k) d) else st_ret tt) m1 =
    Ok (tt, ring_put m (sp_fifo p) (sp_length p) h d)).
  { destruct (put_bytes_frame (take (Z.to_nat k) d) m (sp_fifo p + h)) as [F1 F2]. fold m1 in F1, F2.
    case_if; [apply store_bytes_ok; rewrite ?length_drop, ?F1, ?F2; lia|].
    unfold ring_put, st_ret. fold k m1. rewrite (drop_ge d) by lia. done. }
  rewrite (st_bind_ok _ _ _ _ _ E1), (st_bind_ok _ _ _ _ _ E2). unfold st_ret. do 2 f_equal.
  rewrite (u32_id (h + _)) by lia. case_if.
  - rewrite u32_id by lia. apply Z.mod_unique with (q := 1); lia.
  - symmetry. apply Z.mod_small. lia.
Qed.

Lemma align_head_ok h : 0 <= h < 2 ^ 31 -> align_head h = h + (- h) mod 8.
Proof.
  intros Hh. unfold align_head. change 7 with (Z.ones 3). rewrite <-Z.ldiff_land, Z.ldiff_ones_r by lia.
  rewrite Z.shiftr_div_pow2, Z.shiftl_mul_pow2 by lia. change (Z.ones 3) with 7. change (2 ^ 3) with 8.
  pose proof (Z.div_mod (h + 7) 8 ltac:(lia)). pose proof (Z.mod_pos_bound (h + 7) 8 ltac:(lia)).
  assert (E : (- h) mod 8 = 7 - (h + 7) mod 8).
  { symmetry. apply Z.mod_unique with (q := - ((h + 7) / 8)); lia. }
  rewrite E, u32_id by lia. lia.
Qed.

(** The head behind a message of [n] bytes, rounded up to a unit. *)
Lemma head_aligned L h n : 16 < L < 2 ^ 31 -> (8 | L) -> 0 <= h < L -> (8 | h) -> 0 <= n <= L ->
  (let x := align_head ((h + n) mod L) in if x >=? L then u32 (x - L) else x) = (h + n + (- n) mod 8) mod L.
Proof.
  intros HL [k Hk] Hh [j Hj] Hn. pose proof (Z.mod_pos_bound (h + n) L ltac:(lia)) as Hm. cbv zeta. rewrite align_head_ok by lia.
  assert (E : (- ((h + n) mod L)) mod 8 = (- n) mod 8).
  { rewrite (Z.mod_eq (h + n) L) by lia. rewrite Hk, Hj. replace (- (j * 8 + n - k * 8 * ((j * 8 + n) / (k * 8)))) with
      (- n + (k * ((j * 8 + n) / (k * 8)) - j) * 8) by lia. apply Z.mod_add. lia. }
  rewrite E. pose proof (Z.mod_pos_bound (- n) 8 ltac:(lia)) as Hp. set (pad := (- n) mod 8) in *.
  rewrite <-(Zplus_mod_idemp_l (h + n) pad). set (x := (h + n) mod L) in *.
  case_if.
  - rewrite u32_id by lia. apply Z.mod_unique with (q := 1); lia.
  - symmetry. apply Z.mod_small. lia.
Qed.

(** The bytes behind a run of a ring. *)
Lemma ring_more m fifo len t n k : exists pad,
  ring_bytes m fifo len t (n + k) = ring_bytes m fifo len t n ++ pad /\ length pad = k.
Proof.
  exists (drop n (ring_bytes m fifo len t (n + k))). split.
  - rewrite <-(take_drop n (ring_bytes m fifo len t (n + k))) at 1. by rewrite ring_bytes_take by lia.
  - rewrite length_drop, length_ring_bytes. lia.
Qed.

Section write.
Context (s : smem_pipes) (q : list Z).
Hypothesis (T : smem_tx_has s q).
#[local] Abbreviation pipe := (ps_tx s).
#[local] Abbreviation L := (sp_length (ps_tx s)).

Lemma tx_ring : ring_ok (ps_mem s) pipe /\ ring_has (ps_mem s) pipe q.
Proof. destruct T as [[? ? ?] ?]. done. Qed.

Lemma smem_tx_avail_ok : glink_smem_tx_avail s = Ok (Z.max 0 (L - 16 - Z.of_nat (length q)), s).
Proof.
  destruct tx_ring as [Ok_ Q]. unfold glink_smem_tx_avail. rewrite st_bind_get.
  rewrite (st_bind_ok _ _ _ _ _ (pipes_same _ _ _ (load_head _ _ Ok_))).
  rewrite (st_bind_ok _ _ _ _ _ (pipes_same _ _ _ (load_tail _ _ Ok_))).
  rewrite (write_room _ _ _ Ok_ Q). unfold st_ret, FIFO_FULL_RESERVE, TX_BLOCKED_CMD_RESERVE.
  pose proof (rh_room _ _ _ Q). pose proof (ro_length _ _ Ok_). cbv zeta.
  assert (E : (if L - Z.of_nat (length q) <? 8 + 8 then 0 else L - Z.of_nat (length q) - (8 + 8)) =
    Z.max 0 (L - 16 - Z.of_nat (length q))) by (case_if; lia).
  rewrite E. by bool_false (Z.max 0 (L - 16 - Z.of_nat (length q)) >? L).
Qed.

(** A message in the ring, with the head still where it was. *)
Lemma put_message d1 d2 : let m := ps_mem s in Forall byte_ok d1 -> Forall byte_ok d2 ->
  let n := Z.of_nat (length d1) + Z.of_nat (length d2) in Z.of_nat (length q) + n <= L - 8 ->
  let h := rd32 m (sp_head pipe) in
  let m2 := ring_put (ring_put m (sp_fifo pipe) L h d1) (sp_fifo pipe) L ((h + Z.of_nat (length d1)) mod L) d2 in
  changed (run_of (sp_fifo pipe) L) m m2 /\ exists pad, Z.of_nat (length pad) = (- n) mod 8 /\
  q ++ d1 ++ d2 ++ pad = ring_bytes m2 (sp_fifo pipe) L (rd32 m (sp_tail pipe)) (length (q ++ d1 ++ d2 ++ pad)).
Proof.
  intros m H1 H2 n Hn h m2. destruct tx_ring as [Ok_ Q]. pose proof (ro_length _ _ Ok_) as HL. fold m in Ok_, Q.
  destruct (ring_head_cases _ _ _ Ok_ Q) as (Ht&Hh&_). fold h in Hh. set (t := rd32 m (sp_tail pipe)) in *.
  pose proof (Z.mod_pos_bound (h + Z.of_nat (length d1)) L ltac:(lia)) as Hh2.
  split.
  { destruct (ring_put_changed m (sp_fifo pipe) L h d1 Hh ltac:(lia)) as [A1 A2 A3].
    destruct (ring_put_changed (ring_put m (sp_fifo pipe) L h d1) (sp_fifo pipe) L _ d2 Hh2 ltac:(lia)) as [B1 B2 B3].
    constructor; [unfold m2; congruence..|]. intros c Hc. unfold m2. by rewrite B3, A3. }
  pose proof (ring_written m (sp_fifo pipe) L q t d1 H1 Ht ltac:(lia) (rh_bytes _ _ _ Q)) as W1.
  assert (E0 : h = (t + Z.of_nat (length q)) mod L) by exact (rh_head _ _ _ Q). rewrite <-E0 in W1.
  assert (W1' : q ++ d1 = ring_bytes (ring_put m (sp_fifo pipe) L h d1) (sp_fifo pipe) L t (length (q ++ d1))) by by rewrite length_app.
  pose proof (ring_written _ (sp_fifo pipe) L (q ++ d1) t d2 H2 Ht ltac:(rewrite length_app; lia) W1') as W2.
  assert (Eh : (t + Z.of_nat (length (q ++ d1))) mod L = (h + Z.of_nat (length d1)) mod L).
  { rewrite E0, Zplus_mod_idemp_l. f_equal. rewrite length_app. lia. }
  rewrite Eh in W2. fold m2 in W2.
  destruct (ring_more m2 (sp_fifo pipe) L t (length (q ++ d1) + length d2) (Z.to_nat ((- n) mod 8))) as (pad&E&Hp).
  pose proof (Z.mod_pos_bound (- n) 8 ltac:(lia)). exists pad. split; [lia|].
  rewrite <-W2, <-Hp, <-!app_assoc in E. rewrite <-E at 1. f_equal. rewrite !length_app. lia.
Qed.

(** The memory after a write. *)
Definition tx_put (hdr data : list Z) : mem :=
  let h := rd32 (ps_mem s) (sp_head pipe) in
  ring_put (ring_put (ps_mem s) (sp_fifo pipe) L h hdr) (sp_fifo pipe) L ((h + Z.of_nat (length hdr)) mod L) data.
Definition tx_new_head (hdr data : list Z) : Z :=
  let n := Z.of_nat (length hdr) + Z.of_nat (length data) in (rd32 (ps_mem s) (sp_head pipe) + n + (- n) mod 8) mod L.
Definition tx_mem (hdr data : list Z) : mem := wr32 (tx_put hdr data) (sp_head pipe) (tx_new_head hdr data).

Lemma tx_write_exec hdr data : Forall byte_ok hdr -> Forall byte_ok data ->
  Z.of_nat (length q) + Z.of_nat (length hdr) + Z.of_nat (length data) <= L - 8 ->
  glink_smem_tx_write hdr data s = Ok (tt, SmemPipes (tx_mem hdr data) (ps_rx s) pipe).
Proof.
  intros Hh Hd Hroom. destruct tx_ring as [Ok_ Q]. pose proof (ro_length _ _ Ok_) as HL.
  destruct (ring_head_cases _ _ _ Ok_ Q) as (Ht&Hhd&_).
  destruct (put_message hdr data Hh Hd ltac:(lia)) as (C&_). unfold tx_mem, tx_put, tx_new_head. cbv zeta.
  set (h := rd32 (ps_mem s) (sp_head pipe)) in *.
  set (m1 := ring_put (ps_mem s) (sp_fifo pipe) L h hdr) in *. set (m2 := ring_put m1 _ _ _ data) in *.
  pose proof (Z.mod_pos_bound (h + Z.of_nat (length hdr)) L ltac:(lia)) as Hh1.
  assert (Ok1 : ring_ok m1 pipe) by (apply (ring_ok_changed (run_of (sp_fifo pipe) L) (ps_mem s)); [by apply ring_put_changed; lia|done]).
  assert (Ok2 : ring_ok m2 pipe) by by apply (ring_ok_changed (run_of (sp_fifo pipe) L) (ps_mem s)).
  set (n := Z.of_nat (length hdr) + Z.of_nat (length data)) in *.
  assert (Ev : (let x := align_head (((h + Z.of_nat (length hdr)) mod L + Z.of_nat (length data)) mod L) in
    if x >=? L then u32 (x - L) else x) = (h + n + (- n) mod 8) mod L).
  { rewrite Zplus_mod_idemp_l, <-Z.add_assoc. apply head_aligned; [done|apply Ok_|done| |lia].
    unfold h. rewrite (rh_head _ _ _ Q). apply divide_mod; [lia| |apply Ok_]. apply Z.divide_add_r; apply Q. }
  unfold glink_smem_tx_write. rewrite st_bind_get.
  rewrite (st_bind_ok _ _ _ _ _ (pipes_same _ _ _ (load_head _ _ Ok_))). fold h.
  unfold ps_on_mem at 1, st_bind at 1. rewrite (write_one_ok _ _ _ _ Ok_) by lia.
  unfold ps_on_mem at 1, st_bind at 1. cbn [ps_mem ps_rx ps_tx]. fold m1. rewrite (write_one_ok _ _ _ _ Ok1) by lia.
  fold m2. cbv zeta in Ev |- *. rewrite Ev. unfold ps_on_mem. cbn [ps_mem ps_rx ps_tx].
  pose proof (in_head _ _ Ok2). by rewrite store_ok by lia.
Qed.

Lemma tx_mem_changed hdr data : Forall byte_ok hdr -> Forall byte_ok data ->
  Z.of_nat (length q) + Z.of_nat (length hdr) + Z.of_nat (length data) <= L - 8 ->
  changed (fun c => word (sp_head pipe) c \/ run_of (sp_fifo pipe) L c) (ps_mem s) (tx_mem hdr data).
Proof.
  intros Hh Hd Hroom. destruct (put_message hdr data Hh Hd ltac:(lia)) as (C&_). fold (tx_put hdr data) in C.
  destruct (changed_store (word (sp_head pipe)) (tx_put hdr data) (sp_head pipe) (tx_new_head hdr data)) as [F1 F2 F3]; [done|].
  destruct C as [G1 G2 G3].
  constructor; [unfold tx_mem; congruence..|]. intros c Hc. unfold tx_mem. rewrite F3, G3 by tauto. done.
Qed.

Lemma tx_mem_has hdr data : Forall byte_ok hdr -> Forall byte_ok data ->
  Z.of_nat (length q) + Z.of_nat (length hdr) + Z.of_nat (length data) <= L - 8 ->
  exists pad, Z.of_nat (length pad) = (- (Z.of_nat (length hdr) + Z.of_nat (length data))) mod 8 /\
    ring_has (tx_mem hdr data) pipe (q ++ hdr ++ data ++ pad).
Proof.
  intros Hh Hd Hroom. destruct tx_ring as [Ok_ Q]. pose proof (ro_length _ _ Ok_) as HL.
  pose proof (tx_mem_changed hdr data Hh Hd Hroom) as C.
  destruct (put_message hdr data Hh Hd ltac:(lia)) as (_&pad&Hp&B). fold (tx_put hdr data) in B. exists pad. split; [exact Hp|].
  set (n := Z.of_nat (length hdr) + Z.of_nat (length data)) in *. pose proof (Z.mod_pos_bound (- n) 8 ltac:(lia)).
  assert (Hv : 0 <= tx_new_head hdr data < L) by (apply Z.mod_pos_bound; lia). pose proof (ro_head _ _ Ok_) as A1. pose proof (ro_words _ _ Ok_) as A2.
  pose proof (ro_tail _ _ Ok_) as A3. unfold apart in A1, A2, A3. cbn in A1, A2, A3.
  assert (Et : rd32 (tx_mem hdr data) (sp_tail pipe) = rd32 (ps_mem s) (sp_tail pipe)).
  { eapply rd32_changed; [exact C|]. unfold word, run_of. lia. }
  assert (Eh : rd32 (tx_mem hdr data) (sp_head pipe) = tx_new_head hdr data) by (unfold tx_mem; rewrite rd32_wr32; apply u32_id; lia).
  assert (El : Z.of_nat (length (q ++ hdr ++ data ++ pad)) = Z.of_nat (length q) + (n + (- n) mod 8)) by (rewrite !length_app; lia).
  assert (Hn8 : (8 | n + (- n) mod 8)) by (exists (- (- n / 8)); pose proof (Z.div_mod (- n) 8 ltac:(lia)); lia).
  constructor; rewrite ?Et, ?El.
  - apply Q.
  - apply Q.
  - rewrite Eh. unfold tx_new_head. fold n. rewrite (rh_head _ _ _ Q), <-Z.add_assoc, Zplus_mod_idemp_l. f_equal. lia.
  - apply Z.divide_add_r; [apply Q|done].
  - destruct (rh_units _ _ _ Q) as [k Hk], (ro_units _ _ Ok_) as [j Hj], Hn8 as [i Hi]. lia.
  - rewrite B at 1. symmetry. apply ring_bytes_agree; [lia|]. intros c Hc. apply get_byte_store. unfold run_of in Hc. lia.
Qed.

Lemma smem_tx_write_ok hdr data : Forall byte_ok hdr -> Forall byte_ok data ->
  Z.of_nat (length q) + Z.of_nat (length hdr) + Z.of_nat (length data) <= L - 8 ->
  exists s' pad, glink_smem_tx_write hdr data s = Ok (tt, s') /\ smem_tx_has s' (q ++ hdr ++ data ++ pad) /\
    Z.of_nat (length pad) = (- (Z.of_nat (length hdr) + Z.of_nat (length data))) mod 8 /\
    (forall r, smem_rx_has s r -> smem_rx_has s' r) /\ same_ends s s'.
Proof.
  intros Hh Hd Hroom. destruct (tx_mem_has hdr data Hh Hd Hroom) as (pad&Hp&R).
  assert (C : changed (of_pipe pipe) (ps_mem s) (tx_mem hdr data)).
  { destruct (tx_mem_changed hdr data Hh Hd Hroom) as [F1 F2 F3]. constructor; [done..|]. intros c Hc. apply F3.
    intros [Hw|Hw]; apply Hc; [by apply of_head|by apply of_fifo]. }
  eexists _, pad. split; [by apply tx_write_exec|]. split; [split; [by apply (pipes_ok_changed _ _ _ C), T|exact R]|].
  split; [exact Hp|]. split; [|done]. intros r. apply rx_has_kept. exact C.
Qed.
End write.

(** ** The interface *)
Lemma ring_bytes_range m fifo len t n : Forall byte_ok (ring_bytes m fifo len t n).
Proof. apply Forall_fmap, Forall_true. intros i. apply get_byte_range. Qed.

Section laws.
Context (smem : qcom_smem) (hwlock_rc : Z).
#[local] Instance pipes : GlinkPipe smem_pipes := smem_pipe smem hwlock_rc.

#[export, refine] Instance smem_pipe_laws : PipeLaws smem_pipes := {|
  rx_has := smem_rx_has;
  tx_has := smem_tx_has;
  same_pipe := same_ends;
  rx_advance_law s q n R := smem_rx_advance_ok s q R n;
  rx_avail_law s q R := smem_rx_avail_ok smem hwlock_rc s q R;
  rx_peak_law s q off n R := smem_rx_peak_ok s q R off n;
  tx_avail_law s t T := smem_tx_avail_ok s t T;
  tx_write_law s t hdr data T := smem_tx_write_ok s t T hdr data;
|}.
Proof.
  - done.
  - intros s1 s2 s3 [A1 A2] [B1 B2]. split; congruence.
  - intros s s' [_ E]. cbn. by rewrite E.
  - intros s q [[Ok_ _ _] Q]. pose proof (ro_length _ _ Ok_). pose proof (rh_room _ _ _ Q).
    split; [|split; [apply Q|lia]]. rewrite (rh_bytes _ _ _ Q). apply ring_bytes_range.
  - intros s t [[_ Ok_ _] Q]. pose proof (ro_length _ _ Ok_). pose proof (rh_room _ _ _ Q). cbn.
    split; [apply Q|]. split; [apply Ok_|lia].
Defined.
End laws.

(** The other side of the edge has the pipes the other way round. *)
Definition other_side (s : smem_pipes) (m : mem) : smem_pipes := SmemPipes m (ps_tx s) (ps_rx s).

Lemma other_side_reads s t : smem_tx_has s t -> smem_rx_has (other_side s (ps_mem s)) t.
Proof.
  intros [[R T A] Q]. split; [|done]. constructor; [done..|]. intros x y Hx Hy. cbn in *.
  specialize (A y x Hy Hx). unfold apart in *. lia.
Qed.

Lemma other_side_writes s t : smem_rx_has s t -> smem_tx_has (other_side s (ps_mem s)) t.
Proof.
  intros [[R T A] Q]. split; [|done]. constructor; [done..|]. intros x y Hx Hy. cbn in *.
  specialize (A y x Hy Hx). unfold apart in *. lia.
Qed.

(** C15: A pipe in shared memory is a bounded queue of bytes: from any position in the ring, a message within the
    room that the writer is told leaves room for a notification and goes behind the bytes that wait, filled up to a unit;
    the other side is told their number, sees each of them at its place, and takes units from the front, and the other
    queue is left alone. *)
Theorem glink_pipe_queue smem rc s t hdr data : smem_tx_has s t -> Forall byte_ok hdr -> Forall byte_ok data ->
  exists room, glink_smem_tx_avail s = Ok (room, s) /\
  (0 < Z.of_nat (length hdr) + Z.of_nat (length data) <= room ->
   exists s' pad, let q := t ++ hdr ++ data ++ pad in
   glink_smem_tx_write hdr data s = Ok (tt, s') /\ (length pad < 8)%nat /\ Z.of_nat (length q) <= sp_length (ps_tx s) - 16 /\
   smem_tx_has s' q /\ (forall r, smem_rx_has s r -> smem_rx_has s' r) /\
   let o := other_side s' (ps_mem s') in
   glink_smem_rx_avail smem rc o = Ok (Z.of_nat (length q), o) /\
   (forall off n, 0 <= off -> 0 <= n -> off + n <= Z.of_nat (length q) ->
      glink_smem_rx_peak off n o = Ok (take (Z.to_nat n) (drop (Z.to_nat off) q), o)) /\
   forall n, 0 <= n <= Z.of_nat (length q) -> (8 | n) -> exists o',
     glink_smem_rx_advance n o = Ok (tt, o') /\ smem_rx_has o' (drop (Z.to_nat n) q) /\
     smem_tx_has (other_side o' (ps_mem o')) (drop (Z.to_nat n) q)).
Proof.
  intros T Hh Hd. eexists. split; [exact (smem_tx_avail_ok s t T)|]. intros Hroom. pose proof (tx_ring s t T) as [Ok_ Q].
  pose proof (ro_length _ _ Ok_) as HL. destruct (rh_units _ _ _ Q) as [j Hj], (ro_units _ _ Ok_) as [k Hk].
  destruct (smem_tx_write_ok s t T hdr data Hh Hd) as (s'&pad&E&T'&Hp&R&Ends); [pose proof (rh_room _ _ _ Q); lia|].
  pose proof (Z.mod_pos_bound (- (Z.of_nat (length hdr) + Z.of_nat (length data))) 8 ltac:(lia)).
  pose proof (other_side_reads s' _ T') as Ro. exists s', pad. split; [exact E|]. split; [lia|]. split.
  - pose proof (Z.div_mod (- (Z.of_nat (length hdr) + Z.of_nat (length data))) 8 ltac:(lia)). rewrite !length_app. pose proof (rh_room _ _ _ Q). lia.
  - split; [exact T'|]. split; [exact R|]. split; [by apply smem_rx_avail_ok|]. split; [by apply smem_rx_peak_ok|]. intros n Hn Hu.
    destruct (smem_rx_advance_ok _ _ Ro n Hn Hu) as (o'&E'&R'&_). exists o'. split; [exact E'|]. split; [exact R'|]. by apply other_side_writes.
Qed.
