(* ===== verification/GlinkState.v ===== *)
(** * The state of a link (drivers/rpmsg/qcom_glink_native.c)

    A link connects this processor with another one.  It holds channels, each with a number
    on either side, and the intents of a channel: buffers one side offers and the other one
    sends into.  This file holds the data and the primitive accesses; the operations are in
    [Glink]. *)
From S2P Require Import Prelude CMem KernelIdr GlinkPipe.
Open Scope c_scope.

(** ** Constants *)
Definition GLINK_NAME_SIZE : Z := 32.
Definition GLINK_VERSION_1 : Z := 1.
Definition RPM_GLINK_CID_MIN : Z := 1.
Definition RPM_GLINK_CID_MAX : Z := 65536.
Definition RPM_CMD_VERSION : Z := 0.
Definition RPM_CMD_VERSION_ACK : Z := 1.
Definition RPM_CMD_OPEN : Z := 2.
Definition RPM_CMD_CLOSE : Z := 3.
Definition RPM_CMD_OPEN_ACK : Z := 4.
Definition RPM_CMD_INTENT : Z := 5.
Definition RPM_CMD_RX_DONE : Z := 6.
Definition RPM_CMD_RX_INTENT_REQ : Z := 7.
Definition RPM_CMD_RX_INTENT_REQ_ACK : Z := 8.
Definition RPM_CMD_TX_DATA : Z := 9.
Definition RPM_CMD_CLOSE_ACK : Z := 11.
Definition RPM_CMD_TX_DATA_CONT : Z := 12.
Definition RPM_CMD_READ_NOTIF : Z := 13.
Definition RPM_CMD_RX_DONE_W_REUSE : Z := 14.
Definition RPM_CMD_SIGNALS : Z := 15.
Definition GLINK_FEATURE_INTENT_REUSE : Z := BIT 0.
Definition NATIVE_DTR_SIG : Z := BIT 31.
Definition NATIVE_CTS_SIG : Z := BIT 30.
Definition NATIVE_CD_SIG : Z := BIT 29.
Definition NATIVE_RI_SIG : Z := BIT 28.
Definition SZ_1K : Z := 0x400.
Definition SZ_8K : Z := 0x2000.
Definition SZ_16K : Z := 0x4000.

(** The modem lines of the terminal headers, which are not part of the repository: distinct
    bits below bit 12. *)
Class Termios := {
  TIOCM_DTR : Z; TIOCM_RTS : Z; TIOCM_CTS : Z; TIOCM_CD : Z; TIOCM_RI : Z; TIOCM_DSR : Z;
  termios_bits : exists l, [TIOCM_DTR; TIOCM_RTS; TIOCM_CTS; TIOCM_CD; TIOCM_RI; TIOCM_DSR] = map BIT l /\
    Forall (fun i => 0 <= i < 12) l /\ NoDup l;
}.

(** ** Data *)

(** struct glink_core_rx_intent; the buffer of a local intent is a memory of its own. *)
Record glink_core_rx_intent := Intent {
  it_data : mem;
  it_id : Z;
  it_size : Z;
  it_reuse : bool;
  it_in_use : bool;
  it_advertised : bool;
  it_offset : Z;
}.

(** struct glink_channel with its endpoint: whether the callbacks are there, and whether a
    device belongs to the channel.  A name that could not be copied is missing. *)
Record glink_channel := Channel {
  ch_name : option (list Z);
  ch_cb : bool;
  ch_sig_cb : bool;
  ch_rpdev : bool;
  ch_refcount : Z;
  ch_lcid : Z;
  ch_rcid : Z;
  ch_liids : gmap Z Z;
  ch_liid_next : Z;
  ch_riids : gmap Z Z;
  ch_intent_work : bool;
  ch_done_intents : list Z;
  ch_buf : option Z;
  ch_open_ack : bool;
  ch_open_req : bool;
  ch_intent_req_result : bool;
  ch_channel_ready : bool;
  ch_intent_req_acked : Z;
  ch_intent_req_completed : Z;
  ch_lsigs : Z;
  ch_rsigs : Z;
}.

(** What the probe registers: the mailbox, the worker thread, the notifier, the interrupt. *)
Record glink_regs := Registrations { rg_mbox : bool; rg_task : bool; rg_notif : bool; rg_irq : bool }.

(** What happened at the border of the link: bytes handed to the pipe, a signal to the other
    side, data and signals given to the owner of a channel. *)
Inductive glink_event :=
| Sent (l : list Z)
| Kicked
| Deliver (c : Z) (data : list Z)
| Signals (c old new : Z).

(** Answers of the rest of the kernel: memory, the copy of a name, room in an identifier table,
    and the callback of a channel.  0 is success. *)
Inductive glink_call := GAlloc | GDup | GIdr | GCallback.

#[export] Instance glink_call_eq : EqDecision glink_call.
Proof. solve_decision. Defined.

(** struct qcom_glink; channels and intents are objects with addresses, and an access to a freed
    one is a fault.  [gl_rx_work] says that the work is scheduled, [gl_wake] holds [should_wake]
    and [glink_resume_pkt]. *)
Record qcom_glink (P : Type) := Glink {
  gl_pipe : P;
  gl_features : Z;
  gl_intentless : bool;
  gl_in_reset : Z;
  gl_sent_read_notify : bool;
  gl_rx_queue : list (list Z);
  gl_rx_work : bool;
  gl_lcids : gmap Z Z;
  gl_lcid_next : Z;
  gl_rcids : gmap Z Z;
  gl_channels : gmap Z glink_channel;
  gl_intents : gmap Z glink_core_rx_intent;
  gl_next : Z;
  gl_regs : glink_regs;
  gl_wake : bool * bool;
  gl_trace : list glink_event;
  gl_env : glink_call -> list Z;
}.
Arguments Glink {P}.
Arguments gl_pipe {P}.
Arguments gl_features {P}.
Arguments gl_intentless {P}.
Arguments gl_in_reset {P}.
Arguments gl_sent_read_notify {P}.
Arguments gl_rx_queue {P}.
Arguments gl_rx_work {P}.
Arguments gl_lcids {P}.
Arguments gl_lcid_next {P}.
Arguments gl_rcids {P}.
Arguments gl_channels {P}.
Arguments gl_intents {P}.
Arguments gl_next {P}.
Arguments gl_regs {P}.
Arguments gl_wake {P}.
Arguments gl_trace {P}.
Arguments gl_env {P}.

(** ** Updates *)
Definition it_set_data (v : mem) (c : glink_core_rx_intent) : glink_core_rx_intent :=
  Intent v (it_id c) (it_size c) (it_reuse c) (it_in_use c) (it_advertised c) (it_offset c).
Definition it_set_in_use (v : bool) (c : glink_core_rx_intent) : glink_core_rx_intent :=
  Intent (it_data c) (it_id c) (it_size c) (it_reuse c) v (it_advertised c) (it_offset c).
Definition it_set_advertised (v : bool) (c : glink_core_rx_intent) : glink_core_rx_intent :=
  Intent (it_data c) (it_id c) (it_size c) (it_reuse c) (it_in_use c) v (it_offset c).
Definition it_set_offset (v : Z) (c : glink_core_rx_intent) : glink_core_rx_intent :=
  Intent (it_data c) (it_id c) (it_size c) (it_reuse c) (it_in_use c) (it_advertised c) v.
Definition ch_set_cb (v : bool) (c : glink_channel) : glink_channel :=
  Channel (ch_name c) v (ch_sig_cb c) (ch_rpdev c) (ch_refcount c) (ch_lcid c) (ch_rcid c) (ch_liids c)
    (ch_liid_next c) (ch_riids c) (ch_intent_work c) (ch_done_intents c) (ch_buf c) (ch_open_ack c)
    (ch_open_req c) (ch_intent_req_result c) (ch_channel_ready c) (ch_intent_req_acked c)
    (ch_intent_req_completed c) (ch_lsigs c) (ch_rsigs c).
Definition ch_set_rpdev (v : bool) (c : glink_channel) : glink_channel :=
  Channel (ch_name c) (ch_cb c) (ch_sig_cb c) v (ch_refcount c) (ch_lcid c) (ch_rcid c) (ch_liids c)
    (ch_liid_next c) (ch_riids c) (ch_intent_work c) (ch_done_intents c) (ch_buf c) (ch_open_ack c)
    (ch_open_req c) (ch_intent_req_result c) (ch_channel_ready c) (ch_intent_req_acked c)
    (ch_intent_req_completed c) (ch_lsigs c) (ch_rsigs c).
Definition ch_set_refcount (v : Z) (c : glink_channel) : glink_channel :=
  Channel (ch_name c) (ch_cb c) (ch_sig_cb c) (ch_rpdev c) v (ch_lcid c) (ch_rcid c) (ch_liids c)
    (ch_liid_next c) (ch_riids c) (ch_intent_work c) (ch_done_intents c) (ch_buf c) (ch_open_ack c)
    (ch_open_req c) (ch_intent_req_result c) (ch_channel_ready c) (ch_intent_req_acked c)
    (ch_intent_req_completed c) (ch_lsigs c) (ch_rsigs c).
Definition ch_set_lcid (v : Z) (c : glink_channel) : glink_channel :=
  Channel (ch_name c) (ch_cb c) (ch_sig_cb c) (ch_rpdev c) (ch_refcount c) v (ch_rcid c) (ch_liids c)
    (ch_liid_next c) (ch_riids c) (ch_intent_work c) (ch_done_intents c) (ch_buf c) (ch_open_ack c)
    (ch_open_req c) (ch_intent_req_result c) (ch_channel_ready c) (ch_intent_req_acked c)
    (ch_intent_req_completed c) (ch_lsigs c) (ch_rsigs c).
Definition ch_set_rcid (v : Z) (c : glink_channel) : glink_channel :=
  Channel (ch_name c) (ch_cb c) (ch_sig_cb c) (ch_rpdev c) (ch_refcount c) (ch_lcid c) v (ch_liids c)
    (ch_liid_next c) (ch_riids c) (ch_intent_work c) (ch_done_intents c) (ch_buf c) (ch_open_ack c)
    (ch_open_req c) (ch_intent_req_result c) (ch_channel_ready c) (ch_intent_req_acked c)
    (ch_intent_req_completed c) (ch_lsigs c) (ch_rsigs c).
Definition ch_set_liids (v : gmap Z Z) (c : glink_channel) : glink_channel :=
  Channel (ch_name c) (ch_cb c) (ch_sig_cb c) (ch_rpdev c) (ch_refcount c) (ch_lcid c) (ch_rcid c) v
    (ch_liid_next c) (ch_riids c) (ch_intent_work c) (ch_done_intents c) (ch_buf c) (ch_open_ack c)
    (ch_open_req c) (ch_intent_req_result c) (ch_channel_ready c) (ch_intent_req_acked c)
    (ch_intent_req_completed c) (ch_lsigs c) (ch_rsigs c).
Definition ch_set_liid_next (v : Z) (c : glink_channel) : glink_channel :=
  Channel (ch_name c) (ch_cb c) (ch_sig_cb c) (ch_rpdev c) (ch_refcount c) (ch_lcid c) (ch_rcid c)
    (ch_liids c) v (ch_riids c) (ch_intent_work c) (ch_done_intents c) (ch_buf c) (ch_open_ack c)
    (ch_open_req c) (ch_intent_req_result c) (ch_channel_ready c) (ch_intent_req_acked c)
    (ch_intent_req_completed c) (ch_lsigs c) (ch_rsigs c).
Definition ch_set_riids (v : gmap Z Z) (c : glink_channel) : glink_channel :=
  Channel (ch_name c) (ch_cb c) (ch_sig_cb c) (ch_rpdev c) (ch_refcount c) (ch_lcid c) (ch_rcid c)
    (ch_liids c) (ch_liid_next c) v (ch_intent_work c) (ch_done_intents c) (ch_buf c) (ch_open_ack c)
    (ch_open_req c) (ch_intent_req_result c) (ch_channel_ready c) (ch_intent_req_acked c)
    (ch_intent_req_completed c) (ch_lsigs c) (ch_rsigs c).
Definition ch_set_intent_work (v : bool) (c : glink_channel) : glink_channel :=
  Channel (ch_name c) (ch_cb c) (ch_sig_cb c) (ch_rpdev c) (ch_refcount c) (ch_lcid c) (ch_rcid c)
    (ch_liids c) (ch_liid_next c) (ch_riids c) v (ch_done_intents c) (ch_buf c) (ch_open_ack c)
    (ch_open_req c) (ch_intent_req_result c) (ch_channel_ready c) (ch_intent_req_acked c)
    (ch_intent_req_completed c) (ch_lsigs c) (ch_rsigs c).
Definition ch_set_done_intents (v : list Z) (c : glink_channel) : glink_channel :=
  Channel (ch_name c) (ch_cb c) (ch_sig_cb c) (ch_rpdev c) (ch_refcount c) (ch_lcid c) (ch_rcid c)
    (ch_liids c) (ch_liid_next c) (ch_riids c) (ch_intent_work c) v (ch_buf c) (ch_open_ack c)
    (ch_open_req c) (ch_intent_req_result c) (ch_channel_ready c) (ch_intent_req_acked c)
    (ch_intent_req_completed c) (ch_lsigs c) (ch_rsigs c).
Definition ch_set_buf (v : option Z) (c : glink_channel) : glink_channel :=
  Channel (ch_name c) (ch_cb c) (ch_sig_cb c) (ch_rpdev c) (ch_refcount c) (ch_lcid c) (ch_rcid c)
    (ch_liids c) (ch_liid_next c) (ch_riids c) (ch_intent_work c) (ch_done_intents c) v (ch_open_ack c)
    (ch_open_req c) (ch_intent_req_result c) (ch_channel_ready c) (ch_intent_req_acked c)
    (ch_intent_req_completed c) (ch_lsigs c) (ch_rsigs c).
Definition ch_set_open_ack (v : bool) (c : glink_channel) : glink_channel :=
  Channel (ch_name c) (ch_cb c) (ch_sig_cb c) (ch_rpdev c) (ch_refcount c) (ch_lcid c) (ch_rcid c)
    (ch_liids c) (ch_liid_next c) (ch_riids c) (ch_intent_work c) (ch_done_intents c) (ch_buf c) v
    (ch_open_req c) (ch_intent_req_result c) (ch_channel_ready c) (ch_intent_req_acked c)
    (ch_intent_req_completed c) (ch_lsigs c) (ch_rsigs c).
Definition ch_set_open_req (v : bool) (c : glink_channel) : glink_channel :=
  Channel (ch_name c) (ch_cb c) (ch_sig_cb c) (ch_rpdev c) (ch_refcount c) (ch_lcid c) (ch_rcid c)
    (ch_liids c) (ch_liid_next c) (ch_riids c) (ch_intent_work c) (ch_done_intents c) (ch_buf c)
    (ch_open_ack c) v (ch_intent_req_result c) (ch_channel_ready c) (ch_intent_req_acked c)
    (ch_intent_req_completed c) (ch_lsigs c) (ch_rsigs c).
Definition ch_set_intent_req_result (v : bool) (c : glink_channel) : glink_channel :=
  Channel (ch_name c) (ch_cb c) (ch_sig_cb c) (ch_rpdev c) (ch_refcount c) (ch_lcid c) (ch_rcid c)
    (ch_liids c) (ch_liid_next c) (ch_riids c) (ch_intent_work c) (ch_done_intents c) (ch_buf c)
    (ch_open_ack c) (ch_open_req c) v (ch_channel_ready c) (ch_intent_req_acked c)
    (ch_intent_req_completed c) (ch_lsigs c) (ch_rsigs c).
Definition ch_set_channel_ready (v : bool) (c : glink_channel) : glink_channel :=
  Channel (ch_name c) (ch_cb c) (ch_sig_cb c) (ch_rpdev c) (ch_refcount c) (ch_lcid c) (ch_rcid c)
    (ch_liids c) (ch_liid_next c) (ch_riids c) (ch_intent_work c) (ch_done_intents c) (ch_buf c)
    (ch_open_ack c) (ch_open_req c) (ch_intent_req_result c) v (ch_intent_req_acked c)
    (ch_intent_req_completed c) (ch_lsigs c) (ch_rsigs c).
Definition ch_set_intent_req_acked (v : Z) (c : glink_channel) : glink_channel :=
  Channel (ch_name c) (ch_cb c) (ch_sig_cb c) (ch_rpdev c) (ch_refcount c) (ch_lcid c) (ch_rcid c)
    (ch_liids c) (ch_liid_next c) (ch_riids c) (ch_intent_work c) (ch_done_intents c) (ch_buf c)
    (ch_open_ack c) (ch_open_req c) (ch_intent_req_result c) (ch_channel_ready c) v
    (ch_intent_req_completed c) (ch_lsigs c) (ch_rsigs c).
Definition ch_set_intent_req_completed (v : Z) (c : glink_channel) : glink_channel :=
  Channel (ch_name c) (ch_cb c) (ch_sig_cb c) (ch_rpdev c) (ch_refcount c) (ch_lcid c) (ch_rcid c)
    (ch_liids c) (ch_liid_next c) (ch_riids c) (ch_intent_work c) (ch_done_intents c) (ch_buf c)
    (ch_open_ack c) (ch_open_req c) (ch_intent_req_result c) (ch_channel_ready c) (ch_intent_req_acked c) v
    (ch_lsigs c) (ch_rsigs c).
Definition ch_set_lsigs (v : Z) (c : glink_channel) : glink_channel :=
  Channel (ch_name c) (ch_cb c) (ch_sig_cb c) (ch_rpdev c) (ch_refcount c) (ch_lcid c) (ch_rcid c)
    (ch_liids c) (ch_liid_next c) (ch_riids c) (ch_intent_work c) (ch_done_intents c) (ch_buf c)
    (ch_open_ack c) (ch_open_req c) (ch_intent_req_result c) (ch_channel_ready c) (ch_intent_req_acked c)
    (ch_intent_req_completed c) v (ch_rsigs c).
Definition ch_set_rsigs (v : Z) (c : glink_channel) : glink_channel :=
  Channel (ch_name c) (ch_cb c) (ch_sig_cb c) (ch_rpdev c) (ch_refcount c) (ch_lcid c) (ch_rcid c)
    (ch_liids c) (ch_liid_next c) (ch_riids c) (ch_intent_work c) (ch_done_intents c) (ch_buf c)
    (ch_open_ack c) (ch_open_req c) (ch_intent_req_result c) (ch_channel_ready c) (ch_intent_req_acked c)
    (ch_intent_req_completed c) (ch_lsigs c) v.

Section updates.
Context {P : Type}.

Definition gl_set_pipe (v : P) (c : qcom_glink P) : qcom_glink P :=
  Glink v (gl_features c) (gl_intentless c) (gl_in_reset c) (gl_sent_read_notify c) (gl_rx_queue c)
    (gl_rx_work c) (gl_lcids c) (gl_lcid_next c) (gl_rcids c) (gl_channels c) (gl_intents c) (gl_next c)
    (gl_regs c) (gl_wake c) (gl_trace c) (gl_env c).
Definition gl_set_features (v : Z) (c : qcom_glink P) : qcom_glink P :=
  Glink (gl_pipe c) v (gl_intentless c) (gl_in_reset c) (gl_sent_read_notify c) (gl_rx_queue c)
    (gl_rx_work c) (gl_lcids c) (gl_lcid_next c) (gl_rcids c) (gl_channels c) (gl_intents c) (gl_next c)
    (gl_regs c) (gl_wake c) (gl_trace c) (gl_env c).
Definition gl_set_intentless (v : bool) (c : qcom_glink P) : qcom_glink P :=
  Glink (gl_pipe c) (gl_features c) v (gl_in_reset c) (gl_sent_read_notify c) (gl_rx_queue c) (gl_rx_work c)
    (gl_lcids c) (gl_lcid_next c) (gl_rcids c) (gl_channels c) (gl_intents c) (gl_next c) (gl_regs c)
    (gl_wake c) (gl_trace c) (gl_env c).
Definition gl_set_in_reset (v : Z) (c : qcom_glink P) : qcom_glink P :=
  Glink (gl_pipe c) (gl_features c) (gl_intentless c) v (gl_sent_read_notify c) (gl_rx_queue c)
    (gl_rx_work c) (gl_lcids c) (gl_lcid_next c) (gl_rcids c) (gl_channels c) (gl_intents c) (gl_next c)
    (gl_regs c) (gl_wake c) (gl_trace c) (gl_env c).
Definition gl_set_sent_read_notify (v : bool) (c : qcom_glink P) : qcom_glink P :=
  Glink (gl_pipe c) (gl_features c) (gl_intentless c) (gl_in_reset c) v (gl_rx_queue c) (gl_rx_work c)
    (gl_lcids c) (gl_lcid_next c) (gl_rcids c) (gl_channels c) (gl_intents c) (gl_next c) (gl_regs c)
    (gl_wake c) (gl_trace c) (gl_env c).
Definition gl_set_rx_queue (v : list (list Z)) (c : qcom_glink P) : qcom_glink P :=
  Glink (gl_pipe c) (gl_features c) (gl_intentless c) (gl_in_reset c) (gl_sent_read_notify c) v
    (gl_rx_work c) (gl_lcids c) (gl_lcid_next c) (gl_rcids c) (gl_channels c) (gl_intents c) (gl_next c)
    (gl_regs c) (gl_wake c) (gl_trace c) (gl_env c).
Definition gl_set_rx_work (v : bool) (c : qcom_glink P) : qcom_glink P :=
  Glink (gl_pipe c) (gl_features c) (gl_intentless c) (gl_in_reset c) (gl_sent_read_notify c)
    (gl_rx_queue c) v (gl_lcids c) (gl_lcid_next c) (gl_rcids c) (gl_channels c) (gl_intents c) (gl_next c)
    (gl_regs c) (gl_wake c) (gl_trace c) (gl_env c).
Definition gl_set_lcids (v : gmap Z Z) (c : qcom_glink P) : qcom_glink P :=
  Glink (gl_pipe c) (gl_features c) (gl_intentless c) (gl_in_reset c) (gl_sent_read_notify c)
    (gl_rx_queue c) (gl_rx_work c) v (gl_lcid_next c) (gl_rcids c) (gl_channels c) (gl_intents c)
    (gl_next c) (gl_regs c) (gl_wake c) (gl_trace c) (gl_env c).
Definition gl_set_lcid_next (v : Z) (c : qcom_glink P) : qcom_glink P :=
  Glink (gl_pipe c) (gl_features c) (gl_intentless c) (gl_in_reset c) (gl_sent_read_notify c)
    (gl_rx_queue c) (gl_rx_work c) (gl_lcids c) v (gl_rcids c) (gl_channels c) (gl_intents c) (gl_next c)
    (gl_regs c) (gl_wake c) (gl_trace c) (gl_env c).
Definition gl_set_rcids (v : gmap Z Z) (c : qcom_glink P) : qcom_glink P :=
  Glink (gl_pipe c) (gl_features c) (gl_intentless c) (gl_in_reset c) (gl_sent_read_notify c)
    (gl_rx_queue c) (gl_rx_work c) (gl_lcids c) (gl_lcid_next c) v (gl_channels c) (gl_intents c)
    (gl_next c) (gl_regs c) (gl_wake c) (gl_trace c) (gl_env c).
Definition gl_set_channels (v : gmap Z glink_channel) (c : qcom_glink P) : qcom_glink P :=
  Glink (gl_pipe c) (gl_features c) (gl_intentless c) (gl_in_reset c) (gl_sent_read_notify c)
    (gl_rx_queue c) (gl_rx_work c) (gl_lcids c) (gl_lcid_next c) (gl_rcids c) v (gl_intents c) (gl_next c)
    (gl_regs c) (gl_wake c) (gl_trace c) (gl_env c).
Definition gl_set_intents (v : gmap Z glink_core_rx_intent) (c : qcom_glink P) : qcom_glink P :=
  Glink (gl_pipe c) (gl_features c) (gl_intentless c) (gl_in_reset c) (gl_sent_read_notify c)
    (gl_rx_queue c) (gl_rx_work c) (gl_lcids c) (gl_lcid_next c) (gl_rcids c) (gl_channels c) v (gl_next c)
    (gl_regs c) (gl_wake c) (gl_trace c) (gl_env c).
Definition gl_set_next (v : Z) (c : qcom_glink P) : qcom_glink P :=
  Glink (gl_pipe c) (gl_features c) (gl_intentless c) (gl_in_reset c) (gl_sent_read_notify c)
    (gl_rx_queue c) (gl_rx_work c) (gl_lcids c) (gl_lcid_next c) (gl_rcids c) (gl_channels c) (gl_intents c)
    v (gl_regs c) (gl_wake c) (gl_trace c) (gl_env c).
Definition gl_set_regs (v : glink_regs) (c : qcom_glink P) : qcom_glink P :=
  Glink (gl_pipe c) (gl_features c) (gl_intentless c) (gl_in_reset c) (gl_sent_read_notify c)
    (gl_rx_queue c) (gl_rx_work c) (gl_lcids c) (gl_lcid_next c) (gl_rcids c) (gl_channels c) (gl_intents c)
    (gl_next c) v (gl_wake c) (gl_trace c) (gl_env c).
Definition gl_set_wake (v : bool * bool) (c : qcom_glink P) : qcom_glink P :=
  Glink (gl_pipe c) (gl_features c) (gl_intentless c) (gl_in_reset c) (gl_sent_read_notify c)
    (gl_rx_queue c) (gl_rx_work c) (gl_lcids c) (gl_lcid_next c) (gl_rcids c) (gl_channels c) (gl_intents c)
    (gl_next c) (gl_regs c) v (gl_trace c) (gl_env c).
Definition gl_set_trace (v : list glink_event) (c : qcom_glink P) : qcom_glink P :=
  Glink (gl_pipe c) (gl_features c) (gl_intentless c) (gl_in_reset c) (gl_sent_read_notify c)
    (gl_rx_queue c) (gl_rx_work c) (gl_lcids c) (gl_lcid_next c) (gl_rcids c) (gl_channels c) (gl_intents c)
    (gl_next c) (gl_regs c) (gl_wake c) v (gl_env c).
Definition gl_set_env (v : glink_call -> list Z) (c : qcom_glink P) : qcom_glink P :=
  Glink (gl_pipe c) (gl_features c) (gl_intentless c) (gl_in_reset c) (gl_sent_read_notify c)
    (gl_rx_queue c) (gl_rx_work c) (gl_lcids c) (gl_lcid_next c) (gl_rcids c) (gl_channels c) (gl_intents c)
    (gl_next c) (gl_regs c) (gl_wake c) (gl_trace c) v.

(** ** Primitive accesses *)
Definition glink_ask (k : glink_call) : ST (qcom_glink P) Z :=
  fun s => match gl_env s k with
           | [] => Ok (0, s)
           | x :: l => Ok (x, gl_set_env (fun k' => if decide (k' = k) then l else gl_env s k') s)
           end.

Definition glink_log (e : glink_event) : ST (qcom_glink P) unit := st_upd (fun s => gl_set_trace (gl_trace s ++ [e]) s).

Definition on_pipe {A} (c : ST P A) : ST (qcom_glink P) A :=
  fun s => match c (gl_pipe s) with
           | Ok (a, p) => Ok (a, gl_set_pipe p s)
           | Fault => Fault
           | Loop => Loop
           end.

Definition channel_of (c : Z) : ST (qcom_glink P) glink_channel :=
  fun s => match gl_channels s !! c with Some k => Ok (k, s) | None => Fault end.
Definition upd_channel (c : Z) (f : glink_channel -> glink_channel) : ST (qcom_glink P) unit :=
  let! k := channel_of c in st_upd (fun s => gl_set_channels (<[c := f k]> (gl_channels s)) s).
Definition intent_of (a : Z) : ST (qcom_glink P) glink_core_rx_intent :=
  fun s => match gl_intents s !! a with Some k => Ok (k, s) | None => Fault end.
Definition upd_intent (a : Z) (f : glink_core_rx_intent -> glink_core_rx_intent) : ST (qcom_glink P) unit :=
  let! k := intent_of a in st_upd (fun s => gl_set_intents (<[a := f k]> (gl_intents s)) s).

(** [kfree] of an intent and its data; freeing it again is a fault. *)
Definition free_intent (a : Z) : ST (qcom_glink P) unit :=
  let! _ := intent_of a in st_upd (fun s => gl_set_intents (delete a (gl_intents s)) s).
Definition new_intent (i : glink_core_rx_intent) : ST (qcom_glink P) Z :=
  let! a := st_get gl_next in
  st_upd (fun s => gl_set_next (a + 1) (gl_set_intents (<[a := i]> (gl_intents s)) s)) ;;;
  st_ret a.
End updates.

(** ** Bytes *)

(** struct glink_msg *)
Definition glink_msg (cmd param1 param2 : Z) : list Z := le_bytes 2 cmd ++ le_bytes 2 param1 ++ le_bytes 4 param2.
Definition sizeof_msg : Z := 8.

(** A string up to its end, which a read beyond the bytes does not find. *)
Fixpoint cstring (l : list Z) : res (list Z) :=
  match l with
  | [] => Fault
  | b :: l => if b =? 0 then Ok [] else res_bind (cstring l) (fun s => Ok (b :: s))
  end.
