(* ===== verification/Glink.v ===== *)
(** * The link (drivers/rpmsg/qcom_glink_native.c)

    Messages to the other side, the interrupt handler and the deferred work that take its
    messages apart, and the calls of the owners of channels. *)
From S2P Require Import Prelude CMem KernelIdr GlinkPipe GlinkState.
Open Scope c_scope.

(** What a thread waits for. *)
Inductive wait_kind :=
| WaitTx
| WaitOpenAck (c : Z)
| WaitOpenReq (c : Z)
| WaitIntentAck (c : Z)
| WaitIntentComp (c : Z).

Section glink.
Context {P : Type} `{GlinkPipe P} `{Idr} `{Termios}.

Abbreviation G := (ST (qcom_glink P)).

(** The rest of the system: what happens during a wait; the rpmsg core, which runs the drivers of
    the devices it registers, unregisters by name, or removes with the parent; the character
    device; the stack below the buffer of an open request; and the rounds given to the loops
    that wait. *)
Record glink_world := World {
  w_wait : wait_kind -> G unit;
  w_register : Z -> G Z;
  w_unregister : list Z -> G unit;
  w_remove_devices : G unit;
  w_chrdev : Z -> G Z;
  w_stack : list Z;
  w_rounds : nat;
}.
Context (W : glink_world).

(** ** Channels *)
Definition alloc_ok (k : glink_call) : G bool := let! rc := glink_ask k in st_ret (rc =? 0).

Definition qcom_glink_alloc_channel (name : list Z) : G (Z + Z) :=
  let! ok := alloc_ok GAlloc in
  if negb ok then st_ret (inl (- ENOMEM)) else
  let! dup := alloc_ok GDup in
  let! c := st_get gl_next in
  let k := Channel (if dup then Some name else None) false false false 1 0 0 ∅ 0 ∅ false [] None false false false false
             0 0 0 0 in
  st_upd (fun s => gl_set_next (c + 1) (gl_set_channels (<[c := k]> (gl_channels s)) s)) ;;;
  st_ret (inr c).

Fixpoint free_all (l : list Z) : G unit :=
  match l with
  | [] => st_ret tt
  | a :: l => free_intent a ;;; free_all l
  end.

(** Intents that are not reused are owned by the list of the done ones. *)
Fixpoint free_done (l : list Z) : G unit :=
  match l with
  | [] => st_ret tt
  | a :: l =>
    let! i := intent_of a in
    (if negb (it_reuse i) then free_intent a else st_ret tt) ;;; free_done l
  end.

Definition qcom_glink_channel_release (c : Z) : G unit :=
  upd_channel c (fun k => ch_set_intent_req_completed (ch_intent_req_completed k + 1)
    (ch_set_intent_req_acked (ch_intent_req_acked k + 1) (ch_set_intent_req_result false k))) ;;;
  upd_channel c (ch_set_intent_work false) ;;;
  let! k := channel_of c in
  free_done (ch_done_intents k) ;;;
  free_all (snd <$> idr_entries (ch_liids k)) ;;;
  free_all (snd <$> idr_entries (ch_riids k)) ;;;
  st_upd (fun s => gl_set_channels (delete c (gl_channels s)) s).

Definition kref_get (c : Z) : G unit := upd_channel c (fun k => ch_set_refcount (ch_refcount k + 1) k).
Definition kref_put (c : Z) : G unit :=
  upd_channel c (fun k => ch_set_refcount (ch_refcount k - 1) k) ;;;
  let! k := channel_of c in
  if ch_refcount k =? 0 then qcom_glink_channel_release c else st_ret tt.

(** ** The pipe *)
Definition qcom_glink_rx_avail : G Z := on_pipe pipe_rx_avail.
Definition qcom_glink_rx_peak (offset count : Z) : G (list Z) := on_pipe (pipe_rx_peak offset count).
Definition qcom_glink_rx_advance (count : Z) : G unit := on_pipe (pipe_rx_advance count).
Definition qcom_glink_tx_avail : G Z := on_pipe pipe_tx_avail.
Definition qcom_glink_tx_write (hdr data : list Z) : G unit :=
  on_pipe (pipe_tx_write hdr data) ;;; glink_log (Sent (hdr ++ data)).
Definition qcom_glink_pipe_reset : G unit := on_pipe pipe_reset.

(** [mbox_send_message] and [mbox_client_txdone] *)
Definition kick : G unit := glink_log Kicked.

Definition qcom_glink_send_read_notify : G unit :=
  qcom_glink_tx_write (glink_msg RPM_CMD_READ_NOTIF 0 0) [] ;;; kick.

(** [wait_event_timeout], or a wait for a completion: the rest of the system runs unless the
    condition holds already; the result is the condition in the end. *)
Definition wait_event (k : wait_kind) (cond : G bool) : G bool :=
  let! ok := cond in
  if ok then st_ret true else
  w_wait W k ;;; cond.

Definition in_reset : G bool := let! n := st_get gl_in_reset in st_ret (negb (n =? 0)).

Fixpoint tx_loop (rounds : nat) (tlen : Z) (hdr data : list Z) (wait : bool) : G Z :=
  match rounds with
  | O => fun _ => Loop
  | S rounds =>
    let! avail := qcom_glink_tx_avail in
    if avail <? tlen then
      if negb wait then st_ret (- EAGAIN) else
      let! sent := st_get gl_sent_read_notify in
      (if negb sent then st_upd (gl_set_sent_read_notify true) ;;; qcom_glink_send_read_notify else st_ret tt) ;;;
      let! _ := wait_event WaitTx (let! avail := qcom_glink_tx_avail in let! r := in_reset in st_ret ((tlen <=? avail) || r)) in
      let! r := in_reset in
      if r then st_ret (- ECONNRESET) else
      let! avail := qcom_glink_tx_avail in
      (if tlen <=? avail then st_upd (gl_set_sent_read_notify false) else st_ret tt) ;;;
      tx_loop rounds tlen hdr data wait
    else
      qcom_glink_tx_write hdr data ;;; kick ;;; st_ret 0
  end.

Definition qcom_glink_tx (hdr data : list Z) (wait : bool) : G Z :=
  let tlen := u32 (Z.of_nat (length hdr) + Z.of_nat (length data)) in
  let! p := st_get gl_pipe in
  if pipe_tx_length p <=? tlen then st_ret (- EINVAL) else
  let! r := in_reset in
  if r then st_ret (- ECONNRESET) else
  tx_loop (w_rounds W) tlen hdr data wait.

(** A message without data, its result ignored. *)
Definition tx_msg (cmd param1 param2 : Z) : G unit :=
  let! _ := qcom_glink_tx (glink_msg cmd param1 param2) [] true in st_ret tt.

Definition qcom_glink_send_version : G Z :=
  let! features := st_get gl_features in
  qcom_glink_tx (glink_msg RPM_CMD_VERSION GLINK_VERSION_1 features) [] true.
Definition qcom_glink_send_version_ack : G unit :=
  let! features := st_get gl_features in
  tx_msg RPM_CMD_VERSION_ACK GLINK_VERSION_1 features.

Definition qcom_glink_send_open_ack (c : Z) : G unit :=
  let! k := channel_of c in
  tx_msg RPM_CMD_OPEN_ACK (ch_rcid k) 0.

(** [idr_find] on the remote channel numbers, and on the local ones. *)
Definition find_rcid (cid : Z) : G (option Z) := st_get (fun s => gl_rcids s !! cid).
Definition find_lcid (cid : Z) : G (option Z) := st_get (fun s => gl_lcids s !! cid).

Definition qcom_glink_handle_intent_req_ack (cid : Z) (granted : bool) : G unit :=
  let! channel := find_rcid cid in
  match channel with
  | None => st_ret tt
  | Some c =>
    upd_channel c (ch_set_intent_req_result granted) ;;;
    upd_channel c (fun k => ch_set_intent_req_acked (ch_intent_req_acked k + 1) k)
  end.

(** The open request: the name of 31 bytes at most and its end, in a buffer of 32 bytes; the
    rest of what is sent is what the stack holds, and beyond the buffer it is not the buffer. *)
Definition open_req (lcid : Z) (name stack : list Z) (req_len : Z) : res (list Z) :=
  let s := take (Z.to_nat (GLINK_NAME_SIZE - 1)) name ++ [0] in
  let buf := s ++ drop (length s) (take (Z.to_nat GLINK_NAME_SIZE) stack) in
  let req := glink_msg RPM_CMD_OPEN lcid (Z.of_nat (length name) + 1) ++ buf in
  if req_len <=? Z.of_nat (length req) then Ok (take (Z.to_nat req_len) req) else Fault.

Definition qcom_glink_send_open_req (c : Z) : G Z :=
  let! k := channel_of c in
  match ch_name k with
  | None => fun _ => Fault
  | Some name =>
    let name_len := Z.of_nat (length name) + 1 in
    let req_len := ALIGN (sizeof_msg + name_len) 8 in
    kref_get c ;;;
    let! lcids := st_get gl_lcids in
    let! next := st_get gl_lcid_next in
    let! nomem := glink_ask GIdr in
    let ret := if nomem =? 0 then idr_alloc_cyclic lcids next RPM_GLINK_CID_MIN RPM_GLINK_CID_MAX else - ENOMEM in
    if ret <? 0 then st_ret ret else
    st_upd (fun s => gl_set_lcid_next (ret + 1) (gl_set_lcids (<[ret := c]> lcids) s)) ;;;
    upd_channel c (ch_set_lcid ret) ;;;
    let! req := st_lift (open_req ret name (w_stack W) req_len) in
    let! r := qcom_glink_tx req [] true in
    if negb (r =? 0) then
      let! k := channel_of c in
      st_upd (fun s => gl_set_lcids (delete (ch_lcid k) (gl_lcids s)) s) ;;;
      upd_channel c (ch_set_lcid 0) ;;;
      st_ret r
    else st_ret 0
  end.

Definition qcom_glink_send_close_req (c : Z) : G unit :=
  let! k := channel_of c in
  tx_msg RPM_CMD_CLOSE (ch_lcid k) 0.
Definition qcom_glink_send_close_ack (rcid : Z) : G unit := tx_msg RPM_CMD_CLOSE_ACK rcid 0.

(** ** Done intents *)
Definition __qcom_glink_rx_done (c a : Z) (wait : bool) : G Z :=
  let! k := channel_of c in
  let! i := intent_of a in
  let cmd := if it_reuse i then RPM_CMD_RX_DONE_W_REUSE else RPM_CMD_RX_DONE in
  let! ret := qcom_glink_tx (glink_msg cmd (ch_lcid k) (it_id i)) [] wait in
  if negb (ret =? 0) then st_ret ret else
  (if negb (it_reuse i) then free_intent a else st_ret tt) ;;;
  st_ret 0.

(** The entry behind [a] in a list. *)
Fixpoint next_in (l : list Z) (a : Z) : option Z :=
  match l with
  | [] => None
  | b :: l => if b =? a then head l else next_in l a
  end.

Fixpoint done_loop (rounds : nat) (c : Z) (cur : option Z) : G unit :=
  match cur with
  | None => st_ret tt
  | Some a =>
    match rounds with
    | O => fun _ => Loop
    | S rounds =>
      let! k := channel_of c in
      let tmp := next_in (ch_done_intents k) a in
      upd_channel c (ch_set_done_intents (filter (fun b => b <> a) (ch_done_intents k))) ;;;
      let! _ := __qcom_glink_rx_done c a true in
      done_loop rounds c tmp
    end
  end.

Definition qcom_glink_rx_done_work (c : Z) : G unit :=
  upd_channel c (ch_set_intent_work false) ;;;
  let! k := channel_of c in
  done_loop (w_rounds W) c (head (ch_done_intents k)).

(** [list_add_tail]: an entry that is on the list already spoils it. *)
Definition glink_add_done (c a : Z) : G unit :=
  let! k := channel_of c in
  if decide (a ∈ ch_done_intents k) then fun _ => Fault else
  upd_channel c (ch_set_done_intents (ch_done_intents k ++ [a])) ;;;
  upd_channel c (ch_set_intent_work true).

Definition qcom_glink_rx_done (c a : Z) : G unit :=
  let! intentless := st_get gl_intentless in
  if intentless then free_intent a else
  let! i := intent_of a in
  (if negb (it_reuse i) then
     let! k := channel_of c in
     upd_channel c (ch_set_liids (delete (it_id i) (ch_liids k)))
   else st_ret tt) ;;;
  let! k := channel_of c in
  let! ret := (if decide (ch_done_intents k = []) then __qcom_glink_rx_done c a false else st_ret (- EAGAIN)) in
  if negb (ret =? 0) then glink_add_done c a else st_ret tt.

(** ** Version negotiation *)
Definition qcom_glink_receive_version (version features : Z) : G unit :=
  if version =? 0 then st_ret tt else
  (if version =? GLINK_VERSION_1 then st_upd (fun s => gl_set_features (Z.land (gl_features s) features) s) else st_ret tt) ;;;
  qcom_glink_send_version_ack.

Definition qcom_glink_receive_version_ack (version features : Z) : G unit :=
  if version =? 0 then st_ret tt else
  let! mine := st_get gl_features in
  if (version =? GLINK_VERSION_1) && (features =? mine) then st_ret tt else
  (if version =? GLINK_VERSION_1 then st_upd (gl_set_features (Z.land mine features)) else st_ret tt) ;;;
  let! _ := qcom_glink_send_version in
  st_ret tt.

(** ** Intents *)
Definition qcom_glink_send_intent_req_ack (c : Z) (granted : bool) : G Z :=
  let! k := channel_of c in
  tx_msg RPM_CMD_RX_INTENT_REQ_ACK (ch_lcid k) (if granted then 1 else 0) ;;; st_ret 0.

Definition qcom_glink_advertise_intent (c a : Z) : G Z :=
  let! i := intent_of a in
  if it_advertised i then st_ret 0 else
  upd_intent a (it_set_advertised true) ;;;
  let! k := channel_of c in
  let! _ := qcom_glink_tx (glink_msg RPM_CMD_INTENT (ch_lcid k) 1 ++ le_bytes 4 (it_size i) ++ le_bytes 4 (it_id i)) [] true in
  st_ret 0.

Definition qcom_glink_alloc_intent (c size : Z) (reuseable : bool) : G (option Z) :=
  let! ok := alloc_ok GAlloc in
  if negb ok then st_ret None else
  let! ok := alloc_ok GAlloc in
  if negb ok then st_ret None else
  let! k := channel_of c in
  let! nomem := glink_ask GIdr in
  let ret := if nomem =? 0 then idr_alloc_cyclic (ch_liids k) (ch_liid_next k) 1 (2 ^ 31) else - ENOMEM in
  if ret <? 0 then st_ret None else
  let! a := new_intent (Intent (Mem 0 size ∅) ret size reuseable false false 0) in
  upd_channel c (fun k => ch_set_liid_next (ret + 1) (ch_set_liids (<[ret := a]> (ch_liids k)) k)) ;;;
  st_ret (Some a).

Definition qcom_glink_handle_rx_done (cid iid : Z) (reuse : bool) : G unit :=
  let! channel := find_rcid cid in
  match channel with
  | None => st_ret tt
  | Some c =>
    let! k := channel_of c in
    match ch_riids k !! iid with
    | None => st_ret tt
    | Some a =>
      upd_intent a (it_set_in_use false) ;;;
      if reuse then st_ret tt else
      let! i := intent_of a in
      upd_channel c (ch_set_riids (delete (it_id i) (ch_riids k))) ;;;
      free_intent a
    end
  end.

(** Whether an intent that can be reused is large enough. *)
Fixpoint any_reusable (l : list Z) (size : Z) : G bool :=
  match l with
  | [] => st_ret false
  | a :: l =>
    let! i := intent_of a in
    if (size <=? it_size i) && it_reuse i then st_ret true else any_reusable l size
  end.

Definition qcom_glink_handle_intent_req (cid size : Z) : G unit :=
  let! channel := find_rcid cid in
  match channel with
  | None => st_ret tt
  | Some c =>
    let! k := channel_of c in
    let! found := any_reusable (snd <$> idr_entries (ch_liids k)) size in
    if found then
      let! _ := qcom_glink_send_intent_req_ack c true in st_ret tt
    else
      let! intent := qcom_glink_alloc_intent c size false in
      let! k := channel_of c in
      (match intent with
       | Some a => if ch_channel_ready k then let! _ := qcom_glink_advertise_intent c a in st_ret tt else st_ret tt
       | None => st_ret tt
       end) ;;;
      let! _ := qcom_glink_send_intent_req_ack c (bool_decide (is_Some intent)) in
      st_ret tt
  end.

(** ** Reception *)
Definition qcom_glink_rx_defer (extra : Z) : G Z :=
  let extra := ALIGN extra 8 in
  let! avail := qcom_glink_rx_avail in
  if avail <? u64 (sizeof_msg + extra) then st_ret (- ENXIO) else
  let! ok := alloc_ok GAlloc in
  if negb ok then st_ret (- ENOMEM) else
  let! dcmd := qcom_glink_rx_peak 0 (sizeof_msg + extra) in
  st_upd (fun s => gl_set_rx_work true (gl_set_rx_queue (gl_rx_queue s ++ [dcmd]) s)) ;;;
  qcom_glink_rx_advance (sizeof_msg + extra) ;;;
  st_ret 0.

Definition sizeof_data_hdr : Z := 16.

(** A run of bytes into the buffer of an intent, and the bytes up to its offset. *)
Definition intent_write (a : Z) (data : list Z) : G unit :=
  let! i := intent_of a in
  let! r := st_lift (store_bytes (it_offset i) data (it_data i)) in
  upd_intent a (it_set_data r.2).
Definition intent_bytes (a : Z) : G (list Z) :=
  let! i := intent_of a in
  st_lift (res_bind (copy_out 0 (it_offset i) (it_data i)) (fun x => Ok x.1)).

(** The intent the data belongs to: the fragments of an edge without intents are gathered in one
    of their own. *)
Definition data_intent (c liid chunk_size left_size : Z) : G (Z + option Z) :=
  let! intentless := st_get gl_intentless in
  let! k := channel_of c in
  if intentless then
    match ch_buf k with
    | Some a => st_ret (inr (Some a))
    | None =>
      let! ok := alloc_ok GAlloc in
      if negb ok then st_ret (inl (- ENOMEM)) else
      let! ok := alloc_ok GAlloc in
      if negb ok then st_ret (inl (- ENOMEM)) else
      let size := u32 (chunk_size + left_size) in
      let! a := new_intent (Intent (Mem 0 size ∅) 0xbabababa size false false false 0) in
      upd_channel c (ch_set_buf (Some a)) ;;;
      st_ret (inr (Some a))
    end
  else st_ret (inr (ch_liids k !! liid)).

(** The last fragment: the callback gets the message. *)
Definition rx_deliver (c a : Z) : G Z :=
  let! k := channel_of c in
  let! ret := (if ch_cb k then
      let! data := intent_bytes a in
      glink_log (Deliver c data) ;;;
      let! ret := glink_ask GCallback in
      st_ret (if (ret <? 0) && negb (ret =? - ENODEV) then 0 else ret)
    else st_ret 0) in
  upd_intent a (it_set_offset 0) ;;;
  upd_channel c (ch_set_buf None) ;;;
  qcom_glink_rx_done c a ;;;
  st_ret ret.

Definition data_chunk (c a chunk_size left_size : Z) : G Z :=
  let! i := intent_of a in
  if u64 (it_size i - it_offset i) <? chunk_size then st_ret 0 else
  let! data := qcom_glink_rx_peak sizeof_data_hdr chunk_size in
  intent_write a data ;;;
  upd_intent a (fun i => it_set_offset (u32 (it_offset i + chunk_size)) i) ;;;
  if left_size =? 0 then rx_deliver c a else st_ret 0.

Definition qcom_glink_rx_data (avail : Z) : G Z :=
  if avail <? sizeof_data_hdr then st_ret (- EAGAIN) else
  let! hdr := qcom_glink_rx_peak 0 sizeof_data_hdr in
  let! chunk_size := st_lift (field 4 hdr 8) in
  let! left_size := st_lift (field 4 hdr 12) in
  if avail <? sizeof_data_hdr + chunk_size then st_ret (- EAGAIN) else
  let! rcid := st_lift (field 2 hdr 2) in
  let! liid := st_lift (field 4 hdr 4) in
  let! channel := find_rcid rcid in
  let advance := qcom_glink_rx_advance (ALIGN (sizeof_data_hdr + chunk_size) 8) in
  match channel with
  | None => advance ;;; st_ret 0
  | Some c =>
    let! intent := data_intent c liid chunk_size left_size in
    match intent with
    | inl err => st_ret err
    | inr None => advance ;;; st_ret (- ENOENT)
    | inr (Some a) =>
      let! ret := data_chunk c a chunk_size left_size in
      advance ;;; st_ret ret
    end
  end.

(** Stores the intents of a message, pair by pair, while there is memory. *)
Fixpoint store_intents (n : nat) (c : Z) (msg : list Z) (off : Z) : G unit :=
  match n with
  | O => st_ret tt
  | S n =>
    let! ok := alloc_ok GAlloc in
    if negb ok then st_ret tt else
    let! size := st_lift (field 4 msg off) in
    let! iid := st_lift (field 4 msg (off + 4)) in
    let! a := new_intent (Intent (Mem 0 0 ∅) iid size false false false 0) in
    let! k := channel_of c in
    let! nomem := glink_ask GIdr in
    let ret := if s32 iid <? 0 then - EINVAL else if nomem =? 0 then idr_alloc (ch_riids k) iid (iid + 1) else - ENOMEM in
    (if 0 <=? ret then upd_channel c (ch_set_riids (<[ret := a]> (ch_riids k))) else st_ret tt) ;;;
    store_intents n c msg (off + 8)
  end.

Definition qcom_glink_handle_intent (cid count avail : Z) : G unit :=
  let msglen := sizeof_msg + 8 * count in
  if avail <? msglen then st_ret tt else
  let! channel := find_rcid cid in
  match channel with
  | None => st_ret tt
  | Some c =>
    let! ok := alloc_ok GAlloc in
    if negb ok then st_ret tt else
    let! msg := qcom_glink_rx_peak 0 msglen in
    store_intents (Z.to_nat count) c msg sizeof_msg ;;;
    upd_channel c (fun k => ch_set_intent_req_completed (ch_intent_req_completed k + 1) k) ;;;
    qcom_glink_rx_advance (ALIGN msglen 8)
  end.

Definition qcom_glink_rx_open_ack (lcid : Z) : G Z :=
  let! channel := find_lcid lcid in
  match channel with
  | None => st_ret (- EINVAL)
  | Some c => upd_channel c (ch_set_open_ack true) ;;; st_ret 0
  end.

(** ** Signals *)
Definition to_native (sigs : Z) : Z :=
  let sigs := Z.land sigs 0x0fff in
  let add bit native sigs := if negb (Z.land sigs bit =? 0) then Z.lor sigs native else sigs in
  add TIOCM_RI NATIVE_RI_SIG (add TIOCM_CD NATIVE_CD_SIG (add TIOCM_RTS NATIVE_CTS_SIG (add TIOCM_DTR NATIVE_DTR_SIG sigs))).

Definition from_native (signals : Z) : Z :=
  let add native bit signals := if negb (Z.land signals native =? 0) then Z.lor signals bit else signals in
  Z.land (add NATIVE_RI_SIG TIOCM_RI (add NATIVE_CD_SIG TIOCM_CD (add NATIVE_CTS_SIG TIOCM_CTS
    (add NATIVE_DTR_SIG TIOCM_DSR signals)))) 0x0fff.

Definition qcom_glink_send_signals (c sigs : Z) : G Z :=
  let! k := channel_of c in
  qcom_glink_tx (glink_msg RPM_CMD_SIGNALS (ch_lcid k) (to_native sigs)) [] true.

Definition qcom_glink_handle_signals (rcid signals : Z) : G Z :=
  let! channel := find_rcid rcid in
  match channel with
  | None => st_ret (- EINVAL)
  | Some c =>
    let! k := channel_of c in
    upd_channel c (ch_set_rsigs (from_native signals)) ;;;
    (if ch_sig_cb k then glink_log (Signals c (ch_rsigs k) (from_native signals)) else st_ret tt) ;;;
    st_ret 0
  end.

(** ** The interrupt handler *)

(** One message at the head of the queue; the result stops the loop unless it is 0. *)
Definition intr_msg (avail cmd param1 param2 : Z) : G Z :=
  let advance := qcom_glink_rx_advance (ALIGN sizeof_msg 8) in
  if (cmd =? RPM_CMD_VERSION) || (cmd =? RPM_CMD_VERSION_ACK) || (cmd =? RPM_CMD_CLOSE) ||
     (cmd =? RPM_CMD_CLOSE_ACK) || (cmd =? RPM_CMD_RX_INTENT_REQ) then qcom_glink_rx_defer 0
  else if cmd =? RPM_CMD_OPEN_ACK then let! ret := qcom_glink_rx_open_ack param1 in advance ;;; st_ret ret
  else if cmd =? RPM_CMD_OPEN then qcom_glink_rx_defer param2
  else if (cmd =? RPM_CMD_TX_DATA) || (cmd =? RPM_CMD_TX_DATA_CONT) then qcom_glink_rx_data avail
  else if cmd =? RPM_CMD_READ_NOTIF then advance ;;; kick ;;; st_ret 0
  else if cmd =? RPM_CMD_INTENT then qcom_glink_handle_intent param1 param2 avail ;;; st_ret 0
  else if cmd =? RPM_CMD_RX_DONE then qcom_glink_handle_rx_done param1 param2 false ;;; advance ;;; st_ret 0
  else if cmd =? RPM_CMD_RX_DONE_W_REUSE then qcom_glink_handle_rx_done param1 param2 true ;;; advance ;;; st_ret 0
  else if cmd =? RPM_CMD_RX_INTENT_REQ_ACK then
    qcom_glink_handle_intent_req_ack param1 (negb (param2 =? 0)) ;;; advance ;;; st_ret 0
  else if cmd =? RPM_CMD_SIGNALS then let! _ := qcom_glink_handle_signals param1 param2 in advance ;;; st_ret 0
  else st_ret (- EINVAL).

Fixpoint intr_loop (rounds : nat) : G unit :=
  match rounds with
  | O => fun _ => Loop
  | S rounds =>
    let! avail := qcom_glink_rx_avail in
    let avail := u32 avail in
    if avail <? sizeof_msg then st_ret tt else
    let! msg := qcom_glink_rx_peak 0 sizeof_msg in
    let! cmd := st_lift (field 2 msg 0) in
    let! param1 := st_lift (field 2 msg 2) in
    let! param2 := st_lift (field 4 msg 4) in
    let! ret := intr_msg avail cmd param1 param2 in
    if negb (ret =? 0) then st_ret tt else intr_loop rounds
  end.

Definition qcom_glink_native_intr : G unit :=
  st_upd (fun s => if (gl_wake s).1 then gl_set_wake ((gl_wake s).1, true) s else s) ;;;
  intr_loop (w_rounds W).

(** ** Opening *)

(** [-ETIMEDOUT] stands for each error. *)
Definition drop_local (c : Z) : G (Z + Z) :=
  kref_put c ;;; kref_put c ;;; st_ret (inl (- ETIMEDOUT)).
Definition local_timeout (c : Z) : G (Z + Z) :=
  let! k := channel_of c in
  st_upd (fun s => gl_set_lcids (delete (ch_lcid k) (gl_lcids s)) s) ;;;
  drop_local c.

Definition open_acked (c : Z) : G bool := let! k := channel_of c in st_ret (ch_open_ack k).
Definition open_requested (c : Z) : G bool := let! k := channel_of c in st_ret (ch_open_req k).

Definition qcom_glink_create_local (name : list Z) : G (Z + Z) :=
  let! channel := qcom_glink_alloc_channel name in
  match channel with
  | inl err => st_ret (inl err)
  | inr c =>
    let! ret := qcom_glink_send_open_req c in
    if negb (ret =? 0) then drop_local c else
    let! acked := wait_event (WaitOpenAck c) (open_acked c) in
    if negb acked then local_timeout c else
    let! opened := wait_event (WaitOpenReq c) (open_requested c) in
    if negb opened then local_timeout c else
    qcom_glink_send_open_ack c ;;;
    st_ret (inr c)
  end.

Definition qcom_glink_create_remote (c : Z) : G Z :=
  qcom_glink_send_open_ack c ;;;
  let! ret := qcom_glink_send_open_req c in
  if negb (ret =? 0) then qcom_glink_send_close_req c ;;; st_ret ret else
  let! acked := wait_event (WaitOpenAck c) (open_acked c) in
  if negb acked then qcom_glink_send_close_req c ;;; st_ret (- ETIMEDOUT) else
  st_ret 0.

(** The first channel with the name. *)
Fixpoint find_name (l : list Z) (name : list Z) : G (option Z) :=
  match l with
  | [] => st_ret None
  | c :: l =>
    let! k := channel_of c in
    match ch_name k with
    | None => fun _ => Fault
    | Some n => if decide (n = name) then st_ret (Some c) else find_name l name
    end
  end.

Definition qcom_glink_create_ept (name : list Z) : G (option Z) :=
  let! rcids := st_get gl_rcids in
  let! found := find_name (snd <$> idr_entries rcids) name in
  let! r := match found with
            | None => qcom_glink_create_local name
            | Some c => let! ret := qcom_glink_create_remote c in st_ret (if ret =? 0 then inr c else inl ret)
            end in
  match r with
  | inl _ => st_ret None
  | inr c => upd_channel c (ch_set_cb true) ;;; st_ret (Some c)
  end.

(** The intents that were asked for before the channel was ready. *)
Fixpoint advertise_pending (rounds : nat) (c id : Z) : G unit :=
  match rounds with
  | O => fun _ => Loop
  | S rounds =>
    let! k := channel_of c in
    match idr_get_next (ch_liids k) id with
    | None => st_ret tt
    | Some (iid, a) =>
      let! i := intent_of a in
      (if negb (it_reuse i) && negb (it_advertised i) then
         let! _ := qcom_glink_advertise_intent c a in st_ret tt
       else st_ret tt) ;;;
      advertise_pending rounds c (iid + 1)
    end
  end.

Fixpoint advertise_new (n : nat) (c size : Z) : G unit :=
  match n with
  | O => st_ret tt
  | S n =>
    let! intent := qcom_glink_alloc_intent c size true in
    match intent with
    | None => st_ret tt
    | Some a => let! _ := qcom_glink_advertise_intent c a in advertise_new n c size
    end
  end.

Fixpoint advertise_groups (l : list (Z * Z)) (c : Z) : G unit :=
  match l with
  | [] => st_ret tt
  | (size, n) :: l => advertise_new (Z.to_nat n) c size ;;; advertise_groups l c
  end.

(** [prop] is the property of the device: sizes and numbers of intents. *)
Definition qcom_glink_announce_create (c : Z) (prop : option (list (Z * Z))) : G Z :=
  let! k := channel_of c in
  let! intentless := st_get gl_intentless in
  if intentless || negb (ch_open_ack k) then st_ret 0 else
  upd_channel c (ch_set_channel_ready true) ;;;
  advertise_pending (w_rounds W) c 0 ;;;
  advertise_groups (default [(SZ_1K, 5)] prop) c ;;;
  st_ret 0.

Definition qcom_glink_destroy_ept (c : Z) : G unit :=
  let! k := channel_of c in
  if negb (ch_cb k) then st_ret tt else
  upd_channel c (ch_set_cb false) ;;;
  qcom_glink_send_close_req c.

(** ** Sending *)
Definition intent_acked (c : Z) : G bool :=
  let! k := channel_of c in let! r := in_reset in st_ret (negb (ch_intent_req_acked k =? 0) || r).
Definition intent_completed (c : Z) : G bool :=
  let! k := channel_of c in let! r := in_reset in st_ret (negb (ch_intent_req_completed k =? 0) || r).

(** What a wait for the other side comes to. *)
Definition request_result (c : Z) (ok : bool) : G Z :=
  if negb ok then st_ret (- ETIMEDOUT) else
  let! r := in_reset in
  if r then st_ret (- ECONNRESET) else
  let! k := channel_of c in
  st_ret (if ch_intent_req_result k then 0 else - ECANCELED).

Definition qcom_glink_request_intent (c size : Z) : G Z :=
  upd_channel c (fun k => ch_set_intent_req_completed 0 (ch_set_intent_req_acked 0 k)) ;;;
  let! k := channel_of c in
  let! ret := qcom_glink_tx (glink_msg RPM_CMD_RX_INTENT_REQ (ch_lcid k) size) [] true in
  if negb (ret =? 0) then st_ret ret else
  let! ok := wait_event (WaitIntentAck c) (intent_acked c) in
  request_result c ok.

(** The smallest free intent that is large enough, the search ending with one of the exact size. *)
Fixpoint pick_intent (l : list Z) (len : Z) (best : option (Z * Z)) : G (option Z) :=
  match l with
  | [] => st_ret (fst <$> best)
  | a :: l =>
    let! tmp := intent_of a in
    if (len <=? it_size tmp) && negb (it_in_use tmp) then
      let best := match best with
                  | None => (a, it_size tmp)
                  | Some (b, size) => if size >? it_size tmp then (a, it_size tmp) else (b, size)
                  end in
      if best.2 =? len then st_ret (Some best.1) else pick_intent l len (Some best)
    else pick_intent l len best
  end.

Definition take_intent (c len : Z) : G (option Z) :=
  let! k := channel_of c in
  let! best := pick_intent (snd <$> idr_entries (ch_riids k)) len None in
  match best with
  | Some a => upd_intent a (it_set_in_use true) ;;; st_ret (Some a)
  | None => st_ret None
  end.

(** An intent, or an error: asks the other side for one until it finds one. *)
Fixpoint get_intent (rounds : nat) (c len : Z) (wait : bool) : G (Z + Z) :=
  match rounds with
  | O => fun _ => Loop
  | S rounds =>
    let! intent := take_intent c len in
    match intent with
    | Some a => st_ret (inr a)
    | None =>
      let! r := in_reset in
      if r then st_ret (inl (- ECONNRESET)) else
      if negb wait then st_ret (inl (- EBUSY)) else
      let! ret := qcom_glink_request_intent c len in
      if ret <? 0 then st_ret (inl ret) else
      let! ok := wait_event (WaitIntentComp c) (intent_completed c) in
      let! ret := request_result c ok in
      if ret <? 0 then st_ret (inl ret) else
      get_intent rounds c len wait
    end
  end.

Definition data_hdr (cmd lcid iid chunk_size left_size : Z) : list Z :=
  glink_msg cmd lcid iid ++ le_bytes 4 chunk_size ++ le_bytes 4 left_size.

(** One fragment; after an error the intent is free again. *)
Definition glink_send_chunk (c cmd iid : Z) (intent : option Z) (data : list Z) (left_size : Z) (wait : bool) : G Z :=
  let! k := channel_of c in
  let! ret := qcom_glink_tx (data_hdr cmd (ch_lcid k) iid (Z.of_nat (length data)) left_size) data wait in
  (match intent with
   | Some a => if negb (ret =? 0) then upd_intent a (it_set_in_use false) else st_ret tt
   | None => st_ret tt
   end) ;;;
  st_ret ret.

Fixpoint send_rest (rounds : nat) (c iid : Z) (intent : option Z) (data : list Z) (wait : bool) (ret : Z) : G Z :=
  match rounds with
  | O => st_ret ret
  | S rounds =>
    if Z.of_nat (length data) >? 0 then
      let chunk := take (Z.to_nat SZ_8K) data in
      let rest := drop (Z.to_nat SZ_8K) data in
      let! ret := glink_send_chunk c RPM_CMD_TX_DATA_CONT iid intent chunk (Z.of_nat (length rest)) wait in
      if negb (ret =? 0) && bool_decide (is_Some intent) then st_ret ret
      else send_rest rounds c iid intent rest wait ret
    else st_ret ret
  end.

Definition __qcom_glink_send (c : Z) (data : list Z) (wait : bool) : G Z :=
  let len := Z.of_nat (length data) in
  let! intentless := st_get gl_intentless in
  let! intent := (if intentless then st_ret (inr None)
                  else let! r := get_intent (w_rounds W) c len wait in
                       st_ret (match r with inl e => inl e | inr a => inr (Some a) end)) in
  match intent with
  | inl err => st_ret err
  | inr intent =>
    let! iid := match intent with Some a => let! i := intent_of a in st_ret (it_id i) | None => st_ret 0 end in
    let n := if wait && (len >? SZ_8K) then Z.to_nat SZ_8K else length data in
    let rest := drop n data in
    let! ret := glink_send_chunk c RPM_CMD_TX_DATA iid intent (take n data) (Z.of_nat (length rest)) wait in
    if negb (ret =? 0) && bool_decide (is_Some intent) then st_ret ret
    else send_rest (length rest) c iid intent rest wait ret
  end.

Definition qcom_glink_send (c : Z) (data : list Z) : G Z := __qcom_glink_send c data true.
Definition qcom_glink_trysend (c : Z) (data : list Z) : G Z := __qcom_glink_send c data false.

Definition qcom_glink_get_sigs (c : Z) : G Z := let! k := channel_of c in st_ret (ch_rsigs k).

Definition qcom_glink_set_sigs (c set clear : Z) : G Z :=
  let! k := channel_of c in
  let add bit sigs := if negb (Z.land set bit =? 0) then Z.lor sigs bit else sigs in
  let del bit sigs := if negb (Z.land clear bit =? 0) then Z.land sigs (u32 (Z.lnot bit)) else sigs in
  let sigs := add TIOCM_RI (add TIOCM_CD (add TIOCM_RTS (add TIOCM_DTR (ch_lsigs k)))) in
  let sigs := del TIOCM_RI (del TIOCM_CD (del TIOCM_RTS (del TIOCM_DTR sigs))) in
  upd_channel c (ch_set_lsigs sigs) ;;;
  qcom_glink_send_signals c sigs.

(** ** Deferred messages *)
Definition rcid_remove (c : Z) : G unit :=
  let! k := channel_of c in
  st_upd (fun s => gl_set_rcids (delete (ch_rcid k) (gl_rcids s)) s) ;;;
  upd_channel c (ch_set_rcid 0).

(** The exits of an open request: the reference is given back only when it was taken here. *)
Definition open_failed (c : Z) (create_device : bool) (ret : Z) : G Z :=
  (if create_device then kref_put c else st_ret tt) ;;; st_ret ret.

Definition open_device (c : Z) : G Z :=
  let! ok := alloc_ok GAlloc in
  if negb ok then st_ret (- ENOMEM) else
  let! ret := w_register W c in
  if negb (ret =? 0) then st_ret ret else
  upd_channel c (ch_set_rpdev true) ;;; st_ret 0.

Definition qcom_glink_rx_open (rcid : Z) (name : list Z) : G Z :=
  let! lcids := st_get gl_lcids in
  let! found := find_name (snd <$> idr_entries lcids) name in
  let! channel := match found with Some c => st_ret (inr c) | None => qcom_glink_alloc_channel name end in
  match channel with
  | inl err => st_ret err
  | inr c =>
    let create_device := negb (bool_decide (is_Some found)) in
    let! rcids := st_get gl_rcids in
    let! nomem := glink_ask GIdr in
    let ret := if nomem =? 0 then idr_alloc rcids rcid (rcid + 1) else - ENOMEM in
    if ret <? 0 then open_failed c create_device ret else
    st_upd (gl_set_rcids (<[ret := c]> rcids)) ;;;
    upd_channel c (ch_set_rcid ret) ;;;
    upd_channel c (ch_set_open_req true) ;;;
    if create_device then
      let! ret := open_device c in
      if negb (ret =? 0) then rcid_remove c ;;; open_failed c create_device ret else st_ret 0
    else st_ret 0
  end.

(** The device of a channel goes by its name. *)
Definition unregister_device (c : Z) : G unit :=
  let! k := channel_of c in
  (if ch_rpdev k then match ch_name k with Some n => w_unregister W n | None => fun _ => Fault end else st_ret tt) ;;;
  upd_channel c (ch_set_rpdev false).

Definition qcom_glink_rx_close (rcid : Z) : G unit :=
  let! channel := find_rcid rcid in
  match channel with
  | None => st_ret tt
  | Some c =>
    upd_channel c (ch_set_intent_work false) ;;;
    unregister_device c ;;;
    let! k := channel_of c in
    qcom_glink_send_close_ack (ch_rcid k) ;;;
    rcid_remove c ;;;
    kref_put c
  end.

Definition qcom_glink_rx_close_ack (lcid : Z) : G unit :=
  let! channel := find_lcid lcid in
  match channel with
  | None => st_ret tt
  | Some c =>
    let! k := channel_of c in
    st_upd (fun s => gl_set_lcids (delete (ch_lcid k) (gl_lcids s)) s) ;;;
    upd_channel c (ch_set_lcid 0) ;;;
    unregister_device c ;;;
    kref_put c
  end.

Definition work_msg (dcmd : list Z) : G unit :=
  let! cmd := st_lift (field 2 dcmd 0) in
  let! param1 := st_lift (field 2 dcmd 2) in
  let! param2 := st_lift (field 4 dcmd 4) in
  if cmd =? RPM_CMD_VERSION then qcom_glink_receive_version param1 param2
  else if cmd =? RPM_CMD_VERSION_ACK then qcom_glink_receive_version_ack param1 param2
  else if cmd =? RPM_CMD_OPEN then
    let! name := st_lift (cstring (drop (Z.to_nat sizeof_msg) dcmd)) in
    let! _ := qcom_glink_rx_open param1 name in st_ret tt
  else if cmd =? RPM_CMD_CLOSE then qcom_glink_rx_close param1
  else if cmd =? RPM_CMD_CLOSE_ACK then qcom_glink_rx_close_ack param1
  else if cmd =? RPM_CMD_RX_INTENT_REQ then qcom_glink_handle_intent_req param1 param2
  else st_ret tt.

Fixpoint work_loop (rounds : nat) : G unit :=
  match rounds with
  | O => fun _ => Loop
  | S rounds =>
    let! queue := st_get gl_rx_queue in
    match queue with
    | [] => st_ret tt
    | dcmd :: queue => st_upd (gl_set_rx_queue queue) ;;; work_msg dcmd ;;; work_loop rounds
    end
  end.

Definition qcom_glink_work : G unit := st_upd (gl_set_rx_work false) ;;; work_loop (w_rounds W).

(** ** Set up and removal *)

(** The reference of the character device. *)
Definition qcom_glink_device_release (c : Z) : G unit := kref_put c.

Definition chrdev_name : list Z := [114; 112; 109; 115; 103; 95; 99; 104; 114; 100; 101; 118].

Definition qcom_glink_create_chrdev : G Z :=
  let! ok := alloc_ok GAlloc in
  if negb ok then st_ret (- ENOMEM) else
  let! channel := qcom_glink_alloc_channel chrdev_name in
  match channel with
  | inl err => st_ret err
  | inr c => upd_channel c (ch_set_rpdev true) ;;; w_chrdev W c
  end.

(** The waiting threads look at their conditions again. *)
Definition qcom_glink_notif_reset : G unit := st_upd (fun s => gl_set_in_reset (gl_in_reset s + 1) s).

Definition qcom_glink_cancel_rx_work : G unit := st_upd (fun s => gl_set_rx_queue [] (gl_set_rx_work false s)).

(** What the probe finds: the results for the mailbox, the thread and the interrupt, and whether
    there is memory for the affinity, when there is one. *)
Record native_env := ProbeEnv { pe_mbox : Z; pe_task : Z; pe_irq : Z; pe_affinity : option bool }.

Definition set_glink_regs (f : glink_regs -> glink_regs) : G unit := st_upd (fun s => gl_set_regs (f (gl_regs s)) s).

Definition probe_unregister (ret : Z) : G Z :=
  set_glink_regs (fun r => Registrations (rg_mbox r) (rg_task r) false (rg_irq r)) ;;; st_ret ret.

Definition qcom_glink_native_probe (e : native_env) (features : Z) (intentless : bool) : G Z :=
  let! ok := alloc_ok GAlloc in
  if negb ok then st_ret (- ENOMEM) else
  st_upd (fun s => Glink (gl_pipe s) features intentless 0 false [] false ∅ 0 ∅ ∅ ∅ (gl_next s)
                     (Registrations false false false false) (gl_wake s) (gl_trace s) (gl_env s)) ;;;
  if negb (pe_mbox e =? 0) then st_ret (pe_mbox e) else
  set_glink_regs (fun r => Registrations true false false false) ;;;
  if negb (pe_task e =? 0) then st_ret (pe_task e) else
  set_glink_regs (fun r => Registrations true true true false) ;;;
  if negb (pe_irq e =? 0) then probe_unregister (pe_irq e) else
  set_glink_regs (fun r => Registrations true true true true) ;;;
  match pe_affinity e with
  | Some false => probe_unregister (- ENOMEM)
  | _ =>
    let! ret := qcom_glink_send_version in
    if negb (ret =? 0) then probe_unregister ret else
    let! _ := qcom_glink_create_chrdev in
    st_ret 0
  end.

Fixpoint release_lcids (l : list (Z * Z)) : G unit :=
  match l with
  | [] => st_ret tt
  | (cid, c) :: l => kref_put c ;;; st_upd (fun s => gl_set_lcids (delete cid (gl_lcids s)) s) ;;; release_lcids l
  end.
Fixpoint release_rcids (l : list (Z * Z)) : G unit :=
  match l with
  | [] => st_ret tt
  | (cid, c) :: l => kref_put c ;;; st_upd (fun s => gl_set_rcids (delete cid (gl_rcids s)) s) ;;; release_rcids l
  end.
Fixpoint put_rcids (l : list (Z * Z)) : G unit :=
  match l with
  | [] => st_ret tt
  | (_, c) :: l => kref_put c ;;; put_rcids l
  end.

(** [kthread_flush_worker]: the work that is still queued. *)
Fixpoint flush_worker (l : list Z) : G unit :=
  match l with
  | [] => st_ret tt
  | c :: l =>
    let! k := channel_of c in
    (if ch_intent_work k then qcom_glink_rx_done_work c else st_ret tt) ;;; flush_worker l
  end.

Definition qcom_glink_native_remove : G unit :=
  set_glink_regs (fun r => Registrations (rg_mbox r) (rg_task r) false (rg_irq r)) ;;;
  qcom_glink_notif_reset ;;;
  qcom_glink_cancel_rx_work ;;;
  w_remove_devices W ;;;
  let! lcids := st_get gl_lcids in
  release_lcids (idr_entries lcids) ;;;
  let! rcids := st_get gl_rcids in
  release_rcids (idr_entries rcids) ;;;
  let! rcids := st_get gl_rcids in
  put_rcids (idr_entries rcids) ;;;
  st_upd (fun s => gl_set_rcids ∅ (gl_set_lcids ∅ s)) ;;;
  let! channels := st_get gl_channels in
  flush_worker (fst <$> map_to_list channels) ;;;
  qcom_glink_pipe_reset ;;;
  set_glink_regs (fun r => Registrations false false (rg_notif r) (rg_irq r)).

Definition qcom_glink_suspend_no_irq : G Z := st_upd (fun s => gl_set_wake (true, (gl_wake s).2) s) ;;; st_ret 0.
Definition qcom_glink_resume_no_irq : G Z := st_upd (fun s => gl_set_wake (false, (gl_wake s).2) s) ;;; st_ret 0.
End glink.
