(* ===== verification/GlinkSmem.v ===== *)
(** * Bringing up a link in shared memory (drivers/rpmsg/qcom_glink_smem.c)

    The registration of an edge allocates the descriptor and the queue it sends with, finds
    them, and probes the link on top. *)
From S2P Require Import Prelude CMem KernelIdr Smem SmemHeap SmemApi SmemService GlinkPipe GlinkState Glink.
Open Scope c_scope.

(** What the registration finds: memory for the device and its registration, the number of the
    remote processor, memory for the pipes, the results of the spinlock in the four calls of
    the memory manager, and what the probe of the link finds. *)
Record register_env := RegisterEnv {
  re_dev : bool;
  re_register : Z;
  re_remote_pid : Z + Z;
  re_pipes : bool;
  re_locks : Z * Z * Z * Z;
  re_probe : native_env;
}.

Section register.
Context (smem : qcom_smem) (hwlock_rc : Z).
#[local] Instance pipes : GlinkPipe smem_pipes := smem_pipe smem hwlock_rc.
Context `{Idr} `{Termios} (W : @glink_world smem_pipes).

Abbreviation GS := (ST (qcom_glink smem_pipes)).

(** An item that may be there already: its address and its size, or the error. *)
Definition get_item (lock pid item : Z) : GS (Z + Z * Z) :=
  let! r := on_pipe (ps_on_mem (qcom_smem_get lock (Some smem) pid item true)) in
  match r with
  | (Ptr a, size) => st_ret (inr (a, default 0 size))
  | (ErrPtr e, _) => st_ret (inl e)
  end.
Definition alloc_item (lock pid item size : Z) : GS Z :=
  let! ret := on_pipe (ps_on_mem (qcom_smem_alloc lock (Some smem) pid item size)) in
  st_ret (if negb (ret =? 0) && negb (ret =? - EEXIST) then ret else 0).

(** [err_put_dev]: the device goes. *)
Definition qcom_glink_smem_register (e : register_env) : GS Z :=
  if negb (re_dev e) then st_ret (- ENOMEM) else
  if negb (re_register e =? 0) then st_ret (re_register e) else
  match re_remote_pid e with
  | inl ret => st_ret ret
  | inr remote_pid =>
    if negb (re_pipes e) then st_ret (- ENOMEM) else
    let '(l1, l2, l3, l4) := re_locks e in
    let! ret := alloc_item l1 remote_pid SMEM_GLINK_NATIVE_XPRT_DESCRIPTOR 32 in
    if negb (ret =? 0) then st_ret ret else
    let! descs := get_item l2 remote_pid SMEM_GLINK_NATIVE_XPRT_DESCRIPTOR in
    match descs with
    | inl ret => st_ret ret
    | inr (descs, size) =>
      if negb (size =? 32) then st_ret (- EINVAL) else
      let! ret := alloc_item l3 remote_pid SMEM_GLINK_NATIVE_XPRT_FIFO_0 SZ_16K in
      if negb (ret =? 0) then st_ret ret else
      let! fifo := get_item l4 remote_pid SMEM_GLINK_NATIVE_XPRT_FIFO_0 in
      match fifo with
      | inl ret => st_ret ret
      | inr (fifo, length) =>
        let tx := SmemPipe descs (descs + 4) fifo length remote_pid in
        let rx := SmemPipe (descs + 8) (descs + 12) 0 0 remote_pid in
        st_upd (fun s => gl_set_pipe (SmemPipes (ps_mem (gl_pipe s)) rx tx) s) ;;;
        on_pipe (ps_on_mem (store32 (sp_tail rx) 0)) ;;;
        on_pipe (ps_on_mem (store32 (sp_head tx) 0)) ;;;
        qcom_glink_native_probe W (re_probe e) GLINK_FEATURE_INTENT_REUSE false
      end
    end
  end.

Definition qcom_glink_smem_unregister : GS unit := qcom_glink_native_remove W.
End register.
