(* ===== verification/GlinkLink.v ===== *)
(** * Running a link over queues

    What the calls of a link do on pipes that satisfy [PipeLaws], and the fields of the messages
    the two sides exchange. *)
From S2P Require Import Prelude CMem KernelIdr GlinkPipe GlinkState Glink.
Open Scope c_scope.

(** ** Fields of messages *)
Lemma field_at n pre v post : field n (pre ++ le_bytes n v ++ post) (Z.of_nat (length pre)) = Ok (v mod 2 ^ (8 * Z.of_nat n)).
Proof.
  rewrite field_ok by (rewrite ?length_app, ?length_le_bytes; lia). rewrite Nat2Z.id, drop_app_length.
  rewrite take_app_length' by (by rewrite length_le_bytes). by rewrite le_val_bytes.
Qed.

Lemma length_msg a b c : length (glink_msg a b c) = 8%nat.
Proof. unfold glink_msg. by rewrite !length_app, !length_le_bytes. Qed.
Lemma length_data_hdr cmd lcid iid n left : length (data_hdr cmd lcid iid n left) = 16%nat.
Proof. unfold data_hdr. by rewrite !length_app, length_msg, !length_le_bytes. Qed.

Lemma msg_range a b c : Forall byte_ok (glink_msg a b c).
Proof. unfold glink_msg. rewrite !Forall_app. repeat split; apply le_bytes_range. Qed.
Lemma data_hdr_range cmd lcid iid n left : Forall byte_ok (data_hdr cmd lcid iid n left).
Proof. unfold data_hdr. rewrite !Forall_app. repeat split; apply msg_range || apply le_bytes_range. Qed.

Lemma msg_cmd a b c l : field 2 (glink_msg a b c ++ l) 0 = Ok (u16 a).
Proof. unfold glink_msg. rewrite <-!app_assoc. apply (field_at 2 []). Qed.
Lemma msg_param1 a b c l : field 2 (glink_msg a b c ++ l) 2 = Ok (u16 b).
Proof.
  unfold glink_msg. rewrite <-!app_assoc. pose proof (field_at 2 (le_bytes 2 a) b (le_bytes 4 c ++ l)) as E.
  rewrite length_le_bytes in E. exact E.
Qed.
Lemma msg_param2 a b c l : field 4 (glink_msg a b c ++ l) 4 = Ok (u32 c).
Proof.
  unfold glink_msg. pose proof (field_at 4 (le_bytes 2 a ++ le_bytes 2 b) c l) as E.
  rewrite length_app, !length_le_bytes in E. rewrite <-!app_assoc in *. exact E.
Qed.
Lemma data_hdr_chunk cmd lcid iid n left l : field 4 (data_hdr cmd lcid iid n left ++ l) 8 = Ok (u32 n).
Proof.
  unfold data_hdr. rewrite <-!app_assoc. pose proof (field_at 4 (glink_msg cmd lcid iid) n (le_bytes 4 left ++ l)) as E.
  rewrite length_msg in E. exact E.
Qed.
Lemma data_hdr_left cmd lcid iid n left l : field 4 (data_hdr cmd lcid iid n left ++ l) 12 = Ok (u32 left).
Proof.
  unfold data_hdr. pose proof (field_at 4 (glink_msg cmd lcid iid ++ le_bytes 4 n) left l) as E.
  rewrite length_app, length_msg, length_le_bytes in E. rewrite <-!app_assoc in *. exact E.
Qed.

Section link.
Context {P : Type} `{PipeLaws P} `{Idr} `{Termios}.
Context (W : @glink_world P).
Implicit Types (s : qcom_glink P).

Definition rx_queue (s : qcom_glink P) : list Z -> Prop := rx_has (gl_pipe s).
Definition tx_queue (s : qcom_glink P) : list Z -> Prop := tx_has (gl_pipe s).
Definition fifo_length (s : qcom_glink P) : Z := pipe_tx_length (gl_pipe s).

Lemma set_pipe_id s : gl_set_pipe (gl_pipe s) s = s.
Proof. by destruct s. Qed.

(** ** The incoming queue *)
Lemma avail_exec s q : rx_queue s q -> qcom_glink_rx_avail s = Ok (Z.of_nat (length q), s).
Proof. intros R. unfold qcom_glink_rx_avail, on_pipe. by rewrite (rx_avail_law _ q), set_pipe_id. Qed.

Lemma peak_exec s q off n : rx_queue s q -> 0 <= off -> 0 <= n -> off + n <= Z.of_nat (length q) ->
  qcom_glink_rx_peak off n s = Ok (take (Z.to_nat n) (drop (Z.to_nat off) q), s).
Proof. intros R Ho Hn Hl. unfold qcom_glink_rx_peak, on_pipe. by rewrite (rx_peak_law _ q), set_pipe_id. Qed.

Lemma peak_here s l r off n : rx_queue s (l ++ r) -> 0 <= off -> 0 <= n -> off + n <= Z.of_nat (length l) ->
  qcom_glink_rx_peak off n s = Ok (take (Z.to_nat n) (drop (Z.to_nat off) l), s).
Proof.
  intros R Ho Hn Hl. rewrite (peak_exec s (l ++ r)) by (done || rewrite ?length_app; lia).
  rewrite drop_app_le, take_app_le by (rewrite ?length_drop; lia). done.
Qed.

(** The part of the queue that is left. *)
Record taken (s : qcom_glink P) (p' : P) (q : list Z) : Prop := {
  tk_rx : rx_has p' q;
  tk_tx t : tx_queue s t -> tx_has p' t;
  tk_same : same_pipe (gl_pipe s) p';
}.

Lemma tk_length s p' q : taken s p' q -> pipe_tx_length p' = fifo_length s.
Proof. intros T. apply same_pipe_length, T. Qed.

Lemma advance_exec s q n : rx_queue s q -> 0 <= n <= Z.of_nat (length q) -> (8 | n) -> exists p',
  qcom_glink_rx_advance n s = Ok (tt, gl_set_pipe p' s) /\ taken s p' (drop (Z.to_nat n) q).
Proof.
  intros R Hn Hu. destruct (rx_advance_law _ q n R Hn Hu) as (p'&E&R'&T&L). exists p'.
  unfold qcom_glink_rx_advance, on_pipe. rewrite E. split; [done|]. by constructor.
Qed.

(** ** Transmission *)

(** The link after a message of [l] bytes left. *)
Definition sent (p' : P) (l : list Z) (s : qcom_glink P) : qcom_glink P :=
  gl_set_trace (gl_trace s ++ [Sent l; Kicked]) (gl_set_pipe p' s).

(** A pipe with [l] behind the queue. *)
Record written_to (s : qcom_glink P) (p' : P) (t : list Z) : Prop := {
  wr_tx : tx_has p' t;
  wr_rx q : rx_queue s q -> rx_has p' q;
  wr_same : same_pipe (gl_pipe s) p';
}.

Lemma wr_length s p' t : written_to s p' t -> pipe_tx_length p' = fifo_length s.
Proof. intros T. apply same_pipe_length, T. Qed.

Definition padding (n : Z) : Z := (- n) mod 8.

Lemma tx_exec s t hdr data wait : tx_queue s t -> gl_in_reset s = 0 -> (0 < w_rounds W)%nat ->
  Forall byte_ok hdr -> Forall byte_ok data ->
  let n := Z.of_nat (length hdr) + Z.of_nat (length data) in
  Z.of_nat (length t) + n <= fifo_length s - 16 -> exists p' pad,
  qcom_glink_tx W hdr data wait s = Ok (0, sent p' (hdr ++ data) s) /\
  written_to s p' (t ++ (hdr ++ data) ++ pad) /\ Z.of_nat (length pad) = padding n.
Proof.
  intros T Hr Hw Hh Hd n Hn. destruct (tx_has_ok _ t T) as (_&_&Hl). fold (fifo_length s) in Hl.
  destruct (tx_write_law _ t hdr data T Hh Hd) as (p'&pad&E&T'&Hp&R'&L').
  { fold (fifo_length s). lia. }
  exists p', pad. split; [|split; [|exact Hp]].
  2: { constructor; [by rewrite <-app_assoc|exact R'|exact L']. }
  unfold qcom_glink_tx. fold n. rewrite u32_id by lia. cbv zeta. rewrite st_bind_get. fold (fifo_length s).
  bool_false (fifo_length s <=? n). unfold in_reset. rewrite st_bind_bind, st_bind_get, st_bind_ret, Hr.
  cbn [negb Z.eqb]. destruct (w_rounds W) as [|k]; [lia|]. cbn [tx_loop].
  assert (Ea : qcom_glink_tx_avail s = Ok (fifo_length s - 16 - Z.of_nat (length t), s)).
  { unfold qcom_glink_tx_avail, on_pipe. rewrite (tx_avail_law _ t T), set_pipe_id. fold (fifo_length s).
    by rewrite Z.max_r by lia. }
  rewrite (st_bind_ok _ _ _ _ _ Ea). bool_false (fifo_length s - 16 - Z.of_nat (length t) <? n).
  unfold qcom_glink_tx_write, on_pipe, kick, glink_log, st_bind, st_upd, st_ret. rewrite E. cbn.
  unfold sent. by rewrite <-app_assoc.
Qed.
End link.
