(* ===== verification/GlinkSend.v ===== *)
(** * Sending a message (drivers/rpmsg/qcom_glink_native.c)

    The choice of an intent, and the fragments a message is cut into. *)
From S2P Require Import Prelude CMem KernelIdr GlinkPipe GlinkState Glink GlinkLink.
Open Scope c_scope.

(** ** Fragments *)

(** What goes through a queue: messages, each filled up to a unit. *)
Inductive padded : list (list Z) -> list Z -> Prop :=
| padded_nil : padded [] []
| padded_cons m ms pad q : Z.of_nat (length pad) = padding (Z.of_nat (length m)) -> padded ms q ->
    padded (m :: ms) (m ++ pad ++ q).

Lemma padded_app ms1 ms2 q1 q2 : padded ms1 q1 -> padded ms2 q2 -> padded (ms1 ++ ms2) (q1 ++ q2).
Proof.
  induction 1 as [|m ms pad q Hp _ IH]; [done|]. intros H2. cbn. rewrite <-!app_assoc.
  constructor; [done|by apply IH].
Qed.

Lemma padded_inv m ms q : padded (m :: ms) q -> exists pad q0, q = m ++ pad ++ q0 /\
  Z.of_nat (length pad) = padding (Z.of_nat (length m)) /\ padded ms q0.
Proof. inversion 1; subst. eauto. Qed.

Definition padded_size (m : list Z) : Z := Z.of_nat (length m) + padding (Z.of_nat (length m)).
Definition wire_size (ms : list (list Z)) : Z := foldr (fun m n => padded_size m + n) 0 ms.

Lemma padding_range n : 0 <= padding n < 8.
Proof. apply Z.mod_pos_bound. lia. Qed.
Lemma padded_size_pos m : 0 <= padded_size m.
Proof. unfold padded_size. pose proof (padding_range (Z.of_nat (length m))). lia. Qed.
Lemma wire_size_pos ms : 0 <= wire_size ms.
Proof. unfold wire_size. induction ms as [|m ms IH]; cbn [foldr]; [lia|]. pose proof (padded_size_pos m). lia. Qed.
Lemma padded_length ms q : padded ms q -> Z.of_nat (length q) = wire_size ms.
Proof.
  unfold wire_size. induction 1 as [|m ms pad q Hp _ IH]; [done|]. cbn [foldr]. rewrite !length_app. unfold padded_size in *. lia.
Qed.
Lemma padded_size_units m : (8 | padded_size m).
Proof.
  unfold padded_size, padding. exists (- (- Z.of_nat (length m) / 8)). pose proof (Z.div_mod (- Z.of_nat (length m)) 8 ltac:(lia)). lia.
Qed.

(** The fragments behind the first one. *)
Fixpoint more_fragments (n : nat) (lcid iid : Z) (data : list Z) : list (list Z) :=
  match n with
  | O => []
  | S n =>
    if decide (data = []) then [] else
    let chunk := take (Z.to_nat SZ_8K) data in
    let rest := drop (Z.to_nat SZ_8K) data in
    (data_hdr RPM_CMD_TX_DATA_CONT lcid iid (Z.of_nat (length chunk)) (Z.of_nat (length rest)) ++ chunk)
      :: more_fragments n lcid iid rest
  end.

Lemma chunk_pos : (0 < Z.to_nat SZ_8K)%nat.
Proof. unfold SZ_8K. lia. Qed.

Definition first_size (wait : bool) (data : list Z) : nat :=
  if wait && (Z.of_nat (length data) >? SZ_8K) then Z.to_nat SZ_8K else length data.
Definition fragments (wait : bool) (lcid iid : Z) (data : list Z) : list (list Z) :=
  let n := first_size wait data in
  (data_hdr RPM_CMD_TX_DATA lcid iid (Z.of_nat (length (take n data))) (Z.of_nat (length (drop n data))) ++ take n data)
    :: more_fragments (length (drop n data)) lcid iid (drop n data).

(** There are no more fragments than units of sixteen bytes in the queue. *)
Lemma count_wire ms : Forall (fun m => 16 <= Z.of_nat (length m)) ms -> 16 * Z.of_nat (length ms) <= wire_size ms.
Proof.
  unfold wire_size. induction 1 as [|m ms Hm _ IH]; cbn [foldr length]; [lia|].
  unfold padded_size in *. pose proof (padding_range (Z.of_nat (length m))). lia.
Qed.
Lemma fragment_16 cmd lcid iid n left l : 16 <= Z.of_nat (length (data_hdr cmd lcid iid n left ++ l)).
Proof. rewrite length_app, length_data_hdr. lia. Qed.
Lemma fragments_16 wait lcid iid data : Forall (fun m => 16 <= Z.of_nat (length m)) (fragments wait lcid iid data).
Proof.
  unfold fragments. constructor; [apply fragment_16|]. generalize (length (drop (first_size wait data) data)) as n.
  intros n. generalize (drop (first_size wait data) data) as l. induction n as [|n IH]; intros l; cbn [more_fragments]; [done|].
  case_decide; constructor; [apply fragment_16|apply IH].
Qed.

Section send.
Context {P : Type} `{PipeLaws P} `{Idr} `{Termios}.
Context (W : @glink_world P).
Implicit Types (s : qcom_glink P).

(** ** The choice of an intent *)
Definition free_for s (len a : Z) (i : glink_core_rx_intent) : Prop :=
  gl_intents s !! a = Some i /\ len <= it_size i /\ it_in_use i = false.

(** The best of the candidates [C]: none, or a smallest one. *)
Definition best_of s (len : Z) (C : Z -> Prop) (r : option Z) : Prop :=
  match r with
  | Some a => C a /\ exists i, free_for s len a i /\ forall b j, C b -> free_for s len b j -> it_size i <= it_size j
  | None => forall b j, C b -> ~ free_for s len b j
  end.

(** One more candidate: it is the new best one, it is no better, or it is not free. *)
Lemma best_ext s len C D r : (forall a, C a <-> D a) -> best_of s len C r -> best_of s len D r.
Proof. intros HC. unfold best_of. destruct r; setoid_rewrite HC; done. Qed.

Lemma best_free s len C best a i : best_of s len C (fst <$> best) -> free_for s len a i ->
  (forall b n, best = Some (b, n) -> exists k, gl_intents s !! b = Some k /\ it_size k = n) ->
  let best' := match best with
               | None => (a, it_size i)
               | Some (b, size) => if size >? it_size i then (a, it_size i) else (b, size)
               end in
  best_of s len (fun b => C b \/ b = a) (Some best'.1) /\ exists k, gl_intents s !! best'.1 = Some k /\ it_size k = best'.2.
Proof.
  intros Hb Fa Hs best'. destruct Fa as [Ha Fa].
  assert (Ha' : forall b j, b = a -> free_for s len b j -> j = i) by (intros b j -> [Hj _]; congruence).
  destruct best as [[b n]|]; cbn in Hb.
  - destruct Hb as (Hc&k&Hk&Hm). destruct (Hs b n eq_refl) as (k'&Hk'&En).
    assert (k' = k) as -> by (destruct Hk as [Hk _]; congruence). unfold best'. case_if; cbn.
    + split; [|eauto]. split; [by right|]. exists i. split; [done|]. intros b' j [Hb'|Hb'] Hj.
      * specialize (Hm b' j Hb' Hj). lia.
      * by rewrite (Ha' b' j Hb' Hj).
    + split; [|exists k; split; [apply Hk|done]]. split; [by left|]. exists k. split; [done|]. intros b' j [Hb'|Hb'] Hj.
      * by apply (Hm b' j).
      * rewrite (Ha' b' j Hb' Hj). lia.
  - split; [|eauto]. split; [by right|]. exists i. split; [done|]. intros b' j [Hb'|Hb'] Hj.
    + by destruct (Hb b' j).
    + by rewrite (Ha' b' j Hb' Hj).
Qed.

Lemma best_skip s len C r a : best_of s len C r -> (forall i, ~ free_for s len a i) -> best_of s len (fun b => C b \/ b = a) r.
Proof.
  intros Hb Ha. destruct r as [b|]; cbn in *.
  - destruct Hb as (Hc&k&Hk&Hm). split; [by left|]. exists k. split; [done|].
    intros b' j [Hb'| ->] Hj; [by apply (Hm b' j)|by destruct (Ha j)].
  - intros b j [Hb'| ->] Hj; [by apply (Hb b j)|by destruct (Ha j)].
Qed.

Lemma pick_exec s len : forall l (C : Z -> Prop) best, Forall (fun a => is_Some (gl_intents s !! a)) l ->
  best_of s len C (fst <$> best) ->
  (forall a n, best = Some (a, n) -> exists i, gl_intents s !! a = Some i /\ it_size i = n) ->
  exists r, pick_intent l len best s = Ok (r, s) /\ best_of s len (fun a => C a \/ a ∈ l) r.
Proof.
  induction l as [|a l IH]; intros C best Hl Hb Hs.
  { exists (fst <$> best). split; [done|]. apply (best_ext _ _ C); [|done]. intros a. rewrite elem_of_nil. tauto. }
  apply Forall_cons in Hl as [[i Hi] Hl]. cbn [pick_intent]. unfold intent_of at 1, st_bind at 1. rewrite Hi.
  assert (Ext : forall r, best_of s len (fun b => (C b \/ b = a) \/ b ∈ l) r -> best_of s len (fun b => C b \/ b ∈ a :: l) r).
  { intros r. apply best_ext. intros b. rewrite elem_of_cons. tauto. }
  destruct ((len <=? it_size i) && negb (it_in_use i)) eqn:Ef.
  - assert (F : free_for s len a i) by (split; [done|]; destruct (it_in_use i); [lia|split; [lia|done]]).
    destruct (best_free s len C best a i Hb F Hs) as [B (k&Hk&Es)]. cbv zeta.
    set (best' := match best with None => (a, it_size i) | Some (b, size) => _ end) in *. destruct (best'.2 =? len) eqn:El.
    + exists (Some best'.1). split; [done|]. apply Ext. destruct B as (Hc&i'&Hi'&Hm). split; [by left|].
      exists i'. split; [done|]. intros b j _ (_&Hlen&_). destruct Hi' as [Hi' _]. assert (i' = k) as -> by congruence. lia.
    + destruct (IH (fun b => C b \/ b = a) (Some best') Hl B) as (r&E&Hr).
      * intros b n [= Hn]. rewrite Hn in Hk, Es. eauto.
      * exists r. split; [exact E|by apply Ext].
  - destruct (IH (fun b => C b \/ b = a) best Hl) as (r&E&Hr); [|done|].
    + apply best_skip; [done|]. intros j (Hj&Hle&Hu). assert (j = i) as -> by congruence. rewrite Hu in Ef. cbn in Ef. lia.
    + exists r. split; [exact E|by apply Ext].
Qed.

(** The intents of a channel are there. *)
Definition intents_there s (l : gmap Z Z) : Prop := forall id a, l !! id = Some a -> is_Some (gl_intents s !! a).

Definition take_state s (a : Z) (i : glink_core_rx_intent) : qcom_glink P :=
  gl_set_intents (<[a := it_set_in_use true i]> (gl_intents s)) s.

Lemma take_intent_exec s c k len : gl_channels s !! c = Some k -> intents_there s (ch_riids k) ->
  (exists id a i, ch_riids k !! id = Some a /\ free_for s len a i /\ take_intent c len s = Ok (Some a, take_state s a i) /\
     forall id' b j, ch_riids k !! id' = Some b -> free_for s len b j -> it_size i <= it_size j) \/
  (take_intent c len s = Ok (None, s) /\ forall id' b j, ch_riids k !! id' = Some b -> ~ free_for s len b j).
Proof.
  intros Hc Ht.
  assert (He : forall a, a ∈ snd <$> idr_entries (ch_riids k) <-> exists id, ch_riids k !! id = Some a).
  { intros a. rewrite list_elem_of_fmap. split.
    - intros ([id b]&->&Hx). exists id. by apply idr_entries_spec.
    - intros [id Hx]. exists (id, a). split; [done|]. by apply idr_entries_spec. }
  destruct (pick_exec s len (snd <$> idr_entries (ch_riids k)) (fun _ => False) None) as (r&E&Hr).
  - apply Forall_forall. intros a Ha. apply He in Ha as [id Hid]. by apply (Ht id).
  - by intros b j [].
  - done.
  - assert (Eo : take_intent c len s = match r with Some a => (upd_intent a (it_set_in_use true) ;;; st_ret (Some a)) s | None => Ok (None, s) end).
    { unfold take_intent, channel_of, st_bind at 1. rewrite Hc. rewrite (st_bind_ok _ _ _ _ _ E). by destruct r. }
    destruct r as [a|]; cbn in Hr.
    + left. destruct Hr as ([[]|Ha]&i&Hi&Hm). apply He in Ha as [id Hid]. exists id, a, i. split; [done|]. split; [done|]. split.
      * rewrite Eo. unfold upd_intent, intent_of, st_bind. destruct Hi as [Hi _]. by rewrite Hi.
      * intros id' b j Hb. apply Hm. right. apply He. eauto.
    + right. split; [done|]. intros id' b j Hb. apply Hr. right. apply He. eauto.
Qed.

(** ** Fragments on the wire *)
Definition sent_events (ms : list (list Z)) : list glink_event := concat (map (fun m => [Sent m; Kicked]) ms).
Definition sent_all (p' : P) (ms : list (list Z)) s : qcom_glink P :=
  gl_set_trace (gl_trace s ++ sent_events ms) (gl_set_pipe p' s).

Lemma sent_all_nil s : sent_all (gl_pipe s) [] s = s.
Proof. unfold sent_all. cbn. rewrite app_nil_r. by destruct s. Qed.
Lemma sent_all_app s p1 p2 ms1 ms2 : sent_all p2 ms2 (sent_all p1 ms1 s) = sent_all p2 (ms1 ++ ms2) s.
Proof. unfold sent_all, sent_events. cbn. by rewrite map_app, concat_app, app_assoc. Qed.

(** The call put the messages behind the queue and changed nothing else. *)
Definition transmits s (t : list Z) (ms : list (list Z)) (s' : qcom_glink P) : Prop :=
  exists p' q, s' = sent_all p' ms s /\ written_to s p' (t ++ q) /\ padded ms q.

Lemma transmits_nil s t : tx_queue s t -> transmits s t [] s.
Proof. intros T. exists (gl_pipe s), []. rewrite sent_all_nil, app_nil_r. repeat split; done || constructor || apply same_pipe_refl. Qed.

Lemma transmits_app s t ms1 ms2 s1 s2 q1 p1 : s1 = sent_all p1 ms1 s -> written_to s p1 (t ++ q1) -> padded ms1 q1 ->
  transmits s1 (t ++ q1) ms2 s2 -> transmits s t (ms1 ++ ms2) s2.
Proof.
  intros -> W1 P1 (p2&q2&->&W2&P2). exists p2, (q1 ++ q2). rewrite sent_all_app. split; [done|].
  split; [|by apply padded_app]. destruct W1 as [T1 R1 L1], W2 as [T2 R2 L2]. cbn in *. constructor.
  - by rewrite app_assoc.
  - intros q Q. by apply R2, R1.
  - by apply (same_pipe_trans _ p1).
Qed.

(** A message on its own. *)
Lemma tx_one s t hdr data wait : tx_queue s t -> gl_in_reset s = 0 -> (0 < w_rounds W)%nat ->
  Forall byte_ok hdr -> Forall byte_ok data ->
  Z.of_nat (length t) + padded_size (hdr ++ data) <= fifo_length s - 16 -> exists p' pad,
  qcom_glink_tx W hdr data wait s = Ok (0, sent_all p' [hdr ++ data] s) /\
  written_to s p' (t ++ (hdr ++ data) ++ pad) /\ padded [hdr ++ data] ((hdr ++ data) ++ pad).
Proof.
  intros T Hr Hw Hh Hd Hn. unfold padded_size in Hn. pose proof (padding_range (Z.of_nat (length (hdr ++ data)))).
  rewrite length_app, Nat2Z.inj_add in *.
  destruct (tx_exec W s t hdr data wait T Hr Hw Hh Hd) as (p'&pad&E&Wr&Hp); [lia|].
  exists p', pad. split; [exact E|]. split; [exact Wr|].
  pose proof (padded_cons (hdr ++ data) [] pad []) as X. rewrite app_nil_r in X. apply X; [|constructor].
  by rewrite length_app, Nat2Z.inj_add.
Qed.

#[local] Opaque SZ_8K.

Section to_channel.
Context (c : Z) (k : glink_channel) (iid : Z) (intent : option Z).

Lemma chunk_exec' s t cmd data left wait : gl_channels s !! c = Some k -> tx_queue s t -> gl_in_reset s = 0 -> (0 < w_rounds W)%nat ->
  Forall byte_ok data ->
  let m := data_hdr cmd (ch_lcid k) iid (Z.of_nat (length data)) left ++ data in
  Z.of_nat (length t) + padded_size m <= fifo_length s - 16 -> exists p' pad,
  glink_send_chunk W c cmd iid intent data left wait s = Ok (0, sent_all p' [m] s) /\
  written_to s p' (t ++ m ++ pad) /\ padded [m] (m ++ pad).
Proof.
  intros Hc T Hr Hw Hd m Hn. destruct (tx_one s t (data_hdr cmd (ch_lcid k) iid (Z.of_nat (length data)) left) data wait)
    as (p'&pad&E&Wr&Pd); [done..|apply data_hdr_range|done|exact Hn|]. fold m in E, Wr, Pd.
  exists p', pad. split; [|done]. unfold glink_send_chunk, channel_of, st_bind at 1. rewrite Hc.
  rewrite (st_bind_ok _ _ _ _ _ E). by destruct intent.
Qed.

Lemma more_exec wait : forall n data s t ret, (length data <= n)%nat -> gl_channels s !! c = Some k -> tx_queue s t ->
  gl_in_reset s = 0 -> (0 < w_rounds W)%nat -> Forall byte_ok data ->
  Z.of_nat (length t) + wire_size (more_fragments n (ch_lcid k) iid data) <= fifo_length s - 16 -> exists s',
  send_rest W n c iid intent data wait ret s = Ok (if decide (data = []) then ret else 0, s') /\
  transmits s t (more_fragments n (ch_lcid k) iid data) s'.
Proof.
  induction n as [|n IH]; intros data s t ret Hl Hc T Hr Hw Hd Hn; cbn [send_rest more_fragments].
  { exists s. destruct data; [|cbn in Hl; lia]. split; [done|by apply transmits_nil]. }
  destruct (decide (data = [])) as [->|Hne].
  { exists s. split; [done|by apply transmits_nil]. }
  cbn [more_fragments] in Hn. rewrite decide_False in Hn by done. cbv zeta in Hn |- *.
  assert (0 < length data)%nat by (destruct data; [done|cbn; lia]).
  bool_true (Z.of_nat (length data) >? 0). set (chunk := take (Z.to_nat SZ_8K) data) in *. set (rest := drop (Z.to_nat SZ_8K) data) in *.
  set (m := data_hdr _ _ _ _ _ ++ chunk) in *. change (wire_size (m :: ?x)) with (padded_size m + wire_size x) in Hn.
  pose proof (wire_size_pos (more_fragments n (ch_lcid k) iid rest)).
  destruct (chunk_exec' s t RPM_CMD_TX_DATA_CONT chunk (Z.of_nat (length rest)) wait Hc T Hr Hw) as (p'&pad&E&Wr&Pd);
    [by apply Forall_take|fold m; lia|]. fold m in E, Wr, Pd.
  rewrite (st_bind_ok _ _ _ _ _ E). cbn [negb Z.eqb andb].
  destruct (IH rest (sent_all p' [m] s) (t ++ m ++ pad) 0) as (s'&E'&T').
  - unfold rest. rewrite length_drop. pose proof chunk_pos. lia.
  - exact Hc.
  - apply Wr.
  - exact Hr.
  - exact Hw.
  - by apply Forall_drop.
  - pose proof (padded_length _ _ Pd) as Lp. change (wire_size [m]) with (padded_size m + 0) in Lp.
    change (fifo_length (sent_all p' [m] s)) with (pipe_tx_length p'). rewrite (wr_length _ _ _ Wr), length_app. lia.
  - exists s'. split; [by destruct (decide (rest = []))|].
    by apply (transmits_app s t [m] _ (sent_all p' [m] s) s' (m ++ pad) p').
Qed.

(** The whole message, with the intent chosen or without one. *)
Lemma fragments_exec wait data s t : gl_channels s !! c = Some k -> tx_queue s t -> gl_in_reset s = 0 ->
  (0 < w_rounds W)%nat -> Forall byte_ok data ->
  Z.of_nat (length t) + wire_size (fragments wait (ch_lcid k) iid data) <= fifo_length s - 16 ->
  let n := first_size wait data in let rest := drop n data in exists s',
  (let! ret := glink_send_chunk W c RPM_CMD_TX_DATA iid intent (take n data) (Z.of_nat (length rest)) wait in
   if negb (ret =? 0) && bool_decide (is_Some intent) then st_ret ret
   else send_rest W (length rest) c iid intent rest wait ret) s = Ok (0, s') /\
  transmits s t (fragments wait (ch_lcid k) iid data) s'.
Proof.
  intros Hc T Hr Hw Hd. unfold fragments. cbv zeta. set (n := first_size wait data). set (rest := drop n data).
  set (m := data_hdr _ _ _ _ _ ++ take n data). change (wire_size (m :: ?x)) with (padded_size m + wire_size x). intros Hn.
  pose proof (wire_size_pos (more_fragments (length rest) (ch_lcid k) iid rest)).
  destruct (chunk_exec' s t RPM_CMD_TX_DATA (take n data) (Z.of_nat (length rest)) wait Hc T Hr Hw) as (p'&pad&E&Wr&Pd);
    [by apply Forall_take|fold m; lia|]. fold m in E, Wr, Pd.
  rewrite (st_bind_ok _ _ _ _ _ E). cbn [negb Z.eqb andb].
  destruct (more_exec wait (length rest) rest (sent_all p' [m] s) (t ++ m ++ pad) 0) as (s'&E'&T');
    [done|exact Hc|apply Wr|exact Hr|exact Hw|by apply Forall_drop| |].
  - pose proof (padded_length _ _ Pd) as Lp. change (wire_size [m]) with (padded_size m + 0) in Lp.
    change (fifo_length (sent_all p' [m] s)) with (pipe_tx_length p'). rewrite (wr_length _ _ _ Wr), length_app. lia.
  - exists s'. split; [by destruct (decide (rest = []))|].
    by apply (transmits_app s t [m] _ (sent_all p' [m] s) s' (m ++ pad) p').
Qed.
End to_channel.

(** A message is sent with one fragment header for each 8192 bytes at most. *)
Definition wire_bound (len : Z) : Z := len + 23 + 16 * (len / SZ_8K).

Lemma padded_size_bound m : padded_size m <= Z.of_nat (length m) + 7.
Proof. unfold padded_size. pose proof (padding_range (Z.of_nat (length m))). lia. Qed.

Lemma more_bound lcid iid : forall n data, data <> [] ->
  wire_size (more_fragments n lcid iid data) <= Z.of_nat (length data) + 7 + 16 * ((Z.of_nat (length data) + SZ_8K - 1) / SZ_8K).
Proof.
  induction n as [|n IH]; intros data Hne.
  { cbn. pose proof (Z.div_pos (Z.of_nat (length data) + SZ_8K - 1) SZ_8K). #[local] Transparent SZ_8K. unfold SZ_8K in *. lia. }
  cbn [more_fragments]. rewrite decide_False by done. cbv zeta. set (chunk := take _ data). set (rest := drop _ data).
  set (m := data_hdr _ _ _ _ _ ++ chunk). change (wire_size (m :: ?x)) with (padded_size m + wire_size x).
  assert (Lm : Z.of_nat (length m) = 16 + Z.of_nat (length chunk)) by (unfold m; rewrite length_app, length_data_hdr; lia).
  assert (Hl : (0 < length data)%nat) by (destruct data; [done|cbn; lia]).
  assert (Lc : length chunk = (Z.to_nat SZ_8K `min` length data)%nat) by (unfold chunk; apply length_take).
  assert (Lr : length rest = (length data - Z.to_nat SZ_8K)%nat) by (unfold rest; apply length_drop).
  pose proof (padded_size_bound m). unfold SZ_8K in *. destruct (decide (rest = [])) as [E|E].
  - rewrite E in *. assert (wire_size (more_fragments n lcid iid []) = 0) as -> by by destruct n.
    pose proof (Z.div_pos (Z.of_nat (length data) - 1) 0x2000 ltac:(lia) ltac:(lia)).
    replace (Z.of_nat (length data) + 0x2000 - 1) with (Z.of_nat (length data) - 1 + 1 * 0x2000) by lia.
    rewrite Z.div_add by lia. lia.
  - assert (length rest <> 0)%nat by (by destruct rest). specialize (IH rest E).
    assert (Ep : padded_size m = Z.of_nat (length m)).
    { unfold padded_size, padding. rewrite Lm. replace (- (16 + Z.of_nat (length chunk))) with (-1026 * 8) by lia. rewrite Z.mod_mul by lia. lia. }
    assert (Ed : Z.of_nat (length data) + 0x2000 - 1 = Z.of_nat (length rest) + 0x2000 - 1 + 1 * 0x2000) by lia.
    rewrite Ed, Z.div_add by lia. lia.
Qed.

Lemma fragments_bound wait lcid iid data : wire_size (fragments wait lcid iid data) <= wire_bound (Z.of_nat (length data)).
Proof.
  unfold fragments, wire_bound. cbv zeta. set (n := first_size wait data). set (m := data_hdr _ _ _ _ _ ++ take n data).
  change (wire_size (m :: ?x)) with (padded_size m + wire_size x).
  assert (Lm : Z.of_nat (length m) = 16 + Z.of_nat (length (take n data))) by (unfold m; rewrite length_app, length_data_hdr; lia).
  pose proof (padded_size_bound m). rewrite length_take in Lm. pose proof (Z.div_pos (Z.of_nat (length data)) SZ_8K ltac:(lia) ltac:(done)).
  destruct (decide (drop n data = [])) as [E|E].
  - rewrite E. cbn [length more_fragments]. change (wire_size []) with 0. lia.
  - pose proof (more_bound lcid iid (length (drop n data)) (drop n data) E) as B. assert (length (drop n data) <> 0)%nat by (by destruct (drop n data)).
    assert (Ln : n = Z.to_nat SZ_8K) by (unfold n, first_size in *; case_if; [done|]; rewrite drop_all in E; done).
    rewrite length_drop in *. rewrite Ln in *. unfold SZ_8K in *.
    assert (Ep : padded_size m = Z.of_nat (length m)).
    { unfold padded_size, padding. rewrite Lm. replace (- (16 + Z.of_nat (Z.to_nat 0x2000 `min` length data))) with (-1026 * 8) by lia.
      rewrite Z.mod_mul by lia. lia. }
    pose proof (Z.div_mod (Z.of_nat (length data)) 0x2000 ltac:(lia)). pose proof (Z.mod_pos_bound (Z.of_nat (length data)) 0x2000 ltac:(lia)).
    assert ((Z.of_nat (length data - Z.to_nat 0x2000) + 0x2000 - 1) / 0x2000 <= Z.of_nat (length data) / 0x2000)
      by (apply Z.div_le_mono; lia).
    lia.
Qed.

(** ** The calls of the owner of a channel *)
Lemma wire_room s (t : list Z) wait lcid iid data : Z.of_nat (length t) + wire_bound (Z.of_nat (length data)) <= fifo_length s - 16 ->
  Z.of_nat (length t) + wire_size (fragments wait lcid iid data) <= fifo_length s - 16.
Proof. pose proof (fragments_bound wait lcid iid data). lia. Qed.

Lemma send_exec s t c k data wait : gl_channels s !! c = Some k -> tx_queue s t -> gl_in_reset s = 0 ->
  (0 < w_rounds W)%nat -> Forall byte_ok data -> gl_intentless s = false -> intents_there s (ch_riids k) ->
  Z.of_nat (length t) + wire_bound (Z.of_nat (length data)) <= fifo_length s - 16 ->
  (exists id a i, ch_riids k !! id = Some a /\ free_for s (Z.of_nat (length data)) a i) ->
  exists id a i s', ch_riids k !! id = Some a /\ free_for s (Z.of_nat (length data)) a i /\
  (forall id' b j, ch_riids k !! id' = Some b -> free_for s (Z.of_nat (length data)) b j -> it_size i <= it_size j) /\
  __qcom_glink_send W c data wait s = Ok (0, s') /\
  transmits (take_state s a i) t (fragments wait (ch_lcid k) (it_id i) data) s'.
Proof.
  intros Hc T Hr Hw Hd Hi Ht Hn (id0&a0&i0&Hid0&F0).
  destruct (take_intent_exec s c k (Z.of_nat (length data)) Hc Ht) as [(id&a&i&Hid&F&E&Hm)|[_ Hnone]].
  2: { by destruct (Hnone id0 a0 i0 Hid0). }
  destruct (fragments_exec c k (it_id i) (Some a) wait data (take_state s a i) t) as (s'&E'&T'); [done..| |].
  { change (fifo_length (take_state s a i)) with (fifo_length s). by apply wire_room. }
  exists id, a, i, s'. split; [done|]. split; [done|]. split; [done|]. split; [|exact T'].
  unfold __qcom_glink_send. rewrite st_bind_get, Hi, !st_bind_bind. destruct (w_rounds W) as [|r] eqn:Er; [lia|]. cbn [get_intent].
  rewrite st_bind_bind, (st_bind_ok _ _ _ _ _ E), !st_bind_ret. unfold intent_of. rewrite st_bind_bind.
  assert (El : gl_intents (take_state s a i) !! a = Some (it_set_in_use true i)) by (cbn; by rewrite lookup_insert_eq).
  unfold st_bind at 1. rewrite El, st_bind_ret. exact E'.
Qed.

Lemma send_intentless s t c k data wait : gl_channels s !! c = Some k -> tx_queue s t -> gl_in_reset s = 0 ->
  (0 < w_rounds W)%nat -> Forall byte_ok data -> gl_intentless s = true ->
  Z.of_nat (length t) + wire_bound (Z.of_nat (length data)) <= fifo_length s - 16 ->
  exists s', __qcom_glink_send W c data wait s = Ok (0, s') /\ transmits s t (fragments wait (ch_lcid k) 0 data) s'.
Proof.
  intros Hc T Hr Hw Hd Hi Hn.
  destruct (fragments_exec c k 0 None wait data s t Hc T Hr Hw Hd ltac:(by apply wire_room)) as (s'&E'&T').
  exists s'. split; [|exact T']. unfold __qcom_glink_send. rewrite st_bind_get, Hi, !st_bind_ret. exact E'.
Qed.
End send.
