(* ===== verification/GlinkRecv.v ===== *)
(** * Receiving a message (drivers/rpmsg/qcom_glink_native.c)

    The interrupt handler takes the fragments from the queue, gathers them in the intent they are
    sent into, and hands the message to the owner of the channel. *)
From S2P Require Import Prelude CMem KernelIdr GlinkPipe GlinkState Glink GlinkLink GlinkSend.
Open Scope c_scope.

(** The buffer of an intent starts with the bytes that came so far. *)
Record gathered (i : glink_core_rx_intent) (l : list Z) : Prop := {
  ga_base : m_base (it_data i) = 0;
  ga_size : m_size (it_data i) = it_size i;
  ga_limit : it_size i < 2 ^ 32;
  ga_offset : it_offset i = Z.of_nat (length l);
  ga_room : Z.of_nat (length l) <= it_size i;
  ga_bytes : bytes_at (it_data i) 0 (length l) = l;
}.

(** The same intent apart from its contents. *)
Record same_intent (i j : glink_core_rx_intent) : Prop := {
  si_id : it_id j = it_id i;
  si_size : it_size j = it_size i;
  si_reuse : it_reuse j = it_reuse i;
}.

Lemma same_refl i : same_intent i i.
Proof. done. Qed.
Lemma same_trans i j k : same_intent i j -> same_intent j k -> same_intent i k.
Proof. intros [? ? ?] [? ? ?]. constructor; congruence. Qed.

Definition add_bytes (l : list Z) (i : glink_core_rx_intent) : glink_core_rx_intent :=
  it_set_offset (u32 (it_offset i + Z.of_nat (length l))) (it_set_data (put_bytes (it_data i) (it_offset i) l) i).

Lemma gathered_add i l l' : gathered i l -> Forall byte_ok l' -> Z.of_nat (length l) + Z.of_nat (length l') <= it_size i ->
  gathered (add_bytes l' i) (l ++ l') /\ same_intent i (add_bytes l' i).
Proof.
  intros [G1 G2 G3 G4 G5 G6] Hl Hr. split; [|done].
  destruct (put_bytes_frame l' (it_data i) (it_offset i)) as [F1 F2]. constructor; cbn; rewrite ?F1, ?F2, ?length_app; try done.
  - rewrite G4, u32_id by lia. lia.
  - lia.
  - rewrite bytes_at_app, G4, Z.add_0_l. f_equal; [|by apply bytes_at_put].
    rewrite <-G6 at 3. apply bytes_at_agree. intros b Hb. apply get_put_bytes_out. lia.
Qed.

Section recv.
Context {P : Type} `{PipeLaws P} `{Idr} `{Termios}.
Context (W : @glink_world P).
Implicit Types (s : qcom_glink P).

(** ** The loop of the handler *)
Lemma intr_end n s : rx_queue s [] -> intr_loop W (S n) s = Ok (tt, s).
Proof. intros R. cbn [intr_loop]. by rewrite (st_bind_ok _ _ _ _ _ (avail_exec s [] R)). Qed.

Lemma intr_next n s cmd p1 p2 q : rx_queue s (glink_msg cmd p1 p2 ++ q) ->
  intr_loop W (S n) s =
    (let! ret := intr_msg W (8 + Z.of_nat (length q)) (u16 cmd) (u16 p1) (u32 p2) in
     if negb (ret =? 0) then st_ret tt else intr_loop W n) s.
Proof.
  intros R. pose proof (rx_has_ok _ _ R) as (_&_&Hl). rewrite length_app, length_msg in Hl. cbn [intr_loop].
  rewrite (st_bind_ok _ _ _ _ _ (avail_exec s _ R)). rewrite length_app, length_msg. cbv zeta.
  replace (u32 (Z.of_nat (8 + length q))) with (8 + Z.of_nat (length q)) by (rewrite u32_id; lia).
  unfold sizeof_msg. bool_false (8 + Z.of_nat (length q) <? 8).
  rewrite (st_bind_ok _ _ _ _ _ (peak_here s (glink_msg cmd p1 p2) q 0 8 R ltac:(lia) ltac:(lia) ltac:(rewrite length_msg; lia))).
  change (Z.to_nat 8) with 8%nat. change (Z.to_nat 0) with 0%nat. rewrite drop_0.
  rewrite take_ge by (rewrite length_msg; lia). pose proof (msg_cmd cmd p1 p2 []) as E1. pose proof (msg_param1 cmd p1 p2 []) as E2.
  pose proof (msg_param2 cmd p1 p2 []) as E3. rewrite app_nil_r in E1, E2, E3. rewrite E1, E2, E3. done.
Qed.

(** ** One fragment *)
Definition is_data (cmd : Z) : Prop := cmd = RPM_CMD_TX_DATA \/ cmd = RPM_CMD_TX_DATA_CONT.

Lemma intr_data avail cmd p1 p2 s : is_data cmd -> intr_msg W avail cmd p1 p2 s = qcom_glink_rx_data W avail s.
Proof. by intros [-> | ->]. Qed.

(** The receiver knows the channel and has the intent. *)
Record ready s (rcid iid c a : Z) (k : glink_channel) (i : glink_core_rx_intent) : Prop := {
  re_rcid : gl_rcids s !! rcid = Some c;
  re_channel : gl_channels s !! c = Some k;
  re_mode : gl_intentless s = false;
  re_liid : ch_liids k !! iid = Some a;
  re_intent : gl_intents s !! a = Some i;
}.

Definition set_intent (a : Z) (i : glink_core_rx_intent) s : qcom_glink P :=
  gl_set_intents (<[a := i]> (gl_intents s)) s.

Lemma ALIGN_padding n : 0 <= n < 2 ^ 32 -> ALIGN n 8 = n + padding n.
Proof.
  intros Hn. rewrite ALIGN_8 by lia. unfold padding. pose proof (Z.div_mod (n + 7) 8 ltac:(lia)).
  pose proof (Z.mod_pos_bound (n + 7) 8 ltac:(lia)).
  replace ((- n) mod 8) with (7 - (n + 7) mod 8); [lia|]. apply Z.mod_unique with (q := - ((n + 7) / 8)); lia.
Qed.

(** The bytes of a fragment go into the intent. *)
Lemma write_exec s a i l chunk : gl_intents s !! a = Some i -> gathered i l -> Forall byte_ok chunk ->
  Z.of_nat (length l) + Z.of_nat (length chunk) <= it_size i ->
  (intent_write a chunk ;;; upd_intent a (fun i => it_set_offset (u32 (it_offset i + Z.of_nat (length chunk))) i)) s =
    Ok (tt, set_intent a (add_bytes chunk i) s).
Proof.
  intros Ha [G1 G2 G3 G4 G5 _] Hc Hr. unfold intent_write, upd_intent, intent_of, st_lift, st_bind. rewrite Ha.
  rewrite store_bytes_ok by lia. cbn. rewrite Ha. cbn. rewrite lookup_insert_eq. cbn. unfold set_intent, add_bytes, st_upd.
  cbn. by rewrite insert_insert_eq.
Qed.

Lemma chunk_step s rcid iid c a k i l cmd chunk left pad rest :
  ready s rcid iid c a k i -> gathered i l -> is_data cmd -> 0 <= rcid < 2 ^ 16 -> 0 <= iid < 2 ^ 32 -> 0 <= left < 2 ^ 32 ->
  let m := data_hdr cmd rcid iid (Z.of_nat (length chunk)) left ++ chunk in
  rx_queue s (m ++ pad ++ rest) -> Z.of_nat (length pad) = padding (Z.of_nat (length m)) ->
  Z.of_nat (length l) + Z.of_nat (length chunk) <= it_size i ->
  qcom_glink_rx_data W (Z.of_nat (length (m ++ pad ++ rest))) s =
    (let! ret := (if left =? 0 then rx_deliver W c a else st_ret 0) in
     qcom_glink_rx_advance (Z.of_nat (length (m ++ pad))) ;;; st_ret ret) (set_intent a (add_bytes chunk i) s).
Proof.
  intros [R1 R2 R3 R4 R5] G Hcmd Hrc Hii Hle m R Hp Hroom. pose proof (rx_has_ok _ _ R) as (HF&_&Hlen).
  set (n := Z.of_nat (length chunk)) in *. assert (Lm : length m = (16 + length chunk)%nat) by (unfold m; by rewrite length_app, length_data_hdr).
  unfold qcom_glink_rx_data, sizeof_data_hdr. rewrite !length_app in *. bool_false (Z.of_nat (length m + (length pad + length rest)) <? 16).
  rewrite (st_bind_ok _ _ _ _ _ (peak_here s m _ 0 16 R ltac:(lia) ltac:(lia) ltac:(lia))).
  change (Z.to_nat 0) with 0%nat. change (Z.to_nat 16) with 16%nat. rewrite drop_0.
  assert (Ht : take 16 m = data_hdr cmd rcid iid n left) by (apply take_app_length'; by rewrite length_data_hdr).
  rewrite Ht. pose proof (data_hdr_chunk cmd rcid iid n left []) as E1. pose proof (data_hdr_left cmd rcid iid n left []) as E2.
  rewrite app_nil_r in E1, E2. rewrite (st_bind_ok _ _ _ _ _ (st_lift_ok _ _ s E1)), (st_bind_ok _ _ _ _ _ (st_lift_ok _ _ s E2)).
  rewrite !u32_id by (destruct G; lia). bool_false (Z.of_nat (length m + (length pad + length rest)) <? 16 + n).
  assert (E3 : field 2 (data_hdr cmd rcid iid n left) 2 = Ok rcid).
  { unfold data_hdr. rewrite msg_param1. by rewrite u16_id by lia. }
  assert (E4 : field 4 (data_hdr cmd rcid iid n left) 4 = Ok iid).
  { unfold data_hdr. rewrite msg_param2. by rewrite u32_id by lia. }
  rewrite (st_bind_ok _ _ _ _ _ (st_lift_ok _ _ s E3)), (st_bind_ok _ _ _ _ _ (st_lift_ok _ _ s E4)).
  unfold find_rcid. rewrite st_bind_get, R1. cbv zeta.
  assert (Ed : data_intent c iid n left s = Ok (inr (Some a), s)).
  { unfold data_intent, channel_of, st_bind, st_get. rewrite R2, R3. unfold st_ret. by rewrite R4. }
  rewrite (st_bind_ok _ _ _ _ _ Ed).
  assert (Ec : data_chunk W c a n left s = (if left =? 0 then rx_deliver W c a else st_ret 0) (set_intent a (add_bytes chunk i) s)).
  { unfold data_chunk. unfold intent_of at 1, st_bind at 1. rewrite R5. pose proof G as [G1 G2 G3 G4 G5 _].
    rewrite u64_id by lia. bool_false (it_size i - it_offset i <? n). unfold sizeof_data_hdr.
    rewrite (st_bind_ok _ _ _ _ _ (peak_here s m _ 16 n R ltac:(lia) ltac:(lia) ltac:(lia))).
    assert (Eb : take (Z.to_nat n) (drop (Z.to_nat 16) m) = chunk).
    { change (Z.to_nat 16) with 16%nat. unfold m. rewrite drop_app_length' by (by rewrite length_data_hdr). apply take_ge. lia. }
    rewrite Eb. rewrite <-st_bind_bind. erewrite st_bind_ok; [reflexivity|]. apply (write_exec s a i l); [done..| |done].
    rewrite Forall_app in HF. destruct HF as [HF _]. unfold m in HF. by apply Forall_app in HF as [_ HF]. }
  unfold st_bind at 1 3. rewrite Ec. rewrite ALIGN_padding by (destruct G; lia).
  assert (El : 16 + n + padding (16 + n) = Z.of_nat (length m + length pad)).
  { rewrite Nat2Z.inj_add, Hp, Lm. replace (Z.of_nat (16 + length chunk)) with (16 + n) by lia. done. }
  rewrite El. done.
Qed.

(** A fragment that is not the last one. *)
Lemma gather_step s rcid iid c a k i l cmd chunk left pad rest :
  ready s rcid iid c a k i -> gathered i l -> is_data cmd -> 0 <= rcid < 2 ^ 16 -> 0 <= iid < 2 ^ 32 -> 0 < left < 2 ^ 32 ->
  let m := data_hdr cmd rcid iid (Z.of_nat (length chunk)) left ++ chunk in
  rx_queue s (m ++ pad ++ rest) -> Z.of_nat (length pad) = padding (Z.of_nat (length m)) ->
  Z.of_nat (length l) + Z.of_nat (length chunk) <= it_size i -> exists p',
  qcom_glink_rx_data W (Z.of_nat (length (m ++ pad ++ rest))) s = Ok (0, gl_set_pipe p' (set_intent a (add_bytes chunk i) s)) /\
  taken s p' rest.
Proof.
  intros Rd G Hcmd Hrc Hii Hle m R Hp Hroom.
  pose proof (chunk_step s rcid iid c a k i l cmd chunk left pad rest Rd G Hcmd Hrc Hii ltac:(lia) R Hp Hroom) as E0.
  cbv zeta in E0. fold m in E0. rewrite E0.
  bool_false (left =? 0). rewrite st_bind_ret.
  destruct (advance_exec (set_intent a (add_bytes chunk i) s) (m ++ pad ++ rest) (Z.of_nat (length (m ++ pad))) R) as (p'&E&T).
  - rewrite !length_app. lia.
  - rewrite length_app, Nat2Z.inj_add, Hp. apply padded_size_units.
  - exists p'. rewrite (st_bind_ok _ _ _ _ _ E). split; [done|]. destruct T as [T1 T2 T3].
    rewrite Nat2Z.id, app_assoc, drop_app_length in T1. by constructor.
Qed.

(** ** The end of a message *)

(** The reply: the intent is done, and can be used again or not. *)
Definition done_msg (k : glink_channel) (i : glink_core_rx_intent) : list Z :=
  glink_msg (if it_reuse i then RPM_CMD_RX_DONE_W_REUSE else RPM_CMD_RX_DONE) (ch_lcid k) (it_id i).
Definition done_channel (k : glink_channel) (i : glink_core_rx_intent) : glink_channel :=
  let k := ch_set_buf None k in if it_reuse i then k else ch_set_liids (delete (it_id i) (ch_liids k)) k.
Definition done_intents (a : Z) (i : glink_core_rx_intent) (m : gmap Z glink_core_rx_intent) : gmap Z glink_core_rx_intent :=
  if it_reuse i then <[a := it_set_offset 0 i]> m else delete a m.

Definition delivered (c a : Z) (k : glink_channel) (i : glink_core_rx_intent) (data : list Z) (p' : P) (e : glink_call -> list Z) s : qcom_glink P :=
  gl_set_env e (gl_set_pipe p' (gl_set_trace (gl_trace s ++ [Deliver c data; Sent (done_msg k i); Kicked])
    (gl_set_channels (<[c := done_channel k i]> (gl_channels s)) (gl_set_intents (done_intents a i (gl_intents s)) s)))).

Lemma ask_exec s g : exists x e, glink_ask g s = Ok (x, gl_set_env e s).
Proof.
  unfold glink_ask. destruct (gl_env s g) as [|x l]; [|by eexists _, _]. exists 0, (gl_env s). do 2 f_equal. by destruct s.
Qed.

Lemma intent_bytes_exec s a i l : gl_intents s !! a = Some i -> gathered i l -> intent_bytes a s = Ok (l, s).
Proof.
  intros Ha [G1 G2 G3 G4 G5 G6]. unfold intent_bytes, intent_of, st_bind, st_lift, copy_out, in_range. rewrite Ha.
  rewrite G1, G2, G4. replace (_ && _) with true by lia. cbn. by rewrite Nat2Z.id, G6.
Qed.

(** [qcom_glink_rx_done] with room for the reply and nothing waiting. *)
Lemma rx_done_exec s c a k i t : gl_channels s !! c = Some k -> gl_intents s !! a = Some i -> gl_intentless s = false ->
  ch_done_intents k = [] -> tx_queue s t -> gl_in_reset s = 0 -> (0 < w_rounds W)%nat ->
  Z.of_nat (length t) + 8 <= fifo_length s - 16 -> exists p',
  qcom_glink_rx_done W c a s = Ok (tt,
    gl_set_pipe p' (gl_set_trace (gl_trace s ++ [Sent (done_msg k i); Kicked])
      (gl_set_channels (<[c := if it_reuse i then k else ch_set_liids (delete (it_id i) (ch_liids k)) k]> (gl_channels s))
        (gl_set_intents (if it_reuse i then gl_intents s else delete a (gl_intents s)) s)))) /\
  written_to s p' (t ++ done_msg k i).
Proof.
  intros Hc Ha Hm Hd T Hr Hw Hroom.
  set (k' := if it_reuse i then k else ch_set_liids (delete (it_id i) (ch_liids k)) k).
  set (s1 := gl_set_channels (<[c := k']> (gl_channels s)) s).
  destruct (tx_exec W s1 t (done_msg k i) [] false T Hr Hw) as (p'&pad&E&Wr&Hp).
  - apply msg_range.
  - done.
  - unfold done_msg. rewrite length_msg. change (fifo_length s1) with (fifo_length s). cbn. lia.
  - rewrite app_nil_r in E, Wr. unfold done_msg in Hp at 1. rewrite length_msg in Hp.
    change (padding _) with 0 in Hp. destruct pad; [|cbn in Hp; lia]. rewrite app_nil_r in Wr. exists p'. split; [|destruct Wr as [? ? ?]; by constructor].
    unfold qcom_glink_rx_done. rewrite st_bind_get, Hm. unfold intent_of at 1, st_bind at 1. rewrite Ha.
    assert (E1 : (if negb (it_reuse i) then let! k := channel_of c in upd_channel c (ch_set_liids (delete (it_id i) (ch_liids k)))
      else st_ret tt) s = Ok (tt, s1)).
    { unfold s1, k'. destruct (it_reuse i); cbn [negb].
      - rewrite insert_id by done. by destruct s.
      - unfold channel_of, upd_channel, st_bind, st_upd. unfold channel_of. by rewrite !Hc. }
    rewrite (st_bind_ok _ _ _ _ _ E1). unfold channel_of at 1, st_bind at 1. replace (gl_channels s1 !! c) with (Some k') by (cbn; by rewrite lookup_insert_eq).
    rewrite decide_True by (unfold k'; by destruct (it_reuse i)).
    assert (E2 : __qcom_glink_rx_done W c a false s1 = Ok (0, (if it_reuse i then id else gl_set_intents (delete a (gl_intents s))) (sent p' (done_msg k i) s1))).
    { unfold __qcom_glink_rx_done, channel_of, intent_of, st_bind. replace (gl_channels s1 !! c) with (Some k') by (cbn; by rewrite lookup_insert_eq).
      replace (gl_intents s1 !! a) with (Some i) by done. replace (ch_lcid k') with (ch_lcid k) by (unfold k'; by destruct (it_reuse i)).
      unfold done_msg in E. rewrite E. cbn. unfold free_intent, intent_of, st_upd, st_ret, st_bind. destruct (it_reuse i); [done|]. cbn. by rewrite Ha. }
    rewrite (st_bind_ok _ _ _ _ _ E2). cbn. unfold st_ret. do 2 f_equal. unfold k', sent, s1, id. by destruct (it_reuse i), s.
Qed.

Lemma deliver_exec s c a k i data t : gl_channels s !! c = Some k -> ch_cb k = true -> gl_intents s !! a = Some i ->
  gathered i data -> gl_intentless s = false ->
  ch_done_intents k = [] -> tx_queue s t -> gl_in_reset s = 0 -> (0 < w_rounds W)%nat ->
  Z.of_nat (length t) + 8 <= fifo_length s - 16 -> exists ret p' e,
  rx_deliver W c a s = Ok (ret, delivered c a k i data p' e s) /\ written_to s p' (t ++ done_msg k i).
Proof.
  intros Hc Hcb Ha G Hm Hd T Hr Hw Hroom. unfold rx_deliver. unfold channel_of at 1, st_bind at 1. rewrite Hc, Hcb.
  rewrite !st_bind_bind, (st_bind_ok _ _ _ _ _ (intent_bytes_exec s a i data Ha G)).
  unfold glink_log. rewrite st_bind_bind, st_bind_upd, st_bind_bind.
  destruct (ask_exec (gl_set_trace (gl_trace s ++ [Deliver c data]) s) GCallback) as (x&e&E). rewrite (st_bind_ok _ _ _ _ _ E), st_bind_ret.
  set (ret := if (x <? 0) && negb (x =? - ENODEV) then 0 else x).
  set (s1 := gl_set_channels (<[c := ch_set_buf None k]> (gl_channels s)) (gl_set_intents (<[a := it_set_offset 0 i]> (gl_intents s))
    (gl_set_env e (gl_set_trace (gl_trace s ++ [Deliver c data]) s)))).
  assert (E1 : (upd_intent a (it_set_offset 0) ;;; upd_channel c (ch_set_buf None)) (gl_set_env e (gl_set_trace (gl_trace s ++ [Deliver c data]) s)) = Ok (tt, s1)).
  { unfold upd_intent, upd_channel, intent_of, channel_of, st_bind, st_upd. cbn. rewrite Ha. cbn. by rewrite Hc. }
  rewrite <-st_bind_bind, (st_bind_ok _ _ _ _ _ E1).
  destruct (rx_done_exec s1 c a (ch_set_buf None k) (it_set_offset 0 i) t) as (p'&E2&Wr);
    [by cbn; rewrite lookup_insert_eq|by cbn; rewrite lookup_insert_eq|done..|].
  exists ret, p', e. rewrite (st_bind_ok _ _ _ _ _ E2). split; [|destruct Wr as [? ? ?]; by constructor].
  unfold st_ret. do 2 f_equal. unfold delivered, s1, done_channel, done_intents, done_msg. cbn. rewrite <-!app_assoc.
  destruct (it_reuse i); cbn; rewrite insert_insert_eq, ?delete_insert_eq; done.
Qed.

(** ** The whole message *)

(** The receiver can take a message of [n] more bytes and answer. *)
Record can_take s (c a : Z) (k : glink_channel) (i : glink_core_rx_intent) (t : list Z) : Prop := {
  ct_cb : ch_cb k = true;
  ct_done : ch_done_intents k = [];
  ct_tx : tx_queue s t;
  ct_reset : gl_in_reset s = 0;
  ct_rounds : (0 < w_rounds W)%nat;
  ct_room : Z.of_nat (length t) + 8 <= fifo_length s - 16;
}.

(** The link after the message. *)
Definition received (c a : Z) (k : glink_channel) (i : glink_core_rx_intent) (data t : list Z) s s' : Prop :=
  exists j p' e, s' = delivered c a k j data p' e s /\ same_intent i j /\ gathered j data /\
    rx_has p' [] /\ tx_has p' (t ++ done_msg k i) /\ same_pipe (gl_pipe s) p'.

Lemma last_step s rcid iid c a k i l t cmd chunk pad : ready s rcid iid c a k i -> gathered i l -> is_data cmd ->
  0 <= rcid < 2 ^ 16 -> 0 <= iid < 2 ^ 32 -> can_take s c a k i t ->
  let m := data_hdr cmd rcid iid (Z.of_nat (length chunk)) 0 ++ chunk in
  rx_queue s (m ++ pad ++ []) -> Z.of_nat (length pad) = padding (Z.of_nat (length m)) ->
  Z.of_nat (length l) + Z.of_nat (length chunk) <= it_size i -> exists ret s',
  qcom_glink_rx_data W (Z.of_nat (length (m ++ pad ++ []))) s = Ok (ret, s') /\ received c a k i (l ++ chunk) t s s'.
Proof.
  intros Rd G Hcmd Hrc Hii [Hcb Hd T Hr Hw Hroom] m R Hp Hl.
  pose proof (chunk_step s rcid iid c a k i l cmd chunk 0 pad [] Rd G Hcmd Hrc Hii ltac:(lia) R Hp Hl) as E0.
  cbv zeta in E0. fold m in E0. rewrite E0. cbn [Z.eqb].
  set (j := add_bytes chunk i) in *. set (s1 := set_intent a j s) in *.
  assert (HF : Forall byte_ok chunk).
  { destruct (rx_has_ok _ _ R) as [HF _]. unfold m in HF. rewrite !Forall_app in HF. apply HF. }
  destruct (gathered_add i l chunk G HF Hl) as [Gj Sj]. fold j in Gj, Sj.
  destruct (deliver_exec s1 c a k j (l ++ chunk) t) as (ret&p0&e&E&Wr); [apply Rd|done|apply lookup_insert_eq|done|apply Rd|done..|].
  rewrite (st_bind_ok _ _ _ _ _ E).
  destruct (advance_exec (delivered c a k j (l ++ chunk) p0 e s1) (m ++ pad ++ []) (Z.of_nat (length (m ++ pad)))) as (p'&E2&T2).
  - by apply Wr.
  - rewrite !length_app. cbn. lia.
  - rewrite length_app, Nat2Z.inj_add, Hp. apply padded_size_units.
  - rewrite (st_bind_ok _ _ _ _ _ E2). exists ret. eexists. split; [reflexivity|]. exists j, p', e. split.
    + unfold delivered, done_intents, s1, set_intent. cbn. destruct (it_reuse i); by rewrite ?insert_insert_eq, ?delete_insert_eq.
    + destruct T2 as [T2 T3 T4]. rewrite Nat2Z.id, app_nil_r, drop_all in T2. split; [done|]. split; [done|]. split; [done|]. split.
      * apply T3. replace (done_msg k i) with (done_msg k j) by done. apply Wr.
      * apply (same_pipe_trans _ p0); [apply Wr|exact T4].
Qed.

Lemma last_fragment r s rcid iid c a k i l t cmd chunk q : ready s rcid iid c a k i -> gathered i l -> is_data cmd ->
  0 <= rcid < 2 ^ 16 -> 0 <= iid < 2 ^ 32 -> can_take s c a k i t -> (1 < r)%nat ->
  let m := data_hdr cmd rcid iid (Z.of_nat (length chunk)) 0 ++ chunk in
  padded [m] q -> rx_queue s q -> Z.of_nat (length l) + Z.of_nat (length chunk) <= it_size i -> exists s',
  intr_loop W r s = Ok (tt, s') /\ received c a k i (l ++ chunk) t s s'.
Proof.
  intros Rd G Hcmd Hrc Hii C Hrn m Pd R Hl. destruct (padded_inv _ _ _ Pd) as (pad&q0&->&Hp&Pn). inversion Pn; subst.
  destruct (last_step s rcid iid c a k i l t cmd chunk pad Rd G Hcmd Hrc Hii C R Hp Hl) as (ret&s'&E&Rc).
  fold m in E. exists s'. split; [|exact Rc]. destruct r as [|[|r]]; [lia..|].
  assert (Em : m ++ pad ++ [] = glink_msg cmd rcid iid ++ drop 8 (m ++ pad ++ [])).
  { unfold m, data_hdr. rewrite <-!app_assoc. by rewrite drop_app_length' by (by rewrite length_msg). }
  pose proof R as R'. rewrite Em in R'. rewrite (intr_next _ _ _ _ _ _ R').
  assert (El : 8 + Z.of_nat (length (drop 8 (m ++ pad ++ []))) = Z.of_nat (length (m ++ pad ++ []))).
  { rewrite Em at 2. rewrite length_app, length_msg. lia. }
  rewrite El, u16_id by (destruct Hcmd as [-> | ->]; unfold RPM_CMD_TX_DATA, RPM_CMD_TX_DATA_CONT; lia). unfold st_bind. rewrite intr_data, E by done.
  destruct (negb (ret =? 0)); [done|]. apply intr_end. destruct Rc as (j&p'&e&->&_&_&Rx&_). exact Rx.
Qed.

Lemma received_gather c a k i j data t s p' s' : same_intent i j -> same_pipe (gl_pipe s) p' ->
  received c a k j data t (gl_set_pipe p' (set_intent a j s)) s' -> received c a k i data t s s'.
Proof.
  intros S L (j'&p2&e&->&S'&G&R&T&L'). exists j', p2, e. split.
  - unfold delivered, done_intents, set_intent. cbn. destruct (it_reuse j'); by rewrite ?insert_insert_eq, ?delete_insert_eq.
  - split; [by apply (same_trans _ j)|]. split; [done|]. split; [done|]. split; [|by apply (same_pipe_trans _ p')].
    replace (done_msg k i) with (done_msg k j); [done|]. unfold done_msg. destruct S as [-> _ ->]. done.
Qed.

(** The receiver has [l] of a message, [data] is on the way. *)
Record receiving s (rcid iid c a : Z) (k : glink_channel) (i : glink_core_rx_intent) (l data t : list Z) : Prop := {
  rg_ready : ready s rcid iid c a k i;
  rg_gathered : gathered i l;
  rg_take : can_take s c a k i t;
  rg_fits : Z.of_nat (length l) + Z.of_nat (length data) <= it_size i;
}.

Definition recv_all rcid iid c a k t (ms : list (list Z)) (data : list Z) : Prop := forall r s i l q,
  receiving s rcid iid c a k i l data t -> padded ms q -> rx_queue s q -> (length ms < r)%nat ->
  exists s', intr_loop W r s = Ok (tt, s') /\ received c a k i (l ++ data) t s s'.

(** A fragment and the ones behind it. *)
Lemma recv_first rcid iid c a k t cmd n ms data : 0 <= rcid < 2 ^ 16 -> 0 <= iid < 2 ^ 32 -> is_data cmd ->
  (drop n data = [] -> ms = []) -> (drop n data <> [] -> recv_all rcid iid c a k t ms (drop n data)) ->
  recv_all rcid iid c a k t
    ((data_hdr cmd rcid iid (Z.of_nat (length (take n data))) (Z.of_nat (length (drop n data))) ++ take n data) :: ms) data.
Proof.
  intros Hrc Hii Hcmd Hlast Hmore r s i l q [Rd G C Hf] Pd R Hr. set (chunk := take n data) in *. set (rest := drop n data) in *.
  assert (Ed : data = chunk ++ rest) by (symmetry; apply take_drop). pose proof Hf as Hf'. rewrite Ed, length_app in Hf'.
  destruct (decide (rest = [])) as [E|E].
  { rewrite (Hlast E) in Pd, Hr. rewrite E in *. rewrite app_nil_r in Ed. rewrite Ed.
    apply (last_fragment r s rcid iid c a k i l t cmd chunk q); (done || cbn in *; lia). }
  specialize (Hmore E). set (m := data_hdr _ _ _ _ _ ++ chunk) in *. destruct (padded_inv _ _ _ Pd) as (pad&q0&->&Hp&Pn).
  assert (0 < length rest)%nat by (by destruct rest; [|cbn; lia]).
  destruct (gather_step s rcid iid c a k i l cmd chunk (Z.of_nat (length rest)) pad q0 Rd G Hcmd Hrc Hii) as (p'&E1&T1);
    [destruct G; lia|done|done|lia|]. fold m in E1, T1. set (j := add_bytes chunk i) in *.
  assert (HF : Forall byte_ok chunk).
  { destruct (rx_has_ok _ _ R) as [HF _]. unfold m in HF. rewrite !Forall_app in HF. apply HF. }
  destruct (gathered_add i l chunk G HF ltac:(lia)) as [Gj Sj]. fold j in Gj, Sj.
  destruct r as [|r]; [lia|]. destruct (Hmore r (gl_set_pipe p' (set_intent a j s)) j (l ++ chunk) q0) as (s'&E2&Rc).
  - constructor; [|done| |destruct Sj as [_ -> _]; rewrite length_app; lia].
    + destruct Rd as [? ? ? ? ?]. constructor; [done..|apply lookup_insert_eq].
    + destruct C as [? ? ? ? ? ?]. constructor; try done; [by apply T1|]. change (fifo_length _) with (pipe_tx_length p').
      by rewrite (tk_length _ _ _ T1).
  - done.
  - apply T1.
  - cbn in Hr. lia.
  - exists s'. split; [|rewrite Ed, app_assoc; apply (received_gather c a k i j _ t s p' s' Sj (tk_same _ _ _ T1) Rc)].
    assert (Em : m ++ pad ++ q0 = glink_msg cmd rcid iid ++ drop 8 (m ++ pad ++ q0)).
    { unfold m, data_hdr. rewrite <-!app_assoc. by rewrite drop_app_length' by (by rewrite length_msg). }
    pose proof R as R'. rewrite Em in R'. rewrite (intr_next _ _ _ _ _ _ R').
    assert (El : 8 + Z.of_nat (length (drop 8 (m ++ pad ++ q0))) = Z.of_nat (length (m ++ pad ++ q0))).
    { rewrite Em at 2. rewrite length_app, length_msg. lia. }
    rewrite El, u16_id by (destruct Hcmd as [-> | ->]; unfold RPM_CMD_TX_DATA, RPM_CMD_TX_DATA_CONT; lia).
    unfold st_bind. rewrite intr_data, E1 by done. exact E2.
Qed.

Lemma recv_more rcid iid c a k t : 0 <= rcid < 2 ^ 16 -> 0 <= iid < 2 ^ 32 -> forall n data, (length data <= n)%nat -> data <> [] ->
  recv_all rcid iid c a k t (more_fragments n rcid iid data) data.
Proof.
  intros Hrc Hii. induction n as [|n IH]; intros data Hl Hne; [by destruct data; [|cbn in Hl; lia]|].
  cbn [more_fragments]. rewrite decide_False by done. apply recv_first; [done|done|by right|..].
  - intros E. rewrite E. by destruct n.
  - apply IH. rewrite length_drop. pose proof chunk_pos. destruct data; [done|cbn [length] in *; lia].
Qed.

(** All fragments of a message. *)
Lemma recv_message rcid iid c a k t wait data : 0 <= rcid < 2 ^ 16 -> 0 <= iid < 2 ^ 32 ->
  recv_all rcid iid c a k t (fragments wait rcid iid data) data.
Proof.
  intros Hrc Hii. unfold fragments. apply recv_first; [done|done|by left|..].
  - intros E. rewrite E. done.
  - intros E. by apply recv_more.
Qed.
End recv.
