(* ===== verification/GlinkExchange.v ===== *)
(** * A message between two processors

    Two links whose pipes are the two rings of one shared memory: a message that is sent arrives
    with its bytes, and the intent it was sent into comes back or goes. *)
From S2P Require Import Prelude CMem KernelIdr Smem SmemHeap SmemApi SmemService GlinkPipe GlinkQueue GlinkState.
From S2P Require Import Glink GlinkLink GlinkSend GlinkRecv.
Open Scope c_scope.

Section done.
Context {P : Type} `{PipeLaws P} `{Idr} `{Termios}.
Context (W : @glink_world P).
Implicit Types (s : qcom_glink P).

(** The intent of a finished message on the side that sent it. *)
Definition returned (c a : Z) (k : glink_channel) (i : glink_core_rx_intent) (reuse : bool) (p' : P) s : qcom_glink P :=
  gl_set_pipe p' (if reuse then set_intent a (it_set_in_use false i) s
    else gl_set_channels (<[c := ch_set_riids (delete (it_id i) (ch_riids k)) k]> (gl_channels s))
      (gl_set_intents (delete a (gl_intents s)) s)).

(** The message that gives an intent back. *)
Lemma done_exec r s cid c a k i (reuse : bool) : (1 < r)%nat ->
  gl_rcids s !! cid = Some c -> gl_channels s !! c = Some k -> ch_riids k !! it_id i = Some a -> gl_intents s !! a = Some i ->
  0 <= cid < 2 ^ 16 -> 0 <= it_id i < 2 ^ 32 ->
  rx_queue s (glink_msg (if reuse then RPM_CMD_RX_DONE_W_REUSE else RPM_CMD_RX_DONE) cid (it_id i)) ->
  exists p', intr_loop W r s = Ok (tt, returned c a k i reuse p' s) /\ taken s p' [].
Proof.
  intros Hr Hc Hk Hid Ha Hcid Hiid R. set (cmd := if reuse then _ else _) in *. set (m := glink_msg cmd cid (it_id i)) in *.
  set (s1 := if reuse then set_intent a (it_set_in_use false i) s
    else gl_set_channels (<[c := ch_set_riids (delete (it_id i) (ch_riids k)) k]> (gl_channels s)) (gl_set_intents (delete a (gl_intents s)) s)).
  assert (Ep : gl_pipe s1 = gl_pipe s) by by unfold s1; destruct reuse.
  assert (R1 : rx_queue s1 m) by (unfold rx_queue; by rewrite Ep).
  destruct (advance_exec s1 m 8 R1) as (p'&E1&[T1 T2 T3]); [unfold m; rewrite length_msg; lia|by exists 1|].
  unfold m in T1. rewrite drop_ge in T1 by (by rewrite length_msg). unfold tx_queue in T2. rewrite Ep in T2, T3.
  exists p'. split; [|by constructor]. destruct r as [|[|r]]; [lia..|]. pose proof R as R'. unfold m in R'. rewrite <-(app_nil_r (glink_msg _ _ _)) in R'.
  rewrite (intr_next W _ _ _ _ _ _ R'). rewrite (u16_id cid), (u32_id (it_id i)) by lia. cbn [length].
  assert (Eh : qcom_glink_handle_rx_done cid (it_id i) reuse s = Ok (tt, s1)).
  { unfold qcom_glink_handle_rx_done, find_rcid. rewrite st_bind_get, Hc. unfold channel_of at 1, st_bind at 1. rewrite Hk, Hid.
    unfold upd_intent, intent_of, upd_channel, channel_of, free_intent, st_bind, st_upd. rewrite Ha. unfold s1. destruct reuse; [done|].
    cbn. rewrite lookup_insert_eq. cbn. rewrite Hk. unfold intent_of. cbn. rewrite lookup_insert_eq. cbn. by rewrite delete_insert_eq. }
  assert (Em : intr_msg W (8 + Z.of_nat 0) (u16 cmd) cid (it_id i) s = Ok (0, gl_set_pipe p' s1)).
  { transitivity ((qcom_glink_handle_rx_done cid (it_id i) reuse ;;; qcom_glink_rx_advance 8 ;;; st_ret 0) s).
    - unfold cmd. by destruct reuse.
    - by rewrite (st_bind_ok _ _ _ _ _ Eh), (st_bind_ok _ _ _ _ _ E1). }
  unfold st_bind. rewrite Em. cbn [negb Z.eqb]. rewrite intr_end; [|exact T1]. unfold returned. by destruct reuse.
Qed.
End done.

(** ** Two sides of an edge *)
Section exchange.
Context (smem : qcom_smem) (hwlock_rc : Z).
#[local] Instance edge_pipe : GlinkPipe smem_pipes := smem_pipe smem hwlock_rc.
#[local] Instance edge_laws : PipeLaws smem_pipes := smem_pipe_laws smem hwlock_rc.
Context `{Idr} `{Termios}.
Abbreviation side := (qcom_glink smem_pipes).
Context (WA WB : @glink_world smem_pipes).

(** The shared memory as [s'] left it. *)
Definition see (s' s : side) : side :=
  gl_set_pipe (SmemPipes (ps_mem (gl_pipe s')) (ps_rx (gl_pipe s)) (ps_tx (gl_pipe s))) s.

(** The two sides of an edge, nothing on the way. *)
Record idle_edge (sA sB : side) : Prop := {
  ie_sides : gl_pipe sB = other_side (gl_pipe sA) (ps_mem (gl_pipe sA));
  ie_tx : smem_tx_has (gl_pipe sA) [];
  ie_rx : smem_rx_has (gl_pipe sA) [];
  ie_reset : gl_in_reset sA = 0 /\ gl_in_reset sB = 0;
  ie_mode : gl_intentless sA = false /\ gl_intentless sB = false;
}.

(** A channel of both sides: [sA] holds the intents that [sB] offers. *)
Record paired (sA : side) (cA : Z) (kA : glink_channel) (sB : side) (cB : Z) (kB : glink_channel) : Prop := {
  pa_local : gl_channels sA !! cA = Some kA /\ gl_channels sB !! cB = Some kB;
  pa_remote : gl_rcids sB !! ch_lcid kA = Some cB /\ gl_rcids sA !! ch_lcid kB = Some cA;
  pa_cids : 0 <= ch_lcid kA < 2 ^ 16 /\ 0 <= ch_lcid kB < 2 ^ 16;
  pa_ready : ch_cb kB = true /\ ch_done_intents kB = [];
  pa_intents id a : ch_riids kA !! id = Some a -> 0 <= id < 2 ^ 32 /\ exists i b j,
    gl_intents sA !! a = Some i /\ it_id i = id /\
    ch_liids kB !! id = Some b /\ gl_intents sB !! b = Some j /\ it_id j = id /\ it_size j = it_size i /\ gathered j [];
  pa_apart id id' a : ch_riids kA !! id = Some a -> ch_riids kA !! id' = Some a -> id = id';
  pa_apart' id id' b : ch_liids kB !! id = Some b -> ch_liids kB !! id' = Some b -> id = id';
}.

(** The handler notes that the device was woken up, and runs the loop. *)
Definition woken (s : side) : side := if (gl_wake s).1 then gl_set_wake ((gl_wake s).1, true) s else s.
Lemma intr_woken W s : qcom_glink_native_intr W s = intr_loop W (w_rounds W) (woken s).
Proof. reflexivity. Qed.

Lemma paired_there sA cA kA sB cB kB : paired sA cA kA sB cB kB -> intents_there sA (ch_riids kA).
Proof. intros Pa id a Hid. destruct (pa_intents _ _ _ _ _ _ Pa id a Hid) as (_&i&_&_&Hi&_). by eexists. Qed.


(** The channel and the intents of the sender after the exchange. *)
Definition sender_channel (k : glink_channel) (id : Z) (reuse : bool) : glink_channel :=
  if reuse then k else ch_set_riids (delete id (ch_riids k)) k.
Definition sender_intents (a : Z) (reuse : bool) (m : gmap Z glink_core_rx_intent) : gmap Z glink_core_rx_intent :=
  if reuse then m else delete a m.

Lemma paired_after sA cA kA sB cB kB id a i b j j' data sA' sB' :
  paired sA cA kA sB cB kB -> ch_riids kA !! id = Some a -> gl_intents sA !! a = Some i -> it_id i = id ->
  ch_liids kB !! id = Some b -> gl_intents sB !! b = Some j -> it_id j = id -> it_size j = it_size i ->
  same_intent j j' -> gathered j' data ->
  gl_channels sA' = <[cA := sender_channel kA id (it_reuse j)]> (gl_channels sA) ->
  gl_intents sA' = sender_intents a (it_reuse j) (gl_intents sA) -> gl_rcids sA' = gl_rcids sA ->
  gl_channels sB' = <[cB := done_channel kB j']> (gl_channels sB) ->
  gl_intents sB' = done_intents b j' (gl_intents sB) -> gl_rcids sB' = gl_rcids sB ->
  paired sA' cA (sender_channel kA id (it_reuse j)) sB' cB (done_channel kB j').
Proof.
  intros [P1 P2 P3 P4 P5 P6 P7] Ha Hi Hii Hb Hj Hjj Hjs [S1 S2 S3] G EA1 EA2 EA3 EB1 EB2 EB3.
  assert (L1 : ch_lcid (sender_channel kA id (it_reuse j)) = ch_lcid kA) by by unfold sender_channel; destruct (it_reuse j).
  assert (L2 : ch_lcid (done_channel kB j') = ch_lcid kB) by by unfold done_channel; cbv zeta; destruct (it_reuse j').
  constructor; rewrite ?EA1, ?EA2, ?EA3, ?EB1, ?EB2, ?EB3, ?L1, ?L2; try done.
  - by rewrite !lookup_insert_eq.
  - unfold done_channel. cbv zeta. by destruct (it_reuse j').
  - unfold sender_channel, sender_intents, done_channel, done_intents. cbv zeta. rewrite S3. destruct (it_reuse j); cbn.
    + intros id' a' Ha'. destruct (P5 id' a' Ha') as (Hr&i0&b0&j0&Hi0&Hid0&Hb0&Hj0&Hjd&Hjs0&G0). split; [done|].
      destruct (decide (b0 = b)) as [->|Hne].
      * assert (id' = id) as -> by by apply (P7 id' id b). assert (j0 = j) as -> by congruence.
        exists i0, b, (it_set_offset 0 j'). rewrite lookup_insert_eq. split; [done|]. split; [done|]. split; [done|]. split; [done|].
        cbn. split; [congruence|]. split; [congruence|]. destruct G as [G1 G2 G3 G4 G5 G6]. constructor; cbn; try done. lia.
      * exists i0, b0, j0. by rewrite lookup_insert_ne by done.
    + intros id' a' Ha'. apply lookup_delete_Some in Ha' as [Hne Ha'].
      destruct (P5 id' a' Ha') as (Hr&i0&b0&j0&Hi0&Hid0&Hb0&Hj0&Hjd&Hjs0&G0). split; [done|]. exists i0, b0, j0.
      rewrite S1, Hjj. rewrite !lookup_delete_ne; [done|..].
      * intros ->. apply Hne. by apply (P7 id id' b0).
      * done.
      * intros ->. apply Hne. by apply (P6 id id' a').
  - unfold sender_channel. destruct (it_reuse j); [done|]. cbn. intros id1 id2 a' H1' H2'.
    apply lookup_delete_Some in H1' as [_ H1'], H2' as [_ H2']. by apply (P6 id1 id2 a').
  - unfold done_channel. cbv zeta. destruct (it_reuse j'); [done|]. cbn. intros id1 id2 b' H1' H2'.
    apply lookup_delete_Some in H1' as [_ H1'], H2' as [_ H2']. by apply (P7 id1 id2 b').
Qed.

Lemma see_pipe s' s : same_ends (other_side (gl_pipe s') (ps_mem (gl_pipe s'))) (gl_pipe s) ->
  gl_pipe (see s' s) = other_side (gl_pipe s') (ps_mem (gl_pipe s')).
Proof. intros [E1 E2]. unfold see, other_side. cbn in *. by rewrite E1, E2. Qed.

Lemma woken_same s : gl_pipe (woken s) = gl_pipe s /\ gl_channels (woken s) = gl_channels s /\ gl_intents (woken s) = gl_intents s /\
  gl_rcids (woken s) = gl_rcids s /\ gl_trace (woken s) = gl_trace s /\ gl_in_reset (woken s) = gl_in_reset s /\
  gl_intentless (woken s) = gl_intentless s.
Proof. unfold woken. by destruct (gl_wake s).1. Qed.

(** The receiving side: the whole message is taken. *)
Lemma exchange_recv sA sB p1 q cA kA cB kB id a data wait :
  idle_edge sA sB -> paired sA cA kA sB cB kB -> ch_riids kA !! id = Some a ->
  same_ends (gl_pipe sA) p1 -> smem_tx_has p1 q -> smem_rx_has p1 [] ->
  padded (fragments wait (ch_lcid kA) id data) q -> sp_length (ps_rx (gl_pipe sA)) <= 8 * Z.of_nat (w_rounds WB) ->
  sp_length (ps_tx (gl_pipe sA)) <= 8 * Z.of_nat (w_rounds WB) ->
  (forall i, gl_intents sA !! a = Some i -> Z.of_nat (length data) <= it_size i) ->
  forall sA1, gl_pipe sA1 = p1 -> exists b j sB1,
  ch_liids kB !! id = Some b /\ gl_intents sB !! b = Some j /\
  qcom_glink_native_intr WB (see sA1 sB) = Ok (tt, sB1) /\ received cB b kB j data [] (woken (see sA1 sB)) sB1.
Proof.
  intros [Es Et Er [_ Rst] [_ Md]] Pa Ha Ends T R Pd HwR Hw Hfit sA1 <-.
  destruct (pa_intents _ _ _ _ _ _ Pa id a Ha) as (Hid&i&b&j&Hi&Hii&Hb&Hj&Hjd&Hjs&G). exists b, j.
  pose proof (see_pipe sA1 sB) as Ep. rewrite Es in Ep. specialize (Ep ltac:(destruct Ends as [E1 E2]; split; cbn; congruence)).
  destruct (woken_same (see sA1 sB)) as (W1&W2&W3&W4&W5&W6&W7). rewrite intr_woken. rewrite Ep in W1.
  assert (Rq : rx_queue (woken (see sA1 sB)) q) by (unfold rx_queue; rewrite W1; by apply other_side_reads).
  assert (Tq : tx_queue (woken (see sA1 sB)) []) by (unfold tx_queue; rewrite W1; by apply other_side_writes).
  assert (Hlen : fifo_length (woken (see sA1 sB)) = sp_length (ps_rx (gl_pipe sA))).
  { unfold fifo_length. rewrite W1. destruct Ends as [E1 _]. cbn. by rewrite E1. }
  pose proof (rx_has_ok _ _ Rq) as (_&_&_). pose proof (ro_length _ _ (ps_rx_ok _ (proj1 Er))) as HL.
  pose proof (ro_units _ _ (ps_rx_ok _ (proj1 Er))) as [u Hu].
  destruct (recv_message WB (ch_lcid kA) id cB b kB [] wait data) with (r := w_rounds WB) (s := woken (see sA1 sB)) (i := j) (l := @nil Z) (q := q)
    as (sB1&E&Rc); [apply (pa_cids _ _ _ _ _ _ Pa)|exact Hid| |exact Pd|exact Rq| |].
  - constructor; [|done| |cbn; rewrite Hjs; by apply Hfit].
    + constructor; rewrite ?W2, ?W3, ?W4, ?W7; try done; apply Pa.
    + constructor; rewrite ?W6, ?Hlen; try done; [apply Pa..|lia|cbn; lia].
  - pose proof (count_wire _ (fragments_16 wait (ch_lcid kA) id data)) as Hc. rewrite <-(padded_length _ _ Pd) in Hc.
    destruct T as [[_ _ _] Q]. pose proof (rh_room _ _ _ Q). destruct Ends as [_ E2]. rewrite E2 in *. lia.
  - exists sB1. split; [done|]. split; [done|]. split; [exact E|exact Rc].
Qed.

(** The sender takes the reply, and the edge is as before. *)
Lemma exchange_reply sA p1 fs cA kA sB cB kB id a i b j data sA1 sB1 :
  idle_edge sA sB -> paired sA cA kA sB cB kB -> ch_riids kA !! id = Some a -> gl_intents sA !! a = Some i -> it_in_use i = false ->
  ch_liids kB !! id = Some b -> gl_intents sB !! b = Some j -> same_ends (gl_pipe sA) p1 ->
  sA1 = sent_all p1 fs (take_state sA a i) -> received cB b kB j data [] (woken (see sA1 sB)) sB1 -> (1 < w_rounds WA)%nat ->
  exists sA2, qcom_glink_native_intr WA (see sB1 sA1) = Ok (tt, sA2) /\ idle_edge sA2 (see sA2 sB1) /\
    paired sA2 cA (sender_channel kA id (it_reuse j)) (see sA2 sB1) cB (done_channel kB j) /\
    gl_trace sB1 = gl_trace sB ++ [Deliver cB data; Sent (done_msg kB j); Kicked] /\
    gl_channels sA2 = <[cA := sender_channel kA id (it_reuse j)]> (gl_channels sA) /\
    gl_intents sA2 = sender_intents a (it_reuse j) (gl_intents sA).
Proof.
  intros [Es Et Er [RA RB] [MA MB]] Pa Ha Hi Hu Hb Hj Ends -> (j'&pB&e&->&Sj&Gj&RxB&TxB&EndsB) Hw.
  destruct (pa_intents _ _ _ _ _ _ Pa id a Ha) as (Hid&i0&b0&j0&Hi0&Hii&Hb0&Hj0&Hjd&Hjs&_).
  assert (i0 = i) as -> by congruence. assert (b0 = b) as -> by congruence. assert (j0 = j) as -> by congruence.
  set (sA1 := sent_all p1 fs (take_state sA a i)) in *. set (sB1 := delivered cB b kB j' data pB e (woken (see sA1 sB))) in *.
  destruct (woken_same (see sA1 sB)) as (W1&W2&W3&W4&W5&W6&W7). rewrite W1 in EndsB.
  pose proof (see_pipe sA1 sB) as EpB. rewrite Es in EpB. specialize (EpB ltac:(destruct Ends as [E1 E2]; split; cbn; congruence)).
  rewrite EpB in EndsB.
  pose proof (see_pipe sB1 sA1 ltac:(destruct EndsB as [E1 E2]; split; cbn in *; congruence)) as EpA.
  set (sA1' := woken (see sB1 sA1)). destruct (woken_same (see sB1 sA1)) as (V1&V2&V3&V4&V5&V6&V7). fold sA1' in V1, V2, V3, V4, V5, V6, V7.
  rewrite EpA in V1. cbn [app] in TxB.
  assert (Rq : rx_queue sA1' (done_msg kB j)) by (unfold rx_queue; rewrite V1; by apply other_side_reads).
  assert (Tq : tx_queue sA1' []) by (unfold tx_queue; rewrite V1; by apply other_side_writes).
  destruct (done_exec WA (w_rounds WA) sA1' (ch_lcid kB) cA a kA (it_set_in_use true i) (it_reuse j)) as (p3&E&T).
  - done.
  - rewrite V4. apply Pa.
  - rewrite V2. apply Pa.
  - cbn. by rewrite Hii.
  - rewrite V3. apply lookup_insert_eq.
  - apply (pa_cids _ _ _ _ _ _ Pa).
  - cbn. by rewrite Hii.
  - unfold done_msg in Rq. rewrite Hjd, <-Hii in Rq. exact Rq.
  - set (sA2 := returned cA a kA (it_set_in_use true i) (it_reuse j) p3 sA1') in *. exists sA2. split; [by rewrite intr_woken|].
    assert (F1 : gl_channels sA2 = <[cA := sender_channel kA id (it_reuse j)]> (gl_channels sA)).
    { unfold sA2, returned, sender_channel. destruct (it_reuse j); cbn; rewrite V2; cbn; [|by rewrite Hii].
      symmetry. apply insert_id, Pa. }
    assert (F2 : gl_intents sA2 = sender_intents a (it_reuse j) (gl_intents sA)).
    { unfold sA2, returned, sender_intents, set_intent. destruct (it_reuse j); cbn; rewrite V3; cbn.
      - rewrite insert_insert_eq. apply insert_id. rewrite Hi. f_equal. destruct i. cbn in *. by subst.
      - apply delete_insert_eq. }
    assert (F3 : gl_rcids sA2 = gl_rcids sA) by (unfold sA2, returned; destruct (it_reuse j); cbn; by rewrite V4).
    assert (Pp : gl_pipe sA2 = p3) by (unfold sA2, returned; by destruct (it_reuse j)).
    assert (Ends3 : same_ends (gl_pipe sA) p3).
    { destruct (tk_same _ _ _ T) as [T1 T2], Ends as [E1 E2], EndsB as [B1 B2]. rewrite V1 in T1, T2. cbn in *. split; congruence. }
    assert (Sw : done_channel kB j' = done_channel kB j) by (unfold done_channel; destruct Sj as [-> _ ->]; done).
    split; [|split; [|split; [|done]]].
    + assert (Q : gl_pipe (see sA2 sB1) = other_side (gl_pipe sA2) (ps_mem (gl_pipe sA2))).
      { apply see_pipe. rewrite Pp. destruct Ends as [E1 E2], EndsB as [B1 B2], Ends3 as [G1 G2]. split; cbn in *; congruence. }
      constructor; [exact Q|rewrite Pp; by apply (tk_tx _ _ _ T)|rewrite Pp; apply T| |].
      * split; [|cbn; by rewrite W6]. unfold sA2, returned. destruct (it_reuse j); cbn; by rewrite V6.
      * split; [|cbn; by rewrite W7]. unfold sA2, returned. destruct (it_reuse j); cbn; by rewrite V7.
    + rewrite <-Sw. apply (paired_after sA cA kA sB cB kB id a i b j j' data sA2 (see sA2 sB1)); try done; cbn; by rewrite ?W2, ?W3, ?W4.
    + cbn. rewrite W5. do 3 f_equal. unfold done_msg. destruct Sj as [-> _ ->]. done.
Qed.

(** The whole exchange of a message. *)
Lemma message_exchange sA cA kA sB cB kB data wait :
  idle_edge sA sB -> paired sA cA kA sB cB kB -> Forall byte_ok data ->
  wire_bound (Z.of_nat (length data)) <= sp_length (ps_tx (gl_pipe sA)) - 16 ->
  Forall (fun n => n <= 8 * Z.of_nat (w_rounds WA) /\ n <= 8 * Z.of_nat (w_rounds WB))
    [sp_length (ps_rx (gl_pipe sA)); sp_length (ps_tx (gl_pipe sA))] ->
  (exists id a i, ch_riids kA !! id = Some a /\ free_for sA (Z.of_nat (length data)) a i) ->
  exists id a i j sA1 sB1 sA2,
  (ch_riids kA !! id = Some a /\ free_for sA (Z.of_nat (length data)) a i /\
   forall id' b x, ch_riids kA !! id' = Some b -> free_for sA (Z.of_nat (length data)) b x -> it_size i <= it_size x) /\
  (exists b, ch_liids kB !! id = Some b /\ gl_intents sB !! b = Some j) /\
  __qcom_glink_send WA cA data wait sA = Ok (0, sA1) /\
  qcom_glink_native_intr WB (see sA1 sB) = Ok (tt, sB1) /\
  gl_trace sB1 = gl_trace sB ++ [Deliver cB data; Sent (done_msg kB j); Kicked] /\
  qcom_glink_native_intr WA (see sB1 sA1) = Ok (tt, sA2) /\
  gl_intents sA2 = sender_intents a (it_reuse j) (gl_intents sA) /\
  idle_edge sA2 (see sA2 sB1) /\
  paired sA2 cA (sender_channel kA id (it_reuse j)) (see sA2 sB1) cB (done_channel kB j).
Proof.
  intros I Pa Hd Hwire Hw Hfree. apply Forall_cons in Hw as [[Hw1 Hw2] Hw]. apply Forall_cons in Hw as [[Hw3 Hw4] _].
  pose proof (ro_length _ _ (ps_tx_ok _ (proj1 (ie_tx _ _ I)))) as HL.
  destruct (send_exec WA sA [] cA kA data wait) as (id&a&i&sA1&Ha&F&Hmin&E1&(p1&q&EA&Wr&Pd));
    [apply Pa|apply I|apply I|lia|done|apply I|by apply (paired_there sA cA kA sB cB kB)|exact Hwire|exact Hfree|].
  destruct (pa_intents _ _ _ _ _ _ Pa id a Ha) as (_&i0&_&_&Hi0&Hii&_). assert (i0 = i) as -> by (destruct F as [F _]; congruence).
  rewrite Hii in Pd.
  destruct (exchange_recv sA sB p1 q cA kA cB kB id a data wait I Pa Ha) with (sA1 := sA1) as (b&j&sB1&Hb&Hj&E2&Rc);
    [apply Wr|apply Wr|apply (wr_rx _ _ _ Wr), I|done|done|done|destruct F as (F&F2&_); intros x Hx; congruence|by rewrite EA|].
  destruct (exchange_reply sA p1 _ cA kA sB cB kB id a i b j data sA1 sB1 I Pa Ha (proj1 F) (proj2 (proj2 F)) Hb Hj (wr_same _ _ _ Wr) EA Rc ltac:(lia))
    as (sA2&E3&I2&Pa2&Tr&_&Hint).
  exists id, a, i, j, sA1, sB1, sA2. split; [done|]. split; [by exists b|]. done.
Qed.

(** C13: A message that fits the queue is sent into the smallest free intent that is large enough, arrives at the
    owner of the channel on the other side with its bytes, exactly once, and the reply makes the intent free again or
    removes it on both sides; both queues are empty afterwards, no piece faults or runs on, and the channel is ready for the
    next message. *)
Theorem glink_message_roundtrip sA cA kA sB cB kB data wait :
  idle_edge sA sB -> paired sA cA kA sB cB kB -> Forall byte_ok data ->
  wire_bound (Z.of_nat (length data)) <= sp_length (ps_tx (gl_pipe sA)) - 16 ->
  Forall (fun n => n <= 8 * Z.of_nat (w_rounds WA) /\ n <= 8 * Z.of_nat (w_rounds WB))
    [sp_length (ps_rx (gl_pipe sA)); sp_length (ps_tx (gl_pipe sA))] ->
  (exists id a i, ch_riids kA !! id = Some a /\ free_for sA (Z.of_nat (length data)) a i) ->
  exists id a i j sA1 sB1 sA2,
  (ch_riids kA !! id = Some a /\ free_for sA (Z.of_nat (length data)) a i /\
   forall id' b x, ch_riids kA !! id' = Some b -> free_for sA (Z.of_nat (length data)) b x -> it_size i <= it_size x) /\
  (exists b, ch_liids kB !! id = Some b /\ gl_intents sB !! b = Some j) /\
  __qcom_glink_send WA cA data wait sA = Ok (0, sA1) /\
  qcom_glink_native_intr WB (see sA1 sB) = Ok (tt, sB1) /\
  gl_trace sB1 = gl_trace sB ++ [Deliver cB data; Sent (done_msg kB j); Kicked] /\
  qcom_glink_native_intr WA (see sB1 sA1) = Ok (tt, sA2) /\
  gl_intents sA2 = sender_intents a (it_reuse j) (gl_intents sA) /\
  idle_edge sA2 (see sA2 sB1) /\
  paired sA2 cA (sender_channel kA id (it_reuse j)) (see sA2 sB1) cB (done_channel kB j).
Proof. apply message_exchange. Qed.
End exchange.
