(* ===== verification/GlinkTalk.v ===== *)
(** * Short messages between two processors

    The agreement on the features of an edge, and the modem signals of a channel. *)
From S2P Require Import Prelude CMem KernelIdr Smem SmemHeap SmemApi SmemService GlinkPipe GlinkQueue GlinkState.
From S2P Require Import Glink GlinkLink GlinkSend GlinkRecv GlinkExchange.
Open Scope c_scope.

Section talk.
Context {P : Type} `{PipeLaws P} `{Idr} `{Termios}.
Context (W : @glink_world P).
Implicit Types (s : qcom_glink P).

(** A link with the message [m] to read and nothing to send. *)
Record hears s (m : list Z) : Prop := {
  he_rx : rx_queue s m;
  he_tx : tx_queue s [];
  he_reset : gl_in_reset s = 0;
  he_rounds : (1 < w_rounds W)%nat;
  he_room : 8 <= fifo_length s - 16;
}.

(** A message of its own in an empty queue. *)
Lemma tx_short s cmd p1 p2 : tx_queue s [] -> gl_in_reset s = 0 -> (0 < w_rounds W)%nat -> 8 <= fifo_length s - 16 ->
  let m := glink_msg cmd p1 p2 in exists p', qcom_glink_tx W m [] true s = Ok (0, sent p' m s) /\ written_to s p' m.
Proof.
  intros T Hr Hw Hl m. assert (Lm : length m = 8%nat) by apply length_msg.
  destruct (tx_exec W s [] m [] true T Hr Hw (msg_range _ _ _) (List.Forall_nil _)) as (p'&pad&E&Wr&Hp).
  - rewrite Lm. cbn. lia.
  - rewrite Lm in Hp. change (padding _) with 0 in Hp. destruct pad; [|cbn in Hp; lia]. rewrite !app_nil_r in *. exists p'. done.
Qed.

(** The state of a link after the handler put a message off. *)
Definition woken_of s : qcom_glink P := if (gl_wake s).1 then gl_set_wake ((gl_wake s).1, true) s else s.
Definition deferred (p' : P) (e : glink_call -> list Z) (m : list Z) s : qcom_glink P :=
  gl_set_pipe p' (gl_set_rx_work true (gl_set_rx_queue (gl_rx_queue s ++ [m]) (gl_set_env e (woken_of s)))).

Lemma woken_fields s : gl_pipe (woken_of s) = gl_pipe s /\ gl_env (woken_of s) = gl_env s /\ gl_rx_queue (woken_of s) = gl_rx_queue s.
Proof. unfold woken_of. by destruct (gl_wake s).1. Qed.

(** Memory is there for the next request. *)
Definition memory_for s : Prop := head (gl_env s GAlloc) = None \/ head (gl_env s GAlloc) = Some 0.

Lemma alloc_there s : memory_for s -> exists e, alloc_ok GAlloc s = Ok (true, gl_set_env e s) /\
  e GAlloc = tail (gl_env s GAlloc).
Proof.
  unfold memory_for, alloc_ok, glink_ask, st_bind. destruct (gl_env s GAlloc) as [|x l] eqn:E.
  - intros _. exists (gl_env s). rewrite E. split; [|done]. cbn. unfold st_ret. do 2 f_equal. by destruct s.
  - intros [Hx|Hx]; [done|]. injection Hx as ->. eexists. split; [reflexivity|]. cbn. by rewrite decide_True.
Qed.

Lemma defer_exec s cmd p1 p2 : let m := glink_msg cmd p1 p2 in hears s m -> memory_for s ->
  cmd ∈ [RPM_CMD_VERSION; RPM_CMD_VERSION_ACK; RPM_CMD_CLOSE; RPM_CMD_CLOSE_ACK; RPM_CMD_RX_INTENT_REQ] ->
  exists p' e, qcom_glink_native_intr W s = Ok (tt, deferred p' e m s) /\ taken s p' [] /\ e GAlloc = tail (gl_env s GAlloc).
Proof.
  intros m [R T Hr Hw Hl] Hm Hcmd. destruct (woken_fields s) as (F1&F2&F3). assert (Lm : length m = 8%nat) by apply length_msg.
  unfold qcom_glink_native_intr. rewrite st_bind_upd. fold (woken_of s). destruct (w_rounds W) as [|[|r]]; [lia..|].
  assert (R1 : rx_queue (woken_of s) (m ++ [])) by (unfold rx_queue; by rewrite F1, app_nil_r). unfold m in R1.
  rewrite (intr_next W _ _ _ _ _ _ R1). cbn [length]. rewrite app_nil_r in R1. fold m in R1.
  assert (Em : memory_for (woken_of s)) by (unfold memory_for; by rewrite F2).
  destruct (alloc_there _ Em) as (e&Ea&He). rewrite F2 in He.
  set (s2 := gl_set_rx_work true (gl_set_rx_queue (gl_rx_queue s ++ [m]) (gl_set_env e (woken_of s)))).
  destruct (advance_exec s2 m 8) as (p'&E&[T1 T2 T3]); [exact R1|rewrite Lm; lia|by exists 1|].
  rewrite drop_ge in T1 by (by rewrite Lm). exists p', e.
  assert (Ed : intr_msg W (8 + Z.of_nat 0) (u16 cmd) (u16 p1) (u32 p2) (woken_of s) = Ok (0, gl_set_pipe p' s2)).
  { transitivity (qcom_glink_rx_defer 0 (woken_of s)).
    { rewrite !elem_of_cons, elem_of_nil in Hcmd. by destruct Hcmd as [->|[->|[->|[->|[->|[]]]]]]. }
    unfold qcom_glink_rx_defer, sizeof_msg. cbv zeta. change (8 + ALIGN 0 8) with 8. change (u64 8) with 8.
    rewrite (st_bind_ok _ _ _ _ _ (avail_exec _ m R1)), Lm. change (Z.of_nat 8 <? 8) with false. cbv iota.
    rewrite (st_bind_ok _ _ _ _ _ Ea). cbn [negb].
    rewrite (st_bind_ok _ _ _ _ _ (peak_exec (gl_set_env e (woken_of s)) m 0 8 R1 ltac:(lia) ltac:(lia) ltac:(rewrite Lm; lia))).
    rewrite st_bind_upd. change (Z.to_nat 0) with 0%nat. change (Z.to_nat 8) with 8%nat. rewrite drop_0, take_ge by (by rewrite Lm).
    change (gl_rx_queue (gl_set_env e (woken_of s))) with (gl_rx_queue (woken_of s)). rewrite F3. fold s2.
    by rewrite (st_bind_ok _ _ _ _ _ E). }
  unfold st_bind. rewrite Ed. cbn [negb Z.eqb]. rewrite intr_end by exact T1. split; [done|]. split; [|done].
  unfold s2 in *. cbn in *. constructor; [done| |]; unfold tx_queue, fifo_length in *; cbn in *; rewrite F1 in *; done.
Qed.

(** The work takes the one message that waits. *)
Lemma worker_one s cmd p1 p2 s' : gl_rx_queue s = [glink_msg cmd p1 p2] -> (1 < w_rounds W)%nat ->
  work_msg W (glink_msg cmd p1 p2) (gl_set_rx_queue [] (gl_set_rx_work false s)) = Ok (tt, s') -> gl_rx_queue s' = [] ->
  qcom_glink_work W s = Ok (tt, s').
Proof.
  intros Hq Hw E Hq'. unfold qcom_glink_work. rewrite st_bind_upd. destruct (w_rounds W) as [|[|r]]; [lia..|].
  remember (S r) as n. cbn [work_loop]. rewrite st_bind_get. cbn [gl_rx_queue gl_set_rx_work]. rewrite Hq, st_bind_upd.
  rewrite (st_bind_ok _ _ _ _ _ E). subst n. cbn [work_loop]. by rewrite st_bind_get, Hq'.
Qed.

Lemma msg_fields cmd p1 p2 : field 2 (glink_msg cmd p1 p2) 0 = Ok (u16 cmd) /\ field 2 (glink_msg cmd p1 p2) 2 = Ok (u16 p1) /\
  field 4 (glink_msg cmd p1 p2) 4 = Ok (u32 p2).
Proof.
  pose proof (msg_cmd cmd p1 p2 []) as E1. pose proof (msg_param1 cmd p1 p2 []) as E2. pose proof (msg_param2 cmd p1 p2 []) as E3.
  by rewrite app_nil_r in E1, E2, E3.
Qed.

Lemma work_msg_fields cmd p1 p2 s : work_msg W (glink_msg cmd p1 p2) s =
  (if u16 cmd =? RPM_CMD_VERSION then qcom_glink_receive_version W (u16 p1) (u32 p2)
   else if u16 cmd =? RPM_CMD_VERSION_ACK then qcom_glink_receive_version_ack W (u16 p1) (u32 p2)
   else if u16 cmd =? RPM_CMD_OPEN then
     let! name := st_lift (cstring (drop (Z.to_nat sizeof_msg) (glink_msg cmd p1 p2))) in
     let! _ := qcom_glink_rx_open W (u16 p1) name in st_ret tt
   else if u16 cmd =? RPM_CMD_CLOSE then qcom_glink_rx_close W (u16 p1)
   else if u16 cmd =? RPM_CMD_CLOSE_ACK then qcom_glink_rx_close_ack W (u16 p1)
   else if u16 cmd =? RPM_CMD_RX_INTENT_REQ then qcom_glink_handle_intent_req W (u16 p1) (u32 p2)
   else st_ret tt) s.
Proof.
  destruct (msg_fields cmd p1 p2) as (E1&E2&E3). unfold work_msg.
  by rewrite (st_bind_ok _ _ _ _ _ (st_lift_ok _ _ s E1)), (st_bind_ok _ _ _ _ _ (st_lift_ok _ _ s E2)), (st_bind_ok _ _ _ _ _ (st_lift_ok _ _ s E3)).
Qed.

(** ** Versions *)
Definition memory_lasts s : Prop := Forall (fun x => x = 0) (gl_env s GAlloc).

Lemma memory_next s : memory_lasts s -> memory_for s.
Proof. unfold memory_lasts, memory_for. destruct 1 as [|x l ->]; [by left|by right]. Qed.
Lemma memory_tail s (e : glink_call -> list Z) : memory_lasts s -> e GAlloc = tail (gl_env s GAlloc) -> Forall (fun x => x = 0) (e GAlloc).
Proof. unfold memory_lasts. intros Hm ->. by destruct Hm. Qed.

(** One side runs: the interrupt, then the work it put off. *)
Definition turn : ST (qcom_glink P) unit := qcom_glink_native_intr W ;;; qcom_glink_work W.

(** What a turn leaves: a message [m] for the other side, and the features [f]. *)
Record turned s s' (m : list Z) (f : Z) : Prop := {
  tu_rx : rx_queue s' [];
  tu_tx : tx_queue s' m;
  tu_features : gl_features s' = f;
  tu_reset : gl_in_reset s' = gl_in_reset s;
  tu_later : gl_rx_queue s' = [];
  tu_memory : memory_lasts s -> memory_lasts s';
  tu_same : same_pipe (gl_pipe s) (gl_pipe s');
}.

Lemma turn_idle s : hears s [] -> gl_rx_queue s = [] -> exists s', turn s = Ok (tt, s') /\ turned s s' [] (gl_features s).
Proof.
  intros [R T Hr Hw Hl] Hq. destruct (woken_fields s) as (F1&F2&F3). exists (gl_set_rx_work false (woken_of s)).
  assert (R1 : rx_queue (woken_of s) []) by (unfold rx_queue; by rewrite F1). unfold turn, qcom_glink_native_intr.
  rewrite st_bind_bind, st_bind_upd. fold (woken_of s). destruct (w_rounds W) as [|r] eqn:Er; [lia|].
  rewrite (st_bind_ok _ _ _ _ _ (intr_end W r _ R1)). unfold qcom_glink_work. rewrite st_bind_upd, Er. cbn [work_loop]. rewrite st_bind_get.
  cbn [gl_rx_queue gl_set_rx_work]. rewrite F3, Hq. split; [done|].
  constructor; unfold rx_queue, tx_queue, memory_lasts in *; cbn; rewrite ?F1, ?F2, ?F3; try done; try apply same_pipe_refl.
  - unfold woken_of. by destruct (gl_wake s).1.
  - unfold woken_of. by destruct (gl_wake s).1.
Qed.

(** A turn on a message that is put off, when the work sends an answer or nothing. *)
Lemma turn_msg s cmd p1 p2 f m : hears s (glink_msg cmd p1 p2) -> memory_for s -> gl_rx_queue s = [] ->
  cmd ∈ [RPM_CMD_VERSION; RPM_CMD_VERSION_ACK; RPM_CMD_CLOSE; RPM_CMD_CLOSE_ACK; RPM_CMD_RX_INTENT_REQ] ->
  (forall s1, gl_features s1 = gl_features s -> tx_queue s1 [] -> gl_in_reset s1 = 0 -> fifo_length s1 = fifo_length s ->
    exists s2, work_msg W (glink_msg cmd p1 p2) s1 = Ok (tt, s2) /\ gl_features s2 = f /\ tx_queue s2 m /\
      (forall q, rx_queue s1 q -> rx_queue s2 q) /\ gl_in_reset s2 = gl_in_reset s1 /\ gl_rx_queue s2 = gl_rx_queue s1 /\
      gl_env s2 = gl_env s1 /\ same_pipe (gl_pipe s1) (gl_pipe s2)) ->
  exists s', turn s = Ok (tt, s') /\ turned s s' m f.
Proof.
  intros He Hm Hq Hcmd Hwork. destruct (defer_exec s cmd p1 p2 He Hm Hcmd) as (p'&e&E&[T1 T2 T3]&Ee). pose proof He as [R T Hr Hw Hl].
  set (s1 := gl_set_rx_queue [] (gl_set_rx_work false (deferred p' e (glink_msg cmd p1 p2) s))).
  assert (Ew : gl_features (woken_of s) = gl_features s /\ gl_in_reset (woken_of s) = gl_in_reset s) by (unfold woken_of; by destruct (gl_wake s).1).
  destruct Ew as [Ef Er].
  destruct (Hwork s1) as (s2&E2&F2&X2&R2&I2&Q2&N2&P2); [exact Ef|exact (T2 [] T)|cbn; by rewrite Er|exact (same_pipe_length _ _ T3)|].
  exists s2. split.
  - unfold turn. rewrite (st_bind_ok _ _ _ _ _ E). apply (worker_one _ cmd p1 p2); [cbn; by rewrite Hq|done|exact E2|by rewrite Q2].
  - constructor; [by apply R2|done|done|by rewrite I2; cbn; rewrite Er|by rewrite Q2| |].
    + intros Hml. unfold memory_lasts. rewrite N2. cbn. by apply (memory_tail s).
    + by apply (same_pipe_trans _ p').
Qed.

Lemma feature_range f g : 0 <= f < 2 ^ 32 -> 0 <= g -> 0 <= Z.land f g < 2 ^ 32.
Proof.
  intros Hf Hg. assert (0 <= Z.land f g) by (apply Z.land_nonneg; lia). split; [done|].
  destruct (decide (Z.land f g = 0)) as [->|Hne]; [lia|]. apply Z.log2_lt_pow2; [lia|].
  pose proof (Z.log2_land f g ltac:(lia) ltac:(lia)). destruct (decide (f = 0)) as [->|Hf0]; [done|].
  assert (Z.log2 f < 32) by (apply Z.log2_lt_pow2; lia). lia.
Qed.

Lemma turn_version s f : hears s (glink_msg RPM_CMD_VERSION GLINK_VERSION_1 f) -> memory_for s -> gl_rx_queue s = [] -> 0 <= f < 2 ^ 32 ->
  let g := Z.land (gl_features s) f in
  exists s', turn s = Ok (tt, s') /\ turned s s' (glink_msg RPM_CMD_VERSION_ACK GLINK_VERSION_1 g) g.
Proof.
  intros He Hm Hq Hf g. apply (turn_msg s RPM_CMD_VERSION GLINK_VERSION_1 f); [done|done|done|by left|].
  intros s1 E1 T1 I1 L1. pose proof He as [R T Hr Hw Hl].
  destruct (tx_short (gl_set_features g s1) RPM_CMD_VERSION_ACK GLINK_VERSION_1 g T1 I1 ltac:(lia)) as (p'&E&Wr).
  { change (fifo_length (gl_set_features g s1)) with (fifo_length s1). lia. }
  set (m := glink_msg RPM_CMD_VERSION_ACK GLINK_VERSION_1 g) in *.
  assert (Ew : work_msg W (glink_msg RPM_CMD_VERSION GLINK_VERSION_1 f) s1 = Ok (tt, sent p' m (gl_set_features g s1))).
  { rewrite work_msg_fields, u32_id by lia. change (u16 RPM_CMD_VERSION =? RPM_CMD_VERSION) with true. cbv iota.
    unfold qcom_glink_receive_version. change (u16 GLINK_VERSION_1 =? 0) with false. change (u16 GLINK_VERSION_1 =? GLINK_VERSION_1) with true.
    cbv iota. rewrite st_bind_upd, E1. fold g. unfold qcom_glink_send_version_ack, tx_msg. rewrite st_bind_get.
    change (gl_features (gl_set_features g s1)) with g. fold m. by rewrite (st_bind_ok _ _ _ _ _ E). }
  eexists. split; [exact Ew|]. destruct Wr as [W1 W2 W3]. repeat split; done.
Qed.

Lemma turn_ack s f : hears s (glink_msg RPM_CMD_VERSION_ACK GLINK_VERSION_1 f) -> memory_for s -> gl_rx_queue s = [] -> 0 <= f < 2 ^ 32 ->
  let g := Z.land (gl_features s) f in
  exists s', turn s = Ok (tt, s') /\
    turned s s' (if f =? gl_features s then [] else glink_msg RPM_CMD_VERSION GLINK_VERSION_1 g) (if f =? gl_features s then gl_features s else g).
Proof.
  intros He Hm Hq Hf g. apply (turn_msg s RPM_CMD_VERSION_ACK GLINK_VERSION_1 f); [done|done|done|by right; left|].
  intros s1 E1 T1 I1 L1. pose proof He as [R T Hr Hw Hl].
  assert (Ew : forall k, work_msg W (glink_msg RPM_CMD_VERSION_ACK GLINK_VERSION_1 f) s1 = k <->
    (if f =? gl_features s then st_ret tt else
      st_upd (gl_set_features g) ;;; let! _ := qcom_glink_send_version W in st_ret tt) s1 = k).
  { intros k. rewrite work_msg_fields, u32_id by lia. change (u16 RPM_CMD_VERSION_ACK =? RPM_CMD_VERSION) with false.
    change (u16 RPM_CMD_VERSION_ACK =? RPM_CMD_VERSION_ACK) with true. cbv iota. unfold qcom_glink_receive_version_ack.
    change (u16 GLINK_VERSION_1 =? 0) with false. change (u16 GLINK_VERSION_1 =? GLINK_VERSION_1) with true. cbv iota.
    rewrite st_bind_get, E1. cbn [andb]. fold g. by destruct (f =? gl_features s). }
  destruct (f =? gl_features s).
  - exists s1. split; [by apply Ew|]. repeat split; try done. apply same_pipe_refl.
  - destruct (tx_short (gl_set_features g s1) RPM_CMD_VERSION GLINK_VERSION_1 g T1 I1 ltac:(lia)) as (p'&E&Wr).
    { change (fifo_length (gl_set_features g s1)) with (fifo_length s1). lia. }
    set (m := glink_msg RPM_CMD_VERSION GLINK_VERSION_1 g) in *.
    exists (sent p' m (gl_set_features g s1)). split.
    + apply Ew. rewrite st_bind_upd. unfold qcom_glink_send_version. rewrite st_bind_bind, st_bind_get.
      change (gl_features (gl_set_features g s1)) with g. fold m. by rewrite (st_bind_ok _ _ _ _ _ E).
    + destruct Wr as [W1 W2 W3]. repeat split; done.
Qed.
End talk.

(** ** Two sides *)
Section sides.
Context (smem : qcom_smem) (hwlock_rc : Z).
#[local] Instance talk_pipe : GlinkPipe smem_pipes := smem_pipe smem hwlock_rc.
#[local] Instance talk_laws : PipeLaws smem_pipes := smem_pipe_laws smem hwlock_rc.
Context `{Idr} `{Termios}.
Abbreviation side := (qcom_glink smem_pipes).
Context (WA WB : @glink_world smem_pipes).

(** The sides take turns, the other one first, each seeing the memory as the other left it. *)
Fixpoint talk (n : nat) (sA sB : side) : res (side * side) :=
  match n with
  | O => Ok (sA, sB)
  | S n =>
    match turn WB (see sA sB) with
    | Ok (_, sB) => match turn WA (see sB sA) with Ok (_, sA) => talk n sA sB | Fault => Fault | Loop => Loop end
    | Fault => Fault
    | Loop => Loop
    end
  end.

(** A side with nothing put off and memory to go on. *)
Definition calm (s : side) : Prop := gl_in_reset s = 0 /\ gl_rx_queue s = [] /\ memory_lasts s.

(** The queue towards [sB] holds [m], the other one is empty. *)
Record edge (sA sB : side) (m : list Z) : Prop := {
  ed_sides : same_ends (other_side (gl_pipe sA) (ps_mem (gl_pipe sA))) (gl_pipe sB);
  ed_tx : smem_tx_has (gl_pipe sA) m;
  ed_rx : smem_rx_has (gl_pipe sA) [];
  ed_calm : calm sA /\ calm sB;
  ed_room : 8 <= sp_length (ps_tx (gl_pipe sA)) - 16 /\ 8 <= sp_length (ps_rx (gl_pipe sA)) - 16;
}.

(** The other side reads [m] and has nothing to send. *)
Lemma edge_hears W sA sB m : edge sA sB m -> (1 < w_rounds W)%nat ->
  hears W (see sA sB) m /\ gl_rx_queue (see sA sB) = [] /\ memory_lasts (see sA sB) /\ gl_features (see sA sB) = gl_features sB.
Proof.
  intros [Es T R [_ (I&Q&M)] [L1 L2]] Hw. pose proof (see_pipe sA sB Es) as Ep. split; [|split; [exact Q|split; [exact M|done]]].
  constructor; unfold rx_queue, tx_queue, fifo_length; rewrite ?Ep; [by apply other_side_reads|by apply other_side_writes|exact I|done|exact L2].
Qed.

(** After its turn the other side is the one that speaks. *)
Lemma edge_turned sA sB sB' m m' f : edge sA sB m -> turned (see sA sB) sB' m' f -> edge sB' sA m'.
Proof.
  intros [Es T R [CA (I&Q&M)] [L1 L2]] [T1 T2 T3 T4 T5 T6 T7]. pose proof (see_pipe sA sB Es) as Ep. rewrite Ep in T7.
  destruct T7 as [E1 E2]. cbn in E1, E2. constructor.
  - split; cbn; congruence.
  - exact T2.
  - exact T1.
  - split; [|done]. split; [rewrite T4; exact I|]. split; [done|by apply T6].
  - rewrite E1, E2. done.
Qed.

Lemma hear_nothing W sA sB : edge sA sB [] -> (1 < w_rounds W)%nat -> exists sB',
  turn W (see sA sB) = Ok (tt, sB') /\ gl_features sB' = gl_features sB /\ edge sB' sA [].
Proof.
  intros Ed Hw. destruct (edge_hears W sA sB [] Ed Hw) as (He&Hq&_&Hf). destruct (turn_idle W _ He Hq) as (s'&E&T).
  exists s'. split; [exact E|]. split; [by rewrite (tu_features _ _ _ _ T)|by apply (edge_turned sA sB s' [] [] _ Ed T)].
Qed.

Lemma hear_version sA sB f : edge sA sB (glink_msg RPM_CMD_VERSION GLINK_VERSION_1 f) -> (1 < w_rounds WB)%nat -> 0 <= f < 2 ^ 32 ->
  let g := Z.land (gl_features sB) f in exists sB',
  turn WB (see sA sB) = Ok (tt, sB') /\ gl_features sB' = g /\ edge sB' sA (glink_msg RPM_CMD_VERSION_ACK GLINK_VERSION_1 g).
Proof.
  intros Ed Hw Hf g. destruct (edge_hears WB sA sB _ Ed Hw) as (He&Hq&Hm&Ef).
  destruct (turn_version WB _ f He (memory_next _ Hm) Hq Hf) as (s'&E&T). rewrite Ef in T. fold g in T.
  exists s'. split; [exact E|]. split; [apply T|by apply (edge_turned sA sB s' _ _ _ Ed T)].
Qed.

Lemma hear_ack sB sA f : edge sB sA (glink_msg RPM_CMD_VERSION_ACK GLINK_VERSION_1 f) -> (1 < w_rounds WA)%nat -> 0 <= f < 2 ^ 32 ->
  let g := Z.land (gl_features sA) f in exists sA',
  turn WA (see sB sA) = Ok (tt, sA') /\ gl_features sA' = (if f =? gl_features sA then gl_features sA else g) /\
  edge sA' sB (if f =? gl_features sA then [] else glink_msg RPM_CMD_VERSION GLINK_VERSION_1 g).
Proof.
  intros Ed Hw Hf g. destruct (edge_hears WA sB sA _ Ed Hw) as (He&Hq&Hm&Ef).
  destruct (turn_ack WA _ f He (memory_next _ Hm) Hq Hf) as (s'&E&T). rewrite Ef in T. fold g in T.
  exists s'. split; [exact E|]. split; [apply T|by apply (edge_turned sB sA s' _ _ _ Ed T)].
Qed.

(** The first message, into the empty queue. *)
Lemma say sA sB cmd p1 p2 : edge sA sB [] -> (1 < w_rounds WA)%nat -> exists p',
  qcom_glink_tx WA (glink_msg cmd p1 p2) [] true sA = Ok (0, sent p' (glink_msg cmd p1 p2) sA) /\
  edge (sent p' (glink_msg cmd p1 p2) sA) sB (glink_msg cmd p1 p2).
Proof.
  intros [Es T R [CA CB] [L1 L2]] Hw. destruct (tx_short WA sA cmd p1 p2) as (p'&E&[W1 W2 [E1 E2]]); [exact T|apply CA|lia|exact L1|].
  exists p'. split; [exact E|]. destruct Es as [X1 X2]. constructor; cbn [gl_pipe sent gl_set_trace gl_set_pipe] in *.
  - split; cbn in *; congruence.
  - exact W1.
  - by apply W2.
  - done.
  - by rewrite E1, E2.
Qed.

Lemma start_version sA sB : edge sA sB [] -> (1 < w_rounds WA)%nat -> exists sA0,
  qcom_glink_send_version WA sA = Ok (0, sA0) /\ gl_features sA0 = gl_features sA /\
  edge sA0 sB (glink_msg RPM_CMD_VERSION GLINK_VERSION_1 (gl_features sA)).
Proof.
  intros Ed Hw. destruct (say sA sB RPM_CMD_VERSION GLINK_VERSION_1 (gl_features sA) Ed Hw) as (p'&E&Ed').
  eexists. split; [unfold qcom_glink_send_version; rewrite st_bind_get; exact E|done].
Qed.

(** C16: The two sides of an edge agree on the features both of them have: the version message of one side, and the
    answers of both interrupt handlers and workers, leave the two sides with the intersection of what they offered and with
    both queues empty, after one exchange when the first side offered no more than the other, after two otherwise. *)
Theorem glink_versions_agree sA sB : edge sA sB [] -> (1 < w_rounds WA)%nat -> (1 < w_rounds WB)%nat ->
  0 <= gl_features sA < 2 ^ 32 -> 0 <= gl_features sB < 2 ^ 32 ->
  exists sA0 sA2 sB2, qcom_glink_send_version WA sA = Ok (0, sA0) /\ talk 2 sA0 sB = Ok (sA2, sB2) /\
  gl_features sA2 = Z.land (gl_features sA) (gl_features sB) /\ gl_features sB2 = gl_features sA2 /\ edge sA2 sB2 [].
Proof.
  intros Ed HwA HwB HfA HfB. destruct (start_version sA sB Ed HwA) as (sA0&E0&F0&Ed0).
  pose proof (feature_range (gl_features sB) (gl_features sA) HfB ltac:(lia)) as Hg. set (g := Z.land (gl_features sB) (gl_features sA)) in *.
  destruct (hear_version sA0 sB (gl_features sA) Ed0 HwB HfA) as (sB1&E1&F1&Ed1). fold g in F1, Ed1.
  destruct (hear_ack sB1 sA0 g Ed1 HwA Hg) as (sA1&E2&F2&Ed2). rewrite F0 in *.
  exists sA0. cbn [talk]. rewrite E1, E2. destruct (g =? gl_features sA) eqn:Eg.
  - destruct (hear_nothing WB sA1 sB1 Ed2 HwB) as (sB2&E3&F3&Ed3). destruct (hear_nothing WA sB2 sA1 Ed3 HwA) as (sA2&E4&F4&Ed4).
    exists sA2, sB2. rewrite E3, E4, F4, F2, F3, F1. rewrite (Z.land_comm (gl_features sA)). fold g. by assert (g = gl_features sA) as -> by lia.
  - assert (Eg' : Z.land (gl_features sA) g = g).
    { unfold g. rewrite (Z.land_comm (gl_features sB)), Z.land_assoc, Z.land_diag. done. }
    rewrite Eg' in *. destruct (hear_version sA1 sB1 g Ed2 HwB Hg) as (sB2&E3&F3&Ed3). rewrite F1, Z.land_diag in *.
    destruct (hear_ack sB2 sA1 g Ed3 HwA Hg) as (sA2&E4&F4&Ed4). rewrite F2, Z.eqb_refl in *.
    exists sA2, sB2. rewrite E3, E4, F4, F3. by rewrite (Z.land_comm (gl_features sA)).
Qed.
End sides.
