(* ===== verification/GlinkSignals.v ===== *)
(** * Modem signals (drivers/rpmsg/qcom_glink_native.c)

    The signals of a channel travel in their own format: the terminal lines of one side show up
    as the lines of the other end of the cable. *)
From S2P Require Import Prelude CMem KernelIdr Smem SmemHeap SmemApi SmemService GlinkPipe GlinkQueue GlinkState.
From S2P Require Import Glink GlinkLink GlinkSend GlinkRecv GlinkExchange GlinkTalk.
Open Scope c_scope.

(** ** Bits *)
Lemma BIT_bits i n : 0 <= i -> 0 <= n -> Z.testbit (BIT i) n = bool_decide (n = i).
Proof.
  intros Hi Hn. unfold BIT. rewrite Z.shiftl_1_l, Z.pow2_bits_eqb by done. case_bool_decide; lia.
Qed.

Lemma line_set x i : 0 <= i -> negb (Z.land x (BIT i) =? 0) = Z.testbit x i.
Proof.
  intros Hi. destruct (Z.testbit x i) eqn:E.
  - destruct (Z.land x (BIT i) =? 0) eqn:E0; [|done]. assert (Hz : Z.testbit (Z.land x (BIT i)) i = false) by (replace (Z.land x (BIT i)) with 0 by lia; apply Z.bits_0).
    rewrite Z.land_spec, E, BIT_bits, bool_decide_true in Hz by lia. done.
  - replace (Z.land x (BIT i)) with 0; [done|]. apply Z.bits_inj'. intros n Hn. rewrite Z.bits_0, Z.land_spec, BIT_bits by lia.
    case_bool_decide; [subst; by rewrite E|by rewrite andb_false_r].
Qed.

Section bits.
Context `{Termios}.

Lemma lines : exists dtr rts cts cd ri dsr, TIOCM_DTR = BIT dtr /\ TIOCM_RTS = BIT rts /\ TIOCM_CTS = BIT cts /\ TIOCM_CD = BIT cd /\
  TIOCM_RI = BIT ri /\ TIOCM_DSR = BIT dsr /\ Forall (fun i => 0 <= i < 12) [dtr; rts; cts; cd; ri; dsr] /\ NoDup [dtr; rts; cts; cd; ri; dsr].
Proof.
  destruct termios_bits as (l&E&Hl&Hn). do 6 (destruct l as [|? l]; [done|]). destruct l; [|done]. injection E as -> -> -> -> -> ->. by eexists _, _, _, _, _, _.
Qed.

(** The line [bit] of [sigs], as the line [out]. *)
Definition line (sigs bit out : Z) : Z := if negb (Z.land sigs bit =? 0) then out else 0.

(** What the other end sees: the terminal ready line is its set ready line, the request to send its clear to send. *)
Definition far_end (sigs : Z) : Z :=
  Z.lor (Z.land sigs 0xfff) (Z.lor (line sigs TIOCM_DTR TIOCM_DSR) (line sigs TIOCM_RTS TIOCM_CTS)).

Definition set_if (b : bool) (x y : Z) : Z := if b then Z.lor x y else x.

Lemma set_if_bit b x i n : 0 <= i -> 0 <= n -> Z.testbit (set_if b x (BIT i)) n = Z.testbit x n || (b && bool_decide (n = i)).
Proof. intros Hi Hn. unfold set_if. destruct b; [by rewrite Z.lor_spec, BIT_bits|by rewrite orb_false_r]. Qed.

Lemma line_bit sigs i j n : 0 <= i -> 0 <= j -> 0 <= n -> Z.testbit (line sigs (BIT i) (BIT j)) n = Z.testbit sigs i && bool_decide (n = j).
Proof. intros Hi Hj Hn. unfold line. rewrite line_set by done. destruct (Z.testbit sigs i); [by apply BIT_bits|apply Z.bits_0]. Qed.

Lemma mask_bit x n : 0 <= n -> Z.testbit (Z.land x 0xfff) n = Z.testbit x n && bool_decide (n < 12).
Proof.
  intros Hn. rewrite Z.land_spec. change 0xfff with (Z.ones 12). rewrite Z.testbit_ones_nonneg by lia. f_equal. case_bool_decide; lia.
Qed.

(** [to_native] and [from_native], bit by bit. *)
Lemma to_native_bit sigs dtr rts cd ri n : TIOCM_DTR = BIT dtr -> TIOCM_RTS = BIT rts -> TIOCM_CD = BIT cd -> TIOCM_RI = BIT ri ->
  Forall (fun i => 0 <= i < 12) [dtr; rts; cd; ri] -> 0 <= n ->
  Z.testbit (to_native sigs) n = Z.testbit sigs n && bool_decide (n < 12) || Z.testbit sigs dtr && bool_decide (n = 31) ||
    Z.testbit sigs rts && bool_decide (n = 30) || Z.testbit sigs cd && bool_decide (n = 29) || Z.testbit sigs ri && bool_decide (n = 28).
Proof.
  intros E1 E2 E3 E4 Hf Hn. rewrite !Forall_cons in Hf. destruct Hf as (F1&F2&F3&F4&_). unfold to_native. cbv zeta.
  rewrite E1, E2, E3, E4. rewrite !line_set by lia. unfold NATIVE_DTR_SIG, NATIVE_CTS_SIG, NATIVE_CD_SIG, NATIVE_RI_SIG.
  assert (S : forall b x y, (if b : bool then Z.lor x y else x) = set_if b x y) by done. rewrite !S, !set_if_bit, !mask_bit by lia.
  repeat match goal with |- context [bool_decide (?i < 12)] =>
    lazymatch i with n => fail | _ => rewrite (bool_decide_true (i < 12)) by lia end end.
  repeat match goal with |- context [bool_decide (?i = ?j)] =>
    lazymatch i with n => fail | _ => rewrite (bool_decide_false (i = j)) by lia end end.
  rewrite !andb_true_r, !andb_false_r, !orb_false_r. done.
Qed.

Lemma from_native_bit x dsr cts cd ri n : TIOCM_DSR = BIT dsr -> TIOCM_CTS = BIT cts -> TIOCM_CD = BIT cd -> TIOCM_RI = BIT ri ->
  Forall (fun i => 0 <= i < 12) [dsr; cts; cd; ri] -> 0 <= n ->
  Z.testbit (from_native x) n = (Z.testbit x n || Z.testbit x 31 && bool_decide (n = dsr) || Z.testbit x 30 && bool_decide (n = cts) ||
    Z.testbit x 29 && bool_decide (n = cd) || Z.testbit x 28 && bool_decide (n = ri)) && bool_decide (n < 12).
Proof.
  intros E1 E2 E3 E4 Hf Hn. rewrite !Forall_cons in Hf. destruct Hf as (F1&F2&F3&F4&_). unfold from_native. cbv zeta.
  rewrite mask_bit by done. f_equal. rewrite E1, E2, E3, E4. unfold NATIVE_DTR_SIG, NATIVE_CTS_SIG, NATIVE_CD_SIG, NATIVE_RI_SIG.
  rewrite !line_set by lia. assert (S : forall b x y, (if b : bool then Z.lor x y else x) = set_if b x y) by done. rewrite !S, !set_if_bit by lia.
  repeat match goal with |- context [bool_decide (?i = ?j)] =>
    lazymatch i with n => fail | _ => rewrite (bool_decide_false (i = j)) by lia end end.
  rewrite !andb_false_r, !orb_false_r. done.
Qed.

(** The lines of the one end at the other end. *)
Lemma cable sigs : from_native (to_native sigs) = far_end sigs.
Proof.
  destruct lines as (dtr&rts&cts&cd&ri&dsr&E1&E2&E3&E4&E5&E6&Hf&Hd). rewrite !Forall_cons in Hf. destruct Hf as (F1&F2&F3&F4&F5&F6&_).
  apply Z.bits_inj'. intros n Hn. 
  assert (G1 : Forall (fun i => 0 <= i < 12) [dsr; cts; cd; ri]) by (rewrite !Forall_cons, Forall_nil; lia).
  assert (G2 : Forall (fun i => 0 <= i < 12) [dtr; rts; cd; ri]) by (rewrite !Forall_cons, Forall_nil; lia).
  rewrite (from_native_bit _ dsr cts cd ri), !(to_native_bit sigs dtr rts cd ri) by (done || lia).
  unfold far_end. rewrite !Z.lor_spec, mask_bit, E1, E2, E3, E6, !line_bit by lia.
  repeat match goal with |- context [bool_decide (?i < 12)] =>
    lazymatch i with Zpos _ => rewrite (bool_decide_false (i < 12)) by lia | _ => fail end end.
  repeat match goal with |- context [bool_decide (?i = ?j)] =>
    lazymatch i with
    | Zpos _ => first [rewrite (bool_decide_true (i = j)) by lia|rewrite (bool_decide_false (i = j)) by lia]
    | _ => fail
    end end.
  rewrite !andb_true_r, !andb_false_r, !orb_false_r, ?orb_false_l.
  destruct (decide (n < 12)) as [Hl|Hl].
  - rewrite (bool_decide_true (n < 12)) by done. rewrite !andb_true_r, !(bool_decide_false (n = Zpos _)) by lia. rewrite !andb_false_r, !orb_false_r.
    repeat case_bool_decide; subst; rewrite ?andb_true_r, ?andb_false_r, ?orb_false_r; try lia;
      destruct (Z.testbit sigs _); rewrite ?orb_true_r; try done.
  - rewrite (bool_decide_false (n < 12)) by done. rewrite !andb_false_r. rewrite !(bool_decide_false (n = _)) by lia. by rewrite !andb_false_r.
Qed.
End bits.

(** ** Setting signals *)
Section set.
Context `{Termios}.

(** The lines an owner may set and clear. *)
Definition modem_lines : Z := Z.lor (Z.lor TIOCM_DTR TIOCM_RTS) (Z.lor TIOCM_CD TIOCM_RI).
Definition new_lines (sigs set clear : Z) : Z := Z.ldiff (Z.lor sigs (Z.land set modem_lines)) (Z.land clear modem_lines).

Definition clear_if (b : bool) (x y : Z) : Z := if b then Z.land x (u32 (Z.lnot y)) else x.
Lemma clear_if_bit b x i n : 0 <= i < 32 -> 0 <= n -> Z.testbit (clear_if b x (BIT i)) n = Z.testbit x n && negb (b && bool_decide (n = i)) \/ 32 <= n.
Proof.
  intros Hi Hn. destruct (decide (n < 32)) as [Hl|Hl]; [left|right; lia]. unfold clear_if. destruct b; [|by rewrite andb_true_r].
  rewrite Z.land_spec. unfold u32. rewrite <-Z.land_ones, Z.land_spec, Z.testbit_ones_nonneg, Z.lnot_spec, BIT_bits by lia.
  replace (n <? 32) with true by lia. by rewrite andb_true_r.
Qed.

Lemma testbit_high x n : 0 <= x < 2 ^ 32 -> 32 <= n -> Z.testbit x n = false.
Proof.
  intros Hx Hn. rewrite <-(Z.mod_small x (2 ^ 32)) by lia. apply Z.mod_pow2_bits_high. lia.
Qed.

Lemma set_if_range b x i : 0 <= x < 2 ^ 32 -> 0 <= i < 32 -> 0 <= set_if b x (BIT i) < 2 ^ 32.
Proof.
  intros Hx Hi. unfold set_if. destruct b; [|done]. unfold BIT. rewrite Z.shiftl_1_l. pose proof (Z.pow_pos_nonneg 2 i ltac:(lia) ltac:(lia)).
  assert (0 <= Z.lor x (2 ^ i)) by (apply Z.lor_nonneg; lia). split; [done|].
  destruct (decide (Z.lor x (2 ^ i) = 0)) as [->|Hne]; [lia|]. apply Z.log2_lt_pow2; [lia|]. rewrite Z.log2_lor by lia.
  rewrite Z.log2_pow2 by lia. destruct (decide (x = 0)) as [->|Hx0]; [cbn; lia|]. assert (Z.log2 x < 32) by (apply Z.log2_lt_pow2; lia). lia.
Qed.

Lemma clear_if_range b x y : 0 <= x < 2 ^ 32 -> 0 <= clear_if b x y < 2 ^ 32.
Proof.
  intros Hx. unfold clear_if. destruct b; [|done]. rewrite Z.land_comm. apply feature_range; [apply u32_range|lia].
Qed.

Lemma far_end_range sigs : 0 <= far_end sigs < 2 ^ 12.
Proof.
  rewrite <-cable. unfold from_native. cbv zeta. change 0xfff with (Z.ones 12). rewrite Z.land_ones by lia. apply Z.mod_pos_bound. lia.
Qed.

Lemma to_native_range sigs : 0 <= to_native sigs < 2 ^ 32.
Proof.
  unfold to_native. cbv zeta. assert (S : forall b x y, (if b : bool then Z.lor x y else x) = set_if b x y) by done. rewrite !S.
  repeat (apply set_if_range; [|lia]). change 0xfff with (Z.ones 12). rewrite Z.land_ones by lia. pose proof (Z.mod_pos_bound sigs (2 ^ 12) ltac:(lia)). lia.
Qed.

(** What the code computes line by line. *)
Definition lines_of_code (sigs set clear : Z) : Z :=
  let add bit sigs := if negb (Z.land set bit =? 0) then Z.lor sigs bit else sigs in
  let del bit sigs := if negb (Z.land clear bit =? 0) then Z.land sigs (u32 (Z.lnot bit)) else sigs in
  let sigs := add TIOCM_RI (add TIOCM_CD (add TIOCM_RTS (add TIOCM_DTR sigs))) in
  del TIOCM_RI (del TIOCM_CD (del TIOCM_RTS (del TIOCM_DTR sigs))).

Lemma lines_range sigs set clear : 0 <= sigs < 2 ^ 32 -> 0 <= lines_of_code sigs set clear < 2 ^ 32.
Proof.
  intros Hs. destruct lines as (dtr&rts&cts&cd&ri&dsr&E1&E2&E3&E4&E5&E6&Hf&_). rewrite !Forall_cons in Hf. destruct Hf as (F1&F2&F3&F4&F5&F6&_).
  unfold lines_of_code. cbv zeta. assert (S : forall b x y, (if b : bool then Z.lor x y else x) = set_if b x y) by done.
  assert (C : forall b x y, (if b : bool then Z.land x (u32 (Z.lnot y)) else x) = clear_if b x y) by done. rewrite !S, !C, E1, E2, E4, E5.
  repeat apply clear_if_range. repeat (apply set_if_range; [|lia]). done.
Qed.

Lemma lines_of_code_ok sigs set clear : 0 <= sigs < 2 ^ 32 -> lines_of_code sigs set clear = new_lines sigs set clear.
Proof.
  intros Hs. pose proof (lines_range sigs set clear Hs) as Hr.
  destruct lines as (dtr&rts&cts&cd&ri&dsr&E1&E2&E3&E4&E5&E6&Hf&_). rewrite !Forall_cons in Hf. destruct Hf as (F1&F2&F3&F4&F5&F6&_).
  apply Z.bits_inj'. intros n Hn. unfold new_lines, modem_lines. rewrite Z.ldiff_spec, Z.lor_spec, !Z.land_spec, !Z.lor_spec, E1, E2, E4, E5, !BIT_bits by lia.
  destruct (decide (32 <= n)) as [Hl|Hl].
  { rewrite (testbit_high _ n Hr), (testbit_high _ n Hs) by lia. rewrite !(bool_decide_false (n = _)) by lia. by rewrite !andb_false_r. }
  unfold lines_of_code. cbv zeta. assert (S : forall b x y, (if b : bool then Z.lor x y else x) = set_if b x y) by done.
  assert (C : forall b x y, (if b : bool then Z.land x (u32 (Z.lnot y)) else x) = clear_if b x y) by done.
  assert (CB : forall b x i, 0 <= i < 32 -> Z.testbit (clear_if b x (BIT i)) n = Z.testbit x n && negb (b && bool_decide (n = i))).
  { intros b x i Hi. destruct (clear_if_bit b x i n Hi Hn) as [->|]; [done|lia]. }
  rewrite !S, !C, E1, E2, E4, E5, !CB, !set_if_bit, !line_set by lia.
  repeat case_bool_decide; subst; try lia; rewrite ?andb_true_r, ?andb_false_r, ?orb_false_r, ?orb_true_r, ?andb_true_r; try done;
    repeat match goal with |- context [Z.testbit ?x ?y] => destruct (Z.testbit x y) end; done.
Qed.
End set.

(** ** From one side to the other *)
Section cable.
Context (smem : qcom_smem) (hwlock_rc : Z).
#[local] Instance cable_pipe : GlinkPipe smem_pipes := smem_pipe smem hwlock_rc.
#[local] Instance cable_laws : PipeLaws smem_pipes := smem_pipe_laws smem hwlock_rc.
Context `{Idr} `{Termios}.
Context (WA WB : @glink_world smem_pipes).
Implicit Types (sA sB : qcom_glink smem_pipes).

Lemma set_sigs_exec W sA c k set clear r s' : gl_channels sA !! c = Some k -> 0 <= ch_lsigs k < 2 ^ 32 ->
  let sigs := new_lines (ch_lsigs k) set clear in
  qcom_glink_tx W (glink_msg RPM_CMD_SIGNALS (ch_lcid k) (to_native sigs)) [] true
    (gl_set_channels (<[c := ch_set_lsigs sigs k]> (gl_channels sA)) sA) = Ok (r, s') ->
  qcom_glink_set_sigs W c set clear sA = Ok (r, s').
Proof.
  intros Hk Hs sigs E. unfold qcom_glink_set_sigs, channel_of at 1, st_bind at 1. rewrite Hk. cbv zeta.
  change (match upd_channel c (ch_set_lsigs (lines_of_code (ch_lsigs k) set clear)) sA with
          | Ok (_, s) => qcom_glink_send_signals W c (lines_of_code (ch_lsigs k) set clear) s | Fault => Fault | Loop => Loop end = Ok (r, s')).
  rewrite lines_of_code_ok by done. fold sigs. unfold upd_channel, channel_of, st_bind, st_upd. rewrite Hk.
  unfold qcom_glink_send_signals, channel_of, st_bind. cbn [gl_channels gl_set_channels]. rewrite lookup_insert_eq. exact E.
Qed.

(** The handler at the other end. *)
Lemma hear_signals sA sB cid c k x : edge sA sB (glink_msg RPM_CMD_SIGNALS cid x) -> (1 < w_rounds WB)%nat ->
  0 <= cid < 2 ^ 16 -> 0 <= x < 2 ^ 32 -> gl_rcids sB !! cid = Some c -> gl_channels sB !! c = Some k -> exists sB',
  qcom_glink_native_intr WB (see sA sB) = Ok (tt, sB') /\ edge sB' sA [] /\
  gl_channels sB' = <[c := ch_set_rsigs (from_native x) k]> (gl_channels sB) /\
  gl_trace sB' = gl_trace sB ++ (if ch_sig_cb k then [Signals c (ch_rsigs k) (from_native x)] else []).
Proof.
  intros Ed Hw Hc Hx Hcid Hk. destruct (edge_hears smem hwlock_rc WB sA sB _ Ed Hw) as ([R T Hr _ Hl]&_).
  change (qcom_glink_native_intr WB (see sA sB)) with (intr_loop WB (w_rounds WB) (woken (see sA sB))).
  set (s0 := woken (see sA sB)). destruct (woken_same (see sA sB)) as (W1&W2&_&W4&W5&_). fold s0 in W1, W2, W4, W5.
  set (m := glink_msg RPM_CMD_SIGNALS cid x) in *. assert (Lm : length m = 8%nat) by apply length_msg.
  set (s1 := gl_set_trace (gl_trace s0 ++ (if ch_sig_cb k then [Signals c (ch_rsigs k) (from_native x)] else []))
    (gl_set_channels (<[c := ch_set_rsigs (from_native x) k]> (gl_channels s0)) s0)).
  assert (E1 : qcom_glink_handle_signals cid x s0 = Ok (0, s1)).
  { unfold qcom_glink_handle_signals, find_rcid. rewrite st_bind_get, W4. change (gl_rcids (see sA sB)) with (gl_rcids sB). rewrite Hcid.
    unfold channel_of at 1, st_bind at 1. rewrite W2. change (gl_channels (see sA sB)) with (gl_channels sB). rewrite Hk.
    unfold upd_channel, channel_of, st_bind, st_upd. rewrite W2. change (gl_channels (see sA sB)) with (gl_channels sB). rewrite Hk.
    unfold s1. rewrite W2. change (gl_channels (see sA sB)) with (gl_channels sB). destruct (ch_sig_cb k); [done|].
    rewrite app_nil_r. by destruct s0. }
  assert (R1 : rx_queue s1 m) by (unfold rx_queue, s1; cbn; by rewrite W1).
  destruct (advance_exec s1 m 8 R1) as (p'&E2&[T1 T2 T3]); [rewrite Lm; lia|by exists 1|]. rewrite drop_ge in T1 by (by rewrite Lm).
  assert (R0 : rx_queue s0 (m ++ [])) by (unfold rx_queue; by rewrite W1, app_nil_r). unfold m in R0.
  exists (gl_set_pipe p' s1). split; [|split; [|split]].
  - destruct (w_rounds WB) as [|[|r]]; [lia..|]. rewrite (intr_next WB _ _ _ _ _ _ R0), u16_id, u16_id, u32_id by done. cbn [length].
    assert (Em : intr_msg WB (8 + Z.of_nat 0) RPM_CMD_SIGNALS cid x s0 = Ok (0, gl_set_pipe p' s1)).
    { transitivity ((let! _ := qcom_glink_handle_signals cid x in qcom_glink_rx_advance 8 ;;; st_ret 0) s0); [done|].
      by rewrite (st_bind_ok _ _ _ _ _ E1), (st_bind_ok _ _ _ _ _ E2). }
    unfold st_bind. rewrite Em. cbn [negb Z.eqb]. by rewrite intr_end.
  - pose proof (see_pipe sA sB (ed_sides _ _ _ Ed)) as Ep. assert (Ep1 : gl_pipe s1 = other_side (gl_pipe sA) (ps_mem (gl_pipe sA))) by (cbn; by rewrite W1, Ep).
    assert (Tx : smem_tx_has p' []) by (apply T2; unfold tx_queue; cbn; by rewrite W1).
    rewrite Ep1 in T3. destruct T3 as [X1 X2]. cbn in X1, X2. destruct Ed as [Es _ _ [CA (I&Q&M)] [L1 L2]]. constructor.
    + split; cbn; congruence.
    + exact Tx.
    + exact T1.
    + split; [|done]. unfold calm, memory_lasts in *. unfold s1, s0, woken. by destruct (gl_wake (see sA sB)).1.
    + cbn. by rewrite X1, X2.
  - cbn. by rewrite W2.
  - cbn. by rewrite W5.
Qed.

(** C17: Setting and clearing modem lines of a channel changes exactly the lines the owner names, and the other side
    sees the lines of the far end of the cable: its set ready line is the terminal ready line of this side, its clear to send
    line the request to send line, the other low lines are the same; its owner is told the old and the new lines. *)
Theorem glink_signals sA sB cA kA cB kB set clear : edge sA sB [] -> (1 < w_rounds WA)%nat -> (1 < w_rounds WB)%nat ->
  gl_channels sA !! cA = Some kA -> 0 <= ch_lcid kA < 2 ^ 16 -> 0 <= ch_lsigs kA < 2 ^ 32 ->
  gl_rcids sB !! ch_lcid kA = Some cB -> gl_channels sB !! cB = Some kB ->
  let sigs := new_lines (ch_lsigs kA) set clear in exists sA1 sB1,
  qcom_glink_set_sigs WA cA set clear sA = Ok (0, sA1) /\ gl_channels sA1 = <[cA := ch_set_lsigs sigs kA]> (gl_channels sA) /\
  qcom_glink_native_intr WB (see sA1 sB) = Ok (tt, sB1) /\ qcom_glink_get_sigs cB sB1 = Ok (far_end sigs, sB1) /\
  gl_trace sB1 = gl_trace sB ++ (if ch_sig_cb kB then [Signals cB (ch_rsigs kB) (far_end sigs)] else []) /\ edge sB1 sA1 [].
Proof.
  intros Ed HwA HwB Hk Hl Hs Hc Hkb sigs. set (sA' := gl_set_channels (<[cA := ch_set_lsigs sigs kA]> (gl_channels sA)) sA).
  assert (Ed' : edge sA' sB []) by (destruct Ed as [? ? ? ? ?]; by constructor).
  destruct (say smem hwlock_rc WA sA' sB RPM_CMD_SIGNALS (ch_lcid kA) (to_native sigs) Ed' HwA) as (p'&E&Ed1).
  destruct (hear_signals _ sB _ cB kB _ Ed1 HwB Hl (to_native_range sigs) Hc Hkb) as (sB1&E1&Ed2&Hch&Htr). rewrite cable in Hch, Htr.
  eexists _, sB1. split; [exact (set_sigs_exec WA sA cA kA set clear _ _ Hk Hs E)|]. split; [done|]. split; [exact E1|].
  split; [|split; [exact Htr|exact Ed2]]. unfold qcom_glink_get_sigs, channel_of, st_bind. rewrite Hch, lookup_insert_eq. done.
Qed.
End cable.
