(* ===== verification/GlinkSafe.v ===== *)
(** * The handler on any bytes (drivers/rpmsg/qcom_glink_native.c)

    The other side of an edge is not trusted: whatever it puts into the queue, the interrupt
    handler touches no freed object, keeps the tables of the link, and returns. *)
From S2P Require Import Prelude CMem KernelIdr GlinkPipe GlinkState Glink GlinkLink GlinkSend GlinkRecv.
Open Scope c_scope.

(** ** The tables *)

(** Where a link keeps the address of an intent: offered to the other side, offered by the other
    side, or gathering a message on an edge without intents. *)
Inductive place := Local (c id : Z) | Remote (c id : Z) | Gather (c : Z).

Definition at_place (chs : gmap Z glink_channel) (p : place) (a : Z) : Prop :=
  match p with
  | Local c id => exists k, chs !! c = Some k /\ ch_liids k !! id = Some a
  | Remote c id => exists k, chs !! c = Some k /\ ch_riids k !! id = Some a
  | Gather c => exists k, chs !! c = Some k /\ ch_buf k = Some a
  end.

(** The buffer has the size of the intent, and the bytes so far fit. *)
Record buffer_ok (i : glink_core_rx_intent) : Prop := {
  bu_base : m_base (it_data i) = 0;
  bu_size : m_size (it_data i) = it_size i;
  bu_limit : it_size i < 2 ^ 32;
  bu_offset : 0 <= it_offset i <= it_size i;
}.

Definition place_ok (p : place) (i : glink_core_rx_intent) : Prop :=
  match p with
  | Local _ id => it_id i = id /\ buffer_ok i
  | Remote _ id => it_id i = id
  | Gather _ => buffer_ok i
  end.

Section safe.
Context {P : Type} `{PipeLaws P} `{Idr} `{Termios}.
Context (W : @glink_world P).
Implicit Types (s : qcom_glink P).

Record link_ok s : Prop := {
  lo_rcids cid c : gl_rcids s !! cid = Some c -> is_Some (gl_channels s !! c);
  lo_lcids cid c : gl_lcids s !! cid = Some c -> is_Some (gl_channels s !! c);
  lo_next a : is_Some (gl_intents s !! a) -> a < gl_next s;
  lo_place p a : at_place (gl_channels s) p a -> exists i, gl_intents s !! a = Some i /\ place_ok p i;
  lo_apart p p' a : at_place (gl_channels s) p a -> at_place (gl_channels s) p' a -> p = p';
  lo_done c k : gl_channels s !! c = Some k -> ch_done_intents k = [];
  lo_reset : gl_in_reset s = 0;
}.

(** Only the parts named changed. *)
Lemma link_ok_ext s s' : gl_rcids s' = gl_rcids s -> gl_lcids s' = gl_lcids s -> gl_channels s' = gl_channels s ->
  gl_intents s' = gl_intents s -> gl_next s' = gl_next s -> gl_in_reset s' = gl_in_reset s -> link_ok s -> link_ok s'.
Proof. intros E1 E2 E3 E4 E5 E6 [? ? ? ? ? ? ?]. constructor; rewrite ?E1, ?E2, ?E3, ?E4, ?E5, ?E6; done. Qed.

(** A step that adds no place: each place that is left has its intent, in order. *)
Lemma link_ok_step s s' : link_ok s -> gl_rcids s' = gl_rcids s -> gl_lcids s' = gl_lcids s -> gl_in_reset s' = gl_in_reset s ->
  (forall c, is_Some (gl_channels s !! c) -> is_Some (gl_channels s' !! c)) ->
  (forall a, is_Some (gl_intents s' !! a) -> a < gl_next s') ->
  (forall c k, gl_channels s' !! c = Some k -> ch_done_intents k = []) ->
  (forall p a, at_place (gl_channels s') p a -> at_place (gl_channels s) p a /\ exists i, gl_intents s' !! a = Some i /\ place_ok p i) ->
  link_ok s'.
Proof.
  intros [? ? ? ? Ap ? ?] E1 E2 E3 Hc Hn Hd Hp. constructor; rewrite ?E1, ?E2, ?E3; eauto.
  - intros p a Ha. by apply Hp.
  - intros p p' a Ha Ha'. apply (Ap p p' a); by apply Hp.
Qed.

Lemma at_place_insert chs c k p a : at_place (<[c := k]> chs) p a ->
  match p with
  | Local c' id => c' = c /\ ch_liids k !! id = Some a
  | Remote c' id => c' = c /\ ch_riids k !! id = Some a
  | Gather c' => c' = c /\ ch_buf k = Some a
  end \/ at_place chs p a.
Proof.
  destruct p as [c' id|c' id|c']; cbn; intros (k'&Hk&Ha); (destruct (decide (c' = c)) as [->|Hne];
    [rewrite lookup_insert_eq in Hk; injection Hk as <-; by left|rewrite lookup_insert_ne in Hk by done; right; eauto]).
Qed.

Lemma upd_channel_exec s c k f : gl_channels s !! c = Some k -> upd_channel c f s = Ok (tt, gl_set_channels (<[c := f k]> (gl_channels s)) s).
Proof. intros Hk. unfold upd_channel, channel_of, st_bind, st_upd. by rewrite Hk. Qed.
Lemma upd_intent_exec s a i f : gl_intents s !! a = Some i -> upd_intent a f s = Ok (tt, set_intent a (f i) s).
Proof. intros Hi. unfold upd_intent, intent_of, st_bind, st_upd. by rewrite Hi. Qed.
Lemma channel_exec s c k : gl_channels s !! c = Some k -> channel_of c s = Ok (k, s).
Proof. intros Hk. unfold channel_of. by rewrite Hk. Qed.
Lemma intent_exec s a i : gl_intents s !! a = Some i -> intent_of a s = Ok (i, s).
Proof. intros Hi. unfold intent_of. by rewrite Hi. Qed.

(** A change of a channel that adds no place. *)
Definition fewer_places (k k' : glink_channel) : Prop :=
  (forall id a, ch_liids k' !! id = Some a -> ch_liids k !! id = Some a) /\
  (forall id a, ch_riids k' !! id = Some a -> ch_riids k !! id = Some a) /\
  (forall a, ch_buf k' = Some a -> ch_buf k = Some a) /\ ch_done_intents k' = ch_done_intents k.

Lemma fewer_insert chs c k k' p a : chs !! c = Some k -> fewer_places k k' -> at_place (<[c := k']> chs) p a -> at_place chs p a.
Proof.
  intros Hk (F1&F2&F3&_) Ha. apply at_place_insert in Ha as [Ha|Ha]; [|done]. destruct p; destruct Ha as [-> Ha]; cbn; eauto.
Qed.

Lemma link_ok_channel s c k k' : link_ok s -> gl_channels s !! c = Some k -> fewer_places k k' ->
  link_ok (gl_set_channels (<[c := k']> (gl_channels s)) s).
Proof.
  intros Ok_ Hk F. apply (link_ok_step s); try done.
  - intros c' Hc. cbn. destruct (decide (c' = c)) as [->|Hne]; [by rewrite lookup_insert_eq; eexists|by rewrite lookup_insert_ne].
  - apply Ok_.
  - intros c' k0. cbn. destruct (decide (c' = c)) as [->|Hne].
    + rewrite lookup_insert_eq. intros [= <-]. destruct F as (_&_&_&->). by apply (lo_done _ Ok_ c).
    + rewrite lookup_insert_ne by done. by apply Ok_.
  - intros p a Ha. apply (fewer_insert _ _ _ _ _ _ Hk F) in Ha. split; [done|]. by apply Ok_.
Qed.

(** An intent that changed but keeps its place. *)
Lemma link_ok_intent s a i j : link_ok s -> gl_intents s !! a = Some i -> it_id j = it_id i -> (buffer_ok i -> buffer_ok j) ->
  link_ok (set_intent a j s).
Proof.
  intros Ok_ Hi Hid Hb. apply (link_ok_step s); try done; cbn.
  - intros a'. destruct (decide (a' = a)) as [->|Hne]; [intros _; apply (lo_next _ Ok_); by eexists|].
    rewrite lookup_insert_ne by done. apply Ok_.
  - apply Ok_.
  - intros p a' Ha. split; [done|]. destruct (lo_place _ Ok_ p a' Ha) as (i'&Hi'&Hp). destruct (decide (a' = a)) as [->|Hne].
    + rewrite lookup_insert_eq. exists j. split; [done|]. assert (i' = i) as -> by congruence. destruct p; cbn in *; rewrite ?Hid; naive_solver.
    + rewrite lookup_insert_ne by done. eauto.
Qed.

(** An intent that no place holds any more is freed. *)
Lemma link_ok_free s a : link_ok s -> (forall p, ~ at_place (gl_channels s) p a) ->
  link_ok (gl_set_intents (delete a (gl_intents s)) s).
Proof.
  intros Ok_ Hno. apply (link_ok_step s); try done; cbn.
  - intros a' [i Hi]. apply lookup_delete_Some in Hi as [_ Hi]. apply (lo_next _ Ok_). by eexists.
  - apply Ok_.
  - intros p a' Ha. split; [done|]. destruct (lo_place _ Ok_ p a' Ha) as (i'&Hi'&Hp).
    rewrite lookup_delete_ne; [eauto|]. intros ->. by apply (Hno p).
Qed.

(** ** Progress through the queue *)

(** The queue [q] is to be read, and there is room for an answer to each sixteen bytes of it. *)
Record good s (q : list Z) : Prop := {
  go_ok : link_ok s;
  go_rx : rx_queue s q;
  go_room : exists t, tx_queue s t /\ 2 * Z.of_nat (length t) + Z.of_nat (length q) <= 2 * (fifo_length s - 16);
}.

Definition allocs s : nat := length (gl_env s GAlloc).

(** A message was handled: [n] bytes are gone, and a result of 0 means progress. *)
Definition handled s (q : list Z) (ret : Z) s' : Prop := exists n, 0 <= n <= Z.of_nat (length q) /\ (8 | n) /\
  good s' (drop (Z.to_nat n) q) /\ gl_rcids s' = gl_rcids s /\ (allocs s' <= allocs s)%nat /\
  (ret = 0 -> 8 <= n \/ (allocs s' < allocs s)%nat).

(** A step off the queues. *)
Record beside s s' : Prop := {
  bs_ok : link_ok s -> link_ok s';
  bs_pipe : gl_pipe s' = gl_pipe s;
  bs_rcids : gl_rcids s' = gl_rcids s;
  bs_allocs : (allocs s' <= allocs s)%nat;
}.

Lemma beside_refl s : beside s s.
Proof. done. Qed.
Lemma beside_trans s1 s2 s3 : beside s1 s2 -> beside s2 s3 -> beside s1 s3.
Proof. intros [A1 A2 A3 A4] [B1 B2 B3 B4]. constructor; [auto|congruence|congruence|lia]. Qed.

Lemma good_beside s s' q : beside s s' -> good s q -> good s' q.
Proof. intros [B1 B2 _ _] [G1 G2 G3]. constructor; [auto|..]; unfold rx_queue, tx_queue, fifo_length in *; by rewrite B2. Qed.

Lemma advance_good s q n : good s q -> 0 <= n <= Z.of_nat (length q) -> (8 | n) -> exists p',
  qcom_glink_rx_advance n s = Ok (tt, gl_set_pipe p' s) /\ good (gl_set_pipe p' s) (drop (Z.to_nat n) q).
Proof.
  intros [G1 G2 (t&T&Ht)] Hn Hu. destruct (advance_exec s q n G2 Hn Hu) as (p'&E&Tk). exists p'. split; [exact E|]. constructor.
  - by apply (link_ok_ext s).
  - apply Tk.
  - exists t. split; [by apply Tk|]. change (fifo_length (gl_set_pipe p' s)) with (pipe_tx_length p').
    rewrite (tk_length _ _ _ Tk), length_drop. lia.
Qed.

(** Steps beside the queue, then [n] bytes are dropped. *)
Lemma handled_advance s s1 q n ret : beside s s1 -> good s q -> 8 <= n <= Z.of_nat (length q) -> (8 | n) ->
  exists s', (qcom_glink_rx_advance n ;;; st_ret ret) s1 = Ok (ret, s') /\ handled s q ret s'.
Proof.
  intros B G Hn Hu. destruct (advance_good s1 q n (good_beside _ _ _ B G) ltac:(lia) Hu) as (p'&E&G').
  exists (gl_set_pipe p' s1). rewrite (st_bind_ok _ _ _ _ _ E). split; [done|]. exists n. split; [lia|]. split; [done|].
  split; [done|]. split; [exact (bs_rcids _ _ B)|]. split; [exact (bs_allocs _ _ B)|]. intros _. left. lia.
Qed.

(** Nothing happened, and the loop ends. *)
Lemma handled_stop s s' q ret : beside s s' -> good s q -> ret <> 0 -> handled s q ret s'.
Proof.
  intros B G Hr. exists 0. split; [lia|]. split; [apply Z.divide_0_r|]. split; [by apply (good_beside s)|].
  split; [apply B|]. split; [apply B|done].
Qed.

(** The end is put off: memory was asked for in vain. *)
Lemma handled_again s s' q : beside s s' -> good s q -> (allocs s' < allocs s)%nat -> handled s q 0 s'.
Proof.
  intros B G Hr. exists 0. split; [lia|]. split; [apply Z.divide_0_r|]. split; [by apply (good_beside s)|].
  split; [exact (bs_rcids _ _ B)|]. split; [exact (bs_allocs _ _ B)|]. intros _. by right.
Qed.

Lemma ask_beside s g : exists x s', glink_ask g s = Ok (x, s') /\ beside s s' /\ s' = gl_set_env (gl_env s') s /\
  (x <> 0 -> g = GAlloc -> (allocs s' < allocs s)%nat).
Proof.
  unfold glink_ask. destruct (gl_env s g) as [|x l] eqn:E.
  { exists 0, s. split; [done|]. split; [apply beside_refl|]. split; [by destruct s|done]. }
  assert (L : g = GAlloc -> (length (if decide (GAlloc = g) then l else gl_env s GAlloc) < allocs s)%nat).
  { intros ->. rewrite decide_True by done. unfold allocs. rewrite E. cbn. lia. }
  eexists x, _. split; [done|]. split; [|split; [done|by intros _]]. constructor; [by apply link_ok_ext|done|done|].
  unfold allocs at 1. cbn [gl_env gl_set_env]. case_decide as Hg; [specialize (L (eq_sym Hg)); lia|done].
Qed.

Lemma alloc_exec s : exists ok s', alloc_ok GAlloc s = Ok (ok, s') /\ beside s s' /\ (ok = false -> (allocs s' < allocs s)%nat) /\
  s' = gl_set_env (gl_env s') s.
Proof.
  destruct (ask_beside s GAlloc) as (x&s'&E&B&Es&L). exists (x =? 0), s'. unfold alloc_ok. rewrite (st_bind_ok _ _ _ _ _ E).
  split; [done|]. split; [done|]. split; [|done]. intros Hx. apply L; [lia|done].
Qed.

(** ** The messages *)
Lemma ALIGN_8_id n : 0 <= n < 2 ^ 40 -> (8 | n) -> ALIGN n 8 = n.
Proof. intros Hn [k ->]. rewrite ALIGN_8 by lia. replace (k * 8 + 7) with (7 + k * 8) by lia. rewrite Z.div_add by lia. change (7 / 8) with 0. lia. Qed.

(** A length rounded up to a unit fits when the length does. *)
Lemma ALIGN_fits n (q : list Z) : 0 <= n <= Z.of_nat (length q) -> Z.of_nat (length q) < 2 ^ 32 -> (8 | Z.of_nat (length q)) ->
  n <= ALIGN n 8 <= Z.of_nat (length q) /\ (8 | ALIGN n 8).
Proof.
  intros Hn Hq [k Hk]. rewrite ALIGN_padding by lia. unfold padding.
  pose proof (Z.div_mod (- n) 8 ltac:(lia)) as D. pose proof (Z.mod_pos_bound (- n) 8 ltac:(lia)).
  split; [|exists (- (- n / 8)); lia]. split; [lia|]. assert (- (- n / 8) <= k); [|lia].
  assert (- k <= - n / 8); [|lia]. apply Z.div_le_lower_bound; lia.
Qed.

Lemma defer_good s q extra : good s q -> 0 <= extra < 2 ^ 32 -> exists ret s', qcom_glink_rx_defer extra s = Ok (ret, s') /\ handled s q ret s'.
Proof.
  intros G He. unfold qcom_glink_rx_defer, sizeof_msg. rewrite (st_bind_ok _ _ _ _ _ (avail_exec s q (go_rx _ _ G))).
  pose proof (ALIGN_8_bounds extra ltac:(lia)). pose proof (ALIGN_8_mod extra ltac:(lia)) as Hm. rewrite u64_id by lia. case_if.
  - exists (- ENXIO), s. split; [done|]. apply handled_stop; [apply beside_refl|done|done].
  - destruct (alloc_exec s) as (ok&s1&E1&B1&_&_). rewrite (st_bind_ok _ _ _ _ _ E1). destruct ok; cbn [negb].
    + set (n := 8 + ALIGN extra 8) in *.
      rewrite (st_bind_ok _ _ _ _ _ (peak_exec s1 q 0 n (go_rx _ _ (good_beside _ _ _ B1 G)) ltac:(lia) ltac:(lia) ltac:(lia))).
      rewrite st_bind_upd.
      destruct (handled_advance s (gl_set_rx_work true (gl_set_rx_queue (gl_rx_queue s1 ++ [take (Z.to_nat n) (drop (Z.to_nat 0) q)]) s1)) q n 0)
        as (s'&E&Hd); [|done|lia| |by eexists _, _].
      * apply (beside_trans _ s1); [done|]. constructor; [by apply link_ok_ext|done..].
      * apply Z.divide_add_r; [by exists 1|]. by apply Z.mod_divide.
    + eexists _, _. split; [reflexivity|]. apply handled_stop; [exact B1|done|done].
Qed.

Lemma found_channel s cid c : link_ok s -> gl_rcids s !! cid = Some c -> exists k, gl_channels s !! c = Some k.
Proof. intros Ok_ Hc. destruct (lo_rcids _ Ok_ cid c Hc) as [k Hk]. eauto. Qed.

Lemma beside_channel s c k k' : gl_channels s !! c = Some k -> fewer_places k k' -> beside s (gl_set_channels (<[c := k']> (gl_channels s)) s).
Proof. intros Hk F. constructor; [intros Ok_; by apply (link_ok_channel s c k)|done..]. Qed.

Lemma fewer_same k k' : ch_liids k' = ch_liids k -> ch_riids k' = ch_riids k -> ch_buf k' = ch_buf k ->
  ch_done_intents k' = ch_done_intents k -> fewer_places k k'.
Proof. intros E1 E2 E3 E4. unfold fewer_places. rewrite E1, E2, E3, E4. naive_solver. Qed.

Lemma req_ack_beside s cid granted : link_ok s -> exists s', qcom_glink_handle_intent_req_ack cid granted s = Ok (tt, s') /\ beside s s'.
Proof.
  intros Ok_. unfold qcom_glink_handle_intent_req_ack, find_rcid. rewrite st_bind_get. destruct (gl_rcids s !! cid) as [c|] eqn:Ec.
  - destruct (found_channel s cid c Ok_ Ec) as [k Hk]. rewrite (st_bind_ok _ _ _ _ _ (upd_channel_exec s c k _ Hk)).
    rewrite (upd_channel_exec _ c (ch_set_intent_req_result granted k)) by (cbn; by rewrite lookup_insert_eq).
    eexists. split; [reflexivity|]. apply (beside_trans _ (gl_set_channels (<[c := ch_set_intent_req_result granted k]> (gl_channels s)) s)).
    + apply (beside_channel s c k); [done|by apply fewer_same].
    + apply (beside_channel _ c (ch_set_intent_req_result granted k)); [cbn; by rewrite lookup_insert_eq|by apply fewer_same].
  - exists s. split; [done|apply beside_refl].
Qed.

Lemma open_ack_beside s lcid : link_ok s -> exists ret s', qcom_glink_rx_open_ack lcid s = Ok (ret, s') /\ beside s s'.
Proof.
  intros Ok_. unfold qcom_glink_rx_open_ack, find_lcid. rewrite st_bind_get. destruct (gl_lcids s !! lcid) as [c|] eqn:Ec.
  - destruct (lo_lcids _ Ok_ lcid c Ec) as [k Hk]. rewrite (st_bind_ok _ _ _ _ _ (upd_channel_exec s c k _ Hk)).
    eexists _, _. split; [reflexivity|]. apply (beside_channel s c k); [done|by apply fewer_same].
  - eexists _, s. split; [reflexivity|apply beside_refl].
Qed.

Lemma signals_beside s rcid signals : link_ok s -> exists ret s', qcom_glink_handle_signals rcid signals s = Ok (ret, s') /\ beside s s'.
Proof.
  intros Ok_. unfold qcom_glink_handle_signals, find_rcid. rewrite st_bind_get. destruct (gl_rcids s !! rcid) as [c|] eqn:Ec.
  - destruct (found_channel s rcid c Ok_ Ec) as [k Hk]. rewrite (st_bind_ok _ _ _ _ _ (channel_exec s c k Hk)).
    rewrite (st_bind_ok _ _ _ _ _ (upd_channel_exec s c k _ Hk)).
    pose proof (beside_channel s c k (ch_set_rsigs (from_native signals) k) Hk ltac:(by apply fewer_same)) as B.
    destruct (ch_sig_cb k); [|eexists _, _; split; [reflexivity|exact B]].
    eexists _, _. split; [reflexivity|]. apply (beside_trans _ _ _ B). constructor; [by apply link_ok_ext|done..].
  - eexists _, s. split; [reflexivity|apply beside_refl].
Qed.

Lemma free_exec s a : is_Some (gl_intents s !! a) -> free_intent a s = Ok (tt, gl_set_intents (delete a (gl_intents s)) s).
Proof. intros [i Hi]. unfold free_intent. by rewrite (st_bind_ok _ _ _ _ _ (intent_exec s a i Hi)). Qed.

(** An intent leaves its place and is freed. *)
Lemma link_ok_drop s c k k' p a : link_ok s -> gl_channels s !! c = Some k -> fewer_places k k' -> at_place (gl_channels s) p a ->
  ~ at_place (<[c := k']> (gl_channels s)) p a ->
  link_ok (gl_set_intents (delete a (gl_intents s)) (gl_set_channels (<[c := k']> (gl_channels s)) s)).
Proof.
  intros Ok_ Hk F Ha Hno. apply (link_ok_free (gl_set_channels (<[c := k']> (gl_channels s)) s)); [by apply (link_ok_channel s c k)|]. cbn. intros p' Ha'.
  apply Hno. rewrite (lo_apart _ Ok_ p p' a); [done|done|]. by apply (fewer_insert _ c k k').
Qed.

Lemma fewer_riids k id : fewer_places k (ch_set_riids (delete id (ch_riids k)) k).
Proof. repeat split; try done. intros id' a. cbn. intros Ha. by apply lookup_delete_Some in Ha as [_ Ha]. Qed.
Lemma fewer_liids k id : fewer_places k (ch_set_liids (delete id (ch_liids k)) k).
Proof. repeat split; try done. intros id' a. cbn. intros Ha. by apply lookup_delete_Some in Ha as [_ Ha]. Qed.
Lemma fewer_buf k : fewer_places k (ch_set_buf None k).
Proof. by repeat split. Qed.

Lemma rx_done_beside s cid iid reuse : link_ok s -> exists s', qcom_glink_handle_rx_done cid iid reuse s = Ok (tt, s') /\ beside s s'.
Proof.
  intros Ok_. unfold qcom_glink_handle_rx_done, find_rcid. rewrite st_bind_get.
  destruct (gl_rcids s !! cid) as [c|] eqn:Ec; [|exists s; split; [done|apply beside_refl]].
  destruct (found_channel s cid c Ok_ Ec) as [k Hk]. rewrite (st_bind_ok _ _ _ _ _ (channel_exec s c k Hk)).
  destruct (ch_riids k !! iid) as [a|] eqn:Ea; [|exists s; split; [done|apply beside_refl]].
  assert (Pa : at_place (gl_channels s) (Remote c iid) a) by (exists k; done).
  destruct (lo_place _ Ok_ _ _ Pa) as (i&Hi&Hid). cbn in Hid.
  rewrite (st_bind_ok _ _ _ _ _ (upd_intent_exec s a i _ Hi)). set (s1 := set_intent a (it_set_in_use false i) s).
  assert (Ok1 : link_ok s1) by (apply (link_ok_intent s a i); [done|done|done|intros [? ? ? ?]; by constructor]).
  destruct reuse; [exists s1; split; [done|constructor; done]|].
  rewrite (st_bind_ok _ _ _ _ _ (intent_exec s1 a (it_set_in_use false i) ltac:(apply lookup_insert_eq))).
  rewrite (st_bind_ok _ _ _ _ _ (upd_channel_exec s1 c k _ Hk)). cbn [it_id it_set_in_use]. rewrite Hid.
  rewrite free_exec by (cbn; rewrite lookup_insert_eq; by eexists). eexists. split; [reflexivity|].
  constructor; [intros _|done..]. apply (link_ok_drop s1 c k _ (Remote c iid)); [done|done|apply fewer_riids|exact Pa|].
  cbn. rewrite lookup_insert_eq. intros (k'&[= <-]&Hx). cbn in Hx. by rewrite lookup_delete_eq in Hx.
Qed.

(** A new intent, in a new place. *)
Definition with_intent (i : glink_core_rx_intent) s : qcom_glink P :=
  gl_set_next (gl_next s + 1) (gl_set_intents (<[gl_next s := i]> (gl_intents s)) s).

Lemma new_exec s i : new_intent i s = Ok (gl_next s, with_intent i s).
Proof. reflexivity. Qed.

Lemma fresh s p a : link_ok s -> at_place (gl_channels s) p a -> a < gl_next s.
Proof. intros Ok_ Ha. destruct (lo_place _ Ok_ p a Ha) as (i&Hi&_). apply (lo_next _ Ok_). by eexists. Qed.

Lemma link_ok_new s i : link_ok s -> link_ok (with_intent i s).
Proof.
  intros Ok_. apply (link_ok_step s); try done; cbn.
  - intros a Ha. destruct (decide (a = gl_next s)) as [->|Hne]; [lia|]. rewrite lookup_insert_ne in Ha by done.
    pose proof (lo_next _ Ok_ a Ha). lia.
  - apply Ok_.
  - intros p a Ha. split; [done|]. pose proof (fresh s p a Ok_ Ha). rewrite lookup_insert_ne by lia. by apply Ok_.
Qed.

Lemma link_ok_put s c k k' p i : link_ok s -> gl_channels s !! c = Some k -> place_ok p i -> ch_done_intents k' = [] ->
  (forall p' a, at_place (<[c := k']> (gl_channels s)) p' a -> p' = p /\ a = gl_next s \/ at_place (gl_channels s) p' a) ->
  link_ok (gl_set_channels (<[c := k']> (gl_channels s)) (with_intent i s)).
Proof.
  intros Ok_ Hk Hi Hd Hp. pose proof (link_ok_new s i Ok_) as Okn.
  assert (Hc : forall c', is_Some (gl_channels s !! c') -> is_Some (<[c := k']> (gl_channels s) !! c')).
  { intros c' Hc. destruct (decide (c' = c)) as [->|Hne]; [by rewrite lookup_insert_eq; eexists|by rewrite lookup_insert_ne]. }
  constructor; cbn.
  - intros cid c' Hx. apply Hc. by apply (lo_rcids _ Ok_ cid).
  - intros cid c' Hx. apply Hc. by apply (lo_lcids _ Ok_ cid).
  - apply Okn.
  - intros p' a Ha. destruct (Hp p' a Ha) as [[-> ->]|Ha']; [exists i; split; [apply lookup_insert_eq|done]|by apply Okn].
  - intros p1 p2 a H1' H2'. destruct (Hp p1 a H1') as [[-> ->]|Ha1], (Hp p2 _ H2') as [[-> E2]|Ha2]; try done.
    + pose proof (fresh s _ _ Ok_ Ha2). lia.
    + pose proof (fresh s _ _ Ok_ Ha1). lia.
    + by apply (lo_apart _ Ok_ p1 p2 a).
  - intros c' k0. destruct (decide (c' = c)) as [->|Hne]; [rewrite lookup_insert_eq; by intros [= <-]|].
    rewrite lookup_insert_ne by done. apply Ok_.
  - apply Ok_.
Qed.

Lemma field_some n b off : 0 <= off -> off + Z.of_nat n <= Z.of_nat (length b) -> Forall byte_ok b ->
  exists v, field n b off = Ok v /\ 0 <= v < 2 ^ (8 * Z.of_nat n).
Proof.
  intros Ho Hl Hb. pose proof (field_ok n b off Ho Hl) as E. eexists. split; [exact E|]. by apply (field_range n b off).
Qed.

Lemma put_riid k id a c chs p' a' : at_place (<[c := ch_set_riids (<[id := a]> (ch_riids k)) k]> chs) p' a' -> chs !! c = Some k ->
  p' = Remote c id /\ a' = a \/ at_place chs p' a'.
Proof.
  intros Hx Hk. apply at_place_insert in Hx as [Hx|Hx]; [|by right]. destruct p' as [c' id'|c' id'|c']; destruct Hx as [-> Hx]; cbn in *.
  - right. eauto.
  - destruct (decide (id' = id)) as [->|Hne]; [rewrite lookup_insert_eq in Hx; injection Hx as <-; by left|].
    rewrite lookup_insert_ne in Hx by done. right. eauto.
  - right. eauto.
Qed.

(** The numbers of the message become intents as long as there is memory. *)
Lemma store_beside n : forall s c msg off, link_ok s -> is_Some (gl_channels s !! c) -> Forall byte_ok msg -> 0 <= off ->
  off + 8 * Z.of_nat n <= Z.of_nat (length msg) ->
  exists s', store_intents n c msg off s = Ok (tt, s') /\ beside s s' /\ is_Some (gl_channels s' !! c).
Proof.
  induction n as [|n IH]; intros s c msg off Ok_ Hc Hb Ho Hl; cbn [store_intents].
  { exists s. split; [done|]. split; [apply beside_refl|done]. }
  destruct (alloc_exec s) as (ok&s1&E1&B1&_&Es1). rewrite (st_bind_ok _ _ _ _ _ E1). destruct ok; cbn [negb].
  2: { exists s1. split; [done|]. split; [done|]. by rewrite Es1. }
  destruct (field_some 4 msg off Ho ltac:(lia) Hb) as (size&E2&_). destruct (field_some 4 msg (off + 4) ltac:(lia) ltac:(lia) Hb) as (iid&E3&Hiid).
  rewrite (st_bind_ok _ _ _ _ _ (st_lift_ok _ _ s1 E2)), (st_bind_ok _ _ _ _ _ (st_lift_ok _ _ s1 E3)).
  set (i := Intent (Mem 0 0 ∅) iid size false false false 0).
  rewrite (st_bind_ok _ _ _ _ _ (new_exec s1 i)). set (s2 := with_intent i s1).
  assert (Hc2 : is_Some (gl_channels s2 !! c)) by (unfold s2; rewrite Es1; done). destruct Hc2 as [k Hk].
  rewrite (st_bind_ok _ _ _ _ _ (channel_exec s2 c k Hk)).
  destruct (ask_beside s2 GIdr) as (x&s3&E4&B3&Es3&_). rewrite (st_bind_ok _ _ _ _ _ E4). cbv zeta.
  set (ret := if s32 iid <? 0 then - EINVAL else if x =? 0 then idr_alloc (ch_riids k) iid (iid + 1) else - ENOMEM).
  assert (B2 : beside s1 s2) by (constructor; [apply link_ok_new|done..]).
  assert (Hk3 : gl_channels s3 !! c = Some k) by (rewrite Es3; done).
  set (s4 := if 0 <=? ret then gl_set_channels (<[c := ch_set_riids (<[ret := gl_next s1]> (ch_riids k)) k]> (gl_channels s3)) s3 else s3).
  assert (E5 : (if 0 <=? ret then upd_channel c (ch_set_riids (<[ret := gl_next s1]> (ch_riids k))) else st_ret tt) s3 = Ok (tt, s4)).
  { unfold s4. destruct (0 <=? ret); [|done]. by rewrite (upd_channel_exec s3 c k). }
  rewrite (st_bind_ok _ _ _ _ _ E5).
  assert (B4 : beside s s4).
  { apply (beside_trans _ s1); [done|]. unfold s4. destruct (0 <=? ret) eqn:Er; [|by apply (beside_trans _ s2)].
    pose proof (beside_trans _ _ _ B2 B3) as B. destruct B as [_ Bp Br Ba]. constructor; [|done..]. intros Ok1.
    assert (Hret : ret = iid /\ ch_riids k !! iid = None).
    { unfold ret in Er |- *. destruct (s32 iid <? 0); [done|]. destruct (x =? 0); [|done].
      destruct (idr_alloc_spec (ch_riids k) iid (iid + 1)) as [[Hr Hn]|[Hr _]]; [lia| |by rewrite Hr in Er].
      assert (Ei : idr_alloc (ch_riids k) iid (iid + 1) = iid) by lia. by rewrite Ei in *. }
    destruct Hret as [-> Hnone].
    apply (link_ok_ext (gl_set_channels (<[c := ch_set_riids (<[iid := gl_next s1]> (ch_riids k)) k]> (gl_channels s1)) (with_intent i s1)));
      try (rewrite Es3; done).
    assert (Hk1 : gl_channels s1 !! c = Some k) by exact Hk.
    apply (link_ok_put s1 c k _ (Remote c iid)); [done|done|done|exact (lo_done _ Ok1 c k Hk1)|]. intros p' a' Hx. by apply (put_riid k iid _ c). }
  assert (Hc4 : is_Some (gl_channels s4 !! c)).
  { unfold s4. destruct (0 <=? ret); cbn; [rewrite lookup_insert_eq|rewrite Hk3]; by eexists. }
  destruct (IH s4 c msg (off + 8) (bs_ok _ _ B4 Ok_) Hc4 Hb ltac:(lia) ltac:(lia)) as (s'&E6&B6&Hc'). exists s'. split; [exact E6|].
  split; [by apply (beside_trans _ s4)|done].
Qed.

(** The numbers of offered intents; nothing is taken from the queue when the channel is unknown or the message is not
    complete. *)
Lemma intent_good s q cid count : good s q -> is_Some (gl_rcids s !! cid) -> 0 <= count -> 8 + 8 * count <= Z.of_nat (length q) ->
  exists s', (qcom_glink_handle_intent cid count (Z.of_nat (length q)) ;;; st_ret 0) s = Ok (0, s') /\ handled s q 0 s'.
Proof.
  intros G [c Ec] Hn Hl. destruct (rx_has_ok _ _ (go_rx _ _ G)) as (Hb&Hu&Hlim). unfold qcom_glink_handle_intent, sizeof_msg.
  cbv zeta. bool_false (Z.of_nat (length q) <? 8 + 8 * count). unfold find_rcid. rewrite st_bind_bind, st_bind_get, Ec, st_bind_bind.
  destruct (alloc_exec s) as (ok&s1&E1&B1&L1&Es1). rewrite (st_bind_ok _ _ _ _ _ E1). destruct ok; cbn [negb].
  2: { exists s1. split; [done|]. apply handled_again; [done|done|by apply L1]. }
  rewrite st_bind_bind, (st_bind_ok _ _ _ _ _ (peak_exec s1 q 0 (8 + 8 * count) (go_rx _ _ (good_beside _ _ _ B1 G)) ltac:(lia) ltac:(lia) ltac:(lia))).
  set (msg := take _ (drop _ q)). assert (Lm : Z.of_nat (length msg) = 8 + 8 * count) by (unfold msg; rewrite length_take, length_drop; lia).
  pose proof (go_ok _ _ (good_beside _ _ _ B1 G)) as Ok1.
  assert (Hc1 : is_Some (gl_channels s1 !! c)) by (apply (lo_rcids _ Ok1 cid); by rewrite (bs_rcids _ _ B1)).
  destruct (store_beside (Z.to_nat count) s1 c msg 8 Ok1 Hc1) as (s2&E2&B2&[k Hk]); [unfold msg; by apply Forall_take, Forall_drop|lia|lia|].
  rewrite st_bind_bind, (st_bind_ok _ _ _ _ _ E2), st_bind_bind, (st_bind_ok _ _ _ _ _ (upd_channel_exec s2 c k _ Hk)).
  rewrite ALIGN_8_id by (lia || by apply Z.divide_add_r; [by exists 1|exists count; lia]).
  apply (handled_advance s); [|done|lia|apply Z.divide_add_r; [by exists 1|exists count; lia]].
  apply (beside_trans _ s1); [done|]. apply (beside_trans _ s2); [done|]. apply (beside_channel s2 c k); [done|by apply fewer_same].
Qed.

(** ** Data *)

(** An answer may have been sent already: room for the rest of the queue once sixteen bytes of it are gone. *)
Record owing s (q : list Z) : Prop := {
  ow_ok : link_ok s;
  ow_rx : rx_queue s q;
  ow_room : exists t, tx_queue s t /\ 2 * Z.of_nat (length t) + Z.of_nat (length q) <= 2 * (fifo_length s - 16) + 16;
}.

Lemma good_owing s q : good s q -> owing s q.
Proof. intros [G1 G2 (t&T&Ht)]. constructor; [done|done|]. exists t. split; [done|lia]. Qed.

Lemma owing_advance s s1 q n ret : owing s1 q -> gl_rcids s1 = gl_rcids s -> (allocs s1 <= allocs s)%nat ->
  16 <= n <= Z.of_nat (length q) -> (8 | n) -> exists s',
  (qcom_glink_rx_advance n ;;; st_ret ret) s1 = Ok (ret, s') /\ handled s q ret s'.
Proof.
  intros [G1 G2 (t&T&Ht)] Er Ea Hn Hu. destruct (advance_exec s1 q n G2 ltac:(lia) Hu) as (p'&E&Tk). exists (gl_set_pipe p' s1).
  rewrite (st_bind_ok _ _ _ _ _ E). split; [done|]. exists n. split; [lia|]. split; [done|]. split; [constructor|].
  - by apply (link_ok_ext s1).
  - apply Tk.
  - exists t. split; [by apply Tk|]. change (fifo_length (gl_set_pipe p' s1)) with (pipe_tx_length p').
    rewrite (tk_length _ _ _ Tk), length_drop. lia.
  - split; [exact Er|]. split; [exact Ea|]. intros _. left. lia.
Qed.

(** The place the data goes to, by the kind of the edge. *)
Definition data_place s (c liid : Z) : place := if gl_intentless s then Gather c else Local c liid.

Lemma data_place_buffer s c liid a : link_ok s -> at_place (gl_channels s) (data_place s c liid) a ->
  exists i, gl_intents s !! a = Some i /\ buffer_ok i /\ (gl_intentless s = false -> it_id i = liid).
Proof.
  intros Ok_ Ha. destruct (lo_place _ Ok_ _ _ Ha) as (i&Hi&Hp). exists i. split; [done|]. unfold data_place in Hp.
  destruct (gl_intentless s); cbn in Hp; [done|]. by destruct Hp.
Qed.

Lemma put_buf k a c chs p' a' : at_place (<[c := ch_set_buf (Some a) k]> chs) p' a' -> chs !! c = Some k ->
  p' = Gather c /\ a' = a \/ at_place chs p' a'.
Proof.
  intros Hx Hk. apply at_place_insert in Hx as [Hx|Hx]; [|by right]. destruct p' as [c' id'|c' id'|c']; destruct Hx as [-> Hx]; cbn in *.
  - right. eauto.
  - right. eauto.
  - injection Hx as <-. by left.
Qed.

Lemma data_intent_beside s c liid chunk left : link_ok s -> is_Some (gl_channels s !! c) -> exists r s',
  data_intent c liid chunk left s = Ok (r, s') /\ beside s s' /\ gl_intentless s' = gl_intentless s /\
  match r with
  | inl err => err <> 0
  | inr None => True
  | inr (Some a) => at_place (gl_channels s') (data_place s' c liid) a
  end.
Proof.
  intros Ok_ [k Hk]. unfold data_intent. rewrite st_bind_get, (st_bind_ok _ _ _ _ _ (channel_exec s c k Hk)).
  destruct (gl_intentless s) eqn:Em.
  - destruct (ch_buf k) as [a|] eqn:Eb.
    + exists (inr (Some a)), s. split; [done|]. split; [apply beside_refl|]. split; [done|]. unfold data_place. rewrite Em. by exists k.
    + destruct (alloc_exec s) as (ok&s1&E1&B1&_&Es1). rewrite (st_bind_ok _ _ _ _ _ E1). destruct ok; cbn [negb].
      2: { eexists _, s1. split; [reflexivity|]. split; [done|]. split; [by rewrite Es1|done]. }
      destruct (alloc_exec s1) as (ok&s2&E2&B2&_&Es2). rewrite (st_bind_ok _ _ _ _ _ E2). destruct ok; cbn [negb].
      2: { eexists _, s2. split; [reflexivity|]. split; [by apply (beside_trans _ s1)|]. split; [by rewrite Es2, Es1|done]. }
      cbv zeta. set (size := u32 (chunk + left)). set (i := Intent (Mem 0 size ∅) 0xbabababa size false false false 0).
      rewrite (st_bind_ok _ _ _ _ _ (new_exec s2 i)).
      assert (Hk2 : gl_channels s2 !! c = Some k) by (rewrite Es2, Es1; done).
      rewrite (st_bind_ok _ _ _ _ _ (upd_channel_exec (with_intent i s2) c k _ Hk2)).
      eexists _, _. split; [reflexivity|]. split; [|split; [cbn; by rewrite Es2, Es1|]].
      * apply (beside_trans _ s1); [done|]. apply (beside_trans _ s2); [done|]. constructor; [intros Ok2|done..].
        apply (link_ok_put s2 c k _ (Gather c)); [done|done| |exact (lo_done _ Ok2 c k Hk2)|intros p' a' Hx; by apply (put_buf k _ c)].
        pose proof (u32_range (chunk + left)). constructor; cbn; try done; fold size; unfold size; lia.
      * unfold data_place. cbn. rewrite Es2, Es1. cbn. rewrite Em. eexists. rewrite lookup_insert_eq. done.
  - exists (inr (ch_liids k !! liid)), s. split; [done|]. split; [apply beside_refl|]. split; [done|].
    destruct (ch_liids k !! liid) as [a|] eqn:Ea; [|done]. unfold data_place. rewrite Em. by exists k.
Qed.

Lemma bytes_exec s a i : gl_intents s !! a = Some i -> buffer_ok i -> exists l, intent_bytes a s = Ok (l, s).
Proof.
  intros Ha [B1 B2 B3 B4]. unfold intent_bytes. rewrite (st_bind_ok _ _ _ _ _ (intent_exec s a i Ha)).
  unfold st_lift, copy_out, in_range. rewrite B1, B2. replace (_ && _) with true by lia. cbn. by eexists.
Qed.

(** The callback gets the message, or there is none. *)
Lemma callback_beside s c a k i : gl_intents s !! a = Some i -> buffer_ok i -> exists ret s1,
  (if ch_cb k then
     let! data := intent_bytes a in
     glink_log (Deliver c data) ;;;
     let! ret := glink_ask GCallback in
     st_ret (if (ret <? 0) && negb (ret =? - ENODEV) then 0 else ret)
   else st_ret 0) s = Ok (ret, s1) /\ beside s s1 /\ exists tr e, s1 = gl_set_env e (gl_set_trace tr s).
Proof.
  intros Ha Hb. destruct (ch_cb k).
  - destruct (bytes_exec s a i Ha Hb) as [l E]. rewrite (st_bind_ok _ _ _ _ _ E). unfold glink_log. rewrite st_bind_upd.
    set (s1 := gl_set_trace (gl_trace s ++ [Deliver c l]) s). destruct (ask_beside s1 GCallback) as (x&s2&E2&B2&Es2&_).
    rewrite (st_bind_ok _ _ _ _ _ E2). eexists _, s2. split; [reflexivity|]. split.
    + apply (beside_trans _ s1); [|done]. constructor; [by apply link_ok_ext|done..].
    + eexists _, _. exact Es2.
  - exists 0, s. split; [done|]. split; [apply beside_refl|]. exists (gl_trace s), (gl_env s). by destruct s.
Qed.

Lemma gather_gone s c k a : link_ok s -> gl_channels s !! c = Some k -> at_place (gl_channels s) (Gather c) a ->
  link_ok (gl_set_intents (delete a (gl_intents s)) (gl_set_channels (<[c := ch_set_buf None k]> (gl_channels s)) s)).
Proof.
  intros Ok_ Hk Ha. apply (link_ok_drop s c k _ (Gather c)); [done|done|apply fewer_buf|done|]. cbn. rewrite lookup_insert_eq.
  by intros (k'&[= <-]&Hx).
Qed.

Lemma local_gone s c k liid a : link_ok s -> gl_channels s !! c = Some k -> at_place (gl_channels s) (Local c liid) a ->
  link_ok (gl_set_intents (delete a (gl_intents s)) (gl_set_channels (<[c := ch_set_liids (delete liid (ch_liids k)) k]> (gl_channels s)) s)).
Proof.
  intros Ok_ Hk Ha. apply (link_ok_drop s c k _ (Local c liid)); [done|done|apply fewer_liids|done|]. cbn. rewrite lookup_insert_eq.
  intros (k'&[= <-]&Hx). cbn in Hx. by rewrite lookup_delete_eq in Hx.
Qed.

Lemma rx_done_safe s q c liid a k : good s q -> 16 <= Z.of_nat (length q) -> (0 < w_rounds W)%nat -> gl_channels s !! c = Some k ->
  gl_intentless s = false -> at_place (gl_channels s) (Local c liid) a -> exists s',
  qcom_glink_rx_done W c a s = Ok (tt, s') /\ owing s' q /\ gl_rcids s' = gl_rcids s /\ (allocs s' <= allocs s)%nat.
Proof.
  intros [Ok_ R (t&T&Ht)] Hq Hw Hk Hm Ha. destruct (lo_place _ Ok_ _ _ Ha) as (i&Hi&Hid&_).
  destruct (rx_done_exec W s c a k i t Hk Hi Hm (lo_done _ Ok_ c k Hk) T (lo_reset _ Ok_) Hw ltac:(lia)) as (p'&E&[Wt Wr Ws]).
  eexists. split; [exact E|]. split; [|done]. constructor.
  - assert (Ok2 : link_ok (gl_set_channels (<[c := if it_reuse i then k else ch_set_liids (delete (it_id i) (ch_liids k)) k]> (gl_channels s))
      (gl_set_intents (if it_reuse i then gl_intents s else delete a (gl_intents s)) s))).
    { destruct (it_reuse i).
      - apply (link_ok_ext s); try done. cbn. by apply insert_id.
      - rewrite Hid. by apply (link_ok_ext _ _ eq_refl eq_refl eq_refl eq_refl eq_refl eq_refl (local_gone s c k liid a Ok_ Hk Ha)). }
    revert Ok2. by apply link_ok_ext.
  - by apply Wr.
  - exists (t ++ done_msg k i). split; [exact Wt|]. change (fifo_length _) with (pipe_tx_length p').
    rewrite (same_pipe_length _ _ Ws), length_app. unfold done_msg. rewrite length_msg. unfold fifo_length in Ht. lia.
Qed.

Lemma deliver_safe s q c liid a : good s q -> 16 <= Z.of_nat (length q) -> (0 < w_rounds W)%nat ->
  at_place (gl_channels s) (data_place s c liid) a -> exists ret s',
  rx_deliver W c a s = Ok (ret, s') /\ owing s' q /\ gl_rcids s' = gl_rcids s /\ (allocs s' <= allocs s)%nat.
Proof.
  intros G Hq Hw Ha. pose proof (go_ok _ _ G) as Ok_. destruct (data_place_buffer s c liid a Ok_ Ha) as (i&Hi&Hb&_).
  assert (Hk : exists k, gl_channels s !! c = Some k) by (unfold data_place in Ha; destruct (gl_intentless s); destruct Ha as (k&Hk&_); eauto).
  destruct Hk as [k Hk]. unfold rx_deliver. rewrite (st_bind_ok _ _ _ _ _ (channel_exec s c k Hk)).
  destruct (callback_beside s c a k i Hi Hb) as (ret&s1&E1&B1&tr&e&Es1). rewrite (st_bind_ok _ _ _ _ _ E1).
  assert (Hi1 : gl_intents s1 !! a = Some i) by by rewrite Es1. assert (Hk1 : gl_channels s1 !! c = Some k) by by rewrite Es1.
  rewrite (st_bind_ok _ _ _ _ _ (upd_intent_exec s1 a i _ Hi1)). set (s2 := set_intent a (it_set_offset 0 i) s1).
  rewrite (st_bind_ok _ _ _ _ _ (upd_channel_exec s2 c k _ Hk1)). set (s3 := gl_set_channels (<[c := ch_set_buf None k]> (gl_channels s2)) s2).
  assert (B2 : beside s1 s2).
  { constructor; [|done..]. intros Ok1. apply (link_ok_intent s1 a i); [done|done|done|]. intros [? ? ? ?]. constructor; cbn; try done. lia. }
  pose proof (beside_trans _ _ _ B1 B2) as B12. assert (Hm : gl_intentless s3 = gl_intentless s) by (cbn; by rewrite Es1).
  assert (Ec : gl_channels s2 = gl_channels s) by (cbn; by rewrite Es1).
  destruct (gl_intentless s) eqn:Em.
  - assert (Ed : qcom_glink_rx_done W c a s3 = Ok (tt, gl_set_intents (delete a (gl_intents s3)) s3)).
    { unfold qcom_glink_rx_done. rewrite st_bind_get, Hm. apply free_exec. cbn. rewrite lookup_insert_eq. by eexists. }
    rewrite (st_bind_ok _ _ _ _ _ Ed). eexists _, _. split; [reflexivity|].
    assert (B3 : beside s (gl_set_intents (delete a (gl_intents s3)) s3)).
    { apply (beside_trans _ s2); [done|]. constructor; [|done..]. intros Ok2. apply (gather_gone s2 c k a); [done|done|].
      rewrite Ec. unfold data_place in Ha. by rewrite Em in Ha. }
    split; [by apply good_owing, (good_beside s)|]. split; [exact (bs_rcids _ _ B3)|exact (bs_allocs _ _ B3)].
  - assert (B3 : beside s s3) by (apply (beside_trans _ s2); [done|]; apply (beside_channel s2 c k); [done|apply fewer_buf]).
    destruct (rx_done_safe s3 q c liid a (ch_set_buf None k) (good_beside _ _ _ B3 G) Hq Hw) as (s4&E4&O4&R4&A4).
    + cbn. by rewrite lookup_insert_eq.
    + exact Hm.
    + unfold data_place in Ha. rewrite Em in Ha. destruct Ha as (k'&Hk'&Hx). assert (k' = k) as -> by congruence.
      exists (ch_set_buf None k). cbn. by rewrite lookup_insert_eq.
    + rewrite (st_bind_ok _ _ _ _ _ E4). eexists _, s4. split; [reflexivity|]. split; [done|].
      split; [by rewrite R4, (bs_rcids _ _ B3)|pose proof (bs_allocs _ _ B3); lia].
Qed.

Lemma chunk_written s a i data : gl_intents s !! a = Some i -> buffer_ok i -> Z.of_nat (length data) <= it_size i - it_offset i ->
  (intent_write a data ;;; upd_intent a (fun i => it_set_offset (u32 (it_offset i + Z.of_nat (length data))) i)) s =
    Ok (tt, set_intent a (add_bytes data i) s) /\ buffer_ok (add_bytes data i).
Proof.
  intros Ha [B1 B2 B3 B4] Hl. split.
  - unfold intent_write. rewrite st_bind_bind, (st_bind_ok _ _ _ _ _ (intent_exec s a i Ha)).
    assert (E : store_bytes (it_offset i) data (it_data i) = Ok (tt, put_bytes (it_data i) (it_offset i) data)) by (apply store_bytes_ok; lia).
    rewrite st_bind_bind, (st_bind_ok _ _ _ _ _ (st_lift_ok _ _ s E)). cbn [snd]. rewrite (st_bind_ok _ _ _ _ _ (upd_intent_exec s a i _ Ha)).
    rewrite (upd_intent_exec _ a (it_set_data (put_bytes (it_data i) (it_offset i) data) i)) by apply lookup_insert_eq.
    unfold set_intent, add_bytes. cbn. by rewrite insert_insert_eq.
  - destruct (put_bytes_frame data (it_data i) (it_offset i)) as [F1 F2]. constructor; cbn; rewrite ?F1, ?F2; try done.
    rewrite u32_id by lia. lia.
Qed.

Lemma data_chunk_safe s q c liid a chunk left : good s q -> 0 <= chunk -> 16 + chunk <= Z.of_nat (length q) -> (0 < w_rounds W)%nat ->
  at_place (gl_channels s) (data_place s c liid) a -> exists ret s',
  data_chunk W c a chunk left s = Ok (ret, s') /\ owing s' q /\ gl_rcids s' = gl_rcids s /\ (allocs s' <= allocs s)%nat.
Proof.
  intros G Hc Hl Hw Ha. destruct (data_place_buffer s c liid a (go_ok _ _ G) Ha) as (i&Hi&Hb&_). unfold data_chunk.
  rewrite (st_bind_ok _ _ _ _ _ (intent_exec s a i Hi)). pose proof Hb as [_ _ B3 B4]. rewrite u64_id by lia.
  case_if; [eexists _, s; split; [reflexivity|]; split; [by apply good_owing|done]|].
  unfold sizeof_data_hdr. rewrite (st_bind_ok _ _ _ _ _ (peak_exec s q 16 chunk (go_rx _ _ G) ltac:(lia) ltac:(lia) ltac:(lia))).
  set (data := take _ (drop _ q)). assert (Ld : Z.of_nat (length data) = chunk) by (unfold data; rewrite length_take, length_drop; lia).
  destruct (chunk_written s a i data Hi Hb ltac:(lia)) as [E Hb']. rewrite Ld in E.
  rewrite <-st_bind_bind, (st_bind_ok _ _ _ _ _ E). set (s1 := set_intent a (add_bytes data i) s).
  assert (B : beside s s1) by (constructor; [intros Ok_; by apply (link_ok_intent s a i)|done..]).
  pose proof (good_beside _ _ _ B G) as G1. case_if; [|eexists _, s1; split; [reflexivity|]; split; [by apply good_owing|done]].
  apply (deliver_safe s1 q c liid a); [done|lia|done|exact Ha].
Qed.

Lemma rx_data_safe s q : good s q -> (0 < w_rounds W)%nat -> exists ret s',
  qcom_glink_rx_data W (Z.of_nat (length q)) s = Ok (ret, s') /\ handled s q ret s'.
Proof.
  intros G Hw. destruct (rx_has_ok _ _ (go_rx _ _ G)) as (Hb&Hu&Hlim). unfold qcom_glink_rx_data, sizeof_data_hdr.
  assert (Stop : exists ret s', st_ret (- EAGAIN) s = Ok (ret, s') /\ handled s q ret s').
  { eexists _, s. split; [reflexivity|]. by apply handled_stop; [apply beside_refl|..]. }
  destruct (Z.of_nat (length q) <? 16) eqn:E16; [exact Stop|].
  rewrite (st_bind_ok _ _ _ _ _ (peak_exec s q 0 16 (go_rx _ _ G) ltac:(lia) ltac:(lia) ltac:(lia))).
  set (hdr := take _ (drop _ q)). assert (Lh : length hdr = 16%nat) by (unfold hdr; rewrite length_take, length_drop; lia).
  assert (Hh : Forall byte_ok hdr) by (unfold hdr; by apply Forall_take, Forall_drop).
  destruct (field_some 4 hdr 8 ltac:(lia) ltac:(lia) Hh) as (chunk&E1&Hchunk).
  destruct (field_some 4 hdr 12 ltac:(lia) ltac:(lia) Hh) as (left&E2&_).
  destruct (field_some 2 hdr 2 ltac:(lia) ltac:(lia) Hh) as (rcid&E3&_).
  destruct (field_some 4 hdr 4 ltac:(lia) ltac:(lia) Hh) as (liid&E4&_).
  rewrite (st_bind_ok _ _ _ _ _ (st_lift_ok _ _ s E1)), (st_bind_ok _ _ _ _ _ (st_lift_ok _ _ s E2)).
  destruct (Z.of_nat (length q) <? 16 + chunk) eqn:Ec; [exact Stop|].
  rewrite (st_bind_ok _ _ _ _ _ (st_lift_ok _ _ s E3)), (st_bind_ok _ _ _ _ _ (st_lift_ok _ _ s E4)).
  destruct (ALIGN_fits (16 + chunk) q ltac:(lia) Hlim Hu) as [Hal Hau].
  unfold find_rcid. rewrite st_bind_get. cbv zeta. destruct (gl_rcids s !! rcid) as [c|] eqn:Er.
  2: { destruct (handled_advance s s q (ALIGN (16 + chunk) 8) 0 (beside_refl s) G ltac:(lia) Hau) as (s'&E&Hd). eexists _, s'. done. }
  destruct (data_intent_beside s c liid chunk left (go_ok _ _ G) (lo_rcids _ (go_ok _ _ G) rcid c Er)) as (r&s1&E5&B1&Em&Hr).
  rewrite (st_bind_ok _ _ _ _ _ E5). destruct r as [err|[a|]].
  - eexists _, s1. split; [reflexivity|]. by apply handled_stop.
  - destruct (data_chunk_safe s1 q c liid a chunk left (good_beside _ _ _ B1 G) ltac:(lia) ltac:(lia) Hw Hr) as (ret&s2&E6&O2&R2&A2).
    rewrite (st_bind_ok _ _ _ _ _ E6). exists ret. apply (owing_advance s s2); [done| | |lia|done].
    + by rewrite R2, (bs_rcids _ _ B1).
    + pose proof (bs_allocs _ _ B1). lia.
  - exists (- ENOENT). apply (handled_advance s s1); [done|done|lia|done].
Qed.

(** ** The loop *)

(** The numbers of intents for a channel that is not there, or a message of them that is not complete, at a unit of the
    queue: what the handler would wait for forever. *)
Definition stuck_at s (q : list Z) : Prop := exists l cid count r, q = l ++ glink_msg RPM_CMD_INTENT cid count ++ r /\
  (8 | Z.of_nat (length l)) /\ 0 <= cid < 2 ^ 16 /\ 0 <= count < 2 ^ 32 /\
  (gl_rcids s !! cid = None \/ Z.of_nat (length r) < 8 * count).

Lemma stuck_drop s s' q n : gl_rcids s' = gl_rcids s -> (8 | n) -> 0 <= n <= Z.of_nat (length q) -> stuck_at s' (drop (Z.to_nat n) q) -> stuck_at s q.
Proof.
  intros Er Hu Hn (l&cid&count&r&Eq&Hl&Hc&Hk&Hx). exists (take (Z.to_nat n) q ++ l), cid, count, r.
  rewrite <-app_assoc, <-Eq, take_drop. split; [done|]. rewrite <-Er. split; [|done].
  rewrite length_app, length_take, Nat2Z.inj_add. apply Z.divide_add_r; [|done]. by replace (Z.of_nat (Z.to_nat n `min` length q)) with n by lia.
Qed.

(** A message of two 16-bit fields and a 32-bit one is what its fields say. *)
Lemma msg_of_fields q : Forall byte_ok q -> (8 <= length q)%nat -> exists cmd p1 p2 r, q = glink_msg cmd p1 p2 ++ r /\
  0 <= cmd < 2 ^ 16 /\ 0 <= p1 < 2 ^ 16 /\ 0 <= p2 < 2 ^ 32.
Proof.
  intros Hb Hl. exists (le_val (take 2 q)), (le_val (take 2 (drop 2 q))), (le_val (take 4 (drop 4 q))), (drop 8 q).
  assert (T : forall n l, (n <= length l)%nat -> Forall byte_ok l ->
    le_bytes n (le_val (take n l)) = take n l /\ 0 <= le_val (take n l) < 2 ^ (8 * Z.of_nat n)).
  { intros n l Hn Hl'. assert (Lt : length (take n l) = n) by (rewrite length_take; lia).
    assert (Ht : Forall byte_ok (take n l)) by by apply Forall_take.
    pose proof (le_bytes_val _ Ht) as E. pose proof (le_val_range _ Ht) as R. by rewrite Lt in E, R. }
  destruct (T 2%nat q ltac:(lia) Hb) as [E1 R1].
  destruct (T 2%nat (drop 2 q) ltac:(rewrite length_drop; lia) ltac:(by apply Forall_drop)) as [E2 R2].
  destruct (T 4%nat (drop 4 q) ltac:(rewrite length_drop; lia) ltac:(by apply Forall_drop)) as [E3 R3].
  split; [|done]. unfold glink_msg. rewrite E1, E2, E3. rewrite <-!app_assoc.
  rewrite <-(take_drop 2 q) at 1. f_equal. rewrite <-(take_drop 2 (drop 2 q)) at 1. f_equal. rewrite drop_drop.
  rewrite <-(take_drop 4 (drop (2 + 2) q)) at 1. f_equal. by rewrite drop_drop.
Qed.

(** A step beside the queue, and the message is gone. *)
Lemma small_msg s q (c : ST (qcom_glink P) Z) : good s q -> (8 <= length q)%nat ->
  (exists ret s', c s = Ok (ret, s') /\ beside s s') -> exists ret s',
  (let! ret := c in qcom_glink_rx_advance 8 ;;; st_ret ret) s = Ok (ret, s') /\ handled s q ret s'.
Proof.
  intros G Hl (ret&s1&E&B). rewrite (st_bind_ok _ _ _ _ _ E). exists ret.
  apply (handled_advance s s1); [done|done|lia|by exists 1].
Qed.

Lemma small_unit s q (c : ST (qcom_glink P) unit) : good s q -> (8 <= length q)%nat ->
  (exists s', c s = Ok (tt, s') /\ beside s s') -> exists ret s',
  (c ;;; qcom_glink_rx_advance 8 ;;; st_ret 0) s = Ok (ret, s') /\ handled s q ret s'.
Proof.
  intros G Hl (s1&E&B). rewrite (st_bind_ok _ _ _ _ _ E). exists 0.
  apply (handled_advance s s1); [done|done|lia|by exists 1].
Qed.

Lemma notif_msg s q : good s q -> (8 <= length q)%nat -> exists ret s',
  (qcom_glink_rx_advance 8 ;;; kick ;;; st_ret 0) s = Ok (ret, s') /\ handled s q ret s'.
Proof.
  intros G Hl. destruct (handled_advance s s q 8 0 (beside_refl s) G ltac:(lia) ltac:(by exists 1)) as (s'&E&Hd).
  apply st_bind_inv in E as (u&s1&E1&E2). injection E2 as ->. destruct u. rewrite (st_bind_ok _ _ _ _ _ E1).
  eexists 0, _. split; [reflexivity|]. destruct Hd as (n&H1'&H2'&H3'&H4'&H5'&H6'). exists n.
  split; [done|]. split; [done|]. split; [|done]. destruct H3' as [G1 G2 G3]. constructor; [by apply (link_ok_ext s')|exact G2|exact G3].
Qed.

Lemma intr_msg_safe s cmd p1 p2 r : let q := glink_msg cmd p1 p2 ++ r in good s q -> (0 < w_rounds W)%nat -> ~ stuck_at s q ->
  0 <= p1 < 2 ^ 16 -> 0 <= p2 < 2 ^ 32 -> exists ret s',
  intr_msg W (Z.of_nat (length q)) cmd p1 p2 s = Ok (ret, s') /\ handled s q ret s'.
Proof.
  intros q G Hw Hst Hp1 Hp2. assert (Hl : (8 <= length q)%nat) by (unfold q; rewrite length_app, length_msg; lia).
  pose proof (go_ok _ _ G) as Ok_. unfold intr_msg. change (ALIGN sizeof_msg 8) with 8. cbv zeta.
  destruct (_ || _) eqn:E1; [by apply (defer_good s q 0)|].
  destruct (cmd =? RPM_CMD_OPEN_ACK); [by apply small_msg, open_ack_beside|].
  destruct (cmd =? RPM_CMD_OPEN); [by apply defer_good|].
  destruct ((cmd =? RPM_CMD_TX_DATA) || _); [by apply rx_data_safe|].
  destruct (cmd =? RPM_CMD_READ_NOTIF); [by apply notif_msg|].
  destruct (cmd =? RPM_CMD_INTENT) eqn:Ei.
  - assert (cmd = RPM_CMD_INTENT) as -> by lia.
    destruct (gl_rcids s !! p1) as [c|] eqn:Ec.
    + destruct (decide (Z.of_nat (length r) < 8 * p2)) as [Hs|Hs].
      * exfalso. apply Hst. exists [], p1, p2, r. split; [done|]. split; [apply Z.divide_0_r|]. split; [done|]. split; [done|by right].
      * destruct (intent_good s q p1 p2 G) as (s'&E&Hd); [by rewrite Ec|lia|unfold q; rewrite length_app, length_msg; lia|].
        eexists 0, s'. split; [exact E|done].
    + exfalso. apply Hst. exists [], p1, p2, r. split; [done|]. split; [apply Z.divide_0_r|]. split; [done|]. split; [done|by left].
  - destruct (cmd =? RPM_CMD_RX_DONE); [by apply small_unit, rx_done_beside|].
    destruct (cmd =? RPM_CMD_RX_DONE_W_REUSE); [by apply small_unit, rx_done_beside|].
    destruct (cmd =? RPM_CMD_RX_INTENT_REQ_ACK); [by apply small_unit, req_ack_beside|].
    destruct (cmd =? RPM_CMD_SIGNALS).
    + destruct (signals_beside s p1 p2 Ok_) as (ret&s1&E&B). rewrite (st_bind_ok _ _ _ _ _ E). exists 0.
      apply (handled_advance s s1); [done|done|lia|by exists 1].
    + eexists _, s. split; [reflexivity|]. by apply handled_stop; [apply beside_refl|..].
Qed.

(** What the loop has to get through: the units of the queue, and the requests for memory that fail. *)
Definition work s (q : list Z) : nat := (length q / 8 + allocs s)%nat.

Lemma loop_safe : forall n s q, good s q -> (0 < w_rounds W)%nat -> ~ stuck_at s q -> (work s q < n)%nat ->
  exists s' m, intr_loop W n s = Ok (tt, s') /\ (m <= length q)%nat /\ good s' (drop m q) /\ gl_rcids s' = gl_rcids s.
Proof.
  induction n as [|n IH]; intros s q G Hw Hst Hn; [lia|]. destruct (rx_has_ok _ _ (go_rx _ _ G)) as (Hb&Hu&Hlim).
  destruct (decide (length q < 8)%nat) as [Hs|Hs].
  { assert (q = []) as ->. { destruct q; [done|]. cbn [length] in *. destruct Hu as [k Hk]. lia. }
    exists s, 0%nat. rewrite intr_end by apply G. done. }
  destruct (msg_of_fields q Hb ltac:(lia)) as (cmd&p1&p2&r&Eq&Hcmd&Hp1&Hp2).
  pose proof (go_rx _ _ G) as R. rewrite Eq in R. rewrite (intr_next W n s cmd p1 p2 r R).
  rewrite u16_id, u16_id, u32_id by lia.
  assert (El : 8 + Z.of_nat (length r) = Z.of_nat (length q)) by (rewrite Eq, length_app, length_msg; lia). rewrite El.
  subst q. destruct (intr_msg_safe s cmd p1 p2 r G Hw Hst Hp1 Hp2) as (ret&s1&E&(k&Hk&Hk8&G1&Er&Ea&Hprog)).
  unfold st_bind. rewrite E. destruct (negb (ret =? 0)) eqn:Eret.
  { exists s1, (Z.to_nat k). split; [done|]. split; [lia|done]. }
  destruct (IH s1 _ G1 Hw) as (s'&m&E'&Hm&G'&Er').
  - intros Hst'. apply Hst. by apply (stuck_drop s s1 _ k).
  - unfold work in *. rewrite length_drop. destruct Hk8 as [j Hj]. specialize (Hprog ltac:(lia)).
    replace (length (glink_msg cmd p1 p2 ++ r) - Z.to_nat k)%nat with (length (glink_msg cmd p1 p2 ++ r) - Z.to_nat j * 8)%nat by lia.
    set (L := length (glink_msg cmd p1 p2 ++ r)) in *. assert (Hd : ((L - Z.to_nat j * 8) / 8 = L / 8 - Z.to_nat j)%nat).
    { pose proof (Nat.div_add (L - Z.to_nat j * 8) (Z.to_nat j) 8 ltac:(lia)) as D.
      replace (L - Z.to_nat j * 8 + Z.to_nat j * 8)%nat with L in D by lia. lia. }
    rewrite Hd. assert (Z.to_nat j <= L / 8)%nat by (apply Nat.div_le_lower_bound; lia). lia.
  - exists s', (Z.to_nat k + m)%nat. split; [exact E'|]. rewrite length_drop in Hm. rewrite drop_drop in G'.
    split; [lia|]. split; [done|]. by rewrite Er'.
Qed.

(** C14: Whatever bytes the other side put into the queue, in whole units, the interrupt handler returns: it touches no
    freed channel or intent, writes no byte outside of an intent, reads on in the queue, and leaves the tables of the link in
    order.  It needs room for the answers, an outgoing queue with nothing waiting for it, and a queue without a message of
    intents that is incomplete or for an unknown channel. *)
Theorem glink_intr_safe s q : link_ok s -> rx_queue s q ->
  (exists t, tx_queue s t /\ 2 * Z.of_nat (length t) + Z.of_nat (length q) <= 2 * (fifo_length s - 16)) ->
  ~ stuck_at s q -> (work s q < w_rounds W)%nat ->
  exists s' m, qcom_glink_native_intr W s = Ok (tt, s') /\ link_ok s' /\ (m <= length q)%nat /\ rx_queue s' (drop m q).
Proof.
  intros Ok_ R Ht Hst Hn. unfold qcom_glink_native_intr. rewrite st_bind_upd.
  set (s1 := if (gl_wake s).1 then gl_set_wake ((gl_wake s).1, true) s else s).
  assert (F : gl_pipe s1 = gl_pipe s /\ gl_rcids s1 = gl_rcids s /\ allocs s1 = allocs s) by (unfold s1; by destruct (gl_wake s).1).
  destruct F as (F1&F2&F3).
  assert (G : good s1 q).
  { constructor; unfold rx_queue, tx_queue, fifo_length in *; rewrite ?F1; [|done|done].
    apply (link_ok_ext s); (done || unfold s1; by destruct (gl_wake s).1). }
  destruct (loop_safe (w_rounds W) s1 q G ltac:(lia)) as (s'&m&E&Hm&G'&_).
  - unfold stuck_at. by rewrite F2.
  - unfold work in *. by rewrite F3.
  - exists s', m. split; [exact E|]. split; [apply G'|]. split; [done|apply G'].
Qed.
End safe.
