(* ===== verification/GlinkExamples.v ===== *)
(** * Runs of a link

    Concrete edges for the theorems on links, and the runs behind what modelling them showed. *)
From S2P Require Import Prelude CMem KernelIdr Smem SmemHeap SmemApi SmemService GlinkPipe GlinkQueue GlinkState.
From S2P Require Import Glink GlinkSmem GlinkLink GlinkSend GlinkRecv GlinkExchange GlinkTalk GlinkSignals GlinkSafe.
Open Scope c_scope.

(** ** An edge *)
#[export, refine] Instance linux_termios : Termios := {|
  TIOCM_DTR := 0x002; TIOCM_RTS := 0x004; TIOCM_CTS := 0x020; TIOCM_CD := 0x040; TIOCM_RI := 0x080; TIOCM_DSR := 0x100 |}.
Proof.
  exists [1; 2; 5; 6; 7; 8]. split; [reflexivity|]. split.
  - repeat (apply Forall_cons; split; [lia|]). apply Forall_nil_2.
  - apply (bool_decide_unpack _). reflexivity.
Defined.

Definition demo_smem : qcom_smem := QcomSmem None [] 0 [].
(** Two rings of 128 bytes; the ring of the first side is 48 bytes in. *)
Definition demo_mem : mem := poke [(4096, 4%nat, 48); (4100, 4%nat, 48)] (Mem 4096 4096 ∅).
Definition demo_tx : glink_smem_pipe := SmemPipe 4096 4100 4128 128 0.
Definition demo_rx : glink_smem_pipe := SmemPipe 4104 4108 4352 128 0.
Definition demo_pipes : smem_pipes := SmemPipes demo_mem demo_rx demo_tx.

#[local] Instance demo_pipe : GlinkPipe smem_pipes := smem_pipe demo_smem 0.
#[local] Instance demo_laws : PipeLaws smem_pipes := smem_pipe_laws demo_smem 0.

Lemma demo_ring (m : mem) p : p = demo_tx \/ p = demo_rx -> m_base m = 4096 -> m_size m = 4096 -> ring_ok m p.
Proof.
  intros Hp Eb Es. constructor; rewrite ?Eb, ?Es.
  - destruct Hp as [-> | ->]; cbn; lia.
  - destruct Hp as [-> | ->]; by exists 16.
  - destruct Hp as [-> | ->]; done.
  - intros x. unfold parts. rewrite !elem_of_cons, elem_of_nil. destruct Hp as [-> | ->]; intros [->|[->|[->|[]]]]; cbn; lia.
  - unfold apart. destruct Hp as [-> | ->]; cbn; lia.
  - unfold apart. destruct Hp as [-> | ->]; cbn; lia.
  - unfold apart. destruct Hp as [-> | ->]; cbn; lia.
Qed.

Lemma demo_pipes_ok m : m_base m = 4096 -> m_size m = 4096 -> pipes_ok (SmemPipes m demo_rx demo_tx).
Proof.
  intros Eb Es. constructor; cbn; [by apply demo_ring; [right|..]|by apply demo_ring; [left|..]|].
  intros x y. unfold parts, apart. rewrite !elem_of_cons, !elem_of_nil. intros [->|[->|[->|[]]]] [->|[->|[->|[]]]]; cbn; lia.
Qed.

(** An empty ring, wherever its words are. *)
Lemma demo_empty m p : rd32 m (sp_head p) = rd32 m (sp_tail p) -> rd32 m (sp_tail p) < sp_length p -> (8 | rd32 m (sp_tail p)) ->
  16 < sp_length p -> ring_has m p [].
Proof.
  intros E Hl Hu Hp. pose proof (rd32_range m (sp_tail p)). constructor; try done; cbn.
  - rewrite Z.add_0_r, Z.mod_small by lia. exact E.
  - apply Z.divide_0_r.
  - lia.
Qed.

Lemma demo_tx_has : smem_tx_has demo_pipes [].
Proof.
  split; [by apply demo_pipes_ok|]. apply demo_empty; cbn [ps_mem ps_tx demo_pipes]; [reflexivity|done|by exists 6|done].
Qed.
Lemma demo_rx_has : smem_rx_has demo_pipes [].
Proof.
  split; [by apply demo_pipes_ok|]. apply demo_empty; cbn [ps_mem ps_rx demo_pipes]; [reflexivity|done|by exists 0|done].
Qed.

Lemma glink_pipe_queue_witness : exists room, glink_smem_tx_avail demo_pipes = Ok (room, demo_pipes) /\ room = 112.
Proof.
  destruct (glink_pipe_queue demo_smem 0 demo_pipes [] [1; 2] [3] demo_tx_has ltac:(repeat constructor; done) ltac:(repeat constructor; done))
    as (room&E&_). exists room. split; [exact E|]. rewrite (smem_tx_avail_ok demo_pipes [] demo_tx_has) in E. by injection E as <-.
Defined.

(** The first side holds an intent of 64 bytes of the other one. *)
Definition demo_channel (lcid rcid : Z) (liids riids : gmap Z Z) : glink_channel :=
  Channel (Some [97]) true true true 2 lcid rcid liids 6 riids false [] None true true false true 0 0 0 0.
Definition demo_intent (size : Z) (m : mem) : glink_core_rx_intent := Intent m 5 size false false true 0.
Definition demo_side (p : smem_pipes) (c : Z) (k : glink_channel) (a : Z) (i : glink_core_rx_intent) : qcom_glink smem_pipes :=
  Glink p 1 false 0 false [] false {[ch_lcid k := c]} (ch_lcid k + 1) {[ch_rcid k := c]} {[c := k]} {[a := i]} 300
    (Registrations true true true true) (false, false) [] (fun _ => []).
Definition demo_ka : glink_channel := demo_channel 1 2 ∅ {[5 := 100]}.
Definition demo_kb : glink_channel := demo_channel 2 1 {[5 := 200]} ∅.
Definition demo_a : qcom_glink smem_pipes := demo_side demo_pipes 10 demo_ka 100 (demo_intent 64 (Mem 0 0 ∅)).
Definition demo_b : qcom_glink smem_pipes := demo_side (other_side demo_pipes demo_mem) 20 demo_kb 200 (demo_intent 64 (Mem 0 64 ∅)).
Definition demo_world : @glink_world smem_pipes := World (fun _ => st_ret tt) (fun _ => st_ret 0) (fun _ => st_ret tt) (st_ret tt) (fun _ => st_ret 0) [] 20.

Lemma demo_idle : idle_edge demo_a demo_b.
Proof. constructor; [reflexivity|exact demo_tx_has|exact demo_rx_has|done|done]. Qed.

Lemma demo_paired : paired demo_a 10 demo_ka demo_b 20 demo_kb.
Proof.
  constructor; try done; cbn.
  - intros id a E. apply lookup_singleton_Some in E as [<- <-]. split; [lia|].
    exists (demo_intent 64 (Mem 0 0 ∅)), 200, (demo_intent 64 (Mem 0 64 ∅)). repeat split; try done; cbn; lia.
  - intros id id' a E E'. apply lookup_singleton_Some in E as [<- _], E' as [<- _]. done.
  - intros id id' a E E'. apply lookup_singleton_Some in E as [<- _], E' as [<- _]. done.
Qed.

Lemma glink_message_roundtrip_witness : exists sA1 sB1,
  __qcom_glink_send demo_world 10 [1; 2; 3] true demo_a = Ok (0, sA1) /\
  qcom_glink_native_intr demo_world (see sA1 demo_b) = Ok (tt, sB1) /\ Deliver 20 [1; 2; 3] ∈ gl_trace sB1.
Proof.
  destruct (glink_message_roundtrip demo_smem 0 demo_world demo_world demo_a 10 demo_ka demo_b 20 demo_kb [1; 2; 3] true demo_idle demo_paired)
    as (id&a&i&j&sA1&sB1&sA2&_&_&E1&E2&Tr&_).
  - repeat constructor; done.
  - cbn. vm_compute. congruence.
  - repeat constructor; cbn; lia.
  - exists 5, 100, (demo_intent 64 (Mem 0 0 ∅)). repeat split; done.
  - exists sA1, sB1. split; [exact E1|]. split; [exact E2|]. rewrite Tr. apply elem_of_app. right. by left.
Defined.

(** Two sides that offer different features. *)
Definition demo_fa : qcom_glink smem_pipes := gl_set_features 5 demo_a.
Definition demo_fb : qcom_glink smem_pipes := gl_set_features 6 demo_b.

Lemma demo_edge : edge demo_fa demo_fb [].
Proof.
  constructor; [done|exact demo_tx_has|exact demo_rx_has| |cbn; lia].
  split; (split; [done|split; [done|constructor]]).
Qed.

Lemma glink_versions_agree_witness : exists sA0 sA2 sB2,
  talk demo_smem 0 demo_world demo_world 2 sA0 demo_fb = Ok (sA2, sB2) /\ gl_features sA2 = 4 /\ gl_features sB2 = 4.
Proof.
  destruct (glink_versions_agree demo_smem 0 demo_world demo_world demo_fa demo_fb demo_edge) as (sA0&sA2&sB2&_&E&Fa&Fb&_); [cbn; lia..|].
  exists sA0, sA2, sB2. split; [exact E|]. by rewrite Fb, Fa.
Defined.

Lemma glink_signals_witness : exists sA1 sB1,
  qcom_glink_set_sigs demo_world 10 0x6 0 demo_fa = Ok (0, sA1) /\ qcom_glink_native_intr demo_world (see sA1 demo_fb) = Ok (tt, sB1) /\
  qcom_glink_get_sigs 20 sB1 = Ok (0x126, sB1).
Proof.
  destruct (glink_signals demo_smem 0 demo_world demo_world demo_fa demo_fb 10 demo_ka 20 demo_kb 0x6 0 demo_edge) as (sA1&sB1&E1&_&E2&E3&_);
    [cbn; lia|cbn; lia|done|cbn; lia|cbn; lia|done|done|].
  exists sA1, sB1. split; [exact E1|]. split; [exact E2|]. exact E3.
Defined.

(** A message that gives an intent back waits for the first side. *)
Definition demo_rx_mem : mem := poke [(4108, 4%nat, 8); (4352, 2%nat, RPM_CMD_RX_DONE_W_REUSE); (4354, 2%nat, 2); (4356, 4%nat, 5)] demo_mem.
Definition demo_waiting : qcom_glink smem_pipes := gl_set_pipe (SmemPipes demo_rx_mem demo_rx demo_tx) demo_a.
Definition demo_reply : list Z := glink_msg RPM_CMD_RX_DONE_W_REUSE 2 5.

Lemma demo_waiting_rx : smem_rx_has (gl_pipe demo_waiting) demo_reply.
Proof.
  split; [by apply demo_pipes_ok|]. constructor.
  - reflexivity.
  - by exists 0.
  - reflexivity.
  - by exists 1.
  - cbn. lia.
  - reflexivity.
Qed.
Lemma demo_waiting_tx : smem_tx_has (gl_pipe demo_waiting) [].
Proof. split; [by apply demo_pipes_ok|]. apply demo_empty; cbn [ps_mem ps_tx gl_pipe gl_set_pipe demo_waiting]; [reflexivity|done|by exists 6|done]. Qed.

Lemma demo_link_ok : link_ok demo_waiting.
Proof.
  assert (Hp : forall p a, at_place {[10 := demo_ka]} p a -> p = Remote 10 5 /\ a = 100).
  { intros p a Ha. destruct p as [c id|c id|c]; destruct Ha as (k&Hk&Ha); apply lookup_singleton_Some in Hk as [<- <-]; cbn in Ha; [done| |done].
    apply lookup_singleton_Some in Ha as [<- <-]. done. }
  constructor; cbn.
  - intros cid c E. apply lookup_singleton_Some in E as [_ <-]. by eexists.
  - intros cid c E. apply lookup_singleton_Some in E as [_ <-]. by eexists.
  - intros a [i Hi]. apply lookup_singleton_Some in Hi as [<- _]. lia.
  - intros p a Ha. destruct (Hp p a Ha) as [-> ->]. by eexists.
  - intros p p' a Ha Ha'. destruct (Hp p a Ha) as [-> _], (Hp p' a Ha') as [-> _]. done.
  - intros c k Hk. by apply lookup_singleton_Some in Hk as [_ <-].
  - done.
Qed.

Lemma glink_intr_safe_witness : exists s' m, qcom_glink_native_intr demo_world demo_waiting = Ok (tt, s') /\ link_ok s' /\ (m <= 8)%nat.
Proof.
  destruct (@glink_intr_safe smem_pipes demo_pipe demo_laws _ _ demo_world demo_waiting demo_reply demo_link_ok demo_waiting_rx) as (s'&m&E&Ok_&Hm&_).
  - exists []. split; [exact demo_waiting_tx|]. cbn. lia.
  - intros (l&cid&count&r&E&[j Hj]&_&_&_). assert (El : length demo_reply = length (l ++ glink_msg RPM_CMD_INTENT cid count ++ r)) by by rewrite <-E.
    rewrite !length_app, length_msg in El. cbn in El. destruct l as [|x l]; [|cbn [length] in *; lia]. cbn in E. discriminate E.
  - cbn. lia.
  - exists s', m. split; [exact E|]. split; [exact Ok_|exact Hm].
Defined.

(** ** What the handlers do not expect *)
Section stuck.
Context {P : Type} `{PipeLaws P} `{Idr} `{Termios}.
Context (W : @glink_world P).

(** The numbers of intents for an unknown channel stay at the head of the queue, and the handler looks at them again, for any
    number of rounds. *)
Theorem glink_intent_stuck cid count q : 0 <= cid < 2 ^ 16 -> 0 <= count < 2 ^ 32 -> forall n s,
  rx_queue s (glink_msg RPM_CMD_INTENT cid count ++ q) -> gl_rcids s !! cid = None -> intr_loop W n s = Loop.
Proof.
  intros Hc Hn. induction n as [|n IH]; intros s R Hnone; [done|]. rewrite (intr_next W n s _ _ _ _ R), u16_id, u16_id, u32_id by done.
  assert (E : intr_msg W (8 + Z.of_nat (length q)) RPM_CMD_INTENT cid count s = Ok (0, s)).
  { transitivity ((qcom_glink_handle_intent cid count (8 + Z.of_nat (length q)) ;;; st_ret 0) s); [done|].
    unfold qcom_glink_handle_intent. cbv zeta. destruct (_ <? _); [done|]. unfold find_rcid. rewrite st_bind_bind, st_bind_get. by rewrite Hnone. }
  unfold st_bind. rewrite E. by apply IH.
Qed.

(** A message with an unknown command stays as well: every interrupt ends at it. *)
Theorem glink_unknown_stuck cmd p1 p2 q n s : rx_queue s (glink_msg cmd p1 p2 ++ q) -> 15 < cmd < 2 ^ 16 -> intr_loop W (S n) s = Ok (tt, s).
Proof.
  intros R Hc. rewrite (intr_next W n s _ _ _ _ R), (u16_id cmd) by lia.
  assert (E : intr_msg W (8 + Z.of_nat (length q)) cmd (u16 p1) (u32 p2) s = Ok (- EINVAL, s)).
  { unfold intr_msg. repeat match goal with |- context [cmd =? ?x] => replace (cmd =? x) with false by (unfold RPM_CMD_VERSION, RPM_CMD_VERSION_ACK,
      RPM_CMD_CLOSE, RPM_CMD_CLOSE_ACK, RPM_CMD_RX_INTENT_REQ, RPM_CMD_OPEN_ACK, RPM_CMD_OPEN, RPM_CMD_TX_DATA, RPM_CMD_TX_DATA_CONT, RPM_CMD_READ_NOTIF,
      RPM_CMD_INTENT, RPM_CMD_RX_DONE, RPM_CMD_RX_DONE_W_REUSE, RPM_CMD_RX_INTENT_REQ_ACK, RPM_CMD_SIGNALS; lia) end. done. }
  unfold st_bind. by rewrite E.
Qed.

(** An open request without a name: the name is read beyond the message. *)
Theorem glink_open_no_name cid (s : qcom_glink P) : 0 <= cid < 2 ^ 16 -> work_msg W (glink_msg RPM_CMD_OPEN cid 0) s = Fault.
Proof.
  intros Hc. rewrite work_msg_fields. change (u16 RPM_CMD_OPEN =? RPM_CMD_VERSION) with false.
  change (u16 RPM_CMD_OPEN =? RPM_CMD_VERSION_ACK) with false. change (u16 RPM_CMD_OPEN =? RPM_CMD_OPEN) with true. cbv iota.
  unfold sizeof_msg. change (Z.to_nat 8) with 8%nat. rewrite drop_ge by (by rewrite length_msg). reflexivity.
Qed.

(** A channel whose name could not be copied makes the next open request read through a NULL pointer. *)
Theorem glink_no_name (s : qcom_glink P) c k name : gl_channels s !! c = Some k -> ch_name k = None -> find_name [c] name s = Fault.
Proof. intros Hk Hn. unfold find_name, channel_of, st_bind. by rewrite Hk, Hn. Qed.
End stuck.

(** A name of 32 bytes or more: the open request is sent from beyond its buffer. *)
Theorem glink_long_name lcid name stack : 32 <= Z.of_nat (length name) < 2 ^ 31 -> length stack = 32%nat ->
  open_req lcid name stack (ALIGN (sizeof_msg + (Z.of_nat (length name) + 1)) 8) = Fault.
Proof.
  intros Hn Hs. unfold open_req, sizeof_msg, GLINK_NAME_SIZE. cbv zeta. rewrite !length_app, length_msg.
  pose proof (ALIGN_8_bounds (8 + (Z.of_nat (length name) + 1)) ltac:(lia)).
  rewrite length_drop, !length_take. cbn [length].
  match goal with |- (if ?b then _ else _) = _ => replace b with false by (symmetry; apply Z.leb_gt; lia) end. done.
Qed.

(** ** Runs *)
Definition faults {A} (r : res A) : bool := match r with Fault => true | _ => false end.

(** The other side closes a channel and opens it again before it acknowledges our close: the channel is freed while the new
    number leads to it. *)
Lemma glink_reopen_run : exists u s,
  (qcom_glink_rx_close demo_world 2 ;;; let! _ := qcom_glink_rx_open demo_world 2 [97] in qcom_glink_rx_close_ack demo_world 1) demo_a = Ok (u, s) /\
  (bool_decide (gl_rcids s !! 2 = Some 10) && bool_decide (gl_channels s !! 10 = None) && faults (qcom_glink_handle_signals 2 0 s)) = true.
Proof. apply run_check. vm_compute. reflexivity. Qed.

(** The open request of the other side comes, its acknowledgement does not: the channel is freed while its number leads to it. *)
Definition late_world : @glink_world smem_pipes :=
  World (fun k => match k with WaitOpenAck _ => let! _ := qcom_glink_rx_open demo_world 9 [98] in st_ret tt | _ => st_ret tt end)
    (fun _ => st_ret 0) (fun _ => st_ret tt) (st_ret tt) (fun _ => st_ret 0) (replicate 32 0) 20.
Lemma glink_timeout_run : exists r s, qcom_glink_create_local late_world [98] demo_a = Ok (r, s) /\
  (bool_decide (r = inl (- ETIMEDOUT)) && bool_decide (gl_rcids s !! 9 = Some 300) && bool_decide (gl_channels s !! 300 = None)) = true.
Proof. apply run_check. vm_compute. reflexivity. Qed.

(** Two messages into an intent that can be used again, while there is no room for the answer: it goes onto the list of the done
    intents twice. *)
Definition demo_twice_mem : mem :=
  poke [(4108, 4%nat, 112); (4096, 4%nat, 0); (4100, 4%nat, 32);
        (4128, 2%nat, RPM_CMD_TX_DATA); (4130, 2%nat, 1); (4132, 4%nat, 5); (4136, 4%nat, 0); (4140, 4%nat, 0);
        (4144, 2%nat, RPM_CMD_TX_DATA); (4146, 2%nat, 1); (4148, 4%nat, 5); (4152, 4%nat, 0); (4156, 4%nat, 0)] (Mem 4096 4096 ∅).
Definition demo_twice : qcom_glink smem_pipes :=
  demo_side (SmemPipes demo_twice_mem demo_tx demo_rx) 20 demo_kb 200 (Intent (Mem 0 32 ∅) 5 32 true false true 0).
Lemma glink_twice_run : faults (qcom_glink_native_intr demo_world demo_twice) = true.
Proof. vm_compute. reflexivity. Qed.

(** A probe without an interrupt leaves the worker and the mailbox behind. *)
Lemma glink_probe_run : exists r s,
  qcom_glink_native_probe demo_world (ProbeEnv 0 0 (- EINVAL) None) GLINK_FEATURE_INTENT_REUSE false demo_a = Ok (r, s) /\
  (bool_decide (r = - EINVAL) && rg_task (gl_regs s) && rg_mbox (gl_regs s) && negb (rg_notif (gl_regs s))) = true.
Proof. apply run_check. vm_compute. reflexivity. Qed.

(** The open request of a driver finds no number: the reference taken for it stays when both sides have closed. *)
Definition demo_opened : qcom_glink smem_pipes :=
  Glink demo_pipes 1 false 0 false [] false ∅ 1 {[2 := 10]} {[10 := ch_set_refcount 1 (demo_channel 0 2 ∅ ∅)]} ∅ 300
    (Registrations true true true true) (false, false) [] (fun c => match c with GIdr => [1] | _ => [] end).
Lemma glink_leak_run : exists r s,
  (let! r := qcom_glink_create_remote demo_world 10 in
   qcom_glink_rx_close_ack demo_world 0 ;;; qcom_glink_rx_close demo_world 2 ;;; st_ret r) demo_opened = Ok (r, s) /\
  (bool_decide (r = - ENOMEM) && bool_decide (gl_rcids s = ∅) && bool_decide (gl_lcids s = ∅) &&
   bool_decide (ch_refcount <$> gl_channels s !! 10 = Some 1)) = true.
Proof. apply run_check. vm_compute. reflexivity. Qed.
