(* ===== verification/QrtrGlink.v ===== *)
(** * The transport over a message channel (net/qrtr/smd.c), and all the layers below the router

    A packet of the router is one message of a channel of the rpmsg core.  The class [Rpmsg] is
    the call of the core that sends; a link of [Glink] is an instance.

    All the layers between two processors together: the router of one side hands a packet to
    its transport, the transport to the link, the link to the shared memory, and the other
    side takes it the same way up. *)
From S2P Require Import Prelude CMem KernelIdr QrtrNs QrtrRegistry QrtrRouter QrtrPacket QrtrDemo QrtrEndpoint.
From S2P Require Import Smem SmemHeap SmemApi SmemService GlinkPipe GlinkQueue GlinkState Glink.
From S2P Require Import GlinkLink GlinkSend GlinkRecv GlinkExchange GlinkExamples.
Open Scope c_scope.

(** [rpmsg_send] hands the message to the send operation of the channel. *)
Class Rpmsg (L : Type) := { rpmsg_send : Z -> list Z -> ST L Z }.

Definition glink_rpmsg {P} `{GlinkPipe P} `{Idr} (W : @glink_world P) : Rpmsg (qcom_glink P) :=
  {| rpmsg_send := qcom_glink_send W |}.

(** struct qrtr_smd_dev: the node of its endpoint, and the channel. *)
Record qrtr_smd_dev := SmdDev { sd_ep : Z; sd_channel : Z }.

(** The device as the callback finds it, the router, and the link below. *)
Record smd (R L : Type) := Smd { sm_drvdata : option qrtr_smd_dev; sm_router : R; sm_link : L }.
Arguments Smd {R L}.
Arguments sm_drvdata {R L}.
Arguments sm_router {R L}.
Arguments sm_link {R L}.

Section smd.
Context {R L : Type} `{Endpoint R} `{Rpmsg L}.
Abbreviation S := (ST (smd R L)).

Definition on_router {A} (c : ST R A) : S A :=
  fun s => match c (sm_router s) with
           | Ok (a, r) => Ok (a, Smd (sm_drvdata s) r (sm_link s))
           | Fault => Fault
           | Loop => Loop
           end.
Definition on_link {A} (c : ST L A) : S A :=
  fun s => match c (sm_link s) with
           | Ok (a, l) => Ok (a, Smd (sm_drvdata s) (sm_router s) l)
           | Fault => Fault
           | Loop => Loop
           end.
Definition set_drvdata (d : option qrtr_smd_dev) : S unit := st_upd (fun s => Smd d (sm_router s) (sm_link s)).

(** An invalid packet is dropped by the channel. *)
Definition qcom_smd_qrtr_callback (data : list Z) : S Z :=
  let! d := st_get sm_drvdata in
  match d with
  | None => st_ret (- EAGAIN)
  | Some d =>
    let! rc := on_router (endpoint_post (sd_ep d) data) in
    st_ret (if rc =? - EINVAL then 0 else rc)
  end.

(** [linear] is the result of [skb_linearize]; the buffer is given back in any case. *)
Definition qcom_smd_qrtr_send (linear : Z) (d : qrtr_smd_dev) (data : list Z) : S Z :=
  if negb (linear =? 0) then st_ret linear else on_link (rpmsg_send (sd_channel d) data).

(** [mem]: there is memory for the device; [net_id]: the property of the device tree. *)
Definition qcom_smd_qrtr_probe (mem : bool) (net_id : option Z) (channel : Z) : S Z :=
  if negb mem then st_ret (- ENOMEM) else
  let! r := on_router (endpoint_register (default QRTR_EP_NET_ID_AUTO net_id)) in
  match r with
  | inl rc => st_ret rc
  | inr a => set_drvdata (Some (SmdDev a channel)) ;;; st_ret 0
  end.

Definition qcom_smd_qrtr_remove : S unit :=
  let! d := st_get sm_drvdata in
  match d with
  | None => fun _ => Fault
  | Some d => on_router (endpoint_unregister (sd_ep d)) ;;; set_drvdata None
  end.
End smd.

(** ** All the layers *)
(** What the header of a transmitted packet says on the other side. *)
Definition wire_cb (type : Z) (from to : sockaddr_qrtr) (n : qrtr_node) (confirm : Z) : qrtr_cb :=
  legacy_ctrl (Cb (sq_node from) (sq_port from) (dest_nid n to) (sq_port to) type confirm).

(** The addresses of a packet fit the header. *)
Record addressed (type : Z) (from to : sockaddr_qrtr) (n : qrtr_node) : Prop := {
  ad_type : 0 <= type < 256;
  ad_from : is_u32 (sq_node from) /\ is_u32 (sq_port from);
  ad_to : is_u32 (dest_nid n to) /\ is_u32 (sq_port to);
}.

(** The router has a use for the packet, and memory. *)
Record hears (t : router) (b : Z) (cb : qrtr_cb) (len : Z) : Prop := {
  he_node : is_Some (nodes t !! b);
  he_live : ports_live t;
  he_memory : env t EAlloc = [] /\ env t EQueue = [];
  he_type : bad_type cb = false;
  he_server : cb_type cb = QRTR_TYPE_NEW_SERVER -> 13 <= len;
  he_port : cb_type cb = QRTR_TYPE_DATA -> dst_node cb = qrtr_local_nid t -> is_Some (qrtr_ports t !! port_key (dst_port cb));
}.

Section net.
Context (smem : qcom_smem) (hwlock_rc : Z).
#[local] Instance net_pipe : GlinkPipe smem_pipes := smem_pipe smem hwlock_rc.
Context `{Idr} `{Termios}.
Abbreviation link := (qcom_glink smem_pipes).
Context (WA WB : @glink_world smem_pipes) (task : bool) (w : ST router Z) (fuel : nat).
#[local] Instance net_router : Endpoint router := router_endpoint task w fuel.

(** The transport accepts what the router accepts. *)
Lemma callback_queued b c (t : router) type from to n confirm data :
  addressed type from to n -> confirm = 0 \/ confirm = 1 -> Z.of_nat (length data) < 2 ^ 32 ->
  hears t b (wire_cb type from to n confirm) (Z.of_nat (length data)) -> exists t',
  (forall l : link, qcom_smd_qrtr_callback (packet type from confirm (dest_nid n to) (sq_port to) data) (Smd (Some (SmdDev b c)) t l) =
     Ok (0, Smd (Some (SmdDev b c)) t' l)) /\
  queued b (wire_cb type from to n confirm) data t t'.
Proof.
  intros [Ht [Hfn Hfp] [Hd Hp]] Hc Hl [[m Hm] Hlive [Ha Hq] Hb Hs Hport].
  destruct (post_packet b t m type from confirm (dest_nid n to) (sq_port to) data) as (t'&E&Q); try done.
  exists t'. split; [|exact Q]. intros l. unfold qcom_smd_qrtr_callback. rewrite st_bind_get. cbn [sm_drvdata sd_ep].
  unfold st_bind, on_router. cbn [sm_router]. change (endpoint_post b) with (qrtr_endpoint_post b). by rewrite E.
Qed.

(** C11: A packet goes from one router to the other through all the layers: when the router of one side transmits it, the
    transport takes the bytes the router made, the link sends them into an intent of the other side, the interrupt there
    delivers exactly these bytes, the transport posts them, and the packet is in the queue of the worker or of the local
    port with the addresses, the type, the flag and the data it was sent with; after the answer the link is ready again. *)
Theorem qrtr_over_glink (sA sB : link) cA kA cB kB a b (rA rA' rB : router) skb type from to flags n :
  idle_edge sA sB -> paired sA cA kA sB cB kB ->
  Forall (fun n => n <= 8 * Z.of_nat (w_rounds WA) /\ n <= 8 * Z.of_nat (w_rounds WB))
    [sp_length (ps_rx (gl_pipe sA)); sp_length (ps_tx (gl_pipe sA))] ->
  qrtr_node_enqueue w fuel a skb type from to flags rA = Ok (0, rA') -> nodes rA' !! a = Some n -> nd_ep n = true ->
  (type = QRTR_TYPE_HELLO -> fmap hello_sent (nodes rA !! a) = Some 0) -> addressed type from to n -> is_bytes (skb_data skb) ->
  let data := skb_data skb in let len := ALIGN (Z.of_nat (length data)) 4 + sizeof_hdr_v1 in
  Z.of_nat (length data) < 2 ^ 31 -> wire_bound len <= sp_length (ps_tx (gl_pipe sA)) - 16 ->
  (exists id x i, ch_riids kA !! id = Some x /\ free_for sA len x i) ->
  (forall confirm, hears rB b (wire_cb type from to n confirm) (Z.of_nat (length data))) ->
  exists tr pkt confirm m rB' sA1 sB1 sA2,
  trace rA' = tr ++ [Xmit a pkt 0] /\
  (forall d r, @qcom_smd_qrtr_send router link (glink_rpmsg WA) 0 (SmdDev a cA) pkt (Smd d r sA) = Ok (0, Smd d r sA1)) /\
  qcom_glink_native_intr WB (see sA1 sB) = Ok (tt, sB1) /\ gl_trace sB1 = gl_trace sB ++ [Deliver cB pkt; Sent m; Kicked] /\
  (forall l : link, qcom_smd_qrtr_callback pkt (Smd (Some (SmdDev b cB)) rB l) = Ok (0, Smd (Some (SmdDev b cB)) rB' l)) /\
  queued b (wire_cb type from to n confirm) data rB rB' /\
  qcom_glink_native_intr WA (see sB1 sA1) = Ok (tt, sA2) /\ idle_edge sA2 (see sA2 sB1) /\
  exists kA' kB', paired sA2 cA kA' (see sA2 sB1) cB kB'.
Proof.
  intros I Pa Hw He Hn Hep Hh Ad Hb data len Hl Hwire Hfree Hears.
  destruct (sent_packet _ _ _ _ _ _ _ _ _ _ _ He Hn Hep Hh ltac:(unfold data in *; lia)) as (tr&confirm&Hc&Tr).
  set (pkt := packet _ _ _ _ _ _) in *. assert (Hlen : Z.of_nat (length pkt) = len) by (apply length_packet; unfold data in *; lia).
  destruct (callback_queued b cB rB type from to n confirm data Ad Hc ltac:(lia) (Hears confirm)) as (rB'&Ecb&Q).
  destruct (message_exchange smem hwlock_rc WA WB sA cA kA sB cB kB pkt true I Pa) as (id&x&i&j&sA1&sB1&sA2&_&_&E1&E2&Tr2&E3&_&I2&Pa2);
    [by apply packet_bytes|by rewrite Hlen|done|by rewrite Hlen|].
  exists tr, pkt, confirm, (done_msg kB j), rB', sA1, sB1, sA2. split; [exact Tr|]. split.
  { intros d r. unfold qcom_smd_qrtr_send. cbn [negb Z.eqb]. unfold on_link. cbn [sm_link sd_channel].
    assert (Es : @rpmsg_send link (glink_rpmsg WA) cA pkt sA = Ok (0, sA1)) by exact E1. by rewrite Es. }
  split; [exact E2|]. split; [exact Tr2|]. split; [exact Ecb|]. split; [exact Q|]. split; [exact E3|]. split; [exact I2|]. by eexists _, _.
Qed.
End net.

(** ** A packet of three bytes between two processors *)
Import RouterDemo.
#[local] Existing Instance demo_pipe.
Lemma demo_hears confirm : hears remote 50 (wire_cb QRTR_TYPE_DATA (Sockaddr 1 0x4001) dest (node 5 1 {[key := Flow 1 0 []]}) confirm) 3.
Proof.
  constructor; [by eexists|exact remote_live|done|done|cbn; unfold QRTR_TYPE_DATA, QRTR_TYPE_NEW_SERVER; lia|].
  intros _ _. exists 60. reflexivity.
Qed.

Lemma qrtr_over_glink_witness : exists pkt sA1 sB1,
  (exists tr, trace QrtrDemo.sent = tr ++ [Xmit 10 pkt 0]) /\ qcom_glink_native_intr demo_world (see sA1 demo_b) = Ok (tt, sB1) /\
  Deliver 20 pkt ∈ gl_trace sB1 /\ exists rB', qcom_smd_qrtr_callback (H := router_endpoint true nowait 3) pkt
    (Smd (Some (SmdDev 50 20)) remote demo_b) = Ok (0, Smd (Some (SmdDev 50 20)) rB' demo_b).
Proof.
  destruct (qrtr_over_glink demo_smem 0 demo_world demo_world true nowait 3 demo_a demo_b 10 demo_ka 20 demo_kb 10 50
    start QrtrDemo.sent remote outgoing QRTR_TYPE_DATA (Sockaddr 1 0x4001) dest 0 (node 5 1 {[key := Flow 1 0 []]}) demo_idle demo_paired)
    as (tr&pkt&confirm&m&rB'&sA1&sB1&sA2&Tr&_&E2&Tr2&Ecb&_).
  - repeat constructor; cbn; lia.
  - vm_compute. reflexivity.
  - vm_compute. reflexivity.
  - reflexivity.
  - vm_compute. congruence.
  - constructor; unfold is_u32; cbn; unfold QRTR_TYPE_DATA; lia.
  - apply (bool_decide_unpack _). vm_compute. exact I.
  - cbn. lia.
  - vm_compute. congruence.
  - exists 5, 100, (demo_intent 64 (Mem 0 0 ∅)). split; [reflexivity|]. split; [reflexivity|]. split; [vm_compute; congruence|reflexivity].
  - exact demo_hears.
  - exists pkt, sA1, sB1. split; [by exists tr|]. split; [exact E2|]. split; [rewrite Tr2; apply elem_of_app; right; by left|].
    exists rB'. apply Ecb.
Defined.

(** A packet for a port that is not there makes the transport answer -ENODEV, which the link does not ignore as it does other
    errors: the handler stops, and the message behind it stays in the queue until the next interrupt. *)
Definition demo_two_mem : mem :=
  poke [(4096, 4%nat, 0); (4100, 4%nat, 32); (4128, 2%nat, RPM_CMD_TX_DATA); (4130, 2%nat, 1); (4132, 4%nat, 5);
        (4144, 2%nat, RPM_CMD_TX_DATA); (4146, 2%nat, 1); (4148, 4%nat, 5)] (Mem 4096 4096 ∅).
Definition demo_two : qcom_glink smem_pipes :=
  Glink (SmemPipes demo_two_mem demo_tx demo_rx) 1 false 0 false [] false {[2 := 20]} 3 {[1 := 20]} {[20 := demo_kb]}
    {[200 := Intent (Mem 0 64 ∅) 5 64 true false true 0]} 300 (Registrations true true true true) (false, false) []
    (fun c => match c with GCallback => [- ENODEV] | _ => [] end).
Lemma smd_unknown_port_run :
  (exists r s, qcom_smd_qrtr_callback (H := router_endpoint true nowait 3) (packet QRTR_TYPE_DATA (Sockaddr 1 0x4001) 0 5 0x4fff [1; 2; 3; 4])
    (Smd (Some (SmdDev 50 20)) remote demo_two) = Ok (r, s) /\ bool_decide (r = - ENODEV) = true) /\
  exists u s, qcom_glink_native_intr demo_world demo_two = Ok (u, s) /\
    ((rd32 (ps_mem (gl_pipe s)) 4096 =? 16) && (rd32 (ps_mem (gl_pipe s)) 4100 =? 32)) = true.
Proof. split; apply run_check; vm_compute; reflexivity. Qed.
