(* ===== verification/QmiInterface.v ===== *)
(** * The QMI client interface (drivers/soc/qcom/qmi_interface.c)

    A handle owns a socket of the message router, the lookups and the services registered on
    it, the servers found, and the transactions that wait for a response.  The sockets are
    used through the class [KernelSockets]; the callbacks and the message handlers of the
    owner of the handle are functions on the whole state. *)
From S2P Require Import Prelude CMem KernelIdr QrtrNs QrtrSocket QmiEncdec.
Open Scope c_scope.

(** ** What the interface uses *)

(** The calls of the socket layer: a negative error or a socket, a name, a result, what was
    received. *)
Class KernelSockets (S : Type) := {
  ks_create : ST S (Z + Z);
  ks_getsockname : Z -> ST S (Z + sockaddr_qrtr);
  ks_sendmsg : Z -> option sockaddr_qrtr -> list Z -> ST S Z;
  ks_recvmsg : Z -> Z -> ST S received;
  ks_release : Z -> ST S unit;
  ks_sndtimeo : Z -> ST S Z;
  ks_set_sndtimeo : Z -> Z -> ST S unit;
  ks_create_err : forall s e s', ks_create s = Ok (inl e, s') -> e < 0;
  ks_name_err : forall i s e s', ks_getsockname i s = Ok (inl e, s') -> e < 0;
}.

(** The fields of the message header and of a transaction and the three types of a message are
    declared outside the repository.  A field that was written is read back, reading looks at
    the header only, and the identifier of a transaction holds 16 bits. *)
Class QmiFields `{QmiHeader} := {
  QMI_REQUEST : Z;
  QMI_RESPONSE : Z;
  QMI_INDICATION : Z;
  hdr_type : mem -> Z;
  hdr_txn : mem -> Z;
  hdr_msg : mem -> Z;
  txn_id : Z -> Z;
  fields_put : forall t i x n m, 0 <= t < 2 ^ 8 -> 0 <= i < 2 ^ 16 -> 0 <= x < 2 ^ 16 ->
    let m' := put_qmi_header t i x n m in hdr_type m' = t /\ hdr_txn m' = i /\ hdr_msg m' = x;
  fields_agree : forall m m', m_base m = m_base m' ->
    bytes_at m (m_base m) (Z.to_nat sizeof_qmi_header) = bytes_at m' (m_base m) (Z.to_nat sizeof_qmi_header) ->
    hdr_type m = hdr_type m' /\ hdr_txn m = hdr_txn m' /\ hdr_msg m = hdr_msg m';
  types_ok : 0 <= QMI_REQUEST < 2 ^ 8 /\ 0 <= QMI_RESPONSE < 2 ^ 8 /\ 0 <= QMI_INDICATION < 2 ^ 8 /\
    QMI_REQUEST <> QMI_RESPONSE /\ QMI_INDICATION <> QMI_RESPONSE;
  txn_id_16 : forall i, 0 <= i < 2 ^ 16 -> txn_id i = i;
}.

Definition U16_MAX : Z := 65535.
Definition EAFNOSUPPORT : Z := 97.
Definition sizeof_qrtr_ctrl_pkt : Z := 20.

(** ** State *)
Record qmi_service := Svc {
  v_service : Z; v_version : Z; v_instance : Z; v_node : Z; v_port : Z;
}.

(** A transaction; [t_done] is the count of its completion. *)
Record qmi_txn := Txn {
  t_id : Z; t_result : Z; t_done : Z; t_ei : option (list qmi_elem_info); t_dest : option Z;
}.

(** The pointer [qmi->sock]. *)
Inductive sock_ptr := SNull | SErr (e : Z) | SPtr (i : Z).

(** [q_user] are the sockets whose user data is the handle, [q_work] says that the work is
    queued. *)
Record qmi_handle := Handle {
  q_sock : sock_ptr;
  q_sq : sockaddr_qrtr;
  q_lookups : list qmi_service;
  q_results : list qmi_service;
  q_services : list qmi_service;
  q_txns : gmap Z Z;
  q_txn_next : Z;
  q_recv_buf : mem;
  q_wq : bool;
  q_work : bool;
  q_user : gset Z;
}.

(** The handle with what it touches: the sockets [w_sock], the state of its owner, the
    transaction objects by address (an access to a freed one is a fault), the memory of the
    owner, and the answers of the allocator to the next requests. *)
Record world (S C : Type) := World {
  w_sock : S;
  w_client : C;
  w_h : qmi_handle;
  w_objs : gmap Z qmi_txn;
  w_next : Z;
  w_mem : mem;
  w_allocs : list bool;
}.
Arguments World {S C}.
Arguments w_sock {S C}.
Arguments w_client {S C}.
Arguments w_h {S C}.
Arguments w_objs {S C}.
Arguments w_next {S C}.
Arguments w_mem {S C}.
Arguments w_allocs {S C}.

Definition set_sock (p : sock_ptr) (sq : sockaddr_qrtr) (h : qmi_handle) : qmi_handle :=
  Handle p sq (q_lookups h) (q_results h) (q_services h) (q_txns h) (q_txn_next h) (q_recv_buf h)
    (q_wq h) (q_work h) (q_user h).
Definition set_lookups (l : list qmi_service) (h : qmi_handle) : qmi_handle :=
  Handle (q_sock h) (q_sq h) l (q_results h) (q_services h) (q_txns h) (q_txn_next h) (q_recv_buf h)
    (q_wq h) (q_work h) (q_user h).
Definition set_results (l : list qmi_service) (h : qmi_handle) : qmi_handle :=
  Handle (q_sock h) (q_sq h) (q_lookups h) l (q_services h) (q_txns h) (q_txn_next h) (q_recv_buf h)
    (q_wq h) (q_work h) (q_user h).
Definition set_services (l : list qmi_service) (h : qmi_handle) : qmi_handle :=
  Handle (q_sock h) (q_sq h) (q_lookups h) (q_results h) l (q_txns h) (q_txn_next h) (q_recv_buf h)
    (q_wq h) (q_work h) (q_user h).
Definition set_txns (m : gmap Z Z) (next : Z) (h : qmi_handle) : qmi_handle :=
  Handle (q_sock h) (q_sq h) (q_lookups h) (q_results h) (q_services h) m next (q_recv_buf h)
    (q_wq h) (q_work h) (q_user h).
Definition set_recv (m : mem) (h : qmi_handle) : qmi_handle :=
  Handle (q_sock h) (q_sq h) (q_lookups h) (q_results h) (q_services h) (q_txns h) (q_txn_next h) m
    (q_wq h) (q_work h) (q_user h).
Definition set_wq (wq work : bool) (h : qmi_handle) : qmi_handle :=
  Handle (q_sock h) (q_sq h) (q_lookups h) (q_results h) (q_services h) (q_txns h) (q_txn_next h)
    (q_recv_buf h) wq work (q_user h).
Definition set_user (u : gset Z) (h : qmi_handle) : qmi_handle :=
  Handle (q_sock h) (q_sq h) (q_lookups h) (q_results h) (q_services h) (q_txns h) (q_txn_next h)
    (q_recv_buf h) (q_wq h) (q_work h) u.

Definition with_w_sock {S C} (s : S) (w : world S C) : world S C :=
  World s (w_client w) (w_h w) (w_objs w) (w_next w) (w_mem w) (w_allocs w).
Definition with_w_client {S C} (c : C) (w : world S C) : world S C :=
  World (w_sock w) c (w_h w) (w_objs w) (w_next w) (w_mem w) (w_allocs w).
Definition with_h {S C} (f : qmi_handle -> qmi_handle) (w : world S C) : world S C :=
  World (w_sock w) (w_client w) (f (w_h w)) (w_objs w) (w_next w) (w_mem w) (w_allocs w).
Definition with_objs {S C} (o : gmap Z qmi_txn) (next : Z) (w : world S C) : world S C :=
  World (w_sock w) (w_client w) (w_h w) o next (w_mem w) (w_allocs w).
Definition with_w_mem {S C} (m : mem) (w : world S C) : world S C :=
  World (w_sock w) (w_client w) (w_h w) (w_objs w) (w_next w) m (w_allocs w).
Definition with_allocs {S C} (l : list bool) (w : world S C) : world S C :=
  World (w_sock w) (w_client w) (w_h w) (w_objs w) (w_next w) (w_mem w) l.

(** [struct qmi_ops] and [struct qmi_msg_handler]; a handler gets the sender, the transaction
    and the decoded structure, which is in a memory of its own at address 0. *)
Record qmi_ops (W : Type) := Ops {
  op_new_server : option (qmi_service -> ST W Z);
  op_del_server : option (qmi_service -> ST W unit);
  op_net_reset : option (ST W unit);
  op_msg_handler : option (sockaddr_qrtr -> mem -> Z -> ST W unit);
  op_bye : option (Z -> ST W unit);
  op_del_client : option (Z -> Z -> ST W unit);
}.
Arguments Ops {W}.
Arguments op_new_server {W}.
Arguments op_del_server {W}.
Arguments op_net_reset {W}.
Arguments op_msg_handler {W}.
Arguments op_bye {W}.
Arguments op_del_client {W}.

Record qmi_msg_handler (W : Type) := Handler {
  h_type : Z; h_msg_id : Z; h_ei : option (list qmi_elem_info); h_size : Z;
  h_fn : option (sockaddr_qrtr -> Z -> mem -> ST W unit);
}.
Arguments Handler {W}.
Arguments h_type {W}.
Arguments h_msg_id {W}.
Arguments h_ei {W}.
Arguments h_size {W}.
Arguments h_fn {W}.

Section qmi.
Context {Sk C : Type} `{KS : KernelSockets Sk} `{ID : Idr} `{QH : QmiHeader} `{QF : !QmiFields}.
Context (HZ : Z) (fuel : nat).
Local Notation W := (world Sk C).

(** A call of the socket layer. *)
Definition on_sock {A} (c : ST Sk A) : ST W A :=
  fun w => match c (w_sock w) with
           | Ok (a, s) => Ok (a, with_w_sock s w)
           | Fault => Fault
           | Loop => Loop
           end.

Definition upd_h (f : qmi_handle -> qmi_handle) : ST W unit := st_upd (with_h f).
Definition get_h {A} (f : qmi_handle -> A) : ST W A := st_get (fun w => f (w_h w)).

Definition w_alloc : ST W bool :=
  fun w => match w_allocs w with
           | [] => Ok (true, w)
           | b :: l => Ok (b, with_allocs l w)
           end.

(** [*txn] *)
Definition txn_of (a : Z) : ST W qmi_txn :=
  fun w => match w_objs w !! a with Some t => Ok (t, w) | None => Fault end.

Definition set_txn (a : Z) (t : qmi_txn) : ST W unit :=
  let! _ := txn_of a in
  st_upd (fun w => with_objs (<[a := t]> (w_objs w)) (w_next w) w).

(** A transaction object of the caller, and its end. *)
Definition new_txn (t : qmi_txn) : ST W Z :=
  let! a := st_get w_next in
  st_upd (fun w => with_objs (<[a := t]> (w_objs w)) (a + 1) w) ;;;
  st_ret a.

Definition free_txn (a : Z) : ST W unit :=
  st_upd (fun w => with_objs (delete a (w_objs w)) (w_next w) w).

Definition complete (a : Z) : ST W unit :=
  let! t := txn_of a in
  set_txn a (Txn (t_id t) (t_result t) (t_done t + 1) (t_ei t) (t_dest t)).

Definition set_result (a r : Z) : ST W unit :=
  let! t := txn_of a in
  set_txn a (Txn (t_id t) r (t_done t) (t_ei t) (t_dest t)).

(** The answer when the wait ends: the completion is taken, or the time is up. *)
Definition wait_for_completion_timeout (a : Z) : ST W Z :=
  let! t := txn_of a in
  if t_done t >? 0 then
    set_txn a (Txn (t_id t) (t_result t) (t_done t - 1) (t_ei t) (t_dest t)) ;;; st_ret 1
  else st_ret 0.

Definition idr_remove (id : Z) : ST W unit :=
  upd_h (fun h => set_txns (delete id (q_txns h)) (q_txn_next h) h).

(** ** Sending *)

(** [kernel_sendmsg] on [qmi->sock] where the source has tested the pointer. *)
Definition sock_send (to : option sockaddr_qrtr) (b : list Z) (none : Z) : ST W Z :=
  let! p := get_h q_sock in
  match p with
  | SNull => st_ret none
  | SErr _ => fun _ => Fault
  | SPtr i => on_sock (ks_sendmsg i to b)
  end.

Definition svc_instance (svc : qmi_service) : Z :=
  u32 (Z.lor (v_version svc) (Z.shiftl (v_instance svc) 8)).

Definition qmi_send_new_lookup (svc : qmi_service) : ST W unit :=
  let pkt := Pkt QRTR_TYPE_NEW_LOOKUP (v_service svc) (svc_instance svc) 0 0 in
  let! sq := get_h q_sq in
  let! _ := sock_send (Some (Sockaddr (sq_node sq) QRTR_PORT_CTRL)) (pkt_bytes pkt) 0 in
  st_ret tt.

Definition qmi_add_lookup (service version instance : Z) : ST W Z :=
  let! ok := w_alloc in
  if negb ok then st_ret (- ENOMEM) else
  let svc := Svc service version instance 0 0 in
  upd_h (fun h => set_lookups (svc :: q_lookups h) h) ;;;
  qmi_send_new_lookup svc ;;;
  st_ret 0.

Definition qmi_send_new_server (svc : qmi_service) : ST W unit :=
  let! sq := get_h q_sq in
  let pkt := Pkt QRTR_TYPE_NEW_SERVER (v_service svc) (svc_instance svc) (sq_node sq) (sq_port sq) in
  let! _ := sock_send (Some (Sockaddr (sq_node sq) QRTR_PORT_CTRL)) (pkt_bytes pkt) 0 in
  st_ret tt.

Definition qmi_add_server (service version instance : Z) : ST W Z :=
  let! ok := w_alloc in
  if negb ok then st_ret (- ENOMEM) else
  let svc := Svc service version instance 0 0 in
  upd_h (fun h => set_services (svc :: q_services h) h) ;;;
  qmi_send_new_server svc ;;;
  st_ret 0.

(** ** Transactions *)
Definition qmi_txn_init (a : Z) (ei : option (list qmi_elem_info)) (c_struct : option Z) : ST W Z :=
  set_txn a (Txn 0 0 0 ei c_struct) ;;;
  let! ok := w_alloc in
  let! ret :=
    (if negb ok then st_ret (- ENOMEM) else
     let! m := get_h q_txns in
     let! next := get_h q_txn_next in
     let r := idr_alloc_cyclic m next 0 U16_MAX in
     (if 0 <=? r then upd_h (set_txns (<[r := a]> m) (r + 1)) else st_ret tt) ;;;
     st_ret r) in
  set_txn a (Txn (txn_id ret) 0 0 ei c_struct) ;;;
  st_ret ret.

(** What [qmi_txn_wait] does once the wait has ended with [ret]. *)
Definition txn_wait_rest (a ret : Z) : ST W Z :=
  let! t := txn_of a in
  if t_result t =? - ENETRESET then st_ret (t_result t) else
  idr_remove (t_id t) ;;;
  if ret =? 0 then st_ret (- ETIMEDOUT) else
  let! t := txn_of a in st_ret (t_result t).

Definition qmi_txn_wait (a : Z) : ST W Z :=
  let! ret := wait_for_completion_timeout a in
  txn_wait_rest a ret.

Definition qmi_txn_cancel (a : Z) : ST W unit :=
  let! t := txn_of a in
  idr_remove (t_id t).

(** ** Messages out *)

(** The structure is at [c_struct] in [src]. *)
Definition qmi_send_message (sq : option sockaddr_qrtr) (a type msg_id len : Z)
    (ei : option (list qmi_elem_info)) (src : mem) (c_struct : option Z) : ST W Z :=
  let! t := txn_of a in
  let! ok := w_alloc in
  let! r := st_lift (qmi_encode_message fuel ok src type msg_id len (t_id t) ei c_struct) in
  match r with
  | inl err => st_ret err
  | inr (msg, n) =>
    let! ret := sock_send sq (bytes_at msg 0 (Z.to_nat n)) (- EPIPE) in
    st_ret (if ret <? 0 then ret else 0)
  end.

Definition qmi_send_request (sq : option sockaddr_qrtr) (a msg_id len : Z)
    (ei : option (list qmi_elem_info)) (src : mem) (c_struct : option Z) : ST W Z :=
  qmi_send_message sq a QMI_REQUEST msg_id len ei src c_struct.

Definition qmi_send_response (sq : option sockaddr_qrtr) (a msg_id len : Z)
    (ei : option (list qmi_elem_info)) (src : mem) (c_struct : option Z) : ST W Z :=
  qmi_send_message sq a QMI_RESPONSE msg_id len ei src c_struct.

Definition qmi_send_indication (sq : option sockaddr_qrtr) (msg_id len : Z)
    (ei : option (list qmi_elem_info)) (src : mem) (c_struct : option Z) : ST W Z :=
  let! a := new_txn (Txn 0 0 0 None None) in
  let! ret := qmi_txn_init a None None in
  let! rval :=
    (if ret <? 0 then st_ret ret else
     let! rval := qmi_send_message sq a QMI_INDICATION msg_id len ei src c_struct in
     qmi_txn_cancel a ;;;
     st_ret rval) in
  free_txn a ;;;
  st_ret rval.

(** ** Reception

    The callbacks [qmi->ops] and the handlers are set when the handle is made. *)
Context (ops : qmi_ops W) (handlers : option (list (qmi_msg_handler W))).

Definition call {A B} (f : option A) (k : A -> ST W B) (b : B) : ST W B :=
  match f with Some f => k f | None => st_ret b end.

Definition qmi_recv_new_server (service instance node port : Z) : ST W unit :=
  match op_new_server ops with
  | None => st_ret tt
  | Some new_server =>
    if (node =? 0) && (port =? 0) then st_ret tt else
    let! ok := w_alloc in
    if negb ok then st_ret tt else
    let svc := Svc service (Z.land instance 0xff) (Z.shiftr instance 8) node port in
    let! ret := new_server svc in
    if ret <? 0 then st_ret tt else upd_h (fun h => set_results (svc :: q_results h) h)
  end.

(** The loop of [qmi_recv_del_server]: [kept] is the part of the list before the cursor; no
    callback can touch the list. *)
Fixpoint del_server_loop (node port : Z) (kept l : list qmi_service) : ST W unit :=
  match l with
  | [] => st_ret tt
  | svc :: l =>
    if negb (node =? UINT_MAX) && negb (v_node svc =? node) then del_server_loop node port (kept ++ [svc]) l else
    if negb (port =? UINT_MAX) && negb (v_port svc =? port) then del_server_loop node port (kept ++ [svc]) l else
    call (op_del_server ops) (fun f => f svc) tt ;;;
    upd_h (set_results (kept ++ l)) ;;;
    del_server_loop node port kept l
  end.

Definition qmi_recv_del_server (node port : Z) : ST W unit :=
  let! l := get_h q_results in
  del_server_loop node port [] l.

Definition qmi_recv_bye (node : Z) : ST W unit :=
  qmi_recv_del_server node UINT_MAX ;;;
  call (op_bye ops) (fun f => f node) tt.

Definition qmi_recv_del_client (node port : Z) : ST W unit :=
  call (op_del_client ops) (fun f => f node port) tt.

(** A control packet of [len] bytes at the start of [buf]. *)
Definition qmi_recv_ctrl_pkt (buf : mem) (len : Z) : ST W unit :=
  if len <? sizeof_qrtr_ctrl_pkt then st_ret tt else
  if negb (in_range buf (m_base buf) sizeof_qrtr_ctrl_pkt) then fun _ => Fault else
  let pkt := pkt_at (bytes_at buf (m_base buf) (Z.to_nat sizeof_qrtr_ctrl_pkt)) in
  let cmd := p_cmd pkt in
  if cmd =? QRTR_TYPE_BYE then qmi_recv_bye (client_node pkt) else
  if cmd =? QRTR_TYPE_NEW_SERVER then
    qmi_recv_new_server (server_service pkt) (server_instance pkt) (server_node pkt) (server_port pkt) else
  if cmd =? QRTR_TYPE_DEL_SERVER then qmi_recv_del_server (server_node pkt) (server_port pkt) else
  if cmd =? QRTR_TYPE_DEL_CLIENT then qmi_recv_del_client (client_node pkt) (client_port pkt) else
  st_ret tt.

(** The first handler of the type and number, or the terminator of the array. *)
Fixpoint find_handler (l : list (qmi_msg_handler W)) (type msg_id : Z) : res (qmi_msg_handler W) :=
  match l with
  | [] => Fault
  | h :: l =>
    match h_fn h with
    | None => Ok h
    | Some _ => if (h_type h =? type) && (h_msg_id h =? msg_id) then Ok h else find_handler l type msg_id
    end
  end.

Definition qmi_invoke_handler (sq : sockaddr_qrtr) (a : Z) (buf : mem) (len : Z) : ST W unit :=
  match handlers with
  | None => st_ret tt
  | Some l =>
    let! h := st_lift (find_handler l (hdr_type buf) (hdr_msg buf)) in
    match h_fn h with
    | None => st_ret tt
    | Some fn =>
      let! ok := w_alloc in
      if negb ok then st_ret tt else
      let! r := st_lift (qmi_decode_message fuel buf (Some (m_base buf)) len (h_ei h) (Some 0)
                           (Mem 0 (h_size h) ∅)) in
      let '(ret, dest) := r in
      if ret <? 0 then st_ret tt else fn sq a dest
    end
  end.

Definition qmi_handle_message (sq : sockaddr_qrtr) (buf : mem) (len : Z) : ST W unit :=
  if len =? 0 then st_ret tt else
  if len <? sizeof_qmi_header then st_ret tt else
  if negb (in_range buf (m_base buf) sizeof_qmi_header) then fun _ => Fault else
  if hdr_type buf =? QMI_RESPONSE then
    let! found := get_h (fun h => q_txns h !! hdr_txn buf) in
    match found with
    | None => st_ret tt
    | Some a =>
      let! t := txn_of a in
      match t_dest t, t_ei t with
      | Some p, Some ei =>
        let! m := st_get w_mem in
        let! r := st_lift (qmi_decode_message fuel buf (Some (m_base buf)) len (Some ei) (Some p) m) in
        let '(ret, m) := r in
        st_upd (with_w_mem m) ;;;
        set_result a ret ;;;
        complete a
      | _, _ => qmi_invoke_handler sq a buf len
      end
    end
  else
    let! a := new_txn (Txn (hdr_txn buf) 0 0 None None) in
    qmi_invoke_handler sq a buf len ;;;
    free_txn a.

(** ** The socket of the handle *)
Definition qmi_sock_create : ST W (Z + (Z * sockaddr_qrtr)) :=
  let! r := on_sock ks_create in
  match r with
  | inl ret => st_ret (inl ret)
  | inr sock =>
    let! n := on_sock (ks_getsockname sock) in
    match n with
    | inl ret => on_sock (ks_release sock) ;;; st_ret (inl ret)
    | inr sq =>
      upd_h (fun h => set_user ({[sock]} ∪ q_user h) h) ;;;
      on_sock (ks_set_sndtimeo sock (HZ * 10)) ;;;
      st_ret (inr (sock, sq))
    end
  end.

(** A socket that is released has no user data left. *)
Definition sock_release (i : Z) : ST W unit :=
  on_sock (ks_release i) ;;;
  upd_h (fun h => set_user (q_user h ∖ {[i]}) h).

Fixpoint send_services (f : qmi_service -> ST W unit) (l : list qmi_service) : ST W unit :=
  match l with
  | [] => st_ret tt
  | svc :: l => f svc ;;; send_services f l
  end.

(** [qmi->sock->sk] *)
Definition sock_sk : ST W Z :=
  let! p := get_h q_sock in
  match p with SPtr i => st_ret i | _ => fun _ => Fault end.

Definition qmi_handle_net_reset : ST W unit :=
  let! old := sock_sk in
  let! timeo := on_sock (ks_sndtimeo old) in
  let! r := qmi_sock_create in
  match r with
  | inl _ => st_ret tt
  | inr (sock, sq) =>
    qmi_recv_del_server UINT_MAX UINT_MAX ;;;
    call (op_net_reset ops) (fun f => f) tt ;;;
    let! p := get_h q_sock in
    match p with
    | SNull => sock_release sock
    | SErr _ => fun _ => Fault
    | SPtr old =>
      sock_release old ;;;
      upd_h (set_sock (SPtr sock) sq) ;;;
      on_sock (ks_set_sndtimeo sock timeo) ;;;
      let! l := get_h q_lookups in
      send_services qmi_send_new_lookup l ;;;
      let! l := get_h q_services in
      send_services qmi_send_new_server l
    end
  end.

(** One message of the socket: the result is the length, or the error. *)
Definition recv_one : ST W (Z * sockaddr_qrtr) :=
  let! p := get_h q_sock in
  match p with
  | SNull => st_ret (- EPIPE, Sockaddr 0 0)
  | SErr _ => fun _ => Fault
  | SPtr i =>
    let! buf := get_h q_recv_buf in
    let! r := on_sock (ks_recvmsg i (m_size buf)) in
    upd_h (set_recv (put_bytes buf (m_base buf) (rc_bytes r))) ;;;
    st_ret (rc_result r, default (Sockaddr 0 0) (rc_from r))
  end.

Fixpoint data_ready_loop (rounds : nat) : ST W unit :=
  match rounds with
  | O => fun _ => Loop
  | S rounds =>
    let! r := recv_one in
    let '(msglen, sq) := r in
    if msglen =? - EAGAIN then st_ret tt else
    if msglen =? - ENETRESET then qmi_handle_net_reset else
    if msglen <? 0 then st_ret tt else
    let! buf := get_h q_recv_buf in
    (if sq_port sq =? QRTR_PORT_CTRL then qmi_recv_ctrl_pkt buf msglen else
     match op_msg_handler ops with
     | Some msg_handler => msg_handler sq buf msglen
     | None => qmi_handle_message sq buf msglen
     end) ;;;
    data_ready_loop rounds
  end.

(** The work is taken from the queue and runs; [rounds] bounds its loop. *)
Definition qmi_data_ready_work (rounds : nat) : ST W unit :=
  upd_h (fun h => set_wq (q_wq h) false h) ;;;
  data_ready_loop rounds.

Definition qmi_data_ready (sk : Z) : ST W unit :=
  upd_h (fun h => if bool_decide (sk ∈ q_user h) then set_wq (q_wq h) true h else h).

Definition qmi_set_sndtimeo (timeo : Z) : ST W unit :=
  let! i := sock_sk in on_sock (ks_set_sndtimeo i timeo).

(** ** The handle *)
Definition freed : mem := Mem 0 0 ∅.

Definition qmi_handle_init (recv_buf_size : Z) : ST W Z :=
  upd_h (fun h => Handle (q_sock h) (q_sq h) [] [] [] ∅ 0 (q_recv_buf h) (q_wq h) false (q_user h)) ;;;
  let size := u64 (recv_buf_size + sizeof_qmi_header) in
  let size := if size <? sizeof_qrtr_ctrl_pkt then sizeof_qrtr_ctrl_pkt else size in
  let! ok := w_alloc in
  if negb ok then st_ret (- ENOMEM) else
  upd_h (set_recv (Mem 0 size ∅)) ;;;
  let! ok := w_alloc in
  if negb ok then upd_h (set_recv freed) ;;; st_ret (- ENOMEM) else
  upd_h (set_wq true false) ;;;
  let! r := qmi_sock_create in
  match r with
  | inl err =>
    upd_h (fun h => set_sock (SErr err) (q_sq h) h) ;;;
    upd_h (set_wq false false) ;;;
    upd_h (set_recv freed) ;;;
    st_ret (if err =? - EAFNOSUPPORT then - EPROBE_DEFER else err)
  | inr (sock, sq) =>
    upd_h (set_sock (SPtr sock) sq) ;;;
    st_ret 0
  end.

(** The two parts of an iteration of the loop of [qmi_handle_release] over the transactions:
    a transaction leaves the table with its result, then its waiter is woken. *)
Definition release_mark (a : Z) : ST W unit :=
  let! t := txn_of a in
  idr_remove (t_id t) ;;;
  set_result a (- ENETRESET).

Fixpoint release_txns (l : list Z) : ST W unit :=
  match l with
  | [] => st_ret tt
  | a :: l => release_mark a ;;; complete a ;;; release_txns l
  end.

(** The transactions of the table in increasing order of number. *)
Definition idr_entries (m : gmap Z Z) : list Z :=
  omap (fun id => m !! id) (xa_indices m).

Definition qmi_handle_release : ST W unit :=
  let! i := sock_sk in
  upd_h (fun h => set_user (q_user h ∖ {[i]}) h) ;;;
  on_sock (ks_release i) ;;;
  upd_h (fun h => set_sock SNull (q_sq h) h) ;;;
  upd_h (fun h => set_wq (q_wq h) false h) ;;;
  qmi_recv_del_server UINT_MAX UINT_MAX ;;;
  upd_h (set_wq false false) ;;;
  let! l := get_h (fun h => idr_entries (q_txns h)) in
  release_txns l ;;;
  upd_h (fun h => set_txns ∅ (q_txn_next h) h) ;;;
  upd_h (set_recv freed) ;;;
  upd_h (set_lookups []) ;;;
  upd_h (set_services []).
End qmi.
