(* ===== verification/QmiTxn.v ===== *)
(** * Transactions of a QMI handle

    A transaction is an object of the caller whose number is in the table of the handle until
    the caller has it back.  The steps of a handle are its operations; a wait is two steps, so
    that a response, a timeout and the release of the handle come in any order. *)
From stdpp Require Import sorting.
From S2P Require Import Prelude CMem KernelIdr QrtrNs QrtrRegistry QrtrSocket QmiEncdec QmiInterface.
Open Scope c_scope.

Section txns.
Context {Sk C : Type} `{KS : KernelSockets Sk} `{ID : Idr} `{QH : QmiHeader} `{QF : !QmiFields}.
Context (HZ : Z) (fuel : nat).
Local Notation W := (world Sk C).

(** ** What the other operations leave alone *)

(** Objects are below the next address. *)
Definition objs_fresh (w : W) : Prop := forall a, is_Some (w_objs w !! a) -> a < w_next w.

(** The same transaction, up to what its handler tells the waiter. *)
Record same_txn (t t' : qmi_txn) : Prop := {
  same_id : t_id t' = t_id t;
  same_ei : t_ei t' = t_ei t;
  same_dest : t_dest t' = t_dest t;
  same_reset : t_result t' = - ENETRESET <-> t_result t = - ENETRESET;
  same_done : t_done t <= t_done t';
}.

Record calm (w w' : W) : Prop := {
  calm_txns : q_txns (w_h w') = q_txns (w_h w);
  calm_wq : q_wq (w_h w') = q_wq (w_h w);
  calm_next : w_next w <= w_next w';
  calm_fresh : objs_fresh w';
  calm_objs : forall a t, w_objs w !! a = Some t -> exists t', w_objs w' !! a = Some t' /\ same_txn t t';
}.

(** A computation that keeps the table and the transactions. *)
Definition calms {A} (c : ST W A) : Prop :=
  forall w r w', objs_fresh w -> c w = Ok (r, w') -> calm w w'.

#[local] Instance same_txn_po : PreOrder same_txn.
Proof. split; [by split|]. intros t1 t2 t3 [] []. split; [congruence..|tauto|lia]. Qed.

Lemma calm_refl w : objs_fresh w -> calm w w.
Proof. intros Hf. split; [done|done|lia|done|]. intros a t Ht. by exists t. Qed.

Lemma calm_trans w1 w2 w3 : calm w1 w2 -> calm w2 w3 -> calm w1 w3.
Proof.
  intros [T1 Q1 N1 _ O1] [T2 Q2 N2 F2 O2]. split; [congruence|congruence|lia|done|].
  intros a t Ht. destruct (O1 a t Ht) as (t' & Ht' & S1). destruct (O2 a t' Ht') as (t'' & Ht'' & S2).
  exists t''. split; [done|]. by etrans.
Qed.

Lemma calms_ret {A} (x : A) : calms (st_ret x).
Proof. intros w r w' Hf [= _ <-]. by apply calm_refl. Qed.

Lemma calms_bind {A B} (c : ST W A) (k : A -> ST W B) : calms c -> (forall x, calms (k x)) -> calms (st_bind c k).
Proof.
  intros Hc Hk w r w' Hf Hr. apply st_bind_inv in Hr as (x & w1 & H1 & H2).
  pose proof (Hc _ _ _ Hf H1) as Hc1. apply (calm_trans _ w1); [done|]. eapply Hk; [apply Hc1|done].
Qed.

Lemma calms_rest (f : W -> W) : (forall w, q_txns (w_h (f w)) = q_txns (w_h w)) ->
  (forall w, q_wq (w_h (f w)) = q_wq (w_h w)) -> (forall w, w_objs (f w) = w_objs w) -> (forall w, w_next (f w) = w_next w) -> calms (st_upd f).
Proof.
  intros Ht Hq Ho Hn w r w' Hf [= _ <-]. split; [done|done|rewrite Hn; lia| |].
  - intros a. rewrite Ho, Hn. apply Hf.
  - intros a t. rewrite Ho. by exists t.
Qed.

Lemma calms_get {A} (f : W -> A) : calms (st_get f).
Proof. intros w r w' Hf [= _ <-]. by apply calm_refl. Qed.

Lemma calms_lift {A} (r : res A) : calms (st_lift r : ST W A).
Proof. intros w x w' Hf Hr. unfold st_lift in Hr. destruct r; simplify_eq. by apply calm_refl. Qed.

Lemma calms_fault {A} : calms ((fun _ => Fault) : ST W A).
Proof. intros w x w' Hf Hr. done. Qed.

Lemma calms_on_sock {A} (c : ST Sk A) : calms (on_sock c : ST W A).
Proof.
  intros w x w' Hf Hr. unfold on_sock in Hr. destruct (c (w_sock w)) as [[]| |]; simplify_eq.
  split; [done|done|done|done|]. intros a t Ht. by exists t.
Qed.

Lemma calms_alloc : calms (w_alloc : ST W bool).
Proof.
  intros w x w' Hf Hr. unfold w_alloc in Hr. destruct (w_allocs w); simplify_eq; [by apply calm_refl|].
  split; [done|done|done|done|]. intros a t Ht. by exists t.
Qed.

Lemma calms_txn_of a : calms (txn_of a : ST W qmi_txn).
Proof. intros w x w' Hf Hr. unfold txn_of in Hr. destruct (w_objs w !! a); simplify_eq. by apply calm_refl. Qed.

(** Computations that follow the structure of the code. *)
Ltac calm_step :=
  match goal with
  | |- calms (st_bind _ _) => apply calms_bind; [|intros ?]
  | |- calms (st_ret _) => apply calms_ret
  | |- calms (st_get _) => apply calms_get
  | |- calms (get_h _) => apply calms_get
  | |- calms (upd_h _) => apply calms_rest; intros; reflexivity
  | |- calms (st_upd _) => apply calms_rest; intros; reflexivity
  | |- calms (st_lift _) => apply calms_lift
  | |- calms (on_sock _) => apply calms_on_sock
  | |- calms w_alloc => apply calms_alloc
  | |- calms (txn_of _) => apply calms_txn_of
  | |- calms (fun _ => Fault) => apply calms_fault
  | |- calms (match ?x with _ => _ end) => destruct x
  | |- _ => solve [auto with calm_db]
  end.
Ltac calm := repeat calm_step.

Create HintDb calm_db.

Lemma calms_sock_send to b none : calms (sock_send to b none : ST W Z).
Proof. unfold sock_send. calm. Qed.
#[local] Hint Resolve calms_sock_send : calm_db.

Lemma calms_new_lookup svc : calms (qmi_send_new_lookup svc : ST W unit).
Proof. unfold qmi_send_new_lookup. calm. Qed.
Lemma calms_new_server svc : calms (qmi_send_new_server svc : ST W unit).
Proof. unfold qmi_send_new_server. calm. Qed.
#[local] Hint Resolve calms_new_lookup calms_new_server : calm_db.

Lemma calms_add_lookup s v i : calms (qmi_add_lookup s v i : ST W Z).
Proof. unfold qmi_add_lookup. calm. Qed.
Lemma calms_add_server s v i : calms (qmi_add_server s v i : ST W Z).
Proof. unfold qmi_add_server. calm. Qed.

Lemma calms_send_message sq a type msg_id len ei src p : calms (qmi_send_message fuel sq a type msg_id len ei src p : ST W Z).
Proof. unfold qmi_send_message. calm. Qed.

(** ** Transactions begin and end *)
Lemma txn_of_ok a (w : W) t : w_objs w !! a = Some t -> txn_of a w = Ok (t, w).
Proof. intros Ht. unfold txn_of. by rewrite Ht. Qed.

Lemma set_txn_ok a t (w : W) : is_Some (w_objs w !! a) ->
  set_txn a t w = Ok (tt, with_objs (<[a := t]> (w_objs w)) (w_next w) w).
Proof. intros [t0 Ht]. unfold set_txn. by rewrite (st_bind_ok _ _ _ _ _ (txn_of_ok _ _ _ Ht)). Qed.

Lemma complete_ok a t (w : W) : w_objs w !! a = Some t ->
  complete a w = Ok (tt, with_objs (<[a := Txn (t_id t) (t_result t) (t_done t + 1) (t_ei t) (t_dest t)]> (w_objs w)) (w_next w) w).
Proof. intros Ht. unfold complete. rewrite (st_bind_ok _ _ _ _ _ (txn_of_ok _ _ _ Ht)). by apply set_txn_ok. Qed.

Lemma set_result_ok a r t (w : W) : w_objs w !! a = Some t ->
  set_result a r w = Ok (tt, with_objs (<[a := Txn (t_id t) r (t_done t) (t_ei t) (t_dest t)]> (w_objs w)) (w_next w) w).
Proof. intros Ht. unfold set_result. rewrite (st_bind_ok _ _ _ _ _ (txn_of_ok _ _ _ Ht)). by apply set_txn_ok. Qed.

Lemma alloc_answer (w : W) : exists b l, w_alloc w = Ok (b, with_allocs l w) /\ (w_allocs w = [] -> b = true /\ l = []).
Proof.
  unfold w_alloc. destruct (w_allocs w) as [|b l] eqn:E; [|by exists b, l].
  exists true, []. split; [|done]. rewrite <-E. by destruct w.
Qed.

(** The number a new transaction gets: one that is not in use, or an error. *)
Definition fresh_id (w : W) (r : Z) : Prop := 0 <= r < U16_MAX /\ q_txns (w_h w) !! r = None.

Definition began (a r : Z) (ei : option (list qmi_elem_info)) (dest : option Z) (l : list bool) (w : W) : W :=
  with_objs (<[a := Txn (txn_id r) 0 0 ei dest]> (w_objs w)) (w_next w)
    (with_h (if 0 <=? r then set_txns (<[r := a]> (q_txns (w_h w))) (r + 1) else id) (with_allocs l w)).

Lemma txn_init_ok a ei dest (w : W) : is_Some (w_objs w !! a) -> exists r l,
  qmi_txn_init a ei dest w = Ok (r, began a r ei dest l w) /\ (fresh_id w r \/ r < 0) /\
  (w_allocs w = [] -> l = [] /\ (r < 0 -> forall i, 0 <= i < U16_MAX -> is_Some (q_txns (w_h w) !! i))).
Proof.
  intros Ha. unfold qmi_txn_init. rewrite (st_bind_ok _ _ _ _ _ (set_txn_ok a _ w Ha)).
  set (w1 := with_objs _ _ w). destruct (alloc_answer w1) as (b & l & Hal & Hb). rewrite (st_bind_ok _ _ _ _ _ Hal).
  assert (Hin : forall f, is_Some (w_objs (with_h f (with_allocs l w1)) !! a)) by (intros f; cbn; by rewrite lookup_insert_eq).
  destruct b; cbn [negb].
  2:{ rewrite st_bind_ret, (st_bind_ok _ _ _ _ _ (set_txn_ok a _ _ (Hin id))). exists (- ENOMEM), l. split; [|split; [right; by compute|]].
      - unfold st_ret, began. do 2 f_equal. unfold with_objs, w1. cbn. by rewrite insert_insert_eq.
      - intros Hl. by destruct Hb. }
  rewrite !st_bind_bind. unfold get_h. rewrite st_bind_get, st_bind_bind, st_bind_get, st_bind_bind. cbn [w_h with_allocs w1 with_objs].
  set (r := idr_alloc_cyclic _ _ _ _).
  assert (Hr : fresh_id w r \/ (r = - ENOSPC /\ forall i, 0 <= i < U16_MAX -> is_Some (q_txns (w_h w) !! i))).
  { apply idr_cyclic_spec. by compute. }
  exists r, l. split; [|split].
  - unfold began. destruct (0 <=? r) eqn:Er; unfold upd_h; st_run.
    + rewrite (st_bind_ok _ _ _ _ _ (set_txn_ok a _ _ (Hin _))). unfold st_ret. do 2 f_equal. unfold with_objs, w1. cbn. by rewrite insert_insert_eq.
    + rewrite (st_bind_ok _ _ _ _ _ (set_txn_ok a _ _ (Hin id))). unfold st_ret. do 2 f_equal. unfold with_objs, w1. cbn. by rewrite insert_insert_eq.
  - destruct Hr as [|[-> _]]; [by left|right; by compute].
  - intros Hl. split; [by apply Hb|]. intros Hneg. destruct Hr as [[]|[]]; [lia|done].
Qed.

Lemma new_txn_ok t (w : W) : new_txn t w = Ok (w_next w, with_objs (<[w_next w := t]> (w_objs w)) (w_next w + 1) w).
Proof. reflexivity. Qed.

Lemma free_fresh (w : W) a : objs_fresh w -> objs_fresh (with_objs (delete a (w_objs w)) (w_next w) w).
Proof. intros Hf b. cbn. destruct (decide (a = b)) as [->|]; [rewrite lookup_delete_eq; by intros []|]. rewrite lookup_delete_ne by done. apply Hf. Qed.

Lemma upd_fresh (w : W) a t : objs_fresh w -> a < w_next w -> objs_fresh (with_objs (<[a := t]> (w_objs w)) (w_next w) w).
Proof. intros Hf Ha b. cbn. destruct (decide (a = b)) as [->|]; [done|]. rewrite lookup_insert_ne by done. apply Hf. Qed.

Lemma fresh_none (w : W) : objs_fresh w -> w_objs w !! w_next w = None.
Proof. intros Hf. apply eq_None_not_Some. intros Hs%Hf. lia. Qed.

(** A temporary object around a computation that keeps the others. *)
Lemma calms_temp {A} t (c : Z -> ST W A) : (forall a, calms (c a)) ->
  calms (let! a := new_txn t in let! r := c a in free_txn a ;;; st_ret r).
Proof.
  intros Hc w r w' Hf Hr. rewrite (st_bind_ok _ _ _ _ _ (new_txn_ok t w)) in Hr. set (w1 := with_objs _ _ w) in Hr.
  apply st_bind_inv in Hr as (x & w2 & Hr & [= _ <-]).
  assert (Hf1 : objs_fresh w1).
  { intros b. cbn. destruct (decide (w_next w = b)) as [->|]; [lia|]. rewrite lookup_insert_ne by done. intros Hb%Hf. lia. }
  destruct (Hc _ _ _ _ Hf1 Hr) as [Ht Hq Hn Hfr Ho]. split; [done|done|cbn in *; lia|by apply free_fresh|].
  intros b tb Hb. assert (b < w_next w) by (apply Hf; eauto).
  destruct (Ho b tb) as (t' & Ht' & Hs); [cbn; by rewrite lookup_insert_ne by lia|].
  exists t'. split; [|done]. cbn. by rewrite lookup_delete_ne by lia.
Qed.

Lemma began_fresh (w : W) a r ei dest l : objs_fresh w -> a < w_next w -> objs_fresh (began a r ei dest l w).
Proof. intros Hf Ha. exact (upd_fresh w a _ Hf Ha). Qed.

Lemma calms_indication sq msg_id len ei src p : calms (qmi_send_indication fuel sq msg_id len ei src p : ST W Z).
Proof.
  intros w r w' Hf Hr. unfold qmi_send_indication in Hr. rewrite (st_bind_ok _ _ _ _ _ (new_txn_ok _ w)) in Hr.
  set (a := w_next w) in *. set (w1 := with_objs _ _ w) in Hr.
  destruct (txn_init_ok a None None w1) as (id & l & Hi & Hid & _); [cbn; by rewrite lookup_insert_eq|].
  rewrite (st_bind_ok _ _ _ _ _ Hi) in Hr. set (w2 := began _ _ _ _ _ _) in Hr.
  assert (Hf2 : objs_fresh w2).
  { apply began_fresh; [|cbn; lia]. intros b. cbn. destruct (decide (a = b)) as [<-|]; [unfold a; lia|].
    rewrite lookup_insert_ne by done. intros Hb%Hf. lia. }
  assert (Hold : forall b tb, w_objs w !! b = Some tb -> b <> a /\ w_objs w2 !! b = Some tb).
  { intros b tb Hb. assert (b < a) by (apply Hf; eauto). split; [lia|]. cbn. by rewrite !lookup_insert_ne by lia. }
  assert (Hend : forall w3, objs_fresh w3 -> q_txns (w_h w3) = q_txns (w_h w) -> q_wq (w_h w3) = q_wq (w_h w) -> w_next w2 <= w_next w3 ->
    (forall b tb, w_objs w2 !! b = Some tb -> b <> a -> exists t', w_objs w3 !! b = Some t' /\ same_txn tb t') ->
    calm w (with_objs (delete a (w_objs w3)) (w_next w3) w3)).
  { intros w3 Hf3 Ht3 Hq3 Hn3 Ho3. split; [done|done|cbn in *; lia|by apply free_fresh|]. intros b tb Hb.
    destruct (Hold _ _ Hb) as [Hne Hb2]. destruct (Ho3 _ _ Hb2 Hne) as (t' & ? & ?). exists t'. cbn. by rewrite lookup_delete_ne by done. }
  destruct (id <? 0) eqn:Eid.
  { rewrite st_bind_ret in Hr. injection Hr as _ <-. apply Hend; [done| | |done|].
    - unfold w2, began. cbn. by bool_false (0 <=? id).
    - unfold w2, began. cbn. by bool_false (0 <=? id).
    - intros b tb Hb _. by exists tb. }
  destruct Hid as [[Hid Hnew]|?]; [|lia].
  apply st_bind_inv in Hr as (x & w5 & Hr & [= _ <-]). apply st_bind_inv in Hr as (rv & w3 & Hs & Hr).
  apply st_bind_inv in Hr as ([] & w4 & Hc & [= _ <-]). pose proof (calms_send_message _ _ _ _ _ _ _ _ _ _ _ Hf2 Hs) as [T3 Q3 N3 F3 O3].
  assert (Ha2 : w_objs w2 !! a = Some (Txn (txn_id id) 0 0 None None)) by (cbn; by rewrite lookup_insert_eq).
  destruct (O3 _ _ Ha2) as (t' & Ht' & [Hi' _ _ _ _]). cbn in Hi'. rewrite txn_id_16 in Hi' by (unfold U16_MAX in *; lia).
  unfold qmi_txn_cancel in Hc. rewrite (st_bind_ok _ _ _ _ _ (txn_of_ok _ _ _ Ht')) in Hc. injection Hc as <-.
  apply (Hend (with_h _ w3)); [done| | |done|]; cbn.
  - rewrite T3, Hi'. unfold w2, began. cbn. bool_true (0 <=? id). cbn. apply delete_insert_id, Hnew.
  - rewrite Q3. unfold w2, began. cbn. by case_if.
  - intros b tb Hb _. by apply O3.
Qed.

(** ** The owner of the handle *)
Context (ops : qmi_ops W) (handlers : option (list (qmi_msg_handler W))).

(** The callbacks and handlers have the calls of the interface, none of which touches the
    transactions of others; a handler may set the result of its own transaction. *)
Record owner_calm : Prop := {
  oc_new_server : forall f svc, op_new_server ops = Some f -> calms (f svc);
  oc_del_server : forall f svc, op_del_server ops = Some f -> calms (f svc);
  oc_net_reset : forall f, op_net_reset ops = Some f -> calms f;
  oc_msg_handler : forall f sq buf len, op_msg_handler ops = Some f -> calms (f sq buf len);
  oc_bye : forall f n, op_bye ops = Some f -> calms (f n);
  oc_del_client : forall f n p, op_del_client ops = Some f -> calms (f n p);
  oc_handler : forall l h f sq a d, handlers = Some l -> h ∈ l -> h_fn h = Some f -> calms (f sq a d);
}.
Hypothesis Howner : owner_calm.

Lemma calms_call {A B} (f : option A) (k : A -> ST W B) b :
  (forall x, f = Some x -> calms (k x)) -> calms (call f k b).
Proof. intros Hk. destruct f as [x|]; cbn; [by apply Hk|apply calms_ret]. Qed.

Lemma calms_recv_new_server s i n p : calms (qmi_recv_new_server ops s i n p).
Proof. unfold qmi_recv_new_server. destruct (op_new_server ops) eqn:E; calm. by eapply oc_new_server. Qed.

Lemma calms_del_loop node port l : forall kept, calms (del_server_loop ops node port kept l).
Proof.
  induction l as [|svc l IH]; intros kept; cbn [del_server_loop]; [apply calms_ret|].
  case_if; [apply IH|]. case_if; [apply IH|].
  apply calms_bind; [apply calms_call; intros; by eapply oc_del_server|intros _].
  apply calms_bind; [calm|intros _; apply IH].
Qed.

Lemma calms_recv_del_server node port : calms (qmi_recv_del_server ops node port).
Proof. unfold qmi_recv_del_server. calm. apply calms_del_loop. Qed.
#[local] Hint Resolve calms_recv_new_server calms_recv_del_server : calm_db.

Lemma calms_recv_ctrl buf len : calms (qmi_recv_ctrl_pkt ops buf len).
Proof.
  unfold qmi_recv_ctrl_pkt, qmi_recv_bye, qmi_recv_del_client. calm.
  - apply calms_call. intros. by eapply oc_bye.
  - apply calms_call. intros. by eapply oc_del_client.
Qed.

Lemma find_handler_in l type msg_id h : find_handler l type msg_id = Ok h -> h ∈ (l : list (qmi_msg_handler W)).
Proof.
  induction l as [|h' l IH]; cbn; [done|]. destruct (h_fn h'); [case_if|]; intros Hh; try (injection Hh as ->; left).
  right. by apply IH.
Qed.

Lemma calms_invoke sq a buf len : calms (qmi_invoke_handler fuel handlers sq a buf len).
Proof.
  unfold qmi_invoke_handler. destruct handlers as [l|] eqn:El; [|apply calms_ret].
  destruct (find_handler l (hdr_type buf) (hdr_msg buf)) as [h| |] eqn:Eh; [|done..].
  intros w r w' Hf Hr. change (st_bind (st_lift (Ok h)) ?k w) with (k h w) in Hr. revert w r w' Hf Hr.
  apply find_handler_in in Eh. change (calms (match h_fn h with None => st_ret tt | Some fn => 
      let! ok := w_alloc in
      if negb ok then st_ret tt else
      let! r := st_lift (qmi_decode_message fuel buf (Some (m_base buf)) len (h_ei h) (Some 0)
                           (Mem 0 (h_size h) ∅)) in
      let '(ret, dest) := r in
      if ret <? 0 then st_ret tt else fn sq a dest end)).
  destruct (h_fn h) eqn:Ef; calm. by eapply oc_handler.
Qed.

Lemma calms_sock_create : calms (qmi_sock_create HZ : ST W _).
Proof. unfold qmi_sock_create. calm. Qed.
Lemma calms_release_sock i : calms (sock_release i : ST W unit).
Proof. unfold sock_release. calm. Qed.
Lemma calms_sock_sk : calms (sock_sk : ST W Z).
Proof. unfold sock_sk. calm. Qed.
Lemma calms_send_services f l : (forall svc, calms (f svc)) -> calms (send_services f l : ST W unit).
Proof. intros Hf. induction l; cbn; calm. Qed.
#[local] Hint Resolve calms_sock_create calms_release_sock calms_sock_sk : calm_db.

Lemma calms_net_reset : calms (qmi_handle_net_reset HZ ops).
Proof.
  unfold qmi_handle_net_reset. calm; try (apply calms_send_services; intros; calm).
  apply calms_call. intros. by eapply oc_net_reset.
Qed.

Lemma calms_set_sndtimeo t : calms (qmi_set_sndtimeo t : ST W unit).
Proof. unfold qmi_set_sndtimeo. calm. Qed.

(** ** Steps

    The ledger holds the transactions of the callers: [None] before a wait has ended, [Some ret]
    when it has ended with [ret] and the call has not returned. *)
Local Notation ledger := (gmap Z (option Z)).

(** The decoder does not answer with the error that marks a released handle. *)
Definition no_reset (w : W) (buf : mem) (len : Z) : Prop :=
  forall a t p ei r m, q_txns (w_h w) !! hdr_txn buf = Some a -> w_objs w !! a = Some t ->
    t_dest t = Some p -> t_ei t = Some ei ->
    qmi_decode_message fuel buf (Some (m_base buf)) len (Some ei) (Some p) (w_mem w) = Ok (r, m) -> r <> - ENETRESET.

Inductive qstep : W * ledger -> W * ledger -> Prop :=
| step_begin w led ei dest a w1 r w2 : q_wq (w_h w) = true ->
    new_txn (Txn 0 0 0 None None) w = Ok (a, w1) -> qmi_txn_init a ei dest w1 = Ok (r, w2) -> 0 <= r ->
    qstep (w, led) (w2, <[a := None]> led)
| step_begin_failed w led ei dest a w1 r w2 w3 :
    new_txn (Txn 0 0 0 None None) w = Ok (a, w1) -> qmi_txn_init a ei dest w1 = Ok (r, w2) -> r < 0 ->
    free_txn a w2 = Ok (tt, w3) -> qstep (w, led) (w3, led)
| step_send w led a sq type msg_id len ei src p r w' : is_Some (led !! a) ->
    qmi_send_message fuel sq a type msg_id len ei src p w = Ok (r, w') -> qstep (w, led) (w', led)
| step_indication w led sq msg_id len ei src p r w' :
    qmi_send_indication fuel sq msg_id len ei src p w = Ok (r, w') -> qstep (w, led) (w', led)
| step_message w led sq buf len w' : no_reset w buf len ->
    qmi_handle_message fuel handlers sq buf len w = Ok (tt, w') -> qstep (w, led) (w', led)
| step_owner_message w led f sq buf len w' : op_msg_handler ops = Some f ->
    f sq buf len w = Ok (tt, w') -> qstep (w, led) (w', led)
| step_control w led buf len w' :
    qmi_recv_ctrl_pkt ops buf len w = Ok (tt, w') -> qstep (w, led) (w', led)
| step_net_reset w led w' :
    qmi_handle_net_reset HZ ops w = Ok (tt, w') -> qstep (w, led) (w', led)
| step_add_lookup w led service version instance r w' :
    qmi_add_lookup service version instance w = Ok (r, w') -> qstep (w, led) (w', led)
| step_add_server w led service version instance r w' :
    qmi_add_server service version instance w = Ok (r, w') -> qstep (w, led) (w', led)
| step_sndtimeo w led timeo w' :
    qmi_set_sndtimeo timeo w = Ok (tt, w') -> qstep (w, led) (w', led)
| step_wait w led a ret w' : led !! a = Some None ->
    wait_for_completion_timeout a w = Ok (ret, w') -> qstep (w, led) (w', <[a := Some ret]> led)
| step_return w led a ret r w1 w2 : led !! a = Some (Some ret) ->
    txn_wait_rest a ret w = Ok (r, w1) -> free_txn a w1 = Ok (tt, w2) -> qstep (w, led) (w2, delete a led)
| step_cancel w led a w1 w2 : led !! a = Some None ->
    qmi_txn_cancel a w = Ok (tt, w1) -> free_txn a w1 = Ok (tt, w2) -> qstep (w, led) (w2, delete a led)
| step_release w led w' :
    qmi_handle_release ops w = Ok (tt, w') -> qstep (w, led) (w', led).

(** ** The invariant *)
Record txn_inv (w : W) (led : ledger) : Prop := {
  ti_fresh : objs_fresh w;
  ti_table : forall id a, q_txns (w_h w) !! id = Some a -> 0 <= id < U16_MAX /\ is_Some (led !! a) /\
    exists t, w_objs w !! a = Some t /\ t_id t = id /\ t_result t <> - ENETRESET;
  ti_held : forall a, is_Some (led !! a) -> exists t, w_objs w !! a = Some t /\
    0 <= t_done t /\ (t_result t <> - ENETRESET -> q_txns (w_h w) !! t_id t = Some a);
  ti_dead : forall a t, is_Some (led !! a) -> w_objs w !! a = Some t -> t_result t = - ENETRESET ->
    q_wq (w_h w) = false;
  ti_over : q_wq (w_h w) = false -> q_txns (w_h w) = ∅;
}.

Lemma calm_inv w w' led : txn_inv w led -> calm w w' -> txn_inv w' led.
Proof.
  intros [If It Ih Id Io] [Ct Cq Cn Cf Co]. split; [done|..].
  - intros id a. rewrite Ct. intros Hid. destruct (It _ _ Hid) as (? & ? & t & Ht & ? & ?). split; [done|]. split; [done|].
    destruct (Co _ _ Ht) as (t' & ? & [Hi _ _ Hr Hdn]). exists t'. split; [done|]. split; [congruence|]. tauto.
  - intros a Ha. destruct (Ih _ Ha) as (t & Ht & H0 & Hin). destruct (Co _ _ Ht) as (t' & ? & [Hi _ _ Hr Hdn]).
    exists t'. split; [done|]. split; [lia|]. rewrite Ct, Hi. tauto.
  - intros a t' Ha Ht' Hd. destruct (Ih _ Ha) as (t & Ht & _). destruct (Co _ _ Ht) as (t'' & ? & [_ _ _ Hr _]).
    simplify_eq. rewrite Cq. apply (Id a t); [done|done|]. tauto.
  - rewrite Ct, Cq. done.
Qed.

Lemma begin_inv w led a w1 r w2 ei dest : txn_inv w led -> q_wq (w_h w) = true ->
  new_txn (Txn 0 0 0 None None) w = Ok (a, w1) -> qmi_txn_init a ei dest w1 = Ok (r, w2) -> 0 <= r ->
  txn_inv w2 (<[a := None]> led).
Proof.
  intros [If It Ih Id Io] Hq [= <- <-] Hi Hr. set (a := w_next w) in *. set (w1 := with_objs _ _ w) in *.
  destruct (txn_init_ok a ei dest w1) as (r' & l & Hi' & Hf & _); [cbn; by rewrite lookup_insert_eq|].
  rewrite Hi in Hi'. injection Hi' as <- ->. destruct Hf as [[Hid Hnew]|]; [|lia]. cbn in Hnew.
  assert (Ha : forall b, is_Some (led !! b) -> b <> a).
  { intros b Hb. destruct (Ih _ Hb) as (t & Ht & _). assert (b < a) by (apply If; eauto). lia. }
  assert (Hh : w_h (began a r ei dest l w1) = set_txns (<[r := a]> (q_txns (w_h w))) (r + 1) (w_h w)).
  { unfold began. cbn. by bool_true (0 <=? r). }
  assert (Ho : forall b, w_objs (began a r ei dest l w1) !! b = if decide (a = b) then Some (Txn r 0 0 ei dest) else w_objs w !! b).
  { intros b. cbn. rewrite txn_id_16 by (unfold U16_MAX in Hid; lia). case_decide; subst; by rewrite ?lookup_insert_eq, ?lookup_insert_ne. }
  split.
  - apply began_fresh; [|cbn; lia]. intros b. cbn. destruct (decide (a = b)) as [<-|]; [unfold a; lia|].
    rewrite lookup_insert_ne by done. intros Hb%If. lia.
  - intros id b. rewrite Hh. cbn [q_txns set_txns]. intros [[<- <-]|[Hne Hb]]%lookup_insert_Some.
    + split; [done|]. rewrite lookup_insert_eq, Ho, decide_True by done. split; [done|]. eexists. split; [done|]. by cbn.
    + destruct (It _ _ Hb) as (? & Hl & Ht). rewrite Ho. rewrite decide_False, lookup_insert_ne by (apply not_eq_sym; by apply Ha). done.
  - intros b Hb. rewrite Ho, Hh. case_decide as Hab; [subst; eexists; split; [done|]; cbn [q_txns set_txns t_id t_done]; by rewrite lookup_insert_eq|].
    rewrite lookup_insert_ne in Hb by done. destruct (Ih _ Hb) as (t & Ht & H0 & Hin). exists t. split; [done|]. split; [done|]. intros Hn.
    cbn [q_txns set_txns]. rewrite lookup_insert_ne; [by apply Hin|]. intros ->. rewrite Hin in Hnew by done. done.
  - intros b t Hb. rewrite Ho, Hh. case_decide as Hab; [by intros [= <-]|]. cbn [q_wq set_txns].
    rewrite lookup_insert_ne in Hb by done. by apply Id.
  - rewrite Hh. cbn [q_wq set_txns]. congruence.
Qed.

(** A change of one transaction that keeps its number and does not mark it. *)
Lemma update_inv w led a t t' : txn_inv w led -> w_objs w !! a = Some t -> t_id t' = t_id t ->
  (t_result t' = - ENETRESET <-> t_result t = - ENETRESET) -> (0 <= t_done t -> 0 <= t_done t') ->
  txn_inv (with_objs (<[a := t']> (w_objs w)) (w_next w) w) led.
Proof.
  intros Hi Ht Hid Hr Hdn. assert (Ha : a < w_next w) by (apply Hi; eauto).
  pose proof Hi as [If It Ih Id Io]. split; [by apply upd_fresh| | | |done]; cbn.
  - intros id b Hb. destruct (It _ _ Hb) as (? & ? & tb & Htb & ? & ?). split; [done|]. split; [done|].
    destruct (decide (a = b)) as [<-|]; [rewrite lookup_insert_eq|rewrite lookup_insert_ne by done; eauto].
    exists t'. simplify_eq. split; [done|]. split; [done|]. tauto.
  - intros b Hb. destruct (Ih _ Hb) as (tb & Htb & H0 & Hin).
    destruct (decide (a = b)) as [<-|]; [rewrite lookup_insert_eq|rewrite lookup_insert_ne by done; eauto].
    exists t'. simplify_eq. split; [done|]. split; [by apply Hdn|]. rewrite Hid. tauto.
  - intros b tb Hb. destruct (decide (a = b)) as [<-|]; [rewrite lookup_insert_eq|rewrite lookup_insert_ne by done; by apply Id].
    intros [= <-] Hd. apply (Id a t); [done|done|]. tauto.
Qed.

(** A transaction that is out of the table is given back. *)
Lemma free_inv w led a : txn_inv w led -> (forall id, q_txns (w_h w) !! id <> Some a) ->
  txn_inv (with_objs (delete a (w_objs w)) (w_next w) w) (delete a led).
Proof.
  intros [If It Ih Id Io] Hout. split; [by apply free_fresh| | | |done]; cbn.
  - intros id b Hb. assert (a <> b) by (intros <-; by apply (Hout id)). rewrite !lookup_delete_ne by done. by apply It.
  - intros b Hb. destruct (decide (a = b)) as [<-|]; [rewrite lookup_delete_eq in Hb; by destruct Hb|].
    rewrite lookup_delete_ne in Hb by done. rewrite lookup_delete_ne by done. by apply Ih.
  - intros b t Hb. destruct (decide (a = b)) as [<-|]; [rewrite lookup_delete_eq in Hb; by destruct Hb|].
    rewrite lookup_delete_ne in Hb by done. rewrite lookup_delete_ne by done. by apply Id.
Qed.

(** The number of a held transaction leaves the table; the transaction is then given back. *)
Definition without (t : qmi_txn) (w : W) : W :=
  with_h (fun h => set_txns (delete (t_id t) (q_txns h)) (q_txn_next h) h) w.

Lemma remove_out w led a t id : txn_inv w led -> is_Some (led !! a) -> w_objs w !! a = Some t ->
  q_txns (w_h (without t w)) !! id <> Some a.
Proof.
  intros [If It Ih Id Io] Ha Ht. cbn. intros [Hne Hid]%lookup_delete_Some.
  destruct (It _ _ Hid) as (_ & _ & t' & Ht' & <- & _). congruence.
Qed.

Lemma remove_inv w led a t : txn_inv w led -> is_Some (led !! a) -> w_objs w !! a = Some t ->
  txn_inv (with_objs (delete a (w_objs w)) (w_next w) (without t w)) (delete a led).
Proof.
  intros Hi Ha Ht. pose proof Hi as [If It Ih Id Io]. split.
  - exact (free_fresh w a If).
  - intros id b Hb. cbn in Hb |- *. apply lookup_delete_Some in Hb as [Hne Hb]. destruct (It _ _ Hb) as (? & ? & tb & Htb & <- & ?).
    assert (a <> b) by congruence. rewrite !lookup_delete_ne by done. eauto 6.
  - intros b Hb. cbn. destruct (decide (a = b)) as [<-|Hab]; [rewrite lookup_delete_eq in Hb; by destruct Hb|].
    rewrite lookup_delete_ne in Hb by done. rewrite lookup_delete_ne by done. destruct (Ih _ Hb) as (tb & Htb & H0 & Hin). exists tb. split; [done|]. split; [done|]. intros Hn.
    rewrite lookup_delete_ne; [by apply Hin|]. intros Heq. specialize (Hin Hn).
    destruct (decide (t_result t = - ENETRESET)) as [Hd|Hd].
    + rewrite (Io (Id _ _ Ha Ht Hd)) in Hin. done.
    + destruct (Ih _ Ha) as (t2 & Ht2 & _ & Hin2). simplify_eq. specialize (Hin2 Hd). rewrite Heq in Hin2. congruence.
  - intros b tb Hb. cbn. destruct (decide (a = b)) as [<-|]; [rewrite lookup_delete_eq in Hb; by destruct Hb|].
    rewrite lookup_delete_ne in Hb by done. rewrite lookup_delete_ne by done. by apply Id.
  - cbn. intros Hq. by rewrite (Io Hq), delete_empty.
Qed.

Lemma handle_message_inv w led sq buf len w' : txn_inv w led -> no_reset w buf len ->
  qmi_handle_message fuel handlers sq buf len w = Ok (tt, w') -> txn_inv w' led.
Proof.
  intros Hi Hn Hr. unfold qmi_handle_message in Hr. do 2 (case_if_in Hr; [by injection Hr as <-|]). case_if_in Hr; [done|]. case_if_in Hr.
  - unfold get_h in Hr. rewrite st_bind_get in Hr. destruct (q_txns (w_h w) !! hdr_txn buf) as [a|] eqn:Ea; [|by injection Hr as <-].
    destruct (ti_table _ _ Hi _ _ Ea) as (_ & _ & t & Ht & Hid & Hres). rewrite (st_bind_ok _ _ _ _ _ (txn_of_ok _ _ _ Ht)) in Hr.
    assert (Hinv : qmi_invoke_handler fuel handlers sq a buf len w = Ok (tt, w') -> txn_inv w' led).
    { intros Hc. eapply calm_inv; [done|]. by eapply calms_invoke; [apply Hi|]. }
    destruct (t_dest t) as [p|] eqn:Ed; [|by apply Hinv]. destruct (t_ei t) as [ei|] eqn:Ee; [|by apply Hinv].
    rewrite st_bind_get in Hr. apply st_bind_inv in Hr as ([ret m] & w1 & Hl & Hr). unfold st_lift in Hl.
    destruct (qmi_decode_message _ _ _ _ _ _ _) as [[ret' m']| |] eqn:Edec; simplify_eq.
    specialize (Hn _ _ _ _ _ _ Ea Ht Ed Ee Edec).
    assert (Hi1 : txn_inv (with_w_mem m w1) led) by (eapply calm_inv; [done|]; split; [done|done|done|apply Hi|]; intros b tb Hb; by exists tb).
    rewrite st_bind_upd in Hr. assert (Ht1 : w_objs (with_w_mem m w1) !! a = Some t) by done.
    rewrite (st_bind_ok _ _ _ _ _ (set_result_ok a ret t _ Ht1)) in Hr.
    set (t1 := Txn _ ret _ _ _) in Hr. set (w2 := with_objs _ _ _) in Hr.
    assert (Ht2 : w_objs w2 !! a = Some t1) by (cbn; by rewrite lookup_insert_eq).
    rewrite (complete_ok a t1 w2 Ht2) in Hr. injection Hr as <-.
    assert (Hi2 : txn_inv w2 led) by (apply (update_inv _ led a t t1 Hi1 Ht1); [done|split; [intros Hx; cbn in Hx; done|done]|done]).
    apply (update_inv w2 led a t1); [done..|]. cbn. lia.
  - eapply calm_inv; [done|]. apply (calms_temp (Txn (hdr_txn buf) 0 0 None None) (fun a => qmi_invoke_handler fuel handlers sq a buf len)) with (r := tt).
    + intros a. apply calms_invoke.
    + apply Hi.
    + rewrite (st_bind_ok _ _ _ _ _ (new_txn_ok _ w)) in Hr. rewrite (st_bind_ok _ _ _ _ _ (new_txn_ok _ w)). apply st_bind_inv in Hr as ([] & w1 & H1 & H2).
      rewrite (st_bind_ok _ _ _ _ _ H1). by rewrite (st_bind_ok _ _ _ _ _ H2).
Qed.

(** ** Release *)
Definition woken (t : qmi_txn) : qmi_txn := Txn (t_id t) (- ENETRESET) (t_done t + 1) (t_ei t) (t_dest t).

Lemma release_txns_ok l : forall w : W, NoDup l -> (forall a, a ∈ l -> is_Some (w_objs w !! a)) ->
  exists w', release_txns l w = Ok (tt, w') /\ w_next w' = w_next w /\ q_wq (w_h w') = q_wq (w_h w) /\
    forall a, w_objs w' !! a = if decide (a ∈ l) then woken <$> w_objs w !! a else w_objs w !! a.
Proof.
  induction l as [|a l IH]; intros w Hd Hl; cbn [release_txns].
  { exists w. split; [done|]. split; [done|]. split; [done|]. intros a. by rewrite decide_False by set_solver. }
  apply NoDup_cons in Hd as [Hnin Hd]. destruct (Hl a) as [t Ht]; [left|]. unfold release_mark. rewrite st_bind_bind.
  rewrite (st_bind_ok _ _ _ _ _ (txn_of_ok _ _ _ Ht)). unfold idr_remove, upd_h. rewrite st_bind_bind, st_bind_upd.
  set (w1 := with_h _ w). assert (Ht1 : w_objs w1 !! a = Some t) by done.
  rewrite (st_bind_ok _ _ _ _ _ (set_result_ok a _ t w1 Ht1)). set (t2 := Txn _ (- ENETRESET) _ _ _). set (w2 := with_objs _ _ w1).
  assert (Ht2 : w_objs w2 !! a = Some t2) by (cbn; by rewrite lookup_insert_eq).
  rewrite (st_bind_ok _ _ _ _ _ (complete_ok a t2 w2 Ht2)). set (w3 := with_objs _ _ w2).
  assert (Ho : forall b, w_objs w3 !! b = if decide (a = b) then Some (woken t) else w_objs w !! b).
  { intros b. cbn. case_decide; subst; rewrite ?lookup_insert_eq, ?lookup_insert_ne by done; done. }
  destruct (IH w3 Hd) as (w' & -> & Hn & Hq & Hb).
  { intros b Hb. rewrite Ho. case_decide; [done|]. apply Hl. by right. }
  exists w'. split; [done|]. split; [done|]. split; [done|]. intros b. rewrite Hb, Ho.
  destruct (decide (a = b)) as [<-|Hne].
  - rewrite (decide_False (P := a ∈ l)), (decide_True (P := a ∈ a :: l)) by (done || left). by rewrite Ht.
  - destruct (decide (b ∈ l)); [rewrite decide_True by (by right)|rewrite decide_False by set_solver]; done.
Qed.

Lemma elem_of_entries m a : a ∈ idr_entries m <-> exists id, m !! id = Some a.
Proof.
  unfold idr_entries. rewrite list_elem_of_omap. split; [intros (id & _ & ?); eauto|]. intros [id Hid].
  exists id. split; [|done]. apply elem_of_xa_indices. eauto.
Qed.

Lemma entries_nodup w led : txn_inv w led -> NoDup (idr_entries (q_txns (w_h w))).
Proof.
  intros Hi. unfold idr_entries. generalize (NoDup_xa_indices (q_txns (w_h w))). generalize (xa_indices (q_txns (w_h w))).
  intros l. induction l as [|id l IH]; intros Hd; cbn; [constructor|]. apply NoDup_cons in Hd as [Hn Hd].
  destruct (q_txns (w_h w) !! id) as [a|] eqn:Ea; [|by apply IH]. constructor; [|by apply IH].
  intros (id' & Hin & Ha')%list_elem_of_omap. destruct (ti_table _ _ Hi _ _ Ea) as (_ & _ & t & Ht & Hid & _).
  destruct (ti_table _ _ Hi _ _ Ha') as (_ & _ & t' & Ht' & Hid' & _). simplify_eq. done.
Qed.

(** What a release has done, once it returned. *)
Lemma release_result w led w' : txn_inv w led -> qmi_handle_release ops w = Ok (tt, w') ->
  q_txns (w_h w') = ∅ /\ q_wq (w_h w') = false /\ objs_fresh w' /\
  forall a, is_Some (led !! a) -> exists t, w_objs w' !! a = Some t /\ t_result t = - ENETRESET /\ 0 <= t_done t /\
    (q_wq (w_h w) = true -> 0 < t_done t).
Proof.
  intros Hi Hr. unfold qmi_handle_release in Hr. apply st_bind_inv in Hr as (i & w1 & H1 & Hr).
  pose proof (calms_sock_sk _ _ _ (ti_fresh _ _ Hi) H1) as C1. unfold upd_h in Hr. rewrite st_bind_upd in Hr.
  apply st_bind_inv in Hr as ([] & w2 & H2 & Hr). rewrite !st_bind_upd in Hr.
  apply st_bind_inv in Hr as ([] & w3 & H3 & Hr). rewrite st_bind_upd in Hr. unfold get_h in Hr. rewrite st_bind_get in Hr.
  apply st_bind_inv in Hr as ([] & w4 & H4 & Hr). rewrite !st_bind_upd in Hr. injection Hr as <-.
  assert (C3 : calm w w3).
  { eapply (calm_trans _ w1); [done|].
    eapply (calms_bind (upd_h (fun h => set_user (q_user h ∖ {[i]}) h)) (fun _ => on_sock (ks_release i) ;;;
      upd_h (fun h => set_sock SNull (q_sq h) h) ;;; upd_h (fun h => set_wq (q_wq h) false h) ;;;
      qmi_recv_del_server ops UINT_MAX UINT_MAX)); [calm|intros _; calm|apply C1|].
    unfold upd_h. rewrite st_bind_upd, (st_bind_ok _ _ _ _ _ H2), !st_bind_upd. exact H3. }
  pose proof (calm_inv _ _ _ Hi C3) as Hi3. cbn in H4.
  destruct (release_txns_ok (idr_entries (q_txns (w_h w3))) (with_h (set_wq false false) w3)) as (w4' & H4' & Hn & Hq & Ho).
  { eapply entries_nodup, Hi3. }
  { intros a [id Hid]%elem_of_entries. destruct (ti_table _ _ Hi3 _ _ Hid) as (_ & _ & t & Ht & _). cbn. by rewrite Ht. }
  rewrite H4 in H4'. injection H4' as <-. cbn in *. split; [done|]. split; [done|]. split.
  - intros a. cbn. rewrite Ho, Hn. intros Ha. apply (ti_fresh _ _ Hi3). destruct (decide _); [|done]. by apply fmap_is_Some in Ha.
  - intros a Ha. destruct (ti_held _ _ Hi3 _ Ha) as (t & Ht & H0 & Hin). rewrite Ho, Ht. rewrite <-(calm_wq _ _ C3).
    destruct (decide (a ∈ idr_entries (q_txns (w_h w3)))) as [Hl|Hl].
    + exists (woken t). cbn. split; [done|]. split; [done|]. lia.
    + assert (Hd : t_result t = - ENETRESET).
      { destruct (decide (t_result t = - ENETRESET)); [done|]. destruct Hl. apply elem_of_entries. eauto. }
      exists t. split; [done|]. split; [done|]. split; [done|]. intros Hq'.
      rewrite (ti_dead _ _ Hi3 a t) in Hq' by done. done.
Qed.

(** ** The theorems *)
Lemma wait_ok w led a : txn_inv w led -> is_Some (led !! a) -> exists t ret t',
  w_objs w !! a = Some t /\ t_id t' = t_id t /\ t_result t' = t_result t /\ (0 <= t_done t -> 0 <= t_done t') /\
  (0 < t_done t -> ret = 1) /\
  wait_for_completion_timeout a w = Ok (ret, with_objs (<[a := t']> (w_objs w)) (w_next w) w).
Proof.
  intros Hi Ha. destruct (ti_held _ _ Hi _ Ha) as (t & Ht & H0 & _). unfold wait_for_completion_timeout.
  rewrite (st_bind_ok _ _ _ _ _ (txn_of_ok _ _ _ Ht)). destruct (t_done t >? 0) eqn:Ed.
  - rewrite (st_bind_ok _ _ _ _ _ (set_txn_ok a _ w ltac:(eauto))). exists t, 1, (Txn (t_id t) (t_result t) (t_done t - 1) (t_ei t) (t_dest t)).
    split; [done|]. split; [done|]. split; [done|]. split; [cbn; lia|]. done.
  - exists t, 0, t. split; [done|]. split; [done|]. split; [done|]. split; [done|]. split; [lia|].
    rewrite (insert_id _ _ _ Ht). by destruct w.
Qed.

Lemma wait_rest_ok w led a ret : txn_inv w led -> is_Some (led !! a) -> exists t, w_objs w !! a = Some t /\
  txn_wait_rest a ret w =
  Ok (if t_result t =? - ENETRESET then (- ENETRESET, w)
      else (if ret =? 0 then - ETIMEDOUT else t_result t, without t w)).
Proof.
  intros Hi Ha. destruct (ti_held _ _ Hi _ Ha) as (t & Ht & _). exists t. split; [done|]. unfold txn_wait_rest.
  rewrite (st_bind_ok _ _ _ _ _ (txn_of_ok _ _ _ Ht)). destruct (t_result t =? - ENETRESET) eqn:Er.
  - apply Z.eqb_eq in Er. by rewrite Er.
  - unfold idr_remove, upd_h. rewrite st_bind_upd. fold (without t w). case_if; [done|].
    assert (Ht' : w_objs (without t w) !! a = Some t) by done. by rewrite (st_bind_ok _ _ _ _ _ (txn_of_ok _ _ _ Ht')).
Qed.

Lemma dead_out w led a t id : txn_inv w led -> w_objs w !! a = Some t -> t_result t = - ENETRESET ->
  q_txns (w_h w) !! id <> Some a.
Proof. intros Hi Ht Hd Hid. destruct (ti_table _ _ Hi _ _ Hid) as (_ & _ & t' & Ht' & _ & Hn). congruence. Qed.

Lemma begin_failed_inv w led a w1 r w2 ei dest : txn_inv w led -> new_txn (Txn 0 0 0 None None) w = Ok (a, w1) ->
  qmi_txn_init a ei dest w1 = Ok (r, w2) -> r < 0 ->
  txn_inv (with_objs (delete a (w_objs w2)) (w_next w2) w2) led.
Proof.
  intros Hi [= <- <-] Hb Hr. pose proof (ti_fresh _ _ Hi) as Hf.
  destruct (txn_init_ok (w_next w) ei dest (with_objs (<[w_next w := Txn 0 0 0 None None]> (w_objs w)) (w_next w + 1) w))
    as (r' & l & Hb' & _); [cbn; by rewrite lookup_insert_eq|]. rewrite Hb in Hb'. injection Hb' as <- ->.
  apply (calm_inv w); [done|]. pose proof (fresh_none _ Hf) as Hno. unfold began. bool_false (0 <=? r). split; [done|done|cbn; lia| |].
  - intros b. cbn. rewrite insert_insert_eq, delete_insert_id by done. intros Hlt%Hf. lia.
  - intros b t Ht. cbn. rewrite insert_insert_eq, delete_insert_id by done. by exists t.
Qed.

(** The ledger may note how the wait of a held transaction ended. *)
Lemma note_inv w led a x : txn_inv w led -> is_Some (led !! a) -> txn_inv w (<[a := x]> led).
Proof.
  intros [If It Ih Id Io] Ha. assert (Hl : forall b, is_Some (<[a := x]> led !! b) -> is_Some (led !! b)).
  { intros b. destruct (decide (a = b)) as [<-|]; [done|]. by rewrite lookup_insert_ne. }
  split; [done| |eauto|eauto|done]. intros id b Hb. destruct (It _ _ Hb) as (? & ? & ?). split; [done|]. split; [|done].
  destruct (decide (a = b)) as [<-|]; [by rewrite lookup_insert_eq|]. by rewrite lookup_insert_ne.
Qed.

Lemma wait_inv w led a ret w' : txn_inv w led -> led !! a = Some None -> wait_for_completion_timeout a w = Ok (ret, w') ->
  txn_inv w' (<[a := Some ret]> led).
Proof.
  intros Hi Ha Hx. destruct (wait_ok w led a Hi) as (t & ret' & t' & Ht & Hid & Hr & Hd & _ & Hw); [eauto|].
  rewrite Hw in Hx. injection Hx as <- <-. apply note_inv; [|eauto].
  apply (update_inv w led a t t'); [done..|by rewrite Hr|done].
Qed.

Lemma return_inv w led a ret r w1 : txn_inv w led -> is_Some (led !! a) -> txn_wait_rest a ret w = Ok (r, w1) ->
  txn_inv (with_objs (delete a (w_objs w1)) (w_next w1) w1) (delete a led).
Proof.
  intros Hi Ha Hr. destruct (wait_rest_ok w led a ret Hi Ha) as (t & Ht & Hw). rewrite Hw in Hr.
  destruct (t_result t =? - ENETRESET) eqn:Er; injection Hr as <- <-.
  - apply (free_inv w led a Hi). intros id. eapply dead_out; [done|done|]. by apply Z.eqb_eq.
  - by apply (remove_inv w led a t Hi).
Qed.

Lemma release_inv w led w' : txn_inv w led -> qmi_handle_release ops w = Ok (tt, w') -> txn_inv w' led.
Proof.
  intros Hi Hr. destruct (release_result _ _ _ Hi Hr) as (Ht & Hq & Hfr & Ho). split; [done|..|done].
  - intros id b. by rewrite Ht.
  - intros b Hb. destruct (Ho _ Hb) as (t & ? & ? & ? & _). exists t. split; [done|]. split; [done|]. done.
  - done.
Qed.

Lemma qstep_inv c c' : qstep c c' -> txn_inv c.1 c.2 -> txn_inv c'.1 c'.2.
Proof.
  intros Hs Hi. pose proof (ti_fresh _ _ Hi) as Hf. destruct Hs; cbn [fst snd] in *.
  all: try match goal with
    | Hr : qmi_send_message _ _ _ _ _ _ _ _ _ _ = _ |- _ => exact (calm_inv _ _ _ Hi (calms_send_message _ _ _ _ _ _ _ _ _ _ _ Hf Hr))
    | Hr : qmi_send_indication _ _ _ _ _ _ _ _ = _ |- _ => exact (calm_inv _ _ _ Hi (calms_indication _ _ _ _ _ _ _ _ _ Hf Hr))
    | Ho : op_msg_handler _ = Some ?f, Hr : ?f _ _ _ _ = _ |- _ => exact (calm_inv _ _ _ Hi (oc_msg_handler Howner _ _ _ _ Ho _ _ _ Hf Hr))
    | Hr : qmi_recv_ctrl_pkt _ _ _ _ = _ |- _ => exact (calm_inv _ _ _ Hi (calms_recv_ctrl _ _ _ _ _ Hf Hr))
    | Hr : qmi_handle_net_reset _ _ _ = _ |- _ => exact (calm_inv _ _ _ Hi (calms_net_reset _ _ _ Hf Hr))
    | Hr : qmi_add_lookup _ _ _ _ = _ |- _ => exact (calm_inv _ _ _ Hi (calms_add_lookup _ _ _ _ _ _ Hf Hr))
    | Hr : qmi_add_server _ _ _ _ = _ |- _ => exact (calm_inv _ _ _ Hi (calms_add_server _ _ _ _ _ _ Hf Hr))
    | Hr : qmi_set_sndtimeo _ _ = _ |- _ => exact (calm_inv _ _ _ Hi (calms_set_sndtimeo _ _ _ _ Hf Hr))
    | Hx : free_txn _ _ = _ |- _ => injection Hx as <-
    end.
  - by eapply begin_inv.
  - by eapply begin_failed_inv.
  - by eapply handle_message_inv.
  - by eapply wait_inv.
  - eapply return_inv; [done|eauto|done].
  - destruct (ti_held _ _ Hi a) as (t & Ht & _); [eauto|].
    match goal with Hc : qmi_txn_cancel _ _ = _ |- _ =>
      unfold qmi_txn_cancel in Hc; rewrite (st_bind_ok _ _ _ _ _ (txn_of_ok _ _ _ Ht)) in Hc; injection Hc as <- end.
    apply (remove_inv w led a t); [done|eauto|done].
  - by eapply release_inv.
Qed.

(** The handle starts without transactions. *)
Lemma sock_create_err e (w w' : W) : qmi_sock_create HZ w = Ok (inl e, w') -> e < 0.
Proof.
  unfold qmi_sock_create. intros Hr. apply st_bind_inv in Hr as ([r|i] & w1 & H1 & Hr).
  - injection Hr as <- _. unfold on_sock in H1. destruct (ks_create (w_sock w)) as [[]| |] eqn:E; simplify_eq. by eapply ks_create_err.
  - apply st_bind_inv in Hr as ([n|sq] & w2 & H2 & Hr).
    + unfold on_sock in H2. destruct (ks_getsockname i (w_sock w1)) as [[]| |] eqn:E; simplify_eq.
      apply st_bind_inv in Hr as (? & ? & _ & [= <- _]). by eapply ks_name_err.
    + unfold upd_h in Hr. rewrite st_bind_upd in Hr. apply st_bind_inv in Hr as (? & ? & _ & [=]).
Qed.

Lemma init_inv size w w0 : objs_fresh w -> qmi_handle_init HZ size w = Ok (0, w0) -> txn_inv w0 ∅.
Proof.
  intros Hf Hr. unfold qmi_handle_init, upd_h in Hr. rewrite st_bind_upd in Hr. set (w1 := with_h _ w) in Hr.
  apply st_bind_inv in Hr as (b1 & w2 & H1 & Hr). pose proof (calms_alloc _ _ _ (Hf : objs_fresh w1) H1) as C1.
  destruct b1; cbn [negb] in Hr; [|by injection Hr]. rewrite st_bind_upd in Hr.
  set (w2' := with_h _ w2) in Hr. apply st_bind_inv in Hr as (b2 & w3 & H2 & Hr).
  assert (C1' : calm w1 w2') by (destruct C1; split; done).
  pose proof (calms_alloc _ _ _ (calm_fresh _ _ C1') H2) as C2. destruct b2; cbn [negb] in Hr; [|by rewrite st_bind_upd in Hr; injection Hr].
  rewrite st_bind_upd in Hr. set (w4 := with_h _ w3) in Hr. apply st_bind_inv in Hr as (r & w5 & H3 & Hr).
  pose proof (calm_fresh _ _ C2) as Hf4. pose proof (calms_sock_create w4 _ _ Hf4 H3) as [T Q N F O].
  destruct r as [err|[sock sq]]; rewrite !st_bind_upd in Hr.
  { apply sock_create_err in H3. destruct (Z.eqb_spec err (- EAFNOSUPPORT)) as [->|Hne]; injection Hr as Hr _; [done|lia]. }
  injection Hr as <-. assert (Ht : q_txns (w_h w5) = ∅) by (rewrite T; cbn; by rewrite (calm_txns _ _ C2), (calm_txns _ _ C1')).
  split; cbn.
  - done.
  - intros id a. by rewrite Ht.
  - intros a [? Ha]. done.
  - intros a t [? Ha]. done.
  - done.
Qed.

Lemma reach_inv size w w0 c : objs_fresh w -> qmi_handle_init HZ size w = Ok (0, w0) ->
  rtc qstep (w0, ∅) c -> txn_inv c.1 c.2.
Proof.
  intros Hf Hi Hr. pose proof (init_inv _ _ _ Hf Hi) as H0. remember (w0, ∅) as c0 eqn:E.
  assert (H1 : txn_inv c0.1 c0.2) by (by subst). clear E H0. induction Hr; [done|]. apply IHHr. by eapply qstep_inv.
Qed.

(** C8: transactions are safe. From a new handle, whatever the order of its operations, of the
    responses, of timeouts and of the release: every number in the table is a 16-bit number of
    a transaction its caller still holds, whose object carries that number, so no two
    transactions share one; a caller can wait for or cancel what it holds, and when the call
    returns the table does not refer to its object any more, while the transactions of the
    others stay in the table. *)
Theorem qmi_txn_safe size w w0 w1 led :
  objs_fresh w -> qmi_handle_init HZ size w = Ok (0, w0) -> rtc qstep (w0, ∅) (w1, led) ->
  (forall id a, q_txns (w_h w1) !! id = Some a -> 0 <= id < U16_MAX /\ is_Some (led !! a) /\
     exists t, w_objs w1 !! a = Some t /\ t_id t = id) /\
  (forall a, led !! a = Some None -> (exists ret w', wait_for_completion_timeout a w1 = Ok (ret, w')) /\
     exists w', qmi_txn_cancel a w1 = Ok (tt, w') /\ forall id, q_txns (w_h w') !! id <> Some a) /\
  (forall a ret, led !! a = Some (Some ret) -> exists r w', txn_wait_rest a ret w1 = Ok (r, w') /\
     (forall id, q_txns (w_h w') !! id <> Some a) /\
     (forall id b, b <> a -> q_txns (w_h w1) !! id = Some b -> q_txns (w_h w') !! id = Some b)).
Proof.
  intros Hf Hin Hr. pose proof (reach_inv _ _ _ _ Hf Hin Hr) as Hi. cbn in Hi. split; [|split].
  - intros id a Hid. destruct (ti_table _ _ Hi _ _ Hid) as (? & ? & t & ? & ? & _). eauto 6.
  - intros a Ha. destruct (wait_ok w1 led a Hi) as (t & ret & t' & Ht & _ & _ & _ & _ & Hw); [eauto|]. split; [eauto|].
    exists (without t w1). split; [unfold qmi_txn_cancel; by rewrite (st_bind_ok _ _ _ _ _ (txn_of_ok _ _ _ Ht))|].
    intros id. apply (remove_out _ led); [done|eauto|done].
  - intros a ret Ha. destruct (wait_rest_ok w1 led a ret Hi) as (t & Ht & Hw); [eauto|]. rewrite Hw.
    destruct (t_result t =? - ENETRESET) eqn:Er.
    + exists (- ENETRESET), w1. split; [done|]. split; [|done]. intros id. eapply dead_out; [done|done|]. by apply Z.eqb_eq.
    + eexists _, _. split; [done|]. split; [intros id; apply (remove_out _ led); [done|eauto|done]|].
      intros id b Hb Hid. cbn. apply lookup_delete_Some. split; [|done]. intros <-.
      destruct (ti_held _ _ Hi a) as (t' & Ht' & _ & Hin'); [eauto|]. simplify_eq. rewrite Hin' in Hid by lia. congruence.
Qed.

(** ** Release returns and wakes everybody *)
Lemma del_loop_ok node port l : (forall f svc v, op_del_server ops = Some f -> exists v', f svc v = Ok (tt, v')) ->
  forall kept v, exists v', del_server_loop ops node port kept l v = Ok (tt, v').
Proof.
  intros Hf. induction l as [|svc l IH]; intros kept v; cbn [del_server_loop]; [eexists; done|].
  case_if; [apply IH|]. case_if; [apply IH|].
  assert (Hc : exists v', call (op_del_server ops) (fun f => f svc) tt v = Ok (tt, v')).
  { unfold call. destruct (op_del_server ops) as [f|] eqn:E; [by apply Hf|by eexists]. }
  destruct Hc as [v' Hc]. rewrite (st_bind_ok _ _ _ _ _ Hc). unfold upd_h. rewrite st_bind_upd. apply IH.
Qed.

(** C21: a release leaves nobody waiting. When the socket can be released and the owner's callback
    returns, the release of a live handle returns with an empty table, and every
    transaction a caller still holds ends: its wait returns -ENETRESET at once. *)
Theorem qmi_release_wakes size w w0 w1 led i :
  objs_fresh w -> qmi_handle_init HZ size w = Ok (0, w0) -> rtc qstep (w0, ∅) (w1, led) ->
  q_wq (w_h w1) = true -> q_sock (w_h w1) = SPtr i ->
  (exists s', ks_release i (w_sock w1) = Ok (tt, s')) ->
  (forall f svc v, op_del_server ops = Some f -> exists v', f svc v = Ok (tt, v')) ->
  exists w2, qmi_handle_release ops w1 = Ok (tt, w2) /\ q_txns (w_h w2) = ∅ /\
    forall a, led !! a = Some None -> exists w3, qmi_txn_wait a w2 = Ok (- ENETRESET, w3).
Proof.
  intros Hf Hin Hr Hq Hs Hrel Hdel. pose proof (reach_inv _ _ _ _ Hf Hin Hr) as Hi. cbn in Hi.
  assert (Hret : exists w2, qmi_handle_release ops w1 = Ok (tt, w2)).
  { unfold qmi_handle_release, sock_sk, get_h, upd_h. rewrite st_bind_bind, st_bind_get, Hs, st_bind_ret, st_bind_upd.
    match goal with |- context [st_bind _ _ ?v] => set (v1 := v) end.
    destruct Hrel as [s' Hs']. change (w_sock w1) with (w_sock v1) in Hs'. erewrite st_bind_ok; [|unfold on_sock; rewrite Hs'; done]. rewrite !st_bind_upd.
    match goal with |- context [st_bind _ _ ?v] => set (v2 := v) end.
    destruct (del_loop_ok UINT_MAX UINT_MAX (q_results (w_h v2)) Hdel [] v2) as [v3 H3].
    erewrite st_bind_ok; [|unfold qmi_recv_del_server, get_h; rewrite st_bind_get; exact H3]. rewrite st_bind_upd, st_bind_get.
    assert (Hi3 : txn_inv v3 led).
    { eapply calm_inv; [exact Hi|]. eapply calm_trans; [|by apply (calms_del_loop UINT_MAX UINT_MAX _ [] v2 _ _ (ti_fresh _ _ Hi) H3)].
      split; [done|done|done|exact (ti_fresh _ _ Hi)|]. intros a t Ht. by exists t. }
    destruct (release_txns_ok (idr_entries (q_txns (w_h v3))) (with_h (set_wq false false) v3)) as (v4 & H4 & _).
    { eapply entries_nodup, Hi3. }
    { intros a [id Hid]%elem_of_entries. destruct (ti_table _ _ Hi3 _ _ Hid) as (_ & _ & t & Ht & _). cbn. by rewrite Ht. }
    cbn [w_h with_h q_txns set_wq]. rewrite (st_bind_ok _ _ _ _ _ H4), !st_bind_upd. by eexists. }
  destruct Hret as [w2 H2]. exists w2. split; [done|]. destruct (release_result _ _ _ Hi H2) as (Ht & _ & _ & Ho). split; [done|].
  intros a Ha. destruct (Ho a) as (t & Hta & Hres & _ & Hd); [eauto|]. specialize (Hd Hq).
  unfold qmi_txn_wait, wait_for_completion_timeout. rewrite st_bind_bind, (st_bind_ok _ _ _ _ _ (txn_of_ok _ _ _ Hta)).
  bool_true (t_done t >? 0). rewrite st_bind_bind, (st_bind_ok _ _ _ _ _ (set_txn_ok a _ w2 ltac:(eauto))), st_bind_ret.
  unfold txn_wait_rest. set (w3 := with_objs _ _ w2).
  assert (Hw3 : w_objs w3 !! a = Some (Txn (t_id t) (t_result t) (t_done t - 1) (t_ei t) (t_dest t))) by (cbn; by rewrite lookup_insert_eq).
  rewrite (st_bind_ok _ _ _ _ _ (txn_of_ok _ _ _ Hw3)). cbn [t_result]. rewrite Hres. by eexists.
Qed.
End txns.
