(* ===== verification/QmiCall.v ===== *)
(** * A call from a client to a service

    The round trip of a request and its response through two handles and the sockets between
    them, against what the sockets promise ([SocketLaws]); the message router keeps the
    promise for two local sockets. *)
From S2P Require Import Prelude CMem KernelIdr QrtrNs QrtrRegistry QrtrRouter QrtrSocket QrtrPacket QrtrResume QrtrDelivery.
From S2P Require Import QmiEncdec QmiWire QmiRoundtrip QmiInterface QmiTxn.
Open Scope c_scope.

(** ** What the sockets promise

    Between two open sockets with nothing queued a message is taken, it arrives as it was
    sent with the address of the sender, and then everything is as before; a socket with
    nothing queued has nothing to receive. *)
Class SocketLaws (S : Type) `{KernelSockets S} := {
  ks_linked : S -> Z -> Z -> sockaddr_qrtr -> sockaddr_qrtr -> Prop;
  ks_sym : forall s i j ai aj, ks_linked s i j ai aj -> ks_linked s j i aj ai;
  ks_not_ctrl : forall s i j ai aj, ks_linked s i j ai aj -> sq_port ai <> QRTR_PORT_CTRL;
  ks_idle : forall s i j ai aj size, ks_linked s i j ai aj ->
    ks_recvmsg i size s = Ok (Received (- EAGAIN) [] None false, s);
  ks_deliver : forall s i j ai aj b, ks_linked s i j ai aj -> Z.of_nat (length b) <= 65535 ->
    exists s1, ks_sendmsg i (Some aj) b s = Ok (Z.of_nat (length b), s1) /\
      (forall size, ks_recvmsg i size s1 = Ok (Received (- EAGAIN) [] None false, s1)) /\
      (forall size, Z.of_nat (length b) <= size ->
         ks_recvmsg j size s1 = Ok (Received (Z.of_nat (length b)) b (Some ai) false, s));
}.

(** ** Messages as bytes *)
Section message.
Context `{QH : QmiHeader} `{QF : !QmiFields}.

(** The bytes of a message with this header and these wire bytes. *)
Record carries (b : list Z) (type id msg_id : Z) (bs : list Z) : Prop := {
  c_length : Z.of_nat (length b) = sizeof_qmi_header + Z.of_nat (length bs);
  c_read : forall buf, m_base buf = 0 -> Z.of_nat (length b) <= m_size buf ->
    let buf' := put_bytes buf 0 b in
    hdr_type buf' = type /\ hdr_txn buf' = id /\ hdr_msg buf' = msg_id /\
    in_range buf' 0 sizeof_qmi_header = true /\ holds buf' sizeof_qmi_header bs;
}.

Lemma message_carries m type id msg_id bs : m_base m = 0 -> 0 <= type < 2 ^ 8 -> 0 <= id < 2 ^ 16 -> 0 <= msg_id < 2 ^ 16 ->
  let msg := put_qmi_header type id msg_id (Z.of_nat (length bs)) m in
  holds msg sizeof_qmi_header bs ->
  carries (bytes_at msg 0 (Z.to_nat (sizeof_qmi_header + Z.of_nat (length bs)))) type id msg_id bs.
Proof.
  intros Hb Ht Hi Hx msg [Hh Hr]. pose proof header_size_range as Hs. set (n := Z.to_nat _).
  assert (Hn : Z.of_nat n = sizeof_qmi_header + Z.of_nat (length bs)) by (unfold n; lia).
  assert (Hmb : m_base msg = 0) by (unfold msg; by destruct (header_window type id msg_id (Z.of_nat (length bs)) m) as [-> _]).
  split; [by rewrite length_bytes_at|]. rewrite length_bytes_at. intros buf Hbuf Hsize buf'.
  assert (Hall : bytes_at buf' 0 n = bytes_at msg 0 n).
  { pose proof (bytes_at_put (bytes_at msg 0 n) buf 0 (bytes_at_range msg n 0)) as Hput. by rewrite length_bytes_at in Hput. }
  assert (Hw : m_base buf' = 0 /\ m_size buf' = m_size buf) by (unfold buf'; destruct (put_bytes_frame (bytes_at msg 0 n) buf 0); by split; congruence).
  destruct Hw as [Hw0 Hw1].
  assert (Hsplit : n = (Z.to_nat sizeof_qmi_header + length bs)%nat) by lia. rewrite Hsplit, !bytes_at_app in Hall.
  apply app_inj_1 in Hall as [Hhd Hbs]; [|by rewrite !length_bytes_at]. rewrite Z2Nat.id, Z.add_0_l in Hbs by lia.
  destruct (fields_agree buf' msg) as (-> & -> & ->); [congruence|by rewrite Hw0|].
  destruct (fields_put type id msg_id (Z.of_nat (length bs)) m Ht Hi Hx) as (E1 & E2 & E3).
  split; [exact E1|]. split; [exact E2|]. split; [exact E3|]. split.
  - unfold in_range. rewrite Hw0, Hw1. lia.
  - split; [congruence|]. unfold room. rewrite Hw0, Hw1. lia.
Qed.
End message.

(** ** Sending and receiving through a handle *)
Section call.
Context {Sk : Type} `{KS : KernelSockets Sk} `{ID : Idr} `{QH : QmiHeader} `{QF : !QmiFields}.
Context (HZ : Z) (fuel : nat).

(** A structure that can be sent with the limit [len], and a place a structure is decoded to. *)
Record sendable (src : mem) (p ssize : Z) (items : list item) (len : Z) : Prop := {
  sd_schema : schema_ok ssize items = true;
  sd_values : message_ok src p items = true;
  sd_room : room src p ssize;
  sd_rounds : (table_rounds items <= fuel)%nat;
  sd_limit : Z.of_nat (length (wire src p items)) <= len;
  sd_small : sizeof_qmi_header + len <= 65535;
}.

Lemma send_message_ok {C} (w : world Sk C) i a t to type msg_id len src p ssize items :
  q_sock (w_h w) = SPtr i -> w_allocs w = [] -> w_objs w !! a = Some t ->
  0 <= type < 2 ^ 8 -> 0 <= t_id t < 2 ^ 16 -> 0 <= msg_id < 2 ^ 16 -> sendable src p ssize items len ->
  exists b, carries b type (t_id t) msg_id (wire src p items) /\
    forall r s1, ks_sendmsg i to b (w_sock w) = Ok (r, s1) ->
      qmi_send_message fuel to a type msg_id len (Some (table items)) src (Some p) w =
      Ok (if r <? 0 then r else 0, with_w_sock s1 w).
Proof.
  intros Hs Hal Ht H1 H2 H3 [Hsch Hval Hroom Hf Hlim Hsmall]. pose proof header_size_range as Hhs.
  destruct (encode_message_carries fuel src p ssize items type msg_id len (t_id t) Hsch Hval Hroom Hf ltac:(lia))
    as (m & Hb & _ & Hr & Hh).
  eexists. split; [eapply message_carries; [exact Hb|done..|exact Hh]|]. intros r s1 Hsend.
  unfold qmi_send_message. rewrite (st_bind_ok _ _ _ _ _ (txn_of_ok _ _ _ Ht)).
  destruct (alloc_answer w) as (ok & l & Hok & Hl). destruct (Hl Hal) as [-> ->].
  rewrite (st_bind_ok _ _ _ _ _ Hok). unfold st_bind at 1, st_lift. rewrite Hr.
  replace (with_allocs [] w) with w by (rewrite <-Hal; by destruct w).
  unfold sock_send, get_h. rewrite st_bind_bind, st_bind_get, Hs. unfold st_bind, on_sock. by rewrite Hsend.
Qed.

(** The state while a message is handled: the work was taken from the queue, the message is
    in the buffer. *)
Definition received_in {C} (b : list Z) (s : Sk) (w : world Sk C) : world Sk C :=
  with_h (fun h => set_recv (put_bytes (q_recv_buf h) (m_base (q_recv_buf h)) b) (set_wq (q_wq h) false h)) (with_w_sock s w).

(** The work on a socket with one message. *)
Lemma work_one {C} (w : world Sk C) ops handlers i from b s w2 n :
  let w1 := received_in b s w in
  q_sock (w_h w) = SPtr i -> op_msg_handler ops = None -> sq_port from <> QRTR_PORT_CTRL ->
  ks_recvmsg i (m_size (q_recv_buf (w_h w))) (w_sock w) = Ok (Received (Z.of_nat (length b)) b (Some from) false, s) ->
  qmi_handle_message fuel handlers from (q_recv_buf (w_h w1)) (Z.of_nat (length b)) w1 = Ok (tt, w2) ->
  q_sock (w_h w2) = SPtr i ->
  (forall size, ks_recvmsg i size (w_sock w2) = Ok (Received (- EAGAIN) [] None false, w_sock w2)) ->
  qmi_data_ready_work HZ fuel ops handlers (S (S n)) w = Ok (tt, w2).
Proof.
  intros w1 Hs Hop Hp Hr Hm Hs2 Hidle. unfold qmi_data_ready_work, upd_h. rewrite st_bind_upd. set (w0 := with_h _ w).
  assert (H1 : recv_one w0 = Ok ((Z.of_nat (length b), from), w1)).
  { unfold recv_one, get_h. rewrite st_bind_get. cbn [w_h w0 with_h q_sock set_wq]. rewrite Hs, st_bind_get.
    cbn [w_h w0 with_h q_recv_buf set_wq]. unfold st_bind, on_sock. cbn [w_sock w0 with_h]. rewrite Hr. done. }
  assert (H2 : recv_one w2 = Ok ((- EAGAIN, Sockaddr 0 0), w2)).
  { unfold recv_one, get_h. rewrite st_bind_get, Hs2, st_bind_get. unfold st_bind, on_sock. rewrite Hidle.
    destruct w2 as [? ? [] ? ? ? ?]. done. }
  cbn [data_ready_loop]. rewrite (st_bind_ok _ _ _ _ _ H1).
  replace (Z.of_nat (length b) =? - EAGAIN) with false by (unfold EAGAIN; lia).
  replace (Z.of_nat (length b) =? - ENETRESET) with false by (unfold ENETRESET; lia). bool_false (Z.of_nat (length b) <? 0).
  unfold get_h. rewrite st_bind_get. bool_false (sq_port from =? QRTR_PORT_CTRL). rewrite Hop, (st_bind_ok _ _ _ _ _ Hm).
  by rewrite (st_bind_ok _ _ _ _ _ H2).
Qed.

(** A request is decoded into a fresh structure and given to its handler, with a transaction of
    the same number. *)
Lemma request_ok {C} (w : world Sk C) l h fn from buf b id msg_id src p ssize items len :
  sendable src p ssize items len -> carries b QMI_REQUEST id msg_id (wire src p items) ->
  m_base buf = 0 -> Z.of_nat (length b) <= m_size buf -> w_allocs w = [] ->
  find_handler l QMI_REQUEST msg_id = Ok h -> h_fn h = Some fn -> h_ei h = Some (table items) -> h_size h = ssize ->
  exists d, same_contents src p d 0 items /\
    qmi_handle_message fuel (Some l) from (put_bytes buf 0 b) (Z.of_nat (length b)) w =
    (let! _ := fn from (w_next w) d in free_txn (w_next w))
      (with_objs (<[w_next w := Txn id 0 0 None None]> (w_objs w)) (w_next w + 1) w).
Proof.
  intros [Hsch Hval Hroom Hf Hlim Hsmall] [Hlen Hread] Hb Hsz Hal Hh Hfn Hei Hsize. pose proof header_size_range as Hhs.
  destruct (Hread buf Hb Hsz) as (E1 & E2 & E3 & Hin & Hhold). set (buf' := put_bytes buf 0 b) in *.
  assert (Hb' : m_base buf' = 0) by (unfold buf'; by destruct (put_bytes_frame b buf 0) as [-> _]).
  destruct (decode_message_carried fuel src p ssize items buf' 0 (Mem 0 ssize ∅) 0 Hsch Hval Hf Hhold ltac:(lia)) as (d & Hd & Hsame & _).
  { split; cbn; lia. }
  { intros it o _ _. done. }
  exists d. split; [done|]. unfold qmi_handle_message. rewrite Hb', Hin. bool_false (Z.of_nat (length b) =? 0).
  bool_false (Z.of_nat (length b) <? sizeof_qmi_header). cbn [negb]. rewrite E1, E2.
  destruct types_ok as (_ & _ & _ & Hne & _). bool_false (QMI_REQUEST =? QMI_RESPONSE).
  rewrite (st_bind_ok _ _ _ _ _ (new_txn_ok _ w)). set (w1 := with_objs _ _ w).
  unfold qmi_invoke_handler. rewrite E1, E3, Hb'. unfold st_bind, st_lift. rewrite Hh, Hfn.
  assert (Ha : w_alloc w1 = Ok (true, w1)) by (unfold w_alloc; cbn; by rewrite Hal). rewrite Ha. cbn [negb].
  rewrite Hei, Hsize, Hlen, Hd. bool_false (Z.of_nat (length (wire src p items)) <? 0). done.
Qed.

(** A response is decoded into the place of the transaction with its number, which is completed. *)
Lemma response_ok {C} (w : world Sk C) handlers from buf b id msg_id src p ssize items len a t dest :
  sendable src p ssize items len -> carries b QMI_RESPONSE id msg_id (wire src p items) ->
  m_base buf = 0 -> Z.of_nat (length b) <= m_size buf ->
  q_txns (w_h w) !! id = Some a -> w_objs w !! a = Some t -> t_ei t = Some (table items) -> t_dest t = Some dest ->
  room (w_mem w) dest ssize -> flags_clear (w_mem w) dest items ->
  exists m, same_contents src p m dest items /\ touched (w_mem w) m dest (concat (map ranges items)) /\
    qmi_handle_message fuel handlers from (put_bytes buf 0 b) (Z.of_nat (length b)) w =
    Ok (tt, with_objs (<[a := Txn (t_id t) (Z.of_nat (length (wire src p items))) (t_done t + 1) (t_ei t) (t_dest t)]> (w_objs w))
              (w_next w) (with_w_mem m w)).
Proof.
  intros [Hsch Hval Hroom Hf Hlim Hsmall] [Hlen Hread] Hb Hsz Hid Ha Hei Hdest Hrd Hz. pose proof header_size_range as Hhs.
  destruct (Hread buf Hb Hsz) as (E1 & E2 & E3 & Hin & Hhold). set (buf' := put_bytes buf 0 b) in *.
  assert (Hb' : m_base buf' = 0) by (unfold buf'; by destruct (put_bytes_frame b buf 0) as [-> _]).
  destruct (decode_message_carried fuel src p ssize items buf' 0 (w_mem w) dest Hsch Hval Hf Hhold ltac:(lia) Hrd Hz) as (m & Hd & Hsame & Ht).
  exists m. split; [done|]. split; [done|]. unfold qmi_handle_message. rewrite Hb', Hin. bool_false (Z.of_nat (length b) =? 0).
  bool_false (Z.of_nat (length b) <? sizeof_qmi_header). cbn [negb]. rewrite E1, E2. bool_true (QMI_RESPONSE =? QMI_RESPONSE).
  unfold get_h. rewrite st_bind_get, Hid, (st_bind_ok _ _ _ _ _ (txn_of_ok _ _ _ Ha)), Hei, Hdest, st_bind_get.
  unfold st_bind at 1, st_lift. rewrite Hlen, Hd, st_bind_upd. set (w1 := with_w_mem m w).
  assert (Ha1 : w_objs w1 !! a = Some t) by done. rewrite (st_bind_ok _ _ _ _ _ (set_result_ok a _ t w1 Ha1)).
  set (w2 := with_objs _ _ w1). erewrite complete_ok; [|cbn; by rewrite lookup_insert_eq]. do 2 f_equal.
  unfold with_objs, w2, w1. cbn. by rewrite insert_insert_eq, Hei, Hdest.
Qed.

(** ** The call *)

(** A handle that can exchange messages of up to [n] bytes on the socket [i]. *)
Record handle_ready {C} (w : world Sk C) (i n : Z) : Prop := {
  hr_sock : q_sock (w_h w) = SPtr i;
  hr_base : m_base (q_recv_buf (w_h w)) = 0;
  hr_size : sizeof_qmi_header + n <= m_size (q_recv_buf (w_h w));
  hr_alloc : w_allocs w = [];
}.

(** A service: its handler answers a request [d] with the structure [answer d]. *)
Definition serve {D} (answer : mem -> mem) (msg_id rlen : Z) (ritems : list item)
    (sq : sockaddr_qrtr) (a : Z) (d : mem) : ST (world Sk D) unit :=
  let! _ := qmi_send_response fuel (Some sq) a msg_id rlen (Some (table ritems)) (answer d) (Some 0) in
  st_ret tt.

Context `{SL : !SocketLaws Sk}.

(** The service answers: its work takes the request [b] of the client [ai] from its socket and
    leaves a response for it. *)
Lemma service_answers {D} (ws : world Sk D) opss l h answer s i j ai aj id b msg_id src p ssize items len rsize ritems rlen n :
  ks_linked s i j ai aj -> handle_ready ws j len -> op_msg_handler opss = None ->
  0 <= id < 2 ^ 16 -> 0 <= msg_id < 2 ^ 16 ->
  sendable src p ssize items len -> carries b QMI_REQUEST id msg_id (wire src p items) ->
  (forall size, Z.of_nat (length b) <= size ->
     ks_recvmsg j size (w_sock ws) = Ok (Received (Z.of_nat (length b)) b (Some ai) false, s)) ->
  find_handler l QMI_REQUEST msg_id = Ok h -> h_fn h = Some (serve answer msg_id rlen ritems) ->
  h_ei h = Some (table items) -> h_size h = ssize ->
  (forall d, same_contents src p d 0 items -> sendable (answer d) 0 rsize ritems rlen) ->
  exists d ws1 b', same_contents src p d 0 items /\
    qmi_data_ready_work HZ fuel opss (Some l) (S (S n)) ws = Ok (tt, ws1) /\
    carries b' QMI_RESPONSE id msg_id (wire (answer d) 0 ritems) /\
    forall size, Z.of_nat (length b') <= size ->
      ks_recvmsg i size (w_sock ws1) = Ok (Received (Z.of_nat (length b')) b' (Some aj) false, s).
Proof.
  intros Hlink [Hss Hbs Hzs Has] Hos Hid Hmsg Hreq Hb Hrecv Hh Hfn Hei Hsize Hans. destruct types_ok as (_ & Ht2 & _).
  pose proof (sd_limit _ _ _ _ _ Hreq) as Hlim. pose proof (c_length _ _ _ _ _ Hb) as Hlb.
  set (w1 := received_in b s ws). set (a := w_next w1).
  destruct (request_ok w1 l h _ ai (q_recv_buf (w_h ws)) b id msg_id src p ssize items len Hreq Hb Hbs ltac:(lia) Has Hh Hfn Hei Hsize)
    as (d & Hsame & Hm). fold a in Hm. set (w2 := with_objs _ _ w1) in Hm.
  pose proof (Hans d Hsame) as Hres. pose proof (sd_limit _ _ _ _ _ Hres). pose proof (sd_small _ _ _ _ _ Hres).
  destruct (send_message_ok w2 j a (Txn id 0 0 None None) (Some ai) QMI_RESPONSE msg_id rlen (answer d) 0 rsize ritems)
    as (b' & Hb' & Hsend); [done|done|cbn; by rewrite lookup_insert_eq|done..|].
  pose proof (c_length _ _ _ _ _ Hb') as Hlb'. pose proof (ks_sym _ _ _ _ _ Hlink) as Hlink'.
  destruct (ks_deliver s j i aj ai b' Hlink' ltac:(lia)) as (s2 & Hk1 & Hk2 & Hk3). specialize (Hsend _ _ Hk1).
  set (w3 := with_w_sock s2 w2) in Hsend. set (ws1 := with_objs (delete a (w_objs w3)) (w_next w3) w3).
  exists d, ws1, b'. split; [done|]. split; [|done].
  apply (work_one ws opss (Some l) j ai b s ws1 n Hss Hos (ks_not_ctrl _ _ _ _ _ Hlink)); [by apply Hrecv; lia| |done|done].
  change (q_recv_buf (w_h (received_in b s ws))) with (put_bytes (q_recv_buf (w_h ws)) (m_base (q_recv_buf (w_h ws))) b).
  rewrite Hbs. etrans; [exact Hm|]. unfold serve, qmi_send_response. by rewrite st_bind_bind, (st_bind_ok _ _ _ _ _ Hsend), st_bind_ret.
Qed.

(** The client's work takes the response [b] from its socket and completes the transaction [a];
    the wait returns. *)
Lemma client_completes {C} (wc : world Sk C) ops handlers s i j ai aj id b msg_id src p ssize items len a dest n :
  ks_linked s i j ai aj -> handle_ready wc i len -> op_msg_handler ops = None ->
  sendable src p ssize items len -> carries b QMI_RESPONSE id msg_id (wire src p items) ->
  (forall size, Z.of_nat (length b) <= size ->
     ks_recvmsg i size (w_sock wc) = Ok (Received (Z.of_nat (length b)) b (Some aj) false, s)) ->
  q_txns (w_h wc) !! id = Some a -> w_objs wc !! a = Some (Txn id 0 0 (Some (table items)) (Some dest)) ->
  room (w_mem wc) dest ssize -> flags_clear (w_mem wc) dest items ->
  exists wc1 wc2, qmi_data_ready_work HZ fuel ops handlers (S (S n)) wc = Ok (tt, wc1) /\
    qmi_txn_wait a wc1 = Ok (Z.of_nat (length (wire src p items)), wc2) /\
    same_contents src p (w_mem wc2) dest items /\ touched (w_mem wc) (w_mem wc2) dest (concat (map ranges items)) /\
    q_txns (w_h wc2) = delete id (q_txns (w_h wc)) /\ w_sock wc2 = s.
Proof.
  intros Hlink [Hsc Hbc Hzc Hac] Hop Hres Hb Hrecv Hid Ha Hroom Hz.
  pose proof (sd_limit _ _ _ _ _ Hres) as Hlim. pose proof (c_length _ _ _ _ _ Hb) as Hlb.
  set (w1 := received_in b s wc).
  destruct (response_ok w1 handlers aj (q_recv_buf (w_h wc)) b id msg_id src p ssize items len a _ dest Hres Hb Hbc ltac:(lia) Hid Ha eq_refl eq_refl Hroom Hz)
    as (m & Hsame & Htouch & Hm). cbn [t_id t_ei t_dest t_done] in Hm. set (n' := Z.of_nat (length (wire src p items))) in *.
  set (w2 := with_objs _ _ _) in Hm. pose proof (ks_sym _ _ _ _ _ Hlink) as Hlink'.
  assert (Ha2 : w_objs w2 !! a = Some (Txn id n' 1 (Some (table items)) (Some dest))) by (cbn; by rewrite lookup_insert_eq).
  assert (Hw : exists w3, qmi_txn_wait a w2 = Ok (n', w3) /\ w_mem w3 = m /\ w_sock w3 = s /\ q_txns (w_h w3) = delete id (q_txns (w_h wc))).
  { unfold qmi_txn_wait, wait_for_completion_timeout. rewrite st_bind_bind, (st_bind_ok _ _ _ _ _ (txn_of_ok _ _ _ Ha2)).
    cbn [t_done Z.gtb Z.compare]. rewrite st_bind_bind, (st_bind_ok _ _ _ _ _ (set_txn_ok a _ w2 ltac:(eauto))), st_bind_ret.
    cbn [t_id t_result t_ei t_dest]. set (w3 := with_objs _ _ w2).
    assert (Ha3 : w_objs w3 !! a = Some (Txn id n' (1 - 1) (Some (table items)) (Some dest))) by (cbn; by rewrite lookup_insert_eq).
    unfold txn_wait_rest. rewrite (st_bind_ok _ _ _ _ _ (txn_of_ok _ _ _ Ha3)). cbn [t_result t_id].
    replace (n' =? - ENETRESET) with false by (unfold ENETRESET, n'; lia). unfold idr_remove, upd_h. rewrite st_bind_upd.
    cbn [Z.eqb]. set (w4 := with_h _ w3). assert (Ha4 : w_objs w4 !! a = Some (Txn id n' (1 - 1) (Some (table items)) (Some dest))) by exact Ha3.
    rewrite (st_bind_ok _ _ _ _ _ (txn_of_ok _ _ _ Ha4)). by exists w4. }
  destruct Hw as (w3 & Hw & <- & Hs3 & Ht3). exists w2, w3. split; [|done].
  apply (work_one wc ops handlers i aj b s w2 n Hsc Hop (ks_not_ctrl _ _ _ _ _ Hlink')); [by apply Hrecv; lia| |done|].
  - change (q_recv_buf (w_h (received_in b s wc))) with (put_bytes (q_recv_buf (w_h wc)) (m_base (q_recv_buf (w_h wc))) b).
    rewrite Hbc. exact Hm.
  - intros size. by eapply ks_idle.
Qed.

(** C7: a call returns the answer of the service to the arguments of the caller. A client opens
    a transaction for the response and sends a request to a service on a linked socket; the
    work of the service hands its handler a structure with the contents of the request and a
    transaction of the same number, and the handler sends a response; the work of the
    client completes exactly this transaction, and the wait returns the length of the
    response: the client's structure has the contents of the answer, nothing else in its
    memory has changed, the number is free again and both sockets are as before. *)
Theorem qmi_call_correct {C D} (wc : world Sk C) (ws : world Sk D) opsc handlersc opss l h answer i j ai aj
    a dest msg_id src p ssize items len rsize ritems rlen n :
  ks_linked (w_sock wc) i j ai aj -> handle_ready wc i rlen -> handle_ready ws j len ->
  op_msg_handler opsc = None -> op_msg_handler opss = None -> 0 <= msg_id < 2 ^ 16 ->
  is_Some (w_objs wc !! a) -> (exists id, 0 <= id < U16_MAX /\ q_txns (w_h wc) !! id = None) ->
  sendable src p ssize items len ->
  find_handler l QMI_REQUEST msg_id = Ok h -> h_fn h = Some (serve answer msg_id rlen ritems) ->
  h_ei h = Some (table items) -> h_size h = ssize ->
  (forall d, same_contents src p d 0 items -> sendable (answer d) 0 rsize ritems rlen) ->
  room (w_mem wc) dest rsize -> flags_clear (w_mem wc) dest ritems ->
  exists id wc1 wc2 d ws1 wc3 r wc4,
    qmi_txn_init a (Some (table ritems)) (Some dest) wc = Ok (id, wc1) /\
    qmi_send_request fuel (Some aj) a msg_id len (Some (table items)) src (Some p) wc1 = Ok (0, wc2) /\
    qmi_data_ready_work HZ fuel opss (Some l) (S (S n)) (with_w_sock (w_sock wc2) ws) = Ok (tt, ws1) /\
    same_contents src p d 0 items /\
    qmi_data_ready_work HZ fuel opsc handlersc (S (S n)) (with_w_sock (w_sock ws1) wc2) = Ok (tt, wc3) /\
    qmi_txn_wait a wc3 = Ok (r, wc4) /\ r = Z.of_nat (length (wire (answer d) 0 ritems)) /\
    same_contents (answer d) 0 (w_mem wc4) dest ritems /\
    touched (w_mem wc) (w_mem wc4) dest (concat (map ranges ritems)) /\
    q_txns (w_h wc4) = q_txns (w_h wc) /\ w_sock wc4 = w_sock wc.
Proof.
  intros Hlink [Hsc Hbc Hzc Hac] [Hss Hbs Hzs Has] Hoc Hos Hmsg Ha (id0 & Hid0 & Hfree0) Hreq Hh Hfn Hei Hsize Hans Hroom Hz.
  pose proof header_size_range as Hhs. destruct types_ok as (Ht1 & Ht2 & _).
  destruct (txn_init_ok a (Some (table ritems)) (Some dest) wc Ha) as (id & al & Hinit & Hid & Hal). destruct (Hal Hac) as [-> Hfull].
  destruct Hid as [[Hid Hnew]|Hneg]; [|destruct (Hfull Hneg id0 Hid0) as [x Hx]; congruence].
  assert (Htid : txn_id id = id) by (apply txn_id_16; unfold U16_MAX in Hid; lia).
  set (wc1 := began _ _ _ _ _ wc) in *. set (t := Txn id 0 0 (Some (table ritems)) (Some dest)).
  assert (Hta : w_objs wc1 !! a = Some t) by (cbn; by rewrite Htid, lookup_insert_eq).
  assert (Hhc : w_h wc1 = set_txns (<[id := a]> (q_txns (w_h wc))) (id + 1) (w_h wc)) by (unfold wc1, began; cbn; by bool_true (0 <=? id)).
  destruct (send_message_ok wc1 i a t (Some aj) QMI_REQUEST msg_id len src p ssize items) as (b & Hb & Hsend);
    [by rewrite Hhc|done|done|done|cbn; unfold U16_MAX in Hid; lia|done|done|].
  pose proof (sd_limit _ _ _ _ _ Hreq) as Hlim. pose proof (sd_small _ _ _ _ _ Hreq) as Hsmall. pose proof (c_length _ _ _ _ _ Hb) as Hlb.
  destruct (ks_deliver (w_sock wc) i j ai aj b Hlink ltac:(lia)) as (s1 & Hk1 & _ & Hk2).
  specialize (Hsend _ _ Hk1). rewrite (proj2 (Z.ltb_ge _ 0)) in Hsend by lia.
  destruct (service_answers (with_w_sock s1 ws) opss l h answer (w_sock wc) i j ai aj id b msg_id src p ssize items len rsize ritems rlen n)
    as (d & ws1 & b' & Hsame & Hws & Hb' & Hk3); [done|by split|done|unfold U16_MAX in Hid; lia|done..|].
  destruct (client_completes (with_w_sock (w_sock ws1) (with_w_sock s1 wc1)) opsc handlersc (w_sock wc) i j ai aj id b' msg_id (answer d) 0 rsize ritems rlen a dest n)
    as (wc3 & wc4 & Hwc & Hwait & Hs1 & Hs2 & Hs3 & Hs4); [done|split; [by cbn [w_h with_w_sock]; rewrite Hhc..|done]|done|by apply Hans|done|done| |done..|].
  { cbn [w_h with_w_sock]. rewrite Hhc. cbn. apply lookup_insert_eq. }
  exists id, wc1, (with_w_sock s1 wc1), d, ws1, wc3. eexists _, wc4. split; [exact Hinit|]. split; [exact Hsend|]. split; [exact Hws|].
  split; [done|]. split; [exact Hwc|]. split; [exact Hwait|]. split; [done|]. split; [done|]. split; [done|]. split; [|done].
  rewrite Hs3. cbn [w_h with_w_sock]. rewrite Hhc. cbn. by apply delete_insert_id.
Qed.
End call.

(** ** The router keeps the promise *)
Section router.
Context `{ID : Idr} (wait : ST router Z) (rounds : nat).

Lemma create_err s e s' : qrtr_create SOCK_DGRAM s = Ok (inl e, s') -> e < 0.
Proof.
  unfold qrtr_create. cbn [Z.eqb negb]. change (SOCK_DGRAM =? SOCK_DGRAM) with true. cbn [negb].
  intros Hr. apply st_bind_inv in Hr as (rc & s1 & _ & Hr). case_if_in Hr.
  - by injection Hr as <- _.
  - rewrite !st_bind_get, st_bind_upd in Hr. apply st_bind_inv in Hr as (? & ? & _ & [=]).
Qed.

Lemma name_err i s e s' : qrtr_getname i false s = Ok (inl e, s') -> e < 0.
Proof. unfold qrtr_getname. intros Hr. apply st_bind_inv in Hr as (? & ? & _ & [=]). Qed.

Definition with_sndtimeo (t : Z) (k : qrtr_sock) : qrtr_sock :=
  Sock (us k) (peer k) (sk_qstate k) (sk_err k) (sk_zapped k) (sk_established k) t (sk_queue k) (sk_refs k).

#[local] Instance router_sockets : KernelSockets router := {|
  ks_create := qrtr_create SOCK_DGRAM;
  ks_getsockname i := qrtr_getname i false;
  ks_sendmsg i to b := qrtr_sendmsg wait rounds true i
    (Msghdr ((fun sq => (sizeof_sockaddr_qrtr, AF_QIPCRTR, sq)) <$> to) 0 b);
  ks_recvmsg i size := qrtr_recvmsg wait rounds i size true;
  ks_release i := qrtr_release wait rounds (Some i) ;;; st_ret tt;
  ks_sndtimeo i := let! k := sock_of i in st_ret (sk_sndtimeo k);
  ks_set_sndtimeo i t := upd_sock i (with_sndtimeo t);
  ks_create_err := create_err;
  ks_name_err := name_err;
|}.

(** One side of a link: an open socket bound to its address, with nothing queued. *)
Definition link_end (s : router) (i : Z) (a : sockaddr_qrtr) : Prop :=
  exists k, socks s !! i = Some k /\ usable k /\ sk_queue k = [] /\ us k = a /\ sq_port a <> QRTR_PORT_CTRL /\
    sq_node a <> QRTR_NODE_BCAST /\ qrtr_ports s !! port_key (sq_port a) = Some i.

Definition local_link (s : router) (i j : Z) (ai aj : sockaddr_qrtr) : Prop :=
  all_well s /\ i <> j /\ sq_node ai = sq_node aj /\ link_end s i ai /\ link_end s j aj.

Lemma local_link_sym s i j ai aj : local_link s i j ai aj -> local_link s j i aj ai.
Proof. intros (Hw & Hij & Hn & Hi & Hj). split; [done|]. split; [done|]. split; [done|]. done. Qed.

Lemma local_link_port s i j ai aj : local_link s i j ai aj -> sq_port ai <> QRTR_PORT_CTRL.
Proof. by intros (_ & _ & _ & (k & _ & _ & _ & _ & ? & _) & _). Qed.

Lemma local_link_idle s i j ai aj size : local_link s i j ai aj ->
  ks_recvmsg i size s = Ok (Received (- EAGAIN) [] None false, s).
Proof. intros (Hw & _ & _ & (k & Hk & Hu & Hq & _) & _). by eapply recv_empty. Qed.

Lemma local_link_deliver s i j ai aj b : local_link s i j ai aj -> Z.of_nat (length b) <= 65535 ->
  exists s1, ks_sendmsg i (Some aj) b s = Ok (Z.of_nat (length b), s1) /\
    (forall size, ks_recvmsg i size s1 = Ok (Received (- EAGAIN) [] None false, s1)) /\
    (forall size, Z.of_nat (length b) <= size ->
       ks_recvmsg j size s1 = Ok (Received (Z.of_nat (length b)) b (Some ai) false, s)).
Proof.
  intros (Hw & Hij & Hn & (ki & Hki & Hui & Hqi & <- & Hpi & Hni & _) & (kj & Hkj & Huj & Hqj & <- & Hpj & Hnj & Hport)) Hlen.
  exists (delivered i j ki kj b s). split; [|split].
  - by eapply send_local_ok.
  - intros size. eapply (recv_empty wait rounds i size _ ki); [exact Hw| |done|done]. cbn. by rewrite lookup_insert_ne.
  - intros size Hs. by apply recv_delivered.
Qed.

#[local] Instance router_laws : SocketLaws router := {|
  ks_linked := local_link;
  ks_sym := local_link_sym;
  ks_not_ctrl := local_link_port;
  ks_idle := local_link_idle;
  ks_deliver := local_link_deliver;
|}.
End router.
