(* ===== verification/QmiDiscovery.v ===== *)
(** * Finding services: a QMI handle and the name service

    The list of servers a handle keeps follows the control packets ([track]), and together
    with the name service it mirrors the registry. *)
From S2P Require Import Prelude CMem KernelIdr QrtrNs QrtrRegistry QrtrSocket QmiEncdec QmiInterface QmiTxn.
Open Scope c_scope.

(** ** What the packets say *)

(** The servers a withdrawal concerns; all ones is any node, or any port. *)
Definition gone (node port : Z) (svc : qmi_service) : bool :=
  ((node =? UINT_MAX) || (v_node svc =? node)) && ((port =? UINT_MAX) || (v_port svc =? port)).

Definition service_at (service instance node port : Z) : qmi_service :=
  Svc service (Z.land instance 0xff) (Z.shiftr instance 8) node port.

(** The servers known after a control packet. *)
Definition track (l : list qmi_service) (p : qrtr_ctrl_pkt) : list qmi_service :=
  if p_cmd p =? QRTR_TYPE_BYE then filter (fun svc => gone (client_node p) UINT_MAX svc = false) l else
  if p_cmd p =? QRTR_TYPE_NEW_SERVER then
    if (server_node p =? 0) && (server_port p =? 0) then l
    else service_at (server_service p) (server_instance p) (server_node p) (server_port p) :: l
  else if p_cmd p =? QRTR_TYPE_DEL_SERVER then
    filter (fun svc => gone (server_node p) (server_port p) svc = false) l
  else l.

Section handle.
Context {Sk C : Type} `{KS : KernelSockets Sk} `{ID : Idr} `{QH : QmiHeader} `{QF : !QmiFields}.
Local Notation W := (world Sk C).
Context (ops : qmi_ops W).

(** An owner that accepts every server: its callbacks return, and none of them touches the
    list of servers, the buffer or the memory. *)
Record kept (w w' : W) : Prop := {
  kept_results : q_results (w_h w') = q_results (w_h w);
  kept_buf : q_recv_buf (w_h w') = q_recv_buf (w_h w);
  kept_allocs : w_allocs w' = w_allocs w;
}.

Definition quietly {A} (c : ST W A) (P : A -> Prop) : Prop :=
  forall w, exists r w', c w = Ok (r, w') /\ P r /\ kept w w'.

Record owner_accepts : Prop := {
  oa_new : exists f, op_new_server ops = Some f /\ forall svc, quietly (f svc) (fun r => 0 <= r);
  oa_del : forall f svc, op_del_server ops = Some f -> quietly (f svc) (fun _ => True);
  oa_bye : forall f n, op_bye ops = Some f -> quietly (f n) (fun _ => True);
  oa_client : forall f n p, op_del_client ops = Some f -> quietly (f n p) (fun _ => True);
}.
Hypothesis Howner : owner_accepts.

(** A handle that can take a control packet. *)
Record listening (w : W) : Prop := {
  li_size : sizeof_qrtr_ctrl_pkt <= m_size (q_recv_buf (w_h w));
  li_alloc : w_allocs w = [];
}.

Lemma kept_listening w w' : kept w w' -> listening w -> listening w'.
Proof. intros [_ Hb Ha] [Hs Hal]. split; congruence. Qed.

Lemma call_quiet {A} (f : option A) (k : A -> ST W unit) : (forall x, f = Some x -> quietly (k x) (fun _ => True)) ->
  quietly (call f k tt) (fun _ => True).
Proof. intros Hk w. destruct f as [x|]; cbn; [by apply Hk|]. exists tt, w. by split. Qed.

Lemma del_loop_results node port l : forall kept_ w, listening w -> q_results (w_h w) = kept_ ++ l ->
  exists w', del_server_loop ops node port kept_ l w = Ok (tt, w') /\ listening w' /\
    q_results (w_h w') = kept_ ++ filter (fun svc => gone node port svc = false) l.
Proof.
  induction l as [|svc l IH]; intros k w Hli Hr; cbn [del_server_loop]; [by exists w|].
  assert (Hcode : forall A (x y : A), (if negb (node =? UINT_MAX) && negb (v_node svc =? node) then x else
      if negb (port =? UINT_MAX) && negb (v_port svc =? port) then x else y) = if gone node port svc then y else x).
  { intros A x y. unfold gone. by destruct (node =? UINT_MAX), (v_node svc =? node), (port =? UINT_MAX), (v_port svc =? port). }
  rewrite Hcode, filter_cons. case_decide as Eg; [rewrite Eg|apply not_false_is_true in Eg; rewrite Eg].
  - destruct (IH (k ++ [svc]) w Hli) as (w' & H1 & H2 & H3); [by rewrite <-app_assoc|].
    exists w'. split; [exact H1|]. split; [done|]. by rewrite H3, <-app_assoc.
  - destruct (call_quiet (op_del_server ops) (fun f => f svc) (fun f Hf => oa_del Howner f svc Hf) w) as ([] & w1 & H1 & _ & K1).
    rewrite (st_bind_ok _ _ _ _ _ H1). unfold upd_h. rewrite st_bind_upd. apply IH; [|done].
    destruct (kept_listening _ _ K1 Hli). by split.
Qed.

Lemma recv_del_results node port w : listening w -> exists w', qmi_recv_del_server ops node port w = Ok (tt, w') /\ listening w' /\
  q_results (w_h w') = filter (fun svc => gone node port svc = false) (q_results (w_h w)).
Proof. intros Hli. unfold qmi_recv_del_server, get_h. rewrite st_bind_get. by apply (del_loop_results node port _ []). Qed.

(** The work on one control packet: it is copied to the buffer and handled. *)
Definition recv_pkt (p : qrtr_ctrl_pkt) : ST W unit :=
  upd_h (fun h => set_recv (put_bytes (q_recv_buf h) (m_base (q_recv_buf h)) (pkt_bytes p)) h) ;;;
  let! buf := get_h q_recv_buf in
  qmi_recv_ctrl_pkt ops buf sizeof_qrtr_ctrl_pkt.

Fixpoint recv_pkts (l : list qrtr_ctrl_pkt) : ST W unit :=
  match l with
  | [] => st_ret tt
  | p :: l => recv_pkt p ;;; recv_pkts l
  end.

Lemma pkt_ok_intro c a b d e : 0 <= c < 2 ^ 32 -> 0 <= a < 2 ^ 32 -> 0 <= b < 2 ^ 32 -> 0 <= d < 2 ^ 32 -> 0 <= e < 2 ^ 32 ->
  pkt_ok (Pkt c a b d e).
Proof. intros. unfold pkt_ok. cbn. by rewrite !Forall_cons. Qed.

Lemma pkt_bytes_range p : Forall (fun b => 0 <= b < 256) (pkt_bytes p).
Proof. unfold pkt_bytes, cpu_to_le32. rewrite !Forall_app. repeat split; repeat constructor; apply u8_range. Qed.

Lemma recv_pkt_ok p w : pkt_ok p -> listening w -> exists w', recv_pkt p w = Ok (tt, w') /\ listening w' /\
  q_results (w_h w') = track (q_results (w_h w)) p.
Proof.
  intros Hp Hli. unfold recv_pkt, upd_h. rewrite st_bind_upd. set (w1 := with_h _ w). unfold get_h. rewrite st_bind_get.
  set (buf := q_recv_buf (w_h w1)). destruct (put_bytes_frame (pkt_bytes p) (q_recv_buf (w_h w)) (m_base (q_recv_buf (w_h w)))) as [Hb Hs].
  assert (Hbb : m_base buf = m_base (q_recv_buf (w_h w)) /\ m_size buf = m_size (q_recv_buf (w_h w))) by by split.
  assert (Hli1 : listening w1) by (destruct Hli; split; [|done]; change (sizeof_qrtr_ctrl_pkt <= m_size buf); by rewrite (proj2 Hbb)).
  assert (Hpk : bytes_at buf (m_base buf) (Z.to_nat sizeof_qrtr_ctrl_pkt) = pkt_bytes p).
  { rewrite (proj1 Hbb). apply (bytes_at_put (pkt_bytes p)), pkt_bytes_range. }
  unfold qmi_recv_ctrl_pkt. cbn [Z.ltb Z.compare]. change (sizeof_qrtr_ctrl_pkt <? sizeof_qrtr_ctrl_pkt) with false.
  assert (Hin : in_range buf (m_base buf) sizeof_qrtr_ctrl_pkt = true).
  { destruct Hli1 as [Hsz _]. fold buf in Hsz. unfold in_range, sizeof_qrtr_ctrl_pkt in *. lia. }
  rewrite Hin, Hpk. cbn [negb]. rewrite <-(app_nil_r (pkt_bytes p)), pkt_roundtrip by done. unfold track.
  change (q_results (w_h w)) with (q_results (w_h w1)).
  destruct (p_cmd p =? QRTR_TYPE_BYE).
  { unfold qmi_recv_bye. destruct (recv_del_results (client_node p) UINT_MAX w1 Hli1) as (w2 & H2 & L2 & R2).
    rewrite (st_bind_ok _ _ _ _ _ H2).
    destruct (call_quiet (op_bye ops) (fun f => f (client_node p)) (fun f Hf => oa_bye Howner f _ Hf) w2) as ([] & w3 & H3 & _ & K3).
    exists w3. split; [done|]. split; [by eapply kept_listening|]. by rewrite (kept_results _ _ K3). }
  destruct (p_cmd p =? QRTR_TYPE_NEW_SERVER).
  { unfold qmi_recv_new_server. destruct (oa_new Howner) as (f & -> & Hf). case_if; [by exists w1|].
    destruct (alloc_answer w1) as (ok & l & Hok & Hl). destruct (Hl (li_alloc _ Hli1)) as [-> ->].
    rewrite (st_bind_ok _ _ _ _ _ Hok). cbn [negb]. fold (service_at (server_service p) (server_instance p) (server_node p) (server_port p)).
    destruct (Hf (service_at (server_service p) (server_instance p) (server_node p) (server_port p)) (with_allocs [] w1)) as (r & w2 & H2 & Hr & [K2 K3 K4]).
    rewrite (st_bind_ok _ _ _ _ _ H2). bool_false (r <? 0). eexists. split; [done|]. split; [|cbn; by rewrite K2].
    destruct Hli1. by split; cbn; rewrite ?K3. }
  destruct (p_cmd p =? QRTR_TYPE_DEL_SERVER); [by apply recv_del_results|].
  destruct (p_cmd p =? QRTR_TYPE_DEL_CLIENT); [|by exists w1].
  destruct (call_quiet (op_del_client ops) (fun f => f (client_node p) (client_port p)) (fun f Hf => oa_client Howner f _ _ Hf) w1) as ([] & w3 & H3 & _ & K3).
  exists w3. split; [done|]. split; [by eapply kept_listening|]. by rewrite (kept_results _ _ K3).
Qed.

Lemma recv_pkts_ok l : forall w, Forall pkt_ok l -> listening w -> exists w', recv_pkts l w = Ok (tt, w') /\ listening w' /\
  q_results (w_h w') = foldl track (q_results (w_h w)) l.
Proof.
  induction l as [|p l IH]; intros w Hl Hli; cbn [recv_pkts foldl]; [by exists w|]. apply Forall_cons in Hl as [Hp Hl].
  destruct (recv_pkt_ok p w Hp Hli) as (w1 & H1 & L1 & R1). destruct (IH w1 Hl L1) as (w2 & H2 & L2 & R2).
  exists w2. rewrite (st_bind_ok _ _ _ _ _ H1). split; [done|]. split; [done|]. by rewrite R2, R1.
Qed.

(** ** The handle and the name service together

    [me] is the address of the handle and [lk] its only lookup; the name service can
    broadcast. *)
Context (r : list (sockaddr_qrtr * qrtr_ctrl_pkt) -> Z) (me : sockaddr_qrtr) (lk : qrtr_lookup).

Definition to_me (sent : list (sockaddr_qrtr * qrtr_ctrl_pkt)) : list qrtr_ctrl_pkt :=
  map snd (filter (fun x => x.1 = me) sent).

Definition wants (srv : qrtr_server) : bool := lookup_wants lk (s_service srv) (s_instance srv).
Definition svc_of (srv : qrtr_server) : qmi_service :=
  service_at (s_service srv) (s_instance srv) (s_node srv) (s_port srv).

(** The handle knows exactly the registered servers it looks for, each once. *)
Record mirror (s : ns) (w : W) : Prop := {
  mi_wf : ns_wf s;
  mi_mem : ns_mem s = [];
  mi_lookup : filter (fun l => l_sq l = me) (ns_lookups s) = [lk];
  mi_u32 : forall node port srv, registry s node port = Some srv -> pkt_ok (server_pkt QRTR_TYPE_NEW_SERVER srv);
  mi_listening : listening w;
  mi_nodup : NoDup (q_results (w_h w));
  mi_results : forall svc, svc ∈ q_results (w_h w) <->
    exists node port srv, registry s node port = Some srv /\ wants srv = true /\ svc = svc_of srv;
}.

(** A packet the name service receives, and what it sends to the handle. *)
Definition sys_handle (from : sockaddr_qrtr) (pkt : qrtr_ctrl_pkt) (c : ns * W) : res (ns * W) :=
  match handle_pkt r from pkt c.1 with
  | Ok (_, s') =>
    match recv_pkts (to_me (drop (length (ns_sent c.1)) (ns_sent s'))) c.2 with
    | Ok (_, w') => Ok (s', w')
    | Fault => Fault
    | Loop => Loop
    end
  | Fault => Fault
  | Loop => Loop
  end.

(** The packets that keep handle and registry together: every one but a server registered at
    a port that has one, a server, client or node numbered all ones (which a handle takes for
    any), and those about the socket of the handle itself.  A local sender names its own node
    and port ([server_key]). *)
Inductive fair (s : ns) (from : sockaddr_qrtr) : qrtr_ctrl_pkt -> Prop :=
| fair_new service instance node port id p :
    server_key s from node port = (id, p) -> sq_node from = id -> service <> 0 -> p <> 0 ->
    registry s id p = None -> pkt_ok (server_pkt QRTR_TYPE_NEW_SERVER (Server service instance id p)) ->
    fair s from (Pkt QRTR_TYPE_NEW_SERVER service instance node port)
| fair_new_refused service instance node port id p :
    server_key s from node port = (id, p) -> sq_node from <> id \/ service = 0 \/ p = 0 ->
    fair s from (Pkt QRTR_TYPE_NEW_SERVER service instance node port)
| fair_del service instance node port id p :
    server_key s from node port = (id, p) -> sq_node from = id -> id <> UINT_MAX -> p <> UINT_MAX ->
    fair s from (Pkt QRTR_TYPE_DEL_SERVER service instance node port)
| fair_del_refused service instance node port id p :
    server_key s from node port = (id, p) -> sq_node from <> id ->
    fair s from (Pkt QRTR_TYPE_DEL_SERVER service instance node port)
| fair_bye w0 w1 w2 w3 :
    sq_node from <> UINT_MAX -> registry s (sq_node from) UINT_MAX = None ->
    registry s (sq_node me) (sq_port me) = None ->
    fair s from (Pkt QRTR_TYPE_BYE w0 w1 w2 w3)
| fair_client id p w2 w3 :
    id <> UINT_MAX -> p <> UINT_MAX -> Sockaddr id p <> me ->
    registry s (sq_node me) (sq_port me) = None ->
    fair s from (Pkt QRTR_TYPE_DEL_CLIENT id p w2 w3)
| fair_hello w0 w1 w2 w3 : from <> me -> fair s from (Pkt QRTR_TYPE_HELLO w0 w1 w2 w3)
| fair_lookup service instance w2 w3 : from <> me -> 0 <= instance ->
    fair s from (Pkt QRTR_TYPE_NEW_LOOKUP service instance w2 w3)
| fair_lookup_end service instance w2 w3 : from <> me ->
    fair s from (Pkt QRTR_TYPE_DEL_LOOKUP service instance w2 w3)
| fair_other pkt :
    p_cmd pkt ∉ [QRTR_TYPE_HELLO; QRTR_TYPE_BYE; QRTR_TYPE_DEL_CLIENT; QRTR_TYPE_NEW_SERVER;
      QRTR_TYPE_DEL_SERVER; QRTR_TYPE_NEW_LOOKUP; QRTR_TYPE_DEL_LOOKUP] -> fair s from pkt.

Lemma to_me_app a b : to_me (a ++ b) = to_me a ++ to_me b.
Proof. unfold to_me. by rewrite filter_app, map_app. Qed.

Lemma to_me_notices l cmd srv : filter (fun x => l_sq x = me) l = [lk] ->
  to_me (notices l cmd srv) = if wants srv then [server_pkt cmd srv] else [].
Proof.
  assert (Hg : forall l, to_me (notices l cmd srv) = map (fun _ => server_pkt cmd srv)
    (filter (fun x => lookup_wants x (s_service srv) (s_instance srv) = true) (filter (fun x => l_sq x = me) l))).
  { clear l. intros l. unfold to_me, notices. induction l as [|x l IH]; [done|]. rewrite !filter_cons.
    destruct (decide (l_sq x = me)) as [Hx|Hx]; rewrite ?filter_cons;
      destruct (decide (lookup_wants x (s_service srv) (s_instance srv) = true)); cbn [map]; rewrite ?filter_cons; cbn [fst].
    - rewrite decide_True by done. cbn. by rewrite IH.
    - done.
    - by rewrite decide_False by done.
    - done. }
  intros Hl. rewrite Hg, Hl, filter_cons. unfold wants. destruct (lookup_wants _ _ _); [rewrite decide_True|rewrite decide_False]; done.
Qed.

Lemma svc_of_place s node port srv : ns_wf s -> registry s node port = Some srv ->
  v_node (svc_of srv) = node /\ v_port (svc_of srv) = port.
Proof. intros Hw Hs. destruct (registry_entry _ _ _ _ Hw Hs) as (? & ? & _). done. Qed.

Lemma mirror_add s w s' id p srv : mirror s w -> registry s id p = None -> ns_wf s' -> ns_mem s' = [] ->
  ns_lookups s' = ns_lookups s -> pkt_ok (server_pkt QRTR_TYPE_NEW_SERVER srv) ->
  (forall node q, registry s' node q = if decide (node = id /\ q = p) then Some srv else registry s node q) ->
  exists w', recv_pkts (if wants srv then [server_pkt QRTR_TYPE_NEW_SERVER srv] else []) w = Ok (tt, w') /\ mirror s' w'.
Proof.
  intros [Mw Mm Ml Mu Mli Mn Mr] Hnone Hw' Hm' Hl' Hok Hreg.
  assert (Hsrv : registry s' id p = Some srv) by (by rewrite Hreg, decide_True).
  destruct (registry_entry _ _ _ _ Hw' Hsrv) as (Ep & En & _ & Hp0 & _).
  assert (Hu' : forall node port sv, registry s' node port = Some sv -> pkt_ok (server_pkt QRTR_TYPE_NEW_SERVER sv)).
  { intros node port sv. rewrite Hreg. case_decide; [by intros [= <-]|apply Mu]. }
  destruct (recv_pkts_ok (if wants srv then [server_pkt QRTR_TYPE_NEW_SERVER srv] else []) w) as (w' & Hrun & Hli & Hres);
    [destruct (wants srv); [by apply Forall_singleton|constructor]|done|]. exists w'. split; [done|].
  assert (Hq : q_results (w_h w') = if wants srv then svc_of srv :: q_results (w_h w) else q_results (w_h w)).
  { rewrite Hres. destruct (wants srv); [|done]. cbn. unfold track. cbn.
    replace (s_port srv =? 0) with false by lia. by rewrite andb_false_r. }
  split; [done|done|congruence|done|done|..]; rewrite Hq.
  - destruct (wants srv); [|done]. constructor; [|done]. intros (n & q & sv & Hs & _ & E)%Mr.
    destruct (svc_of_place _ _ _ _ Mw Hs) as [E1 E2]. rewrite <-E in E1, E2. cbn in E1, E2. congruence.
  - intros svc. split.
    + intros Hin. assert (Hin' : svc = svc_of srv /\ wants srv = true \/ svc ∈ q_results (w_h w)).
      { destruct (wants srv); [apply elem_of_cons in Hin as [->|]; [by left|by right]|by right]. }
      destruct Hin' as [[-> Hwa]|(n & q & sv & Hs & ? & ?)%Mr]; [by exists id, p, srv|].
      exists n, q, sv. rewrite Hreg, decide_False by (intros [-> ->]; congruence). done.
    + intros (n & q & sv & Hs & Hwa & ->). rewrite Hreg in Hs. case_decide as Hd.
      * injection Hs as <-. rewrite Hwa. left.
      * assert (svc_of sv ∈ q_results (w_h w)) by (apply Mr; by exists n, q, sv). destruct (wants srv); [by right|done].
Qed.

Lemma mirror_del s w s' id p srv : mirror s w -> registry s id p = Some srv -> id <> UINT_MAX -> p <> UINT_MAX ->
  ns_wf s' -> ns_mem s' = [] -> ns_lookups s' = ns_lookups s ->
  (forall node q, registry s' node q = if decide (node = id /\ q = p) then None else registry s node q) ->
  exists w', recv_pkts (if wants srv then [server_pkt QRTR_TYPE_DEL_SERVER srv] else []) w = Ok (tt, w') /\ mirror s' w'.
Proof.
  intros [Mw Mm Ml Mu Mli Mn Mr] Hsome Hid Hp Hw' Hm' Hl' Hreg.
  destruct (registry_entry _ _ _ _ Mw Hsome) as (Ep & En & _).
  assert (Hok : pkt_ok (server_pkt QRTR_TYPE_DEL_SERVER srv)).
  { pose proof (Mu _ _ _ Hsome) as Hx. unfold pkt_ok in *. cbn in *. apply Forall_cons in Hx as [_ Hx]. by constructor. }
  destruct (recv_pkts_ok (if wants srv then [server_pkt QRTR_TYPE_DEL_SERVER srv] else []) w) as (w' & Hrun & Hli & Hres);
    [destruct (wants srv); [by apply Forall_singleton|constructor]|done|]. exists w'. split; [done|].
  assert (Hq : q_results (w_h w') = if wants srv then filter (fun svc => gone id p svc = false) (q_results (w_h w)) else q_results (w_h w)).
  { rewrite Hres. destruct (wants srv); [|done]. cbn. unfold track. cbn. by rewrite Ep, En. }
  assert (Hgone : forall svc, gone id p svc = false <-> ~ (v_node svc = id /\ v_port svc = p)).
  { intros svc. unfold gone. bool_false (id =? UINT_MAX). bool_false (p =? UINT_MAX). cbn [orb]. lia. }
  split; [done|done|congruence| |done|..].
  - intros node port sv. rewrite Hreg. case_decide; [done|apply Mu].
  - rewrite Hq. destruct (wants srv); [by apply NoDup_filter|done].
  - intros svc. rewrite Hq. transitivity (svc ∈ q_results (w_h w) /\ (wants srv = true -> gone id p svc = false)).
    { destruct (wants srv); [rewrite list_elem_of_filter; tauto|]. split; [by intros|]. by intros []. }
    rewrite Mr. split.
    + intros [(n & q & sv & Hs & Hwa & ->) Hg]. exists n, q, sv. rewrite Hreg. case_decide as Hd; [|done]. exfalso.
      destruct Hd as [-> ->]. simplify_eq. apply Hgone in Hg; [|done]. apply Hg. exact (svc_of_place s _ _ _ Mw Hsome).
    + intros (n & q & sv & Hs & Hwa & ->). rewrite Hreg in Hs. case_decide as Hd; [done|]. split; [eauto 6|]. intros _.
      apply Hgone. destruct (svc_of_place _ _ _ _ Mw Hs) as [-> ->]. done.
Qed.

Lemma mirror_quiet s w s' : mirror s w -> ns_wf s' -> ns_mem s' = [] ->
  filter (fun l => l_sq l = me) (ns_lookups s') = filter (fun l => l_sq l = me) (ns_lookups s) ->
  (forall node q, registry s' node q = registry s node q) -> mirror s' w.
Proof.
  intros [Mw Mm Ml Mu Mli Mn Mr] Hw' Hm' Hl' Hreg. split; [done|done|congruence| |done|done|].
  - intros node port srv. rewrite Hreg. apply Mu.
  - intros svc. rewrite Mr. setoid_rewrite Hreg. done.
Qed.

Lemma mirror_same s w s' : mirror s w -> ns_wf s' -> ns_mem s' = [] -> ns_lookups s' = ns_lookups s ->
  (forall node q, registry s' node q = registry s node q) -> mirror s' w.
Proof. intros Hm Hw' Hm' Hl'. apply mirror_quiet; [done..|by rewrite Hl']. 
Qed.

Lemma recv_pkts_cons p l w : recv_pkts (p :: l) w = st_bind (recv_pkt p) (fun _ => recv_pkts l) w.
Proof. reflexivity. Qed.

Lemma recv_pkts_app a b w w1 : recv_pkts a w = Ok (tt, w1) -> recv_pkts (a ++ b) w = recv_pkts b w1.
Proof.
  revert w. induction a as [|p a IH]; intros w Ha; [by injection Ha as <-|].
  rewrite recv_pkts_cons in Ha. apply st_bind_inv in Ha as ([] & w2 & H1 & H2).
  rewrite <-app_comm_cons, recv_pkts_cons, (st_bind_ok _ _ _ _ _ H1). exact (IH w2 H2).
Qed.

Hypothesis Hsend : forall l, 0 <= r l.
Hypothesis Hme : me <> bcast_sq.

Lemma to_me_bcast (b : bool) pkt : to_me (if b then [(bcast_sq, pkt)] else []) = [].
Proof. destruct b; [|done]. unfold to_me. rewrite filter_cons, decide_False by (cbn; congruence). done. Qed.

Lemma to_me_del s srv : filter (fun l => l_sq l = me) (ns_lookups s) = [lk] ->
  to_me (del_packets s srv) = if wants srv then [server_pkt QRTR_TYPE_DEL_SERVER srv] else [].
Proof. intros Hl. unfold del_packets. by rewrite to_me_app, to_me_bcast, to_me_notices. Qed.

(** The joint step, from what the two sides do. *)
Lemma sys_handle_ok s w s' w' from pkt ret new : handle_pkt r from pkt s = Ok (ret, s') ->
  ns_sent s' = ns_sent s ++ new -> recv_pkts (to_me new) w = Ok (tt, w') ->
  sys_handle from pkt (s, w) = Ok (s', w').
Proof. intros H1 H2 H3. unfold sys_handle. cbn [fst snd]. by rewrite H1, H2, drop_app_length, H3. Qed.

Lemma step_new s w from service instance node port id p : mirror s w ->
  server_key s from node port = (id, p) -> sq_node from = id -> service <> 0 -> p <> 0 ->
  registry s id p = None -> pkt_ok (server_pkt QRTR_TYPE_NEW_SERVER (Server service instance id p)) ->
  exists s' w', sys_handle from (Pkt QRTR_TYPE_NEW_SERVER service instance node port) (s, w) = Ok (s', w') /\ mirror s' w'.
Proof.
  intros Hm Hk Hid Hs Hp Hnone Hok. pose proof (new_server_full r from service instance node port s (mi_wf _ _ Hm) (mi_mem _ _ Hm)) as Hn.
  rewrite Hk in Hn. assert (Hi : 0 <= instance < 2 ^ 32).
  { unfold pkt_ok in Hok. cbn in Hok. rewrite !Forall_cons in Hok. tauto. }
  destruct (Hn Hid Hs Hp Hi) as (s' & Hrun & Hw' & _ & Hl' & Hm' & Hsent & Hreg).
  set (srv := Server service instance id p) in *. set (ret := if id =? ns_local s then _ else 0) in *.
  assert (Hret : 0 <= ret) by (unfold ret; case_if; [apply Hsend|lia]). rewrite (proj2 (Z.ltb_ge ret 0) Hret) in Hsent.
  destruct (mirror_add s w s' id p srv Hm Hnone Hw' Hm' Hl' Hok Hreg) as (w' & Hrecv & Hmir).
  exists s', w'. split; [|done]. eapply sys_handle_ok; [exact Hrun|exact Hsent|].
  by rewrite to_me_app, to_me_bcast, to_me_notices by apply Hm.
Qed.

Lemma step_del s w from service instance node port id p : mirror s w ->
  server_key s from node port = (id, p) -> sq_node from = id -> id <> UINT_MAX -> p <> UINT_MAX ->
  exists s' w', sys_handle from (Pkt QRTR_TYPE_DEL_SERVER service instance node port) (s, w) = Ok (s', w') /\ mirror s' w'.
Proof.
  intros Hm Hk Hid H1 H2. pose proof (del_server_correct r from service instance node port s (mi_wf _ _ Hm) (mi_mem _ _ Hm)) as Hn.
  rewrite Hk in Hn. destruct (Hn Hid) as (ret & s' & Hrun & Hw' & _ & Hl' & Hm' & Hsent & Hreg).
  destruct (registry s id p) as [srv|] eqn:Hsrv; destruct Hsent as [_ Hsent].
  - destruct (mirror_del s w s' id p srv Hm Hsrv H1 H2 Hw' Hm' Hl' Hreg) as (w' & Hrecv & Hmir).
    exists s', w'. split; [|done]. eapply sys_handle_ok; [exact Hrun|exact Hsent|]. by rewrite to_me_del by apply Hm.
  - exists s', w. split; [|].
    + eapply sys_handle_ok; [exact Hrun|by rewrite app_nil_r|done].
    + apply (mirror_same s); [done..|]. intros n q. rewrite Hreg. case_decide as Hd; [|done]. destruct Hd as [-> ->]. done.
Qed.

(** The servers of a node that leaves are withdrawn one after the other. *)
Lemma del_servers_mirror id a l : id <> UINT_MAX -> forall s w, mirror s w -> ns_nodes s !! id = Some a ->
  registry s id UINT_MAX = None ->
  exists s' new w', del_servers r a l s = Ok (tt, s') /\ ns_nodes s' = ns_nodes s /\ ns_local s' = ns_local s /\
    ns_sent s' = ns_sent s ++ new /\ recv_pkts (to_me new) w = Ok (tt, w') /\ mirror s' w' /\
    forall node p, registry s' node p = None \/ registry s' node p = registry s node p.
Proof.
  intros Hid. induction l as [|p l IH]; intros s w Hm Ha Hno; cbn [del_servers].
  { exists s, [], w. rewrite app_nil_r. split_and!; try done. intros. by right. }
  rewrite st_bind_get, <-(registry_node _ _ _ _ Ha). destruct (registry s id p) as [srv|] eqn:Hsrv; [|by apply IH].
  destruct (registry_entry _ _ _ _ (mi_wf _ _ Hm) Hsrv) as (-> & _). assert (Hp : p <> UINT_MAX) by congruence.
  destruct (server_del_full r id a p srv s (mi_wf _ _ Hm) Ha Hsrv) as (s1 & Hr1 & W1 & N1 & L1 & K1 & M1 & T1 & R1).
  rewrite (st_bind_ok _ _ _ _ _ Hr1). rewrite (mi_mem _ _ Hm) in M1.
  destruct (mirror_del s w s1 id p srv Hm Hsrv Hid Hp W1 M1 K1 R1) as (w1 & Hrecv & Hmir).
  destruct (IH s1 w1 Hmir ltac:(congruence)) as (s2 & new & w2 & Hr2 & N2 & L2 & T2 & Hrecv2 & Hmir2 & R2).
  { rewrite R1. by case_decide. }
  exists s2, (del_packets s srv ++ new), w2. split; [done|]. split; [congruence|]. split; [congruence|].
  split; [by rewrite T2, T1, app_assoc|]. split; [|split; [done|]].
  - rewrite to_me_app, to_me_del by apply Hm. by rewrite (recv_pkts_app _ _ _ _ Hrecv).
  - intros n q. destruct (R2 n q) as [-> | ->]; [by left|]. rewrite R1. case_decide; [by left|by right].
Qed.

(** Telling the servers of the local node: nothing goes to the handle, which is none. *)
Lemma tell_local_mirror s w pkt : mirror s w -> registry s (sq_node me) (sq_port me) = None ->
  exists s' t, tell_local r pkt s = Ok (0, s') /\ ns_sent s' = ns_sent s ++ t /\ to_me t = [] /\ mirror s' w.
Proof.
  intros Hm Hself. destruct (node_get_full (ns_local s) s (mi_wf _ _ Hm) (mi_mem _ _ Hm)) as (b & s3 & Hg3 & Hb & [W3 L3 K3 T3 M3 R3]).
  destruct (tell_servers_full r b pkt (xa_indices (n_servers (node_at s3 b))) s3) as (t & Hr4 & Ht).
  set (s4 := with_sent s3 (ns_sent s3 ++ t)) in Hr4. exists s4, t. split; [|split; [|split]].
  - unfold tell_local. st_run. rewrite (st_bind_ok _ _ _ _ _ Hg3). st_run. by rewrite (st_bind_ok _ _ _ _ _ Hr4).
  - cbn. by rewrite T3.
  - unfold to_me. destruct (filter (fun x => x.1 = me) t) as [|x t'] eqn:E; [done|]. exfalso.
    assert (Hx : x ∈ filter (fun x => x.1 = me) t) by (rewrite E; left). apply list_elem_of_filter in Hx as [Hx1 Hx].
    apply Ht in Hx as (i & srv & _ & Hi & ->). rewrite <-(registry_node s3 (ns_local s)) in Hi by done.
    destruct (registry_entry _ _ _ _ W3 Hi) as (E1 & E2 & _). cbn in Hx1. rewrite <-Hx1 in Hself. cbn in Hself.
    rewrite R3 in Hi. rewrite E1, E2 in Hself. congruence.
  - apply (mirror_same s); [done|by apply (ext_rest 0 s3)|cbn; by rewrite M3, (mi_mem _ _ Hm)|cbn; congruence|].
    intros n q. change (registry s4 n q) with (registry s3 n q). apply R3.
Qed.

Lemma step_bye s w from w0 w1 w2 w3 : mirror s w -> sq_node from <> UINT_MAX ->
  registry s (sq_node from) UINT_MAX = None -> registry s (sq_node me) (sq_port me) = None ->
  exists s' w', sys_handle from (Pkt QRTR_TYPE_BYE w0 w1 w2 w3) (s, w) = Ok (s', w') /\ mirror s' w'.
Proof.
  intros Hm Hid Hno Hself. destruct (node_get_full (sq_node from) s (mi_wf _ _ Hm) (mi_mem _ _ Hm)) as (a & s1 & Hg & Ha & [W1 L1 K1 T1 M1 R1]).
  assert (Hm1 : mirror s1 w) by (apply (mirror_same s); [done|done|by rewrite M1, (mi_mem _ _ Hm)|done..]).
  destruct (del_servers_mirror (sq_node from) a (xa_indices (n_servers (node_at s1 a))) Hid s1 w Hm1 Ha) as
    (s2 & new & w' & Hr2 & N2 & L2 & T2 & Hrecv & Hm2 & R2); [by rewrite R1|].
  destruct (tell_local_mirror s2 w' (Pkt QRTR_TYPE_BYE (sq_node from) 0 0 0) Hm2) as (s4 & t & Hr4 & T4 & Hnone & Hm4).
  { destruct (R2 (sq_node me) (sq_port me)) as [?|R2']; [done|]. by rewrite R2', R1. }
  exists s4, w'. split; [|done]. eapply (sys_handle_ok s w s4 w' from _ 0 (new ++ t)).
  - change (handle_pkt r from (Pkt QRTR_TYPE_BYE w0 w1 w2 w3) s) with (ctrl_cmd_bye r from s). unfold ctrl_cmd_bye.
    rewrite (st_bind_ok _ _ _ _ _ Hg). st_run. by rewrite (st_bind_ok _ _ _ _ _ Hr2).
  - by rewrite T4, T2, T1, app_assoc.
  - by rewrite to_me_app, Hnone, app_nil_r.
Qed.

(** A packet after which the handle gets nothing. *)
Lemma step_silent s w from pkt ret s' new : mirror s w -> handle_pkt r from pkt s = Ok (ret, s') ->
  ns_sent s' = ns_sent s ++ new -> to_me new = [] -> mirror s' w ->
  exists s' w', sys_handle from pkt (s, w) = Ok (s', w') /\ mirror s' w'.
Proof. intros Hm Hr Ht Hn Hm'. exists s', w. split; [|done]. eapply sys_handle_ok; [exact Hr|exact Ht|by rewrite Hn]. Qed.

Lemma step_refused s w from pkt ret : mirror s w -> handle_pkt r from pkt s = Ok (ret, s) ->
  exists s' w', sys_handle from pkt (s, w) = Ok (s', w') /\ mirror s' w'.
Proof. intros Hm Hr. apply (step_silent s w from pkt ret s []); [done|done|by rewrite app_nil_r|done|done]. Qed.

Lemma new_refused s from service instance node port id p : server_key s from node port = (id, p) ->
  sq_node from <> id \/ service = 0 \/ p = 0 ->
  ctrl_cmd_new_server r from service instance node port s = Ok (- EINVAL, s).
Proof.
  intros Hk Hbad. unfold ctrl_cmd_new_server. st_run. unfold server_key in Hk. rewrite Hk.
  destruct (sq_node from =? id) eqn:E; [|done]. cbn [negb]. unfold server_add.
  replace ((service =? 0) || (p =? 0)) with true by lia. done.
Qed.

Lemma del_refused s from service instance node port id p : server_key s from node port = (id, p) ->
  sq_node from <> id -> ctrl_cmd_del_server r from service instance node port s = Ok (- EINVAL, s).
Proof.
  intros Hk Hbad. unfold ctrl_cmd_del_server. st_run. unfold server_key in Hk. rewrite Hk.
  by rewrite (proj2 (Z.eqb_neq _ _) Hbad).
Qed.

Lemma others_lookups (P : qrtr_lookup -> Prop) `{forall l, Decision (P l)} (l : list qrtr_lookup) : (forall x, l_sq x = me -> P x) ->
  filter (fun x => l_sq x = me) (filter P l) = filter (fun x => l_sq x = me) l.
Proof. intros HP. rewrite list_filter_filter. apply list_filter_iff. intros x. split; [by intros []|]. intros Hx. split; [done|by apply HP]. Qed.

(** A client that leaves takes its lookups and the server at its port along. *)
Lemma step_client s w from id p w2 w3 : mirror s w -> id <> UINT_MAX -> p <> UINT_MAX -> Sockaddr id p <> me ->
  registry s (sq_node me) (sq_port me) = None ->
  exists s' w', sys_handle from (Pkt QRTR_TYPE_DEL_CLIENT id p w2 w3) (s, w) = Ok (s', w') /\ mirror s' w'.
Proof.
  intros Hm Hid Hp Hne Hself. set (pkt := Pkt _ _ _ _ _).
  assert (Hrun : handle_pkt r from pkt s = ctrl_cmd_del_client r from id p s) by reflexivity.
  unfold ctrl_cmd_del_client in Hrun. destruct (negb (sq_node from =? id)); [by eapply step_refused|].
  rewrite st_bind_get in Hrun. destruct (_ && _) in Hrun; [by eapply step_refused|]. rewrite st_bind_upd in Hrun.
  set (s0 := with_lookups s _) in Hrun.
  assert (Hm0 : mirror s0 w).
  { apply (mirror_quiet s); [done|apply (ext_rest 0 s); by try apply Hm|by apply Hm| |done].
    cbn. apply others_lookups. intros l Hl [<- <-]. apply Hne. rewrite <-Hl. by destruct (l_sq l). }
  destruct (node_get_full id s0 (mi_wf _ _ Hm0) (mi_mem _ _ Hm0)) as (a & s1 & Hg & Ha & [W1 L1 K1 T1 M1 R1]).
  assert (Hm1 : mirror s1 w) by (apply (mirror_same s0); [done|done|by rewrite M1, (mi_mem _ _ Hm0)|done..]).
  rewrite (st_bind_ok _ _ _ _ _ Hg), st_bind_bind in Hrun.
  assert (Hdel : exists ret s2 new w', server_del r a p s1 = Ok (ret, s2) /\ ns_sent s2 = ns_sent s1 ++ new /\
    recv_pkts (to_me new) w = Ok (tt, w') /\ mirror s2 w' /\ registry s2 (sq_node me) (sq_port me) = None).
  { destruct (registry s1 id p) as [srv|] eqn:Hsrv.
    - destruct (server_del_full r id a p srv s1 W1 Ha Hsrv) as (s2 & Hr2 & W2 & _ & L2 & K2 & M2 & T2 & R2).
      destruct (mirror_del s1 w s2 id p srv Hm1 Hsrv Hid Hp W2 ltac:(rewrite M2; apply Hm1) K2 R2) as (w' & Hrecv & Hm2).
      exists 0, s2, (del_packets s1 srv), w'. split_and!; [done|done|by rewrite to_me_del by apply Hm1|done|].
      rewrite R2, R1. by case_decide.
    - exists (- ENOENT), s1, [], w. rewrite app_nil_r. split_and!; [|done|done|done|by rewrite R1].
      unfold server_del. st_run. by rewrite <-(registry_node _ _ _ _ Ha), Hsrv. }
  destruct Hdel as (ret & s2 & new & w' & Hr2 & T2 & Hrecv & Hm2 & Hself2).
  rewrite (st_bind_ok _ _ _ _ _ Hr2), st_bind_ret in Hrun.
  destruct (tell_local_mirror s2 w' (Pkt QRTR_TYPE_DEL_CLIENT id p 0 0) Hm2 Hself2) as (s4 & t & Hr4 & T4 & Hnone & Hm4).
  exists s4, w'. split; [|done]. rewrite Hr4 in Hrun. eapply (sys_handle_ok s w s4 w' from _ 0 (new ++ t)); [exact Hrun| |].
  - by rewrite T4, T2, T1, app_assoc.
  - by rewrite to_me_app, Hnone, app_nil_r.
Qed.

(** An operation that only sends, and only to [dest]. *)
Definition sends_to {A} (dest : sockaddr_qrtr) (c : ST ns A) : Prop :=
  forall s, exists x t, c s = Ok (x, with_sent s (ns_sent s ++ t)) /\ Forall (fun y => y.1 = dest) t.

Lemma sends_ret {A} dest (x : A) : sends_to dest (st_ret x).
Proof. intros s. exists x, []. rewrite app_nil_r. split; [by destruct s|constructor]. Qed.

Lemma sends_bind {A B} dest (c : ST ns A) (k : A -> ST ns B) : sends_to dest c ->
  (forall x, sends_to dest (k x)) -> sends_to dest (st_bind c k).
Proof.
  intros Hc Hk s. destruct (Hc s) as (x & t & Hr & Ht). destruct (Hk x (with_sent s (ns_sent s ++ t))) as (y & t2 & Hr2 & Ht2).
  exists y, (t ++ t2). rewrite (st_bind_ok _ _ _ _ _ Hr), Hr2. cbn. rewrite app_assoc. split; [done|]. by apply Forall_app.
Qed.

Lemma sends_get {A B} dest (f : ns -> A) (k : A -> ST ns B) : (forall x, sends_to dest (k x)) ->
  sends_to dest (st_bind (st_get f) k).
Proof. intros Hk s. apply (Hk (f s)). Qed.

Lemma sends_msg dest pkt : sends_to dest (kernel_sendmsg r dest pkt).
Proof. intros s. eexists _, [(dest, pkt)]. split; [reflexivity|]. by apply Forall_singleton. Qed.

Ltac sends_step :=
  first [apply sends_get; intros ? | apply sends_msg | apply sends_ret | apply sends_bind; [|intros ?] | case_match].

Lemma announce_node_sends dest a l : sends_to dest (announce_node r dest a l).
Proof. induction l; cbn [announce_node]; unfold service_announce_new; repeat first [done | sends_step]. Qed.

Lemma announce_nodes_sends dest l : sends_to dest (announce_nodes r dest l).
Proof. induction l; cbn [announce_nodes]; repeat first [done | apply announce_node_sends | sends_step]. Qed.

Lemma hello_sends from : sends_to from (ctrl_cmd_hello r from).
Proof. unfold ctrl_cmd_hello, say_hello, announce_servers. repeat first [apply announce_nodes_sends | sends_step]. Qed.

Lemma to_me_other dest t : dest <> me -> Forall (fun y : sockaddr_qrtr * qrtr_ctrl_pkt => y.1 = dest) t -> to_me t = [].
Proof.
  intros Hne. unfold to_me. induction 1 as [|x t Hx Ht IH]; [done|]. rewrite filter_cons, decide_False by congruence. exact IH.
Qed.

Lemma step_hello s w from w0 w1 w2 w3 : mirror s w -> from <> me ->
  exists s' w', sys_handle from (Pkt QRTR_TYPE_HELLO w0 w1 w2 w3) (s, w) = Ok (s', w') /\ mirror s' w'.
Proof.
  intros Hm Hne. destruct (hello_sends from s) as (ret & t & Hr & Ht).
  eapply (step_silent s w from _ ret _ t); [done|exact Hr|done|by eapply to_me_other|].
  apply (mirror_same s); [done|apply (ext_rest 0 s); by try apply Hm|by apply Hm|done|done].
Qed.

(** Lookups of other sockets come and go. *)
Lemma step_lookup_other s w from service instance w2 w3 : mirror s w -> from <> me -> 0 <= instance ->
  exists s' w', sys_handle from (Pkt QRTR_TYPE_NEW_LOOKUP service instance w2 w3) (s, w) = Ok (s', w') /\ mirror s' w'.
Proof.
  intros Hm Hne Hi. set (pkt := Pkt _ _ _ _ _).
  assert (Hrun : handle_pkt r from pkt s = ctrl_cmd_new_lookup r from service instance s) by reflexivity.
  destruct (new_lookup_correct r from service instance s (mi_wf _ _ Hm) (mi_mem _ _ Hm) Hi) as [[_ Hr]|[Hloc _]].
  { eapply step_refused; [done|]. by rewrite Hrun, Hr. }
  destruct (new_lookup_full r from service instance s (mi_wf _ _ Hm) (mi_mem _ _ Hm) Hi Hloc)
    as (l & s' & Hr & W' & _ & M' & L' & R' & T' & _). rewrite Hr in Hrun.
  eapply (step_silent s w from pkt 0 s'); [done|exact Hrun|exact T'| |].
  - apply (to_me_other from); [done|]. apply Forall_app. split; [|by apply Forall_singleton].
    apply Forall_forall. unfold listed. by intros x (srv & -> & _)%list_elem_of_fmap.
  - apply (mirror_quiet s); [done|done|done| |done].
    rewrite L', filter_app, (filter_cons_False _ _ []) by done. by rewrite app_nil_r.
Qed.

Lemma step_lookup_end s w from service instance w2 w3 : mirror s w -> from <> me ->
  exists s' w', sys_handle from (Pkt QRTR_TYPE_DEL_LOOKUP service instance w2 w3) (s, w) = Ok (s', w') /\ mirror s' w'.
Proof.
  intros Hm Hne. eapply (step_silent s w from _ 0 _ []); [done|reflexivity|by rewrite app_nil_r|done|].
  apply (mirror_quiet s); [done|apply (ext_rest 0 s); by try apply Hm|by apply Hm| |done].
  cbn. apply others_lookups. intros x Hx [H1 [H2 _]]. apply Hne. rewrite <-Hx. destruct (l_sq x), from. cbn in *. congruence.
Qed.

Lemma other_ignored s from pkt :
  p_cmd pkt ∉ [QRTR_TYPE_HELLO; QRTR_TYPE_BYE; QRTR_TYPE_DEL_CLIENT; QRTR_TYPE_NEW_SERVER;
    QRTR_TYPE_DEL_SERVER; QRTR_TYPE_NEW_LOOKUP; QRTR_TYPE_DEL_LOOKUP] -> handle_pkt r from pkt s = Ok (0, s).
Proof.
  rewrite !not_elem_of_cons. intros (?&?&?&?&?&?&?&_). unfold handle_pkt.
  by repeat rewrite (proj2 (Z.eqb_neq _ _)) by done.
Qed.

Lemma to_me_listed l : to_me (listed me l) = map (server_pkt QRTR_TYPE_NEW_SERVER) l.
Proof.
  unfold to_me, listed. induction l as [|srv l IH]; [done|]. cbn [map]. rewrite filter_cons, decide_True by done. cbn. by rewrite IH.
Qed.

Lemma track_listed l : forall acc, Forall (fun srv => s_port srv <> 0) l ->
  foldl track acc (map (server_pkt QRTR_TYPE_NEW_SERVER) l) = reverse (map svc_of l) ++ acc.
Proof.
  induction l as [|srv l IH]; intros acc Hl; [done|]. apply Forall_cons in Hl as [Hp Hl]. cbn [map foldl]. rewrite IH by done.
  rewrite reverse_cons, <-app_assoc. f_equal. unfold track. cbn. replace (s_port srv =? 0) with false by lia. by rewrite andb_false_r.
Qed.

(** The answer to the lookup of the handle. *)
Lemma step_lookup s w : ns_wf s -> ns_mem s = [] -> l_sq lk = me -> sq_node me = ns_local s -> 0 <= l_instance lk ->
  (forall l, l ∈ ns_lookups s -> l_sq l <> me) ->
  (forall node port srv, registry s node port = Some srv -> pkt_ok (server_pkt QRTR_TYPE_NEW_SERVER srv)) ->
  listening w -> q_results (w_h w) = [] ->
  exists s' w', sys_handle me (Pkt QRTR_TYPE_NEW_LOOKUP (l_service lk) (l_instance lk) 0 0) (s, w) = Ok (s', w') /\ mirror s' w'.
Proof.
  intros Hw Hm Hlk Hnode Hi Hno Hu Hli Hres.
  destruct (new_lookup_full r me (l_service lk) (l_instance lk) s Hw Hm Hi Hnode) as (l & s' & Hrun & Hw' & _ & Hm' & Hl & Hreg & Hsent & Hnd & Hin).
  replace (Lookup (l_service lk) (l_instance lk) me) with lk in Hl, Hin by (rewrite <-Hlk; by destruct lk).
  assert (Hent : forall srv, srv ∈ l -> exists node port, registry s node port = Some srv) by (intros srv (n & p & ? & _)%Hin; eauto).
  set (eof := Pkt QRTR_TYPE_NEW_SERVER 0 0 0 0) in *.
  destruct (recv_pkts_ok (map (server_pkt QRTR_TYPE_NEW_SERVER) l ++ [eof]) w) as (w' & Hrecv & Hli' & Hres'); [|done|].
  { apply Forall_app. split; [|by apply Forall_singleton, pkt_ok_intro]. apply Forall_map, Forall_forall. intros srv (n & p & Hs)%Hent. by eapply Hu. }
  exists s', w'. split.
  { eapply sys_handle_ok; [exact Hrun|exact Hsent|]. rewrite to_me_app, to_me_listed. unfold to_me at 1.
    rewrite filter_cons, decide_True by done. exact Hrecv. }
  assert (Hq : q_results (w_h w') = reverse (map svc_of l)).
  { rewrite Hres', Hres, foldl_app. cbn [foldl]. rewrite track_listed, app_nil_r; [done|].
    apply Forall_forall. intros srv (n & p & Hs)%Hent. by destruct (registry_entry _ _ _ _ Hw Hs) as (-> & _ & _ & ? & _). }
  split; [done|done| | |done|rewrite Hq|intros svc; rewrite Hq].
  - rewrite Hl, filter_app, (filter_cons_True _ lk []) by done. 
    destruct (filter (fun l => l_sq l = me) (ns_lookups s)) as [|x t] eqn:E; [done|]. exfalso.
    assert (Hx : x ∈ filter (fun l => l_sq l = me) (ns_lookups s)) by (rewrite E; left).
    apply list_elem_of_filter in Hx as [? Hx]. by apply (Hno x).
  - intros node port srv. rewrite Hreg. apply Hu.
  - rewrite reverse_Permutation. apply (NoDup_fmap_2_strong svc_of l); [|done]. intros x y Hx Hy E.
    destruct (Hent x Hx) as (n & p & Hsx), (Hent y Hy) as (n' & p' & Hsy).
    destruct (svc_of_place _ _ _ _ Hw Hsx) as [E1 E2], (svc_of_place _ _ _ _ Hw Hsy) as [E3 E4]. rewrite E in E1, E2. congruence.
  - rewrite elem_of_reverse, list_elem_of_fmap. setoid_rewrite Hreg. split.
    + intros (srv & -> & (n & p & Hs & Hwa)%Hin). by exists n, p, srv.
    + intros (n & p & srv & Hs & Hwa & ->). exists srv. split; [done|]. apply Hin. by exists n, p.
Qed.

Definition sys_step (c c' : ns * W) : Prop := exists from p, fair c.1 from p /\ sys_handle from p c = Ok c'.

Lemma fair_mirror c from p : mirror c.1 c.2 -> fair c.1 from p -> exists c', sys_handle from p c = Ok c' /\ mirror c'.1 c'.2.
Proof.
  destruct c as [s w]. cbn [fst snd]. intros Hm Hf.
  assert (Hstep : exists s' w', sys_handle from p (s, w) = Ok (s', w') /\ mirror s' w').
  { destruct Hf.
    - by eapply step_new.
    - eapply step_refused; [done|]. by eapply new_refused.
    - by eapply step_del.
    - eapply step_refused; [done|]. by eapply del_refused.
    - by apply step_bye.
    - by apply step_client.
    - by apply step_hello.
    - by apply step_lookup_other.
    - by apply step_lookup_end.
    - eapply step_refused; [done|]. by apply other_ignored. }
  destruct Hstep as (s' & w' & ? & ?). by exists (s', w').
Qed.

(** C9: a handle knows the servers it looks for.  The name service and the handle have memory,
    the service can broadcast, the owner accepts every server, and the handle is new to the
    service.  The lookup the handle registers is answered by the
    name service with the registered servers it wants.  From then on every control packet is
    handled, whoever sends it and whether it is refused or not, if it is [fair]: it does not
    register a server at a port that has one (its observers are not told), no node or port in it
    is all ones, a hello or a lookup is not of the handle's own socket, and a node or client
    that leaves is not that socket, where no server is either.  After the packets the handle gets for it its list holds exactly
    the servers of
    the registry that match the lookup, each once, with the service, the version, the
    instance and the address they registered. *)
Theorem qmi_discovery s w i service version instance :
  ns_wf s -> ns_mem s = [] -> sq_node me = ns_local s -> (forall l, l ∈ ns_lookups s -> l_sq l <> me) ->
  (forall node port srv, registry s node port = Some srv -> pkt_ok (server_pkt QRTR_TYPE_NEW_SERVER srv)) ->
  listening w -> q_results (w_h w) = [] -> q_sock (w_h w) = SPtr i -> q_sq (w_h w) = me ->
  0 <= service < 2 ^ 32 -> lk = Lookup service (svc_instance (Svc service version instance 0 0)) me ->
  let pkt := Pkt QRTR_TYPE_NEW_LOOKUP service (l_instance lk) 0 0 in
  (exists ret k, ks_sendmsg i (Some (Sockaddr (sq_node me) QRTR_PORT_CTRL)) (pkt_bytes pkt) (w_sock w) = Ok (ret, k)) ->
  exists ret w1 c, qmi_add_lookup service version instance w = Ok (0, w1) /\
    ks_sendmsg i (Some (Sockaddr (sq_node me) QRTR_PORT_CTRL)) (pkt_bytes pkt) (w_sock w) = Ok (ret, w_sock w1) /\
    sys_handle me (pkt_at (pkt_bytes pkt)) (s, w1) = Ok c /\
    forall c', rtc sys_step c c' -> mirror c'.1 c'.2 /\
      forall from p, fair c'.1 from p -> exists c'', sys_handle from p c' = Ok c''.
Proof.
  intros Hw Hm Hnode Hno Hu Hli Hres Hsock Hsq Hsv Hlk pkt (ret & k & Hk). pose proof (u32_range (Z.lor version (Z.shiftl instance 8))) as Hinst.
  assert (Hl1 : l_sq lk = me) by (by rewrite Hlk). assert (Hl2 : l_service lk = service) by (by rewrite Hlk).
  assert (Hl3 : 0 <= l_instance lk < 2 ^ 32) by (by rewrite Hlk).
  destruct (alloc_answer w) as (ok & l & Hok & Hl). destruct (Hl (li_alloc _ Hli)) as [-> ->].
  set (w1 := with_w_sock k (with_h (fun h => set_lookups (Svc service version instance 0 0 :: q_lookups h) h) (with_allocs [] w))).
  assert (Hadd : qmi_add_lookup service version instance w = Ok (0, w1)).
  { unfold qmi_add_lookup. rewrite (st_bind_ok _ _ _ _ _ Hok). cbn [negb]. unfold upd_h, qmi_send_new_lookup, sock_send, get_h. st_run.
    cbn [w_h with_h with_allocs q_sq q_sock set_lookups]. rewrite Hsock. unfold st_bind, on_sock. cbn [w_sock with_h with_allocs].
    unfold pkt in Hk. rewrite Hlk in Hk. cbn [l_instance] in Hk. rewrite Hsq. cbn [v_service]. by rewrite Hk. }
  assert (Hli1 : listening w1) by (destruct Hli; by split).
  destruct (step_lookup s w1 Hw Hm Hl1 Hnode ltac:(lia) Hno Hu Hli1 Hres) as (s2 & w2 & Hstep & Hmir).
  exists ret, w1, (s2, w2). split; [done|]. split; [exact Hk|]. split.
  { rewrite <-(app_nil_r (pkt_bytes pkt)), pkt_roundtrip; [by rewrite Hl2 in Hstep|]. by apply pkt_ok_intro. }
  intros c' Hr. assert (Hm' : mirror c'.1 c'.2).
  { remember (s2, w2) as c0 eqn:E. assert (Hm0 : mirror c0.1 c0.2) by (by subst). clear E Hstep Hmir.
    induction Hr as [|c1 c2 c3 (from & p & Hf & Hs) _ IH]; [done|]. apply IH.
    destruct (fair_mirror c1 from p Hm0 Hf) as (c'' & Hs' & ?). congruence. }
  split; [done|]. intros from p Hf. destruct (fair_mirror c' from p Hm' Hf) as (c'' & ? & _). eauto.
Qed.
End handle.
