(* ===== verification/QmiExamples.v ===== *)
(** * The QMI interface on concrete states

    A layout of the message header, handles on the sockets of a router, the theorems at work
    on them, and the places where the code does not do what it means to. *)
From S2P Require Import Prelude CMem KernelIdr QrtrNs QrtrRegistry QrtrRouter QrtrSocket QrtrResume QrtrDelivery QrtrDemo.
From S2P Require Import QmiEncdec QmiWire QmiRoundtrip QmiInterface QmiTxn QmiCall QmiDiscovery.
Open Scope c_scope.
Import QmiDemo.

(** ** The header

    The four fields follow each other in seven bytes. *)
Module HeaderDemo.
Definition get_type (m : mem) : Z := le_load m (m_base m) 1.
Definition get_txn (m : mem) : Z := le_load m (m_base m + 1) 2.
Definition get_msg (m : mem) : Z := le_load m (m_base m + 3) 2.

Lemma get_put t i x n m : 0 <= t < 2 ^ 8 -> 0 <= i < 2 ^ 16 -> 0 <= x < 2 ^ 16 ->
  let m' := put_qmi_header t i x n m in get_type m' = t /\ get_txn m' = i /\ get_msg m' = x.
Proof.
  intros Ht Hi Hx m'. change m' with (put_header t i x n m). unfold get_type, get_txn, get_msg. rewrite (proj1 (put_header_window t i x n m)).
  unfold put_header. repeat first [rewrite le_load_store_disj by (cbn; lia)|rewrite le_load_store_same].
  rewrite !Z.mod_small by (cbn; lia). done.
Qed.

Lemma get_agree m m' : m_base m = m_base m' -> bytes_at m (m_base m) (Z.to_nat sizeof_qmi_header) = bytes_at m' (m_base m) (Z.to_nat sizeof_qmi_header) ->
  get_type m = get_type m' /\ get_txn m = get_txn m' /\ get_msg m = get_msg m'.
Proof.
  change (Z.to_nat sizeof_qmi_header) with 7%nat. intros Hb Hall. unfold get_type, get_txn, get_msg. rewrite <-Hb.
  assert (Hbyte : forall b, m_base m <= b < m_base m + 7 -> get_byte m b = get_byte m' b).
  { intros b Hr. pose proof (bytes_at_lookup m 7 (m_base m) (Z.to_nat (b - m_base m)) ltac:(lia)) as H1.
    pose proof (bytes_at_lookup m' 7 (m_base m) (Z.to_nat (b - m_base m)) ltac:(lia)) as H2. rewrite Hall in H1.
    rewrite H1 in H2. replace (m_base m + Z.of_nat (Z.to_nat (b - m_base m))) with b in H2 by lia. congruence. }
  split; [|split]; apply le_load_agree; intros b Hr; apply Hbyte; lia.
Qed.

Lemma types_distinct : 0 <= 0 < 2 ^ 8 /\ 0 <= 2 < 2 ^ 8 /\ 0 <= 4 < 2 ^ 8 /\ 0 <> 2 /\ 4 <> 2.
Proof. lia. Qed.

#[export] Instance fields : @QmiFields QmiDemo.header := {|
  QMI_REQUEST := 0; QMI_RESPONSE := 2; QMI_INDICATION := 4;
  hdr_type := get_type; hdr_txn := get_txn; hdr_msg := get_msg; txn_id := u16;
  fields_put := get_put; fields_agree := get_agree; types_ok := types_distinct; txn_id_16 := u16_id;
|}.
End HeaderDemo.
Import HeaderDemo.

(** ** Handles on the sockets of a router *)
Module CallDemo.
#[export] Instance sockets : KernelSockets router := router_sockets RouterDemo.nowait 3.
#[export] Instance laws : SocketLaws router := router_laws RouterDemo.nowait 3.

Definition handle (i port : Z) : qmi_handle :=
  Handle (SPtr i) (Sockaddr 1 port) [] [] [] ∅ 0 (Mem 0 128 ∅) true false {[i]}.
Definition client : world router unit :=
  World RouterDemo.start tt (handle 21 0x4001) {[1 := Txn 0 0 0 None None]} 2 (Mem 0 16 ∅) [].
Definition server : world router unit :=
  World RouterDemo.start tt (handle 22 0x4002) ∅ 0 (Mem 0 0 ∅) [].
Definition no_ops : qmi_ops (world router unit) := Ops None None None None None None.

(** The service answers with the first number of the request plus one. *)
Definition ritems : list item := [Item 1 None None NO_ARRAY 1 4 0 QMI_UNSIGNED_4_BYTE []].
Definition answer (d : mem) : mem := le_store (Mem 0 4 ∅) 0 4 (le_load d 0 4 + 1).
Definition handlers : list (qmi_msg_handler (world router unit)) :=
  [Handler QMI_REQUEST 0x21 (Some (table QmiDemo.items)) 33 (Some (serve 40 answer 0x21 16 ritems)); Handler 0 0 None 0 None].

Lemma link : ks_linked (w_sock client) 21 22 (Sockaddr 1 0x4001) (Sockaddr 1 0x4002).
Proof.
  split; [apply RouterDemo.demo_well|]. split; [lia|]. split; [reflexivity|].
  split; [exists (RouterDemo.sock 0x4001 2)|exists (RouterDemo.sock 0x4002 2)];
    (split; [vm_compute; reflexivity|]; split; [repeat split; cbn; lia|]; split; [reflexivity|]; split; [reflexivity|];
     split; [discriminate|]; split; [discriminate|vm_compute; reflexivity]).
Qed.

Lemma request_sendable : sendable 40 QmiDemo.src 0 33 QmiDemo.items 64.
Proof.
  split; [vm_compute; reflexivity|vm_compute; reflexivity| | | |].
  - split; vm_compute; discriminate.
  - vm_compute. lia.
  - vm_compute. discriminate.
  - vm_compute. discriminate.
Qed.

Lemma answer_sendable d : sendable 40 (answer d) 0 4 ritems 16.
Proof.
  split; [vm_compute; reflexivity|reflexivity| | | |].
  - split; vm_compute; discriminate.
  - vm_compute. lia.
  - vm_compute. discriminate.
  - vm_compute. discriminate.
Qed.

Lemma dest_clear : flags_clear (w_mem client) 8 ritems.
Proof. intros it o [->|Hit]%elem_of_cons Ho; [done|by apply elem_of_nil in Hit]. Qed.
End CallDemo.
Import CallDemo.

Lemma qmi_call_correct_witness : exists id wc1 wc2 d ws1 wc3 wc4,
  qmi_txn_init 1 (Some (table ritems)) (Some 8) client = Ok (id, wc1) /\
  qmi_send_request 40 (Some (Sockaddr 1 0x4002)) 1 0x21 64 (Some (table QmiDemo.items)) QmiDemo.src (Some 0) wc1 = Ok (0, wc2) /\
  qmi_data_ready_work 100 40 no_ops (Some handlers) 2 (with_w_sock (w_sock wc2) server) = Ok (tt, ws1) /\
  qmi_data_ready_work 100 40 no_ops None 2 (with_w_sock (w_sock ws1) wc2) = Ok (tt, wc3) /\
  qmi_txn_wait 1 wc3 = Ok (7, wc4) /\
  same_contents (answer d) 0 (w_mem wc4) 8 ritems.
Proof.
  destruct (qmi_call_correct 100 40 client server no_ops None no_ops handlers
    (Handler QMI_REQUEST 0x21 (Some (table QmiDemo.items)) 33 (Some (serve 40 answer 0x21 16 ritems))) answer 21 22
    (Sockaddr 1 0x4001) (Sockaddr 1 0x4002) 1 8 0x21 QmiDemo.src 0 33 QmiDemo.items 64 4 ritems 16 0)
    as (id & wc1 & wc2 & d & ws1 & wc3 & r & wc4 & H1 & H2 & H3 & _ & H4 & H5 & Hr & H6 & _).
  - exact link.
  - split; [reflexivity|reflexivity|vm_compute; discriminate|reflexivity].
  - split; [reflexivity|reflexivity|vm_compute; discriminate|reflexivity].
  - reflexivity.
  - reflexivity.
  - lia.
  - eexists. vm_compute. reflexivity.
  - exists 0. split; [vm_compute; split; [discriminate|reflexivity]|reflexivity].
  - exact request_sendable.
  - reflexivity.
  - reflexivity.
  - reflexivity.
  - reflexivity.
  - intros d _. apply answer_sendable.
  - split; vm_compute; discriminate.
  - exact dest_clear.
  - rewrite Hr in H5. exists id, wc1, wc2, d, ws1, wc3, wc4. split; [exact H1|]. split; [exact H2|]. split; [exact H3|].
    split; [exact H4|]. split; [exact H5|exact H6].
Defined.

(** ** Transactions *)
Module TxnDemo.
Definition final {A} (c : ST (world router unit) A) (w : world router unit) : world router unit :=
  match c w with Ok (_, w') => w' | _ => w end.

(** A handle before and after its initialisation, and with one transaction. *)
Definition idle : world router unit :=
  World RouterDemo.start tt (Handle SNull (Sockaddr 0 0) [] [] [] ∅ 0 (Mem 0 0 ∅) false false ∅) ∅ 0 (Mem 0 16 ∅) [].
Definition ready : world router unit := final (qmi_handle_init 100 64) idle.
Definition object : world router unit := final (new_txn (Txn 0 0 0 None None)) ready.
Definition waiting : world router unit := final (qmi_txn_init 0 (Some (table ritems)) (Some 8)) object.

Lemma idle_fresh : objs_fresh idle.
Proof. intros a [t Ht]. cbn in Ht. by rewrite lookup_empty in Ht. Qed.

Lemma init_ok : qmi_handle_init 100 64 idle = Ok (0, ready).
Proof. vm_compute. reflexivity. Qed.

Lemma quiet : owner_calm no_ops None.
Proof. split; discriminate. Qed.

Lemma one_waits : rtc (qstep 100 40 no_ops None) (ready, ∅) (waiting, <[0 := None]> ∅).
Proof.
  apply rtc_once. apply (step_begin 100 40 no_ops None ready ∅ (Some (table ritems)) (Some 8) 0 object 0 waiting).
  - vm_compute. reflexivity.
  - vm_compute. reflexivity.
  - vm_compute. reflexivity.
  - lia.
Qed.
End TxnDemo.
Import TxnDemo.

Lemma qmi_txn_safe_witness : exists w', qmi_txn_cancel 0 waiting = Ok (tt, w') /\ forall id, q_txns (w_h w') !! id <> Some 0.
Proof.
  destruct (qmi_txn_safe 100 40 no_ops None quiet 64 idle ready waiting (<[0 := None]> ∅) idle_fresh init_ok one_waits)
    as (_ & Hheld & _). destruct (Hheld 0) as [_ Hc]; [vm_compute; reflexivity|]. exact Hc.
Defined.

Lemma qmi_release_wakes_witness : exists w2 w3, qmi_handle_release no_ops waiting = Ok (tt, w2) /\
  qmi_txn_wait 0 w2 = Ok (- ENETRESET, w3).
Proof.
  destruct (qmi_release_wakes 100 40 no_ops None quiet 64 idle ready waiting (<[0 := None]> ∅) 30 idle_fresh init_ok one_waits)
    as (w2 & Hr & _ & Hw).
  - vm_compute. reflexivity.
  - vm_compute. reflexivity.
  - eexists. vm_compute. reflexivity.
  - discriminate.
  - destruct (Hw 0) as [w3 H3]; [vm_compute; reflexivity|]. exists w2, w3. split; [exact Hr|exact H3].
Defined.

(** ** Discovery *)
Module FindDemo.
Definition accept : qmi_ops (world router unit) := Ops (Some (fun _ => st_ret 0)) None None None None None.
Definition me : sockaddr_qrtr := Sockaddr 1 0x4001.
Definition lookup : qrtr_lookup := Lookup 15 2 me.

Lemma accepts : owner_accepts accept.
Proof. split; [|discriminate..]. exists (fun _ => st_ret 0). split; [reflexivity|]. intros svc w. exists 0, w. split; [reflexivity|]. split; [lia|by split]. Qed.

Lemma registered node port srv : registry NsDemo.state node port = Some srv -> pkt_ok (server_pkt QRTR_TYPE_NEW_SERVER srv).
Proof.
  assert (En : ns_nodes NsDemo.state = {[1 := 0; 5 := 1]}) by (vm_compute; reflexivity).
  assert (E0 : n_servers (node_at NsDemo.state 0) = {[30 := Server 9 1 1 30]}) by (vm_compute; reflexivity).
  assert (E1 : n_servers (node_at NsDemo.state 1) = {[7 := Server 15 2 5 7]}) by (vm_compute; reflexivity).
  unfold registry. rewrite En. destruct ({[1 := 0; 5 := 1]} !! node) as [a|] eqn:Ea; [|discriminate].
  apply lookup_insert_Some in Ea as [[_ <-]|[_ [_ <-]%lookup_singleton_Some]]; rewrite ?E0, ?E1;
    intros [_ <-]%lookup_singleton_Some; apply pkt_ok_intro; vm_compute; split; congruence.
Qed.

Lemma no_lookup l : l ∈ ns_lookups NsDemo.state -> l_sq l <> me.
Proof.
  assert (E : ns_lookups NsDemo.state = [Lookup 0 0 (Sockaddr 1 40)]) by (vm_compute; reflexivity). rewrite E.
  intros [->|H]%elem_of_cons; [discriminate|by apply elem_of_nil in H].
Qed.
End FindDemo.
Import FindDemo.

Lemma qmi_discovery_witness : exists w1 c c', qmi_add_lookup 15 2 0 client = Ok (0, w1) /\
  sys_handle accept NsDemo.ok me me (pkt_at (pkt_bytes (Pkt QRTR_TYPE_NEW_LOOKUP 15 2 0 0))) (NsDemo.state, w1) = Ok c /\
  sys_handle accept NsDemo.ok me (Sockaddr 5 QRTR_PORT_CTRL) (Pkt QRTR_TYPE_DEL_SERVER 15 2 5 7) c = Ok c' /\
  mirror me lookup c.1 c.2.
Proof.
  destruct (qmi_discovery accept accepts NsDemo.ok me lookup) with (s := NsDemo.state) (w := client) (i := 21)
    (service := 15) (version := 2) (instance := 0) as (ret & w1 & c & H1 & _ & H2 & H3).
  - intros l. unfold NsDemo.ok. lia.
  - discriminate.
  - exact NsDemo.state_wf.
  - exact NsDemo.state_mem.
  - reflexivity.
  - exact no_lookup.
  - exact registered.
  - split; [vm_compute; discriminate|reflexivity].
  - reflexivity.
  - reflexivity.
  - reflexivity.
  - lia.
  - reflexivity.
  - eexists _, _. vm_compute. reflexivity.
  - destruct (H3 c (rtc_refl _ _)) as [Hm Hf].
    destruct (Hf (Sockaddr 5 QRTR_PORT_CTRL) (Pkt QRTR_TYPE_DEL_SERVER 15 2 5 7)) as [c' Hc'].
    + apply (fair_del me c.1 (Sockaddr 5 QRTR_PORT_CTRL) 15 2 5 7 5 7).
      * assert (El : ns_local c.1 = 1).
        { clear H3 Hm Hf. unfold sys_handle in H2. vm_compute in H1. injection H1 as <-. vm_compute in H2. injection H2 as <-. reflexivity. }
        unfold server_key. rewrite El. reflexivity.
      * reflexivity.
      * discriminate.
      * discriminate.
    + exists w1, c, c'. split; [exact H1|]. split; [exact H2|]. split; [exact Hc'|exact Hm].
Defined.

(** ** Where the code does not do what it means to *)

(** The release marks a transaction before it completes it. A waiter whose time is up in
    between sees the mark and returns without the lock, so that its object is gone when the
    release completes it. *)
Theorem release_uses_returned_txn : exists w1 w2,
  release_mark 0 waiting = Ok (tt, w1) /\ qmi_txn_wait 0 w1 = Ok (- ENETRESET, w1) /\
  free_txn 0 w1 = Ok (tt, w2) /\ complete 0 w2 = Fault.
Proof. eexists _, _. split; [vm_compute; reflexivity|]. split; [vm_compute; reflexivity|]. split; vm_compute; reflexivity. Qed.

(** A reset reads the timeout of the socket before it looks whether the handle still has one:
    when the release has started it follows a null pointer, and so does a change of the
    timeout after the release. *)
Theorem net_reset_after_release :
  qmi_handle_net_reset 100 no_ops (with_h (fun h => set_sock SNull (q_sq h) h) ready) = Fault /\
  exists w, qmi_handle_release no_ops ready = Ok (tt, w) /\ qmi_set_sndtimeo 5 w = Fault.
Proof. split; [vm_compute; reflexivity|]. eexists. split; vm_compute; reflexivity. Qed.

(** A node that registers another service at the port of a server replaces the server, but the
    handle that knows it is not told: it keeps a server the registry does not have. *)
Theorem replaced_server_stays : exists w1 c c', qmi_add_lookup 15 2 0 client = Ok (0, w1) /\
  sys_handle accept NsDemo.ok me me (Pkt QRTR_TYPE_NEW_LOOKUP 15 2 0 0) (NsDemo.state, w1) = Ok c /\
  sys_handle accept NsDemo.ok me (Sockaddr 5 QRTR_PORT_CTRL) (Pkt QRTR_TYPE_NEW_SERVER 16 2 5 7) c = Ok c' /\
  q_results (w_h c'.2) = [Svc 15 2 0 5 7] /\ registry c'.1 5 7 = Some (Server 16 2 5 7).
Proof.
  eexists _, _, _. split; [vm_compute; reflexivity|]. split; [vm_compute; reflexivity|].
  split; [vm_compute; reflexivity|]. split; vm_compute; reflexivity.
Qed.
